(* ===== verification/_CoqProject ===== *)
-Q . S2P
Prelude.v
GoString.v
GoPath.v
Float64.v
Runtime.v
TextBound.v
SessionEvent.v
SessionLog.v
SessionDurability.v
SessionPacket.v
SessionSummary.v
SessionRecall.v
ChangeSet.v
Verify.v
FileEdits.v
Apply.v
Evidence.v
ContextRegistry.v
ContextRender.v
ContextPack.v
WatchQueue.v
Savings.v
PathGuard.v
SqlTable.v
FactoryTypes.v
FactoryStore.v
FactoryRoster.v
FactoryMailbox.v
FactoryPlan.v
FactoryKernel.v
FactoryMachine.v
FactoryLedger.v
FactoryInvariant.v
FactorySafety.v
FactoryDemo.v
Contracts.v
BrokerCapability.v
BrokerChangeSet.v
BrokerEffects.v
BrokerCandidate.v
BrokerRunner.v
BrokerHandover.v
BrokerAuthz.v
BrokerAuthority.v
BrokerDemo.v
Composite.v
AuditChain.v
EventKernel.v
AuthorityLedger.v
AuthorityTrail.v
AuthorityInvariant.v
AuthoritySafety.v
AuthorityDemo.v
Chunking.v
ChunkingTokens.v
ChunkingCover.v
ChunkingBlocks.v
ChunkingDocs.v
ChunkingSafety.v
Vault.v
StorageRules.v
VaultRepository.v
VaultFrames.v
VaultStaging.v
VaultSafety.v
VaultTheorems.v
VaultDemo.v
Storage.v
StorageEffects.v
StorageLaws.v
StorageSafety.v
EvidenceLedger.v
DeletionPurge.v
FactualConsistency.v
QueryTypes.v
QueryRetrieval.v
QueryEvidence.v
QueryEngine.v
QuerySafety.v
QueryDemo.v
