(* ===== verification/Prelude.v ===== *)
(** * Sentra Code Memory: a verification library

    The repository is a Go monorepo.  [services/brain] is the memory backend a
    coding agent talks to: it indexes a repository, packs context for a
    request under a budget, keeps a session log, validates and applies change
    sets, reports evidence, answers grounded questions, chunks documents for
    retrieval, and keeps an audited ledger of commands and an encrypted vault of
    artifacts.  [services/broker] and [services/gateway] put
    authorisation and an RPC surface around it; [services/internal] holds
    helpers all of them use.  This library models the code-memory core of the
    brain, its change-run factory, its authority ledger, its artifact vault, its
    chunker and its query engine, the broker that authorises and carries out
    effects, and the shared helpers they stand on, and proves what makes each
    part correct.

    ** Parts and files

    Foundations: the language and its standard library.

    - [Prelude]: errors as values ([result], with [do x <- c1 ; c2]), the
      64-bit wrap-around [wrap64], stable sorting ([sort_by]) with strict weak
      orders as a type class and comparators composed by [on_key]/[then_by],
      deduplication by key, sums over lists, and the hint databases and tactics
      of the development.
    - [GoString]: byte strings, UTF-8 decoding as Go does it (an invalid byte
      is one piece of width 1), the [strings] and [strconv] functions used,
      and the coercion to valid UTF-8 of [encoding/json].
    - [GoPath]: the lexical part of [path/filepath] ([Clean], [Join], [Dir],
      [Base], [Rel]).
    - [Float64]: IEEE binary64 with round-to-nearest-even, over the Standard
      Library's [SpecFloat].
    - [Runtime]: the interface [GoRuntime] of what is used but not written
      here (SHA-256, RFC 3339 parsing, quoting, case mapping, out-of-range
      conversion of floats), with a concrete instance for the examples.

    [services/internal]:

    - [TextBound] for [textbound/textbound.go]: [Bytes], [Runes], [Ellipsis].
    - [PathGuard] for [pathguard/pathguard.go]: [Resolve], [Within],
      [Contain] over an environment [PathEnv] with the laws [PathLaws].

    [services/brain/internal/sessionlog]:

    - [SessionEvent] for [event.go]: the event record, sanitising, validation,
      provenance, identity.
    - [SessionLog] for [log.go]: the writer's operations; [SessionDurability]
      holds its theory over the step relation of appends whose file operations
      may fail.
    - [SessionPacket] for [packet.go], [SessionSummary] for [summary.go],
      [SessionRecall] for [recall.go].

    [services/brain/internal/workflow]:

    - [ChangeSet] for [changeset.go]: the gates of [Validate] and its receipt.
    - [Verify] for [verification_command.go]: the gate on commands a change
      set asks to run.
    - [FileEdits] and [Apply] for [apply.go]: edit splicing, then
      [ApplyChangeSet] in its five phases (request, freeze, stage, verify,
      promote or roll back).
    - [Evidence] for [action.go] and [evidence.go]: envelopes and reports.

    [services/brain/internal/contextpack]:

    - [ContextRegistry] for [handles.go] and [limits.go]: the registry and the
      governor; [ContextRender] for [render.go]; [ContextPack] for [pack.go].

    [services/brain/internal/codecrawl/watch_queue.go] is [WatchQueue];
    [services/brain/internal/savings/ledger.go] is [Savings].

    [services/brain/internal/factory], the kernel that takes a change intent
    through planning, leaves, gates, review and a candidate:

    - [FactoryTypes] for [states.go], [identity.go], [paths.go], [errors.go].
    - [FactoryStore] for [store.go] and the tables, constraints and triggers of
      [localstate/schema/migrations/005_stage05_factory.sql].
    - [FactoryRoster] for [roster/roster.go], [FactoryMailbox] for
      [mailbox/mailbox.go], [FactoryPlan] for [plan.go], [routing.go] and
      [validate.go].
    - [FactoryKernel] for [kernel.go], [admission.go], [lifecycle.go],
      [review.go] and [mailboxops.go]: every operation that writes the ledger.
    - [FactoryMachine] is the abstract specification of one run;
      [FactoryLedger] states the changes a call can make to the ledger and shows
      that each handler makes at most one; [FactoryInvariant] is the step
      relation of the kernel, its invariant and the refinement;
      [FactorySafety] holds the theorems and [FactoryDemo] a concrete run from
      admission to completion, with their witnesses.

    [services/broker], which holds the authority to act:

    - [Contracts] for the value types of [services/internal/contracts].
    - [BrokerCapability] for [internal/capability/grant.go]: grants and their
      attenuation.
    - [BrokerChangeSet] for [internal/factory/changeset], [BrokerEffects] for
      [internal/factory/effects], [BrokerCandidate] for
      [internal/factory/gitcandidate], [BrokerRunner] for
      [internal/factory/runner] and [localauthority/factory.go]: a leaf of a
      change run, from its sealed surface to the candidate tree.
    - [BrokerHandover] for [internal/handover]: the fenced move of a task from
      one realm to another.
    - [BrokerAuthz] for [internal/authz]: the relationship evaluator and the
      OpenFGA client; [BrokerAuthority] for [internal/identity] and
      [localauthority/facade.go], proved against the interface
      [RelationshipStore] that both stores implement.
    - [BrokerDemo]: a concrete leaf run and the witnesses of the broker.

    The authority ledger of the brain:

    - [SqlTable]: what a table, a query and a [CHECK] are read as; used by every
      model of SQL.
    - [AuditChain] for [internal/audit/chain.go]; [EventKernel] for
      [internal/eventkernel/kernel.go].
    - [AuthorityLedger] for [internal/localstate/store.go], [ledger_write.go],
      [internal/deletion/state.go] and the tables of
      [schema/migrations/001_stage02_authority.sql]: the database is the record
      [DB], a statement may fail by [e_fault], a transaction that fails leaves
      the database as it was.  [AuthorityTrail] is the theory of events, outbox,
      audit links and checkpoint, [AuthorityInvariant] the step relation
      [lstep] and its invariant, [AuthoritySafety] the theorems,
      [AuthorityDemo] a run with an ingest and a deletion.

    [services/brain/internal/chunking]:

    - [Chunking] for [tokens.go], [policy.go] and [chunk.go].
    - [ChunkingTokens] relates the tokens to rune boundaries, [ChunkingCover]
      is about windows and receipts, [ChunkingBlocks] about the block splitters
      and packing, [ChunkingDocs] about one document; [ChunkingSafety] holds
      the theorems and the examples.

    [services/brain/internal/artifactvault]:

    - [Composite] for [composite.go] and the other framed texts; [Vault] for [types.go], [crypto.go],
      [localstore.go], [metadata.go] and [vault.go], over an interface
      [Repository] of the metadata.
    - [VaultRepository] states what a repository promises ([RepositoryLaws]) and
      that [MemoryRepository] keeps it; all theorems of the vault are proved
      against the laws.  [VaultFrames] is about one encrypted frame and object,
      [VaultStaging] about the loops, [VaultSafety] about the effect of each call
      and about calls in progress at once; [VaultTheorems] and [VaultDemo] hold
      the theorems and a concrete vault.  The vault takes no lock of its own.
      [interleaved] cuts [StageContent] into [stage_begin], [stage_write], its
      completion and [abort], and the other calls at their repository calls;
      [vault_step] runs whole calls one after the other, which is what all
      theorems but [generations_only_move_forward] assume.

    [services/brain/internal/localstorage], the vault's metadata in SQL:

    - [StorageRules] for [validation.go], [Storage] for [artifact.go],
      [artifact_queries.go] and the artifact tables of migrations 001 and 002
      with their keys, checks and triggers; a statement fails by [StorageEnv].
    - [StorageEffects] is the theory of rows and of each operation,
      [StorageLaws] shows that the tables keep the [RepositoryLaws] of the vault,
      so that its theorems hold over both repositories; [StorageSafety] holds the
      theorems of the tables, with the authority ledger as their second writer,
      and the examples.
    - [EvidenceLedger] for [internal/evidenceledger/ledger.go], its in-memory
      repository and [localstorage/evidence.go]: the ledger is proved against
      [EvidenceLaws], which both repositories keep.
    - [DeletionPurge] for [internal/deletion/purge.go].

    [services/brain/internal/query], which answers a question from a pinned
    generation of the index:

    - [FactualConsistency] for [internal/factualconsistency]: budgets, the call
      of a scorer, the lexical scorer and its calibration.
    - [QueryTypes] for [types.go], [ports.go], [freshness.go] and the records of
      the index; [QueryRetrieval] for [retrieval.go], [multi_query.go],
      [rrf.go], [graph_hop.go], [hybrid_expand.go], [lexical_rerank.go] and
      [internal/rerank/lexical.go]; [QueryEvidence] for [hydrate.go], [pack.go],
      [synthesis.go], its two synthesizers and [compose.go]; [QueryEngine] for
      [engine.go].
    - [QuerySafety] says what a range of lines and columns selects of a text and
      how a query can end, and holds the theorems; [QueryDemo] the examples.

    ** How the parts interact

    [Apply] calls [Validate] twice (declared, then observed digests), the
    verification gate of [Verify] for every command, and [applyFileEdits] for
    every file.  [Pack] renders with [Render], cuts with [truncateLines],
    asks the governor for admission and issues and tracks handles in the
    registry.  The session log writes events of [SessionEvent]; the packet,
    the summary and recall are pure functions of its stream.  [Evidence] and
    [Apply] share deduplication and digests with [ChangeSet].  The factory
    kernel reads and appends rows of the ledger through [FactoryStore], issues
    and checks fenced leases through [FactoryRoster], sends through
    [FactoryMailbox], and compiles and validates with [FactoryPlan]; all of one
    call is one transaction.  The broker's runner validates with
    [BrokerChangeSet], asks [BrokerEffects] before every operation of a
    synthesizer and before every edit that [BrokerCandidate] applies, and both
    rest on [AuthorizeUse] of [BrokerCapability]; the authority facade combines
    the same grants with a relationship store.  The authority ledger appends a
    link of [AuditChain] for every event it inserts, in the same transaction,
    carries out the transitions of [deletion/state.go] inside it, and replays
    events in the form [EventKernel] validates.  The vault keeps ciphertext
    frames in the object store and generations in a repository, and names
    objects, records and receipts with [Composite].  The durable repository and
    the authority ledger write the same table of manifests; [shared_step]
    interleaves them.  The query engine asks its authorizer before it retrieves,
    hydrates and emits, verifies every citation a synthesizer proposes against
    the bytes it hydrated, and scores the verified claims.

    ** Conventions

    A Go method keeps its name; where two would clash it is qualified
    ([EditRange_Valid], [Kind_Valid], [Record_], [begin_], [Summary_of]).  A
    struct is a [Record] whose fields carry a short prefix.  An [int] is a [Z]
    in the 64-bit range and arithmetic that may overflow goes through
    [wrap64].  A pointer receiver is state passed in and returned.  Calls made
    under a mutex are atomic steps.  The file system, Git, processes and
    clocks answer through an environment record or class, so theorems
    quantify over every answer they may give; JSON encoders are parameters
    with the laws of a codec.  In the broker these are [World] (policy, fence
    and clock as one question saw them), [CandEnv] and [BeginEnv] (git, system
    calls that fail, cancellation), the remote relationship server, the realms'
    executors and [reflect.DeepEqual].  In the authority ledger it is [Env]
    (failing statements and clock readings); in the vault [VaultEnv] (failing
    system calls, cancellation, the key resolver), a stream of random bytes, the
    cipher [AEAD] with the round-trip laws [AEADLaws] and the shape of digests
    [DigestLaws]; in the durable repository [StorageEnv]; in the chunker and the
    query engine the Unicode classes [RuneTables] and [LetterTable] and SHA-1
    ([GitHash]).  The ports of the query engine (corpus, authorizer, admitter,
    clock, graph, dense search, reranker, synthesizer, scorer) and its context
    are [QueryEnv], which may answer differently at each point of a call.  Where the broker releases its lock in
    the middle of a method ([Execute], [ResumeTarget], [Cleanup]) a step
    relation ([estep], [hstep]) interleaves callers at exactly those points.

    Loops without a structural argument take fuel: [pieces] takes the length of
    the text (every step consumes a byte), [resolve_loop] one more than the
    number of path elements (every turn removes one), [windows] and [pack_loop]
    the number of tokens and blocks (every turn advances by one at least, which
    [fixedSpans_cover] and [packBlocks_holds] use), [keyword_from] the length of
    the line (every turn moves past an occurrence), [exchange_sort] the number of
    hits.  [pieces_fuel_enough]
    and [Resolve_longest_ancestor] show that neither runs out.  [dec] prints at
    most 20 digits, which every 64-bit number fits.

    ** What the theorems show

    - Durability and atomicity: a change set lands whole or not at all
      ([ApplyChangeSet_all_or_nothing]); an append to the session log succeeds
      in memory and on disk or changes neither ([Append_atomic]), keeps the
      stream consistent ([reachable_stream_consistent]) and its tallies
      ([Append_conserves_tallies]), and reopening restores it
      ([reopen_restores_events]); the savings ledger conserves every step
      ([ledger_summary_exact]) and reopens as it was ([ledger_reopens]); the watcher loses no event
      ([refresh_queue_loses_nothing]).
    - Gates that fail closed and are exact: [Validate_fail_closed],
      [parse_gate], [Contain_confines], [validatePath_confines],
      [Recall_admits_only_traceable], [governor_within_limits].
    - The change-run factory, for every ledger its calls can reach: the ledger
      refines the run machine ([kernel_refines_run_machine]) and its histories
      are paths of the life cycles ([histories_are_lawful]); nothing is verified
      or completed without its gates ([completed_change_is_verified]); terminal
      runs are final ([terminal_run_is_final]) and live ones can be closed
      ([live_run_can_be_closed]); which transitions succeed
      ([run_transition_succeeds_iff]); leaf results, messages and admissions
      happen once ([leaf_result_exactly_once], [message_sent_exactly_once],
      [admission_is_idempotent]); delivery is ordered
      ([mailbox_delivers_in_order]); the ledger is append-only
      ([ledger_is_append_only]); leaf scopes are exclusive and confine every
      candidate ([leaf_scopes_exclusive], [accepted_edits_have_one_owner]);
      hashed identities are framed without ambiguity
      ([identity_preimage_injective]).
    - The broker.  A leaf run is confined to its paths and its candidate for
      every synthesizer, and completes only with an applied set and no denial
      ([sealed_leaf_is_confined]); an application is all or nothing
      ([candidate_all_or_nothing]), where all means that the tree is at every
      path what the set of edits means there ([edits_meaning], written without
      the system calls), and a replay runs nothing
      ([candidate_replay_is_recorded]); effects are allowed exactly when every
      condition holds ([effect_authorized_iff]) and, with calls interleaved, run
      at most once per key ([effect_runs_at_most_once]); which edit sets are
      accepted, by the same path rule as in the brain
      ([edit_set_accepted_iff], [path_rules_agree]).  Grants only narrow
      ([attenuation_narrows]); a use needs an issued grant and current policy
      ([authorization_needs_grant_and_policy]) and removing the relation kills
      issued grants ([removal_kills_issued_grants]).  A handover refines its
      phases ([handover_refines_phases]), completes once under the current
      fence ([handover_completes_once]), moves the right to commit
      ([transfer_moves_commit_right]) and answers retries alike
      ([retries_agree]).  The two stores agree on a tenant's own tuples
      ([stores_agree_on_tenant_evidence]).
    - The authority ledger.  In every database its calls can reach the audit
      trail verifies ([audit_trail_verifies]); a command takes effect once
      ([command_takes_effect_once]), whole or not at all
      ([mutation_lands_whole]); what is replayed is dense and acceptable
      ([replayed_history_is_dense]); a deletion is confined and final
      ([deletion_is_confined_and_final]); the ledger only grows
      ([authority_only_grows]).  A verified head digest binds its history
      ([audit_head_binds_history]); a batch of reactions does not depend on the
      order of emission ([React_ignores_emission_order]).
    - Chunking loses nothing ([chunks_cover_document]), cuts at rune and token
      boundaries, within its limits but for slides ([chunks_are_bounded_slices]), tears no short
      passage and no block that fits ([passages_are_not_torn],
      [blocks_are_not_torn]), finds the best parent
      ([children_have_best_parent]) and names chunks apart
      ([chunk_names_are_unique]).
    - The vault.  What was staged is read back
      ([staged_content_is_read_back]); a read is exact or an error whatever
      happened to the objects ([reads_are_exact_or_fail]); only verified content
      is published ([publication_is_verified]) and without faults it can be
      ([staging_and_publishing_succeed]); however calls interleave, recorded
      generations keep their frames and statuses only move forward
      ([generations_only_move_forward]); a failed stage leaves no trace
      ([failed_stage_leaves_no_trace]); a purge deletes every object and nothing
      else ([purge_deletes_every_object]) and its receipt names the generation
      ([tombstone_receipt_names_generation]).
    - The durable repository.  The history of an artifact is contiguous whatever
      fails ([durable_history_is_contiguous]); deletions of the ledger reach the
      repository ([ledger_deletions_reach_the_tables]).
    - Evidence is immutable and tombstones are final ([evidence_is_immutable]);
      lineage joins readable records of one scope
      ([lineage_joins_readable_evidence]); a purge reports itself complete
      exactly when all four substrates were wired and none of them finds a
      document asked for, and reports failures, leaks and missing substrates as
      they are ([verified_purge_leaves_nothing]).
    - The query engine.  Every claim is grounded in bytes of the pinned snapshot
      ([answers_are_grounded]); claims are emitted only after three
      authorizations and two admissions around a recheck
      ([emission_is_authorized]); a denial keeps the content out of the result
      ([denial_hides_content], with the answers of the dense and graph searches
      held fixed while the files vary); answers are well formed and within their limits
      ([answers_are_well_formed]); packing is bounded and loses nothing
      ([packing_is_bounded_and_complete]).
    - Refinement and equivalence: [registry_refines_history],
      [edits_are_a_splice], [live_summary_matches_log], [Rebuild_projects].
    - Bounds and honest reporting: [Pack_accounts_for_every_source],
      [Pack_within_token_budget], [continuation_within_budget],
      [Build_stable_and_honest], [truncateLines_longest], the [TextBound]
      theorems.
    - Behaviour that differs from what the code's comments promise:
      [truncated_note_unreadable], [full_line_unreadable],
      [fold_loses_changed_files], [denylist_bypass], [byte_budget_exceeded],
      [reserve_wraps_around], [remote_store_crosses_tenants],
      [replay_removes_in_flight_candidate], [cleanup_overtakes_second_run],
      [seal_confuses_steps_and_capabilities],
      [declared_forbidden_path_fails_run], [verification_races_with_commits],
      [nul_makes_links_ambiguous], [slides_exceed_target],
      [cancelled_read_is_fatal], [stranded_reservation_blocks_the_artifact],
      [denial_shows_on_superseded_pins], [superseded_pin_abstains],
      [reranked_denial_depends_on_content], [retry_after_deletion_is_refused].

    ** What is not modelled

    The copying of the working tree into the stage and the write-sync-rename
    primitive of [apply.go] are environment answers.  Debug strings and
    goroutine scheduling are left out.  Of the factory, opening the database
    and the read projections of [reads.go] are left out.  Of the broker, running
    git, the HTTP transport of the OpenFGA client, the GitHub broker and status
    strings are left out.  Of the authority ledger, the writers of
    [ingestion_store.go] ([PublishIngestionGeneration] and
    [RevokeIngestionSource], which add commands, idempotency rows and receipts)
    and opening and migrating the
    database file; of the vault, the handling of directories and descriptors; of
    the chunker, the map [Fingerprint]; of the durable storage, key references; of
    the query engine, the dense searchers and the HTTP
    reranker behind its ports are left out.  Generated contracts, other
    SQL-backed state, network clients, RPC surfaces and program entry points are
    not modelled.  What the library does not reach yet: the read projections, [repoignore], tenant routing, and
    the gateway's pipeline that composes the kernel with the broker's runner. *)

From Stdlib Require Import ZArith Lia.
From stdpp Require Export base strings sorting numbers gmap list.

Declare Scope gomem_scope.
Delimit Scope gomem_scope with gomem.
Open Scope gomem_scope.
Open Scope Z_scope.

(** ** Errors as values: Go's [(T, error)] *)

Inductive result (E A : Type) : Type :=
| Ok (a : A)
| Err (e : E).
Arguments Ok {E A} a.
Arguments Err {E A} e.

Definition rbind {E A B : Type} (f : A -> result E B) (r : result E A) : result E B :=
  match r with
  | Ok a => f a
  | Err e => Err e
  end.

Notation "'do' x <- c1 ; c2" := (rbind (fun x => c2) c1)
  (at level 10, x pattern, c1 at level 100, c2 at level 200) : gomem_scope.

(** [guard b e k]: the early return [if b { return err }]. *)
Definition fail_if {E A : Type} (b : bool) (e : E) (k : result E A) : result E A :=
  if b then Err e else k.

Definition is_ok {E A : Type} (r : result E A) : bool :=
  match r with Ok _ => true | Err _ => false end.

(** ** Machine integers *)

Definition wrap64 (z : Z) : Z := (z + 2 ^ 63) mod 2 ^ 64 - 2 ^ 63.
Definition wrapU64 (z : Z) : Z := z mod 2 ^ 64.

Definition int64 (z : Z) : Prop := - 2 ^ 63 <= z < 2 ^ 63.

(** ** Sorting as the code sorts: a boolean [less], stable *)

Section insertion_sort.
Context {A : Type} (lt : A -> A -> bool).

Fixpoint insert_by (x : A) (l : list A) : list A :=
  match l with
  | [] => [x]
  | y :: l' => if lt y x then y :: insert_by x l' else x :: y :: l'
  end.

Fixpoint sort_by (l : list A) : list A :=
  match l with
  | [] => []
  | x :: l' => insert_by x (sort_by l')
  end.

Definition not_after (a b : A) : Prop := lt b a = false.
End insertion_sort.

(** Go's multi-key comparator: compare by [f] unless equal, then by [rest]. *)
Definition then_by {A K : Type} `{EqDecision K} (f : A -> K) (ltK : K -> K -> bool)
    (rest : A -> A -> bool) (a b : A) : bool :=
  if decide (f a = f b) then rest a b else ltK (f a) (f b).

Definition on_key {A K : Type} (f : A -> K) (ltK : K -> K -> bool) (a b : A) : bool :=
  ltK (f a) (f b).

Class StrictTotal {A : Type} (lt : A -> A -> bool) : Prop := {
  st_irrefl : forall a, lt a a = false;
  st_trans : forall a b c, lt a b = true -> lt b c = true -> lt a c = true;
  st_total : forall a b, lt a b = false -> lt b a = false -> a = b
}.

Class StrictWeak {A : Type} (lt : A -> A -> bool) : Prop := {
  sw_asym : forall a b, lt a b = true -> lt b a = false;
  sw_ntrans : forall a b c, lt a b = false -> lt b c = false -> lt a c = false
}.

(** ** De-duplication keeping the first occurrence *)

Fixpoint dedup_key {A K : Type} `{EqDecision K} (key : A -> K) (seen : list K) (l : list A)
    : list A :=
  match l with
  | [] => []
  | x :: l' =>
      if decide (key x ∈ seen) then dedup_key key seen l'
      else x :: dedup_key key (key x :: seen) l'
  end.

Definition append_unique {A : Type} `{EqDecision A} (l : list A) (x : A) : list A :=
  if decide (x ∈ l) then l else l ++ [x].

Fixpoint sumZ {A : Type} (f : A -> Z) (l : list A) : Z :=
  match l with
  | [] => 0
  | x :: l' => f x + sumZ f l'
  end.

(** ** Proof automation *)

Ltac sinv H := inversion H; clear H; simplify_eq/=.

(** Case analysis on the [if]s and [match]es of a handler, closing the branches
    in which a result cannot be both [Ok] and [Err]. *)
Ltac res_step :=
  match goal with
  | H : Ok _ = Ok _ |- _ => injection H as H
  | H : Err _ = Err _ |- _ => injection H as H
  | H : Ok _ = Err _ |- _ => discriminate H
  | H : Err _ = Ok _ |- _ => discriminate H
  | H : context [fail_if ?b _ _] |- _ => unfold fail_if in H
  | H : (if ?b then _ else _) = _ |- _ => destruct b eqn:?
  | H : rbind _ ?c = _ |- _ => let E := fresh "E" in destruct c eqn:E; cbn [rbind] in H
  | H : match ?c with _ => _ end = _ |- _ => destruct c eqn:?
  end.
Ltac res_inv := repeat (res_step; simplify_eq/=).

Ltac bool_prop :=
  repeat match goal with
  | H : _ && _ = true |- _ => apply andb_true_iff in H as [? ?]
  | H : _ || _ = false |- _ => apply orb_false_iff in H as [? ?]
  | H : negb _ = true |- _ => apply negb_true_iff in H
  | H : negb _ = false |- _ => apply negb_false_iff in H
  | H : bool_decide _ = true |- _ => apply bool_decide_eq_true_1 in H
  | H : bool_decide _ = false |- _ => apply bool_decide_eq_false_1 in H
  | H : (_ <? _)%Z = true |- _ => apply Z.ltb_lt in H
  | H : (_ <? _)%Z = false |- _ => apply Z.ltb_ge in H
  | H : (_ <=? _)%Z = true |- _ => apply Z.leb_le in H
  | H : (_ <=? _)%Z = false |- _ => apply Z.leb_gt in H
  | H : (_ =? _)%Z = true |- _ => apply Z.eqb_eq in H
  | H : (_ =? _)%Z = false |- _ => apply Z.eqb_neq in H
  | H : (_ <? _)%nat = true |- _ => apply Nat.ltb_lt in H
  | H : (_ <? _)%nat = false |- _ => apply Nat.ltb_ge in H
  | H : (_ <=? _)%nat = true |- _ => apply Nat.leb_le in H
  | H : (_ <=? _)%nat = false |- _ => apply Nat.leb_gt in H
  end.

Create HintDb gomem.
Create Rewrite HintDb gomem.

(** ** Results and boolean quantifiers *)

Lemma rbind_Ok {E A B} (r : result E A) (f : A -> result E B) y :
  rbind f r = Ok y <-> exists x, r = Ok x /\ f x = Ok y.
Proof. destruct r; cbn; naive_solver. Qed.

Lemma fail_if_Ok {E A} (b : bool) (e : E) (k : result E A) y : fail_if b e k = Ok y <-> b = false /\ k = Ok y.
Proof. unfold fail_if. destruct b; naive_solver. Qed.

Lemma existsb_elem {A} (f : A -> bool) l : existsb f l = true <-> exists x, x ∈ l /\ f x = true.
Proof. rewrite existsb_exists. by setoid_rewrite list_elem_of_In. Qed.

Lemma existsb_false_iff {A} (f : A -> bool) l : existsb f l = false <-> forall x, x ∈ l -> f x = false.
Proof.
  split.
  - intros Hf x Hx. destruct (f x) eqn:E; [|done]. assert (existsb f l = true); [|congruence]. apply existsb_exists. exists x.
    split; [by apply list_elem_of_In|done].
  - intros Hf. apply not_true_is_false. intros (x & Hx & E)%existsb_exists. apply list_elem_of_In in Hx. rewrite (Hf x Hx) in E. done.
Qed.

Lemma forallb_elem {A} (f : A -> bool) l : forallb f l = true <-> forall x, x ∈ l -> f x = true.
Proof. rewrite forallb_forall. by setoid_rewrite list_elem_of_In. Qed.

(** ** Machine-integer lemmas *)

Lemma wrap64_id z : int64 z -> wrap64 z = z.
Proof. unfold int64, wrap64. intros. rewrite Z.mod_small; lia. Qed.

Lemma wrap64_range z : int64 (wrap64 z).
Proof.
  unfold int64, wrap64. pose proof (Z.mod_pos_bound (z + 2 ^ 63) (2 ^ 64)). lia.
Qed.

(** [wrap64] is congruence modulo [2^64]. *)
Lemma wrap64_eq_iff a b : wrap64 a = wrap64 b <-> a mod 2 ^ 64 = b mod 2 ^ 64.
Proof.
  unfold wrap64. split; intros H.
  - assert (E : (a + 2 ^ 63) mod 2 ^ 64 = (b + 2 ^ 63) mod 2 ^ 64) by lia.
    replace a with ((a + 2 ^ 63) - 2 ^ 63) by lia.
    replace b with ((b + 2 ^ 63) - 2 ^ 63) by lia.
    rewrite <- Zminus_mod_idemp_l, E, Zminus_mod_idemp_l. reflexivity.
  - rewrite <- (Zplus_mod_idemp_l a), H, Zplus_mod_idemp_l. reflexivity.
Qed.

Lemma wrap64_mod z : wrap64 z mod 2 ^ 64 = z mod 2 ^ 64.
Proof.
  unfold wrap64. rewrite Zminus_mod_idemp_l. f_equal. lia.
Qed.

Lemma wrap64_add_l a b : wrap64 (wrap64 a + b) = wrap64 (a + b).
Proof.
  apply wrap64_eq_iff.
  rewrite <- Zplus_mod_idemp_l, wrap64_mod, Zplus_mod_idemp_l. reflexivity.
Qed.

Lemma wrap64_add_r a b : wrap64 (a + wrap64 b) = wrap64 (a + b).
Proof. rewrite (Z.add_comm a), wrap64_add_l, Z.add_comm. reflexivity. Qed.

Lemma wrap64_sub a b : wrap64 (wrap64 a - wrap64 b) = wrap64 (a - b).
Proof.
  apply wrap64_eq_iff. rewrite Zminus_mod, !wrap64_mod, <- Zminus_mod. reflexivity.
Qed.

Lemma wrap64_idem z : wrap64 (wrap64 z) = wrap64 z.
Proof. apply wrap64_id, wrap64_range. Qed.

Lemma wrapU64_add_l a b : wrapU64 (wrapU64 a + b) = wrapU64 (a + b).
Proof. unfold wrapU64. apply Zplus_mod_idemp_l. Qed.

Lemma wrapU64_add_r a b : wrapU64 (a + wrapU64 b) = wrapU64 (a + b).
Proof. unfold wrapU64. apply Zplus_mod_idemp_r. Qed.

#[export] Hint Rewrite wrap64_add_l wrap64_add_r wrap64_sub wrap64_idem
  wrapU64_add_l wrapU64_add_r : gomem.

(** ** The string order of Go's [<] is a strict total order *)

Lemma ascii_compare_lt_trans a b c :
  Ascii.compare a b = Lt -> Ascii.compare b c = Lt -> Ascii.compare a c = Lt.
Proof.
  unfold Ascii.compare. rewrite !N.compare_lt_iff. lia.
Qed.

Lemma string_compare_lt_trans a b c :
  String.compare a b = Lt -> String.compare b c = Lt -> String.compare a c = Lt.
Proof.
  revert b c. induction a as [|x a IH]; intros [|y b] [|z c]; cbn; try done.
  destruct (Ascii.compare x y) eqn:Exy; try done.
  - apply Ascii.compare_eq_iff in Exy as ->.
    destruct (Ascii.compare y z) eqn:Eyz; try done. eauto.
  - intros _. destruct (Ascii.compare y z) eqn:Eyz; try done.
    + apply Ascii.compare_eq_iff in Eyz as ->. by rewrite Exy.
    + by rewrite (ascii_compare_lt_trans _ _ _ Exy Eyz).
Qed.

Lemma string_compare_refl s : String.compare s s = Eq.
Proof.
  pose proof (String.compare_antisym s s) as H.
  destruct (String.compare s s); done.
Qed.

#[export] Instance string_ltb_total : StrictTotal String.ltb.
Proof.
  split; unfold String.ltb.
  - intros a. by rewrite string_compare_refl.
  - intros a b c. destruct (String.compare a b) eqn:E1; try done.
    destruct (String.compare b c) eqn:E2; try done.
    by rewrite (string_compare_lt_trans _ _ _ E1 E2).
  - intros a b. rewrite (String.compare_antisym b a).
    destruct (String.compare a b) eqn:E; try done.
    intros _ _. by apply String.compare_eq_iff.
Qed.

#[export] Instance Z_ltb_total : StrictTotal Z.ltb.
Proof.
  split; intros; bool_prop; rewrite ?Z.ltb_lt, ?Z.ltb_ge; lia.
Qed.

(** ** Strict weak orders *)

#[export] Instance total_weak {A} (lt : A -> A -> bool) :
  StrictTotal lt -> StrictWeak lt.
Proof.
  intros [Hirr Htr Htot]. split.
  - intros a b Hab. destruct (lt b a) eqn:Hba; [|done].
    by rewrite <- (Hirr a), (Htr a b a).
  - intros a b c Hab Hbc. destruct (lt a c) eqn:Hac; [|done].
    destruct (lt b a) eqn:Hba.
    + by rewrite (Htr b a c) in Hbc.
    + rewrite (Htot a b Hab Hba) in Hac. congruence.
Qed.

#[export] Instance on_key_weak {A K} (f : A -> K) (ltK : K -> K -> bool) :
  StrictWeak ltK -> StrictWeak (on_key f ltK).
Proof. intros [Ha Hn]. split; unfold on_key; eauto. Qed.

#[export] Instance then_by_weak {A K} `{EqDecision K} (f : A -> K) ltK rest :
  StrictTotal ltK -> StrictWeak rest -> StrictWeak (@then_by A K _ f ltK rest).
Proof.
  intros HK HR. pose proof (total_weak ltK HK) as HKw. unfold then_by. split.
  - intros a b. repeat case_decide; try congruence; apply sw_asym.
  - intros a b c Hab Hbc.
    destruct (decide (f a = f b)) as [E1|E1], (decide (f b = f c)) as [E2|E2],
      (decide (f a = f c)) as [E3|E3]; try congruence.
    + by eapply sw_ntrans.
    + exfalso. apply E1, st_total; [done|]. congruence.
    + by eapply sw_ntrans.
Qed.

#[export] Instance const_false_weak {A} : StrictWeak (fun _ _ : A => false).
Proof. by split. Qed.

(** The converse order, for Go comparators that sort descending. *)
Lemma flip_weak {A} (lt : A -> A -> bool) :
  StrictWeak lt -> StrictWeak (fun a b => lt b a).
Proof. intros [Ha Hn]. split; eauto. Qed.

(** ** Sorting lemmas *)

Section sort_lemmas.
Context {A : Type} (lt : A -> A -> bool).

Lemma insert_by_perm x l : insert_by lt x l ≡ₚ x :: l.
Proof.
  induction l as [|y l IH]; cbn; [done|].
  destruct (lt y x); [|done]. rewrite IH. apply perm_swap.
Qed.

Lemma sort_by_perm l : sort_by lt l ≡ₚ l.
Proof. induction l as [|x l IH]; cbn; [done|]. by rewrite insert_by_perm, IH. Qed.

Lemma elem_of_sort_by x l : x ∈ sort_by lt l <-> x ∈ l.
Proof. by rewrite sort_by_perm. Qed.

Lemma length_sort_by l : length (sort_by lt l) = length l.
Proof. by rewrite sort_by_perm. Qed.

Context `{!StrictWeak lt}.

Lemma insert_by_sorted x l :
  StronglySorted (not_after lt) l -> StronglySorted (not_after lt) (insert_by lt x l).
Proof.
  induction 1 as [|y l Hs IH Hy]; cbn; [by repeat constructor|].
  destruct (lt y x) eqn:E.
  - constructor; [done|]. apply Forall_forall. intros z Hz.
    rewrite (insert_by_perm x l) in Hz. apply elem_of_cons in Hz as [->|Hz].
    + by apply sw_asym.
    + by eapply Forall_forall in Hy.
  - constructor; [by constructor|]. constructor; [done|].
    eapply Forall_impl; [exact Hy|]. intros z Hz. unfold not_after in *.
    by eapply sw_ntrans.
Qed.

Lemma sort_by_sorted l : StronglySorted (not_after lt) (sort_by lt l).
Proof. induction l; cbn; [constructor|]. by apply insert_by_sorted. Qed.

(** Sorting an already sorted list changes nothing. *)
Lemma sort_by_id l : StronglySorted (not_after lt) l -> sort_by lt l = l.
Proof.
  induction 1 as [|x l Hs IH Hx]; cbn; [done|]. rewrite IH.
  destruct l as [|y l]; [done|]. cbn. apply Forall_cons in Hx as [Hx _].
  unfold not_after in Hx. by rewrite Hx.
Qed.

Lemma sort_by_top n l x y :
  x ∈ take n (sort_by lt l) -> y ∈ drop n (sort_by lt l) -> lt y x = false.
Proof.
  pose proof (sort_by_sorted l) as Hs. rewrite <- (take_drop n (sort_by lt l)) in Hs.
  induction (take n (sort_by lt l)) as [|z l' IH]; intros Hx Hy; [by apply elem_of_nil in Hx|].
  cbn in Hs. apply StronglySorted_inv in Hs as [Hs Hz].
  apply elem_of_cons in Hx as [->|Hx]; [|by apply IH].
  eapply Forall_forall in Hz; [exact Hz|]. apply elem_of_app. by right.
Qed.

Lemma sort_by_idem l : sort_by lt (sort_by lt l) = sort_by lt l.
Proof. apply sort_by_id, sort_by_sorted. Qed.

(** When the order separates the elements present, the input order is
    irrelevant: this is what makes a slice collected from a Go map and then
    sorted deterministic. *)
Lemma strongly_sorted_unique l1 l2 :
  (forall a b, a ∈ l1 -> b ∈ l1 -> lt a b = false -> lt b a = false -> a = b) ->
  StronglySorted (not_after lt) l1 -> StronglySorted (not_after lt) l2 ->
  l1 ≡ₚ l2 -> l1 = l2.
Proof.
  intros Htot Hs1. revert l2. induction Hs1 as [|x l1 Hs1 IH Hx]; intros l2 Hs2 Hp.
  { by apply Permutation_nil in Hp. }
  destruct Hs2 as [|y l2 Hs2 Hy]; [by symmetry in Hp; apply Permutation_nil_cons in Hp|].
  assert (x = y) as ->.
  { assert (Hin1 : y ∈ x :: l1) by (rewrite Hp; left).
    assert (Hin2 : x ∈ y :: l2) by (rewrite <- Hp; left).
    apply elem_of_cons in Hin1 as [->|Hin1]; [done|].
    apply elem_of_cons in Hin2 as [->|Hin2]; [done|].
    rewrite Forall_forall in Hx, Hy.
    apply Htot; [left|by right|by apply Hy|by apply Hx]. }
  f_equal. apply IH; [|done|by apply Permutation_cons_inv in Hp].
  intros a b Ha Hb. apply Htot; by right.
Qed.

Lemma sort_by_perm_eq l1 l2 :
  (forall a b, a ∈ l1 -> b ∈ l1 -> lt a b = false -> lt b a = false -> a = b) ->
  l1 ≡ₚ l2 -> sort_by lt l1 = sort_by lt l2.
Proof.
  intros Htot Hp. apply strongly_sorted_unique; try apply sort_by_sorted.
  - intros a b. rewrite !elem_of_sort_by. apply Htot.
  - by rewrite !sort_by_perm.
Qed.
End sort_lemmas.

Lemma strongly_sorted_take {A} (R : A -> A -> Prop) n l : StronglySorted R l -> StronglySorted R (take n l).
Proof.
  intros Hs. revert n. induction Hs as [|x l Hs IH Hx]; intros [|n]; cbn; constructor; [done|].
  by apply Forall_take.
Qed.

Lemma strongly_sorted_impl_in {A} (R R' : A -> A -> Prop) l :
  (forall x y, x ∈ l -> y ∈ l -> R x y -> R' x y) -> StronglySorted R l -> StronglySorted R' l.
Proof.
  intros Hi Hs. induction Hs as [|x l Hs IH Hx]; constructor.
  - apply IH. set_solver.
  - rewrite Forall_forall in *. intros y Hy. apply Hi; [set_solver..|auto].
Qed.

(** Two comparators that agree on the elements sort alike. *)
Lemma insert_by_ext {A} (lt lt' : A -> A -> bool) x l :
  (forall y, y ∈ l -> lt y x = lt' y x) -> insert_by lt x l = insert_by lt' x l.
Proof.
  induction l as [|y l IH]; cbn; intros He; [done|]. rewrite He by set_solver.
  by rewrite IH by set_solver.
Qed.

Lemma sort_by_ext {A} (lt lt' : A -> A -> bool) l :
  (forall x y, x ∈ l -> y ∈ l -> lt x y = lt' x y) -> sort_by lt l = sort_by lt' l.
Proof.
  induction l as [|x l IH]; cbn; intros He; [done|]. rewrite IH by set_solver.
  apply insert_by_ext. intros y Hy%elem_of_sort_by. set_solver.
Qed.

Lemma sort_by_total_perm {A} (lt : A -> A -> bool) `{!StrictTotal lt} l1 l2 :
  l1 ≡ₚ l2 -> sort_by lt l1 = sort_by lt l2.
Proof. apply sort_by_perm_eq; [apply _|]. intros; by apply st_total. Qed.

Lemma sort_by_NoDup {A} (lt : A -> A -> bool) l : NoDup l -> NoDup (sort_by lt l).
Proof. by rewrite sort_by_perm. Qed.

(** ** De-duplication lemmas *)

Section dedup_lemmas.
Context {A K : Type} `{EqDecision K} (key : A -> K).

Lemma dedup_key_sublist seen l : dedup_key key seen l `sublist_of` l.
Proof.
  revert seen. induction l as [|x l IH]; intros seen; cbn; [constructor|].
  case_decide; by constructor.
Qed.

Lemma length_dedup_key seen l : (length (dedup_key key seen l) <= length l)%nat.
Proof. apply sublist_length, dedup_key_sublist. Qed.

Lemma dedup_key_fresh seen l x : x ∈ dedup_key key seen l -> x ∈ l /\ key x ∉ seen.
Proof.
  revert seen. induction l as [|y l IH]; intros seen; cbn; [by intros ?%elem_of_nil|].
  case_decide as Hy.
  - intros [? ?]%IH. split; [by right|done].
  - intros [->|Hx]%elem_of_cons; [split; [left|done]|].
    apply IH in Hx as [? Hk]. split; [by right|]. intros ?. apply Hk. by right.
Qed.

Lemma dedup_key_NoDup seen l : NoDup (key <$> dedup_key key seen l).
Proof.
  revert seen. induction l as [|y l IH]; intros seen; cbn; [constructor|].
  case_decide; [done|]. cbn. constructor; [|done].
  intros (z & Hk & Hz)%list_elem_of_fmap. apply dedup_key_fresh in Hz as [_ Hn].
  apply Hn. rewrite <- Hk. left.
Qed.

Lemma dedup_key_covers seen l x :
  x ∈ l -> key x ∈ seen \/ exists y, y ∈ dedup_key key seen l /\ key y = key x.
Proof.
  revert seen. induction l as [|y l IH]; intros seen; cbn; [by intros ?%elem_of_nil|].
  intros [->|Hx]%elem_of_cons; case_decide as Hy; [by left| | by apply IH |].
  - right. exists y. split; [left|done].
  - destruct (IH (key y :: seen) Hx) as [[Hk|Hk]%elem_of_cons|(z & Hz & Hk)].
    + right. exists y. split; [left|done].
    + by left.
    + right. exists z. split; [by right|done].
Qed.


End dedup_lemmas.

Section dedup_id.
Context {A : Type} `{EqDecision A}.

Lemma elem_of_dedup (x : A) l : x ∈ dedup_key id [] l <-> x ∈ l.
Proof.
  split; [by intros [? _]%dedup_key_fresh|].
  intros [Hn|(y & Hy & Hk)]%(dedup_key_covers id []); [by apply elem_of_nil in Hn|].
  cbn in Hk. by subst y.
Qed.

Lemma NoDup_dedup (l : list A) : NoDup (dedup_key id [] l).
Proof. rewrite <- (list_fmap_id (dedup_key id [] l)). apply dedup_key_NoDup. Qed.

Lemma dedup_key_id_fixed seen (l : list A) :
  NoDup l -> (forall x, x ∈ l -> x ∉ seen) -> dedup_key id seen l = l.
Proof.
  intros Hl. revert seen. induction Hl as [|x l Hx Hl IH]; intros seen Hs; cbn; [done|].
  rewrite decide_False by (apply Hs; left). f_equal. apply IH.
  intros y Hy [->|Hn]%elem_of_cons; [done|]. by apply (Hs y); [right|].
Qed.

Lemma dedup_NoDup_id (l : list A) : NoDup l -> dedup_key id [] l = l.
Proof. intros. apply dedup_key_id_fixed; [done|]. intros ? _ ?%elem_of_nil. done. Qed.

Lemma append_unique_NoDup (l : list A) x : NoDup l -> NoDup (append_unique l x).
Proof.
  intros Hl. unfold append_unique. case_decide; [done|]. apply NoDup_app.
  split_and!; [done| |apply NoDup_singleton]. intros y Hy ->%list_elem_of_singleton. done.
Qed.

Lemma elem_of_append_unique (l : list A) x y : y ∈ append_unique l x <-> y ∈ l \/ y = x.
Proof.
  unfold append_unique. case_decide; [|by rewrite elem_of_app, list_elem_of_singleton].
  split; [by left|]. by intros [?| ->].
Qed.

Lemma length_append_unique (l : list A) x :
  (length l <= length (append_unique l x) <= S (length l))%nat.
Proof. unfold append_unique. case_decide; rewrite ?length_app; cbn; lia. Qed.
End dedup_id.

(** ** Sums *)

Lemma sumZ_app {A} (f : A -> Z) l1 l2 : sumZ f (l1 ++ l2) = sumZ f l1 + sumZ f l2.
Proof. induction l1; cbn; lia. Qed.

Lemma sumZ_perm {A} (f : A -> Z) l1 l2 : l1 ≡ₚ l2 -> sumZ f l1 = sumZ f l2.
Proof. induction 1; cbn; lia. Qed.

Lemma sumZ_nonneg {A} (f : A -> Z) l : (forall x, x ∈ l -> 0 <= f x) -> 0 <= sumZ f l.
Proof.
  induction l as [|x l IH]; cbn; intros H; [lia|].
  assert (0 <= f x) by (apply H; left). assert (0 <= sumZ f l); [|lia].
  apply IH. intros; apply H; by right.
Qed.

Lemma sumZ_le {A} (f g : A -> Z) l : (forall x, x ∈ l -> f x <= g x) -> sumZ f l <= sumZ g l.
Proof.
  induction l as [|x l IH]; cbn; intros H; [lia|].
  assert (f x <= g x) by (apply H; left).
  assert (sumZ f l <= sumZ g l); [|lia]. apply IH. intros; apply H; by right.
Qed.

Lemma sumZ_ext {A} (f g : A -> Z) l : (forall x, f x = g x) -> sumZ f l = sumZ g l.
Proof. intros H. induction l; cbn; rewrite ?H; lia. Qed.

(** ** Filters and related lists *)

Lemma elem_of_filterb {A} (p : A -> bool) l x : x ∈ List.filter p l <-> x ∈ l /\ p x = true.
Proof. rewrite !list_elem_of_In. apply List.filter_In. Qed.

Lemma Forall2_elem_r {A B} (R : A -> B -> Prop) la lb b : Forall2 R la lb -> b ∈ lb -> exists a, a ∈ la /\ R a b.
Proof.
  induction 1 as [|x y la lb Hxy _ IH]; intros Hb; [set_solver|]. apply elem_of_cons in Hb as [->|Hb]; [exists x; split; [left|done]|].
  destruct (IH Hb) as (a & Ha & Hab). exists a. split; [by right|done].
Qed.
