(* ===== verification/GoString.v ===== *)
(** * Go strings: bytes, UTF-8 and the [strings] functions the sources call

    A Go string is an immutable byte sequence; here it is a [string] whose
    characters are bytes.  [pieces] is the decoding a Go [range] loop performs:
    one well-formed rune at a time, or one invalid byte at a time.  Everything
    that depends on UTF-8 ([utf8.ValidString], [utf8.RuneCountInString],
    [strings.TrimSpace], the coercion [encoding/json] applies to strings) is
    defined from it. *)

From Stdlib Require Import Ascii String.
From S2P Require Import Prelude.
Open Scope string_scope.
Open Scope Z_scope.

#[global] Arguments String.append !_ _ / : simpl nomatch.

(** ** Bytes *)

Definition byte_val (c : ascii) : Z := Z.of_N (N_of_ascii c).
Definition in_range (lo hi : Z) (c : ascii) : bool := (lo <=? byte_val c) && (byte_val c <=? hi).
Definition cont (c : ascii) : bool := in_range 128 191 c.

(** [utf8.RuneStart]: not a continuation byte. *)
Definition rune_start (c : ascii) : bool := negb (Z.land (byte_val c) 192 =? 128).

Definition len (s : string) : Z := Z.of_nat (String.length s).

Fixpoint str_take (n : nat) (s : string) : string :=
  match n, s with
  | S n', String c s' => String c (str_take n' s')
  | _, _ => EmptyString
  end.

Fixpoint str_drop (n : nat) (s : string) : string :=
  match n, s with
  | S n', String _ s' => str_drop n' s'
  | _, _ => s
  end.

(** ** UTF-8 *)

Definition second3 (a b : ascii) : bool :=
  if byte_val a =? 224 then in_range 160 191 b
  else if byte_val a =? 237 then in_range 128 159 b
  else cont b.

Definition second4 (a b : ascii) : bool :=
  if byte_val a =? 240 then in_range 144 191 b
  else if byte_val a =? 244 then in_range 128 143 b
  else cont b.

(** Width of the well-formed rune at the head of [s]; 0 when there is none. *)
Definition utf8_size (s : string) : nat :=
  match s with
  | EmptyString => 0
  | String a s1 =>
      if byte_val a <? 128 then 1
      else if in_range 194 223 a then
        match s1 with
        | String b _ => if cont b then 2 else 0
        | _ => 0
        end
      else if in_range 224 239 a then
        match s1 with
        | String b (String c _) => if second3 a b && cont c then 3 else 0
        | _ => 0
        end
      else if in_range 240 244 a then
        match s1 with
        | String b (String c (String d _)) => if second4 a b && cont c && cont d then 4 else 0
        | _ => 0
        end
      else 0
  end.

Definition rune_value (s : string) : Z :=
  match utf8_size s, s with
  | 1%nat, String a _ => byte_val a
  | 2%nat, String a (String b _) => Z.land (byte_val a) 31 * 64 + Z.land (byte_val b) 63
  | 3%nat, String a (String b (String c _)) =>
      Z.land (byte_val a) 15 * 4096 + Z.land (byte_val b) 63 * 64 + Z.land (byte_val c) 63
  | 4%nat, String a (String b (String c (String d _))) =>
      Z.land (byte_val a) 7 * 262144 + Z.land (byte_val b) 63 * 4096
      + Z.land (byte_val c) 63 * 64 + Z.land (byte_val d) 63
  | _, _ => 65533
  end.

(** One step of a [range] loop over a string. *)
Record piece := Piece {
  p_rune : Z;       (* the rune; U+FFFD for an invalid byte *)
  p_raw : string;   (* the bytes it was decoded from *)
  p_ok : bool       (* whether those bytes are well-formed *)
}.

Definition next_piece (s : string) : piece :=
  match utf8_size s with
  | O => Piece 65533 (str_take 1 s) false
  | n => Piece (rune_value s) (str_take n s) true
  end.

Definition step_size (s : string) : nat := Nat.max 1 (utf8_size s).

Fixpoint pieces_fuel (fuel : nat) (s : string) : list piece :=
  match fuel, s with
  | S fuel', String _ _ => next_piece s :: pieces_fuel fuel' (str_drop (step_size s) s)
  | _, _ => []
  end.

Definition pieces (s : string) : list piece := pieces_fuel (String.length s) s.

Fixpoint raw (l : list piece) : string :=
  match l with
  | [] => EmptyString
  | p :: l' => p_raw p ++ raw l'
  end.

Definition valid_utf8 (s : string) : bool := forallb p_ok (pieces s).
Definition rune_count (s : string) : Z := Z.of_nat (length (pieces s)).

Definition byte_of_Z (z : Z) : ascii := ascii_of_N (Z.to_N z).
Definition str_of_bytes (l : list Z) : string :=
  fold_right (fun z s => String (byte_of_Z z) s) EmptyString l.

(** [utf8.AppendRune] *)
Definition encode_rune (r : Z) : string :=
  if (r <? 0) || (1114111 <? r) || ((55296 <=? r) && (r <=? 57343)) then
    str_of_bytes [239; 191; 189]
  else if r <? 128 then str_of_bytes [r]
  else if r <? 2048 then str_of_bytes [192 + r / 64; 128 + r mod 64]
  else if r <? 65536 then str_of_bytes [224 + r / 4096; 128 + (r / 64) mod 64; 128 + r mod 64]
  else str_of_bytes [240 + r / 262144; 128 + (r / 4096) mod 64; 128 + (r / 64) mod 64; 128 + r mod 64].

(** What [encoding/json] stores for a string: each invalid byte becomes U+FFFD. *)
Definition json_coerce (s : string) : string :=
  raw (map (fun p => if p_ok p then p else Piece 65533 (str_of_bytes [239; 191; 189]) true) (pieces s)).

(** ** White space *)

(** [unicode.IsSpace] *)
Definition is_space (r : Z) : bool :=
  ((9 <=? r) && (r <=? 13)) || (r =? 32) || (r =? 133) || (r =? 160) || (r =? 5760)
  || ((8192 <=? r) && (r <=? 8202)) || (r =? 8232) || (r =? 8233) || (r =? 8239)
  || (r =? 8287) || (r =? 12288).

(** [unicode.IsControl] *)
Definition is_control (r : Z) : bool := ((0 <=? r) && (r <? 32)) || ((127 <=? r) && (r <? 160)).

Fixpoint drop_while {A : Type} (f : A -> bool) (l : list A) : list A :=
  match l with
  | [] => []
  | x :: l' => if f x then drop_while f l' else l
  end.

(** [strings.TrimSpace].  Runes are found from the left; UTF-8 is
    self-synchronising, so the runes Go finds from the right are the same. *)
Definition trim_space (s : string) : string :=
  let f := fun p => is_space (p_rune p) in
  raw (reverse (drop_while f (reverse (drop_while f (pieces s))))).

Definition blank (s : string) : bool := String.eqb (trim_space s) EmptyString.

(** ** Searching and splitting *)

Definition has_prefix (p s : string) : bool := String.prefix p s.

Fixpoint contains (sub s : string) : bool :=
  has_prefix sub s || match s with EmptyString => false | String _ s' => contains sub s' end.

Fixpoint contains_char (c : ascii) (s : string) : bool :=
  match s with
  | EmptyString => false
  | String a s' => Ascii.eqb a c || contains_char c s'
  end.

(** [strings.Split] on a one-byte separator. *)
Fixpoint split_char (c : ascii) (s : string) : list string :=
  match s with
  | EmptyString => [EmptyString]
  | String a s' =>
      if Ascii.eqb a c then EmptyString :: split_char c s'
      else match split_char c s' with
           | h :: t => String a h :: t
           | [] => [String a EmptyString]
           end
  end.

Fixpoint join (sep : string) (l : list string) : string :=
  match l with
  | [] => EmptyString
  | [s] => s
  | s :: l' => s ++ sep ++ join sep l'
  end.

(** [strings.FieldsFunc] for a predicate on ASCII characters: the maximal runs of
    bytes that do not satisfy it. *)
Fixpoint fields_loop (sep : ascii -> bool) (cur s : string) : list string :=
  match s with
  | EmptyString => if String.eqb cur EmptyString then [] else [cur]
  | String c s' =>
      if sep c then
        (if String.eqb cur EmptyString then [] else [cur]) ++ fields_loop sep EmptyString s'
      else fields_loop sep (cur ++ String c EmptyString)%string s'
  end%list.
Definition fields_func (sep : ascii -> bool) (s : string) : list string := fields_loop sep EmptyString s.

(** [strings.FieldsFunc] for a predicate on characters; [cur] is the open field. *)
Fixpoint fields_by (sep : piece -> bool) (cur : string) (ps : list piece) : list string :=
  match ps with
  | [] => if String.eqb cur EmptyString then [] else [cur]
  | p :: rest =>
      if sep p then (if String.eqb cur EmptyString then fields_by sep EmptyString rest else cur :: fields_by sep EmptyString rest)
      else fields_by sep (cur ++ p_raw p)%string rest
  end.

(** [strings.Fields]. *)
Definition spacep (p : piece) : bool := is_space (p_rune p).
Definition fields (s : string) : list string := fields_by spacep EmptyString (pieces s).

Definition trim_prefix (p s : string) : string :=
  if has_prefix p s then str_drop (String.length p) s else s.

Definition has_suffix (p s : string) : bool :=
  (String.length p <=? String.length s)%nat
  && String.eqb (str_drop (String.length s - String.length p) s) p.

Definition trim_suffix (p s : string) : string :=
  if has_suffix p s then str_take (String.length s - String.length p) s else s.

Fixpoint str_map (f : ascii -> ascii) (s : string) : string :=
  match s with
  | EmptyString => EmptyString
  | String c s' => String (f c) (str_map f s')
  end.

(** [sort.Strings]. *)
Definition sort_strings (l : list string) : list string := sort_by String.ltb l.

(** ** Decimal rendering, [%d] *)

Definition digit (n : Z) : ascii := byte_of_Z (48 + n).

Fixpoint dec_fuel (fuel : nat) (n : Z) (acc : string) : string :=
  match fuel with
  | O => acc
  | S fuel' =>
      let acc' := String (digit (n mod 10)) acc in
      if n <? 10 then acc' else dec_fuel fuel' (n / 10) acc'
  end.

(** Twenty digits cover every 64-bit value. *)
Definition dec (n : Z) : string :=
  if n <? 0 then String "-" (dec_fuel 20 (- n) EmptyString) else dec_fuel 20 n EmptyString.

#[global] Arguments json_coerce : simpl never.
#[global] Arguments valid_utf8 : simpl never.
#[global] Arguments pieces : simpl never.
#[global] Arguments trim_space : simpl never.

(** ** Lemmas: take, drop, length *)

Lemma length_append s t : String.length (s ++ t) = (String.length s + String.length t)%nat.
Proof. induction s; cbn; lia. Qed.

Lemma append_nil_r s : s ++ EmptyString = s.
Proof. induction s; cbn; congruence. Qed.

Lemma append_assoc s t u : (s ++ t) ++ u = s ++ (t ++ u).
Proof. induction s; cbn; congruence. Qed.

Lemma str_take_drop n s : str_take n s ++ str_drop n s = s.
Proof. revert s. induction n; intros [|c s]; cbn; try done. by rewrite IHn. Qed.

Lemma length_str_take n s : String.length (str_take n s) = Nat.min n (String.length s).
Proof. revert s. induction n; intros [|c s]; cbn; try done. by rewrite IHn. Qed.

Lemma length_str_drop n s : String.length (str_drop n s) = (String.length s - n)%nat.
Proof. revert s. induction n; intros [|c s]; cbn; try done. Qed.

Lemma str_take_ge n s : (String.length s <= n)%nat -> str_take n s = s.
Proof. revert s. induction n; intros [|c s]; cbn; intros; try done; [lia|]. rewrite IHn; [done|lia]. Qed.

Lemma str_drop_add n m s : str_drop (n + m) s = str_drop m (str_drop n s).
Proof. revert s. induction n; intros [|c s]; cbn; try done. by destruct m. Qed.

Lemma str_take_add n m s : str_take (n + m) s = str_take n s ++ str_take m (str_drop n s).
Proof. revert s. induction n; intros [|c s]; cbn; try done; [by destruct m|]. by rewrite IHn. Qed.

Lemma get_str_drop n i s : String.get (n + i) s = String.get i (str_drop n s).
Proof. revert s. induction n; intros [|c s]; cbn; done. Qed.

Lemma str_drop_app s t : str_drop (String.length s) (s ++ t) = t.
Proof. induction s; cbn; [by destruct t|done]. Qed.

Lemma str_take_app s t : str_take (String.length s) (s ++ t) = s.
Proof. induction s; cbn; [by destruct t|]. by rewrite IHs. Qed.

Lemma str_prefix_take n s : has_prefix (str_take n s) s = true.
Proof.
  unfold has_prefix. revert s. induction n; intros [|c s]; cbn; try done.
  destruct (ascii_dec c c); [apply IHn|done].
Qed.

Lemma len_app s t : len (s ++ t) = len s + len t.
Proof. unfold len. rewrite length_append. lia. Qed.

Lemma len_nonneg s : 0 <= len s.
Proof. unfold len. lia. Qed.

Lemma byte_val_range c : 0 <= byte_val c < 256.
Proof. unfold byte_val. pose proof (N_ascii_bounded c). lia. Qed.

(** A byte is a rune start exactly when it is not a continuation byte. *)
Lemma rune_start_cont c : rune_start c = negb (cont c).
Proof. destruct c as [[] [] [] [] [] [] [] []]; reflexivity. Qed.

(** ** Lemmas: decoding *)

Lemma utf8_size_le s : (utf8_size s <= String.length s)%nat.
Proof.
  unfold utf8_size. destruct s as [|a s]; [done|].
  destruct (byte_val a <? 128); [cbn; lia|].
  destruct (in_range 194 223 a).
  { destruct s as [|b s]; cbn; [lia|]. destruct (cont b); lia. }
  destruct (in_range 224 239 a).
  { destruct s as [|b [|c s]]; cbn; try lia. destruct (second3 a b && cont c); lia. }
  destruct (in_range 240 244 a); [|lia].
  destruct s as [|b [|c [|d s]]]; cbn; try lia.
  destruct (second4 a b && cont c && cont d); lia.
Qed.

Lemma utf8_size_max s : (utf8_size s <= 4)%nat.
Proof. unfold utf8_size. repeat case_match; lia. Qed.

Lemma step_size_pos s : (1 <= step_size s)%nat.
Proof. unfold step_size. lia. Qed.

Lemma pieces_fuel_enough n s :
  (String.length s <= n)%nat -> pieces_fuel n s = pieces s.
Proof.
  unfold pieces. revert s.
  assert (H : forall m n s, (String.length s <= n)%nat -> (String.length s <= m)%nat ->
            pieces_fuel n s = pieces_fuel m s).
  { induction m as [|m IH]; intros n0 s Hn Hm.
    - destruct s; [|cbn in Hm; lia]. by destruct n0.
    - destruct s as [|c s]; [by destruct n0|].
      destruct n0 as [|n0]; [cbn in Hn; lia|]. cbn [pieces_fuel]. f_equal.
      pose proof (step_size_pos (String c s)).
      apply IH; rewrite length_str_drop; lia. }
  intros s Hn. by apply H.
Qed.

Lemma pieces_nonempty s :
  s <> EmptyString -> pieces s = next_piece s :: pieces (str_drop (step_size s) s).
Proof.
  destruct s as [|c s]; [done|]. intros _. unfold pieces at 1.
  cbn [pieces_fuel String.length]. f_equal. apply pieces_fuel_enough.
  rewrite length_str_drop. pose proof (step_size_pos (String c s)). cbn [String.length]. lia.
Qed.

(** Induction along the decoding of a string. *)
Lemma pieces_ind (P : string -> Prop) :
  P EmptyString ->
  (forall s, s <> EmptyString -> P (str_drop (step_size s) s) -> P s) ->
  forall s, P s.
Proof.
  intros H0 HS s. remember (String.length s) as n eqn:Hn.
  assert (Hle : (String.length s <= n)%nat) by lia. clear Hn. revert s Hle.
  induction n as [|n IH]; intros s Hle.
  - destruct s; [done|cbn in Hle; lia].
  - destruct s as [|c s]; [done|]. apply HS; [done|]. apply IH.
    rewrite length_str_drop. pose proof (step_size_pos (String c s)). lia.
Qed.

Lemma next_piece_raw s : s <> EmptyString -> p_raw (next_piece s) = str_take (step_size s) s.
Proof.
  intros _. unfold next_piece, step_size. destruct (utf8_size s) eqn:E; [done|].
  cbn [p_raw]. by replace (Nat.max 1 (S n)) with (S n) by lia.
Qed.

(** Decoding loses no byte. *)
Lemma raw_pieces s : raw (pieces s) = s.
Proof.
  induction s as [|s Hs IH] using pieces_ind; [done|].
  rewrite pieces_nonempty by done. cbn [raw].
  rewrite IH, next_piece_raw by done. apply str_take_drop.
Qed.

Lemma valid_utf8_step s :
  s <> EmptyString ->
  valid_utf8 s = (0 <? utf8_size s)%nat && valid_utf8 (str_drop (step_size s) s).
Proof.
  intros Hs. unfold valid_utf8. rewrite pieces_nonempty by done. cbn [forallb].
  f_equal. unfold next_piece. by destruct (utf8_size s).
Qed.

Lemma json_coerce_valid s : valid_utf8 s = true -> json_coerce s = s.
Proof.
  unfold valid_utf8, json_coerce. intros H. rewrite <- (raw_pieces s) at 2. f_equal.
  induction (pieces s) as [|p l IH]; [done|].
  cbn [forallb map] in *. apply andb_true_iff in H as [H1 H2]. by rewrite H1, IH.
Qed.

(** ** Lemmas: splitting *)

Lemma contains_char_app c s t : contains_char c (s ++ t) = contains_char c s || contains_char c t.
Proof. induction s as [|a s IH]; cbn; [done|]. by rewrite IH, orb_assoc. Qed.

Lemma split_char_nonempty c s : split_char c s <> [].
Proof. destruct s as [|a s]; cbn; [done|]. destruct (Ascii.eqb a c); [done|]. by destruct (split_char c s). Qed.

Lemma join_split c s : join (String c EmptyString) (split_char c s) = s.
Proof.
  induction s as [|a s IH]; [done|]. cbn [split_char].
  destruct (Ascii.eqb_spec a c) as [->|Hac].
  - pose proof (split_char_nonempty c s). cbn [join].
    destruct (split_char c s) as [|h t]; [done|]. by rewrite IH.
  - pose proof (split_char_nonempty c s). destruct (split_char c s) as [|h t]; [done|].
    rewrite <- IH. by destruct t.
Qed.

Lemma split_char_no_sep c s : Forall (fun x => contains_char c x = false) (split_char c s).
Proof.
  induction s as [|a s IH]; cbn; [by repeat constructor|].
  destruct (Ascii.eqb a c) eqn:E; [by constructor|].
  destruct (split_char c s) as [|h l]; [by repeat constructor; cbn; rewrite E|].
  apply Forall_cons in IH as [Hh Hl]. constructor; [|done]. cbn. by rewrite E, Hh.
Qed.

Lemma split_char_app c s t :
  contains_char c s = false -> split_char c (s ++ String c t) = s :: split_char c t.
Proof.
  induction s as [|a s IH]; cbn; [by rewrite Ascii.eqb_refl|].
  destruct (Ascii.eqb a c) eqn:E; [done|]. cbn. intros H. by rewrite IH.
Qed.

Lemma split_char_none c s : contains_char c s = false -> split_char c s = [s].
Proof.
  induction s as [|a s IH]; cbn; [done|]. destruct (Ascii.eqb a c) eqn:E; [done|]. cbn. intros H. by rewrite IH.
Qed.

Lemma split_join c segs :
  segs <> [] -> Forall (fun s => contains_char c s = false) segs ->
  split_char c (join (String c EmptyString) segs) = segs.
Proof.
  intros Hne H. induction H as [|s segs Hs Hss IH]; [done|]. cbn [join].
  destruct segs as [|s2 segs]; [by apply split_char_none|].
  cbn [String.append]. rewrite split_char_app by done. by rewrite IH.
Qed.

Lemma split_char_concat c s t :
  split_char c (s ++ String c t) = (split_char c s ++ split_char c t)%list.
Proof.
  induction s as [|a s IH]; cbn [String.append split_char]; [by rewrite Ascii.eqb_refl|].
  destruct (Ascii.eqb a c); [by rewrite IH|]. rewrite IH.
  pose proof (split_char_nonempty c s). by destruct (split_char c s).
Qed.
