(* ===== verification/GoPath.v ===== *)
(** * Slash-separated paths

    The lexical part of Go's [path/filepath] on Unix: [Clean] and [Join], and
    the walk over path segments that says what confinement means. *)

From Stdlib Require Import Ascii String.
From S2P Require Import Prelude GoString.
Open Scope string_scope.

(** ** [filepath.Clean] *)

(** [out] holds the segments kept so far, last first. *)
Fixpoint clean_segs (rooted : bool) (out segs : list string) : list string :=
  match segs with
  | [] => out
  | seg :: segs' =>
      let out' :=
        if String.eqb seg EmptyString || String.eqb seg "." then out
        else if String.eqb seg ".." then
          match out with
          | [] => if rooted then [] else [".."]
          | top :: up => if String.eqb top ".." then ".." :: out else up
          end
        else seg :: out in
      clean_segs rooted out' segs'
  end.

Definition Clean (p : string) : string :=
  let rooted := has_prefix "/" p in
  let out := rev (clean_segs rooted [] (split_char "/" p)) in
  if rooted then "/" ++ join "/" out
  else match out with
       | [] => "."
       | _ => join "/" out
       end.

(** [filepath.Join]: empty elements are ignored. *)
Definition Join (elems : list string) : string :=
  match List.filter (fun e => negb (String.eqb e EmptyString)) elems with
  | [] => EmptyString
  | es => Clean (join "/" es)
  end.

(** ** Lexical confinement *)

(** Walk path segments from a directory stack: [..] leaves a directory, [.] and
    the empty segment stay. *)
Fixpoint walk (dir : list string) (segs : list string) : option (list string) :=
  match segs with
  | [] => Some dir
  | seg :: segs' =>
      if String.eqb seg ".." then
        match dir with
        | [] => None
        | _ :: up => walk up segs'
        end
      else if String.eqb seg "." || String.eqb seg EmptyString then walk dir segs'
      else walk (seg :: dir) segs'
  end.

(** ** Lemmas *)

Lemma walk_no_dotdot dir segs :
  ".." ∉ segs -> exists sub, walk dir segs = Some (sub ++ dir)%list.
Proof.
  revert dir. induction segs as [|seg segs IH]; intros dir Hn; cbn; [by exists []|].
  apply not_elem_of_cons in Hn as [Hne Hn].
  rewrite (proj2 (String.eqb_neq seg "..")) by done.
  destruct (String.eqb seg "." || String.eqb seg ""); [by apply IH|].
  destruct (IH (seg :: dir) Hn) as [sub ->]. exists (sub ++ [seg])%list.
  by rewrite <- app_assoc.
Qed.


(** ** [filepath.Dir], [filepath.Base] and [filepath.Rel] *)

(** Up to and including the last slash, cleaned. *)
Definition Dir (p : string) : string :=
  match removelast (split_char "/" p) with
  | [] => Clean EmptyString
  | up => Clean (join "/" up ++ "/")
  end.

(** The last element of a path without trailing slashes. *)
Definition Base (p : string) : string :=
  if String.eqb p EmptyString then "."
  else match List.filter (fun s => negb (String.eqb s EmptyString)) (split_char "/" p) with
       | [] => "/"
       | segs => List.last segs EmptyString
       end.

(** The elements of a cleaned path. *)
Definition elements (p : string) : list string :=
  if String.eqb p "." then []
  else List.filter (fun s => negb (String.eqb s EmptyString)) (split_char "/" p).

Fixpoint strip_common (b t : list string) : list string * list string :=
  match b, t with
  | x :: b', y :: t' => if String.eqb x y then strip_common b' t' else (b, t)
  | _, _ => (b, t)
  end.

(** [None]: no relative path can be made. *)
Definition Rel (basepath targpath : string) : option string :=
  let base := Clean basepath in
  let targ := Clean targpath in
  if negb (Bool.eqb (has_prefix "/" base) (has_prefix "/" targ)) then None
  else
    let '(b, t) := strip_common (elements base) (elements targ) in
    match b, t with
    | [], [] => Some "."
    | x :: _, _ =>
        if String.eqb x ".." then None else Some (join "/" (map (fun _ => "..") b ++ t)%list)
    | [], _ => Some (join "/" t)
    end.

(** ** Clean absolute paths *)

Definition plain_seg (s : string) : Prop :=
  s <> EmptyString /\ s <> "." /\ s <> ".." /\ contains_char "/" s = false.

Definition abs_path (segs : list string) : string := "/" ++ join "/" segs.
Definition clean_abs (p : string) : Prop := exists segs, p = abs_path segs /\ Forall plain_seg segs.

Lemma clean_segs_plain out segs :
  Forall plain_seg out -> Forall (fun s => contains_char "/" s = false) segs ->
  Forall plain_seg (clean_segs true out segs).
Proof.
  intros Ho Hs. revert out Ho. induction Hs as [|s segs Hs Hss IH]; intros out Ho; cbn; [done|]. apply IH.
  destruct (String.eqb_spec s EmptyString); [done|]. destruct (String.eqb_spec s "."); [done|]. cbn.
  destruct (String.eqb_spec s ".."); [|by repeat constructor].
  destruct out as [|top up]; [done|]. apply Forall_cons in Ho as [Ht Hu].
  destruct (String.eqb_spec top ".."); [|done]. subst. by destruct Ht as (_ & _ & ? & _).
Qed.

Lemma plain_no_slash segs : Forall plain_seg segs -> Forall (fun s => contains_char "/" s = false) segs.
Proof. intros H. eapply Forall_impl; [exact H|]. by intros s (_ & _ & _ & ?). Qed.

Lemma split_abs_path segs :
  Forall plain_seg segs -> split_char "/" (abs_path segs) = EmptyString :: (if segs is [] then [EmptyString] else segs).
Proof.
  intros H. change (abs_path segs) with (String "/" (join "/" segs)). cbn [split_char].
  rewrite Ascii.eqb_refl. f_equal.
  destruct segs as [|s segs]; [done|]. apply split_join; [done|]. by apply plain_no_slash.
Qed.

Lemma clean_segs_id rooted out segs : Forall plain_seg segs -> clean_segs rooted out segs = (rev segs ++ out)%list.
Proof.
  intros H. revert out. induction H as [|s segs (H1 & H2 & H3 & _) Hs IH]; intros out; [done|]. cbn.
  apply String.eqb_neq in H1, H2, H3. rewrite H1, H2, H3. cbn. rewrite IH. by rewrite <- app_assoc.
Qed.

Lemma clean_segs_app rooted out l1 l2 :
  clean_segs rooted out (l1 ++ l2) = clean_segs rooted (clean_segs rooted out l1) l2.
Proof. revert out. induction l1 as [|s l1 IH]; intros out; [done|]. cbn. by rewrite IH. Qed.

Lemma Clean_rooted p : has_prefix "/" p = true -> clean_abs (Clean p).
Proof.
  intros H. unfold Clean. rewrite H. eexists. split; [reflexivity|].
  apply Forall_rev, clean_segs_plain; [done|apply split_char_no_sep].
Qed.

(** A rooted text whose segments are plain up to empty ones. *)
Lemma Clean_of_segs p segs :
  Forall plain_seg segs -> has_prefix "/" p = true ->
  clean_segs true [] (split_char "/" p) = rev segs -> Clean p = abs_path segs.
Proof. intros Hs Hp Hc. unfold Clean. by rewrite Hp, Hc, rev_involutive. Qed.

Lemma has_prefix_slash s : has_prefix "/" (String "/" s) = true.
Proof. cbn. by destruct s. Qed.

Lemma abs_path_rooted segs : has_prefix "/" (abs_path segs) = true.
Proof. apply has_prefix_slash. Qed.

Lemma Clean_abs_path segs : Forall plain_seg segs -> Clean (abs_path segs) = abs_path segs.
Proof.
  intros H. apply Clean_of_segs; [done|apply abs_path_rooted|]. rewrite split_abs_path by done.
  destruct segs as [|s segs]; [done|]. change (clean_segs true [] (s :: segs) = rev (s :: segs)).
  rewrite clean_segs_id by done. by rewrite app_nil_r.
Qed.

Lemma filter_plain segs :
  Forall plain_seg segs -> List.filter (fun s => negb (String.eqb s EmptyString)) segs = segs.
Proof.
  intros H. induction H as [|x l (Hx & _) Hl IH]; [done|].
  cbn. by rewrite (proj2 (String.eqb_neq _ _) Hx), IH.
Qed.

Lemma elements_abs_path segs : Forall plain_seg segs -> elements (abs_path segs) = segs.
Proof.
  intros H. unfold elements. rewrite (proj2 (String.eqb_neq (abs_path segs) ".")) by discriminate.
  rewrite split_abs_path by done. destruct segs as [|s segs]; [done|].
  cbn [List.filter String.eqb negb]. by apply (filter_plain (s :: segs)).
Qed.

Lemma removelast_cons_snoc {A} (x y : A) l : removelast (x :: l ++ [y])%list = (x :: l)%list.
Proof. change (x :: l ++ [y])%list with ((x :: l) ++ [y])%list. apply removelast_last. Qed.

Lemma join_snoc_empty sep l : l <> [] -> join sep (l ++ [EmptyString])%list = join sep l ++ sep.
Proof.
  intros Hne. induction l as [|s l IH]; [done|]. cbn [join List.app].
  destruct l as [|s2 l]; [cbn; by rewrite append_nil_r|].
  cbn [join List.app] in *. rewrite IH by done. by rewrite !append_assoc.
Qed.

Lemma Dir_abs_path segs s :
  Forall plain_seg (segs ++ [s]) -> Dir (abs_path (segs ++ [s])) = abs_path segs.
Proof.
  intros H. unfold Dir. rewrite split_abs_path by done.
  replace (if (segs ++ [s])%list is [] then [EmptyString] else (segs ++ [s])%list) with (segs ++ [s])%list by by destruct segs.
  rewrite removelast_cons_snoc. apply Forall_app in H as [H Hs].
  apply Clean_of_segs; [done| |].
  - destruct segs; [done|]. apply has_prefix_slash.
  - rewrite <- join_snoc_empty by done.
    rewrite split_join; [|by destruct segs|repeat constructor; apply Forall_app; split; [by apply plain_no_slash|by repeat constructor]].
    change (clean_segs true [] (segs ++ [EmptyString]) = rev segs).
    rewrite clean_segs_app, (clean_segs_id _ _ segs) by done. by rewrite app_nil_r.
Qed.

Lemma Dir_root : Dir (abs_path []) = abs_path [].
Proof. reflexivity. Qed.

Lemma Base_abs_path segs s : Forall plain_seg (segs ++ [s]) -> Base (abs_path (segs ++ [s])) = s.
Proof.
  intros H. unfold Base. rewrite (proj2 (String.eqb_neq (abs_path _) EmptyString)) by discriminate.
  rewrite split_abs_path by done. cbn [List.filter String.eqb negb].
  replace (if (segs ++ [s])%list is [] then [EmptyString] else (segs ++ [s])%list) with (segs ++ [s])%list by by destruct segs.
  rewrite filter_plain by done. pose proof (List.last_last segs s EmptyString) as E.
  destruct (segs ++ [s])%list eqn:E2; [by destruct segs|]. exact E.
Qed.

Lemma join_plain_nonempty segs : segs <> [] -> Forall plain_seg segs -> join "/" segs <> EmptyString.
Proof.
  intros Hne H. destruct H as [|s segs (Hs & _) _]; [done|]. destruct s; [done|]. cbn. by destruct segs.
Qed.

Lemma Join_two a b : a <> EmptyString -> b <> EmptyString -> Join [a; b] = Clean (a ++ "/" ++ b).
Proof.
  intros Ha Hb. unfold Join. cbn [List.filter].
  by rewrite (proj2 (String.eqb_neq _ _) Ha), (proj2 (String.eqb_neq _ _) Hb).
Qed.

Lemma Join_abs_path rs rem :
  Forall plain_seg rs -> Forall plain_seg rem -> rem <> [] ->
  Join [abs_path rs; join "/" rem] = abs_path (rs ++ rem).
Proof.
  intros Hr Hm Hne. rewrite Join_two; [|discriminate|by apply join_plain_nonempty].
  apply Clean_of_segs; [by apply Forall_app| |].
  - apply has_prefix_slash.
  - change ("/" ++ join "/" rem) with (String "/" (join "/" rem)).
    rewrite split_char_concat, split_abs_path, split_join by (try done; by apply plain_no_slash).
    rewrite clean_segs_app, (clean_segs_id _ _ rem) by done. rewrite rev_app_distr. f_equal.
    destruct rs as [|r rs]; [done|]. change (clean_segs true [] (r :: rs) = rev (r :: rs)).
    rewrite clean_segs_id by done. by rewrite app_nil_r.
Qed.

Lemma has_prefix_not_slash a s : a <> "/"%char -> has_prefix "/" (String a s) = false.
Proof.
  intros Ha. change (has_prefix "/" (String a s)) with (if ascii_dec "/" a then String.prefix EmptyString s else false).
  destruct (ascii_dec "/" a); congruence.
Qed.

Lemma Clean_relative segs : segs <> [] -> Forall plain_seg segs -> Clean (join "/" segs) = join "/" segs.
Proof.
  intros Hne H. assert (has_prefix "/" (join "/" segs) = false) as Hp.
  { destruct H as [|s segs (Hs & _ & _ & Hc) _]; [done|]. destruct s as [|a s]; [done|].
    assert (a <> "/"%char) as Ha by (intros ->; cbn in Hc; done).
    destruct segs; by apply has_prefix_not_slash. }
  unfold Clean. rewrite Hp, split_join, clean_segs_id by (try done; by apply plain_no_slash).
  rewrite app_nil_r, rev_involutive. by destruct segs.
Qed.

Lemma Join_relative s rem :
  Forall plain_seg (s :: rem) -> Join [s; join "/" rem] = join "/" (s :: rem).
Proof.
  intros H. pose proof H as (( Hs & _) & Hr)%Forall_cons. destruct rem as [|r rem].
  - unfold Join. cbn. rewrite (proj2 (String.eqb_neq _ _) Hs). cbn.
    rewrite <- (Clean_relative [s]) at 2 by done. done.
  - rewrite Join_two by (try done; by apply join_plain_nonempty).
    by rewrite <- (Clean_relative (s :: r :: rem)) by done.
Qed.

Lemma strip_common_spec b t :
  let '(b', t') := strip_common b t in
  (exists common, b = (common ++ b')%list /\ t = (common ++ t')%list) /\ (b' = [] <-> b `prefix_of` t).
Proof.
  revert t. induction b as [|x b IH]; intros t; cbn.
  - split; [by exists []|]. split; [intros _; apply prefix_nil|done].
  - destruct t as [|y t]; cbn.
    { split; [by exists []|]. split; [done|]. by intros ?%prefix_nil_inv. }
    destruct (String.eqb_spec x y) as [->|Hne].
    + specialize (IH t). destruct (strip_common b t) as [b' t'].
      destruct IH as ((common & -> & ->) & Hp). split; [by exists (y :: common)|].
      rewrite Hp. split; [by apply prefix_cons|by apply prefix_cons_inv_2].
    + split; [by exists []|]. split; [done|]. by intros ?%prefix_cons_inv_1.
Qed.

(** The relative path between clean absolute paths climbs exactly when the base is not a prefix. *)
Lemma Rel_abs_path b t :
  Forall plain_seg b -> Forall plain_seg t ->
  exists segs, Rel (abs_path b) (abs_path t) = Some (join "/" segs) /\ segs <> []
    /\ Forall (fun s => contains_char "/" s = false) segs /\ (".." ∉ segs <-> b `prefix_of` t).
Proof.
  intros Hb Ht. unfold Rel. rewrite !Clean_abs_path, !elements_abs_path, !abs_path_rooted by done. cbn [Bool.eqb negb].
  pose proof (strip_common_spec b t) as S. destruct (strip_common b t) as [b' t'].
  destruct S as ((common & -> & ->) & Hp).
  apply Forall_app in Hb as [_ Hb], Ht as [_ Ht].
  destruct b' as [|x b'].
  - assert (".." ∉ t') as Hn by (intros Hin; rewrite Forall_forall in Ht; by destruct (Ht _ Hin) as (_ & _ & ? & _)).
    destruct t' as [|y t'].
    + exists ["."]. split_and!; [done|done|by repeat constructor|].
      split; [intros _; by apply Hp|intros _; set_solver].
    + exists (y :: t'). split_and!; [done|done|by apply plain_no_slash|]. by rewrite <- Hp.
  - apply Forall_cons in Hb as [(_ & _ & Hx & _) Hb]. rewrite (proj2 (String.eqb_neq _ _) Hx).
    eexists. split_and!; [reflexivity|done| |].
    + apply Forall_app. split; [|by apply plain_no_slash]. by apply Forall_map, Forall_true.
    + rewrite <- Hp. split; [|done]. intros Hn. exfalso. apply Hn. cbn. left.
Qed.
