(* ===== verification/Float64.v ===== *)
(** * Go's [float64]

    IEEE 754 binary64 values and their operations, from the Standard Library's
    executable specification ([SpecFloat]): every operation rounds to nearest,
    ties to even, as Go requires.  Comparisons with NaN are false. *)

From Stdlib Require Import SpecFloat.
From S2P Require Import Prelude.
Open Scope Z_scope.

Definition f64 : Type := spec_float.

Definition f_ltb (a b : f64) : bool := SFltb a b.
Definition f_leb (a b : f64) : bool := SFleb a b.
Definition f_eqb (a b : f64) : bool := SFeqb a b.

Definition f_add (a b : f64) : f64 := SFadd 53 1024 a b.
Definition f_mul (a b : f64) : f64 := SFmul 53 1024 a b.
Definition f_div (a b : f64) : f64 := SFdiv 53 1024 a b.

(** [float64(z)] for an integer [z]. *)
Definition f_of_Z (z : Z) : f64 := binary_normalize 53 1024 z 0 false.

(** A decimal constant [n / d] as the compiler rounds it, [n] and [d] exact. *)
Definition f_dec (n d : Z) : f64 := f_div (f_of_Z n) (f_of_Z d).

Definition f_zero : f64 := S754_zero false.
Definition f_one : f64 := f_of_Z 1.

(** Neither NaN nor an infinity: what [encoding/json] can encode. *)
Definition f_finite (a : f64) : bool :=
  match a with
  | S754_zero _ | S754_finite _ _ _ => true
  | _ => false
  end.

(** The integer part of a finite value, towards zero. *)
Definition f_trunc (a : f64) : Z :=
  match a with
  | S754_finite s m e =>
      let v := if 0 <=? e then Z.pos m * 2 ^ e else Z.pos m / 2 ^ (- e) in
      if s then - v else v
  | _ => 0
  end.

(** [int(a)].  The language leaves the value open when [a] is NaN, infinite or
    outside the 64-bit range; [oor] is what the platform gives there. *)
Definition f_to_int (oor : f64 -> Z) (a : f64) : Z :=
  if f_finite a then
    let v := f_trunc a in
    if (- 2 ^ 63 <=? v) && (v <? 2 ^ 63) then v else oor a
  else oor a.

#[export] Instance spec_float_eq_dec : EqDecision spec_float.
Proof. intros a b. unfold Decision. decide equality; try apply Z.eq_dec; try apply Pos.eq_dec; apply bool_eq_dec. Defined.

Example f_dec_ex : f_ltb (f_dec 3 10) (f_dec 35 100) = true.
Proof. reflexivity. Qed.
Example f_to_int_ex : f_to_int (fun _ => 0) (f_mul (f_of_Z 10) (f_dec 4 10)) = 4.
Proof. reflexivity. Qed.

(** ** Order: the rank of a value

    On values that are not NaN the comparisons are those of a total order on
    ranks (the two zeros have one rank). *)

Definition f_nan (a : f64) : bool := match a with S754_nan => true | _ => false end.

Definition f_rank (a : f64) : Z * Z * Z :=
  match a with
  | S754_infinity true => (-2, 0, 0)
  | S754_finite true m e => (-1, - e, - Z.pos m)
  | S754_zero _ => (0, 0, 0)
  | S754_finite false m e => (1, e, Z.pos m)
  | S754_infinity false => (2, 0, 0)
  | S754_nan => (3, 0, 0)
  end.

Definition rank_lt (a b : Z * Z * Z) : bool :=
  then_by (fun t => fst (fst t)) Z.ltb (then_by (fun t => snd (fst t)) Z.ltb (on_key snd Z.ltb)) a b.

#[export] Instance rank_lt_total : StrictTotal rank_lt.
Proof.
  split; unfold rank_lt, then_by, on_key.
  - intros [[a b] c]; cbn. repeat case_decide; try done; lia.
  - intros [[a b] c] [[a' b'] c'] [[a'' b''] c'']; cbn. repeat case_decide; lia.
  - intros [[a b] c] [[a' b'] c']; cbn. repeat case_decide; intros; repeat f_equal; lia.
Qed.

Lemma f_ltb_rank a b : f_nan a = false -> f_nan b = false -> f_ltb a b = rank_lt (f_rank a) (f_rank b).
Proof.
  unfold f_ltb, SFltb, rank_lt, then_by, on_key.
  destruct a as [sa|[]| |[] m e], b as [sb|[]| |[] m' e']; cbn; intros; try done;
    repeat case_decide; try lia; change (Pos.compare_cont Eq m m') with (Pos.compare m m');
    destruct (Z.compare_spec e e'); try lia; destruct (Pos.compare_spec m m'); cbn; lia.
Qed.

Lemma f_eqb_rank a b : f_nan a = false -> f_nan b = false -> f_eqb a b = bool_decide (f_rank a = f_rank b).
Proof.
  unfold f_eqb, SFeqb.
  destruct a as [sa|[]| |[] m e], b as [sb|[]| |[] m' e']; cbn; intros; try done;
    change (Pos.compare_cont Eq m m') with (Pos.compare m m');
    destruct (Z.compare_spec e e'); try destruct (Pos.compare_spec m m'); cbn; symmetry;
    first [apply bool_decide_eq_true_2; congruence
          |apply bool_decide_eq_false_2; intros [=]; lia].
Qed.

(** ** Rounding keeps integers finite *)

Lemma digits2_log2 p : Z.pos (digits2_pos p) = Z.log2 (Z.pos p) + 1.
Proof.
  induction p as [p IH|p IH|]; cbn [digits2_pos]; [| |done].
  - rewrite Pos2Z.inj_succ, IH, (Pos2Z.inj_xI p), Z.log2_succ_double by lia. lia.
  - rewrite Pos2Z.inj_succ, IH, (Pos2Z.inj_xO p), Z.log2_double by lia. lia.
Qed.

Lemma Zdigits2_log2 m : 0 < m -> Zdigits2 m = Z.log2 m + 1.
Proof. destruct m; try lia. intros _. apply digits2_log2. Qed.

Lemma shr_1_m r : 0 <= shr_m r -> shr_m (shr_1 r) = shr_m r / 2.
Proof.
  destruct r as [[|[p|p|]|p] a b]; cbn [shr_m shr_1]; intros; try done.
  - rewrite (Pos2Z.inj_xI p). Z.div_mod_to_equations. lia.
  - rewrite (Pos2Z.inj_xO p). Z.div_mod_to_equations. lia.
Qed.

Lemma iter_shr_m p r : 0 <= shr_m r -> shr_m (SpecFloat.iter_pos shr_1 p r) = shr_m r / 2 ^ Z.pos p.
Proof.
  assert (Hdiv : forall m a b, 0 <= a -> 0 <= b -> m / 2 ^ a / 2 ^ b = m / 2 ^ (a + b)).
  { intros m a b Ha Hb. rewrite Z.pow_add_r by lia. apply Z.div_div; lia. }
  revert r. induction p as [p IH|p IH|]; intros r Hr; cbn [SpecFloat.iter_pos].
  - assert (H1 : 0 <= shr_m (shr_1 r)) by (rewrite shr_1_m by done; by apply Z.div_pos).
    rewrite IH by (rewrite IH by done; apply Z.div_pos; lia). rewrite IH, shr_1_m by done.
    change (shr_m r / 2) with (shr_m r / 2 ^ 1).
    rewrite !Hdiv by lia. f_equal. f_equal. lia.
  - rewrite IH by (rewrite IH by done; apply Z.div_pos; lia). rewrite IH by done.
    rewrite !Hdiv by lia. f_equal. f_equal. lia.
  - by rewrite shr_1_m.
Qed.

Lemma shr_of_loc_m m l : shr_m (shr_record_of_loc m l) = m.
Proof. by destruct l as [|[]]. Qed.

(** [shr_fexp] of a non-negative mantissa: it stays non-negative; from a
    positive one of magnitude above the subnormal range a positive one of no
    larger magnitude results. *)
Lemma shr_fexp_nonneg m e l : 0 <= m -> 0 <= shr_m (fst (shr_fexp 53 1024 m e l)).
Proof.
  intros Hm. unfold shr_fexp, shr. destruct (_ - _); cbn [fst]; try by rewrite shr_of_loc_m.
  rewrite iter_shr_m; rewrite shr_of_loc_m; [apply Z.div_pos; lia|done].
Qed.

Lemma shr_fexp_pos m e l :
  0 < m -> -1000 <= Z.log2 m + e <= 900 -> e <= 900 ->
  let '(r, e') := shr_fexp 53 1024 m e l in
  0 < shr_m r /\ Z.log2 (shr_m r) + e' <= Z.log2 m + e /\ -1000 <= Z.log2 (shr_m r) + e' /\ e' <= 900.
Proof.
  intros Hm Hl He. unfold shr_fexp. rewrite Zdigits2_log2 by done.
  unfold fexp. change (emin 53 1024) with (-1074).
  replace (Z.max (Z.log2 m + 1 + e - 53) (-1074)) with (Z.log2 m + e - 52) by lia.
  pose proof (Z.log2_nonneg m). unfold shr. destruct (Z.log2 m + e - 52 - e) as [|p|p] eqn:E.
  - rewrite shr_of_loc_m. lia.
  - rewrite iter_shr_m, shr_of_loc_m by (rewrite shr_of_loc_m; lia).
    assert (Z.pos p <= Z.log2 m) by lia.
    assert (2 ^ Z.pos p <= m) by (apply Z.log2_le_pow2; lia).
    assert (0 < m / 2 ^ Z.pos p) by (apply Z.div_str_pos; lia).
    rewrite <- Z.shiftr_div_pow2, Z.log2_shiftr by lia. rewrite Z.shiftr_div_pow2 by lia.
    rewrite Z.max_r by lia. lia.
  - rewrite shr_of_loc_m. lia.
Qed.

Lemma round_even_bounds m l : m <= round_nearest_even m l <= m + 1.
Proof. destruct l as [|[]]; cbn; try destruct (Z.even m); lia. Qed.

Lemma round_aux_not_nan s m e l : 0 <= m -> f_nan (binary_round_aux 53 1024 s m e l) = false.
Proof.
  intros Hm. unfold binary_round_aux.
  pose proof (shr_fexp_nonneg m e l Hm) as H1. destruct (shr_fexp 53 1024 m e l) as [r e']. cbn [fst] in H1.
  set (m' := round_nearest_even _ _).
  assert (Hm' : 0 <= m') by (pose proof (round_even_bounds (shr_m r) (loc_of_shr_record r)); lia).
  pose proof (shr_fexp_nonneg m' e' loc_Exact Hm') as H2.
  destruct (shr_fexp 53 1024 m' e' loc_Exact) as [r2 e2]. cbn [fst] in H2.
  destruct (shr_m r2); [done| |lia]. by destruct (_ <=? _).
Qed.

Lemma round_aux_finite s m e :
  0 < m -> -900 <= Z.log2 m + e <= 800 -> e <= 800 ->
  exists m' e', binary_round_aux 53 1024 s m e loc_Exact = S754_finite s m' e'.
Proof.
  intros Hm Hl He. unfold binary_round_aux.
  pose proof (shr_fexp_pos m e loc_Exact Hm ltac:(lia) ltac:(lia)) as H1.
  destruct (shr_fexp 53 1024 m e loc_Exact) as [r e']. destruct H1 as (Hp & Hle & Hge & He').
  set (m' := round_nearest_even _ _).
  pose proof (round_even_bounds (shr_m r) (loc_of_shr_record r)) as Hb. fold m' in Hb.
  pose proof (Z.log2_succ_le (shr_m r)). pose proof (Z.log2_le_mono m' (shr_m r + 1) ltac:(lia)).
  pose proof (Z.log2_le_mono (shr_m r) m' ltac:(lia)).
  unfold Z.succ in *.
  pose proof (shr_fexp_pos m' e' loc_Exact ltac:(lia) ltac:(lia) ltac:(lia)) as H2.
  destruct (shr_fexp 53 1024 m' e' loc_Exact) as [r2 e2]. destruct H2 as (Hp2 & _ & _ & He2).
  destruct (shr_m r2) as [|p|p]; try lia. destruct (Z.leb_spec e2 (1024 - 53)); [eauto|lia].
Qed.

Lemma iter_xO p d : Z.pos (Pos.iter xO p d) = Z.pos p * 2 ^ Z.pos d.
Proof.
  revert p. induction d as [|d IH] using Pos.peano_ind; intros p; [cbn; lia|].
  rewrite Pos.iter_succ, (Pos2Z.inj_xO (Pos.iter xO p d)), IH, Pos2Z.inj_succ, Z.pow_succ_r by lia. lia.
Qed.

(** [float64(z)] of a positive [int64] is a positive finite number. *)
Lemma f_of_Z_finite z : 0 < z < 2 ^ 63 -> exists m e, f_of_Z z = S754_finite false m e.
Proof.
  intros Hz. destruct z as [|p|p]; try lia. unfold f_of_Z, binary_normalize, binary_round, shl_align.
  assert (Hl : 0 <= Z.log2 (Z.pos p) <= 62).
  { split; [apply Z.log2_nonneg|]. enough (Z.log2 (Z.pos p) < 63) by lia. apply Z.log2_lt_pow2; lia. }
  unfold fexp. change (emin 53 1024) with (-1074). rewrite digits2_log2.
  replace (Z.max _ _) with (Z.log2 (Z.pos p) - 52) by lia.
  destruct (Z.log2 (Z.pos p) - 52 - 0) as [|d|d] eqn:E; [apply round_aux_finite; lia..|].
  apply round_aux_finite; [lia| |lia].
  rewrite iter_xO, <- Z.shiftl_mul_pow2, Z.log2_shiftl by lia. lia.
Qed.

Lemma f_mul_not_nan s m e b : f_nan b = false -> f_nan (f_mul (S754_finite s m e) b) = false.
Proof. destruct b; intros; try done. unfold f_mul, SFmul. by apply round_aux_not_nan. Qed.

Lemma f_div_not_nan a m e s : f_finite a = true -> f_nan (f_div a (S754_finite s m e)) = false.
Proof.
  destruct a as [| | |sa ma ea]; intros Ha; try done. unfold f_div, SFdiv, SFdiv_core_binary.
  set (m' := match _ with Zpos _ => _ | _ => _ end).
  assert (Hm : 0 <= m') by (subst m'; destruct (_ - _); [lia|apply Z.shiftl_nonneg; lia|lia]).
  pose proof (Z.div_pos m' (Z.pos m) Hm ltac:(lia)) as Hq. unfold Z.div in Hq.
  destruct (Z.div_eucl m' (Z.pos m)) as [q r]. by apply round_aux_not_nan.
Qed.
