(* ===== verification/Runtime.v ===== *)
(** * The parts of Go's standard library kept abstract

    [GoRuntime] collects the standard-library functions the sources call whose
    bodies do not matter to any property: hashing, time-stamp syntax, quoting
    and case mapping tables.  Definitions take it as an implicit argument, so
    every theorem holds for every implementation; [demo_runtime] is a concrete
    one, for evaluation. *)

From Stdlib Require Import Ascii String.
From S2P Require Import Prelude GoString Float64.
Open Scope string_scope.
Open Scope Z_scope.

Class GoRuntime := {
  (** [hex.EncodeToString] of [sha256.Sum256] (64 hex digits). *)
  sha256_hex : string -> string;
  (** [time.Parse(time.RFC3339Nano, s)] returns no error. *)
  rfc3339nano_ok : string -> bool;
  (** [strconv.Quote], the verb [%q]. *)
  quote : string -> string;
  (** [strings.ToLower]. *)
  to_lower : string -> string;
  (** [strings.EqualFold]. *)
  equal_fold : string -> string -> bool;
  (** [int(f)] for an [f] outside the range of [int] (implementation-defined). *)
  int_out_of_range : f64 -> Z
}.

(** The tables of [unicode] behind the classes [\p{L}] and [\p{N}]
    ([unicode.IsLetter] and [unicode.IsNumber]). *)
Class RuneTables := { letter_or_number : Z -> bool }.

(** The first 16 bytes of the digest, in hex: [hex.EncodeToString(sum[:16])]. *)
Definition sha256_16 `{GoRuntime} (s : string) : string := str_take 32 (sha256_hex s).

(** ** A concrete runtime *)

Definition ascii_lower (c : ascii) : ascii :=
  if in_range 65 90 c then byte_of_Z (byte_val c + 32) else c.

(** A position-weighted checksum stands in for the digest. *)
Fixpoint checksum (s : string) (acc : Z) : Z :=
  match s with
  | EmptyString => acc
  | String c s' => checksum s' ((acc * 257 + byte_val c + 1) mod 2 ^ 61)
  end.

Definition demo_runtime : GoRuntime := {|
  sha256_hex := fun s => dec (checksum s 7);
  rfc3339nano_ok := fun s => (0 <? len s) && (len s <=? 35) && negb (contains_char " " s);
  quote := fun s => "'" ++ s ++ "'";
  to_lower := str_map ascii_lower;
  equal_fold := fun a b => String.eqb (str_map ascii_lower a) (str_map ascii_lower b);
  int_out_of_range := fun _ => - 2 ^ 63
|}.

(** ** A self-delimiting text for positive numbers

    With stdpp's [encode] it gives every countable type a concrete file format,
    which the examples use in place of JSON. *)

Fixpoint pos_str (p : positive) : string :=
  match p with
  | xH => "}"
  | xO p' => String "0" (pos_str p')
  | xI p' => String "1" (pos_str p')
  end.

Fixpoint str_pos (s : string) : positive :=
  match s with
  | String "0" s' => xO (str_pos s')
  | String "1" s' => xI (str_pos s')
  | _ => xH
  end.

Lemma str_pos_str p rest : str_pos (pos_str p ++ rest) = p.
Proof. induction p; cbn; congruence. Qed.
