(* ===== verification/TextBound.v ===== *)
(** * textbound: truncation on rune boundaries

    Models [services/internal/textbound/textbound.go].  [Bytes] is the byte
    bounded cut every other truncation helper of the repository is meant to
    use; [Runes] and [Ellipsis] are built beside it. *)

From Stdlib Require Import Ascii String.
From S2P Require Import Prelude GoString.
Open Scope string_scope.
Open Scope Z_scope.

(** [utf8.RuneStart(s[i])]; positions inspected are always in range. *)
Definition rune_start_at (s : string) (i : nat) : bool :=
  match String.get i s with
  | Some c => rune_start c
  | None => false
  end.

(** The loop [for cut := limit; cut > floor; cut--], [steps = limit - floor]. *)
Fixpoint retreat (s : string) (steps cut : nat) : option nat :=
  match steps with
  | O => None
  | S steps' => if rune_start_at s cut then Some cut else retreat s steps' (cut - 1)
  end.

Definition UTFMax : nat := 4.

Definition Bytes (s : string) (limit : Z) : string :=
  if limit <=? 0 then EmptyString
  else if len s <=? limit then s
  else
    let limit := Z.to_nat limit in
    let floor := (limit - (UTFMax - 1))%nat in
    match retreat s (limit - floor) limit with
    | Some cut => str_take cut s
    | None => if rune_start_at s floor then str_take floor s else str_take limit s
    end.

(** [for index := range s { if count == limit { return s[:index] }; count++ }] *)
Fixpoint runes_loop (s : string) (limit count : Z) (index : nat) (l : list piece) : string :=
  match l with
  | [] => s
  | p :: l' =>
      if count =? limit then str_take index s
      else runes_loop s limit (count + 1) (index + String.length (p_raw p)) l'
  end.

Definition Runes (s : string) (limit : Z) : string :=
  if limit <=? 0 then EmptyString
  else if rune_count s <=? limit then s
  else runes_loop s limit 0 0 (pieces s).

(** U+2026 in UTF-8. *)
Definition mark : string := str_of_bytes [226; 128; 166].

Definition Ellipsis (s : string) (limit : Z) : string :=
  if limit <=? 0 then EmptyString
  else if len s <=? limit then s
  else if limit <=? len mark then Bytes s limit
  else Bytes s (limit - len mark) ++ mark.

(** ** UTF-8 facts about cuts *)

(** The width of a rune is decided by its own bytes. *)
Lemma utf8_size_local s n t :
  utf8_size s = S n -> utf8_size (str_take (S n) s ++ t) = S n.
Proof.
  unfold utf8_size. destruct s as [|a s]; [done|].
  destruct (byte_val a <? 128) eqn:E1.
  { intros [= <-]. cbn. by rewrite E1. }
  destruct (in_range 194 223 a) eqn:E2.
  { destruct s as [|b s]; [done|]. destruct (cont b) eqn:Eb; [|done].
    intros [= <-]. cbn. by rewrite E1, E2, Eb. }
  destruct (in_range 224 239 a) eqn:E3.
  { destruct s as [|b [|c s]]; try done. destruct (second3 a b && cont c) eqn:Eb; [|done].
    intros [= <-]. cbn. by rewrite E1, E2, E3, Eb. }
  destruct (in_range 240 244 a) eqn:E4; [|done].
  destruct s as [|b [|c [|d s]]]; try done.
  destruct (second4 a b && cont c && cont d) eqn:Eb; [|done].
  intros [= <-]. cbn. by rewrite E1, E2, E3, E4, Eb.
Qed.

Lemma second3_cont a b : second3 a b = true -> cont b = true.
Proof.
  unfold second3, cont, in_range. intros H. repeat case_match; bool_prop;
    apply andb_true_iff; rewrite !Z.leb_le; lia.
Qed.

Lemma second4_cont a b : second4 a b = true -> cont b = true.
Proof.
  unfold second4, cont, in_range. intros H. repeat case_match; bool_prop;
    apply andb_true_iff; rewrite !Z.leb_le; lia.
Qed.

Ltac get_cont := cbn; rewrite rune_start_cont;
  match goal with H : cont _ = true |- _ => by rewrite H end.

(** Inside a rune there is no rune start... *)
Lemma inside_rune s n i :
  utf8_size s = S n -> (0 < i < S n)%nat -> rune_start_at s i = false.
Proof.
  unfold utf8_size, rune_start_at. destruct s as [|a s]; [done|].
  destruct (byte_val a <? 128); [intros; lia|].
  destruct (in_range 194 223 a).
  { destruct s as [|b s]; [done|]. destruct (cont b) eqn:Eb; [|done].
    intros [= <-] ?. assert (i = 1)%nat as -> by lia. get_cont. }
  destruct (in_range 224 239 a).
  { destruct s as [|b [|c s]]; try done. destruct (second3 a b && cont c) eqn:Eb; [|done].
    apply andb_true_iff in Eb as [?%second3_cont ?]. intros [= <-] ?.
    assert (i = 1 \/ i = 2)%nat as [-> | ->] by lia; get_cont. }
  destruct (in_range 240 244 a); [|done].
  destruct s as [|b [|c [|d s]]]; try done.
  destruct (second4 a b && cont c && cont d) eqn:Eb; [|done].
  apply andb_true_iff in Eb as [[?%second4_cont ?]%andb_true_iff ?]. intros [= <-] ?.
  assert (i = 1 \/ i = 2 \/ i = 3)%nat as [-> | [-> | ->]] by lia; get_cont.
Qed.

(** ... a rune starts with one ... *)
Lemma rune_starts s n : utf8_size s = S n -> rune_start_at s 0 = true.
Proof.
  unfold utf8_size, rune_start_at. destruct s as [|a s]; [done|]. cbn.
  rewrite rune_start_cont. unfold cont, in_range.
  destruct (byte_val a <? 128) eqn:E1; [|destruct (byte_val a <=? 191) eqn:E5].
  - intros _. apply negb_true_iff, andb_false_iff. left. bool_prop. apply Z.leb_gt. lia.
  - bool_prop. repeat match goal with
      |- context [(?x <=? byte_val a) && _] =>
        rewrite (proj2 (Z.leb_gt x (byte_val a))) by lia end. done.
  - intros _. by rewrite andb_false_r.
Qed.

(** ... and a proper prefix of a rune is no rune. *)
Lemma utf8_size_cut s n i :
  utf8_size s = S n -> (0 < i < S n)%nat -> utf8_size (str_take i s) = 0%nat.
Proof.
  unfold utf8_size. destruct s as [|a s]; [done|].
  destruct (byte_val a <? 128) eqn:E1; [intros; lia|].
  destruct (in_range 194 223 a) eqn:E2.
  { destruct s as [|b s]; [done|]. destruct (cont b); [|done].
    intros [= <-] ?. assert (i = 1)%nat as -> by lia. cbn. by rewrite E1, E2. }
  destruct (in_range 224 239 a) eqn:E3.
  { destruct s as [|b [|c s]]; try done. destruct (second3 a b && cont c); [|done].
    intros [= <-] ?.
    assert (i = 1 \/ i = 2)%nat as [-> | ->] by lia; cbn; by rewrite E1, E2, E3. }
  destruct (in_range 240 244 a) eqn:E4; [|done].
  destruct s as [|b [|c [|d s]]]; try done.
  destruct (second4 a b && cont c && cont d); [|done].
  intros [= <-] ?.
  assert (i = 1 \/ i = 2 \/ i = 3)%nat as [-> | [-> | ->]] by lia; cbn; by rewrite E1, E2, E3, E4.
Qed.

Lemma rune_start_at_add s n i : rune_start_at s (n + i) = rune_start_at (str_drop n s) i.
Proof. unfold rune_start_at. by rewrite get_str_drop. Qed.

Lemma valid_utf8_cons s :
  s <> EmptyString -> valid_utf8 s = true ->
  exists n, utf8_size s = S n /\ valid_utf8 (str_drop (S n) s) = true.
Proof.
  intros Hs. rewrite valid_utf8_step by done. intros [H1 H2]%andb_true_iff.
  unfold step_size in H2. destruct (utf8_size s) as [|n] eqn:E; [done|].
  exists n. split; [done|]. by replace (Nat.max 1 (S n)) with (S n) in H2 by lia.
Qed.

Lemma valid_utf8_app_rune s n t :
  utf8_size s = S n -> valid_utf8 (str_take (S n) s ++ t) = valid_utf8 t.
Proof.
  intros Hn. assert (Hl := utf8_size_le s).
  assert (Hlen : String.length (str_take (S n) s) = S n) by (rewrite length_str_take; lia).
  rewrite valid_utf8_step; [|destruct s; done].
  unfold step_size. rewrite (utf8_size_local _ _ t Hn).
  replace (Nat.max 1 (S n)) with (S n) by lia. cbn [andb Nat.ltb Nat.leb].
  f_equal. rewrite <- Hlen at 1. apply str_drop_app.
Qed.

(** A cut of valid text is valid exactly at a rune start (or at the end). *)
Lemma valid_cut_iff s k :
  valid_utf8 s = true -> (k < String.length s)%nat ->
  valid_utf8 (str_take k s) = true <-> rune_start_at s k = true.
Proof.
  revert k. induction s as [|s Hs IH] using pieces_ind; [cbn; lia|].
  intros k Hv Hk. destruct (valid_utf8_cons s Hs Hv) as (n & Hn & Hv').
  destruct k as [|k].
  { rewrite (rune_starts s n Hn). by destruct s. }
  destruct (decide (S k < S n)%nat) as [Hlt|Hge].
  - rewrite (inside_rune s n (S k) Hn) by lia.
    rewrite valid_utf8_step by (destruct s; done).
    by rewrite (utf8_size_cut s n (S k) Hn) by lia.
  - replace (S k) with (S n + (S k - S n))%nat by lia.
    rewrite str_take_add, (valid_utf8_app_rune _ _ _ Hn), rune_start_at_add.
    unfold step_size in IH. rewrite Hn in IH. replace (Nat.max 1 (S n)) with (S n) in IH by lia.
    apply IH; [done|]. rewrite length_str_drop. lia.
Qed.

(** In valid text a rune start is never more than three bytes back. *)
Lemma rune_start_near s k :
  valid_utf8 s = true -> (k < String.length s)%nat ->
  exists c, (k - 3 <= c <= k)%nat /\ rune_start_at s c = true.
Proof.
  revert k. induction s as [|s Hs IH] using pieces_ind; [cbn; lia|].
  intros k Hv Hk. destruct (valid_utf8_cons s Hs Hv) as (n & Hn & Hv').
  pose proof (utf8_size_max s).
  destruct (decide (k < S n)%nat) as [Hlt|Hge].
  - exists O. split; [lia|]. by eapply rune_starts.
  - unfold step_size in IH. rewrite Hn in IH. replace (Nat.max 1 (S n)) with (S n) in IH by lia.
    destruct (IH (k - S n)%nat Hv') as (c & Hc & Hr); [rewrite length_str_drop; lia|].
    exists (S n + c)%nat. rewrite rune_start_at_add. split; [lia|done].
Qed.

Lemma retreat_Some s steps cut c :
  retreat s steps cut = Some c ->
  (c <= cut < c + steps)%nat /\ rune_start_at s c = true /\
  (forall i, (c < i <= cut)%nat -> rune_start_at s i = false).
Proof.
  revert cut. induction steps as [|n IH]; intros cut; cbn; [done|].
  destruct (rune_start_at s cut) eqn:E.
  - intros [= <-]. split_and!; [lia..|done|lia].
  - intros (H1 & H2 & H3)%IH. split_and!; [lia..|done|].
    intros i Hi. destruct (decide (i = cut)) as [->|]; [done|]. apply H3. lia.
Qed.

Lemma retreat_None s steps cut :
  retreat s steps cut = None ->
  forall i, (cut - steps < i <= cut)%nat -> rune_start_at s i = false.
Proof.
  revert cut. induction steps as [|n IH]; intros cut; cbn; [lia|].
  destruct (rune_start_at s cut) eqn:E; [done|]. intros H i Hi.
  destruct (decide (i = cut)) as [->|]; [done|]. apply (IH (cut - 1)%nat H). lia.
Qed.

(** What [Bytes] returns, in one case analysis. *)
Lemma Bytes_cut s limit :
  0 < limit -> limit < len s ->
  exists c, Bytes s limit = str_take c s /\ (Z.to_nat limit - 3 <= c <= Z.to_nat limit)%nat /\
    (valid_utf8 s = true ->
     rune_start_at s c = true /\
     forall i, (c < i <= Z.to_nat limit)%nat -> rune_start_at s i = false).
Proof.
  intros H0 H1. unfold Bytes, UTFMax.
  rewrite (proj2 (Z.leb_gt limit 0)), (proj2 (Z.leb_gt (len s) limit)) by lia.
  set (n := Z.to_nat limit). cbn [Nat.sub].
  replace (4 - 1)%nat with 3%nat by lia.
  destruct (retreat s (n - (n - 3)) n) as [c|] eqn:E.
  - apply retreat_Some in E as (Hc & Hr & Hi). exists c. split; [done|]. split; [lia|done].
  - pose proof (retreat_None _ _ _ E) as Hn.
    destruct (rune_start_at s (n - 3)) eqn:Ef.
    + exists (n - 3)%nat. split; [done|]. split; [lia|]. intros _. split; [done|].
      intros i Hi. apply Hn. lia.
    + exists n. split; [done|]. split; [lia|]. intros Hv. exfalso.
      assert (Hk : (n < String.length s)%nat) by (unfold len in H1; lia).
      destruct (rune_start_near s n Hv Hk) as (c & Hc & Hr).
      destruct (decide (c = n - 3)%nat) as [->|]; [congruence|].
      rewrite Hn in Hr; [done|lia].
Qed.

Lemma valid_utf8_app s t :
  valid_utf8 s = true -> valid_utf8 (s ++ t) = valid_utf8 t.
Proof.
  induction s as [|s Hs IH] using pieces_ind; intros Hv; [done|].
  destruct (valid_utf8_cons s Hs Hv) as (n & Hn & Hv').
  rewrite <- (str_take_drop (S n) s) at 1. rewrite append_assoc.
  rewrite (valid_utf8_app_rune _ _ _ Hn).
  unfold step_size in IH. rewrite Hn in IH.
  replace (Nat.max 1 (S n)) with (S n) in IH by lia. by apply IH.
Qed.

Lemma pieces_app s t : valid_utf8 s = true -> pieces (s ++ t) = (pieces s ++ pieces t)%list.
Proof.
  induction s as [|s Hs IH] using pieces_ind; intros Hv; [done|].
  destruct (valid_utf8_cons s Hs Hv) as (n & Hn & Hv').
  unfold step_size in IH. rewrite Hn in IH. replace (Nat.max 1 (S n)) with (S n) in IH by lia.
  assert (Hloc : utf8_size (s ++ t) = S n).
  { rewrite <- (str_take_drop (S n) s), append_assoc. by apply utf8_size_local. }
  assert (Hle := utf8_size_le s).
  assert (Htake : str_take (S n) (s ++ t) = str_take (S n) s).
  { rewrite <- (str_take_drop (S n) s) at 1. rewrite append_assoc.
    replace (S n) with (String.length (str_take (S n) s)) at 1 by (rewrite length_str_take; lia).
    apply str_take_app. }
  assert (Hdrop : str_drop (S n) (s ++ t) = str_drop (S n) s ++ t).
  { rewrite <- (str_take_drop (S n) s) at 1. rewrite append_assoc.
    replace (S n) with (String.length (str_take (S n) s)) at 1 by (rewrite length_str_take; lia).
    apply str_drop_app. }
  rewrite (pieces_nonempty (s ++ t)) by (by destruct s). rewrite (pieces_nonempty s) by done.
  unfold step_size. rewrite Hloc, Hn, Nat.max_r by lia. rewrite Hdrop, IH by done. cbn [app]. f_equal.
  unfold next_piece. rewrite Hloc, Hn, Htake. f_equal. unfold rune_value. rewrite Hloc, Hn.
  rewrite Hn in Hle. clear -Hle.
  destruct n as [|[|[|[|n]]]]; try done; destruct s as [|? [|? [|? [|? ?]]]]; try done; cbn in Hle; lia.
Qed.

Lemma Bytes_len s limit : len (Bytes s limit) <= Z.max 0 limit.
Proof.
  unfold Bytes. destruct (Z.leb_spec limit 0); [unfold len; cbn; lia|].
  destruct (Z.leb_spec (len s) limit); [lia|].
  destruct (Bytes_cut s limit) as (c & Hb & Hc & _); [lia..|].
  unfold Bytes in Hb. rewrite (proj2 (Z.leb_gt _ _)), (proj2 (Z.leb_gt _ _)) in Hb by lia.
  rewrite Hb. unfold len. rewrite length_str_take. lia.
Qed.

Lemma Bytes_valid s limit : valid_utf8 s = true -> valid_utf8 (Bytes s limit) = true.
Proof.
  intros Hv. destruct (decide (0 < limit < len s)) as [Hl|Hl].
  - destruct (Bytes_cut s limit) as (c & -> & Hc & Hr); [lia..|].
    unfold len in Hl. apply valid_cut_iff; [done|lia|by apply Hr].
  - unfold Bytes. destruct (Z.leb_spec limit 0); [done|].
    destruct (Z.leb_spec (len s) limit); [done|lia].
Qed.

Lemma Bytes_prefix s limit : has_prefix (Bytes s limit) s = true.
Proof.
  unfold Bytes. assert (Hs : has_prefix s s = true).
  { rewrite <- (str_take_ge (String.length s) s) at 1 by lia. apply str_prefix_take. }
  repeat case_match; try apply str_prefix_take; [by destruct s|done].
Qed.
#[export] Hint Resolve Bytes_len Bytes_valid Bytes_prefix str_prefix_take : gomem.

(** ** The properties *)

(** On valid UTF-8, [Bytes s limit] is the longest valid UTF-8 prefix of
    [s] of at most [limit] bytes: it is a prefix, it is within the bound, it
    is valid, and no longer prefix within the bound is valid. *)
Theorem Bytes_longest_valid_prefix (s : string) (limit : Z) :
  valid_utf8 s = true -> 0 <= limit ->
  has_prefix (Bytes s limit) s = true /\
  len (Bytes s limit) <= limit /\
  valid_utf8 (Bytes s limit) = true /\
  (forall k, Z.of_nat k <= limit -> valid_utf8 (str_take k s) = true ->
     len (str_take k s) <= len (Bytes s limit)).
Proof.
  intros Hv Hl. split_and!; [auto with gomem| |auto with gomem|].
  { pose proof (Bytes_len s limit). lia. }
  intros k Hk Hvk. destruct (decide (0 < limit < len s)) as [Hb|Hb].
  - destruct (Bytes_cut s limit) as (c & -> & Hc & Hr); [lia..|].
    destruct (Hr Hv) as [_ Hr2]. unfold len in *. rewrite !length_str_take.
    destruct (decide (k <= c)%nat); [lia|].
    apply valid_cut_iff in Hvk; [|done|lia]. rewrite Hr2 in Hvk; [done|lia].
  - unfold Bytes. unfold len in *. rewrite length_str_take.
    destruct (Z.leb_spec limit 0); [cbn; lia|].
    destruct (Z.leb_spec (Z.of_nat (String.length s)) limit); lia.
Qed.

Lemma Bytes_longest_valid_prefix_witness :
  Bytes (str_of_bytes [104; 195; 169]) 2 = "h" /\
  valid_utf8 (Bytes (str_of_bytes [104; 195; 169]) 2) = true.
Proof.
  split; [reflexivity|].
  apply (Bytes_longest_valid_prefix (str_of_bytes [104; 195; 169]) 2); [reflexivity|lia].
Defined.

(** On any bytes, valid or not, [Bytes] stays within the bound and never
    gives up more than three bytes of it: a run of continuation bytes cannot
    empty the result. *)
Theorem Bytes_bounded_on_any_input (s : string) (limit : Z) :
  has_prefix (Bytes s limit) s = true /\
  len (Bytes s limit) <= Z.max 0 limit /\
  Z.min (len s) limit - 3 <= len (Bytes s limit).
Proof.
  pose proof (len_nonneg s) as Hp. split_and!; [auto with gomem..|].
  destruct (decide (0 < limit < len s)) as [Hb|Hb].
  - destruct (Bytes_cut s limit) as (c & -> & Hc & _); [lia..|].
    unfold len in *. rewrite length_str_take. lia.
  - pose proof (len_nonneg (Bytes s limit)). unfold Bytes in *.
    destruct (Z.leb_spec limit 0); [lia|]. destruct (Z.leb_spec (len s) limit); lia.
Qed.

(** ** Runes and Ellipsis *)


Lemma utf8_size_take_invalid s j : utf8_size s = 0%nat -> utf8_size (str_take j s) = 0%nat.
Proof.
  intros H. destruct (utf8_size (str_take j s)) as [|n] eqn:E; [done|].
  pose proof (utf8_size_local _ _ (str_drop j s) E) as Hl.
  pose proof (utf8_size_le (str_take j s)) as Hle.
  rewrite <- (str_take_drop j s), <- (str_take_drop (S n) (str_take j s)), append_assoc in H.
  assert (Hx : utf8_size (str_take (S n) (str_take j s)
                 ++ (str_drop (S n) (str_take j s) ++ str_drop j s)) = S n)
    by (apply utf8_size_local; done).
  congruence.
Qed.

(** Reading the first rune never looks past it. *)
Lemma next_piece_prefix s j :
  s <> EmptyString -> (step_size s <= j)%nat -> next_piece (str_take j s) = next_piece s.
Proof.
  intros Hs Hj. unfold next_piece. unfold step_size in Hj.
  destruct (utf8_size s) as [|n] eqn:E.
  - rewrite (utf8_size_take_invalid _ _ E). destruct s as [|c s]; [done|].
    destruct j; [lia|]. cbn. by destruct s, j.
  - assert (Hn : (S n <= j)%nat) by lia.
    assert (E' : utf8_size (str_take j s) = S n).
    { replace j with (S n + (j - S n))%nat by lia. rewrite str_take_add.
      by apply utf8_size_local. }
    rewrite E'. pose proof (utf8_size_max s) as Hm. rewrite E in Hm.
    pose proof (utf8_size_le s) as Hl. rewrite E in Hl.
    f_equal.
    + unfold rune_value. rewrite E, E'.
      destruct n as [|[|[|[|n]]]]; [| | | |lia];
        destruct s as [|? [|? [|? [|? s]]]]; try (cbn in Hl; lia);
        destruct j as [|[|[|[|j]]]]; try lia; reflexivity.
    + replace j with (S n + (j - S n))%nat by lia. rewrite str_take_add.
      assert (HL : String.length (str_take (S n) s) = S n) by (rewrite length_str_take; lia).
      rewrite <- HL at 1. apply str_take_app.
Qed.

Lemma raw_take_is_prefix k s : exists j, raw (take k (pieces s)) = str_take j s /\
  (k = 0%nat \/ s = EmptyString \/ (step_size s <= j)%nat).
Proof.
  revert k. induction s as [|s Hs IH] using pieces_ind; intros k.
  { exists 0%nat. split; [by destruct k|]. by right; left. }
  destruct k as [|k]; [exists 0%nat; split; [by destruct s|by left]|].
  rewrite pieces_nonempty by done. cbn [take raw]. rewrite next_piece_raw by done.
  destruct (IH k) as (j & -> & _). exists (step_size s + j)%nat.
  split; [by rewrite str_take_add|]. right; right; lia.
Qed.

(** Cutting between two decoded runes and decoding again gives the same runes. *)
Lemma pieces_raw_take k s : pieces (raw (take k (pieces s))) = take k (pieces s).
Proof.
  revert k. induction s as [|s Hs IH] using pieces_ind; intros k; [by destruct k|].
  destruct k as [|k]; [done|].
  destruct (raw_take_is_prefix (S k) s) as (j & Hj & Hc).
  destruct Hc as [?|[?|Hc]]; [done|done|].
  rewrite Hj, pieces_nonempty; [|destruct s; [done|]; destruct j; [pose proof (step_size_pos (String a s)); lia|done]].
  rewrite next_piece_prefix by done. rewrite (pieces_nonempty s Hs). cbn [take]. f_equal.
  rewrite <- IH. f_equal.
  rewrite (pieces_nonempty s Hs) in Hj. cbn [take raw] in Hj.
  rewrite next_piece_raw in Hj by done.
  assert (Hst : step_size (str_take j s) = step_size s).
  { pose proof (next_piece_prefix s j Hs Hc) as Hp. unfold next_piece in Hp. unfold step_size.
    destruct (utf8_size s) eqn:E1, (utf8_size (str_take j s)) eqn:E2; try done.
    apply (f_equal (fun p => String.length (p_raw p))) in Hp. cbn [p_raw] in Hp.
    pose proof (utf8_size_le s). pose proof (utf8_size_le (str_take j s)) as Hx.
    rewrite !length_str_take in *. lia. }
  rewrite Hst, <- Hj.
  assert (Hn : String.length (str_take (step_size s) s) = step_size s).
  { rewrite length_str_take. unfold step_size. pose proof (utf8_size_le s).
    destruct s; [done|]. cbn [String.length] in *. lia. }
  rewrite <- Hn at 1. apply str_drop_app.
Qed.

Lemma runes_loop_take s limit count index l :
  0 <= count <= limit -> limit < count + Z.of_nat (length l) ->
  runes_loop s limit count index l =
    str_take (index + String.length (raw (take (Z.to_nat (limit - count)) l))) s.
Proof.
  revert count index. induction l as [|p l IH]; intros count index Hc Hl; [cbn in Hl; lia|].
  cbn [runes_loop]. destruct (Z.eqb_spec count limit) as [->|Hne].
  - rewrite Z.sub_diag. cbn. by rewrite Nat.add_0_r.
  - rewrite IH by (cbn [length] in Hl; lia).
    replace (Z.to_nat (limit - count)) with (S (Z.to_nat (limit - (count + 1)))) by lia.
    cbn [take raw]. rewrite length_append. f_equal. lia.
Qed.

Lemma Runes_take s limit :
  0 <= limit -> Runes s limit = raw (take (Z.to_nat limit) (pieces s)).
Proof.
  intros Hl. unfold Runes, rune_count. destruct (Z.leb_spec limit 0).
  { by replace (Z.to_nat limit) with 0%nat by lia. }
  destruct (Z.leb_spec (Z.of_nat (length (pieces s))) limit).
  { rewrite take_ge by lia. by rewrite raw_pieces. }
  rewrite runes_loop_take by lia. rewrite Z.sub_0_r. cbn [Nat.add].
  rewrite <- (raw_pieces s) at 2. rewrite <- (take_drop (Z.to_nat limit) (pieces s)) at 2.
  generalize (take (Z.to_nat limit) (pieces s)) as l1, (drop (Z.to_nat limit) (pieces s)) as l2.
  intros l1 l2. assert (H2 : raw (l1 ++ l2) = raw l1 ++ raw l2).
  { induction l1 as [|p l1 IH]; cbn; [done|]. by rewrite IH, append_assoc. }
  rewrite H2. apply str_take_app.
Qed.

Lemma raw_take_prefix k s : has_prefix (raw (take k (pieces s))) s = true.
Proof. destruct (raw_take_is_prefix k s) as (j & -> & _). apply str_prefix_take. Qed.

(** [Runes s limit] is the prefix of [s] holding exactly
    [min limit (RuneCountInString s)] runes, on any input; and it is valid
    UTF-8 when [s] is. *)
Theorem Runes_counts_runes (s : string) (limit : Z) :
  0 <= limit ->
  has_prefix (Runes s limit) s = true /\
  rune_count (Runes s limit) = Z.min limit (rune_count s) /\
  (valid_utf8 s = true -> valid_utf8 (Runes s limit) = true).
Proof.
  intros Hl. rewrite Runes_take by done. split; [apply raw_take_prefix|].
  unfold rune_count, valid_utf8. rewrite pieces_raw_take, length_take.
  split; [lia|]. rewrite !forallb_forall. intros Hv p Hp. apply Hv.
  apply list_elem_of_In. apply list_elem_of_In in Hp. by eapply elem_of_take in Hp as (? & ?%list_elem_of_lookup_2 & _).
Qed.

Lemma Runes_counts_runes_witness :
  Runes (str_of_bytes [195; 169; 195; 169]) 1 = str_of_bytes [195; 169] /\
  rune_count (Runes (str_of_bytes [195; 169; 195; 169]) 1) = 1.
Proof.
  split; [reflexivity|].
  pose proof (Runes_counts_runes (str_of_bytes [195; 169; 195; 169]) 1) as H.
  destruct H as (_ & -> & _); [lia|reflexivity].
Defined.

(** [Ellipsis] never exceeds its byte bound, mark included, keeps valid
    text valid, and returns the text unchanged when it already fits. *)
Theorem Ellipsis_within_limit (s : string) (limit : Z) :
  len (Ellipsis s limit) <= Z.max 0 limit /\
  (valid_utf8 s = true -> valid_utf8 (Ellipsis s limit) = true) /\
  (0 < limit -> len s <= limit -> Ellipsis s limit = s) /\
  (len mark < limit < len s -> has_suffix mark (Ellipsis s limit) = true).
Proof.
  unfold Ellipsis. destruct (Z.leb_spec limit 0).
  { split_and!; [unfold len; cbn; lia|done|lia|]. unfold len at 1. cbn. lia. }
  destruct (Z.leb_spec (len s) limit); [split_and!; [lia|done..|lia]|].
  assert (Hm : len mark = 3) by reflexivity.
  destruct (Z.leb_spec limit (len mark)).
  - pose proof (Bytes_len s limit). split_and!; [lia|auto with gomem|lia..].
  - pose proof (Bytes_len s (limit - len mark)) as Hb.
    split_and!; [| |lia|].
    + unfold len in *. rewrite length_append. lia.
    + intros Hv. rewrite valid_utf8_app; [reflexivity|auto with gomem].
    + intros _. unfold has_suffix. rewrite length_append.
      apply andb_true_iff. split; [apply Nat.leb_le; lia|].
      replace (_ + _ - _)%nat with (String.length (Bytes s (limit - len mark))) by lia.
      rewrite str_drop_app. apply String.eqb_refl.
Qed.
