(* ===== verification/SessionEvent.v ===== *)
(** * sessionlog: events and their admission rules

    Models [services/brain/internal/sessionlog/event.go]: the closed sets of
    kinds and freshness classes, provenance, the sanitiser, structural
    validation and the provenance-first admission rule. *)

From Stdlib Require Import Ascii String.
From S2P Require Import Prelude GoString GoPath Float64 Runtime.
Open Scope string_scope.
Open Scope Z_scope.

Definition Schema : string := "sentra-scm.sessionlog/v1".

(** ** Closed sets of names *)

Definition KindTaskStart : string := "task_start".
Definition KindContextServed : string := "context_served".
Definition KindRead : string := "read".
Definition KindRefresh : string := "refresh".
Definition KindEdit : string := "edit".
Definition KindTest : string := "test".
Definition KindFailure : string := "failure".
Definition KindCompaction : string := "compaction".
Definition KindCompletion : string := "completion".

Definition AllKinds : list string :=
  [KindTaskStart; KindContextServed; KindRead; KindRefresh;
   KindEdit; KindTest; KindFailure; KindCompaction; KindCompletion].

Definition Kind_Valid (k : string) : bool := bool_decide (k ∈ AllKinds).

Definition FreshnessTimeless : string := "timeless".
Definition FreshnessAsOf : string := "as_of".
Definition FreshnessPointer : string := "pointer".
Definition FreshnessStale : string := "stale".
Definition FreshnessSuperseded : string := "superseded".

Definition freshnessSet : list string :=
  [FreshnessTimeless; FreshnessAsOf; FreshnessPointer; FreshnessStale; FreshnessSuperseded].

Definition Freshness_Valid (f : string) : bool := bool_decide (f ∈ freshnessSet).

Definition ExcludedByDefault (f : string) : bool := bool_decide (f = FreshnessSuperseded).

(** ** Records *)

Record Range := MkRange { r_Start : Z; r_End : Z }.
#[export] Instance Range_eq_dec : EqDecision Range.
Proof. solve_decision. Defined.

Definition Range_Valid (r : Range) : bool :=
  (0 <=? r_Start r) && (0 <=? r_End r) && ((r_End r =? 0) || (r_Start r <=? r_End r)).

Record Provenance := MkProvenance {
  Repository : string;
  Tree : string;
  BaseDigest : string;
  Path : string;
  PRange : Range;
  Symbol : string;
  Handle : string;
  Confidence : f64
}.

Inductive BudgetTier := TierL0 | TierL1 | TierL2 | TierL3.
#[export] Instance BudgetTier_eq_dec : EqDecision BudgetTier.
Proof. solve_decision. Defined.

Record Budgets := MkBudgets { L0 : Z; L1 : Z; L2 : Z; L3 : Z }.

Definition Budgets_Total (b : Budgets) : Z := L0 b + L1 b + L2 b + L3 b.

Definition tierFor (f : string) : BudgetTier :=
  if bool_decide (f = FreshnessTimeless \/ f = FreshnessPointer) then TierL0
  else if bool_decide (f = FreshnessAsOf) then TierL1
  else if bool_decide (f = FreshnessStale) then TierL2
  else if bool_decide (f = FreshnessSuperseded) then TierL3
  else TierL1.

Record Event := MkEvent {
  ev_Schema : string;
  ev_ID : string;
  ev_Seq : Z;
  ev_Session : string;
  ev_Kind : string;
  ev_Time : string;
  ev_Verb : string;
  ev_Provenance : Provenance;
  ev_Freshness : string;
  ev_PredictedDigest : string;
  ev_ObservedDigest : string;
  ev_Counts : gmap string Z;
  ev_CoverageWarnings : list string;
  ev_FreeText : string;
  ev_Folded : Z
}.

(** ** Identity *)

(** The text [fmt.Fprintf(h, "%d|%s|%s|%s", ...)] writes into the hash. *)
Definition event_preimage (seq : Z) (session kind timeISO : string) : string :=
  dec seq ++ "|" ++ session ++ "|" ++ kind ++ "|" ++ timeISO.

Definition EventID `{GoRuntime} (seq : Z) (session kind timeISO : string) : string :=
  sha256_16 (event_preimage seq session kind timeISO).

(** ** Sanitising *)

Definition MaxFreeTextBytes : Z := 512.

(** The raw byte slice [s[:MaxFreeTextBytes]] taken when [s] is longer. *)
Definition cap_text (s : string) : string :=
  if MaxFreeTextBytes <? len s then str_take (Z.to_nat MaxFreeTextBytes) s else s.

(** Copies the map through its sorted keys. *)
Definition canonicalCounts (m : gmap string Z) : gmap string Z :=
  list_to_map (sort_by (on_key fst String.ltb) (map_to_list m)).

Definition Sanitize (ev : Event) : Event := {|
  ev_Schema := ev_Schema ev; ev_ID := ev_ID ev; ev_Seq := ev_Seq ev;
  ev_Session := ev_Session ev; ev_Kind := ev_Kind ev; ev_Time := ev_Time ev;
  ev_Verb := ev_Verb ev; ev_Provenance := ev_Provenance ev; ev_Freshness := ev_Freshness ev;
  ev_PredictedDigest := ev_PredictedDigest ev; ev_ObservedDigest := ev_ObservedDigest ev;
  ev_Counts := canonicalCounts (ev_Counts ev);
  ev_CoverageWarnings := map cap_text (ev_CoverageWarnings ev);
  ev_FreeText := cap_text (ev_FreeText ev);
  ev_Folded := ev_Folded ev
|}.

(** ** Validation *)

Inductive session_error :=
| EUnknownKind (k : string)
| EUnsupportedSchema (s : string)
| EUnknownFreshness (f : string)
| EInvalidRange
| EConfidence
| EFreeText
| EEmptyPath
| EAbsolutePath (p : string)
| EBackslashPath (p : string)
| EPathEncoding
| EPathEscape (p : string)
| ESeqRequired
| ETimeRequired
| ETimeFormat
| ENeedsSource (k : string)
| ENeedsLocator (k : string).

Definition ishex (c : ascii) : bool := in_range 48 57 c || in_range 97 102 c || in_range 65 70 c.

(** [url.PathUnescape] succeeds: every [%] is followed by two hex digits. *)
Fixpoint path_unescape_ok (s : string) : bool :=
  match s with
  | EmptyString => true
  | String c s1 =>
      if Ascii.eqb c "%" then
        match s1 with
        | String a (String b s2) => ishex a && ishex b && path_unescape_ok s2
        | _ => false
        end
      else path_unescape_ok s1
  end.

Definition validatePath (p : string) : result session_error unit :=
  fail_if (String.eqb p EmptyString) EEmptyPath
  (fail_if (has_prefix "/" p) (EAbsolutePath p)
  (fail_if (contains_char "\" p) (EBackslashPath p)
  (fail_if (contains_char "%" p && negb (path_unescape_ok p)) EPathEncoding
  (fail_if (bool_decide (".." ∈ split_char "/" p)) (EPathEscape p)
  (Ok tt))))).

Definition validateFields (ev : Event) : result session_error unit :=
  let p := ev_Provenance ev in
  fail_if (negb (Kind_Valid (ev_Kind ev))) (EUnknownKind (ev_Kind ev))
  (fail_if (negb (String.eqb (ev_Schema ev) EmptyString) && negb (String.eqb (ev_Schema ev) Schema))
     (EUnsupportedSchema (ev_Schema ev))
  (fail_if (negb (String.eqb (ev_Freshness ev) EmptyString) && negb (Freshness_Valid (ev_Freshness ev)))
     (EUnknownFreshness (ev_Freshness ev))
  (fail_if (negb (Range_Valid (PRange p))) EInvalidRange
  (fail_if (f_ltb (Confidence p) f_zero || f_ltb f_one (Confidence p)) EConfidence
  (fail_if (MaxFreeTextBytes <? len (ev_FreeText ev)) EFreeText
  (if String.eqb (Path p) EmptyString then Ok tt else validatePath (Path p))))))).

Definition Event_Validate `{GoRuntime} (ev : Event) : result session_error unit :=
  match validateFields ev with
  | Err e => Err e
  | Ok _ =>
      fail_if (ev_Seq ev =? 0) ESeqRequired
      (fail_if (String.eqb (ev_Time ev) EmptyString) ETimeRequired
      (fail_if (negb (rfc3339nano_ok (ev_Time ev))) ETimeFormat (Ok tt)))
  end.

Definition requireProvenanceKinds : list string := [KindEdit; KindCompaction; KindContextServed].

Definition RequireProvenance (k : string) : bool := bool_decide (k ∈ requireProvenanceKinds).

Definition ValidateProvenance (ev : Event) : result session_error unit :=
  if negb (RequireProvenance (ev_Kind ev)) then Ok tt
  else
    let p := ev_Provenance ev in
    fail_if (blank (Repository p) && blank (Tree p)) (ENeedsSource (ev_Kind ev))
    (fail_if (blank (Path p) && blank (Symbol p) && blank (Handle p)) (ENeedsLocator (ev_Kind ev))
    (if String.eqb (Path p) EmptyString then Ok tt else validatePath (Path p))).

(** ** Lemmas *)

Lemma canonicalCounts_id m : canonicalCounts m = m.
Proof.
  unfold canonicalCounts.
  rewrite (list_to_map_proper _ (map_to_list m)).
  - apply list_to_map_to_list.
  - rewrite sort_by_perm. apply NoDup_fst_map_to_list.
  - apply sort_by_perm.
Qed.

Lemma len_cap_text s : len (cap_text s) <= MaxFreeTextBytes.
Proof.
  unfold cap_text. destruct (Z.ltb_spec MaxFreeTextBytes (len s)); [|done].
  unfold len. rewrite length_str_take. unfold MaxFreeTextBytes. lia.
Qed.

Lemma cap_text_idem s : cap_text (cap_text s) = cap_text s.
Proof.
  unfold cap_text at 1. pose proof (len_cap_text s).
  destruct (Z.ltb_spec MaxFreeTextBytes (len (cap_text s))); [lia|done].
Qed.

Lemma Sanitize_idem ev : Sanitize (Sanitize ev) = Sanitize ev.
Proof.
  unfold Sanitize; cbn. f_equal.
  - by rewrite !canonicalCounts_id.
  - rewrite map_map. apply map_ext, cap_text_idem.
  - apply cap_text_idem.
Qed.
#[export] Hint Rewrite canonicalCounts_id cap_text_idem Sanitize_idem : gomem.

Lemma validatePath_ok p :
  validatePath p = Ok tt <->
  p <> EmptyString /\ has_prefix "/" p = false /\ contains_char "\" p = false /\
  (contains_char "%" p = true -> path_unescape_ok p = true) /\ ".." ∉ split_char "/" p.
Proof.
  unfold validatePath, fail_if. split.
  - intros H. res_inv. bool_prop. split_and!; try done; [by apply String.eqb_neq|].
    intros Hp. rewrite Hp in *. by destruct (path_unescape_ok p).
  - intros (H1 & H2 & H3 & H4 & H5). rewrite (proj2 (String.eqb_neq _ _) H1), H2, H3.
    rewrite bool_decide_eq_false_2 by done.
    destruct (contains_char "%" p); [by rewrite H4|done].
Qed.

(** ** Properties *)

(** A path that [validatePath] accepts is confined: resolving its segments
    from any directory never climbs out of that directory, and every path it
    rejects is empty, absolute, has a backslash, a malformed percent escape or
    a [..] segment. *)
Theorem validatePath_confines (p : string) :
  (validatePath p = Ok tt ->
     forall dir, exists sub, walk dir (split_char "/" p) = Some (sub ++ dir)%list) /\
  (is_ok (validatePath p) = false ->
     p = EmptyString \/ has_prefix "/" p = true \/ contains_char "\" p = true \/
     (contains_char "%" p = true /\ path_unescape_ok p = false) \/ ".." ∈ split_char "/" p).
Proof.
  split.
  - intros (_ & _ & _ & _ & Hn)%validatePath_ok dir. by apply walk_no_dotdot.
  - unfold validatePath, fail_if. intros H. repeat case_match; try done; bool_prop; try tauto.
    left. by apply String.eqb_eq.
Qed.
