(* ===== verification/SessionLog.v ===== *)
(** * sessionlog: the append-only writer, its file and replay

    Models [services/brain/internal/sessionlog/log.go].  The file is its byte
    content (or nothing); the writer mirrors it in memory.  Every I/O step that
    can fail is answered by an oracle, so both outcomes of each are covered.
    [encoding/json] is the class [JsonCodec], with the behaviour its
    documentation promises in [JsonLaws]. *)

From Stdlib Require Import Ascii String.
From S2P Require Import Prelude GoString Float64 Runtime SessionEvent.
Open Scope string_scope.
Open Scope Z_scope.

(** ** encoding/json *)

(** The strings of an event as they come back from JSON text. *)
Definition coerce_counts (m : gmap string Z) : gmap string Z :=
  list_to_map (reverse (map (fun kv => (json_coerce (fst kv), snd kv))
    (sort_by (on_key fst String.ltb) (map_to_list m)))).

Definition coerce_provenance (p : Provenance) : Provenance := {|
  Repository := json_coerce (Repository p); Tree := json_coerce (Tree p);
  BaseDigest := json_coerce (BaseDigest p); Path := json_coerce (Path p);
  PRange := PRange p; Symbol := json_coerce (Symbol p); Handle := json_coerce (Handle p);
  Confidence := Confidence p
|}.

Definition coerce_event (ev : Event) : Event := {|
  ev_Schema := json_coerce (ev_Schema ev); ev_ID := json_coerce (ev_ID ev); ev_Seq := ev_Seq ev;
  ev_Session := json_coerce (ev_Session ev); ev_Kind := json_coerce (ev_Kind ev);
  ev_Time := json_coerce (ev_Time ev); ev_Verb := json_coerce (ev_Verb ev);
  ev_Provenance := coerce_provenance (ev_Provenance ev);
  ev_Freshness := json_coerce (ev_Freshness ev);
  ev_PredictedDigest := json_coerce (ev_PredictedDigest ev);
  ev_ObservedDigest := json_coerce (ev_ObservedDigest ev);
  ev_Counts := coerce_counts (ev_Counts ev);
  ev_CoverageWarnings := map json_coerce (ev_CoverageWarnings ev);
  ev_FreeText := json_coerce (ev_FreeText ev);
  ev_Folded := ev_Folded ev
|}.

Class JsonCodec := {
  (** [json.Marshal] of the plain struct; [None] is an encoding error. *)
  json_encode : Event -> option string;
  (** [Decoder.Decode] with [DisallowUnknownFields]. *)
  json_decode : string -> option Event
}.

Definition newline : ascii := "010".
Definition carriage_return : ascii := "013".

(** A JSON text: one line, no surrounding white space. *)
Definition one_line (s : string) : Prop :=
  s <> EmptyString /\ trim_space s = s /\ contains_char newline s = false /\
  has_suffix (String carriage_return EmptyString) s = false.

Class JsonLaws (C : JsonCodec) : Prop := {
  (** Only a non-finite float makes an event unencodable. *)
  json_total : forall ev, f_finite (Confidence (ev_Provenance ev)) = true -> is_Some (json_encode ev);
  json_one_line : forall ev s, json_encode ev = Some s -> one_line s;
  (** Decoding gives the event back, invalid UTF-8 replaced by U+FFFD. *)
  json_round_trip : forall ev s, json_encode ev = Some s -> json_decode s = Some (coerce_event ev)
}.

(** [Event.MarshalJSON] sanitises first. *)
Definition Marshal `{JsonCodec} (ev : Event) : option string := json_encode (Sanitize ev).

(** ** Bounds and errors *)

Definition DefaultMaxEvents : Z := 2048.
Definition DefaultMaxEventBytes : Z := 65536.
Definition MaxLogBytes : Z := DefaultMaxEvents * (DefaultMaxEventBytes + 1).

Inductive log_error :=
| ErrEmpty
| ErrEventTooLarge (n : Z)
| ENilWriter
| EAdmission (e : session_error)
| EEncode
| EIO
| ELogBytes
| ELogEvents
| EScan
| EDecodeLine
| EPersisted (e : session_error)
| EReplayInvalid (i : nat) (e : session_error)
| EReplayApply (i : nat).

(** ** The writer *)

Record Writer := MkWriter {
  w_path : string;
  w_maxEvents : Z;
  w_events : list Event
}.

(** The file: absent, or its bytes. *)
Definition Disk : Type := option string.

Record OpenIO := MkOpenIO { mkdir_ok : bool; open_ok : bool; read_ok : bool; close_read_ok : bool }.
Record WriteIO := MkWriteIO {
  create_ok : bool; chmod_ok : bool;
  encode_ok : nat -> bool;   (* [enc.Encode] of the i-th event *)
  sync_ok : bool; close_ok : bool; rename_ok : bool
}.

(** ** Parsing: bufio.Scanner over lines, strict decoding *)

Definition dropCR (s : string) : string := trim_suffix (String carriage_return EmptyString) s.

(** [bufio.ScanLines]: the text after the last newline is a line only when
    it is not empty. *)
Definition scan_lines (raw : string) : list string :=
  let l := split_char newline raw in
  match last l with
  | Some EmptyString => take (length l - 1) l
  | _ => l
  end.

Section log.
Context `{GoRuntime} `{JsonCodec}.

(** A line that fills the scanner's buffer ([DefaultMaxEventBytes] bytes without
    its newline) is [bufio.ErrTooLong]. *)
Fixpoint parse_lines (lines : list string) : result log_error (list Event) :=
  match lines with
  | [] => Ok []
  | l :: lines' =>
      if DefaultMaxEventBytes <=? len l then Err EScan
      else
        let line := trim_space (dropCR l) in
        if String.eqb line EmptyString then parse_lines lines'
        else match json_decode line with
             | None => Err EDecodeLine
             | Some ev =>
                 match Event_Validate ev with
                 | Err e => Err (EPersisted e)
                 | Ok _ =>
                     match parse_lines lines' with
                     | Ok evs => Ok (ev :: evs)
                     | Err e => Err e
                     end
                 end
             end
  end.

Definition parseStrict (raw : string) : result log_error (list Event) := parse_lines (scan_lines raw).

(** [Read]: the whole stream, strictly parsed. *)
Definition Read (raw : option string) : result log_error (list Event) :=
  match raw with
  | None => Err EIO
  | Some raw => parseStrict raw
  end.

(** The [WithMaxEvents] options, applied in order. *)
Definition WithMaxEvents (n : Z) (w : Writer) : Writer :=
  if 0 <? n then MkWriter (w_path w) n (w_events w) else w.

Definition Filename : string := "session-events.jsonl".

Definition Open (dir : string) (opts : list Z) (io : OpenIO) (disk : Disk) : result log_error Writer :=
  let dir := trim_space dir in
  if String.eqb dir EmptyString then Err ErrEmpty
  else if negb (mkdir_ok io) then Err EIO
  else
    let w := fold_left (fun w n => WithMaxEvents n w) opts
               (MkWriter (dir ++ "/" ++ Filename) DefaultMaxEvents []) in
    match disk with
    | None => Ok w
    | Some raw =>
        if negb (open_ok io) then Err EIO
        else if negb (read_ok io) then Err EIO
        else if negb (close_read_ok io) then Err EIO
        else if MaxLogBytes <? len raw then Err ELogBytes
        else match parseStrict raw with
             | Err e => Err e
             | Ok loaded =>
                 if w_maxEvents w <? Z.of_nat (length loaded) then Err ELogEvents
                 else Ok (MkWriter (w_path w) (w_maxEvents w) loaded)
             end
    end.

(** ** Compaction *)

Definition get_count (m : gmap string Z) (k : string) : Z := default 0 (m !! k).

(** [counts[k] += v] on [int64]. *)
Definition bump (m : gmap string Z) (k : string) (v : Z) : gmap string Z :=
  <[k := wrap64 (get_count m k + v)]> m.

Definition kind_key (k : string) : string := k ++ "_events".

Definition add_event_counts (m : gmap string Z) (e : Event) : gmap string Z :=
  fold_left (fun m kv => bump m (fst kv) (snd kv)) (map_to_list (ev_Counts e))
    (bump m (kind_key (ev_Kind e)) 1).

Definition encoded_size (e : Event) : Z :=
  match Marshal e with Some body => len body | None => 0 end.

Record fold_acc := MkFold { fa_counts : gmap string Z; fa_bytes : Z; fa_earliest : string; fa_latest : string }.

Definition fold_event (a : fold_acc) (e : Event) : fold_acc := {|
  fa_counts := add_event_counts (fa_counts a) e;
  fa_earliest :=
    if String.eqb (fa_earliest a) EmptyString
       || (negb (String.eqb (ev_Time e) EmptyString) && String.ltb (ev_Time e) (fa_earliest a))
    then ev_Time e else fa_earliest a;
  fa_latest := if String.ltb (fa_latest a) (ev_Time e) then ev_Time e else fa_latest a;
  fa_bytes := wrap64 (fa_bytes a + encoded_size e)
|}.

Definition compactionFrom (src : list Event) (now session : string) : Event :=
  let a := fold_left fold_event src (MkFold ∅ 0 EmptyString EmptyString) in
  let n := Z.of_nat (length src) in
  {| ev_Schema := Schema; ev_ID := EmptyString; ev_Seq := 0; ev_Session := session;
     ev_Kind := KindCompaction; ev_Time := now; ev_Verb := EmptyString;
     ev_Provenance := {| Repository := EmptyString; Tree := "compaction"; BaseDigest := EmptyString;
                         Path := EmptyString; PRange := MkRange 0 0; Symbol := EmptyString;
                         Handle := EmptyString; Confidence := f_one |};
     ev_Freshness := FreshnessAsOf; ev_PredictedDigest := EmptyString; ev_ObservedDigest := EmptyString;
     ev_Counts := <["folded_bytes" := fa_bytes a]> (<["folded_events" := n]> (fa_counts a));
     ev_CoverageWarnings := [];
     ev_FreeText := "compacted " ++ dec n ++ " events (" ++ fa_earliest a ++ ".." ++ fa_latest a ++ ")";
     ev_Folded := n |}.

(** ** Persisting *)

Fixpoint encode_all (write_ok : nat -> bool) (i : nat) (events : list Event) : result log_error string :=
  match events with
  | [] => Ok EmptyString
  | ev :: events' =>
      match Marshal ev with
      | None => Err EEncode
      | Some line =>
          if DefaultMaxEventBytes <? len line then Err (ErrEventTooLarge (len line))
          else if negb (write_ok i) then Err EIO
          else match encode_all write_ok (S i) events' with
               | Ok rest => Ok (line ++ String newline rest)
               | Err e => Err e
               end
      end
  end.

(** The error, if any, and the file afterwards: the rename is the only step
    that touches it. *)
Definition writeAtomic (io : WriteIO) (events : list Event) (disk : Disk) : result log_error unit * Disk :=
  if negb (create_ok io) then (Err EIO, disk)
  else if negb (chmod_ok io) then (Err EIO, disk)
  else match encode_all (encode_ok io) 0 events with
       | Err e => (Err e, disk)
       | Ok body =>
           if negb (sync_ok io) then (Err EIO, disk)
           else if negb (close_ok io) then (Err EIO, disk)
           else if negb (rename_ok io) then (Err EIO, disk)
           else (Ok tt, Some body)
       end.

(** ** Appending *)

Definition set_seq (i : Z) (e : Event) : Event := {|
  ev_Schema := ev_Schema e;
  ev_ID := EventID i (ev_Session e) (ev_Kind e) (ev_Time e);
  ev_Seq := i;
  ev_Session := ev_Session e; ev_Kind := ev_Kind e; ev_Time := ev_Time e; ev_Verb := ev_Verb e;
  ev_Provenance := ev_Provenance e; ev_Freshness := ev_Freshness e;
  ev_PredictedDigest := ev_PredictedDigest e; ev_ObservedDigest := ev_ObservedDigest e;
  ev_Counts := ev_Counts e; ev_CoverageWarnings := ev_CoverageWarnings e;
  ev_FreeText := ev_FreeText e; ev_Folded := ev_Folded e
|}.

Fixpoint renumber (i : Z) (l : list Event) : list Event :=
  match l with
  | [] => []
  | e :: l' => set_seq i e :: renumber (i + 1) l'
  end.

Definition seal (seq : Z) (now : string) (ev : Event) : Event := {|
  ev_Schema := Schema;
  ev_ID := EventID seq (ev_Session ev) (ev_Kind ev) now;
  ev_Seq := seq;
  ev_Session := ev_Session ev; ev_Kind := ev_Kind ev; ev_Time := now; ev_Verb := ev_Verb ev;
  ev_Provenance := ev_Provenance ev; ev_Freshness := ev_Freshness ev;
  ev_PredictedDigest := ev_PredictedDigest ev; ev_ObservedDigest := ev_ObservedDigest ev;
  ev_Counts := ev_Counts ev; ev_CoverageWarnings := ev_CoverageWarnings ev;
  ev_FreeText := ev_FreeText ev; ev_Folded := ev_Folded ev
|}.

(** The bound: fold the oldest overflow into one compaction event. *)
Definition compact (maxEvents : Z) (now session : string) (next : list Event) : list Event :=
  if maxEvents <? Z.of_nat (length next) then
    let overflow := Z.max 1 (Z.of_nat (length next) - maxEvents + 1) in
    let n := Z.to_nat overflow in
    renumber 1 (compactionFrom (take n next) now session :: drop n next)
  else next.

(** [Append] under the writer's lock; [now] is the clock's reading. *)
Definition Append (w : Writer) (disk : Disk) (now : string) (io : WriteIO) (ev : Event)
    : result log_error Event * Writer * Disk :=
  if String.eqb (w_path w) EmptyString then (Err ENilWriter, w, disk)
  else if negb (Kind_Valid (ev_Kind ev)) then (Err (EAdmission (EUnknownKind (ev_Kind ev))), w, disk)
  else
    let ev := Sanitize ev in
    match validateFields ev with
    | Err e => (Err (EAdmission e), w, disk)
    | Ok _ =>
        match ValidateProvenance ev with
        | Err e => (Err (EAdmission e), w, disk)
        | Ok _ =>
            let seq := Z.of_nat (length (w_events w)) + 1 in
            let sealed := seal seq now ev in
            let next := compact (w_maxEvents w) now (ev_Session ev) (w_events w ++ [sealed])%list in
            match writeAtomic io next disk with
            | (Err e, disk') => (Err e, w, disk')
            | (Ok _, disk') =>
                (Ok (default sealed (last next)), MkWriter (w_path w) (w_maxEvents w) next, disk')
            end
        end
    end.

(** ** Replay *)

(** Applies events in order; the accumulated state is returned also on error. *)
Fixpoint replay_from {S : Type} (i : nat) (apply : S -> Event -> option S) (events : list Event) (s : S)
    : result log_error unit * S :=
  match events with
  | [] => (Ok tt, s)
  | ev :: events' =>
      match Event_Validate ev with
      | Err e => (Err (EReplayInvalid i e), s)
      | Ok _ =>
          match apply s ev with
          | None => (Err (EReplayApply i), s)
          | Some s' => replay_from (Datatypes.S i) apply events' s'
          end
      end
  end.

Definition Replay {S : Type} (events : list Event) (apply : S -> Event -> option S) (s : S) :=
  replay_from 0 apply events s.

(** ** Reachable states of one writer *)

(** A clock reading in [time.RFC3339Nano] layout is at most 35 bytes long. *)
Definition clock_reading (now : string) : Prop :=
  rfc3339nano_ok now = true /\ 0 < len now <= 35.

Inductive log_step : Writer * Disk -> Writer * Disk -> Prop :=
| step_append w disk now io ev r w' disk' :
    clock_reading now ->
    Append w disk now io ev = (r, w', disk') ->
    log_step (w, disk) (w', disk').

Definition fresh_writer (dir : string) (maxEvents : Z) : Writer := MkWriter dir maxEvents [].

Definition reachable (w0 : Writer) (st : Writer * Disk) : Prop := rtc log_step (w0, None) st.

(** ** Tallies: what compaction must not lose *)

Definition event_tally (key : string) (e : Event) : Z :=
  (if bool_decide (kind_key (ev_Kind e) = key) then 1 else 0) + get_count (ev_Counts e) key.

Definition tally (key : string) (events : list Event) : Z := sumZ (event_tally key) events.
End log.

(** ** Lemmas: times and text of a compaction event *)

Lemma len_dec_fuel fuel n acc : len (dec_fuel fuel n acc) <= Z.of_nat fuel + len acc.
Proof.
  revert n acc. induction fuel as [|fuel IH]; intros n acc; cbn [dec_fuel]; [lia|].
  assert (Ha : len (String (digit (n mod 10)) acc) = 1 + len acc) by (unfold len; cbn; lia).
  destruct (n <? 10); [lia|]. specialize (IH (n / 10) (String (digit (n mod 10)) acc)). lia.
Qed.

Lemma len_dec n : len (dec n) <= 21.
Proof.
  unfold dec. pose proof (len_dec_fuel 20 (- n) EmptyString).
  pose proof (len_dec_fuel 20 n EmptyString). change (len EmptyString) with 0 in *.
  destruct (n <? 0); [|lia]. unfold len in *. cbn [String.length]. lia.
Qed.

Section log_lemmas.
Context `{GoRuntime} `{JsonCodec}.

Lemma fold_times_len src a :
  Forall (fun e => len (ev_Time e) <= 35) src -> len (fa_earliest a) <= 35 -> len (fa_latest a) <= 35 ->
  len (fa_earliest (fold_left fold_event src a)) <= 35 /\ len (fa_latest (fold_left fold_event src a)) <= 35.
Proof.
  intros Hs. revert a. induction Hs as [|e src He Hs IH]; intros a H1 H2; cbn [fold_left]; [done|].
  apply IH; cbn; case_match; done.
Qed.

Lemma compaction_text_len src now session :
  Forall (fun e => len (ev_Time e) <= 35) src ->
  len (ev_FreeText (compactionFrom src now session)) <= MaxFreeTextBytes.
Proof.
  intros Hs. cbn [compactionFrom ev_FreeText]. rewrite !len_app.
  pose proof (len_dec (Z.of_nat (length src))).
  destruct (fold_times_len src (MkFold ∅ 0 EmptyString EmptyString) Hs) as [? ?]; [done..|].
  unfold MaxFreeTextBytes. set (x := len "compacted "). set (y := len " events (").
  set (z := len ".."). set (t := len ")"). vm_compute in x, y, z, t. subst x y z t. lia.
Qed.

(** ** Well-formed events *)

Definition wf_event (e : Event) : Prop :=
  Event_Validate e = Ok tt /\ Sanitize e = e /\ len (ev_Time e) <= 35 /\ ev_Schema e = Schema.

Lemma Sanitize_fixed e :
  len (ev_FreeText e) <= MaxFreeTextBytes -> ev_CoverageWarnings e = [] -> Sanitize e = e.
Proof.
  intros Ht Hw. destruct e; cbn in *. subst. unfold Sanitize; cbn. rewrite canonicalCounts_id.
  f_equal. unfold cap_text. by rewrite (proj2 (Z.ltb_ge _ _) Ht).
Qed.

Lemma Validate_ok e :
  validateFields e = Ok tt -> 0 < ev_Seq e -> rfc3339nano_ok (ev_Time e) = true ->
  0 < len (ev_Time e) -> Event_Validate e = Ok tt.
Proof.
  intros Hf Hs Ht Hl. unfold Event_Validate, fail_if. rewrite Hf, Ht.
  rewrite (proj2 (Z.eqb_neq _ _)) by lia.
  destruct (String.eqb_spec (ev_Time e) EmptyString) as [E|]; [|done].
  rewrite E in Hl. done.
Qed.

Lemma wf_compaction src now session :
  clock_reading now -> Forall (fun e => len (ev_Time e) <= 35) src ->
  forall i, 0 < i -> wf_event (set_seq i (compactionFrom src now session)).
Proof.
  intros (Hn & Hl) Hs i Hi. pose proof (compaction_text_len src now session Hs) as Ht.
  split_and!; [|by apply Sanitize_fixed|cbn; lia|done].
  apply Validate_ok; try done; [|cbn; lia].
  unfold validateFields.
  cbn [set_seq ev_FreeText]. rewrite (proj2 (Z.ltb_ge _ _) Ht). reflexivity.
Qed.

(** Renumbering touches only the sequence number and the identifier. *)
Lemma wf_set_seq e i : wf_event e -> 0 < i -> wf_event (set_seq i e).
Proof.
  intros (Hv & Hs & Ht & Hc) Hi. split_and!; [| |done..].
  - unfold Event_Validate in *. change (validateFields (set_seq i e)) with (validateFields e).
    destruct (validateFields e); [|done]. cbn [set_seq ev_Seq ev_Time]. unfold fail_if in *.
    rewrite (proj2 (Z.eqb_neq i 0)) by lia. by destruct (ev_Seq e =? 0).
  - rewrite <- Hs at 2. by destruct e.
Qed.

Lemma wf_renumber l i : 0 < i -> Forall wf_event l -> Forall wf_event (renumber i l).
Proof.
  intros Hi Hl. revert i Hi. induction Hl; intros i Hi; cbn; constructor.
  - by apply wf_set_seq.
  - apply IHHl. lia.
Qed.

Lemma wf_seal seq now ev :
  clock_reading now -> 0 < seq -> validateFields (Sanitize ev) = Ok tt ->
  wf_event (seal seq now (Sanitize ev)).
Proof.
  intros (Hn & Hl) Hs Hf. split_and!; [| |cbn; lia|done].
  - apply Validate_ok; try done; [|cbn; lia]. unfold validateFields in *.
    cbn [seal ev_Kind ev_Schema ev_Freshness ev_Provenance ev_FreeText] in *.
    unfold fail_if in *. cbn [String.eqb negb andb] in *. rewrite String.eqb_refl, andb_false_r.
    by destruct (negb (String.eqb (ev_Schema (Sanitize ev)) "") && _), (negb (Kind_Valid _)).
  - pose proof (Sanitize_idem ev) as Hi. unfold Sanitize, seal in *; cbn in *.
    by injection Hi as -> -> ->.
Qed.

(** ** Numbering *)

Fixpoint numbered (i : Z) (l : list Event) : Prop :=
  match l with
  | [] => True
  | e :: l' => ev_Seq e = i /\ ev_ID e = EventID i (ev_Session e) (ev_Kind e) (ev_Time e)
               /\ numbered (i + 1) l'
  end.

Lemma numbered_renumber i l : numbered i (renumber i l).
Proof. revert i. induction l; intros i; cbn; [done|]. by split_and!. Qed.

Lemma numbered_snoc i l e :
  numbered i l -> ev_Seq e = i + Z.of_nat (length l) ->
  ev_ID e = EventID (ev_Seq e) (ev_Session e) (ev_Kind e) (ev_Time e) ->
  numbered i (l ++ [e])%list.
Proof.
  revert i. induction l as [|x l IH]; intros i; cbn [numbered app length].
  - intros _ Hs Hid. rewrite Hid. by rewrite Hs, Z.add_0_r.
  - intros (H1 & H2 & H3) Hs Hid. split_and!; [done..|]. apply IH; [done|lia|done].
Qed.

Lemma length_renumber i l : length (renumber i l) = length l.
Proof. revert i. induction l; intros i; cbn; [done|]. by rewrite IHl. Qed.

Lemma length_compact m now session next :
  1 <= m -> Z.of_nat (length (compact m now session next)) = Z.min m (Z.of_nat (length next)).
Proof.
  intros Hm. unfold compact. destruct (Z.ltb_spec m (Z.of_nat (length next))); [|lia].
  rewrite length_renumber. cbn [length]. rewrite length_drop. lia.
Qed.

(** ** The file *)

Lemma encode_all_oracle wok i events body :
  encode_all wok i events = Ok body -> encode_all (fun _ => true) 0 events = Ok body.
Proof.
  assert (Hg : forall wok i j evs b, encode_all wok i evs = Ok b ->
            encode_all (fun _ => true) j evs = Ok b).
  { intros wok0 i0 j0 evs. revert i0 j0. induction evs as [|e evs IH]; intros i0 j0 b; [done|].
    cbn [encode_all]. destruct (Marshal e) as [line|]; [|done].
    destruct (_ <? _); [done|]. destruct (wok0 i0); [|done]. cbn [negb].
    destruct (encode_all wok0 (S i0) evs) as [rest|] eqn:E; [|done].
    intros [= <-]. by rewrite (IH _ (S j0) _ E). }
  apply Hg.
Qed.

Definition mirrors (events : list Event) (disk : Disk) : Prop :=
  match disk with
  | None => events = []
  | Some body => encode_all (fun _ => true) 0 events = Ok body
  end.

Lemma writeAtomic_spec io events disk r disk' :
  writeAtomic io events disk = (r, disk') ->
  match r with
  | Ok _ => mirrors events disk'
  | Err _ => disk' = disk
  end.
Proof.
  unfold writeAtomic. intros Hw. repeat (case_match; simplify_eq; [done|]).
  repeat case_match; simplify_eq; try done. by eapply encode_all_oracle.
Qed.

(** ** The invariant *)

Record log_inv (w : Writer) (disk : Disk) : Prop := {
  inv_max : 1 <= w_maxEvents w;
  inv_bound : Z.of_nat (length (w_events w)) <= w_maxEvents w;
  inv_numbered : numbered 1 (w_events w);
  inv_wf : Forall wf_event (w_events w);
  inv_mirror : mirrors (w_events w) disk
}.

Lemma wf_times l : Forall wf_event l -> Forall (fun e => len (ev_Time e) <= 35) l.
Proof. intros Hl. eapply Forall_impl; [exact Hl|]. by intros ? (? & ? & ? & ?). Qed.

Lemma wf_compact m now session next :
  clock_reading now -> Forall wf_event next -> Forall wf_event (compact m now session next).
Proof.
  intros Hc Hn. unfold compact. destruct (_ <? _); [|done]. cbn [renumber]. constructor.
  - apply wf_compaction; [done| |lia]. apply wf_times. by apply Forall_take.
  - apply wf_renumber; [lia|]. by apply Forall_drop.
Qed.

Lemma numbered_compact m now session next :
  numbered 1 next -> numbered 1 (compact m now session next).
Proof. intros Hn. unfold compact. destruct (_ <? _); [apply numbered_renumber|done]. Qed.

(** What a successful or failed append does, once and for all. *)
Lemma Append_cases w disk now io ev r w' disk' :
  Append w disk now io ev = (r, w', disk') ->
  (exists e, r = Err e /\ w' = w /\ disk' = disk) \/
  (exists sealed, let next := (w_events w ++ [seal (Z.of_nat (length (w_events w)) + 1) now (Sanitize ev)])%list in
     r = Ok sealed /\ validateFields (Sanitize ev) = Ok tt /\ ValidateProvenance (Sanitize ev) = Ok tt /\
     w' = MkWriter (w_path w) (w_maxEvents w) (compact (w_maxEvents w) now (ev_Session ev) next) /\
     mirrors (w_events w') disk' /\ last (w_events w') = Some sealed).
Proof.
  unfold Append. intros HA.
  destruct (String.eqb (w_path w) ""); [simplify_eq; eauto|].
  destruct (negb (Kind_Valid (ev_Kind ev))); [simplify_eq; eauto|].
  destruct (validateFields (Sanitize ev)) as [[]|] eqn:Hf; [|simplify_eq; eauto].
  destruct (ValidateProvenance (Sanitize ev)) as [[]|] eqn:Hp; [|simplify_eq; eauto].
  match type of HA with context [writeAtomic io ?n disk] => set (next := n) in * end.
  destruct (writeAtomic io next disk) as [r0 d0] eqn:Hw.
  pose proof (writeAtomic_spec _ _ _ _ _ Hw) as Hm.
  destruct r0 as [u|e]; simplify_eq; [|left; eauto].
  right. eexists. split; [done|]. split_and!; [done..|].
  destruct (last next) as [e|] eqn:El; [done|]. apply last_None in El. exfalso.
  subst next. unfold compact in El. destruct (_ <? _); [done|]. by destruct (w_events w).
Qed.

Lemma log_inv_step w disk w' disk' :
  log_inv w disk -> log_step (w, disk) (w', disk') -> log_inv w' disk'.
Proof.
  intros [Hm Hb Hn Hw Hd] Hs. inversion Hs as [? ? now io ev r ? ? Hc HA]; subst.
  apply Append_cases in HA as [(e & _ & -> & ->)|(sealed & _ & Hf & _ & -> & Hmir & _)]; [by split|].
  set (next := (w_events w ++ [_])%list) in *.
  assert (Hl : Z.of_nat (length next) = Z.of_nat (length (w_events w)) + 1)
    by (unfold next; rewrite length_app; cbn; lia).
  split; cbn; [done| | | |done].
  - rewrite length_compact by done. lia.
  - apply numbered_compact, numbered_snoc; [done|cbn; lia|done].
  - apply wf_compact; [done|]. apply Forall_app. split; [done|].
    constructor; [|done]. apply wf_seal; [done|lia|done].
Qed.

Lemma log_inv_reachable dir m w disk :
  1 <= m -> reachable (fresh_writer dir m) (w, disk) -> log_inv w disk.
Proof.
  intros Hm Hr.
  refine (rtc_ind_r (fun st => log_inv (fst st) (snd st)) (fresh_writer dir m, None) _ _ (w, disk) Hr).
  - by split; cbn; [|lia| |constructor|].
  - intros [w1 d1] [w2 d2] _ Hs Hi. by eapply log_inv_step.
Qed.

Lemma reachable_max dir m w disk : reachable (fresh_writer dir m) (w, disk) -> w_maxEvents w = m.
Proof.
  intros Hr.
  refine (rtc_ind_r (fun st => w_maxEvents (fst st) = m) (fresh_writer dir m, None) _ _ (w, disk) Hr);
    [done|].
  intros [w1 d1] [w2 d2] _ Hs Hi. inversion Hs as [? ? ? ? ? ? ? ? ? HA]; subst.
  by apply Append_cases in HA as [(? & _ & -> & _)|(? & _ & _ & _ & -> & _)].
Qed.

Lemma step_run w disk now io ev :
  clock_reading now ->
  log_step (w, disk) (snd (fst (Append w disk now io ev)), snd (Append w disk now io ev)).
Proof.
  intros Hc. destruct (Append w disk now io ev) as [[r w'] d'] eqn:E. by eapply step_append.
Qed.
End log_lemmas.
