(* ===== verification/SessionDurability.v ===== *)
(** * sessionlog: what the writer guarantees

    The properties of [SessionLog]: the stream invariant of every reachable
    writer, the conservation of event tallies across compaction, and the
    reopening of a persisted log.  [demo_codec] is a concrete [JsonCodec] that
    satisfies [JsonLaws]. *)

From Stdlib Require Import Ascii String.
From S2P Require Import Prelude GoString Float64 Runtime SessionEvent SessionLog.
Open Scope string_scope.
Open Scope Z_scope.

(** ** Tallies across compaction *)

Section tallies.
Context `{GoRuntime} `{JsonCodec}.

Lemma get_count_bump m k v key :
  get_count (bump m k v) key = if bool_decide (k = key) then wrap64 (get_count m k + v) else get_count m key.
Proof.
  unfold get_count, bump. rewrite lookup_insert. case_decide as E.
  - by rewrite bool_decide_eq_true_2.
  - by rewrite bool_decide_eq_false_2.
Qed.

Lemma wrap_bump m k v key :
  wrap64 (get_count (bump m k v) key) =
  wrap64 (get_count m key + if bool_decide (k = key) then v else 0).
Proof.
  rewrite get_count_bump. case_bool_decide as E; [subst; by rewrite wrap64_idem|by rewrite Z.add_0_r].
Qed.

Definition pair_at (key : string) (kv : string * Z) : Z :=
  if bool_decide (fst kv = key) then snd kv else 0.

Lemma wrap_bump_list l m key :
  wrap64 (get_count (fold_left (fun m kv => bump m (fst kv) (snd kv)) l m) key) =
  wrap64 (get_count m key + sumZ (pair_at key) l).
Proof.
  revert m. induction l as [|[k v] l IH]; intros m; cbn [fold_left sumZ].
  - by rewrite Z.add_0_r.
  - rewrite IH. rewrite <- wrap64_add_l, wrap_bump, wrap64_add_l. f_equal. unfold pair_at; cbn. lia.
Qed.

Lemma sum_pairs (m : gmap string Z) key : sumZ (pair_at key) (map_to_list m) = get_count m key.
Proof.
  induction m as [|k v m Hk IH] using map_ind; [done|].
  rewrite (sumZ_perm _ _ _ (map_to_list_insert m k v Hk)). cbn [sumZ]. rewrite IH.
  unfold pair_at, get_count; cbn. rewrite lookup_insert. case_decide as E.
  - subst. rewrite bool_decide_eq_true_2, Hk by done. cbn. lia.
  - by rewrite bool_decide_eq_false_2.
Qed.

Lemma wrap_add_event_counts m e key :
  wrap64 (get_count (add_event_counts m e) key) = wrap64 (get_count m key + event_tally key e).
Proof.
  unfold add_event_counts. rewrite wrap_bump_list, sum_pairs.
  rewrite <- wrap64_add_l, wrap_bump, wrap64_add_l. f_equal. unfold event_tally. lia.
Qed.

Lemma fold_counts_tally src a key :
  wrap64 (get_count (fa_counts (fold_left fold_event src a)) key) =
  wrap64 (get_count (fa_counts a) key + tally key src).
Proof.
  revert a. induction src as [|e src IH]; intros a; cbn [fold_left].
  - unfold tally. cbn. by rewrite Z.add_0_r.
  - rewrite IH. cbn [fold_event fa_counts]. rewrite <- wrap64_add_l, wrap_add_event_counts, wrap64_add_l.
    f_equal. unfold tally. cbn. lia.
Qed.

Definition bookkeeping (key : string) : bool :=
  bool_decide (key = "folded_events" \/ key = "folded_bytes" \/ key = kind_key KindCompaction).

Lemma compaction_tally src now session key :
  bookkeeping key = false ->
  wrap64 (event_tally key (compactionFrom src now session)) = wrap64 (tally key src).
Proof.
  unfold bookkeeping. intros Hb%bool_decide_eq_false_1. unfold event_tally.
  assert (Hc : kind_key KindCompaction <> key) by naive_solver.
  cbn [compactionFrom ev_Kind ev_Counts]. rewrite bool_decide_eq_false_2 by done.
  unfold get_count. rewrite !lookup_insert_ne by naive_solver.
  pose proof (fold_counts_tally src (MkFold ∅ 0 EmptyString EmptyString) key) as Hf.
  unfold get_count in Hf. cbn [fa_counts] in Hf. rewrite lookup_empty in Hf.
  rewrite Z.add_0_l. etrans; [exact Hf|]. done.
Qed.

Lemma tally_app key l1 l2 : tally key (l1 ++ l2)%list = tally key l1 + tally key l2.
Proof. apply sumZ_app. Qed.

Lemma tally_renumber key i l : tally key (renumber i l) = tally key l.
Proof. unfold tally. revert i. induction l; intros i; cbn; [done|]. by rewrite IHl. Qed.

Lemma tally_compact key m now session next :
  bookkeeping key = false ->
  wrap64 (tally key (compact m now session next)) = wrap64 (tally key next).
Proof.
  intros Hb. unfold compact. destruct (_ <? _); [|done].
  set (n := Z.to_nat _). rewrite tally_renumber.
  change (tally key (compactionFrom (take n next) now session :: drop n next))
    with (event_tally key (compactionFrom (take n next) now session) + tally key (drop n next)).
  rewrite <- wrap64_add_l, compaction_tally, wrap64_add_l by done.
  by rewrite <- tally_app, take_drop.
Qed.
End tallies.

(** ** Reading the file back *)

Definition utf8_counts (m : gmap string Z) : bool := forallb (fun kv => valid_utf8 (fst kv)) (map_to_list m).

Definition utf8_event (e : Event) : bool :=
  let p := ev_Provenance e in
  forallb valid_utf8 [ev_Schema e; ev_ID e; ev_Session e; ev_Kind e; ev_Time e; ev_Verb e;
    ev_Freshness e; ev_PredictedDigest e; ev_ObservedDigest e; ev_FreeText e;
    Repository p; Tree p; BaseDigest p; Path p; Symbol p; Handle p]
  && utf8_counts (ev_Counts e) && forallb valid_utf8 (ev_CoverageWarnings e).

Lemma coerce_counts_valid m : utf8_counts m = true -> coerce_counts m = m.
Proof.
  unfold utf8_counts, coerce_counts. intros Hv. rewrite forallb_forall in Hv.
  set (l := sort_by _ _).
  assert (Hm : map (fun kv => (json_coerce (fst kv), snd kv)) l = l).
  { rewrite <- (map_id l) at 2. apply map_ext_in. intros [k v] Hin. cbn. f_equal.
    apply json_coerce_valid. apply (Hv (k, v)). apply list_elem_of_In.
    apply list_elem_of_In in Hin. unfold l in Hin. by rewrite elem_of_sort_by in Hin. }
  rewrite Hm, (list_to_map_proper _ (map_to_list m)).
  - apply list_to_map_to_list.
  - rewrite reverse_Permutation. unfold l. rewrite sort_by_perm. apply NoDup_fst_map_to_list.
  - rewrite reverse_Permutation. apply sort_by_perm.
Qed.

Lemma coerce_event_valid e : utf8_event e = true -> coerce_event e = e.
Proof.
  unfold utf8_event. cbn [forallb]. rewrite !andb_true_iff.
  intros ((Hf & Hc%coerce_counts_valid) & Hw). destruct_and!.
  destruct e as [? ? ? ? ? ? ? [? ? ? ? ? ? ? ?] ? ? ? ? ? ? ?]; cbn in *.
  unfold coerce_event, coerce_provenance; cbn. rewrite Hc.
  rewrite !json_coerce_valid by done. f_equal.
  match goal with |- _ = ?l => rewrite <- (map_id l) at 2 end.
  apply map_ext_in. intros x Hx. apply json_coerce_valid.
  rewrite forallb_forall in Hw. by apply Hw.
Qed.

Section reopen.
Context `{GoRuntime} `{C : JsonCodec} `{!JsonLaws C}.

(** The lines of a file written by [writeAtomic]. *)
Lemma encode_all_lines i events body :
  encode_all (fun _ => true) i events = Ok body ->
  exists lines, Forall2 (fun e l => Marshal e = Some l /\ one_line l /\ len l <= DefaultMaxEventBytes) events lines
    /\ split_char newline body = (lines ++ [EmptyString])%list
    /\ len body <= Z.of_nat (length events) * (DefaultMaxEventBytes + 1).
Proof.
  revert i body. induction events as [|e events IH]; intros i body; cbn [encode_all].
  { intros [= <-]. exists []. by split_and!; [constructor|..]. }
  destruct (Marshal e) as [line|] eqn:Em; [|done].
  destruct (Z.ltb_spec DefaultMaxEventBytes (len line)); [done|]. cbn [negb].
  destruct (encode_all _ (S i) events) as [rest|] eqn:Er; [|done]. intros [= <-].
  destruct (IH _ _ Er) as (lines & Hf & Hs & Hl). pose proof (json_one_line _ _ Em) as Ho.
  exists (line :: lines). split_and!.
  - by constructor.
  - destruct Ho as (_ & _ & Hn & _). rewrite split_char_app, Hs by done. done.
  - rewrite len_app. assert (len (String newline rest) = 1 + len rest) by (unfold len; cbn; lia).
    cbn [length]. lia.
Qed.

Lemma scan_lines_file (lines : list string) body :
  split_char newline body = (lines ++ [EmptyString])%list -> scan_lines body = lines.
Proof.
  intros Hs. unfold scan_lines. rewrite Hs, last_snoc, length_app. cbn [length].
  rewrite Nat.add_sub. apply take_app_length.
Qed.

Lemma dropCR_line l : one_line l -> trim_space (dropCR l) = l.
Proof. intros (_ & Ht & _ & Hc). unfold dropCR, trim_suffix. by rewrite Hc. Qed.

(** Each line decodes to the coerced event it was written from. *)
Lemma parse_lines_file events lines :
  Forall2 (fun e l => Marshal e = Some l /\ one_line l /\ len l < DefaultMaxEventBytes) events lines ->
  Forall (fun e => Sanitize e = e /\ coerce_event e = e /\ Event_Validate e = Ok tt) events ->
  parse_lines lines = Ok events.
Proof.
  induction 1 as [|e l events lines (Hm & Ho & Hl) HF IH]; [done|].
  intros [(Hs & Hc & Hv) He]%Forall_cons. cbn [parse_lines].
  rewrite (proj2 (Z.leb_gt _ _) Hl), dropCR_line by done.
  destruct Ho as (Hne & _). rewrite (proj2 (String.eqb_neq _ _) Hne).
  unfold Marshal in Hm. rewrite Hs in Hm. rewrite (json_round_trip _ _ Hm), Hc, Hv.
  by rewrite (IH He).
Qed.

Definition line_short (e : Event) : Prop :=
  forall l, Marshal e = Some l -> len l <> DefaultMaxEventBytes.

Lemma lines_short events lines :
  Forall2 (fun e l => Marshal e = Some l /\ one_line l /\ len l <= DefaultMaxEventBytes) events lines ->
  Forall (fun e => utf8_event e = true /\ line_short e) events ->
  Forall2 (fun e l => Marshal e = Some l /\ one_line l /\ len l < DefaultMaxEventBytes) events lines.
Proof.
  induction 1 as [|e l es ls (Hm & Ho & Hl) HF IH]; [constructor|].
  intros [[_ Hs] Hes]%Forall_cons. constructor; [|by apply IH].
  split_and!; [done..|]. specialize (Hs l Hm). lia.
Qed.

Lemma Open_missing dir m :
  blank dir = false -> 1 <= m ->
  Open dir [m] (MkOpenIO true true true true) None =
    Ok (MkWriter (trim_space dir ++ "/" ++ Filename) m []).
Proof.
  intros Hb Hm. unfold Open. unfold blank in Hb. rewrite Hb. cbn [mkdir_ok negb fold_left].
  unfold WithMaxEvents. by rewrite (proj2 (Z.ltb_lt 0 m)) by lia.
Qed.

Lemma Open_default dir io raw loaded :
  blank dir = false -> io = MkOpenIO true true true true ->
  len raw <= MaxLogBytes -> parseStrict raw = Ok loaded ->
  forall m, 1 <= m -> Z.of_nat (length loaded) <= m ->
  Open dir [m] io (Some raw) = Ok (MkWriter (trim_space dir ++ "/" ++ Filename) m loaded).
Proof.
  intros Hb -> Hl Hp m Hm Hn. unfold Open. unfold blank in Hb. rewrite Hb. cbn [mkdir_ok negb fold_left].
  unfold WithMaxEvents. rewrite (proj2 (Z.ltb_lt 0 m)) by lia.
  cbn [open_ok read_ok close_read_ok negb w_maxEvents w_path w_events].
  rewrite (proj2 (Z.ltb_ge _ _) Hl), Hp. by rewrite (proj2 (Z.ltb_ge _ _) Hn).
Qed.
End reopen.

(** ** A codec that satisfies the laws *)

Module DemoCodec.

Definition f64_code (f : f64) : list Z :=
  match f with
  | SpecFloat.S754_zero s => [0; if s then 1 else 0]
  | SpecFloat.S754_infinity s => [1; if s then 1 else 0]
  | SpecFloat.S754_nan => [2]
  | SpecFloat.S754_finite s m e => [3; if s then 1 else 0; Z.pos m; e]
  end.

Definition f64_read (l : list Z) : f64 :=
  match l with
  | [0; s] => SpecFloat.S754_zero (s =? 1)
  | [1; s] => SpecFloat.S754_infinity (s =? 1)
  | [3; s; m; e] => SpecFloat.S754_finite (s =? 1) (Z.to_pos m) e
  | _ => SpecFloat.S754_nan
  end.

Definition flat : Type := (list string * list Z * gmap string Z * list string).

Definition flatten (e : Event) : flat :=
  let p := ev_Provenance e in
  ([ev_Schema e; ev_ID e; ev_Session e; ev_Kind e; ev_Time e; ev_Verb e; ev_Freshness e;
    ev_PredictedDigest e; ev_ObservedDigest e; ev_FreeText e;
    Repository p; Tree p; BaseDigest p; Path p; Symbol p; Handle p],
   ev_Seq e :: r_Start (PRange p) :: r_End (PRange p) :: ev_Folded e :: f64_code (Confidence p),
   ev_Counts e, ev_CoverageWarnings e).

Definition unflatten (t : flat) : option Event :=
  match t with
  | ([schema; id; session; kind; time; verb; fresh; pd; od; text; repo; tree; base; path; symbol; handle],
     seq :: start :: fin :: folded :: conf, counts, warnings) =>
      Some (MkEvent schema id seq session kind time verb
        (MkProvenance repo tree base path (MkRange start fin) symbol handle (f64_read conf))
        fresh pd od counts warnings text folded)
  | _ => None
  end.

Definition demo_encode (e : Event) : option string :=
  if f_finite (Confidence (ev_Provenance e))
  then Some (String "{" (pos_str (encode (flatten (coerce_event e))))) else None.

Definition demo_decode (s : string) : option Event :=
  match s with
  | String "{" s' => decode (str_pos s') ≫= unflatten
  | _ => None
  end.

Definition demo_codec : JsonCodec := {| json_encode := demo_encode; json_decode := demo_decode |}.

Lemma f64_read_code f : f64_read (f64_code f) = f.
Proof. by destruct f as [[]|[]| |[]]. Qed.

Lemma unflatten_flatten e : unflatten (flatten e) = Some e.
Proof.
  destruct e as [? ? ? ? ? ? ? [? ? ? ? [? ?] ? ? ?] ? ? ? ? ? ? ?]. cbn.
  by rewrite f64_read_code.
Qed.

Definition plain_char (c : ascii) : bool := in_range 33 126 c.
Fixpoint plain (s : string) : bool :=
  match s with EmptyString => true | String c s' => plain_char c && plain s' end.

Lemma plain_pieces s : plain s = true -> Forall (fun p => is_space (p_rune p) = false) (pieces s).
Proof.
  induction s as [|s Hs IH] using pieces_ind; [constructor|]. intros Hp.
  rewrite pieces_nonempty by done. destruct s as [|c s]; [done|]. cbn [plain] in Hp.
  apply andb_true_iff in Hp as [Hc Hp]. unfold plain_char, in_range in Hc. bool_prop.
  assert (H1 : utf8_size (String c s) = 1%nat).
  { unfold utf8_size. by rewrite (proj2 (Z.ltb_lt _ _)) by lia. }
  unfold step_size in *. rewrite H1 in *. cbn [Nat.max str_drop] in *.
  constructor; [|by apply IH; destruct s].
  unfold next_piece, rune_value. rewrite H1. cbn [p_rune]. unfold is_space.
  repeat (rewrite ?(proj2 (Z.eqb_neq _ _)), ?(proj2 (Z.leb_gt _ _)) by lia; cbn [andb orb]).
  destruct (9 <=? byte_val c); cbn; repeat (rewrite (proj2 (Z.leb_gt _ _)) by lia); 
    rewrite ?andb_false_r; done.
Qed.

Lemma drop_while_none {A} (f : A -> bool) l : Forall (fun x => f x = false) l -> drop_while f l = l.
Proof. destruct 1 as [|x l Hx]; cbn; [done|]. by rewrite Hx. Qed.

Lemma trim_plain s : plain s = true -> trim_space s = s.
Proof.
  intros Hp%plain_pieces. unfold trim_space. rewrite (drop_while_none _ (pieces s)) by done.
  rewrite drop_while_none; [|by apply Forall_reverse]. rewrite reverse_involutive. apply raw_pieces.
Qed.

Lemma plain_pos_str p : plain (pos_str p) = true.
Proof. by induction p. Qed.

Lemma plain_no_char c s : plain s = true -> plain_char c = false -> contains_char c s = false.
Proof.
  intros Hp Hc. induction s as [|a s IH]; [done|]. cbn in *.
  apply andb_true_iff in Hp as [Ha Hp]. apply orb_false_iff. split; [|by apply IH].
  destruct (Ascii.eqb_spec a c); [congruence|done].
Qed.

Lemma plain_drop n s : plain s = true -> plain (str_drop n s) = true.
Proof.
  revert s. induction n; intros [|c s]; cbn; try done. intros [_ Hp]%andb_true_iff. by apply IHn.
Qed.

#[global] Instance demo_laws : JsonLaws demo_codec.
Proof.
  split; unfold json_encode, json_decode; cbn; unfold demo_encode.
  - intros ev ->. eauto.
  - intros ev s. case_match; [|done]. intros [= <-].
    set (t := String "{" _).
    assert (Hp : plain t = true) by (cbn; apply plain_pos_str).
    split_and!; [done|by apply trim_plain|by apply plain_no_char|].
    unfold has_suffix. apply andb_false_iff. right. apply String.eqb_neq. intros E.
    apply (plain_drop (String.length t - String.length (String carriage_return ""))) in Hp.
    rewrite E in Hp. done.
  - intros ev s. case_match; [|done]. intros [= <-]. unfold demo_decode.
    rewrite <- (append_nil_r (pos_str _)), str_pos_str, decode_encode. apply (unflatten_flatten (coerce_event ev)).
Qed.
End DemoCodec.

(** ** Properties *)

Section properties.
Context `{GoRuntime} `{C : JsonCodec}.

(** C28. Every state a writer can reach from an empty log keeps the stream
    consistent, whatever is appended and whichever I/O step fails: at most
    [maxEvents] events, numbered 1, 2, 3, ... without gaps, each identifier
    derived from its own fields, each event valid for strict replay and already
    sanitised, and the file always the encoding of exactly the events in
    memory. *)
Theorem reachable_stream_consistent dir m w disk :
  1 <= m -> reachable (fresh_writer dir m) (w, disk) ->
  Z.of_nat (length (w_events w)) <= m /\
  numbered 1 (w_events w) /\
  Forall (fun e => Event_Validate e = Ok tt /\ Sanitize e = e) (w_events w) /\
  mirrors (w_events w) disk.
Proof.
  intros Hm Hr. pose proof (reachable_max _ _ _ _ Hr) as Hmax.
  destruct (log_inv_reachable dir m w disk Hm Hr) as [_ Hb Hn Hw Hd].
  split_and!; [lia|done| |done].
  eapply Forall_impl; [exact Hw|]. by intros e (? & ? & _).
Qed.

(** A failed append changes nothing, in memory or on disk; a successful one
    returns the newest event of the stream. *)
Theorem Append_atomic w disk now io ev r w' disk' :
  Append w disk now io ev = (r, w', disk') ->
  match r with
  | Err _ => w' = w /\ disk' = disk
  | Ok sealed => last (w_events w') = Some sealed /\ mirrors (w_events w') disk'
  end.
Proof.
  intros HA. apply Append_cases in HA as [(e & -> & -> & ->)|(sealed & -> & _ & _ & -> & Hm & Hl)]; done.
Qed.

(** Compaction loses no count: for every counter other than the fold's own
    bookkeeping keys, the total over the stream after a successful append is
    the total before plus what the new event contributes ([int64]
    arithmetic). *)
Theorem Append_conserves_tallies w disk now io ev sealed w' disk' key :
  Append w disk now io ev = (Ok sealed, w', disk') ->
  bookkeeping key = false ->
  wrap64 (tally key (w_events w')) = wrap64 (tally key (w_events w) + event_tally key ev).
Proof.
  intros HA Hb. apply Append_cases in HA as [(e & ? & _)|(? & _ & _ & _ & -> & _)]; [done|].
  cbn [w_events]. rewrite tally_compact by done. rewrite tally_app. f_equal. f_equal.
  unfold tally, event_tally; cbn [sumZ seal Sanitize ev_Kind ev_Counts].
  rewrite canonicalCounts_id. lia.
Qed.

Context `{!JsonLaws C}.

(** Durability: the file of any reachable writer reopens to exactly the
    events the writer holds, provided every string in them is valid UTF-8 and
    no encoded event is exactly [DefaultMaxEventBytes] long. *)
Theorem reopen_restores_events dir m w disk dir' :
  1 <= m <= DefaultMaxEvents -> reachable (fresh_writer dir m) (w, disk) ->
  Forall (fun e => utf8_event e = true /\ line_short e) (w_events w) ->
  blank dir' = false ->
  Open dir' [m] (MkOpenIO true true true true) disk =
    Ok (MkWriter (trim_space dir' ++ "/" ++ Filename) m (w_events w)).
Proof.
  intros Hm Hr Hu Hb. destruct (log_inv_reachable dir m w disk) as [_ Hbd Hn Hw Hd]; [lia|done|].
  pose proof (reachable_max _ _ _ _ Hr) as Hmax.
  destruct disk as [body|]; cbn in Hd; [|rewrite Hd; apply Open_missing; [done|lia]].
  destruct (encode_all_lines 0 (w_events w) body Hd) as (lines & HF & Hsp & Hlen).
  apply Open_default; try done; [|unfold parseStrict|lia..].
  { unfold MaxLogBytes, DefaultMaxEvents, DefaultMaxEventBytes in *. lia. }
  rewrite (scan_lines_file _ _ Hsp). apply parse_lines_file.
  - by eapply lines_short.
  - apply Forall_forall. intros e He. rewrite Forall_forall in Hu, Hw.
    destruct (Hu e He) as [Hv _], (Hw e He) as (Hval & Hsan & _).
    by rewrite (coerce_event_valid e Hv).
Qed.
End properties.

(** ** Where the bounds of the writer and of the reader disagree *)

Section disagreements.
Context `{GoRuntime} `{C : JsonCodec}.

Lemma validateFields_text e :
  MaxFreeTextBytes < len (ev_FreeText e) -> is_ok (Event_Validate e) = false.
Proof.
  intros Hl. unfold Event_Validate, validateFields, fail_if.
  rewrite (proj2 (Z.ltb_lt _ _) Hl). by repeat case_match.
Qed.

(** 511 ASCII bytes and one two-byte rune: 513 bytes, cut to 512 inside the rune. *)
Definition long_note : string := String.string_of_list_ascii (replicate 511 "a"%char) ++ str_of_bytes [195; 169].

Lemma long_note_grows : len (json_coerce (cap_text long_note)) = 514.
Proof. vm_compute. reflexivity. Qed.

(** A note cut in the middle of a rune is admitted and persisted, but JSON
    replaces the dangling byte by the three bytes of U+FFFD, the stored text is
    then longer than [MaxFreeTextBytes], and the log can no longer be parsed. *)
Theorem truncated_note_unreadable w disk now io ev sealed w' body :
  w_events w = [] -> 1 <= w_maxEvents w -> ev_FreeText ev = long_note ->
  Append w disk now io ev = (Ok sealed, w', Some body) ->
  (forall l, json_encode (Sanitize sealed) = Some l ->
     one_line l /\ json_decode l = Some (coerce_event (Sanitize sealed))) ->
  is_ok (parseStrict body) = false.
Proof.
  intros Hw Hm Ht HA Hc.
  apply Append_cases in HA as [(? & ? & _)|(s & Hs & _ & _ & -> & Hmir & Hl)]; [done|].
  injection Hs as ->. rewrite Hw in *. cbn [w_events app length] in *.
  unfold compact in *. cbn [length] in *.
  rewrite (proj2 (Z.ltb_ge (w_maxEvents w) (Z.of_nat 1))) in * by lia.
  cbn [last] in Hl. injection Hl as <-. cbn [mirrors encode_all] in Hmir.
  set (e := seal _ _ _) in *. destruct (Marshal e) as [line|] eqn:Em; [|done].
  destruct (_ <? _); [done|]. injection Hmir as <-.
  destruct (Hc line Em) as [Ho Hd]. pose proof Ho as (Hne & _ & Hnl & _).
  unfold parseStrict. rewrite (scan_lines_file [line]).
  2: { by rewrite split_char_app. }
  cbn [parse_lines]. destruct (_ <=? _); [done|]. rewrite dropCR_line by done.
  rewrite (proj2 (String.eqb_neq _ _) Hne), Hd.
  assert (Hbad : is_ok (Event_Validate (coerce_event (Sanitize e))) = false).
  { apply validateFields_text. subst e.
    cbn [coerce_event Sanitize seal ev_FreeText]. rewrite Ht, cap_text_idem, long_note_grows.
    unfold MaxFreeTextBytes. lia. }
  by destruct (Event_Validate (coerce_event (Sanitize e))).
Qed.

(** An event whose encoding is exactly [DefaultMaxEventBytes] long passes
    the writer's size check and is committed, but the reader's scanner needs
    room for one byte more and refuses the file. *)
Theorem full_line_unreadable e line disk io :
  Marshal e = Some line -> len line = DefaultMaxEventBytes -> contains_char newline line = false ->
  io = MkWriteIO true true (fun _ => true) true true true ->
  exists body, writeAtomic io [e] disk = (Ok tt, Some body) /\ parseStrict body = Err EScan.
Proof.
  intros Hm Hl Hn ->. exists (line ++ String newline EmptyString). split.
  - unfold writeAtomic. cbn [create_ok chmod_ok encode_ok sync_ok close_ok rename_ok negb encode_all].
    rewrite Hm, Hl. done.
  - unfold parseStrict. rewrite (scan_lines_file [line]).
    + cbn [parse_lines]. by rewrite Hl.
    + by rewrite split_char_app.
Qed.
End disagreements.

(** ** Witnesses *)

Module LogRun.
Import DemoCodec.
Existing Instance demo_runtime.
Existing Instance demo_codec.

Definition now0 : string := "2026-01-01T00:00:00Z".
Definition io_ok : WriteIO := MkWriteIO true true (fun _ => true) true true true.

Definition edit_event (path text : string) : Event := {|
  ev_Schema := ""; ev_ID := ""; ev_Seq := 0; ev_Session := "s1"; ev_Kind := KindEdit; ev_Time := "";
  ev_Verb := "v";
  ev_Provenance := MkProvenance "local" "" "" path (MkRange 1 4) "" "" f_one;
  ev_Freshness := FreshnessPointer; ev_PredictedDigest := ""; ev_ObservedDigest := "";
  ev_Counts := {["files" := 2]}; ev_CoverageWarnings := []; ev_FreeText := text; ev_Folded := 0 |}.

Definition w0 : Writer := fresh_writer "log" 2.
Definition run1 := Append w0 None now0 io_ok (edit_event "a.go" "x").
Definition run2 := Append (snd (fst run1)) (snd run1) now0 io_ok (edit_event "b.go" "y").
Definition run3 := Append (snd (fst run2)) (snd run2) now0 io_ok (edit_event "c.go" "z").

#[local] Strategy expand [run1 run2 run3].

Lemma now0_reading : clock_reading now0.
Proof. split; [reflexivity|split; vm_compute; congruence]. Qed.

Lemma run3_reachable : reachable w0 (snd (fst run3), snd run3).
Proof.
  unfold run3, run2, run1, reachable.
  eapply rtc_l; [exact (step_run w0 None now0 io_ok (edit_event "a.go" "x") now0_reading)|].
  eapply rtc_l; [exact (step_run _ _ now0 io_ok (edit_event "b.go" "y") now0_reading)|].
  eapply rtc_once. exact (step_run _ _ now0 io_ok (edit_event "c.go" "z") now0_reading).
Qed.

Lemma reachable_stream_consistent_witness :
  length (w_events (snd (fst run3))) = 2%nat /\ numbered 1 (w_events (snd (fst run3))).
Proof.
  split; [vm_compute; reflexivity|].
  pose proof (reachable_stream_consistent "log" 2 (snd (fst run3)) (snd run3) ltac:(lia) run3_reachable)
    as (_ & Hn & _ & _).
  exact Hn.
Defined.

Lemma run1_ok : is_ok (fst (fst run1)) = true.
Proof. vm_compute. reflexivity. Qed.

Lemma Append_atomic_witness :
  is_ok (fst (fst run1)) = true /\ last (w_events (snd (fst run1))) <> None.
Proof.
  pose proof run1_ok as Hok. split; [exact Hok|].
  destruct run1 as [[[e|er] w'] d'] eqn:E; [|discriminate Hok].
  pose proof (Append_atomic w0 None now0 io_ok (edit_event "a.go" "x") (Ok e) w' d' E) as [Hl _].
  cbn [fst snd]. rewrite Hl. discriminate.
Defined.

(** A full writer: the next append folds. *)
Definition full : Writer :=
  MkWriter "log" 2 [seal 1 now0 (edit_event "a.go" "x"); seal 2 now0 (edit_event "b.go" "y")].
Definition run_full := Append full None now0 io_ok (edit_event "c.go" "z").
#[local] Strategy expand [run_full].

Lemma run_full_ok : is_ok (fst (fst run_full)) = true.
Proof. vm_compute. reflexivity. Qed.

Lemma Append_conserves_tallies_witness :
  wrap64 (tally "files" (w_events (snd (fst run_full)))) = 6.
Proof.
  pose proof run_full_ok as Hok.
  destruct run_full as [[[e|er] w'] d'] eqn:E; [|discriminate Hok]. cbn [fst snd].
  rewrite (Append_conserves_tallies full None now0 io_ok (edit_event "c.go" "z") e w' d' "files" E);
    [vm_compute; reflexivity|reflexivity].
Defined.

Lemma reopen_restores_events_witness :
  exists w, Open "log" [2] (MkOpenIO true true true true) (snd run1) = Ok w /\
            w_events w = w_events (snd (fst run1)).
Proof.
  eexists. split; [|shelve].
  apply (reopen_restores_events "log" 2 (snd (fst run1)) (snd run1) "log").
  - split; [lia|vm_compute; congruence].
  - exact (rtc_once _ _ (step_run w0 None now0 io_ok (edit_event "a.go" "x") now0_reading)).
  - assert (Hw : w_events (snd (fst run1)) = [seal 1 now0 (Sanitize (edit_event "a.go" "x"))])
      by (vm_compute; reflexivity).
    rewrite Hw. constructor; [|constructor]. split; [vm_compute; reflexivity|].
    intros l Hl. assert (Hn : option_map (fun l => len l =? 65536) (Marshal (seal 1 now0 (Sanitize (edit_event "a.go" "x")))) = Some false)
      by (vm_compute; reflexivity).
    rewrite Hl in Hn. cbn [option_map] in Hn. intros E. unfold DefaultMaxEventBytes in E.
    rewrite E in Hn. discriminate.
  - reflexivity.
  Unshelve. reflexivity.
Defined.

Definition note_event : Event := edit_event "a.go" long_note.
Definition note_sealed : Event := seal 1 now0 (Sanitize note_event).
Definition note_codec : JsonCodec :=
  {| json_encode := fun _ => Some "{}"; json_decode := fun _ => Some (coerce_event (Sanitize note_sealed)) |}.

Lemma truncated_note_unreadable_witness :
  @Append _ note_codec w0 None now0 io_ok note_event =
    (Ok note_sealed, MkWriter "log" 2 [note_sealed], Some ("{}" ++ String newline EmptyString)) /\
  is_ok (@parseStrict _ note_codec ("{}" ++ String newline EmptyString)) = false.
Proof.
  assert (HA : @Append _ note_codec w0 None now0 io_ok note_event =
    (Ok note_sealed, MkWriter "log" 2 [note_sealed], Some ("{}" ++ String newline EmptyString)))
    by (vm_compute; reflexivity).
  split; [exact HA|].
  apply (@truncated_note_unreadable _ note_codec w0 None now0 io_ok note_event note_sealed
           (MkWriter "log" 2 [note_sealed])); [reflexivity|cbn; lia|reflexivity|exact HA|].
  intros l [= <-]. split; [|reflexivity]. repeat split; discriminate || reflexivity.
Defined.

Definition full_line : string := String.string_of_list_ascii (replicate (Z.to_nat 65536) "a"%char).
Definition full_codec : JsonCodec := {| json_encode := fun _ => Some full_line; json_decode := fun _ => None |}.

Lemma full_line_len : len full_line = 65536.
Proof. vm_compute. reflexivity. Qed.
Lemma full_line_flat : contains_char newline full_line = false.
Proof. vm_compute. reflexivity. Qed.

Lemma full_line_unreadable_witness :
  exists body, @writeAtomic full_codec io_ok [note_event] None = (Ok tt, Some body) /\
    @parseStrict _ full_codec body = Err EScan.
Proof.
  apply (@full_line_unreadable _ full_codec note_event full_line None io_ok);
    [reflexivity|apply full_line_len|apply full_line_flat|reflexivity].
Defined.
End LogRun.
