(* ===== verification/SessionPacket.v ===== *)
(** * sessionlog: continuation packets

    Models [services/brain/internal/sessionlog/packet.go]: folding an event
    stream into a bounded, resumable continuation, with per-tier byte budgets
    and the freshness and supersession rules. *)

From Stdlib Require Import Ascii String.
From S2P Require Import Prelude GoString Float64 Runtime SessionEvent.
Open Scope string_scope.
Open Scope Z_scope.

(** ** Data *)

Record ReadPointer := MkPointer {
  rp_Path : string;
  rp_Range : Range;
  rp_Symbol : string;
  rp_Freshness : string;
  rp_Tier : option BudgetTier
}.

Record FreshnessWarning := MkWarning {
  fw_Freshness : string; fw_Path : string; fw_Symbol : string; fw_Reason : string
}.
#[export] Instance FreshnessWarning_eq_dec : EqDecision FreshnessWarning.
Proof. solve_decision. Defined.

Record ContinuationOptions := MkOptions {
  o_Budgets : Budgets;
  o_IncludeSuperseded : bool;
  o_IncludeStale : bool;
  o_MaxQuestions : Z;
  o_MaxFailures : Z;
  o_MaxActions : Z;
  o_MaxReadRanges : Z
}.

Definition DefaultContinuationOptions : ContinuationOptions :=
  MkOptions (MkBudgets 4096 2048 1024 512) false false 16 16 16 64.

(** The packet under construction: the fields of [Continuation] the loop
    writes, the budget used and the set of pointers seen. *)
Record cont := MkCont {
  c_ReadRanges : list ReadPointer;
  c_ChangedFiles : list string;
  c_UnresolvedQuestions : list string;
  c_Failures : list string;
  c_NextActions : list string;
  c_FreshnessWarnings : list FreshnessWarning;
  c_Truncated : bool;
  c_Stale : bool;
  c_Superseded : bool;
  c_used : Budgets;
  c_seen : list (string * Z * Z)
}.

Record Continuation := MkContinuation {
  k_Schema : string;
  k_Base : Provenance;
  k_BuiltAt : string;
  k_SourceEvents : Z;
  k_Reserved : Budgets;
  k_cont : cont
}.

(** ** Building *)

(** Non-positive bounds fall back to the defaults. *)
Definition normalize (opts : ContinuationOptions) : ContinuationOptions :=
  let pos z d := if z <=? 0 then d else z in
  MkOptions (o_Budgets opts) (o_IncludeSuperseded opts) (o_IncludeStale opts)
    (pos (o_MaxQuestions opts) 16) (pos (o_MaxFailures opts) 16)
    (pos (o_MaxActions opts) 16) (pos (o_MaxReadRanges opts) 64).

Definition tier_get (t : BudgetTier) (b : Budgets) : Z :=
  match t with TierL0 => L0 b | TierL1 => L1 b | TierL2 => L2 b | TierL3 => L3 b end.

Definition tier_add (t : BudgetTier) (n : Z) (b : Budgets) : Budgets :=
  match t with
  | TierL0 => MkBudgets (L0 b + n) (L1 b) (L2 b) (L3 b)
  | TierL1 => MkBudgets (L0 b) (L1 b + n) (L2 b) (L3 b)
  | TierL2 => MkBudgets (L0 b) (L1 b) (L2 b + n) (L3 b)
  | TierL3 => MkBudgets (L0 b) (L1 b) (L2 b) (L3 b + n)
  end.

(** [addTier]: [None] when the reservation would be exceeded. *)
Definition addTier (reserved : Budgets) (t : BudgetTier) (bytes : Z) (used : Budgets) : option Budgets :=
  if (0 <? tier_get t reserved) && (tier_get t reserved <? tier_get t used + bytes)
  then None else Some (tier_add t bytes used).

Definition effective_freshness (ev : Event) : string :=
  if String.eqb (ev_Freshness ev) EmptyString then FreshnessAsOf else ev_Freshness ev.

Definition located (ev : Event) : bool :=
  negb (String.eqb (Path (ev_Provenance ev)) EmptyString)
  || negb (String.eqb (Symbol (ev_Provenance ev)) EmptyString).

Definition ptr_key (ev : Event) : string * Z * Z :=
  (Path (ev_Provenance ev), r_Start (PRange (ev_Provenance ev)), r_End (PRange (ev_Provenance ev))).

Definition pointer_bytes (path : string) : Z := len path + 32.

Definition set_warnings (c : cont) (w : list FreshnessWarning) : cont :=
  MkCont (c_ReadRanges c) (c_ChangedFiles c) (c_UnresolvedQuestions c) (c_Failures c) (c_NextActions c)
    w (c_Truncated c) (c_Stale c) (c_Superseded c) (c_used c) (c_seen c).

(** The read-pointer part of the loop body. *)
Definition add_pointer (opts : ContinuationOptions) (ev : Event) (fresh : string) (c : cont) : cont :=
  let p := ev_Provenance ev in
  let tier := tierFor fresh in
  if negb (String.eqb (Path p) EmptyString) && (Z.of_nat (length (c_ReadRanges c)) <? o_MaxReadRanges opts)
  then
    if bool_decide (ptr_key ev ∈ c_seen c) then c
    else match addTier (o_Budgets opts) tier (pointer_bytes (Path p)) (c_used c) with
         | None =>
             MkCont (c_ReadRanges c) (c_ChangedFiles c) (c_UnresolvedQuestions c) (c_Failures c)
               (c_NextActions c) (c_FreshnessWarnings c) true (c_Stale c) (c_Superseded c)
               (c_used c) (c_seen c)
         | Some used =>
             MkCont (c_ReadRanges c ++ [MkPointer (Path p) (PRange p) (Symbol p) fresh (Some tier)])%list
               (c_ChangedFiles c) (c_UnresolvedQuestions c) (c_Failures c) (c_NextActions c)
               (c_FreshnessWarnings c) (c_Truncated c) (c_Stale c) (c_Superseded c)
               used (ptr_key ev :: c_seen c)
         end
  else c.

(** The [switch ev.Kind]. *)
Definition add_by_kind (opts : ContinuationOptions) (ev : Event) (c : cont) : cont :=
  if bool_decide (ev_Kind ev = KindEdit \/ ev_Kind ev = KindRefresh) then
    if String.eqb (Path (ev_Provenance ev)) EmptyString then c
    else MkCont (c_ReadRanges c) (append_unique (c_ChangedFiles c) (Path (ev_Provenance ev)))
           (c_UnresolvedQuestions c) (c_Failures c) (c_NextActions c) (c_FreshnessWarnings c)
           (c_Truncated c) (c_Stale c) (c_Superseded c) (c_used c) (c_seen c)
  else if bool_decide (ev_Kind ev = KindFailure) then
    if negb (String.eqb (ev_FreeText ev) EmptyString)
       && (Z.of_nat (length (c_Failures c)) <? o_MaxFailures opts)
    then MkCont (c_ReadRanges c) (c_ChangedFiles c) (c_UnresolvedQuestions c)
           (c_Failures c ++ [ev_FreeText ev])%list (c_NextActions c) (c_FreshnessWarnings c)
           (c_Truncated c) (c_Stale c) (c_Superseded c) (c_used c) (c_seen c)
    else c
  else if bool_decide (ev_Kind ev = KindCompletion) then
    if negb (String.eqb (ev_FreeText ev) EmptyString)
       && (Z.of_nat (length (c_NextActions c)) <? o_MaxActions opts)
    then MkCont (c_ReadRanges c) (c_ChangedFiles c) (c_UnresolvedQuestions c) (c_Failures c)
           (c_NextActions c ++ [String.append "verify completion: " (ev_FreeText ev)])%list (c_FreshnessWarnings c)
           (c_Truncated c) (c_Stale c) (c_Superseded c) (c_used c) (c_seen c)
    else c
  else c.

Definition add_question (opts : ContinuationOptions) (qs : list string) (w : string) : list string :=
  if Z.of_nat (length qs) <? o_MaxQuestions opts then append_unique qs w else qs.

Definition add_questions (opts : ContinuationOptions) (ev : Event) (c : cont) : cont :=
  MkCont (c_ReadRanges c) (c_ChangedFiles c)
    (fold_left (add_question opts) (ev_CoverageWarnings ev) (c_UnresolvedQuestions c))
    (c_Failures c) (c_NextActions c) (c_FreshnessWarnings c) (c_Truncated c) (c_Stale c)
    (c_Superseded c) (c_used c) (c_seen c).

(** The freshness flags and disclosures of an admitted event. *)
Definition disclose (ev : Event) (fresh : string) (c : cont) : cont :=
  let p := ev_Provenance ev in
  let aged := bool_decide (fresh = FreshnessAsOf \/ fresh = FreshnessStale) in
  MkCont (c_ReadRanges c) (c_ChangedFiles c) (c_UnresolvedQuestions c) (c_Failures c) (c_NextActions c)
    (if aged && located ev
     then append_unique (c_FreshnessWarnings c) (MkWarning fresh (Path p) (Symbol p) EmptyString)
     else c_FreshnessWarnings c)
    (c_Truncated c) (c_Stale c || aged)
    (c_Superseded c || bool_decide (fresh = FreshnessSuperseded)) (c_used c) (c_seen c).

(** One iteration of the loop over [events]. *)
Definition cont_event (opts : ContinuationOptions) (c : cont) (ev : Event) : cont :=
  let p := ev_Provenance ev in
  let fresh := effective_freshness ev in
  if bool_decide (fresh = FreshnessSuperseded) && negb (o_IncludeSuperseded opts) then c
  else if bool_decide (fresh = FreshnessStale) && negb (o_IncludeStale opts) then
    if located ev
    then set_warnings c (append_unique (c_FreshnessWarnings c)
           (MkWarning FreshnessStale (Path p) (Symbol p) "excluded by default"))
    else c
  else add_questions opts ev (add_by_kind opts ev (add_pointer opts ev fresh (disclose ev fresh c))).

Definition pointer_lt : ReadPointer -> ReadPointer -> bool :=
  then_by rp_Path String.ltb
    (then_by (fun p => r_Start (rp_Range p)) Z.ltb
      (on_key (fun p => r_End (rp_Range p)) Z.ltb)).

Definition empty_cont : cont :=
  MkCont [] [] [] [] [] [] false false false (MkBudgets 0 0 0 0) [].

Definition finish_cont (c : cont) : cont :=
  MkCont (sort_by pointer_lt (c_ReadRanges c)) (sort_strings (c_ChangedFiles c))
    (sort_strings (c_UnresolvedQuestions c)) (sort_strings (c_Failures c)) (sort_strings (c_NextActions c))
    (c_FreshnessWarnings c) (c_Truncated c) (c_Stale c) (c_Superseded c) (c_used c) (c_seen c).

Definition BuildContinuation (events : list Event) (base : Provenance) (opts : ContinuationOptions)
    (now : string) : Continuation :=
  let opts := normalize opts in
  MkContinuation Schema base now (Z.of_nat (length events)) (o_Budgets opts)
    (finish_cont (fold_left (cont_event opts) events empty_cont)).

(** ** Freshness of a mark against digests *)

Definition Fresh (mark baseDigest observedDigest : string) : string :=
  let has s := negb (String.eqb s EmptyString) in
  if bool_decide (mark = FreshnessSuperseded) then FreshnessSuperseded
  else if bool_decide (mark = FreshnessTimeless) then FreshnessTimeless
  else if has baseDigest && has observedDigest && negb (String.eqb baseDigest observedDigest)
    then FreshnessStale
  else if bool_decide (mark = FreshnessPointer) && has baseDigest then
    if has observedDigest then FreshnessPointer else FreshnessAsOf
  else if has mark then mark else FreshnessAsOf.

(** ** Admission, the specification *)

(** An event contributes to the packet unless it is superseded or stale and the
    caller did not opt in. *)
Definition admitted (opts : ContinuationOptions) (ev : Event) : bool :=
  let fresh := effective_freshness ev in
  negb (bool_decide (fresh = FreshnessSuperseded) && negb (o_IncludeSuperseded opts))
  && negb (bool_decide (fresh = FreshnessStale) && negb (o_IncludeStale opts)).

Definition pointer_of (ev : Event) : ReadPointer :=
  let p := ev_Provenance ev in
  MkPointer (Path p) (PRange p) (Symbol p) (effective_freshness ev)
    (Some (tierFor (effective_freshness ev))).

Definition pointer_key (p : ReadPointer) : string * Z * Z :=
  (rp_Path p, r_Start (rp_Range p), r_End (rp_Range p)).

Definition tier_bytes (t : BudgetTier) (l : list ReadPointer) : Z :=
  sumZ (fun p => if bool_decide (rp_Tier p = Some t) then pointer_bytes (rp_Path p) else 0) l.

(** ** Invariant of the loop *)

Record cont_inv (opts : ContinuationOptions) (events : list Event) (c : cont) : Prop := {
  ci_used : forall t, tier_get t (c_used c) = tier_bytes t (c_ReadRanges c);
  ci_reserved : forall t, 0 < tier_get t (o_Budgets opts) ->
    tier_get t (c_used c) <= tier_get t (o_Budgets opts);
  ci_ranges : Z.of_nat (length (c_ReadRanges c)) <= Z.max 0 (o_MaxReadRanges opts);
  ci_failures : Z.of_nat (length (c_Failures c)) <= Z.max 0 (o_MaxFailures opts);
  ci_actions : Z.of_nat (length (c_NextActions c)) <= Z.max 0 (o_MaxActions opts);
  ci_questions : Z.of_nat (length (c_UnresolvedQuestions c)) <= Z.max 0 (o_MaxQuestions opts);
  ci_from : forall p, p ∈ c_ReadRanges c ->
    exists ev, ev ∈ events /\ admitted opts ev = true /\ p = pointer_of ev;
  ci_keys : NoDup (pointer_key <$> c_ReadRanges c);
  ci_seen : forall p, p ∈ c_ReadRanges c -> pointer_key p ∈ c_seen c;
  ci_superseded : c_Superseded c = true -> o_IncludeSuperseded opts = true;
  ci_stale : c_Stale c = existsb (fun ev => admitted opts ev &&
      bool_decide (effective_freshness ev = FreshnessAsOf \/ effective_freshness ev = FreshnessStale)) events
}.

Lemma tier_get_add t t' n b :
  tier_get t (tier_add t' n b) = tier_get t b + (if bool_decide (t' = t) then n else 0).
Proof. case_bool_decide; destruct t, t'; cbn; first [lia|congruence]. Qed.

Lemma tier_bytes_snoc t l p :
  tier_bytes t (l ++ [p])%list =
  tier_bytes t l + (if bool_decide (rp_Tier p = Some t) then pointer_bytes (rp_Path p) else 0).
Proof. unfold tier_bytes. rewrite sumZ_app. cbn. lia. Qed.

Lemma cont_inv_skip opts events c ev :
  admitted opts ev = false -> cont_inv opts events c -> cont_inv opts (events ++ [ev])%list c.
Proof.
  intros Ha [? ? ? ? ? ? Hf ? ? ? Hs]. split; try done.
  - intros p Hp. destruct (Hf p Hp) as (e & He & Hr). exists e. split; [|done].
    apply elem_of_app. by left.
  - rewrite existsb_app. cbn. by rewrite Ha, !orb_false_r.
Qed.

Lemma cont_inv_disclose opts events c ev :
  admitted opts ev = true -> cont_inv opts events c ->
  cont_inv opts (events ++ [ev])%list (disclose ev (effective_freshness ev) c).
Proof.
  intros Ha [? ? ? ? ? ? Hf ? ? Hsup Hs]. split; try done; cbn.
  - intros p Hp. destruct (Hf p Hp) as (e & He & Hr). exists e. split; [|done].
    apply elem_of_app. by left.
  - intros [?|Hx]%orb_true_iff; [by apply Hsup|]. unfold admitted in Ha. rewrite Hx in Ha.
    by destruct (o_IncludeSuperseded opts).
  - rewrite existsb_app, Hs. cbn. by rewrite Ha, orb_false_r.
Qed.

Lemma addTier_Some reserved t n used used' :
  addTier reserved t n used = Some used' ->
  used' = tier_add t n used /\ (0 < tier_get t reserved -> tier_get t used + n <= tier_get t reserved).
Proof.
  unfold addTier. destruct ((0 <? tier_get t reserved) && _) eqn:E; [done|]. intros [= <-].
  split; [done|]. intros Hp. apply andb_false_iff in E as [E|E]; bool_prop; lia.
Qed.

Lemma cont_inv_pointer opts events c ev :
  ev ∈ events -> admitted opts ev = true -> cont_inv opts events c ->
  cont_inv opts events (add_pointer opts ev (effective_freshness ev) c).
Proof.
  intros Hin Ha Hc. unfold add_pointer.
  destruct (negb _ && _) eqn:Eg; [|done]. apply andb_true_iff in Eg as [_ Hlt]. bool_prop.
  case_bool_decide as Hseen; [done|]. destruct Hc as [Hu Hres Hr ? ? ? Hf Hk Hsn ? ?].
  destruct (addTier _ _ _ _) as [used|] eqn:Ea; [|by split].
  apply addTier_Some in Ea as [-> Hfit].
  split; try done; cbn [c_used c_ReadRanges c_seen].
  - intros t. rewrite tier_get_add, tier_bytes_snoc, Hu. cbn [rp_Tier rp_Path]. f_equal.
    repeat case_bool_decide; congruence.
  - intros t Ht. rewrite tier_get_add. case_bool_decide as E; [subst t; lia|].
    pose proof (Hres t Ht). lia.
  - rewrite length_app. cbn. lia.
  - intros p [Hp|Hp%list_elem_of_singleton]%elem_of_app; [by apply Hf|]. exists ev. by subst.
  - rewrite fmap_app. apply NoDup_app. split_and!; [done| |apply NoDup_singleton].
    intros k (p & -> & Hp)%list_elem_of_fmap Hx. cbn in Hx. apply list_elem_of_singleton in Hx.
    apply Hseen. unfold ptr_key. apply Hsn in Hp. by rewrite Hx in Hp.
  - intros p [Hp|Hp%list_elem_of_singleton]%elem_of_app; [right; by apply Hsn|]. subst. left.
Qed.

Lemma cont_inv_kind opts events c ev :
  cont_inv opts events c -> cont_inv opts events (add_by_kind opts ev c).
Proof.
  intros Hc. unfold add_by_kind.
  repeat case_match; try done; destruct Hc; split; try done; cbn; rewrite length_app; cbn;
    match goal with E : _ && _ = true |- _ => apply andb_true_iff in E as [_ ?] end; bool_prop; lia.
Qed.

Lemma add_questions_len opts l qs :
  Z.of_nat (length qs) <= Z.max 0 (o_MaxQuestions opts) ->
  Z.of_nat (length (fold_left (add_question opts) l qs)) <= Z.max 0 (o_MaxQuestions opts).
Proof.
  revert qs. induction l as [|w l IH]; intros qs Hq; cbn; [done|]. apply IH. unfold add_question.
  destruct (Z.ltb_spec (Z.of_nat (length qs)) (o_MaxQuestions opts)); [|done].
  pose proof (length_append_unique qs w). lia.
Qed.

Lemma cont_inv_event opts events c ev :
  cont_inv opts events c -> cont_inv opts (events ++ [ev])%list (cont_event opts c ev).
Proof.
  intros Hc. unfold cont_event.
  destruct (bool_decide (_ = FreshnessSuperseded) && _) eqn:E1.
  { apply cont_inv_skip; [|done]. unfold admitted. by rewrite E1. }
  destruct (bool_decide (_ = FreshnessStale) && _) eqn:E2.
  { assert (Ha : admitted opts ev = false) by (unfold admitted; by rewrite E1, E2).
    pose proof (cont_inv_skip _ _ _ _ Ha Hc) as Hs. destruct (located ev); [|done].
    destruct Hs. by split. }
  assert (Ha : admitted opts ev = true) by (unfold admitted; by rewrite E1, E2).
  assert (Hk : cont_inv opts (events ++ [ev])%list
            (add_by_kind opts ev (add_pointer opts ev (effective_freshness ev)
               (disclose ev (effective_freshness ev) c)))).
  { apply cont_inv_kind, cont_inv_pointer; [apply elem_of_app; right; left|done|].
    by apply cont_inv_disclose. }
  destruct Hk. split; try done. by apply add_questions_len.
Qed.

Lemma cont_inv_fold opts events :
  cont_inv opts events (fold_left (cont_event opts) events empty_cont).
Proof.
  induction events as [|ev events IH] using rev_ind.
  - split; try done; cbn; try lia; [by intros []|intros [] ?; cbn in *; lia|by intros ? ?%elem_of_nil|
      constructor|by intros ? ?%elem_of_nil].
  - rewrite fold_left_app. cbn. by apply cont_inv_event.
Qed.

#[export] Instance pointer_lt_weak : StrictWeak pointer_lt.
Proof. unfold pointer_lt. apply _. Qed.

(** ** Properties *)

(** The packet stays within every bound it is given: the bytes accounted
    to a tier are exactly those of the pointers kept in that tier, they never
    exceed a positive reservation, and no list is longer than its cap. *)
Theorem continuation_within_budget events base opts now :
  let k := k_cont (BuildContinuation events base opts now) in
  let o := normalize opts in
  (forall t, tier_get t (c_used k) = tier_bytes t (c_ReadRanges k)) /\
  (forall t, 0 < tier_get t (o_Budgets opts) -> tier_bytes t (c_ReadRanges k) <= tier_get t (o_Budgets opts)) /\
  Z.of_nat (length (c_ReadRanges k)) <= o_MaxReadRanges o /\
  Z.of_nat (length (c_Failures k)) <= o_MaxFailures o /\
  Z.of_nat (length (c_NextActions k)) <= o_MaxActions o /\
  Z.of_nat (length (c_UnresolvedQuestions k)) <= o_MaxQuestions o.
Proof.
  cbv zeta. cbn [BuildContinuation k_cont finish_cont c_ReadRanges c_used c_Failures c_NextActions
    c_UnresolvedQuestions c_Superseded]. destruct (cont_inv_fold (normalize opts) events) as [Hu Hr ? ? ? ? _ _ _ _ _].
  set (c := fold_left _ _ _) in *.
  assert (Ht : forall t, tier_bytes t (sort_by pointer_lt (c_ReadRanges c)) = tier_bytes t (c_ReadRanges c)).
  { intros t. apply sumZ_perm, sort_by_perm. }
  unfold sort_strings. rewrite !length_sort_by.
  assert (Hpos : 0 < o_MaxReadRanges (normalize opts) /\ 0 < o_MaxFailures (normalize opts) /\
                 0 < o_MaxActions (normalize opts) /\ 0 < o_MaxQuestions (normalize opts)).
  { cbn. repeat match goal with |- context [?a <=? 0] => destruct (Z.leb_spec a 0) end; lia. }
  split_and!; try lia; intros t; rewrite Ht; [done|]. intros Hp. rewrite <- Hu. by apply Hr.
Qed.

(** Every pointer of the packet is the pointer of an admitted event,
    superseded or stale content appears only when asked for, no source range
    is listed twice, and the list is in (path, start, end) order, so the packet
    does not depend on how the sort breaks ties. *)
Theorem continuation_pointers_sound events base opts now :
  let k := k_cont (BuildContinuation events base opts now) in
  (forall p, p ∈ c_ReadRanges k -> exists ev, ev ∈ events /\ p = pointer_of ev /\
     (rp_Freshness p = FreshnessSuperseded -> o_IncludeSuperseded opts = true) /\
     (rp_Freshness p = FreshnessStale -> o_IncludeStale opts = true)) /\
  NoDup (pointer_key <$> c_ReadRanges k) /\
  StronglySorted (not_after pointer_lt) (c_ReadRanges k) /\
  (c_Superseded k = true -> o_IncludeSuperseded opts = true).
Proof.
  cbv zeta. cbn [BuildContinuation k_cont finish_cont c_ReadRanges c_used c_Failures c_NextActions
    c_UnresolvedQuestions c_Superseded]. destruct (cont_inv_fold (normalize opts) events) as [_ _ _ _ _ _ Hf Hk _ Hs _].
  set (c := fold_left _ _ _) in *. split_and!; [|by rewrite sort_by_perm|apply sort_by_sorted, _|done].
  intros p. rewrite elem_of_sort_by. intros (ev & He & Ha & ->)%Hf. exists ev. split_and!; [done..| |];
    cbn; intros Hx; unfold admitted in Ha; rewrite Hx in Ha; cbn in Ha.
  - by destruct (o_IncludeSuperseded opts).
  - by destruct (o_IncludeStale opts).
Qed.
