(* ===== verification/SessionSummary.v ===== *)
(** * sessionlog: the summary projection and its rebuild

    Models [services/brain/internal/sessionlog/summary.go]: the builder that
    folds one event at a time, its finalisation, and [Rebuild], the replay of a
    persisted stream. *)

From Stdlib Require Import Ascii String.
From S2P Require Import Prelude GoString Float64 Runtime SessionEvent SessionLog SessionDurability SessionPacket.
Open Scope string_scope.
Open Scope Z_scope.

Record Summary := MkSummary {
  su_Session : string;
  su_EventCounts : gmap string Z;
  su_Totals : gmap string Z;
  su_ReadRanges : list ReadPointer;
  su_ChangedFiles : list string;
  su_Failures : list string;
  su_CoverageWarnings : list string;
  su_LastFreshness : string;
  su_Started : bool;
  su_Completed : bool;
  su_FirstTime : string;
  su_LastTime : string
}.

Record summaryBuilder := MkBuilder {
  sb_s : Summary;
  sb_readRangeSet : list (string * Range);
  sb_changedSet : list string
}.

Definition maxSummaryFailures : Z := 64.
Definition maxSummaryWarnings : Z := 64.

Definition newSummaryBuilder : summaryBuilder :=
  MkBuilder (MkSummary "" ∅ ∅ [] [] [] [] "" false false "" "") [] [].

Definition add_totals (m counts : gmap string Z) : gmap string Z :=
  fold_left (fun m kv => bump m (fst kv) (snd kv)) (map_to_list counts) m.

Definition add_warning (ws : list string) (w : string) : list string :=
  if Z.of_nat (length ws) <? maxSummaryWarnings then (ws ++ [w])%list else ws.

(** [summaryBuilder.Apply]; it never fails. *)
Definition summary_apply (b : summaryBuilder) (ev : Event) : summaryBuilder :=
  let s := sb_s b in
  let p := ev_Provenance ev in
  let has x := negb (String.eqb x EmptyString) in
  let newRange := has (Path p) && negb (bool_decide (PRange p = MkRange 0 0))
                  && negb (bool_decide ((Path p, PRange p) ∈ sb_readRangeSet b)) in
  let editing := bool_decide (ev_Kind ev = KindEdit \/ ev_Kind ev = KindRefresh) in
  let newChange := editing && has (Path p) && negb (bool_decide (Path p ∈ sb_changedSet b)) in
  {| sb_s := {|
       su_Session := if has (su_Session s) then su_Session s else ev_Session ev;
       su_FirstTime :=
         if negb (has (su_FirstTime s)) || (has (ev_Time ev) && String.ltb (ev_Time ev) (su_FirstTime s))
         then ev_Time ev else su_FirstTime s;
       su_LastTime := if String.ltb (su_LastTime s) (ev_Time ev) then ev_Time ev else su_LastTime s;
       su_EventCounts := bump (su_EventCounts s) (ev_Kind ev) 1;
       su_Totals := add_totals (su_Totals s) (ev_Counts ev);
       su_ReadRanges :=
         if newRange then (su_ReadRanges s ++ [MkPointer (Path p) (PRange p) "" "" None])%list
         else su_ReadRanges s;
       su_ChangedFiles := if newChange then (su_ChangedFiles s ++ [Path p])%list else su_ChangedFiles s;
       su_Failures :=
         if bool_decide (ev_Kind ev = KindFailure) && has (ev_FreeText ev)
            && (Z.of_nat (length (su_Failures s)) <? maxSummaryFailures)
         then (su_Failures s ++ [ev_FreeText ev])%list else su_Failures s;
       su_Started := su_Started s || bool_decide (ev_Kind ev = KindTaskStart);
       su_Completed := su_Completed s || bool_decide (ev_Kind ev = KindCompletion);
       su_CoverageWarnings := fold_left add_warning (ev_CoverageWarnings ev) (su_CoverageWarnings s);
       su_LastFreshness :=
         if negb (bool_decide (ev_Kind ev = KindCompaction)) && has (ev_Freshness ev)
         then ev_Freshness ev else su_LastFreshness s |};
     sb_readRangeSet := if newRange then (Path p, PRange p) :: sb_readRangeSet b else sb_readRangeSet b;
     sb_changedSet := if newChange then Path p :: sb_changedSet b else sb_changedSet b |}.

Definition finalize (b : summaryBuilder) : Summary :=
  let s := sb_s b in
  {| su_Session := su_Session s;
     su_EventCounts := canonicalCounts (su_EventCounts s);
     su_Totals := canonicalCounts (su_Totals s);
     su_ReadRanges := sort_by pointer_lt (su_ReadRanges s);
     su_ChangedFiles := sort_strings (su_ChangedFiles s);
     su_Failures := su_Failures s;
     su_CoverageWarnings := sort_strings (su_CoverageWarnings s);
     su_LastFreshness := su_LastFreshness s;
     su_Started := su_Started s; su_Completed := su_Completed s;
     su_FirstTime := su_FirstTime s; su_LastTime := su_LastTime s |}.

Section rebuild.
Context `{GoRuntime}.

Definition Rebuild (events : list Event) : result log_error Summary :=
  match Replay events (fun b ev => Some (summary_apply b ev)) newSummaryBuilder with
  | (Err e, _) => Err e
  | (Ok _, b) => Ok (finalize b)
  end.

(** The projection kept live: one [Apply] per event. *)
Definition live (events : list Event) : summaryBuilder := fold_left summary_apply events newSummaryBuilder.

(** ** Lemmas *)

Lemma replay_from_ok {S} i (f : S -> Event -> S) events s :
  Forall (fun e => Event_Validate e = Ok tt) events ->
  replay_from i (fun s ev => Some (f s ev)) events s = (Ok tt, fold_left f events s).
Proof.
  intros Hv. revert i s. induction Hv as [|e l He Hl IH]; intros i s; cbn; [done|]. by rewrite He.
Qed.

Lemma replay_from_bad {S} i (f : S -> Event -> S) good bad e rest s :
  Forall (fun e => Event_Validate e = Ok tt) good -> Event_Validate bad = Err e ->
  replay_from i (fun s ev => Some (f s ev)) (good ++ bad :: rest)%list s =
    (Err (EReplayInvalid (i + length good) e), fold_left f good s).
Proof.
  intros Hv Hb. revert i s. induction Hv as [|x l He Hl IH]; intros i s; cbn.
  - by rewrite Hb, Nat.add_0_r.
  - rewrite He, IH. by rewrite Nat.add_succ_r.
Qed.

(** What the builder holds after the events seen so far: unique, faithful and
    bounded projections. *)
Definition reads (ev : Event) (p : ReadPointer) : Prop :=
  Path (ev_Provenance ev) <> EmptyString /\ PRange (ev_Provenance ev) <> MkRange 0 0 /\
  p = MkPointer (Path (ev_Provenance ev)) (PRange (ev_Provenance ev)) "" "" None.

Definition changes (ev : Event) (q : string) : Prop :=
  q <> EmptyString /\ Path (ev_Provenance ev) = q /\ (ev_Kind ev = KindEdit \/ ev_Kind ev = KindRefresh).

Definition of_kind (k : string) (ev : Event) : Z := if bool_decide (ev_Kind ev = k) then 1 else 0.

Record summary_inv (events : list Event) (b : summaryBuilder) : Prop := {
  si_ranges : NoDup (su_ReadRanges (sb_s b));
  si_range_set : forall p, p ∈ su_ReadRanges (sb_s b) ->
    p = MkPointer (rp_Path p) (rp_Range p) "" "" None /\ (rp_Path p, rp_Range p) ∈ sb_readRangeSet b;
  si_range_mem : forall q r, (q, r) ∈ sb_readRangeSet b -> MkPointer q r "" "" None ∈ su_ReadRanges (sb_s b);
  si_range_spec : forall p, p ∈ su_ReadRanges (sb_s b) <-> exists ev, ev ∈ events /\ reads ev p;
  si_changed : NoDup (su_ChangedFiles (sb_s b));
  si_changed_set : forall q, q ∈ sb_changedSet b <-> q ∈ su_ChangedFiles (sb_s b);
  si_changed_spec : forall q, q ∈ su_ChangedFiles (sb_s b) <-> exists ev, ev ∈ events /\ changes ev q;
  si_counts : forall k, wrap64 (get_count (su_EventCounts (sb_s b)) k) = wrap64 (sumZ (of_kind k) events);
  si_totals : forall k, wrap64 (get_count (su_Totals (sb_s b)) k) =
    wrap64 (sumZ (fun ev => get_count (ev_Counts ev) k) events);
  si_failures : Z.of_nat (length (su_Failures (sb_s b))) <= maxSummaryFailures;
  si_warnings : Z.of_nat (length (su_CoverageWarnings (sb_s b))) <= maxSummaryWarnings;
  si_started : su_Started (sb_s b) = existsb (fun ev => bool_decide (ev_Kind ev = KindTaskStart)) events;
  si_completed : su_Completed (sb_s b) = existsb (fun ev => bool_decide (ev_Kind ev = KindCompletion)) events
}.

Lemma add_warnings_len l ws :
  Z.of_nat (length ws) <= maxSummaryWarnings ->
  Z.of_nat (length (fold_left add_warning l ws)) <= maxSummaryWarnings.
Proof.
  revert ws. induction l as [|w l IH]; intros ws Hw; cbn; [done|]. apply IH. unfold add_warning.
  destruct (Z.ltb_spec (Z.of_nat (length ws)) maxSummaryWarnings); [|done].
  rewrite length_app. cbn. lia.
Qed.

Lemma exists_snoc (P : Event -> Prop) events ev :
  (exists e, e ∈ (events ++ [ev])%list /\ P e) <-> (exists e, e ∈ events /\ P e) \/ P ev.
Proof. setoid_rewrite elem_of_app. setoid_rewrite list_elem_of_singleton. naive_solver. Qed.

Lemma has_iff x : negb (String.eqb x EmptyString) = true <-> x <> EmptyString.
Proof. rewrite negb_true_iff, String.eqb_neq. done. Qed.

(** The two set-backed projections grow in the same way: what is new is appended,
    what is known is dropped. *)
Lemma grow_unique {A} (l : list A) (add : bool) x (P : Prop) :
  NoDup l -> (add = true -> x ∉ l /\ P) -> (add = false -> P -> x ∈ l) ->
  let l' := if add then (l ++ [x])%list else l in
  NoDup l' /\ forall y, y ∈ l' <-> y ∈ l \/ (P /\ y = x).
Proof.
  intros Hl Ht Hf. destruct add; cbn.
  - destruct (Ht eq_refl) as [Hx HP]. split.
    + apply NoDup_app. split_and!; [done| |by apply NoDup_singleton].
      intros y Hy ->%list_elem_of_singleton. done.
    + intros y. rewrite elem_of_app, list_elem_of_singleton. naive_solver.
  - split; [done|]. intros y. specialize (Hf eq_refl). naive_solver.
Qed.

Lemma summary_inv_ranges events b ev :
  summary_inv events b ->
  let b' := summary_apply b ev in
  NoDup (su_ReadRanges (sb_s b')) /\
  (forall p, p ∈ su_ReadRanges (sb_s b') ->
     p = MkPointer (rp_Path p) (rp_Range p) "" "" None /\ (rp_Path p, rp_Range p) ∈ sb_readRangeSet b') /\
  (forall q r, (q, r) ∈ sb_readRangeSet b' -> MkPointer q r "" "" None ∈ su_ReadRanges (sb_s b')) /\
  (forall p, p ∈ su_ReadRanges (sb_s b') <-> exists e, e ∈ (events ++ [ev])%list /\ reads e p).
Proof.
  intros HI. cbv zeta. cbn [summary_apply sb_s su_ReadRanges sb_readRangeSet].
  set (q := Path (ev_Provenance ev)). set (r := PRange (ev_Provenance ev)).
  set (add := _ && _ && _).
  assert (Hadd : add = true <-> q <> EmptyString /\ r <> MkRange 0 0 /\ (q, r) ∉ sb_readRangeSet b).
  { unfold add. rewrite !andb_true_iff, has_iff, !negb_true_iff, !bool_decide_eq_false. naive_solver. }
  destruct (grow_unique (su_ReadRanges (sb_s b)) add (MkPointer q r "" "" None)
              (q <> EmptyString /\ r <> MkRange 0 0)) as [Hn He].
  - apply (si_ranges _ _ HI).
  - intros (? & ? & Hq)%Hadd. split; [|done]. intros Hin. apply Hq. apply (si_range_set _ _ HI _ Hin).
  - intros Ha [? ?]. apply (si_range_mem _ _ HI). destruct (decide ((q, r) ∈ sb_readRangeSet b)); [done|].
    by assert (add = true) by (apply Hadd; done); congruence.
  - split_and!; [exact Hn| | |].
    + intros p. destruct add; [|apply (si_range_set _ _ HI)].
      intros [Hp| ->%list_elem_of_singleton]%elem_of_app; [|set_solver].
      destruct (si_range_set _ _ HI _ Hp). set_solver.
    + intros q' r'. destruct add; [|apply (si_range_mem _ _ HI)].
      intros [[= -> ->]|Hq]%elem_of_cons; [set_solver|].
      apply elem_of_app; left. by apply (si_range_mem _ _ HI).
    + intros p. rewrite He, exists_snoc, (si_range_spec _ _ HI). unfold reads. fold q r. naive_solver.
Qed.

Lemma summary_inv_changed events b ev :
  summary_inv events b ->
  let b' := summary_apply b ev in
  NoDup (su_ChangedFiles (sb_s b')) /\
  (forall q, q ∈ sb_changedSet b' <-> q ∈ su_ChangedFiles (sb_s b')) /\
  (forall q, q ∈ su_ChangedFiles (sb_s b') <-> exists e, e ∈ (events ++ [ev])%list /\ changes e q).
Proof.
  intros HI. cbv zeta. cbn [summary_apply sb_s su_ChangedFiles sb_changedSet].
  set (q := Path (ev_Provenance ev)). set (add := _ && _ && _).
  assert (Hadd : add = true <-> changes ev q /\ q ∉ su_ChangedFiles (sb_s b)).
  { unfold add, changes. fold q. rewrite !andb_true_iff, has_iff, negb_true_iff, bool_decide_eq_false, bool_decide_eq_true.
    rewrite (si_changed_set _ _ HI). naive_solver. }
  destruct (grow_unique (su_ChangedFiles (sb_s b)) add q (changes ev q)) as [Hn He].
  - apply (si_changed _ _ HI).
  - intros [? ?]%Hadd. done.
  - intros Ha Hc. destruct (decide (q ∈ su_ChangedFiles (sb_s b))); [done|].
    by assert (add = true) by (apply Hadd; done); congruence.
  - split_and!; [exact Hn| |].
    + intros p. pose proof (si_changed_set _ _ HI p). destruct add; set_solver.
    + intros p. rewrite He, exists_snoc, (si_changed_spec _ _ HI). unfold changes. fold q. naive_solver.
Qed.

Lemma summary_inv_apply events b ev :
  summary_inv events b -> summary_inv (events ++ [ev])%list (summary_apply b ev).
Proof.
  intros HI. pose proof (summary_inv_ranges _ _ ev HI) as (? & ? & ? & ?).
  pose proof (summary_inv_changed _ _ ev HI) as (? & ? & ?).
  constructor; try done; cbn [summary_apply sb_s su_EventCounts su_Totals su_Failures su_CoverageWarnings
    su_Started su_Completed].
  - intros k. rewrite wrap_bump, sumZ_app, <- wrap64_add_l, (si_counts _ _ HI), wrap64_add_l.
    f_equal. cbn. unfold of_kind. lia.
  - intros k. unfold add_totals.
    rewrite wrap_bump_list, sum_pairs, sumZ_app, <- wrap64_add_l, (si_totals _ _ HI), wrap64_add_l.
    f_equal. cbn. lia.
  - pose proof (si_failures _ _ HI). destruct (Z.ltb_spec (Z.of_nat (length (su_Failures (sb_s b)))) maxSummaryFailures);
      [|by rewrite andb_false_r].
    destruct (_ && _ && _); [|done]. rewrite length_app. cbn. lia.
  - apply add_warnings_len, (si_warnings _ _ HI).
  - rewrite existsb_app, (si_started _ _ HI). cbn. by rewrite orb_false_r.
  - rewrite existsb_app, (si_completed _ _ HI). cbn. by rewrite orb_false_r.
Qed.

Lemma summary_inv_live events : summary_inv events (live events).
Proof.
  unfold live. induction events as [|ev events IH] using rev_ind.
  - constructor; cbn; try done; try (intros; set_solver); try apply NoDup_nil_2; intros; split; set_solver.
  - rewrite fold_left_app. by apply summary_inv_apply.
Qed.

Lemma Rebuild_valid events :
  Forall (fun e => Event_Validate e = Ok tt) events -> Rebuild events = Ok (finalize (live events)).
Proof. intros Hv. unfold Rebuild, Replay, live. by rewrite replay_from_ok. Qed.

Lemma first_invalid events :
  Forall (fun e => Event_Validate e = Ok tt) events \/
  exists good bad e rest, events = (good ++ bad :: rest)%list /\
    Forall (fun e => Event_Validate e = Ok tt) good /\ Event_Validate bad = Err e.
Proof.
  induction events as [|ev events IH]; [left; constructor|].
  destruct (Event_Validate ev) as [[]|e] eqn:Ev; [|right; exists [], ev, e, events; split_and!; [done|constructor|done]].
  destruct IH as [IH|(g & b & e & r & -> & Hg & Hb)]; [left; by constructor|].
  right. exists (ev :: g), b, e, r. split_and!; [done|by constructor|done].
Qed.

(** ** Properties *)

(** [Rebuild] is total and exact. On a stream whose events all validate it
    returns the projection of that stream: per-kind counts and totals are the
    sums over the events ([int64]), the changed files are exactly the edited or
    refreshed paths, the read ranges exactly the located ranges, each once and
    in order, the lifecycle flags say whether such an event occurred, and the
    note lists stay within their bounds. Otherwise it reports the index and the
    error of the first invalid event. *)
Theorem Rebuild_projects events :
  match Rebuild events with
  | Ok s =>
      Forall (fun e => Event_Validate e = Ok tt) events /\
      (forall k, wrap64 (get_count (su_EventCounts s) k) = wrap64 (sumZ (of_kind k) events)) /\
      (forall k, wrap64 (get_count (su_Totals s) k) = wrap64 (sumZ (fun ev => get_count (ev_Counts ev) k) events)) /\
      NoDup (su_ChangedFiles s) /\ StronglySorted (not_after String.ltb) (su_ChangedFiles s) /\
      (forall q, q ∈ su_ChangedFiles s <-> exists ev, ev ∈ events /\ changes ev q) /\
      NoDup (su_ReadRanges s) /\ StronglySorted (not_after pointer_lt) (su_ReadRanges s) /\
      (forall p, p ∈ su_ReadRanges s <-> exists ev, ev ∈ events /\ reads ev p) /\
      su_Started s = existsb (fun ev => bool_decide (ev_Kind ev = KindTaskStart)) events /\
      su_Completed s = existsb (fun ev => bool_decide (ev_Kind ev = KindCompletion)) events /\
      Z.of_nat (length (su_Failures s)) <= maxSummaryFailures /\
      Z.of_nat (length (su_CoverageWarnings s)) <= maxSummaryWarnings
  | Err x =>
      exists good bad e rest, events = (good ++ bad :: rest)%list /\
        Forall (fun e => Event_Validate e = Ok tt) good /\ Event_Validate bad = Err e /\
        x = EReplayInvalid (length good) e
  end.
Proof.
  destruct (first_invalid events) as [Hv|(g & b & e & r & -> & Hg & Hb)].
  - rewrite Rebuild_valid by done. destruct (summary_inv_live events).
    unfold finalize; cbn; unfold sort_strings. rewrite !canonicalCounts_id.
    split_and!; try done; try apply sort_by_NoDup; try (apply sort_by_sorted, _); try done.
    + intros q. by rewrite elem_of_sort_by.
    + intros q. by rewrite elem_of_sort_by.
    + by rewrite length_sort_by.
  - unfold Rebuild, Replay. rewrite (replay_from_bad _ _ g b e r) by done. by exists g, b, e, r.
Qed.

Context `{JsonCodec}.

(** The live projection agrees with the replayed one while nothing is
    folded: for a reachable writer below its bound, applying the event [Append]
    returns to the live builder and finalising gives what [Rebuild] computes
    from the new log. *)
Theorem live_summary_matches_log dir m w disk now io ev sealed w' disk' :
  1 <= m -> reachable (fresh_writer dir m) (w, disk) -> clock_reading now ->
  Append w disk now io ev = (Ok sealed, w', disk') ->
  Z.of_nat (length (w_events w)) < m ->
  Rebuild (w_events w') = Ok (finalize (summary_apply (live (w_events w)) sealed)).
Proof.
  intros Hm Hr Hc HA Hl.
  assert (Hi : log_inv w' disk').
  { eapply log_inv_step; [by eapply log_inv_reachable|]. by eapply step_append. }
  pose proof (reachable_max _ _ _ _ Hr) as Hmax.
  rewrite Rebuild_valid by (eapply Forall_impl; [exact (inv_wf _ _ Hi)|]; by intros ? [? _]).
  apply Append_cases in HA as [(e & ? & _)|(s & [= <-] & _ & _ & -> & _ & Hlast)]; [done|].
  cbn [w_events] in *. unfold compact in *. rewrite length_app in *. cbn [length] in *.
  destruct (Z.ltb_spec (w_maxEvents w) (Z.of_nat (length (w_events w) + 1))); [lia|].
  rewrite last_snoc in Hlast. injection Hlast as <-. unfold live. by rewrite fold_left_app.
Qed.
End rebuild.

Module SummaryRun.
Import DemoCodec LogRun.
Existing Instance demo_runtime.
Existing Instance demo_codec.

(** The documented equality of the live and the rebuilt summary does not
    survive a fold: after three edits under a bound of two events the live
    summary names the three files and the rebuilt one only the last. *)
Theorem fold_loses_changed_files :
  exists e1 e2 e3,
    fst (fst run1) = Ok e1 /\ fst (fst run2) = Ok e2 /\ fst (fst run3) = Ok e3 /\
    su_ChangedFiles (finalize (live [e1; e2; e3])) = ["a.go"; "b.go"; "c.go"] /\
    exists s, Rebuild (w_events (snd (fst run3))) = Ok s /\ su_ChangedFiles s = ["c.go"].
Proof.
  do 3 eexists. split; [vm_compute; reflexivity|]. split; [vm_compute; reflexivity|].
  split; [vm_compute; reflexivity|]. split; [vm_compute; reflexivity|].
  eexists. split; vm_compute; reflexivity.
Qed.

#[local] Strategy expand [run1 run2 run3].

Lemma run1_live :
  match fst (fst run1) with
  | Ok e => su_ChangedFiles (finalize (summary_apply (live (w_events w0)) e)) = ["a.go"]
  | Err _ => True
  end.
Proof. vm_compute. reflexivity. Qed.

Lemma live_summary_matches_log_witness :
  exists s, Rebuild (w_events (snd (fst run1))) = Ok s /\ su_ChangedFiles s = ["a.go"].
Proof.
  pose proof run1_ok as Hok. pose proof run1_live as Hs.
  destruct run1 as [[[e|er] w'] d'] eqn:E; [|discriminate Hok]. cbn [fst snd] in *.
  exists (finalize (summary_apply (live (w_events w0)) e)). split; [|exact Hs].
  refine (live_summary_matches_log "log" 2 w0 None now0 io_ok (edit_event "a.go" "x") e w' d' _ _ now0_reading E _).
  - lia.
  - apply rtc_refl.
  - reflexivity.
Defined.
End SummaryRun.
