(* ===== verification/SessionRecall.v ===== *)
(** * sessionlog: bounded recall with abstention

    Models [services/brain/internal/sessionlog/recall.go].  [sort.Slice] leaves
    the order of elements its comparator does not separate open; the model
    takes the stable one, and no property depends on that choice. *)

From Stdlib Require Import Ascii String SpecFloat.
From S2P Require Import Prelude GoString Float64 Runtime SessionEvent SessionPacket.
Open Scope string_scope.
Open Scope Z_scope.

Definition MaxRecallResults : Z := 50.

Record RecallOptions := MkRecallOptions {
  ro_MinConfidence : f64;
  ro_MinRelevance : f64;
  ro_TopK : Z;
  ro_IncludeSuperseded : bool
}.

Definition DefaultRecallOptions : RecallOptions := MkRecallOptions (f_dec 5 10) (f_dec 35 100) 12 false.

Record Memory := MkMemory {
  me_EventID : string;
  me_Kind : string;
  me_Provenance : Provenance;
  me_Freshness : string;
  me_Confidence : f64;
  me_Relevance : f64;
  me_FreeText : string
}.

(** The two texts [Reason] can hold; the second prints the thresholds. *)
Inductive recall_reason :=
| NoReason
| EmptyQuery
| NothingAbove (confidence relevance : f64).

Record RecallResult := MkRecallResult {
  rr_Memories : list Memory;
  rr_Abstained : bool;
  rr_Reason : recall_reason
}.

Definition recallableProvenance (p : Provenance) : bool :=
  let hasSource := negb (blank (Repository p)) || negb (blank (Tree p)) in
  let hasLocator := negb (blank (Path p)) || negb (blank (Symbol p)) || negb (blank (Handle p)) in
  hasSource && hasLocator.

Definition token_sep (c : ascii) : bool :=
  bool_decide (c ∈ [" "; "009"; "/"; "."; "_"; "-"]%char).

Definition tokenize (s : string) : list string :=
  List.filter (fun f => negb (String.eqb f EmptyString)) (fields_func token_sep s).

Definition maxf (a b : f64) : f64 := if f_ltb b a then a else b.

Section recall.
Context `{GoRuntime}.

Definition relevance (ev : Event) (q : string) : f64 :=
  let p := ev_Provenance ev in
  let symbol := to_lower (Symbol p) in
  let path := to_lower (Path p) in
  let handle := to_lower (Handle p) in
  let text := to_lower (ev_FreeText ev) in
  let hit s := negb (String.eqb s EmptyString) && contains q s in
  if String.eqb symbol q then f_one
  else
    let best := f_zero in
    let best := if hit symbol then maxf best (f_dec 9 10) else best in
    let best := if hit path then maxf best (f_dec 6 10) else best in
    let best := if hit handle then maxf best (f_dec 5 10) else best in
    let best := if hit text then maxf best (f_dec 4 10) else best in
    let qTokens := tokenize q in
    if 1 <? Z.of_nat (length qTokens) then
      let hayTokens := tokenize (symbol ++ " " ++ path ++ " " ++ handle ++ " " ++ text) in
      let hits := length (List.filter (fun t => bool_decide (t ∈ hayTokens)) qTokens) in
      let coverage := f_div (f_of_Z (Z.of_nat hits)) (f_of_Z (Z.of_nat (length qTokens))) in
      maxf best (f_mul (f_dec 3 10) coverage)
    else best.

(** The confidence used: an unset one counts as low. *)
Definition recall_confidence (p : Provenance) : f64 :=
  if f_eqb (Confidence p) f_zero then f_dec 25 100 else Confidence p.

(** The loop body: the memory an event contributes, if it is admitted. *)
Definition candidate (opts : RecallOptions) (q : string) (ev : Event) : option Memory :=
  let fresh := effective_freshness ev in
  let rel := relevance ev q in
  let conf := recall_confidence (ev_Provenance ev) in
  if bool_decide (fresh = FreshnessSuperseded) && negb (ro_IncludeSuperseded opts) then None
  else if negb (recallableProvenance (ev_Provenance ev)) then None
  else if f_ltb rel (ro_MinRelevance opts) then None
  else if f_ltb conf (ro_MinConfidence opts) then None
  else Some {| me_EventID := ev_ID ev; me_Kind := ev_Kind ev; me_Provenance := ev_Provenance ev;
               me_Freshness := fresh; me_Confidence := conf; me_Relevance := rel;
               me_FreeText := ev_FreeText ev |}.

Definition memory_lt (a b : Memory) : bool :=
  if negb (f_eqb (me_Relevance a) (me_Relevance b)) then f_ltb (me_Relevance b) (me_Relevance a)
  else String.ltb (me_EventID a) (me_EventID b).

Definition top_k (opts : RecallOptions) : Z :=
  let k := if ro_TopK opts <=? 0 then ro_TopK DefaultRecallOptions else ro_TopK opts in
  if MaxRecallResults <? k then MaxRecallResults else k.

Definition Recall (events : list Event) (query : string) (opts : RecallOptions) : RecallResult :=
  let q := to_lower (trim_space query) in
  if String.eqb q EmptyString then MkRecallResult [] true EmptyQuery
  else
    let scored := omap (candidate opts q) events in
    match scored with
    | [] => MkRecallResult [] true (NothingAbove (ro_MinConfidence opts) (ro_MinRelevance opts))
    | _ =>
        let sorted := sort_by memory_lt scored in
        MkRecallResult
          (if top_k opts <? Z.of_nat (length sorted) then take (Z.to_nat (top_k opts)) sorted else sorted)
          false NoReason
    end.

(** ** Lemmas *)

Lemma f_nan_maxf a b : f_nan a = false -> f_nan b = false -> f_nan (maxf a b) = false.
Proof. unfold maxf. by destruct (f_ltb b a). Qed.

Lemma f_nan_best (c : bool) a b : f_nan a = false -> f_nan b = false -> f_nan (if c then maxf a b else a) = false.
Proof. intros. destruct c; [by apply f_nan_maxf|done]. Qed.

Lemma relevance_not_nan ev q :
  Z.of_nat (length (tokenize q)) < 2 ^ 63 -> f_nan (relevance ev q) = false.
Proof.
  intros Hq. unfold relevance. cbv zeta. destruct (String.eqb _ q); [done|].
  destruct (Z.ltb_spec 1 (Z.of_nat (length (tokenize q)))) as [Hn|_];
    [apply f_nan_maxf|]; repeat (apply f_nan_best; [|done]); try done.
  change (f_dec 3 10) with (S754_finite false 5404319552844595 (-54)).
  apply f_mul_not_nan. set (hits := length (List.filter _ _)).
  assert (Hh : (hits <= length (tokenize q))%nat) by apply filter_length_le.
  destruct (f_of_Z_finite (Z.of_nat (length (tokenize q)))) as (m & e & ->); [lia|].
  apply f_div_not_nan. destruct (decide (hits = 0%nat)) as [->|]; [done|].
  destruct (f_of_Z_finite (Z.of_nat hits)) as (m' & e' & ->); [lia|done].
Qed.

(** The comparator, as an order on ranks. *)
Definition memory_rank_lt : Memory -> Memory -> bool :=
  then_by (fun m => f_rank (me_Relevance m)) (fun a b => rank_lt b a) (on_key me_EventID String.ltb).

#[export] Instance rank_gt_total : StrictTotal (fun a b => rank_lt b a).
Proof.
  split.
  - intros a. apply st_irrefl.
  - intros a b c Hab Hbc. by eapply st_trans.
  - intros a b Hab Hba. by apply (st_total (lt := rank_lt)).
Qed.

#[export] Instance memory_rank_lt_weak : StrictWeak memory_rank_lt.
Proof. unfold memory_rank_lt. apply _. Qed.

Lemma memory_lt_rank a b :
  f_nan (me_Relevance a) = false -> f_nan (me_Relevance b) = false -> memory_lt a b = memory_rank_lt a b.
Proof.
  intros Ha Hb. unfold memory_lt, memory_rank_lt, then_by, on_key.
  rewrite f_eqb_rank, f_ltb_rank by done.
  case_decide as E; [by rewrite bool_decide_eq_true_2|by rewrite bool_decide_eq_false_2].
Qed.

(** What admission means. *)
Definition admissible (opts : RecallOptions) (q : string) (ev : Event) (m : Memory) : Prop :=
  m = MkMemory (ev_ID ev) (ev_Kind ev) (ev_Provenance ev) (effective_freshness ev)
        (recall_confidence (ev_Provenance ev)) (relevance ev q) (ev_FreeText ev) /\
  (effective_freshness ev = FreshnessSuperseded -> ro_IncludeSuperseded opts = true) /\
  recallableProvenance (ev_Provenance ev) = true /\
  f_ltb (relevance ev q) (ro_MinRelevance opts) = false /\
  f_ltb (recall_confidence (ev_Provenance ev)) (ro_MinConfidence opts) = false.

Lemma candidate_Some opts q ev m : candidate opts q ev = Some m <-> admissible opts q ev m.
Proof.
  unfold candidate, admissible. cbv zeta. split.
  - destruct (bool_decide _ && _) eqn:Es; [done|].
    destruct (recallableProvenance _); [|done]. destruct (f_ltb _ (ro_MinRelevance _)); [done|].
    destruct (f_ltb _ (ro_MinConfidence _)); [done|]. intros [= <-]. split_and!; try done.
    intros E. rewrite bool_decide_eq_true_2 in Es by done. by destruct (ro_IncludeSuperseded opts).
  - intros (-> & Hs & -> & -> & ->). destruct (bool_decide_reflect (effective_freshness ev = FreshnessSuperseded)) as [E|]; [|done].
    by rewrite (Hs E).
Qed.

Lemma scored_not_nan opts q (events : list Event) m :
  Z.of_nat (length (tokenize q)) < 2 ^ 63 -> m ∈ omap (candidate opts q) events -> f_nan (me_Relevance m) = false.
Proof.
  intros Hq (ev & _ & (-> & _)%candidate_Some)%list_elem_of_omap. by apply relevance_not_nan.
Qed.

Lemma Recall_take events query opts :
  let q := to_lower (trim_space query) in
  q <> EmptyString ->
  rr_Memories (Recall events query opts) =
    take (Z.to_nat (top_k opts)) (sort_by memory_lt (omap (candidate opts q) events)).
Proof.
  cbv zeta. intros Hq. unfold Recall. cbv zeta. apply String.eqb_neq in Hq. rewrite Hq.
  destruct (omap _ events) as [|m l] eqn:E; [by cbn; rewrite take_nil|].
  cbn [rr_Memories]. destruct (Z.ltb_spec (top_k opts) (Z.of_nat (length (sort_by memory_lt (m :: l))))); [done|].
  by rewrite take_ge by lia.
Qed.

Lemma top_k_range opts : 1 <= top_k opts <= MaxRecallResults.
Proof.
  unfold top_k, MaxRecallResults; cbn. destruct (Z.leb_spec (ro_TopK opts) 0); [done|].
  destruct (Z.ltb_spec 50 (ro_TopK opts)); lia.
Qed.

Lemma Recall_abstained events query opts :
  let q := to_lower (trim_space query) in
  rr_Abstained (Recall events query opts) = true <-> q = EmptyString \/ omap (candidate opts q) events = [].
Proof.
  cbv zeta. unfold Recall. cbv zeta. destruct (String.eqb_spec (to_lower (trim_space query)) EmptyString); [tauto|].
  destruct (omap _ events); cbn; split; auto; intros; naive_solver.
Qed.

Lemma omap_nil_iff opts q (events : list Event) :
  omap (candidate opts q) events = [] <-> forall ev m, ev ∈ events -> ~ admissible opts q ev m.
Proof.
  split.
  - intros Ho ev m Hev Hm. apply candidate_Some in Hm.
    assert (Hin : m ∈ omap (candidate opts q) events) by (apply list_elem_of_omap; eauto).
    rewrite Ho in Hin. by apply elem_of_nil in Hin.
  - intros Hn. apply elem_of_nil_inv. intros m (ev & Hev & Hm%candidate_Some)%list_elem_of_omap. by eapply Hn.
Qed.

(** ** Properties *)

(** Recall is a provenance-first gate: every memory it returns is the image
    of an event of the stream that carries a source and a locator, is not
    superseded content unless asked for, and clears both thresholds; at most
    [MaxRecallResults] (and at most the requested number) are returned; and
    recall abstains, with nothing to inject, exactly when the query is blank or no event
    is admissible. *)
Theorem Recall_admits_only_traceable events query opts :
  let q := to_lower (trim_space query) in
  let r := Recall events query opts in
  (forall m, m ∈ rr_Memories r -> exists ev, ev ∈ events /\ admissible opts q ev m) /\
  Z.of_nat (length (rr_Memories r)) <= top_k opts <= MaxRecallResults /\
  (rr_Abstained r = true <-> rr_Memories r = []) /\
  (rr_Abstained r = true <-> q = EmptyString \/ forall ev m, ev ∈ events -> ~ admissible opts q ev m).
Proof.
  cbv zeta. pose proof (top_k_range opts) as Hk. pose proof (Recall_take events query opts) as Ht. cbv zeta in Ht.
  set (q := to_lower (trim_space query)) in *. destruct (decide (q = EmptyString)) as [Hq|Hq].
  - unfold Recall. fold q. rewrite Hq. cbn. split_and!; try done; try lia; try tauto. intros ? ?%elem_of_nil. done.
  - specialize (Ht Hq). rewrite Ht. split_and!.
    + intros m Hm. apply subseteq_take, elem_of_sort_by, list_elem_of_omap in Hm as (ev & Hev & Hm).
      exists ev. by rewrite <- candidate_Some.
    + rewrite length_take. lia.
    + lia.
    + rewrite Recall_abstained. fold q. split; [intros [?|Ho]; [done|]; by rewrite Ho; cbn; rewrite take_nil|].
      intros Hn. right. apply nil_length_inv. apply (f_equal length) in Hn.
      rewrite length_take, length_sort_by in Hn. cbn in Hn. lia.
    + rewrite Recall_abstained. fold q. by rewrite omap_nil_iff.
Qed.

(** Recall returns the best memories: with a query whose token count is an
    [int], the result is exactly the first [top_k] of the admissible memories
    ordered by relevance, then event id, and none of those left out ranks before one
    returned. *)
Theorem Recall_returns_best events query opts :
  let q := to_lower (trim_space query) in
  q <> EmptyString -> Z.of_nat (length (tokenize q)) < 2 ^ 63 ->
  exists dropped,
    (rr_Memories (Recall events query opts) ++ dropped)%list ≡ₚ omap (candidate opts q) events /\
    (dropped = [] \/ Z.of_nat (length (rr_Memories (Recall events query opts))) = top_k opts) /\
    StronglySorted (not_after memory_lt) (rr_Memories (Recall events query opts)) /\
    forall m d, m ∈ rr_Memories (Recall events query opts) -> d ∈ dropped -> memory_lt d m = false.
Proof.
  cbv zeta. intros Hq Hn. rewrite Recall_take by done. set (q := to_lower (trim_space query)) in *.
  pose proof (top_k_range opts). set (scored := omap (candidate opts q) events).
  assert (Hnn : forall m, m ∈ scored -> f_nan (me_Relevance m) = false) by (intros; by eapply scored_not_nan).
  rewrite (sort_by_ext memory_lt memory_rank_lt) by (intros; apply memory_lt_rank; auto).
  set (sorted := sort_by memory_rank_lt scored).
  assert (Hin : forall m, m ∈ sorted -> f_nan (me_Relevance m) = false)
    by (intros m Hm%elem_of_sort_by; auto).
  exists (drop (Z.to_nat (top_k opts)) sorted). split_and!.
  - rewrite take_drop. apply sort_by_perm.
  - rewrite length_take. destruct (decide (length sorted <= Z.to_nat (top_k opts))%nat);
      [left; by apply drop_ge|right; lia].
  - eapply strongly_sorted_impl_in; [|apply strongly_sorted_take, (sort_by_sorted memory_rank_lt)].
    intros x y Hx Hy. unfold not_after. rewrite memory_lt_rank; [done| |]; apply Hin;
      by apply (subseteq_take (Z.to_nat (top_k opts))).
  - intros m d Hm Hd. rewrite memory_lt_rank.
    + by apply (sort_by_top memory_rank_lt (Z.to_nat (top_k opts)) scored).
    + apply Hin. by apply (subseteq_drop (Z.to_nat (top_k opts))).
    + apply Hin. by apply (subseteq_take (Z.to_nat (top_k opts))).
Qed.
End recall.

Module RecallRun.
Existing Instance demo_runtime.

Definition read_event (id path symbol : string) : Event := {|
  ev_Schema := ""; ev_ID := id; ev_Seq := 1; ev_Session := "s1"; ev_Kind := KindEdit; ev_Time := "";
  ev_Verb := ""; ev_Provenance := MkProvenance "repo" "" "" path (MkRange 1 4) symbol "" f_one;
  ev_Freshness := FreshnessPointer; ev_PredictedDigest := ""; ev_ObservedDigest := "";
  ev_Counts := ∅; ev_CoverageWarnings := []; ev_FreeText := ""; ev_Folded := 0 |}.

Definition stream : list Event :=
  [read_event "e1" "pkg/append.go" ""; read_event "e2" "x.go" "Append"; read_event "e3" "y.go" "Other"].

Lemma Recall_returns_best_witness :
  exists dropped,
    (rr_Memories (Recall stream "append" DefaultRecallOptions) ++ dropped)%list
      ≡ₚ omap (candidate DefaultRecallOptions "append") stream /\
    (me_EventID <$> rr_Memories (Recall stream "append" DefaultRecallOptions)) = ["e2"; "e1"].
Proof.
  pose proof (Recall_returns_best stream "append" DefaultRecallOptions) as Hb. cbv zeta in Hb.
  assert (Hq : to_lower (trim_space "append") = "append") by (vm_compute; reflexivity).
  rewrite Hq in Hb.
  destruct Hb as (d & Hp & _); [discriminate|vm_compute; reflexivity|].
  exists d. split; [exact Hp|vm_compute; reflexivity].
Defined.

(** Token coverage alone never clears the default threshold. *)
Example coverage_alone_abstains :
  rr_Abstained (Recall [read_event "e1" "append_log/x.go" "writer"] "writer append" DefaultRecallOptions) = true.
Proof. vm_compute. reflexivity. Qed.
End RecallRun.
