(* ===== verification/ChangeSet.v ===== *)
(** * workflow: fail-closed change-set validation

    Models [services/brain/internal/workflow/changeset.go]: candidate edits
    against a frozen base, the gates of [ChangeSet.Validate] and the receipt they
    produce, reasons rendered as the code renders them. *)

From Stdlib Require Import Ascii String.
From S2P Require Import Prelude GoString GoPath Float64 Runtime TextBound.
Open Scope string_scope.
Open Scope Z_scope.

(** ** Data *)

Inductive RejectReason :=
| RejectStaleBase | RejectPathEscape | RejectOverlap | RejectPartialFailure
| RejectEmpty | RejectBadRange | RejectMissingDigest.
#[export] Instance RejectReason_eq_dec : EqDecision RejectReason.
Proof. solve_decision. Defined.

(** Half-open byte range. *)
Record EditRange := MkEditRange { e_Start : Z; e_End : Z }.

Definition EditRange_Valid (r : EditRange) : bool :=
  (0 <=? e_Start r) && (0 <=? e_End r) && (e_Start r <=? e_End r).

Definition Overlaps (r o : EditRange) : bool :=
  if e_Start r =? e_End r then (e_Start o <=? e_Start r) && (e_Start r <=? e_End o)
  else if e_Start o =? e_End o then (e_Start r <=? e_Start o) && (e_Start o <=? e_End r)
  else (e_Start r <? e_End o) && (e_Start o <? e_End r).

Record CandidateEdit := MkEdit {
  ce_Path : string;
  ce_Range : EditRange;
  ce_Symbol : string;
  ce_BaseDigest : string;
  ce_PredictedDigest : string;
  ce_ObservedDigest : string;
  ce_Replacement : string
}.

Record ChangeSet := MkChangeSet {
  cs_Schema : string;
  cs_Base : string;
  cs_BaseDigests : gmap string string;
  cs_Edits : list CandidateEdit;
  cs_VerificationCommands : list string
}.

Record EditResult := MkEditResult {
  er_Path : string; er_Symbol : string; er_Stale : bool; er_DigestMatch : bool; er_Note : string
}.

Record GraphDelta := MkDelta {
  gd_Path : string; gd_PredictedMatches : Z; gd_ObservedMatches : Z; gd_Diverged : bool
}.

Record ValidationResult := MkValidation {
  vr_Schema : string;
  vr_Accepted : bool;
  vr_Rejected : list RejectReason;
  vr_Reasons : list string;
  vr_PerEdit : list EditResult;
  vr_GraphDelta : list GraphDelta;
  vr_VerificationCommands : list string;
  vr_Base : string;
  vr_Digest : string
}.

(** [encoding/json] on a receipt ([None]: an error). *)
Class ReceiptJson := { marshal_validation : ValidationResult -> option string }.

(** The package's [Schema]. *)
Definition WorkflowSchema : string := "sentra-scm.workflow/v1".

(** ** Helpers *)

Definition dedupReasons (l : list RejectReason) : list RejectReason := dedup_key id [] l.

(** De-duplicates, then sorts. *)
Definition dedupStrings (l : list string) : list string := sort_strings (dedup_key id [] l).

Definition shortDigest (d : string) : string := Bytes d 8.

Definition per_edit_lt : EditResult -> EditResult -> bool :=
  then_by er_Path String.ltb (on_key er_Symbol String.ltb).

Definition delta_lt : GraphDelta -> GraphDelta -> bool := on_key gd_Path String.ltb.

(** One edit's contribution to its file's summary. *)
Definition delta_step (m : gmap string GraphDelta) (e : CandidateEdit) : gmap string GraphDelta :=
  let gd := default (MkDelta (ce_Path e) 0 0 false) (m !! ce_Path e) in
  let both := negb (String.eqb (ce_PredictedDigest e) EmptyString)
              && negb (String.eqb (ce_ObservedDigest e) EmptyString) in
  let same := String.eqb (ce_PredictedDigest e) (ce_ObservedDigest e) in
  <[ce_Path e := {|
      gd_Path := gd_Path gd;
      gd_PredictedMatches := gd_PredictedMatches gd + 1;
      gd_ObservedMatches := if both && same then gd_ObservedMatches gd + 1 else gd_ObservedMatches gd;
      gd_Diverged := gd_Diverged gd || (both && negb same) |}]> m.

(** The iteration order over the map is arbitrary; the result is sorted by path
    before it is used. *)
Definition graphDelta (edits : list CandidateEdit) : list GraphDelta :=
  (map_to_list (fold_left delta_step edits ∅)).*2.

Section validate.
Context `{GoRuntime} `{ReceiptJson}.

(** The error's text on rejection. *)
Definition validateChangePath (p : string) : result string unit :=
  let p := trim_space p in
  fail_if (String.eqb p EmptyString) "empty path"
  (fail_if (has_prefix "/" p) ("absolute path rejected: " ++ quote p)
  (fail_if (contains_char "\" p) ("backslash path rejected: " ++ quote p)
  (fail_if (bool_decide (".." ∈ split_char "/" p)) ("path escape rejected: " ++ quote p)
  (Ok tt)))).

(** Canonical digest of a body: [Digest]. *)
Definition Digest (body : string) : string := sha256_16 body.

Definition resultDigest (res : ValidationResult) : string :=
  match marshal_validation {|
      vr_Schema := vr_Schema res; vr_Accepted := vr_Accepted res; vr_Rejected := vr_Rejected res;
      vr_Reasons := vr_Reasons res; vr_PerEdit := vr_PerEdit res; vr_GraphDelta := vr_GraphDelta res;
      vr_VerificationCommands := vr_VerificationCommands res; vr_Base := vr_Base res; vr_Digest := "" |} with
  | None => ""
  | Some body => "sha256:" ++ sha256_16 body
  end.

Definition finalizeValidation (res : ValidationResult) : ValidationResult :=
  let res' := {|
    vr_Schema := vr_Schema res; vr_Accepted := vr_Accepted res;
    vr_Rejected := dedupReasons (vr_Rejected res);
    vr_Reasons := dedupStrings (vr_Reasons res);
    vr_PerEdit := sort_by per_edit_lt (vr_PerEdit res);
    vr_GraphDelta := sort_by delta_lt (vr_GraphDelta res);
    vr_VerificationCommands := dedupStrings (vr_VerificationCommands res);
    vr_Base := vr_Base res; vr_Digest := vr_Digest res |} in
  {| vr_Schema := vr_Schema res'; vr_Accepted := vr_Accepted res'; vr_Rejected := vr_Rejected res';
     vr_Reasons := vr_Reasons res'; vr_PerEdit := vr_PerEdit res'; vr_GraphDelta := vr_GraphDelta res';
     vr_VerificationCommands := vr_VerificationCommands res'; vr_Base := vr_Base res';
     vr_Digest := resultDigest res' |}.

(** ** The gates

    Findings are collected in order: a class and a text for each. *)

Definition finding : Type := RejectReason * string.

Definition show_range (r : EditRange) : string :=
  "{Start:" ++ dec (e_Start r) ++ " End:" ++ dec (e_End r) ++ "}".

Definition edit_label (i : nat) : string := "edit " ++ dec (Z.of_nat i).

Definition path_gate (i : nat) (e : CandidateEdit) : list finding * string :=
  match validateChangePath (ce_Path e) with
  | Err msg => ([(RejectPathEscape, edit_label i ++ ": " ++ msg)], "path escape rejected")
  | Ok _ => ([], "")
  end.

Definition range_gate (i : nat) (e : CandidateEdit) (note : string) : list finding * string :=
  if EditRange_Valid (ce_Range e) then ([], note)
  else ([(RejectBadRange, edit_label i ++ ": bad range " ++ show_range (ce_Range e))], "bad range").

Definition frozen_digest (cs : ChangeSet) (e : CandidateEdit) : string :=
  default "" (cs_BaseDigests cs !! ce_Path e).

Definition base_gate (cs : ChangeSet) (i : nat) (e : CandidateEdit) (note : string)
    : list finding * bool * string :=
  let frozen := frozen_digest cs e in
  if String.eqb frozen "" || String.eqb (ce_BaseDigest e) "" then
    ([(RejectMissingDigest, edit_label i ++ " " ++ ce_Path e ++ ": base digest evidence required")],
     false, "base digest evidence missing")
  else if negb (String.eqb frozen (ce_BaseDigest e)) then
    ([(RejectStaleBase, edit_label i ++ " " ++ ce_Path e ++ ": stale base (frozen " ++ shortDigest frozen
         ++ " != planned " ++ shortDigest (ce_BaseDigest e) ++ ")")],
     true, "base digest moved since freeze")
  else ([], false, note).

Definition digest_gate (i : nat) (e : CandidateEdit) (note : string) : list finding * bool * string :=
  if String.eqb (ce_PredictedDigest e) "" || String.eqb (ce_ObservedDigest e) "" then
    ([(RejectMissingDigest, edit_label i ++ " " ++ ce_Path e
         ++ ": predicted and observed digest evidence required")],
     false, if String.eqb note "" then "predicted or observed digest evidence missing" else note)
  else if negb (String.eqb (ce_PredictedDigest e) (ce_ObservedDigest e)) then
    ([(RejectPartialFailure, edit_label i ++ " " ++ ce_Path e ++ ": predicted "
         ++ shortDigest (ce_PredictedDigest e) ++ " != observed " ++ shortDigest (ce_ObservedDigest e))],
     false, "predicted digest did not match observed")
  else ([], true, note).

Definition check_edit (cs : ChangeSet) (i : nat) (e : CandidateEdit) : list finding * EditResult :=
  let '(f1, note1) := path_gate i e in
  let '(f2, note2) := range_gate i e note1 in
  let '(f3, stale, note3) := base_gate cs i e note2 in
  let '(f4, same, note4) := digest_gate i e note3 in
  ((f1 ++ f2 ++ f3 ++ f4)%list,
   {| er_Path := ce_Path e; er_Symbol := ce_Symbol e; er_Stale := stale;
      er_DigestMatch := same && negb (String.eqb (frozen_digest cs e) "") && negb (String.eqb (ce_BaseDigest e) "");
      er_Note := note4 |}).

Fixpoint check_edits (cs : ChangeSet) (i : nat) (edits : list CandidateEdit) : list finding * list EditResult :=
  match edits with
  | [] => ([], [])
  | e :: edits' =>
      let '(f, r) := check_edit cs i e in
      let '(fs, rs) := check_edits cs (S i) edits' in
      ((f ++ fs)%list, r :: rs)
  end.

Definition overlap_text (p : string) (i j : nat) (a b : EditRange) : string :=
  p ++ ": edits " ++ dec (Z.of_nat i) ++ " and " ++ dec (Z.of_nat j) ++ " overlap ["
    ++ dec (e_Start a) ++ "-" ++ dec (e_End a) ++ ") vs [" ++ dec (e_Start b) ++ "-" ++ dec (e_End b) ++ ")".

(** The two nested loops over the edits of one file. *)
Fixpoint overlaps_with (p : string) (i : nat) (e : CandidateEdit) (j : nat) (rest : list CandidateEdit)
    : list finding :=
  match rest with
  | [] => []
  | o :: rest' =>
      (if Overlaps (ce_Range e) (ce_Range o) then
         [(RejectOverlap, overlap_text p i j (ce_Range e) (ce_Range o))]
       else []) ++ overlaps_with p i e (S j) rest'
  end%list.

Fixpoint overlaps_from (p : string) (i : nat) (edits : list CandidateEdit) : list finding :=
  match edits with
  | [] => []
  | e :: rest => overlaps_with p i e (S i) rest ++ overlaps_from p (S i) rest
  end%list.

(** [byPath[p]]. *)
Definition edits_of (p : string) (edits : list CandidateEdit) : list CandidateEdit :=
  List.filter (fun e => String.eqb (ce_Path e) p) edits.

Definition overlap_gate (edits : list CandidateEdit) : list finding :=
  concat (map (fun p => overlaps_from p 0 (edits_of p edits)) (dedupStrings (ce_Path <$> edits))).

Definition Validate (cs : ChangeSet) : ValidationResult :=
  let res fs accepted per delta := finalizeValidation {|
    vr_Schema := WorkflowSchema; vr_Accepted := accepted; vr_Rejected := map fst fs; vr_Reasons := map snd fs;
    vr_PerEdit := per; vr_GraphDelta := delta;
    vr_VerificationCommands := dedupStrings (cs_VerificationCommands cs);
    vr_Base := cs_Base cs; vr_Digest := "" |} in
  match cs_Edits cs with
  | [] => res [(RejectEmpty, "changeset has no edits")] false [] []
  | edits =>
      let '(fs, per) := check_edits cs 0 edits in
      let fs := (fs ++ overlap_gate edits)%list in
      res fs (bool_decide (length fs = 0%nat)) per (graphDelta edits)
  end.

(** ** What each rejection class means *)

(** [x] stands before [y] in [l]. *)
Definition before {A} (x y : A) (l : list A) : Prop := [x; y] `sublist_of` l.

Definition violates (cs : ChangeSet) (r : RejectReason) : Prop :=
  match r with
  | RejectEmpty => cs_Edits cs = []
  | RejectPathEscape => exists e, e ∈ cs_Edits cs /\ is_ok (validateChangePath (ce_Path e)) = false
  | RejectBadRange => exists e, e ∈ cs_Edits cs /\ EditRange_Valid (ce_Range e) = false
  | RejectMissingDigest => exists e, e ∈ cs_Edits cs /\
      (frozen_digest cs e = "" \/ ce_BaseDigest e = "" \/ ce_PredictedDigest e = "" \/ ce_ObservedDigest e = "")
  | RejectStaleBase => exists e, e ∈ cs_Edits cs /\ frozen_digest cs e <> "" /\ ce_BaseDigest e <> "" /\
      frozen_digest cs e <> ce_BaseDigest e
  | RejectPartialFailure => exists e, e ∈ cs_Edits cs /\ ce_PredictedDigest e <> "" /\ ce_ObservedDigest e <> "" /\
      ce_PredictedDigest e <> ce_ObservedDigest e
  | RejectOverlap => exists a b, before a b (cs_Edits cs) /\ ce_Path a = ce_Path b /\
      Overlaps (ce_Range a) (ce_Range b) = true
  end.

(** ** Lemmas *)

Lemma before_cons {A} (x y z : A) l : before x y (z :: l) <-> (x = z /\ y ∈ l) \/ before x y l.
Proof.
  unfold before. split.
  - intros Hs. inversion Hs as [|? ? ? Hs'|? ? ? Hs']; subst; [|by right].
    left. split; [done|]. by apply singleton_sublist_l.
  - intros [[-> Hy]|Hb]; [|by apply sublist_cons_r; left].
    apply sublist_skip. by apply singleton_sublist_l.
Qed.

Lemma before_nil {A} (x y : A) : ~ before x y [].
Proof. unfold before. intros Hs%sublist_nil_r. done. Qed.

Lemma edits_of_spec p l e : e ∈ edits_of p l <-> e ∈ l /\ ce_Path e = p.
Proof.
  unfold edits_of. rewrite !list_elem_of_In, filter_In. by rewrite String.eqb_eq.
Qed.

Lemma before_edits_of p a b l :
  before a b (edits_of p l) <-> before a b l /\ ce_Path a = p /\ ce_Path b = p.
Proof.
  induction l as [|e l IH]; [cbn; split; [by intros ?%before_nil|by intros [?%before_nil _]]|].
  cbn. fold (edits_of p l).
  destruct (String.eqb_spec (ce_Path e) p); rewrite ?before_cons, IH, ?edits_of_spec; intuition congruence.
Qed.

Lemma overlaps_with_class p i e j rest r :
  r ∈ map fst (overlaps_with p i e j rest) <->
  r = RejectOverlap /\ exists o, o ∈ rest /\ Overlaps (ce_Range e) (ce_Range o) = true.
Proof.
  revert j. induction rest as [|o rest IH]; intros j; cbn [overlaps_with].
  - cbn. setoid_rewrite elem_of_nil. naive_solver.
  - rewrite map_app, elem_of_app, IH. setoid_rewrite elem_of_cons.
    destruct (Overlaps (ce_Range e) (ce_Range o)) eqn:E; cbn;
      rewrite ?list_elem_of_singleton, ?elem_of_nil; split.
    + intros [->|(-> & o' & Ho & Hov)]; split; eauto.
    + intros (-> & o' & _). by left.
    + intros [[]|(-> & o' & Ho & Hov)]; split; eauto.
    + intros (-> & o' & [->|Ho] & Hov); [congruence|]. right. split; eauto.
Qed.

Lemma overlaps_from_class p i l r :
  r ∈ map fst (overlaps_from p i l) <->
  r = RejectOverlap /\ exists a b, before a b l /\ Overlaps (ce_Range a) (ce_Range b) = true.
Proof.
  revert i. induction l as [|e l IH]; intros i; cbn.
  - split; [by intros ?%elem_of_nil|by intros (_ & a & b & ?%before_nil & _)].
  - rewrite map_app, elem_of_app, IH, overlaps_with_class. setoid_rewrite before_cons. naive_solver.
Qed.

Lemma elem_of_dedupStrings x l : x ∈ dedupStrings l <-> x ∈ l.
Proof. unfold dedupStrings, sort_strings. by rewrite elem_of_sort_by, elem_of_dedup. Qed.

Lemma overlap_gate_class edits r :
  r ∈ map fst (overlap_gate edits) <->
  r = RejectOverlap /\ exists a b, before a b edits /\ ce_Path a = ce_Path b /\ Overlaps (ce_Range a) (ce_Range b) = true.
Proof.
  unfold overlap_gate. rewrite concat_map, map_map, list_elem_of_In, in_concat. split.
  - intros (x & (p & <- & _)%in_map_iff & Hr%list_elem_of_In).
    apply overlaps_from_class in Hr as (-> & a & b & (Hb & Ha & Hp)%before_edits_of & Ho).
    split; [done|]. exists a, b. by rewrite Ha, Hp.
  - intros (-> & a & b & Hb & Hp & Ho). exists (map fst (overlaps_from (ce_Path a) 0 (edits_of (ce_Path a) edits))).
    split.
    + apply in_map_iff. exists (ce_Path a). split; [done|]. apply list_elem_of_In, elem_of_dedupStrings.
      apply list_elem_of_fmap. exists a. split; [done|]. eapply elem_of_sublist; [|exact Hb]. left.
    + apply list_elem_of_In, overlaps_from_class. split; [done|]. exists a, b. by rewrite before_edits_of.
Qed.

(** The classes one edit is reported under. *)
Definition edit_violates (cs : ChangeSet) (e : CandidateEdit) (r : RejectReason) : Prop :=
  match r with
  | RejectEmpty | RejectOverlap => False
  | RejectPathEscape => is_ok (validateChangePath (ce_Path e)) = false
  | RejectBadRange => EditRange_Valid (ce_Range e) = false
  | RejectMissingDigest =>
      frozen_digest cs e = "" \/ ce_BaseDigest e = "" \/ ce_PredictedDigest e = "" \/ ce_ObservedDigest e = ""
  | RejectStaleBase => frozen_digest cs e <> "" /\ ce_BaseDigest e <> "" /\ frozen_digest cs e <> ce_BaseDigest e
  | RejectPartialFailure => ce_PredictedDigest e <> "" /\ ce_ObservedDigest e <> "" /\
      ce_PredictedDigest e <> ce_ObservedDigest e
  end.

Lemma path_gate_class i e r :
  r ∈ map fst (fst (path_gate i e)) <-> r = RejectPathEscape /\ is_ok (validateChangePath (ce_Path e)) = false.
Proof. unfold path_gate. destruct (validateChangePath _); cbn; rewrite ?list_elem_of_singleton, ?elem_of_nil; naive_solver. Qed.

Lemma range_gate_class i e note r :
  r ∈ map fst (fst (range_gate i e note)) <-> r = RejectBadRange /\ EditRange_Valid (ce_Range e) = false.
Proof. unfold range_gate. destruct (EditRange_Valid _); cbn; rewrite ?list_elem_of_singleton, ?elem_of_nil; naive_solver. Qed.

Lemma base_gate_class cs i e note r :
  r ∈ map fst (fst (fst (base_gate cs i e note))) <->
  (r = RejectMissingDigest /\ (frozen_digest cs e = "" \/ ce_BaseDigest e = "")) \/
  (r = RejectStaleBase /\ frozen_digest cs e <> "" /\ ce_BaseDigest e <> "" /\ frozen_digest cs e <> ce_BaseDigest e).
Proof.
  unfold base_gate. destruct (String.eqb_spec (frozen_digest cs e) ""), (String.eqb_spec (ce_BaseDigest e) ""),
    (String.eqb_spec (frozen_digest cs e) (ce_BaseDigest e)); cbn; rewrite ?list_elem_of_singleton, ?elem_of_nil; intuition congruence.
Qed.

Lemma digest_gate_class i e note r :
  r ∈ map fst (fst (fst (digest_gate i e note))) <->
  (r = RejectMissingDigest /\ (ce_PredictedDigest e = "" \/ ce_ObservedDigest e = "")) \/
  (r = RejectPartialFailure /\ ce_PredictedDigest e <> "" /\ ce_ObservedDigest e <> "" /\
     ce_PredictedDigest e <> ce_ObservedDigest e).
Proof.
  unfold digest_gate. destruct (String.eqb_spec (ce_PredictedDigest e) ""), (String.eqb_spec (ce_ObservedDigest e) ""),
    (String.eqb_spec (ce_PredictedDigest e) (ce_ObservedDigest e)); cbn; rewrite ?list_elem_of_singleton, ?elem_of_nil; intuition congruence.
Qed.

Lemma check_edit_class cs i e r :
  r ∈ map fst (fst (check_edit cs i e)) <-> edit_violates cs e r.
Proof.
  unfold check_edit.
  pose proof (path_gate_class i e r) as H1. destruct (path_gate i e) as [f1 n1].
  pose proof (range_gate_class i e n1 r) as H2. destruct (range_gate i e n1) as [f2 n2].
  pose proof (base_gate_class cs i e n2 r) as H3. destruct (base_gate cs i e n2) as [[f3 st] n3].
  pose proof (digest_gate_class i e n3 r) as H4. destruct (digest_gate i e n3) as [[f4 sm] n4].
  cbn [fst snd] in *. rewrite !map_app, !elem_of_app, H1, H2, H3, H4.
  destruct r; cbn; intuition congruence.
Qed.

Lemma check_edits_class cs i edits r :
  r ∈ map fst (fst (check_edits cs i edits)) <-> exists e, e ∈ edits /\ edit_violates cs e r.
Proof.
  revert i. induction edits as [|e edits IH]; intros i; cbn [check_edits].
  - cbn. setoid_rewrite elem_of_nil. naive_solver.
  - pose proof (check_edit_class cs i e r) as He. destruct (check_edit cs i e) as [f x].
    specialize (IH (S i)). destruct (check_edits cs (S i) edits) as [fs rs]. cbn [fst snd] in *.
    rewrite map_app, elem_of_app, He, IH. setoid_rewrite elem_of_cons. naive_solver.
Qed.

Lemma violates_edit cs r :
  cs_Edits cs <> [] ->
  violates cs r <->
  (exists e, e ∈ cs_Edits cs /\ edit_violates cs e r) \/
  (r = RejectOverlap /\ exists a b, before a b (cs_Edits cs) /\ ce_Path a = ce_Path b /\
     Overlaps (ce_Range a) (ce_Range b) = true).
Proof. intros Hne. destruct r; cbn; naive_solver. Qed.

Lemma Validate_rejected cs r : r ∈ vr_Rejected (Validate cs) <-> violates cs r.
Proof.
  unfold Validate. destruct (cs_Edits cs) as [|e edits] eqn:E.
  - cbn [finalizeValidation vr_Rejected map fst]. unfold dedupReasons. rewrite elem_of_dedup, list_elem_of_singleton.
    destruct r; cbn; rewrite E; split; intros Hr; try done; try by destruct Hr as (? & ?%elem_of_nil & _).
    by destruct Hr as (? & ? & ?%before_nil & _).
  - rewrite violates_edit by (by rewrite E). rewrite E.
    pose proof (check_edits_class cs 0 (e :: edits) r) as Hc. destruct (check_edits cs 0 (e :: edits)) as [fs per].
    cbn [fst] in Hc. cbn [finalizeValidation vr_Rejected]. unfold dedupReasons.
    rewrite elem_of_dedup, map_app, elem_of_app, Hc, overlap_gate_class. done.
Qed.

Lemma Validate_accepted cs : vr_Accepted (Validate cs) = true <-> vr_Rejected (Validate cs) = [].
Proof.
  unfold Validate. destruct (cs_Edits cs) as [|e edits] eqn:E; [done|].
  destruct (check_edits cs 0 (e :: edits)) as [fs per]. cbn [finalizeValidation vr_Rejected vr_Accepted].
  rewrite bool_decide_eq_true. set (l := (fs ++ _)%list). split.
  - intros Hl%nil_length_inv. by rewrite Hl.
  - destruct l as [|f l]; [done|]. cbn. unfold dedupReasons. cbn. by rewrite decide_False by set_solver.
Qed.

(** ** The per-file summary *)

Definition evidence (e : CandidateEdit) : bool :=
  negb (String.eqb (ce_PredictedDigest e) EmptyString) && negb (String.eqb (ce_ObservedDigest e) EmptyString).
Definition as_predicted (e : CandidateEdit) : bool :=
  evidence e && String.eqb (ce_PredictedDigest e) (ce_ObservedDigest e).
Definition diverged (e : CandidateEdit) : bool :=
  evidence e && negb (String.eqb (ce_PredictedDigest e) (ce_ObservedDigest e)).

Definition delta_of (p : string) (edits : list CandidateEdit) : GraphDelta :=
  let l := edits_of p edits in
  {| gd_Path := p; gd_PredictedMatches := Z.of_nat (length l);
     gd_ObservedMatches := Z.of_nat (length (List.filter as_predicted l));
     gd_Diverged := existsb diverged l |}.

Lemma edits_of_app p l1 l2 : edits_of p (l1 ++ l2)%list = (edits_of p l1 ++ edits_of p l2)%list.
Proof. apply List.filter_app. Qed.

Lemma edits_of_nil p l : edits_of p l = [] -> delta_of p l = MkDelta p 0 0 false.
Proof. unfold delta_of. by intros ->. Qed.

Lemma delta_of_snoc l e :
  delta_of (ce_Path e) (l ++ [e])%list =
  let gd := delta_of (ce_Path e) l in
  MkDelta (ce_Path e) (gd_PredictedMatches gd + 1)
    (if as_predicted e then gd_ObservedMatches gd + 1 else gd_ObservedMatches gd)
    (gd_Diverged gd || diverged e).
Proof.
  unfold delta_of. rewrite edits_of_app. cbn. rewrite String.eqb_refl.
  rewrite length_app, List.filter_app, length_app, existsb_app. cbn. rewrite orb_false_r.
  destruct (as_predicted e); cbn; f_equal; lia.
Qed.

Lemma delta_fold_lookup edits p :
  fold_left delta_step edits ∅ !! p =
  if bool_decide (edits_of p edits = []) then None else Some (delta_of p edits).
Proof.
  induction edits as [|e edits IH] using rev_ind; [done|].
  rewrite fold_left_app. cbn [fold_left]. set (m := fold_left delta_step edits ∅) in *.
  unfold delta_step. rewrite lookup_insert. case_decide as Ep.
  - subst p. rewrite edits_of_app. cbn. rewrite String.eqb_refl.
    rewrite bool_decide_eq_false_2 by (by destruct (edits_of (ce_Path e) edits)). f_equal.
    rewrite delta_of_snoc. cbv zeta. rewrite IH.
    case_bool_decide as En; cbn [default]; [rewrite edits_of_nil by done|]; reflexivity.
  - rewrite IH. unfold delta_of. rewrite edits_of_app. cbn.
    rewrite (proj2 (String.eqb_neq (ce_Path e) p)) by done. by rewrite app_nil_r.
Qed.

Lemma elem_of_graphDelta edits gd :
  gd ∈ graphDelta edits <-> exists p, edits_of p edits <> [] /\ gd = delta_of p edits.
Proof.
  unfold graphDelta. rewrite list_elem_of_fmap. split.
  - intros ([p gd'] & -> & Hin%elem_of_map_to_list). cbn. rewrite delta_fold_lookup in Hin.
    case_bool_decide; [done|]. injection Hin as <-. eauto.
  - intros (p & Hp & ->). exists (p, delta_of p edits). split; [done|]. apply elem_of_map_to_list.
    rewrite delta_fold_lookup. by rewrite bool_decide_eq_false_2.
Qed.

Lemma graphDelta_NoDup edits : NoDup (gd_Path <$> graphDelta edits).
Proof.
  assert (Hk : gd_Path <$> graphDelta edits = (map_to_list (fold_left delta_step edits ∅)).*1).
  { unfold graphDelta. rewrite <- list_fmap_compose. apply list_fmap_ext. intros i [p gd] Hi.
    apply list_elem_of_lookup_2, elem_of_map_to_list in Hi. rewrite delta_fold_lookup in Hi. cbn.
    case_bool_decide; [done|]. by injection Hi as <-. }
  rewrite Hk. apply NoDup_fst_map_to_list.
Qed.

#[export] Instance delta_lt_weak : StrictWeak delta_lt.
Proof. unfold delta_lt. apply _. Qed.

Lemma delta_unique edits a b :
  a ∈ graphDelta edits -> b ∈ graphDelta edits -> delta_lt a b = false -> delta_lt b a = false -> a = b.
Proof.
  intros (p & _ & ->)%elem_of_graphDelta (q & _ & ->)%elem_of_graphDelta. unfold delta_lt, on_key. cbn.
  intros H1 H2. by rewrite (st_total (lt := String.ltb) p q H1 H2).
Qed.

(** ** Properties *)

(** C34. The change-set gate is fail-closed and its receipt exact: a set is
    accepted exactly when none of the rejection classes applies to it, and
    otherwise the receipt names exactly the classes that apply (no edits, escaping
    path, malformed range, missing digest evidence, stale base, digest mismatch,
    two overlapping edits of one file), each once. *)
Theorem Validate_fail_closed cs :
  (vr_Accepted (Validate cs) = true <-> forall r, ~ violates cs r) /\
  (forall r, r ∈ vr_Rejected (Validate cs) <-> violates cs r) /\
  NoDup (vr_Rejected (Validate cs)).
Proof.
  split_and!.
  - rewrite Validate_accepted. split.
    + intros Hr r Hv%Validate_rejected. rewrite Hr in Hv. by apply elem_of_nil in Hv.
    + intros Hn. apply elem_of_nil_inv. intros r Hr%Validate_rejected. by apply (Hn r).
  - apply Validate_rejected.
  - unfold Validate. destruct (cs_Edits cs); [apply NoDup_dedup|]. destruct (check_edits _ _ _). apply NoDup_dedup.
Qed.

(** The graph delta of a receipt is the per-file summary, whatever the order
    in which Go iterates over its map and whatever the order of the edits: one
    entry per edited file, in path order, with the number of edits, of edits
    observed as predicted, and whether one diverged. *)
Theorem graph_delta_exact cs order :
  cs_Edits cs <> [] -> order ≡ₚ graphDelta (cs_Edits cs) ->
  let out := vr_GraphDelta (Validate cs) in
  out = sort_by delta_lt order /\
  StronglySorted (not_after delta_lt) out /\ NoDup (gd_Path <$> out) /\
  (forall gd, gd ∈ out <-> exists p, edits_of p (cs_Edits cs) <> [] /\ gd = delta_of p (cs_Edits cs)).
Proof.
  intros Hne Hp. cbv zeta.
  assert (Hout : vr_GraphDelta (Validate cs) = sort_by delta_lt (graphDelta (cs_Edits cs))).
  { unfold Validate. destruct (cs_Edits cs) as [|e l]; [done|]. by destruct (check_edits cs 0 (e :: l)). }
  rewrite Hout. split_and!.
  - symmetry. apply sort_by_perm_eq; [apply _| |done]. intros a b. rewrite Hp. apply delta_unique.
  - apply sort_by_sorted, _.
  - rewrite sort_by_perm. apply graphDelta_NoDup.
  - intros gd. rewrite elem_of_sort_by. apply elem_of_graphDelta.
Qed.
End validate.

Module ChangeSetRun.
Existing Instance demo_runtime.
#[export] Instance no_json : ReceiptJson := {| marshal_validation := fun _ => None |}.

Definition edit (p : string) (a b : Z) (text : string) : CandidateEdit :=
  MkEdit p (MkEditRange a b) "" "base" "after" "after" text.
Definition good : ChangeSet :=
  MkChangeSet "" "head" {["a.go" := "base"; "b.go" := "base"]} [edit "b.go" 0 1 "x"; edit "a.go" 3 4 "y"; edit "a.go" 0 3 "z"] [].

Example good_accepted : vr_Accepted (Validate good) = true.
Proof. vm_compute. reflexivity. Qed.
Example overlap_rejected :
  vr_Rejected (Validate (MkChangeSet "" "head" {["a.go" := "base"]} [edit "a.go" 0 3 "x"; edit "a.go" 3 3 "y"] []))
  = [RejectOverlap].
Proof. vm_compute. reflexivity. Qed.

Lemma graph_delta_exact_witness :
  vr_GraphDelta (Validate good) = sort_by delta_lt (rev (graphDelta (cs_Edits good))) /\
  (gd_Path <$> vr_GraphDelta (Validate good)) = ["a.go"; "b.go"].
Proof.
  split; [|vm_compute; reflexivity].
  apply (graph_delta_exact good (rev (graphDelta (cs_Edits good)))); [discriminate|].
  symmetry. apply Permutation_rev.
Defined.
End ChangeSetRun.
