(* ===== verification/Verify.v ===== *)
(** * workflow: the verification command gate

    Models [services/brain/internal/workflow/verification_command.go]: splitting a
    command into an argument vector without a shell, the allow and deny lists,
    and the environment of the child.  [OsEnv] stands for the operating system: programs on [PATH] and
    environment variables. *)

From Stdlib Require Import Ascii String.
From S2P Require Import Prelude GoString GoPath Float64 Runtime TextBound ChangeSet.
Open Scope string_scope.
Open Scope Z_scope.

Class OsEnv := {
  (** [exec.LookPath] finds the program. *)
  look_path : string -> bool;
  (** [os.Getenv]; empty when unset. *)
  getenv : string -> string
}.

Definition applyMaxCommandLen : Z := 4096.

Definition verificationAllowlist : list string :=
  ["go"; "gofmt"; "golangci-lint"; "staticcheck"; "cargo"; "tsc"; "eslint"; "ruff"; "mypy"; "pytest";
   "grep"; "test"; "true"; "false"; "diff"; "cmp"].

(** The denied subcommands of a program, if it has an entry. *)
Definition verificationSubcommandDenylist (program : string) : list string :=
  if String.eqb program "go" then ["run"; "generate"; "install"; "tool"]
  else if String.eqb program "cargo" then ["run"; "install"]
  else [].

Definition verification_error (reason : string) : string := "verification command rejected: " ++ reason.

(** ** Splitting *)

(** [strings.Builder.WriteRune]: the rune's encoding, U+FFFD for an invalid byte. *)
Definition rune_bytes (p : piece) : string := if p_ok p then p_raw p else str_of_bytes [239; 191; 189].

Definition single_quote : Z := 39.
Definition double_quote : Z := 34.

(** The loop of [splitVerificationArgs]; [quote] is 0 outside quotes. *)
Fixpoint split_loop (runes : list piece) (argv : list string) (current : string) (quote : Z) (open : bool)
    : option (list string) :=
  match runes with
  | [] =>
      if negb (quote =? 0) then None
      else Some (if negb (String.eqb current "") || open then (argv ++ [current])%list else argv)
  | p :: runes' =>
      let r := p_rune p in
      if negb (quote =? 0) then
        if r =? quote then split_loop runes' argv current 0 open
        else split_loop runes' argv (current ++ rune_bytes p) quote open
      else if (r =? single_quote) || (r =? double_quote) then split_loop runes' argv current r true
      else if is_space r then
        if negb (String.eqb current "") || open then split_loop runes' (argv ++ [current])%list "" quote false
        else split_loop runes' argv current quote open
      else split_loop runes' argv (current ++ rune_bytes p) quote open
  end.

Definition splitVerificationArgs (command : string) : result string (list string) :=
  match split_loop (pieces command) [] "" 0 false with
  | None => Err (verification_error "unterminated quote")
  | Some argv => Ok argv
  end.

(** ** The gate *)

Definition shell_metacharacters : list ascii :=
  ["|"; "&"; ";"; "<"; ">"; "("; ")"; "$"; "`"; "\"; "!"; "*"; "?"; "["; "]"; "{"; "}"; "~"; "010"; "013"]%char.

(** [strings.IndexAny], the byte found. *)
Fixpoint find_any (set : list ascii) (s : string) : option ascii :=
  match s with
  | EmptyString => None
  | String c s' => if bool_decide (c ∈ set) then Some c else find_any set s'
  end.

(** [%q] of one of the bytes above. *)
Definition quote_byte (c : ascii) : string :=
  "'" ++ (if ascii_dec c "\" then "\\" else if ascii_dec c "010" then "\n" else if ascii_dec c "013" then "\r"
          else String c "") ++ "'".

Definition allowedVerifiers : string := join " " (sort_strings verificationAllowlist).

Section gate.
Context `{GoRuntime} `{OsEnv}.

Definition is_exec_flag (arg : string) : bool := String.eqb arg "-exec" || has_prefix "-exec=" arg.

(** The checks on the argument vector. *)
Definition check_argv (argv : list string) : result string (list string) :=
  match argv with
  | [] => Err (verification_error "empty")
  | program :: args =>
      fail_if (contains_char "/" program || contains_char "\" program)
        (verification_error (quote program ++ " names a path; use a bare program name resolved on PATH"))
      (fail_if (negb (bool_decide (program ∈ verificationAllowlist)))
        (verification_error (quote program ++ " is not an allowed verifier (allowed: " ++ allowedVerifiers ++ ")"))
      (fail_if (match args with
                | [] => false
                | sub :: _ => bool_decide (sub ∈ verificationSubcommandDenylist program)
                end)
        (verification_error (program ++ " " ++ hd "" args ++ " executes code chosen by the change set"))
      (fail_if (existsb is_exec_flag args) (verification_error "-exec selects an arbitrary runner")
      (fail_if (negb (look_path program)) (verification_error (quote program ++ " is not installed"))
      (Ok argv)))))
  end.

Definition parseVerificationCommand (command : string) : result string (list string) :=
  let trimmed := trim_space command in
  fail_if (String.eqb trimmed "") (verification_error "empty")
  (fail_if (applyMaxCommandLen <? len trimmed)
     (verification_error ("longer than " ++ dec applyMaxCommandLen ++ " bytes"))
  (fail_if (existsb (fun p => (p_rune p =? 0) || (is_control (p_rune p) && negb (p_rune p =? 9))) (pieces trimmed))
     (verification_error "contains a control character")
  (match find_any shell_metacharacters trimmed with
   | Some c => Err (verification_error ("contains shell metacharacter " ++ quote_byte c
                 ++ "; commands run as an argv vector, not through a shell"))
   | None => do argv <- splitVerificationArgs trimmed ; check_argv argv
   end))).

(** The child's environment. *)
Definition verificationEnv (stage : string) : list string :=
  (["PATH=" ++ getenv "PATH"; "HOME=" ++ stage; "TMPDIR=" ++ Join [stage; ".sentra-tmp"];
    "LANG=C"; "LC_ALL=C"; "TZ=UTC"; "GOFLAGS=-mod=mod"; "GOPROXY=off"; "GONOSUMDB=*"; "GOTOOLCHAIN=local";
    "CARGO_NET_OFFLINE=true"; "NPM_CONFIG_OFFLINE=true"; "PIP_NO_INDEX=1"; "GIT_TERMINAL_PROMPT=0"]%string
   ++ omap (fun key => let value := getenv key in
                       if String.eqb value "" then None else Some (key ++ "=" ++ value)%string)
        ["GOCACHE"; "GOMODCACHE"; "GOPATH"; "GOROOT"])%list.

(** ** Lemmas *)

Lemma find_any_None set s : find_any set s = None <-> forall c, c ∈ set -> contains_char c s = false.
Proof.
  induction s as [|b s IH]; cbn; [done|]. case_bool_decide as Hb.
  - split; [done|]. intros Hc. specialize (Hc b Hb). by rewrite Ascii.eqb_refl in Hc.
  - rewrite IH. split; intros Hc c Hin; specialize (Hc c Hin).
    + destruct (Ascii.eqb_spec b c); [by subst|done].
    + by apply orb_false_iff in Hc as [_ Hc].
Qed.

Lemma find_any_app set s t : find_any set (s ++ t) = None <-> find_any set s = None /\ find_any set t = None.
Proof.
  induction s as [|b s IH]; cbn; [tauto|]. case_bool_decide; [|done]. split; [done|by intros [? _]].
Qed.

Definition inert (s : string) : Prop := find_any shell_metacharacters s = None.

Lemma inert_pieces s : inert s -> Forall (fun p => inert (rune_bytes p)) (pieces s).
Proof.
  unfold inert. rewrite <- (raw_pieces s) at 1. induction (pieces s) as [|p l IH]; cbn [raw]; [constructor|].
  rewrite find_any_app. intros [Hp Hl]. constructor; [|auto]. unfold rune_bytes.
  destruct (p_ok p); [done|]. vm_compute. reflexivity.
Qed.

Lemma split_loop_inert runes argv current quote open argv' :
  Forall (fun p => inert (rune_bytes p)) runes -> Forall inert argv -> inert current ->
  split_loop runes argv current quote open = Some argv' -> Forall inert argv'.
Proof.
  intros Hr. revert argv current quote open.
  assert (Hsnoc : forall (a : list string) c, Forall inert a -> inert c -> Forall inert (a ++ [c])%list).
  { intros a c Ha Hc. apply Forall_app. split; [done|]. by constructor. }
  assert (Happ : forall c (p : piece), inert c -> inert (rune_bytes p) -> inert (c ++ rune_bytes p)).
  { intros c p Hc Hp. by apply find_any_app. }
  induction Hr as [|p runes Hp Hr IH]; intros argv current quote open Ha Hc; cbn [split_loop].
  - destruct (negb (quote =? 0)); [done|]. intros [= <-]. destruct (_ || _); auto.
  - destruct (negb (quote =? 0)); [destruct (p_rune p =? quote); apply IH; auto|].
    destruct (_ || _); [apply IH; auto|]. destruct (is_space _); [|apply IH; auto].
    destruct (_ || _); apply IH; auto. reflexivity.
Qed.

Lemma split_args_inert command argv : inert command -> splitVerificationArgs command = Ok argv -> Forall inert argv.
Proof.
  unfold splitVerificationArgs. intros Hc. destruct (split_loop _ _ _ _ _) eqn:E; [|done]. intros [= <-].
  eapply split_loop_inert; [by apply inert_pieces|constructor| |exact E]. reflexivity.
Qed.

(** What the gate lets through. *)
Definition verifier (program : string) (args : list string) : Prop :=
  program ∈ verificationAllowlist /\
  (forall sub rest, args = sub :: rest -> sub ∉ verificationSubcommandDenylist program) /\
  (forall a, a ∈ args -> a <> "-exec" /\ has_prefix "-exec=" a = false) /\
  look_path program = true.

Lemma allowlist_bare program :
  program ∈ verificationAllowlist -> contains_char "/" program || contains_char "\" program = false.
Proof.
  intros Hp. unfold verificationAllowlist in Hp.
  repeat (apply elem_of_cons in Hp as [->|Hp]; [reflexivity|]). by apply elem_of_nil in Hp.
Qed.

Lemma check_argv_Ok argv argv' :
  check_argv argv = Ok argv' <-> argv' = argv /\ exists program args, argv = program :: args /\ verifier program args.
Proof.
  unfold check_argv, verifier. destruct argv as [|program args]; [naive_solver|]. unfold fail_if. split.
  - destruct (_ || _); [done|]. destruct (bool_decide_reflect (program ∈ verificationAllowlist)) as [Ha|]; [|done].
    cbn [negb]. destruct (match args with [] => false | _ => _ end) eqn:Ed; [done|].
    destruct (existsb is_exec_flag args) eqn:Ex; [done|]. destruct (look_path program) eqn:El; [|done].
    intros [= <-]. split; [done|]. exists program, args. split_and!; try done.
    + intros sub rest ->. by apply bool_decide_eq_false in Ed.
    + intros a Hin. apply not_true_iff_false in Ex. rewrite existsb_exists in Ex.
      destruct (is_exec_flag a) eqn:Ea; [destruct Ex; exists a; by rewrite <- list_elem_of_In|].
      unfold is_exec_flag in Ea. apply orb_false_iff in Ea as [Ea%String.eqb_neq Eb]. done.
  - intros (-> & ? & ? & [= <- <-] & Ha & Hd & He & ->). rewrite allowlist_bare by done.
    rewrite bool_decide_eq_true_2 by done. cbn [negb].
    replace (match args with [] => false | _ => _ end) with false.
    2: { destruct args as [|sub rest]; [done|]. symmetry. apply bool_decide_eq_false_2. by eapply Hd. }
    replace (existsb is_exec_flag args) with false; [done|]. symmetry. apply not_true_iff_false.
    rewrite existsb_exists. intros (a & Hin%list_elem_of_In & Hf). unfold is_exec_flag in Hf.
    apply He in Hin as [Hn%String.eqb_neq Hp]. by rewrite Hn, Hp in Hf.
Qed.

(** ** Properties *)

(** The verification gate runs only what it admits: a command yields an
    argument vector exactly when it is non-blank, bounded, free of control and
    shell metacharacters and well quoted, its program is an installed
    allowlisted verifier, its first argument is not a denied subcommand and no argument is
    an [-exec] flag; and then no argument carries a shell metacharacter. *)
Theorem parse_gate command argv :
  let trimmed := trim_space command in
  (parseVerificationCommand command = Ok argv <->
   trimmed <> "" /\ len trimmed <= applyMaxCommandLen /\
   (forall p, p ∈ pieces trimmed -> is_control (p_rune p) = true -> p_rune p = 9) /\
   inert trimmed /\ splitVerificationArgs trimmed = Ok argv /\
   exists program args, argv = program :: args /\ verifier program args) /\
  (parseVerificationCommand command = Ok argv -> Forall inert argv).
Proof.
  cbv zeta. set (t := trim_space command).
  assert (Hiff : parseVerificationCommand command = Ok argv <->
   t <> "" /\ len t <= applyMaxCommandLen /\
   existsb (fun p => (p_rune p =? 0) || (is_control (p_rune p) && negb (p_rune p =? 9))) (pieces t) = false /\
   inert t /\ splitVerificationArgs t = Ok argv /\
   exists program args, argv = program :: args /\ verifier program args).
  { unfold parseVerificationCommand, fail_if, inert. fold t.
    destruct (String.eqb_spec t ""); [intuition congruence|].
    destruct (Z.ltb_spec applyMaxCommandLen (len t)); [split; [done|lia]|].
    destruct (existsb _ (pieces t)); [intuition congruence|].
    destruct (find_any shell_metacharacters t); [intuition congruence|].
    destruct (splitVerificationArgs t) as [a|]; cbn [rbind]; [|intuition congruence].
    rewrite check_argv_Ok. split; [intros (-> & Hv); tauto|intros (_ & _ & _ & _ & [= ->] & Hv); tauto]. }
  split.
  - rewrite Hiff. do 2 (apply and_iff_compat_l). apply and_iff_compat_r.
    rewrite <- not_true_iff_false, existsb_exists. setoid_rewrite <- list_elem_of_In. split.
    + intros Hn p Hp Hc. destruct (Z.eqb_spec (p_rune p) 9); [done|]. destruct Hn. exists p. split; [done|].
      rewrite Hc. apply orb_true_iff. right. by rewrite (proj2 (Z.eqb_neq _ _)).
    + intros Hc (p & Hp & Hb). specialize (Hc p Hp). apply orb_true_iff in Hb as [Hz%Z.eqb_eq|[H1 H2]%andb_true_iff].
      * rewrite Hz in Hc. by specialize (Hc eq_refl).
      * rewrite (Hc H1) in H2. done.
  - intros (_ & _ & _ & Hi & Hs & _)%Hiff. by eapply split_args_inert.
Qed.
End gate.

(** ** Quoting *)

Definition quote_arg (a : string) : string := "'" ++ a ++ "'".
Definition quotable (a : string) : Prop :=
  valid_utf8 a = true /\ Forall (fun p => p_rune p <> single_quote) (pieces a).

Definition quote_piece : piece := Piece single_quote "'" true.
Definition space_piece : piece := Piece 32 " " true.

Lemma pieces_quote t : pieces ("'" ++ t) = quote_piece :: pieces t.
Proof. by rewrite pieces_app. Qed.

Lemma pieces_space t : pieces (" " ++ t) = space_piece :: pieces t.
Proof. by rewrite pieces_app. Qed.

Lemma split_loop_quoted l rest argv current open :
  Forall (fun p => p_rune p <> single_quote) l -> Forall (fun p => p_ok p = true) l ->
  split_loop (l ++ rest)%list argv current single_quote open =
  split_loop rest argv (current ++ raw l) single_quote open.
Proof.
  intros Hq. revert current. induction Hq as [|p l Hp Hq IH]; intros current Ho; cbn [app raw].
  - by rewrite append_nil_r.
  - apply Forall_cons in Ho as [Hok Ho]. cbn [split_loop negb Z.eqb single_quote].
    rewrite (proj2 (Z.eqb_neq _ _) Hp), IH by done. unfold rune_bytes. by rewrite Hok, append_assoc.
Qed.

Lemma split_loop_arg a rest argv :
  quotable a ->
  split_loop (pieces (quote_arg a) ++ rest)%list argv "" 0 false = split_loop rest argv a 0 true.
Proof.
  intros [Hv Hq]. unfold quote_arg. rewrite pieces_quote, pieces_app by done.
  rewrite <- app_comm_cons, <- app_assoc. cbn [split_loop p_rune quote_piece].
  change (negb (0 =? 0)) with false. change ((single_quote =? single_quote) || (single_quote =? double_quote)) with true.
  cbv iota. rewrite split_loop_quoted; [|done|].
  - rewrite raw_pieces. reflexivity.
  - apply Forall_forall. intros p Hp. unfold valid_utf8 in Hv. rewrite forallb_forall in Hv.
    by apply Hv, list_elem_of_In.
Qed.

Lemma quoted_valid a : quotable a -> valid_utf8 (quote_arg a) = true.
Proof. intros [Hv _]. unfold quote_arg. by rewrite !valid_utf8_app. Qed.

Lemma split_loop_args args argv a :
  quotable a -> Forall quotable args ->
  split_loop (pieces (join " " (map quote_arg (a :: args)))) argv "" 0 false = Some (argv ++ a :: args)%list.
Proof.
  intros Ha Hargs. revert argv a Ha. induction Hargs as [|b args Hb Hargs IH]; intros argv a Ha.
  - cbn [map join]. rewrite <- (app_nil_r (pieces (quote_arg a))), split_loop_arg by done. cbn.
    by rewrite orb_true_r.
  - change (join " " (map quote_arg (a :: b :: args)))
      with (quote_arg a ++ " " ++ join " " (map quote_arg (b :: args))).
    rewrite pieces_app, pieces_space by by apply quoted_valid.
    rewrite split_loop_arg by done. cbn [split_loop p_rune space_piece].
    change (negb (0 =? 0)) with false. change ((32 =? single_quote) || (32 =? double_quote)) with false.
    change (is_space 32) with true. cbv iota. rewrite orb_true_r. rewrite IH by done.
    by rewrite <- app_assoc.
Qed.

(** Every argument vector is expressible: single-quoting each argument
    (valid UTF-8 without a single quote) and joining with spaces splits back into
    exactly those arguments. *)
Theorem split_roundtrip args :
  Forall quotable args -> splitVerificationArgs (join " " (map quote_arg args)) = Ok args.
Proof.
  intros Ha. unfold splitVerificationArgs. destruct Ha as [|a args Ha Hargs]; [done|].
  by rewrite split_loop_args.
Qed.

Module VerifyRun.
Existing Instance demo_runtime.
Definition everything_installed : OsEnv := {| look_path := fun _ => true; getenv := fun _ => "" |}.
Existing Instance everything_installed.

Lemma split_roundtrip_witness :
  splitVerificationArgs (join " " (map quote_arg ["go"; "test"; ""; "a b"])) = Ok ["go"; "test"; ""; "a b"].
Proof.
  apply (split_roundtrip ["go"; "test"; ""; "a b"]).
  repeat constructor; cbn; try discriminate; vm_compute; discriminate.
Defined.

(** The deny list looks only at the first argument and only at the one-dash
    spelling: a flag before the subcommand, and the two-dash form of [-exec] that Go's
    flag package treats alike, pass the gate. *)
Theorem denylist_bypass :
  parseVerificationCommand "cargo run" = Err (verification_error "cargo run executes code chosen by the change set") /\
  parseVerificationCommand "cargo -q run" = Ok ["cargo"; "-q"; "run"] /\
  parseVerificationCommand "go test -exec=sh" = Err (verification_error "-exec selects an arbitrary runner") /\
  parseVerificationCommand "go test --exec=sh" = Ok ["go"; "test"; "--exec=sh"].
Proof. split_and!; vm_compute; reflexivity. Qed.
End VerifyRun.
