(* ===== verification/FileEdits.v ===== *)
(** * workflow: applying a file's edits

    Models [uniqueEditPaths], [editsForPath] and [applyFileEdits] of
    [services/brain/internal/workflow/apply.go], and shows that applying
    non-overlapping edits from the last to the first is one splice of the
    original bytes. *)

From Stdlib Require Import Ascii String.
From S2P Require Import Prelude GoString GoPath Float64 Runtime TextBound ChangeSet.
Open Scope string_scope.
Open Scope Z_scope.

Definition uniqueEditPaths (edits : list CandidateEdit) : list string :=
  sort_strings (dedup_key id [] (ce_Path <$> edits)).

Definition start_desc (a b : CandidateEdit) : bool := e_Start (ce_Range b) <? e_Start (ce_Range a).

Definition editsForPath (edits : list CandidateEdit) (path : string) : list CandidateEdit :=
  sort_by start_desc (edits_of path edits).

Definition range_error (r : EditRange) (n : Z) : string :=
  "range [" ++ dec (e_Start r) ++ "," ++ dec (e_End r) ++ ") outside " ++ dec n ++ "-byte file".

Fixpoint applyFileEdits (out : string) (edits : list CandidateEdit) : result string string :=
  match edits with
  | [] => Ok out
  | e :: edits' =>
      let r := ce_Range e in
      if (e_Start r <? 0) || (e_End r <? e_Start r) || (len out <? e_End r) then Err (range_error r (len out))
      else applyFileEdits
             (str_take (Z.to_nat (e_Start r)) out ++ ce_Replacement e ++ str_drop (Z.to_nat (e_End r)) out) edits'
  end.

(** ** The specification: one splice, left to right

    [body] is the part of the original file from offset [at]. *)
Fixpoint splice (at_ : Z) (body : string) (edits : list CandidateEdit) : string :=
  match edits with
  | [] => body
  | e :: edits' =>
      let r := ce_Range e in
      str_take (Z.to_nat (e_Start r - at_)) body ++ ce_Replacement e
      ++ splice (e_End r) (str_drop (Z.to_nat (e_End r - at_)) body) edits'
  end.

Definition start_asc (a b : CandidateEdit) : bool := e_Start (ce_Range a) <? e_Start (ce_Range b).

(** Ranges one after the other from offset [at]. *)
Fixpoint chain (at_ : Z) (edits : list CandidateEdit) : Prop :=
  match edits with
  | [] => True
  | e :: edits' => at_ <= e_Start (ce_Range e) <= e_End (ce_Range e) /\ chain (e_End (ce_Range e)) edits'
  end.

Definition disjoint_edits (edits : list CandidateEdit) : Prop :=
  (forall e, e ∈ edits -> EditRange_Valid (ce_Range e) = true) /\
  (forall a b, before a b edits -> Overlaps (ce_Range a) (ce_Range b) = false).

(** ** Lemmas *)

Lemma valid_range r : EditRange_Valid r = true <-> 0 <= e_Start r <= e_End r.
Proof. unfold EditRange_Valid. rewrite !andb_true_iff, !Z.leb_le. lia. Qed.

Lemma Overlaps_sym r o :
  EditRange_Valid r = true -> EditRange_Valid o = true -> Overlaps r o = Overlaps o r.
Proof.
  rewrite !valid_range. intros Hr Ho. unfold Overlaps.
  apply eq_true_iff_eq. destruct (Z.eqb_spec (e_Start r) (e_End r)), (Z.eqb_spec (e_Start o) (e_End o));
    rewrite !andb_true_iff, ?Z.leb_le, ?Z.ltb_lt; lia.
Qed.

Lemma apart r o :
  EditRange_Valid r = true -> EditRange_Valid o = true -> Overlaps r o = false ->
  e_End r <= e_Start o /\ e_Start r < e_Start o \/ e_End o <= e_Start r /\ e_Start o < e_Start r.
Proof.
  rewrite !valid_range. unfold Overlaps. intros Hr Ho.
  destruct (Z.eqb_spec (e_Start r) (e_End r)), (Z.eqb_spec (e_Start o) (e_End o));
    rewrite andb_false_iff, ?Z.leb_gt, ?Z.ltb_ge; lia.
Qed.

Lemma before_or {A} (a b : A) l : a ∈ l -> b ∈ l -> a = b \/ before a b l \/ before b a l.
Proof.
  induction l as [|x l IH]; [by intros ?%elem_of_nil|].
  intros [->|Ha]%elem_of_cons [->|Hb]%elem_of_cons; rewrite !before_cons; tauto.
Qed.

Lemma disjoint_apart l a b :
  disjoint_edits l -> a ∈ l -> b ∈ l -> a <> b ->
  e_End (ce_Range a) <= e_Start (ce_Range b) /\ e_Start (ce_Range a) < e_Start (ce_Range b) \/
  e_End (ce_Range b) <= e_Start (ce_Range a) /\ e_Start (ce_Range b) < e_Start (ce_Range a).
Proof.
  intros [Hv Ho] Ha Hb Hn. destruct (before_or a b l Ha Hb) as [?|[Hab|Hab]]; [done| |].
  - apply apart; auto.
  - apply apart; auto. rewrite Overlaps_sym by auto. auto.
Qed.

Lemma overlaps_refl r : EditRange_Valid r = true -> Overlaps r r = true.
Proof. rewrite valid_range. unfold Overlaps. intros. destruct (Z.eqb_spec (e_Start r) (e_End r)); lia. Qed.

Lemma disjoint_NoDup l : disjoint_edits l -> NoDup l.
Proof.
  intros [Hv Ho]. induction l as [|e l IH]; constructor.
  - intros Hin. assert (Hb : before e e (e :: l)) by (apply before_cons; by left).
    apply Ho in Hb. by rewrite overlaps_refl in Hb by (apply Hv; left).
  - apply IH; [intros x Hx; apply Hv; by right|]. intros a b Hab. apply Ho, before_cons. by right.
Qed.

#[export] Instance start_desc_weak : StrictWeak start_desc.
Proof. apply flip_weak. apply (on_key_weak (fun e => e_Start (ce_Range e)) Z.ltb), _. Qed.
#[export] Instance start_asc_weak : StrictWeak start_asc.
Proof. apply (on_key_weak (fun e => e_Start (ce_Range e)) Z.ltb), _. Qed.

Lemma same_start_eq l a b :
  disjoint_edits l -> a ∈ l -> b ∈ l -> e_Start (ce_Range a) = e_Start (ce_Range b) -> a = b.
Proof.
  intros Hd Ha Hb Hs. destruct (before_or a b l Ha Hb) as [|Hab]; [done|]. exfalso.
  destruct Hd as [Hv Ho].
  assert (Hov : Overlaps (ce_Range a) (ce_Range b) = false).
  { destruct Hab as [Hab|Hab]; [auto|]. rewrite Overlaps_sym by auto. auto. }
  apply apart in Hov; [lia|auto..].
Qed.

Lemma strongly_sorted_snoc {A} (R : A -> A -> Prop) l x :
  StronglySorted R l -> Forall (fun y => R y x) l -> StronglySorted R (l ++ [x])%list.
Proof.
  induction 1 as [|y l Hs IH Hy]; cbn; [by repeat constructor|]. intros [Hyx Hl]%Forall_cons.
  constructor; [auto|]. apply Forall_app. split; [done|]. by constructor.
Qed.

Lemma strongly_sorted_rev {A} (R : A -> A -> Prop) l :
  StronglySorted R l -> StronglySorted (fun a b => R b a) (rev l).
Proof.
  induction 1 as [|x l Hs IH Hx]; cbn; [constructor|]. apply strongly_sorted_snoc; [done|].
  apply Forall_rev. done.
Qed.

Lemma desc_rev_asc l : disjoint_edits l -> sort_by start_desc l = rev (sort_by start_asc l).
Proof.
  intros Hd. apply (strongly_sorted_unique start_desc).
  - intros a b Ha%elem_of_sort_by Hb%elem_of_sort_by H1 H2. unfold start_desc in *. bool_prop.
    apply (same_start_eq l); [done..|lia].
  - apply sort_by_sorted, _.
  - eapply strongly_sorted_impl_in; [|apply strongly_sorted_rev, (sort_by_sorted start_asc)].
    intros x y _ _. done.
  - rewrite sort_by_perm, <- Permutation_rev, sort_by_perm. done.
Qed.

Lemma chain_sorted l : disjoint_edits l -> chain 0 (sort_by start_asc l).
Proof.
  intros Hd.
  assert (Hs := sort_by_sorted start_asc l). assert (Hn := disjoint_NoDup l Hd).
  apply (sort_by_NoDup start_asc) in Hn.
  assert (Hin : forall e, e ∈ sort_by start_asc l -> e ∈ l) by (intros e; apply elem_of_sort_by).
  assert (H0 : forall e, e ∈ sort_by start_asc l -> 0 <= e_Start (ce_Range e)).
  { intros e He. apply Hin in He. by apply Hd, valid_range in He as [? _]. }
  revert H0. generalize 0 as k. induction Hs as [|e s Hs IH He]; intros k H0; cbn; [done|].
  apply NoDup_cons in Hn as [Hne Hn]. split.
  - split; [apply H0; left|]. by apply valid_range, Hd, Hin; left.
  - apply IH; [done|intros x Hx; apply Hin; by right|]. intros x Hx.
    rewrite Forall_forall in He. specialize (He x Hx). unfold not_after, start_asc in He. bool_prop.
    destruct (disjoint_apart l e x) as [?|?]; [done|apply Hin; left|apply Hin; by right| |lia|lia].
    by intros ->.
Qed.

Lemma str_take_take n m s t : (n <= m)%nat -> (m <= String.length s)%nat ->
  str_take n (str_take m s ++ t) = str_take n s.
Proof.
  revert n m. induction s as [|c s IH]; intros n m Hn Hm; cbn in Hm.
  - replace m with 0%nat by lia. replace n with 0%nat by lia. by destruct t.
  - destruct m as [|m]; [replace n with 0%nat by lia; by destruct t|].
    destruct n as [|n]; [done|]. cbn. f_equal. apply IH; lia.
Qed.

Lemma str_drop_take n m s t : (n <= m)%nat -> (m <= String.length s)%nat ->
  str_drop n (str_take m s ++ t) = str_take (m - n) (str_drop n s) ++ t.
Proof.
  revert n m. induction s as [|c s IH]; intros n m Hn Hm; cbn in Hm.
  - replace m with 0%nat by lia. replace n with 0%nat by lia. done.
  - destruct n as [|n]; [by rewrite Nat.sub_0_r|]. destruct m as [|m]; [lia|].
    cbn. apply IH; lia.
Qed.

(** The last edit of a chain can be made first. *)
Lemma splice_snoc lo hi k body :
  chain k (lo ++ [hi])%list -> 0 <= k -> e_End (ce_Range hi) - k <= len body ->
  splice k body (lo ++ [hi])%list =
  splice k (str_take (Z.to_nat (e_Start (ce_Range hi) - k)) body ++ ce_Replacement hi
            ++ str_drop (Z.to_nat (e_End (ce_Range hi) - k)) body) lo.
Proof.
  revert k body. induction lo as [|e lo IH]; intros k body; cbn [app chain splice]; [done|].
  intros [He Hc] Hk Hl.
  assert (Hhi : e_End (ce_Range e) <= e_Start (ce_Range hi) <= e_End (ce_Range hi)).
  { clear -Hc. revert Hc. generalize (e_End (ce_Range e)). induction lo as [|x lo IH]; cbn; intros z; [lia|].
    intros [Hx Hc]. apply IH in Hc. lia. }
  unfold len in Hl. rewrite IH; [|done|lia|unfold len; rewrite length_str_drop; lia].
  rewrite str_take_take, str_drop_take by lia. f_equal. f_equal. f_equal. f_equal.
  - f_equal. lia.
  - f_equal. rewrite <- str_drop_add. f_equal. lia.
Qed.

Lemma chain_app_l k lo hi : chain k (lo ++ hi)%list -> chain k lo.
Proof. revert k. induction lo as [|e lo IH]; intros k; cbn; [done|]. intros [? ?]. split; [done|]. by apply IH. Qed.

Lemma chain_end k lo hi :
  chain k (lo ++ [hi])%list -> k <= e_Start (ce_Range hi) <= e_End (ce_Range hi) /\
  forall e, e ∈ lo -> e_End (ce_Range e) <= e_Start (ce_Range hi).
Proof.
  revert k. induction lo as [|x lo IH]; intros k; cbn.
  - intros [? _]. split; [lia|]. by intros e ?%elem_of_nil.
  - intros [Hx Hc]. apply IH in Hc as [Hc Hl]. split; [lia|]. intros e [->|He]%elem_of_cons; [lia|auto].
Qed.

Lemma apply_chain l body :
  chain 0 l ->
  if bool_decide (Forall (fun e => e_End (ce_Range e) <= len body) l)
  then applyFileEdits body (rev l) = Ok (splice 0 body l)
  else exists r n, applyFileEdits body (rev l) = Err (range_error r n).
Proof.
  revert body. induction l as [|hi lo IH] using rev_ind; intros body Hc; [done|].
  rewrite rev_app_distr. cbn [rev app applyFileEdits].
  destruct (chain_end _ _ _ Hc) as [Hhi Hlo].
  rewrite (proj2 (Z.ltb_ge (e_Start (ce_Range hi)) 0)) by lia.
  rewrite (proj2 (Z.ltb_ge (e_End (ce_Range hi)) (e_Start (ce_Range hi)))) by lia. cbn [orb].
  case_bool_decide as Hf.
  - apply Forall_app in Hf as [Hf [Hl _]%Forall_cons].
    rewrite (proj2 (Z.ltb_ge (len body) (e_End (ce_Range hi)))) by lia.
    rewrite splice_snoc by (try done; lia). rewrite !Z.sub_0_r.
    specialize (IH (str_take (Z.to_nat (e_Start (ce_Range hi))) body ++ ce_Replacement hi
      ++ str_drop (Z.to_nat (e_End (ce_Range hi))) body) (chain_app_l _ _ _ Hc)).
    rewrite bool_decide_eq_true_2 in IH; [done|]. apply Forall_forall. intros e He.
    specialize (Hlo e He). unfold len in *. rewrite length_append, length_str_take. lia.
  - destruct (Z.ltb_spec (len body) (e_End (ce_Range hi))); [eauto|]. exfalso. apply Hf, Forall_app. split.
    + apply Forall_forall. intros e He. specialize (Hlo e He). lia.
    + constructor; [lia|constructor].
Qed.

(** ** Properties *)

(** C36. Applying a file's edits from the last offset to the first is a
    simultaneous splice of the original bytes: for well-formed, pairwise
    non-overlapping edits the result is the original text with each range
    replaced, read left to right, whenever every range lies inside the file, and a range
    error otherwise; the order in which the change set lists the edits does not
    matter. *)
Theorem edits_are_a_splice edits edits' path body :
  disjoint_edits (edits_of path edits) -> edits_of path edits' ≡ₚ edits_of path edits ->
  applyFileEdits body (editsForPath edits' path) = applyFileEdits body (editsForPath edits path) /\
  if bool_decide (Forall (fun e => e_End (ce_Range e) <= len body) (edits_of path edits))
  then applyFileEdits body (editsForPath edits path)
         = Ok (splice 0 body (sort_by start_asc (edits_of path edits)))
  else exists r n, applyFileEdits body (editsForPath edits path) = Err (range_error r n).
Proof.
  intros Hd Hp. split.
  - unfold editsForPath. f_equal. apply sort_by_perm_eq; [apply _| |done].
    intros a b Ha Hb H1 H2. rewrite Hp in Ha, Hb. unfold start_desc in *. bool_prop.
    apply (same_start_eq _ _ _ Hd Ha Hb). lia.
  - unfold editsForPath. rewrite desc_rev_asc by done.
    pose proof (apply_chain _ body (chain_sorted _ Hd)) as Ha.
    rewrite (bool_decide_ext _ (Forall (fun e => e_End (ce_Range e) <= len body) (edits_of path edits))) in Ha;
      [done|by rewrite sort_by_perm].
Qed.

Module SpliceRun.
Import ChangeSetRun.
Definition two : list CandidateEdit := [edit "a.go" 5 5 "X"; edit "b.go" 0 9 "-"; edit "a.go" 1 3 "YYYY"].

Lemma edits_are_a_splice_witness :
  applyFileEdits "abcdefg" (editsForPath two "a.go") = Ok "aYYYYdeXfg" /\
  splice 0 "abcdefg" (sort_by start_asc (edits_of "a.go" two)) = "aYYYYdeXfg".
Proof.
  split; [|reflexivity].
  pose proof (edits_are_a_splice two two "a.go" "abcdefg") as [_ Hs].
  - split.
    + intros e He. vm_compute in He. do 2 (apply elem_of_cons in He as [->|He]; [reflexivity|]).
      by apply elem_of_nil in He.
    + intros a b Hab. vm_compute in Hab. apply before_cons in Hab as [[-> Hb]|Hab].
      * apply list_elem_of_singleton in Hb as ->. reflexivity.
      * apply before_cons in Hab as [[-> Hb]|Hab]; [by apply elem_of_nil in Hb|by apply before_nil in Hab].
  - reflexivity.
  - exact Hs.
Defined.
End SpliceRun.
