(* ===== verification/Apply.v ===== *)
(** * workflow: applying a change set

    Models [ApplyChangeSet] of [services/brain/internal/workflow/apply.go] and
    what it calls: freezing the requested base, staging, verification commands and the
    promotion of the changed files with rollback.

    The work tree is a finite map from repository-relative paths to contents and
    permission bits.  What the operating system, git and the verifier processes answer is
    an [ApplyEnv], an argument of the definitions; [ae_world] is what other
    processes do to the tree before each promotion step.  The isolated copy
    made by [stageTree] (a git worktree or a copied directory) is a tree of its
    own, [ae_stage]. *)

From Stdlib Require Import Ascii String.
From S2P Require Import Prelude GoString GoPath Float64 Runtime TextBound ChangeSet FileEdits Verify.
Open Scope string_scope.
Open Scope Z_scope.

Definition applyMaxEdits : Z := 128.
Definition applyMaxFileBytes : Z := 8 * 2 ^ 20.
Definition applyMaxCommands : Z := 8.
Definition applyOutputBytes : Z := 64 * 2 ^ 10.

Definition FailAfterStage : string := "after_stage".
Definition FailDuringPromotion : string := "during_promotion".
Definition FailDuringRollback : string := "during_rollback".

Abbreviation FS := (gmap string (string * Z)).

Record CommandReceipt := MkCommandReceipt {
  cr_Command : string; cr_Passed : bool; cr_ExitCode : Z; cr_OutputDigest : string; cr_Truncated : bool
}.

Record ApplyReceipt := MkReceipt {
  ra_Schema : string;
  ra_Applied : bool;
  ra_Base : string;
  ra_BeforeDigest : string;
  ra_AfterDigest : string;
  ra_Paths : list string;
  ra_Validation : ValidationResult;
  ra_Verification : list CommandReceipt;
  ra_RolledBack : bool;
  ra_Failure : string;
  ra_Digest : string
}.

(** ** The environment of one call *)

(** A finished process: what it wrote, piece by piece, and [cmd.Run]'s error: none, an exit code,
    or another error. *)
Inductive exec_status := ExecOk | ExecExit (code : Z) | ExecFailed.
Record exec_result := MkExec { x_writes : list string; x_status : exec_status }.

Record GitAnswers := MkGit {
  g_top : option string;              (* rev-parse --show-toplevel *)
  g_resolve : string -> option string; (* EvalSymlinks *)
  g_head : result string string;      (* rev-parse HEAD *)
  g_status : result string string     (* status --porcelain *)
}.

Record ApplyEnv := MkEnv {
  ae_root : result string string;                 (* Abs and EvalSymlinks of the root *)
  ae_target : string -> result string unit;       (* safeExistingFile: links, containment, regular file *)
  ae_stat : string -> result string unit;
  ae_read : string -> result string unit;
  ae_git : GitAnswers;
  ae_stage : result string (string * FS);         (* stageTree: directory and contents *)
  ae_stage_target : string -> result string unit;
  ae_stage_read : string -> result string unit;
  ae_stage_write : string -> result string unit;
  ae_exec : FS -> list string -> list string -> exec_result;
  ae_world : nat -> FS -> FS;
  ae_reread : nat -> bool;                        (* the read before the i-th promotion *)
  ae_promote : nat -> result string unit;         (* atomicWrite of the i-th promotion *)
  ae_restore : string -> result string unit       (* atomicWrite of a rollback *)
}.

(** [encoding/json] on an apply receipt. *)
Class ApplyJson := { marshal_apply : ApplyReceipt -> string }.

Definition set_failure (rc : ApplyReceipt) (failure digest : string) : ApplyReceipt :=
  MkReceipt (ra_Schema rc) false (ra_Base rc) (ra_BeforeDigest rc) (ra_AfterDigest rc) (ra_Paths rc)
    (ra_Validation rc) (ra_Verification rc) (ra_RolledBack rc) failure digest.

Definition set_digest (rc : ApplyReceipt) (applied : bool) (digest : string) : ApplyReceipt :=
  MkReceipt (ra_Schema rc) applied (ra_Base rc) (ra_BeforeDigest rc) (ra_AfterDigest rc) (ra_Paths rc)
    (ra_Validation rc) (ra_Verification rc) (ra_RolledBack rc) (ra_Failure rc) digest.

(** ** The capped output buffer *)

Record cappedBuffer := MkBuffer { b_bytes : string; b_limit : Z; b_truncated : bool }.

Definition Write (b : cappedBuffer) (p : string) : cappedBuffer :=
  let remain := b_limit b - len (b_bytes b) in
  MkBuffer
    (if 0 <? remain then b_bytes b ++ (if remain <? len p then str_take (Z.to_nat remain) p else p) else b_bytes b)
    (b_limit b) (b_truncated b || (remain <? len p)).

(** ** Git base *)

Fixpoint status_clean (lines : list string) : bool :=
  match lines with
  | [] => true
  | l :: lines' =>
      let line := trim_space l in
      if String.eqb line "" || has_prefix "?? .sentra/" line then status_clean lines' else false
  end.

Definition verifyGitBase (git : GitAnswers) (root base : string) : result string unit :=
  match g_top git with
  | None => Ok tt
  | Some top =>
      if negb (bool_decide (g_resolve git (trim_space top) = Some root)) then Err "apply root must be git worktree root"
      else if blank base then Err "git base required"
      else do head <- g_head git ;
           (if negb (String.eqb (trim_space head) (trim_space base)) then Err "stale git base"
            else do status <- g_status git ;
                 if status_clean (split_char "010" (trim_space status)) then Ok tt
                 else Err "git base is not a clean frozen tree")
  end.

Section apply.
Context `{GoRuntime} `{OsEnv} `{ReceiptJson} `{ApplyJson}.

Definition sha_label (s : string) : string := "sha256:" ++ sha256_16 s.

Definition pathDigest (paths : list string) (digests : gmap string string) : string :=
  sha_label (fold_right (fun p acc => p ++ String "000" (default "" (digests !! p)) ++ String "010" acc) "" paths).

Definition applyReceiptDigest (rc : ApplyReceipt) : string := sha_label (marshal_apply (set_digest rc (ra_Applied rc) "")).

Definition runVerification (env : ApplyEnv) (stage : string) (tree : FS) (command : string) : CommandReceipt :=
  match parseVerificationCommand command with
  | Err reason =>
      let buf := Write (MkBuffer "" applyOutputBytes false) reason in
      MkCommandReceipt command false (-1) (sha_label (b_bytes buf)) false
  | Ok argv =>
      let r := ae_exec env tree argv (verificationEnv stage) in
      let buf := fold_left Write (x_writes r) (MkBuffer "" applyOutputBytes false) in
      let exit := match x_status r with ExecOk => 0 | ExecExit c => c | ExecFailed => -1 end in
      MkCommandReceipt command (match x_status r with ExecOk => true | _ => false end) exit
        (sha_label (b_bytes buf)) (b_truncated buf)
  end.

(** The path and containment checks on an edit target. *)
Definition safeExistingFile (target : string -> result string unit) (rel : string) : result string unit :=
  do _ <- validateChangePath rel ;
  fail_if (negb (String.eqb (Clean rel) rel)) ("non-canonical path rejected: " ++ quote rel)
  (target rel).

(** Reading a file of a tree. *)
Definition read_file (may : result string unit) (tree : FS) (rel : string) : result string (string * Z) :=
  do _ <- may ;
  match tree !! rel with
  | None => Err ("open " ++ rel ++ ": no such file or directory")
  | Some f => Ok f
  end.

(** ** Phase 1: request bounds *)

Definition check_request (inject : string) (cs : ChangeSet) : result string unit :=
  fail_if (negb (bool_decide (inject ∈ [""; FailAfterStage; FailDuringPromotion; FailDuringRollback])))
    "unknown failure injection point"
  (fail_if (bool_decide (length (cs_Edits cs) = 0%nat) || (applyMaxEdits <? Z.of_nat (length (cs_Edits cs))))
    ("changeset edit count must be 1.." ++ dec applyMaxEdits)
  (fail_if (applyMaxCommands <? Z.of_nat (length (cs_VerificationCommands cs)))
    ("verification command count exceeds " ++ dec applyMaxCommands)
  (Ok tt))).

Definition with_edits (cs : ChangeSet) (edits : list CandidateEdit) : ChangeSet :=
  MkChangeSet (cs_Schema cs) (cs_Base cs) (cs_BaseDigests cs) edits (cs_VerificationCommands cs).

Definition set_observed (d : string) (e : CandidateEdit) : CandidateEdit :=
  MkEdit (ce_Path e) (ce_Range e) (ce_Symbol e) (ce_BaseDigest e) (ce_PredictedDigest e) d (ce_Replacement e).

(** ** Phase 2: freezing the base *)

(** A stale base is told apart: it is also recorded in the validation receipt. *)
Inductive freeze_error := FreezeFailed (msg : string) | FreezeStale (rel : string).

Definition lift_freeze {A} (r : result string A) : result freeze_error A :=
  match r with Ok x => Ok x | Err e => Err (FreezeFailed e) end.

Definition freeze_one (env : ApplyEnv) (cs : ChangeSet) (fs : FS) (rel : string) : result freeze_error (string * Z) :=
  do _ <- lift_freeze (safeExistingFile (ae_target env) rel) ;
  do info <- lift_freeze (read_file (ae_stat env rel) fs rel) ;
  fail_if (applyMaxFileBytes <? len (fst info))
    (FreezeFailed (rel ++ " exceeds " ++ dec applyMaxFileBytes ++ "-byte edit limit"))
  (do file <- lift_freeze (read_file (ae_read env rel) fs rel) ;
   fail_if (negb (String.eqb (default "" (cs_BaseDigests cs !! rel)) (Digest (fst file)))) (FreezeStale rel)
   (Ok file)).

Fixpoint freeze (env : ApplyEnv) (cs : ChangeSet) (fs : FS) (paths : list string) (original : FS)
    : result freeze_error FS :=
  match paths with
  | [] => Ok original
  | rel :: paths' =>
      do file <- freeze_one env cs fs rel ;
      freeze env cs fs paths' (<[rel := file]> original)
  end.

Definition stale_validation (v : ValidationResult) (rel : string) : ValidationResult :=
  finalizeValidation (MkValidation (vr_Schema v) false (vr_Rejected v ++ [RejectStaleBase])%list
    (vr_Reasons v ++ [(rel ++ ": working tree digest moved since freeze")%string])%list (vr_PerEdit v) (vr_GraphDelta v)
    (vr_VerificationCommands v) (vr_Base v) (vr_Digest v)).

Definition digests_of (m : FS) : gmap string string := (fun f => Digest (fst f)) <$> m.

(** ** Phase 3: building the candidate in the stage *)

Definition stage_one (env : ApplyEnv) (cs : ChangeSet) (original tree : FS) (rel : string) : result string (string * Z) :=
  do _ <- safeExistingFile (ae_stage_target env) rel ;
  do file <- read_file (ae_stage_read env rel) tree rel ;
  fail_if (negb (bool_decide (Some (Digest (fst file)) = digests_of original !! rel)))
    ("staged base differs for " ++ rel)
  (match applyFileEdits (fst file) (editsForPath (cs_Edits cs) rel) with
   | Err e => Err (rel ++ ": " ++ e)
   | Ok body =>
       do _ <- ae_stage_write env rel ;
       Ok (body, match original !! rel with Some f => snd f | None => 0 end)
   end).

(** [after] collects the new bodies with the original modes. *)
Fixpoint build (env : ApplyEnv) (cs : ChangeSet) (original : FS) (paths : list string) (tree after : FS)
    : result string (FS * FS) :=
  match paths with
  | [] => Ok (tree, after)
  | rel :: paths' =>
      do file <- stage_one env cs original tree rel ;
      build env cs original paths' (<[rel := file]> tree) (<[rel := file]> after)
  end.

Definition observed_edits (after : FS) (edits : list CandidateEdit) : list CandidateEdit :=
  map (fun e => match after !! ce_Path e with
                | Some f => set_observed (Digest (fst f)) e
                | None => e
                end) edits.

(** ** Phase 4: verification *)

Fixpoint verify_all (env : ApplyEnv) (stage : string) (tree : FS) (commands : list string) (done : list CommandReceipt)
    : list CommandReceipt * option string :=
  match commands with
  | [] => (done, None)
  | c :: commands' =>
      if (len c =? 0) || (applyMaxCommandLen <? len c) then (done, Some "invalid verification command length")
      else
        let vr := runVerification env stage tree c in
        if cr_Passed vr then verify_all env stage tree commands' (done ++ [vr])%list
        else ((done ++ [vr])%list, Some ("verification failed: " ++ c))
  end.

(** ** Phase 5: promotion and rollback *)

(** Restores the promoted files, last first; failures are collected. *)
Fixpoint rollback (env : ApplyEnv) (inject : string) (original : FS) (promoted : list string) (fs : FS)
    : list string * FS :=
  match promoted with
  | [] => ([], fs)
  | rel :: promoted' =>
      if String.eqb inject FailDuringRollback then
        let '(errs, fs') := rollback env inject original promoted' fs in
        (("restore " ++ rel ++ ": injected rollback failure") :: errs, fs')
      else match ae_restore env rel with
           | Err e =>
               let '(errs, fs') := rollback env inject original promoted' fs in
               (("restore " ++ rel ++ ": " ++ e) :: errs, fs')
           | Ok _ =>
               rollback env inject original promoted'
                 (match original !! rel with Some f => <[rel := f]> fs | None => fs end)
           end
  end.

(** The promotion loop; [promoted] is last first. On failure: the cause. *)
Fixpoint promote (env : ApplyEnv) (inject : string) (original after : FS) (i : nat) (paths promoted : list string)
    (fs : FS) : option string * list string * FS :=
  match paths with
  | [] => (None, promoted, fs)
  | rel :: paths' =>
      let fs := ae_world env i fs in
      let frozen := fst <$> original !! rel in
      if negb (ae_reread env i && bool_decide (Digest <$> (fst <$> fs !! rel) = Digest <$> frozen))
      then (Some ("concurrent change detected before promoting " ++ rel), promoted, fs)
      else match ae_promote env i with
           | Err e => (Some ("promote " ++ rel ++ ": " ++ e), promoted, fs)
           | Ok _ =>
               let fs := match after !! rel with Some f => <[rel := f]> fs | None => fs end in
               if (String.eqb inject FailDuringPromotion || String.eqb inject FailDuringRollback)
                  && bool_decide (i = 0%nat)
               then (Some "injected failure during promotion", rel :: promoted, fs)
               else promote env inject original after (S i) paths' (rel :: promoted) fs
           end
  end.

(** ** [ApplyChangeSet]: the receipt, the error and the tree afterwards *)

Definition outcome : Type := ApplyReceipt * option string * FS.

Definition fail (rc : ApplyReceipt) (msg : string) (fs : FS) : outcome :=
  let rc' := set_failure rc msg (ra_Digest rc) in
  (set_failure rc msg (applyReceiptDigest rc'), Some msg, fs).

Definition no_validation : ValidationResult := MkValidation "" false [] [] [] [] [] "" "".

Definition finish (env : ApplyEnv) (inject : string) (original after : FS) (paths : list string)
    (rc : bool -> ApplyReceipt) (fs : FS) : outcome :=
  match promote env inject original after 0 paths [] fs with
  | (None, _, fs') => (set_digest (rc false) true (applyReceiptDigest (set_digest (rc false) true "")), None, fs')
  | (Some cause, promoted, fs') =>
      match rollback env inject original promoted fs' with
      | ([], fs'') => fail (rc (negb (bool_decide (length promoted = 0%nat)))) cause fs''
      | (errs, fs'') =>
          fail (rc false) (cause ++ "; rollback failed: " ++ join (String "010" "") errs) fs''
      end
  end.

Definition ApplyChangeSet (env : ApplyEnv) (inject : string) (cs : ChangeSet) (fs : FS) : outcome :=
  let rc before after paths validation verification rolled :=
    MkReceipt "sentra-scm.apply-changeset/v1" false (cs_Base cs) before after paths validation verification rolled "" "" in
  let rc0 := rc "" "" [] no_validation [] false in
  match check_request inject cs, ae_root env with
  | Err e, _ => fail rc0 e fs
  | Ok _, Err e => fail rc0 e fs
  | Ok _, Ok root =>
      let pre := Validate (with_edits cs (map (fun e => set_observed (ce_PredictedDigest e) e) (cs_Edits cs))) in
      if negb (vr_Accepted pre) then fail (rc "" "" [] pre [] false) "changeset validation rejected" fs
      else
        let paths := uniqueEditPaths (cs_Edits cs) in
        match freeze env cs fs paths ∅ with
        | Err (FreezeFailed e) => fail (rc "" "" paths pre [] false) e fs
        | Err (FreezeStale rel) =>
            fail (rc "" "" paths (stale_validation pre rel) [] false) ("stale base for " ++ rel) fs
        | Ok original =>
            let before := pathDigest paths (digests_of original) in
            match verifyGitBase (ae_git env) root (cs_Base cs) with
            | Err e => fail (rc before "" paths pre [] false) e fs
            | Ok _ =>
                match ae_stage env with
                | Err e => fail (rc before "" paths pre [] false) e fs
                | Ok (stage, tree) =>
                    if String.eqb inject FailAfterStage then
                      fail (rc before "" paths pre [] false) "injected failure after staging" fs
                    else
                      match build env cs original paths tree ∅ with
                      | Err e => fail (rc before "" paths pre [] false) e fs
                      | Ok (tree', after) =>
                          let post := Validate (with_edits cs (observed_edits after (cs_Edits cs))) in
                          if negb (vr_Accepted post) then
                            fail (rc before "" paths post [] false) "observed candidate validation rejected" fs
                          else
                            match verify_all env stage tree' (dedupStrings (cs_VerificationCommands cs)) [] with
                            | (vs, Some e) => fail (rc before "" paths post vs false) e fs
                            | (vs, None) =>
                                finish env inject original after paths
                                  (rc before (pathDigest paths (digests_of after)) paths post vs) fs
                            end
                      end
                end
            end
        end
  end.

(** ** Lemmas *)

Lemma lift_freeze_Ok {A} (r : result string A) x : lift_freeze r = Ok x <-> r = Ok x.
Proof. destruct r; cbn; naive_solver. Qed.

Lemma read_file_Ok may tree rel f : read_file may tree rel = Ok f -> tree !! rel = Some f.
Proof. unfold read_file. rewrite rbind_Ok. intros (_ & _ & Hr). destruct (tree !! rel); naive_solver. Qed.

Lemma freeze_one_Ok env cs fs rel file :
  freeze_one env cs fs rel = Ok file ->
  fs !! rel = Some file /\ default "" (cs_BaseDigests cs !! rel) = Digest (fst file).
Proof.
  unfold freeze_one. intros (_ & _ & Hf)%rbind_Ok. apply rbind_Ok in Hf as (info & _ & Hf).
  apply fail_if_Ok in Hf as [_ Hf]. apply rbind_Ok in Hf as (f & Hr%lift_freeze_Ok%read_file_Ok & Hf).
  apply fail_if_Ok in Hf as [Hd [= <-]]. split; [done|]. apply negb_false_iff in Hd. by apply String.eqb_eq.
Qed.

Lemma freeze_Ok env cs fs paths m original :
  freeze env cs fs paths m = Ok original ->
  (forall p, p ∉ paths -> original !! p = m !! p) /\
  (forall p, p ∈ paths -> exists f, original !! p = Some f /\ fs !! p = Some f /\
     default "" (cs_BaseDigests cs !! p) = Digest (fst f)).
Proof.
  revert m. induction paths as [|rel paths IH]; intros m; cbn.
  - intros [= <-]. split; [done|]. by intros p ?%elem_of_nil.
  - intros (file & Hone & Hf)%rbind_Ok. apply freeze_one_Ok in Hone as [Hfs Hd].
    apply IH in Hf as [Hout Hin]. split.
    + intros p [Hne Hp]%not_elem_of_cons. rewrite Hout by done. by rewrite lookup_insert_ne.
    + intros p [->|Hp]%elem_of_cons; [|by apply Hin].
      destruct (decide (rel ∈ paths)); [by apply Hin|]. exists file. rewrite Hout by done. by rewrite lookup_insert_eq.
Qed.

Definition staged_as (cs : ChangeSet) (original tree : FS) (p : string) (f : string * Z) : Prop :=
  exists staged old, tree !! p = Some staged /\ original !! p = Some old /\
    Digest (fst staged) = Digest (fst old) /\ snd f = snd old /\
    applyFileEdits (fst staged) (editsForPath (cs_Edits cs) p) = Ok (fst f).

Lemma stage_one_Ok env cs original tree rel f :
  stage_one env cs original tree rel = Ok f -> staged_as cs original tree rel f.
Proof.
  unfold stage_one. intros (_ & _ & Hs)%rbind_Ok. apply rbind_Ok in Hs as (file & Hr%read_file_Ok & Hs).
  apply fail_if_Ok in Hs as [Hd Hs]. apply negb_false_iff, bool_decide_eq_true in Hd.
  destruct (applyFileEdits _ _) as [body|] eqn:Ea; [|done]. apply rbind_Ok in Hs as (_ & _ & [= <-]).
  unfold digests_of in Hd. rewrite lookup_fmap in Hd. destruct (original !! rel) as [old|] eqn:Eo; [|done].
  cbn in Hd. injection Hd as Hd. exists file, old. done.
Qed.

Lemma build_Ok env cs original paths tree after tree' after' :
  NoDup paths -> build env cs original paths tree after = Ok (tree', after') ->
  (forall p, p ∉ paths -> after' !! p = after !! p) /\
  (forall p, p ∈ paths -> exists f, after' !! p = Some f /\ staged_as cs original tree p f).
Proof.
  intros Hnd. revert tree after. induction Hnd as [|rel paths Hrel Hnd IH]; intros tree after; cbn.
  - intros [= <- <-]. split; [done|]. by intros p ?%elem_of_nil.
  - intros (f & Hone%stage_one_Ok & Hb)%rbind_Ok. apply IH in Hb as [Hout Hin]. split.
    + intros p [Hne Hp]%not_elem_of_cons. rewrite Hout by done. by rewrite lookup_insert_ne.
    + intros p [->|Hp]%elem_of_cons.
      * exists f. rewrite Hout by done. by rewrite lookup_insert_eq.
      * destruct (Hin p Hp) as (g & Hg & staged & old & Ht & Hrest). exists g. split; [done|].
        rewrite lookup_insert_ne in Ht by (by intros ->). by exists staged, old.
Qed.

Lemma verify_all_None env stage tree commands done vs :
  verify_all env stage tree commands done = (vs, None) ->
  vs = (done ++ map (runVerification env stage tree) commands)%list /\
  Forall (fun c => cr_Passed (runVerification env stage tree c) = true) commands.
Proof.
  revert done. induction commands as [|c commands IH]; intros done; cbn.
  - intros [= <-]. rewrite app_nil_r. split; [easy|constructor].
  - destruct (_ || _); [easy|]. destruct (cr_Passed _) eqn:Ep; [|easy]. intros [-> Hf]%IH.
    split; [by rewrite <- app_assoc|by constructor].
Qed.

Lemma run_command env stage tree c : cr_Command (runVerification env stage tree c) = c.
Proof. unfold runVerification. by destruct (parseVerificationCommand c). Qed.

(** [p] is not touched by other processes. *)
Definition quiet (env : ApplyEnv) (p : string) : Prop := forall i m, ae_world env i m !! p = m !! p.

Lemma rollback_Ok env inject original promoted fs fs' :
  (forall p, p ∈ promoted -> is_Some (original !! p)) ->
  rollback env inject original promoted fs = ([], fs') ->
  forall p, fs' !! p = if decide (p ∈ promoted) then original !! p else fs !! p.
Proof.
  revert fs. induction promoted as [|rel promoted IH]; intros fs Hs; cbn.
  - intros [= <-] p. by rewrite decide_False by apply not_elem_of_nil.
  - destruct (String.eqb inject FailDuringRollback); [by destruct (rollback _ _ _ _ _)|].
    destruct (ae_restore env rel); [|by destruct (rollback _ _ _ _ _)].
    destruct (Hs rel) as [f Hf]; [left|]. rewrite Hf. intros Hr p.
    rewrite (IH _ (fun q Hq => Hs q (list_elem_of_further _ _ _ Hq)) Hr p).
    destruct (decide (p ∈ promoted)); [by rewrite decide_True by (by right)|].
    destruct (decide (p = rel)) as [->|Hne].
    + by rewrite decide_True, lookup_insert_eq by left.
    + rewrite decide_False by (by intros [?|?]%elem_of_cons). by rewrite lookup_insert_ne.
Qed.

Lemma rollback_complete env inject original promoted fs :
  inject <> FailDuringRollback -> (forall rel, ae_restore env rel = Ok tt) ->
  fst (rollback env inject original promoted fs) = [].
Proof.
  intros Hi Hr. revert fs. induction promoted as [|rel promoted IH]; intros fs; cbn; [done|].
  apply String.eqb_neq in Hi. rewrite Hi, Hr. apply IH.
Qed.

Lemma promote_spec env inject original after i paths promoted fs c promoted' fs' :
  NoDup paths -> (forall p, p ∈ paths -> is_Some (after !! p)) ->
  promote env inject original after i paths promoted fs = (c, promoted', fs') ->
  (forall p, p ∈ promoted' -> p ∈ promoted \/ p ∈ paths) /\
  (forall p, p ∈ promoted -> p ∈ promoted') /\
  (forall p, quiet env p -> p ∉ paths \/ p ∉ promoted' -> fs' !! p = fs !! p) /\
  (c = None -> forall p, quiet env p -> p ∈ paths -> fs' !! p = after !! p).
Proof.
  intros Hnd. revert i promoted fs. induction Hnd as [|rel paths Hrel Hnd IH]; intros i promoted fs Ha; cbn [promote].
  - intros [= <- <- <-]. split_and!; try done; [by left|]. intros _ p _ ?%elem_of_nil. done.
  - destruct (Ha rel) as [f Hf]; [left|]. cbv zeta. set (fs1 := ae_world env i fs).
    assert (Hq : forall p, quiet env p -> fs1 !! p = fs !! p) by (intros p Hp; apply Hp).
    destruct (negb _). { intros [= <- <- <-]. split_and!; auto; done. }
    destruct (ae_promote env i). 2: { intros [= <- <- <-]. split_and!; auto; done. }
    rewrite Hf. set (fs2 := <[rel := f]> fs1). destruct (_ && _).
    { intros [= <- <- <-]. split_and!; [| |intros p Hp Hn|done].
      - intros p [->|]%elem_of_cons; [right; left|by left].
      - intros p Hp. by right.
      - unfold fs2. rewrite lookup_insert_ne; [by apply Hq|]. intros ->. destruct Hn as [Hn|Hn]; apply Hn; left. }
    intros Hp. destruct (IH (S i) (rel :: promoted) fs2 (fun p Hin => Ha p (list_elem_of_further _ _ _ Hin)) Hp)
      as (Hp1 & Hp2 & Hp3 & Hp4). split_and!.
    + intros p [[->|]%elem_of_cons|]%Hp1; [right; left|by left|right; by right].
    + intros p Hin. apply Hp2. by right.
    + intros p Hqp Hn. assert (Hne : rel <> p).
      { intros ->. destruct Hn as [Hn|Hn]; apply Hn; [left|apply Hp2; left]. }
      rewrite Hp3; [unfold fs2; rewrite lookup_insert_ne by done; by apply Hq|done|].
      destruct Hn as [Hn|Hn]; [left|by right]. intros Hin. apply Hn. by right.
    + intros Hc p Hqp [->|Hin]%elem_of_cons; [|by apply Hp4].
      rewrite Hp3 by (try done; by left). unfold fs2. by rewrite lookup_insert_eq.
Qed.

(** ** Properties *)

Definition edited (cs : ChangeSet) (p : string) : Prop := exists e, e ∈ cs_Edits cs /\ ce_Path e = p.

Lemma elem_of_uniqueEditPaths edits p : p ∈ uniqueEditPaths edits <-> exists e, e ∈ edits /\ ce_Path e = p.
Proof.
  unfold uniqueEditPaths, sort_strings. rewrite elem_of_sort_by, elem_of_dedup, list_elem_of_fmap. naive_solver.
Qed.

Lemma uniqueEditPaths_NoDup edits : NoDup (uniqueEditPaths edits).
Proof. unfold uniqueEditPaths, sort_strings. apply sort_by_NoDup, NoDup_dedup. Qed.

(** What a promoted file is: the frozen base with its edits applied, as predicted. *)
Definition promoted_file (cs : ChangeSet) (fs fs' : FS) (p : string) : Prop :=
  exists old mode staged new,
    fs !! p = Some (old, mode) /\ default "" (cs_BaseDigests cs !! p) = Digest old /\
    Digest staged = Digest old /\ applyFileEdits staged (editsForPath (cs_Edits cs) p) = Ok new /\
    fs' !! p = Some (new, mode) /\
    forall e, e ∈ cs_Edits cs -> ce_Path e = p -> ce_PredictedDigest e = Digest new.

Lemma observed_predicted cs after e f :
  vr_Accepted (Validate (with_edits cs (observed_edits after (cs_Edits cs)))) = true ->
  e ∈ cs_Edits cs -> after !! ce_Path e = Some f -> ce_PredictedDigest e = Digest (fst f).
Proof.
  intros Hacc He Hf. rewrite Validate_accepted in Hacc.
  destruct (decide (ce_PredictedDigest e = Digest (fst f))) as [|Hne]; [done|exfalso].
  assert (Hin : set_observed (Digest (fst f)) e ∈ observed_edits after (cs_Edits cs)).
  { apply list_elem_of_fmap. exists e. by rewrite Hf. }
  set (cs' := with_edits cs (observed_edits after (cs_Edits cs))) in *.
  assert (Hv : violates cs' RejectMissingDigest \/ violates cs' RejectPartialFailure).
  { destruct (decide (ce_PredictedDigest e = "")); [left; eexists; split; [exact Hin|]; cbn; tauto|].
    destruct (decide (Digest (fst f) = "")); [left; eexists; split; [exact Hin|]; cbn; tauto|].
    right. eexists. split; [exact Hin|]. done. }
  destruct Hv as [Hv|Hv]; apply Validate_rejected in Hv; rewrite Hacc in Hv; by apply elem_of_nil in Hv.
Qed.

(** The tree-level contract of a call, for one path. *)
Definition all_or_nothing (env : ApplyEnv) (inject : string) (fs : FS) (p : string) (success : FS -> ApplyReceipt -> Prop)
    (o : outcome) : Prop :=
  let '(rc, err, fs') := o in
  match err with
  | None => ra_Applied rc = true /\ success fs' rc
  | Some msg =>
      ra_Applied rc = false /\ ra_Failure rc = msg /\
      ((inject <> FailDuringRollback /\ forall rel, ae_restore env rel = Ok tt) \/ ra_RolledBack rc = true ->
       fs' !! p = fs !! p)
  end.

Lemma fail_unchanged env inject fs p success rc msg : all_or_nothing env inject fs p success (fail rc msg fs).
Proof. done. Qed.

Lemma finish_spec env inject original after paths rc fs p (success : FS -> ApplyReceipt -> Prop) :
  NoDup paths -> (forall q, q ∈ paths -> is_Some (after !! q)) ->
  (forall q, q ∈ paths -> original !! q = fs !! q /\ is_Some (fs !! q)) ->
  (forall b, ra_RolledBack (rc b) = b) -> quiet env p ->
  (forall fs', fs' !! p = (if decide (p ∈ paths) then after !! p else fs !! p) ->
     success fs' (set_digest (rc false) true (applyReceiptDigest (set_digest (rc false) true "")))) ->
  all_or_nothing env inject fs p success (finish env inject original after paths rc fs).
Proof.
  intros Hnd Ha Ho Hrc Hq Hsucc. unfold finish.
  destruct (promote _ _ _ _ _ _ _ _) as [[c promoted] fs'] eqn:Ep.
  destruct (promote_spec _ _ _ _ _ _ _ _ _ _ _ Hnd Ha Ep) as (Hp1 & _ & Hp3 & Hp4).
  destruct c as [cause|].
  - assert (Hpr : forall q, q ∈ promoted -> q ∈ paths) by (intros q [Hn|]%Hp1; [by apply elem_of_nil in Hn|done]).
    assert (Hsome : forall q, q ∈ promoted -> is_Some (original !! q)).
    { intros q Hin. destruct (Ho q (Hpr q Hin)) as [-> ?]. done. }
    assert (Hrest : forall fs'', rollback env inject original promoted fs' = ([], fs'') -> fs'' !! p = fs !! p).
    { intros fs'' Hr. rewrite (rollback_Ok _ _ _ _ _ _ Hsome Hr). destruct (decide (p ∈ promoted)).
      - by apply Ho, Hpr.
      - apply Hp3; [done|by right]. }
    pose proof (rollback_complete env inject original promoted fs') as Hcomp.
    destruct (rollback env inject original promoted fs') as [[|err errs] fs''].
    + cbn. split_and!; [done..|]. intros _. by apply Hrest.
    + cbn in Hcomp |- *. split_and!; [done..|]. rewrite Hrc. intros [[Hi Hr]|]; [|done].
      by specialize (Hcomp Hi Hr).
  - cbn. split; [done|]. apply Hsucc. case_decide as Hin; [by apply Hp4|]. apply Hp3; [done|by left].
Qed.

(** C1. A change set lands whole or not at all. For any path no other process
    touches: when the call succeeds, an edited file holds the frozen base with
    its edits applied and every edit's predicted digest, with its permissions, an unedited one is
    unchanged, the last validation accepted, and every verification command ran
    and passed; when it fails, the receipt says so and the file is as before,
    provided the restores succeed or the receipt reports the rollback. *)
Theorem ApplyChangeSet_all_or_nothing env inject cs fs p :
  quiet env p ->
  all_or_nothing env inject fs p
    (fun fs' rc =>
       (edited cs p -> promoted_file cs fs fs' p) /\ (~ edited cs p -> fs' !! p = fs !! p) /\
       vr_Accepted (ra_Validation rc) = true /\
       forall c, c ∈ cs_VerificationCommands cs ->
         exists r, r ∈ ra_Verification rc /\ cr_Command r = c /\ cr_Passed r = true)
    (ApplyChangeSet env inject cs fs).
Proof.
  intros Hq. unfold ApplyChangeSet. cbv zeta.
  destruct (check_request inject cs); [|apply fail_unchanged]. destruct (ae_root env) as [root|]; [|apply fail_unchanged].
  destruct (negb (vr_Accepted _)); [apply fail_unchanged|].
  set (paths := uniqueEditPaths (cs_Edits cs)).
  destruct (freeze env cs fs paths ∅) as [original|[]] eqn:Ef; [|apply fail_unchanged..].
  destruct (verifyGitBase _ _ _); [|apply fail_unchanged]. destruct (ae_stage env) as [[stage tree]|]; [|apply fail_unchanged].
  destruct (String.eqb inject FailAfterStage); [apply fail_unchanged|].
  destruct (build env cs original paths tree ∅) as [[tree' after]|] eqn:Eb; [|apply fail_unchanged].
  destruct (vr_Accepted (Validate (with_edits cs (observed_edits after (cs_Edits cs))))) eqn:Eacc;
    cbn [negb]; [|apply fail_unchanged].
  destruct (verify_all _ _ _ _ _) as [vs [e|]] eqn:Ev; [apply fail_unchanged|].
  apply freeze_Ok in Ef as [_ Hf]. apply build_Ok in Eb as [_ Hb]; [|apply uniqueEditPaths_NoDup].
  apply verify_all_None in Ev as [-> Hpass].
  apply finish_spec; [apply uniqueEditPaths_NoDup| | |done|done|].
  - intros q Hin. destruct (Hb q Hin) as (f & -> & _). done.
  - intros q Hin. destruct (Hf q Hin) as (f & -> & -> & _). done.
  - intros fs' Hfs'. cbn [set_digest ra_Validation ra_Verification]. split_and!; [| |done|].
    + intros Hed%elem_of_uniqueEditPaths. fold paths in Hed. rewrite decide_True in Hfs' by done.
      destruct (Hf p Hed) as ([old mode] & Ho & Hfs & Hd). destruct (Hb p Hed) as ([new mode'] & Ha & Hs).
      destruct Hs as ([staged ?] & [old' ?] & _ & Ho' & Hdig & Hm & Happ). cbn in *. simplify_eq.
      exists old, mode, staged, new. split_and!; try done; [congruence|].
      intros e He <-. by apply (observed_predicted _ _ _ _ Eacc He Ha).
    + intros Hned. rewrite decide_False in Hfs'; [done|]. unfold paths. by rewrite elem_of_uniqueEditPaths.
    + intros c Hc. exists (runVerification env stage tree' c). rewrite run_command. split_and!; [|done|].
      * cbn. apply list_elem_of_fmap. exists c. by rewrite elem_of_dedupStrings.
      * rewrite Forall_forall in Hpass. by apply Hpass, elem_of_dedupStrings.
Qed.
End apply.

Module ApplyRun.
Existing Instance demo_runtime.
Import ChangeSetRun VerifyRun.
Existing Instance everything_installed.
Existing Instance no_json.
#[export] Instance flat_json : ApplyJson := {| marshal_apply := ra_Failure |}.

Definition tree0 : FS := {["a.go" := ("abcdefg", 420); "b.go" := ("bb", 420)]}.

(** Everything works; nobody else writes. *)
Definition calm (restore : result string unit) : ApplyEnv := {|
  ae_root := Ok "/repo"; ae_target := fun _ => Ok tt; ae_stat := fun _ => Ok tt; ae_read := fun _ => Ok tt;
  ae_git := MkGit None (fun _ => None) (Err "") (Err "");
  ae_stage := Ok ("/stage", tree0); ae_stage_target := fun _ => Ok tt; ae_stage_read := fun _ => Ok tt;
  ae_stage_write := fun _ => Ok tt; ae_exec := fun _ _ _ => MkExec ["ok"] ExecOk;
  ae_world := fun _ m => m; ae_reread := fun _ => true; ae_promote := fun _ => Ok tt;
  ae_restore := fun _ => restore |}.

Definition edit_to (p : string) (a b : Z) (old text new : string) : CandidateEdit :=
  MkEdit p (MkEditRange a b) "" (Digest old) (Digest new) "" text.

Definition request : ChangeSet := MkChangeSet "" "" {["a.go" := Digest "abcdefg"; "b.go" := Digest "bb"]}
  [edit_to "a.go" 1 3 "abcdefg" "XX" "aXXdefg"; edit_to "b.go" 2 2 "bb" "!" "bb!"] ["go vet"].

Definition landed : outcome := ApplyChangeSet (calm (Ok tt)) "" request tree0.
Definition broken : outcome := ApplyChangeSet (calm (Ok tt)) FailDuringPromotion request tree0.

Lemma landed_ok : snd (fst landed) = None.
Proof. vm_compute. reflexivity. Qed.
Lemma broken_fails : snd (fst broken) = Some "injected failure during promotion".
Proof. vm_compute. reflexivity. Qed.

Lemma ApplyChangeSet_all_or_nothing_witness :
  promoted_file request tree0 (snd landed) "b.go" /\ snd broken !! "a.go" = tree0 !! "a.go".
Proof.
  split.
  - pose proof (ApplyChangeSet_all_or_nothing (calm (Ok tt)) "" request tree0 "b.go" (fun _ _ => eq_refl)) as Hl.
    pose proof landed_ok as Hok. unfold landed in *. destruct (ApplyChangeSet _ _ _ _) as [[rc err] fs'].
    cbn [fst snd] in *. subst err. destruct Hl as [_ [Hl _]]. apply Hl.
    exists (edit_to "b.go" 2 2 "bb" "!" "bb!"). split; [|reflexivity]. right. left.
  - pose proof (ApplyChangeSet_all_or_nothing (calm (Ok tt)) FailDuringPromotion request tree0 "a.go" (fun _ _ => eq_refl)) as Hl.
    pose proof broken_fails as Hbad. unfold broken in *. destruct (ApplyChangeSet _ _ _ _) as [[rc err] fs'].
    cbn [fst snd] in *. subst err. destruct Hl as (_ & _ & Hl). apply Hl. left. split; [discriminate|reflexivity].
Defined.

(** A restore that fails leaves a half-applied tree, and the receipt says so. *)
Example rollback_failure_disclosed :
  let '(rc, err, fs') := ApplyChangeSet (calm (Err "disk full")) FailDuringPromotion request tree0 in
  ra_RolledBack rc = false /\ err = Some "injected failure during promotion; rollback failed: restore a.go: disk full"
  /\ fs' !! "a.go" = Some ("aXXdefg", 420).
Proof. vm_compute. split_and!; reflexivity. Qed.
End ApplyRun.
