(* ===== verification/Evidence.v ===== *)
(** * workflow: action envelopes and evidence reports

    Models [services/brain/internal/workflow/action.go] and [evidence.go]: the
    bounded, de-duplicated envelope around a verb's response and the
    reproducible task report.  [Any] stands for Go's [any] and [any_bytes] for the length of its
    JSON encoding. *)

From Stdlib Require Import Ascii String.
From S2P Require Import Prelude GoString GoPath Float64 Runtime TextBound SessionEvent ChangeSet.
Open Scope string_scope.
Open Scope Z_scope.

(** ** Budgets *)

Record Budget := MkBudget { bg_Used : Z; bg_Total : Z }.

Definition Remaining (b : Budget) : Z :=
  let r := wrap64 (bg_Total b - bg_Used b) in if r <? 0 then 0 else r.
Definition Exhausted (b : Budget) : bool := (Remaining b =? 0) && (0 <? bg_Total b).

(** ** Envelopes *)

Class AnyJson := { Any : Type; any_bytes : Any -> option Z }.

Section envelope.
Context `{AnyJson}.

Record Action := MkAction { a_Verb : string; a_Summary : string; a_Args : gmap string Any; a_Priority : Z }.

Record ExpansionHandle := MkHandle { h_Kind : string; h_Symbol : string; h_Path : string; h_Handle : string }.

Record EnvelopeOptions := MkEnvelopeOptions {
  eo_Budget : Budget; eo_Confidence : f64; eo_Freshness : string;
  eo_MaxActions : Z; eo_MaxHandles : Z; eo_MaxWarnings : Z; eo_VerificationCommands : list string
}.

Definition DefaultEnvelopeOptions : EnvelopeOptions :=
  MkEnvelopeOptions (MkBudget 0 8192) (f_dec 8 10) "" 8 8 8 [].

Record ActionEnvelope := MkEnvelope {
  en_Schema : string; en_Verb : string; en_OK : bool;
  en_Actions : list Action; en_RemainingBudget : Budget; en_Freshness : string;
  en_ExpansionHandles : list ExpansionHandle; en_Confidence : f64;
  en_CoverageWarnings : list string; en_VerificationCommands : list string; en_Payload : option Any
}.

Definition action_key (a : Action) : string := a_Verb a ++ "|" ++ a_Summary a.
Definition handle_key (h : ExpansionHandle) : string :=
  h_Kind h ++ "|" ++ h_Symbol h ++ "|" ++ h_Path h ++ "|" ++ h_Handle h.

Definition action_lt : Action -> Action -> bool :=
  then_by a_Priority Z.ltb (then_by a_Verb String.ltb (on_key a_Summary String.ltb)).
Definition handle_lt : ExpansionHandle -> ExpansionHandle -> bool :=
  then_by h_Kind String.ltb (then_by h_Symbol String.ltb (then_by h_Path String.ltb (on_key h_Handle String.ltb))).

(** [out[:limit]] when longer. *)
Definition cut {A} (limit : Z) (l : list A) : list A :=
  if limit <? Z.of_nat (length l) then take (Z.to_nat limit) l else l.

Definition dedupActions (l : list Action) (limit : Z) : list Action :=
  cut limit (sort_by action_lt (dedup_key action_key [] l)).
Definition dedupHandles (l : list ExpansionHandle) (limit : Z) : list ExpansionHandle :=
  cut limit (sort_by handle_lt (dedup_key handle_key [] l)).

Definition estimateBytes (payload : option Any) : Z :=
  match payload with None => 0 | Some p => default 0 (any_bytes p) end.

Definition or_default (n d : Z) : Z := if n <=? 0 then d else n.

Definition minInt (a b : Z) : Z := if a <? b then a else b.

Definition BuildEnvelope (verb : string) (ok : bool) (payload : option Any) (actions : list Action)
    (handles : list ExpansionHandle) (warnings : list string) (opts : EnvelopeOptions) : ActionEnvelope :=
  let maxActions := or_default (eo_MaxActions opts) (eo_MaxActions DefaultEnvelopeOptions) in
  let maxHandles := or_default (eo_MaxHandles opts) (eo_MaxHandles DefaultEnvelopeOptions) in
  let maxWarnings := or_default (eo_MaxWarnings opts) (eo_MaxWarnings DefaultEnvelopeOptions) in
  let ws := dedupStrings warnings in
  {| en_Schema := WorkflowSchema; en_Verb := verb; en_OK := ok;
     en_RemainingBudget := MkBudget (estimateBytes payload) (bg_Total (eo_Budget opts));
     en_Freshness := eo_Freshness opts; en_Confidence := eo_Confidence opts; en_Payload := payload;
     en_VerificationCommands := dedupStrings (eo_VerificationCommands opts);
     en_Actions := dedupActions actions maxActions;
     en_ExpansionHandles := dedupHandles handles maxHandles;
     en_CoverageWarnings := take (Z.to_nat (minInt (Z.of_nat (length ws)) maxWarnings)) ws |}.

(** ** Lemmas *)

#[export] Instance action_lt_weak : StrictWeak action_lt.
Proof. unfold action_lt. apply _. Qed.
#[export] Instance handle_lt_weak : StrictWeak handle_lt.
Proof. unfold handle_lt. apply _. Qed.

Lemma cut_take {A} limit (l : list A) : 0 < limit -> cut limit l = take (Z.to_nat limit) l.
Proof. intros. unfold cut. destruct (Z.ltb_spec limit (Z.of_nat (length l))); [done|]. by rewrite take_ge by lia. Qed.

Lemma or_default_pos n d : 0 < d -> 0 < or_default n d.
Proof. unfold or_default. destruct (Z.leb_spec n 0); lia. Qed.

Lemma action_lt_separates (l : list Action) a b :
  NoDup (action_key <$> l) -> a ∈ l -> b ∈ l -> action_lt a b = false -> action_lt b a = false -> a = b.
Proof.
  intros Hn Ha Hb H1 H2.
  assert (Hk : action_key a = action_key b).
  { unfold action_lt, then_by, on_key in H1, H2. unfold action_key.
    destruct (decide (a_Priority a = a_Priority b)) as [Ep|Ep], (decide (a_Priority b = a_Priority a)) as [Ep'|Ep'];
      try congruence; [|lia].
    destruct (decide (a_Verb a = a_Verb b)) as [Ev|Ev], (decide (a_Verb b = a_Verb a)) as [Ev'|Ev']; try congruence.
    - by rewrite Ev, (st_total (lt := String.ltb) _ _ H1 H2).
    - exfalso. by apply Ev, (st_total (lt := String.ltb)). }
  apply list_elem_of_lookup in Ha as [i Hi], Hb as [j Hj].
  assert (Hij : i = j).
  { eapply (NoDup_lookup _ i j (action_key a) Hn); rewrite list_lookup_fmap; [by rewrite Hi|by rewrite Hj, Hk]. }
  congruence.
Qed.

Lemma dedup_key_distinct {A K} `{EqDecision K} (key : A -> K) seen l :
  NoDup (key <$> l) -> (forall x, x ∈ l -> key x ∉ seen) -> dedup_key key seen l = l.
Proof.
  revert seen. induction l as [|x l IH]; intros seen Hn Hs; cbn; [done|].
  apply NoDup_cons in Hn as [Hx Hn]. rewrite decide_False by (apply Hs; left). f_equal.
  apply IH; [done|]. intros y Hy [Heq|Hin]%elem_of_cons.
  - apply Hx. rewrite <- Heq. by apply list_elem_of_fmap_2.
  - by apply (Hs y); [right|].
Qed.

(** ** Properties *)

(** An envelope's actions are the best distinct ones, bounded and in a
    deterministic order: at most the requested number (or the default), one per verb and
    summary, ordered by priority, verb and summary, none left out ranking
    before one kept; and when the suggested actions are already distinct, the order in
    which they were collected does not matter. *)
Theorem envelope_actions_best verb ok payload actions handles warnings opts :
  let limit := or_default (eo_MaxActions opts) 8 in
  let out := en_Actions (BuildEnvelope verb ok payload actions handles warnings opts) in
  (exists dropped, (out ++ dropped)%list ≡ₚ dedup_key action_key [] actions /\
     forall a d, a ∈ out -> d ∈ dropped -> action_lt d a = false) /\
  Z.of_nat (length out) <= limit /\
  NoDup (action_key <$> out) /\ StronglySorted (not_after action_lt) out /\
  (forall actions', actions' ≡ₚ actions -> NoDup (action_key <$> actions) ->
     en_Actions (BuildEnvelope verb ok payload actions' handles warnings opts) = out).
Proof.
  cbv zeta. cbn [BuildEnvelope en_Actions]. change (eo_MaxActions DefaultEnvelopeOptions) with 8.
  set (limit := or_default _ _). assert (Hl : 0 < limit) by (by apply or_default_pos).
  unfold dedupActions. rewrite !cut_take by done. set (ds := dedup_key action_key [] actions).
  assert (Hp : take (Z.to_nat limit) (sort_by action_lt ds) ++ drop (Z.to_nat limit) (sort_by action_lt ds) ≡ₚ ds)
    by (rewrite take_drop; apply sort_by_perm).
  split_and!.
  - exists (drop (Z.to_nat limit) (sort_by action_lt ds)). split; [done|]. intros a d. apply sort_by_top, _.
  - rewrite length_take. lia.
  - assert (Hn : NoDup (action_key <$> ds)) by apply dedup_key_NoDup. rewrite <- Hp, fmap_app in Hn.
    by apply NoDup_app in Hn as [? _].
  - apply strongly_sorted_take, sort_by_sorted, _.
  - intros actions' Hperm Hn. rewrite cut_take by done. f_equal.
    unfold ds. rewrite !dedup_key_distinct; try done; try (intros ? _ ?%elem_of_nil; done).
    + apply sort_by_perm_eq; [apply _| |done]. intros a b Ha Hb. apply (action_lt_separates actions'); [|done..].
      by rewrite Hperm.
    + by rewrite Hperm.
Qed.
End envelope.

(** ** Reports *)

Record ImpactSummary := MkImpact { im_Severity : string; im_Direct : list string; im_Closure : list string }.
Record TestSummary := MkTests { ts_Run : Z; ts_Passed : Z; ts_Failed : Z; ts_Files : list string }.
Record FileEdit := MkFileEdit {
  fe_Path : string; fe_BeforeDigest : string; fe_AfterDigest : string; fe_LinesAdded : Z; fe_LinesRemoved : Z
}.
Record GraphChange := MkGraphChange {
  gc_Path : string; gc_AddedEdges : Z; gc_RemovedEdges : Z; gc_Digest : string
}.
Record Verification := MkVerification { v_Command : string; v_Passed : bool; v_Note : string }.

(** The pre-bound lengths, recorded for the slices that were cut. *)
Record Totals := MkTotals {
  t_Edits : Z; t_GraphChanges : Z; t_Direct : Z; t_Closure : Z; t_TestFiles : Z;
  t_UnknownCoverage : Z; t_Verification : Z; t_NextActions : Z
}.

Record Report := MkReport {
  rp_Schema : string; rp_Task : string; rp_Session : string; rp_Base : string; rp_GeneratedAt : string;
  rp_ContextServed : gmap string Z; rp_Impact : ImpactSummary; rp_Tests : TestSummary;
  rp_Edits : list FileEdit; rp_GraphChanges : list GraphChange; rp_UnknownCoverage : list string;
  rp_Savings : gmap string Z; rp_Verification : list Verification; rp_NextActions : list string;
  rp_Truncated : bool; rp_Totals : Totals; rp_Digest : string
}.

Record BuildOptions := MkBuildOptions { bo_Task : string; bo_Session : string; bo_Base : string; bo_MaxSlice : Z }.

(** [encoding/json] on a report ([None]: an error). *)
Class ReportJson := { marshal_report : Report -> option string }.

Definition edit_lt : FileEdit -> FileEdit -> bool := then_by fe_Path String.ltb (on_key fe_AfterDigest String.ltb).
Definition sortEdits (l : list FileEdit) : list FileEdit := sort_by edit_lt l.
Definition sortGraph (l : list GraphChange) : list GraphChange := sort_by (on_key gc_Path String.ltb) l.
Definition sortVerification (l : list Verification) : list Verification := sort_by (on_key v_Command String.ltb) l.

(** Key order has no bearing on the value. *)
Definition canonical (m : gmap string Z) : gmap string Z := canonicalCounts m.

Definition over {A} (n : Z) (l : list A) : bool := n <? Z.of_nat (length l).
Definition total_of {A} (n : Z) (l : list A) (old : Z) : Z := if over n l then Z.of_nat (length l) else old.

Definition bound (r : Report) (n : Z) : Report :=
  let im := rp_Impact r in
  let ts := rp_Tests r in
  let t := rp_Totals r in
  {| rp_Schema := rp_Schema r; rp_Task := rp_Task r; rp_Session := rp_Session r; rp_Base := rp_Base r;
     rp_GeneratedAt := rp_GeneratedAt r; rp_ContextServed := rp_ContextServed r;
     rp_Impact := MkImpact (im_Severity im) (cut n (im_Direct im)) (cut n (im_Closure im));
     rp_Tests := MkTests (ts_Run ts) (ts_Passed ts) (ts_Failed ts) (cut n (ts_Files ts));
     rp_Edits := cut n (rp_Edits r); rp_GraphChanges := cut n (rp_GraphChanges r);
     rp_UnknownCoverage := cut n (rp_UnknownCoverage r); rp_Savings := rp_Savings r;
     rp_Verification := cut n (rp_Verification r); rp_NextActions := cut n (rp_NextActions r);
     rp_Truncated := rp_Truncated r || over n (im_Direct im) || over n (im_Closure im) || over n (ts_Files ts)
       || over n (rp_UnknownCoverage r) || over n (rp_NextActions r) || over n (rp_Edits r)
       || over n (rp_GraphChanges r) || over n (rp_Verification r);
     rp_Totals := {|
       t_Edits := total_of n (rp_Edits r) (t_Edits t);
       t_GraphChanges := total_of n (rp_GraphChanges r) (t_GraphChanges t);
       t_Direct := total_of n (im_Direct im) (t_Direct t);
       t_Closure := total_of n (im_Closure im) (t_Closure t);
       t_TestFiles := total_of n (ts_Files ts) (t_TestFiles t);
       t_UnknownCoverage := total_of n (rp_UnknownCoverage r) (t_UnknownCoverage t);
       t_Verification := total_of n (rp_Verification r) (t_Verification t);
       t_NextActions := total_of n (rp_NextActions r) (t_NextActions t) |};
     rp_Digest := rp_Digest r |}.

Definition set_report_digest (r : Report) (d : string) : Report :=
  {| rp_Schema := rp_Schema r; rp_Task := rp_Task r; rp_Session := rp_Session r; rp_Base := rp_Base r;
     rp_GeneratedAt := rp_GeneratedAt r; rp_ContextServed := rp_ContextServed r; rp_Impact := rp_Impact r;
     rp_Tests := rp_Tests r; rp_Edits := rp_Edits r; rp_GraphChanges := rp_GraphChanges r;
     rp_UnknownCoverage := rp_UnknownCoverage r; rp_Savings := rp_Savings r; rp_Verification := rp_Verification r;
     rp_NextActions := rp_NextActions r; rp_Truncated := rp_Truncated r; rp_Totals := rp_Totals r; rp_Digest := d |}.

(** Everything [Build] does before bounding. *)
Definition arrange (r : Report) (opts : BuildOptions) : Report :=
  let pick a b := if String.eqb a "" then b else a in
  let im := rp_Impact r in
  let ts := rp_Tests r in
  {| rp_Schema := WorkflowSchema; rp_Task := pick (bo_Task opts) (rp_Task r);
     rp_Session := pick (bo_Session opts) (rp_Session r); rp_Base := pick (bo_Base opts) (rp_Base r);
     rp_GeneratedAt := rp_GeneratedAt r; rp_ContextServed := canonical (rp_ContextServed r);
     rp_Impact := MkImpact (im_Severity im) (sort_strings (im_Direct im)) (sort_strings (im_Closure im));
     rp_Tests := MkTests (ts_Run ts) (ts_Passed ts) (ts_Failed ts) (sort_strings (ts_Files ts));
     rp_Edits := sortEdits (rp_Edits r); rp_GraphChanges := sortGraph (rp_GraphChanges r);
     rp_UnknownCoverage := sort_strings (rp_UnknownCoverage r); rp_Savings := canonical (rp_Savings r);
     rp_Verification := sortVerification (rp_Verification r); rp_NextActions := sort_strings (rp_NextActions r);
     rp_Truncated := rp_Truncated r; rp_Totals := rp_Totals r; rp_Digest := rp_Digest r |}.

Section report.
Context `{GoRuntime} `{ReportJson}.

Definition digest (r : Report) : string :=
  match marshal_report (set_report_digest r "") with
  | None => ""
  | Some body => "sha256:" ++ sha256_16 body
  end.

Definition max_slice (opts : BuildOptions) : Z := if bo_MaxSlice opts <=? 0 then 32 else bo_MaxSlice opts.

Definition Build (r : Report) (opts : BuildOptions) : Report :=
  let r := bound (arrange r opts) (max_slice opts) in
  set_report_digest r (digest r).

(** ** Lemmas *)

#[export] Instance edit_lt_weak : StrictWeak edit_lt.
Proof. unfold edit_lt. apply _. Qed.

Lemma max_slice_pos opts : 0 < max_slice opts.
Proof. unfold max_slice. destruct (Z.leb_spec (bo_MaxSlice opts) 0); lia. Qed.

Lemma cut_le {A} n (l : list A) : 0 < n -> Z.of_nat (length (cut n l)) <= n.
Proof. intros. rewrite cut_take by done. rewrite length_take. lia. Qed.

Lemma cut_idem {A} n (l : list A) : 0 < n -> cut n (cut n l) = cut n l.
Proof. intros. pose proof (cut_le n l). unfold cut at 1. destruct (Z.ltb_spec n (Z.of_nat (length (cut n l)))); [lia|done]. Qed.

Lemma over_cut {A} n (l : list A) : 0 < n -> over n (cut n l) = false.
Proof. intros. unfold over. apply Z.ltb_ge. by apply cut_le. Qed.

Lemma total_of_cut {A} n (l : list A) t : 0 < n -> total_of n (cut n l) t = t.
Proof. intros. unfold total_of. by rewrite over_cut. Qed.

Lemma cut_sorted {A} (lt : A -> A -> bool) `{!StrictWeak lt} n l :
  sort_by lt (cut n (sort_by lt l)) = cut n (sort_by lt l).
Proof.
  apply sort_by_id. unfold cut. destruct (_ <? _); [|apply sort_by_sorted, _].
  apply strongly_sorted_take, sort_by_sorted, _.
Qed.

(** Bounding and arranging a built report changes nothing. *)
Lemma arrange_bound r opts n :
  0 < n -> bound (arrange (bound (arrange r opts) n) opts) n = bound (arrange r opts) n.
Proof.
  intros Hn.
  assert (Hpick : forall a b : string, (if String.eqb a "" then (if String.eqb a "" then b else a) else a)
                               = if String.eqb a "" then b else a) by (intros a b; by destruct (String.eqb a "")).
  unfold bound, arrange, sort_strings, sortEdits, sortGraph, sortVerification, canonical; cbn.
  rewrite !canonicalCounts_id, !Hpick.
  rewrite !cut_sorted by apply _. rewrite !cut_idem, !over_cut, !total_of_cut by done. by rewrite !orb_false_r.
Qed.

Lemma set_report_digest_twice r d d' : set_report_digest (set_report_digest r d) d' = set_report_digest r d'.
Proof. done. Qed.

Lemma bound_arrange_digest r opts n d :
  bound (arrange (set_report_digest r d) opts) n = set_report_digest (bound (arrange r opts) n) d.
Proof. done. Qed.

Lemma Build_fixed r opts : Build (Build r opts) opts = Build r opts.
Proof.
  unfold Build. rewrite bound_arrange_digest, arrange_bound, set_report_digest_twice by apply max_slice_pos.
  f_equal.
Qed.

(** One slice of a report: cut to the bound from its sorted form, with the
    original length recorded exactly when something was cut. *)
Definition disclosed {A} (lt : A -> A -> bool) (n : Z) (input output : list A) (old total : Z) : Prop :=
  output = take (Z.to_nat n) (sort_by lt input) /\ Z.of_nat (length output) <= n /\
  total = if over n input then Z.of_nat (length input) else old.

Lemma disclosed_cut {A} (lt : A -> A -> bool) n l old :
  0 < n -> disclosed lt n l (cut n (sort_by lt l)) old (total_of n (sort_by lt l) old).
Proof.
  intros Hn. split_and!; [by apply cut_take|by apply cut_le|]. unfold total_of, over. by rewrite length_sort_by.
Qed.

(** Building a report is reproducible and honest: building again with the
    same options changes nothing, digest included; every slice is the sorted input cut to the
    bound, with its full length recorded when it was cut; and the report says it is truncated
    exactly when it already did or some slice was cut. *)
Theorem Build_stable_and_honest r opts :
  let out := Build r opts in
  let n := max_slice opts in
  let t := rp_Totals r in
  let t' := rp_Totals out in
  Build out opts = out /\
  disclosed edit_lt n (rp_Edits r) (rp_Edits out) (t_Edits t) (t_Edits t') /\
  disclosed (on_key gc_Path String.ltb) n (rp_GraphChanges r) (rp_GraphChanges out) (t_GraphChanges t) (t_GraphChanges t') /\
  disclosed String.ltb n (im_Direct (rp_Impact r)) (im_Direct (rp_Impact out)) (t_Direct t) (t_Direct t') /\
  disclosed String.ltb n (im_Closure (rp_Impact r)) (im_Closure (rp_Impact out)) (t_Closure t) (t_Closure t') /\
  disclosed String.ltb n (ts_Files (rp_Tests r)) (ts_Files (rp_Tests out)) (t_TestFiles t) (t_TestFiles t') /\
  disclosed String.ltb n (rp_UnknownCoverage r) (rp_UnknownCoverage out) (t_UnknownCoverage t) (t_UnknownCoverage t') /\
  disclosed (on_key v_Command String.ltb) n (rp_Verification r) (rp_Verification out) (t_Verification t) (t_Verification t') /\
  disclosed String.ltb n (rp_NextActions r) (rp_NextActions out) (t_NextActions t) (t_NextActions t') /\
  (rp_Truncated out = true <->
     rp_Truncated r = true \/ over n (rp_Edits r) = true \/ over n (rp_GraphChanges r) = true \/
     over n (im_Direct (rp_Impact r)) = true \/ over n (im_Closure (rp_Impact r)) = true \/
     over n (ts_Files (rp_Tests r)) = true \/ over n (rp_UnknownCoverage r) = true \/
     over n (rp_Verification r) = true \/ over n (rp_NextActions r) = true).
Proof.
  cbv zeta. pose proof (max_slice_pos opts) as Hn. split; [apply Build_fixed|].
  split_and!; try by apply disclosed_cut.
  cbn. unfold over, sort_strings, sortEdits, sortGraph, sortVerification. rewrite !length_sort_by, !orb_true_iff. tauto.
Qed.
End report.
