(* ===== verification/ContextRegistry.v ===== *)
(** * contextpack: session registry and resource governor

    Models [services/brain/internal/contextpack/handles.go] (back-pointers and
    expansion handles) and [limits.go] (the fail-safe governor). *)

From Stdlib Require Import Ascii String.
From S2P Require Import Prelude GoString Float64 Runtime.
Open Scope string_scope.
Open Scope Z_scope.

(** ** Keys and handles *)

Record Key := MkKey { k_Path : string; k_StartLine : Z; k_EndLine : Z; k_Variant : string }.
#[export] Instance Key_eq_dec : EqDecision Key.
Proof. solve_decision. Defined.
#[export] Instance Key_countable : Countable Key.
Proof.
  refine (inj_countable' (fun k => (k_Path k, k_StartLine k, k_EndLine k, k_Variant k))
                         (fun t => MkKey (fst (fst (fst t))) (snd (fst (fst t))) (snd (fst t)) (snd t)) _).
  by intros [].
Defined.

Definition HandleExpandRange : string := "expand_range".

Record Handle := MkHandleRec {
  hd_ID : string; hd_Kind : string; hd_Path : string; hd_StartLine : Z; hd_EndLine : Z;
  hd_Variant : string; hd_Fingerprint : string
}.

Definition handle_range (h : Handle) : Key := MkKey (hd_Path h) (hd_StartLine h) (hd_EndLine h) (hd_Variant h).

Definition zero_handle : Handle := MkHandleRec "" "" "" 0 0 "" "".

Inductive HandleState := HandleOK | HandleStale | HandleUnknown.

Section handles.
Context `{GoRuntime}.

Definition Fingerprint (content : string) : string := sha256_hex content.

Definition handle_preimage (k : Key) (fp : string) : string :=
  k_Path k ++ String "000" (dec (k_StartLine k)) ++ String "000" (dec (k_EndLine k))
  ++ String "000" (k_Variant k) ++ String "000" fp.

(** The identifier keeps the first eight bytes of the digest. *)
Definition NewHandle (k : Key) (content : string) : Handle :=
  let fp := Fingerprint content in
  {| hd_ID := "h_" ++ str_take 16 (sha256_hex (handle_preimage k fp)); hd_Kind := HandleExpandRange;
     hd_Path := k_Path k; hd_StartLine := k_StartLine k; hd_EndLine := k_EndLine k; hd_Variant := k_Variant k;
     hd_Fingerprint := fp |}.
End handles.

(** ** The registry *)

Record Registry := MkRegistry {
  rg_seq : Z;
  rg_byKey : gmap Key Z;
  rg_latest : gmap Key string;
  rg_issued : gmap string Handle
}.

Definition NewRegistry : Registry := MkRegistry 0 ∅ ∅ ∅.

Definition back_pointer (ordinal : Z) : string := "d" ++ dec ordinal.

Definition Track (r : Registry) (k : Key) (fingerprint : string) : bool * string * Registry :=
  if bool_decide (rg_latest r !! k = Some fingerprint) then
    (true, back_pointer (default 0 (rg_byKey r !! k)), r)
  else
    let seq := rg_seq r + 1 in
    let byKey := match rg_byKey r !! k with None => <[k := seq]> (rg_byKey r) | Some _ => rg_byKey r end in
    (false, back_pointer (default 0 (byKey !! k)),
     MkRegistry seq byKey (<[k := fingerprint]> (rg_latest r)) (rg_issued r)).

Definition Issue (r : Registry) (h : Handle) : Registry :=
  MkRegistry (rg_seq r) (rg_byKey r) (rg_latest r) (<[hd_ID h := h]> (rg_issued r)).

Definition Resolve (r : Registry) (id : string) : Handle * HandleState :=
  match rg_issued r !! id with
  | None => (zero_handle, HandleUnknown)
  | Some h =>
      if bool_decide (rg_latest r !! handle_range h = Some (hd_Fingerprint h)) then (h, HandleOK) else (h, HandleStale)
  end.

(** ** The abstract registry: the history of what was tracked and issued *)

Inductive reg_op := OpTrack (k : Key) (fingerprint : string) | OpIssue (h : Handle).

Definition reg_step (r : Registry) (op : reg_op) : Registry :=
  match op with
  | OpTrack k fp => snd (Track r k fp)
  | OpIssue h => Issue r h
  end.

Definition run_registry (hist : list reg_op) : Registry := fold_left reg_step hist NewRegistry.

(** The last fingerprint tracked for a range; the last handle issued under an id. *)
Fixpoint last_tracked (k : Key) (hist : list reg_op) : option string :=
  match hist with
  | [] => None
  | op :: hist' =>
      match last_tracked k hist' with
      | Some fp => Some fp
      | None => match op with
                | OpTrack k' fp => if decide (k' = k) then Some fp else None
                | OpIssue _ => None
                end
      end
  end.

Fixpoint last_issued (id : string) (hist : list reg_op) : option Handle :=
  match hist with
  | [] => None
  | op :: hist' =>
      match last_issued id hist' with
      | Some h => Some h
      | None => match op with
                | OpIssue h => if decide (hd_ID h = id) then Some h else None
                | OpTrack _ _ => None
                end
      end
  end.

Lemma last_tracked_snoc k hist op :
  last_tracked k (hist ++ [op]) =
  match op with
  | OpTrack k' fp => if decide (k' = k) then Some fp else last_tracked k hist
  | OpIssue _ => last_tracked k hist
  end.
Proof. induction hist as [|o hist IH]; cbn; [by destruct op|]. rewrite IH. destruct op; [by case_decide|done]. Qed.

Lemma last_issued_snoc id hist op :
  last_issued id (hist ++ [op]) =
  match op with
  | OpIssue h => if decide (hd_ID h = id) then Some h else last_issued id hist
  | OpTrack _ _ => last_issued id hist
  end.
Proof. induction hist as [|o hist IH]; cbn; [by destruct op|]. rewrite IH. destruct op; [done|by case_decide]. Qed.

Record reg_inv (hist : list reg_op) (r : Registry) : Prop := {
  ri_latest : forall k, rg_latest r !! k = last_tracked k hist;
  ri_issued : forall id, rg_issued r !! id = last_issued id hist;
  ri_dom : forall k, is_Some (rg_byKey r !! k) <-> is_Some (last_tracked k hist);
  ri_range : forall k n, rg_byKey r !! k = Some n -> 1 <= n <= rg_seq r;
  ri_inj : forall k k' n, rg_byKey r !! k = Some n -> rg_byKey r !! k' = Some n -> k = k';
  ri_seq : 0 <= rg_seq r
}.

Lemma reg_inv_track hist r k fp : reg_inv hist r -> reg_inv (hist ++ [OpTrack k fp]) (snd (Track r k fp)).
Proof.
  intros [Hl Hi Hd Hr Hj Hs]. unfold Track. case_bool_decide as Hc; cbn [snd].
  - constructor; try done.
    + intros k'. rewrite last_tracked_snoc, Hl. case_decide as E; [|done]. subst k'. by rewrite <- Hl.
    + intros id. by rewrite last_issued_snoc, Hi.
    + intros k'. rewrite Hd, last_tracked_snoc. case_decide as E; [|done]. subst k'.
      rewrite <- Hl, Hc. split; eauto.
  - constructor; cbn.
    + intros k'. rewrite last_tracked_snoc, lookup_insert, Hl. done.
    + intros id. by rewrite last_issued_snoc, Hi.
    + intros k'. rewrite last_tracked_snoc. case_decide as E.
      * subst k'. split; [eauto|]. intros _. destruct (rg_byKey r !! k) eqn:Eb; [by rewrite Eb|].
        rewrite lookup_insert_eq. eauto.
      * rewrite <- Hd. destruct (rg_byKey r !! k); [done|]. by rewrite lookup_insert_ne.
    + intros k' n. destruct (rg_byKey r !! k) eqn:Eb.
      * intros ?%Hr. lia.
      * rewrite lookup_insert. case_decide; [intros [= <-]; lia|intros ?%Hr; lia].
    + intros k1 k2 n. destruct (rg_byKey r !! k) eqn:Eb; [by apply Hj|].
      rewrite !lookup_insert. repeat case_decide; intros H1 H2; try congruence.
      * injection H1 as <-. apply Hr in H2. lia.
      * injection H2 as <-. apply Hr in H1. lia.
      * by eapply Hj.
    + lia.
Qed.

Lemma reg_inv_run hist : reg_inv hist (run_registry hist).
Proof.
  unfold run_registry. induction hist as [|op hist IH] using rev_ind.
  - constructor; cbn; try done. intros k. by rewrite lookup_empty.
  - rewrite fold_left_app. cbn [fold_left]. destruct op as [k fp|h]; cbn [reg_step]; [by apply reg_inv_track|].
    destruct IH as [Hl Hi Hd Hr Hj Hs]. constructor; cbn; try done.
    + intros k. by rewrite last_tracked_snoc.
    + intros id. rewrite last_issued_snoc, lookup_insert, Hi. done.
    + intros k. by rewrite last_tracked_snoc.
Qed.

(** The registry refines its history. A range is a duplicate exactly when
    its fingerprint is the last one tracked for it, and then nothing is
    recorded; a handle resolves as unknown when its id was never issued, as current
    when the last fingerprint tracked for its range is the handle's, and as stale otherwise; and
    distinct ranges have distinct back-pointer ordinals. *)
Theorem registry_refines_history hist k fp id :
  let r := run_registry hist in
  (fst (fst (Track r k fp)) = true <-> last_tracked k hist = Some fp) /\
  (fst (fst (Track r k fp)) = true -> snd (Track r k fp) = r) /\
  Resolve r id =
    match last_issued id hist with
    | None => (zero_handle, HandleUnknown)
    | Some h => (h, if decide (last_tracked (handle_range h) hist = Some (hd_Fingerprint h)) then HandleOK else HandleStale)
    end /\
  (forall k1 k2 n, rg_byKey r !! k1 = Some n -> rg_byKey r !! k2 = Some n -> k1 = k2) /\
  (last_tracked k hist = Some fp -> exists n, rg_byKey r !! k = Some n /\ snd (fst (Track r k fp)) = back_pointer n).
Proof.
  cbv zeta. destruct (reg_inv_run hist) as [Hl Hi Hd Hr Hj Hs]. set (r := run_registry hist) in *.
  unfold Track, Resolve. rewrite Hl, Hi. split_and!.
  - case_bool_decide; cbn; split; congruence.
  - by case_bool_decide.
  - destruct (last_issued id hist) as [h|]; [|done]. rewrite Hl. case_bool_decide; by case_decide.
  - exact Hj.
  - intros Hk. rewrite bool_decide_eq_true_2 by done. destruct (proj2 (Hd k)) as [n Hn]; [by rewrite Hk|].
    exists n. cbn. by rewrite Hn.
Qed.

(** ** The governor *)

Record Limits := MkLimits { l_MaxWorkers : Z; l_MaxCandidates : Z; l_MaxOutputBytes : Z; l_MaxWallTime : Z }.

Definition normalized (l : Limits) : Limits :=
  let nn z := if z <? 0 then 0 else z in
  MkLimits (nn (l_MaxWorkers l)) (nn (l_MaxCandidates l)) (nn (l_MaxOutputBytes l)) (nn (l_MaxWallTime l)).

Record Governor := MkGovernor { g_limits : Limits; g_workers : Z; g_candidates : Z; g_outputBytes : Z }.

Definition NewGovernor (l : Limits) : Governor := MkGovernor (normalized l) 0 0 0.

Definition AcquireWorker (g : Governor) : bool * Governor :=
  let max := l_MaxWorkers (g_limits g) in
  if (0 <? max) && (max <=? g_workers g) then (false, g)
  else (true, MkGovernor (g_limits g) (wrap64 (g_workers g + 1)) (g_candidates g) (g_outputBytes g)).

Definition ReleaseWorker (g : Governor) : Governor :=
  if 0 <? g_workers g then MkGovernor (g_limits g) (g_workers g - 1) (g_candidates g) (g_outputBytes g) else g.

Definition AllowCandidate (g : Governor) : bool * Governor :=
  let max := l_MaxCandidates (g_limits g) in
  if (0 <? max) && (max <=? g_candidates g) then (false, g)
  else (true, MkGovernor (g_limits g) (g_workers g) (wrap64 (g_candidates g + 1)) (g_outputBytes g)).

Definition ReserveOutputBytes (g : Governor) (n : Z) : bool * Governor :=
  if n <? 0 then (false, g)
  else
    let max := l_MaxOutputBytes (g_limits g) in
    if (0 <? max) && (max <? wrap64 (g_outputBytes g + n)) then (false, g)
    else (true, MkGovernor (g_limits g) (g_workers g) (g_candidates g) (wrap64 (g_outputBytes g + n))).

(** [elapsed] is [now().Sub(start)]; [true] means no error. *)
Definition CheckTime (g : Governor) (elapsed : Z) : bool :=
  if l_MaxWallTime (g_limits g) <=? 0 then true else negb (l_MaxWallTime (g_limits g) <? elapsed).

(** [Report]: a snapshot of limits and usage. *)
Record GovernorReport := MkReport {
  gr_Limits : Limits; gr_ActiveWorkers : Z; gr_Candidates : Z; gr_OutputBytes : Z;
  gr_ElapsedMillis : Z; gr_WallTimeLimited : bool
}.

(** [t1] and [t2] are the two readings of [now().Sub(start)]. *)
Definition Governor_Report (g : Governor) (t1 t2 : Z) : GovernorReport := {|
  gr_Limits := g_limits g; gr_ActiveWorkers := g_workers g; gr_Candidates := g_candidates g;
  gr_OutputBytes := g_outputBytes g; gr_ElapsedMillis := Z.quot t1 1000000;
  gr_WallTimeLimited := (0 <? l_MaxWallTime (g_limits g)) && (l_MaxWallTime (g_limits g) <? t2) |}.

(** ** The governor as a transition system *)

Inductive gov_step : Governor -> Governor -> Prop :=
| gov_acquire g : gov_step g (snd (AcquireWorker g))
| gov_release g : gov_step g (ReleaseWorker g)
| gov_candidate g : gov_step g (snd (AllowCandidate g))
| gov_reserve g n : n < 2 ^ 62 -> gov_step g (snd (ReserveOutputBytes g n)).

(** In use and configured, per dimension: unlimited or within the limit. *)
Definition within (limit used : Z) : Prop := 0 <= limit /\ (0 < limit -> 0 <= used <= limit).

Record gov_inv (g : Governor) : Prop := {
  gi_workers : within (l_MaxWorkers (g_limits g)) (g_workers g);
  gi_candidates : within (l_MaxCandidates (g_limits g)) (g_candidates g);
  gi_bytes : within (l_MaxOutputBytes (g_limits g)) (g_outputBytes g)
}.

Definition int_limits (l : Limits) : Prop :=
  l_MaxWorkers l < 2 ^ 63 /\ l_MaxCandidates l < 2 ^ 63 /\ l_MaxOutputBytes l < 2 ^ 62.

Lemma within_count max used :
  max < 2 ^ 63 -> within max used -> (0 <? max) && (max <=? used) = false -> within max (wrap64 (used + 1)).
Proof.
  intros Hm [H0 Hw] Hc. split; [done|]. intros Hp. specialize (Hw Hp).
  rewrite (proj2 (Z.ltb_lt 0 max) Hp) in Hc. cbn in Hc. apply Z.leb_gt in Hc.
  rewrite wrap64_id by (unfold int64; lia). lia.
Qed.

Lemma gov_inv_step g g' :
  int_limits (g_limits g) -> gov_inv g -> gov_step g g' -> gov_inv g' /\ g_limits g' = g_limits g.
Proof.
  intros (Hl1 & Hl2 & Hl3) [Hw Hc Hb] Hs.
  destruct Hs as [g|g|g|g n Hn]; unfold AcquireWorker, ReleaseWorker, AllowCandidate, ReserveOutputBytes.
  - destruct (_ && _) eqn:E; [by split|]. split; [|done]. split; [by apply within_count|done|done].
  - destruct (Z.ltb_spec 0 (g_workers g)); [|by split]. split; [|done]. split; [|done|done]. cbn.
    destruct Hw as [? Hw]. split; [done|]. lia.
  - destruct (_ && _) eqn:E; [by split|]. split; [|done]. split; [done|by apply within_count|done].
  - destruct (Z.ltb_spec n 0); [by split|]. destruct (_ && _) eqn:E; [by split|]. split; [|done]. split; [done|done|]. cbn.
    destruct Hb as [H0 Hb]. split; [done|]. intros Hp. specialize (Hb Hp).
    rewrite (proj2 (Z.ltb_lt _ _) Hp) in E. cbn in E. apply Z.ltb_ge in E.
    rewrite wrap64_id in * by (unfold int64; lia). lia.
Qed.

Lemma gov_inv_new l : gov_inv (NewGovernor l).
Proof.
  split; cbn; split; try lia; intros;
    repeat match goal with |- context [?a <? 0] => destruct (Z.ltb_spec a 0) end; lia.
Qed.

(** The governor never exceeds a configured limit: in every state reachable
    from its creation, whatever the order of the calls and their outcomes, the
    held workers, admitted candidates and reserved bytes are non-negative and
    within their limits (sizes of emitted texts are far below the integer
    range). *)
Theorem governor_within_limits l g :
  int_limits l -> rtc gov_step (NewGovernor l) g -> gov_inv g /\ g_limits g = normalized l.
Proof.
  intros Hl Hr.
  refine (rtc_ind_r (fun g => gov_inv g /\ g_limits g = normalized l) (NewGovernor l) _ _ g Hr).
  - split; [apply gov_inv_new|done].
  - intros g1 g2 _ Hs [Hi Hlim]. destruct (gov_inv_step g1 g2) as [Hi2 Hlim2]; [|done|done|split; [done|congruence]].
    rewrite Hlim. unfold int_limits, normalized in *. cbn.
    repeat match goal with |- context [?a <? 0] => destruct (Z.ltb_spec a 0) end; lia.
Qed.

Lemma governor_within_limits_witness :
  let l := MkLimits 1 1 100 0 in
  let g := snd (AllowCandidate (snd (ReserveOutputBytes (NewGovernor l) 60))) in
  gov_inv g /\ fst (ReserveOutputBytes g 41) = false /\ fst (ReserveOutputBytes g 40) = true.
Proof.
  cbv zeta. split; [|split; reflexivity].
  apply (governor_within_limits (MkLimits 1 1 100 0)).
  - repeat split.
  - eapply rtc_l; [apply (gov_reserve _ 60); lia|]. apply rtc_once, gov_candidate.
Defined.

(** The byte reservation is not protected against integer wrap-around: with
    one byte in use, reserving the largest [int] is granted and leaves a
    negative balance, after which the limit admits anything up to it. *)
Theorem reserve_wraps_around :
  let g := snd (ReserveOutputBytes (NewGovernor (MkLimits 0 0 100 0)) 1) in
  fst (ReserveOutputBytes g (2 ^ 63 - 1)) = true /\
  g_outputBytes (snd (ReserveOutputBytes g (2 ^ 63 - 1))) = - 2 ^ 63.
Proof. split; vm_compute; reflexivity. Qed.
