(* ===== verification/ContextRender.v ===== *)
(** * contextpack: rendering and line truncation

    Models [services/brain/internal/contextpack/render.go] and [truncateLines] of
    [pack.go]. *)

From Stdlib Require Import Ascii String.
From S2P Require Import Prelude GoString Float64 Runtime.
Open Scope string_scope.
Open Scope Z_scope.

Definition RenderFull : string := "full".
Definition RenderSignatures : string := "signatures".
Definition RenderSkeleton : string := "skeleton".
Definition RenderCompact : string := "compact".

Definition ParseRenderMode (s : string) : option string :=
  let t := trim_space s in
  if String.eqb t "" || String.eqb t RenderFull then Some RenderFull
  else if String.eqb t RenderSignatures then Some RenderSignatures
  else if String.eqb t RenderSkeleton then Some RenderSkeleton
  else if String.eqb t RenderCompact then Some RenderCompact
  else None.

Definition line_feed : ascii := "010".

Definition declKeywords : list string :=
  ["package"; "import"; "func"; "type"; "const"; "var"; "class"; "struct"; "interface"; "enum"; "trait"; "impl";
   "def"; "fn"; "module"; "namespace"; "export"; "public"; "private"; "protected"].

(** A keyword alone, or followed by one of the delimiters. *)
Definition starts_decl (t kw : string) : bool :=
  String.eqb t kw ||
  (has_prefix kw t &&
   match String.get (String.length kw) t with
   | Some c => bool_decide (c ∈ [" "; "009"; "("; "{"; ":"]%char)
   | None => false
   end).

Definition isDeclLine (line : string) : bool := existsb (starts_decl (trim_space line)) declKeywords.

Definition isCloserLine (line : string) : bool :=
  bool_decide (trim_space line ∈ ["}"; "});"; ")"; "]"; "end"]).

Definition isBlank (line : string) : bool := String.eqb (trim_space line) "".

Definition isCommentLine (line : string) : bool :=
  let t := trim_space line in
  has_prefix "//" t || has_prefix "#" t || has_prefix "/*" t || has_prefix "*" t || has_prefix "--" t.

(** [strings.TrimRight(l, " \t")]. *)
Definition is_blank_char (c : ascii) : bool := Ascii.eqb c " " || Ascii.eqb c "009".
Fixpoint trim_right (s : string) : string :=
  match s with
  | EmptyString => EmptyString
  | String c s' =>
      match trim_right s' with
      | EmptyString => if is_blank_char c then EmptyString else String c EmptyString
      | t => String c t
      end
  end.

Definition filterLines (content : string) (keep : string -> bool) : list string :=
  List.filter keep (map trim_right (split_char line_feed content)).

Definition joinLines (lines : list string) : string := join (String line_feed "") lines.

(** The line filter of a mode; [None] for the verbatim modes. *)
Definition keep_line (mode : string) : option (string -> bool) :=
  if String.eqb mode RenderSignatures then Some isDeclLine
  else if String.eqb mode RenderSkeleton then Some (fun l => isDeclLine l || isCloserLine l)
  else if String.eqb mode RenderCompact then Some (fun l => negb (isBlank l) && negb (isCommentLine l))
  else None.

Definition Render (content mode : string) : string :=
  match keep_line mode with
  | Some keep => joinLines (filterLines content keep)
  | None => content
  end.

(** The loop of [truncateLines]: [first] on the first line. *)
Fixpoint truncate_loop (maxBytes : Z) (first : bool) (acc : string) (lines : list string) : string :=
  match lines with
  | [] => acc
  | l :: lines' =>
      let need := if first then len l else len l + 1 in
      if maxBytes <? len acc + need then acc
      else truncate_loop maxBytes false (if first then acc ++ l else acc ++ String line_feed l) lines'
  end.

Definition truncateLines (content : string) (maxBytes : Z) : string :=
  let maxBytes := if maxBytes <? 0 then 0 else maxBytes in
  if len content <=? maxBytes then content
  else truncate_loop maxBytes true "" (split_char line_feed content).

(** ** Lemmas: lines *)

Lemma trim_right_idem s : trim_right (trim_right s) = trim_right s.
Proof.
  induction s as [|c s IH]; cbn; [done|]. destruct (trim_right s) as [|c' t] eqn:E.
  - destruct (is_blank_char c) eqn:Ec; cbn; [done|]. by rewrite Ec.
  - change (trim_right (String c (String c' t)))
      with (match trim_right (String c' t) with
            | EmptyString => if is_blank_char c then EmptyString else String c EmptyString
            | t' => String c t'
            end).
    by rewrite IH.
Qed.

Lemma trim_right_len s : len (trim_right s) <= len s.
Proof.
  unfold len. induction s as [|c s IH]; cbn; [done|].
  destruct (trim_right s); [destruct (is_blank_char c)|]; cbn in *; lia.
Qed.

Lemma trim_right_contains c s : contains_char c s = false -> contains_char c (trim_right s) = false.
Proof.
  induction s as [|a s IH]; cbn; [done|]. intros [Ha Hs]%orb_false_iff. specialize (IH Hs).
  destruct (trim_right s); [destruct (is_blank_char a); cbn; [done|by rewrite Ha]|].
  cbn in *. by rewrite Ha.
Qed.

(** A rendered text rendered again gives the lines back. *)
Lemma filterLines_lines content keep :
  Forall (fun l => contains_char line_feed l = false /\ trim_right l = l /\ keep l = true) (filterLines content keep).
Proof.
  unfold filterLines. apply Forall_forall. intros l Hl%list_elem_of_In. apply filter_In in Hl as [Hl Hk].
  apply in_map_iff in Hl as (l0 & <- & Hl0). split_and!; [|apply trim_right_idem|done].
  apply trim_right_contains. pose proof (split_char_no_sep line_feed content) as Hs. rewrite Forall_forall in Hs.
  by apply Hs, list_elem_of_In.
Qed.

Lemma filter_map_fixed (keep : string -> bool) lines :
  Forall (fun l => trim_right l = l /\ keep l = true) lines -> List.filter keep (map trim_right lines) = lines.
Proof. induction 1 as [|l lines [Ht Hk] Hl IH]; cbn; [done|]. by rewrite Ht, Hk, IH. Qed.

Lemma Render_mode_blank mode keep : keep_line mode = Some keep -> keep "" = false.
Proof. unfold keep_line. repeat case_match; intros [= <-]; vm_compute; reflexivity. Qed.

Lemma join_snoc sep (l : list string) x : l <> [] -> join sep (l ++ [x])%list = join sep l ++ sep ++ x.
Proof.
  induction l as [|a l IH]; [done|]. intros _. destruct l as [|b l]; [done|].
  change (a ++ sep ++ join sep ((b :: l) ++ [x])%list = (a ++ sep ++ join sep (b :: l)) ++ sep ++ x).
  rewrite IH by done. by rewrite !append_assoc.
Qed.

Lemma len_join (l : list string) : l <> [] -> len (joinLines l) + 1 = sumZ (fun s => len s + 1) l.
Proof.
  unfold joinLines. induction l as [|a l IH]; [done|]. intros _. destruct l as [|b l]; [cbn; lia|].
  change (join (String line_feed "") (a :: b :: l)) with (a ++ String line_feed "" ++ join (String line_feed "") (b :: l)).
  rewrite !len_app. cbn [sumZ] in *. specialize (IH ltac:(done)). change (len (String line_feed "")) with 1. lia.
Qed.

Lemma sumZ_filter_le (f : string -> Z) (keep : string -> bool) l :
  (forall s, 0 <= f s) -> sumZ f (List.filter keep l) <= sumZ f l.
Proof. intros Hf. induction l as [|s l IH]; cbn; [lia|]. specialize (Hf s). destruct (keep s); cbn; lia. Qed.

Lemma sumZ_map {A B} (f : B -> Z) (g : A -> B) l : sumZ f (map g l) = sumZ (fun x => f (g x)) l.
Proof. induction l; cbn; [done|]. by rewrite IHl. Qed.

Lemma content_join content : content = joinLines (split_char line_feed content).
Proof. unfold joinLines. by rewrite join_split. Qed.

Lemma filterLines_shrinks content keep : len (joinLines (filterLines content keep)) <= len content.
Proof.
  destruct (decide (filterLines content keep = [])) as [->|Hne]; [apply len_nonneg|].
  rewrite (content_join content) at 2.
  pose proof (len_join _ Hne). pose proof (len_join _ (split_char_nonempty line_feed content)).
  unfold filterLines in *. set (ls := split_char line_feed content) in *.
  assert (sumZ (fun s => len s + 1) (List.filter keep (map trim_right ls)) <= sumZ (fun s => len s + 1) (map trim_right ls)).
  { apply sumZ_filter_le. intros s. pose proof (len_nonneg s). lia. }
  rewrite (sumZ_map (fun s => len s + 1) trim_right ls) in *.
  assert (sumZ (fun x => len (trim_right x) + 1) ls <= sumZ (fun s => len s + 1) ls).
  { apply sumZ_le. intros x _. pose proof (trim_right_len x). lia. }
  lia.
Qed.

Lemma prefix_app s t : has_prefix s (s ++ t) = true.
Proof. rewrite <- (str_take_app s t) at 1. apply str_prefix_take. Qed.

Lemma prefix_nil t : has_prefix "" t = true.
Proof. by destruct t. Qed.

Lemma prefix_trans s t u : has_prefix s t = true -> has_prefix t u = true -> has_prefix s u = true.
Proof.
  unfold has_prefix. revert t u. induction s as [|a s IH]; intros t u; [by destruct u|].
  destruct t as [|b t]; cbn; [done|]. destruct (ascii_dec a b) as [->|]; [|done].
  destruct u as [|c u]; cbn; [done|]. destruct (ascii_dec b c); [apply IH|done].
Qed.

Lemma join_prefix sep (l1 l2 : list string) : has_prefix (join sep l1) (join sep (l1 ++ l2)%list) = true.
Proof.
  induction l2 as [|x l2 IH] using rev_ind; [rewrite app_nil_r; rewrite <- (append_nil_r (join sep l1)) at 2; apply prefix_app|].
  destruct (decide (l1 = [])) as [->|Hne]; [apply prefix_nil|].
  rewrite app_assoc, join_snoc by (by destruct l1).
  apply prefix_trans with (join sep (l1 ++ l2)%list); [done|apply prefix_app].
Qed.

Lemma truncate_loop_stops maxBytes before_ rest :
  len (joinLines before_) <= maxBytes -> maxBytes < len (joinLines (before_ ++ rest)%list) ->
  exists k, (k < length rest)%nat /\
    truncate_loop maxBytes (bool_decide (before_ = [])) (joinLines before_) rest
      = joinLines (before_ ++ take k rest)%list /\
    len (joinLines (before_ ++ take k rest)%list) <= maxBytes < len (joinLines (before_ ++ take (S k) rest)%list).
Proof.
  revert before_. induction rest as [|l rest IH]; intros b Hb Hr.
  - rewrite app_nil_r in Hr. lia.
  - assert (Hnext : (if bool_decide (b = []) then joinLines b ++ l else joinLines b ++ String line_feed l)
                    = joinLines (b ++ [l])%list).
    { case_bool_decide as E; [by subst|]. unfold joinLines. by rewrite join_snoc. }
    assert (Hlen : len (joinLines (b ++ [l])%list)
                   = len (joinLines b) + (if bool_decide (b = []) then len l else len l + 1)).
    { rewrite <- Hnext. case_bool_decide; rewrite len_app; unfold len; cbn; lia. }
    cbn [truncate_loop]. rewrite <- Hlen, Hnext.
    destruct (Z.ltb_spec maxBytes (len (joinLines (b ++ [l])%list))).
    + exists 0%nat. cbn. rewrite take_0, app_nil_r. split_and!; [lia|done|done|done].
    + destruct (IH (b ++ [l])%list) as (k & Hk & Hl & Hle); [lia|by rewrite <- app_assoc|].
      rewrite (bool_decide_eq_false_2 ((b ++ [l])%list = [])) in Hl by (by destruct b).
      rewrite <- !app_assoc in *. exists (S k). cbn in *. split_and!; [lia|done|lia|lia].
Qed.

Lemma prefix_refl s : has_prefix s s = true.
Proof. rewrite <- (append_nil_r s) at 2. apply prefix_app. Qed.

Lemma truncateLines_cases content maxBytes :
  let lines := split_char line_feed content in
  let m := Z.max 0 maxBytes in
  (len content <= m /\ truncateLines content maxBytes = content) \/
  (m < len content /\ exists k, (k < length lines)%nat /\ truncateLines content maxBytes = joinLines (take k lines) /\
     len (joinLines (take k lines)) <= m < len (joinLines (take (S k) lines))).
Proof.
  cbv zeta. unfold truncateLines. set (m := if maxBytes <? 0 then 0 else maxBytes).
  assert (Hm : m = Z.max 0 maxBytes) by (subst m; destruct (Z.ltb_spec maxBytes 0); lia).
  rewrite <- Hm. destruct (Z.leb_spec (len content) m); [by left|right]. split; [done|].
  destruct (truncate_loop_stops m [] (split_char line_feed content)) as (k & Hk & Hl & Hle).
  - cbn. unfold len. cbn. lia.
  - cbn [app]. by rewrite <- content_join.
  - cbn [app] in *. change (joinLines []) with "" in Hl. rewrite bool_decide_eq_true_2 in Hl by done. by exists k.
Qed.

Lemma lines_prefix k content : has_prefix (joinLines (take k (split_char line_feed content))) content = true.
Proof.
  rewrite (content_join content) at 2. rewrite <- (take_drop k (split_char line_feed content)) at 2. apply join_prefix.
Qed.

Lemma truncate_facts content m :
  has_prefix (truncateLines content m) content = true /\ len (truncateLines content m) <= Z.max 0 m.
Proof.
  destruct (truncateLines_cases content m) as [[? ->]|(_ & k & _ & -> & ?)]; split;
    [apply prefix_refl|done|apply lines_prefix|lia].
Qed.

(** ** Properties *)

(** Truncation keeps whole lines and as many as fit: a text within the
    bound is returned as it is; a longer one becomes its first lines, joined as
    they were, within the bound and such that the next line would not fit; in
    every case a prefix of the text. *)
Theorem truncateLines_longest content maxBytes :
  let out := truncateLines content maxBytes in
  let lines := split_char line_feed content in
  let m := Z.max 0 maxBytes in
  has_prefix out content = true /\ len out <= m /\
  (len content <= m -> out = content) /\
  (m < len content -> exists k, (k < length lines)%nat /\ out = joinLines (take k lines) /\
     m < len (joinLines (take (S k) lines))).
Proof.
  cbv zeta. destruct (truncate_facts content maxBytes) as [Hp Hl]. split_and!; [done|done| |].
  - intros Hs. destruct (truncateLines_cases content maxBytes) as [[_ ->]|[? _]]; [done|lia].
  - intros Hs. destruct (truncateLines_cases content maxBytes) as [[? _]|(_ & k & Hk & Ht & _ & Hn)]; [lia|].
    by exists k.
Qed.

(** Rendering is stable and never enlarges: every mode applied to its own
    output changes nothing, and the rendered text is no longer than the source. *)
Theorem Render_stable content mode :
  Render (Render content mode) mode = Render content mode /\ len (Render content mode) <= len content.
Proof.
  unfold Render. destruct (keep_line mode) as [keep|] eqn:Ek; [|done]. split; [|apply filterLines_shrinks].
  f_equal. unfold filterLines at 1, joinLines.
  destruct (decide (filterLines content keep = [])) as [Hn|Hne].
  - rewrite Hn. cbn. by rewrite (Render_mode_blank _ _ Ek).
  - rewrite split_join; [apply filter_map_fixed|done|];
      (eapply Forall_impl; [apply filterLines_lines|]; intros l (? & ? & ?); cbn; auto).
Qed.
