(* ===== verification/ContextPack.v ===== *)
(** * contextpack: budgeted packing

    Models [services/brain/internal/contextpack/pack.go]: budgets, allocation in
    floating point, and [Pack], which threads the session registry and the governor.
    [elapsed i] is the governor's clock at the [i]-th source.  For scores that are numbers
    the comparator is a strict weak order and [sort.SliceStable] has one
    result. *)

From Stdlib Require Import Ascii String SpecFloat.
From S2P Require Import Prelude GoString Float64 Runtime ContextRegistry ContextRender.
Open Scope string_scope.
Open Scope Z_scope.

Definition SchemaID : string := "sentra-scm.contextpack/v1".
Definition bytesPerToken : Z := 4.
Definition DefaultDirectFloorFraction : f64 := f_dec 4 10.

Definition EstimateTokens (content : string) : Z := (len content + bytesPerToken - 1) / bytesPerToken.

Record PackBudget := MkPackBudget { pb_MaxBytes : Z; pb_MaxTokens : Z }.

Definition ByteLimit (b : PackBudget) : Z :=
  let lim := if 0 <? pb_MaxBytes b then pb_MaxBytes b else 0 in
  if 0 <? pb_MaxTokens b then
    let tb := wrap64 (pb_MaxTokens b * bytesPerToken) in
    if (lim =? 0) || (tb <? lim) then tb else lim
  else lim.

Record Source := MkSource {
  s_Path : string; s_StartLine : Z; s_EndLine : Z; s_Content : string; s_Score : f64; s_Direct : bool
}.

Record Request := MkRequest {
  q_Sources : list Source;
  q_Budget : PackBudget;
  q_Render : string;
  q_DirectFloorFraction : f64;
  q_Registry : option Registry;
  q_Governor : option Governor
}.

Record PackedItem := MkItem {
  i_Path : string; i_StartLine : Z; i_EndLine : Z; i_Score : f64; i_Direct : bool; i_Render : string;
  i_Content : string; i_Ref : string; i_Dedup : bool; i_DedupRef : string; i_Bytes : Z; i_Tokens : Z;
  i_Truncated : bool; i_Handle : string; i_HandleKind : string
}.

Inductive omit_reason := OmitBudget | OmitCandidates | OmitOutputBytes | OmitWallTime.

Record Omission := MkOmission {
  o_Path : string; o_StartLine : Z; o_EndLine : Z; o_Reason : omit_reason; o_Handle : string
}.

Record Meta := MkMeta {
  m_Schema : string; m_Render : string; m_BudgetBytes : Z; m_BudgetTokens : Z; m_UsedBytes : Z; m_UsedTokens : Z;
  m_Unallocated : Z; m_Items : Z; m_Truncated : Z; m_Omitted : Z; m_Deduped : Z; m_DedupSavedByte : Z;
  m_Governor : option GovernorReport
}.

Record Result := MkResult { res_Items : list PackedItem; res_Omitted : list Omission; res_Meta : Meta }.

Definition source_lt (a b : Source) : bool :=
  if negb (f_eqb (s_Score a) (s_Score b)) then f_ltb (s_Score b) (s_Score a)
  else then_by s_Path String.ltb (then_by s_StartLine Z.ltb (on_key s_EndLine Z.ltb)) a b.

Definition floorFraction (req : Request) : f64 :=
  let f := q_DirectFloorFraction req in
  let f := if f_leb f f_zero then DefaultDirectFloorFraction else f in
  if f_ltb f_one f then f_one else f.

Section pack.
Context `{GoRuntime}.

(** ** Allocation *)

(** The floor pass over the direct sources: grants, and what remains. *)
Fixpoint grant_direct (perDirect : Z) (l : list (Source * Z)) (remaining : Z) : list Z * Z :=
  match l with
  | [] => ([], remaining)
  | (s, size) :: l' =>
      if s_Direct s then
        let grant := if size <? perDirect then size else perDirect in
        let '(gs, r) := grant_direct perDirect l' (wrap64 (remaining - grant)) in (grant :: gs, r)
      else
        let '(gs, r) := grant_direct perDirect l' remaining in (0 :: gs, r)
  end.

Definition weight (s : Source) : f64 := if f_ltb (s_Score s) f_zero then f_zero else s_Score s.

Definition go_int (a : f64) : Z := f_to_int int_out_of_range a.

Definition share_of (n remaining : Z) (total : f64) (s : Source) : Z :=
  if f_ltb f_zero total then go_int (f_div (f_mul (f_of_Z remaining) (weight s)) total)
  else if 0 <? n then Z.quot remaining n else 0.

Definition allocate (sources : list Source) (sizes : list Z) (limit : Z) (floorFrac : f64) : list Z :=
  if limit <=? 0 then sizes
  else
    let direct := Z.of_nat (length (List.filter s_Direct sources)) in
    let pairs := zip sources sizes in
    let '(grants, remaining) :=
      if 0 <? direct then grant_direct (go_int (f_div (f_mul (f_of_Z limit) floorFrac) (f_of_Z direct))) pairs limit
      else (map (fun _ => 0) pairs, limit) in
    let total := fold_left (fun t s => f_add t (weight s)) sources f_zero in
    zip_with (fun p g =>
      let a := wrap64 (g + share_of (Z.of_nat (length sources)) remaining total (fst p)) in
      if snd p <? a then snd p else a) pairs grants.

(** ** Packing *)

Record pack_state := MkPack {
  ps_items : list PackedItem; ps_omitted : list Omission;
  ps_usedBytes : Z; ps_usedTokens : Z; ps_truncated : Z; ps_deduped : Z; ps_saved : Z;
  ps_registry : option Registry; ps_governor : option Governor
}.

Definition pack_handle (mode : string) (alloc : Z) (s : Source) : Key * Handle :=
  let key := MkKey (s_Path s) (s_StartLine s) (s_EndLine s) (mode ++ ":" ++ dec alloc) in
  (key, NewHandle key (s_Content s)).

Definition omit (s : Source) (h : Handle) (reason : omit_reason) (st : pack_state) : pack_state :=
  MkPack (ps_items st)
    (ps_omitted st ++ [MkOmission (s_Path s) (s_StartLine s) (s_EndLine s) reason (hd_ID h)])%list
    (ps_usedBytes st) (ps_usedTokens st) (ps_truncated st) (ps_deduped st) (ps_saved st)
    (ps_registry st) (ps_governor st).

Definition set_governor (g : option Governor) (st : pack_state) : pack_state :=
  MkPack (ps_items st) (ps_omitted st) (ps_usedBytes st) (ps_usedTokens st) (ps_truncated st) (ps_deduped st)
    (ps_saved st) (ps_registry st) g.

Definition issue_handle (h : Handle) (st : pack_state) : pack_state :=
  MkPack (ps_items st) (ps_omitted st) (ps_usedBytes st) (ps_usedTokens st) (ps_truncated st) (ps_deduped st)
    (ps_saved st) (option_map (fun r => Issue r h) (ps_registry st)) (ps_governor st).

(** Wall time, then candidates. *)
Definition admit_source (elapsed : Z) (g : option Governor) : option omit_reason * option Governor :=
  match g with
  | None => (None, None)
  | Some g =>
      if negb (CheckTime g elapsed) then (Some OmitWallTime, Some g)
      else let '(ok, g') := AllowCandidate g in ((if ok then None else Some OmitCandidates), Some g')
  end.

(** The byte limit of one item, or [None] when the token budget is spent. *)
Definition item_limit (maxTokens usedTokens alloc : Z) : option Z :=
  if 0 <? maxTokens then
    let remaining := wrap64 (maxTokens - usedTokens) in
    if remaining <=? 0 then None
    else
      let tokenBytes := wrap64 (remaining * bytesPerToken) in
      Some (if (alloc =? 0) || (tokenBytes <? alloc) then tokenBytes else alloc)
  else Some alloc.

Definition reserve (g : option Governor) (n : Z) : bool * option Governor :=
  match g with
  | None => (true, None)
  | Some g => let '(ok, g') := ReserveOutputBytes g n in (ok, Some g')
  end.

(** Emits the item, with the registry's verdict. *)
Definition emit (mode : string) (s : Source) (key : Key) (h : Handle) (content : string) (truncated : bool)
    (st : pack_state) : pack_state :=
  let '(dedup, ref, registry) :=
    match ps_registry st with
    | None => (false, "", None)
    | Some r => let '(d, ref, r') := Track r key (hd_Fingerprint h) in (d, ref, Some r')
    end in
  let item := {|
    i_Path := s_Path s; i_StartLine := s_StartLine s; i_EndLine := s_EndLine s; i_Score := s_Score s;
    i_Direct := s_Direct s; i_Render := mode;
    i_Content := if dedup : bool then "" else content; i_Ref := ref; i_Dedup := dedup;
    i_DedupRef := if dedup then ref else "";
    i_Bytes := if dedup then 0 else len content; i_Tokens := if dedup then 0 else EstimateTokens content;
    i_Truncated := if dedup then false else truncated; i_Handle := hd_ID h; i_HandleKind := hd_Kind h |} in
  {| ps_items := (ps_items st ++ [item])%list; ps_omitted := ps_omitted st;
     ps_usedBytes := ps_usedBytes st + i_Bytes item; ps_usedTokens := ps_usedTokens st + i_Tokens item;
     ps_truncated := if truncated && negb dedup then ps_truncated st + 1 else ps_truncated st;
     ps_deduped := if dedup then ps_deduped st + 1 else ps_deduped st;
     ps_saved := if dedup then ps_saved st + len content else ps_saved st;
     ps_registry := registry; ps_governor := ps_governor st |}.

(** The loop body. *)
Definition pack_one (mode : string) (maxTokens elapsed : Z) (s : Source) (rendered : string) (alloc : Z)
    (st : pack_state) : pack_state :=
  let '(key, h) := pack_handle mode alloc s in
  let st := issue_handle h st in
  let '(denied, g) := admit_source elapsed (ps_governor st) in
  let st := set_governor g st in
  match denied with
  | Some reason => omit s h reason st
  | None =>
      match item_limit maxTokens (ps_usedTokens st) alloc with
      | None => omit s h OmitBudget st
      | Some itemLimit =>
          let truncated := itemLimit <? len rendered in
          let content := if truncated then truncateLines rendered itemLimit else rendered in
          if truncated && String.eqb content "" then omit s h OmitBudget st
          else
            let '(ok, g) := reserve (ps_governor st) (len content) in
            let st := set_governor g st in
            if ok then emit mode s key h content truncated st else omit s h OmitOutputBytes st
      end
  end.

Fixpoint pack_loop (mode : string) (maxTokens : Z) (elapsed : nat -> Z) (i : nat)
    (l : list (Source * string * Z)) (st : pack_state) : pack_state :=
  match l with
  | [] => st
  | (s, rendered, alloc) :: l' =>
      pack_loop mode maxTokens elapsed (S i) l' (pack_one mode maxTokens (elapsed i) s rendered alloc st)
  end.

Definition pack_mode (req : Request) : string := if String.eqb (q_Render req) "" then RenderFull else q_Render req.

Definition pack_ordered (req : Request) : list Source := sort_by source_lt (q_Sources req).

Definition pack_alloc (req : Request) : list Z :=
  let ordered := pack_ordered req in
  allocate ordered (map (fun s => len (Render (s_Content s) (pack_mode req))) ordered)
    (ByteLimit (q_Budget req)) (floorFraction req).

Definition Pack (req : Request) (elapsed : nat -> Z) : Result * option Registry * option Governor :=
  let ordered := pack_ordered req in
  let mode := pack_mode req in
  let limit := ByteLimit (q_Budget req) in
  let alloc := pack_alloc req in
  let st := pack_loop mode (pb_MaxTokens (q_Budget req)) elapsed 0
              (zip (zip ordered (map (fun s => Render (s_Content s) mode) ordered)) alloc)
              (MkPack [] [] 0 0 0 0 0 (q_Registry req) (q_Governor req)) in
  ({| res_Items := ps_items st; res_Omitted := ps_omitted st;
      res_Meta := {|
        m_Schema := SchemaID; m_Render := mode; m_BudgetBytes := limit; m_BudgetTokens := pb_MaxTokens (q_Budget req);
        m_UsedBytes := ps_usedBytes st; m_UsedTokens := ps_usedTokens st;
        m_Unallocated := if 0 <? limit then wrap64 (limit - sumZ id alloc) else 0;
        m_Items := Z.of_nat (length (ps_items st)); m_Truncated := ps_truncated st;
        m_Omitted := Z.of_nat (length (ps_omitted st)); m_Deduped := ps_deduped st; m_DedupSavedByte := ps_saved st;
        m_Governor := option_map (fun g => Governor_Report g (elapsed (length ordered)) (elapsed (S (length ordered))))
                        (ps_governor st) |} |}, ps_registry st, ps_governor st).

(** ** What one step adds *)

Definition source_range (s : Source) : string * Z * Z := (s_Path s, s_StartLine s, s_EndLine s).
Definition item_range (it : PackedItem) : string * Z * Z := (i_Path it, i_StartLine it, i_EndLine it).
Definition omission_range (o : Omission) : string * Z * Z := (o_Path o, o_StartLine o, o_EndLine o).

Definition b2z (b : bool) : Z := if b then 1 else 0.

(** An emitted item of [s]: a back-pointer without content, or a prefix of the
    rendered text, whole unless marked truncated. *)
Definition faithful_item (s : Source) (mode : string) (it : PackedItem) : Prop :=
  item_range it = source_range s /\ i_Bytes it = len (i_Content it) /\ i_Tokens it = EstimateTokens (i_Content it) /\
  if i_Dedup it then i_Content it = "" /\ i_Truncated it = false
  else has_prefix (i_Content it) (Render (s_Content s) mode) = true /\
       (i_Truncated it = false -> i_Content it = Render (s_Content s) mode).

Inductive pack_effect (s : Source) (mode : string) (limit : option Z) (st st' : pack_state) : Prop :=
| effect_omit reason h :
    ps_items st' = ps_items st ->
    ps_omitted st' = (ps_omitted st ++ [MkOmission (s_Path s) (s_StartLine s) (s_EndLine s) reason h])%list ->
    ps_usedBytes st' = ps_usedBytes st -> ps_usedTokens st' = ps_usedTokens st ->
    ps_truncated st' = ps_truncated st -> ps_deduped st' = ps_deduped st ->
    pack_effect s mode limit st st'
| effect_emit it lim :
    ps_items st' = (ps_items st ++ [it])%list -> ps_omitted st' = ps_omitted st ->
    faithful_item s mode it -> limit = Some lim -> i_Bytes it <= Z.max 0 lim ->
    ps_usedBytes st' = ps_usedBytes st + i_Bytes it -> ps_usedTokens st' = ps_usedTokens st + i_Tokens it ->
    ps_truncated st' = ps_truncated st + b2z (i_Truncated it) -> ps_deduped st' = ps_deduped st + b2z (i_Dedup it) ->
    pack_effect s mode limit st st'.

Lemma emit_effect mode s key h content truncated st lim :
  has_prefix content (Render (s_Content s) mode) = true ->
  (truncated = false -> content = Render (s_Content s) mode) -> len content <= Z.max 0 lim ->
  pack_effect s mode (Some lim) st (emit mode s key h content truncated st).
Proof.
  intros Hp Ht Hl. unfold emit.
  destruct (match ps_registry st with None => _ | Some _ => _ end) as [[dedup ref] registry].
  eapply effect_emit with (lim := lim); try reflexivity.
  - unfold faithful_item. destruct dedup; cbn; split_and!; done.
  - destruct dedup; cbn; lia.
  - destruct dedup, truncated; cbn; lia.
  - destruct dedup; cbn; lia.
Qed.

Lemma pack_one_effect mode maxTokens elapsed s alloc st :
  pack_effect s mode (item_limit maxTokens (ps_usedTokens st) alloc) st
    (pack_one mode maxTokens elapsed s (Render (s_Content s) mode) alloc st).
Proof.
  unfold pack_one. destruct (pack_handle mode alloc s) as [key h].
  destruct (admit_source _ _) as [[reason|] g]; [by eapply effect_omit|].
  cbn [ps_usedTokens set_governor issue_handle].
  destruct (item_limit _ _ _) as [lim|]; [|by eapply effect_omit].
  set (rendered := Render _ _). set (content := if lim <? len rendered then _ else _).
  destruct (_ && _); [by eapply effect_omit|].
  destruct (reserve _ _) as [[] g']; [|by eapply effect_omit].
  assert (He : pack_effect s mode (Some lim) st
    (emit mode s key h content (lim <? len rendered) (set_governor g' (set_governor g (issue_handle h st))))).
  { destruct (emit_effect mode s key h content (lim <? len rendered) (set_governor g' (set_governor g (issue_handle h st))) lim)
      as [reason h' ? ? ? ? ? ?|it lim' ? ? ? Hlim ? ? ? ? ?].
    - subst content. destruct (lim <? len rendered); [apply truncate_facts|apply prefix_refl].
    - subst content. by intros ->.
    - subst content. destruct (Z.ltb_spec lim (len rendered)); [apply truncate_facts|lia].
    - by eapply effect_omit.
    - by eapply effect_emit. }
  exact He.
Qed.

Record pack_inv (mode : string) (seen : list Source) (st : pack_state) : Prop := {
  pi_ranges : (item_range <$> ps_items st) ++ (omission_range <$> ps_omitted st) ≡ₚ source_range <$> seen;
  pi_items : Forall (fun it => exists s, s ∈ seen /\ faithful_item s mode it) (ps_items st);
  pi_bytes : ps_usedBytes st = sumZ i_Bytes (ps_items st);
  pi_tokens : ps_usedTokens st = sumZ i_Tokens (ps_items st);
  pi_truncated : ps_truncated st = sumZ (fun it => b2z (i_Truncated it)) (ps_items st);
  pi_deduped : ps_deduped st = sumZ (fun it => b2z (i_Dedup it)) (ps_items st)
}.

Lemma pack_inv_effect mode seen s limit st st' :
  pack_inv mode seen st -> pack_effect s mode limit st st' -> pack_inv mode (seen ++ [s]) st'.
Proof.
  intros [Hr Hi Hb Ht Htr Hd] He.
  assert (Hmono : forall l, Forall (fun it => exists x, x ∈ seen /\ faithful_item x mode it) l ->
                       Forall (fun it => exists x, x ∈ (seen ++ [s])%list /\ faithful_item x mode it) l).
  { intros l Hl. eapply Forall_impl; [exact Hl|]. intros it (x & Hx & Hf). exists x. split; [|done]. apply elem_of_app. by left. }
  destruct He as [reason h E1 E2 E3 E4 E5 E6|it lim E1 E2 Hf _ _ E3 E4 E5 E6]; constructor;
    rewrite ?E1, ?E2, ?E3, ?E4, ?E5, ?E6, ?fmap_app, ?sumZ_app; cbn [fmap list_fmap sumZ]; auto; try lia.
  - rewrite app_assoc, Hr. done.
  - rewrite <- Hr. cbn. destruct Hf as [-> _]. rewrite <- !app_assoc.
    apply Permutation_app_head. cbn. apply Permutation_cons_append.
  - apply Forall_app. split; [auto|]. constructor; [|constructor]. exists s. split; [|done]. set_solver.
Qed.

Lemma pack_loop_inv mode maxTokens elapsed i sources alloc seen st :
  length alloc = length sources -> pack_inv mode seen st ->
  pack_inv mode (seen ++ sources)
    (pack_loop mode maxTokens elapsed i
       (zip (zip sources (map (fun s => Render (s_Content s) mode) sources)) alloc) st).
Proof.
  revert i alloc seen st. induction sources as [|s sources IH]; intros i alloc seen st Hl Hi.
  - cbn. by rewrite app_nil_r.
  - destruct alloc as [|a alloc]; [done|]. cbn. change (s :: sources) with ([s] ++ sources)%list. rewrite app_assoc.
    apply IH; [by injection Hl|]. eapply pack_inv_effect; [done|]. apply pack_one_effect.
Qed.

Lemma grant_direct_length perDirect l r : length (fst (grant_direct perDirect l r)) = length l.
Proof.
  revert r. induction l as [|[s size] l IH]; intros r; cbn; [done|]. destruct (s_Direct s).
  - specialize (IH (wrap64 (r - (if size <? perDirect then size else perDirect)))).
    destruct (grant_direct _ _ _). cbn in *. by rewrite IH.
  - specialize (IH r). destruct (grant_direct _ _ _). cbn in *. by rewrite IH.
Qed.

Lemma allocate_length sources sizes limit frac :
  length sizes = length sources -> length (allocate sources sizes limit frac) = length sources.
Proof.
  intros Hl. unfold allocate. destruct (limit <=? 0); [done|]. set (pairs := zip sources sizes).
  assert (Hp : length pairs = length sources) by (unfold pairs; rewrite length_zip; lia).
  destruct (0 <? _); [|rewrite length_zip_with, length_map; lia].
  set (per := go_int _). pose proof (grant_direct_length per pairs limit) as Hg.
  destruct (grant_direct per pairs limit) as [grants rem]. rewrite length_zip_with. cbn in Hg. lia.
Qed.

Lemma pack_alloc_length req : length (pack_alloc req) = length (pack_ordered req).
Proof. apply allocate_length. by rewrite length_map. Qed.

(** Allocations never exceed the rendered sizes. *)
Lemma allocate_le sources sizes limit frac :
  length sizes = length sources -> Forall2 Z.le (allocate sources sizes limit frac) sizes.
Proof.
  intros Hl. unfold allocate. destruct (limit <=? 0); [by apply Forall_Forall2_diag, Forall_forall|].
  set (total := fold_left _ _ _). set (n := Z.of_nat (length sources)).
  set (pr := if 0 <? _ then _ else _).
  assert (Hg : length (fst pr) = length (zip sources sizes)).
  { unfold pr. destruct (0 <? _); [apply grant_direct_length|]. cbn. by rewrite length_map. }
  destruct pr as [grants rem]. cbn in Hg. clearbody total n. revert sizes grants Hl Hg. clear.
  induction sources as [|s sources IH]; intros [|size sizes] grants Hl Hg; try done.
  destruct grants as [|g grants]; [done|]. cbn. constructor.
  - match goal with |- context [?a <? ?b] => destruct (Z.ltb_spec a b); lia end.
  - apply IH; [by injection Hl|by injection Hg].
Qed.

(** ** The budget *)

Lemma estimate_le content n : len content <= Z.max 0 (4 * n) -> 0 <= n -> EstimateTokens content <= n.
Proof.
  intros Hl Hn. unfold EstimateTokens, bytesPerToken. pose proof (len_nonneg content).
  apply Z.lt_succ_r, Z.div_lt_upper_bound; lia.
Qed.

Lemma effect_tokens s mode maxTokens alloc st st' :
  0 < maxTokens < 2 ^ 61 -> 0 <= ps_usedTokens st <= maxTokens ->
  pack_effect s mode (item_limit maxTokens (ps_usedTokens st) alloc) st st' -> 0 <= ps_usedTokens st' <= maxTokens.
Proof.
  intros Hm Hu [reason h _ _ _ -> _ _|it lim _ _ (_ & Hb & Ht & _) Hlim Hle _ -> _ _]; [done|].
  unfold item_limit in Hlim. rewrite (proj2 (Z.ltb_lt 0 maxTokens)) in Hlim by lia.
  rewrite wrap64_id in Hlim by (unfold int64; lia).
  destruct (Z.leb_spec (maxTokens - ps_usedTokens st) 0); [done|].
  rewrite wrap64_id in Hlim by (unfold int64, bytesPerToken; lia).
  assert (Hl : lim <= 4 * (maxTokens - ps_usedTokens st)).
  { injection Hlim as <-. unfold bytesPerToken. destruct (_ || _) eqn:E; [lia|]. apply orb_false_iff in E as [_ E%Z.ltb_ge].
    unfold bytesPerToken in E. lia. }
  rewrite Ht. assert (EstimateTokens (i_Content it) <= maxTokens - ps_usedTokens st).
  { apply estimate_le; [rewrite <- Hb; lia|lia]. }
  assert (0 <= EstimateTokens (i_Content it)).
  { unfold EstimateTokens, bytesPerToken. pose proof (len_nonneg (i_Content it)). apply Z.div_pos; lia. }
  lia.
Qed.

Lemma pack_loop_tokens mode maxTokens elapsed i sources alloc st :
  0 < maxTokens < 2 ^ 61 -> 0 <= ps_usedTokens st <= maxTokens ->
  0 <= ps_usedTokens (pack_loop mode maxTokens elapsed i
       (zip (zip sources (map (fun s => Render (s_Content s) mode) sources)) alloc) st) <= maxTokens.
Proof.
  intros Hm. revert i alloc st. induction sources as [|s sources IH]; intros i alloc st Hu; [done|].
  destruct alloc as [|a alloc]; [done|]. cbn. apply IH.
  eapply effect_tokens; [done|exact Hu|]. apply pack_one_effect.
Qed.

Lemma pack_loop_bytes mode maxTokens elapsed i sources alloc st :
  maxTokens <= 0 ->
  ps_usedBytes (pack_loop mode maxTokens elapsed i
       (zip (zip sources (map (fun s => Render (s_Content s) mode) sources)) alloc) st)
  <= ps_usedBytes st + sumZ (Z.max 0) alloc.
Proof.
  intros Hm.
  assert (Hnn : forall l, 0 <= sumZ (Z.max 0) l) by (intros l; apply sumZ_nonneg; lia).
  revert i alloc st. induction sources as [|s sources IH]; intros i alloc st; [cbn; specialize (Hnn alloc); lia|].
  destruct alloc as [|a alloc]; [cbn; lia|]. cbn [map zip zip_with pack_loop].
  change (sumZ (Z.max 0) (a :: alloc)) with (Z.max 0 a + sumZ (Z.max 0) alloc). etrans; [apply IH|].
  generalize (sumZ (Z.max 0) alloc) as rest. intros rest.
  destruct (pack_one_effect mode maxTokens (elapsed i) s a st) as [reason h _ _ -> _ _ _|it lim _ _ _ Hlim Hle -> _ _ _]; [lia|].
  unfold item_limit in Hlim. rewrite (proj2 (Z.ltb_ge 0 maxTokens)) in Hlim by lia. injection Hlim as <-. lia.
Qed.

(** *** The other caps *)

Lemma len_le_tokens content : len content <= 4 * EstimateTokens content.
Proof. unfold EstimateTokens, bytesPerToken. Z.div_mod_to_equations. lia. Qed.

(** The governor's account of the bytes put out grows by what is emitted at least. *)
Lemma pack_one_governor mode maxTokens elapsed s alloc st g :
  ps_governor st = Some g -> let max := l_MaxOutputBytes (g_limits g) in
  0 < max < 2 ^ 62 -> 0 <= g_outputBytes g <= max -> len (Render (s_Content s) mode) < 2 ^ 62 ->
  let st' := pack_one mode maxTokens elapsed s (Render (s_Content s) mode) alloc st in
  exists g', ps_governor st' = Some g' /\ g_limits g' = g_limits g /\ 0 <= g_outputBytes g' <= max /\
    ps_usedBytes st' - ps_usedBytes st <= g_outputBytes g' - g_outputBytes g.
Proof.
  intros Eg max Hm Hg Hr st'. subst st'. unfold pack_one. destruct (pack_handle mode alloc s) as [key h]. cbn [ps_governor issue_handle]. rewrite Eg. cbn [admit_source].
  assert (exists g1, snd (AllowCandidate g) = g1 /\ g_limits g1 = g_limits g /\ g_outputBytes g1 = g_outputBytes g) as (g1 & E1 & El & Eo).
  { eexists. split; [done|]. unfold AllowCandidate. by destruct (_ && _). }
  destruct (CheckTime g elapsed); cbn [negb]; [|exists g; cbn; split_and!; try done; lia].
  destruct (AllowCandidate g) as [ok g1'] eqn:Ea. cbn in E1. subst g1'.
  destruct ok; [|exists g1; cbn; rewrite El; split_and!; try done; lia].
  cbn [ps_usedTokens ps_governor set_governor issue_handle]. destruct (item_limit _ _ _) as [lim|]; [|exists g1; cbn; split_and!; try done; lia].
  set (rendered := Render _ _) in *. set (content := if lim <? len rendered then _ else _).
  destruct (_ && _); [exists g1; cbn; split_and!; try done; lia|].
  assert (len content <= len rendered) as Hc.
  { unfold content. destruct (Z.ltb_spec lim (len rendered)); [|done]. pose proof (proj2 (truncate_facts rendered lim)). pose proof (len_nonneg rendered). lia. }
  pose proof (len_nonneg content) as Hnn. cbn [reserve]. unfold ReserveOutputBytes. rewrite El, Eo. fold max.
  destruct (Z.ltb_spec (len content) 0); [lia|]. rewrite wrap64_id by (unfold int64; lia).
  destruct (Z.ltb_spec 0 max); [|lia]. cbn [andb]. destruct (Z.ltb_spec max (g_outputBytes g + len content)).
  { exists g1. cbn. split_and!; try done; lia. }
  unfold emit. cbn [ps_registry ps_usedBytes set_governor issue_handle].
  destruct (match option_map _ _ with None => _ | Some _ => _ end) as [[dedup ref] registry]. cbn. eexists. split; [done|]. cbn. split_and!; [done|lia..|]. destruct dedup; cbn; lia.
Qed.

Lemma pack_loop_governor mode maxTokens elapsed i sources alloc st g :
  ps_governor st = Some g -> 0 < l_MaxOutputBytes (g_limits g) < 2 ^ 62 -> 0 <= g_outputBytes g <= l_MaxOutputBytes (g_limits g) ->
  Forall (fun s => len (Render (s_Content s) mode) < 2 ^ 62) sources ->
  ps_usedBytes (pack_loop mode maxTokens elapsed i (zip (zip sources (map (fun s => Render (s_Content s) mode) sources)) alloc) st)
  <= ps_usedBytes st + (l_MaxOutputBytes (g_limits g) - g_outputBytes g).
Proof.
  revert i alloc st g. induction sources as [|s sources IH]; intros i alloc st g Eg Hm Hg Hs; [cbn; lia|].
  destruct alloc as [|a alloc]; [cbn; lia|]. apply Forall_cons in Hs as [Hs1 Hs]. cbn [map zip zip_with pack_loop].
  destruct (pack_one_governor mode maxTokens (elapsed i) s a st g Eg Hm Hg Hs1) as (g' & Eg' & El & Hg' & Hu).
  etrans; [apply (IH _ _ _ g' Eg'); rewrite ?El; done|]. rewrite El. lia.
Qed.

(** Without a budget and a governor everything is emitted whole. *)
Lemma pack_loop_unlimited mode maxTokens elapsed i sources st :
  maxTokens <= 0 -> ps_governor st = None ->
  let st' := pack_loop mode maxTokens elapsed i
    (zip (zip sources (map (fun s => Render (s_Content s) mode) sources)) (map (fun s => len (Render (s_Content s) mode)) sources)) st in
  ps_omitted st' = ps_omitted st /\ (Forall (fun it => i_Truncated it = false) (ps_items st) -> Forall (fun it => i_Truncated it = false) (ps_items st')).
Proof.
  intros Hm. revert i st. induction sources as [|s sources IH]; intros i st Hg; [done|]. cbn [map zip zip_with pack_loop]. set (st1 := pack_one _ _ _ _ _ _ _).
  assert (ps_governor st1 = None /\ ps_omitted st1 = ps_omitted st /\ (Forall (fun it => i_Truncated it = false) (ps_items st) -> Forall (fun it => i_Truncated it = false) (ps_items st1)))
    as (H1 & H2 & H3).
  { unfold st1, pack_one. destruct (pack_handle _ _ s) as [key h]. cbn [ps_governor issue_handle]. rewrite Hg. cbn [admit_source].
    unfold item_limit. rewrite (proj2 (Z.ltb_ge 0 maxTokens)) by lia. rewrite Z.ltb_irrefl. cbn [andb ps_governor set_governor reserve].
    unfold emit. cbn [ps_registry set_governor issue_handle]. destruct (match option_map _ _ with None => _ | Some _ => _ end) as [[dedup ref] registry]. cbn.
    split_and!; [done..|]. intros Hi. apply Forall_app. split; [done|]. apply Forall_singleton. by destruct dedup. }
  destruct (IH (S i) st1 H1) as [H4 H5]. split; [by rewrite H4, H2|auto].
Qed.

(** Without scores every source has the same share of the bytes, rounded down. *)
Definition unscored (s : Source) : Prop := s_Direct s = false /\ (f_ltb (s_Score s) f_zero = true \/ exists b, s_Score s = S754_zero b).

Lemma unscored_total sources t : (exists b, t = S754_zero b) -> Forall unscored sources ->
  exists b, fold_left (fun t s => f_add t (weight s)) sources t = S754_zero b.
Proof.
  revert t. induction sources as [|s sources IH]; intros t Ht Hu; [done|]. apply Forall_cons in Hu as [[_ Hs] Hu]. cbn. apply IH; [|done].
  destruct Ht as (b & ->). unfold weight. destruct Hs as [->|(b' & ->)]; [|destruct (f_ltb _ _)]; cbn; by destruct b; try destruct b'; eexists.
Qed.

Lemma capped_sum q (l : list (Source * Z)) (gs : list Z) :
  0 <= q -> sumZ (Z.max 0) (zip_with (fun (p : Source * Z) (_ : Z) => if snd p <? q then snd p else q) l gs) <= Z.of_nat (length l) * q.
Proof.
  intros Hq. revert gs. induction l as [|p l IH]; intros [|g gs]; cbn [zip_with sumZ length]; try nia.
  specialize (IH gs). rewrite Nat2Z.inj_succ, Z.mul_succ_l, Z.add_comm. apply Z.add_le_mono; [exact IH|]. destruct (Z.ltb_spec (snd p) q); lia.
Qed.

Lemma unscored_direct sources : Forall unscored sources -> List.filter s_Direct sources = [].
Proof. induction 1 as [|s sources [Hd _] _ IH]; [done|]. cbn. by rewrite Hd. Qed.

Lemma unscored_allocate sources sizes limit frac :
  0 < limit < 2 ^ 63 -> Forall unscored sources -> sumZ (Z.max 0) (allocate sources sizes limit frac) <= limit.
Proof.
  intros Hl Hu. unfold allocate. destruct (Z.leb_spec limit 0); [lia|]. rewrite (unscored_direct _ Hu). cbn [length].
  change (0 <? Z.of_nat 0) with false. cbv iota.
  destruct (unscored_total sources f_zero (ex_intro _ false eq_refl) Hu) as (b & ->).
  set (n := Z.of_nat (length sources)). set (q := if 0 <? n then Z.quot limit n else 0).
  assert (0 <= q <= limit /\ n * q <= limit) as [Hq Hnq].
  { unfold q. destruct (Z.ltb_spec 0 n); [|lia]. rewrite Z.quot_div_nonneg by lia. split; [|apply Z.mul_div_le; lia].
    split; [apply Z.div_pos; lia|apply Z.div_le_upper_bound; nia]. }
  assert (forall l gs, Forall (eq 0) gs -> zip_with (fun (p : Source * Z) g =>
      if snd p <? wrap64 (g + share_of n limit (S754_zero b) (fst p)) then snd p else wrap64 (g + share_of n limit (S754_zero b) (fst p))) l gs =
    zip_with (fun (p : Source * Z) (_ : Z) => if snd p <? q then snd p else q) l gs) as ->.
  { induction l as [|p l IH]; intros [|g gs] Hg; try done. apply Forall_cons in Hg as [<- Hg]. cbn [zip_with]. rewrite IH by done.
    unfold share_of. assert (f_ltb f_zero (S754_zero b) = false) as -> by (by destruct b). fold q. by rewrite wrap64_id by (unfold int64; lia). }
  - etrans; [apply capped_sum, Hq|]. rewrite length_zip. nia.
  - by apply Forall_map, Forall_forall.
Qed.

Lemma emitted_bytes_tokens items : sumZ (fun it => len (i_Content it)) items <= 4 * sumZ (fun it => EstimateTokens (i_Content it)) items.
Proof. induction items as [|it items IH]; cbn [sumZ]; [lia|]. pose proof (len_le_tokens (i_Content it)). lia. Qed.

Lemma pack_ordered_Forall (P : Source -> Prop) req : Forall P (q_Sources req) -> Forall P (pack_ordered req).
Proof. unfold pack_ordered. by rewrite sort_by_perm. Qed.

Lemma unscored_alloc req : pb_MaxTokens (q_Budget req) <= 0 -> 0 < pb_MaxBytes (q_Budget req) < 2 ^ 63 -> Forall unscored (q_Sources req) ->
  sumZ (Z.max 0) (pack_alloc req) <= pb_MaxBytes (q_Budget req).
Proof.
  intros Hz Hb Hu. unfold pack_alloc. assert (ByteLimit (q_Budget req) = pb_MaxBytes (q_Budget req)) as ->.
  { unfold ByteLimit. rewrite (proj2 (Z.ltb_ge 0 _) Hz). destruct (Z.ltb_spec 0 (pb_MaxBytes (q_Budget req))); [done|lia]. }
  apply unscored_allocate; [done|by apply pack_ordered_Forall].
Qed.

Lemma unlimited_alloc req : pb_MaxTokens (q_Budget req) <= 0 -> pb_MaxBytes (q_Budget req) <= 0 ->
  pack_alloc req = map (fun s => len (Render (s_Content s) (pack_mode req))) (pack_ordered req).
Proof.
  intros Hz Hy. unfold pack_alloc, allocate, ByteLimit. rewrite (proj2 (Z.ltb_ge 0 _) Hz), (proj2 (Z.ltb_ge 0 _) Hy). done.
Qed.

(** ** Properties *)

(** Nothing is dropped silently: the ranges of the emitted items and of the
    omissions are together exactly those of the requested sources; every item is a
    back-pointer or a prefix of its source's rendered text, complete unless
    marked truncated; and the counters of the result are the sums over its items. *)
Theorem Pack_accounts_for_every_source req elapsed :
  let r := fst (fst (Pack req elapsed)) in
  (item_range <$> res_Items r) ++ (omission_range <$> res_Omitted r) ≡ₚ source_range <$> q_Sources req /\
  Forall (fun it => exists s, s ∈ q_Sources req /\ faithful_item s (pack_mode req) it) (res_Items r) /\
  m_UsedBytes (res_Meta r) = sumZ i_Bytes (res_Items r) /\
  m_UsedTokens (res_Meta r) = sumZ i_Tokens (res_Items r) /\
  m_Truncated (res_Meta r) = sumZ (fun it => b2z (i_Truncated it)) (res_Items r) /\
  m_Deduped (res_Meta r) = sumZ (fun it => b2z (i_Dedup it)) (res_Items r) /\
  m_Items (res_Meta r) + m_Omitted (res_Meta r) = Z.of_nat (length (q_Sources req)).
Proof.
  cbv zeta. cbn [fst Pack res_Items res_Omitted res_Meta m_UsedBytes m_UsedTokens m_Truncated m_Deduped m_Items m_Omitted].
  assert (H0 : pack_inv (pack_mode req) [] (MkPack [] [] 0 0 0 0 0 (q_Registry req) (q_Governor req))) by (constructor; done).
  pose proof (pack_loop_inv (pack_mode req) (pb_MaxTokens (q_Budget req)) elapsed 0 (pack_ordered req) (pack_alloc req)
    [] _ (pack_alloc_length req) H0) as [Hr Hi Hb Ht Htr Hd].
  set (st := pack_loop _ _ _ _ _ _) in *. cbn [app] in *. unfold pack_ordered in Hr at 1.
  assert (Hperm : (item_range <$> ps_items st) ++ (omission_range <$> ps_omitted st) ≡ₚ source_range <$> q_Sources req)
    by (etrans; [exact Hr|]; by rewrite sort_by_perm).
  split_and!; try done.
  - eapply Forall_impl; [exact Hi|]. intros it (s & Hs & Hf). exists s. split; [|done].
    unfold pack_ordered in Hs. by apply elem_of_sort_by in Hs.
  - apply Permutation_length in Hperm. rewrite length_app, !length_fmap in Hperm. lia.
Qed.

Lemma Pack_counters req elapsed : let r := fst (fst (Pack req elapsed)) in
  m_UsedBytes (res_Meta r) = sumZ (fun it => len (i_Content it)) (res_Items r) /\
  m_UsedTokens (res_Meta r) = sumZ (fun it => EstimateTokens (i_Content it)) (res_Items r).
Proof.
  cbv zeta. destruct (Pack_accounts_for_every_source req elapsed) as (_ & Hi & -> & -> & _). revert Hi. generalize (res_Items (fst (fst (Pack req elapsed)))). intros items Hi.
  induction Hi as [|it items (s & _ & _ & Eb & Et & _) _ [IH1 IH2]]; [done|]. cbn [sumZ]. by rewrite Eb, Et, IH1, IH2.
Qed.

(** C39. What a pack emits stays within its budgets, measured on the emitted
    text.  The reported bytes and tokens are those of the items.  With a token
    budget (below [2^61]) the estimated tokens of the emitted text never exceed
    it, nor its bytes four times it; with a governor that caps the output, the
    bytes never exceed what was left of the cap; without a token budget, the
    bytes never exceed the allocations, which are within the rendered sizes, and
    for sources without score and without direct ones the allocations, and so the
    emitted bytes, stay within the byte budget.  And with neither budget nor
    governor nothing is omitted or truncated. *)
Theorem Pack_within_token_budget req elapsed :
  pb_MaxTokens (q_Budget req) < 2 ^ 61 -> pb_MaxBytes (q_Budget req) < 2 ^ 63 ->
  Forall (fun s => len (Render (s_Content s) (pack_mode req)) < 2 ^ 62) (q_Sources req) ->
  let r := fst (fst (Pack req elapsed)) in
  let bytes := sumZ (fun it => len (i_Content it)) (res_Items r) in
  let tokens := sumZ (fun it => EstimateTokens (i_Content it)) (res_Items r) in
  m_UsedBytes (res_Meta r) = bytes /\ m_UsedTokens (res_Meta r) = tokens /\
  (0 < pb_MaxTokens (q_Budget req) -> tokens <= pb_MaxTokens (q_Budget req) /\ bytes <= 4 * pb_MaxTokens (q_Budget req)) /\
  (forall g, q_Governor req = Some g -> 0 < l_MaxOutputBytes (g_limits g) < 2 ^ 62 -> 0 <= g_outputBytes g <= l_MaxOutputBytes (g_limits g) ->
     bytes <= l_MaxOutputBytes (g_limits g) - g_outputBytes g) /\
  (pb_MaxTokens (q_Budget req) <= 0 ->
     bytes <= sumZ (Z.max 0) (pack_alloc req) /\
     Forall2 Z.le (pack_alloc req) (map (fun s => len (Render (s_Content s) (pack_mode req))) (pack_ordered req)) /\
     (0 < pb_MaxBytes (q_Budget req) -> Forall unscored (q_Sources req) -> bytes <= pb_MaxBytes (q_Budget req))) /\
  (pb_MaxTokens (q_Budget req) <= 0 -> pb_MaxBytes (q_Budget req) <= 0 -> q_Governor req = None ->
     res_Omitted r = [] /\ Forall (fun it => i_Truncated it = false) (res_Items r)).
Proof.
  intros Hm Hmb Hlen r bytes tokens. destruct (Pack_counters req elapsed) as [Eb Et]. fold r bytes tokens in Eb, Et. split_and!; [done|done| | | |].
  - intros Hp. assert (tokens <= pb_MaxTokens (q_Budget req)) as Ht by (rewrite <- Et; apply pack_loop_tokens; cbn; lia). split; [done|].
    pose proof (emitted_bytes_tokens (res_Items r)) as Hbt. fold bytes tokens in Hbt. lia.
  - intros g Hg Hc Ho. rewrite <- Eb. etrans; [eapply pack_loop_governor; [exact Hg|done|done|]|cbn; lia]. by apply pack_ordered_Forall.
  - intros Hz. assert (bytes <= sumZ (Z.max 0) (pack_alloc req)) as Hb by (rewrite <- Eb; exact (pack_loop_bytes (pack_mode req) _ elapsed 0 (pack_ordered req) (pack_alloc req)
      (MkPack [] [] 0 0 0 0 0 (q_Registry req) (q_Governor req)) Hz)).
    split_and!; [done|apply allocate_le; by rewrite length_map|]. intros Hmax Hu. etrans; [exact Hb|]. by apply unscored_alloc; [|split|].
  - intros Hz Hy Hg. unfold r. cbn [fst Pack res_Omitted res_Items]. rewrite (unlimited_alloc req Hz Hy).
    destruct (pack_loop_unlimited (pack_mode req) (pb_MaxTokens (q_Budget req)) elapsed 0 (pack_ordered req)
      (MkPack [] [] 0 0 0 0 0 (q_Registry req) (q_Governor req)) Hz Hg) as [H1 H2]. split; [exact H1|apply H2; constructor].
Qed.
End pack.

Module PackRun.
Existing Instance demo_runtime.

Definition src (path content : string) (score : f64) : Source := MkSource path 1 9 content score false.

(** Both caps are set; the second source's share rounds to nothing. *)
Definition capped : Request :=
  MkRequest [src "a.go" "0123456789" f_one; src "b.go" "a text that is longer than what is left" f_zero]
    (MkPackBudget 10 100) "" f_zero None None.

Lemma Pack_within_token_budget_witness :
  sumZ (fun it => EstimateTokens (i_Content it)) (res_Items (fst (fst (Pack capped (fun _ => 0))))) <= pb_MaxTokens (q_Budget capped).
Proof.
  assert (Hm : pb_MaxTokens (q_Budget capped) < 2 ^ 61) by (vm_compute; reflexivity).
  assert (Hb : pb_MaxBytes (q_Budget capped) < 2 ^ 63) by (vm_compute; reflexivity).
  assert (Hs : Forall (fun s => len (Render (s_Content s) (pack_mode capped)) < 2 ^ 62) (q_Sources capped)) by (repeat constructor).
  destruct (Pack_within_token_budget capped (fun _ => 0) Hm Hb Hs) as (_ & _ & Ht & _). apply Ht. vm_compute. reflexivity.
Defined.

(** With a token budget set, the byte budget is not enforced on a source
    whose allocation is zero: under a cap of 10 bytes this request emits 49. *)
Theorem byte_budget_exceeded :
  pb_MaxBytes (q_Budget capped) = 10 /\ pack_alloc capped = [10; 0] /\
  m_UsedBytes (res_Meta (fst (fst (Pack capped (fun _ => 0))))) = 49 /\
  m_BudgetBytes (res_Meta (fst (fst (Pack capped (fun _ => 0))))) = 10.
Proof. split_and!; vm_compute; reflexivity. Qed.
End PackRun.
