(* ===== verification/WatchQueue.v ===== *)
(** * codecrawl: the refresh queue of the watcher

    Models [services/brain/internal/codecrawl/watch_queue.go]: file-system events
    coalesced by path with an overflow marker and a version counter, and the retry delay. *)

From Stdlib Require Import Ascii String.
From S2P Require Import Prelude GoString.
Open Scope string_scope.
Open Scope Z_scope.

Definition defaultWatchQueueSize : Z := 4096.
Definition millisecond : Z := 1000000.
Definition defaultRetryInitial : Z := 100 * millisecond.
Definition defaultRetryMax : Z := 5000 * millisecond.

Record refreshQueue := MkQueue {
  q_capacity : Z; q_paths : gset string; q_version : Z; q_overflow : bool
}.

Definition newRefreshQueue (capacity : Z) : refreshQueue :=
  MkQueue (if capacity <? 1 then defaultWatchQueueSize else capacity) ∅ 0 false.

Definition enqueue (q : refreshQueue) (path : string) : refreshQueue :=
  let v := wrapU64 (q_version q + 1) in
  if String.eqb path "" then MkQueue (q_capacity q) (q_paths q) v true
  else if bool_decide (path ∈ q_paths q) then MkQueue (q_capacity q) (q_paths q) v (q_overflow q)
  else if q_capacity q <=? Z.of_nat (size (q_paths q)) then MkQueue (q_capacity q) (q_paths q) v true
  else MkQueue (q_capacity q) ({[path]} ∪ q_paths q) v (q_overflow q).

Definition pending (q : refreshQueue) : bool := q_overflow q || (0 <? Z.of_nat (size (q_paths q))).

(** Version, depth, and whether a full rescan is due. *)
Definition begin_ (q : refreshQueue) : Z * Z * bool := (q_version q, Z.of_nat (size (q_paths q)), q_overflow q).

Definition commit (q : refreshQueue) (version : Z) : bool * refreshQueue :=
  if negb (q_version q =? version) then (false, q)
  else (true, MkQueue (q_capacity q) ∅ (q_version q) false).

Definition depth (q : refreshQueue) : Z := Z.of_nat (size (q_paths q)).

(** ** Retry delay *)

Fixpoint delay_loop (n : nat) (delay maximum : Z) : option Z :=
  match n with
  | O => Some delay
  | S n' => if Z.quot maximum 2 <=? delay then None else delay_loop n' (wrap64 (delay * 2)) maximum
  end.

Definition retryDelay (attempt initial maximum : Z) : Z :=
  let initial := if initial <=? 0 then defaultRetryInitial else initial in
  let maximum := if maximum <? initial then defaultRetryMax else maximum in
  match delay_loop (Z.to_nat (attempt - 1)) initial maximum with
  | None => maximum
  | Some delay => if maximum <? delay then maximum else delay
  end.

(** ** The watcher and the queue as a transition system

    [seen] lists every event so far, [covered] counts those a finished refresh accounts
    for, and [inflight] is the version and the number of events at the start
    of the running refresh. *)

Record watch_state := MkWatch {
  ws_queue : refreshQueue; ws_seen : list string; ws_covered : nat; ws_inflight : option (Z * nat)
}.

Inductive watch_step : watch_state -> watch_state -> Prop :=
| watch_event q seen covered inflight p :
    watch_step (MkWatch q seen covered inflight) (MkWatch (enqueue q p) (seen ++ [p]) covered inflight)
| watch_begin q seen covered inflight :
    watch_step (MkWatch q seen covered inflight)
               (MkWatch q seen covered (Some (fst (fst (begin_ q)), length seen)))
| watch_commit q seen covered v n :
    fst (commit q v) = true ->
    watch_step (MkWatch q seen covered (Some (v, n))) (MkWatch (snd (commit q v)) seen n None)
| watch_refused q seen covered v n :
    fst (commit q v) = false ->
    watch_step (MkWatch q seen covered (Some (v, n))) (MkWatch (snd (commit q v)) seen covered None).

Definition watch_start (capacity : Z) : watch_state := MkWatch (newRefreshQueue capacity) [] 0 None.

(** An event no finished refresh accounts for. *)
Definition outstanding (w : watch_state) (p : string) : Prop := p ∈ drop (ws_covered w) (ws_seen w).

Record watch_inv (w : watch_state) : Prop := {
  wi_version : q_version (ws_queue w) = wrapU64 (Z.of_nat (length (ws_seen w)));
  wi_covered : (ws_covered w <= length (ws_seen w))%nat;
  wi_kept : forall p, outstanding w p -> q_overflow (ws_queue w) = true \/ p ∈ q_paths (ws_queue w);
  wi_only : (forall p, p ∈ q_paths (ws_queue w) -> outstanding w p) /\
            (q_overflow (ws_queue w) = true -> exists p, outstanding w p);
  wi_size : Z.of_nat (size (q_paths (ws_queue w))) <= q_capacity (ws_queue w);
  wi_cap : 1 <= q_capacity (ws_queue w);
  wi_flight : forall v n, ws_inflight w = Some (v, n) ->
    v = wrapU64 (Z.of_nat n) /\ (n <= length (ws_seen w))%nat
}.

Lemma outstanding_snoc q seen covered inflight q' p x :
  (covered <= length seen)%nat ->
  outstanding (MkWatch q' (seen ++ [p]) covered inflight) x <->
  outstanding (MkWatch q seen covered inflight) x \/ x = p.
Proof.
  intros Hc. unfold outstanding; cbn. rewrite drop_app_le by done. rewrite elem_of_app, list_elem_of_singleton. done.
Qed.

Lemma watch_inv_event q seen covered inflight p :
  watch_inv (MkWatch q seen covered inflight) ->
  watch_inv (MkWatch (enqueue q p) (seen ++ [p]) covered inflight).
Proof.
  intros [Hv Hc Hk [Ho1 Ho2] Hs Hcap Hf]. cbn in *.
  assert (Hver : wrapU64 (q_version q + 1) = wrapU64 (Z.of_nat (length (seen ++ [p])))).
  { rewrite Hv, wrapU64_add_l, length_app. f_equal. cbn. lia. }
  assert (Hout := outstanding_snoc q seen covered inflight (enqueue q p) p).
  constructor; cbn.
  - unfold enqueue. by repeat case_match.
  - rewrite length_app. lia.
  - intros x Hx. apply Hout in Hx; [|done]. unfold enqueue.
    destruct (String.eqb p ""); [by left|]. case_bool_decide as Hin.
    + cbn. destruct Hx as [Hx| ->]; [by apply Hk|by right].
    + destruct (_ <=? _); cbn; [by left|]. destruct Hx as [Hx| ->]; [|right; set_solver].
      destruct (Hk x Hx); [by left|right; set_solver].
  - split.
    + intros x Hx. apply Hout; [done|]. unfold enqueue in Hx.
      destruct (String.eqb p ""); [left; by apply Ho1|]. case_bool_decide; [left; by apply Ho1|].
      destruct (_ <=? _); cbn in Hx; [left; by apply Ho1|]. apply elem_of_union in Hx as [->%elem_of_singleton|Hx]; [by right|].
      left. by apply Ho1.
    + intros _. exists p. apply Hout; [done|]. by right.
  - unfold enqueue. destruct (String.eqb p ""); [done|]. case_bool_decide as Hin; [done|].
    destruct (Z.leb_spec (q_capacity q) (Z.of_nat (size (q_paths q)))); cbn; [done|].
    rewrite size_union by set_solver. rewrite size_singleton. lia.
  - unfold enqueue. by repeat case_match.
  - intros v n Hn. specialize (Hf v n Hn). rewrite length_app. split; [easy|lia].
Qed.

Lemma wrapU64_inj a b : 0 <= a < 2 ^ 64 -> 0 <= b < 2 ^ 64 -> wrapU64 a = wrapU64 b -> a = b.
Proof. unfold wrapU64. intros Ha Hb. by rewrite !Z.mod_small. Qed.

Lemma watch_inv_step w w' :
  Z.of_nat (length (ws_seen w)) < 2 ^ 64 -> watch_inv w -> watch_step w w' -> watch_inv w'.
Proof.
  intros Hlen Hi Hs. destruct Hs as [q seen covered inflight p|q seen covered inflight|q seen covered v n Hc|q seen covered v n Hc].
  - by apply watch_inv_event.
  - destruct Hi as [Hv Hcov Hk Ho Hs Hcap Hf]. constructor; try done. intros v n [= <- <-]. cbn. split; [done|lia].
  - destruct Hi as [Hv Hcov Hk Ho Hs Hcap Hf]. cbn in *. destruct (Hf v n eq_refl) as [-> Hn].
    unfold commit in *. destruct (Z.eqb_spec (q_version q) (wrapU64 (Z.of_nat n))) as [E|]; [|done]. cbn.
    assert (n = length seen) as -> by (rewrite Hv in E; apply wrapU64_inj in E; lia).
    assert (Hnone : forall q' x, ~ outstanding (MkWatch q' seen (length seen) None) x).
    { intros q' x Hx. unfold outstanding in Hx. cbn in Hx. rewrite drop_all in Hx. by apply elem_of_nil in Hx. }
    split; cbn [ws_queue ws_seen ws_covered ws_inflight q_version q_overflow q_paths q_capacity].
    + done.
    + done.
    + by intros p Hp%Hnone.
    + split; [by intros p Hp%not_elem_of_empty|done].
    + rewrite size_empty. lia.
    + done.
    + done.
  - destruct Hi as [Hv Hcov Hk Ho Hs Hcap Hf]. unfold commit in *. cbn in *.
    destruct (q_version q =? v); [done|]. by constructor.
Qed.

Lemma seen_grows w w' : watch_step w w' -> (length (ws_seen w) <= length (ws_seen w'))%nat.
Proof. destruct 1; cbn; rewrite ?length_app; lia. Qed.

Lemma watch_inv_reachable capacity w :
  rtc watch_step (watch_start capacity) w -> Z.of_nat (length (ws_seen w)) < 2 ^ 64 -> watch_inv w.
Proof.
  intros Hr. refine (rtc_ind_r (fun w => Z.of_nat (length (ws_seen w)) < 2 ^ 64 -> watch_inv w) (watch_start capacity) _ _ w Hr).
  - intros _. split; cbn [watch_start newRefreshQueue ws_queue ws_seen ws_covered ws_inflight q_version q_overflow q_paths q_capacity].
    + done.
    + done.
    + by intros p Hp%elem_of_nil.
    + split; [by intros p Hp%not_elem_of_empty|done].
    + rewrite size_empty. destruct (Z.ltb_spec capacity 1); unfold defaultWatchQueueSize; lia.
    + destruct (Z.ltb_spec capacity 1); unfold defaultWatchQueueSize; lia.
    + done.
  - intros w1 w2 _ Hs IH Hl. pose proof (seen_grows _ _ Hs). eapply watch_inv_step; [|apply IH|exact Hs]; lia.
Qed.

(** ** Properties *)

(** C38. The refresh queue loses no event. In every state the watcher can reach
    (with fewer than [2^64] events), work is pending exactly when some event is
    not accounted for by a finished refresh, every such event is either queued by
    path or covered by the full-rescan marker, and the queue holds at most its
    capacity; and a commit is accepted only when no event arrived since the
    refresh began. *)
Theorem refresh_queue_loses_nothing capacity w :
  rtc watch_step (watch_start capacity) w -> Z.of_nat (length (ws_seen w)) < 2 ^ 64 ->
  let q := ws_queue w in
  (pending q = true <-> exists p, outstanding w p) /\
  (forall p, outstanding w p -> p ∈ q_paths q \/ snd (begin_ q) = true) /\
  1 <= q_capacity q /\ depth q <= q_capacity q /\
  (forall v n, ws_inflight w = Some (v, n) -> fst (commit q v) = true <-> n = length (ws_seen w)).
Proof.
  intros Hr Hl. destruct (watch_inv_reachable _ _ Hr Hl) as [Hv Hc Hk [Ho1 Ho2] Hs Hcap Hf]. cbv zeta. split_and!.
  - unfold pending. rewrite orb_true_iff, Z.ltb_lt. split.
    + intros [Hov|Hsz]; [by apply Ho2|].
      destruct (set_choose_L (q_paths (ws_queue w))) as [p Hp]; [|exists p; by apply Ho1].
      intros He. rewrite He, size_empty in Hsz. lia.
    + intros [p Hp]. destruct (Hk p Hp) as [?|Hin]; [by left|right].
      assert (size (q_paths (ws_queue w)) <> 0%nat); [|lia]. intros Hz%size_empty_inv. set_solver.
  - intros p Hp. destruct (Hk p Hp); [right|left]; done.
  - done.
  - done.
  - intros v n Hn. destruct (Hf v n Hn) as [-> Hle]. unfold commit. rewrite Hv.
    destruct (Z.eqb_spec (wrapU64 (Z.of_nat (length (ws_seen w)))) (wrapU64 (Z.of_nat n))) as [E|E]; cbn.
    + split; [|done]. intros _. apply wrapU64_inj in E; lia.
    + split; [done|]. by intros ->.
Qed.

Lemma delay_loop_spec n delay maximum :
  0 < delay -> maximum < 2 ^ 63 -> delay <= maximum ->
  match delay_loop n delay maximum with
  | None => exists k, (k < n)%nat /\ Z.quot maximum 2 <= delay * 2 ^ Z.of_nat k <= maximum
  | Some d => d = delay * 2 ^ Z.of_nat n /\ d <= maximum
  end.
Proof.
  intros Hd Hm. revert delay Hd. induction n as [|n IH]; intros delay Hd Hle; cbn [delay_loop]; [rewrite Z.mul_1_r; done|].
  rewrite Z.quot_div_nonneg by lia.
  destruct (Z.leb_spec (maximum / 2) delay) as [Hq|Hq].
  - exists 0%nat. cbn. split; [lia|lia].
  - assert (delay * 2 <= maximum) by (Z.div_mod_to_equations; lia).
    rewrite wrap64_id by (unfold int64; lia). specialize (IH (delay * 2) ltac:(lia) ltac:(lia)).
    rewrite Z.quot_div_nonneg in IH by lia.
    destruct (delay_loop n (delay * 2) maximum).
    + destruct IH as [-> ?]. rewrite Nat2Z.inj_succ, Z.pow_succ_r by lia. split; [lia|]. lia.
    + destruct IH as (k & Hk & Hr). exists (S k). rewrite Nat2Z.inj_succ, Z.pow_succ_r by lia. split; [lia|].
      replace (delay * (2 * 2 ^ Z.of_nat k)) with (delay * 2 * 2 ^ Z.of_nat k) by lia. done.
Qed.

Lemma delay_loop_stays n delay maximum : delay_loop n delay maximum = None -> delay_loop (S n) delay maximum = None.
Proof.
  revert delay. induction n as [|n IH]; intros delay; [done|].
  intros Hn. cbn [delay_loop] in Hn. cbn [delay_loop]. destruct (_ <=? delay); [done|]. by apply IH.
Qed.

Definition effective_initial (initial : Z) : Z := if initial <=? 0 then defaultRetryInitial else initial.
Definition effective_maximum (initial maximum : Z) : Z :=
  if maximum <? effective_initial initial then defaultRetryMax else maximum.

Lemma retryDelay_closed attempt initial maximum :
  initial < 2 ^ 63 -> maximum < 2 ^ 63 ->
  let i := effective_initial initial in
  let m := effective_maximum initial maximum in
  0 < i /\ 0 < m < 2 ^ 63 /\
  retryDelay attempt initial maximum =
    if i <=? m then match delay_loop (Z.to_nat (attempt - 1)) i m with None => m | Some d => d end else m.
Proof.
  intros Hi Hm. unfold retryDelay. fold (effective_initial initial). fold (effective_maximum initial maximum).
  assert (H1 : 0 < effective_initial initial).
  { unfold effective_initial. destruct (Z.leb_spec initial 0); [done|lia]. }
  assert (H2 : 0 < effective_maximum initial maximum < 2 ^ 63).
  { unfold effective_maximum. destruct (Z.ltb_spec maximum (effective_initial initial)); [done|lia]. }
  cbv zeta. split_and!; [done|lia|lia|]. set (i := effective_initial initial) in *. set (m := effective_maximum _ _) in *.
  destruct (Z.leb_spec i m) as [Hle|Hgt].
  - pose proof (delay_loop_spec (Z.to_nat (attempt - 1)) i m H1 ltac:(lia) Hle) as Hs.
    destruct (delay_loop _ i m); [|done]. destruct Hs as [_ Hs]. by rewrite (proj2 (Z.ltb_ge m z)).
  - destruct (Z.to_nat (attempt - 1)) as [|n]; cbn [delay_loop]; [by rewrite (proj2 (Z.ltb_lt m i))|].
    rewrite Z.quot_div_nonneg by lia. rewrite (proj2 (Z.leb_le (m / 2) i)); [done|]. Z.div_mod_to_equations. lia.
Qed.

(** The retry delay backs off within bounds and without overflow: it is
    positive, never above the effective maximum, never below the initial delay
    unless the maximum is, doubles with each attempt until it reaches the maximum, and never decreases from one
    attempt to a later one. *)
Theorem retry_delay_backs_off attempt attempt' initial maximum :
  initial < 2 ^ 63 -> maximum < 2 ^ 63 -> attempt <= attempt' ->
  let i := effective_initial initial in
  let m := effective_maximum initial maximum in
  let d := retryDelay attempt initial maximum in
  0 < d <= m /\ (i <= m -> i <= d) /\
  (d = m \/ d = i * 2 ^ Z.of_nat (Z.to_nat (attempt - 1))) /\
  d <= retryDelay attempt' initial maximum.
Proof.
  intros Hi Hm Ha. cbv zeta.
  destruct (retryDelay_closed attempt initial maximum Hi Hm) as (H1 & H2 & ->).
  destruct (retryDelay_closed attempt' initial maximum Hi Hm) as (_ & _ & ->).
  set (i := effective_initial initial) in *. set (m := effective_maximum initial maximum) in *.
  destruct (Z.leb_spec i m) as [Hle|]; [|split_and!; try lia; by left].
  set (res := fun n => match delay_loop n i m with None => m | Some d => d end).
  assert (Hres : forall n, i <= res n <= m /\ (res n = m \/ res n = i * 2 ^ Z.of_nat n)).
  { intros n. unfold res. pose proof (delay_loop_spec n i m H1 ltac:(lia) Hle) as Hs.
    destruct (delay_loop n i m); [|split; [lia|by left]]. destruct Hs as [-> Hs].
    split; [|by right]. split; [|done]. pose proof (Z.pow_pos_nonneg 2 (Z.of_nat n)). nia. }
  assert (Hstep : forall n, res n <= res (S n)).
  { intros n. destruct (Hres n) as [Hn _]. destruct (Hres (S n)) as [Hsn _].
    unfold res in *. pose proof (delay_loop_spec n i m H1 ltac:(lia) Hle) as Hd.
    pose proof (delay_loop_spec (S n) i m H1 ltac:(lia) Hle) as Hd'.
    destruct (delay_loop n i m) eqn:E; [|by rewrite (delay_loop_stays _ _ _ E)].
    destruct (delay_loop (S n) i m); [|lia]. destruct Hd as [-> _], Hd' as [-> _].
    apply Z.mul_le_mono_nonneg_l; [lia|]. apply Z.pow_le_mono_r; lia. }
  assert (Hmono : forall k n, res n <= res (n + k)%nat).
  { induction k as [|k IH]; intros n; [by rewrite Nat.add_0_r|]. rewrite Nat.add_succ_r. etrans; [apply IH|apply Hstep]. }
  fold (res (Z.to_nat (attempt - 1))). fold (res (Z.to_nat (attempt' - 1))).
  destruct (Hres (Z.to_nat (attempt - 1))) as [Hb Hc]. split_and!; try done; try lia.
  replace (Z.to_nat (attempt' - 1)) with (Z.to_nat (attempt - 1) + (Z.to_nat (attempt' - 1) - Z.to_nat (attempt - 1)))%nat by lia.
  apply Hmono.
Qed.

Module WatchRun.
Lemma refresh_queue_loses_nothing_witness :
  let w := MkWatch (enqueue (enqueue (newRefreshQueue 1) "a.go") "b.go") ["a.go"; "b.go"] 0 None in
  pending (ws_queue w) = true /\ snd (begin_ (ws_queue w)) = true.
Proof.
  cbv zeta. set (w := MkWatch _ _ _ _).
  assert (Hr : rtc watch_step (watch_start 1) w).
  { eapply rtc_l; [apply (watch_event _ _ _ _ "a.go")|]. eapply rtc_l; [apply (watch_event _ _ _ _ "b.go")|]. apply rtc_refl. }
  destruct (refresh_queue_loses_nothing 1 w Hr) as [Hp _]; [reflexivity|]. split; [|reflexivity].
  apply Hp. exists "a.go". left.
Defined.

Lemma retry_delay_backs_off_witness :
  retryDelay 3 25 1000 = 100 /\ retryDelay 3 25 1000 <= retryDelay 20 25 1000.
Proof. split; [reflexivity|]. apply (retry_delay_backs_off 3 20 25 1000); [reflexivity|reflexivity|lia]. Defined.
End WatchRun.
