(* ===== verification/Savings.v ===== *)
(** * savings: the token-savings ledger

    Models [services/brain/internal/savings/ledger.go]: recording steps with a
    bounded live history and a rollup, the summary, and persistence.  The JSON
    encoding of the file is the parameter [LedgerCodec]. *)

From Stdlib Require Import Ascii String.
From S2P Require Import Prelude GoString GoPath Float64 Runtime.
Open Scope string_scope.
Open Scope Z_scope.

Definition Filename : string := "token-savings.json".
Definition DefaultMaxSteps : Z := 256.
Definition version : Z := 2.

Record Step := MkStep {
  st_Name : string; st_Category : string; st_Estimator : string; st_BaselineModel : string;
  st_BaselineBytes : Z; st_ServedBytes : Z; st_BaselineTokensEst : Z; st_ServedTokensEst : Z;
  st_DedupCount : Z; st_CompressionCount : Z; st_AvoidedReads : Z; st_ModelCalls : Z; st_AvoidedModelCalls : Z
}.

Record Totals := MkTotals {
  to_BaselineBytes : Z; to_ServedBytes : Z; to_SavedBytes : Z;
  to_BaselineTokensEst : Z; to_ServedTokensEst : Z; to_SavedTokensEst : Z;
  to_DedupCount : Z; to_CompressionCount : Z; to_AvoidedReads : Z; to_ModelCalls : Z; to_AvoidedModelCalls : Z
}.

Definition zero_totals : Totals := MkTotals 0 0 0 0 0 0 0 0 0 0 0.

Record CategorySummary := MkCategory { cy_Category : string; cy_Steps : Z; cy_Totals : Totals }.

Record Summary := MkSavings {
  sv_Version : Z; sv_Steps : Z; sv_Totals : Totals; sv_Categories : list CategorySummary
}.

Record ledgerRollup := MkRollup { ru_Steps : Z; ru_Totals : Totals; ru_Categories : list CategorySummary }.
Record diskLedger := MkDisk { dl_Version : Z; dl_Steps : list Step; dl_Rollup : option ledgerRollup }.

Record Ledger := MkLedger {
  lg_path : string; lg_steps : list Step; lg_rolledSteps : Z; lg_rolledTotals : Totals;
  lg_rolledCategories : list CategorySummary
}.

(** ** Accumulation *)

Definition addStep (t : Totals) (s : Step) : Totals :=
  let bb := wrap64 (to_BaselineBytes t + st_BaselineBytes s) in
  let sb := wrap64 (to_ServedBytes t + st_ServedBytes s) in
  let bt := wrap64 (to_BaselineTokensEst t + st_BaselineTokensEst s) in
  let stt := wrap64 (to_ServedTokensEst t + st_ServedTokensEst s) in
  {| to_BaselineBytes := bb; to_ServedBytes := sb; to_SavedBytes := wrap64 (bb - sb);
     to_BaselineTokensEst := bt; to_ServedTokensEst := stt; to_SavedTokensEst := wrap64 (bt - stt);
     to_DedupCount := wrapU64 (to_DedupCount t + st_DedupCount s);
     to_CompressionCount := wrapU64 (to_CompressionCount t + st_CompressionCount s);
     to_AvoidedReads := wrapU64 (to_AvoidedReads t + st_AvoidedReads s);
     to_ModelCalls := wrapU64 (to_ModelCalls t + st_ModelCalls s);
     to_AvoidedModelCalls := wrapU64 (to_AvoidedModelCalls t + st_AvoidedModelCalls s) |}.

Definition count_in (c : CategorySummary) (s : Step) : CategorySummary :=
  MkCategory (cy_Category c) (cy_Steps c + 1) (addStep (cy_Totals c) s).

Fixpoint addRollupCategory (cs : list CategorySummary) (s : Step) : list CategorySummary :=
  match cs with
  | [] => [count_in (MkCategory (st_Category s) 0 zero_totals) s]
  | c :: cs' =>
      if String.eqb (cy_Category c) (st_Category s) then count_in c s :: cs' else c :: addRollupCategory cs' s
  end.

Inductive savings_error :=
| ENilLedger | EStepName | EStepCategory | ENegative | ECacheDir | EReadLedger | EDecodeLedger
| EUnsupportedVersion (v : Z) | EPersistedStep (i : nat) (e : savings_error) | EWriteLedger.

Definition validateStep (s : Step) : result savings_error unit :=
  fail_if (blank (st_Name s)) EStepName
  (fail_if (blank (st_Category s)) EStepCategory
  (fail_if ((st_BaselineBytes s <? 0) || (st_ServedBytes s <? 0) || (st_BaselineTokensEst s <? 0)
            || (st_ServedTokensEst s <? 0)) ENegative
  (Ok tt))).

(** ** Persistence *)

(** Strict decoding of one value followed by the end of the input, and the lenient probe of the
    version field. *)
Class LedgerCodec := {
  encode_ledger : diskLedger -> option string;
  decode_ledger : string -> option diskLedger;
  probe_version : string -> option Z
}.

Definition utf8_step (s : Step) : Prop :=
  valid_utf8 (st_Name s) = true /\ valid_utf8 (st_Category s) = true /\
  valid_utf8 (st_Estimator s) = true /\ valid_utf8 (st_BaselineModel s) = true.

Definition utf8_ledger (d : diskLedger) : Prop :=
  Forall utf8_step (dl_Steps d) /\
  match dl_Rollup d with
  | None => True
  | Some r => Forall (fun c => valid_utf8 (cy_Category c) = true) (ru_Categories r)
  end.

(** [encoding/json] reads back what it wrote when the texts are valid UTF-8. *)
Class LedgerLaws (C : LedgerCodec) : Prop := {
  ledger_roundtrip d raw : utf8_ledger d -> encode_ledger d = Some raw -> decode_ledger (raw ++ String "010" "") = Some d
}.

(** The file: absent, unreadable, or its bytes. *)
Inductive ledger_file := Missing | Unreadable | Bytes_ (raw : string).

Section ledger.
Context `{LedgerCodec}.

Definition category_lt (a b : CategorySummary) : bool := String.ltb (cy_Category a) (cy_Category b).

(** [io_ok] is the outcome of the file operations of [writeAtomic]. *)
Definition writeAtomic (io_ok : bool) (d : diskLedger) (disk : ledger_file) : result savings_error unit * ledger_file :=
  match encode_ledger d with
  | None => (Err EWriteLedger, disk)
  | Some raw => if io_ok then (Ok tt, Bytes_ (raw ++ String "010" "")) else (Err EWriteLedger, disk)
  end.

Definition fold_old (l : Ledger) (old : list Step) : Totals * list CategorySummary * Z :=
  (fold_left addStep old (lg_rolledTotals l), fold_left addRollupCategory old (lg_rolledCategories l),
   lg_rolledSteps l + Z.of_nat (length old)).

Definition Record_ (l : Ledger) (disk : ledger_file) (io_ok : bool) (step : Step)
    : result savings_error unit * Ledger * ledger_file :=
  if String.eqb (lg_path l) "" then (Err ENilLedger, l, disk)
  else
    match validateStep step with
    | Err e => (Err e, l, disk)
    | Ok _ =>
        let all := (lg_steps l ++ [step])%list in
        let overflow :=
          if DefaultMaxSteps <? Z.of_nat (length all) then Z.to_nat (Z.of_nat (length all) - DefaultMaxSteps) else 0%nat in
        let '(totals, cats, n) := fold_old l (take overflow all) in
        let next := drop overflow all in
        let cats := sort_by category_lt cats in
        let rollup := if 0 <? n then Some (MkRollup n totals cats) else None in
        match writeAtomic io_ok (MkDisk version next rollup) disk with
        | (Err e, disk') => (Err e, l, disk')
        | (Ok _, disk') => (Ok tt, MkLedger (lg_path l) next n totals cats, disk')
        end
    end.

Fixpoint check_steps (i : nat) (l : list Step) : result savings_error unit :=
  match l with
  | [] => Ok tt
  | s :: l' =>
      match validateStep s with
      | Err e => Err (EPersistedStep i e)
      | Ok _ => check_steps (S i) l'
      end
  end.

Definition Open (cacheDir : string) (disk : ledger_file) : result savings_error Ledger :=
  if blank cacheDir then Err ECacheDir
  else
    let path := Join [cacheDir; Filename] in
    let empty := MkLedger path [] 0 zero_totals [] in
    match disk with
    | Missing => Ok empty
    | Unreadable => Err EReadLedger
    | Bytes_ raw =>
        match decode_ledger raw with
        | None =>
            match probe_version raw with
            | Some v => if negb (v =? version) then Ok empty else Err EDecodeLedger
            | None => Err EDecodeLedger
            end
        | Some d =>
            if negb (dl_Version d =? version) then Err (EUnsupportedVersion (dl_Version d))
            else match check_steps 0 (dl_Steps d) with
                 | Err e => Err e
                 | Ok _ =>
                     match dl_Rollup d with
                     | None => Ok (MkLedger path (dl_Steps d) 0 zero_totals [])
                     | Some r => Ok (MkLedger path (dl_Steps d) (ru_Steps r) (ru_Totals r) (ru_Categories r))
                     end
                 end
        end
    end.

(** ** Summary *)

Definition by_category (cs : list CategorySummary) : gmap string CategorySummary :=
  fold_left (fun m c => <[cy_Category c := c]> m) cs ∅.

Definition count_category (m : gmap string CategorySummary) (s : Step) : gmap string CategorySummary :=
  <[st_Category s := count_in (default (MkCategory (st_Category s) 0 zero_totals) (m !! st_Category s)) s]> m.

Definition Summary_of (l : Ledger) : Summary :=
  let m := fold_left count_category (lg_steps l) (by_category (lg_rolledCategories l)) in
  {| sv_Version := version; sv_Steps := lg_rolledSteps l + Z.of_nat (length (lg_steps l));
     sv_Totals := fold_left addStep (lg_steps l) (lg_rolledTotals l);
     sv_Categories := omap (fun c => m !! c) (sort_strings (map_to_list m).*1) |}.
End ledger.

(** ** The abstract ledger: every step ever recorded *)

Definition totals_of (l : list Step) : Totals := {|
  to_BaselineBytes := wrap64 (sumZ st_BaselineBytes l); to_ServedBytes := wrap64 (sumZ st_ServedBytes l);
  to_SavedBytes := wrap64 (sumZ st_BaselineBytes l - sumZ st_ServedBytes l);
  to_BaselineTokensEst := wrap64 (sumZ st_BaselineTokensEst l); to_ServedTokensEst := wrap64 (sumZ st_ServedTokensEst l);
  to_SavedTokensEst := wrap64 (sumZ st_BaselineTokensEst l - sumZ st_ServedTokensEst l);
  to_DedupCount := wrapU64 (sumZ st_DedupCount l); to_CompressionCount := wrapU64 (sumZ st_CompressionCount l);
  to_AvoidedReads := wrapU64 (sumZ st_AvoidedReads l); to_ModelCalls := wrapU64 (sumZ st_ModelCalls l);
  to_AvoidedModelCalls := wrapU64 (sumZ st_AvoidedModelCalls l) |}.

Definition in_category (c : string) (l : list Step) : list Step := List.filter (fun s => String.eqb (st_Category s) c) l.

Definition category_of (l : list Step) (c : string) : CategorySummary :=
  MkCategory c (Z.of_nat (length (in_category c l))) (totals_of (in_category c l)).

Definition categories (l : list Step) : list string := sort_strings (dedup_key id [] (st_Category <$> l)).

Definition spec_summary (l : list Step) : Summary :=
  MkSavings version (Z.of_nat (length l)) (totals_of l) (category_of l <$> categories l).

(** ** Lemmas *)

Lemma totals_snoc l s : totals_of (l ++ [s])%list = addStep (totals_of l) s.
Proof.
  unfold totals_of, addStep. cbn. rewrite !sumZ_app. cbn [sumZ]. rewrite !Z.add_0_r.
  rewrite !wrap64_add_l, !wrapU64_add_l, !wrap64_sub. f_equal; f_equal; lia.
Qed.

Lemma in_category_app c l1 l2 : in_category c (l1 ++ l2)%list = (in_category c l1 ++ in_category c l2)%list.
Proof. apply List.filter_app. Qed.

Lemma category_snoc l s c :
  category_of (l ++ [s])%list c = if String.eqb (st_Category s) c then count_in (category_of l c) s else category_of l c.
Proof.
  unfold category_of. rewrite in_category_app. cbn. destruct (String.eqb (st_Category s) c).
  - rewrite totals_snoc, length_app. unfold count_in. cbn. f_equal. lia.
  - by rewrite app_nil_r.
Qed.

Lemma elem_of_categories c l : c ∈ categories l <-> exists s, s ∈ l /\ st_Category s = c.
Proof. unfold categories, sort_strings. rewrite elem_of_sort_by, elem_of_dedup, list_elem_of_fmap. naive_solver. Qed.

Lemma category_new l c : c ∉ categories l -> category_of l c = MkCategory c 0 zero_totals.
Proof.
  intros Hc. unfold category_of.
  assert (in_category c l = []) as ->; [|done].
  apply elem_of_nil_inv. intros s Hs%list_elem_of_In. apply filter_In in Hs as [Hs%list_elem_of_In Hn%String.eqb_eq].
  apply Hc, elem_of_categories. eauto.
Qed.

(** A list of category rows that says what [l] says. *)
Record tracks (l : list Step) (cs : list CategorySummary) : Prop := {
  tr_NoDup : NoDup (cy_Category <$> cs);
  tr_rows : forall x, x ∈ cs <-> exists c, c ∈ categories l /\ x = category_of l c
}.

Lemma tracks_row l cs x : tracks l cs -> x ∈ cs -> x = category_of l (cy_Category x) /\ cy_Category x ∈ categories l.
Proof. intros [_ Hr] (c & Hc & ->)%Hr. done. Qed.

Lemma tracks_names l cs c : tracks l cs -> c ∈ cy_Category <$> cs <-> c ∈ categories l.
Proof.
  intros Ht. rewrite list_elem_of_fmap. split.
  - intros (x & -> & Hx). by eapply tracks_row.
  - intros Hc. exists (category_of l c). split; [done|]. apply (tr_rows _ _ Ht). eauto.
Qed.

Lemma addRollup_names cs s :
  cy_Category <$> addRollupCategory cs s =
  if bool_decide (st_Category s ∈ cy_Category <$> cs) then cy_Category <$> cs else ((cy_Category <$> cs) ++ [st_Category s])%list.
Proof.
  induction cs as [|c cs IH]; cbn; [done|]. destruct (String.eqb_spec (cy_Category c) (st_Category s)) as [E|E]; cbn.
  - rewrite bool_decide_eq_true_2; [done|]. rewrite E. left.
  - rewrite IH. repeat case_bool_decide; try done.
    + exfalso. set_solver.
    + exfalso. set_solver.
Qed.

Lemma elem_of_addRollup cs s x :
  NoDup (cy_Category <$> cs) ->
  x ∈ addRollupCategory cs s <->
  (x ∈ cs /\ cy_Category x <> st_Category s) \/
  (exists c, c ∈ cs /\ cy_Category c = st_Category s /\ x = count_in c s) \/
  (st_Category s ∉ cy_Category <$> cs /\ x = count_in (MkCategory (st_Category s) 0 zero_totals) s).
Proof.
  induction cs as [|c cs IH]; intros Hn; cbn [addRollupCategory].
  - rewrite list_elem_of_singleton. split; [right; right; split; [apply not_elem_of_nil|done]|].
    intros [[?%elem_of_nil _]|[(? & ?%elem_of_nil & _)|[_ ?]]]; done.
  - apply NoDup_cons in Hn as [Hc Hn]. destruct (String.eqb_spec (cy_Category c) (st_Category s)) as [E|E].
    + assert (Hother : forall y, y ∈ cs -> cy_Category y <> st_Category s).
      { intros y Hy Hy2. apply Hc. rewrite E, <- Hy2. by apply list_elem_of_fmap_2. }
      rewrite elem_of_cons. split.
      * intros [->|Hx]; [right; left; exists c; split_and!; [left|done|done]|left; split; [by right|auto]].
      * intros [[[->|Hx]%elem_of_cons Hne]|[(y & [->|Hy]%elem_of_cons & Hy2 & ->)|[Hnot _]]].
        -- done.
        -- by right.
        -- by left.
        -- by destruct (Hother y Hy).
        -- exfalso. apply Hnot. cbn. rewrite E. left.
    + rewrite elem_of_cons, IH by done. split.
      * intros [->|[[Hx Hne]|[(y & Hy & Hy2 & ->)|[Hnot ->]]]].
        -- left. split; [left|done].
        -- left. split; [by right|done].
        -- right; left. exists y. split_and!; [by right|done|done].
        -- right; right. split; [|done]. cbn. apply not_elem_of_cons. split; [congruence|done].
      * intros [[[->|Hx]%elem_of_cons Hne]|[(y & [->|Hy]%elem_of_cons & Hy2 & ->)|[Hnot ->]]]; [by left| |done| |].
        -- right; left. done.
        -- right; right; left. by exists y.
        -- right; right; right. cbn in Hnot. by apply not_elem_of_cons in Hnot as [_ ?].
Qed.

Lemma tracks_step l cs s : tracks l cs -> tracks (l ++ [s])%list (addRollupCategory cs s).
Proof.
  intros Ht. pose proof (tr_NoDup _ _ Ht) as Hn. pose proof (tr_rows _ _ Ht) as Hr. split.
  - rewrite addRollup_names. case_bool_decide as Hin; [done|]. apply NoDup_app. split_and!; [done| |apply NoDup_singleton].
    intros x Hx ->%list_elem_of_singleton. done.
  - assert (Hcat : forall c, c ∈ categories (l ++ [s])%list <-> c ∈ categories l \/ c = st_Category s).
    { intros c. rewrite !elem_of_categories. setoid_rewrite elem_of_app. setoid_rewrite list_elem_of_singleton. naive_solver. }
    intros x. rewrite elem_of_addRollup by done. split.
    + intros [[Hx Hne]|[(c & Hc & E & ->)|[Hnot ->]]].
      * destruct (tracks_row _ _ _ Ht Hx) as [Hx1 Hx2]. exists (cy_Category x). rewrite Hcat. split; [by left|].
        rewrite category_snoc. rewrite (proj2 (String.eqb_neq _ _)) by congruence. done.
      * destruct (tracks_row _ _ _ Ht Hc) as [Hx1 Hx2]. exists (st_Category s). rewrite Hcat. split; [by right|].
        rewrite category_snoc, String.eqb_refl. congruence.
      * exists (st_Category s). rewrite Hcat. split; [by right|]. rewrite category_snoc, String.eqb_refl.
        rewrite category_new; [done|]. by rewrite <- (tracks_names _ _ _ Ht).
    + intros (c & Hc & ->). rewrite category_snoc. destruct (String.eqb_spec (st_Category s) c) as [<-|Hne].
      * destruct (decide (st_Category s ∈ categories l)) as [Hin|Hout].
        -- right; left. exists (category_of l (st_Category s)). split_and!; [|done|done]. apply Hr. eauto.
        -- right; right. rewrite (tracks_names _ _ _ Ht). split; [done|]. by rewrite category_new.
      * left. rewrite Hcat in Hc. destruct Hc as [Hc| ->]; [|done]. split; [apply Hr; eauto|]. cbn. congruence.
Qed.

Lemma tracks_fold l cs old : tracks l cs -> tracks (l ++ old)%list (fold_left addRollupCategory old cs).
Proof.
  revert l cs. induction old as [|s old IH]; intros l cs Ht; cbn; [by rewrite app_nil_r|].
  change (s :: old) with ([s] ++ old)%list. rewrite app_assoc. by apply IH, tracks_step.
Qed.

Lemma tracks_perm l cs cs' : cs ≡ₚ cs' -> tracks l cs -> tracks l cs'.
Proof. intros Hp [Hn Hr]. split; [by rewrite <- Hp|]. intros x. by rewrite <- Hp. Qed.

Lemma tracks_nil : tracks [] [].
Proof.
  split; [constructor|]. intros x. split; [by intros ?%elem_of_nil|].
  intros (c & (s & ?%elem_of_nil & _)%elem_of_categories & _). done.
Qed.

Lemma fold_totals l old : fold_left addStep old (totals_of l) = totals_of (l ++ old)%list.
Proof.
  revert l. induction old as [|s old IH]; intros l; cbn; [by rewrite app_nil_r|].
  rewrite <- totals_snoc, IH. by rewrite <- app_assoc.
Qed.

(** The map [Summary] builds. *)
Definition map_tracks (l : list Step) (m : gmap string CategorySummary) : Prop :=
  forall c, m !! c = if bool_decide (c ∈ categories l) then Some (category_of l c) else None.

Lemma by_category_tracks l cs : tracks l cs -> map_tracks l (by_category cs).
Proof.
  intros Ht.
  assert (Hgen : forall cs' (m : gmap string CategorySummary) c,
    fold_left (fun m c => <[cy_Category c := c]> m) cs' m !! c =
    match List.find (fun x => String.eqb (cy_Category x) c) (rev cs') with Some x => Some x | None => m !! c end).
  { induction cs' as [|x cs' IH] using rev_ind; intros m c; [done|]. rewrite fold_left_app, rev_app_distr. cbn.
    rewrite lookup_insert. destruct (String.eqb_spec (cy_Category x) c) as [<-|Hne].
    - by rewrite decide_True.
    - rewrite decide_False by done. apply IH. }
  intros c. unfold by_category. rewrite Hgen, lookup_empty.
  destruct (List.find _ (rev cs)) as [x|] eqn:Ef.
  - apply find_some in Ef as [Hx%in_rev%list_elem_of_In <-%String.eqb_eq].
    destruct (tracks_row _ _ _ Ht Hx) as [-> Hc]. cbn. by rewrite bool_decide_eq_true_2.
  - rewrite bool_decide_eq_false_2; [done|]. intros (x & -> & Hx)%(tracks_names _ _ _ Ht)%list_elem_of_fmap.
    apply list_elem_of_In, in_rev in Hx. eapply find_none in Hx; [|exact Ef]. cbn in Hx.
    by rewrite String.eqb_refl in Hx.
Qed.

Lemma count_category_tracks l m s : map_tracks l m -> map_tracks (l ++ [s])%list (count_category m s).
Proof.
  intros Hm c. unfold count_category. rewrite lookup_insert, Hm, category_snoc.
  assert (Hcat : c ∈ categories (l ++ [s])%list <-> c ∈ categories l \/ c = st_Category s).
  { rewrite !elem_of_categories. setoid_rewrite elem_of_app. setoid_rewrite list_elem_of_singleton. naive_solver. }
  destruct (String.eqb_spec (st_Category s) c) as [<-|Hne].
  - rewrite decide_True by done. rewrite (bool_decide_eq_true_2 (_ ∈ categories (l ++ _))) by (apply Hcat; by right).
    f_equal. f_equal. case_bool_decide; cbn; [done|]. by rewrite category_new.
  - rewrite decide_False by done. rewrite Hm. rewrite (bool_decide_ext _ (c ∈ categories (l ++ [s])%list)); [done|].
    rewrite Hcat. split; [by left|]. intros [?| ->]; done.
Qed.

Lemma Summary_map l cs steps :
  tracks l cs -> map_tracks (l ++ steps)%list (fold_left count_category steps (by_category cs)).
Proof.
  intros Ht. apply by_category_tracks in Ht. revert l Ht. generalize (by_category cs) as m.
  induction steps as [|s steps IH]; intros m l Hm; cbn; [by rewrite app_nil_r|].
  change (s :: steps) with ([s] ++ steps)%list. rewrite app_assoc. by apply IH, count_category_tracks.
Qed.

Lemma Summary_categories l m :
  map_tracks l m -> omap (fun c => m !! c) (sort_strings (map_to_list m).*1) = category_of l <$> categories l.
Proof.
  intros Hm.
  assert (Hk : sort_strings (map_to_list m).*1 = categories l).
  { unfold categories, sort_strings. apply sort_by_total_perm; [apply _|]. apply NoDup_Permutation.
    - apply NoDup_fst_map_to_list.
    - apply NoDup_dedup.
    - intros c. rewrite elem_of_dedup.
      assert (Hc : c ∈ st_Category <$> l <-> c ∈ categories l)
        by (unfold categories, sort_strings; by rewrite elem_of_sort_by, elem_of_dedup).
      rewrite Hc, list_elem_of_fmap. split.
      + intros ([c' x] & -> & Hx%elem_of_map_to_list). rewrite Hm in Hx. cbn. by case_bool_decide.
      + intros Hin. exists (c, category_of l c). split; [done|]. apply elem_of_map_to_list. rewrite Hm.
        by rewrite bool_decide_eq_true_2. }
  rewrite Hk. assert (Hall : forall c, c ∈ categories l -> m !! c = Some (category_of l c)).
  { intros c Hc. rewrite Hm. by rewrite bool_decide_eq_true_2. }
  clear Hk Hm. revert Hall. generalize (categories l) as names.
  induction names as [|c cs IH]; cbn; intros Hall; [done|]. rewrite Hall by left. f_equal. apply IH. intros c' Hc'.
  apply Hall. by right.
Qed.

(** ** The ledger as a transition system

    The third component is the history: every step a successful call recorded. *)

Section runs.
Context `{LedgerCodec}.

Inductive ledger_step : Ledger * ledger_file * list Step -> Ledger * ledger_file * list Step -> Prop :=
| record_ok l disk hist io step l' disk' :
    Record_ l disk io step = (Ok tt, l', disk') -> ledger_step (l, disk, hist) (l', disk', (hist ++ [step])%list)
| record_err l disk hist io step e l' disk' :
    Record_ l disk io step = (Err e, l', disk') -> ledger_step (l, disk, hist) (l', disk', hist).

Definition empty_ledger (path : string) : Ledger := MkLedger path [] 0 zero_totals [].

Record ledger_inv (l : Ledger) (hist : list Step) : Prop := {
  li_split : exists old, hist = (old ++ lg_steps l)%list /\ lg_rolledSteps l = Z.of_nat (length old) /\
    lg_rolledTotals l = totals_of old /\ tracks old (lg_rolledCategories l);
  li_bound : Z.of_nat (length (lg_steps l)) <= DefaultMaxSteps
}.

Lemma Record_cases l disk io step r l' disk' :
  Record_ l disk io step = (r, l', disk') ->
  (exists e, r = Err e /\ l' = l /\ disk' = disk) \/
  (r = Ok tt /\ validateStep step = Ok tt /\
   exists raw n, let all := (lg_steps l ++ [step])%list in
     (n <= length all)%nat /\ Z.of_nat (length (drop n all)) <= Z.max DefaultMaxSteps 0 /\
     let '(totals, cats, k) := fold_old l (take n all) in
     l' = MkLedger (lg_path l) (drop n all) k totals (sort_by category_lt cats) /\
     encode_ledger (MkDisk version (drop n all)
        (if 0 <? k then Some (MkRollup k totals (sort_by category_lt cats)) else None)) = Some raw /\
     disk' = Bytes_ (raw ++ String "010" "")).
Proof.
  unfold Record_. destruct (String.eqb (lg_path l) ""); [intros [= <- <- <-]; left; eauto|].
  destruct (validateStep step) as [[]|e] eqn:Ev; [|intros [= <- <- <-]; left; eauto].
  set (all := (lg_steps l ++ [step])%list). set (n := if _ <? _ then _ else _).
  unfold writeAtomic. destruct (fold_old l (take n all)) as [[totals cats] k] eqn:Ef.
  destruct (encode_ledger _) as [raw|] eqn:Ee; [|intros [= <- <- <-]; left; eauto].
  destruct io; [|intros [= <- <- <-]; left; eauto]. intros [= <- <- <-]. right. split_and!; [done..|].
  exists raw, n. cbv zeta. fold all. rewrite Ef. split_and!; try done.
  - subst n. destruct (Z.ltb_spec DefaultMaxSteps (Z.of_nat (length all))); unfold DefaultMaxSteps in *; lia.
  - rewrite length_drop. subst n. unfold DefaultMaxSteps. destruct (Z.ltb_spec 256 (Z.of_nat (length all))); lia.
Qed.

Lemma ledger_inv_step l disk hist l' disk' hist' :
  ledger_inv l hist -> ledger_step (l, disk, hist) (l', disk', hist') -> ledger_inv l' hist'.
Proof.
  intros Hi Hs. inversion Hs as [? ? ? io step ? ? Hrec|? ? ? io step e ? ? Hrec]; subst.
  - apply Record_cases in Hrec as [(e & [=] & _)|(_ & _ & raw & n & Hn & Hb & Hf)].
    destruct Hi as [(old & -> & Hk & Ht & Hc) _]. unfold fold_old in Hf. destruct Hf as (-> & _ & _).
    set (all := (lg_steps l ++ [step])%list) in *. split; cbn; [|unfold DefaultMaxSteps in *; lia].
    exists (old ++ take n all)%list. split_and!.
    + rewrite <- !app_assoc, take_drop. done.
    + rewrite Hk, length_app. lia.
    + by rewrite Ht, fold_totals.
    + eapply tracks_perm; [symmetry; apply sort_by_perm|]. by apply tracks_fold.
  - apply Record_cases in Hrec as [(e' & _ & -> & _)|([=] & _)]. done.
Qed.

Lemma ledger_inv_reachable path l disk hist :
  rtc ledger_step (empty_ledger path, Missing, []) (l, disk, hist) -> ledger_inv l hist.
Proof.
  intros Hr.
  refine (rtc_ind_r (fun st => ledger_inv (fst (fst st)) (snd st)) (empty_ledger path, Missing, []) _ _ (l, disk, hist) Hr).
  - split; [|done]. exists []. split_and!; try done. apply tracks_nil.
  - intros [[l1 d1] h1] [[l2 d2] h2] _ Hs Hi. cbn in *. by eapply ledger_inv_step.
Qed.

(** ** Properties *)

(** The savings ledger conserves every step. After any sequence of recordings,
    failed ones included, the summary is exactly that of all the steps recorded:
    their number, the totals ([int64] and [uint64] sums, savings as
    differences), and one row per category in name order; while the live
    history holds the most recent steps, at most [DefaultMaxSteps]. *)
Theorem ledger_summary_exact path l disk hist :
  rtc ledger_step (empty_ledger path, Missing, []) (l, disk, hist) ->
  Summary_of l = spec_summary hist /\
  Z.of_nat (length (lg_steps l)) <= DefaultMaxSteps /\ lg_steps l `suffix_of` hist.
Proof.
  intros Hr. destruct (ledger_inv_reachable _ _ _ _ Hr) as [(old & -> & Hk & Ht & Hc) Hb].
  split_and!; [|done|by exists old]. unfold Summary_of, spec_summary. f_equal.
  - rewrite Hk, length_app. lia.
  - by rewrite Ht, fold_totals.
  - apply Summary_categories. by apply Summary_map.
Qed.

(** ** Reopening *)

Definition disk_of (l : Ledger) : diskLedger :=
  MkDisk version (lg_steps l)
    (if 0 <? lg_rolledSteps l then Some (MkRollup (lg_rolledSteps l) (lg_rolledTotals l) (lg_rolledCategories l)) else None).

(** The file holds the ledger, whose steps are all valid. *)
Definition file_inv (path : string) (l : Ledger) (disk : ledger_file) : Prop :=
  lg_path l = path /\ Forall (fun s => validateStep s = Ok tt) (lg_steps l) /\
  ((disk = Missing /\ l = empty_ledger path) \/
   exists raw, encode_ledger (disk_of l) = Some raw /\ disk = Bytes_ (raw ++ String "010" "")).

Lemma file_inv_step path l disk hist l' disk' hist' :
  file_inv path l disk -> ledger_step (l, disk, hist) (l', disk', hist') -> file_inv path l' disk'.
Proof.
  intros Hi Hs. inversion Hs as [? ? ? io step ? ? Hrec|? ? ? io step e ? ? Hrec]; subst.
  - apply Record_cases in Hrec as [(e & [=] & _)|(_ & Hv & raw & n & Hn & _ & Hf)]. destruct Hi as (Hp & Hall & _).
    destruct (fold_old l _) as [[totals cats] k]. destruct Hf as (-> & He & ->).
    split_and!; [done| |right; by exists raw].
    apply Forall_drop, Forall_app. split; [done|]. by constructor.
  - by apply Record_cases in Hrec as [(e' & _ & -> & ->)|([=] & _)].
Qed.

Lemma file_inv_reachable path l disk hist :
  rtc ledger_step (empty_ledger path, Missing, []) (l, disk, hist) -> file_inv path l disk.
Proof.
  intros Hr.
  refine (rtc_ind_r (fun st => file_inv path (fst (fst st)) (snd (fst st))) (empty_ledger path, Missing, []) _ _ (l, disk, hist) Hr).
  - split_and!; [done|constructor|by left].
  - intros [[l1 d1] h1] [[l2 d2] h2] _ Hs Hi. cbn in *. by eapply file_inv_step.
Qed.

Lemma check_steps_valid i steps : Forall (fun s => validateStep s = Ok tt) steps -> check_steps i steps = Ok tt.
Proof. intros Hf. revert i. induction Hf as [|s steps Hs _ IH]; intros i; cbn; [done|]. rewrite Hs. apply IH. Qed.

Lemma tracks_empty cs : tracks [] cs -> cs = [].
Proof. intros Ht. apply elem_of_nil_inv. intros x Hx. apply (tr_rows _ _ Ht) in Hx as (c & Hc & _). by apply elem_of_nil in Hc. Qed.

Lemma disk_of_utf8 l hist : ledger_inv l hist -> Forall utf8_step hist -> utf8_ledger (disk_of l).
Proof.
  intros [(old & -> & _ & _ & Hc) _] [Ho Hl]%Forall_app. split; [done|]. cbn.
  destruct (0 <? lg_rolledSteps l); [|done]. apply Forall_forall. intros x Hx.
  destruct (tracks_row _ _ _ Hc Hx) as [_ (s & Hs & <-)%elem_of_categories].
  rewrite Forall_forall in Ho. by destruct (Ho s Hs) as (_ & ? & _).
Qed.

(** The ledger survives a restart: whatever sequence of recordings, failed
    ones included, produced the file, opening its directory again gives back
    exactly the ledger in memory, live steps and roll-up alike (for texts in
    valid UTF-8, which JSON preserves). *)
Theorem ledger_reopens `{!LedgerLaws _} dir l disk hist :
  blank dir = false -> Forall utf8_step hist ->
  rtc ledger_step (empty_ledger (Join [dir; Filename]), Missing, []) (l, disk, hist) ->
  Open dir disk = Ok l.
Proof.
  intros Hd Hu Hr. pose proof (ledger_inv_reachable _ _ _ _ Hr) as Hi.
  destruct (file_inv_reachable _ _ _ _ Hr) as (Hp & Hall & [[-> ->]|(raw & He & ->)]); unfold Open; rewrite Hd; [done|].
  rewrite (ledger_roundtrip (disk_of l) raw) by (try done; by eapply disk_of_utf8).
  cbn [disk_of dl_Version dl_Steps dl_Rollup]. rewrite Z.eqb_refl, check_steps_valid by done. cbn [negb].
  destruct Hi as [(old & _ & Hk & Ht & Hc) _].
  destruct l as [p steps k totals cats]. cbn in *. subst p.
  destruct (Z.ltb_spec 0 k); [done|].
  assert (old = []) as -> by (destruct old; cbn in *; [done|lia]).
  apply tracks_empty in Hc as ->. by rewrite Hk, Ht.
Qed.
End runs.

Module SavingsRun.
Definition flat_totals (t : Totals) : list Z :=
  [to_BaselineBytes t; to_ServedBytes t; to_SavedBytes t; to_BaselineTokensEst t; to_ServedTokensEst t; to_SavedTokensEst t;
   to_DedupCount t; to_CompressionCount t; to_AvoidedReads t; to_ModelCalls t; to_AvoidedModelCalls t].

Definition read_totals (l : list Z) : Totals :=
  match l with
  | [a; b; c; d; e; f; g; h; i; j; k] => MkTotals a b c d e f g h i j k
  | _ => zero_totals
  end.

Definition flat_step (s : Step) : list string * list Z :=
  ([st_Name s; st_Category s; st_Estimator s; st_BaselineModel s],
   [st_BaselineBytes s; st_ServedBytes s; st_BaselineTokensEst s; st_ServedTokensEst s; st_DedupCount s;
    st_CompressionCount s; st_AvoidedReads s; st_ModelCalls s; st_AvoidedModelCalls s]).

Definition read_step (p : list string * list Z) : Step :=
  match p with
  | ([n; c; e; m], [a; b; d; f; g; h; i; j; k]) => MkStep n c e m a b d f g h i j k
  | _ => MkStep "" "" "" "" 0 0 0 0 0 0 0 0 0
  end.

Definition flat_row (c : CategorySummary) : string * Z * list Z := (cy_Category c, cy_Steps c, flat_totals (cy_Totals c)).
Definition read_row (p : string * Z * list Z) : CategorySummary := MkCategory (fst (fst p)) (snd (fst p)) (read_totals (snd p)).

Definition flat_ledger (d : diskLedger) :=
  (dl_Version d, flat_step <$> dl_Steps d,
   (fun r => (ru_Steps r, flat_totals (ru_Totals r), flat_row <$> ru_Categories r)) <$> dl_Rollup d).

Definition read_ledger (p : Z * list (list string * list Z) * option (Z * list Z * list (string * Z * list Z))) : diskLedger :=
  let '(v, steps, rollup) := p in
  MkDisk v (read_step <$> steps)
    ((fun r => MkRollup (fst (fst r)) (read_totals (snd (fst r))) (read_row <$> snd r)) <$> rollup).

Definition plain_codec : LedgerCodec :=
  {| encode_ledger := fun d => Some (pos_str (encode (flat_ledger d)));
     decode_ledger := fun s => read_ledger <$> decode (str_pos s); probe_version := fun _ => None |}.
#[local] Existing Instance plain_codec.

Lemma read_flat_totals t : read_totals (flat_totals t) = t.
Proof. by destruct t. Qed.

Lemma map_read_flat {A B} (f : A -> B) (g : B -> A) (l : list A) : (forall x, g (f x) = x) -> g <$> (f <$> l) = l.
Proof. intros Hx. induction l as [|x l IH]; cbn; [done|]. by rewrite Hx, IH. Qed.

Lemma read_flat_ledger d : read_ledger (flat_ledger d) = d.
Proof.
  destruct d as [v steps [[k t rows]|]]; unfold flat_ledger, read_ledger; cbn -[flat_totals read_totals];
    rewrite (map_read_flat flat_step) by by intros [].
  - rewrite read_flat_totals, (map_read_flat flat_row); [done|]. intros []. unfold read_row, flat_row.
    cbn -[flat_totals read_totals]. by rewrite read_flat_totals.
  - done.
Qed.

#[local] Instance plain_laws : LedgerLaws plain_codec.
Proof.
  split. intros d raw _ [= <-]. unfold decode_ledger; cbn [plain_codec]. rewrite str_pos_str, decode_encode.
  change (Some (read_ledger (flat_ledger d)) = Some d). by rewrite read_flat_ledger.
Qed.

Definition step (name cat : string) (b s : Z) : Step := MkStep name cat "bytes_div_4" "whole_tree" b s (b / 4) (s / 4) 1 0 0 0 0.
Definition first := Record_ (empty_ledger "cache/token-savings.json") Missing true (step "a" "retrieval" 400 100).
Definition second := Record_ (snd (fst first)) (snd first) true (step "b" "dedup" 80 8).

Lemma ledger_summary_exact_witness :
  Summary_of (snd (fst second)) = spec_summary [step "a" "retrieval" 400 100; step "b" "dedup" 80 8] /\
  to_SavedBytes (sv_Totals (Summary_of (snd (fst second)))) = 372.
Proof.
  split; [|vm_compute; reflexivity].
  apply (ledger_summary_exact "cache/token-savings.json" (snd (fst second)) (snd second)
    [step "a" "retrieval" 400 100; step "b" "dedup" 80 8]).
  eapply rtc_l; [|apply rtc_once].
  - apply (record_ok _ _ [] true (step "a" "retrieval" 400 100) (snd (fst first)) (snd first)). vm_compute. reflexivity.
  - apply (record_ok _ _ [step "a" "retrieval" 400 100] true (step "b" "dedup" 80 8)). vm_compute. reflexivity.
Defined.

Lemma ledger_reopens_witness : Open "cache" (snd second) = Ok (snd (fst second)).
Proof.
  apply (ledger_reopens "cache" (snd (fst second)) (snd second) [step "a" "retrieval" 400 100; step "b" "dedup" 80 8]).
  - vm_compute. reflexivity.
  - repeat constructor; vm_compute; reflexivity.
  - eapply rtc_l; [|apply rtc_once].
    + apply (record_ok _ _ [] true (step "a" "retrieval" 400 100) (snd (fst first)) (snd first)). vm_compute. reflexivity.
    + apply (record_ok _ _ [step "a" "retrieval" 400 100] true (step "b" "dedup" 80 8)). vm_compute. reflexivity.
Defined.
End SavingsRun.
