(* ===== verification/PathGuard.v ===== *)
(** * Path confinement

    [services/internal/pathguard/pathguard.go]: [Resolve] turns a path into an
    absolute, symlink-resolved one even when it does not exist yet, [Within]
    and [Contain] decide whether a candidate stays inside a root.  The file
    system is an environment: what [os.Getwd] and [filepath.EvalSymlinks]
    answer.  The lexical functions of [path/filepath] are those of [GoPath]. *)

From Stdlib Require Import Ascii String.
From S2P Require Import Prelude GoString GoPath.
Open Scope string_scope.

(** ** The environment *)

(** [filepath.EvalSymlinks]: the resolved path, an error [os.IsNotExist]
    recognises, or any other error. *)
Inductive eval_result :=
| Exists (real : string)
| NotExist
| EvalError.

Class PathEnv := {
  Getwd : option string;
  EvalSymlinks : string -> eval_result
}.

(** What the documentation of [os.Getwd] and [filepath.EvalSymlinks] says:
    the working directory is rooted, and an absolute path resolves to an
    absolute path in the form [filepath.Clean] returns. *)
Class PathLaws (env : PathEnv) : Prop := {
  getwd_rooted d : Getwd = Some d -> has_prefix "/" d = true;
  eval_clean p real : clean_abs p -> EvalSymlinks p = Exists real -> clean_abs real
}.

Inductive guard_error :=
| EmptyPath
| ErrAbsolute (path : string)
| ErrResolve (path : string)
| ErrEscapes
| OutOfFuel.

(** ** Operations *)

Section Operations.
Context {env : PathEnv}.

(** [filepath.Abs]. *)
Definition Abs (path : string) : option string :=
  if has_prefix "/" path then Some (Clean path)
  else match Getwd with
       | Some wd => Some (Join [wd; path])
       | None => None
       end.

(** The loop of [Resolve]: [current] climbs to its parent and [remainder]
    collects what was left behind. *)
Fixpoint resolve_loop (fuel : nat) (path abs current remainder : string) : result guard_error string :=
  match fuel with
  | O => Err OutOfFuel
  | S fuel' =>
      match EvalSymlinks current with
      | Exists resolved =>
          if String.eqb remainder EmptyString then Ok resolved else Ok (Join [resolved; remainder])
      | EvalError => Err (ErrResolve path)
      | NotExist =>
          let parent := Dir current in
          if String.eqb parent current then Ok (Clean abs)
          else resolve_loop fuel' path abs parent (Join [Base current; remainder])
      end
  end.

(** Every turn removes an element of [current], so its elements and one bound the turns. *)
Definition Resolve (path : string) : result guard_error string :=
  if String.eqb (trim_space path) EmptyString then Err EmptyPath
  else match Abs path with
       | None => Err (ErrAbsolute path)
       | Some abs =>
           let current := Clean abs in
           resolve_loop (S (length (elements current))) path abs current EmptyString
       end.

Definition escapes (rel : string) : bool :=
  if String.eqb rel ".." then true
  else existsb (fun segment => String.eqb segment "..") (split_char "/" rel).

Definition Within (root candidate : string) : bool :=
  match Resolve root with
  | Err _ => false
  | Ok rootReal =>
      match Resolve candidate with
      | Err _ => false
      | Ok candidateReal =>
          match Rel rootReal candidateReal with
          | None => false
          | Some rel => negb (escapes rel)
          end
      end
  end.

Definition Contain (root candidate : string) : result guard_error string :=
  do rootReal <- Resolve root;
  do candidateReal <- Resolve candidate;
  match Rel rootReal candidateReal with
  | None => Err ErrEscapes
  | Some rel => if escapes rel then Err ErrEscapes else Ok candidateReal
  end.

(** ** Specification *)

(** Every ancestor of [pre ++ rem] longer than [pre] is missing. *)
Definition missing_above (pre rem : list string) : Prop :=
  forall l1 l2, rem = (l1 ++ l2)%list -> l1 <> [] -> EvalSymlinks (abs_path (pre ++ l1)) = NotExist.

(** [Resolve] of an absolute path with elements [segs]: the longest existing
    ancestor resolved with the rest appended, or the path itself when nothing
    exists, or the error of the first ancestor that cannot be examined. *)
Definition resolves (path : string) (segs : list string) (r : result guard_error string) : Prop :=
  exists pre rem, segs = (pre ++ rem)%list /\ missing_above pre rem
    /\ match EvalSymlinks (abs_path pre) with
       | Exists real => exists rs, real = abs_path rs /\ Forall plain_seg rs /\ r = Ok (abs_path (rs ++ rem))
       | EvalError => r = Err (ErrResolve path)
       | NotExist => pre = [] /\ r = Ok (abs_path segs)
       end.

Definition inside (root p : string) : Prop := elements root `prefix_of` elements p.

#[export] Instance inside_dec root p : Decision (inside root p).
Proof. unfold inside. apply _. Defined.
End Operations.

(** ** Correctness *)

Section Correctness.
Context {env : PathEnv} `{!PathLaws env}.

Lemma abs_path_inj a b : Forall plain_seg a -> Forall plain_seg b -> abs_path a = abs_path b -> a = b.
Proof. intros Ha Hb E. rewrite <- (elements_abs_path a), <- (elements_abs_path b) by done. by rewrite E. Qed.

Lemma join_empty segs : Forall plain_seg segs -> String.eqb (join "/" segs) EmptyString = bool_decide (segs = []).
Proof.
  intros H. destruct segs as [|s segs]; [done|]. rewrite bool_decide_false by done.
  apply String.eqb_neq. by apply join_plain_nonempty.
Qed.

Lemma missing_cons pre s rem :
  EvalSymlinks (abs_path (pre ++ [s])) = NotExist -> missing_above (pre ++ [s]) rem -> missing_above pre (s :: rem).
Proof.
  intros Hs Hm l1 l2 E Hne. destruct l1 as [|x l1]; [done|]. injection E as <- ->.
  destruct l1 as [|y l1]; [done|].
  specialize (Hm (y :: l1) l2 eq_refl). rewrite <- app_assoc in Hm. by apply Hm.
Qed.

Lemma loop_resolves path segs pre rem fuel :
  Forall plain_seg segs -> segs = (pre ++ rem)%list -> missing_above pre rem -> (length pre < fuel)%nat ->
  resolves path segs (resolve_loop fuel path (abs_path segs) (abs_path pre) (join "/" rem)).
Proof.
  intros Hs. revert pre rem. induction fuel as [|fuel IH]; intros pre rem E Hm Hf; [lia|]. cbn [resolve_loop].
  pose proof Hs as Hpr. rewrite E in Hpr. apply Forall_app in Hpr as [Hp Hr].
  destruct (EvalSymlinks (abs_path pre)) as [real| |] eqn:Ev.
  - exists pre, rem. split_and!; [done|done|]. rewrite Ev.
    destruct (eval_clean (abs_path pre) real) as (rs & -> & Hrs); [by exists pre|done|]. exists rs.
    split_and!; [done|done|]. rewrite join_empty by done. case_bool_decide as Hn.
    + by rewrite Hn, app_nil_r.
    + by rewrite Join_abs_path.
  - destruct pre as [|s0 pre0] using rev_ind.
    + rewrite Dir_root, String.eqb_refl. exists [], rem. split_and!; [done|done|]. rewrite Ev.
      split; [done|]. by rewrite Clean_abs_path.
    + rewrite Dir_abs_path, Base_abs_path by done.
      apply Forall_app in Hp as [Hp0 Hs0]. rewrite (proj2 (String.eqb_neq _ _)).
      2:{ intros Eq%abs_path_inj; [|done|by apply Forall_app]. apply (f_equal length) in Eq.
          rewrite length_app in Eq. cbn in Eq. lia. }
      apply Forall_cons in Hs0 as [Hs0 _].
      rewrite Join_relative by by constructor. apply IH.
      * by rewrite E, <- app_assoc.
      * by apply missing_cons.
      * rewrite length_app in Hf. cbn in Hf. lia.
  - exists pre, rem. split_and!; [done|done|]. by rewrite Ev.
Qed.

Lemma Join_rooted wd p : has_prefix "/" wd = true -> clean_abs (Join [wd; p]).
Proof.
  intros H. unfold Join. cbn [List.filter].
  destruct (String.eqb_spec wd EmptyString) as [->|Hw]; [done|]. cbn [negb].
  destruct (String.eqb_spec p EmptyString) as [->|Hp]; cbn [negb join]; apply Clean_rooted; [done|].
  destruct wd as [|a wd]; [done|]. destruct (ascii_dec a "/") as [->|Ha]; [apply has_prefix_slash|].
  by rewrite has_prefix_not_slash in H.
Qed.

Lemma Abs_clean p abs : Abs p = Some abs -> clean_abs abs.
Proof.
  unfold Abs. destruct (has_prefix "/" p) eqn:Hp; [intros [= <-]; by apply Clean_rooted|].
  destruct Getwd as [wd|] eqn:Hw; [|done]. intros [= <-]. apply Join_rooted. by apply getwd_rooted.
Qed.

Lemma Resolve_resolves path segs :
  blank path = false -> Abs path = Some (abs_path segs) -> Forall plain_seg segs -> resolves path segs (Resolve path).
Proof.
  intros Hb Ha Hs.
  unfold blank in Hb. unfold Resolve. rewrite Hb, Ha, Clean_abs_path, elements_abs_path by done.
  change EmptyString with (join "/" []). apply loop_resolves; [done|by rewrite app_nil_r| |lia].
  intros l1 l2 E Hne. by destruct l1.
Qed.

(** C40. [Resolve] of a non-blank path with a known absolute form is total: it
    returns the longest existing ancestor resolved with the remaining
    components appended, the cleaned path when nothing of it exists, and the
    error only when an ancestor on the way cannot be examined.  The loop never
    stops for want of fuel. *)
Theorem Resolve_longest_ancestor path abs :
  blank path = false -> Abs path = Some abs ->
  exists segs, abs = abs_path segs /\ Forall plain_seg segs /\ resolves path segs (Resolve path).
Proof.
  intros Hb Ha. destruct (Abs_clean path abs Ha) as (segs & -> & Hs). exists segs.
  split_and!; [done|done|]. by apply Resolve_resolves.
Qed.

Lemma resolves_clean path segs r : Forall plain_seg segs -> resolves path segs (Ok r) -> clean_abs r.
Proof.
  intros Hs (pre & rem & -> & _ & H). apply Forall_app in Hs as [Hp Hr].
  destruct (EvalSymlinks (abs_path pre)) as [real| |].
  - destruct H as (rs & _ & Hrs & [= ->]). exists (rs ++ rem)%list. split; [done|]. by apply Forall_app.
  - destruct H as [_ [= ->]]. exists (pre ++ rem)%list. split; [done|]. by apply Forall_app.
  - done.
Qed.

Lemma Resolve_clean p r : Resolve p = Ok r -> clean_abs r.
Proof.
  intros H. destruct (blank p) eqn:Hb; [by unfold Resolve in H; unfold blank in Hb; rewrite Hb in H|].
  destruct (Abs p) as [abs|] eqn:Ha; [|unfold Resolve in H; unfold blank in Hb; by rewrite Hb, Ha in H].
  destruct (Abs_clean p abs Ha) as (segs & -> & Hs).
  apply (resolves_clean p segs); [done|]. rewrite <- H. by apply Resolve_resolves.
Qed.

Lemma escapes_join segs :
  segs <> [] -> Forall (fun s => contains_char "/" s = false) segs ->
  escapes (join "/" segs) = bool_decide (".." ∈ segs).
Proof.
  intros Hne Hs. unfold escapes. rewrite split_join by done.
  assert (existsb (fun s => String.eqb s "..") segs = bool_decide (".." ∈ segs)) as ->.
  { apply Bool.eq_iff_eq_true. rewrite existsb_exists, bool_decide_eq_true. split.
    - intros (x & Hx & ->%String.eqb_eq). by apply list_elem_of_In.
    - intros Hx. exists "..". split; [by apply list_elem_of_In|done]. }
  destruct (String.eqb_spec (join "/" segs) "..") as [E|]; [|done].
  pose proof (split_join "/" segs Hne Hs) as Es. rewrite E in Es. cbn in Es. rewrite <- Es.
  by rewrite bool_decide_true by left.
Qed.

Lemma inside_abs b t : Forall plain_seg b -> Forall plain_seg t -> inside (abs_path b) (abs_path t) <-> b `prefix_of` t.
Proof. intros Hb Ht. unfold inside. by rewrite !elements_abs_path. Qed.

Lemma Rel_inside r c :
  clean_abs r -> clean_abs c ->
  exists rel, Rel r c = Some rel /\ escapes rel = negb (bool_decide (inside r c)).
Proof.
  intros (b & -> & Hb) (t & -> & Ht). destruct (Rel_abs_path b t Hb Ht) as (segs & -> & Hne & Hc & Hp).
  eexists. split; [done|]. rewrite escapes_join by done. rewrite (bool_decide_ext _ _ (inside_abs b t Hb Ht)).
  rewrite <- bool_decide_not. apply bool_decide_ext. rewrite <- Hp.
  destruct (decide (".." ∈ segs)); tauto.
Qed.

(** C35. [Contain] fails closed and compares whole path elements: it returns
    the resolved candidate exactly when both paths resolve and the elements of
    the resolved root are a prefix of the candidate's, it passes resolution
    errors on and otherwise reports the escape, and [Within] is true in exactly
    the accepted cases. *)
Theorem Contain_confines root candidate :
  Within root candidate = is_ok (Contain root candidate)
  /\ match Contain root candidate with
     | Ok c => Resolve candidate = Ok c /\ clean_abs c
         /\ exists r, Resolve root = Ok r /\ clean_abs r /\ inside r c
     | Err e =>
         Resolve root = Err e
         \/ (exists r, Resolve root = Ok r /\ Resolve candidate = Err e)
         \/ (exists r c, Resolve root = Ok r /\ Resolve candidate = Ok c /\ ~ inside r c /\ e = ErrEscapes)
     end.
Proof.
  unfold Within, Contain. destruct (Resolve root) as [r|e] eqn:Hr; cbn; [|by auto].
  destruct (Resolve candidate) as [c|e] eqn:Hc; cbn; [|split; [done|]; right; left; by eauto].
  pose proof (Resolve_clean _ _ Hr) as Cr. pose proof (Resolve_clean _ _ Hc) as Cc.
  destruct (Rel_inside r c Cr Cc) as (rel & -> & ->).
  case_bool_decide as Hi; cbn; (split; [done|]).
  - split_and!; [done|done|by exists r].
  - right; right. by exists r, c.
Qed.
End Correctness.

(** ** A concrete file system *)

Module PathRun.

(** [/srv/repo] and [/srv/repo-backup] exist, [/srv/repo/link] points at
    [/etc], [/srv/private] cannot be examined. *)
#[local] Instance demo : PathEnv := {|
  Getwd := Some "/srv/repo";
  EvalSymlinks p :=
    if existsb (String.eqb p) ["/"; "/srv"; "/srv/repo"; "/srv/repo-backup"; "/etc"] then Exists p
    else if String.eqb p "/srv/repo/link" then Exists "/etc"
    else if String.eqb p "/srv/private" then EvalError
    else NotExist
|}.

#[local] Instance demo_laws : PathLaws demo.
Proof.
  constructor.
  - by intros d [= <-].
  - intros p real Hp. cbn -[String.eqb]. intros H.
    repeat match type of H with context [String.eqb ?a ?b] => destruct (String.eqb_spec a b); cbn -[String.eqb] in H end;
      injection H as <- || discriminate H; done || (exists ["etc"]; split; [done|]; repeat constructor; done).
Qed.

Example new_file_accepted : Contain "/srv/repo" "src/new/..config" = Ok "/srv/repo/src/new/..config".
Proof. vm_compute. reflexivity. Qed.
Example sibling_rejected : Contain "/srv/repo" "/srv/repo-backup/x" = Err ErrEscapes.
Proof. vm_compute. reflexivity. Qed.
Example symlink_rejected : Contain "/srv/repo" "link/passwd" = Err ErrEscapes.
Proof. vm_compute. reflexivity. Qed.
Example unreadable_rejected : Within "/srv/private" "/srv/private/x" = false.
Proof. vm_compute. reflexivity. Qed.

Lemma Contain_confines_witness :
  Within "/srv/repo" "link/passwd" = is_ok (Contain "/srv/repo" "link/passwd")
  /\ exists r c, Resolve "/srv/repo" = Ok r /\ Resolve "link/passwd" = Ok c /\ ~ inside r c.
Proof.
  destruct (Contain_confines "/srv/repo" "link/passwd") as [Hw Hc]. split; [exact Hw|].
  assert (Contain "/srv/repo" "link/passwd" = Err ErrEscapes) as E by (vm_compute; reflexivity). rewrite E in Hc.
  destruct Hc as [Hc|[(r & _ & Hc)|(r & c & Hr & Hc & Hi & _)]].
  - vm_compute in Hc. discriminate Hc.
  - vm_compute in Hc. discriminate Hc.
  - exists r, c. exact (conj Hr (conj Hc Hi)).
Defined.

Lemma Resolve_longest_ancestor_witness :
  exists segs, "/srv/repo/link/new/file" = abs_path segs /\ Forall plain_seg segs
    /\ resolves "link/new/file" segs (Ok "/etc/new/file").
Proof. exact (Resolve_longest_ancestor "link/new/file" "/srv/repo/link/new/file" eq_refl eq_refl). Defined.

End PathRun.
