(* ===== verification/SqlTable.v ===== *)
(** * Tables

    What the SQL of the sources is read as: a table is the list of its rows in
    insertion order, a query a function of the list.  The lemmas are about
    tables whose rows are densely numbered. *)

From Stdlib Require Import Ascii String.
From S2P Require Import Prelude GoString.
Open Scope string_scope.
Open Scope Z_scope.

(** ** Queries *)

(** [COALESCE(MAX(f),0)] over the selected rows. *)
Definition coalesce_max {A} (f : A -> Z) (rows : list A) : Z := fold_right (fun r m => Z.max (f r) m) 0 rows.

(** [ORDER BY f DESC LIMIT 1]. *)
Fixpoint top_by {A} (f : A -> Z) (rows : list A) : option A :=
  match rows with
  | [] => None
  | r :: rows' =>
      match top_by f rows' with
      | None => Some r
      | Some m => Some (if f r <? f m then m else r)
      end
  end.

(** A [CHECK] that a column is one of the listed texts. *)
Definition one_of (l : list string) (s : string) : bool := existsb (String.eqb s) l.

Lemma one_of_spec l s : one_of l s = true <-> s ∈ l.
Proof.
  unfold one_of. rewrite existsb_exists. split.
  - intros (x & Hx & ->%String.eqb_eq). by apply list_elem_of_In.
  - intros Hs. exists s. split; [by apply list_elem_of_In|apply String.eqb_refl].
Qed.

(** A selection no row matches. *)
Lemma filter_none {A} (f : A -> bool) l : Forall (fun x => f x = false) l -> List.filter f l = [].
Proof. induction 1 as [|x l Hx _ IH]; [done|]. cbn. by rewrite Hx. Qed.

(** ** Lemmas: densely numbered tables *)

(** The rows are numbered from 1 in insertion order. *)
Definition numbered {A} (f : A -> Z) (rows : list A) : Prop := f <$> rows = Z.of_nat <$> seq 1 (length rows).

Lemma numbered_nil {A} (f : A -> Z) : numbered f [].
Proof. done. Qed.

Lemma numbered_add {A} (f : A -> Z) rows r :
  numbered f rows -> f r = Z.of_nat (length rows) + 1 -> numbered f (rows ++ [r]).
Proof.
  unfold numbered. intros Hn Hr. rewrite fmap_app, length_app, Hn. cbn [length].
  rewrite seq_app, fmap_app. cbn. do 2 f_equal. lia.
Qed.

Lemma coalesce_max_snoc {A} (f : A -> Z) rows r : coalesce_max f (rows ++ [r]) = Z.max (coalesce_max f rows) (Z.max (f r) 0).
Proof. unfold coalesce_max. induction rows as [|x rows IH]; cbn; [|rewrite IH]; lia. Qed.

Lemma numbered_snoc_inv {A} (f : A -> Z) rows r :
  numbered f (rows ++ [r]) -> numbered f rows /\ f r = Z.of_nat (length rows) + 1.
Proof.
  unfold numbered. rewrite fmap_app, length_app. cbn [length]. rewrite seq_app, fmap_app. cbn. intros E.
  apply app_inj_tail in E as [E1 E2]. split; [exact E1|]. lia.
Qed.

Lemma coalesce_max_numbered {A} (f : A -> Z) rows : numbered f rows -> coalesce_max f rows = Z.of_nat (length rows).
Proof.
  induction rows as [|r rows IH] using rev_ind; [done|]. intros [Hn Hr]%numbered_snoc_inv.
  rewrite coalesce_max_snoc, (IH Hn), length_app. cbn. lia.
Qed.

Lemma top_by_snoc {A} (f : A -> Z) rows r :
  Forall (fun x => f x < f r) rows -> top_by f (rows ++ [r]) = Some r.
Proof.
  induction 1 as [|x rows Hx _ IH]; [done|]. cbn [List.app top_by]. rewrite IH.
  by rewrite (proj2 (Z.ltb_lt _ _) Hx).
Qed.

Lemma numbered_bounds {A} (f : A -> Z) rows : numbered f rows -> Forall (fun x => 1 <= f x <= Z.of_nat (length rows)) rows.
Proof.
  unfold numbered. intros Hn. apply Forall_forall. intros x Hx.
  assert (f x ∈ f <$> rows) as Hf by (by apply list_elem_of_fmap; exists x).
  rewrite Hn in Hf. apply list_elem_of_fmap in Hf as (n & -> & Hseq). apply elem_of_seq in Hseq. lia.
Qed.

Lemma top_by_numbered {A} (f : A -> Z) rows : numbered f rows -> top_by f rows = last rows.
Proof.
  destruct rows as [|r rows _] using rev_ind; [done|]. intros [Hn Hr]%numbered_snoc_inv.
  rewrite last_snoc. apply top_by_snoc. eapply Forall_impl; [by apply numbered_bounds|]. cbn. lia.
Qed.
