(* ===== verification/FactoryTypes.v ===== *)
(** * factory: vocabulary, identities and paths

    Models [services/brain/internal/factory]: the life-cycle vocabularies of
    [states.go] and [review.go], the errors of [errors.go], the hashed
    identities of [identity.go] (the same code is in [roster/identity.go]) and
    the path rules of [paths.go].  An enumeration of the generated contracts is
    open: any number arrives over the wire, so each type has a constructor for
    the codes outside the vocabulary. *)

From Stdlib Require Import Ascii String.
From S2P Require Import Prelude GoString GoPath Float64 Runtime.
Open Scope string_scope.
Open Scope Z_scope.

(** ** Errors *)

Inductive factory_error :=
| ErrInvalidInput
| ErrNotFoundOrDenied
| ErrPayloadUnavailable
| ErrPlanInvalid
| ErrTransitionInvalid
| ErrReviewerConflict
| ErrScopeEscape
| ErrDatabase
| RosterInvalidInput
| ErrStaleFence
| ErrResultConflict
| MailboxInvalidInput
| ErrMessageConflict
| ErrUnknownMessage.

(** ** Life cycles *)

Inductive ChangeRunState :=
| RunPlanning | RunReady | RunRunning | RunReview | RunCandidateReady
| RunCompleted | RunFailed | RunCancelled | RunOther (code : Z).

Inductive FactoryGateKind := GateBuild | GateTest | GateDocs | GateSecurity | GateKindOther (code : Z).
Inductive FactoryGateStatus := GatePending | GateRunning | GatePassed | GateFailed | GateStatusOther (code : Z).

Inductive CandidateState :=
| CandProposed | CandApplied | CandVerified | CandReviewed | CandRetained | CandRejected | CandOther (code : Z).

Inductive ReviewSeverity := SevInfo | SevMinor | SevMajor | SevBlocker | SevOther (code : Z).
Inductive ReviewCategory := CatCorrectness | CatSecurity | CatDataIntegrity | CatDocs | CatTests | CatOther (code : Z).
Inductive FindingDisposition := DispFixed | DispDismissed | DispDeferred | DispBlocking | DispOther (code : Z).

#[export] Instance ChangeRunState_eq_dec : EqDecision ChangeRunState.
Proof. solve_decision. Defined.
#[export] Instance FactoryGateKind_eq_dec : EqDecision FactoryGateKind.
Proof. solve_decision. Defined.
#[export] Instance FactoryGateStatus_eq_dec : EqDecision FactoryGateStatus.
Proof. solve_decision. Defined.
#[export] Instance CandidateState_eq_dec : EqDecision CandidateState.
Proof. solve_decision. Defined.
#[export] Instance FindingDisposition_eq_dec : EqDecision FindingDisposition.
Proof. solve_decision. Defined.

Definition runStateText (s : ChangeRunState) : result factory_error string :=
  match s with
  | RunPlanning => Ok "PLANNING"
  | RunReady => Ok "READY"
  | RunRunning => Ok "RUNNING"
  | RunReview => Ok "REVIEW"
  | RunCandidateReady => Ok "CANDIDATE_READY"
  | RunCompleted => Ok "COMPLETED"
  | RunFailed => Ok "FAILED"
  | RunCancelled => Ok "CANCELLED"
  | RunOther _ => Err ErrInvalidInput
  end.

Definition runStateFromText (v : string) : result factory_error ChangeRunState :=
  if String.eqb v "PLANNING" then Ok RunPlanning
  else if String.eqb v "READY" then Ok RunReady
  else if String.eqb v "RUNNING" then Ok RunRunning
  else if String.eqb v "REVIEW" then Ok RunReview
  else if String.eqb v "CANDIDATE_READY" then Ok RunCandidateReady
  else if String.eqb v "COMPLETED" then Ok RunCompleted
  else if String.eqb v "FAILED" then Ok RunFailed
  else if String.eqb v "CANCELLED" then Ok RunCancelled
  else Err ErrInvalidInput.

Definition terminalRunState (s : ChangeRunState) : bool :=
  bool_decide (s = RunCompleted) || bool_decide (s = RunFailed) || bool_decide (s = RunCancelled).

Definition validRunTransition (from to : ChangeRunState) : bool :=
  if terminalRunState from then false
  else match to with
       | RunReady => bool_decide (from = RunPlanning)
       | RunRunning => bool_decide (from = RunReady)
       | RunReview => bool_decide (from = RunRunning)
       | RunCandidateReady => bool_decide (from = RunReview)
       | RunCompleted => bool_decide (from = RunCandidateReady)
       | RunFailed => negb (bool_decide (from = RunCompleted))
       | RunCancelled => true
       | RunPlanning | RunOther _ => false
       end.

Definition gateKindText (k : FactoryGateKind) : result factory_error string :=
  match k with
  | GateBuild => Ok "BUILD"
  | GateTest => Ok "TEST"
  | GateDocs => Ok "DOCS"
  | GateSecurity => Ok "SECURITY"
  | GateKindOther _ => Err ErrInvalidInput
  end.

Definition gateKindFromText (v : string) : result factory_error FactoryGateKind :=
  if String.eqb v "BUILD" then Ok GateBuild
  else if String.eqb v "TEST" then Ok GateTest
  else if String.eqb v "DOCS" then Ok GateDocs
  else if String.eqb v "SECURITY" then Ok GateSecurity
  else Err ErrInvalidInput.

Definition gateStatusText (s : FactoryGateStatus) : result factory_error string :=
  match s with
  | GatePending => Ok "PENDING"
  | GateRunning => Ok "RUNNING"
  | GatePassed => Ok "PASSED"
  | GateFailed => Ok "FAILED"
  | GateStatusOther _ => Err ErrInvalidInput
  end.

Definition gateStatusFromText (v : string) : result factory_error FactoryGateStatus :=
  if String.eqb v "PENDING" then Ok GatePending
  else if String.eqb v "RUNNING" then Ok GateRunning
  else if String.eqb v "PASSED" then Ok GatePassed
  else if String.eqb v "FAILED" then Ok GateFailed
  else Err ErrInvalidInput.

Definition candidateStateText (s : CandidateState) : result factory_error string :=
  match s with
  | CandProposed => Ok "PROPOSED"
  | CandApplied => Ok "APPLIED"
  | CandVerified => Ok "VERIFIED"
  | CandReviewed => Ok "REVIEWED"
  | CandRetained => Ok "RETAINED"
  | CandRejected => Ok "REJECTED"
  | CandOther _ => Err ErrInvalidInput
  end.

Definition candidateStateFromText (v : string) : result factory_error CandidateState :=
  if String.eqb v "PROPOSED" then Ok CandProposed
  else if String.eqb v "APPLIED" then Ok CandApplied
  else if String.eqb v "VERIFIED" then Ok CandVerified
  else if String.eqb v "REVIEWED" then Ok CandReviewed
  else if String.eqb v "RETAINED" then Ok CandRetained
  else if String.eqb v "REJECTED" then Ok CandRejected
  else Err ErrInvalidInput.

Definition terminalCandidateState (s : CandidateState) : bool :=
  bool_decide (s = CandRetained) || bool_decide (s = CandRejected).

Definition validCandidateTransition (from to : CandidateState) : bool :=
  if bool_decide (from = CandRetained) || bool_decide (from = CandRejected) then false
  else match to with
       | CandApplied => bool_decide (from = CandProposed)
       | CandVerified => bool_decide (from = CandApplied)
       | CandReviewed => bool_decide (from = CandVerified)
       | CandRetained => bool_decide (from = CandReviewed)
       | CandRejected => true
       | CandProposed | CandOther _ => false
       end.

Definition severityText (s : ReviewSeverity) : result factory_error string :=
  match s with
  | SevInfo => Ok "INFO" | SevMinor => Ok "MINOR" | SevMajor => Ok "MAJOR" | SevBlocker => Ok "BLOCKER"
  | SevOther _ => Err ErrInvalidInput
  end.

Definition categoryText (c : ReviewCategory) : result factory_error string :=
  match c with
  | CatCorrectness => Ok "CORRECTNESS" | CatSecurity => Ok "SECURITY" | CatDataIntegrity => Ok "DATA_INTEGRITY"
  | CatDocs => Ok "DOCS" | CatTests => Ok "TESTS"
  | CatOther _ => Err ErrInvalidInput
  end.

Definition dispositionText (d : FindingDisposition) : result factory_error string :=
  match d with
  | DispFixed => Ok "FIXED" | DispDismissed => Ok "DISMISSED_WITH_EVIDENCE" | DispDeferred => Ok "DEFERRED"
  | DispBlocking => Ok "BLOCKING"
  | DispOther _ => Err ErrInvalidInput
  end.

Definition dispositionReasonCode (d : FindingDisposition) : string :=
  match d with
  | DispFixed => "finding_fixed" | DispDismissed => "finding_dismissed_with_evidence"
  | DispDeferred => "finding_deferred" | DispBlocking => "finding_blocking"
  | DispOther _ => "finding_dispositioned"
  end.

(** ** Identities *)

(** [binary.BigEndian.PutUint64]. *)
Definition be64 (n : Z) : string :=
  str_of_bytes (map (fun i => Z.shiftr n (8 * i) mod 256) [7; 6; 5; 4; 3; 2; 1; 0]).

Definition writeIdentityField (value : string) : string := be64 (len value) ++ value.

Definition identity_preimage (domain : string) (fields : list string) : string :=
  fold_right (fun v rest => writeIdentityField v ++ rest) "" (domain :: fields).

Definition identity `{GoRuntime} (domain : string) (fields : list string) : string :=
  sha256_hex (identity_preimage domain fields).

Definition digestBytes `{GoRuntime} (value : string) : string := sha256_hex value.

Definition hex_rune (r : Z) : bool := ((48 <=? r) && (r <=? 57)) || ((97 <=? r) && (r <=? 102)).
Definition all_hex (v : string) : bool := forallb (fun p => hex_rune (p_rune p)) (pieces v).

Definition isHexDigest (v : string) : bool := (len v =? 64) && all_hex v.
Definition isGitOID (v : string) : bool := ((len v =? 40) || (len v =? 64)) && all_hex v.

(** No rune below [0x20] and none equal to [0x7f]. *)
Definition printable (v : string) : bool :=
  forallb (fun p => negb ((p_rune p <? 32) || (p_rune p =? 127))) (pieces v).

Definition validPrincipalID (v : string) : bool :=
  negb (String.eqb v "" || (512 <? len v)) && printable v.

(** [validIdempotencyKey] has the same body. *)
Definition validIdempotencyKey (v : string) : bool :=
  negb (String.eqb v "" || (512 <? len v)) && printable v.

(** ** Paths *)

Definition validRepositoryPath (path : string) : bool :=
  negb (String.eqb path "" || (4096 <? len path) || has_prefix "/" path || has_suffix "/" path)
  && forallb (fun p => negb ((p_rune p =? 92) || (p_rune p <? 32) || (p_rune p =? 127))) (pieces path)
  && forallb (fun seg => negb (String.eqb seg "" || String.eqb seg "." || String.eqb seg "..")) (split_char "/" path).

Section paths.
Context `{GoRuntime}.

Definition foldPath (path : string) : string := to_lower path.

Definition pathsCollide (first second : string) : bool :=
  let first := foldPath first in
  let second := foldPath second in
  String.eqb first second || has_prefix (first ++ "/") second || has_prefix (second ++ "/") first.

Definition pathWithinScope (path : string) (scope : list string) : bool :=
  let folded := foldPath path in
  existsb (fun root => let root := foldPath root in String.eqb folded root || has_prefix (root ++ "/") folded) scope.
End paths.

(** ** Lemmas *)

Lemma runStateText_inv s v : runStateText s = Ok v -> runStateFromText v = Ok s.
Proof. destruct s; cbn; by intros [= <-]. Qed.

Lemma runStateFromText_inv v s : runStateFromText v = Ok s -> runStateText s = Ok v.
Proof. unfold runStateFromText. intros H. res_inv; subst; by f_equal; symmetry; apply String.eqb_eq. Qed.

Lemma gateStatusText_inv s v : gateStatusText s = Ok v -> gateStatusFromText v = Ok s.
Proof. destruct s; cbn; by intros [= <-]. Qed.

Lemma candidateStateText_inv s v : candidateStateText s = Ok v -> candidateStateFromText v = Ok s.
Proof. destruct s; cbn; by intros [= <-]. Qed.

Lemma gateKindText_inv k v : gateKindText k = Ok v -> gateKindFromText v = Ok k.
Proof. destruct k; cbn; by intros [= <-]. Qed.

Lemma has_prefix_app a p : has_prefix a p = true <-> exists r, p = a ++ r.
Proof.
  unfold has_prefix. revert p. induction a as [|c a IH]; intros p; cbn.
  - split; [by exists p|]. by destruct p.
  - destruct p as [|c' p]; cbn; [split; [done|by intros [r [=]]]|].
    destruct (ascii_dec c c') as [->|Hne].
    + rewrite IH. split; intros [r E]; exists r; [by rewrite E|by injection E].
    + split; [done|]. intros [r [= E _]]. congruence.
Qed.

Lemma str_app_inj_len a b r s :
  a ++ r = b ++ s -> String.length a = String.length b -> a = b /\ r = s.
Proof.
  revert b. induction a as [|c a IH]; intros [|d b]; cbn; [done|done|done|].
  intros [= -> E] Hl. destruct (IH b E) as [-> ->]; [lia|done].
Qed.

Lemma str_app_split a b r s :
  a ++ r = b ++ s -> (String.length a <= String.length b)%nat -> exists t, b = a ++ t /\ r = t ++ s.
Proof.
  revert b. induction a as [|c a IH]; intros b; cbn; [intros ->; by exists b|].
  destruct b as [|d b]; cbn; [lia|]. intros [= -> E] Hl.
  destruct (IH b E) as (t & -> & ->); [lia|]. by exists t.
Qed.

(** Two directories above one path are nested. *)
Lemma prefixes_nested a b p :
  has_prefix (a ++ "/") p = true -> has_prefix (b ++ "/") p = true ->
  a = b \/ has_prefix (a ++ "/") b = true \/ has_prefix (b ++ "/") a = true.
Proof.
  intros [r Er]%has_prefix_app [s Es]%has_prefix_app. rewrite Er in Es. clear Er p.
  rewrite !append_assoc in Es.
  assert (forall x y u v, x ++ "/" ++ u = y ++ "/" ++ v -> (String.length x <= String.length y)%nat ->
            x = y \/ has_prefix (x ++ "/") y = true) as Hw.
  { intros x y u v E Hl. destruct (str_app_split x y _ _ E Hl) as ([|c t] & -> & Et); [left; by rewrite append_nil_r|].
    right. cbn in Et. injection Et as <- _. apply has_prefix_app. exists t. by rewrite append_assoc. }
  destruct (Nat.le_ge_cases (String.length a) (String.length b)) as [Hl|Hl].
  - destruct (Hw a b r s Es Hl); auto.
  - destruct (Hw b a s r (eq_sym Es) Hl); auto.
Qed.

Lemma bytes_inj (k : nat) n m :
  0 <= n < 256 ^ Z.of_nat k -> 0 <= m < 256 ^ Z.of_nat k ->
  (forall i, 0 <= i < Z.of_nat k -> Z.shiftr n (8 * i) mod 256 = Z.shiftr m (8 * i) mod 256) -> n = m.
Proof.
  revert n m. induction k as [|k IH]; intros n m Hn Hm Hb; [cbn in *; lia|].
  rewrite Nat2Z.inj_succ, Z.pow_succ_r in Hn, Hm by lia.
  assert (n / 256 = m / 256) as Hd.
  { apply IH.
    - split; [apply Z.div_pos; lia|apply Z.div_lt_upper_bound; lia].
    - split; [apply Z.div_pos; lia|apply Z.div_lt_upper_bound; lia].
    - intros i Hi. specialize (Hb (i + 1)). replace (8 * (i + 1)) with (8 + 8 * i) in Hb by lia.
      rewrite <- !(Z.shiftr_shiftr _ 8), !(Z.shiftr_div_pow2 _ 8) in Hb by lia. apply Hb. lia. }
  pose proof (Hb 0 ltac:(lia)) as H0. change (n mod 256 = m mod 256) in H0.
  pose proof (Z.div_mod n 256) as En. pose proof (Z.div_mod m 256) as Em. rewrite En, Em, Hd, H0 by lia. done.
Qed.

Lemma byte_of_Z_inj a b : 0 <= a < 256 -> 0 <= b < 256 -> byte_of_Z a = byte_of_Z b -> a = b.
Proof.
  unfold byte_of_Z. intros Ha Hb E. apply (f_equal N_of_ascii) in E.
  rewrite !N_ascii_embedding in E by lia. lia.
Qed.

Lemma be64_inj n m : 0 <= n < 2 ^ 64 -> 0 <= m < 2 ^ 64 -> be64 n = be64 m -> n = m.
Proof.
  intros Hn Hm E. apply (bytes_inj 8); [exact Hn|exact Hm|]. intros i Hi.
  assert (forall z, 0 <= z mod 256 < 256) as Hr by (intros z; apply Z.mod_pos_bound; lia).
  unfold be64, str_of_bytes in E. cbn [map fold_right] in E.
  injection E as H7 H6 H5 H4 H3 H2 H1 H0.
  assert (i = 0 \/ i = 1 \/ i = 2 \/ i = 3 \/ i = 4 \/ i = 5 \/ i = 6 \/ i = 7) as Hc by lia.
  destruct Hc as [->|[->|[->|[->|[->|[->|[->| ->]]]]]]]; apply byte_of_Z_inj; by try apply Hr.
Qed.

Lemma length_be64 n : String.length (be64 n) = 8%nat.
Proof. reflexivity. Qed.

Lemma identity_preimage_cons d fields :
  identity_preimage d fields = be64 (len d) ++ d ++ fold_right (fun v rest => writeIdentityField v ++ rest) "" fields.
Proof. unfold identity_preimage. cbn [fold_right]. unfold writeIdentityField. by rewrite append_assoc. Qed.

(** The preimage of a hashed identity is unambiguous: length-prefixed
    framing makes two identities of the same preimage agree on the domain and
    on every field, so no choice of field contents can make one record's
    identity collide with another's (short of a SHA-256 collision). *)
Theorem identity_preimage_injective d1 f1 d2 f2 :
  Forall (fun v => len v < 2 ^ 64) (d1 :: f1) -> Forall (fun v => len v < 2 ^ 64) (d2 :: f2) ->
  identity_preimage d1 f1 = identity_preimage d2 f2 -> d1 = d2 /\ f1 = f2.
Proof.
  intros H1 H2 E. enough (d1 :: f1 = d2 :: f2) as [=] by done.
  unfold identity_preimage in E. revert H1 H2 E. generalize (d1 :: f1), (d2 :: f2). clear.
  intros l1. induction l1 as [|v l1 IH]; intros [|w l2] H1 H2 E; [done|done|done|].
  apply Forall_cons in H1 as [Hv H1], H2 as [Hw H2]. cbn [fold_right] in E. unfold writeIdentityField at 1 3 in E.
  rewrite !append_assoc in E. apply str_app_inj_len in E as [El E]; [|done].
  apply be64_inj in El; [|pose proof (len_nonneg v); lia|pose proof (len_nonneg w); lia].
  apply str_app_inj_len in E as [-> E]; [|unfold len in El; lia]. by rewrite (IH l2).
Qed.

Lemma identity_preimage_injective_witness :
  identity_preimage "lease" ["ab"; "c"] <> identity_preimage "lease" ["a"; "bc"].
Proof.
  intros E. destruct (identity_preimage_injective "lease" ["ab"; "c"] "lease" ["a"; "bc"]) as [_ [=]].
  - repeat constructor.
  - repeat constructor.
  - exact E.
Defined.
