(* ===== verification/FactoryStore.v ===== *)
(** * factory: the ledger

    The tables of [localstate/schema/migrations/005_stage05_factory.sql] with
    their constraints and triggers, and [store.go] of
    [services/brain/internal/factory]: reading a run and its current state,
    appending states, idempotency records.  A table is the list of its rows in
    insertion order; update and delete are refused by the schema, so an insert
    is the only change.  An insert that violates a constraint is [None]. *)

From Stdlib Require Import Ascii String.
From S2P Require Import Prelude GoString GoPath Float64 Runtime SqlTable FactoryTypes.
Open Scope string_scope.
Open Scope Z_scope.

(** ** Scopes *)

(** The authenticated session scope. *)
Record Identity := MkIdentity { id_Tenant : string; id_Principal : string; id_Session : string }.

(** The columns [tenant_id, principal_id, run_id] every table starts with. *)
Record RunKey := MkKey { rk_tenant : string; rk_principal : string; rk_run : string }.

#[export] Instance RunKey_eq_dec : EqDecision RunKey.
Proof. solve_decision. Defined.

Definition run_key (a : Identity) (runID : string) : RunKey := MkKey (id_Tenant a) (id_Principal a) runID.

(** ** Rows *)

Record runRow := MkRun {
  rr_key : RunKey; rr_sessionID : string; rr_intentID : string; rr_intentDigest : string; rr_intentArtifact : string;
  rr_repositoryGitOID : string; rr_planID : string; rr_admittedAtMs : Z
}.

(** One life-cycle row; [sr_sub] is the gate of a gate state and empty otherwise. *)
Record StateRow := MkState { sr_key : RunKey; sr_sub : string; sr_sequence : Z; sr_state : string; sr_at : Z }.

Record idempotencyRow := MkIdem {
  ip_tenant : string; ip_principal : string; ip_operation : string; ip_key : string;
  ip_requestDigest : string; ip_runID : string; ip_at : Z
}.

Record GrantColumns := MkGrant {
  gc_actions : string; gc_allowedPaths : string; gc_nonce : string; gc_expiresAtMs : Z; gc_revocationEpoch : Z;
  gc_commandFence : Z; gc_policyDigest : string
}.

(** The route and grant columns are set together for a leaf and null otherwise. *)
Record NodeRow := MkNode {
  nr_key : RunKey; nr_node : string; nr_kind : string; nr_goalArtifact : string; nr_goalDigest : string;
  nr_owned : string; nr_forbidden : string; nr_route : option (string * string * string); nr_grant : option GrantColumns
}.

Record GateRow := MkGate { ga_key : RunKey; ga_gate : string; ga_kind : string; ga_required : bool }.

Record Lease := MkLease {
  le_key : RunKey; le_NodeID : string; le_Fence : Z; le_LeaseID : string; le_HolderPrincipalID : string;
  le_IssuedAtMs : Z; le_ExpiresAtMs : Z
}.

Record ResultRow := MkResult {
  rs_key : RunKey; rs_node : string; rs_fence : Z; rs_artifact : string; rs_digest : string; rs_committedAtMs : Z
}.

Record MessageRow := MkMessageRow {
  mr_key : RunKey; mr_message : string; mr_task : string; mr_kind : string; mr_sequence : Z; mr_correlation : string;
  mr_causation : string; mr_sender : string; mr_artifact : string; mr_digest : string; mr_expires : option Z; mr_sentAtMs : Z
}.

Record AckRow := MkAck { ak_key : RunKey; ak_message : string; ak_at : Z }.

Record candidateRow := MkCandidate {
  cd_key : RunKey; cd_changeSetID : string; cd_artifactID : string; cd_digestHex : string; cd_at : Z
}.

Record RollbackRow := MkRollback { rb_key : RunKey; rb_receipt : string; rb_reason : string; rb_digest : string; rb_at : Z }.

Record FindingRow := MkFinding {
  fd_key : RunKey; fd_finding : string; fd_severity : string; fd_category : string; fd_reviewer : string;
  fd_session : string; fd_family : string; fd_artifact : string; fd_digest : string; fd_evidence : Z; fd_at : Z
}.

Record DispositionRow := MkDisposition {
  dp_key : RunKey; dp_finding : string; dp_disposition : string; dp_receipt : string; dp_reason : string; dp_at : Z
}.

Record DB := MkDB {
  db_sessions : list (string * string * string);
  db_runs : list runRow;
  db_run_states : list StateRow;
  db_idempotency : list idempotencyRow;
  db_plan_nodes : list NodeRow;
  db_gates : list GateRow;
  db_gate_states : list StateRow;
  db_leases : list Lease;
  db_results : list ResultRow;
  db_messages : list MessageRow;
  db_acks : list AckRow;
  db_candidates : list candidateRow;
  db_candidate_states : list StateRow;
  db_rollbacks : list RollbackRow;
  db_findings : list FindingRow;
  db_dispositions : list DispositionRow
}.

Definition set_runs t d := MkDB (db_sessions d) t (db_run_states d) (db_idempotency d) (db_plan_nodes d) (db_gates d)
  (db_gate_states d) (db_leases d) (db_results d) (db_messages d) (db_acks d) (db_candidates d) (db_candidate_states d)
  (db_rollbacks d) (db_findings d) (db_dispositions d).
Definition set_run_states t d := MkDB (db_sessions d) (db_runs d) t (db_idempotency d) (db_plan_nodes d) (db_gates d)
  (db_gate_states d) (db_leases d) (db_results d) (db_messages d) (db_acks d) (db_candidates d) (db_candidate_states d)
  (db_rollbacks d) (db_findings d) (db_dispositions d).
Definition set_idempotency t d := MkDB (db_sessions d) (db_runs d) (db_run_states d) t (db_plan_nodes d) (db_gates d)
  (db_gate_states d) (db_leases d) (db_results d) (db_messages d) (db_acks d) (db_candidates d) (db_candidate_states d)
  (db_rollbacks d) (db_findings d) (db_dispositions d).
Definition set_plan_nodes t d := MkDB (db_sessions d) (db_runs d) (db_run_states d) (db_idempotency d) t (db_gates d)
  (db_gate_states d) (db_leases d) (db_results d) (db_messages d) (db_acks d) (db_candidates d) (db_candidate_states d)
  (db_rollbacks d) (db_findings d) (db_dispositions d).
Definition set_gates t d := MkDB (db_sessions d) (db_runs d) (db_run_states d) (db_idempotency d) (db_plan_nodes d) t
  (db_gate_states d) (db_leases d) (db_results d) (db_messages d) (db_acks d) (db_candidates d) (db_candidate_states d)
  (db_rollbacks d) (db_findings d) (db_dispositions d).
Definition set_gate_states t d := MkDB (db_sessions d) (db_runs d) (db_run_states d) (db_idempotency d) (db_plan_nodes d)
  (db_gates d) t (db_leases d) (db_results d) (db_messages d) (db_acks d) (db_candidates d) (db_candidate_states d)
  (db_rollbacks d) (db_findings d) (db_dispositions d).
Definition set_leases t d := MkDB (db_sessions d) (db_runs d) (db_run_states d) (db_idempotency d) (db_plan_nodes d)
  (db_gates d) (db_gate_states d) t (db_results d) (db_messages d) (db_acks d) (db_candidates d) (db_candidate_states d)
  (db_rollbacks d) (db_findings d) (db_dispositions d).
Definition set_results t d := MkDB (db_sessions d) (db_runs d) (db_run_states d) (db_idempotency d) (db_plan_nodes d)
  (db_gates d) (db_gate_states d) (db_leases d) t (db_messages d) (db_acks d) (db_candidates d) (db_candidate_states d)
  (db_rollbacks d) (db_findings d) (db_dispositions d).
Definition set_messages t d := MkDB (db_sessions d) (db_runs d) (db_run_states d) (db_idempotency d) (db_plan_nodes d)
  (db_gates d) (db_gate_states d) (db_leases d) (db_results d) t (db_acks d) (db_candidates d) (db_candidate_states d)
  (db_rollbacks d) (db_findings d) (db_dispositions d).
Definition set_acks t d := MkDB (db_sessions d) (db_runs d) (db_run_states d) (db_idempotency d) (db_plan_nodes d)
  (db_gates d) (db_gate_states d) (db_leases d) (db_results d) (db_messages d) t (db_candidates d) (db_candidate_states d)
  (db_rollbacks d) (db_findings d) (db_dispositions d).
Definition set_candidates t d := MkDB (db_sessions d) (db_runs d) (db_run_states d) (db_idempotency d) (db_plan_nodes d)
  (db_gates d) (db_gate_states d) (db_leases d) (db_results d) (db_messages d) (db_acks d) t (db_candidate_states d)
  (db_rollbacks d) (db_findings d) (db_dispositions d).
Definition set_candidate_states t d := MkDB (db_sessions d) (db_runs d) (db_run_states d) (db_idempotency d)
  (db_plan_nodes d) (db_gates d) (db_gate_states d) (db_leases d) (db_results d) (db_messages d) (db_acks d)
  (db_candidates d) t (db_rollbacks d) (db_findings d) (db_dispositions d).
Definition set_rollbacks t d := MkDB (db_sessions d) (db_runs d) (db_run_states d) (db_idempotency d) (db_plan_nodes d)
  (db_gates d) (db_gate_states d) (db_leases d) (db_results d) (db_messages d) (db_acks d) (db_candidates d)
  (db_candidate_states d) t (db_findings d) (db_dispositions d).
Definition set_findings t d := MkDB (db_sessions d) (db_runs d) (db_run_states d) (db_idempotency d) (db_plan_nodes d)
  (db_gates d) (db_gate_states d) (db_leases d) (db_results d) (db_messages d) (db_acks d) (db_candidates d)
  (db_candidate_states d) (db_rollbacks d) t (db_dispositions d).
Definition set_dispositions t d := MkDB (db_sessions d) (db_runs d) (db_run_states d) (db_idempotency d) (db_plan_nodes d)
  (db_gates d) (db_gate_states d) (db_leases d) (db_results d) (db_messages d) (db_acks d) (db_candidates d)
  (db_candidate_states d) (db_rollbacks d) (db_findings d) t.

(** ** Queries *)

Definition is_run (k : RunKey) (r : runRow) : bool := bool_decide (rr_key r = k).
Definition is_node (k : RunKey) (n : string) (r : NodeRow) : bool := bool_decide (nr_key r = k) && String.eqb (nr_node r) n.
Definition is_gate (k : RunKey) (g : string) (r : GateRow) : bool := bool_decide (ga_key r = k) && String.eqb (ga_gate r) g.
Definition is_state (k : RunKey) (sub : string) (r : StateRow) : bool :=
  bool_decide (sr_key r = k) && String.eqb (sr_sub r) sub.

Definition run_exists (d : DB) (k : RunKey) : bool := existsb (is_run k) (db_runs d).
Definition node_exists (d : DB) (k : RunKey) (n : string) : bool := existsb (is_node k n) (db_plan_nodes d).
Definition gate_exists (d : DB) (k : RunKey) (g : string) : bool := existsb (is_gate k g) (db_gates d).

Definition states_of (t : list StateRow) (k : RunKey) (sub : string) : list StateRow := List.filter (is_state k sub) t.

Definition lookupRun (d : DB) (a : Identity) (runID : string) : option runRow :=
  List.find (is_run (run_key a runID)) (db_runs d).

Definition currentRunState (d : DB) (a : Identity) (runID : string) : result factory_error ChangeRunState :=
  match top_by sr_sequence (states_of (db_run_states d) (run_key a runID) "") with
  | None => Err ErrNotFoundOrDenied
  | Some r => runStateFromText (sr_state r)
  end.

Definition lookupIdempotency (d : DB) (a : Identity) (operation key : string) : option idempotencyRow :=
  List.find (fun r => String.eqb (ip_tenant r) (id_Tenant a) && String.eqb (ip_principal r) (id_Principal a)
                 && String.eqb (ip_operation r) operation && String.eqb (ip_key r) key) (db_idempotency d).

(** ** Inserts *)

Definition run_vocabulary : list string :=
  ["PLANNING"; "READY"; "RUNNING"; "REVIEW"; "CANDIDATE_READY"; "COMPLETED"; "FAILED"; "CANCELLED"].
Definition run_terminal : list string := ["COMPLETED"; "FAILED"; "CANCELLED"].
Definition gate_vocabulary : list string := ["PENDING"; "RUNNING"; "PASSED"; "FAILED"].
Definition gate_terminal : list string := ["PASSED"; "FAILED"].
Definition candidate_vocabulary : list string := ["PROPOSED"; "APPLIED"; "VERIFIED"; "REVIEWED"; "RETAINED"; "REJECTED"].
Definition candidate_terminal : list string := ["RETAINED"; "REJECTED"].

(** The state tables share their constraints: the vocabulary check, the foreign
    key [fk], the dense-append trigger (which implies the primary key) and the
    terminal trigger. *)
Definition insert_state (vocabulary terminal : list string) (fk : bool) (row : StateRow) (t : list StateRow)
    : option (list StateRow) :=
  let prior := states_of t (sr_key row) (sr_sub row) in
  if one_of vocabulary (sr_state row) && (0 <? sr_sequence row) && fk
     && (sr_sequence row =? coalesce_max sr_sequence prior + 1)
     && negb (existsb (fun r => one_of terminal (sr_state r)) prior)
  then Some (t ++ [row])%list else None.

(** The sequence is read first, then the row is inserted. *)
Definition next_state (t : list StateRow) (k : RunKey) (sub st : string) (at_ : Z) : StateRow :=
  MkState k sub (coalesce_max sr_sequence (states_of t k sub) + 1) st at_.

Definition of_insert {A} (o : option A) : result factory_error A :=
  match o with Some x => Ok x | None => Err ErrDatabase end.

Definition appendRunState (d : DB) (a : Identity) (runID : string) (state : ChangeRunState) (atMs : Z)
    : result factory_error DB :=
  do text <- runStateText state ;
  let k := run_key a runID in
  do t <- of_insert (insert_state run_vocabulary run_terminal (run_exists d k)
                       (next_state (db_run_states d) k "" text atMs) (db_run_states d)) ;
  Ok (set_run_states t d).

Definition insertIdempotency (d : DB) (a : Identity) (operation key requestDigest runID : string) (atMs : Z)
    : result factory_error DB :=
  if one_of ["admit"; "cancel"] operation && negb (String.eqb key "") && (len key <=? 512) && isHexDigest requestDigest
     && negb (bool_decide (is_Some (lookupIdempotency d a operation key))) && run_exists d (run_key a runID)
  then Ok (set_idempotency (db_idempotency d ++ [MkIdem (id_Tenant a) (id_Principal a) operation key requestDigest runID atMs])%list d)
  else Err ErrDatabase.

(** ** Lemmas: the state tables *)

Definition hist (t : list StateRow) (k : RunKey) (sub : string) : list string := sr_state <$> states_of t k sub.

Definition dense (t : list StateRow) : Prop := forall k sub, numbered sr_sequence (states_of t k sub).

Lemma states_of_snoc t row k sub :
  states_of (t ++ [row]) k sub =
  if is_state k sub row then (states_of t k sub ++ [row])%list else states_of t k sub.
Proof.
  unfold states_of. rewrite List.filter_app. cbn. destruct (is_state k sub row); [done|]. by rewrite app_nil_r.
Qed.

Lemma is_state_spec k sub row : is_state k sub row = true <-> sr_key row = k /\ sr_sub row = sub.
Proof. unfold is_state. rewrite andb_true_iff, bool_decide_eq_true, String.eqb_eq. done. Qed.

Lemma existsb_hist terminal t k sub :
  existsb (fun r => one_of terminal (sr_state r)) (states_of t k sub) = existsb (one_of terminal) (hist t k sub).
Proof. unfold hist. by induction (states_of t k sub) as [|r l IH]; cbn; [|rewrite IH]. Qed.

Lemma dense_nil : dense [].
Proof. by intros k sub. Qed.

Lemma hist_snoc t row k sub :
  hist (t ++ [row]) k sub = if is_state k sub row then (hist t k sub ++ [sr_state row])%list else hist t k sub.
Proof. unfold hist. rewrite states_of_snoc. destruct (is_state k sub row); [by rewrite fmap_app|done]. Qed.

Lemma last_hist t k sub : last (hist t k sub) = sr_state <$> last (states_of t k sub).
Proof. unfold hist. apply fmap_last. Qed.

(** Appending the next state succeeds exactly when the constraints hold, and extends one history by one entry. *)
Lemma insert_next vocabulary terminal fk t k sub st at_ :
  dense t ->
  insert_state vocabulary terminal fk (next_state t k sub st at_) t =
  if one_of vocabulary st && fk && negb (existsb (one_of terminal) (hist t k sub))
  then Some (t ++ [next_state t k sub st at_])%list else None.
Proof.
  intros Hd. unfold insert_state. cbn [sr_key sr_sub sr_sequence sr_state next_state].
  rewrite existsb_hist, Z.eqb_refl, (coalesce_max_numbered _ _ (Hd k sub)).
  rewrite (proj2 (Z.ltb_lt _ _)) by lia. by rewrite !andb_true_r.
Qed.

Lemma dense_next t k sub st at_ : dense t -> dense (t ++ [next_state t k sub st at_]).
Proof.
  intros Hd k' sub'. rewrite states_of_snoc. destruct (is_state k' sub' _) eqn:E; [|done].
  apply is_state_spec in E as [<- <-]. cbn. apply numbered_add; [done|]. cbn.
  by rewrite (coalesce_max_numbered _ _ (Hd _ _)).
Qed.

Lemma hist_next t k sub st at_ k' sub' :
  hist (t ++ [next_state t k sub st at_]) k' sub' =
  if bool_decide (k = k') && String.eqb sub sub' then (hist t k' sub' ++ [st])%list else hist t k' sub'.
Proof. apply hist_snoc. Qed.

Lemma currentRunState_hist d a runID :
  dense (db_run_states d) ->
  currentRunState d a runID =
  match last (hist (db_run_states d) (run_key a runID) "") with
  | None => Err ErrNotFoundOrDenied
  | Some s => runStateFromText s
  end.
Proof.
  intros Hd. unfold currentRunState. rewrite (top_by_numbered _ _ (Hd _ _)), last_hist.
  by destruct (last _).
Qed.
