(* ===== verification/FactoryRoster.v ===== *)
(** * factory: fenced leases and leaf results

    Models [services/brain/internal/factory/roster/roster.go]: densely fenced
    leases per leaf, authorisation of the current unexpired fence, and the
    exactly-once commit of a leaf result.  [now] is what the injected clock
    reads at each call. *)

From Stdlib Require Import Ascii String.
From S2P Require Import Prelude GoString GoPath Float64 Runtime SqlTable FactoryTypes FactoryStore.
Open Scope string_scope.
Open Scope Z_scope.

(** The same body as [validPrincipalID]; the mailbox has it too. *)
Definition validID (v : string) : bool := negb (String.eqb v "" || (512 <? len v)) && printable v.

Definition valid_scope (k : RunKey) : bool := validID (rk_tenant k) && validID (rk_principal k) && validID (rk_run k).

(** What [CommitResult] and [Result] return: the lease it was committed under and the row. *)
Record Result := MkResultValue {
  re_Lease : Lease; re_ArtifactID : string; re_Digest : string; re_CommittedAtMs : Z; re_Replayed : bool
}.

Definition is_lease (k : RunKey) (n : string) (l : Lease) : bool := bool_decide (le_key l = k) && String.eqb (le_NodeID l) n.
Definition is_result (k : RunKey) (n : string) (r : ResultRow) : bool := bool_decide (rs_key r = k) && String.eqb (rs_node r) n.

Definition leases_of (d : DB) (k : RunKey) (n : string) : list Lease := List.filter (is_lease k n) (db_leases d).

Section roster.
Context `{GoRuntime}.

(** The lease table: positive dense fences, unique lease identity per leaf, an existing plan node. *)
Definition insert_lease (d : DB) (l : Lease) : result factory_error DB :=
  let prior := leases_of d (le_key l) (le_NodeID l) in
  if (0 <? le_Fence l) && (le_Fence l =? coalesce_max le_Fence prior + 1)
     && negb (existsb (fun p => String.eqb (le_LeaseID p) (le_LeaseID l)) prior)
     && node_exists d (le_key l) (le_NodeID l)
  then Ok (set_leases (db_leases d ++ [l])%list d)
  else Err ErrDatabase.

Definition lease_identity (k : RunKey) (node : string) (fence : Z) : string :=
  identity "ouroboros.stage05.lease.v1" [rk_tenant k; rk_principal k; rk_run k; node; dec fence].

Definition Issue (now : Z) (d : DB) (l : Lease) : result factory_error (Lease * DB) :=
  if negb (valid_scope (le_key l)) || negb (validID (le_NodeID l)) || negb (validID (le_HolderPrincipalID l))
     || (le_ExpiresAtMs l <=? 0)
  then Err RosterInvalidInput
  else
    let fence := coalesce_max le_Fence (leases_of d (le_key l) (le_NodeID l)) + 1 in
    let l := MkLease (le_key l) (le_NodeID l) fence (lease_identity (le_key l) (le_NodeID l) fence)
               (le_HolderPrincipalID l) now (le_ExpiresAtMs l) in
    do d' <- insert_lease d l ;
    Ok (l, d').

Definition Current (d : DB) (k : RunKey) (node : string) : result factory_error (option Lease) :=
  if negb (valid_scope k) || negb (validID node) then Err RosterInvalidInput
  else Ok (top_by le_Fence (leases_of d k node)).

Definition Authorize (now : Z) (d : DB) (k : RunKey) (node : string) (fence : Z) : result factory_error Lease :=
  if fence =? 0 then Err RosterInvalidInput
  else
    do cur <- Current d k node ;
    match cur with
    | None => Err ErrStaleFence
    | Some l => if negb (le_Fence l =? fence) || (le_ExpiresAtMs l <=? now) then Err ErrStaleFence else Ok l
    end.

(** The returned lease is the argument's with the stored fence. *)
Definition lookupResult (d : DB) (l : Lease) : option Result :=
  match List.find (is_result (le_key l) (le_NodeID l)) (db_results d) with
  | None => None
  | Some r =>
      Some (MkResultValue
        (MkLease (le_key l) (le_NodeID l) (rs_fence r) (le_LeaseID l) (le_HolderPrincipalID l) (le_IssuedAtMs l) (le_ExpiresAtMs l))
        (rs_artifact r) (rs_digest r) (rs_committedAtMs r) false)
  end.

(** The result table: one row per leaf, positive fence, hex digest, an existing plan node. *)
Definition insert_result (d : DB) (r : ResultRow) : result factory_error DB :=
  if (0 <? rs_fence r) && isHexDigest (rs_digest r) && negb (existsb (is_result (rs_key r) (rs_node r)) (db_results d))
     && node_exists d (rs_key r) (rs_node r)
  then Ok (set_results (db_results d ++ [r])%list d)
  else Err ErrDatabase.

(** [now1] is read by [Authorize], [now2] is the commit instant. *)
Definition CommitResult (now1 now2 : Z) (d : DB) (k : RunKey) (node : string) (fence : Z) (artifact digest : string)
    : result factory_error (Result * DB) :=
  if negb (validID artifact) || negb (isHexDigest digest) then Err RosterInvalidInput
  else
    do lease <- Authorize now1 d k node fence ;
    match lookupResult d lease with
    | Some existing =>
        if (le_Fence (re_Lease existing) =? le_Fence lease) && String.eqb (re_Digest existing) digest
        then Ok (MkResultValue (re_Lease existing) (re_ArtifactID existing) (re_Digest existing)
                   (re_CommittedAtMs existing) true, d)
        else Err ErrResultConflict
    | None =>
        do d' <- insert_result d (MkResult (le_key lease) (le_NodeID lease) (le_Fence lease) artifact digest now2) ;
        Ok (MkResultValue lease artifact digest now2 false, d')
    end.

Definition zero_lease (k : RunKey) (node : string) : Lease := MkLease k node 0 "" "" 0 0.

(** The method [Result]. *)
Definition Result_ (d : DB) (k : RunKey) (node : string) : result factory_error (option Result) :=
  if negb (valid_scope k) || negb (validID node) then Err RosterInvalidInput
  else Ok (lookupResult d (zero_lease k node)).

(** ** Lemmas *)

Definition fenced (d : DB) : Prop := forall k n, numbered le_Fence (leases_of d k n).

Lemma is_lease_spec k n l : is_lease k n l = true <-> le_key l = k /\ le_NodeID l = n.
Proof. unfold is_lease. by rewrite andb_true_iff, bool_decide_eq_true, String.eqb_eq. Qed.

Lemma is_result_spec k n r : is_result k n r = true <-> rs_key r = k /\ rs_node r = n.
Proof. unfold is_result. by rewrite andb_true_iff, bool_decide_eq_true, String.eqb_eq. Qed.

Lemma leases_of_add d l k n :
  leases_of (set_leases (db_leases d ++ [l])%list d) k n =
  if is_lease k n l then (leases_of d k n ++ [l])%list else leases_of d k n.
Proof. unfold leases_of. cbn. rewrite List.filter_app. cbn. destruct (is_lease k n l); [done|]. by rewrite app_nil_r. Qed.

(** The outcome of a successful [Issue]. *)
Lemma Issue_spec now d l l' d' :
  Issue now d l = Ok (l', d') ->
  d' = set_leases (db_leases d ++ [l'])%list d /\ le_key l' = le_key l /\ le_NodeID l' = le_NodeID l /\
  le_Fence l' = coalesce_max le_Fence (leases_of d (le_key l) (le_NodeID l)) + 1 /\
  le_ExpiresAtMs l' = le_ExpiresAtMs l /\ node_exists d (le_key l) (le_NodeID l) = true.
Proof. unfold Issue, insert_lease. intros Hi. res_inv. bool_prop. done. Qed.

Lemma Issue_fenced now d l l' d' : fenced d -> Issue now d l = Ok (l', d') -> fenced d'.
Proof.
  intros Hf (-> & Hk & Hn & Hfe & _)%Issue_spec k n. rewrite leases_of_add.
  destruct (is_lease k n l') eqn:E; [|done]. apply is_lease_spec in E as [<- <-].
  apply numbered_add; [apply Hf|]. rewrite Hfe, Hk, Hn. by rewrite (coalesce_max_numbered _ _ (Hf _ _)).
Qed.

(** The presented fence is authorised exactly when it is the last one issued and has not expired. *)
Lemma Authorize_spec now d k n fence l :
  fenced d ->
  Authorize now d k n fence = Ok l <->
  valid_scope k = true /\ validID n = true /\ last (leases_of d k n) = Some l /\ le_Fence l = fence /\ now < le_ExpiresAtMs l.
Proof.
  intros Hf. unfold Authorize, Current. rewrite (top_by_numbered _ _ (Hf k n)). split.
  - intros Ha. res_inv. bool_prop. done.
  - intros (-> & -> & Hl & <- & Hlt). cbn. rewrite Hl. cbn.
    rewrite Z.eqb_refl, (proj2 (Z.leb_gt _ _) Hlt). destruct (Z.eqb_spec (le_Fence l) 0); [|done].
    pose proof (numbered_bounds _ _ (Hf k n)) as Hb. rewrite Forall_forall in Hb.
    specialize (Hb l (last_Some_elem_of _ _ Hl)). lia.
Qed.

Lemma lookupResult_None d l :
  lookupResult d l = None <-> existsb (is_result (le_key l) (le_NodeID l)) (db_results d) = false.
Proof.
  unfold lookupResult. destruct (List.find _ _) as [r|] eqn:E.
  - split; [done|]. apply List.find_some in E as [Hin Hr]. intros Hex.
    assert (existsb (is_result (le_key l) (le_NodeID l)) (db_results d) = true) by (apply existsb_exists; eauto). congruence.
  - split; [|done]. intros _. apply Bool.not_true_iff_false. intros (r & Hin & Hr)%existsb_exists.
    pose proof (List.find_none _ _ E r Hin). congruence.
Qed.

Lemma lookupResult_Some d l res :
  lookupResult d l = Some res ->
  exists r, r ∈ db_results d /\ rs_key r = le_key l /\ rs_node r = le_NodeID l /\
    le_Fence (re_Lease res) = rs_fence r /\ re_Digest res = rs_digest r.
Proof.
  unfold lookupResult. destruct (List.find _ _) as [r|] eqn:E; [|done]. intros [= <-].
  apply List.find_some in E as [Hin [Hk Hn]%is_result_spec]. exists r. split_and!; try done. by apply list_elem_of_In.
Qed.

(** A successful commit is authorised by the last fence and either repeats the recorded result or adds the first one. *)
Lemma CommitResult_cases now1 now2 d k n fence artifact digest res d' :
  fenced d -> CommitResult now1 now2 d k n fence artifact digest = Ok (res, d') ->
  exists l, last (leases_of d k n) = Some l /\ le_Fence l = fence /\ now1 < le_ExpiresAtMs l /\ re_Digest res = digest /\
    le_Fence (re_Lease res) = fence /\ isHexDigest digest = true /\
    ((re_Replayed res = true /\ d' = d /\
      exists r, r ∈ db_results d /\ rs_key r = k /\ rs_node r = n /\ rs_fence r = fence /\ rs_digest r = digest) \/
     (re_Replayed res = false /\ existsb (is_result k n) (db_results d) = false /\ node_exists d k n = true /\
      d' = set_results (db_results d ++ [MkResult k n fence artifact digest now2])%list d)).
Proof.
  intros Hf Hc. unfold CommitResult in Hc.
  destruct (negb (validID artifact) || negb (isHexDigest digest)) eqn:Hv; [done|]. apply orb_false_iff in Hv as [_ Hh%negb_false_iff].
  destruct (Authorize now1 d k n fence) as [l|] eqn:Ha; cbn [rbind] in Hc; [|done].
  apply (Authorize_spec _ _ _ _ _ _ Hf) in Ha as (_ & _ & Hl & <- & Hlt).
  assert (le_key l = k /\ le_NodeID l = n) as [<- <-].
  { apply is_lease_spec. apply last_Some_elem_of, list_elem_of_In in Hl. apply filter_In in Hl. by destruct Hl. }
  exists l. destruct (lookupResult d l) as [ex|] eqn:El.
  - destruct (_ && _) eqn:E; [|done]. bool_prop. injection Hc as <- <-. cbn.
    apply lookupResult_Some in El as (r & Hr & Hk & Hn & Hfe & Hd).
    match goal with H : String.eqb _ _ = true |- _ => apply String.eqb_eq in H end.
    split_and!; try congruence. left. split_and!; [done|done|]. exists r. split_and!; congruence.
  - apply lookupResult_None in El. unfold insert_result in Hc. cbn in Hc. rewrite El in Hc.
    destruct (_ && _) eqn:E; cbn in Hc; [|done]. bool_prop. injection Hc as <- <-. cbn.
    split_and!; try done. right. done.
Qed.
End roster.
