(* ===== verification/FactoryMailbox.v ===== *)
(** * factory: the durable mailbox

    Models [services/brain/internal/factory/mailbox/mailbox.go]: messages with a
    dense sequence per task, replay-safe sends, unexpired delivery and
    acknowledgements. *)

From Stdlib Require Import Ascii String.
From S2P Require Import Prelude GoString GoPath Float64 Runtime SqlTable FactoryTypes FactoryStore FactoryRoster.
Open Scope string_scope.
Open Scope Z_scope.

(** ** Messages *)

Definition mailbox_kinds : list string :=
  ["QUESTION"; "ANSWER"; "FINDING"; "EVIDENCE"; "DEPENDENCY_READY"; "BLOCKED"; "HANDOVER"; "REVIEW_REQUEST";
   "REVIEW_RESULT"; "CORRECTION"; "CANCELLATION"].

Definition validKind (kind : string) : bool := one_of mailbox_kinds kind.

Record Message := MkMessage {
  ms_key : RunKey; ms_TaskID : string; ms_MessageID : string; ms_Kind : string; ms_CorrelationID : string;
  ms_CausationID : string; ms_SenderPrincipalID : string; ms_PayloadArtifactID : string; ms_PayloadDigest : string;
  ms_ExpiresAtMs : Z
}.

Record SendResult := MkSend { sd_Sequence : Z; sd_Replayed : bool }.

Record Received := MkReceived { rv_Message : Message; rv_Sequence : Z; rv_SentAtMs : Z; rv_AcknowledgedAtMs : Z }.

Definition validMessage (m : Message) : bool :=
  valid_scope (ms_key m) && validID (ms_TaskID m) && validID (ms_MessageID m) && validKind (ms_Kind m)
  && validID (ms_SenderPrincipalID m) && validID (ms_PayloadArtifactID m) && isHexDigest (ms_PayloadDigest m)
  && (0 <=? ms_ExpiresAtMs m) && (len (ms_CorrelationID m) <=? 512) && (len (ms_CausationID m) <=? 512).

Definition nullIfZero (v : Z) : option Z := if v =? 0 then None else Some v.

(** ** Queries *)

Definition is_message (k : RunKey) (id : string) (r : MessageRow) : bool :=
  bool_decide (mr_key r = k) && String.eqb (mr_message r) id.
Definition is_task (k : RunKey) (task : string) (r : MessageRow) : bool :=
  bool_decide (mr_key r = k) && String.eqb (mr_task r) task.
Definition is_ack (k : RunKey) (id : string) (r : AckRow) : bool :=
  bool_decide (ak_key r = k) && String.eqb (ak_message r) id.

Definition lookup_message (d : DB) (k : RunKey) (id : string) : option MessageRow :=
  List.find (is_message k id) (db_messages d).

Definition task_messages (d : DB) (k : RunKey) (task : string) : list MessageRow :=
  List.filter (is_task k task) (db_messages d).

(** The method [Lookup]: only the columns the ledger reads back. *)
Definition Lookup (d : DB) (k : RunKey) (id : string) : result factory_error (option (Message * Z)) :=
  if negb (valid_scope k) || negb (validID id) then Err MailboxInvalidInput
  else Ok (match lookup_message d k id with
           | None => None
           | Some r => Some (MkMessage k (mr_task r) id (mr_kind r) "" "" "" (mr_artifact r) (mr_digest r) 0, mr_sequence r)
           end).

(** ** Sending *)

Definition insert_message (d : DB) (r : MessageRow) : result factory_error DB :=
  if one_of mailbox_kinds (mr_kind r) && (0 <? mr_sequence r) && isHexDigest (mr_digest r)
     && negb (existsb (is_message (mr_key r) (mr_message r)) (db_messages d))
     && (mr_sequence r =? coalesce_max mr_sequence (task_messages d (mr_key r) (mr_task r)) + 1)
     && run_exists d (mr_key r) && node_exists d (mr_key r) (mr_task r)
  then Ok (set_messages (db_messages d ++ [r])%list d)
  else Err ErrDatabase.

Definition Send (now : Z) (d : DB) (m : Message) : result factory_error (SendResult * DB) :=
  if negb (validMessage m) then Err MailboxInvalidInput
  else
    match lookup_message d (ms_key m) (ms_MessageID m) with
    | Some existing =>
        if String.eqb (mr_task existing) (ms_TaskID m) && String.eqb (mr_kind existing) (ms_Kind m)
           && String.eqb (mr_digest existing) (ms_PayloadDigest m)
        then Ok (MkSend (mr_sequence existing) true, d)
        else Err ErrMessageConflict
    | None =>
        let sequence := coalesce_max mr_sequence (task_messages d (ms_key m) (ms_TaskID m)) + 1 in
        do d' <- insert_message d
          (MkMessageRow (ms_key m) (ms_MessageID m) (ms_TaskID m) (ms_Kind m) sequence (ms_CorrelationID m)
             (ms_CausationID m) (ms_SenderPrincipalID m) (ms_PayloadArtifactID m) (ms_PayloadDigest m)
             (nullIfZero (ms_ExpiresAtMs m)) now) ;
        Ok (MkSend sequence false, d')
    end.

(** ** Delivery and acknowledgement *)

(** The left join: at most one acknowledgement per message. *)
Definition received (d : DB) (r : MessageRow) : Received :=
  MkReceived
    (MkMessage (mr_key r) (mr_task r) (mr_message r) (mr_kind r) (mr_correlation r) (mr_causation r) (mr_sender r)
       (mr_artifact r) (mr_digest r) (default 0 (mr_expires r)))
    (mr_sequence r) (mr_sentAtMs r)
    (match List.find (is_ack (mr_key r) (mr_message r)) (db_acks d) with Some a => ak_at a | None => 0 end).

Definition unexpired (now : Z) (x : Received) : bool :=
  let e := ms_ExpiresAtMs (rv_Message x) in negb ((0 <? e) && (e <=? now)).

Definition Pending (now : Z) (d : DB) (k : RunKey) (task : string) : result factory_error (list Received) :=
  if negb (valid_scope k) || negb (validID task) then Err MailboxInvalidInput
  else Ok (List.filter (unexpired now)
             (map (received d) (sort_by (on_key mr_sequence Z.ltb) (task_messages d k task)))).

Definition insert_ack (d : DB) (r : AckRow) : result factory_error DB :=
  if negb (existsb (is_ack (ak_key r) (ak_message r)) (db_acks d))
     && existsb (is_message (ak_key r) (ak_message r)) (db_messages d)
  then Ok (set_acks (db_acks d ++ [r])%list d)
  else Err ErrDatabase.

(** [true]: a replay. *)
Definition Acknowledge (now : Z) (d : DB) (k : RunKey) (id : string) : result factory_error (bool * DB) :=
  if negb (valid_scope k) || negb (validID id) then Err MailboxInvalidInput
  else
    match lookup_message d k id with
    | None => Err ErrUnknownMessage
    | Some _ =>
        if (length (List.filter (is_ack k id) (db_acks d)) =? 1)%nat then Ok (true, d)
        else do d' <- insert_ack d (MkAck k id now) ; Ok (false, d')
    end.

(** ** Lemmas *)

(** Every task's messages are numbered from 1 in arrival order, and identities are unique. *)
Record mailbox_inv (d : DB) : Prop := {
  mi_dense : forall k task, numbered mr_sequence (task_messages d k task);
  mi_unique : NoDup ((fun r => (mr_key r, mr_message r)) <$> db_messages d)
}.

Lemma is_message_spec k id r : is_message k id r = true <-> mr_key r = k /\ mr_message r = id.
Proof. unfold is_message. by rewrite andb_true_iff, bool_decide_eq_true, String.eqb_eq. Qed.

Lemma is_task_spec k task r : is_task k task r = true <-> mr_key r = k /\ mr_task r = task.
Proof. unfold is_task. by rewrite andb_true_iff, bool_decide_eq_true, String.eqb_eq. Qed.

Lemma task_messages_add d r k task :
  task_messages (set_messages (db_messages d ++ [r])%list d) k task =
  if is_task k task r then (task_messages d k task ++ [r])%list else task_messages d k task.
Proof. unfold task_messages. cbn. rewrite List.filter_app. cbn. destruct (is_task k task r); [done|]. by rewrite app_nil_r. Qed.

Lemma lookup_message_Some d k id r :
  lookup_message d k id = Some r -> r ∈ db_messages d /\ mr_key r = k /\ mr_message r = id.
Proof.
  unfold lookup_message. intros [Hin [<- <-]%is_message_spec]%List.find_some. split; [by apply list_elem_of_In|done].
Qed.

Lemma lookup_message_None d k id : lookup_message d k id = None <-> existsb (is_message k id) (db_messages d) = false.
Proof.
  unfold lookup_message. split.
  - intros E. apply Bool.not_true_iff_false. intros (r & Hin & Hr)%existsb_exists.
    pose proof (List.find_none _ _ E r Hin). congruence.
  - intros E. destruct (List.find _ _) as [r|] eqn:F; [|done]. apply List.find_some in F as [Hin Hr].
    assert (existsb (is_message k id) (db_messages d) = true) by (apply existsb_exists; eauto). congruence.
Qed.

(** A successful send either repeats a recorded message or appends one at the next sequence of its task. *)
Lemma Send_cases now d m s d' :
  Send now d m = Ok (s, d') ->
  (sd_Replayed s = true /\ d' = d /\
   exists r, lookup_message d (ms_key m) (ms_MessageID m) = Some r /\ mr_task r = ms_TaskID m /\ mr_kind r = ms_Kind m /\
     mr_digest r = ms_PayloadDigest m /\ mr_sequence r = sd_Sequence s) \/
  (sd_Replayed s = false /\ lookup_message d (ms_key m) (ms_MessageID m) = None /\
   sd_Sequence s = coalesce_max mr_sequence (task_messages d (ms_key m) (ms_TaskID m)) + 1 /\
   run_exists d (ms_key m) = true /\ node_exists d (ms_key m) (ms_TaskID m) = true /\
   exists r, d' = set_messages (db_messages d ++ [r])%list d /\ mr_key r = ms_key m /\ mr_message r = ms_MessageID m /\
     mr_task r = ms_TaskID m /\ mr_kind r = ms_Kind m /\ mr_digest r = ms_PayloadDigest m /\ mr_sequence r = sd_Sequence s).
Proof.
  unfold Send. destruct (negb (validMessage m)); [done|].
  destruct (lookup_message d (ms_key m) (ms_MessageID m)) as [r|] eqn:El.
  - destruct (_ && _) eqn:E; [|done]. intros [= <- <-]. left. bool_prop.
    repeat match goal with H : String.eqb _ _ = true |- _ => apply String.eqb_eq in H end.
    split_and!; [done|done|]. by exists r.
  - unfold insert_message. cbn. destruct (_ && _) eqn:E; cbn; [|done]. intros [= <- <-]. right. bool_prop.
    split_and!; try done. eexists. split; [reflexivity|]. done.
Qed.

Lemma message_inv d r :
  mailbox_inv d -> lookup_message d (mr_key r) (mr_message r) = None ->
  mr_sequence r = coalesce_max mr_sequence (task_messages d (mr_key r) (mr_task r)) + 1 ->
  mailbox_inv (set_messages (db_messages d ++ [r])%list d).
Proof.
  intros [Hd Hu] Hn Hs. split.
  - intros k task. rewrite task_messages_add. destruct (is_task k task r) eqn:E; [|done].
    apply is_task_spec in E as [<- <-]. apply numbered_add; [apply Hd|].
    by rewrite Hs, (coalesce_max_numbered _ _ (Hd _ _)).
  - cbn. rewrite fmap_app. cbn. apply NoDup_app. split_and!; [done| |apply NoDup_singleton].
    intros x (y & -> & Hy)%list_elem_of_fmap Hx. apply list_elem_of_singleton in Hx as [= Ek Em].
    apply lookup_message_None in Hn. apply Bool.not_true_iff_false in Hn. apply Hn, existsb_exists.
    exists y. split; [by apply list_elem_of_In|]. apply is_message_spec. by rewrite Ek, Em.
Qed.
