(* ===== verification/FactoryPlan.v ===== *)
(** * factory: plans and candidate previews

    Models [plan.go], [routing.go] and [validate.go] of
    [services/brain/internal/factory]: the shape rules of the leaf
    decomposition, the compiled one-layer plan, and the validation of a
    candidate preview.  The generated contract types keep the fields the code
    reads; [protovalidate] is third-party code, a parameter. *)

From Stdlib Require Import Ascii String.
From S2P Require Import Prelude GoString GoPath Float64 Runtime SqlTable FactoryTypes FactoryStore.
Open Scope string_scope.
Open Scope Z_scope.

(** ** Patterns *)

Definition lower_char (c : ascii) : bool := in_range 97 122 c.
Definition digit_char (c : ascii) : bool := in_range 48 57 c.

(** [^[first][rest]*$] with at most [n] further characters. *)
Fixpoint all_chars (f : ascii -> bool) (s : string) : bool :=
  match s with EmptyString => true | String c s' => f c && all_chars f s' end.

Definition matches (first rest : ascii -> bool) (n : Z) (s : string) : bool :=
  match s with
  | EmptyString => false
  | String c s' => first c && all_chars rest s' && (len s' <=? n)
  end.

Definition nodeIDPattern : string -> bool :=
  matches lower_char (fun c => lower_char c || digit_char c || Ascii.eqb c "-") 63.
Definition modelIdentityPattern : string -> bool :=
  matches (fun c => lower_char c || digit_char c)
    (fun c => lower_char c || digit_char c || Ascii.eqb c "." || Ascii.eqb c "_" || Ascii.eqb c ":" || Ascii.eqb c "-") 127.
Definition rationaleCodePattern (s : string) : bool :=
  matches lower_char (fun c => lower_char c || digit_char c || Ascii.eqb c "_") (len s) s.
Definition reviewerFamilyPattern : string -> bool :=
  matches (fun c => lower_char c || digit_char c)
    (fun c => lower_char c || digit_char c || Ascii.eqb c "." || Ascii.eqb c "_" || Ascii.eqb c "-") 63.

(** ** Leaves *)

Record LeafSpec := MkLeaf {
  lf_NodeID : string; lf_Goal : string; lf_OwnedPaths : list string; lf_ForbiddenPaths : list string; lf_HolderPrincipal : string
}.

Definition orchestratorNodeID : string := "orchestrator".
Definition reviewNodeID : string := "review".
Definition leafGrantAction : string := "factory.leaf.execute".

Section plan.
Context `{GoRuntime}.

Definition scopes_overlap (a b : LeafSpec) : bool :=
  existsb (fun first => existsb (fun second => pathsCollide first second) (lf_OwnedPaths b)) (lf_OwnedPaths a).

(** The body of the loop over the leaves; [rest] are the leaves after this one. *)
Definition check_leaf (approvedScope seen : list string) (leaf : LeafSpec) (rest : list LeafSpec)
    : result factory_error unit :=
  fail_if (negb (nodeIDPattern (lf_NodeID leaf))) ErrPlanInvalid
  (fail_if (one_of seen (lf_NodeID leaf)) ErrPlanInvalid
  (fail_if (negb (String.eqb (lf_HolderPrincipal leaf) "") && negb (validPrincipalID (lf_HolderPrincipal leaf))) ErrPlanInvalid
  (fail_if (len (lf_Goal leaf) =? 0) ErrPlanInvalid
  (fail_if ((length (lf_OwnedPaths leaf) =? 0)%nat || (64 <? Z.of_nat (length (lf_OwnedPaths leaf)))
            || (64 <? Z.of_nat (length (lf_ForbiddenPaths leaf)))) ErrPlanInvalid
  (fail_if (negb (forallb (fun p => validRepositoryPath p && pathWithinScope p approvedScope) (lf_OwnedPaths leaf))) ErrPlanInvalid
  (fail_if (negb (forallb validRepositoryPath (lf_ForbiddenPaths leaf))) ErrPlanInvalid
  (fail_if (existsb (scopes_overlap leaf) rest) ErrPlanInvalid
  (Ok tt)))))))).

Fixpoint check_leaves (approvedScope seen : list string) (leaves : list LeafSpec) : result factory_error unit :=
  match leaves with
  | [] => Ok tt
  | leaf :: rest =>
      do _ <- check_leaf approvedScope seen leaf rest ;
      check_leaves approvedScope (lf_NodeID leaf :: seen) rest
  end.

Definition validateLeafSpecs (leaves : list LeafSpec) (approvedScope : list string) : result factory_error unit :=
  fail_if ((length leaves =? 0)%nat || (3 <? Z.of_nat (length leaves))) ErrPlanInvalid
  (fail_if ((length approvedScope =? 0)%nat || (64 <? Z.of_nat (length approvedScope))) ErrPlanInvalid
  (fail_if (negb (forallb validRepositoryPath approvedScope)) ErrPlanInvalid
  (check_leaves approvedScope [orchestratorNodeID; reviewNodeID] leaves))).

(** ** Routing *)

Record RouteRequest := MkRouteRequest { rq_RunID : string; rq_NodeID : string; rq_GoalDigestHex : string; rq_OwnedPaths : list string }.
Record RouteDecision := MkRoute { ro_ProfileDigestHex : string; ro_ModelIdentity : string; ro_RationaleCode : string }.

Definition valid_route (r : RouteDecision) : bool :=
  isHexDigest (ro_ProfileDigestHex r) && modelIdentityPattern (ro_ModelIdentity r)
  && negb (String.eqb (ro_RationaleCode r) "") && (len (ro_RationaleCode r) <=? 64) && rationaleCodePattern (ro_RationaleCode r).

Definition NewStaticRouter (profileDigestHex modelIdentity rationaleCode : string) : result factory_error RouteDecision :=
  let r := MkRoute profileDigestHex modelIdentity rationaleCode in
  if negb (isHexDigest profileDigestHex) || negb (modelIdentityPattern modelIdentity) || (len rationaleCode =? 0)
     || (64 <? len rationaleCode) || negb (rationaleCodePattern rationaleCode)
  then Err ErrInvalidInput else Ok r.

Definition StaticRouter_Route (r : RouteDecision) (q : RouteRequest) : result factory_error RouteDecision :=
  if String.eqb (rq_RunID q) "" || String.eqb (rq_NodeID q) "" || negb (isHexDigest (rq_GoalDigestHex q))
     || (length (rq_OwnedPaths q) =? 0)%nat
  then Err ErrInvalidInput else Ok r.

(** ** The compiled plan *)

Inductive PlanNodeKind := KindOrchestrator | KindLeaf | KindReview.

(** One lease and one grant per leaf, both at fence 1. *)
Record PlanGrant := MkPlanGrant {
  pg_GrantID : string; pg_Initiator : string * string * string; pg_TaskID : string; pg_WorkflowID : string;
  pg_LeaseID : string; pg_Holder : string; pg_Fence : Z; pg_Actions : list string; pg_Resources : list string;
  pg_RepositoryGitOid : string; pg_AllowedPaths : list string; pg_Nonce : string; pg_RevocationEpoch : Z;
  pg_ExpiresAtMs : Z; pg_PolicyDigest : string; pg_CommandFence : Z
}.

Record PlanNode := MkPlanNode {
  pn_NodeID : string; pn_Kind : PlanNodeKind; pn_GoalDigest : string; pn_OwnedPaths : list string;
  pn_ForbiddenPaths : list string; pn_Route : option RouteDecision; pn_Grant : option PlanGrant
}.

Record GateSpec := MkGateSpec {
  gs_Namespace : string; gs_GateID : string; gs_Kind : FactoryGateKind; gs_Required : bool; gs_Status : FactoryGateStatus
}.

Record ChangePlan := MkPlan {
  pl_PlanID : string; pl_RunID : string; pl_State : ChangeRunState; pl_Nodes : list PlanNode;
  pl_Edges : list (string * string); pl_Gates : list GateSpec
}.

Record stagedPayload := MkStaged { sp_artifactID : string; sp_digestHex : string }.

Record compiledNode := MkCompiled {
  cn_node : PlanNode; cn_goalArtifactID : string; cn_goalDigestHex : string; cn_leaseHolder : string; cn_leaseExpiresAt : Z
}.

Definition holder_of (leaf : LeafSpec) : string :=
  if String.eqb (lf_HolderPrincipal leaf) "" then lf_NodeID leaf ++ "-worker" else lf_HolderPrincipal leaf.

(** What the kernel binds into every leaf of a run. *)
Record PlanContext := MkPlanContext {
  pc_identity : Identity; pc_runID : string; pc_planID : string; pc_repositoryGitOid : string;
  pc_goals : list (string * stagedPayload); pc_now : Z; pc_leaseTTL : Z; pc_epoch : Z; pc_policyDigest : string;
  pc_route : RouteRequest -> result factory_error RouteDecision
}.

(** A missing map entry reads as the zero value. *)
Definition goal_of (c : PlanContext) (node : string) : stagedPayload :=
  match List.find (fun p => String.eqb (fst p) node) (pc_goals c) with
  | Some p => snd p
  | None => MkStaged "" ""
  end.

Definition compile_leaf (c : PlanContext) (leaf : LeafSpec) : result factory_error compiledNode :=
  let staged := goal_of c (lf_NodeID leaf) in
  let holder := holder_of leaf in
  match pc_route c (MkRouteRequest (pc_runID c) (lf_NodeID leaf) (sp_digestHex staged) (lf_OwnedPaths leaf)) with
  | Err e => Err e
  | Ok route =>
      if negb (valid_route route) then Err ErrInvalidInput
      else
        let a := pc_identity c in
        let expiresAt := wrap64 (pc_now c + pc_leaseTTL c) in
        let leaseID := identity "ouroboros.stage05.lease.v1" [id_Tenant a; id_Principal a; pc_runID c; lf_NodeID leaf; "1"] in
        let grant := {|
          pg_GrantID := identity "ouroboros.stage05.grant.v1" [pc_runID c; lf_NodeID leaf];
          pg_Initiator := (id_Principal a, id_Tenant a, id_Session a);
          pg_TaskID := lf_NodeID leaf; pg_WorkflowID := pc_runID c; pg_LeaseID := leaseID; pg_Holder := holder;
          pg_Fence := 1; pg_Actions := [leafGrantAction]; pg_Resources := [id_Tenant a];
          pg_RepositoryGitOid := pc_repositoryGitOid c; pg_AllowedPaths := lf_OwnedPaths leaf;
          pg_Nonce := identity "ouroboros.stage05.grant-nonce.v1" [pc_runID c; lf_NodeID leaf; "1"];
          pg_RevocationEpoch := pc_epoch c; pg_ExpiresAtMs := expiresAt; pg_PolicyDigest := pc_policyDigest c;
          pg_CommandFence := 1 |} in
        Ok (MkCompiled
              (MkPlanNode (lf_NodeID leaf) KindLeaf (sp_digestHex staged) (lf_OwnedPaths leaf) (lf_ForbiddenPaths leaf)
                 (Some route) (Some grant))
              (sp_artifactID staged) (sp_digestHex staged) holder expiresAt)
  end.

Fixpoint compile_leaves (c : PlanContext) (leaves : list LeafSpec) : result factory_error (list compiledNode) :=
  match leaves with
  | [] => Ok []
  | leaf :: rest =>
      do n <- compile_leaf c leaf ;
      do ns <- compile_leaves c rest ;
      Ok (n :: ns)
  end.

Definition plain_node (c : PlanContext) (node : string) (kind : PlanNodeKind) : compiledNode :=
  let staged := goal_of c node in
  MkCompiled (MkPlanNode node kind (sp_digestHex staged) [] [] None None) (sp_artifactID staged) (sp_digestHex staged) "" 0.

Definition required_kinds : list (FactoryGateKind * string) :=
  [(GateBuild, "BUILD"); (GateTest, "TEST"); (GateDocs, "DOCS"); (GateSecurity, "SECURITY")].

Definition plan_gates (runID : string) : list GateSpec :=
  map (fun p => MkGateSpec "factory-gate" (identity "ouroboros.stage05.gate.v1" [runID; snd p]) (fst p) true GatePending)
    required_kinds.

Definition compilePlan (plan_ok : ChangePlan -> bool) (c : PlanContext) (leaves : list LeafSpec) (approvedScope : list string)
    (review : bool) : result factory_error (ChangePlan * list compiledNode) :=
  do _ <- validateLeafSpecs leaves approvedScope ;
  do compiled <- compile_leaves c leaves ;
  let nodes := (plain_node c orchestratorNodeID KindOrchestrator :: compiled
                ++ (if review then [plain_node c reviewNodeID KindReview] else []))%list in
  let edges := (map (fun l => (orchestratorNodeID, lf_NodeID l)) leaves
                ++ (if review then [(orchestratorNodeID, reviewNodeID)] else []))%list in
  let plan := MkPlan (pc_planID c) (pc_runID c) RunPlanning (map cn_node nodes) edges (plan_gates (pc_runID c)) in
  if plan_ok plan then Ok (plan, nodes) else Err ErrPlanInvalid.
End plan.

(** ** JSON path columns *)

(** [encoding/json] on a slice of strings. *)
Class PathsCodec := {
  paths_encode : list string -> string;
  paths_decode : string -> option (list string)
}.

Definition jsonPaths `{PathsCodec} (paths : list string) : string :=
  match paths with [] => "[]" | _ => paths_encode paths end.

Definition decodePaths `{PathsCodec} (encoded : string) : result factory_error (list string) :=
  match paths_decode encoded with Some l => Ok l | None => Err ErrDatabase end.

(** ** Candidate previews *)

Inductive PreviewEditOperation := OpAdd | OpDelete | OpModify | OpRename | OpOther (code : Z).

#[export] Instance PreviewEditOperation_eq_dec : EqDecision PreviewEditOperation.
Proof. solve_decision. Defined.

(** A digest is its algorithm and hex text; language 0 is unspecified. *)
Record PreviewEdit := MkPreviewEdit {
  pe_Path : string; pe_OldPath : string; pe_Operation : PreviewEditOperation; pe_Language : Z;
  pe_Before : option (string * string); pe_After : option (string * string)
}.

Record ChangeSetPreview := MkPreview {
  pv_ChangeSet : option (string * string); pv_State : CandidateState; pv_ExpectedBase : string;
  pv_Edits : list PreviewEdit; pv_Obligations : list Z; pv_Gates : list GateSpec
}.

Definition canonical_digest (d : option (string * string)) : bool :=
  match d with Some (algorithm, hex) => String.eqb algorithm "sha256" && isHexDigest hex | None => true end.

Definition some {A} (o : option A) : bool := match o with Some _ => true | None => false end.

Definition validatePreviewEdit (e : PreviewEdit) : result factory_error unit :=
  fail_if (negb (validRepositoryPath (pe_Path e))) ErrPlanInvalid
  (fail_if (pe_Language e =? 0) ErrPlanInvalid
  (do _ <- match pe_Operation e with
           | OpAdd => fail_if (some (pe_Before e) || negb (some (pe_After e))) ErrPlanInvalid (Ok tt)
           | OpDelete => fail_if (negb (some (pe_Before e)) || some (pe_After e)) ErrPlanInvalid (Ok tt)
           | OpModify | OpRename => fail_if (negb (some (pe_Before e)) || negb (some (pe_After e))) ErrPlanInvalid (Ok tt)
           | OpOther _ => Err ErrPlanInvalid
           end ;
   do _ <- (if bool_decide (pe_Operation e = OpRename)
            then fail_if (String.eqb (pe_OldPath e) "" || String.eqb (pe_OldPath e) (pe_Path e)
                          || negb (validRepositoryPath (pe_OldPath e))) ErrPlanInvalid (Ok tt)
            else fail_if (negb (String.eqb (pe_OldPath e) "")) ErrPlanInvalid (Ok tt)) ;
   fail_if (negb (canonical_digest (pe_Before e) && canonical_digest (pe_After e))) ErrPlanInvalid (Ok tt))).

Section preview.
Context `{GoRuntime}.

(** The loop over the edits: the post-images, pre-images and languages seen. *)
Fixpoint check_preview_edits (leafScopes post pre : list string) (langs : list Z) (edits : list PreviewEdit)
    : result factory_error (list Z) :=
  match edits with
  | [] => Ok langs
  | e :: rest =>
      do _ <- validatePreviewEdit e ;
      if one_of post (pe_Path e) then Err ErrPlanInvalid
      else
        let rename := bool_decide (pe_Operation e = OpRename) in
        let preImage := if rename then pe_OldPath e else pe_Path e in
        let is_add := bool_decide (pe_Operation e = OpAdd) in
        if negb is_add && one_of pre preImage then Err ErrPlanInvalid
        else if negb (pathWithinScope (pe_Path e) leafScopes) then Err ErrScopeEscape
        else if rename && negb (pathWithinScope (pe_OldPath e) leafScopes) then Err ErrScopeEscape
        else check_preview_edits leafScopes (pe_Path e :: post) (if is_add then pre else preImage :: pre)
               (if bool_decide (pe_Language e ∈ langs) then langs else pe_Language e :: langs) rest
  end.

Fixpoint check_obligations (langs seen obligations : list Z) : result factory_error unit :=
  match obligations with
  | [] => Ok tt
  | l :: rest =>
      if negb (bool_decide (l ∈ langs)) then Err ErrPlanInvalid
      else if bool_decide (l ∈ seen) then Err ErrPlanInvalid
      else check_obligations langs (l :: seen) rest
  end.

Definition unit_separator : string := String "031" "".

(** The loop over the gates: the identities and the required kinds seen. *)
Fixpoint check_gates (seen : list string) (required : list FactoryGateKind) (gates : list GateSpec)
    : result factory_error (list FactoryGateKind) :=
  match gates with
  | [] => Ok required
  | g :: rest =>
      let key := gs_Namespace g ++ unit_separator ++ gs_GateID g in
      if String.eqb (gs_GateID g) "" then Err ErrPlanInvalid
      else if one_of seen key then Err ErrPlanInvalid
      else if negb (is_ok (gateKindText (gs_Kind g))) then Err ErrPlanInvalid
      else if negb (is_ok (gateStatusText (gs_Status g))) then Err ErrPlanInvalid
      else check_gates (key :: seen) (if gs_Required g then gs_Kind g :: required else required) rest
  end.

Definition validatePreviewGates (p : ChangeSetPreview) : result factory_error unit :=
  let n := Z.of_nat (length (pv_Gates p)) in
  if (n <? 4) || (8 <? n) then Err ErrPlanInvalid
  else
    do required <- check_gates [] [] (pv_Gates p) ;
    if forallb (fun k => bool_decide (k ∈ required)) [GateBuild; GateTest; GateDocs; GateSecurity] then Ok tt else Err ErrPlanInvalid.

Definition validatePreview (preview_ok : ChangeSetPreview -> bool) (p : ChangeSetPreview) (run : runRow) (leafScopes : list string)
    : result factory_error unit :=
  match pv_ChangeSet p with
  | None => Err ErrPlanInvalid
  | Some (changeSetID, base) =>
      if String.eqb changeSetID "" then Err ErrPlanInvalid
      else if negb (bool_decide (pv_State p = CandProposed)) then Err ErrPlanInvalid
      else if negb (String.eqb (pv_ExpectedBase p) (rr_repositoryGitOID run)) || negb (String.eqb base (rr_repositoryGitOID run))
      then Err ErrPlanInvalid
      else if (length (pv_Edits p) =? 0)%nat || (64 <? Z.of_nat (length (pv_Edits p))) then Err ErrPlanInvalid
      else
        do langs <- check_preview_edits leafScopes [] [] [] (pv_Edits p) ;
        if negb (length (pv_Obligations p) =? length langs)%nat then Err ErrPlanInvalid
        else
          do _ <- check_obligations langs [] (pv_Obligations p) ;
          do _ <- validatePreviewGates p ;
          if preview_ok p then Ok tt else Err ErrPlanInvalid
  end.

Definition reviewerDisjoint (reviewer admitting : string) : bool :=
  negb (String.eqb reviewer "") && negb (equal_fold reviewer admitting).
End preview.

(** ** Lemmas: exclusive scopes *)

Section scopes.
Context `{GoRuntime}.

(** [root] is [p] or a directory above it, up to case. *)
Definition above (root p : string) : Prop :=
  foldPath p = foldPath root \/ has_prefix (foldPath root ++ "/") (foldPath p) = true.

Lemma pathWithinScope_above p scope : pathWithinScope p scope = true <-> exists root, root ∈ scope /\ above root p.
Proof.
  unfold pathWithinScope, above. rewrite existsb_exists. split.
  - intros (root & Hin & [->%String.eqb_eq|Hp]%orb_true_iff); exists root; (split; [by apply list_elem_of_In|auto]).
  - intros (root & Hin & [->|Hp]); exists root; (split; [by apply list_elem_of_In|]); apply orb_true_iff;
      [left; apply String.eqb_refl|by right].
Qed.

Lemma pathsCollide_above a b : pathsCollide a b = true <-> above a b \/ above b a.
Proof.
  unfold pathsCollide, above. rewrite !orb_true_iff, String.eqb_eq. split; [|by intuition auto].
  intros [[E|?]|?]; auto.
Qed.

(** Two roots above one path are one above the other. *)
Lemma above_collide a b p : above a p -> above b p -> pathsCollide a b = true.
Proof.
  rewrite pathsCollide_above. unfold above. intros [Ea|Ha] [Eb|Hb].
  - left. left. congruence.
  - right. right. by rewrite <- Ea.
  - left. right. by rewrite <- Eb.
  - destruct (prefixes_nested _ _ _ Ha Hb) as [->|[?|?]]; auto.
Qed.

Lemma above_trans a b p : above a b -> above b p -> above a p.
Proof.
  unfold above. intros [Eb|[r Er]%has_prefix_app] [Ep|[s Es]%has_prefix_app].
  - left. congruence.
  - right. apply has_prefix_app. exists s. by rewrite Es, Eb.
  - right. apply has_prefix_app. exists r. by rewrite Ep, Er.
  - right. apply has_prefix_app. rewrite Es, Er. eexists. rewrite !append_assoc. reflexivity.
Qed.

Lemma check_leaf_Ok scope seen leaf rest u :
  check_leaf scope seen leaf rest = Ok u ->
  lf_NodeID leaf ∉ seen /\ Forall (fun p => validRepositoryPath p = true /\ pathWithinScope p scope = true) (lf_OwnedPaths leaf)
  /\ lf_OwnedPaths leaf <> [] /\ Forall (fun l => scopes_overlap leaf l = false) rest.
Proof.
  unfold check_leaf. intros Hc. res_inv. bool_prop. split_and!.
  - intros Hin%one_of_spec. congruence.
  - apply Forall_forall. intros p Hp. match goal with H : forallb _ (lf_OwnedPaths leaf) = true |- _ => rename H into Hf end.
    rewrite forallb_forall in Hf. apply list_elem_of_In, Hf in Hp. by apply andb_true_iff in Hp.
  - by destruct (lf_OwnedPaths leaf).
  - apply Forall_forall. intros l Hl. apply Bool.not_true_iff_false. intros Ho.
    match goal with H : existsb _ rest = false |- _ => apply Bool.not_true_iff_false in H; apply H end.
    apply existsb_exists. exists l. split; [by apply list_elem_of_In|done].
Qed.

Lemma check_leaf_Err scope seen leaf rest e : check_leaf scope seen leaf rest = Err e -> e = ErrPlanInvalid.
Proof. unfold check_leaf. intros Hc. by res_inv. Qed.

Lemma overlap_shared a b p :
  pathWithinScope p (lf_OwnedPaths a) = true -> pathWithinScope p (lf_OwnedPaths b) = true -> scopes_overlap a b = true.
Proof.
  intros (ra & Ha & Hpa)%pathWithinScope_above (rb & Hb & Hpb)%pathWithinScope_above.
  apply existsb_exists. exists ra. split; [by apply list_elem_of_In|]. apply existsb_exists. exists rb.
  split; [by apply list_elem_of_In|]. by eapply above_collide.
Qed.

(** What the loop over the leaves establishes. *)
Record leaves_shape (scope seen : list string) (leaves : list LeafSpec) : Prop := {
  ls_ids : NoDup (lf_NodeID <$> leaves) /\ forall l, l ∈ leaves -> lf_NodeID l ∉ seen;
  ls_paths : forall l p, l ∈ leaves -> p ∈ lf_OwnedPaths l -> validRepositoryPath p = true /\ pathWithinScope p scope = true;
  ls_owned : forall l, l ∈ leaves -> lf_OwnedPaths l <> [];
  ls_apart : forall i j a b, (i < j)%nat -> leaves !! i = Some a -> leaves !! j = Some b -> scopes_overlap a b = false
}.

Lemma check_leaves_shape scope seen leaves u : check_leaves scope seen leaves = Ok u -> leaves_shape scope seen leaves.
Proof.
  revert seen. induction leaves as [|l rest IH]; intros seen Hc; cbn in Hc.
  { split; try done; [split; [apply NoDup_nil_2|]|..]; intros; by rewrite ?lookup_nil in *; set_solver. }
  destruct (check_leaf scope seen l rest) as [[]|] eqn:Hl; [|done]. cbn in Hc.
  apply check_leaf_Ok in Hl as (Hs & Hp & Ho & Hr). destruct (IH _ Hc) as [[Hn Hi] Hpaths Howned Hapart].
  rewrite Forall_forall in Hp. rewrite Forall_forall in Hr. split.
  - split.
    + cbn. apply NoDup_cons. split; [|done]. intros (x & E & Hx)%list_elem_of_fmap. apply (Hi x Hx). rewrite <- E. left.
    + intros x [->|Hx]%elem_of_cons; [done|]. intros Hseen. apply (Hi x Hx). by right.
  - intros x p [->|Hx]%elem_of_cons Hin; [by apply Hp|by eapply Hpaths].
  - intros x [->|Hx]%elem_of_cons; [done|by apply Howned].
  - intros [|i] [|j] a b Hij Ea Eb; try lia; cbn in *.
    + injection Ea as <-. apply Hr. by apply list_elem_of_lookup_2 in Eb.
    + apply (Hapart i j); [lia|done|done].
Qed.

Lemma check_leaves_Err scope seen leaves e : check_leaves scope seen leaves = Err e -> e = ErrPlanInvalid.
Proof.
  revert seen. induction leaves as [|l rest IH]; intros seen; cbn; [done|].
  destruct (check_leaf scope seen l rest) eqn:Hl; cbn; [apply IH|]. intros [= <-]. by eapply check_leaf_Err.
Qed.

(** An accepted decomposition gives every leaf an exclusive write scope:
    one to three leaves with distinct, unreserved names; no path lies in the
    scopes of two leaves (directory prefixes and case folding included); and
    every path in a leaf's scope lies in the approved scope.  Any other
    decomposition is refused as an invalid plan. *)
Theorem leaf_scopes_exclusive leaves approved :
  match validateLeafSpecs leaves approved with
  | Ok _ =>
      1 <= Z.of_nat (length leaves) <= 3 /\ NoDup (orchestratorNodeID :: reviewNodeID :: (lf_NodeID <$> leaves)) /\
      (forall l p, l ∈ leaves -> pathWithinScope p (lf_OwnedPaths l) = true -> pathWithinScope p approved = true) /\
      (forall i j a b p, leaves !! i = Some a -> leaves !! j = Some b ->
         pathWithinScope p (lf_OwnedPaths a) = true -> pathWithinScope p (lf_OwnedPaths b) = true -> i = j)
  | Err e => e = ErrPlanInvalid
  end.
Proof.
  unfold validateLeafSpecs, fail_if.
  destruct ((length leaves =? 0)%nat || (3 <? Z.of_nat (length leaves))) eqn:Hn; [done|].
  destruct ((length approved =? 0)%nat || (64 <? Z.of_nat (length approved))); [done|].
  destruct (negb (forallb validRepositoryPath approved)); [done|].
  destruct (check_leaves _ _ _) as [u|e] eqn:Hc; [|by eapply check_leaves_Err].
  apply check_leaves_shape in Hc as [[Hnd Hi] Hp _ Ha]. split_and!.
  - apply orb_false_iff in Hn as [H1%Nat.eqb_neq H2%Z.ltb_ge]. lia.
  - apply orb_false_iff in Hn as [H1%Nat.eqb_neq H2%Z.ltb_ge]. lia.
  - apply NoDup_cons. split.
    + rewrite elem_of_cons. intros [[=]|(x & E & Hx)%list_elem_of_fmap]. apply (Hi x Hx). rewrite <- E. left.
    + apply NoDup_cons. split; [|done]. intros (x & E & Hx)%list_elem_of_fmap. apply (Hi x Hx). rewrite <- E. right. left.
  - intros l p Hl (r & Hr & Hab)%pathWithinScope_above. destruct (Hp l r Hl Hr) as [_ (R & HR & HRr)%pathWithinScope_above].
    apply pathWithinScope_above. exists R. split; [done|]. by eapply above_trans.
  - intros i j a b p Ea Eb Hpa Hpb. destruct (Nat.lt_trichotomy i j) as [Hij|[Hij|Hij]]; [|exact Hij|].
    + pose proof (Ha i j a b Hij Ea Eb) as Hno. by rewrite (overlap_shared a b p) in Hno.
    + pose proof (Ha j i b a Hij Eb Ea) as Hno. by rewrite (overlap_shared b a p) in Hno.
Qed.
End scopes.
