(* ===== verification/FactoryKernel.v ===== *)
(** * factory: the kernel

    Models [kernel.go], [admission.go], [lifecycle.go], [review.go] and
    [mailboxops.go] of [services/brain/internal/factory].  Every operation holds
    the kernel's mutex, so it is one atomic step on the ledger; a transaction
    that does not commit leaves the ledger as it was.  [KernelEnv] is what the
    world answers during one call: clock readings, the encrypted vault, the
    policy, the Git base, the router, the third-party message validator and
    encoder, and whether the commit goes through. *)

From Stdlib Require Import Ascii String.
From S2P Require Import Prelude GoString GoPath Float64 Runtime SqlTable FactoryTypes FactoryStore FactoryRoster FactoryMailbox FactoryPlan.
Open Scope string_scope.
Open Scope Z_scope.

(** ** Requests *)

Record ChangeIntent := MkIntent {
  in_IntentID : string; in_RepositoryGitOid : string; in_ScopeDigest : string; in_SupportingEvidence : list string;
  in_RequestedByPrincipal : string; in_RequestedByTenant : string; in_ApprovalCompleted : bool;
  in_ApprovalExpiresAtMs : option Z
}.

Record AdmitRequest := MkAdmit {
  am_Authenticated : Identity; am_Caller : Identity; am_Intent : ChangeIntent; am_ApprovedScopePaths : list string;
  am_Leaves : list LeafSpec; am_Review : bool; am_IdempotencyKey : string
}.

(** [AdmitResult] and [CancelResult]. *)
Record RunResult := MkRunResult { ar_RunID : string; ar_Replayed : bool }.

Record CancelRequest := MkCancel { cq_Authenticated : Identity; cq_Caller : Identity; cq_RunID : string; cq_IdempotencyKey : string }.

Record RollbackReceipt := MkReceipt { rc_ReasonCode : string; rc_ArtifactDigestHex : string }.

Record EvidenceRef := MkEvidenceRef {
  ev_Namespace : string; ev_Value : string; ev_RevisionNamespace : string; ev_RevisionValue : string;
  ev_AnchorAlgorithm : string; ev_AnchorDigestHex : string
}.

Record FindingDraft := MkDraft {
  dr_Severity : ReviewSeverity; dr_Category : ReviewCategory; dr_Summary : string; dr_Evidence : list EvidenceRef;
  dr_ReviewerPrincipal : string; dr_ReviewerSession : string; dr_ReviewerFamily : string
}.

Record MailboxMessageInput := MkMailboxInput {
  mx_MessageID : string; mx_TaskID : string; mx_Kind : string; mx_CorrelationID : string; mx_CausationID : string;
  mx_Payload : string; mx_ExpiresAtMs : Z
}.

(** ** The environment of a call *)

Record KernelEnv := {
  ke_now : nat -> Z;
  ke_commit : bool;
  ke_put : nat -> string -> string -> option string;
  ke_base : option string;
  ke_allowed : string -> bool;
  ke_route : RouteRequest -> result factory_error RouteDecision;
  ke_leaseTTL : Z;
  ke_epoch : Z;
  ke_policyDigest : string;
  ke_live : bool;
  ke_plan_ok : ChangePlan -> bool;
  ke_preview_ok : ChangeSetPreview -> bool;
  ke_intent_bytes : ChangeIntent -> option string;
  ke_preview_bytes : ChangeSetPreview -> option string;
  ke_finding_bytes : FindingDraft -> option string
}.

(** ** Guards and helpers *)

Definition validIdentity (a : Identity) : bool :=
  negb (String.eqb (id_Tenant a) "") && negb (String.eqb (id_Principal a) "") && negb (String.eqb (id_Session a) "")
  && (len (id_Tenant a) <=? 512) && (len (id_Principal a) <=? 512) && (len (id_Session a) <=? 512).

Definition crossCheck (a caller : Identity) : result factory_error unit :=
  if negb (String.eqb (id_Tenant a) (id_Tenant caller)) || negb (String.eqb (id_Principal a) (id_Principal caller))
     || negb (String.eqb (id_Session a) (id_Session caller))
  then Err ErrNotFoundOrDenied else Ok tt.

(** A denial, an error and a malformed decision are alike. *)
Definition authorize (env : KernelEnv) (action : string) : result factory_error unit :=
  if ke_allowed env action then Ok tt else Err ErrNotFoundOrDenied.

(** The outcome of a transaction body: what it returns, and the ledger to commit unless it returns early. *)
Definition finish_tx {A} (env : KernelEnv) (d : DB) (body : result factory_error (A * option DB))
    : result factory_error A * DB :=
  match body with
  | Err e => (Err e, d)
  | Ok (x, None) => (Ok x, d)
  | Ok (x, Some d') => if ke_commit env then (Ok x, d') else (Err ErrDatabase, d)
  end.

Fixpoint rfold {S A} (f : S -> A -> result factory_error S) (s : S) (l : list A) : result factory_error S :=
  match l with
  | [] => Ok s
  | x :: l' => do s' <- f s x ; rfold f s' l'
  end.

Section kernel.
Context `{GoRuntime} `{PathsCodec}.

Definition stagePayload (env : KernelEnv) (i : nat) (tenant payload : string) : result factory_error stagedPayload :=
  if len payload =? 0 then Err ErrInvalidInput
  else match ke_put env i tenant payload with
       | None => Err ErrDatabase
       | Some "" => Err ErrPayloadUnavailable
       | Some artifactID => Ok (MkStaged artifactID (digestBytes payload))
       end.

Definition require_run (d : DB) (a : Identity) (runID : string) : result factory_error runRow :=
  match lookupRun d a runID with Some r => Ok r | None => Err ErrNotFoundOrDenied end.

Definition requireLiveRun (d : DB) (a : Identity) (runID : string) : result factory_error unit :=
  do _ <- require_run d a runID ;
  do state <- currentRunState d a runID ;
  if terminalRunState state then Err ErrNotFoundOrDenied else Ok tt.

Definition requireNotCancelled (d : DB) (a : Identity) (runID : string) : result factory_error unit :=
  do state <- currentRunState d a runID ;
  if bool_decide (state = RunCancelled) then Err ErrNotFoundOrDenied else Ok tt.

Definition requirePlanNode (d : DB) (a : Identity) (runID nodeID : string) : result factory_error unit :=
  if (length (List.filter (is_node (run_key a runID) nodeID) (db_plan_nodes d)) =? 1)%nat then Ok tt else Err ErrNotFoundOrDenied.

(** ** Admission *)

Definition revalidateIntent (env : KernelEnv) (q : AdmitRequest) : result factory_error unit :=
  let i := am_Intent q in
  if String.eqb (in_IntentID i) "" || negb (isGitOID (in_RepositoryGitOid i)) || String.eqb (in_ScopeDigest i) ""
     || negb (isHexDigest (in_ScopeDigest i)) || (length (in_SupportingEvidence i) =? 0)%nat
  then Err ErrNotFoundOrDenied
  else if negb (String.eqb (in_RequestedByPrincipal i) (id_Principal (am_Authenticated q)))
          || negb (String.eqb (in_RequestedByTenant i) (id_Tenant (am_Authenticated q)))
  then Err ErrNotFoundOrDenied
  else if negb (in_ApprovalCompleted i) then Err ErrNotFoundOrDenied
  else if match in_ApprovalExpiresAtMs i with Some e => e <=? ke_now env 0 | None => false end then Err ErrNotFoundOrDenied
  else if ke_live env then Ok tt else Err ErrDatabase.

Definition line_feed : string := String "010" "".

Definition goal_text (kind runID intentID : string) : string :=
  "ouroboros.stage05.goal." ++ kind ++ ".v1" ++ line_feed ++ "run=" ++ runID ++ line_feed ++ "intent=" ++ intentID ++ line_feed.

Fixpoint stage_all (env : KernelEnv) (i : nat) (tenant : string) (goals : list (string * string))
    : result factory_error (list (string * stagedPayload)) :=
  match goals with
  | [] => Ok []
  | (node, payload) :: rest =>
      do staged <- stagePayload env i tenant payload ;
      do more <- stage_all env (S i) tenant rest ;
      Ok ((node, staged) :: more)
  end.

Definition stageGoals (env : KernelEnv) (q : AdmitRequest) (runID : string)
    : result factory_error (list (string * stagedPayload)) :=
  let intentID := in_IntentID (am_Intent q) in
  stage_all env 0 (id_Tenant (am_Authenticated q))
    ((orchestratorNodeID, goal_text "orchestrator" runID intentID)
     :: map (fun l => (lf_NodeID l, lf_Goal l)) (am_Leaves q)
     ++ (if am_Review q then [(reviewNodeID, goal_text "review" runID intentID)] else []))%list.

Definition admissionRequestDigest (intentDigest : string) (q : AdmitRequest) : string :=
  identity "ouroboros.stage05.admit-request.v1"
    (intentDigest
     :: flat_map (fun l => [lf_NodeID l; digestBytes (lf_Goal l); join unit_separator (lf_OwnedPaths l);
                            join unit_separator (lf_ForbiddenPaths l); lf_HolderPrincipal l]) (am_Leaves q)
     ++ (if am_Review q then ["review"] else []))%list.

(** The columns of a node row. *)
Definition node_row (a : Identity) (runID : string) (n : compiledNode) : NodeRow :=
  let node := cn_node n in
  let kind := match pn_Kind node with KindOrchestrator => "orchestrator" | KindLeaf => "leaf" | KindReview => "review" end in
  MkNode (run_key a runID) (pn_NodeID node) kind (cn_goalArtifactID n) (cn_goalDigestHex n) (jsonPaths (pn_OwnedPaths node))
    (jsonPaths (pn_ForbiddenPaths node))
    (match pn_Kind node, pn_Route node with
     | KindLeaf, Some r => Some (ro_ProfileDigestHex r, ro_ModelIdentity r, ro_RationaleCode r)
     | _, _ => None
     end)
    (match pn_Kind node, pn_Grant node with
     | KindLeaf, Some g => Some (MkGrant (jsonPaths (pg_Actions g)) (jsonPaths (pg_AllowedPaths g)) (pg_Nonce g)
                                   (pg_ExpiresAtMs g) (pg_RevocationEpoch g) (pg_CommandFence g) (pg_PolicyDigest g))
     | _, _ => None
     end).

(** The check constraint of the node table. *)
Definition node_columns_ok (r : NodeRow) : bool :=
  isHexDigest (nr_goalDigest r) && some (paths_decode (nr_owned r)) && some (paths_decode (nr_forbidden r))
  && (if String.eqb (nr_kind r) "leaf" then
        match paths_decode (nr_owned r), nr_route r, nr_grant r with
        | Some (_ :: _), Some (profile, _, _), Some g =>
            isHexDigest profile && isHexDigest (gc_policyDigest g) && some (paths_decode (gc_actions g))
            && some (paths_decode (gc_allowedPaths g))
        | _, _, _ => false
        end
      else one_of ["orchestrator"; "review"] (nr_kind r) && String.eqb (nr_owned r) "[]" && String.eqb (nr_forbidden r) "[]"
           && negb (some (nr_route r)) && negb (some (nr_grant r))).

Definition insertPlanNode (a : Identity) (runID : string) (d : DB) (n : compiledNode) : result factory_error DB :=
  let r := node_row a runID n in
  if node_columns_ok r && negb (node_exists d (nr_key r) (nr_node r)) && run_exists d (nr_key r)
  then Ok (set_plan_nodes (db_plan_nodes d ++ [r])%list d) else Err ErrDatabase.

Definition insertGate (a : Identity) (runID : string) (atMs : Z) (d : DB) (g : GateSpec) : result factory_error DB :=
  do kind <- gateKindText (gs_Kind g) ;
  let k := run_key a runID in
  let r := MkGate k (gs_GateID g) kind (gs_Required g) in
  if negb (gate_exists d k (gs_GateID g))
     && negb (existsb (fun r => bool_decide (ga_key r = k) && String.eqb (ga_kind r) kind) (db_gates d)) && run_exists d k
  then
    let d1 := set_gates (db_gates d ++ [r])%list d in
    do status <- gateStatusText (gs_Status g) ;
    do t <- of_insert (insert_state gate_vocabulary gate_terminal (gate_exists d1 k (gs_GateID g))
                         (MkState k (gs_GateID g) 1 status atMs) (db_gate_states d1)) ;
    Ok (set_gate_states t d1)
  else Err ErrDatabase.

Definition leaseFor (n : compiledNode) (a : Identity) (runID : string) : Lease :=
  MkLease (run_key a runID) (pn_NodeID (cn_node n)) 0 "" (cn_leaseHolder n) 0 (cn_leaseExpiresAt n).

Definition issue_leaf (env : KernelEnv) (a : Identity) (runID : string) (d : DB) (n : compiledNode) : result factory_error DB :=
  match pn_Kind (cn_node n) with
  | KindLeaf => do r <- Issue (ke_now env 5) d (leaseFor n a runID) ; Ok (snd r)
  | _ => Ok d
  end.

(** The run table: primary key, one run per intent, an existing session, well-formed digests. *)
Definition insert_run (d : DB) (r : runRow) : result factory_error DB :=
  let k := rr_key r in
  if isHexDigest (rr_intentDigest r) && isGitOID (rr_repositoryGitOID r) && negb (run_exists d k)
     && negb (existsb (fun p => String.eqb (rk_tenant (rr_key p)) (rk_tenant k) && String.eqb (rk_principal (rr_key p)) (rk_principal k)
                                && String.eqb (rr_intentID p) (rr_intentID r)) (db_runs d))
     && bool_decide ((rk_tenant k, rk_principal k, rr_sessionID r) ∈ db_sessions d)
  then Ok (set_runs (db_runs d ++ [r])%list d) else Err ErrDatabase.

Definition intent_admitted (d : DB) (a : Identity) (intentID : string) : bool :=
  existsb (fun r => String.eqb (rk_tenant (rr_key r)) (id_Tenant a) && String.eqb (rk_principal (rr_key r)) (id_Principal a)
                    && String.eqb (rr_intentID r) intentID) (db_runs d).

(** The transaction that opens a run. *)
Definition admit_tx (env : KernelEnv) (q : AdmitRequest) (runID planID intentDigest requestDigest intentArtifact : string)
    (plan : ChangePlan) (nodes : list compiledNode) (d : DB) : result factory_error (RunResult * option DB) :=
  let a := am_Authenticated q in
  if intent_admitted d a (in_IntentID (am_Intent q)) then Err ErrNotFoundOrDenied
  else
    do d1 <- insert_run d (MkRun (run_key a runID) (id_Session a) (in_IntentID (am_Intent q)) intentDigest intentArtifact
                             (in_RepositoryGitOid (am_Intent q)) planID (ke_now env 2)) ;
    do d2 <- appendRunState d1 a runID RunPlanning (ke_now env 3) ;
    do d3 <- rfold (insertPlanNode a runID) d2 nodes ;
    do d4 <- rfold (insertGate a runID (ke_now env 4)) d3 (pl_Gates plan) ;
    do d5 <- rfold (issue_leaf env a runID) d4 nodes ;
    do d6 <- insertIdempotency d5 a "admit" (am_IdempotencyKey q) requestDigest runID (ke_now env 6) ;
    Ok (MkRunResult runID false, Some d6).

(** Everything between the guards and the transaction. *)
Definition admit_new (env : KernelEnv) (q : AdmitRequest) (intentBytes requestDigest : string) (d : DB)
    : result factory_error RunResult * DB :=
  let a := am_Authenticated q in
  let intentDigest := digestBytes intentBytes in
  match ke_base env with
  | None => (Err ErrNotFoundOrDenied, d)
  | Some base =>
      if negb (String.eqb base (in_RepositoryGitOid (am_Intent q))) then (Err ErrNotFoundOrDenied, d)
      else if intent_admitted d a (in_IntentID (am_Intent q)) then (Err ErrNotFoundOrDenied, d)
      else
        let runID := identity "ouroboros.stage05.run.v1" [id_Tenant a; id_Principal a; intentDigest; am_IdempotencyKey q] in
        let planID := identity "ouroboros.stage05.plan.v1" [runID] in
        finish_tx env d
          (do goals <- stageGoals env q runID ;
           do intent <- stagePayload env (length goals) (id_Tenant a) intentBytes ;
           do compiled <- compilePlan (ke_plan_ok env)
             (MkPlanContext a runID planID (in_RepositoryGitOid (am_Intent q)) goals (ke_now env 1) (ke_leaseTTL env) (ke_epoch env)
                (ke_policyDigest env) (ke_route env))
             (am_Leaves q) (am_ApprovedScopePaths q) (am_Review q) ;
           admit_tx env q runID planID intentDigest requestDigest (sp_artifactID intent) (fst compiled) (snd compiled) d)
  end.

Definition AdmitChangeIntent (env : KernelEnv) (q : AdmitRequest) (d : DB) : result factory_error RunResult * DB :=
  let a := am_Authenticated q in
  if negb (validIdentity a) || negb (validIdempotencyKey (am_IdempotencyKey q)) then (Err ErrInvalidInput, d)
  else
    match (do _ <- crossCheck a (am_Caller q) ; do _ <- authorize env "factory.admit" ; do _ <- revalidateIntent env q ;
           do _ <- validateLeafSpecs (am_Leaves q) (am_ApprovedScopePaths q) ;
           match ke_intent_bytes env (am_Intent q) with Some b => Ok b | None => Err ErrDatabase end) with
    | Err e => (Err e, d)
    | Ok intentBytes =>
        let requestDigest := admissionRequestDigest (digestBytes intentBytes) q in
        match lookupIdempotency d a "admit" (am_IdempotencyKey q) with
        | Some existing =>
            if negb (String.eqb (ip_requestDigest existing) requestDigest) then (Err ErrNotFoundOrDenied, d)
            else (Ok (MkRunResult (ip_runID existing) true), d)
        | None => admit_new env q intentBytes requestDigest d
        end
    end.

(** ** Cancellation *)

Definition CancelChangeRun (env : KernelEnv) (q : CancelRequest) (d : DB) : result factory_error RunResult * DB :=
  let a := cq_Authenticated q in
  if negb (validIdentity a) || negb (validIdempotencyKey (cq_IdempotencyKey q)) || String.eqb (cq_RunID q) ""
  then (Err ErrInvalidInput, d)
  else
    match (do _ <- crossCheck a (cq_Caller q) ; authorize env "factory.cancel") with
    | Err e => (Err e, d)
    | Ok _ =>
        let requestDigest := identity "ouroboros.stage05.cancel-request.v1" [cq_RunID q] in
        match lookupIdempotency d a "cancel" (cq_IdempotencyKey q) with
        | Some existing =>
            if negb (String.eqb (ip_requestDigest existing) requestDigest) then (Err ErrNotFoundOrDenied, d)
            else (Ok (MkRunResult (ip_runID existing) true), d)
        | None =>
            finish_tx env d
              (do _ <- require_run d a (cq_RunID q) ;
               do state <- currentRunState d a (cq_RunID q) ;
               if terminalRunState state then Err ErrNotFoundOrDenied
               else
                 do d1 <- appendRunState d a (cq_RunID q) RunCancelled (ke_now env 0) ;
                 do d2 <- insertIdempotency d1 a "cancel" (cq_IdempotencyKey q) requestDigest (cq_RunID q) (ke_now env 1) ;
                 Ok (MkRunResult (cq_RunID q) false, Some d2))
        end
    end.

(** ** Run life cycle *)

Definition currentCandidateState (d : DB) (a : Identity) (runID : string) : result factory_error (option CandidateState) :=
  match top_by sr_sequence (states_of (db_candidate_states d) (run_key a runID) "") with
  | None => Ok None
  | Some r => do s <- candidateStateFromText (sr_state r) ; Ok (Some s)
  end.

Definition appendCandidateState (d : DB) (a : Identity) (runID : string) (state : CandidateState) (atMs : Z)
    : result factory_error DB :=
  do text <- candidateStateText state ;
  let k := run_key a runID in
  do t <- of_insert (insert_state candidate_vocabulary candidate_terminal (run_exists d k)
                       (next_state (db_candidate_states d) k "" text atMs) (db_candidate_states d)) ;
  Ok (set_candidate_states t d).

Definition TransitionRun (env : KernelEnv) (a : Identity) (runID : string) (next : ChangeRunState) (d : DB)
    : result factory_error unit * DB :=
  if negb (validIdentity a) || String.eqb runID "" then (Err ErrInvalidInput, d)
  else if negb (is_ok (runStateText next)) then (Err ErrInvalidInput, d)
  else
    finish_tx env d
      (do _ <- require_run d a runID ;
       do current <- currentRunState d a runID ;
       if bool_decide (next = RunCancelled) || negb (validRunTransition current next) then Err ErrTransitionInvalid
       else
         do _ <- (if bool_decide (next = RunCompleted) then
                    do candidate <- currentCandidateState d a runID ;
                    if bool_decide (candidate = Some CandRetained) then Ok tt else Err ErrTransitionInvalid
                  else Ok tt) ;
         do d' <- appendRunState d a runID next (ke_now env 0) ;
         Ok (tt, Some d')).

(** [now1] to [now3]: the two authorisations and the commit instant. *)
Definition CommitLeafResult (env : KernelEnv) (a : Identity) (runID nodeID : string) (fence : Z) (payload : string) (d : DB)
    : result factory_error Result * DB :=
  if negb (validIdentity a) || String.eqb runID "" || String.eqb nodeID "" || (fence =? 0) || (len payload =? 0)
  then (Err ErrInvalidInput, d)
  else
    let k := run_key a runID in
    finish_tx env d
      (do _ <- require_run d a runID ;
       do state <- currentRunState d a runID ;
       if negb (bool_decide (state = RunRunning)) then Err ErrNotFoundOrDenied
       else
         do _ <- Authorize (ke_now env 0) d k nodeID fence ;
         do existing <- Result_ d k nodeID ;
         match existing with
         | Some r =>
             if (le_Fence (re_Lease r) =? fence) && String.eqb (re_Digest r) (digestBytes payload)
             then Ok (MkResultValue (re_Lease r) (re_ArtifactID r) (re_Digest r) (re_CommittedAtMs r) true, None)
             else Err ErrResultConflict
         | None =>
             do staged <- stagePayload env 0 (id_Tenant a) payload ;
             do committed <- CommitResult (ke_now env 1) (ke_now env 2) d k nodeID fence (sp_artifactID staged) (sp_digestHex staged) ;
             Ok (fst committed, Some (snd committed))
         end).

(** ** Gates *)

Definition currentGateStatus (d : DB) (a : Identity) (runID gateID : string) : result factory_error FactoryGateStatus :=
  match top_by sr_sequence (states_of (db_gate_states d) (run_key a runID) gateID) with
  | None => Err ErrNotFoundOrDenied
  | Some r => gateStatusFromText (sr_state r)
  end.

Definition appendGateState (d : DB) (a : Identity) (runID gateID : string) (status : FactoryGateStatus) (atMs : Z)
    : result factory_error DB :=
  do text <- gateStatusText status ;
  let k := run_key a runID in
  do t <- of_insert (insert_state gate_vocabulary gate_terminal (gate_exists d k gateID)
                       (next_state (db_gate_states d) k gateID text atMs) (db_gate_states d)) ;
  Ok (set_gate_states t d).

Definition gate_final (s : FactoryGateStatus) : bool := bool_decide (s = GatePassed) || bool_decide (s = GateFailed).

Definition RecordGateResult (env : KernelEnv) (a : Identity) (runID gateID : string) (status : FactoryGateStatus) (d : DB)
    : result factory_error unit * DB :=
  if negb (validIdentity a) || String.eqb runID "" || String.eqb gateID "" then (Err ErrInvalidInput, d)
  else if negb (bool_decide (status = GateRunning)) && negb (gate_final status) then (Err ErrInvalidInput, d)
  else
    finish_tx env d
      (do _ <- require_run d a runID ;
       do state <- currentRunState d a runID ;
       if terminalRunState state then Err ErrNotFoundOrDenied
       else if negb (length (List.filter (is_gate (run_key a runID) gateID) (db_gates d)) =? 1)%nat then Err ErrNotFoundOrDenied
       else
         do current <- currentGateStatus d a runID gateID ;
         if gate_final current then
           if bool_decide (current = status) then Ok (tt, None) else Err ErrTransitionInvalid
         else if bool_decide (status = GateRunning) && negb (bool_decide (current = GatePending)) then Err ErrTransitionInvalid
         else
           do d' <- appendGateState d a runID gateID status (ke_now env 0) ;
           Ok (tt, Some d')).

(** A gate without a state scans a null and fails. *)
Fixpoint gates_passed (d : DB) (gates : list GateRow) : result factory_error unit :=
  match gates with
  | [] => Ok tt
  | g :: rest =>
      match top_by sr_sequence (states_of (db_gate_states d) (ga_key g) (ga_gate g)) with
      | None => Err ErrDatabase
      | Some r => if String.eqb (sr_state r) "PASSED" then gates_passed d rest else Err ErrTransitionInvalid
      end
  end.

Definition required_gates (d : DB) (k : RunKey) : list GateRow :=
  List.filter (fun g => bool_decide (ga_key g = k) && ga_required g) (db_gates d).

Definition requireRequiredGatesPassed (d : DB) (a : Identity) (runID : string) : result factory_error unit :=
  let gates := required_gates d (run_key a runID) in
  do _ <- gates_passed d gates ;
  if (length gates =? 4)%nat then Ok tt else Err ErrTransitionInvalid.

(** ** Candidates *)

Definition lookupCandidate (d : DB) (a : Identity) (runID : string) : option candidateRow :=
  List.find (fun c => bool_decide (cd_key c = run_key a runID)) (db_candidates d).

Definition leafScopes (d : DB) (a : Identity) (runID : string) : result factory_error (list string) :=
  rfold (fun scopes r => do paths <- decodePaths (nr_owned r) ; Ok (scopes ++ paths)%list) []
    (List.filter (fun r => bool_decide (nr_key r = run_key a runID) && String.eqb (nr_kind r) "leaf") (db_plan_nodes d)).

Definition requirePreviewGatesMatchRoster (d : DB) (a : Identity) (runID : string) (p : ChangeSetPreview)
    : result factory_error unit :=
  rfold (fun _ g =>
    match List.find (is_gate (run_key a runID) (gs_GateID g)) (db_gates d) with
    | None => Err ErrNotFoundOrDenied
    | Some r => if Bool.eqb (ga_required r) (gs_Required g) then Ok tt else Err ErrPlanInvalid
    end) tt (pv_Gates p).

Definition insert_candidate (d : DB) (c : candidateRow) : result factory_error DB :=
  if isHexDigest (cd_digestHex c) && negb (existsb (fun p => bool_decide (cd_key p = cd_key c)) (db_candidates d))
     && run_exists d (cd_key c)
  then Ok (set_candidates (db_candidates d ++ [c])%list d) else Err ErrDatabase.

Definition ProposeCandidate (env : KernelEnv) (a : Identity) (runID : string) (p : ChangeSetPreview) (d : DB)
    : result factory_error unit * DB :=
  if negb (validIdentity a) || String.eqb runID "" then (Err ErrInvalidInput, d)
  else
    finish_tx env d
      (do run <- require_run d a runID ;
       do state <- currentRunState d a runID ;
       if negb (bool_decide (state = RunRunning)) && negb (bool_decide (state = RunReview)) then Err ErrNotFoundOrDenied
       else
         do scopes <- leafScopes d a runID ;
         do _ <- validatePreview (ke_preview_ok env) p run scopes ;
         do _ <- requirePreviewGatesMatchRoster d a runID p ;
         do encoded <- match ke_preview_bytes env p with Some b => Ok b | None => Err ErrDatabase end ;
         do staged <- stagePayload env 0 (id_Tenant a) encoded ;
         match lookupCandidate d a runID with
         | Some existing => if String.eqb (cd_digestHex existing) (sp_digestHex staged) then Ok (tt, None) else Err ErrNotFoundOrDenied
         | None =>
             do d1 <- insert_candidate d (MkCandidate (run_key a runID) (match pv_ChangeSet p with Some c => fst c | None => "" end)
                                            (sp_artifactID staged) (sp_digestHex staged) (ke_now env 0)) ;
             do d2 <- appendCandidateState d1 a runID CandProposed (ke_now env 1) ;
             Ok (tt, Some d2)
         end).

Definition insert_rollback (d : DB) (r : RollbackRow) : result factory_error DB :=
  if isHexDigest (rb_digest r) && negb (existsb (fun p => bool_decide (rb_key p = rb_key r)) (db_rollbacks d)) && run_exists d (rb_key r)
  then Ok (set_rollbacks (db_rollbacks d ++ [r])%list d) else Err ErrDatabase.

Definition needs_gates (s : CandidateState) : bool :=
  bool_decide (s = CandVerified) || bool_decide (s = CandReviewed) || bool_decide (s = CandRetained).

Definition TransitionCandidate (env : KernelEnv) (a : Identity) (runID : string) (next : CandidateState)
    (rollback : option RollbackReceipt) (d : DB) : result factory_error unit * DB :=
  let isRejection := bool_decide (next = CandRejected) in
  if negb (validIdentity a) || String.eqb runID "" then (Err ErrInvalidInput, d)
  else if negb (is_ok (candidateStateText next)) then (Err ErrInvalidInput, d)
  else if bool_decide (next = CandProposed) then (Err ErrInvalidInput, d)
  else if negb (Bool.eqb isRejection (some rollback)) then (Err ErrInvalidInput, d)
  else if match rollback with Some r => negb (isHexDigest (rc_ArtifactDigestHex r)) || String.eqb (rc_ReasonCode r) "" | None => false end
  then (Err ErrInvalidInput, d)
  else
    finish_tx env d
      (do _ <- require_run d a runID ;
       do runState <- currentRunState d a runID ;
       if terminalRunState runState then Err ErrNotFoundOrDenied
       else
         do current <- currentCandidateState d a runID ;
         match current with
         | None => Err ErrTransitionInvalid
         | Some cur =>
             if negb (validCandidateTransition cur next) then Err ErrTransitionInvalid
             else
               do _ <- (if needs_gates next then requireRequiredGatesPassed d a runID else Ok tt) ;
               do d1 <- match rollback with
                        | Some r =>
                            insert_rollback d (MkRollback (run_key a runID)
                              (identity "ouroboros.stage05.rollback-receipt.v1" [id_Tenant a; id_Principal a; runID])
                              (rc_ReasonCode r) (rc_ArtifactDigestHex r) (ke_now env 0))
                        | None => Ok d
                        end ;
               do d2 <- appendCandidateState d1 a runID next (ke_now env 1) ;
               Ok (tt, Some d2)
         end).

(** ** Review *)

Definition validFindingDraft (f : FindingDraft) : result factory_error unit :=
  do _ <- severityText (dr_Severity f) ;
  do _ <- categoryText (dr_Category f) ;
  if String.eqb (dr_Summary f) "" || (2048 <? len (dr_Summary f)) then Err ErrInvalidInput
  else if (16 <? Z.of_nat (length (dr_Evidence f))) then Err ErrInvalidInput
  else if existsb (fun e => String.eqb (ev_Value e) "" || String.eqb (ev_RevisionValue e) "") (dr_Evidence f) then Err ErrInvalidInput
  else if negb (validPrincipalID (dr_ReviewerPrincipal f)) || negb (validPrincipalID (dr_ReviewerSession f))
          || negb (reviewerFamilyPattern (dr_ReviewerFamily f)) then Err ErrInvalidInput
  else Ok tt.

Definition is_finding (k : RunKey) (id : string) (f : FindingRow) : bool := bool_decide (fd_key f = k) && String.eqb (fd_finding f) id.

Definition insert_finding (d : DB) (f : FindingRow) : result factory_error DB :=
  if isHexDigest (fd_digest f) && (0 <=? fd_evidence f) && negb (existsb (is_finding (fd_key f) (fd_finding f)) (db_findings d))
     && run_exists d (fd_key f)
  then Ok (set_findings (db_findings d ++ [f])%list d) else Err ErrDatabase.

Record FindingResult := MkFindingResult { fr_FindingID : string; fr_Replayed : bool }.

Definition RecordFinding (env : KernelEnv) (a : Identity) (runID : string) (f : FindingDraft) (d : DB)
    : result factory_error FindingResult * DB :=
  if negb (validIdentity a) || String.eqb runID "" then (Err ErrInvalidInput, d)
  else
    let k := run_key a runID in
    finish_tx env d
      (do _ <- validFindingDraft f ;
       do run <- require_run d a runID ;
       if negb (reviewerDisjoint (dr_ReviewerPrincipal f) (rk_principal (rr_key run))) then Err ErrReviewerConflict
       else
         do state <- currentRunState d a runID ;
         if negb (bool_decide (state = RunReview)) then Err ErrNotFoundOrDenied
         else
           do payload <- match ke_finding_bytes env f with Some b => Ok b | None => Err ErrDatabase end ;
           do staged <- stagePayload env 0 (id_Tenant a) payload ;
           let findingID := identity "ouroboros.stage05.finding.v1" [runID; dr_ReviewerPrincipal f; sp_digestHex staged] in
           do severity <- severityText (dr_Severity f) ;
           do category <- categoryText (dr_Category f) ;
           match List.find (is_finding k findingID) (db_findings d) with
           | Some existing =>
               if negb (String.eqb (fd_digest existing) (sp_digestHex staged)) then Err ErrNotFoundOrDenied
               else Ok (MkFindingResult findingID true, None)
           | None =>
               do d' <- insert_finding d (MkFinding k findingID severity category (dr_ReviewerPrincipal f) (dr_ReviewerSession f)
                                            (dr_ReviewerFamily f) (sp_artifactID staged) (sp_digestHex staged)
                                            (Z.of_nat (length (dr_Evidence f))) (ke_now env 0)) ;
               Ok (MkFindingResult findingID false, Some d')
           end).

Definition is_disposition (k : RunKey) (id : string) (r : DispositionRow) : bool :=
  bool_decide (dp_key r = k) && String.eqb (dp_finding r) id.

(** The disposition table: one per finding, an existing finding, and evidence behind a dismissal. *)
Definition insert_disposition (d : DB) (r : DispositionRow) : result factory_error DB :=
  match List.find (is_finding (dp_key r) (dp_finding r)) (db_findings d) with
  | None => Err ErrDatabase
  | Some f =>
      if negb (existsb (is_disposition (dp_key r) (dp_finding r)) (db_dispositions d))
         && negb (String.eqb (dp_disposition r) "DISMISSED_WITH_EVIDENCE" && (fd_evidence f <=? 0))
      then Ok (set_dispositions (db_dispositions d ++ [r])%list d) else Err ErrDatabase
  end.

Definition DisposeFinding (env : KernelEnv) (a : Identity) (runID findingID : string) (disposition : FindingDisposition) (d : DB)
    : result factory_error unit * DB :=
  if negb (validIdentity a) || String.eqb runID "" || String.eqb findingID "" then (Err ErrInvalidInput, d)
  else
    let k := run_key a runID in
    finish_tx env d
      (do text <- dispositionText disposition ;
       match List.find (is_finding k findingID) (db_findings d) with
       | None => Err ErrNotFoundOrDenied
       | Some f =>
           if bool_decide (disposition = DispDismissed) && (fd_evidence f =? 0) then Err ErrTransitionInvalid
           else
             match List.find (is_disposition k findingID) (db_dispositions d) with
             | Some existing => if String.eqb (dp_disposition existing) text then Ok (tt, None) else Err ErrTransitionInvalid
             | None =>
                 do d' <- insert_disposition d (MkDisposition k findingID text
                            (identity "ouroboros.stage05.disposition-receipt.v1" [runID; findingID])
                            (dispositionReasonCode disposition) (ke_now env 0)) ;
                 Ok (tt, Some d')
             end
       end).

(** ** Mailbox *)

Definition SendMailboxMessage (env : KernelEnv) (a : Identity) (runID : string) (m : MailboxMessageInput) (d : DB)
    : result factory_error SendResult * DB :=
  if negb (validIdentity a) || String.eqb runID "" || (len (mx_Payload m) =? 0) then (Err ErrInvalidInput, d)
  else
    let k := run_key a runID in
    finish_tx env d
      (do _ <- requireLiveRun d a runID ;
       do _ <- requirePlanNode d a runID (mx_TaskID m) ;
       do existing <- Lookup d k (mx_MessageID m) ;
       match existing with
       | Some (e, sequence) =>
           if String.eqb (ms_TaskID e) (mx_TaskID m) && String.eqb (ms_Kind e) (mx_Kind m)
              && String.eqb (ms_PayloadDigest e) (digestBytes (mx_Payload m))
           then Ok (MkSend sequence true, None) else Err ErrMessageConflict
       | None =>
           do staged <- stagePayload env 0 (id_Tenant a) (mx_Payload m) ;
           do _ <- requireLiveRun d a runID ;
           do _ <- requirePlanNode d a runID (mx_TaskID m) ;
           do sent <- Send (ke_now env 0) d
             (MkMessage k (mx_TaskID m) (mx_MessageID m) (mx_Kind m) (mx_CorrelationID m) (mx_CausationID m) (id_Principal a)
                (sp_artifactID staged) (sp_digestHex staged) (mx_ExpiresAtMs m)) ;
           Ok (fst sent, Some (snd sent))
       end).

Definition PendingMailboxMessages (env : KernelEnv) (a : Identity) (runID taskID : string) (d : DB)
    : result factory_error (list Received) :=
  if negb (validIdentity a) || String.eqb runID "" || String.eqb taskID "" then Err ErrInvalidInput
  else
    do _ <- require_run d a runID ;
    do _ <- requireNotCancelled d a runID ;
    Pending (ke_now env 0) d (run_key a runID) taskID.

Definition AcknowledgeMailboxMessage (env : KernelEnv) (a : Identity) (runID messageID : string) (d : DB)
    : result factory_error bool * DB :=
  if negb (validIdentity a) || String.eqb runID "" || String.eqb messageID "" then (Err ErrInvalidInput, d)
  else
    finish_tx env d
      (do _ <- require_run d a runID ;
       do _ <- requireNotCancelled d a runID ;
       do r <- Acknowledge (ke_now env 0) d (run_key a runID) messageID ;
       Ok (fst r, Some (snd r))).
End kernel.
