(* ===== verification/FactoryMachine.v ===== *)
(** * factory: what a change run promises

    The abstract specification of one change run: the histories of its run,
    candidate and gates, and the moves the kernel may make on them.  The
    ledger of [FactoryKernel] refines it ([FactoryInvariant]); the safety
    properties are proved here once, by induction on the moves, and hold of
    every run of every reachable ledger. *)

From S2P Require Import Prelude GoString GoPath Float64 Runtime SqlTable FactoryTypes FactoryStore FactoryPlan FactoryKernel.
Open Scope Z_scope.

(** ** Histories *)

(** Consecutive entries are related. *)
Fixpoint chain {A} (R : A -> A -> bool) (l : list A) : Prop :=
  match l with
  | x :: ((y :: _) as rest) => R x y = true /\ chain R rest
  | _ => True
  end.

Lemma chain_snoc {A} (R : A -> A -> bool) l y :
  chain R (l ++ [y]) <-> chain R l /\ (forall x, last l = Some x -> R x y = true).
Proof.
  induction l as [|x [|z l] IH]; [cbn; naive_solver|cbn; naive_solver|].
  cbn [app chain]. cbn [app] in IH. rewrite IH, last_cons_cons. tauto.
Qed.

Lemma head_snoc {A} (l : list A) x y : head l = Some x -> head (l ++ [y]) = Some x.
Proof. by destruct l. Qed.

(** A history that starts with [x0] and moves along [R]. *)
Definition history {A} (x0 : A) (R : A -> A -> bool) (l : list A) : Prop := (l = [] \/ head l = Some x0) /\ chain R l.

Lemma history_nil {A} (x0 : A) R : history x0 R [].
Proof. split; [by left|done]. Qed.

Lemma history_start {A} (x0 : A) R : history x0 R [x0].
Proof. split; [by right|done]. Qed.

Lemma history_snoc {A} (x0 : A) R l x y : history x0 R l -> last l = Some x -> R x y = true -> history x0 R (l ++ [y]).
Proof.
  intros [Hh Hc] Hl HR. split.
  - right. destruct Hh as [->|Hh]; [done|by apply head_snoc].
  - apply chain_snoc. split; [done|]. congruence.
Qed.

(** An entry that nothing follows is the last one. *)
Lemma chain_final {A} (R : A -> A -> bool) l x : chain R l -> x ∈ l -> (forall y, R x y = false) -> last l = Some x.
Proof.
  induction l as [|a [|b l] IH]; intros Hc Hx Hf; [by apply not_elem_of_nil in Hx|by apply list_elem_of_singleton in Hx as ->|].
  destruct Hc as [Hab Hc]. apply elem_of_cons in Hx as [->|Hx]; [by rewrite Hf in Hab|].
  rewrite last_cons_cons. by apply IH.
Qed.

(** ** The machine *)

Definition gate_next (from to : FactoryGateStatus) : bool :=
  match from, to with
  | GatePending, GateRunning => true
  | (GatePending | GateRunning), (GatePassed | GateFailed) => true
  | _, _ => false
  end.

(** A run as its observers see it. *)
Record RunView := MkView {
  vw_states : list ChangeRunState;
  vw_gates : list (string * list FactoryGateStatus);
  vw_candidate : list CandidateState;
  vw_rollbacks : nat
}.

Definition no_run : RunView := MkView [] [] [] 0.

Definition all_passed (gates : list (string * list FactoryGateStatus)) : Prop :=
  length gates = 4%nat /\ Forall (fun g => last (snd g) = Some GatePassed) gates.

Definition record_gate (id : string) (s : FactoryGateStatus) (gates : list (string * list FactoryGateStatus)) :=
  (fun g => if String.eqb (fst g) id then (fst g, (snd g ++ [s])%list) else g) <$> gates.

Definition push_state (s : ChangeRunState) (v : RunView) : RunView :=
  MkView (vw_states v ++ [s]) (vw_gates v) (vw_candidate v) (vw_rollbacks v).
Definition push_gate (id : string) (s : FactoryGateStatus) (v : RunView) : RunView :=
  MkView (vw_states v) (record_gate id s (vw_gates v)) (vw_candidate v) (vw_rollbacks v).
Definition push_candidate (c : CandidateState) (v : RunView) : RunView :=
  MkView (vw_states v) (vw_gates v) (vw_candidate v ++ [c]) (vw_rollbacks v).
Definition push_rejection (v : RunView) : RunView :=
  MkView (vw_states v) (vw_gates v) (vw_candidate v ++ [CandRejected]) (S (vw_rollbacks v)).

Definition live (v : RunView) : Prop := exists s, last (vw_states v) = Some s /\ terminalRunState s = false.

Inductive run_move : RunView -> RunView -> Prop :=
| mv_admit ids :
    length ids = 4%nat -> NoDup ids ->
    run_move no_run (MkView [RunPlanning] ((fun id => (id, [GatePending])) <$> ids) [] 0)
| mv_run v s next :
    last (vw_states v) = Some s -> validRunTransition s next = true ->
    (next = RunCompleted -> last (vw_candidate v) = Some CandRetained) ->
    run_move v (push_state next v)
| mv_gate v id old s :
    live v -> In (id, old) (vw_gates v) -> (forall x, last old = Some x -> gate_next x s = true) ->
    run_move v (push_gate id s v)
| mv_propose v :
    last (vw_states v) = Some RunRunning \/ last (vw_states v) = Some RunReview -> vw_candidate v = [] ->
    run_move v (push_candidate CandProposed v)
| mv_candidate v c next :
    live v -> last (vw_candidate v) = Some c -> validCandidateTransition c next = true -> next <> CandRejected ->
    (needs_gates next = true -> all_passed (vw_gates v)) ->
    run_move v (push_candidate next v)
| mv_reject v c :
    live v -> last (vw_candidate v) = Some c -> validCandidateTransition c CandRejected = true ->
    run_move v (push_rejection v).

(** ** What holds of every run *)

Record view_ok (v : RunView) : Prop := {
  vo_states : history RunPlanning validRunTransition (vw_states v);
  vo_candidate : history CandProposed validCandidateTransition (vw_candidate v);
  vo_gates : Forall (fun g => snd g <> [] /\ history GatePending gate_next (snd g)) (vw_gates v);
  vo_ids : NoDup (fst <$> vw_gates v);
  vo_four : vw_states v <> [] -> length (vw_gates v) = 4%nat;
  vo_verified : forall c, last (vw_candidate v) = Some c -> needs_gates c = true -> all_passed (vw_gates v);
  vo_completed : last (vw_states v) = Some RunCompleted -> last (vw_candidate v) = Some CandRetained;
  vo_rejected : vw_rollbacks v = (if bool_decide (last (vw_candidate v) = Some CandRejected) then 1 else 0)%nat
}.

Lemma no_run_ok : view_ok no_run.
Proof. split; try done; try apply history_nil. apply NoDup_nil_2. Qed.

Lemma gate_next_final x y : gate_final x = true -> gate_next x y = false.
Proof. by destruct x. Qed.

(** A passed gate takes no further status. *)
Lemma record_gate_passed id s gates old :
  In (id, old) gates -> (forall x, last old = Some x -> gate_next x s = true) ->
  all_passed gates -> False.
Proof.
  intros Hin Hn [_ Hp]. rewrite List.Forall_forall in Hp. specialize (Hn _ (Hp _ Hin)). by destruct s.
Qed.

Lemma record_gate_history id s gates old :
  NoDup (fst <$> gates) -> In (id, old) gates -> (forall x, last old = Some x -> gate_next x s = true) ->
  Forall (fun g => snd g <> [] /\ history GatePending gate_next (snd g)) gates ->
  Forall (fun g => snd g <> [] /\ history GatePending gate_next (snd g)) (record_gate id s gates).
Proof.
  intros Hnd Hin Hn Hg. unfold record_gate. rewrite Forall_fmap. rewrite Forall_forall in Hg |- *. intros [id' h] Hx.
  cbn. destruct (String.eqb_spec id' id) as [->|]; [|by apply Hg]. cbn.
  assert (h = old) as ->.
  { apply list_elem_of_In in Hin. apply list_elem_of_lookup in Hin as [i Hi]. apply list_elem_of_lookup in Hx as [j Hj].
    assert (i = j) as ->; [|congruence].
    eapply NoDup_lookup; [exact Hnd| |]; rewrite list_lookup_fmap; [rewrite Hi|rewrite Hj]; done. }
  destruct (Hg _ Hx) as [Hne Hh]. split; [by destruct old|].
  destruct (last old) as [x|] eqn:El; [|by apply last_None in El].
  eapply history_snoc; [done|exact El|by apply Hn].
Qed.

Lemma record_gate_ids id s gates : fst <$> record_gate id s gates = fst <$> gates.
Proof. unfold record_gate. rewrite <- list_fmap_compose. apply list_fmap_ext. intros _ g _. cbn. by destruct (String.eqb _ _). Qed.

Lemma last_app_one {A} (l : list A) x : last (l ++ [x])%list = Some x.
Proof. apply last_snoc. Qed.

Lemma run_terminal_final s next : terminalRunState s = true -> validRunTransition s next = false.
Proof. unfold validRunTransition. by intros ->. Qed.

Lemma candidate_retained_final next : validCandidateTransition CandRetained next = false.
Proof. done. Qed.

Lemma live_not_completed v : live v -> last (vw_states v) = Some RunCompleted -> False.
Proof. intros (s & Hs & Ht) E. rewrite E in Hs. injection Hs as <-. done. Qed.

(** Every move keeps a run well-formed. *)
Lemma run_move_ok v v' : view_ok v -> run_move v v' -> view_ok v'.
Proof.
  intros [Hs Hc Hg Hnd H4 Hv Hco Hr] Hm. destruct Hm as [ids Hids Hnd'|v s next Hl Ht Hcr|v id old s Hlv Hin Hn|v Hrun Hnone|
    v c next Hlv Hl Ht Hnr Hgp|v c Hlv Hl Ht]; split; cbn in *; try done.
  - apply history_start.
  - rewrite Forall_fmap. apply Forall_forall. intros x _. split; [done|apply history_start].
  - by rewrite <- list_fmap_compose, list_fmap_id.
  - by rewrite length_fmap.
  - by eapply history_snoc.
  - intros _. apply H4. by destruct (vw_states v).
  - rewrite last_app_one. intros [= ->]. by apply Hcr.
  - by eapply record_gate_history.
  - by rewrite record_gate_ids.
  - unfold record_gate. by rewrite length_fmap.
  - intros c Hc' Hng. exfalso. eapply record_gate_passed; eauto.
  - rewrite Hnone. apply history_start.
  - intros c. rewrite Hnone. intros [= <-]. done.
  - intros Hdone. destruct Hrun as [Hrun|Hrun]; rewrite Hrun in Hdone; discriminate.
  - rewrite Hr, Hnone. done.
  - by eapply history_snoc.
  - intros c'. rewrite last_app_one. intros [= <-]. done.
  - intros Hdone. by destruct (live_not_completed _ Hlv Hdone).
  - rewrite Hr, last_app_one, Hl. rewrite !bool_decide_eq_false_2; [done|congruence|]. intros [= ->]. done.
  - by eapply history_snoc.
  - intros c'. rewrite last_app_one. intros [= <-]. done.
  - intros Hdone. by destruct (live_not_completed _ Hlv Hdone).
  - rewrite Hr, last_app_one, Hl. rewrite bool_decide_eq_false_2, bool_decide_eq_true_2; [done|done|]. intros [= ->]. done.
Qed.

(** A terminal run does not move. *)
Lemma terminal_stuck v v' s : last (vw_states v) = Some s -> terminalRunState s = true -> ~ run_move v v'.
Proof.
  intros Hs Ht Hm.
  assert (~ live v) as Hd by (intros (s' & Hs' & Ht'); congruence).
  destruct Hm as [| v s' next Hl Hn _ | | v [Hl|Hl] _ | |]; cbn in *; try done; try congruence.
  rewrite Hs in Hl. injection Hl as <-. by rewrite run_terminal_final in Hn.
  all: rewrite Hs in Hl; injection Hl as ->; done.
Qed.
