(* ===== verification/FactoryLedger.v ===== *)
(** * factory: the changes of the ledger

    Every call of the kernel leaves the ledger as it was or makes one of the
    changes of [change]: this file states them, with the guard each one has,
    and shows that every handler of [FactoryKernel] makes no other. *)

From Stdlib Require Import Ascii String.
From S2P Require Import Prelude GoString GoPath Float64 Runtime SqlTable FactoryTypes FactoryStore FactoryRoster FactoryMailbox FactoryPlan FactoryKernel FactoryMachine.
Open Scope string_scope.
Open Scope Z_scope.

(** ** The view of a run *)

Definition to_opt {A} (r : result factory_error A) : option A := match r with Ok x => Some x | Err _ => None end.

(** A history of texts read back. *)
Definition typed {A} (f : string -> result factory_error A) (l : list string) : list A := omap (fun s => to_opt (f s)) l.

Definition run_hist (d : DB) (k : RunKey) := typed runStateFromText (hist (db_run_states d) k "").
Definition gate_hist (d : DB) (k : RunKey) (g : string) := typed gateStatusFromText (hist (db_gate_states d) k g).
Definition cand_hist (d : DB) (k : RunKey) := typed candidateStateFromText (hist (db_candidate_states d) k "").
Definition rollbacks_of (d : DB) (k : RunKey) := List.filter (fun r => bool_decide (rb_key r = k)) (db_rollbacks d).

Definition view (d : DB) (k : RunKey) : RunView :=
  MkView (run_hist d k) ((fun g => (ga_gate g, gate_hist d k (ga_gate g))) <$> required_gates d k) (cand_hist d k)
    (length (rollbacks_of d k)).

Lemma typed_app {A} (f : string -> result factory_error A) l1 l2 : typed f (l1 ++ l2) = (typed f l1 ++ typed f l2)%list.
Proof. apply omap_app. Qed.

Lemma typed_snoc {A} (f : string -> result factory_error A) l s x : f s = Ok x -> typed f (l ++ [s]) = (typed f l ++ [x])%list.
Proof. intros Hf. rewrite typed_app. cbn. by rewrite Hf. Qed.

Lemma typed_last {A} (f : string -> result factory_error A) l s x : last l = Some s -> f s = Ok x -> last (typed f l) = Some x.
Proof. intros [l' ->]%last_Some Hf. rewrite (typed_snoc _ _ _ _ Hf). apply last_snoc. Qed.

(** ** Changes *)

Definition same_intent (a b : runRow) : Prop :=
  rk_tenant (rr_key a) = rk_tenant (rr_key b) /\ rk_principal (rr_key a) = rk_principal (rr_key b) /\ rr_intentID a = rr_intentID b.

Definition idem_key (i : idempotencyRow) : string * string * string * string := (ip_tenant i, ip_principal i, ip_operation i, ip_key i).

Definition pending_row (t : Z) (g : GateRow) : StateRow := MkState (ga_key g) (ga_gate g) 1 "PENDING" t.

(** What admission does to the ledger. *)
Definition admitted (d : DB) (r : runRow) (t1 t2 : Z) (i : idempotencyRow) (ns : list NodeRow) (gs : list GateRow) (ls : list Lease) : DB :=
  MkDB (db_sessions d) (db_runs d ++ [r]) (db_run_states d ++ [next_state (db_run_states d) (rr_key r) "" "PLANNING" t1])
    (db_idempotency d ++ [i]) (db_plan_nodes d ++ ns) (db_gates d ++ gs) (db_gate_states d ++ (pending_row t2 <$> gs))
    (db_leases d ++ ls) (db_results d) (db_messages d) (db_acks d) (db_candidates d) (db_candidate_states d) (db_rollbacks d)
    (db_findings d) (db_dispositions d).

Definition leaf_rows (ns : list NodeRow) : list NodeRow := List.filter (fun r => String.eqb (nr_kind r) "leaf") ns.

Section changes.
Context `{GoRuntime} `{PathsCodec}.

(** The leaf nodes are those of an accepted decomposition, in its order. *)
Definition planned (ns : list NodeRow) : Prop :=
  exists leaves approved, validateLeafSpecs leaves approved = Ok tt /\
    (nr_owned <$> leaf_rows ns) = ((fun l => jsonPaths (lf_OwnedPaths l)) <$> leaves).

Inductive change (d : DB) : DB -> Prop :=
| ch_admit r t1 t2 i ns gs ls :
    let k := rr_key r in
    let d' := admitted d r t1 t2 i ns gs ls in
    run_exists d k = false -> Forall (fun r' => ~ same_intent r' r) (db_runs d) ->
    Forall (fun n => nr_key n = k) ns -> Forall (fun g => ga_key g = k /\ ga_required g = true) gs ->
    length gs = 4%nat -> NoDup (ga_gate <$> gs) -> Forall (fun l => le_key l = k) ls -> fenced d' ->
    idem_key i ∉ idem_key <$> db_idempotency d -> planned ns ->
    change d d'
| ch_cancel k s t i :
    run_exists d k = true -> last (run_hist d k) = Some s -> validRunTransition s RunCancelled = true ->
    idem_key i ∉ idem_key <$> db_idempotency d ->
    change d (set_idempotency (db_idempotency d ++ [i])
                (set_run_states (db_run_states d ++ [next_state (db_run_states d) k "" "CANCELLED" t]) d))
| ch_run k s next text t :
    run_exists d k = true -> last (run_hist d k) = Some s -> validRunTransition s next = true ->
    (next = RunCompleted -> last (cand_hist d k) = Some CandRetained) -> runStateFromText text = Ok next ->
    change d (set_run_states (db_run_states d ++ [next_state (db_run_states d) k "" text t]) d)
| ch_result r l :
    last (run_hist d (rs_key r)) = Some RunRunning -> last (leases_of d (rs_key r) (rs_node r)) = Some l ->
    le_Fence l = rs_fence r -> existsb (is_result (rs_key r) (rs_node r)) (db_results d) = false ->
    run_exists d (rs_key r) = true ->
    change d (set_results (db_results d ++ [r]) d)
| ch_gate k g cur s text t :
    run_exists d k = true -> live (view d k) -> gate_exists d k g = true -> last (gate_hist d k g) = Some cur ->
    gate_next cur s = true -> gateStatusFromText text = Ok s ->
    change d (set_gate_states (db_gate_states d ++ [next_state (db_gate_states d) k g text t]) d)
| ch_propose c t :
    let k := cd_key c in
    run_exists d k = true -> last (run_hist d k) = Some RunRunning \/ last (run_hist d k) = Some RunReview ->
    cand_hist d k = [] -> existsb (fun p => bool_decide (cd_key p = k)) (db_candidates d) = false ->
    change d (set_candidate_states (db_candidate_states d ++ [next_state (db_candidate_states d) k "" "PROPOSED" t])
                (set_candidates (db_candidates d ++ [c]) d))
| ch_candidate k c next text t :
    run_exists d k = true -> live (view d k) -> last (cand_hist d k) = Some c -> validCandidateTransition c next = true ->
    next <> CandRejected -> (needs_gates next = true -> all_passed (vw_gates (view d k))) ->
    candidateStateFromText text = Ok next ->
    change d (set_candidate_states (db_candidate_states d ++ [next_state (db_candidate_states d) k "" text t]) d)
| ch_reject rb c t :
    let k := rb_key rb in
    run_exists d k = true -> live (view d k) -> last (cand_hist d k) = Some c -> validCandidateTransition c CandRejected = true ->
    change d (set_candidate_states (db_candidate_states d ++ [next_state (db_candidate_states d) k "" "REJECTED" t])
                (set_rollbacks (db_rollbacks d ++ [rb]) d))
| ch_finding f :
    run_exists d (fd_key f) = true -> last (run_hist d (fd_key f)) = Some RunReview ->
    existsb (is_finding (fd_key f) (fd_finding f)) (db_findings d) = false ->
    change d (set_findings (db_findings d ++ [f]) d)
| ch_disposition x f :
    f ∈ db_findings d -> is_finding (dp_key x) (dp_finding x) f = true ->
    (dp_disposition x = "DISMISSED_WITH_EVIDENCE" -> 0 < fd_evidence f) ->
    existsb (is_disposition (dp_key x) (dp_finding x)) (db_dispositions d) = false ->
    change d (set_dispositions (db_dispositions d ++ [x]) d)
| ch_message r :
    run_exists d (mr_key r) = true -> live (view d (mr_key r)) -> node_exists d (mr_key r) (mr_task r) = true ->
    lookup_message d (mr_key r) (mr_message r) = None ->
    mr_sequence r = coalesce_max mr_sequence (task_messages d (mr_key r) (mr_task r)) + 1 ->
    change d (set_messages (db_messages d ++ [r]) d)
| ch_ack x :
    existsb (is_message (ak_key x) (ak_message x)) (db_messages d) = true ->
    existsb (is_ack (ak_key x) (ak_message x)) (db_acks d) = false ->
    change d (set_acks (db_acks d ++ [x]) d).

Definition maybe_change (d d' : DB) : Prop := d' = d \/ change d d'.

(** ** Reading the view *)

(** The three state tables are densely numbered. *)
Record dense_db (d : DB) : Prop := {
  dd_run : dense (db_run_states d); dd_gate : dense (db_gate_states d); dd_cand : dense (db_candidate_states d)
}.

Lemma find_exists {A} (f : A -> bool) l x : List.find f l = Some x -> existsb f l = true.
Proof. intros [Hin Hf]%List.find_some. apply existsb_exists. eauto. Qed.

Lemma find_absent {A} (f : A -> bool) l : List.find f l = None -> existsb f l = false.
Proof.
  intros E. apply Bool.not_true_iff_false. intros (x & Hin & Hx)%existsb_exists.
  pose proof (List.find_none _ _ E x Hin). congruence.
Qed.

Lemma require_run_exists d a runID r : require_run d a runID = Ok r -> run_exists d (run_key a runID) = true.
Proof. unfold require_run, lookupRun. intros Hr. res_inv. by eapply find_exists. Qed.

Lemma currentRunState_view d a runID s :
  dense_db d -> currentRunState d a runID = Ok s -> last (run_hist d (run_key a runID)) = Some s.
Proof.
  intros [Hd _ _]. rewrite (currentRunState_hist _ _ _ Hd). destruct (last _) as [t|] eqn:El; [|done].
  by apply typed_last.
Qed.

Lemma currentGateStatus_view d a runID g s :
  dense_db d -> currentGateStatus d a runID g = Ok s -> last (gate_hist d (run_key a runID) g) = Some s.
Proof.
  intros [_ Hd _]. unfold currentGateStatus. rewrite (top_by_numbered _ _ (Hd _ _)).
  destruct (last _) as [r|] eqn:El; [|done]. apply typed_last. by rewrite last_hist, El.
Qed.

Lemma currentCandidateState_view d a runID o :
  dense_db d -> currentCandidateState d a runID = Ok o ->
  last (cand_hist d (run_key a runID)) = o /\ (o = None -> cand_hist d (run_key a runID) = []).
Proof.
  intros [_ _ Hd]. unfold currentCandidateState. rewrite (top_by_numbered _ _ (Hd _ _)).
  destruct (last _) as [r|] eqn:El.
  - intros Hc. res_inv. split; [|done]. eapply typed_last; [|done]. by rewrite last_hist, El.
  - intros [= <-]. apply last_None in El. unfold cand_hist, hist. by rewrite El.
Qed.

Lemma live_of d k s : last (run_hist d k) = Some s -> terminalRunState s = false -> live (view d k).
Proof. intros. by exists s. Qed.

Lemma requireLiveRun_view d a runID :
  dense_db d -> requireLiveRun d a runID = Ok tt -> run_exists d (run_key a runID) = true /\ live (view d (run_key a runID)).
Proof.
  intros Hd Hl. unfold requireLiveRun in Hl. res_inv.
  match goal with H : require_run _ _ _ = Ok _ |- _ => apply require_run_exists in H end.
  split; [done|]. eapply live_of; [by eapply currentRunState_view|done].
Qed.

Lemma gates_passed_view d k gates :
  dense_db d -> Forall (fun g => ga_key g = k) gates -> gates_passed d gates = Ok tt ->
  Forall (fun g => last (gate_hist d k (ga_gate g)) = Some GatePassed) gates.
Proof.
  intros Hd. induction 1 as [|g gates Hk _ IH]; [constructor|]. cbn. rewrite (top_by_numbered _ _ (dd_gate _ Hd _ _)).
  destruct (last _) as [r|] eqn:El; [|done]. destruct (String.eqb_spec (sr_state r) "PASSED") as [Es|]; [|done].
  intros Hg. constructor; [|by apply IH]. rewrite <- Hk.
  eapply typed_last; [rewrite last_hist, El; cbn; by rewrite Es|done].
Qed.

Lemma requireRequiredGatesPassed_view d a runID :
  dense_db d -> requireRequiredGatesPassed d a runID = Ok tt -> all_passed (vw_gates (view d (run_key a runID))).
Proof.
  intros Hd. unfold requireRequiredGatesPassed. intros Hg. res_inv. cbn.
  match goal with H : (_ =? _)%nat = true |- _ => apply Nat.eqb_eq in H end.
  split; cbn; [by rewrite length_fmap|]. rewrite Forall_fmap. cbn.
  match goal with H : gates_passed _ _ = Ok ?u |- _ => destruct u; eapply gates_passed_view in H; [done|done|] end.
  apply List.Forall_forall. intros g [_ Hf]%filter_In. by bool_prop.
Qed.

(** ** Appends *)

Lemma appendRunState_eq d a runID st t d' :
  dense_db d -> appendRunState d a runID st t = Ok d' ->
  exists text, runStateText st = Ok text /\
    d' = set_run_states (db_run_states d ++ [next_state (db_run_states d) (run_key a runID) "" text t]) d.
Proof.
  intros Hd Ha. unfold appendRunState in Ha. destruct (runStateText st) as [text|]; cbn [rbind] in Ha; [|done].
  rewrite insert_next in Ha by apply Hd. unfold of_insert in Ha. res_inv.
  exists text. done.
Qed.

Lemma appendGateState_eq d a runID g st t d' :
  dense_db d -> appendGateState d a runID g st t = Ok d' ->
  exists text, gateStatusText st = Ok text /\
    d' = set_gate_states (db_gate_states d ++ [next_state (db_gate_states d) (run_key a runID) g text t]) d.
Proof.
  intros Hd Ha. unfold appendGateState in Ha. destruct (gateStatusText st) as [text|]; cbn [rbind] in Ha; [|done].
  rewrite insert_next in Ha by apply Hd. unfold of_insert in Ha. res_inv.
  exists text. done.
Qed.

Lemma appendCandidateState_eq d a runID st t d' :
  dense (db_candidate_states d) -> appendCandidateState d a runID st t = Ok d' ->
  exists text, candidateStateText st = Ok text /\
    d' = set_candidate_states (db_candidate_states d ++ [next_state (db_candidate_states d) (run_key a runID) "" text t]) d.
Proof.
  intros Hd Ha. unfold appendCandidateState in Ha. destruct (candidateStateText st) as [text|]; cbn [rbind] in Ha; [|done].
  rewrite insert_next in Ha by apply Hd. unfold of_insert in Ha. res_inv.
  exists text. done.
Qed.

Lemma insertIdempotency_eq d a op key dg runID t d' :
  insertIdempotency d a op key dg runID t = Ok d' ->
  let i := MkIdem (id_Tenant a) (id_Principal a) op key dg runID t in
  idem_key i ∉ idem_key <$> db_idempotency d /\ d' = set_idempotency (db_idempotency d ++ [i]) d.
Proof.
  unfold insertIdempotency. intros Hi. res_inv. bool_prop. split; [|done].
  intros (j & Hj & Hin)%list_elem_of_fmap. unfold idem_key in Hj. cbn in Hj. injection Hj as E1 E2 E3 E4.
  match goal with H : ~ is_Some (lookupIdempotency _ _ _ _) |- _ => apply H end.
  unfold lookupIdempotency. destruct (List.find _ _) eqn:E; [done|]. apply find_absent in E.
  apply Bool.not_true_iff_false in E. destruct E. apply existsb_exists. exists j. split; [by apply list_elem_of_In|].
  by rewrite <- E1, <- E2, <- E3, <- E4, !String.eqb_refl.
Qed.

(** ** Handlers *)

Lemma finish_tx_cases {A} env d (body : result factory_error (A * option DB)) :
  snd (finish_tx env d body) = d \/ exists x d', body = Ok (x, Some d') /\ finish_tx env d body = (Ok x, d').
Proof.
  unfold finish_tx. destruct body as [[x [d'|]]|e]; [|by left|by left].
  destruct (ke_commit env); [right; by exists x, d'|by left].
Qed.

(** Either the ledger is untouched or the body of the transaction is committed. *)
Ltac tx := match goal with |- maybe_change _ (snd (finish_tx ?env ?d ?body)) =>
  let E := fresh "Hbody" in let F := fresh "Hfin" in
  destruct (finish_tx_cases env d body) as [F|(x & d' & E & F)]; rewrite F; [by left|cbn [snd]; clear F] end.

Ltac view_facts :=
  repeat match goal with
  | H : require_run _ _ _ = Ok _ |- _ => apply require_run_exists in H
  | Hd : dense_db ?d, H : currentRunState ?d _ _ = Ok _ |- _ => apply (currentRunState_view _ _ _ _ Hd) in H
  | Hd : dense_db ?d, H : currentGateStatus ?d _ _ _ = Ok _ |- _ => apply (currentGateStatus_view _ _ _ _ _ Hd) in H
  | Hd : dense_db ?d, H : currentCandidateState ?d _ _ = Ok _ |- _ => apply (currentCandidateState_view _ _ _ _ Hd) in H as [H ?]
  | Hd : dense_db ?d, H : requireLiveRun ?d _ _ = Ok ?u |- _ => destruct u; apply (requireLiveRun_view _ _ _ Hd) in H as [? ?]
  | Hd : dense_db ?d, H : requireRequiredGatesPassed ?d _ _ = Ok ?u |- _ => destruct u; apply (requireRequiredGatesPassed_view _ _ _ Hd) in H
  | Hd : dense_db ?d, H : appendRunState ?d _ _ _ _ = Ok _ |- _ => apply (appendRunState_eq _ _ _ _ _ _ Hd) in H as (? & ? & ->)
  | Hd : dense_db ?d, H : appendGateState ?d _ _ _ _ _ = Ok _ |- _ => apply (appendGateState_eq _ _ _ _ _ _ _ Hd) in H as (? & ? & ->)
  | H : insertIdempotency _ _ _ _ _ _ _ = Ok _ |- _ => apply insertIdempotency_eq in H as [? ->]
  end.

Lemma CancelChangeRun_change env q d : dense_db d -> maybe_change d (snd (CancelChangeRun env q d)).
Proof.
  intros Hd. unfold CancelChangeRun.
  destruct (_ || _); [by left|]. destruct (rbind _ _); [|by left].
  destruct (lookupIdempotency _ _ _ _); [destruct (negb _); by left|]. tx. res_inv. view_facts.
  simplify_eq/=. right. eapply ch_cancel; [done|done| |done]. unfold validRunTransition. by rewrite Heqb.
Qed.

Lemma TransitionRun_change env a runID next d : dense_db d -> maybe_change d (snd (TransitionRun env a runID next d)).
Proof.
  intros Hd. unfold TransitionRun. destruct (_ || _); [by left|]. destruct (negb _); [by left|]. tx. res_inv; view_facts; bool_prop.
  all: right; eapply ch_run; [done|done|done| |by apply runStateText_inv]; congruence.
Qed.

Lemma CommitLeafResult_change env a runID node fence payload d :
  dense_db d -> fenced d -> maybe_change d (snd (CommitLeafResult env a runID node fence payload d)).
Proof.
  intros Hd Hf. unfold CommitLeafResult. destruct (_ || _); [by left|]. tx. res_inv. view_facts. bool_prop. subst.
  match goal with H : CommitResult _ _ _ _ _ _ _ _ = Ok ?p |- _ => destruct p as [res d'];
    apply (CommitResult_cases _ _ _ _ _ _ _ _ _ _ Hf) in H as (l & Hl & Hfe & _ & _ & _ & _ & Hc) end.
  destruct Hc as [(_ & -> & _)|(_ & Hn & _ & ->)]; [by left|right]. by eapply ch_result.
Qed.

Lemma gate_next_record cur status :
  gate_final cur = false -> bool_decide (status = GateRunning) = true \/ gate_final status = true ->
  bool_decide (status = GateRunning) && negb (bool_decide (cur = GatePending)) = false ->
  forall text, gateStatusFromText text = Ok cur -> gate_next cur status = true.
Proof. by destruct cur, status; intros ? [?|?] ? text Hc; unfold gateStatusFromText in Hc; res_inv. Qed.

Lemma gate_exists_count d k g : (length (List.filter (is_gate k g) (db_gates d)) =? 1)%nat = true -> gate_exists d k g = true.
Proof.
  unfold gate_exists. intros Hl%Nat.eqb_eq. destruct (List.filter _ _) as [|x l] eqn:E; [done|]. apply existsb_exists. exists x.
  apply filter_In. rewrite E. by left.
Qed.

Lemma RecordGateResult_change env a runID g status d :
  dense_db d -> maybe_change d (snd (RecordGateResult env a runID g status d)).
Proof.
  intros Hd. unfold RecordGateResult. destruct (_ || _); [by left|].
  destruct (negb (bool_decide (status = GateRunning)) && negb (gate_final status)) eqn:Es; [by left|]. tx. res_inv.
  assert (gate_next a2 status = true) as Hn.
  { apply andb_false_iff in Es. unfold currentGateStatus in E1. res_inv. eapply gate_next_record; [done| |done|done].
    destruct Es as [Es|Es]; apply negb_false_iff in Es; auto. }
  view_facts. right. eapply ch_gate; [done|by eapply live_of| |done|done|by apply gateStatusText_inv].
  apply gate_exists_count. by bool_prop.
Qed.

(** No candidate row: no candidate history. *)
Definition candidates_ok (d : DB) : Prop :=
  forall k, existsb (fun c => bool_decide (cd_key c = k)) (db_candidates d) = false -> cand_hist d k = [].

Lemma ProposeCandidate_change env a runID p d :
  dense_db d -> candidates_ok d -> maybe_change d (snd (ProposeCandidate env a runID p d)).
Proof.
  intros Hd Hc. unfold ProposeCandidate. destruct (_ || _); [by left|]. tx. res_inv. view_facts. right.
  unfold lookupCandidate in Heqo. apply find_absent in Heqo. unfold insert_candidate in E6. res_inv.
  apply appendCandidateState_eq in E7 as (text & [= <-] & ->); [|apply Hd].
  eapply (ch_propose d (MkCandidate (run_key a runID) _ _ _ _)); cbn; [done| |by apply Hc|done].
  apply andb_false_iff in Heqb as [Heqb|Heqb]; bool_prop; subst; auto.
Qed.

Lemma TransitionCandidate_change env a runID next rollback d :
  dense_db d -> maybe_change d (snd (TransitionCandidate env a runID next rollback d)).
Proof.
  intros Hd. unfold TransitionCandidate. destruct (_ || _); [by left|]. destruct (negb (is_ok _)); [by left|].
  destruct (bool_decide (next = CandProposed)); [by left|].
  destruct (negb (Bool.eqb (bool_decide (next = CandRejected)) (some rollback))) eqn:Er; [by left|].
  apply negb_false_iff, eqb_prop in Er.
  destruct (match rollback with Some _ => _ | None => _ end); [by left|]. tx.
  destruct rollback as [rb|]; cbn in Er; bool_prop; subst; res_inv; bool_prop; view_facts; right.
  { unfold insert_rollback in *. res_inv.
    match goal with H : appendCandidateState _ _ _ _ _ = Ok _ |- _ => apply appendCandidateState_eq in H as (text & [= <-] & ->); [|apply Hd] end.
    eapply (ch_reject d (MkRollback _ _ _ _ _)); cbn; [done|by eapply live_of|done|done]. }
  all: match goal with H : appendCandidateState _ _ _ _ _ = Ok _ |- _ => apply appendCandidateState_eq in H as (text & Ht & ->); [|apply Hd] end.
  all: eapply ch_candidate; [done|by eapply live_of|done|done|done|congruence|by apply candidateStateText_inv].
Qed.

Lemma RecordFinding_change env a runID f d : dense_db d -> maybe_change d (snd (RecordFinding env a runID f d)).
Proof.
  intros Hd. unfold RecordFinding. destruct (_ || _); [by left|]. tx. res_inv. view_facts. bool_prop. subst. right.
  unfold insert_finding in *. res_inv. bool_prop. apply ch_finding; done.
Qed.

Lemma DisposeFinding_change env a runID id disp d : maybe_change d (snd (DisposeFinding env a runID id disp d)).
Proof.
  unfold DisposeFinding. destruct (_ || _); [by left|]. tx. res_inv. right.
  unfold insert_disposition in *. cbn in *. res_inv. bool_prop.
  match goal with H : List.find (is_finding _ _) _ = Some f |- _ => apply List.find_some in H as [Hin Hf] end.
  eapply ch_disposition; cbn; [by apply list_elem_of_In|done| |done]. intros ->.
  match goal with H : _ && _ = false |- _ => rewrite String.eqb_refl in H; cbn in H end. by bool_prop.
Qed.

Lemma SendMailboxMessage_change env a runID m d : dense_db d -> maybe_change d (snd (SendMailboxMessage env a runID m d)).
Proof.
  intros Hd. unfold SendMailboxMessage. destruct (_ || _); [by left|]. tx. res_inv. view_facts.
  match goal with H : Send _ _ _ = Ok ?p |- _ => destruct p as [s d'];
    apply Send_cases in H as [(_ & -> & _)|(_ & Hn & Hs & Hr & Hno & row & -> & Hk & Hid & Ht & _ & _ & Hseq)] end; [by left|].
  right. cbn in *. apply ch_message; rewrite ?Hk, ?Hid, ?Ht, ?Hseq; done.
Qed.

Lemma Acknowledge_cases now d k id b d' :
  Acknowledge now d k id = Ok (b, d') ->
  existsb (is_message k id) (db_messages d) = true /\
  ((b = true /\ d' = d) \/
   (b = false /\ existsb (is_ack k id) (db_acks d) = false /\ d' = set_acks (db_acks d ++ [MkAck k id now]) d)).
Proof.
  unfold Acknowledge, insert_ack, lookup_message. intros Ha. res_inv; cbn in *; bool_prop; (split; [by eapply find_exists|]); auto.
Qed.

Lemma AcknowledgeMailboxMessage_change env a runID id d : maybe_change d (snd (AcknowledgeMailboxMessage env a runID id d)).
Proof.
  unfold AcknowledgeMailboxMessage. destruct (_ || _); [by left|]. tx. res_inv.
  match goal with H : Acknowledge _ _ _ _ = Ok ?p |- _ => destruct p as [b d'];
    apply Acknowledge_cases in H as [Hm [[_ ->]|(_ & Hn & ->)]] end; [by left|right]. by apply ch_ack.
Qed.

(** ** Admission *)

Lemma rfold_nodes a runID ns d d' :
  rfold (insertPlanNode a runID) d ns = Ok d' -> d' = set_plan_nodes (db_plan_nodes d ++ (node_row a runID <$> ns)) d.
Proof.
  revert d. induction ns as [|n ns IH]; intros d; cbn [rfold fmap list_fmap].
  - intros [= <-]. destruct d. cbn. by rewrite app_nil_r.
  - intros Hr. destruct (insertPlanNode a runID d n) as [d1|] eqn:E; cbn [rbind] in Hr; [|done]. apply IH in Hr as ->.
    unfold insertPlanNode in E. destruct (_ && _); [|done]. injection E as <-. cbn. by rewrite <- app_assoc.
Qed.

Lemma insertGate_eq a runID t d g d' :
  gs_Status g = GatePending -> insertGate a runID t d g = Ok d' ->
  exists r, ga_key r = run_key a runID /\ ga_gate r = gs_GateID g /\ ga_required r = gs_Required g /\
    gate_exists d (run_key a runID) (gs_GateID g) = false /\
    d' = set_gate_states (db_gate_states d ++ [pending_row t r]) (set_gates (db_gates d ++ [r]) d).
Proof.
  intros Hp. unfold insertGate. rewrite Hp. intros Hi. destruct (gateKindText (gs_Kind g)) as [kind|]; cbn [rbind] in Hi; [|done].
  destruct (negb (gate_exists _ _ _) && _ && _) eqn:Eg; [|done]. cbn [gateStatusText rbind] in Hi.
  unfold insert_state in Hi. destruct (one_of _ _ && _ && _ && _ && _) in Hi; cbn in Hi; [|done]. injection Hi as <-. bool_prop.
  exists (MkGate (run_key a runID) (gs_GateID g) kind (gs_Required g)). done.
Qed.

Lemma rfold_gates a runID t specs d d' :
  Forall (fun g => gs_Status g = GatePending) specs -> rfold (insertGate a runID t) d specs = Ok d' ->
  exists gs, d' = set_gate_states (db_gate_states d ++ (pending_row t <$> gs)) (set_gates (db_gates d ++ gs) d) /\
    Forall2 (fun r g => ga_key r = run_key a runID /\ ga_required r = gs_Required g) gs specs /\ NoDup (ga_gate <$> gs) /\
    Forall (fun r => gate_exists d (run_key a runID) (ga_gate r) = false) gs.
Proof.
  revert d. induction specs as [|g specs IH]; intros d Hp; cbn [rfold].
  - intros [= <-]. exists []. destruct d. cbn. rewrite !app_nil_r. repeat split; constructor.
  - apply Forall_cons in Hp as [Hg Hp]. intros Hr.
    destruct (insertGate a runID t d g) as [d1|] eqn:E; cbn [rbind] in Hr; [|done].
    apply (insertGate_eq _ _ _ _ _ _ Hg) in E as (r & Hk & Hid & Hq & Hn & ->).
    apply (IH _ Hp) in Hr as (gs & -> & H2 & Hnd & Hf). exists (r :: gs). cbn in Hf. cbn.
    assert (forall x, gate_exists (set_gate_states (db_gate_states d ++ [pending_row t r]) (set_gates (db_gates d ++ [r]) d))
              (run_key a runID) x = gate_exists d (run_key a runID) x || (String.eqb (ga_gate r) x)) as Hex.
    { intros x. unfold gate_exists. cbn. rewrite existsb_app. cbn. unfold is_gate. by rewrite Hk, bool_decide_eq_true_2, orb_false_r. }
    rewrite Forall_forall in Hf. setoid_rewrite Hex in Hf.
    split_and!; [by rewrite <- !app_assoc|by constructor| |].
    + constructor; [|done]. intros (x & Hx & Hin)%list_elem_of_fmap. specialize (Hf x Hin).
      rewrite <- Hx, String.eqb_refl, orb_true_r in Hf. done.
    + constructor; [by rewrite Hid|]. apply Forall_forall. intros x Hx. specialize (Hf x Hx). by apply orb_false_iff in Hf as [? _].
Qed.

Lemma rfold_leases env a runID ns d d' :
  rfold (issue_leaf env a runID) d ns = Ok d' ->
  exists ls, d' = set_leases (db_leases d ++ ls) d /\ Forall (fun l => le_key l = run_key a runID) ls /\ (fenced d -> fenced d').
Proof.
  revert d. induction ns as [|n ns IH]; intros d; cbn [rfold].
  - intros [= <-]. exists []. destruct d. cbn. rewrite app_nil_r. repeat split; try constructor. done.
  - intros Hr. destruct (issue_leaf env a runID d n) as [d1|] eqn:E; cbn [rbind] in Hr; [|done].
    apply IH in Hr as (ls & -> & Hk & Hf). unfold issue_leaf in E.
    destruct (pn_Kind (cn_node n)); [injection E as <-; by exists ls| |injection E as <-; by exists ls].
    destruct (Issue _ _ _) as [[l' d2]|] eqn:Ei; cbn in E; [|done]. injection E as <-.
    pose proof Ei as (Hd1 & Hlk & _)%Issue_spec. cbn in Hlk. exists (l' :: ls). split_and!.
    + rewrite Hd1. cbn. by rewrite <- app_assoc.
    + by constructor.
    + intros Hfd. apply Hf. by eapply Issue_fenced.
Qed.

Lemma compile_leaves_spec c leaves ns :
  compile_leaves c leaves = Ok ns ->
  Forall2 (fun n l => pn_Kind (cn_node n) = KindLeaf /\ pn_OwnedPaths (cn_node n) = lf_OwnedPaths l) ns leaves.
Proof.
  revert ns. induction leaves as [|l leaves IH]; intros ns; cbn; [intros [= <-]; constructor|].
  intros Hc. destruct (compile_leaf c l) as [n|] eqn:E; cbn [rbind] in Hc; [|done].
  destruct (compile_leaves c leaves) as [ns'|]; cbn [rbind] in Hc; [|done]. injection Hc as <-. constructor; [|by apply IH].
  unfold compile_leaf in E. destruct (pc_route _ _); [|done]. destruct (negb _); [done|]. by injection E as <-.
Qed.

Lemma leaf_rows_app l1 l2 : leaf_rows (l1 ++ l2) = (leaf_rows l1 ++ leaf_rows l2)%list.
Proof. apply List.filter_app. Qed.

Lemma leaf_rows_compiled a runID ns leaves :
  Forall2 (fun n l => pn_Kind (cn_node n) = KindLeaf /\ pn_OwnedPaths (cn_node n) = lf_OwnedPaths l) ns leaves ->
  (nr_owned <$> leaf_rows (node_row a runID <$> ns)) = ((fun l => jsonPaths (lf_OwnedPaths l)) <$> leaves).
Proof.
  induction 1 as [|n l ns leaves [Hk Ho] _ IH]; [done|]. rewrite !fmap_cons, <- IH, <- Ho.
  unfold leaf_rows. cbn [List.filter]. unfold node_row at 1. rewrite Hk. done.
Qed.

Lemma compilePlan_planned ok c leaves scope review plan nodes a runID :
  compilePlan ok c leaves scope review = Ok (plan, nodes) -> planned (node_row a runID <$> nodes).
Proof.
  unfold compilePlan. intros Hc. destruct (validateLeafSpecs leaves scope) as [[]|] eqn:Hv; cbn [rbind] in Hc; [|done].
  destruct (compile_leaves c leaves) as [ns|] eqn:El; cbn [rbind] in Hc; [|done]. destruct (ok _); [|done]. injection Hc as _ <-.
  exists leaves, scope. split; [done|]. apply compile_leaves_spec, (leaf_rows_compiled a runID) in El.
  rewrite fmap_cons, fmap_app. change (leaf_rows (?x :: ?l)) with (leaf_rows ([x] ++ l)%list). rewrite !leaf_rows_app.
  change (leaf_rows [node_row a runID (plain_node c orchestratorNodeID KindOrchestrator)]) with (@nil NodeRow).
  assert (leaf_rows (node_row a runID <$> (if review then [plain_node c reviewNodeID KindReview] else [])) = []) as -> by (by destruct review).
  by rewrite app_nil_r.
Qed.

Lemma compilePlan_gates ok c leaves scope review plan nodes :
  compilePlan ok c leaves scope review = Ok (plan, nodes) -> pl_Gates plan = plan_gates (pc_runID c).
Proof. unfold compilePlan. intros Hc. res_inv. done. Qed.

Lemma insert_run_eq d r d' :
  insert_run d r = Ok d' ->
  run_exists d (rr_key r) = false /\ Forall (fun r' => ~ same_intent r' r) (db_runs d) /\ d' = set_runs (db_runs d ++ [r]) d.
Proof.
  unfold insert_run. intros Hi. destruct (_ && _) eqn:E; [|done]. injection Hi as <-. bool_prop. split_and!; try done.
  apply Forall_forall. intros r' Hin (E1 & E2 & E3).
  match goal with H : existsb _ _ = false |- _ => apply Bool.not_true_iff_false in H; apply H end.
  apply existsb_exists. exists r'. split; [by apply list_elem_of_In|]. by rewrite E1, E2, E3, !String.eqb_refl.
Qed.

(** The ledger a successful admission commits. *)
Lemma admit_tx_shape env q runID planID dg rdg art plan nodes d x d' :
  dense_db d -> fenced d -> pl_Gates plan = plan_gates runID ->
  admit_tx env q runID planID dg rdg art plan nodes d = Ok (x, Some d') ->
  let a := am_Authenticated q in
  x = MkRunResult runID false /\
  exists r t1 t2 t3 gs ls,
    let i := MkIdem (id_Tenant a) (id_Principal a) "admit" (am_IdempotencyKey q) rdg runID t3 in
    d' = admitted d r t1 t2 i (node_row a runID <$> nodes) gs ls /\
    rr_key r = run_key a runID /\ rr_intentID r = in_IntentID (am_Intent q) /\ rr_repositoryGitOID r = in_RepositoryGitOid (am_Intent q) /\
    run_exists d (rr_key r) = false /\ Forall (fun r' => ~ same_intent r' r) (db_runs d) /\
    Forall (fun g => ga_key g = rr_key r /\ ga_required g = true) gs /\ length gs = 4%nat /\ NoDup (ga_gate <$> gs) /\
    Forall (fun l => le_key l = rr_key r) ls /\ fenced d' /\ idem_key i ∉ idem_key <$> db_idempotency d.
Proof.
  intros Hd Hf Hp. unfold admit_tx. destruct (intent_admitted _ _ _); [done|]. intros Ht.
  destruct (insert_run _ _) as [d1|] eqn:E1; cbn [rbind] in Ht; [|done]. apply insert_run_eq in E1 as (Hr & Hi & ->).
  destruct (appendRunState _ _ _ _ _) as [d2|] eqn:E2; cbn [rbind] in Ht; [|done].
  apply appendRunState_eq in E2 as (text & [= <-] & ->); [|split; apply Hd].
  destruct (rfold (insertPlanNode _ _) _ _) as [d3|] eqn:E3; cbn [rbind] in Ht; [|done]. apply rfold_nodes in E3 as ->.
  destruct (rfold (insertGate _ _ _) _ _) as [d4|] eqn:E4; cbn [rbind] in Ht; [|done]. rewrite Hp in E4.
  apply rfold_gates in E4 as (gs & -> & H2 & Hnd & _); [|by repeat constructor].
  destruct (rfold (issue_leaf _ _ _) _ _) as [d5|] eqn:E5; cbn [rbind] in Ht; [|done].
  apply rfold_leases in E5 as (ls & -> & Hls & Hfe).
  destruct (insertIdempotency _ _ _ _ _ _ _) as [d6|] eqn:E6; cbn [rbind] in Ht; [|done].
  apply insertIdempotency_eq in E6 as [Hid ->]. injection Ht as <- <-.
  split; [done|]. match type of Hr with run_exists _ (rr_key ?r) = _ => exists r end.
  do 3 eexists. exists gs, ls. split; [reflexivity|]. cbn in *. split_and!; try done.
  - apply Forall_forall. intros g Hg. apply list_elem_of_lookup in Hg as [i Hg].
    destruct (Forall2_lookup_l _ _ _ _ _ H2 Hg) as (y & Hy & Hk & Hq). split; [done|].
    rewrite Hq. do 4 (destruct i as [|i]; [by injection Hy as <-|]). done.
  - apply Forall2_length in H2. done.
  - by apply Hfe.
Qed.

Lemma admit_tx_change env q runID planID dg rdg art plan nodes d x d' :
  dense_db d -> fenced d -> pl_Gates plan = plan_gates runID -> planned (node_row (am_Authenticated q) runID <$> nodes) ->
  admit_tx env q runID planID dg rdg art plan nodes d = Ok (x, Some d') -> change d d'.
Proof.
  intros Hd Hf Hp Hpl Ht. destruct (admit_tx_shape _ _ _ _ _ _ _ _ _ _ _ _ Hd Hf Hp Ht)
    as (_ & r & t1 & t2 & t3 & gs & ls & -> & Hk & _ & _ & Hn & Hi & Hg & H4 & Hnd & Hls & Hfe & Hid).
  apply ch_admit; try done. rewrite Forall_fmap, Hk. by apply Forall_forall.
Qed.

(** A successful admission is a replay, or the transaction on a compiled plan. *)
Lemma AdmitChangeIntent_Ok env q d x d' :
  AdmitChangeIntent env q d = (Ok x, d') ->
  exists bytes, ke_intent_bytes env (am_Intent q) = Some bytes /\
  let a := am_Authenticated q in
  let rdg := admissionRequestDigest (digestBytes bytes) q in
  (d' = d /\ exists row, lookupIdempotency d a "admit" (am_IdempotencyKey q) = Some row /\ ip_requestDigest row = rdg /\
     x = MkRunResult (ip_runID row) true) \/
  (lookupIdempotency d a "admit" (am_IdempotencyKey q) = None /\
   exists c plan nodes planID art,
     compilePlan (ke_plan_ok env) c (am_Leaves q) (am_ApprovedScopePaths q) (am_Review q) = Ok (plan, nodes) /\
     admit_tx env q (pc_runID c) planID (digestBytes bytes) rdg art plan nodes d = Ok (x, Some d')).
Proof.
  unfold AdmitChangeIntent. destruct (_ || _); [done|].
  destruct (crossCheck _ _); cbn [rbind]; [|done]. destruct (authorize _ _); cbn [rbind]; [|done].
  destruct (revalidateIntent _ _); cbn [rbind]; [|done]. destruct (validateLeafSpecs _ _); cbn [rbind]; [|done].
  destruct (ke_intent_bytes env (am_Intent q)) as [bytes|]; [|done]. intros Ha. exists bytes. split; [done|].
  destruct (lookupIdempotency _ _ _ _) as [row|] eqn:El.
  - left. destruct (negb _) eqn:E; [done|]. injection Ha as <- <-. split; [done|]. exists row. bool_prop.
    by match goal with H : String.eqb _ _ = true |- _ => apply String.eqb_eq in H end.
  - right. split; [done|]. unfold admit_new in Ha. destruct (ke_base env); [|done]. destruct (negb _); [done|].
    destruct (intent_admitted _ _ _); [done|].
    destruct (stageGoals _ _ _) as [goals|]; cbn [rbind] in Ha; [|done]. destruct (stagePayload _ _ _ _) as [st|]; cbn [rbind] in Ha; [|done].
    destruct (compilePlan _ _ _ _ _) as [[plan nodes]|] eqn:Ec; cbn [rbind] in Ha; [|done].
    destruct (admit_tx _ _ _ _ _ _ _ _ _ _) as [[y [d2|]]|] eqn:Et; [| |done].
    + cbn in Ha. destruct (ke_commit env); [|done]. injection Ha as -> ->. do 5 eexists. split; [exact Ec|exact Et].
    + exfalso. unfold admit_tx in Et. clear Ha Ec. res_inv.
Qed.

Lemma AdmitChangeIntent_change env q d :
  dense_db d -> fenced d -> maybe_change d (snd (AdmitChangeIntent env q d)).
Proof.
  intros Hd Hf. unfold AdmitChangeIntent. destruct (_ || _); [by left|]. destruct (rbind _ _) as [bytes|]; [|by left].
  destruct (lookupIdempotency _ _ _ _); [destruct (negb _); by left|]. unfold admit_new.
  destruct (ke_base env); [|by left]. destruct (negb _); [by left|]. destruct (intent_admitted _ _ _); [by left|]. tx. right.
  destruct (stageGoals _ _ _); cbn [rbind] in Hbody; [|done]. destruct (stagePayload _ _ _ _); cbn [rbind] in Hbody; [|done].
  destruct (compilePlan _ _ _ _ _) as [[plan nodes]|] eqn:Ec; cbn [rbind] in Hbody; [|done].
  eapply admit_tx_change; [done|done| | |exact Hbody]; [by apply compilePlan_gates in Ec|by eapply compilePlan_planned].
Qed.
End changes.
