(* ===== verification/FactoryInvariant.v ===== *)
(** * factory: the reachable ledgers

    The kernel as a state machine: a step is one call of any handler, with any
    arguments and any environment.  The ledger invariant is proved by rule
    induction over the steps; with it the ledger refines the abstract run
    machine of [FactoryMachine], one run at a time. *)

From Stdlib Require Import Ascii String.
From S2P Require Import Prelude GoString GoPath Float64 Runtime SqlTable FactoryTypes FactoryStore FactoryRoster FactoryMailbox FactoryPlan FactoryKernel FactoryMachine FactoryLedger.
Open Scope string_scope.
Open Scope Z_scope.

(** ** Steps *)

Section steps.
Context `{GoRuntime} `{PathsCodec}.

Inductive kernel_step (d : DB) : DB -> Prop :=
| st_admit env q : kernel_step d (snd (AdmitChangeIntent env q d))
| st_cancel env q : kernel_step d (snd (CancelChangeRun env q d))
| st_run env a runID next : kernel_step d (snd (TransitionRun env a runID next d))
| st_leaf env a runID node fence payload : kernel_step d (snd (CommitLeafResult env a runID node fence payload d))
| st_gate env a runID gate status : kernel_step d (snd (RecordGateResult env a runID gate status d))
| st_propose env a runID p : kernel_step d (snd (ProposeCandidate env a runID p d))
| st_candidate env a runID next rollback : kernel_step d (snd (TransitionCandidate env a runID next rollback d))
| st_finding env a runID f : kernel_step d (snd (RecordFinding env a runID f d))
| st_dispose env a runID id disp : kernel_step d (snd (DisposeFinding env a runID id disp d))
| st_send env a runID m : kernel_step d (snd (SendMailboxMessage env a runID m d))
| st_ack env a runID id : kernel_step d (snd (AcknowledgeMailboxMessage env a runID id d)).
End steps.

(** A migrated database: sessions, and no factory row. *)
Definition fresh_ledger (sessions : list (string * string * string)) : DB :=
  MkDB sessions [] [] [] [] [] [] [] [] [] [] [] [] [] [] [].

Definition reachable `{GoRuntime} `{PathsCodec} (d : DB) : Prop := exists sessions, rtc kernel_step (fresh_ledger sessions) d.

(** ** The invariant *)

(** The run keys the dependent tables mention. *)
Definition keys (d : DB) : list RunKey :=
  ((sr_key <$> db_run_states d) ++ (sr_key <$> db_gate_states d) ++ (sr_key <$> db_candidate_states d)
   ++ (nr_key <$> db_plan_nodes d) ++ (ga_key <$> db_gates d) ++ (le_key <$> db_leases d) ++ (rs_key <$> db_results d)
   ++ (mr_key <$> db_messages d) ++ (cd_key <$> db_candidates d) ++ (rb_key <$> db_rollbacks d) ++ (fd_key <$> db_findings d))%list.

Definition intent_of (r : runRow) : string * string * string := (rk_tenant (rr_key r), rk_principal (rr_key r), rr_intentID r).

(** Every recorded state reads back. *)
Record readable (d : DB) : Prop := {
  rd_run : Forall (fun r => is_ok (runStateFromText (sr_state r)) = true) (db_run_states d);
  rd_gate : Forall (fun r => is_ok (gateStatusFromText (sr_state r)) = true) (db_gate_states d);
  rd_cand : Forall (fun r => is_ok (candidateStateFromText (sr_state r)) = true) (db_candidate_states d)
}.

Definition nodes_of (d : DB) (k : RunKey) : list NodeRow := List.filter (fun r => bool_decide (nr_key r = k)) (db_plan_nodes d).

Section preservation.
Context `{GoRuntime} `{PathsCodec}.

Record kernel_inv (d : DB) : Prop := {
  li_dense : dense_db d;
  li_readable : readable d;
  li_fenced : fenced d;
  li_mailbox : mailbox_inv d;
  li_foreign : Forall (fun k => run_exists d k = true) (keys d);
  li_runs : NoDup (rr_key <$> db_runs d);
  li_intents : NoDup (intent_of <$> db_runs d);
  li_idempotency : NoDup (idem_key <$> db_idempotency d);
  li_required : Forall (fun g => ga_required g = true) (db_gates d);
  li_results : NoDup ((fun r => (rs_key r, rs_node r)) <$> db_results d);
  li_fences : Forall (fun r => exists l, l ∈ leases_of d (rs_key r) (rs_node r) /\ le_Fence l = rs_fence r) (db_results d);
  li_candidates : candidates_ok d;
  li_planned : forall k, run_exists d k = true -> planned (nodes_of d k)
}.

(** ** Lemmas on tables *)

Lemma run_exists_spec d k : run_exists d k = true <-> k ∈ rr_key <$> db_runs d.
Proof.
  unfold run_exists. rewrite existsb_exists, list_elem_of_fmap. split.
  - intros (r & Hin & Hk). unfold is_run in Hk. bool_prop. exists r. split; [done|by apply list_elem_of_In].
  - intros (r & -> & Hin). exists r. split; [by apply list_elem_of_In|]. unfold is_run. by rewrite bool_decide_eq_true_2.
Qed.

Lemma hist_app t1 t2 k sub : hist (t1 ++ t2) k sub = (hist t1 k sub ++ hist t2 k sub)%list.
Proof. unfold hist, states_of. by rewrite List.filter_app, fmap_app. Qed.

Lemma hist_other t k sub : Forall (fun r => sr_key r <> k) t -> hist t k sub = [].
Proof.
  unfold hist. intros Hk. assert (states_of t k sub = []) as ->; [|done].
  induction Hk as [|r t Hr _ IH]; [done|]. cbn. destruct (is_state k sub r) eqn:E; [|done]. by apply is_state_spec in E as [? _].
Qed.

Lemma filter_all {A} (f : A -> bool) l : Forall (fun x => f x = true) l -> List.filter f l = l.
Proof. induction 1 as [|x l Hx _ IH]; [done|]. cbn. by rewrite Hx, IH. Qed.

(** No row of a run that does not exist. *)
Lemma keys_absent d k : Forall (fun k => run_exists d k = true) (keys d) -> run_exists d k = false -> k ∉ keys d.
Proof. rewrite Forall_forall. intros Hf Hn Hin. specialize (Hf k Hin). congruence. Qed.

Lemma fmap_absent {A B} (f : A -> B) (l : list A) k : k ∉ f <$> l -> Forall (fun x => f x <> k) l.
Proof. intros Hn. apply Forall_forall. intros x Hx <-. apply Hn, list_elem_of_fmap. eauto. Qed.

Lemma NoDup_fmap_snoc {A B} (f : A -> B) l x : NoDup (f <$> l) -> f x ∉ f <$> l -> NoDup (f <$> (l ++ [x])%list).
Proof.
  intros Hn Hx. rewrite fmap_app. apply NoDup_app. split_and!; [done| |apply NoDup_singleton].
  intros y Hy ->%list_elem_of_singleton. done.
Qed.

(** ** Views and updates *)

Section views.
Context (d : DB) (t : Z).

Lemma run_hist_next k text s k' :
  runStateFromText text = Ok s ->
  run_hist (set_run_states (db_run_states d ++ [next_state (db_run_states d) k "" text t]) d) k' =
  if bool_decide (k = k') then (run_hist d k' ++ [s])%list else run_hist d k'.
Proof.
  intros Hs. unfold run_hist. cbn [db_run_states set_run_states]. rewrite hist_next, andb_true_r. destruct (bool_decide _); [|done]. by apply typed_snoc.
Qed.

Lemma cand_hist_next k text s k' :
  candidateStateFromText text = Ok s ->
  typed candidateStateFromText (hist (db_candidate_states d ++ [next_state (db_candidate_states d) k "" text t]) k' "") =
  if bool_decide (k = k') then (cand_hist d k' ++ [s])%list else cand_hist d k'.
Proof. intros Hs. rewrite hist_next, andb_true_r. destruct (bool_decide _); [|done]. by apply typed_snoc. Qed.

Lemma gate_hist_next k g text s k' g' :
  gateStatusFromText text = Ok s ->
  gate_hist (set_gate_states (db_gate_states d ++ [next_state (db_gate_states d) k g text t]) d) k' g' =
  if bool_decide (k = k') && String.eqb g g' then (gate_hist d k' g' ++ [s])%list else gate_hist d k' g'.
Proof. intros Hs. unfold gate_hist. cbn [db_gate_states set_gate_states]. rewrite hist_next. destruct (_ && _); [|done]. by apply typed_snoc. Qed.

(** One gate of one run records a status. *)
Lemma view_gate k g text s k' :
  gateStatusFromText text = Ok s ->
  view (set_gate_states (db_gate_states d ++ [next_state (db_gate_states d) k g text t]) d) k' =
  if bool_decide (k = k') then push_gate g s (view d k') else view d k'.
Proof.
  intros Hs. unfold push_gate, view. cbn [vw_states vw_gates vw_candidate vw_rollbacks].
  assert (required_gates (set_gate_states (db_gate_states d ++ [next_state (db_gate_states d) k g text t]) d) k' =
    required_gates d k') as -> by done.
  destruct (bool_decide_reflect (k = k')) as [->|Hne].
  - f_equal. unfold record_gate. rewrite <- list_fmap_compose. apply list_fmap_ext. intros _ r _.
    cbn -[gate_hist]. rewrite (gate_hist_next _ _ _ _ _ _ Hs), bool_decide_eq_true_2 by done. cbn -[gate_hist].
    rewrite (String.eqb_sym g). destruct (String.eqb_spec (ga_gate r) g); done.
  - f_equal. apply list_fmap_ext. intros _ r _. rewrite (gate_hist_next _ _ _ _ _ _ Hs), bool_decide_eq_false_2 by done. done.
Qed.
End views.

Lemma view_run d k text s t k' :
  runStateFromText text = Ok s ->
  view (set_run_states (db_run_states d ++ [next_state (db_run_states d) k "" text t]) d) k' =
  if bool_decide (k = k') then push_state s (view d k') else view d k'.
Proof.
  intros Hs. unfold view at 1. rewrite (run_hist_next _ _ _ _ _ _ Hs). by destruct (bool_decide _).
Qed.

Lemma view_candidate d k text s t k' :
  candidateStateFromText text = Ok s ->
  view (set_candidate_states (db_candidate_states d ++ [next_state (db_candidate_states d) k "" text t]) d) k' =
  if bool_decide (k = k') then push_candidate s (view d k') else view d k'.
Proof.
  intros Hs. unfold view at 1, cand_hist. cbn [db_candidate_states set_candidate_states].
  rewrite (cand_hist_next _ _ _ _ _ _ Hs). by destruct (bool_decide _).
Qed.

Lemma rollbacks_add d rb k :
  length (rollbacks_of (set_rollbacks (db_rollbacks d ++ [rb]) d) k) =
  (if bool_decide (rb_key rb = k) then S (length (rollbacks_of d k)) else length (rollbacks_of d k)).
Proof.
  unfold rollbacks_of. cbn. rewrite List.filter_app, length_app. cbn. destruct (bool_decide _); cbn; lia.
Qed.

Lemma view_reject d rb t k' :
  view (set_candidate_states (db_candidate_states d ++ [next_state (db_candidate_states d) (rb_key rb) "" "REJECTED" t])
          (set_rollbacks (db_rollbacks d ++ [rb]) d)) k' =
  if bool_decide (rb_key rb = k') then push_rejection (view d k') else view d k'.
Proof.
  pose proof (view_candidate (set_rollbacks (db_rollbacks d ++ [rb]) d) (rb_key rb) "REJECTED" CandRejected t k' eq_refl) as E.
  etransitivity; [exact E|]. unfold push_candidate, push_rejection, view. cbn [vw_states vw_gates vw_candidate vw_rollbacks].
  rewrite rollbacks_add. by destruct (bool_decide _).
Qed.

(** A run that does not exist has no history. *)
Lemma view_absent d k : kernel_inv d -> run_exists d k = false -> view d k = no_run.
Proof.
  intros Hi Hn. pose proof (keys_absent d k (li_foreign _ Hi) Hn) as Ha. unfold keys in Ha.
  rewrite !not_elem_of_app in Ha. destruct Ha as (H1 & H2 & H3 & _ & H5 & _ & _ & _ & _ & H10 & _).
  unfold view, run_hist, cand_hist. rewrite !hist_other by (by apply fmap_absent).
  unfold required_gates, rollbacks_of. rewrite !filter_none; [done| |].
  - apply fmap_absent in H10. eapply Forall_impl; [exact H10|]. intros x Hx. by rewrite bool_decide_eq_false_2.
  - apply fmap_absent in H5. eapply Forall_impl; [exact H5|]. intros x Hx. by rewrite bool_decide_eq_false_2.
Qed.

Lemma hist_absent t k sub : Forall (fun r => sr_key r = k -> sr_sub r <> sub) t -> hist t k sub = [].
Proof.
  unfold hist. intros Hk. assert (states_of t k sub = []) as ->; [|done]. apply filter_none.
  eapply Forall_impl; [exact Hk|]. cbn. intros r Hr. destruct (is_state k sub r) eqn:E; [|done].
  apply is_state_spec in E as [E1 E2]. by destruct (Hr E1).
Qed.

Lemma hist_pending t gs k g :
  NoDup (ga_gate <$> gs) -> Forall (fun r => ga_key r = k) gs -> g ∈ ga_gate <$> gs -> hist (pending_row t <$> gs) k g = ["PENDING"].
Proof.
  induction gs as [|r gs IH]; [by intros _ _ ?%not_elem_of_nil|]. rewrite !fmap_cons.
  intros [Hr Hn]%NoDup_cons [Hk Hks]%Forall_cons Hin. change (pending_row t r :: (pending_row t <$> gs)) with ([pending_row t r] ++ (pending_row t <$> gs))%list.
  rewrite hist_app. destruct (decide (ga_gate r = g)) as [<-|Hne].
  - rewrite (hist_absent (_ <$> _)).
    + unfold hist. cbn. rewrite (proj2 (is_state_spec _ _ _)); done.
    + rewrite Forall_fmap. apply Forall_forall. intros x Hx _ Ex. cbn in Ex. destruct Hr. rewrite <- Ex. apply list_elem_of_fmap. eauto.
  - rewrite hist_absent by (by repeat constructor). apply elem_of_cons in Hin as [->|Hin]; [done|]. by apply IH.
Qed.

Lemma required_gates_admitted d r t1 t2 i ns gs ls k :
  Forall (fun g => ga_key g = rr_key r /\ ga_required g = true) gs ->
  required_gates (admitted d r t1 t2 i ns gs ls) k =
  if bool_decide (rr_key r = k) then (required_gates d k ++ gs)%list else required_gates d k.
Proof.
  intros Hg. unfold required_gates. cbn. rewrite List.filter_app. destruct (bool_decide_reflect (rr_key r = k)) as [<-|Hne].
  - f_equal. apply filter_all. eapply Forall_impl; [exact Hg|]. intros g [-> ->]. by rewrite bool_decide_eq_true_2.
  - rewrite (filter_none _ gs); [by rewrite app_nil_r|]. eapply Forall_impl; [exact Hg|]. intros g [-> _]. cbn.
    by rewrite bool_decide_eq_false_2.
Qed.

Lemma view_admitted d r t1 t2 i ns gs ls k :
  kernel_inv d -> run_exists d (rr_key r) = false -> Forall (fun g => ga_key g = rr_key r /\ ga_required g = true) gs ->
  NoDup (ga_gate <$> gs) ->
  view (admitted d r t1 t2 i ns gs ls) k =
  if bool_decide (rr_key r = k) then MkView [RunPlanning] ((fun id => (id, [GatePending])) <$> (ga_gate <$> gs)) [] 0 else view d k.
Proof.
  intros Hi Hn Hg Hnd. unfold view at 1. rewrite (required_gates_admitted _ _ _ _ _ _ _ _ _ Hg).
  pose proof (run_hist_next d t1 (rr_key r) "PLANNING" RunPlanning k eq_refl) as Er.
  change (run_hist (admitted d r t1 t2 i ns gs ls) k = if bool_decide (rr_key r = k) then (run_hist d k ++ [RunPlanning])%list else run_hist d k) in Er.
  rewrite Er. change (cand_hist (admitted d r t1 t2 i ns gs ls) k) with (cand_hist d k).
  change (rollbacks_of (admitted d r t1 t2 i ns gs ls) k) with (rollbacks_of d k).
  destruct (bool_decide_reflect (rr_key r = k)) as [<-|Hne].
  - pose proof (view_absent _ _ Hi Hn) as Hv. unfold view in Hv. injection Hv as E1 E2 E3 E4.
    rewrite E1, E3, E4. apply fmap_nil_inv in E2. rewrite E2. cbn [app]. f_equal. rewrite <- list_fmap_compose.
    apply list_fmap_ext. intros j g Hj. cbn -[gate_hist]. f_equal. unfold gate_hist. cbn [db_gate_states admitted]. rewrite hist_app.
    rewrite hist_pending; [|done| |].
    + rewrite (hist_other (db_gate_states d)); [done|]. apply fmap_absent.
      pose proof (keys_absent d _ (li_foreign _ Hi) Hn) as Ha. unfold keys in Ha. rewrite !not_elem_of_app in Ha. tauto.
    + eapply Forall_impl; [exact Hg|]. by intros x [].
    + apply list_elem_of_fmap. exists g. split; [done|]. by eapply list_elem_of_lookup_2.
  - unfold view. f_equal. apply list_fmap_ext. intros j g _. f_equal. unfold gate_hist. cbn [db_gate_states admitted].
    rewrite hist_app, (hist_other (_ <$> _)); [by rewrite app_nil_r|]. rewrite Forall_fmap.
    eapply Forall_impl; [exact Hg|]. cbn. intros x [-> _]. done.
Qed.

(** ** Refinement *)

Lemma vw_gates_in d k g :
  Forall (fun g => ga_required g = true) (db_gates d) -> gate_exists d k g = true -> In (g, gate_hist d k g) (vw_gates (view d k)).
Proof.
  intros Hr (x & Hin & Hx)%existsb_exists. unfold is_gate in Hx. bool_prop.
  match goal with H : String.eqb _ _ = true |- _ => apply String.eqb_eq in H as <- end. subst k.
  apply list_elem_of_In, list_elem_of_fmap. exists x. split; [done|]. apply list_elem_of_In, filter_In. split; [done|].
  rewrite List.Forall_forall in Hr. rewrite (Hr x Hin). by rewrite bool_decide_eq_true_2.
Qed.

Definition refines (d d' : DB) : Prop :=
  exists k0, (forall k, k <> k0 -> view d' k = view d k) /\ (view d' k0 = view d k0 \/ run_move (view d k0) (view d' k0)).

Lemma refines_same d d' : (forall k, view d' k = view d k) -> refines d d'.
Proof. intros He. exists (MkKey "" "" ""). auto. Qed.

(** A change that updates one run's view. *)
Lemma refines_at d d' k0 (f : RunView -> RunView) :
  (forall k, view d' k = if bool_decide (k0 = k) then f (view d k) else view d k) -> run_move (view d k0) (f (view d k0)) ->
  refines d d'.
Proof.
  intros He Hm. exists k0. split.
  - intros k Hk. rewrite He. by rewrite bool_decide_eq_false_2.
  - right. by rewrite He, bool_decide_eq_true_2.
Qed.

Lemma change_refines d d' : kernel_inv d -> change d d' -> refines d d'.
Proof.
  intros Hi Hc.
  destruct Hc as [r t1 t2 i ns gs ls k d' Hn _ _ Hgs H4 Hnd _ _ _|k s t i _ Hl Ht _|k s next text t _ Hl Ht Hcc Htx| |
    k g cur s text t _ Hlv Hg Hl Hn Htx|c t k _ Hrun Hcn _|k c next text t _ Hlv Hl Ht Hnr Hgp Htx|rb c t k _ Hlv Hl Ht| | | |];
    try (apply refines_same; done).
  - eapply (refines_at _ _ k (fun _ => _)); [intros k'; by eapply view_admitted|].
    rewrite (view_absent _ _ Hi Hn). constructor; [by rewrite length_fmap|done].
  - eapply (refines_at _ _ k (push_state RunCancelled)); [intros k'; by apply (view_run d k "CANCELLED" RunCancelled t k')|].
    by eapply mv_run.
  - eapply (refines_at _ _ k (push_state next)); [intros k'; by apply (view_run d k text next t k')|].
    by eapply mv_run.
  - eapply (refines_at _ _ k (push_gate g s)); [intros k'; by apply (view_gate d t k g text s k')|].
    eapply mv_gate; [done|apply vw_gates_in; [apply Hi|done]|]. intros x. rewrite Hl. congruence.
  - eapply (refines_at _ _ k (push_candidate CandProposed));
      [intros k'; by apply (view_candidate (set_candidates (db_candidates d ++ [c]) d) k "PROPOSED" CandProposed t k')|].
    by apply mv_propose.
  - eapply (refines_at _ _ k (push_candidate next)); [intros k'; by apply (view_candidate d k text next t k')|].
    by eapply mv_candidate.
  - eapply (refines_at _ _ k push_rejection); [intros k'; by apply (view_reject d rb t k')|].
    by eapply mv_reject.
Qed.

(** ** Preservation *)

Lemma states_pending t gs k g :
  NoDup (ga_gate <$> gs) -> states_of (pending_row t <$> gs) k g = [] \/
  exists r, states_of (pending_row t <$> gs) k g = [pending_row t r].
Proof.
  induction gs as [|r gs IH]; [by left|]. rewrite !fmap_cons. intros [Hr Hn]%NoDup_cons. specialize (IH Hn).
  unfold states_of in *. cbn [List.filter]. destruct (is_state k g (pending_row t r)) eqn:E; [|done].
  right. exists r. f_equal. apply is_state_spec in E as [_ <-]. apply filter_none. rewrite Forall_fmap. apply Forall_forall.
  intros x Hx. cbn [compose]. destruct (is_state _ _ _) eqn:Ex; [|done]. apply is_state_spec in Ex as [_ Ex]. cbn in Ex.
  destruct Hr. rewrite <- Ex. apply list_elem_of_fmap. eauto.
Qed.

Lemma states_other t k sub : Forall (fun r => sr_key r <> k) t -> states_of t k sub = [].
Proof.
  intros Hk. apply filter_none. eapply Forall_impl; [exact Hk|]. cbn. intros r Hr.
  destruct (is_state k sub r) eqn:E; [|done]. by apply is_state_spec in E as [? _].
Qed.

Lemma dense_pending t tm gs k :
  dense t -> Forall (fun r => sr_key r <> k) t -> Forall (fun g => ga_key g = k) gs -> NoDup (ga_gate <$> gs) ->
  dense (t ++ (pending_row tm <$> gs)).
Proof.
  intros Hd Hf Hk Hn k' sub. unfold states_of. rewrite List.filter_app. destruct (decide (k' = k)) as [->|Hne].
  - fold (states_of t k sub) (states_of (pending_row tm <$> gs) k sub). rewrite (states_other t) by done.
    destruct (states_pending tm gs k sub Hn) as [->|[r ->]]; done.
  - fold (states_of t k' sub) (states_of (pending_row tm <$> gs) k' sub). rewrite (states_other (_ <$> _)).
    + rewrite app_nil_r. apply Hd.
    + rewrite Forall_fmap. eapply Forall_impl; [exact Hk|]. cbn. by intros x ->.
Qed.

Lemma change_dense d d' : kernel_inv d -> change d d' -> dense_db d'.
Proof.
  intros Hi Hc. destruct (li_dense _ Hi) as [Hr Hg Hk].
  destruct Hc as [r t1 t2 i ns gs ls k d' Hn _ _ Hgs _ Hnd _ _ _| | | | | | | | | | |]; [subst d'|..];
    split; cbn [db_run_states db_gate_states db_candidate_states set_run_states set_gate_states set_candidate_states
      set_idempotency set_results set_candidates set_rollbacks set_findings set_dispositions set_messages set_acks];
    try done; try (by apply dense_next).
  apply (dense_pending _ _ _ k); [done| |eapply Forall_impl; [exact Hgs|]; by intros x []|done].
  apply fmap_absent. pose proof (keys_absent d _ (li_foreign _ Hi) Hn) as Ha. unfold keys in Ha.
  rewrite !not_elem_of_app in Ha. tauto.
Qed.

Lemma change_readable d d' : readable d -> change d d' -> readable d'.
Proof.
  intros [Hr Hg Hc] Hch.
  destruct Hch as [r t1 t2 i ns gs ls k d' _ _ _ _ _ _ _ _ _|k s t i _ _ _ _|k s next text t _ _ _ _ Htx| |k g cur s text t _ _ _ _ _ Htx|
    c t k _ _ _ _|k c next text t _ _ _ _ _ _ Htx|rb c t k _ _ _ _| | | |]; [subst d'|..]; split; cbn; try done;
    apply Forall_app; (split; [done|]); try (apply Forall_singleton; cbn; by try rewrite Htx).
  rewrite Forall_fmap. by apply Forall_forall.
Qed.

Lemma change_foreign d d' : kernel_inv d -> change d d' -> Forall (fun k => run_exists d' k = true) (keys d').
Proof.
  intros Hi Hc. pose proof (li_foreign _ Hi) as Hf. unfold keys in *. rewrite !Forall_app in Hf.
  destruct Hf as (H1 & H2 & H3 & H4 & H5 & H6 & H7 & H8 & H9 & H10 & H11).
  destruct Hc as [r t1 t2 i ns gs ls k d' Hn _ Hns Hgs _ _ Hls _ _| | | | | | | | | | |]; cbn; rewrite ?fmap_app, !Forall_app.
  { assert (forall k', run_exists d k' = true -> run_exists d' k' = true) as Hm.
    { intros k'. rewrite !run_exists_spec. cbn. rewrite fmap_app, elem_of_app. auto. }
    assert (run_exists d' k = true) as Hk. { apply run_exists_spec. cbn. rewrite fmap_app, elem_of_app. right. by left. }
    assert (forall l, Forall (fun k => run_exists d k = true) l -> Forall (fun k => run_exists d' k = true) l) as Hl.
    { intros l Hl. by eapply Forall_impl. }
    assert (forall A (f : A -> RunKey) l, Forall (fun x => f x = k) l -> Forall (fun k => run_exists d' k = true) (f <$> l)) as Hnew.
    { intros A f l Hl'. rewrite Forall_fmap. eapply Forall_impl; [exact Hl'|]. cbn. by intros x ->. }
    assert (Forall (fun g => ga_key g = k) gs) as Hgk by (eapply Forall_impl; [exact Hgs|]; by intros x []).
    split_and!; try (apply Hl; assumption); try (apply Hnew; assumption).
    - by apply Forall_singleton.
    - apply Hnew. by rewrite Forall_fmap. }
  all: split_and!; try assumption; apply Forall_singleton; assumption.
Qed.

Lemma change_mailbox d d' : mailbox_inv d -> change d d' -> mailbox_inv d'.
Proof.
  intros Hm Hc. destruct Hc as [| | | | | | | | | |r _ _ _ Hn Hs|]; try (destruct Hm; split; done).
  by apply (message_inv d r).
Qed.

Lemma leases_of_app d d' ls k n :
  db_leases d' = (db_leases d ++ ls)%list -> leases_of d' k n = (leases_of d k n ++ List.filter (is_lease k n) ls)%list.
Proof. intros E. unfold leases_of. by rewrite E, List.filter_app. Qed.

Lemma change_fences d d' :
  kernel_inv d -> change d d' ->
  fenced d' /\ Forall (fun r => exists l, l ∈ leases_of d' (rs_key r) (rs_node r) /\ le_Fence l = rs_fence r) (db_results d').
Proof.
  intros Hi Hc. pose proof (li_fences _ Hi) as Hf.
  destruct Hc as [r t1 t2 i ns gs ls k d' _ _ _ _ _ _ _ Hfe _| | |r l _ Hl Hfe _ _| | | | | | | |];
    split; try (apply Hi); try done; cbn [db_results set_results].
  - eapply Forall_impl; [exact Hf|]. intros x (l & Hl & Hx). exists l. split; [|done].
    rewrite (leases_of_app d _ ls) by reflexivity. apply elem_of_app. by left.
  - apply Forall_app. split; [exact Hf|]. constructor; [|constructor]. exists l. split; [by apply last_Some_elem_of|done].
Qed.

Lemma existsb_absent {A B} (f : A -> B) (p : A -> bool) l x :
  (forall y, f y = f x -> p y = true) -> existsb p l = false -> f x ∉ f <$> l.
Proof.
  intros Hp Hn (y & Hy & Hin)%list_elem_of_fmap. apply Bool.not_true_iff_false in Hn. apply Hn, existsb_exists.
  exists y. split; [by apply list_elem_of_In|by apply Hp].
Qed.

(** Run keys, intents, idempotency keys and results stay unique. *)
Lemma change_unique d d' :
  kernel_inv d -> change d d' ->
  NoDup (rr_key <$> db_runs d') /\ NoDup (intent_of <$> db_runs d') /\ NoDup (idem_key <$> db_idempotency d') /\
  Forall (fun g => ga_required g = true) (db_gates d') /\ NoDup ((fun r => (rs_key r, rs_node r)) <$> db_results d').
Proof.
  intros Hi Hc. pose proof (li_runs _ Hi). pose proof (li_intents _ Hi). pose proof (li_idempotency _ Hi).
  pose proof (li_required _ Hi). pose proof (li_results _ Hi).
  destruct Hc as [r t1 t2 i ns gs ls k d' Hn Hin _ Hgs _ _ _ _ Hid|k s t i _ _ _ Hid| |r l _ _ _ Hn _| | | | | | | |];
    split_and!; try done; cbn; try (by apply NoDup_fmap_snoc).
  - apply NoDup_fmap_snoc; [done|]. intros Hk%run_exists_spec. subst k. congruence.
  - apply NoDup_fmap_snoc; [done|]. intros (y & Hy & Hy')%list_elem_of_fmap. rewrite Forall_forall in Hin.
    apply (Hin y Hy'). unfold intent_of in Hy. by injection Hy as E1 E2 E3.
  - apply Forall_app. split; [done|]. eapply Forall_impl; [exact Hgs|]. by intros x [].
  - apply NoDup_fmap_snoc; [done|].
    eapply (existsb_absent (fun r => (rs_key r, rs_node r))); [|exact Hn]. intros y [= E1 E2]. by apply is_result_spec.
Qed.

Lemma candidates_snoc d c k :
  existsb (fun p => bool_decide (cd_key p = k)) (db_candidates d ++ [c]) =
  existsb (fun p => bool_decide (cd_key p = k)) (db_candidates d) || bool_decide (cd_key c = k).
Proof. rewrite existsb_app. cbn. by rewrite orb_false_r. Qed.

Lemma change_candidates d d' : kernel_inv d -> change d d' -> candidates_ok d'.
Proof.
  intros Hi Hc. pose proof (li_candidates _ Hi) as Hok.
  destruct Hc as [| | | | |c t k _ _ _ _|k c next text t _ _ Hl _ _ _ Htx|rb c t k _ _ Hl _| | | |]; try (intros k'; apply Hok);
    intros k' Hn; unfold cand_hist; cbn [db_candidate_states set_candidate_states set_candidates set_rollbacks].
  - rewrite (cand_hist_next _ _ _ _ CandProposed) by done. cbn in Hn. rewrite candidates_snoc in Hn. apply orb_false_iff in Hn as [Hn1 Hn2].
    subst k. rewrite Hn2. by apply Hok.
  - rewrite (cand_hist_next _ _ _ _ _ _ Htx). destruct (bool_decide_reflect (k = k')) as [->|]; [|by apply Hok].
    by rewrite (Hok _ Hn) in Hl.
  - rewrite (cand_hist_next d t _ _ CandRejected) by done. destruct (bool_decide_reflect (k = k')) as [->|]; [|by apply Hok].
    by rewrite (Hok _ Hn) in Hl.
Qed.

(** The plan of a run is fixed at its admission. *)
Lemma change_planned d d' : kernel_inv d -> change d d' -> forall k, run_exists d' k = true -> planned (nodes_of d' k).
Proof.
  intros Hi Hc k. pose proof (li_planned _ Hi k) as Hp.
  destruct Hc as [r t1 t2 i ns gs ls k0 d' Hn _ Hns _ _ _ _ _ _ Hpl| | | | | | | | | | |]; try exact Hp.
  rewrite run_exists_spec. cbn. rewrite fmap_app, elem_of_app. unfold nodes_of. cbn. rewrite List.filter_app.
  destruct (decide (k = k0)) as [->|Hne].
  - intros _. rewrite filter_none, (filter_all _ ns); [done| |].
    + eapply Forall_impl; [exact Hns|]. cbn. intros x ->. by apply bool_decide_eq_true_2.
    + pose proof (keys_absent d _ (li_foreign _ Hi) Hn) as Ha. unfold keys in Ha. rewrite !not_elem_of_app in Ha.
      destruct Ha as (_ & _ & _ & Ha & _). apply fmap_absent in Ha. eapply Forall_impl; [exact Ha|]. cbn. intros x Hx.
      by apply bool_decide_eq_false_2.
  - intros [Hk|Hk]; [|by apply list_elem_of_singleton in Hk]. rewrite (filter_none _ ns).
    + rewrite app_nil_r. apply Hp. by apply run_exists_spec.
    + eapply Forall_impl; [exact Hns|]. cbn. intros x ->. by apply bool_decide_eq_false_2.
Qed.

Lemma change_kernel_inv d d' : kernel_inv d -> change d d' -> kernel_inv d'.
Proof.
  intros Hi Hc. destruct (change_fences _ _ Hi Hc) as [Hf Hfs]. destruct (change_unique _ _ Hi Hc) as (H1 & H2 & H3 & H4 & H5).
  split; try done.
  - by eapply change_dense.
  - eapply change_readable; [apply Hi|done].
  - eapply change_mailbox; [apply Hi|done].
  - by eapply change_foreign.
  - by eapply change_candidates.
  - by eapply change_planned.
Qed.

Lemma fresh_inv sessions : kernel_inv (fresh_ledger sessions).
Proof.
  split; try done; try apply NoDup_nil_2; try constructor; try (by intros k sub); try apply Forall_nil_2; try apply NoDup_nil_2.
Qed.

End preservation.

(** ** Reachable ledgers *)

(** The ledger is append-only: every table of the first is a prefix of the second's. *)
Record extends (d d' : DB) : Prop := {
  ex_sessions : db_sessions d' = db_sessions d;
  ex_runs : db_runs d `prefix_of` db_runs d';
  ex_run_states : db_run_states d `prefix_of` db_run_states d';
  ex_idempotency : db_idempotency d `prefix_of` db_idempotency d';
  ex_plan_nodes : db_plan_nodes d `prefix_of` db_plan_nodes d';
  ex_gates : db_gates d `prefix_of` db_gates d';
  ex_gate_states : db_gate_states d `prefix_of` db_gate_states d';
  ex_leases : db_leases d `prefix_of` db_leases d';
  ex_results : db_results d `prefix_of` db_results d';
  ex_messages : db_messages d `prefix_of` db_messages d';
  ex_acks : db_acks d `prefix_of` db_acks d';
  ex_candidates : db_candidates d `prefix_of` db_candidates d';
  ex_candidate_states : db_candidate_states d `prefix_of` db_candidate_states d';
  ex_rollbacks : db_rollbacks d `prefix_of` db_rollbacks d';
  ex_findings : db_findings d `prefix_of` db_findings d';
  ex_dispositions : db_dispositions d `prefix_of` db_dispositions d'
}.

#[export] Instance extends_preorder : PreOrder extends.
Proof.
  split; [by split|]. intros d1 d2 d3 [] []. split; [congruence|..]; by etrans.
Qed.

Lemma change_extends `{GoRuntime} `{PathsCodec} d d' : change d d' -> extends d d'.
Proof. destruct 1; split; cbn; try done; by eexists. Qed.

Section reachable.
Context `{GoRuntime} `{PathsCodec}.

(** Every call makes at most one change. *)
Lemma step_change d d' : kernel_inv d -> kernel_step d d' -> maybe_change d d'.
Proof.
  intros Hi Hs. pose proof (li_dense _ Hi) as Hd. pose proof (li_fenced _ Hi) as Hf. destruct Hs.
  - by apply AdmitChangeIntent_change.
  - by apply CancelChangeRun_change.
  - by apply TransitionRun_change.
  - by apply CommitLeafResult_change.
  - by apply RecordGateResult_change.
  - apply ProposeCandidate_change; [done|apply Hi].
  - by apply TransitionCandidate_change.
  - by apply RecordFinding_change.
  - by apply DisposeFinding_change.
  - by apply SendMailboxMessage_change.
  - by apply AcknowledgeMailboxMessage_change.
Qed.

Lemma step_inv d d' : kernel_inv d -> kernel_step d d' -> kernel_inv d'.
Proof. intros Hi Hs. destruct (step_change _ _ Hi Hs) as [->|Hc]; [done|by eapply change_kernel_inv]. Qed.

Lemma steps_inv d d' : kernel_inv d -> rtc kernel_step d d' -> kernel_inv d'.
Proof. induction 2 as [|d1 d2 d3 Hs _ IH]; [done|]. apply IH. by eapply step_inv. Qed.

Lemma reachable_inv d : reachable d -> kernel_inv d.
Proof. intros [sessions Hr]. eapply steps_inv; [apply fresh_inv|done]. Qed.

Lemma steps_extend d d' : kernel_inv d -> rtc kernel_step d d' -> extends d d'.
Proof.
  induction 2 as [|d1 d2 d3 Hs _ IH]; [reflexivity|]. transitivity d2; [|apply IH; by eapply step_inv].
  destruct (step_change _ _ ltac:(done) Hs) as [->|Hc]; [reflexivity|by apply change_extends].
Qed.

Lemma step_refines d d' : kernel_inv d -> kernel_step d d' -> refines d d'.
Proof.
  intros Hi Hs. destruct (step_change _ _ Hi Hs) as [->|Hc]; [by apply refines_same|by apply change_refines].
Qed.

Lemma fresh_view sessions k : view (fresh_ledger sessions) k = no_run.
Proof. done. Qed.

Lemma refines_views d d' : refines d d' -> (forall k, view_ok (view d k)) -> forall k, view_ok (view d' k).
Proof.
  intros (k0 & Ho & Hm) Hv k. destruct (decide (k = k0)) as [->|Hk]; [|by rewrite Ho].
  destruct Hm as [->|Hm]; [done|by eapply run_move_ok].
Qed.

(** Every run of a reachable ledger is well-formed. *)
Lemma reachable_views d k : reachable d -> view_ok (view d k).
Proof.
  intros [sessions Hr]. revert k.
  enough (forall d1, rtc kernel_step d1 d -> kernel_inv d1 -> (forall k, view_ok (view d1 k)) -> forall k, view_ok (view d k)) as He.
  { eapply He; [exact Hr|apply fresh_inv|]. intros k. rewrite fresh_view. apply no_run_ok. }
  clear. induction 1 as [|d1 d2 d3 Hs _ IH]; [done|]. intros Hi Hv. apply IH; [by eapply step_inv|].
  eapply refines_views; [by apply step_refines|done].
Qed.
End reachable.
