(* ===== verification/FactorySafety.v ===== *)
(** * factory: what the kernel guarantees

    The theorems on the change-run factory, for every ledger that calls of the
    kernel can reach: refinement of the run machine, safety of retained and
    completed candidates, finality of terminal runs, exactly-once leaf results,
    idempotent admission, ordered mailboxes, and which calls succeed. *)

From Stdlib Require Import Ascii String.
From S2P Require Import Prelude GoString GoPath Float64 Runtime SqlTable FactoryTypes FactoryStore FactoryRoster FactoryMailbox FactoryPlan FactoryKernel FactoryMachine FactoryLedger FactoryInvariant.
Open Scope string_scope.
Open Scope Z_scope.

(** ** Definitions *)

(** The rows of one run in the tables that hold its work. *)
Definition work (d : DB) (k : RunKey) :=
  (List.filter (fun r => bool_decide (nr_key r = k)) (db_plan_nodes d),
   List.filter (fun r => bool_decide (ga_key r = k)) (db_gates d),
   List.filter (fun r => bool_decide (le_key r = k)) (db_leases d),
   List.filter (fun r => bool_decide (rs_key r = k)) (db_results d),
   List.filter (fun r => bool_decide (mr_key r = k)) (db_messages d),
   List.filter (fun r => bool_decide (cd_key r = k)) (db_candidates d),
   List.filter (fun r => bool_decide (fd_key r = k)) (db_findings d)).

(** ** Lemmas *)

Lemma filter_snoc_other {A} (f : A -> bool) l x : f x = false -> List.filter f (l ++ [x]) = List.filter f l.
Proof. intros Hx. rewrite List.filter_app. cbn. rewrite Hx. apply app_nil_r. Qed.

Lemma filter_app_other {A} (f : A -> bool) l l' : Forall (fun x => f x = false) l' -> List.filter f (l ++ l') = List.filter f l.
Proof. intros Hx. rewrite List.filter_app, (filter_none _ l'); [apply app_nil_r|done]. Qed.

Section safety.
Context `{GoRuntime} `{PathsCodec}.

(** A change adds work to the run it belongs to only, and only while that run is live or new. *)
Lemma change_work d d' k s :
  kernel_inv d -> change d d' -> last (run_hist d k) = Some s -> terminalRunState s = true -> work d' k = work d k.
Proof.
  intros Hi Hc Hl Ht.
  assert (forall k', live (view d k') -> k' <> k) as Hlive.
  { intros k' (s' & Hs' & Ht') ->. cbn in Hs'. congruence. }
  assert (forall k' s', last (run_hist d k') = Some s' -> terminalRunState s' = false -> k' <> k) as Hst by (intros; congruence).
  unfold work. destruct Hc as [r t1 t2 i ns gs ls k0 d' Hn _ Hns Hgs _ _ Hls _ _| | |r l Hr _ _ _ _| |c t k0 _ Hr _ _| | |
    f _ Hr _| |r _ Hr _ _ _|]; try done; cbn [db_plan_nodes db_gates db_leases db_results db_messages db_candidates db_findings
      set_results set_candidate_states set_candidates set_findings set_messages].
  - assert (k0 <> k) as Hk. { intros ->. pose proof (view_absent _ _ Hi Hn) as Hv. injection Hv as E _ _ _. by rewrite E in Hl. }
    subst d'. cbn. rewrite !filter_app_other; [done|..]; eapply Forall_impl; [exact Hls| |exact Hgs| |exact Hns|]; cbn.
    all: intros x Hx; apply bool_decide_eq_false_2; naive_solver.
  - rewrite filter_snoc_other; [done|]. apply bool_decide_eq_false_2. by eapply Hst.
  - rewrite filter_snoc_other; [done|]. apply bool_decide_eq_false_2. destruct Hr as [Hr|Hr]; by eapply Hst.
  - rewrite filter_snoc_other; [done|]. apply bool_decide_eq_false_2. by eapply Hst.
  - rewrite filter_snoc_other; [done|]. apply bool_decide_eq_false_2. by apply Hlive.
Qed.

Lemma find_prefix {A} (f : A -> bool) l l' x : l `prefix_of` l' -> List.find f l = Some x -> List.find f l' = Some x.
Proof.
  intros [l2 ->]. induction l as [|y l IH]; [done|]. cbn. destruct (f y); [done|apply IH].
Qed.

Lemma find_snoc {A} (f : A -> bool) l x : List.find f l = None -> f x = true -> List.find f (l ++ [x]) = Some x.
Proof. intros Hn Hx. induction l as [|y l IH]; cbn in *; [by rewrite Hx|]. destruct (f y); [done|by apply IH]. Qed.

(** One step leaves a terminal run as it is. *)
Lemma step_frozen d d' k s :
  kernel_inv d -> kernel_step d d' -> last (run_hist d k) = Some s -> terminalRunState s = true ->
  view d' k = view d k /\ work d' k = work d k.
Proof.
  intros Hi Hs Hl Ht. destruct (step_change _ _ Hi Hs) as [->|Hc]; [done|]. split; [|by eapply change_work].
  destruct (change_refines _ _ Hi Hc) as (k0 & Ho & Hm). destruct (decide (k = k0)) as [->|Hk]; [|by apply Ho].
  destruct Hm as [Hm|Hm]; [done|]. by destruct (terminal_stuck (view d k0) _ _ Hl Ht Hm).
Qed.

(** ** Properties *)

(** C11. The ledger refines the run machine: any call, with any arguments and any
    environment, moves at most one run, that run makes one lawful move (the
    admission of a new run, a valid run transition, a gate status, a proposal,
    a valid candidate transition whose gates have passed, or a rejection), and
    every other run is untouched. *)
Theorem kernel_refines_run_machine d d' :
  reachable d -> kernel_step d d' ->
  exists k0, (forall k, k <> k0 -> view d' k = view d k) /\ (view d' k0 = view d k0 \/ run_move (view d k0) (view d' k0)).
Proof. intros Hr Hs. apply step_refines; [by apply reachable_inv|done]. Qed.

(** In every reachable ledger the recorded histories of a run are paths of
    the life-cycle graphs: the run starts in PLANNING, the candidate in
    PROPOSED and each of the four gates in PENDING, consecutive entries are
    valid transitions, and nothing follows a terminal state. *)
Theorem histories_are_lawful d k :
  reachable d ->
  history RunPlanning validRunTransition (run_hist d k) /\
  history CandProposed validCandidateTransition (cand_hist d k) /\
  Forall (fun g => history GatePending gate_next (gate_hist d k (ga_gate g))) (required_gates d k) /\
  (run_hist d k <> [] -> length (required_gates d k) = 4%nat) /\
  (forall s, s ∈ run_hist d k -> terminalRunState s = true -> last (run_hist d k) = Some s) /\
  (forall c, c ∈ cand_hist d k -> terminalCandidateState c = true -> last (cand_hist d k) = Some c).
Proof.
  intros Hr. destruct (reachable_views d k Hr) as [Hs Hc Hg _ H4 _ _ _]. cbn in *. split_and!; try done.
  - rewrite Forall_fmap in Hg. eapply Forall_impl; [exact Hg|]. cbn. by intros g [].
  - intros Hne. specialize (H4 Hne). by rewrite length_fmap in H4.
  - intros s Hin Ht. eapply chain_final; [apply Hs|done|]. intros y. by apply run_terminal_final.
  - intros c Hin Ht. eapply chain_final; [apply Hc|done|]. intros y. unfold validCandidateTransition. unfold terminalCandidateState in Ht.
    by rewrite Ht.
Qed.

(** C12. A change is never completed, retained, reviewed or verified without its
    evidence: a COMPLETED run has a RETAINED candidate, a VERIFIED, REVIEWED or
    RETAINED candidate has all four required gates PASSED, and a candidate has
    a rollback receipt exactly when it is REJECTED. *)
Theorem completed_change_is_verified d k :
  reachable d ->
  (last (run_hist d k) = Some RunCompleted -> last (cand_hist d k) = Some CandRetained) /\
  (forall c, last (cand_hist d k) = Some c -> c ∈ [CandVerified; CandReviewed; CandRetained] ->
     length (required_gates d k) = 4%nat /\
     Forall (fun g => last (gate_hist d k (ga_gate g)) = Some GatePassed) (required_gates d k)) /\
  length (rollbacks_of d k) = (if bool_decide (last (cand_hist d k) = Some CandRejected) then 1 else 0)%nat.
Proof.
  intros Hr. destruct (reachable_views d k Hr) as [_ _ _ _ _ Hv Hco Hrb]. cbn in *. split_and!; try done.
  intros c Hl Hc. assert (needs_gates c = true) as Hn.
  { rewrite !elem_of_cons in Hc. destruct Hc as [->|[->|[->|Hc]]]; [done..|by apply not_elem_of_nil in Hc]. }
  destruct (Hv c Hl Hn) as [H4 Hp]. rewrite length_fmap in H4. by rewrite Forall_fmap in Hp.
Qed.

(** A terminal run is final: once a run is COMPLETED, FAILED or CANCELLED no
    sequence of calls, by anyone, changes its histories or rollbacks, or adds a
    node, gate, lease, leaf result, message, candidate or finding to it. *)
Theorem terminal_run_is_final d d' k s :
  reachable d -> last (run_hist d k) = Some s -> terminalRunState s = true -> rtc kernel_step d d' ->
  view d' k = view d k /\ work d' k = work d k.
Proof.
  intros Hr Hl Ht Hs. pose proof (reachable_inv _ Hr) as Hi. clear Hr.
  induction Hs as [|d1 d2 d3 Hs _ IH]; [done|]. destruct (step_frozen _ _ _ _ Hi Hs Hl Ht) as [Hv Hw].
  assert (run_hist d2 k = run_hist d1 k) as E by (by injection Hv).
  destruct IH as [Hv' Hw']; [by rewrite E|by eapply step_inv|]. split; congruence.
Qed.

(** The ledger is append-only: whatever is called, every table keeps all the
    rows it had, in their order; and run keys, intents, idempotency keys and
    leaf results stay unique. *)
Theorem ledger_is_append_only d d' :
  reachable d -> rtc kernel_step d d' ->
  extends d d' /\ NoDup (rr_key <$> db_runs d') /\ NoDup (intent_of <$> db_runs d') /\
  NoDup (idem_key <$> db_idempotency d') /\ NoDup ((fun r => (rs_key r, rs_node r)) <$> db_results d') /\
  Forall (fun k => run_exists d' k = true) (keys d').
Proof.
  intros Hr%reachable_inv Hs. pose proof (steps_inv _ _ Hr Hs) as [].
  split; [by apply steps_extend|]. done.
Qed.

(** ** Leaf results *)

Lemma stagePayload_digest env i tenant payload staged :
  stagePayload env i tenant payload = Ok staged -> sp_digestHex staged = digestBytes payload.
Proof.
  unfold stagePayload. destruct (_ =? _); [done|]. destruct (ke_put _ _ _ _) as [[|c r]|]; [done| |done]. by intros [= <-].
Qed.

Lemma result_prefix d d' k n r :
  extends d d' -> List.find (is_result k n) (db_results d) = Some r -> List.find (is_result k n) (db_results d') = Some r.
Proof. intros He. apply find_prefix, He. Qed.

(** Once a leaf has a result, a commit reports it again or fails. *)
Lemma CommitLeafResult_recorded env a runID node fence payload d row :
  List.find (is_result (run_key a runID) node) (db_results d) = Some row ->
  snd (CommitLeafResult env a runID node fence payload d) = d /\
  (forall r, fst (CommitLeafResult env a runID node fence payload d) = Ok r ->
     re_Replayed r = true /\ fence = rs_fence row /\ digestBytes payload = rs_digest row /\
     re_ArtifactID r = rs_artifact row /\ re_Digest r = rs_digest row /\ re_CommittedAtMs r = rs_committedAtMs row).
Proof.
  intros Hrow. unfold CommitLeafResult. destruct (_ || _); [done|].
  destruct (require_run _ _ _); cbn [rbind]; [|done]. destruct (currentRunState _ _ _) as [st|]; cbn [rbind]; [|done].
  destruct (negb (bool_decide (st = RunRunning))); [done|]. destruct (Authorize _ _ _ _ _); cbn [rbind]; [|done].
  unfold Result_, lookupResult. cbn [zero_lease le_key le_NodeID]. rewrite Hrow.
  destruct (_ || _); cbn [rbind]; [done|]. cbn [re_Lease le_Fence re_Digest].
  destruct ((rs_fence row =? fence) && _) eqn:E; [|done]. cbn. split; [done|]. intros r [= <-]. cbn.
  apply andb_true_iff in E as [E1%Z.eqb_eq E2%String.eqb_eq]. done.
Qed.

Lemma CommitLeafResult_Ok env a runID node fence payload d r d1 :
  kernel_inv d -> CommitLeafResult env a runID node fence payload d = (Ok r, d1) ->
  exists row, List.find (is_result (run_key a runID) node) (db_results d1) = Some row /\ rs_fence row = fence /\
    rs_digest row = digestBytes payload /\ rs_artifact row = re_ArtifactID r /\ rs_committedAtMs row = re_CommittedAtMs r.
Proof.
  intros Hi Hc. destruct (List.find (is_result (run_key a runID) node) (db_results d)) as [row|] eqn:Hrow.
  { destruct (CommitLeafResult_recorded env a runID node fence payload d row Hrow) as [Hs Hf]. rewrite Hc in Hs, Hf. cbn in Hs. subst d1.
    exists row. destruct (Hf r eq_refl) as (_ & -> & -> & -> & _ & ->). done. }
  unfold CommitLeafResult in Hc. destruct (_ || _); [done|].
  destruct (require_run _ _ _); cbn [rbind] in Hc; [|done]. destruct (currentRunState _ _ _) as [st|]; cbn [rbind] in Hc; [|done].
  destruct (negb (bool_decide (st = RunRunning))); [done|]. destruct (Authorize _ _ _ _ _) in Hc; cbn [rbind] in Hc; [|done].
  unfold Result_, lookupResult in Hc. cbn [zero_lease le_key le_NodeID] in Hc. rewrite Hrow in Hc.
  destruct (_ || _); cbn [rbind] in Hc; [done|].
  destruct (stagePayload _ _ _ _) as [staged|] eqn:Hst; cbn [rbind] in Hc; [|done].
  assert (sp_digestHex staged = digestBytes payload) as Hdg by (by eapply stagePayload_digest).
  destruct (CommitResult _ _ _ _ _ _ _ _) as [[r' d']|] eqn:Hcr; cbn in Hc; [|done].
  destruct (ke_commit env); [|done]. injection Hc as -> ->.
  unfold CommitResult in Hcr. destruct (_ || _) in Hcr; [done|].
  destruct (Authorize _ _ _ _ _) as [l|] eqn:Ha in Hcr; cbn [rbind] in Hcr; [|done].
  apply (Authorize_spec _ _ _ _ _ _ (li_fenced _ Hi)) in Ha as (_ & _ & Hl & <- & _).
  assert (le_key l = run_key a runID /\ le_NodeID l = node) as [Hk Hno].
  { apply is_lease_spec. apply last_Some_elem_of, list_elem_of_In in Hl. apply filter_In in Hl. by destruct Hl. }
  unfold lookupResult in Hcr. rewrite Hk, Hno, Hrow in Hcr. unfold insert_result in Hcr. cbn in Hcr.
  destruct (_ && _) in Hcr; cbn in Hcr; [|done]. injection Hcr as <- <-. cbn.
  eexists. split.
  { apply find_snoc; [done|]. by apply is_result_spec. }
  done.
Qed.

(** A leaf result is committed exactly once: after a successful commit the
    leaf has one recorded result, under the presented fence and with the digest
    of the payload; from then on, whatever else happens, a commit for that leaf
    changes nothing, and it succeeds only as a replay of the same fence and
    payload, reporting the recorded artifact and instant. *)
Theorem leaf_result_exactly_once env a runID node fence payload d r d1 :
  reachable d -> CommitLeafResult env a runID node fence payload d = (Ok r, d1) ->
  exists row, (forall x, x ∈ db_results d1 -> is_result (run_key a runID) node x = true <-> x = row) /\
    rs_fence row = fence /\ rs_digest row = digestBytes payload /\
    (exists l, l ∈ leases_of d1 (run_key a runID) node /\ le_Fence l = fence) /\
    forall d2 env' fence' payload', rtc kernel_step d1 d2 ->
      snd (CommitLeafResult env' a runID node fence' payload' d2) = d2 /\
      forall r', fst (CommitLeafResult env' a runID node fence' payload' d2) = Ok r' ->
        re_Replayed r' = true /\ fence' = fence /\ digestBytes payload' = digestBytes payload /\
        re_ArtifactID r' = re_ArtifactID r /\ re_CommittedAtMs r' = re_CommittedAtMs r.
Proof.
  intros Hr%reachable_inv Hc. destruct (CommitLeafResult_Ok _ _ _ _ _ _ _ _ _ Hr Hc) as (row & Hf & Hfe & Hd & Ha & Ht).
  assert (kernel_inv d1) as Hi1.
  { eapply step_inv; [exact Hr|]. pose proof (st_leaf d env a runID node fence payload) as Hs. by rewrite Hc in Hs. }
  pose proof Hf as [Hin%list_elem_of_In Hrow]%List.find_some. apply is_result_spec in Hrow as [Hk Hn]. exists row. split_and!; try done.
  - intros x Hx. rewrite is_result_spec. split; [|by intros ->]. intros [Hkx Hnx].
    apply list_elem_of_lookup in Hx as [i Hi], Hin as [j Hj]. assert (i = j) as ->; [|congruence].
    eapply (NoDup_lookup _ i j (run_key a runID, node)); [exact (li_results _ Hi1)| |];
      rewrite list_lookup_fmap; [rewrite Hi|rewrite Hj]; cbn; congruence.
  - pose proof (li_fences _ Hi1) as Hl. rewrite Forall_forall in Hl. destruct (Hl _ Hin) as (l & Hl1 & Hl2).
    rewrite Hk, Hn in Hl1. exists l. split; [done|congruence].
  - intros d2 env' fence' payload' Hs. pose proof (result_prefix _ _ _ _ _ (steps_extend _ _ Hi1 Hs) Hf) as Hf2.
    destruct (CommitLeafResult_recorded env' a runID node fence' payload' d2 row Hf2) as [Hs2 Hr2]. split; [done|].
    intros r' Hr'. destruct (Hr2 r' Hr') as (H1 & H2 & H3 & H4 & _ & H6). split_and!; congruence.
Qed.

(** ** Admission *)

Lemma lookupIdempotency_prefix d d' a op key row :
  extends d d' -> lookupIdempotency d a op key = Some row -> lookupIdempotency d' a op key = Some row.
Proof. intros He. apply find_prefix, He. Qed.

(** A recorded key is answered from the record. *)
Lemma AdmitChangeIntent_recorded env q d row :
  lookupIdempotency d (am_Authenticated q) "admit" (am_IdempotencyKey q) = Some row ->
  snd (AdmitChangeIntent env q d) = d /\
  forall x, fst (AdmitChangeIntent env q d) = Ok x -> x = MkRunResult (ip_runID row) true.
Proof.
  intros Hrow. unfold AdmitChangeIntent. destruct (_ || _); [done|]. destruct (rbind _ _); [|done]. rewrite Hrow.
  destruct (negb _); [done|]. split; [done|]. by intros x [= <-].
Qed.

(** The record a successful admission leaves, and the run it opens. *)
Lemma AdmitChangeIntent_records env q d x d1 :
  kernel_inv d -> AdmitChangeIntent env q d = (Ok x, d1) ->
  (exists row, lookupIdempotency d1 (am_Authenticated q) "admit" (am_IdempotencyKey q) = Some row /\ ip_runID row = ar_RunID x) /\
  (ar_Replayed x = true -> d1 = d) /\
  (ar_Replayed x = false ->
     let k := run_key (am_Authenticated q) (ar_RunID x) in
     run_exists d k = false /\ run_exists d1 k = true /\
     exists ids, length ids = 4%nat /\ view d1 k = MkView [RunPlanning] ((fun id => (id, [GatePending])) <$> ids) [] 0).
Proof.
  intros Hi Ha. destruct (AdmitChangeIntent_Ok _ _ _ _ _ Ha) as (bytes & _ & [(-> & row & Hl & _ & ->)|(Hl & c & plan & nodes & planID & art & Hc & Ht)]).
  - split_and!; [by exists row|done|done].
  - apply admit_tx_shape in Ht; [|apply Hi|apply Hi|by apply compilePlan_gates in Hc].
    destruct Ht as (-> & r & t1 & t2 & t3 & gs & ls & -> & Hk & _ & _ & Hn & _ & Hg & H4 & Hnd & _). cbn [ar_RunID ar_Replayed].
    split_and!; [|done|].
    + eexists. split; [apply find_snoc; [exact Hl|]|done]. cbn. by rewrite !String.eqb_refl.
    + intros _. rewrite <- Hk. split_and!; [done| |].
      * apply run_exists_spec. cbn. rewrite fmap_app, elem_of_app. right. by left.
      * exists (ga_gate <$> gs). split; [by rewrite length_fmap|]. rewrite (view_admitted d r t1 t2 _ _ gs ls) by done.
        by rewrite bool_decide_eq_true_2.
Qed.

(** Admission is idempotent, and opens at most one run per key: a first
    success opens a new run in PLANNING with four PENDING gates; from then on,
    whatever else happens, an admission under the same tenant, principal and
    idempotency key (by any session and with any request) changes nothing, and
    succeeds only as a replay that names the same run. *)
Theorem admission_is_idempotent env q d x d1 :
  reachable d -> AdmitChangeIntent env q d = (Ok x, d1) ->
  (ar_Replayed x = false ->
     let k := run_key (am_Authenticated q) (ar_RunID x) in
     run_exists d k = false /\ run_exists d1 k = true /\
     exists ids, length ids = 4%nat /\ view d1 k = MkView [RunPlanning] ((fun id => (id, [GatePending])) <$> ids) [] 0) /\
  (ar_Replayed x = true -> d1 = d) /\
  forall d2 env' q', rtc kernel_step d1 d2 ->
    id_Tenant (am_Authenticated q') = id_Tenant (am_Authenticated q) ->
    id_Principal (am_Authenticated q') = id_Principal (am_Authenticated q) -> am_IdempotencyKey q' = am_IdempotencyKey q ->
    snd (AdmitChangeIntent env' q' d2) = d2 /\
    forall x', fst (AdmitChangeIntent env' q' d2) = Ok x' -> x' = MkRunResult (ar_RunID x) true.
Proof.
  intros Hr%reachable_inv Ha. destruct (AdmitChangeIntent_records _ _ _ _ _ Hr Ha) as ((row & Hrow & Hid) & Hrep & Hnew).
  split; [exact Hnew|]. split; [exact Hrep|]. intros d2 env' q' Hs Ht Hp Hk.
  assert (kernel_inv d1) as Hi1.
  { eapply step_inv; [exact Hr|]. pose proof (st_admit d env q) as Hst. by rewrite Ha in Hst. }
  rewrite <- Hid. apply AdmitChangeIntent_recorded. unfold lookupIdempotency. rewrite Ht, Hp, Hk.
  eapply (lookupIdempotency_prefix d1); [by apply steps_extend|exact Hrow].
Qed.

(** ** Which transitions succeed *)

Lemma typed_last_inv {A} (f : string -> result factory_error A) l x :
  Forall (fun s => is_ok (f s) = true) l -> last (typed f l) = Some x -> exists s, last l = Some s /\ f s = Ok x.
Proof.
  destruct l as [|s l _] using rev_ind; [done|]. intros [_ Hs]%Forall_app. rewrite Forall_singleton in Hs. rewrite last_snoc, typed_app. cbn.
  destruct (f s) as [y|] eqn:E; [|done]. cbn. rewrite last_snoc. intros [= ->]. by exists s.
Qed.

Lemma hist_all (P : string -> Prop) t k sub : Forall (fun r => P (sr_state r)) t -> Forall P (hist t k sub).
Proof.
  intros Hp. unfold hist. rewrite Forall_fmap. apply List.Forall_forall. intros r [Hr _]%filter_In.
  rewrite List.Forall_forall in Hp. by apply Hp.
Qed.

(** A run's current state, as the kernel reads it. *)
Lemma currentRunState_last d a runID s :
  kernel_inv d -> last (run_hist d (run_key a runID)) = Some s -> currentRunState d a runID = Ok s.
Proof.
  intros Hi Hl. rewrite currentRunState_hist by apply Hi.
  apply typed_last_inv in Hl as (text & -> & Hf); [done|]. apply (hist_all (fun t => is_ok (runStateFromText t) = true)), Hi.
Qed.

Lemma currentCandidateState_last d a runID :
  kernel_inv d -> currentCandidateState d a runID = Ok (last (cand_hist d (run_key a runID))).
Proof.
  intros Hi. unfold currentCandidateState. rewrite (top_by_numbered _ _ (dd_cand _ (li_dense _ Hi) _ _)).
  assert (Forall (fun t => is_ok (candidateStateFromText t) = true) (hist (db_candidate_states d) (run_key a runID) "")) as Hp.
  { apply (hist_all (fun t => is_ok (candidateStateFromText t) = true)), Hi. }
  unfold cand_hist, hist in *. destruct (states_of _ _ _) as [|r l _] using rev_ind; [done|].
  rewrite fmap_app in *. apply Forall_app in Hp as [_ Hp]. cbn in Hp. rewrite Forall_singleton in Hp. rewrite last_snoc. cbn.
  rewrite typed_app. cbn. destruct (candidateStateFromText _); [|done]. cbn. by rewrite last_snoc.
Qed.

Lemma run_hist_live d k s : kernel_inv d -> last (run_hist d k) = Some s -> view_ok (view d k) -> terminalRunState s = false ->
  existsb (one_of run_terminal) (hist (db_run_states d) k "") = false.
Proof.
  intros Hi Hl [Hh _ _ _ _ _ _ _] Ht. apply Bool.not_true_iff_false. intros (text & Hin & Hx)%existsb_exists.
  assert (is_ok (runStateFromText text) = true) as Hok.
  { pose proof (hist_all (fun t => is_ok (runStateFromText t) = true) _ k "" (rd_run _ (li_readable _ Hi))) as Ha.
    rewrite List.Forall_forall in Ha. by apply Ha. }
  destruct (runStateFromText text) as [x|] eqn:E; [|done].
  assert (terminalRunState x = true) as Hxt.
  { apply one_of_spec in Hx. unfold run_terminal in Hx. rewrite !elem_of_cons in Hx.
    destruct Hx as [->|[->|[->|Hx]]]; [cbn in E; injection E as <-; done..|by apply not_elem_of_nil in Hx]. }
  assert (x ∈ run_hist d k) as Hxin.
  { apply list_elem_of_omap. exists text. split; [by apply list_elem_of_In|by rewrite E]. }
  destruct Hh as [_ Hc]. pose proof (chain_final _ _ _ Hc Hxin (fun y => run_terminal_final x y Hxt)) as Hlast. cbn in Hlast. congruence.
Qed.

Lemma run_hist_exists d k s : kernel_inv d -> last (run_hist d k) = Some s -> run_exists d k = true.
Proof.
  intros Hi Hl. destruct (run_exists d k) eqn:E; [done|]. pose proof (view_absent _ _ Hi E) as Hv. injection Hv as Hn _ _ _.
  by rewrite Hn in Hl.
Qed.

Lemma require_run_ok d a runID : run_exists d (run_key a runID) = true -> exists r, require_run d a runID = Ok r.
Proof.
  intros He. unfold require_run, lookupRun. destruct (List.find _ _) as [r|] eqn:E; [by exists r|].
  apply find_absent in E. unfold run_exists in He. congruence.
Qed.

(** A state that may follow the current one can be recorded. *)
Lemma appendRunState_ok d a runID s st text t :
  let k := run_key a runID in
  kernel_inv d -> view_ok (view d k) -> last (run_hist d k) = Some s -> terminalRunState s = false -> runStateText st = Ok text ->
  appendRunState d a runID st t = Ok (set_run_states (db_run_states d ++ [next_state (db_run_states d) k "" text t]) d).
Proof.
  intros k Hi Hv Hl Ht Htx. subst k. unfold appendRunState. rewrite Htx. cbn [rbind]. rewrite insert_next by apply Hi.
  rewrite (run_hist_exists d _ s Hi Hl), (run_hist_live d _ s Hi Hl Hv Ht).
  assert (one_of run_vocabulary text = true) as -> by (destruct st; by simplify_eq/=). done.
Qed.

Lemma TransitionRun_Ok env a runID s next d :
  let k := run_key a runID in
  kernel_inv d -> view_ok (view d k) -> validIdentity a = true -> runID <> "" -> ke_commit env = true -> last (run_hist d k) = Some s ->
  next <> RunCancelled -> validRunTransition s next = true -> (next = RunCompleted -> last (cand_hist d k) = Some CandRetained) ->
  exists d', TransitionRun env a runID next d = (Ok tt, d') /\ run_hist d' k = (run_hist d k ++ [next])%list.
Proof.
  intros k Hi Hv Hid Hne Hco Hl Hnc Hvt Hcr. subst k. unfold TransitionRun. rewrite Hid, (proj2 (String.eqb_neq _ _) Hne). cbn [negb orb].
  assert (exists text, runStateText next = Ok text) as [text Htx] by (destruct next; try (by eexists); unfold validRunTransition in Hvt; by destruct (terminalRunState s)).
  rewrite Htx. cbn [is_ok negb]. destruct (require_run_ok d a runID) as [r ->]; [by eapply run_hist_exists|]. cbn [rbind].
  rewrite (currentRunState_last d a runID s Hi Hl). cbn [rbind]. rewrite bool_decide_eq_false_2, Hvt by done. cbn [orb negb].
  assert (terminalRunState s = false) as Ht. { unfold validRunTransition in Hvt. by destruct (terminalRunState s). }
  rewrite (currentCandidateState_last d a runID Hi). cbn [rbind].
  rewrite (appendRunState_ok d a runID s next text) by done.
  destruct (bool_decide_reflect (next = RunCompleted)) as [E|]; cbn [rbind].
  - rewrite bool_decide_eq_true_2 by (by apply Hcr). cbn [rbind finish_tx]. rewrite Hco. eexists. split; [reflexivity|].
    rewrite (run_hist_next d _ _ text next _) by (by apply runStateText_inv). by rewrite bool_decide_eq_true_2.
  - cbn [finish_tx]. rewrite Hco. eexists. split; [reflexivity|].
    rewrite (run_hist_next d _ _ text next _) by (by apply runStateText_inv). by rewrite bool_decide_eq_true_2.
Qed.

(** Which run transitions the kernel performs: on a run in state [s] of a
    reachable ledger, a caller's transition succeeds exactly when it is valid
    from [s], is not a cancellation (which has its own handler) and, for
    COMPLETED, the candidate is RETAINED; it then appends that state.  Every
    refusal leaves the ledger as it was. *)
Theorem run_transition_succeeds_iff env a runID s next d :
  let k := run_key a runID in
  reachable d -> validIdentity a = true -> runID <> "" -> ke_commit env = true -> last (run_hist d k) = Some s ->
  (fst (TransitionRun env a runID next d) = Ok tt <->
   next <> RunCancelled /\ validRunTransition s next = true /\ (next = RunCompleted -> last (cand_hist d k) = Some CandRetained)) /\
  (fst (TransitionRun env a runID next d) = Ok tt ->
   run_hist (snd (TransitionRun env a runID next d)) k = (run_hist d k ++ [next])%list) /\
  (fst (TransitionRun env a runID next d) <> Ok tt -> snd (TransitionRun env a runID next d) = d).
Proof.
  intros k Hr Hid Hne Hco Hl. pose proof (reachable_inv _ Hr) as Hi. pose proof (reachable_views _ k Hr) as Hv.
  assert (fst (TransitionRun env a runID next d) = Ok tt ->
    next <> RunCancelled /\ validRunTransition s next = true /\ (next = RunCompleted -> last (cand_hist d k) = Some CandRetained)) as Hfw.
  { unfold TransitionRun. destruct (_ || _); [done|]. destruct (negb _); [done|]. intros Hf.
    destruct (require_run _ _ _); cbn [rbind] in Hf; [|done].
    rewrite (currentRunState_last d a runID s Hi Hl) in Hf. cbn [rbind] in Hf.
    destruct (bool_decide (next = RunCancelled) || _) eqn:E; [done|]. bool_prop.
    rewrite (currentCandidateState_last d a runID Hi) in Hf. cbn [rbind] in Hf. split_and!; [done|done|]. intros ->.
    rewrite bool_decide_eq_true_2 in Hf by done. fold k in Hf. destruct (bool_decide_reflect (last (cand_hist d k) = Some CandRetained)); done. }
  split_and!.
  - split; [exact Hfw|]. intros (H1 & H2 & H3). destruct (TransitionRun_Ok env a runID s next d) as (d' & -> & _); done.
  - intros (H1 & H2 & H3)%Hfw. destruct (TransitionRun_Ok env a runID s next d) as (d' & -> & E); done.
  - unfold TransitionRun. destruct (_ || _); [done|]. destruct (negb _); [done|].
    match goal with |- fst (finish_tx env d ?b) <> _ -> _ => destruct (finish_tx_cases env d b) as [E|(x & d' & _ & ->)] end; [done|].
    by destruct x.
Qed.

(** ** Closing a run *)

Lemma crossCheck_refl a : crossCheck a a = Ok tt.
Proof. unfold crossCheck. by rewrite !String.eqb_refl. Qed.

Lemma validIdempotencyKey_bounds key : validIdempotencyKey key = true -> negb (String.eqb key "") && (len key <=? 512) = true.
Proof.
  unfold validIdempotencyKey. intros Hk. bool_prop. apply andb_true_iff. split; [by apply negb_true_iff|]. by apply Z.leb_le.
Qed.

(** No live run is stuck: in every reachable ledger a run that is not
    terminal can be closed by one call, a cancellation under any unused key
    that policy allows, or a transition to FAILED; each succeeds and leaves the
    run CANCELLED or FAILED.  (The hypothesis on the digest is SHA-256's output
    format, which the idempotency table checks.) *)
Theorem live_run_can_be_closed env a runID key d :
  let k := run_key a runID in
  (forall s, isHexDigest (sha256_hex s) = true) ->
  reachable d -> live (view d k) -> validIdentity a = true -> runID <> "" -> ke_commit env = true ->
  (ke_allowed env "factory.cancel" = true -> validIdempotencyKey key = true -> lookupIdempotency d a "cancel" key = None ->
   exists d', CancelChangeRun env (MkCancel a a runID key) d = (Ok (MkRunResult runID false), d') /\
     last (run_hist d' k) = Some RunCancelled) /\
  (exists d', TransitionRun env a runID RunFailed d = (Ok tt, d') /\ last (run_hist d' k) = Some RunFailed).
Proof.
  intros k Hsha Hr (s & Hl & Ht) Hid Hne Hco. pose proof (reachable_inv _ Hr) as Hi. pose proof (reachable_views _ k Hr) as Hv.
  cbn in Hl. split.
  - intros Hal Hkey Hun. unfold CancelChangeRun. cbn [cq_Authenticated cq_IdempotencyKey cq_RunID cq_Caller].
    rewrite Hid, Hkey, (proj2 (String.eqb_neq _ _) Hne), crossCheck_refl. unfold authorize. rewrite Hal, Hun. cbn [negb orb rbind].
    destruct (require_run_ok d a runID) as [r ->]; [by eapply run_hist_exists|]. cbn [rbind].
    rewrite (currentRunState_last d a runID s Hi Hl). cbn [rbind]. rewrite Ht.
    rewrite (appendRunState_ok d a runID s RunCancelled "CANCELLED") by done. cbn [rbind].
    apply validIdempotencyKey_bounds, andb_true_iff in Hkey as [Hk1 Hk2]. unfold insertIdempotency.
    set (d1 := set_run_states _ d). change (lookupIdempotency d1) with (lookupIdempotency d). rewrite Hun, Hk1, Hk2.
    unfold identity. rewrite Hsha. change (run_exists d1) with (run_exists d).
    pose proof (run_hist_exists d _ s Hi Hl) as Hex. unfold k in Hex. rewrite Hex. cbn [one_of existsb String.eqb orb andb negb bool_decide].
    rewrite bool_decide_eq_false_2 by (by intros [? ?]). cbn -[d1 last run_hist]. rewrite Hco. eexists. split; [reflexivity|].
    change (last (run_hist d1 k) = Some RunCancelled). subst d1.
    rewrite (run_hist_next d _ _ "CANCELLED" RunCancelled k eq_refl), bool_decide_eq_true_2 by done. apply last_snoc.
  - destruct (TransitionRun_Ok env a runID s RunFailed d) as (d' & E & Eh); try done.
    + unfold validRunTransition. rewrite Ht. destruct s; done.
    + exists d'. split; [done|]. unfold k. rewrite Eh. apply last_snoc.
Qed.

(** ** Mailboxes *)

Lemma numbered_sorted {A} (f : A -> Z) l : numbered f l -> StronglySorted (fun x y => f x < f y) l.
Proof.
  induction l as [|x l IH] using rev_ind; [constructor|]. intros [Hn Hx]%numbered_snoc_inv. specialize (IH Hn).
  pose proof (numbered_bounds _ _ Hn) as Hb. clear Hn. assert (Forall (fun y => f y < f x) l) as Hall.
  { eapply Forall_impl; [exact Hb|]. cbn. lia. }
  clear Hb Hx. induction IH as [|y l Hs IH Hy]; [repeat constructor|]. apply Forall_cons in Hall as [Hyx Hall]. cbn.
  constructor; [by apply IH|]. apply Forall_app. split; [done|]. by apply Forall_singleton.
Qed.

Lemma ss_impl {A} (R S : A -> A -> Prop) l : (forall x y, R x y -> S x y) -> StronglySorted R l -> StronglySorted S l.
Proof. intros HRS. induction 1 as [|x l _ IH Hx]; constructor; [done|]. eapply Forall_impl; [exact Hx|apply HRS]. Qed.

(** Delivery order is arrival order. *)
Lemma Pending_order now d k task :
  mailbox_inv d ->
  Pending now d k task =
  if negb (valid_scope k) || negb (validID task) then Err MailboxInvalidInput
  else Ok (List.filter (unexpired now) (map (received d) (task_messages d k task))).
Proof.
  intros [Hd _]. unfold Pending. destruct (_ || _); [done|]. do 3 f_equal.
  apply sort_by_id. eapply ss_impl; [|by apply numbered_sorted]. intros x y Hxy. cbn in Hxy. apply Z.ltb_ge. lia.
Qed.

Lemma ss_filter {A} (R : A -> A -> Prop) (f : A -> bool) l : StronglySorted R l -> StronglySorted R (List.filter f l).
Proof.
  induction 1 as [|x l _ IH Hx]; cbn; [constructor|]. destruct (f x); [|done]. constructor; [done|].
  apply List.Forall_forall. intros y [Hy _]%filter_In. rewrite List.Forall_forall in Hx. by apply Hx.
Qed.

Lemma ss_map {A B} (R : B -> B -> Prop) (f : A -> B) l : StronglySorted (fun x y => R (f x) (f y)) l -> StronglySorted R (map f l).
Proof. induction 1 as [|x l _ IH Hx]; cbn; constructor; [done|]. by apply Forall_fmap. Qed.

(** A mailbox delivers in order: of a run that is not cancelled, a task
    receives all its unexpired messages and nothing else, in the order they
    were sent, with strictly increasing sequence numbers. *)
Theorem mailbox_delivers_in_order env a runID task d ms :
  reachable d -> PendingMailboxMessages env a runID task d = Ok ms ->
  ms = List.filter (unexpired (ke_now env 0)) (map (received d) (task_messages d (run_key a runID) task)) /\
  StronglySorted (fun x y => rv_Sequence x < rv_Sequence y) ms /\ last (run_hist d (run_key a runID)) <> Some RunCancelled.
Proof.
  intros Hr%reachable_inv Hp. unfold PendingMailboxMessages in Hp. destruct (_ || _); [done|].
  destruct (require_run _ _ _); cbn [rbind] in Hp; [|done].
  destruct (requireNotCancelled d a runID) eqn:Hc; cbn [rbind] in Hp; [|done].
  rewrite (Pending_order _ _ _ _ (li_mailbox _ Hr)) in Hp. destruct (_ || _); [done|]. injection Hp as <-. split_and!.
  - done.
  - apply ss_filter, ss_map. cbn. by apply numbered_sorted, Hr.
  - intros Hl. unfold requireNotCancelled in Hc. rewrite (currentRunState_last _ _ _ _ Hr Hl) in Hc. done.
Qed.

Lemma message_prefix d d' k id r : extends d d' -> lookup_message d k id = Some r -> lookup_message d' k id = Some r.
Proof. intros He. apply find_prefix, He. Qed.

(** Once a message is recorded, a send under its identity reports it again or fails. *)
Lemma SendMailboxMessage_recorded env a runID m d row :
  lookup_message d (run_key a runID) (mx_MessageID m) = Some row ->
  snd (SendMailboxMessage env a runID m d) = d /\
  forall s, fst (SendMailboxMessage env a runID m d) = Ok s ->
    s = MkSend (mr_sequence row) true /\ mx_TaskID m = mr_task row /\ mx_Kind m = mr_kind row /\ digestBytes (mx_Payload m) = mr_digest row.
Proof.
  intros Hrow. unfold SendMailboxMessage. destruct (_ || _); [done|].
  destruct (requireLiveRun _ _ _); cbn [rbind]; [|done]. destruct (requirePlanNode _ _ _ _); cbn [rbind]; [|done].
  unfold Lookup. rewrite Hrow. destruct (_ || _); cbn [rbind]; [done|]. cbn [ms_TaskID ms_Kind ms_PayloadDigest].
  destruct (String.eqb (mr_task row) _ && _ && _) eqn:E; [|done]. cbn. split; [done|]. intros s [= <-].
  bool_prop. repeat match goal with H : String.eqb _ _ = true |- _ => apply String.eqb_eq in H end. done.
Qed.

Lemma SendMailboxMessage_Ok env a runID m d s d1 :
  SendMailboxMessage env a runID m d = (Ok s, d1) ->
  exists row, lookup_message d1 (run_key a runID) (mx_MessageID m) = Some row /\ mr_task row = mx_TaskID m /\ mr_kind row = mx_Kind m /\
    mr_digest row = digestBytes (mx_Payload m) /\ mr_sequence row = sd_Sequence s.
Proof.
  intros Hs. destruct (lookup_message d (run_key a runID) (mx_MessageID m)) as [row|] eqn:Hrow.
  { destruct (SendMailboxMessage_recorded env a runID m d row Hrow) as [Hsn Hf]. rewrite Hs in Hsn, Hf. cbn in Hsn. subst d1.
    exists row. destruct (Hf s eq_refl) as (-> & -> & -> & ->). done. }
  unfold SendMailboxMessage in Hs. destruct (_ || _); [done|].
  destruct (requireLiveRun _ _ _); cbn [rbind] in Hs; [|done]. destruct (requirePlanNode _ _ _ _); cbn [rbind] in Hs; [|done].
  unfold Lookup in Hs. rewrite Hrow in Hs. destruct (_ || _); cbn [rbind] in Hs; [done|].
  destruct (stagePayload _ _ _ _) as [staged|] eqn:Hst; cbn [rbind] in Hs; [|done].
  assert (sp_digestHex staged = digestBytes (mx_Payload m)) as Hdg by (by eapply stagePayload_digest).
  destruct (Send _ _ _) as [[s' d']|] eqn:E; cbn in Hs; [|done]. destruct (ke_commit env); [|done]. injection Hs as -> ->.
  apply Send_cases in E as [(_ & _ & r & Hr & _)|(_ & _ & _ & _ & _ & r & -> & Hk & Hid & Ht & Hkd & Hd & Hsq)]; cbn in *; [congruence|].
  exists r. split; [|split_and!; congruence]. apply find_snoc; [done|]. by apply is_message_spec.
Qed.

(** A message is sent exactly once: after a successful send its identity
    names one recorded message with the sender's task, kind and payload digest;
    from then on a send under that identity in the same run changes nothing,
    and succeeds only as a replay of the same task, kind and payload, with the
    sequence number of the first. *)
Theorem message_sent_exactly_once env a runID m d s d1 :
  reachable d -> SendMailboxMessage env a runID m d = (Ok s, d1) ->
  exists row, (forall x, x ∈ db_messages d1 -> is_message (run_key a runID) (mx_MessageID m) x = true <-> x = row) /\
    mr_task row = mx_TaskID m /\ mr_kind row = mx_Kind m /\ mr_digest row = digestBytes (mx_Payload m) /\ mr_sequence row = sd_Sequence s /\
    forall d2 env' m', rtc kernel_step d1 d2 -> mx_MessageID m' = mx_MessageID m ->
      snd (SendMailboxMessage env' a runID m' d2) = d2 /\
      forall s', fst (SendMailboxMessage env' a runID m' d2) = Ok s' ->
        s' = MkSend (sd_Sequence s) true /\ mx_TaskID m' = mx_TaskID m /\ mx_Kind m' = mx_Kind m /\
        digestBytes (mx_Payload m') = digestBytes (mx_Payload m).
Proof.
  intros Hr%reachable_inv Hs. destruct (SendMailboxMessage_Ok _ _ _ _ _ _ _ Hs) as (row & Hf & Ht & Hk & Hd & Hsq).
  assert (kernel_inv d1) as Hi1.
  { eapply step_inv; [exact Hr|]. pose proof (st_send d env a runID m) as Hst. by rewrite Hs in Hst. }
  exists row. split_and!; try done.
  - intros x Hx. apply lookup_message_Some in Hf as (Hin & Hkey & Hid). rewrite is_message_spec. split; [|by intros ->]. intros [Hkx Hidx].
    apply list_elem_of_lookup in Hx as [i Hi], Hin as [j Hj]. assert (i = j) as ->; [|congruence].
    eapply (NoDup_lookup _ i j (run_key a runID, mx_MessageID m)); [exact (mi_unique _ (li_mailbox _ Hi1))| |];
      rewrite list_lookup_fmap; [rewrite Hi|rewrite Hj]; cbn; congruence.
  - intros d2 env' m' Hst Hid. pose proof (message_prefix _ _ _ _ _ (steps_extend _ _ Hi1 Hst) Hf) as Hf2. rewrite <- Hid in Hf2.
    destruct (SendMailboxMessage_recorded env' a runID m' d2 row Hf2) as [H1 H2]. split; [done|].
    intros s' Hs'. destruct (H2 s' Hs') as (-> & -> & -> & ->). split_and!; congruence.
Qed.

(** ** Scopes *)

(** What [encoding/json] promises about a non-empty slice of strings. *)
Definition paths_roundtrip : Prop := forall l, l <> [] -> paths_decode (paths_encode l) = Some l.

(** The leaf node's stored scope holds the path. *)
Definition owns (r : NodeRow) (p : string) : bool :=
  match paths_decode (nr_owned r) with Some owned => pathWithinScope p owned | None => false end.

Lemma pathWithinScope_app p s1 s2 : pathWithinScope p (s1 ++ s2) = pathWithinScope p s1 || pathWithinScope p s2.
Proof. apply existsb_app. Qed.

Lemma rfold_scopes rows acc scopes :
  rfold (fun scopes r => do paths <- decodePaths (nr_owned r) ; Ok (scopes ++ paths)%list) acc rows = Ok scopes ->
  forall p, pathWithinScope p scopes = pathWithinScope p acc || existsb (fun r => owns r p) rows.
Proof.
  revert acc. induction rows as [|r rows IH]; intros acc; cbn [rfold].
  - intros [= <-] p. cbn. by rewrite orb_false_r.
  - intros Hr p. destruct (decodePaths (nr_owned r)) as [owned|] eqn:Hd; cbn [rbind] in Hr; [|done].
    rewrite (IH _ Hr p), pathWithinScope_app, <- orb_assoc. unfold decodePaths in Hd. cbn [existsb]. unfold owns at 2.
    destruct (paths_decode (nr_owned r)); [|done]. by injection Hd as ->.
Qed.

Lemma leafScopes_owns d a runID scopes p :
  leafScopes d a runID = Ok scopes -> pathWithinScope p scopes = true ->
  exists r, r ∈ leaf_rows (nodes_of d (run_key a runID)) /\ owns r p = true.
Proof.
  intros Hs Hp. unfold leafScopes in Hs. rewrite (rfold_scopes _ _ _ Hs p) in Hp. cbn in Hp.
  apply existsb_exists in Hp as (r & Hin & Ho). exists r. split; [|done]. apply list_elem_of_In. unfold leaf_rows, nodes_of.
  apply filter_In in Hin as [Hin Hf]. bool_prop. apply filter_In. split; [|done]. apply filter_In. split; [done|].
  by apply bool_decide_eq_true_2.
Qed.

Lemma validateLeafSpecs_shape leaves approved u :
  validateLeafSpecs leaves approved = Ok u -> leaves_shape approved [orchestratorNodeID; reviewNodeID] leaves.
Proof. unfold validateLeafSpecs, fail_if. intros Hv. res_inv. by eapply check_leaves_shape. Qed.

Lemma jsonPaths_decode l : paths_roundtrip -> l <> [] -> paths_decode (jsonPaths l) = Some l.
Proof. intros Hrt Hl. destruct l; [done|]. by apply Hrt. Qed.

(** In an accepted plan at most one leaf owns a path. *)
Lemma planned_exclusive ns p i j r1 r2 :
  paths_roundtrip -> planned ns -> leaf_rows ns !! i = Some r1 -> leaf_rows ns !! j = Some r2 ->
  owns r1 p = true -> owns r2 p = true -> i = j.
Proof.
  intros Hrt (leaves & approved & Hv & He) Hi Hj Ho1 Ho2.
  assert (forall x r, leaf_rows ns !! x = Some r -> owns r p = true ->
    exists l, leaves !! x = Some l /\ pathWithinScope p (lf_OwnedPaths l) = true) as Hx.
  { intros x r Hr Ho. assert ((nr_owned <$> leaf_rows ns) !! x = Some (nr_owned r)) as Hl by (by rewrite list_lookup_fmap, Hr).
    rewrite He, list_lookup_fmap in Hl. destruct (leaves !! x) as [l|] eqn:El; [|done]. injection Hl as Hl. exists l. split; [done|].
    unfold owns in Ho. rewrite <- Hl in Ho. rewrite jsonPaths_decode in Ho; [done|done|].
    apply validateLeafSpecs_shape in Hv as [_ _ Ho' _]. apply Ho'. by eapply list_elem_of_lookup_2. }
  destruct (Hx _ _ Hi Ho1) as (l1 & Hl1 & Hp1). destruct (Hx _ _ Hj Ho2) as (l2 & Hl2 & Hp2).
  apply validateLeafSpecs_shape in Hv as [_ _ _ Ha]. destruct (Nat.lt_trichotomy i j) as [Hij|[Hij|Hij]]; [|exact Hij|].
  - pose proof (Ha i j l1 l2 Hij Hl1 Hl2) as Hno. by rewrite (overlap_shared l1 l2 p) in Hno.
  - pose proof (Ha j i l2 l1 Hij Hl2 Hl1) as Hno. by rewrite (overlap_shared l2 l1 p) in Hno.
Qed.

Lemma check_preview_edits_spec scopes post pre langs edits l :
  check_preview_edits scopes post pre langs edits = Ok l ->
  NoDup (pe_Path <$> edits) /\ Forall (fun e => pe_Path e ∉ post /\ validRepositoryPath (pe_Path e) = true /\ pathWithinScope (pe_Path e) scopes = true /\
    (pe_Operation e = OpRename -> pathWithinScope (pe_OldPath e) scopes = true)) edits.
Proof.
  revert post pre langs. induction edits as [|e edits IH]; intros post pre langs; cbn [check_preview_edits]; [repeat constructor|].
  intros Hc. destruct (validatePreviewEdit e) eqn:Hv; cbn [rbind] in Hc; [|done].
  destruct (one_of post (pe_Path e)) eqn:Hpost; [done|]. destruct (_ && one_of _ _); [done|].
  destruct (pathWithinScope (pe_Path e) scopes) eqn:Hs; cbn [negb] in Hc; [|done].
  destruct (bool_decide (pe_Operation e = OpRename) && _) eqn:Hren; [done|]. apply IH in Hc as [Hn Hf].
  rewrite fmap_cons, NoDup_cons, Forall_cons. split_and!; try done.
  - intros (x & Hx & Hin)%list_elem_of_fmap. rewrite Forall_forall in Hf. destruct (Hf x Hin) as [Hnot _]. rewrite <- Hx in Hnot. apply Hnot. left.
  - intros Hin%one_of_spec. congruence.
  - unfold validatePreviewEdit, fail_if in Hv. destruct (validRepositoryPath _); [done|]. cbn in Hv. done.
  - intros Hr. rewrite bool_decide_eq_true_2 in Hren by done. cbn in Hren. by apply negb_false_iff in Hren.
  - eapply Forall_impl; [exact Hf|]. cbn. intros x (H1 & H2). split; [|done]. intros Hin. apply H1. by right.
Qed.

Lemma ProposeCandidate_Ok env a runID p d :
  fst (ProposeCandidate env a runID p d) = Ok tt ->
  exists run scopes, require_run d a runID = Ok run /\ leafScopes d a runID = Ok scopes /\
    validatePreview (ke_preview_ok env) p run scopes = Ok tt.
Proof.
  unfold ProposeCandidate. destruct (_ || _); [done|]. destruct (require_run _ _ _) as [run|]; cbn [rbind]; [|done].
  destruct (currentRunState _ _ _); cbn [rbind]; [|done]. destruct (_ && _); [done|].
  destruct (leafScopes _ _ _) as [scopes|]; cbn [rbind]; [|done]. destruct (validatePreview _ _ _ _) as [[]|] eqn:E; cbn [rbind]; [|done].
  intros _. by exists run, scopes.
Qed.

(** No candidate escapes the scopes its run was approved for: when a
    preview is accepted, it is based on the run's repository revision, no two
    edits have the same target, and every path an edit touches (the old path of
    a rename too) lies in the scope of exactly one leaf of the run's plan. *)
Theorem accepted_edits_have_one_owner env a runID p d :
  let leaves := leaf_rows (nodes_of d (run_key a runID)) in
  paths_roundtrip -> reachable d -> fst (ProposeCandidate env a runID p d) = Ok tt ->
  (exists run, lookupRun d a runID = Some run /\ pv_ExpectedBase p = rr_repositoryGitOID run) /\
  NoDup (pe_Path <$> pv_Edits p) /\
  forall e path, e ∈ pv_Edits p -> path = pe_Path e \/ (pe_Operation e = OpRename /\ path = pe_OldPath e) ->
    exists i r, leaves !! i = Some r /\ owns r path = true /\
      forall j r', leaves !! j = Some r' -> owns r' path = true -> j = i.
Proof.
  intros leaves Hrt Hr Hp. pose proof (reachable_inv _ Hr) as Hi. destruct (ProposeCandidate_Ok _ _ _ _ _ Hp) as (run & scopes & Hrun & Hsc & Hv).
  assert (planned (nodes_of d (run_key a runID))) as Hpl. { apply (li_planned _ Hi). by eapply require_run_exists. }
  unfold validatePreview in Hv. destruct (pv_ChangeSet p) as [[id base]|]; [|done]. destruct (String.eqb id ""); [done|].
  destruct (negb (bool_decide _)); [done|]. destruct (negb (String.eqb (pv_ExpectedBase p) _) || _) eqn:Hb; [done|].
  destruct ((length (pv_Edits p) =? 0)%nat || _); [done|].
  destruct (check_preview_edits _ _ _ _ _) as [langs|] eqn:Hc; cbn [rbind] in Hv; [|done].
  apply check_preview_edits_spec in Hc as [Hnd Hed]. rewrite Forall_forall in Hed. split_and!; [|done|].
  - exists run. revert Hrun. unfold require_run. destruct (lookupRun d a runID); [|done]. intros [= ->]. split; [done|].
    apply orb_false_iff in Hb as [Hb _]. by apply negb_false_iff, String.eqb_eq in Hb.
  - intros e path He Hpath. destruct (Hed e He) as (_ & _ & Hs1 & Hs2).
    assert (pathWithinScope path scopes = true) as Hs by (destruct Hpath as [->|[Hop ->]]; [done|by apply Hs2]).
    destruct (leafScopes_owns _ _ _ _ _ Hsc Hs) as (r & Hin & Ho). apply list_elem_of_lookup in Hin as [i Hlk].
    exists i, r. split_and!; [done|done|]. intros j r' Hj Ho'. by eapply planned_exclusive.
Qed.
End safety.
