(* ===== verification/FactoryDemo.v ===== *)
(** * factory: a concrete change run

    A runtime whose digests have SHA-256's format, a concrete codec for path
    lists and a concrete environment, and one change taken through the kernel
    from admission to COMPLETED, call by call.  The witnesses of the theorems
    of [FactorySafety] apply them to the ledgers of this run. *)

From Stdlib Require Import Ascii String.
From S2P Require Import Prelude GoString GoPath Float64 Runtime SqlTable FactoryTypes FactoryStore FactoryRoster FactoryMailbox FactoryPlan FactoryKernel FactoryMachine FactoryLedger FactoryInvariant FactorySafety.
Open Scope string_scope.
Open Scope Z_scope.

(** ** Digests of 64 hex digits *)

Definition hex_digits : list ascii := ["0"; "1"; "2"; "3"; "4"; "5"; "6"; "7"; "8"; "9"; "a"; "b"; "c"; "d"; "e"; "f"]%char.

Fixpoint hex_of (n : nat) (z : Z) : string :=
  match n with
  | O => ""
  | S n' => String (List.nth (Z.to_nat (z mod 16)) hex_digits "0"%char) (hex_of n' (z / 16))
  end.

#[local] Instance demo_digests : GoRuntime := {|
  sha256_hex := fun s => hex_of 64 (checksum s 7);
  rfc3339nano_ok := @rfc3339nano_ok demo_runtime;
  quote := @quote demo_runtime;
  to_lower := @to_lower demo_runtime;
  equal_fold := @equal_fold demo_runtime;
  int_out_of_range := @int_out_of_range demo_runtime
|}.

Lemma all_hex_digit c s : In c hex_digits -> all_hex (String c s) = all_hex s.
Proof.
  intros Hc. unfold hex_digits in Hc. cbn in Hc. unfold all_hex.
  destruct Hc as [<-|[<-|[<-|[<-|[<-|[<-|[<-|[<-|[<-|[<-|[<-|[<-|[<-|[<-|[<-|[<-|[]]]]]]]]]]]]]]]]]; reflexivity.
Qed.

Lemma hex_of_ok n z : all_hex (hex_of n z) = true /\ len (hex_of n z) = Z.of_nat n.
Proof.
  revert z. induction n as [|n IH]; intros z; [done|]. destruct (IH (z / 16)) as [H1 H2]. split.
  - cbn [hex_of]. rewrite all_hex_digit; [done|].
    destruct (nth_in_or_default (Z.to_nat (z mod 16)) hex_digits "0"%char) as [Hin|E]; [done|]. rewrite E. by left.
  - unfold len in *. cbn [hex_of String.length]. lia.
Qed.

Lemma demo_digests_hex s : isHexDigest (sha256_hex s) = true.
Proof. unfold isHexDigest. cbn [sha256_hex demo_digests]. destruct (hex_of_ok 64 (checksum s 7)) as [-> ->]. done. Qed.

(** ** Path lists *)

#[local] Instance demo_codec : PathsCodec := {|
  paths_encode := fun l => pos_str (encode l);
  paths_decode := fun s => if String.eqb s "[]" then Some [] else decode (str_pos s)
|}.

Lemma demo_codec_ok : paths_roundtrip.
Proof.
  intros l _. cbn. destruct (String.eqb_spec (pos_str (encode l)) "[]") as [E|_]; [by destruct (encode l)|].
  rewrite <- (append_nil_r (pos_str (encode l))), str_pos_str. apply decode_encode.
Qed.

(** ** The run *)

Definition zeros (n : nat) : string := hex_of n 0.

Definition env0 : KernelEnv := {|
  ke_now := fun i => 1000 + Z.of_nat i;
  ke_commit := true;
  ke_put := fun _ _ _ => Some "artifact";
  ke_base := Some (zeros 40);
  ke_allowed := fun _ => true;
  ke_route := fun q => StaticRouter_Route (MkRoute (zeros 64) "model" "static_route") q;
  ke_leaseTTL := 60000;
  ke_epoch := 1;
  ke_policyDigest := zeros 64;
  ke_live := true;
  ke_plan_ok := fun _ => true;
  ke_preview_ok := fun _ => true;
  ke_intent_bytes := fun i => Some (in_IntentID i);
  ke_preview_bytes := fun p => Some (match pv_ChangeSet p with Some c => fst c | None => "" end);
  ke_finding_bytes := fun f => Some (dr_Summary f)
|}.

Definition alice : Identity := MkIdentity "tenant" "alice" "session".

Definition intent0 : ChangeIntent := MkIntent "intent-1" (zeros 40) (zeros 64) ["evidence"] "alice" "tenant" true None.

Definition leaf_a : LeafSpec := MkLeaf "leaf-a" "change the parser" ["src/parser"] [] "".
Definition leaf_b : LeafSpec := MkLeaf "leaf-b" "update the docs" ["docs"; "README.md"] [] "bob".

Definition admit0 : AdmitRequest := MkAdmit alice alice intent0 ["src"; "docs"; "README.md"] [leaf_a; leaf_b] true "key-1".

Definition start : DB := fresh_ledger [("tenant", "alice", "session")].
Definition admitted0 : DB := Eval vm_compute in snd (AdmitChangeIntent env0 admit0 start).
Definition run0 : string := Eval vm_compute in match fst (AdmitChangeIntent env0 admit0 start) with Ok r => ar_RunID r | Err _ => "" end.
Definition key0 : RunKey := run_key alice run0.

Definition ready0 : DB := Eval vm_compute in snd (TransitionRun env0 alice run0 RunReady admitted0).
Definition running0 : DB := Eval vm_compute in snd (TransitionRun env0 alice run0 RunRunning ready0).
Definition committed0 : DB := Eval vm_compute in snd (CommitLeafResult env0 alice run0 "leaf-a" 1 "patch" running0).

Definition message0 : MailboxMessageInput := MkMailboxInput "m-1" "leaf-a" "QUESTION" "" "" "which grammar?" 0.
Definition sent0 : DB := Eval vm_compute in snd (SendMailboxMessage env0 alice run0 message0 committed0).

Definition edit0 : PreviewEdit := MkPreviewEdit "src/parser/lex.go" "" OpModify 1 (Some ("sha256", zeros 64)) (Some ("sha256", zeros 64)).
Definition edit1 : PreviewEdit := MkPreviewEdit "docs/grammar.md" "" OpAdd 2 None (Some ("sha256", zeros 64)).
Definition preview0 : ChangeSetPreview :=
  MkPreview (Some ("change-set-1", zeros 40)) CandProposed (zeros 40) [edit0; edit1] [1; 2] (plan_gates run0).
Definition proposed0 : DB := Eval vm_compute in snd (ProposeCandidate env0 alice run0 preview0 sent0).
Definition applied0 : DB := Eval vm_compute in snd (TransitionCandidate env0 alice run0 CandApplied None proposed0).

Definition pass (d : DB) (g : GateSpec) : DB := snd (RecordGateResult env0 alice run0 (gs_GateID g) GatePassed d).
Definition passed0 : DB := Eval vm_compute in fold_left pass (plan_gates run0) applied0.
Definition verified0 : DB := Eval vm_compute in snd (TransitionCandidate env0 alice run0 CandVerified None passed0).
Definition reviewed0 : DB := Eval vm_compute in snd (TransitionCandidate env0 alice run0 CandReviewed None verified0).
Definition retained0 : DB := Eval vm_compute in snd (TransitionCandidate env0 alice run0 CandRetained None reviewed0).
Definition review0 : DB := Eval vm_compute in snd (TransitionRun env0 alice run0 RunReview retained0).
Definition candidate_ready0 : DB := Eval vm_compute in snd (TransitionRun env0 alice run0 RunCandidateReady review0).
Definition completed0 : DB := Eval vm_compute in snd (TransitionRun env0 alice run0 RunCompleted candidate_ready0).

(** ** Reachability *)

Lemma reach_by d e d' : reachable d -> kernel_step d e -> e = d' -> reachable d'.
Proof. intros [sessions Hr] Hs <-. exists sessions. by eapply rtc_r. Qed.

Ltac reach H step := eapply (reach_by _ _ _ H); [exact step|vm_compute; reflexivity].

Lemma start_reachable : reachable start.
Proof. exists [("tenant", "alice", "session")]. apply rtc_refl. Qed.

Lemma admitted0_reachable : reachable admitted0.
Proof. reach start_reachable (st_admit start env0 admit0). Qed.
Lemma ready0_reachable : reachable ready0.
Proof. reach admitted0_reachable (st_run admitted0 env0 alice run0 RunReady). Qed.
Lemma running0_reachable : reachable running0.
Proof. reach ready0_reachable (st_run ready0 env0 alice run0 RunRunning). Qed.
Lemma committed0_reachable : reachable committed0.
Proof. reach running0_reachable (st_leaf running0 env0 alice run0 "leaf-a" 1 "patch"). Qed.
Lemma sent0_reachable : reachable sent0.
Proof. reach committed0_reachable (st_send committed0 env0 alice run0 message0). Qed.
Lemma proposed0_reachable : reachable proposed0.
Proof. reach sent0_reachable (st_propose sent0 env0 alice run0 preview0). Qed.
Lemma applied0_reachable : reachable applied0.
Proof. reach proposed0_reachable (st_candidate proposed0 env0 alice run0 CandApplied None). Qed.

Lemma pass_reachable gates d : reachable d -> reachable (fold_left pass gates d).
Proof.
  revert d. induction gates as [|g gates IH]; intros d Hr; [done|]. cbn [fold_left]. apply IH.
  eapply reach_by; [exact Hr|exact (st_gate d env0 alice run0 (gs_GateID g) GatePassed)|reflexivity].
Qed.

Lemma passed0_reachable : reachable passed0.
Proof.
  assert (fold_left pass (plan_gates run0) applied0 = passed0) as <- by (vm_compute; reflexivity).
  apply pass_reachable, applied0_reachable.
Qed.
Lemma verified0_reachable : reachable verified0.
Proof. reach passed0_reachable (st_candidate passed0 env0 alice run0 CandVerified None). Qed.
Lemma reviewed0_reachable : reachable reviewed0.
Proof. reach verified0_reachable (st_candidate verified0 env0 alice run0 CandReviewed None). Qed.
Lemma retained0_reachable : reachable retained0.
Proof. reach reviewed0_reachable (st_candidate reviewed0 env0 alice run0 CandRetained None). Qed.
Lemma review0_reachable : reachable review0.
Proof. reach retained0_reachable (st_run retained0 env0 alice run0 RunReview). Qed.
Lemma candidate_ready0_reachable : reachable candidate_ready0.
Proof. reach review0_reachable (st_run review0 env0 alice run0 RunCandidateReady). Qed.
Lemma completed0_reachable : reachable completed0.
Proof. reach candidate_ready0_reachable (st_run candidate_ready0 env0 alice run0 RunCompleted). Qed.

(** ** Witnesses *)

Lemma kernel_refines_run_machine_witness :
  exists k0, (forall k, k <> k0 -> view (snd (TransitionRun env0 alice run0 RunReady admitted0)) k = view admitted0 k) /\
    (view (snd (TransitionRun env0 alice run0 RunReady admitted0)) k0 = view admitted0 k0 \/
     run_move (view admitted0 k0) (view (snd (TransitionRun env0 alice run0 RunReady admitted0)) k0)).
Proof.
  exact (kernel_refines_run_machine admitted0 _ admitted0_reachable (st_run admitted0 env0 alice run0 RunReady)).
Defined.

Lemma histories_are_lawful_witness :
  history RunPlanning validRunTransition (run_hist completed0 key0) /\ length (run_hist completed0 key0) = 6%nat.
Proof.
  split; [|vm_compute; reflexivity].
  exact (proj1 (histories_are_lawful completed0 key0 completed0_reachable)).
Defined.

Lemma completed_change_is_verified_witness :
  last (run_hist completed0 key0) = Some RunCompleted /\ last (cand_hist completed0 key0) = Some CandRetained.
Proof.
  assert (last (run_hist completed0 key0) = Some RunCompleted) as E by (vm_compute; reflexivity).
  split; [exact E|]. exact (proj1 (completed_change_is_verified completed0 key0 completed0_reachable) E).
Defined.

Lemma terminal_run_is_final_witness :
  view (snd (CancelChangeRun env0 (MkCancel alice alice run0 "key-2") completed0)) key0 = view completed0 key0.
Proof.
  refine (proj1 (terminal_run_is_final completed0 _ key0 RunCompleted completed0_reachable _ _ _)).
  - vm_compute. reflexivity.
  - reflexivity.
  - apply rtc_once, st_cancel.
Defined.

Lemma ledger_is_append_only_witness : extends admitted0 (snd (TransitionRun env0 alice run0 RunReady admitted0)).
Proof.
  refine (proj1 (ledger_is_append_only admitted0 _ admitted0_reachable _)). apply rtc_once, st_run.
Defined.

Lemma leaf_result_exactly_once_witness :
  snd (CommitLeafResult env0 alice run0 "leaf-a" 1 "another patch" committed0) = committed0.
Proof.
  assert (exists r, CommitLeafResult env0 alice run0 "leaf-a" 1 "patch" running0 = (Ok r, committed0)) as [r Hc].
  { eexists. vm_compute. reflexivity. }
  destruct (leaf_result_exactly_once env0 alice run0 "leaf-a" 1 "patch" running0 r committed0 running0_reachable Hc)
    as (row & _ & _ & _ & _ & Hlater).
  exact (proj1 (Hlater committed0 env0 1 "another patch" (rtc_refl _ _))).
Defined.

Lemma admission_is_idempotent_witness :
  snd (AdmitChangeIntent env0 admit0 (snd (TransitionRun env0 alice run0 RunReady admitted0))) =
  snd (TransitionRun env0 alice run0 RunReady admitted0).
Proof.
  assert (AdmitChangeIntent env0 admit0 start = (Ok (MkRunResult run0 false), admitted0)) as Hc by (vm_compute; reflexivity).
  destruct (admission_is_idempotent env0 admit0 start (MkRunResult run0 false) admitted0 start_reachable Hc) as (_ & _ & Hlater).
  refine (proj1 (Hlater _ env0 admit0 _ eq_refl eq_refl eq_refl)). apply rtc_once, st_run.
Defined.

Lemma run_transition_succeeds_iff_witness :
  fst (TransitionRun env0 alice run0 RunReady admitted0) = Ok tt /\ fst (TransitionRun env0 alice run0 RunCompleted admitted0) <> Ok tt.
Proof.
  assert (last (run_hist admitted0 (run_key alice run0)) = Some RunPlanning) as Hl by (vm_compute; reflexivity).
  assert (run0 <> "") as Hne by discriminate.
  split.
  - apply (run_transition_succeeds_iff env0 alice run0 RunPlanning RunReady admitted0 admitted0_reachable eq_refl Hne eq_refl Hl).
    split; [discriminate|]. split; [reflexivity|discriminate].
  - intros E.
    destruct (proj1 (proj1 (run_transition_succeeds_iff env0 alice run0 RunPlanning RunCompleted admitted0 admitted0_reachable
      eq_refl Hne eq_refl Hl)) E) as (_ & Hv & _). discriminate Hv.
Defined.

Lemma live_run_can_be_closed_witness :
  exists d', TransitionRun env0 alice run0 RunFailed running0 = (Ok tt, d') /\ last (run_hist d' key0) = Some RunFailed.
Proof.
  refine (proj2 (live_run_can_be_closed env0 alice run0 "key-2" running0 demo_digests_hex running0_reachable _ eq_refl _ eq_refl)).
  - exists RunRunning. split; [vm_compute; reflexivity|reflexivity].
  - discriminate.
Defined.

Lemma mailbox_delivers_in_order_witness :
  exists ms, PendingMailboxMessages env0 alice run0 "leaf-a" sent0 = Ok ms /\ length ms = 1%nat /\
    StronglySorted (fun x y => rv_Sequence x < rv_Sequence y) ms.
Proof.
  assert (exists ms, PendingMailboxMessages env0 alice run0 "leaf-a" sent0 = Ok ms /\ length ms = 1%nat) as (ms & Hp & Hn).
  { eexists. split; [vm_compute; reflexivity|reflexivity]. }
  exists ms. split; [exact Hp|]. split; [exact Hn|].
  exact (proj1 (proj2 (mailbox_delivers_in_order env0 alice run0 "leaf-a" sent0 ms sent0_reachable Hp))).
Defined.

Lemma message_sent_exactly_once_witness :
  snd (SendMailboxMessage env0 alice run0 message0 sent0) = sent0.
Proof.
  assert (SendMailboxMessage env0 alice run0 message0 committed0 = (Ok (MkSend 1 false), sent0)) as Hs by (vm_compute; reflexivity).
  destruct (message_sent_exactly_once env0 alice run0 message0 committed0 (MkSend 1 false) sent0 committed0_reachable Hs)
    as (row & _ & _ & _ & _ & _ & Hlater).
  exact (proj1 (Hlater sent0 env0 message0 (rtc_refl _ _) eq_refl)).
Defined.

Lemma accepted_edits_have_one_owner_witness :
  exists i r, leaf_rows (nodes_of sent0 key0) !! i = Some r /\ owns r "docs/grammar.md" = true /\
    forall j r', leaf_rows (nodes_of sent0 key0) !! j = Some r' -> owns r' "docs/grammar.md" = true -> j = i.
Proof.
  assert (fst (ProposeCandidate env0 alice run0 preview0 sent0) = Ok tt) as Hp by (vm_compute; reflexivity).
  destruct (accepted_edits_have_one_owner env0 alice run0 preview0 sent0 demo_codec_ok sent0_reachable Hp) as (_ & _ & Ho).
  apply (Ho edit1); [apply list_elem_of_In; right; left; reflexivity|left; reflexivity].
Defined.

(** ** A disposition after cancellation *)

Definition finding0 : FindingDraft :=
  MkDraft SevMajor CatCorrectness "off by one" [MkEvidenceRef "ns" "e" "git" "r" "sha256" (zeros 64)] "carol" "session-2" "family-b".
Definition found0 : DB := Eval vm_compute in snd (RecordFinding env0 alice run0 finding0 review0).
Definition finding_id0 : string := Eval vm_compute in match fst (RecordFinding env0 alice run0 finding0 review0) with Ok r => fr_FindingID r | Err _ => "" end.
Definition cancelled0 : DB := Eval vm_compute in snd (CancelChangeRun env0 (MkCancel alice alice run0 "key-2") found0).

(** A finding of a cancelled run can still be dispositioned: [DisposeFinding]
    does not read the state of the run. *)
Example cancelled_run_dispositioned :
  last (run_hist cancelled0 key0) = Some RunCancelled /\
  fst (DisposeFinding env0 alice run0 finding_id0 DispFixed cancelled0) = Ok tt /\
  snd (DisposeFinding env0 alice run0 finding_id0 DispFixed cancelled0) <> cancelled0.
Proof. split_and!; [vm_compute; reflexivity|vm_compute; reflexivity|]. intros E. apply (f_equal db_dispositions) in E. vm_compute in E. discriminate E. Qed.
