(* ===== verification/Contracts.v ===== *)
(** * internal/contracts: shared facts

    The value types of [services/internal/contracts/contracts.go] that the
    broker passes around, and [encoding/hex] as the sources use it.  A
    [time.Time] is the number of nanoseconds since the zero time, so the zero
    time is 0 and [Before] is the order of [Z]. *)

From Stdlib Require Import Ascii String.
From S2P Require Import Prelude GoString.
Open Scope string_scope.
Open Scope Z_scope.

Record Identifier := MkIdentifier { Namespace : string; Value : string }.

#[export] Instance Identifier_eq_dec : EqDecision Identifier.
Proof. solve_decision. Defined.

Record Digest := MkDigest { Algorithm : string; Hex : string }.

#[export] Instance Digest_eq_dec : EqDecision Digest.
Proof. solve_decision. Defined.

Record Receipt := MkReceipt { OperationID : Identifier; Status : string; ReasonCode : string; Watermark : Z }.

#[export] Instance Receipt_eq_dec : EqDecision Receipt.
Proof. solve_decision. Defined.

(** The peer credentials are not read by the modelled code. *)
Record MappedIdentityFact := MkFact { Principal : Identifier; Tenant : Identifier; Session : Identifier }.

Record PolicyRequest := MkPolicyRequest { pq_Action : string; pq_Resource : Identifier; pq_RevocationEpoch : Z }.
Record PolicyDecision := MkPolicyDecision { pd_Allowed : bool; pd_Receipt : Receipt; pd_RevocationEpoch : Z }.

(** ** [encoding/hex] *)

Definition hex_value (c : ascii) : option Z :=
  if in_range 48 57 c then Some (byte_val c - 48)
  else if in_range 97 102 c then Some (byte_val c - 87)
  else if in_range 65 70 c then Some (byte_val c - 55)
  else None.

Definition hex_char (n : Z) : ascii := if n <? 10 then byte_of_Z (48 + n) else byte_of_Z (87 + n).

(** [hex.DecodeString]: an odd length or another character is an error. *)
Fixpoint hex_decode (s : string) : option (list Z) :=
  match s with
  | EmptyString => Some []
  | String a (String b s') =>
      match hex_value a, hex_value b, hex_decode s' with
      | Some x, Some y, Some l => Some (16 * x + y :: l)
      | _, _, _ => None
      end
  | String _ EmptyString => None
  end.

Fixpoint hex_encode (l : list Z) : string :=
  match l with
  | [] => EmptyString
  | n :: l' => String (hex_char (n / 16)) (String (hex_char (n mod 16)) (hex_encode l'))
  end.

(** The check several packages write out: [sha256], 64 characters, and the text decodes and encodes back to itself. *)
Definition sha256_digest_ok (d : Digest) : bool :=
  String.eqb (Algorithm d) "sha256" && (len (Hex d) =? 64)
  && match hex_decode (Hex d) with Some l => String.eqb (hex_encode l) (Hex d) | None => false end.

(** ** Lemmas *)

Definition lower_hex (c : ascii) : bool := in_range 48 57 c || in_range 97 102 c.

Fixpoint all_lower_hex (s : string) : bool :=
  match s with EmptyString => true | String c s' => lower_hex c && all_lower_hex s' end.

Lemma byte_of_byte_val c : byte_of_Z (byte_val c) = c.
Proof. unfold byte_of_Z, byte_val. rewrite N2Z.id. apply ascii_N_embedding. Qed.

Lemma hex_value_lower c x : hex_value c = Some x -> 0 <= x < 16 /\ (hex_char x = c <-> lower_hex c = true).
Proof.
  unfold hex_value, lower_hex. destruct (in_range 48 57 c) eqn:E1; [|destruct (in_range 97 102 c) eqn:E2; [|destruct (in_range 65 70 c) eqn:E3; [|done]]];
    intros [= <-]; unfold in_range in *; bool_prop; (split; [lia|]); unfold hex_char.
  - rewrite (proj2 (Z.ltb_lt _ _)) by lia. rewrite Z.add_sub_assoc, Z.add_simpl_l, byte_of_byte_val. done.
  - rewrite (proj2 (Z.ltb_ge _ _)) by lia. rewrite Z.add_sub_assoc, Z.add_simpl_l, byte_of_byte_val. done.
  - rewrite (proj2 (Z.ltb_ge _ _)) by lia. split; [|done]. intros E. apply (f_equal byte_val) in E.
    replace (87 + (byte_val c - 55)) with (byte_val c + 32) in E by lia.
    unfold byte_of_Z, byte_val in E. rewrite N_ascii_embedding in E; [lia|]. unfold byte_val in *. lia.
Qed.

Lemma hex_value_some c : lower_hex c = true -> exists x, hex_value c = Some x.
Proof. unfold lower_hex, hex_value. destruct (in_range 48 57 c); [eauto|]. cbn. intros ->. eauto. Qed.

(** A text decodes and encodes back to itself exactly when it has even length and only lower-case hex digits. *)
Lemma hex_roundtrip n s :
  (String.length s = 2 * n)%nat ->
  (exists l, hex_decode s = Some l /\ hex_encode l = s) <-> all_lower_hex s = true.
Proof.
  revert s. induction n as [|n IH]; intros s Hl.
  - destruct s; [|done]. split; [done|]. intros _. by exists [].
  - destruct s as [|a [|b s]]; cbn in Hl; [lia|lia|]. assert (String.length s = 2 * n)%nat as Hs by lia. specialize (IH s Hs).
    cbn. split.
    + intros (l & Hd & He). destruct (hex_value a) as [x|] eqn:Ea; [|done]. destruct (hex_value b) as [y|] eqn:Eb; [|done].
      destruct (hex_decode s) as [l'|] eqn:Es; [|done]. injection Hd as <-. cbn in He. injection He as H1 H2 H3.
      apply hex_value_lower in Ea as [Hx Ha], Eb as [Hy Hb].
      assert ((16 * x + y) / 16 = x) as Ex by (rewrite Z.mul_comm, Z.div_add_l by lia; rewrite Z.div_small; lia).
      assert ((16 * x + y) mod 16 = y) as Ey by (rewrite Z.mul_comm, Z.add_comm, Z_mod_plus_full, Z.mod_small; lia).
      rewrite Ex in H1. rewrite Ey in H2. rewrite (proj1 Ha H1), (proj1 Hb H2). cbn. apply IH. by exists l'.
    + intros Hall. bool_prop. destruct (hex_value_some a) as [x Ea]; [done|]. destruct (hex_value_some b) as [y Eb]; [done|].
      destruct (proj2 IH ltac:(done)) as (l & Es & He). rewrite Ea, Eb, Es. eexists. split; [done|]. cbn.
      apply hex_value_lower in Ea as [Hx Ha], Eb as [Hy Hb].
      assert ((16 * x + y) / 16 = x) as -> by (rewrite Z.mul_comm, Z.div_add_l by lia; rewrite Z.div_small; lia).
      assert ((16 * x + y) mod 16 = y) as -> by (rewrite Z.mul_comm, Z.add_comm, Z_mod_plus_full, Z.mod_small; lia).
      rewrite (proj2 Ha), (proj2 Hb), He by done. done.
Qed.

Lemma sha256_digest_ok_spec d :
  sha256_digest_ok d = true <-> Algorithm d = "sha256" /\ len (Hex d) = 64 /\ all_lower_hex (Hex d) = true.
Proof.
  unfold sha256_digest_ok. rewrite !andb_true_iff, String.eqb_eq, Z.eqb_eq.
  assert (len (Hex d) = 64 -> (match hex_decode (Hex d) with Some l => String.eqb (hex_encode l) (Hex d) | None => false end = true <->
    all_lower_hex (Hex d) = true)) as Hx.
  { intros Hl. unfold len in Hl. rewrite <- (hex_roundtrip 32) by lia. destruct (hex_decode (Hex d)) as [l|].
    - rewrite String.eqb_eq. split; [eauto|]. by intros (l' & [= ->] & ?).
    - split; [done|]. by intros (l' & ? & _). }
  split.
  - intros [[H1 H2] H3]. split_and!; [done|done|by apply Hx].
  - intros (H1 & H2 & H3). split_and!; [done|done|by apply Hx].
Qed.
