(* ===== verification/BrokerCapability.v ===== *)
(** * broker: capability grants

    Models [services/broker/internal/capability/grant.go]: validation of a
    grant, attenuation of a parent grant to a child, and the authorisation of
    one use.  The header theorem is that attenuation only narrows: whatever a
    child grant authorises, its parent does. *)

From Stdlib Require Import Ascii String.
From S2P Require Import Prelude GoString GoPath FactoryTypes Contracts.
Open Scope string_scope.
Open Scope Z_scope.

Inductive capability_error := ErrDenied.

(** [Request] is the same type. *)
Record Grant := MkGrant {
  gr_ID : string; gr_IDNamespace : string; gr_Principal : Identifier; gr_Tenant : Identifier; gr_PolicyDigest : Digest;
  gr_Actions : list string; gr_Resources : list Identifier; gr_AllowedPaths : list string; gr_Limits : gmap string N;
  gr_Fence : Z; gr_RevocationEpoch : Z; gr_ExpiresAt : Z; gr_Nonce : string
}.

Record UseRequest := MkUse {
  us_Action : string; us_Resource : Identifier; us_Fence : Z; us_RevocationEpoch : Z; us_Nonce : string; us_Path : string;
  us_Usage : gmap string N; us_Now : Z
}.

(** ** Helpers *)

Definition contains_value (values : list string) (want : string) : bool := existsb (fun v => String.eqb v want) values.
Definition containsResource (values : list Identifier) (want : Identifier) : bool := existsb (fun v => bool_decide (v = want)) values.

Definition validPolicyDigest (d : Digest) : bool := sha256_digest_ok d.

Definition stringsSubset (children parents : list string) : bool := forallb (contains_value parents) children.
Definition resourcesSubset (children parents : list Identifier) : bool := forallb (containsResource parents) children.

(** [path] is [prefix] or lies below it. *)
Definition at_or_below (prefix p : string) : bool := String.eqb p prefix || has_prefix (prefix ++ "/") p.

Definition constrainedPathsSubset (children parents : list string) : bool :=
  match parents, children with
  | [], _ => (length children =? 0)%nat
  | _, [] => false
  | _, _ => forallb (fun child => existsb (fun parent => at_or_below parent child) parents) children
  end.

Definition constrainedLimitsSubset (children parents : gmap string N) : bool :=
  if (size parents =? 0)%nat then (size children =? 0)%nat
  else if (size children =? 0)%nat then false
  else forallb (fun p => match parents !! fst p with Some parent => negb (parent <? snd p)%N | None => false end) (map_to_list children).

Definition pathUseAllowed (requested : string) (allowed : list string) : bool :=
  match allowed with
  | [] => String.eqb requested ""
  | _ =>
      if String.eqb requested "" then false
      else if has_prefix "/" requested || has_prefix "../" requested || negb (String.eqb (Clean requested) requested) then false
      else existsb (fun prefix => at_or_below prefix requested) allowed
  end.

Definition usageAllowed (usage limits : gmap string N) : bool :=
  if (size limits =? 0)%nat then (size usage =? 0)%nat
  else if negb (size usage =? size limits)%nat then false
  else forallb (fun p => negb (String.eqb (fst p) "") &&
         match limits !! fst p with Some maximum => negb (maximum <? snd p)%N | None => false end) (map_to_list usage).

(** ** Grants *)

Definition valid_action (a : string) : bool := negb (String.eqb a "" || contains "*" a || contains "delegate" a).
Definition valid_resource (r : Identifier) : bool :=
  negb (String.eqb (Namespace r) "" || String.eqb (Value r) "" || contains "*" (Value r)).
Definition valid_prefix (p : string) : bool :=
  negb (String.eqb p "" || String.eqb p "." || has_prefix "/" p || has_prefix "../" p || negb (String.eqb (Clean p) p)).

Definition validate (g : Grant) (now : Z) : bool :=
  negb (String.eqb (gr_ID g) "" || negb (String.eqb (gr_IDNamespace g) "grant") || negb (validPolicyDigest (gr_PolicyDigest g))
        || String.eqb (gr_Nonce g) "" || negb (String.eqb (Namespace (gr_Principal g)) "principal") || String.eqb (Value (gr_Principal g)) ""
        || negb (String.eqb (Namespace (gr_Tenant g)) "tenant") || String.eqb (Value (gr_Tenant g)) ""
        || (length (gr_Actions g) =? 0)%nat || (length (gr_Resources g) =? 0)%nat || (gr_Fence g =? 0) || (gr_ExpiresAt g =? 0)
        || negb (now <? gr_ExpiresAt g))
  && forallb valid_action (gr_Actions g) && forallb valid_resource (gr_Resources g) && forallb valid_prefix (gr_AllowedPaths g)
  && forallb (fun p => negb (String.eqb (fst p) "" || (snd p =? 0)%N)) (map_to_list (gr_Limits g)).

Definition ValidateGrant (g : Grant) (now : Z) : result capability_error unit := if validate g now then Ok tt else Err ErrDenied.

(** The returned grant is a copy, so no later change to the request reaches it. *)
Definition Attenuate (parent child : Grant) (now : Z) : result capability_error Grant :=
  if negb (validate parent now) || negb (validate child now) || String.eqb (gr_ID child) (gr_ID parent)
     || negb (bool_decide (gr_Principal child = gr_Principal parent)) || negb (bool_decide (gr_Tenant child = gr_Tenant parent))
     || negb (gr_Fence child =? gr_Fence parent) || negb (gr_RevocationEpoch child =? gr_RevocationEpoch parent)
     || (gr_ExpiresAt parent <? gr_ExpiresAt child)
     || negb (stringsSubset (gr_Actions child) (gr_Actions parent)) || negb (resourcesSubset (gr_Resources child) (gr_Resources parent))
     || negb (constrainedPathsSubset (gr_AllowedPaths child) (gr_AllowedPaths parent))
     || negb (constrainedLimitsSubset (gr_Limits child) (gr_Limits parent))
  then Err ErrDenied else Ok child.

Definition AuthorizeUse (g : Grant) (identity : MappedIdentityFact) (u : UseRequest) : result capability_error unit :=
  if negb (validate g (us_Now u)) || negb (bool_decide (Principal identity = gr_Principal g))
     || negb (bool_decide (Tenant identity = gr_Tenant g)) || String.eqb (us_Action u) ""
     || negb (contains_value (gr_Actions g) (us_Action u)) || negb (containsResource (gr_Resources g) (us_Resource u))
     || (us_Fence u =? 0) || negb (us_Fence u =? gr_Fence g) || negb (us_RevocationEpoch u =? gr_RevocationEpoch g)
     || String.eqb (us_Nonce u) "" || negb (String.eqb (us_Nonce u) (gr_Nonce g)) || negb (pathUseAllowed (us_Path u) (gr_AllowedPaths g))
     || negb (usageAllowed (us_Usage u) (gr_Limits g))
  then Err ErrDenied else Ok tt.

(** ** Lemmas *)

Lemma contains_value_spec l x : contains_value l x = true <-> x ∈ l.
Proof.
  unfold contains_value. rewrite existsb_exists. split.
  - intros (y & Hy & ->%String.eqb_eq). by apply list_elem_of_In.
  - intros Hx. exists x. split; [by apply list_elem_of_In|apply String.eqb_refl].
Qed.

Lemma containsResource_spec l x : containsResource l x = true <-> x ∈ l.
Proof.
  unfold containsResource. rewrite existsb_exists. split.
  - intros (y & Hy & Hx). bool_prop. subst. by apply list_elem_of_In.
  - intros Hx. exists x. split; [by apply list_elem_of_In|by apply bool_decide_eq_true_2].
Qed.

Lemma subset_contains l1 l2 x : stringsSubset l1 l2 = true -> contains_value l1 x = true -> contains_value l2 x = true.
Proof. unfold stringsSubset. rewrite forallb_forall. intros Hs Hx. apply Hs. by apply list_elem_of_In, contains_value_spec. Qed.

Lemma resources_contains l1 l2 x : resourcesSubset l1 l2 = true -> containsResource l1 x = true -> containsResource l2 x = true.
Proof. unfold resourcesSubset. rewrite forallb_forall. intros Hs Hx. apply Hs. by apply list_elem_of_In, containsResource_spec. Qed.

Lemma at_or_below_trans a b p : at_or_below a b = true -> at_or_below b p = true -> at_or_below a p = true.
Proof.
  unfold at_or_below. rewrite !orb_true_iff, !String.eqb_eq, !has_prefix_app. intros [->|[r ->]]; [done|].
  intros [->|[s ->]]; right; eexists; rewrite !append_assoc; reflexivity.
Qed.

Lemma pathUseAllowed_narrow children parents p :
  constrainedPathsSubset children parents = true -> pathUseAllowed p children = true -> pathUseAllowed p parents = true.
Proof.
  unfold constrainedPathsSubset, pathUseAllowed. destruct parents as [|q parents].
  - by destruct children.
  - destruct children as [|c children]; [done|]. intros Hs. destruct (String.eqb p ""); [done|].
    destruct (_ || _ || _); [done|]. rewrite forallb_forall in Hs. intros (x & Hx & Hp)%existsb_exists.
    specialize (Hs x Hx). apply existsb_exists in Hs as (y & Hy & Hyx). apply existsb_exists. exists y. split; [done|].
    by eapply at_or_below_trans.
Qed.

(** Metered dimensions the child does not have are unused. *)
Definition pad_usage (usage limits : gmap string N) : gmap string N := usage ∪ ((fun _ => 0%N) <$> limits).

Lemma usageAllowed_spec usage limits :
  usageAllowed usage limits = true <->
  dom usage = dom limits /\ map_Forall (fun n used => n <> "" /\ exists m, limits !! n = Some m /\ (used <= m)%N) usage.
Proof.
  unfold usageAllowed. split.
  - destruct (size limits =? 0)%nat eqn:E0.
    + intros Eu. apply Nat.eqb_eq in E0, Eu. apply map_size_empty_inv in E0, Eu. subst. split; [done|apply map_Forall_empty].
    + destruct (size usage =? size limits)%nat eqn:Es; [|done]. cbn. apply Nat.eqb_eq in Es. rewrite forallb_forall. intros Hf.
      assert (map_Forall (fun n used => n <> "" /\ exists m, limits !! n = Some m /\ (used <= m)%N) usage) as Hm.
      { intros n used Hn. specialize (Hf (n, used)). rewrite <- list_elem_of_In in Hf.
        specialize (Hf (proj2 (elem_of_map_to_list usage n used) Hn)). cbn in Hf. bool_prop. split; [by apply String.eqb_neq|].
        destruct (limits !! n) as [m|]; [|done]. bool_prop. exists m. split; [done|by apply N.ltb_ge]. }
      split; [|done]. apply set_subseteq_size_eq; [|by rewrite !size_dom, Es].
      intros n (used & Hn)%elem_of_dom. destruct (Hm n used Hn) as (_ & m & Hl & _). apply elem_of_dom. eauto.
  - intros [Hd Hm]. assert (size usage = size limits) as Es by (by rewrite <- !size_dom, Hd).
    rewrite Es, Nat.eqb_refl. destruct (size limits =? 0)%nat; [done|]. cbn. apply forallb_forall. intros [n used] Hin. cbn.
    apply list_elem_of_In, elem_of_map_to_list in Hin. destruct (Hm n used Hin) as (Hn & m & -> & Hle).
    rewrite (proj2 (String.eqb_neq _ _) Hn). cbn. by apply negb_true_iff, N.ltb_ge.
Qed.

Lemma constrainedLimitsSubset_spec children parents :
  constrainedLimitsSubset children parents = true ->
  map_Forall (fun n c => exists m, parents !! n = Some m /\ (c <= m)%N) children.
Proof.
  unfold constrainedLimitsSubset. destruct (size parents =? 0)%nat.
  - intros E%Nat.eqb_eq%map_size_empty_inv. subst. apply map_Forall_empty.
  - destruct (size children =? 0)%nat; [done|]. rewrite forallb_forall. intros Hf n c Hn. specialize (Hf (n, c)).
    rewrite <- list_elem_of_In in Hf. specialize (Hf (proj2 (elem_of_map_to_list children n c) Hn)). cbn in Hf.
    destruct (parents !! n) as [m|]; [|done]. bool_prop. exists m. split; [done|by apply N.ltb_ge].
Qed.

Lemma usageAllowed_narrow usage children parents :
  map_Forall (fun n _ => n <> "") parents -> constrainedLimitsSubset children parents = true ->
  usageAllowed usage children = true -> usageAllowed (pad_usage usage parents) parents = true.
Proof.
  intros Hp Hc%constrainedLimitsSubset_spec [Hd Hu]%usageAllowed_spec. apply usageAllowed_spec. unfold pad_usage. split.
  - rewrite dom_union_L, dom_fmap_L, Hd. apply set_eq. intros n. rewrite elem_of_union. split; [|auto].
    intros [(c & Hn)%elem_of_dom|?]; [|done]. destruct (Hc n c Hn) as (m & Hm & _). apply elem_of_dom. eauto.
  - intros n used Hn. apply lookup_union_Some_raw in Hn as [Hn|[_ Hn]].
    + destruct (Hu n used Hn) as (Hne & m & Hm & Hle). split; [done|]. destruct (Hc n m Hm) as (q & Hq & Hmq). exists q. split; [done|lia].
    + rewrite lookup_fmap in Hn. destruct (parents !! n) as [m|] eqn:Em; [|done]. injection Hn as <-.
      split; [exact (Hp n m Em)|]. exists m. split; [done|lia].
Qed.

Lemma validate_unexpired g now : validate g now = true -> now < gr_ExpiresAt g.
Proof. unfold validate. intros Hv. bool_prop. done. Qed.

Lemma validate_later g now now' : validate g now = true -> now' < gr_ExpiresAt g -> validate g now' = true.
Proof.
  intros Hv Hlt. pose proof (validate_unexpired _ _ Hv) as Hn. revert Hv. unfold validate.
  by rewrite (proj2 (Z.ltb_lt _ _) Hn), (proj2 (Z.ltb_lt _ _) Hlt).
Qed.

Lemma validate_limits g now : validate g now = true -> map_Forall (fun n _ => n <> "") (gr_Limits g).
Proof.
  unfold validate. intros Hv n m Hn. bool_prop. match goal with H : forallb _ (map_to_list _) = true |- _ => rename H into Hf end.
  rewrite forallb_forall in Hf. specialize (Hf (n, m)). rewrite <- list_elem_of_In in Hf.
  specialize (Hf (proj2 (elem_of_map_to_list (gr_Limits g) n m) Hn)). cbn in Hf. bool_prop. by apply String.eqb_neq.
Qed.

(** The use as the parent's holder would make it: with the parent's nonce, and with no use of the dimensions only the parent meters. *)
Definition as_parent (parent : Grant) (u : UseRequest) : UseRequest :=
  MkUse (us_Action u) (us_Resource u) (us_Fence u) (us_RevocationEpoch u) (gr_Nonce parent) (us_Path u)
    (pad_usage (us_Usage u) (gr_Limits parent)) (us_Now u).

Lemma AuthorizeUse_Ok g identity u :
  AuthorizeUse g identity u = Ok tt <->
  validate g (us_Now u) = true /\ Principal identity = gr_Principal g /\ Tenant identity = gr_Tenant g /\ us_Action u <> "" /\
  contains_value (gr_Actions g) (us_Action u) = true /\ containsResource (gr_Resources g) (us_Resource u) = true /\ us_Fence u <> 0 /\
  us_Fence u = gr_Fence g /\ us_RevocationEpoch u = gr_RevocationEpoch g /\ us_Nonce u <> "" /\ us_Nonce u = gr_Nonce g /\
  pathUseAllowed (us_Path u) (gr_AllowedPaths g) = true /\ usageAllowed (us_Usage u) (gr_Limits g) = true.
Proof.
  unfold AuthorizeUse. split.
  - destruct (_ || _) eqn:E; [done|]. intros _. bool_prop. rewrite <- !String.eqb_neq, <- String.eqb_eq. done.
  - intros (-> & Hp & Ht & Ha & -> & -> & Hf & Hfg & Hep & Hn & Hng & -> & ->).
    rewrite (bool_decide_eq_true_2 _ Hp), (bool_decide_eq_true_2 _ Ht), (proj2 (String.eqb_neq _ _) Ha), (proj2 (Z.eqb_neq _ _) Hf),
      (proj2 (Z.eqb_eq _ _) Hfg), (proj2 (Z.eqb_eq _ _) Hep), (proj2 (String.eqb_neq _ _) Hn), (proj2 (String.eqb_eq _ _) Hng). done.
Qed.

Lemma Attenuate_Ok parent child now g :
  Attenuate parent child now = Ok g ->
  g = child /\ validate parent now = true /\ validate child now = true /\ gr_ID child <> gr_ID parent /\
  gr_Principal child = gr_Principal parent /\ gr_Tenant child = gr_Tenant parent /\ gr_Fence child = gr_Fence parent /\
  gr_RevocationEpoch child = gr_RevocationEpoch parent /\ gr_ExpiresAt child <= gr_ExpiresAt parent /\
  stringsSubset (gr_Actions child) (gr_Actions parent) = true /\ resourcesSubset (gr_Resources child) (gr_Resources parent) = true /\
  constrainedPathsSubset (gr_AllowedPaths child) (gr_AllowedPaths parent) = true /\
  constrainedLimitsSubset (gr_Limits child) (gr_Limits parent) = true.
Proof.
  unfold Attenuate. destruct (_ || _) eqn:E; [done|]. intros [= <-]. bool_prop. rewrite <- String.eqb_neq. done.
Qed.

(** One attenuation narrows. *)
Lemma attenuate_narrow parent request now child identity u :
  Attenuate parent request now = Ok child -> AuthorizeUse child identity u = Ok tt ->
  AuthorizeUse parent identity (as_parent parent u) = Ok tt.
Proof.
  intros Ha Hu. apply Attenuate_Ok in Ha as (-> & Hvp & _ & _ & Hpr & Ht & Hf & He & Hx & Hac & Hre & Hpa & Hli).
  apply AuthorizeUse_Ok in Hu as (Hv & Hip & Hit & Hne & Hact & Hres & Hf0 & Hfe & Hep & _ & _ & Hpath & Huse).
  apply validate_unexpired in Hv. apply AuthorizeUse_Ok. cbn. split_and!; try congruence.
  - eapply validate_later; [exact Hvp|lia].
  - by eapply subset_contains.
  - by eapply resources_contains.
  - unfold validate in Hvp. bool_prop. by apply String.eqb_neq.
  - by eapply pathUseAllowed_narrow.
  - eapply usageAllowed_narrow; [by eapply validate_limits|exact Hli|exact Huse].
Qed.

(** A chain of attenuations from [g] to [h]. *)
Inductive descends : Grant -> Grant -> Prop :=
| desc_refl g : descends g g
| desc_step g request now child h : Attenuate g request now = Ok child -> descends child h -> descends g h.

Lemma pad_usage_id usage limits : dom usage = dom limits -> pad_usage usage limits = usage.
Proof.
  intros Hd. unfold pad_usage. apply map_eq. intros n. rewrite lookup_union, lookup_fmap.
  destruct (usage !! n) as [x|] eqn:Eu; [by destruct (_ <$> _)|].
  assert (limits !! n = None) as ->; [|done]. apply not_elem_of_dom. rewrite <- Hd. by apply not_elem_of_dom.
Qed.

Lemma pad_usage_twice usage limits limits' :
  dom limits ⊆ dom limits' -> pad_usage (pad_usage usage limits) limits' = pad_usage usage limits'.
Proof.
  intros Hd. unfold pad_usage. apply map_eq. intros n. rewrite !lookup_union, !lookup_fmap.
  destruct (usage !! n) as [x|]; [by destruct (limits !! n), (limits' !! n)|].
  destruct (limits !! n) as [m|] eqn:El; [|done]. assert (n ∈ dom limits') as [m' ->]%elem_of_dom; [|done].
  apply Hd, elem_of_dom. eauto.
Qed.

Lemma as_parent_twice parent request now child u :
  Attenuate parent request now = Ok child -> as_parent parent (as_parent child u) = as_parent parent u.
Proof.
  intros (-> & _ & _ & _ & _ & _ & _ & _ & _ & _ & _ & _ & Hl%constrainedLimitsSubset_spec)%Attenuate_Ok. unfold as_parent. cbn.
  f_equal. apply pad_usage_twice. intros n (c & Hn)%elem_of_dom. destruct (Hl n c Hn) as (m & Hm & _). apply elem_of_dom. eauto.
Qed.

(** ** Properties *)

(** C31. Attenuation only narrows: whatever use a grant authorises, for any
    identity and at any time, every grant it descends from by attenuation
    authorises too (presented with that ancestor's nonce, and using none of the
    dimensions only the ancestor meters).  So no chain of attenuations adds an
    action, a resource, a path, a quota or time. *)
Theorem attenuation_narrows g h identity u :
  descends g h -> AuthorizeUse h identity u = Ok tt -> AuthorizeUse g identity (as_parent g u) = Ok tt.
Proof.
  induction 1 as [g|g request now child h Ha _ IH]; intros Hu.
  - pose proof Hu as (_ & _ & _ & _ & _ & _ & _ & _ & _ & _ & Hn & _ & [Hd _]%usageAllowed_spec)%AuthorizeUse_Ok.
    unfold as_parent. rewrite <- Hn, (pad_usage_id _ _ Hd). by destruct u.
  - rewrite <- (as_parent_twice _ _ _ _ u Ha). eapply attenuate_narrow; [exact Ha|by apply IH].
Qed.

Module CapabilityRun.
Definition owner : Grant :=
  MkGrant "g-1" "grant" (MkIdentifier "principal" "alice") (MkIdentifier "tenant" "t")
    (MkDigest "sha256" "0000000000000000000000000000000000000000000000000000000000000000") ["read"; "write"]
    [MkIdentifier "repo" "r"] ["src"; "docs"] {[ "calls" := 10%N; "bytes" := 100%N ]} 3 7 1000 "nonce-1".
Definition reader : Grant :=
  MkGrant "g-2" "grant" (MkIdentifier "principal" "alice") (MkIdentifier "tenant" "t")
    (MkDigest "sha256" "0000000000000000000000000000000000000000000000000000000000000000") ["read"]
    [MkIdentifier "repo" "r"] ["src/parser"] {[ "calls" := 2%N ]} 3 7 500 "nonce-2".
Definition alice : MappedIdentityFact := MkFact (MkIdentifier "principal" "alice") (MkIdentifier "tenant" "t") (MkIdentifier "session" "s").
Definition read_lexer : UseRequest := MkUse "read" (MkIdentifier "repo" "r") 3 7 "nonce-2" "src/parser/lex.go" {[ "calls" := 1%N ]} 400.

Lemma attenuation_narrows_witness : AuthorizeUse owner alice (as_parent owner read_lexer) = Ok tt.
Proof.
  apply (attenuation_narrows owner reader alice read_lexer).
  - apply (desc_step owner reader 100 reader reader); [vm_compute; reflexivity|apply desc_refl].
  - vm_compute. reflexivity.
Defined.

(** A grant with limits refuses a use that reports no usage. *)
Example empty_usage_denied :
  AuthorizeUse reader alice (MkUse "read" (MkIdentifier "repo" "r") 3 7 "nonce-2" "src/parser/lex.go" ∅ 400) = Err ErrDenied.
Proof. vm_compute. reflexivity. Qed.
End CapabilityRun.
