(* ===== verification/BrokerChangeSet.v ===== *)
(** * broker: candidate edit sets

    Models [services/broker/internal/factory/changeset/changeset.go]: the
    validation of an atomic candidate edit set.  The brain validates the same
    contract in [factory/validate.go]; the two path rules are shown to agree. *)

From Stdlib Require Import Ascii String.
From S2P Require Import Prelude GoString GoPath Float64 Runtime FactoryTypes Contracts.
Open Scope string_scope.
Open Scope Z_scope.

Inductive changeset_error := ErrInvalid.

Definition MaxEdits : Z := 64.
Definition MaxPathBytes : Z := 4096.

(** [type Operation string] and [type Language string]. *)
Definition Operation := string.
Definition OpAdd : Operation := "add".
Definition OpModify : Operation := "modify".
Definition OpDelete : Operation := "delete".
Definition OpRename : Operation := "rename".

Definition Language := string.
Definition validLanguage (l : Language) : bool := existsb (String.eqb l) ["go"; "typescript"; "python"; "rust"; "java"].

Record Edit := MkEdit {
  ed_Path : string; ed_OldPath : string; ed_Op : Operation; ed_Lang : Language; ed_BeforeDigest : Digest; ed_AfterDigest : Digest;
  ed_NewContent : string
}.

Definition validDigest (d : Digest) : bool := sha256_digest_ok d.

(** [ValidatePath] returns no error. *)
Definition ValidatePath (v : string) : bool :=
  negb (String.eqb v "" || (MaxPathBytes <? len v) || negb (valid_utf8 v) || has_prefix "/" v || contains "\" v
        || negb (String.eqb (Clean v) v))
  && forallb (fun seg => negb (String.eqb seg "" || String.eqb seg "." || String.eqb seg "..")) (split_char "/" v)
  && forallb (fun p => negb ((p_rune p <? 32) || (p_rune p =? 127))) (pieces v).

Ltac str_prop := repeat match goal with
  | H : String.eqb _ _ = true |- _ => apply String.eqb_eq in H
  | H : String.eqb _ _ = false |- _ => apply String.eqb_neq in H
  end.

Section changeset.
Context `{GoRuntime}.

Definition DigestBytes (content : string) : Digest := MkDigest "sha256" (sha256_hex content).

Definition ValidateEdit (e : Edit) : result changeset_error unit :=
  let hasBefore := negb (String.eqb (Hex (ed_BeforeDigest e)) "") in
  let hasAfter := negb (String.eqb (Hex (ed_AfterDigest e)) "") in
  fail_if (negb (ValidatePath (ed_Path e))) ErrInvalid
  (fail_if (if String.eqb (ed_Op e) OpAdd || String.eqb (ed_Op e) OpModify || String.eqb (ed_Op e) OpDelete
            then negb (String.eqb (ed_OldPath e) "")
            else if String.eqb (ed_Op e) OpRename
            then String.eqb (ed_OldPath e) "" || String.eqb (ed_OldPath e) (ed_Path e) || negb (ValidatePath (ed_OldPath e))
            else true) ErrInvalid
  (fail_if (negb (validLanguage (ed_Lang e))) ErrInvalid
  (fail_if (if String.eqb (ed_Op e) OpAdd then hasBefore || negb hasAfter
            else if String.eqb (ed_Op e) OpDelete then negb hasBefore || hasAfter
            else negb hasBefore || negb hasAfter) ErrInvalid
  (fail_if (hasBefore && negb (validDigest (ed_BeforeDigest e))) ErrInvalid
  (fail_if (hasAfter && negb (validDigest (ed_AfterDigest e))) ErrInvalid
  (if String.eqb (ed_Op e) OpDelete then
     if negb (len (ed_NewContent e) =? 0) then Err ErrInvalid else Ok tt
   else if negb (bool_decide (DigestBytes (ed_NewContent e) = ed_AfterDigest e)) then Err ErrInvalid else Ok tt)))))).

Definition preimage (e : Edit) : string := if String.eqb (ed_Op e) OpRename then ed_OldPath e else ed_Path e.

(** The loop over the edits, with the post-images and pre-images seen. *)
Fixpoint validate_from (post pre : list string) (edits : list Edit) : result changeset_error unit :=
  match edits with
  | [] => Ok tt
  | e :: rest =>
      do _ <- ValidateEdit e ;
      if existsb (String.eqb (ed_Path e)) post then Err ErrInvalid
      else if String.eqb (ed_Op e) OpAdd then validate_from (ed_Path e :: post) pre rest
      else if existsb (String.eqb (preimage e)) pre then Err ErrInvalid
      else validate_from (ed_Path e :: post) (preimage e :: pre) rest
  end.

Definition Validate (edits : list Edit) : result changeset_error unit :=
  if (length edits =? 0)%nat || (MaxEdits <? Z.of_nat (length edits)) then Err ErrInvalid
  else validate_from [] [] edits.

(** ** Lemmas *)

(** What one accepted edit looks like. *)
Inductive edit_shape (e : Edit) : Prop :=
| shape_add :
    ed_Op e = OpAdd -> ed_OldPath e = "" -> Hex (ed_BeforeDigest e) = "" -> ed_AfterDigest e = DigestBytes (ed_NewContent e) -> edit_shape e
| shape_modify :
    ed_Op e = OpModify -> ed_OldPath e = "" -> validDigest (ed_BeforeDigest e) = true ->
    ed_AfterDigest e = DigestBytes (ed_NewContent e) -> edit_shape e
| shape_delete :
    ed_Op e = OpDelete -> ed_OldPath e = "" -> validDigest (ed_BeforeDigest e) = true -> Hex (ed_AfterDigest e) = "" ->
    ed_NewContent e = "" -> edit_shape e
| shape_rename :
    ed_Op e = OpRename -> ed_OldPath e <> "" -> ed_OldPath e <> ed_Path e -> ValidatePath (ed_OldPath e) = true ->
    validDigest (ed_BeforeDigest e) = true -> ed_AfterDigest e = DigestBytes (ed_NewContent e) -> edit_shape e.

Lemma validDigest_hex d : validDigest d = true -> Hex d <> "".
Proof. intros (_ & Hl & _)%sha256_digest_ok_spec E. rewrite E in Hl. done. Qed.

Lemma len_zero s : len s = 0 <-> s = "".
Proof. unfold len. destruct s; cbn; split; intros E; try done; lia. Qed.

Ltac op_eval H := cbn [String.eqb Ascii.eqb Bool.eqb OpAdd OpModify OpDelete OpRename orb andb negb] in H.

Lemma ValidateEdit_shape e :
  ValidateEdit e = Ok tt -> ValidatePath (ed_Path e) = true /\ validLanguage (ed_Lang e) = true /\ edit_shape e.
Proof.
  unfold ValidateEdit, fail_if. intros Hv.
  destruct (ValidatePath (ed_Path e)) eqn:Hp; cbn [negb] in Hv; [|done].
  destruct (if _ || _ || _ then _ else _) eqn:Ho in Hv; [done|].
  destruct (validLanguage (ed_Lang e)); cbn [negb] in Hv; [|done].
  destruct (if String.eqb (ed_Op e) OpAdd then _ else _) eqn:Hd in Hv; [done|].
  destruct (negb (String.eqb (Hex (ed_BeforeDigest e)) "") && _) eqn:Hb in Hv; [done|].
  destruct (negb (String.eqb (Hex (ed_AfterDigest e)) "") && _) eqn:Ha in Hv; [done|]. split_and!; [done|done|].
  destruct (String.eqb_spec (ed_Op e) OpAdd) as [E|E1].
  { rewrite E in *. op_eval Hv. op_eval Ho. res_inv. bool_prop. str_prop. by apply shape_add. }
  destruct (String.eqb_spec (ed_Op e) OpDelete) as [E|E2].
  { rewrite E in *. op_eval Hv. op_eval Ho. op_eval Hd. bool_prop. rewrite H0 in Hb. cbn in Hb. res_inv. bool_prop. str_prop.
    apply shape_delete; try done. by apply len_zero. }
  bool_prop. rewrite H0 in Hb. rewrite H1 in Ha. cbn in Hb, Ha. bool_prop.
  destruct (String.eqb_spec (ed_Op e) OpModify) as [E|E3].
  { rewrite E in *. op_eval Ho. op_eval Hv. res_inv. bool_prop. str_prop. by apply shape_modify. }
  destruct (String.eqb_spec (ed_Op e) OpRename) as [E|E4]; [|done].
  res_inv. op_eval Ho. bool_prop. str_prop. by apply shape_rename.
Qed.

(** An edit is well-formed. *)
Definition good_edit (e : Edit) : Prop :=
  ValidatePath (ed_Path e) = true /\ validLanguage (ed_Lang e) = true /\ edit_shape e.

Lemma hex_set d : validDigest d = true -> String.eqb (Hex d) "" = false.
Proof. intros Hd. apply String.eqb_neq. by apply validDigest_hex. Qed.

Lemma ValidateEdit_iff e :
  (forall s, validDigest (DigestBytes s) = true) -> ValidateEdit e = Ok tt <-> good_edit e.
Proof.
  intros Hsha. split; [apply ValidateEdit_shape|]. intros (Hp & Hl & Hs). unfold ValidateEdit, fail_if. rewrite Hp, Hl.
  destruct Hs as [Eo Eold Hb Ha|Eo Eold Hb Ha|Eo Eold Hb Ha Hc|Eo Eold Hne Hpo Hb Ha]; rewrite Eo.
  - rewrite Eold, Hb, Ha. rewrite (hex_set _ (Hsha _)), (Hsha (ed_NewContent e)).
    cbn [String.eqb Ascii.eqb Bool.eqb OpAdd OpModify OpDelete OpRename orb andb negb]. by rewrite bool_decide_eq_true_2.
  - rewrite Eold, Ha. rewrite (hex_set _ (Hsha _)), (Hsha (ed_NewContent e)), (hex_set _ Hb), Hb.
    cbn [String.eqb Ascii.eqb Bool.eqb OpAdd OpModify OpDelete OpRename orb andb negb]. by rewrite bool_decide_eq_true_2.
  - rewrite Eold, Ha, Hc, (hex_set _ Hb), Hb. done.
  - rewrite Ha, (hex_set _ (Hsha _)), (Hsha (ed_NewContent e)), (hex_set _ Hb), Hb.
    rewrite (proj2 (String.eqb_neq _ _) Eold), (proj2 (String.eqb_neq _ _) Hne), Hpo.
    cbn [String.eqb Ascii.eqb Bool.eqb OpAdd OpModify OpDelete OpRename orb andb negb]. by rewrite bool_decide_eq_true_2.
Qed.

(** The edits that consume an existing file. *)
Definition consumers (edits : list Edit) : list Edit := List.filter (fun e => negb (String.eqb (ed_Op e) OpAdd)) edits.

Lemma existsb_seen l x : existsb (String.eqb x) l = true <-> x ∈ l.
Proof.
  rewrite existsb_exists. split.
  - intros (y & Hy & ->%String.eqb_eq). by apply list_elem_of_In.
  - intros Hx. exists x. split; [by apply list_elem_of_In|apply String.eqb_refl].
Qed.

Lemma validate_from_iff post pre edits :
  (forall s, validDigest (DigestBytes s) = true) -> NoDup post -> NoDup pre ->
  validate_from post pre edits = Ok tt <->
  Forall good_edit edits /\ NoDup ((ed_Path <$> edits) ++ post) /\ NoDup ((preimage <$> consumers edits) ++ pre).
Proof.
  intros Hsha. revert post pre. induction edits as [|e edits IH]; intros post pre Hpost Hpre; [by cbn|].
  cbn [validate_from]. rewrite fmap_cons, Forall_cons.
  assert (Hperm : forall (x : string) l l', NoDup (l ++ x :: l') <-> NoDup (x :: l ++ l')).
  { intros x l l'. by rewrite Permutation_middle. }
  destruct (ValidateEdit e) as [[]|] eqn:Ev; cbn [rbind].
  2: { split; [done|]. intros ((Hg & _) & _). apply (ValidateEdit_iff _ Hsha) in Hg. congruence. }
  apply (ValidateEdit_iff _ Hsha) in Ev. destruct (existsb (String.eqb (ed_Path e)) post) eqn:Ep.
  { apply existsb_seen in Ep. split; [done|]. intros (_ & Hn & _). cbn in Hn. apply NoDup_cons in Hn as [Hn _]. rewrite elem_of_app in Hn. tauto. }
  assert (ed_Path e ∉ post) as Hnp by (intros Hin%existsb_seen; congruence).
  unfold consumers. cbn [List.filter]. destruct (String.eqb (ed_Op e) OpAdd); cbn [negb].
  - rewrite IH by (try done; by apply NoDup_cons). rewrite Hperm. unfold consumers. cbn [app]. tauto.
  - destruct (existsb (String.eqb (preimage e)) pre) eqn:Eq.
    { apply existsb_seen in Eq. split; [done|]. intros (_ & _ & Hn). rewrite fmap_cons in Hn. cbn in Hn. apply NoDup_cons in Hn as [Hn _].
      rewrite elem_of_app in Hn. tauto. }
    assert (preimage e ∉ pre) as Hnq by (intros Hin%existsb_seen; congruence).
    rewrite IH by (by apply NoDup_cons). rewrite !Hperm, fmap_cons. unfold consumers. cbn [app]. tauto.
Qed.

Lemma validate_from_Ok post pre edits :
  validate_from post pre edits = Ok tt -> Forall good_edit edits /\ NoDup (ed_Path <$> edits) /\ forall p, p ∈ post -> p ∉ ed_Path <$> edits.
Proof.
  revert post pre. induction edits as [|e edits IH]; intros post pre; cbn [validate_from]; [intros _; split_and!; [constructor..|intros p _; apply not_elem_of_nil]|].
  destruct (ValidateEdit e) as [[]|] eqn:Ev; cbn [rbind]; [|done]. destruct (existsb (String.eqb (ed_Path e)) post) eqn:Ep; [done|].
  assert (ed_Path e ∉ post) as Hnp by (intros Hin%existsb_seen; congruence). intros Hrest.
  assert (exists pre', validate_from (ed_Path e :: post) pre' edits = Ok tt) as (pre' & Hr) by (repeat case_match; by eauto).
  apply IH in Hr as (Hg & Hnd & Hfresh). rewrite fmap_cons. split_and!.
  - constructor; [by apply ValidateEdit_shape|done].
  - apply NoDup_cons. split; [apply Hfresh; by left|done].
  - intros p Hp. rewrite not_elem_of_cons. split; [congruence|apply Hfresh; by right].
Qed.

Lemma Validate_Ok edits : Validate edits = Ok tt -> Forall good_edit edits /\ NoDup (ed_Path <$> edits).
Proof. unfold Validate. destruct (_ || _); [done|]. intros (Hg & Hn & _)%validate_from_Ok. done. Qed.

Lemma good_edit_digest e : good_edit e -> ed_Op e <> OpDelete -> DigestBytes (ed_NewContent e) = ed_AfterDigest e.
Proof. by intros (_ & _ & [? ? ? ->|? ? ? ->| |? ? ? ? ? ->]). Qed.

Lemma Validate_Err edits e : Validate edits = Err e -> e = ErrInvalid.
Proof. by destruct e. Qed.

(** ** Properties *)

(** The broker accepts an edit set exactly when it has one to 64 edits, each
    well-formed (normalised paths, a known language, the digests its operation
    calls for, the after digest that of the carried bytes), no two edits
    produce the same path and no two consume the same file.  (The hypothesis is
    SHA-256's output format.) *)
Theorem edit_set_accepted_iff edits :
  (forall s, validDigest (DigestBytes s) = true) ->
  Validate edits = Ok tt <->
  1 <= Z.of_nat (length edits) <= MaxEdits /\ Forall good_edit edits /\ NoDup (ed_Path <$> edits) /\ NoDup (preimage <$> consumers edits).
Proof.
  intros Hsha. unfold Validate. destruct (_ || _) eqn:E.
  - split; [done|]. intros (Hn & _). apply orb_true_iff in E as [E%Nat.eqb_eq|E%Z.ltb_lt]; lia.
  - apply orb_false_iff in E as [E1%Nat.eqb_neq E2%Z.ltb_ge]. rewrite (validate_from_iff [] [] edits Hsha) by apply NoDup_nil_2.
    rewrite !app_nil_r. split; [|tauto]. intros (H1 & H2 & H3). split_and!; try done; lia.
Qed.
End changeset.

(** ** The path rules of the two services *)

Lemma contains_one c s : contains (String c "") s = contains_char c s.
Proof.
  induction s as [|a s IH]; [done|]. cbn [contains contains_char]. rewrite IH. f_equal. unfold has_prefix. cbn.
  destruct (ascii_dec c a) as [->|Hne]; [by rewrite Ascii.eqb_refl; destruct s|]. symmetry. apply Ascii.eqb_neq. congruence.
Qed.

Lemma byte_val_inj a b : byte_val a = byte_val b -> a = b.
Proof. intros E. rewrite <- (byte_of_byte_val a), <- (byte_of_byte_val b). by rewrite E. Qed.

Lemma high_byte_not c b : byte_val c < 128 -> 128 <= byte_val b -> Ascii.eqb b c = false.
Proof. intros Hc Hb. apply Ascii.eqb_neq. intros ->. lia. Qed.

Lemma cont_high b : cont b = true -> 128 <= byte_val b.
Proof. unfold cont, in_range. intros Hb. bool_prop. lia. Qed.

Lemma second3_high a b : second3 a b = true -> 128 <= byte_val b.
Proof. unfold second3, cont, in_range. intros Hb. repeat case_match; bool_prop; lia. Qed.

Lemma second4_high a b : second4 a b = true -> 128 <= byte_val b.
Proof. unfold second4, cont, in_range. intros Hb. repeat case_match; bool_prop; lia. Qed.

Lemma land_mod x n m : 0 <= n -> m = Z.ones n -> Z.land x m = x mod 2 ^ n.
Proof. intros Hn ->. by apply Z.land_ones. Qed.

(** A piece of more than one byte holds high bytes only and decodes to a rune
    past ASCII. *)
Lemma next_piece_ascii c s :
  byte_val c < 128 -> s <> "" -> contains_char c (p_raw (next_piece s)) = (p_rune (next_piece s) =? byte_val c).
Proof.
  intros Hc Hs. unfold next_piece, rune_value. destruct s as [|a s]; [done|]. cbn [utf8_size].
  destruct (byte_val a <? 128) eqn:Ea.
  { cbn [str_take contains_char p_raw p_rune]. rewrite orb_false_r. destruct (Z.eqb_spec (byte_val a) (byte_val c)) as [->%byte_val_inj|Hne].
    - by rewrite Ascii.eqb_refl.
    - apply Ascii.eqb_neq. congruence. }
  apply Z.ltb_ge in Ea. pose proof (byte_val_range c) as Hcr. pose proof (high_byte_not c a Hc Ea) as Ha.
  assert (contains_char c (str_take 1 (String a s)) = (65533 =? byte_val c)) as Hbad.
  { cbn [str_take contains_char]. rewrite Ha. symmetry. apply Z.eqb_neq. lia. }
  destruct (in_range 194 223 a) eqn:R2.
  { destruct s as [|b s]; [done|]. destruct (cont b) eqn:Eb; [|done]. cbn [str_take contains_char p_raw p_rune]. rewrite Ha, (high_byte_not c b Hc (cont_high _ Eb)).
    symmetry. apply Z.eqb_neq. rewrite (land_mod _ 5 31), (land_mod _ 6 63) by done. unfold in_range in R2. bool_prop.
    assert (2 <= byte_val a mod 2 ^ 5) by (change (2 ^ 5) with 32; Z.div_mod_to_equations; lia).
    assert (0 <= byte_val b mod 2 ^ 6) by (apply Z.mod_pos_bound; lia). lia. }
  destruct (in_range 224 239 a) eqn:R3.
  { destruct s as [|b [|d s]]; [done..|]. destruct (second3 a b && cont d) eqn:Eb; [|done]. apply andb_true_iff in Eb as [Eb Ed].
    cbn [str_take contains_char p_raw p_rune]. rewrite Ha, (high_byte_not c b Hc (second3_high _ _ Eb)), (high_byte_not c d Hc (cont_high _ Ed)).
    symmetry. apply Z.eqb_neq. rewrite (land_mod _ 4 15), !(land_mod _ 6 63) by done.
    assert (0 <= byte_val d mod 2 ^ 6) by (apply Z.mod_pos_bound; lia).
    assert (1 <= byte_val a mod 2 ^ 4 \/ 32 <= byte_val b mod 2 ^ 6).
    { unfold second3, in_range in *. bool_prop. change (2 ^ 4) with 16. change (2 ^ 6) with 64.
      destruct (byte_val a =? 224) eqn:E; bool_prop; [right|left]; Z.div_mod_to_equations; lia. }
    assert (0 <= byte_val b mod 2 ^ 6 /\ 0 <= byte_val a mod 2 ^ 4) by (split; apply Z.mod_pos_bound; lia). lia. }
  destruct (in_range 240 244 a) eqn:R4; [|done].
  destruct s as [|b [|d [|e s]]]; [done..|]. destruct (second4 a b && cont d && cont e) eqn:Eb; [|done].
  apply andb_true_iff in Eb as [[Eb Ed]%andb_true_iff Ee].
  cbn [str_take contains_char p_raw p_rune]. rewrite Ha, (high_byte_not c b Hc (second4_high _ _ Eb)), (high_byte_not c d Hc (cont_high _ Ed)), (high_byte_not c e Hc (cont_high _ Ee)).
  symmetry. apply Z.eqb_neq. rewrite (land_mod _ 3 7), !(land_mod _ 6 63) by done.
  assert (0 <= byte_val d mod 2 ^ 6 /\ 0 <= byte_val e mod 2 ^ 6) by (split; apply Z.mod_pos_bound; lia).
  assert (1 <= byte_val a mod 2 ^ 3 \/ 16 <= byte_val b mod 2 ^ 6).
  { unfold second4, in_range in *. bool_prop. change (2 ^ 3) with 8. change (2 ^ 6) with 64.
    destruct (byte_val a =? 240) eqn:E; bool_prop; [right|left]; Z.div_mod_to_equations; lia. }
  assert (0 <= byte_val b mod 2 ^ 6 /\ 0 <= byte_val a mod 2 ^ 3) by (split; apply Z.mod_pos_bound; lia). lia.
Qed.

(** An ASCII byte occurs in a string exactly when [range] yields it as a rune. *)
Lemma contains_char_pieces c s :
  byte_val c < 128 -> contains_char c s = existsb (fun p => p_rune p =? byte_val c) (pieces s).
Proof.
  intros Hc. induction s as [|s Hs IH] using pieces_ind; [done|].
  rewrite <- (str_take_drop (step_size s) s) at 1. rewrite contains_char_app, IH, <- next_piece_raw by done.
  by rewrite (pieces_nonempty s Hs), next_piece_ascii.
Qed.

Lemma forallb_three {A} (f g h : A -> bool) l :
  forallb (fun x => negb (f x || g x || h x)) l = negb (existsb f l) && forallb (fun x => negb (g x || h x)) l.
Proof. induction l as [|x l IH]; [done|]. cbn. rewrite IH. destruct (f x), (g x), (h x), (existsb f l); done. Qed.

Lemma good_segs_plain v :
  forallb (fun seg => negb (String.eqb seg "" || String.eqb seg "." || String.eqb seg "..")) (split_char "/" v) = true ->
  Forall plain_seg (split_char "/" v).
Proof.
  intros Hs. pose proof (split_char_no_sep "/" v) as Hn. apply Forall_forall. intros x Hx.
  rewrite Forall_forall in Hn. specialize (Hn x Hx). rewrite forallb_forall in Hs. specialize (Hs x).
  rewrite <- list_elem_of_In in Hs. specialize (Hs Hx). apply negb_true_iff in Hs. bool_prop. str_prop. by split_and!.
Qed.

Lemma good_segs_no_suffix v : Forall plain_seg (split_char "/" v) -> has_suffix "/" v = false.
Proof.
  intros Hp. apply not_true_is_false. unfold has_suffix. intros (_ & Hd%String.eqb_eq)%andb_true_iff.
  rewrite <- (str_take_drop (String.length v - String.length "/") v), Hd, split_char_concat in Hp.
  apply Forall_app in Hp as [_ Hp]. apply Forall_cons in Hp as [(Hne & _) _]. done.
Qed.

(** C37. The broker's and the brain's path rules agree: the broker accepts a
    path exactly when the brain does and it is valid UTF-8, although one scans
    bytes and cleans the path and the other scans runes and segments. *)
Theorem path_rules_agree v : ValidatePath v = validRepositoryPath v && valid_utf8 v.
Proof.
  unfold ValidatePath, validRepositoryPath. rewrite contains_one, (contains_char_pieces "\") by done.
  change (byte_val "\") with 92.
  rewrite (forallb_three (fun p => p_rune p =? 92)).
  destruct (forallb _ (split_char "/" v)) eqn:Es; [|by rewrite !andb_false_r].
  apply good_segs_plain in Es. rewrite (good_segs_no_suffix v Es).
  assert (Clean v = v) as ->.
  { rewrite <- (join_split "/" v). apply Clean_relative; [apply split_char_nonempty|done]. }
  rewrite String.eqb_refl. unfold MaxPathBytes.
  destruct (String.eqb v ""), (4096 <? len v), (valid_utf8 v), (has_prefix "/" v), (existsb _ _), (forallb _ (pieces v)); done.
Qed.
