(* ===== verification/BrokerEffects.v ===== *)
(** * broker: current-policy effects

    Models [services/broker/internal/factory/effects/effects.go]: the leaf
    grant, the authorisation of one effect (identity, grant, base, action, path
    scope, lease, fence, policy and revocation epoch), the candidate-mutation
    authoriser, and the idempotent execution of an effect.  [Execute] takes the
    broker's lock twice, around the claim of a key and around the recording of
    the receipt, and runs the mutation between the two without it; [estep]
    interleaves any number of calls at those points.

    The policy check, the fence registry and the clock are ports whose answers
    may change between calls: each call comes with the [World] it saw. *)

From Stdlib Require Import Ascii String.
From S2P Require Import Prelude GoString GoPath Float64 Runtime FactoryTypes Contracts BrokerChangeSet.
Open Scope string_scope.
Open Scope Z_scope.

Definition ActionFileRead : string := "file.read".
Definition ActionFileWrite : string := "file.write".
Definition ActionDispatch : string := "factory.dispatch".
Definition ActionTaskCreate : string := "factory.task.create".

Inductive Reason :=
| ReasonIdentityMismatch | ReasonGrantMalformed | ReasonGrantExpired | ReasonBaseMismatch | ReasonEscapePathScope
| ReasonEscapeForbiddenPath | ReasonEscapePathShape | ReasonEscapeDispatch | ReasonEscapeEffectKind | ReasonStaleLease
| ReasonStaleFence | ReasonStaleEpoch | ReasonPolicyDenied | ReasonIdempotencyConflict | ReasonInvalidEdit | ReasonAllowed.

Definition reason_text (r : Reason) : string :=
  match r with
  | ReasonIdentityMismatch => "identity_mismatch" | ReasonGrantMalformed => "grant_malformed" | ReasonGrantExpired => "grant_expired"
  | ReasonBaseMismatch => "base_mismatch" | ReasonEscapePathScope => "escape_path_scope"
  | ReasonEscapeForbiddenPath => "escape_forbidden_path" | ReasonEscapePathShape => "escape_path_shape"
  | ReasonEscapeDispatch => "escape_dispatch" | ReasonEscapeEffectKind => "escape_effect_kind" | ReasonStaleLease => "stale_lease"
  | ReasonStaleFence => "stale_fence" | ReasonStaleEpoch => "stale_epoch" | ReasonPolicyDenied => "policy_denied"
  | ReasonIdempotencyConflict => "idempotency_conflict" | ReasonInvalidEdit => "invalid_edit" | ReasonAllowed => "allowed"
  end.

(** The error of a call: a [Denial], or the error its mutation returned. *)
Inductive effect_error := Denied (r : Reason) | MutateFailed (text : string).

Definition ReasonCode_of (e : effect_error) : string := match e with Denied r => reason_text r | MutateFailed _ => "denied" end.
Definition IsEscape (e : effect_error) : bool := has_prefix "escape_" (ReasonCode_of e).

Record Lease := MkLease { le_LeaseID : Identifier; le_Holder : Identifier; le_Fence : Z; le_ExpiresAt : Z }.

Record Grant := MkLeafGrant {
  lg_GrantID : Identifier; lg_Initiator : Identifier; lg_Tenant : Identifier; lg_TaskID : Identifier; lg_RunID : Identifier; lg_Lease : Lease;
  lg_Actions : list string; lg_Resources : list Identifier; lg_RepositoryGitOID : string; lg_AllowedPaths : list string; lg_Nonce : string;
  lg_RevocationEpoch : Z; lg_ExpiresAt : Z; lg_PolicyDigest : Digest; lg_CommandFence : Z
}.

Record Scope := MkScope { sc_OwnedPaths : list string; sc_ForbiddenPaths : list string; sc_BaseGitOID : string }.
Record Leaf := MkLeaf { lf_Identity : MappedIdentityFact; lf_Grant : Grant; lf_Scope : Scope }.
Record Request := MkEffect { rq_Action : string; rq_Path : string; rq_Resource : Identifier; rq_IdempotencyKey : string; rq_Now : Z }.

(** The answers of the broker's ports during one call. *)
Record World := MkWorld {
  w_now : Z;
  w_CurrentFence : Identifier -> option (Z * Z);
  w_Check : MappedIdentityFact -> PolicyRequest -> option PolicyDecision
}.

(** ** Helpers *)

Definition rune_in (lo hi : Z) (r : Z) : bool := (lo <=? r) && (r <=? hi).

Definition validAction (action : string) : bool :=
  negb (String.eqb action "" || (128 <? len action) || contains "*" action)
  && forallb (fun p => let r := p_rune p in
       rune_in 97 122 r || rune_in 48 57 r || (r =? 46) || (r =? 95) || (r =? 58) || (r =? 45)) (pieces action)
  && match action with String c _ => in_range 97 122 c | EmptyString => false end.

Definition validGitOID (value : string) : bool :=
  ((len value =? 40) || (len value =? 64))
  && forallb (fun p => rune_in 48 57 (p_rune p) || rune_in 97 102 (p_rune p)) (pieces value).

Definition containsAction (actions : list string) (want : string) : bool := existsb (fun a => String.eqb a want) actions.
Definition containsResource (resources : list Identifier) (want : Identifier) : bool := existsb (fun r => bool_decide (r = want)) resources.

Definition withinAny (value : string) (prefixes : list string) : bool :=
  existsb (fun prefix => String.eqb value prefix || has_prefix (prefix ++ "/") value) prefixes.

Fixpoint has_duplicate (seen l : list string) : bool :=
  match l with
  | [] => false
  | a :: l' => existsb (String.eqb a) seen || has_duplicate (a :: seen) l'
  end.

Definition ident_ok (ns : string) (i : Identifier) : bool := String.eqb (Namespace i) ns && negb (String.eqb (Value i) "").

(** ** Authorisation *)

Definition ValidateGrant (g : Grant) (now : Z) : result effect_error unit :=
  fail_if (negb (ident_ok "grant" (lg_GrantID g)) || negb (ident_ok "principal" (lg_Initiator g)) || negb (ident_ok "tenant" (lg_Tenant g))
           || String.eqb (lg_Nonce g) "" || (lg_CommandFence g =? 0) || (lg_ExpiresAt g =? 0) || negb (now <? lg_ExpiresAt g)
           || negb (String.eqb (Algorithm (lg_PolicyDigest g)) "sha256") || negb (len (Hex (lg_PolicyDigest g)) =? 64)
           || (length (lg_Actions g) =? 0)%nat || (length (lg_Resources g) =? 0)%nat) (Denied ReasonGrantMalformed)
  (fail_if (negb (ident_ok "lease" (le_LeaseID (lg_Lease g))) || negb (bool_decide (le_Holder (lg_Lease g) = lg_Initiator g))
            || (le_Fence (lg_Lease g) =? 0) || (le_ExpiresAt (lg_Lease g) =? 0) || negb (now <? le_ExpiresAt (lg_Lease g)))
           (Denied ReasonGrantMalformed)
  (fail_if (negb (validGitOID (lg_RepositoryGitOID g))) (Denied ReasonGrantMalformed)
  (fail_if (existsb (fun a => negb (validAction a) || String.eqb a ActionDispatch || String.eqb a ActionTaskCreate) (lg_Actions g))
           (Denied ReasonGrantMalformed)
  (fail_if (has_duplicate [] (lg_Actions g)) (Denied ReasonGrantMalformed)
  (fail_if (existsb (fun r => String.eqb (Namespace r) "" || String.eqb (Value r) "" || contains "*" (Value r)) (lg_Resources g))
           (Denied ReasonGrantMalformed)
  (fail_if (existsb (fun p => negb (ValidatePath p)) (lg_AllowedPaths g)) (Denied ReasonGrantMalformed)
  (Ok tt))))))).

Definition authorizePath (leaf : Leaf) (requestPath : string) : result effect_error unit :=
  fail_if (negb (ValidatePath requestPath) || has_prefix "/" requestPath) (Denied ReasonEscapePathShape)
  (fail_if (withinAny requestPath (sc_ForbiddenPaths (lf_Scope leaf))) (Denied ReasonEscapeForbiddenPath)
  (fail_if (negb (withinAny requestPath (sc_OwnedPaths (lf_Scope leaf))) || negb (withinAny requestPath (lg_AllowedPaths (lf_Grant leaf))))
           (Denied ReasonEscapePathScope)
  (Ok tt))).

(** The resource the request names, or the grant's first one ([ValidateGrant]
    has rejected a grant without resources). *)
Definition effect_resource (leaf : Leaf) (request : Request) : Identifier :=
  if String.eqb (Namespace (rq_Resource request)) ""
  then match lg_Resources (lf_Grant leaf) with r :: _ => r | [] => rq_Resource request end
  else rq_Resource request.

(** The lease and fence, the resource, the policy and the epoch. *)
Definition authorize_current (w : World) (leaf : Leaf) (request : Request) : result effect_error unit :=
  let g := lf_Grant leaf in
  match w_CurrentFence w (le_LeaseID (lg_Lease g)) with
  | None => Err (Denied ReasonStaleLease)
  | Some (fence, leaseExpiry) =>
      fail_if (negb (w_now w <? leaseExpiry)) (Denied ReasonStaleLease)
      (fail_if (negb (fence =? le_Fence (lg_Lease g))) (Denied ReasonStaleFence)
      (fail_if (negb (containsResource (lg_Resources g) (effect_resource leaf request))) (Denied ReasonPolicyDenied)
      match w_Check w (lf_Identity leaf) (MkPolicyRequest (rq_Action request) (effect_resource leaf request) (lg_RevocationEpoch g)) with
      | None => Err (Denied ReasonPolicyDenied)
      | Some decision =>
          fail_if (negb (pd_Allowed decision)) (Denied ReasonPolicyDenied)
          (fail_if (negb (pd_RevocationEpoch decision =? lg_RevocationEpoch g)) (Denied ReasonStaleEpoch) (Ok tt))
      end))
  end.

Definition authorizeLeaf (w : World) (leaf : Leaf) (request : Request) : result effect_error unit :=
  let g := lf_Grant leaf in
  fail_if (w_now w =? 0) (Denied ReasonGrantMalformed)
  (fail_if (negb (bool_decide (Principal (lf_Identity leaf) = lg_Initiator g)) || negb (bool_decide (Tenant (lf_Identity leaf) = lg_Tenant g)))
           (Denied ReasonIdentityMismatch)
  (do _ <- ValidateGrant g (w_now w) ;
   fail_if (negb (String.eqb (sc_BaseGitOID (lf_Scope leaf)) (lg_RepositoryGitOID g))) (Denied ReasonBaseMismatch)
   (fail_if (String.eqb (rq_Action request) ActionDispatch || String.eqb (rq_Action request) ActionTaskCreate) (Denied ReasonEscapeDispatch)
   (fail_if (negb (String.eqb (rq_Action request) ActionFileRead) && negb (String.eqb (rq_Action request) ActionFileWrite))
            (Denied ReasonEscapeEffectKind)
   (fail_if (negb (containsAction (lg_Actions g) (rq_Action request))) (Denied ReasonPolicyDenied)
   (do _ <- authorizePath leaf (rq_Path request) ;
    authorize_current w leaf request)))))).

Definition Authorize := authorizeLeaf.

Definition file_write (path : string) : Request := MkEffect ActionFileWrite path (MkIdentifier "" "") "" 0.

(** Each of its two checks asks the ports anew. *)
Definition AuthorizeMutation (w1 w2 : World) (leaf : Leaf) (edit : Edit) : result effect_error unit :=
  do _ <- authorizeLeaf w1 leaf (file_write (ed_Path edit)) ;
  if String.eqb (ed_Op edit) OpRename then authorizeLeaf w2 leaf (file_write (ed_OldPath edit)) else Ok tt.

(** ** Execution *)

Record executedEffect := MkExecuted { ex_requestDigest : Digest; ex_receipt : Receipt }.

Definition zero_receipt : Receipt := MkReceipt (MkIdentifier "" "") "" "" 0.

(** The broker's state: the effects claimed or recorded, by namespaced key. *)
Abbreviation Broker := (gmap string executedEffect).
Definition NewBroker : Broker := ∅.

Definition nul : string := String Ascii.zero "".
Definition effect_namespace (leaf : Leaf) (request : Request) : string :=
  join nul [Value (lg_Tenant (lf_Grant leaf)); Value (lg_GrantID (lf_Grant leaf)); rq_IdempotencyKey request].

Section execute.
Context `{GoRuntime}.

Definition effect_digest (leaf : Leaf) (request : Request) : Digest :=
  DigestBytes (join nul ["ouroboros.stage05.effect-request.v1"; Value (lg_GrantID (lf_Grant leaf)); rq_Action request; rq_Path request;
                         Namespace (rq_Resource request); Value (rq_Resource request); rq_IdempotencyKey request]).

Definition rejected (request : Request) (reason : string) : Receipt :=
  MkReceipt (MkIdentifier "effect" (rq_IdempotencyKey request)) "rejected" reason 0.
Definition completed (request : Request) : Receipt :=
  MkReceipt (MkIdentifier "effect" (rq_IdempotencyKey request)) "completed" (reason_text ReasonAllowed) 0.

(** [Execute] up to its mutation: [inl] when the key was claimed and the
    mutation is to run, [inr] with what the call returns otherwise. *)
Definition execute_claim (w : World) (leaf : Leaf) (request : Request) (b : Broker) : Broker * (unit + Receipt * option effect_error) :=
  if String.eqb (rq_IdempotencyKey request) "" then
    (b, inr (rejected request (reason_text ReasonPolicyDenied), Some (Denied ReasonPolicyDenied)))
  else match authorizeLeaf w leaf request with
  | Err e => (b, inr (rejected request (ReasonCode_of e), Some e))
  | Ok _ =>
      let requestDigest := effect_digest leaf request in
      let namespace := effect_namespace leaf request in
      match b !! namespace with
      | Some recorded =>
          if negb (bool_decide (ex_requestDigest recorded = requestDigest)) || String.eqb (Status (ex_receipt recorded)) ""
          then (b, inr (rejected request (reason_text ReasonIdempotencyConflict), Some (Denied ReasonIdempotencyConflict)))
          else (b, inr (ex_receipt recorded, None))
      | None => (<[namespace := MkExecuted requestDigest zero_receipt]> b, inl tt)
      end
  end.

(** [Execute] after its mutation returned. *)
Definition execute_finish (leaf : Leaf) (request : Request) (mutated : option string) (b : Broker) : Broker * (Receipt * option effect_error) :=
  match mutated with
  | Some text => (b, (rejected request (reason_text ReasonPolicyDenied), Some (MutateFailed text)))
  | None => (<[effect_namespace leaf request := MkExecuted (effect_digest leaf request) (completed request)]> b, (completed request, None))
  end.

(** One undisturbed call; the mutation returns [None] or its error, and is not
    run at all when the result says so. *)
Definition Execute (w : World) (leaf : Leaf) (request : Request) (mutate : unit -> option string) (b : Broker) :
    Broker * (Receipt * option effect_error) :=
  let '(b1, outcome) := execute_claim w leaf request b in
  match outcome with
  | inr returned => (b1, returned)
  | inl tt => execute_finish leaf request (mutate tt) b1
  end.

(** *** Interleaved calls *)

Record call := MkCall { c_world : World; c_leaf : Leaf; c_request : Request }.
Definition c_namespace (c : call) : string := effect_namespace (c_leaf c) (c_request c).
Definition c_digest (c : call) : Digest := effect_digest (c_leaf c) (c_request c).

(** The broker, the calls whose mutation is running, and the history: the
    mutations started and those that returned without error. *)
Record system := MkSystem { sys_broker : Broker; sys_running : list call; sys_started : list call; sys_succeeded : list call }.
Definition sys_init : system := MkSystem NewBroker [] [] [].

Inductive estep : system -> system -> Prop :=
| step_return s c b' ret :
    execute_claim (c_world c) (c_leaf c) (c_request c) (sys_broker s) = (b', inr ret) ->
    estep s (MkSystem b' (sys_running s) (sys_started s) (sys_succeeded s))
| step_start s c b' :
    execute_claim (c_world c) (c_leaf c) (c_request c) (sys_broker s) = (b', inl tt) ->
    estep s (MkSystem b' (sys_running s ++ [c])%list (sys_started s ++ [c])%list (sys_succeeded s))
| step_failed s pre c post text b' ret :
    sys_running s = (pre ++ c :: post)%list ->
    execute_finish (c_leaf c) (c_request c) (Some text) (sys_broker s) = (b', ret) ->
    estep s (MkSystem b' (pre ++ post)%list (sys_started s) (sys_succeeded s))
| step_succeeded s pre c post b' ret :
    sys_running s = (pre ++ c :: post)%list ->
    execute_finish (c_leaf c) (c_request c) None (sys_broker s) = (b', ret) ->
    estep s (MkSystem b' (pre ++ post)%list (sys_started s) (sys_succeeded s ++ [c])%list).

(** ** Lemmas *)

Lemma join_app_cons sep (l : list string) x l' : l <> [] -> join sep (l ++ x :: l')%list = join sep l ++ sep ++ join sep (x :: l').
Proof.
  induction l as [|y l IH]; [done|]. intros _. destruct l as [|z l]; [done|].
  change (join sep ((y :: z :: l) ++ x :: l')%list) with (y ++ sep ++ join sep ((z :: l) ++ x :: l')%list).
  rewrite IH by done. change (join sep (y :: z :: l)) with (y ++ sep ++ join sep (z :: l)). by rewrite !append_assoc.
Qed.

Lemma withinAny_spec v l : withinAny v l = true <-> exists p, p ∈ l /\ split_char "/" p `prefix_of` split_char "/" v.
Proof.
  unfold withinAny. rewrite existsb_exists. split.
  - intros (p & Hp%list_elem_of_In & Hv). exists p. split; [done|].
    apply orb_true_iff in Hv as [->%String.eqb_eq|Hv]; [done|]. apply has_prefix_app in Hv as [t ->].
    rewrite append_assoc. cbn [String.append]. rewrite split_char_concat. by eexists.
  - intros (p & Hp & l' & Hl). exists p. split; [by apply list_elem_of_In|].
    rewrite <- (join_split "/" v), Hl. destruct l' as [|x l'].
    + rewrite app_nil_r, join_split. by rewrite String.eqb_refl.
    + rewrite join_app_cons by apply split_char_nonempty. rewrite join_split. apply orb_true_iff. right.
      rewrite <- append_assoc. apply has_prefix_app. by eexists.
Qed.

Lemma claim_started w leaf request b b' :
  execute_claim w leaf request b = (b', inl tt) <->
  rq_IdempotencyKey request <> "" /\ authorizeLeaf w leaf request = Ok tt /\ b !! effect_namespace leaf request = None /\
  b' = <[effect_namespace leaf request := MkExecuted (effect_digest leaf request) zero_receipt]> b.
Proof.
  unfold execute_claim. split.
  - destruct (String.eqb_spec (rq_IdempotencyKey request) "") as [|Hk]; [done|]. destruct (authorizeLeaf w leaf request) as [[]|] eqn:Ea; [|done].
    destruct (b !! effect_namespace leaf request) as [r|] eqn:Eb; [by destruct (_ || _)|]. by intros [= <-].
  - intros (Hk & -> & -> & ->). by rewrite (proj2 (String.eqb_neq _ _) Hk).
Qed.

Lemma claim_returned w leaf request b b' ret :
  execute_claim w leaf request b = (b', inr ret) ->
  b' = b /\
  (snd ret = None -> exists r, b !! effect_namespace leaf request = Some r /\ ex_requestDigest r = effect_digest leaf request /\
     Status (ex_receipt r) <> "" /\ fst ret = ex_receipt r).
Proof.
  unfold execute_claim. destruct (String.eqb (rq_IdempotencyKey request) ""); [by intros [= <- <-]|].
  destruct (authorizeLeaf w leaf request) as [[]|]; [|by intros [= <- <-]].
  destruct (b !! effect_namespace leaf request) as [r|] eqn:Eb; [|done].
  destruct (negb (bool_decide (ex_requestDigest r = effect_digest leaf request)) || String.eqb (Status (ex_receipt r)) "") eqn:E; intros [= <- <-]; [done|].
  split; [done|]. intros _. exists r. bool_prop. apply String.eqb_neq in H1. done.
Qed.

Lemma claim_returned_authorized w leaf request b b' receipt :
  execute_claim w leaf request b = (b', inr (receipt, None)) -> authorizeLeaf w leaf request = Ok tt.
Proof.
  unfold execute_claim. destruct (String.eqb (rq_IdempotencyKey request) ""); [done|]. by destruct (authorizeLeaf w leaf request) as [[]|].
Qed.

(** What the history says of the broker's state. *)
Record sys_inv (s : system) : Prop := {
  inv_once : NoDup (c_namespace <$> sys_started s);
  inv_authorized : Forall (fun c => authorizeLeaf (c_world c) (c_leaf c) (c_request c) = Ok tt) (sys_started s);
  inv_claimed : forall ns r, sys_broker s !! ns = Some r -> ns ∈ c_namespace <$> sys_started s;
  inv_recorded : forall c, c ∈ sys_started s -> exists r, sys_broker s !! c_namespace c = Some r /\ ex_requestDigest r = c_digest c /\
    (ex_receipt r = zero_receipt \/ (c ∈ sys_succeeded s /\ ex_receipt r = completed (c_request c)));
  inv_accounted : (sys_running s ++ sys_succeeded s)%list ⊆+ sys_started s
}.

Lemma sys_inv_init : sys_inv sys_init.
Proof. split; cbn; try done; [apply NoDup_nil_2|intros c Hc; by apply not_elem_of_nil in Hc]. Qed.

Lemma started_unique s c c' : sys_inv s -> c ∈ sys_started s -> c' ∈ sys_started s -> c_namespace c = c_namespace c' -> c = c'.
Proof.
  intros Hi Hc Hc' E. apply list_elem_of_lookup in Hc as [i Hi1]. apply list_elem_of_lookup in Hc' as [j Hj].
  assert (i = j) as ->; [|congruence].
  eapply NoDup_lookup; [apply (inv_once s Hi)|rewrite list_lookup_fmap, Hi1; done|]. rewrite list_lookup_fmap, Hj. exact (f_equal Some (eq_sym E)).
Qed.

Lemma sys_inv_step s s' : sys_inv s -> estep s s' -> sys_inv s'.
Proof.
  intros Hi Hs. destruct Hs as [s c b' ret Hc|s c b' Hc|s pre c post text b' ret Hr Hf|s pre c post b' ret Hr Hf].
  - apply claim_returned in Hc as [-> _]. by destruct Hi.
  - apply claim_started in Hc as (_ & Ha & Hn & ->). destruct Hi as [H1 H2 H3 H4 H5].
    assert (c_namespace c ∉ c_namespace <$> sys_started s) as Hnew.
    { intros (c' & E & Hc')%list_elem_of_fmap. destruct (H4 c' Hc') as (r & Hr & _). unfold c_namespace in *. congruence. }
    split; cbn [sys_broker sys_running sys_started sys_succeeded].
    + rewrite fmap_app. apply NoDup_app. split_and!; [done| |apply NoDup_singleton]. intros x Hx ->%list_elem_of_singleton. done.
    + apply Forall_app. split; [done|]. by apply Forall_singleton.
    + intros ns r. rewrite fmap_app, elem_of_app, lookup_insert_Some. intros [[<- _]|[_ Hr]]; [right; by left|left; by eapply H3].
    + intros c' [Hc'| ->%list_elem_of_singleton]%elem_of_app.
      * destruct (H4 c' Hc') as (r & Hr & Hd). exists r. split; [|done]. rewrite lookup_insert_ne; [done|]. intros E. apply Hnew.
        apply list_elem_of_fmap. by exists c'.
      * eexists. unfold c_namespace. rewrite lookup_insert_eq. split; [done|]. split; [done|by left].
    + rewrite <- app_assoc, (Permutation_app_comm [c]), app_assoc. by apply submseteq_skips_r.
  - injection Hf as <- <-. destruct Hi as [H1 H2 H3 H4 H5]. split; cbn [sys_broker sys_running sys_started sys_succeeded]; try done.
    etrans; [|exact H5]. rewrite Hr. apply submseteq_skips_r, sublist_submseteq, sublist_app; [done|by apply sublist_cons].
  - injection Hf as <- <-. pose proof Hi as [H1 H2 H3 H4 H5].
    assert (c ∈ sys_started s) as Hc.
    { eapply elem_of_submseteq; [|exact H5]. rewrite Hr. set_solver. }
    split; cbn [sys_broker sys_running sys_started sys_succeeded]; try done.
    + intros ns r. rewrite lookup_insert_Some. intros [[<- _]|[_ Hb]]; [|by eapply H3]. apply list_elem_of_fmap. by exists c.
    + intros c' Hc'. destruct (decide (c_namespace c = c_namespace c')) as [E|E].
      * apply (started_unique s c c' Hi Hc Hc') in E as <-. eexists. rewrite lookup_insert_eq. split; [done|]. split; [done|].
        right. split; [set_solver|done].
      * rewrite lookup_insert_ne by done. destruct (H4 c' Hc') as (r & Hb & Hd & Hor). exists r. split_and!; try done.
        destruct Hor as [?|[? ?]]; [by left|right; set_solver].
    + etrans; [|exact H5]. rewrite Hr. rewrite (Permutation_app_comm (sys_succeeded s)). cbn.
      rewrite <- !app_assoc. cbn. by rewrite <- Permutation_middle, <- Permutation_middle.
Qed.

Lemma sys_inv_rtc s s' : sys_inv s -> rtc estep s s' -> sys_inv s'.
Proof. intros Hi Hr. induction Hr as [|x y z Hs _ IH]; [done|]. apply IH. by eapply sys_inv_step. Qed.

Lemma sys_inv_reachable s : rtc estep sys_init s -> sys_inv s.
Proof. apply sys_inv_rtc, sys_inv_init. Qed.
End execute.

(** *** What an authorised effect satisfies *)

Lemma containsAction_spec l a : containsAction l a = true <-> a ∈ l.
Proof.
  unfold containsAction. rewrite existsb_exists. split.
  - intros (x & Hx & ->%String.eqb_eq). by apply list_elem_of_In.
  - intros Ha. exists a. split; [by apply list_elem_of_In|apply String.eqb_refl].
Qed.

Lemma containsResource_elem l r : containsResource l r = true <-> r ∈ l.
Proof.
  unfold containsResource. rewrite existsb_exists. split.
  - intros (x & Hx & ->%bool_decide_eq_true). by apply list_elem_of_In.
  - intros Ha. exists r. split; [by apply list_elem_of_In|by apply bool_decide_eq_true].
Qed.

(** [p] is a well-formed path at or below (segment by segment) an owned path
    and an allowed path, and below no forbidden path. *)
Definition in_scope (leaf : Leaf) (p : string) : Prop :=
  let under prefixes := exists q, q ∈ prefixes /\ split_char "/" q `prefix_of` split_char "/" p in
  validRepositoryPath p = true /\ valid_utf8 p = true /\ under (sc_OwnedPaths (lf_Scope leaf)) /\ under (lg_AllowedPaths (lf_Grant leaf)) /\
  ~ under (sc_ForbiddenPaths (lf_Scope leaf)).

(** The ports agree, at the time of the call: the lease is live under the
    grant's fence and the policy allows the action on a granted resource at the
    grant's revocation epoch. *)
Definition currently_allowed (w : World) (leaf : Leaf) (request : Request) : Prop :=
  let g := lf_Grant leaf in
  (exists expiry, w_CurrentFence w (le_LeaseID (lg_Lease g)) = Some (le_Fence (lg_Lease g), expiry) /\ w_now w < expiry) /\
  effect_resource leaf request ∈ lg_Resources g /\
  (exists d, w_Check w (lf_Identity leaf) (MkPolicyRequest (rq_Action request) (effect_resource leaf request) (lg_RevocationEpoch g)) = Some d /\
     pd_Allowed d = true /\ pd_RevocationEpoch d = lg_RevocationEpoch g).

Lemma ValidatePath_relative p : ValidatePath p = true -> has_prefix "/" p = false.
Proof. unfold ValidatePath. intros Hp. by bool_prop. Qed.

Lemma authorizePath_iff leaf p : authorizePath leaf p = Ok tt <-> in_scope leaf p.
Proof.
  unfold authorizePath, in_scope. rewrite !fail_if_Ok, !orb_false_iff, !negb_false_iff, <- !withinAny_spec.
  assert (ValidatePath p = true <-> validRepositoryPath p = true /\ valid_utf8 p = true) as Hv by (rewrite path_rules_agree; apply andb_true_iff).
  pose proof (ValidatePath_relative p). rewrite not_true_iff_false. tauto.
Qed.

Lemma authorize_current_iff w leaf request : authorize_current w leaf request = Ok tt <-> currently_allowed w leaf request.
Proof.
  unfold authorize_current, currently_allowed. cbv zeta. rewrite <- containsResource_elem.
  destruct (w_CurrentFence w _) as [[fence expiry]|]; [|split; [done|by intros ((e & ? & _) & _)]].
  rewrite !fail_if_Ok, !negb_false_iff, Z.ltb_lt, Z.eqb_eq.
  destruct (w_Check w _ _) as [d|]; [|split; [by intros (_ & _ & _ & ?)|by intros (_ & _ & d & ? & _)]].
  rewrite !fail_if_Ok, !negb_false_iff, Z.eqb_eq. split.
  - intros (H1 & H2 & H3 & H4 & H5 & _). split_and!; [exists expiry; by rewrite H2|done|by exists d].
  - intros ((e & [= -> ->] & He) & Hr & d' & [= <-] & ? & ?). by split_and!.
Qed.

Lemma effect_authorized_scope w leaf request : authorizeLeaf w leaf request = Ok tt -> in_scope leaf (rq_Path request).
Proof.
  unfold authorizeLeaf. cbv zeta. rewrite !fail_if_Ok, rbind_Ok. intros (_ & _ & [] & _ & Hrest).
  rewrite !fail_if_Ok, rbind_Ok in Hrest. destruct Hrest as (_ & _ & _ & _ & [] & Hp & _). by apply authorizePath_iff.
Qed.

(** ** Properties *)

(** An effect is authorised exactly when the broker's clock is set, the
    caller is the grant's initiator in the grant's tenant, the grant is valid
    now, the leaf's base is the grant's, the action is a file read or write the
    grant lists, the path lies segment by segment under an owned and an allowed
    path and under no forbidden one, the lease is live under the grant's fence,
    and the current policy allows the action on a granted resource at the
    grant's revocation epoch. *)
Theorem effect_authorized_iff w leaf request :
  let g := lf_Grant leaf in
  authorizeLeaf w leaf request = Ok tt <->
  w_now w <> 0 /\ Principal (lf_Identity leaf) = lg_Initiator g /\ Tenant (lf_Identity leaf) = lg_Tenant g /\
  ValidateGrant g (w_now w) = Ok tt /\ sc_BaseGitOID (lf_Scope leaf) = lg_RepositoryGitOID g /\
  (rq_Action request = ActionFileRead \/ rq_Action request = ActionFileWrite) /\ rq_Action request ∈ lg_Actions g /\
  in_scope leaf (rq_Path request) /\ currently_allowed w leaf request.
Proof.
  cbv zeta. unfold authorizeLeaf. cbv zeta. rewrite <- authorizePath_iff, <- authorize_current_iff, <- containsAction_spec.
  rewrite !fail_if_Ok, rbind_Ok, Z.eqb_neq, orb_false_iff, !negb_false_iff, !bool_decide_eq_true.
  assert (forall a : unit, a = tt) as Htt by (by intros []).
  split.
  - intros (H0 & (H1 & H2) & [] & Hg & Hrest). rewrite !fail_if_Ok, rbind_Ok, !negb_false_iff, String.eqb_eq in Hrest.
    destruct Hrest as (Hb & _ & Hact & Ha & [] & Hp & Hc). split_and!; try done.
    apply andb_false_iff in Hact as [Hact|Hact]; apply negb_false_iff, String.eqb_eq in Hact; tauto.
  - intros (H0 & H1 & H2 & Hg & Hb & Hact & Ha & Hp & Hc). split_and!; try done. exists tt. split; [done|].
    rewrite !fail_if_Ok, rbind_Ok, !negb_false_iff, String.eqb_eq. split_and!; try done; [by destruct Hact as [-> | ->]..|by exists tt].
Qed.

(** A file mutation accepted for a leaf stays in the leaf's scope: the path it
    produces and, for a rename, the path it consumes. *)
Lemma mutation_confined w1 w2 leaf edit :
  AuthorizeMutation w1 w2 leaf edit = Ok tt ->
  in_scope leaf (ed_Path edit) /\ (ed_Op edit = OpRename -> in_scope leaf (ed_OldPath edit)).
Proof.
  unfold AuthorizeMutation. rewrite rbind_Ok. intros ([] & H1 & H2). apply effect_authorized_scope in H1. split; [done|].
  intros E. rewrite E in H2. by apply effect_authorized_scope in H2.
Qed.

(** C13. Whatever the interleaving of calls, a mutation runs at most once for a
    tenant, grant and key (a failed one included), and each that runs was
    authorised by the current policy when its call claimed the key; every
    mutation that returned success is one of them. *)
Theorem effect_runs_at_most_once `{GoRuntime} s :
  rtc estep sys_init s ->
  NoDup (c_namespace <$> sys_started s) /\ (sys_running s ++ sys_succeeded s)%list ⊆+ sys_started s /\
  Forall (fun c => authorizeLeaf (c_world c) (c_leaf c) (c_request c) = Ok tt) (sys_started s).
Proof. intros Hr. destruct (sys_inv_reachable s Hr). by split_and!. Qed.

(** A call that returns without error and without running its mutation is an
    exact replay: its own request is authorised now, exactly one earlier call
    succeeded under the same key with the same request digest, and the receipt
    returned is that call's. *)
Theorem effect_replay_returns_original `{GoRuntime} s w leaf request b' receipt :
  rtc estep sys_init s -> execute_claim w leaf request (sys_broker s) = (b', inr (receipt, None)) ->
  authorizeLeaf w leaf request = Ok tt /\ b' = sys_broker s /\
  exists c, c ∈ sys_succeeded s /\ c_namespace c = effect_namespace leaf request /\ c_digest c = effect_digest leaf request /\
    receipt = completed (c_request c) /\ forall c', c' ∈ sys_started s -> c_namespace c' = c_namespace c -> c' = c.
Proof.
  intros Hr Hc. pose proof (sys_inv_reachable s Hr) as Hi. split; [by eapply claim_returned_authorized|].
  apply claim_returned in Hc as [-> Hret]. split; [done|]. destruct (Hret eq_refl) as (r & Hb & Hd & Hst & E). cbn in E. subst receipt.
  pose proof (inv_claimed s Hi _ _ Hb) as (c & Ec & Hin)%list_elem_of_fmap.
  destruct (inv_recorded s Hi c Hin) as (r' & Hb' & Hd' & Hor). rewrite <- Ec, Hb in Hb'. injection Hb' as <-.
  destruct Hor as [E|[Hs E]]; [by rewrite E in Hst|]. exists c. split_and!; try done; [congruence|].
  intros c' Hc' E'. by apply (started_unique s).
Qed.
