(* ===== verification/BrokerCandidate.v ===== *)
(** * broker: exact-base Git candidates

    Models [services/broker/internal/factory/gitcandidate/gitcandidate.go]: the
    isolated candidate tree, the application of an edit set to it, the
    idempotency record and the discarding of candidates.

    A candidate directory is a finite map from path segments to nodes, links
    included, so that an operation that would go through a link (and leave the
    directory) is visible as [OsEscape].  What git answers, which system calls
    fail and whether the context is cancelled is a [CandEnv], an argument of the
    definitions; git's own writes below [.git] are not represented. *)

From Stdlib Require Import Ascii String.
From S2P Require Import Prelude GoString GoPath Float64 Runtime FactoryTypes Contracts BrokerChangeSet BrokerEffects.
Open Scope string_scope.
Open Scope Z_scope.

(** [ErrDenied] wraps the authoriser's error, [ErrChangeSet] is the error of
    the edit-set validation and [ErrWalk] one of walking the tree. [Escaped] is no error of the
    source: it marks a system call that would have left the candidate. *)
Inductive candidate_error :=
| ErrInvalidInput | ErrGit | ErrBase | ErrApply | ErrDeniedBy (e : effect_error) | ErrConflict | ErrLimit
| ErrChangeSet | ErrWalk | Escaped.

Inductive CandidateState := StateApplied | StateRejected.

Definition ReasonApplyFailed : string := "candidate_apply_failed".
Definition ReasonEscapeDenied : string := "candidate_escape_denied".
Definition ReasonRejected : string := "candidate_rejected".

Record Config := MkConfig {
  cg_CanonicalRoot : string; cg_CandidateRoot : string; cg_GitExecutable : string; cg_CommandTimeout : Z; cg_MaxFiles : Z;
  cg_MaxFileBytes : Z; cg_MaxTotalBytes : Z
}.

Definition maxConfiguredFiles : Z := 100000.
Definition maxConfiguredFileBytes : Z := 16 * 2 ^ 20.
Definition maxConfiguredTotalBytes : Z := 64 * 2 ^ 20.
Definition ten_minutes : Z := 600 * 10 ^ 9.

Definition withinRoot (root candidate : string) : bool :=
  match Rel root candidate with
  | None => false
  | Some relative => String.eqb relative "." || (negb (String.eqb relative "..") && negb (has_prefix "../" relative))
  end.

Definition isAbs (p : string) : bool := has_prefix "/" p.

(** What the system answers while a store is opened. *)
Record StoreEnv := MkStoreEnv {
  se_resolve : string -> option string;   (* EvalSymlinks *)
  se_is_dir : string -> bool;             (* Lstat and IsDir *)
  se_exists : string -> bool;
  se_executable : string -> bool;         (* regular with an execute bit *)
  se_mkdir : bool
}.

Definition config_ok (c : Config) : bool :=
  isAbs (cg_CanonicalRoot c) && isAbs (cg_CandidateRoot c) && isAbs (cg_GitExecutable c)
  && (0 <? cg_CommandTimeout c) && (cg_CommandTimeout c <=? ten_minutes) && (0 <? cg_MaxFiles c) && (cg_MaxFiles c <=? maxConfiguredFiles)
  && (0 <? cg_MaxFileBytes c) && (cg_MaxFileBytes c <=? maxConfiguredFileBytes) && (0 <? cg_MaxTotalBytes c)
  && (cg_MaxTotalBytes c <=? maxConfiguredTotalBytes) && (cg_MaxFileBytes c <=? cg_MaxTotalBytes c).

Definition NewStore (env : StoreEnv) (c : Config) : result candidate_error Config :=
  if negb (config_ok c) then Err ErrInvalidInput
  else match se_resolve env (cg_CanonicalRoot c) with
  | None => Err ErrInvalidInput
  | Some canonical =>
      if negb (se_is_dir env canonical) || negb (se_exists env (Join [canonical; ".git"])) then Err ErrInvalidInput
      else match se_resolve env (cg_GitExecutable c) with
      | None => Err ErrInvalidInput
      | Some git =>
          if negb (se_executable env git) || negb (se_mkdir env) then Err ErrInvalidInput
          else match se_resolve env (cg_CandidateRoot c) with
          | None => Err ErrInvalidInput
          | Some root =>
              if withinRoot (Clean canonical) (Clean root) then Err ErrInvalidInput
              else Ok (MkConfig (Clean canonical) (Clean root) (Clean git) (cg_CommandTimeout c) (cg_MaxFiles c) (cg_MaxFileBytes c) (cg_MaxTotalBytes c))
          end
      end
  end.

(** ** The candidate tree *)

Inductive node := NDir | NFile (content : string) (mode : Z) | NLink (target : string) | NOther.

Abbreviation tree := (gmap (list string) node).

Definition segments (p : string) : list string := split_char "/" p.

Inductive os (A : Type) := OsOk (x : A) | OsFail | OsEscape.
Arguments OsOk {A} x.
Arguments OsFail {A}.
Arguments OsEscape {A}.

(** The proper non-empty prefixes of a path. *)
Definition parents (p : list string) : list (list string) := (fun n => take n p) <$> seq 1 (length p - 1).

Definition is_dir (t : tree) (p : list string) : bool := match t !! p with Some NDir => true | _ => false end.
Definition is_link (t : tree) (p : list string) : bool := match t !! p with Some (NLink _) => true | _ => false end.

(** [os.MkdirAll] on each directory of the list in turn. *)
Fixpoint mkdir_all (t : tree) (dirs : list (list string)) : os tree :=
  match dirs with
  | [] => OsOk t
  | d :: dirs' =>
      match t !! d with
      | Some NDir => mkdir_all t dirs'
      | None => mkdir_all (<[d := NDir]> t) dirs'
      | Some (NLink _) => OsEscape
      | Some _ => OsFail
      end
  end.

(** [os.WriteFile]: a new file gets [mode], an existing one keeps its own. *)
Definition write_file (t : tree) (p : list string) (content : string) (mode : Z) : os tree :=
  if existsb (is_link t) (parents p) || is_link t p then OsEscape
  else if negb (forallb (is_dir t) (parents p)) then OsFail
  else match t !! p with
  | Some (NFile _ m) => OsOk (<[p := NFile content m]> t)
  | None => OsOk (<[p := NFile content mode]> t)
  | Some _ => OsFail
  end.

(** [os.Remove]: of a directory, only when it is empty. *)
Definition remove (t : tree) (p : list string) : os tree :=
  if existsb (is_link t) (parents p) then OsEscape
  else match t !! p with
  | None => OsFail
  | Some NDir => if existsb (fun q => bool_decide (p `prefix_of` q) && negb (bool_decide (q = p))) (fst <$> map_to_list t) then OsFail else OsOk (delete p t)
  | Some _ => OsOk (delete p t)
  end.

(** [os.Rename] of a file (the callers have read it as a regular one). *)
Definition rename (t : tree) (p q : list string) : os tree :=
  if existsb (is_link t) (parents p) || existsb (is_link t) (parents q) then OsEscape
  else match t !! p with
  | Some (NFile c m) =>
      if negb (forallb (is_dir t) (parents q)) then OsFail
      else match t !! q with
      | Some NDir => OsFail
      | _ => OsOk (<[q := NFile c m]> (delete p t))
      end
  | _ => OsFail
  end.

(** The system calls that may fail for reasons outside the tree. *)
Inductive os_call :=
| CallLstat (p : list string) | CallRead (p : list string) | CallMkdir (p : list string) | CallWrite (p : list string)
| CallRemove (p : list string) | CallRename (p q : list string).

Record CandEnv := MkCandEnv {
  ce_cancelled : nat -> bool;           (* ctx.Err before the i-th edit *)
  ce_fault : nat -> os_call -> bool;    (* the call fails during the i-th edit *)
  ce_add : bool;                        (* git add -A *)
  ce_write_tree : option string;        (* git write-tree *)
  ce_walk : bool;                       (* the post-image walk reads every file *)
  ce_mode_text : Z -> string;           (* FileMode.String *)
  ce_new_mode : Z                       (* 0644 under the umask *)
}.

(** *** Reading and writing below the candidate *)

Inductive lstat_error := NotExist | Refused.

Section files.
Context (fault : os_call -> bool) (t : tree).

Fixpoint lstat_from (cur segs : list string) : result lstat_error node :=
  match segs with
  | [] => Err NotExist
  | seg :: rest =>
      let cur' := (cur ++ [seg])%list in
      if fault (CallLstat cur') then Err Refused
      else match t !! cur' with
      | None => Err NotExist
      | Some (NLink _) => Err Refused
      | Some n => match rest with [] => Ok n | _ => if is_dir t cur' then lstat_from cur' rest else Err Refused end
      end
  end.

Definition lstatNoSymlink (p : list string) : result lstat_error node := lstat_from [] p.

Definition readCandidateFile (p : list string) (maxBytes : Z) : result candidate_error string :=
  match lstatNoSymlink p with
  | Ok (NFile content _) => if fault (CallRead p) || (maxBytes <? len content) then Err ErrApply else Ok content
  | _ => Err ErrApply
  end.

Definition of_os (r : os tree) : result candidate_error tree :=
  match r with OsOk t' => Ok t' | OsFail => Err ErrApply | OsEscape => Err Escaped end.
End files.

Section write.
Context (fault : os_call -> bool) (newMode : Z).

Definition make_parents (t : tree) (p : list string) : result candidate_error tree :=
  if fault (CallMkdir p) then Err ErrApply else of_os (mkdir_all t (parents p)).

Definition parent_ok (t : tree) (p : list string) : bool :=
  match p with
  | _ :: _ :: _ => match lstatNoSymlink fault t (removelast p) with Err Refused => false | _ => true end
  | _ => true
  end.

Definition writeCandidateFile (t : tree) (p : list string) (content : string) (maxBytes : Z) : result candidate_error tree :=
  if maxBytes <? len content then Err ErrApply
  else if negb (parent_ok t p) then Err ErrApply
  else
    do t1 <- make_parents t p ;
    if fault (CallWrite p) then Err ErrApply else of_os (write_file t1 p content newMode).
End write.

(** ** Digests *)

Definition writeField (value : string) : string := dec (len value) ++ ":" ++ value ++ ";".

Fixpoint write_fields (l : list string) : string := match l with [] => "" | v :: l' => writeField v ++ write_fields l' end.

Record inventoryRecord := MkInventory { ir_path : string; ir_mode : string; ir_size : Z; ir_digest : string }.

(** Lexical order of the walk: file names directory by directory. *)
Fixpoint segs_ltb (a b : list string) : bool :=
  match a, b with
  | [], [] => false
  | [], _ :: _ => true
  | _ :: _, [] => false
  | x :: a', y :: b' => if String.eqb x y then segs_ltb a' b' else String.ltb x y
  end.

Definition walk_order (t : tree) : list (list string * node) := sort_by (fun a b => segs_ltb (fst a) (fst b)) (map_to_list t).

Section digests.
Context `{GoRuntime}.

Definition field_digest (l : list string) : Digest := MkDigest "sha256" (sha256_hex (write_fields l)).

Fixpoint inventory_from (modeText : Z -> string) (excludeTop : string) (maxFiles maxTotal total : Z) (l : list (list string * node))
    (acc : list inventoryRecord) : result candidate_error (list inventoryRecord) :=
  match l with
  | [] => Ok acc
  | (p, n) :: l' =>
      if negb (String.eqb excludeTop "") && match p with top :: _ => String.eqb top excludeTop | [] => false end
      then inventory_from modeText excludeTop maxFiles maxTotal total l' acc
      else
        let emit record total' :=
          let acc' := (acc ++ [record])%list in
          if maxFiles <? Z.of_nat (length acc') then Err ErrLimit else inventory_from modeText excludeTop maxFiles maxTotal total' l' acc' in
        match n with
        | NDir => inventory_from modeText excludeTop maxFiles maxTotal total l' acc
        | NLink target => emit (MkInventory (join "/" p) "Lrwxrwxrwx" 0 ("symlink:" ++ Hex (DigestBytes target))) total
        | NFile content mode =>
            if maxTotal - total <? len content then Err ErrLimit
            else emit (MkInventory (join "/" p) (modeText mode) (len content) (Hex (DigestBytes content))) (total + len content)
        | NOther => Err ErrInvalidInput
        end
  end.

Definition inventory (modeText : Z -> string) (t : tree) (excludeTop : string) (maxFiles maxTotal : Z) : result candidate_error (list inventoryRecord) :=
  do records <- inventory_from modeText excludeTop maxFiles maxTotal 0 (walk_order t) [] ;
  Ok (sort_by (fun a b => String.ltb (ir_path a) (ir_path b)) records).

Definition PostImageDigest (modeText : Z -> string) (config : Config) (t : tree) : result candidate_error Digest :=
  do records <- inventory modeText t ".git" (cg_MaxFiles config) (cg_MaxTotalBytes config) ;
  Ok (field_digest (records ≫= fun r => [ir_path r; ir_mode r; ir_digest r])).

(** [AttestCanonical] over the canonical tree, [.git] included. *)
Record Attestation := MkAttestation { at_Digest : Digest; at_Files : Z; at_Bytes : Z }.

Definition AttestCanonical (modeText : Z -> string) (config : Config) (t : tree) : result candidate_error Attestation :=
  do records <- inventory modeText t "" (cg_MaxFiles config) (cg_MaxTotalBytes config) ;
  Ok (MkAttestation (field_digest (records ≫= fun r => [ir_path r; ir_mode r; dec (ir_size r); ir_digest r]))
        (Z.of_nat (length records)) (fold_left (fun a r => a + ir_size r) records 0)).

Definition ChangeSetDigest (base : string) (edits : list Edit) : Digest :=
  field_digest ("ouroboros.stage05.change-set.v1" :: base ::
    (edits ≫= fun e => [ed_Path e; ed_OldPath e; ed_Op e; Hex (ed_BeforeDigest e); Hex (ed_AfterDigest e)])).

(** ** Applying edits *)

Definition Authorizer := nat -> Edit -> result effect_error unit.

Record ApplyRequest := MkApply {
  ar_ChangeSetID : string; ar_IdempotencyKey : string; ar_Tenant : Identifier; ar_Principal : Identifier; ar_Edits : list Edit;
  ar_Authorizer : Authorizer
}.

Definition replayKey (r : ApplyRequest) : string := Value (ar_Tenant r) ++ nul ++ Value (ar_Principal r) ++ nul ++ ar_IdempotencyKey r.

Definition digestApplyRequest (base : string) (r : ApplyRequest) : Digest :=
  field_digest (["ouroboros.stage05.apply-request.v1"; base; Value (ar_Tenant r); Value (ar_Principal r); ar_ChangeSetID r; ar_IdempotencyKey r] ++
    (ar_Edits r ≫= fun e => [ed_Path e; ed_OldPath e; ed_Op e; ed_Lang e; Hex (ed_BeforeDigest e); Hex (ed_AfterDigest e)]))%list.

Section apply.
Context (config : Config) (env : CandEnv).

Definition verifyPreimage (i : nat) (t : tree) (path : string) (before : Digest) : result candidate_error unit :=
  match readCandidateFile (ce_fault env i) t (segments path) (cg_MaxFileBytes config) with
  | Err _ => Err ErrApply
  | Ok content => if negb (bool_decide (DigestBytes content = before)) then Err ErrApply else Ok tt
  end.

(** The path an edit creates must not exist. *)
Definition require_absent (i : nat) (t : tree) (path : string) : result candidate_error unit :=
  match lstatNoSymlink (ce_fault env i) t (segments path) with Err NotExist => Ok tt | _ => Err ErrApply end.

Definition write_edit (i : nat) (t : tree) (e : Edit) : result candidate_error tree :=
  writeCandidateFile (ce_fault env i) (ce_new_mode env) t (segments (ed_Path e)) (ed_NewContent e) (cg_MaxFileBytes config).

Definition applyOne (i : nat) (t : tree) (e : Edit) : result candidate_error tree :=
  if String.eqb (ed_Op e) OpAdd then
    do _ <- require_absent i t (ed_Path e) ; write_edit i t e
  else if String.eqb (ed_Op e) OpModify then
    do _ <- verifyPreimage i t (ed_Path e) (ed_BeforeDigest e) ; write_edit i t e
  else if String.eqb (ed_Op e) OpDelete then
    do _ <- verifyPreimage i t (ed_Path e) (ed_BeforeDigest e) ;
    if ce_fault env i (CallRemove (segments (ed_Path e))) then Err ErrApply else of_os (remove t (segments (ed_Path e)))
  else if String.eqb (ed_Op e) OpRename then
    do _ <- verifyPreimage i t (ed_OldPath e) (ed_BeforeDigest e) ;
    do _ <- require_absent i t (ed_Path e) ;
    do t1 <- make_parents (ce_fault env i) t (segments (ed_Path e)) ;
    do t2 <- (if ce_fault env i (CallRename (segments (ed_OldPath e)) (segments (ed_Path e))) then Err ErrApply
              else of_os (rename t1 (segments (ed_OldPath e)) (segments (ed_Path e)))) ;
    write_edit i t2 e
  else Err ErrApply.

(** The edits in order, with the number executed. *)
Fixpoint apply_edits (auth : Authorizer) (i : nat) (t : tree) (edits : list Edit) : nat * result candidate_error tree :=
  match edits with
  | [] => (i, Ok t)
  | e :: rest =>
      if ce_cancelled env i then (i, Err ErrApply)
      else match auth i e with
      | Err d => (i, Err (ErrDeniedBy d))
      | Ok _ =>
          match applyOne i t e with
          | Err err => (i, Err err)
          | Ok t' => apply_edits auth (S i) t' rest
          end
      end
  end.

Definition postimage_ok (n : nat) (t : tree) (e : Edit) : bool :=
  String.eqb (ed_Op e) OpDelete ||
  match readCandidateFile (ce_fault env n) t (segments (ed_Path e)) (cg_MaxFileBytes config) with
  | Ok content => bool_decide (DigestBytes content = ed_AfterDigest e)
  | Err _ => false
  end.

Definition isGitOID (value : string) : bool :=
  ((len value =? 40) || (len value =? 64))
  && match hex_decode value with Some decoded => 2 * Z.of_nat (length decoded) =? len value | None => false end
  && String.eqb value (str_map ascii_lower value) && valid_utf8 value.

(** The post-image facts of the edited tree. *)
Definition seal_postimage (t : tree) : result candidate_error (Digest * string) :=
  if negb (ce_add env) then Err ErrGit
  else match ce_write_tree env with
  | None => Err ErrGit
  | Some output =>
      let treeOID := trim_space output in
      if negb (isGitOID treeOID) then Err ErrGit
      else if negb (ce_walk env) then Err ErrWalk
      else do digest <- PostImageDigest (ce_mode_text env) config t ; Ok (digest, treeOID)
  end.

(** The tree, digest and tree identifier, or the error with which the directory
    is removed; in both cases the number of edits executed. *)
Definition applyAll (t : tree) (r : ApplyRequest) : nat * result candidate_error (tree * Digest * string) :=
  let '(executed, edited) := apply_edits (ar_Authorizer r) 0 t (ar_Edits r) in
  (executed,
   do t' <- edited ;
   if negb (forallb (postimage_ok (length (ar_Edits r)) t') (ar_Edits r)) then Err ErrApply
   else do sealed <- seal_postimage t' ; Ok (t', fst sealed, snd sealed)).
End apply.

(** ** The store *)

Record Candidate := MkCandidate { cd_ID : string; cd_BaseGitOID : string }.

Record RollbackReceipt := MkRollback {
  rb_Receipt : Receipt; rb_CandidateID : string; rb_BaseGitOID : string; rb_ChangeSetDigest : Digest; rb_DiscardedEdits : Z; rb_FailedEditIndex : Z
}.

Record Outcome := MkOutcome {
  oc_State : CandidateState; oc_CandidateID : string; oc_BaseGitOID : string; oc_ChangeSetDigest : Digest; oc_PostImageDigest : Digest;
  oc_PostImageTreeOID : string; oc_Rollback : option RollbackReceipt
}.

(** No outcome marks an application in flight. *)
Record recordedOutcome := MkRecorded { ro_requestDigest : Digest; ro_outcome : option Outcome; ro_inFlightCandidate : string }.

(** The idempotency record and the candidate directories that exist. *)
Record Store := MkStore { st_seen : gmap string recordedOutcome; st_dirs : gmap string tree }.

Definition zero_digest : Digest := MkDigest "" "".

Definition rollback (c : Candidate) (reasonCode : string) (setDigest : Digest) (discarded failedIndex : Z) : RollbackReceipt :=
  MkRollback (MkReceipt (MkIdentifier "candidate" (cd_ID c)) "rejected" reasonCode 0) (cd_ID c) (cd_BaseGitOID c) setDigest discarded failedIndex.

(** How [os.RemoveAll] ends on a directory that exists: it is gone, or the call
    failed and left some tree (of the edits made and the removals done) in it. *)
Inductive removal := Removed | Left (t : tree).

Definition remove_dir (rm : removal) (id : string) (dirs : gmap string tree) : gmap string tree :=
  match rm, dirs !! id with
  | Left t, Some _ => <[id := t]> dirs
  | _, _ => delete id dirs
  end.

Definition candidateInFlight (s : Store) (id : string) : bool :=
  existsb (fun r => match ro_outcome r with None => String.eqb (ro_inFlightCandidate r) id | Some _ => false end) (snd <$> map_to_list (st_seen s)).

Definition request_ok (r : ApplyRequest) : bool :=
  negb (String.eqb (ar_ChangeSetID r) "" || String.eqb (ar_IdempotencyKey r) ""
        || negb (String.eqb (Namespace (ar_Tenant r)) "tenant") || String.eqb (Value (ar_Tenant r)) ""
        || negb (String.eqb (Namespace (ar_Principal r)) "principal") || String.eqb (Value (ar_Principal r)) ""
        || (length (ar_Edits r) =? 0)%nat || (MaxEdits <? Z.of_nat (length (ar_Edits r)))).

(** [Apply] up to the edits: [inl] when the key was claimed and the edits are to
    be applied, [inr] with what the call returns otherwise. *)
Definition apply_claim (rm : removal) (c : Candidate) (r : ApplyRequest) (s : Store) : Store * (unit + option Outcome * option candidate_error) :=
  if negb (request_ok r) then (s, inr (None, Some ErrInvalidInput))
  else match Validate (ar_Edits r) with
  | Err _ =>
      if candidateInFlight s (cd_ID c) then (s, inr (None, Some ErrConflict))
      else
        let rejected := MkOutcome StateRejected (cd_ID c) (cd_BaseGitOID c) zero_digest zero_digest ""
                          (Some (rollback c ReasonRejected (ChangeSetDigest (cd_BaseGitOID c) (ar_Edits r)) 0 (-1))) in
        (MkStore (st_seen s) (remove_dir rm (cd_ID c) (st_dirs s)), inr (Some rejected, Some ErrChangeSet))
  | Ok _ =>
      let requestDigest := digestApplyRequest (cd_BaseGitOID c) r in
      match st_seen s !! replayKey r with
      | None => (MkStore (<[replayKey r := MkRecorded requestDigest None (cd_ID c)]> (st_seen s)) (st_dirs s), inl tt)
      | Some recorded =>
          let own := match ro_outcome recorded with Some o => String.eqb (cd_ID c) (oc_CandidateID o) | None => false end in
          let dirs := if negb own && negb (String.eqb (cd_ID c) (ro_inFlightCandidate recorded))
                      then remove_dir rm (cd_ID c) (st_dirs s) else st_dirs s in
          (MkStore (st_seen s) dirs,
           inr (match ro_outcome recorded with
                | Some o => if negb (bool_decide (ro_requestDigest recorded = requestDigest)) then (None, Some ErrConflict) else (Some o, None)
                | None => (None, Some ErrConflict)
                end))
      end
  end.

(** [Apply] with the edits: the directory and the record as they end up. *)
Definition apply_finish (config : Config) (env : CandEnv) (rm : removal) (c : Candidate) (r : ApplyRequest) (t : tree) (s : Store) :
    Store * (option Outcome * option candidate_error) :=
  let requestDigest := digestApplyRequest (cd_BaseGitOID c) r in
  let setDigest := ChangeSetDigest (cd_BaseGitOID c) (ar_Edits r) in
  let record dirs o err := (MkStore (<[replayKey r := MkRecorded requestDigest (Some o) ""]> (st_seen s)) dirs, (Some o, err)) in
  match applyAll config env t r with
  | (executed, Err e) =>
      record (remove_dir rm (cd_ID c) (st_dirs s))
        (MkOutcome StateRejected (cd_ID c) (cd_BaseGitOID c) setDigest zero_digest ""
           (Some (rollback c ReasonApplyFailed setDigest (Z.of_nat executed) (Z.of_nat executed)))) (Some e)
  | (_, Ok (t', digest, treeOID)) =>
      record (<[cd_ID c := t']> (st_dirs s)) (MkOutcome StateApplied (cd_ID c) (cd_BaseGitOID c) setDigest digest treeOID None) None
  end.

(** One undisturbed call, on the tree [t] of the candidate. *)
Definition Apply (config : Config) (env : CandEnv) (rm : removal) (c : Candidate) (r : ApplyRequest) (t : tree) (s : Store) :
    Store * (option Outcome * option candidate_error) :=
  let '(s1, outcome) := apply_claim rm c r s in
  match outcome with
  | inr returned => (s1, returned)
  | inl tt => apply_finish config env rm c r t s1
  end.

Definition Discard (rm : removal) (reasonCode : string) (setDigest : Digest) (c : Candidate) (s : Store) : Store * (RollbackReceipt * option candidate_error) :=
  (MkStore (st_seen s) (remove_dir rm (cd_ID c) (st_dirs s)),
   (rollback c reasonCode setDigest 0 (-1), match rm, st_dirs s !! cd_ID c with Left _, Some _ => Some ErrGit | _, _ => None end)).

(** [Candidate.ReadFile] on the current tree, without faults of its own. *)
Definition Candidate_ReadFile (config : Config) (fault : os_call -> bool) (t : tree) (path : string) : result candidate_error string :=
  if negb (ValidatePath path) then Err ErrInvalidInput else readCandidateFile fault t (segments path) (cg_MaxFileBytes config).

(** *** Construction *)

(** What git and the system answer while a candidate is built: the outputs, an
    error as [None], and the tree a checkout leaves. *)
Record BeginEnv := MkBeginEnv {
  be_base : option string; be_gitdir : option string; be_random : option string; be_mkdir : bool; be_init : bool; be_alternates : bool;
  be_checkout : option tree; be_head : option string; be_status : option string
}.

Definition all_nul (s : string) : bool := negb (existsb (fun p => negb (p_rune p =? 0)) (pieces s)).

Definition Begin (env : BeginEnv) (base : string) (s : Store) : Store * result candidate_error Candidate :=
  if negb (isGitOID base) then (s, Err ErrInvalidInput)
  else match be_base env, be_gitdir env, be_random env with
  | Some resolved, Some gitDir, Some random =>
      if negb (String.eqb (trim_space resolved) base) then (s, Err ErrBase)
      else if negb (be_mkdir env) then (s, Err ErrGit)
      else
        let id := "candidate-" ++ random in
        match be_init env, be_alternates env, be_checkout env, be_head env, be_status env with
        | true, true, Some t, Some head, Some status =>
            if negb (String.eqb (trim_space head) base) then (s, Err ErrGit)
            else if negb (all_nul status) then (s, Err ErrGit)
            else (MkStore (st_seen s) (<[id := t]> (st_dirs s)), Ok (MkCandidate id base))
        | _, _, _, _, _ => (s, Err ErrGit)
        end
  | None, _, _ => (s, Err ErrBase)
  | Some resolved, _, _ => (s, Err (if String.eqb (trim_space resolved) base then ErrGit else ErrBase))
  end.
End digests.

(** ** Lemmas: the tree *)

(** Every node lies below directories. *)
Definition wf_tree (t : tree) : Prop := forall p n, t !! p = Some n -> forall q, q ∈ parents p -> is_dir t q = true.

Lemma elem_of_parents p q : q ∈ parents p <-> exists n, (1 <= n < length p)%nat /\ q = take n p.
Proof.
  unfold parents. rewrite list_elem_of_fmap. setoid_rewrite elem_of_seq. split.
  - intros (n & -> & Hn). exists n. split; [lia|done].
  - intros (n & Hn & ->). exists n. split; [done|lia].
Qed.

Lemma parents_trans p q r : q ∈ parents p -> r ∈ parents q -> r ∈ parents p.
Proof.
  rewrite !elem_of_parents. intros (n & Hn & ->) (k & Hk & ->). rewrite length_take in Hk. exists k. split; [lia|].
  rewrite take_take. f_equal. lia.
Qed.

Lemma parents_irrefl p : p ∉ parents p.
Proof. rewrite elem_of_parents. intros (n & Hn & E). apply (f_equal length) in E. rewrite length_take in E. lia. Qed.

(** The prefixes in the order the walk meets them. *)
Lemma parents_linear p q r : q ∈ parents p -> r ∈ parents p -> q = r \/ q ∈ parents r \/ r ∈ parents q.
Proof.
  rewrite !elem_of_parents. intros (n & Hn & ->) (k & Hk & ->). destruct (lt_eq_lt_dec n k) as [[Hlt| ->]|Hlt]; [right; left|by left|right; right].
  - exists n. rewrite length_take, take_take. split; [lia|f_equal; lia].
  - exists k. rewrite length_take, take_take. split; [lia|f_equal; lia].
Qed.

Lemma is_dir_spec t p : is_dir t p = true <-> t !! p = Some NDir.
Proof. unfold is_dir. destruct (t !! p) as [[]|]; split; congruence. Qed.

Lemma dir_no_link t p : is_dir t p = true -> is_link t p = false.
Proof. unfold is_dir, is_link. by destruct (t !! p) as [[]|]. Qed.

Lemma lstat_from_Ok fault t cur segs n :
  lstat_from fault t cur segs = Ok n ->
  t !! (cur ++ segs)%list = Some n /\ is_link t (cur ++ segs)%list = false /\
  forall k, (1 <= k < length segs)%nat -> is_dir t (cur ++ take k segs)%list = true.
Proof.
  revert cur. induction segs as [|seg rest IH]; intros cur; [done|]. cbn. destruct (fault _); [done|].
  destruct (t !! (cur ++ [seg])%list) as [m|] eqn:E; [|done].
  assert (rest <> [] -> is_dir t (cur ++ [seg])%list = true -> lstat_from fault t (cur ++ [seg]) rest = Ok n ->
    t !! (cur ++ seg :: rest)%list = Some n /\ is_link t (cur ++ seg :: rest)%list = false /\
    forall k, (1 <= k < S (length rest))%nat -> is_dir t (cur ++ take k (seg :: rest))%list = true) as Hrec.
  { intros Hne Hd Hl. destruct (IH _ Hl) as (H1 & H2 & H3). rewrite <- app_assoc in H1, H2. split_and!; [done|done|].
    intros [|[|k]] Hk; [lia|done|]. specialize (H3 (S k)). rewrite <- app_assoc in H3. apply H3. lia. }
  destruct m as [|c mode|tgt|]; [| |done|]; (destruct rest as [|s2 rest]; [intros [= <-]; split_and!; [done|unfold is_link; by rewrite E|cbn; lia]|]);
    intros Hl; (destruct (is_dir t (cur ++ [seg])) eqn:Ed; [|done]); by apply Hrec.
Qed.

Lemma lstat_Ok fault t p n :
  lstatNoSymlink fault t p = Ok n -> t !! p = Some n /\ is_link t p = false /\ forall q, q ∈ parents p -> is_dir t q = true.
Proof.
  intros (H1 & H2 & H3)%lstat_from_Ok. split_and!; [done..|]. intros q (k & Hk & ->)%elem_of_parents. by apply H3.
Qed.

(** The walk stops at a missing prefix, below which a well-formed tree has nothing. *)
Lemma lstat_from_NotExist fault t cur segs :
  segs <> [] -> lstat_from fault t cur segs = Err NotExist ->
  exists k, (1 <= k <= length segs)%nat /\ t !! (cur ++ take k segs)%list = None /\
    forall j, (1 <= j < k)%nat -> is_dir t (cur ++ take j segs)%list = true.
Proof.
  revert cur. induction segs as [|seg rest IH]; intros cur Hne; [done|]. cbn. destruct (fault _); [done|].
  destruct (t !! (cur ++ [seg])%list) as [m|] eqn:E; [|intros _; exists 1%nat; split; [cbn; lia|split; [done|intros; lia]]].
  assert (forall s2 rest', rest = s2 :: rest' ->
    (if is_dir t (cur ++ [seg])%list then lstat_from fault t (cur ++ [seg]) rest else Err Refused) = Err NotExist ->
    exists k, (1 <= k <= S (length rest))%nat /\ t !! (cur ++ take k (seg :: rest))%list = None /\
      forall j, (1 <= j < k)%nat -> is_dir t (cur ++ take j (seg :: rest))%list = true) as Hrec.
  { intros s2 rest' -> Hl. destruct (is_dir t (cur ++ [seg])%list) eqn:Ed; [|done].
    destruct (IH (cur ++ [seg])%list ltac:(done) Hl) as (k & Hk & Hn & Hd). exists (S k). rewrite <- app_assoc in Hn. split; [cbn in *; lia|split; [done|]].
    intros [|[|j]] Hj; [lia|done|]. specialize (Hd (S j)). rewrite <- app_assoc in Hd. apply Hd. lia. }
  destruct m; destruct rest as [|s2 rest]; try done; intros Hl; by eapply Hrec.
Qed.

Lemma lstat_NotExist fault t p :
  wf_tree t -> p <> [] -> lstatNoSymlink fault t p = Err NotExist -> t !! p = None /\ forall q, q ∈ parents p -> is_link t q = false.
Proof.
  intros Hwf Hp (k & Hk & Hn & Hd)%lstat_from_NotExist; [|done]. cbn in Hn, Hd.
  assert (forall q, (q = p \/ q ∈ parents p) -> take k p = q \/ take k p ∈ parents q -> t !! q = None) as Hbelow.
  { intros q _ [<-|Hq]; [done|]. destruct (t !! q) eqn:E; [|done]. pose proof (Hwf q _ E _ Hq) as Hx. apply is_dir_spec in Hx. congruence. }
  split.
  - apply Hbelow; [by left|]. destruct (decide (k = length p)) as [->|]; [left; by apply take_ge|right]. apply elem_of_parents. exists k. split; [lia|done].
  - intros q (n & Hnn & ->)%elem_of_parents. destruct (decide (n < k)%nat) as [Hlt|Hge]; [apply dir_no_link, Hd; lia|].
    unfold is_link. rewrite (Hbelow (take n p)); [done|right; apply elem_of_parents; by exists n|].
    destruct (decide (n = k)) as [->|]; [by left|right]. apply elem_of_parents. exists k. rewrite length_take, take_take. split; [lia|f_equal; lia].
Qed.

Lemma mkdir_all_spec t ds t' :
  mkdir_all t ds = OsOk t' -> forall q, t' !! q = if decide (q ∈ ds) then Some NDir else t !! q.
Proof.
  revert t. induction ds as [|d ds IH]; intros t; cbn; [intros [= <-] q; destruct (decide (q ∈ [])); [set_solver|done]|].
  assert (forall u, (forall q, u !! q = if decide (q = d) then Some NDir else t !! q) -> mkdir_all u ds = OsOk t' ->
    forall q, t' !! q = if decide (q ∈ d :: ds) then Some NDir else t !! q) as Hrec.
  { intros u Hu Hm q. rewrite (IH u Hm q), Hu. destruct (decide (q ∈ ds)), (decide (q ∈ d :: ds)), (decide (q = d)); set_solver. }
  destruct (t !! d) as [[]|] eqn:E; try done; intros Hm.
  - apply (Hrec t); [|done]. intros q. destruct (decide (q = d)) as [->|]; done.
  - apply (Hrec (<[d := NDir]> t)); [|done]. intros q. rewrite lookup_insert. destruct (decide (d = q)), (decide (q = d)); congruence.
Qed.

Lemma mkdir_all_no_escape t ds : (forall q, q ∈ ds -> is_link t q = false) -> mkdir_all t ds <> OsEscape.
Proof.
  revert t. induction ds as [|d ds IH]; intros t Hl; cbn; [done|].
  destruct (t !! d) as [n|] eqn:E.
  - pose proof (Hl d ltac:(set_solver)) as Hd. unfold is_link in Hd. rewrite E in Hd. destruct n; try done. apply IH. set_solver.
  - apply IH. intros q Hq. unfold is_link. destruct (decide (d = q)) as [->|Hne]; [by rewrite lookup_insert_eq|].
    rewrite lookup_insert_ne by done. apply Hl. set_solver.
Qed.

Lemma mkdir_all_wf t p t' : wf_tree t -> mkdir_all t (parents p) = OsOk t' -> wf_tree t'.
Proof.
  intros Hwf Hm q n Hq r Hr. pose proof (mkdir_all_spec _ _ _ Hm) as Hs. apply is_dir_spec. rewrite Hs in Hq |- *.
  destruct (decide (r ∈ parents p)) as [|Hnr]; [done|]. destruct (decide (q ∈ parents p)) as [Hqp|_]; [by destruct Hnr; eapply parents_trans|].
  apply is_dir_spec. by eapply Hwf.
Qed.

(** A file may be put at a path below directories, in place of a file or of nothing. *)
Lemma insert_file_wf t p c m :
  wf_tree t -> (forall q, q ∈ parents p -> is_dir t q = true) -> is_dir t p = false -> wf_tree (<[p := NFile c m]> t).
Proof.
  intros Hwf Hpar Hp q n Hq r Hr. apply is_dir_spec. assert (is_dir t r = true) as Hd.
  { apply lookup_insert_Some in Hq as [[<- _]|[_ Hq]]; [by apply Hpar|by eapply Hwf]. }
  rewrite lookup_insert_ne; [by apply is_dir_spec|]. intros ->. congruence.
Qed.

Lemma delete_file_wf t p : wf_tree t -> is_dir t p = false -> wf_tree (delete p t).
Proof.
  intros Hwf Hp q n [Hne Hq]%lookup_delete_Some r Hr. pose proof (Hwf q n Hq r Hr) as Hd. apply is_dir_spec.
  rewrite lookup_delete_ne; [by apply is_dir_spec|]. intros ->. congruence.
Qed.

(** The mode of a file at [p] after a write that asks for [mode]. *)
Definition mode_at (t : tree) (p : list string) (mode : Z) : Z := match t !! p with Some (NFile _ m) => m | _ => mode end.

Lemma write_file_Ok t p c m t' :
  write_file t p c m = OsOk t' ->
  (forall q, q ∈ parents p -> is_dir t q = true) /\ is_dir t p = false /\ t' = <[p := NFile c (mode_at t p m)]> t.
Proof.
  unfold write_file, mode_at. destruct (_ || _); [done|]. destruct (forallb (is_dir t) (parents p)) eqn:Ef; [|done]. cbn [negb].
  intros Hw. split; [by apply forallb_elem|]. unfold is_dir. destruct (t !! p) as [[]|]; try done; by injection Hw as <-.
Qed.

Lemma write_file_no_escape t p c m :
  (forall q, q ∈ parents p -> is_link t q = false) -> is_link t p = false -> write_file t p c m <> OsEscape.
Proof.
  intros Hl Hp. unfold write_file. rewrite (proj2 (existsb_false_iff _ _) Hl), Hp. cbn. destruct (negb _); [done|]. by destruct (t !! p) as [[]|].
Qed.

Lemma segments_ne p : segments p <> [].
Proof. apply split_char_nonempty. Qed.

Lemma segments_inj p q : segments p = segments q -> p = q.
Proof. intros E. rewrite <- (join_split "/" p), <- (join_split "/" q). unfold segments in E. by rewrite E. Qed.

(** *** What an edit means *)

(** An edit's effect on the tree, path by path: the file it writes, the
    directories above it, the path it takes away, nothing else.  Written from
    the edit alone, without the system calls that carry it out. *)
Definition writes (e : Edit) : bool := negb (String.eqb (ed_Op e) OpDelete).

Definition writes_to (q : list string) (e : Edit) : bool := writes e && bool_decide (q = segments (ed_Path e)).

Definition spans (q : list string) (e : Edit) : bool := writes e && bool_decide (q ∈ parents (segments (ed_Path e))).

Definition takes_away (q : list string) (e : Edit) : bool :=
  (String.eqb (ed_Op e) OpDelete && bool_decide (q = segments (ed_Path e))) || (String.eqb (ed_Op e) OpRename && bool_decide (q = segments (ed_OldPath e))).

(** A new file gets the mode of new files, a changed or moved one keeps its own. *)
Definition mode_after (newMode : Z) (t : tree) (e : Edit) : Z :=
  if String.eqb (ed_Op e) OpAdd then newMode else mode_at t (segments (preimage e)) newMode.

Definition edit_meaning (newMode : Z) (e : Edit) (t : tree) (q : list string) : option node :=
  if writes_to q e then Some (NFile (ed_NewContent e) (mode_after newMode t e))
  else if spans q e then Some NDir
  else if takes_away q e then None
  else t !! q.

(** The effect of a whole set on the tree it starts from, whatever the order. *)
Definition edits_meaning (newMode : Z) (edits : list Edit) (t : tree) (q : list string) : option node :=
  match List.find (writes_to q) edits with
  | Some e => Some (NFile (ed_NewContent e) (mode_after newMode t e))
  | None =>
      if existsb (spans q) edits then Some NDir
      else if existsb (takes_away q) edits then None
      else t !! q
  end.

Lemma writes_to_spec q e : writes_to q e = true <-> writes e = true /\ q = segments (ed_Path e).
Proof. unfold writes_to. by rewrite andb_true_iff, bool_decide_eq_true. Qed.

Lemma spans_spec q e : spans q e = true <-> writes e = true /\ q ∈ parents (segments (ed_Path e)).
Proof. unfold spans. by rewrite andb_true_iff, bool_decide_eq_true. Qed.

Lemma takes_away_spec q e :
  takes_away q e = true <-> (ed_Op e = OpDelete /\ q = segments (ed_Path e)) \/ (ed_Op e = OpRename /\ q = segments (ed_OldPath e)).
Proof. unfold takes_away. by rewrite orb_true_iff, !andb_true_iff, !bool_decide_eq_true, !String.eqb_eq. Qed.

(** What takes away a path is the consumer of the file there. *)
Lemma takes_away_preimage q e : takes_away q e = true -> ed_Op e <> OpAdd /\ ed_Op e <> OpModify /\ q = segments (preimage e).
Proof. rewrite takes_away_spec. unfold preimage. intros [[-> ->] | [-> ->]]; done. Qed.

Lemma spans_not_written q e : spans q e = true -> writes_to q e = false.
Proof.
  rewrite spans_spec. intros [_ Hs]. apply not_true_iff_false. rewrite writes_to_spec. intros [_ ->]. by apply parents_irrefl in Hs.
Qed.

(** One edit made: from a tree that holds the file it pins, or nothing where it
    creates one, to the tree it means. *)
Record edit_made `{GoRuntime} (newMode : Z) (e : Edit) (t t' : tree) : Prop := {
  em_wf : wf_tree t';
  em_tree : forall q, t' !! q = edit_meaning newMode e t q;
  em_before : ed_Op e <> OpAdd -> exists c m, t !! segments (preimage e) = Some (NFile c m) /\ DigestBytes c = ed_BeforeDigest e;
  em_absent : ed_Op e = OpAdd \/ ed_Op e = OpRename -> t !! segments (ed_Path e) = None
}.

(** *** One edit *)

Section edits.
Context `{GoRuntime} (config : Config) (env : CandEnv).

Lemma make_parents_result fault t p r :
  wf_tree t -> (forall q, q ∈ parents p -> is_link t q = false) -> make_parents fault t p = r ->
  r <> Err Escaped /\
  forall t', r = Ok t' -> wf_tree t' /\ forall q, t' !! q = if decide (q ∈ parents p) then Some NDir else t !! q.
Proof.
  intros Hwf Hl <-. unfold make_parents. destruct (fault _); [done|]. pose proof (mkdir_all_no_escape t _ Hl) as Hne.
  destruct (mkdir_all t (parents p)) as [t'| |] eqn:E; cbn; try done. split; [done|]. intros t'' [= <-]. split; [by eapply mkdir_all_wf|].
  by apply mkdir_all_spec.
Qed.

Lemma writeCandidateFile_result fault mode t p c max r :
  wf_tree t -> (forall q, q ∈ parents p -> is_link t q = false) -> is_link t p = false ->
  writeCandidateFile fault mode t p c max = r ->
  r <> Err Escaped /\
  forall t', r = Ok t' -> wf_tree t' /\ t' !! p = Some (NFile c (mode_at t p mode)) /\
    forall q, q <> p -> t' !! q = if decide (q ∈ parents p) then Some NDir else t !! q.
Proof.
  intros Hwf Hl Hp <-. unfold writeCandidateFile. destruct (max <? len c); [done|]. destruct (negb _); [done|].
  destruct (make_parents_result fault t p _ Hwf Hl eq_refl) as [Hne Hmk]. destruct (make_parents fault t p) as [t1|e] eqn:Em; cbn [rbind].
  2: { split; [congruence|done]. }
  destruct (Hmk t1 eq_refl) as [Hwf1 Hs]. destruct (fault _); [done|].
  assert (forall q, q ∈ parents p -> is_link t1 q = false) as Hl1. { intros q Hq. unfold is_link. rewrite Hs. by destruct (decide (q ∈ parents p)). }
  assert (is_link t1 p = false) as Hp1. { unfold is_link in *. rewrite Hs. by destruct (decide (p ∈ parents p)). }
  pose proof (write_file_no_escape t1 p c mode Hl1 Hp1) as Hne2. destruct (write_file t1 p c mode) as [t'| |] eqn:Ew; cbn; try done.
  split; [done|]. intros t'' [= <-]. destruct (write_file_Ok _ _ _ _ _ Ew) as (Hpar & Hnd & ->). split_and!.
  - by apply insert_file_wf.
  - rewrite lookup_insert_eq. unfold mode_at. rewrite Hs. destruct (decide (p ∈ parents p)) as [Hx|]; [by apply parents_irrefl in Hx|done].
  - intros q Hq. rewrite lookup_insert_ne by done. apply Hs.
Qed.

(** A pre-image that was verified is a regular file below directories. *)
Lemma verifyPreimage_Ok i t path before :
  verifyPreimage config env i t path before = Ok tt ->
  (exists c m, t !! segments path = Some (NFile c m) /\ DigestBytes c = before) /\ (forall q, q ∈ parents (segments path) -> is_dir t q = true).
Proof.
  unfold verifyPreimage, readCandidateFile. destruct (lstatNoSymlink _ t (segments path)) as [n|] eqn:E; [|done].
  apply lstat_Ok in E as (El & _ & Hp). destruct n as [|c m| |]; try done. destruct (_ || _); [done|].
  destruct (bool_decide _) eqn:Eb; [|done]. apply bool_decide_eq_true in Eb. intros _. split; [by exists c, m|done].
Qed.

Lemma verifyPreimage_Err i t path before e : verifyPreimage config env i t path before = Err e -> e = ErrApply.
Proof. unfold verifyPreimage, readCandidateFile. repeat case_match; congruence. Qed.

Lemma require_absent_Ok i t path :
  wf_tree t -> require_absent env i t path = Ok tt ->
  t !! segments path = None /\ forall q, q ∈ parents (segments path) -> is_link t q = false.
Proof.
  intros Hwf. unfold require_absent. destruct (lstatNoSymlink _ t (segments path)) as [n|[]] eqn:E; [done| |done]. intros _.
  apply lstat_NotExist in E; [done|done|apply segments_ne].
Qed.

Lemma require_absent_Err i t path e : require_absent env i t path = Err e -> e = ErrApply.
Proof. unfold require_absent. repeat case_match; congruence. Qed.

Lemma dirs_no_link t p : (forall q, q ∈ parents p -> is_dir t q = true) -> forall q, q ∈ parents p -> is_link t q = false.
Proof. intros Hd q Hq. by apply dir_no_link, Hd. Qed.

Lemma file_not_dir t p c m : t !! p = Some (NFile c m) -> is_dir t p = false /\ is_link t p = false.
Proof. intros E. unfold is_dir, is_link. by rewrite E. Qed.

(** A step's result: no escape, and on success the edit made. *)
Definition good (t : tree) (e : Edit) (r : result candidate_error tree) : Prop :=
  r <> Err Escaped /\ forall t', r = Ok t' -> edit_made (ce_new_mode env) e t t'.

Lemma good_Err t e : good t e (Err ErrApply).
Proof. by split. Qed.

(** The write that ends an edit, from a tree that differs from [t0] by what the
    edit takes away and the directories it needs. *)
Lemma write_edit_good i t0 t e :
  wf_tree t -> writes e = true ->
  (forall q, q <> segments (ed_Path e) -> q ∉ parents (segments (ed_Path e)) -> t !! q = if takes_away q e then None else t0 !! q) ->
  mode_at t (segments (ed_Path e)) (ce_new_mode env) = mode_after (ce_new_mode env) t0 e ->
  (forall q, q ∈ parents (segments (ed_Path e)) -> is_link t q = false) -> is_link t (segments (ed_Path e)) = false ->
  (ed_Op e <> OpAdd -> exists c m, t0 !! segments (preimage e) = Some (NFile c m) /\ DigestBytes c = ed_BeforeDigest e) ->
  (ed_Op e = OpAdd \/ ed_Op e = OpRename -> t0 !! segments (ed_Path e) = None) ->
  good t0 e (write_edit config env i t e).
Proof.
  intros Hwf Hw Hf Hm Hl Hp Hb Ha. destruct (writeCandidateFile_result (ce_fault env i) (ce_new_mode env) t _ (ed_NewContent e) (cg_MaxFileBytes config) _ Hwf Hl Hp eq_refl)
    as [Hne Hok]. split; [done|]. intros t' E. destruct (Hok t' E) as (Hwf' & Hfile & Hs). split; [done| |done|done].
  intros q. unfold edit_meaning, writes_to, spans. rewrite Hw. cbn [andb]. destruct (bool_decide_reflect (q = segments (ed_Path e))) as [->|Hq].
  { by rewrite Hfile, Hm. }
  rewrite Hs by done. destruct (decide _) as [Hin|Hout]; [by rewrite bool_decide_eq_true_2|]. rewrite bool_decide_eq_false_2 by done. by apply Hf.
Qed.

Lemma delete_good i t e :
  wf_tree t -> ed_Op e = OpDelete -> verifyPreimage config env i t (ed_Path e) (ed_BeforeDigest e) = Ok tt ->
  good t e (if ce_fault env i (CallRemove (segments (ed_Path e))) then Err ErrApply else of_os (remove t (segments (ed_Path e)))).
Proof.
  intros Hwf Hop ((c & m & Ep & Hb) & Hd)%verifyPreimage_Ok. destruct (ce_fault _ _ _); [apply good_Err|]. unfold remove.
  rewrite (proj2 (existsb_false_iff _ _) (dirs_no_link t _ Hd)), Ep. cbn. split; [done|]. intros t' [= <-]. split.
  - apply delete_file_wf; [done|]. by eapply file_not_dir.
  - intros q. unfold edit_meaning, writes_to, spans, takes_away, writes. rewrite Hop. cbn. rewrite orb_false_r.
    destruct (bool_decide_reflect (q = segments (ed_Path e))) as [->|Hq]; [apply lookup_delete_eq|by rewrite lookup_delete_ne].
  - intros _. unfold preimage. rewrite Hop. by exists c, m.
  - rewrite Hop. by intros [].
Qed.

(** The tree after the move of [p] to [q], below the directories made for it. *)
Lemma renamed_tree (t t1 : tree) (p q : list string) (c : string) (m : Z) :
  wf_tree t1 -> p <> q -> t1 !! p = Some (NFile c m) -> t1 !! q = None ->
  (forall r, r ∈ parents q -> is_dir t1 r = true) -> (forall r, t1 !! r = if decide (r ∈ parents q) then Some NDir else t !! r) ->
  let t2 := <[q := NFile c m]> (delete p t1) in
  wf_tree t2 /\ (forall r, r ∈ parents q -> is_link t2 r = false) /\
  (forall r, r <> q -> r ∉ parents q -> t2 !! r = if decide (r = p) then None else t !! r).
Proof.
  intros Hwf1 Hpq Ep Eq Hq1 Hs t2. destruct (file_not_dir t1 p c m Ep) as [Hnd _].
  assert (forall r, r ∈ parents q -> r <> p /\ r <> q) as Hrq.
  { intros r Hr. split; [|intros ->; by apply parents_irrefl in Hr]. intros ->. rewrite (Hq1 p Hr) in Hnd. done. }
  split_and!.
  - apply insert_file_wf; [by apply delete_file_wf| |].
    + intros r Hr. destruct (Hrq r Hr). apply is_dir_spec. rewrite lookup_delete_ne by done. by apply is_dir_spec, Hq1.
    + unfold is_dir. rewrite lookup_delete_ne by done. by rewrite Eq.
  - intros r Hr. destruct (Hrq r Hr). unfold is_link, t2. rewrite lookup_insert_ne, lookup_delete_ne by done. by apply dir_no_link, Hq1.
  - intros r H1 H2. unfold t2. rewrite lookup_insert_ne by done. destruct (decide (r = p)) as [->|Hrp]; [apply lookup_delete_eq|].
    rewrite lookup_delete_ne, Hs by done. by destruct (decide (r ∈ parents q)).
Qed.

Lemma rename_good i t e :
  wf_tree t -> ed_Op e = OpRename ->
  verifyPreimage config env i t (ed_OldPath e) (ed_BeforeDigest e) = Ok tt -> require_absent env i t (ed_Path e) = Ok tt ->
  good t e (do t1 <- make_parents (ce_fault env i) t (segments (ed_Path e)) ;
            do t2 <- (if ce_fault env i (CallRename (segments (ed_OldPath e)) (segments (ed_Path e))) then Err ErrApply
                      else of_os (rename t1 (segments (ed_OldPath e)) (segments (ed_Path e)))) ;
            write_edit config env i t2 e).
Proof.
  intros Hwf Hop ((c & m & Eo & Hb) & Hd)%verifyPreimage_Ok (En & Hl)%require_absent_Ok; [|done].
  destruct (make_parents_result (ce_fault env i) t _ _ Hwf Hl eq_refl) as [Hne Hmk].
  destruct (make_parents (ce_fault env i) t (segments (ed_Path e))) as [t1|err]; cbn [rbind]; [|by split; [congruence|]].
  destruct (Hmk t1 eq_refl) as [Hwf1 Hs]. destruct (ce_fault env i (CallRename _ _)); [apply good_Err|]. unfold rename.
  set (p := segments (ed_OldPath e)) in *. set (q := segments (ed_Path e)) in *.
  assert (forall r, r ∈ parents q -> is_dir t1 r = true) as Hq1. { intros r Hr. apply is_dir_spec. rewrite Hs. by destruct (decide (r ∈ parents q)). }
  assert (forall r, r ∈ parents p -> is_dir t1 r = true) as Hp1.
  { intros r Hr. apply is_dir_spec. rewrite Hs. destruct (decide _); [done|]. by apply is_dir_spec, Hd. }
  rewrite (proj2 (existsb_false_iff _ _) (dirs_no_link t1 _ Hp1)), (proj2 (existsb_false_iff _ _) (dirs_no_link t1 _ Hq1)). cbn [orb].
  rewrite (proj2 (forallb_elem _ _) Hq1). cbn [negb].
  assert (t1 !! q = None) as En1. { rewrite Hs. destruct (decide (q ∈ parents q)) as [Hx|]; [by apply parents_irrefl in Hx|done]. }
  destruct (t1 !! p) as [[|c1 m1| |]|] eqn:Ep1; cbn [of_os rbind]; try apply good_Err. rewrite En1. cbn [of_os rbind].
  assert (p <> q) as Hpq by congruence.
  assert (t !! p = Some (NFile c1 m1)) as Ep by (rewrite Hs in Ep1; by destruct (decide (p ∈ parents q))). assert (m1 = m) as -> by congruence.
  destruct (renamed_tree t t1 p q c1 m Hwf1 Hpq Ep1 En1 Hq1 Hs) as (Hwf2 & Hl2 & Hs2).
  assert (preimage e = ed_OldPath e) as Hpre by (unfold preimage; by rewrite Hop).
  apply write_edit_good; try done.
  - unfold writes. by rewrite Hop.
  - intros r H1 H2. rewrite Hs2 by done. unfold takes_away. rewrite Hop. cbn. by destruct (decide (r = p)); case_bool_decide.
  - unfold mode_after, mode_at. rewrite Hop, Hpre. fold p q. by rewrite lookup_insert_eq, Ep.
  - unfold is_link. by rewrite lookup_insert_eq.
  - intros _. rewrite Hpre. by exists c, m.
Qed.

Lemma add_good i t e :
  wf_tree t -> ed_Op e = OpAdd -> require_absent env i t (ed_Path e) = Ok tt -> good t e (write_edit config env i t e).
Proof.
  intros Hwf Hop (En & Hl)%require_absent_Ok; [|done]. apply write_edit_good; try done.
  - unfold writes. by rewrite Hop.
  - intros q _ _. unfold takes_away. by rewrite Hop.
  - unfold mode_after, mode_at. by rewrite Hop, En.
  - unfold is_link. by rewrite En.
Qed.

Lemma modify_good i t e :
  wf_tree t -> ed_Op e = OpModify -> verifyPreimage config env i t (ed_Path e) (ed_BeforeDigest e) = Ok tt ->
  good t e (write_edit config env i t e).
Proof.
  intros Hwf Hop ((c & m & Ep & Hb) & Hd)%verifyPreimage_Ok. assert (preimage e = ed_Path e) as Hpre by (unfold preimage; by rewrite Hop).
  apply write_edit_good; try done.
  - unfold writes. by rewrite Hop.
  - intros q _ _. unfold takes_away. by rewrite Hop.
  - unfold mode_after. by rewrite Hop, Hpre.
  - by apply dirs_no_link.
  - by eapply file_not_dir.
  - intros _. rewrite Hpre. by exists c, m.
  - rewrite Hop. by intros [].
Qed.

(** One edit never leaves the candidate, and does what it means. *)
Lemma applyOne_good i t e : wf_tree t -> good t e (applyOne config env i t e).
Proof.
  intros Hwf. unfold applyOne. destruct (String.eqb_spec (ed_Op e) OpAdd) as [Hop|_].
  { destruct (require_absent env i t (ed_Path e)) as [[]|err] eqn:E; cbn [rbind]; [by apply add_good|apply require_absent_Err in E as ->; apply good_Err]. }
  destruct (String.eqb_spec (ed_Op e) OpModify) as [Hop|_].
  { destruct (verifyPreimage config env i t (ed_Path e) (ed_BeforeDigest e)) as [[]|err] eqn:E; cbn [rbind];
      [by apply modify_good|apply verifyPreimage_Err in E as ->; apply good_Err]. }
  destruct (String.eqb_spec (ed_Op e) OpDelete) as [Hop|_].
  { destruct (verifyPreimage config env i t (ed_Path e) (ed_BeforeDigest e)) as [[]|err] eqn:E; cbn [rbind];
      [by apply delete_good|apply verifyPreimage_Err in E as ->; apply good_Err]. }
  destruct (String.eqb_spec (ed_Op e) OpRename) as [Hop|_]; [|apply good_Err].
  destruct (verifyPreimage config env i t (ed_OldPath e) (ed_BeforeDigest e)) as [[]|err] eqn:E; cbn [rbind]; [|apply verifyPreimage_Err in E as ->; apply good_Err].
  destruct (require_absent env i t (ed_Path e)) as [[]|err] eqn:E2; cbn [rbind]; [|apply require_absent_Err in E2 as ->; apply good_Err].
  by apply rename_good.
Qed.
End edits.

(** *** Edit sets *)

(** The edits made one after the other. *)
Fixpoint edits_made `{GoRuntime} (newMode : Z) (edits : list Edit) (t t' : tree) : Prop :=
  match edits with
  | [] => t' = t
  | e :: rest => exists t1, edit_made newMode e t t1 /\ edits_made newMode rest t1 t'
  end.

Section chain.
Context `{GoRuntime} (newMode : Z).

Lemma edits_made_app l1 l2 t t' : edits_made newMode (l1 ++ l2) t t' <-> exists t1, edits_made newMode l1 t t1 /\ edits_made newMode l2 t1 t'.
Proof.
  revert t. induction l1 as [|e l1 IH]; intros t; cbn; [split; [by exists t|by intros (? & -> & ?)]|]. setoid_rewrite IH. naive_solver.
Qed.

(** Files appear only where an edit writes one. *)
Lemma file_kept_back edits t t' q c m :
  edits_made newMode edits t t' -> existsb (writes_to q) edits = false -> t' !! q = Some (NFile c m) -> t !! q = Some (NFile c m).
Proof.
  revert t. induction edits as [|e edits IH]; intros t; cbn; [by intros ->|]. intros (t1 & He & Hr) [Hw Hws]%orb_false_iff Hf.
  specialize (IH t1 Hr Hws Hf). rewrite (em_tree _ _ _ _ He) in IH. unfold edit_meaning in IH. rewrite Hw in IH. by destruct (spans q e), (takes_away q e).
Qed.

(** Directories stay: an edit takes away or writes over files only. *)
Lemma dir_kept edits t t' q : edits_made newMode edits t t' -> t !! q = Some NDir -> t' !! q = Some NDir.
Proof.
  revert t. induction edits as [|e edits IH]; intros t; cbn; [by intros ->|]. intros (t1 & He & Hr) Hd. apply (IH t1 Hr).
  rewrite (em_tree _ _ _ _ He). unfold edit_meaning. destruct (writes_to q e) eqn:Ew.
  - apply writes_to_spec in Ew as [Hw ->]. exfalso. destruct (decide (ed_Op e = OpAdd \/ ed_Op e = OpRename)) as [Ho|Ho].
    + pose proof (em_absent _ _ _ _ He Ho). congruence.
    + destruct (em_before _ _ _ _ He) as (c & m & Hf & _); [tauto|]. unfold preimage in Hf. destruct (String.eqb_spec (ed_Op e) OpRename); [tauto|congruence].
  - destruct (spans q e); [done|]. destruct (takes_away q e) eqn:Et; [|done]. apply takes_away_preimage in Et as (Ho & _ & ->).
    destruct (em_before _ _ _ _ He Ho) as (c & m & Hf & _). congruence.
Qed.

Lemma none_kept edits t t' q :
  edits_made newMode edits t t' -> existsb (writes_to q) edits = false -> existsb (spans q) edits = false -> t !! q = None -> t' !! q = None.
Proof.
  revert t. induction edits as [|e edits IH]; intros t; cbn; [by intros ->|]. intros (t1 & He & Hr) [Hw Hws]%orb_false_iff [Hp Hps]%orb_false_iff Hn.
  apply (IH t1 Hr Hws Hps). rewrite (em_tree _ _ _ _ He). unfold edit_meaning. rewrite Hw, Hp, Hn. by destruct (takes_away q e).
Qed.

(** A node goes only where an edit takes it away. *)
Lemma some_kept edits t t' q : edits_made newMode edits t t' -> existsb (takes_away q) edits = false -> is_Some (t !! q) -> is_Some (t' !! q).
Proof.
  revert t. induction edits as [|e edits IH]; intros t; cbn; [by intros ->|]. intros (t1 & He & Hr) [Ht Hts]%orb_false_iff Hn.
  apply (IH t1 Hr Hts). rewrite (em_tree _ _ _ _ He). unfold edit_meaning. rewrite Ht. by destruct (writes_to q e), (spans q e).
Qed.

Lemma spanned_is_dir edits t t' q : edits_made newMode edits t t' -> existsb (spans q) edits = true -> t' !! q = Some NDir.
Proof.
  revert t. induction edits as [|e edits IH]; intros t; cbn; [done|]. intros (t1 & He & Hr) [Hp|Hps]%orb_true_iff; [|by eapply IH].
  eapply dir_kept; [exact Hr|]. rewrite (em_tree _ _ _ _ He). unfold edit_meaning. by rewrite (spans_not_written _ _ Hp), Hp.
Qed.

(** Away from the files written and the directories above them. *)
Lemma unwritten edits t t' q :
  edits_made newMode edits t t' -> existsb (writes_to q) edits = false -> existsb (spans q) edits = false ->
  t' !! q = if existsb (takes_away q) edits then None else t !! q.
Proof.
  revert t. induction edits as [|e edits IH]; intros t; cbn; [by intros ->|]. intros (t1 & He & Hr) [Hw Hws]%orb_false_iff [Hp Hps]%orb_false_iff.
  pose proof (em_tree _ _ _ _ He q) as Ht. unfold edit_meaning in Ht. rewrite Hw, Hp in Ht. destruct (takes_away q e); cbn [orb].
  - by eapply none_kept.
  - rewrite <- Ht. by apply IH.
Qed.

(** No two edits of the set end at the same path, and every file written is
    still there at the end. *)
Context (edits : list Edit) (t t' : tree).
Hypothesis (made : edits_made newMode edits t t') (distinct : NoDup (ed_Path <$> edits))
  (standing : forall e, e ∈ edits -> writes e = true -> exists c m, t' !! segments (ed_Path e) = Some (NFile c m)).

Lemma other_writers l1 e l2 : edits = (l1 ++ e :: l2)%list -> existsb (writes_to (segments (ed_Path e))) (l1 ++ l2) = false.
Proof.
  intros E. apply existsb_false_iff. intros e' He'. apply not_true_iff_false. rewrite writes_to_spec. intros [_ Hs%segments_inj].
  rewrite E, fmap_app, fmap_cons, NoDup_app, NoDup_cons in distinct. destruct distinct as (_ & Hd & Hn & _).
  apply elem_of_app in He' as [Hin|Hin]; [apply (Hd (ed_Path e')); [by apply list_elem_of_fmap_2|rewrite Hs; by left]|].
  apply Hn. rewrite Hs. by apply list_elem_of_fmap_2.
Qed.

(** The file an edit consumes is the one the set started from. *)
Lemma consumed_from_start l1 e l2 t1 :
  edits = (l1 ++ e :: l2)%list -> edits_made newMode l1 t t1 -> edits_made newMode (e :: l2) t1 t' -> ed_Op e <> OpAdd ->
  exists c m, t !! segments (preimage e) = Some (NFile c m) /\ t1 !! segments (preimage e) = Some (NFile c m) /\ DigestBytes c = ed_BeforeDigest e.
Proof.
  intros E H1 (t2 & He & H2) Hop. destruct (em_before _ _ _ _ He Hop) as (c & m & Hf & Hd). exists c, m. split_and!; [|done|done].
  eapply file_kept_back; [exact H1| |exact Hf]. apply existsb_false_iff. intros e' He'. apply not_true_iff_false. intros [Hw Hs]%writes_to_spec.
  destruct (list_elem_of_split l1 e' He') as (k1 & k2 & ->). rewrite <- app_assoc in E. cbn in E.
  pose proof (other_writers k1 e' (k2 ++ e :: l2) E) as Ho. rewrite <- Hs, app_assoc, existsb_app in Ho. apply orb_false_iff in Ho as [_ Ho].
  cbn in Ho. apply orb_false_iff in Ho as [Hoe Ho2].
  destruct (standing e') as (c' & m' & Hst); [rewrite E; apply elem_of_app; right; by left|done|]. rewrite <- Hs in Hst.
  pose proof (file_kept_back _ _ _ _ _ _ H2 Ho2 Hst) as Hf2. rewrite (em_tree _ _ _ _ He) in Hf2. unfold edit_meaning in Hf2. rewrite Hoe in Hf2.
  destruct (spans _ e); [done|]. destruct (decide (ed_Op e = OpRename)) as [Er|Er].
  { rewrite (proj2 (takes_away_spec _ e)) in Hf2; [done|]. right. unfold preimage. by rewrite Er. }
  unfold preimage in Hs. rewrite (proj2 (String.eqb_neq _ _) Er) in Hs. apply segments_inj in Hs. rewrite E, fmap_app, fmap_cons, fmap_app, fmap_cons, Hs, NoDup_app, NoDup_cons in distinct.
  destruct distinct as (_ & _ & Hn & _). apply Hn. apply elem_of_app. right. by left.
Qed.

(** The tree at the end is the meaning of the set on the tree at the start. *)
Lemma edits_made_meaning q : t' !! q = edits_meaning newMode edits t q.
Proof.
  unfold edits_meaning. destruct (List.find (writes_to q) edits) as [e|] eqn:Ef.
  - apply find_some in Ef as [Hin%list_elem_of_In [Hw ->]%writes_to_spec]. destruct (list_elem_of_split _ _ Hin) as (l1 & l2 & E).
    pose proof made as Hmade. rewrite E in Hmade. apply edits_made_app in Hmade as (t1 & H1 & H2). pose proof H2 as (t2 & He & H3).
    pose proof (other_writers l1 e l2 E) as Ho. rewrite existsb_app in Ho. apply orb_false_iff in Ho as [_ Ho].
    destruct (standing e Hin Hw) as (c & m & Hst). rewrite Hst. pose proof (file_kept_back _ _ _ _ _ _ H3 Ho Hst) as Hf.
    rewrite (em_tree _ _ _ _ He) in Hf. unfold edit_meaning in Hf. rewrite (proj2 (writes_to_spec _ e)) in Hf by done. injection Hf as <- <-.
    do 2 f_equal. unfold mode_after. destruct (String.eqb_spec (ed_Op e) OpAdd) as [|Hop]; [done|].
    destruct (consumed_from_start l1 e l2 t1 E H1 H2 Hop) as (c0 & m0 & Ht & Ht1 & _). unfold mode_at. by rewrite Ht, Ht1.
  - assert (existsb (writes_to q) edits = false) as Hn.
    { apply existsb_false_iff. intros e He. apply (find_none _ _ Ef). by apply list_elem_of_In. }
    destruct (existsb (spans q) edits) eqn:Es; [by eapply spanned_is_dir|by apply unwritten].
Qed.

Lemma consumed_at_start e : e ∈ edits -> ed_Op e <> OpAdd ->
  exists c m, t !! segments (preimage e) = Some (NFile c m) /\ DigestBytes c = ed_BeforeDigest e.
Proof.
  intros (l1 & l2 & E)%list_elem_of_split Hop. pose proof made as Hmade. rewrite E in Hmade. apply edits_made_app in Hmade as (t1 & H1 & H2).
  destruct (consumed_from_start l1 e l2 t1 E H1 H2 Hop) as (c & m & Ht & _ & Hd). by exists c, m.
Qed.

Lemma created_at_start e : e ∈ edits -> ed_Op e = OpAdd \/ ed_Op e = OpRename ->
  t !! segments (ed_Path e) = None \/ existsb (takes_away (segments (ed_Path e))) edits = true.
Proof.
  intros (l1 & l2 & E)%list_elem_of_split Hop. pose proof made as Hmade. rewrite E in Hmade. apply edits_made_app in Hmade as (t1 & H1 & t2 & He & _).
  pose proof (em_absent _ _ _ _ He Hop) as Hn. destruct (t !! segments (ed_Path e)) eqn:Et; [right|by left]. rewrite E, existsb_app. apply orb_true_iff. left.
  destruct (existsb _ l1) eqn:Ex; [done|]. destruct (some_kept l1 t t1 _ H1 Ex) as [n' Hn']; [by eexists|congruence].
Qed.
End chain.

(** [t'] is [t] with exactly the edits made: every edit authorised in its turn;
    every file consumed was there with the digest its edit pins, every path
    created was free or is freed by the set; the carried bytes have the digest
    the edit declares; and at every path the tree is what the set means there. *)
Record edited `{GoRuntime} (newMode : Z) (auth : Authorizer) (edits : list Edit) (t t' : tree) : Prop := {
  ed_authorized : forall k e, edits !! k = Some e -> auth k e = Ok tt;
  ed_consumed : forall e, e ∈ edits -> ed_Op e <> OpAdd ->
    exists c m, t !! segments (preimage e) = Some (NFile c m) /\ DigestBytes c = ed_BeforeDigest e;
  ed_created : forall e, e ∈ edits -> ed_Op e = OpAdd \/ ed_Op e = OpRename ->
    t !! segments (ed_Path e) = None \/ existsb (takes_away (segments (ed_Path e))) edits = true;
  ed_digest : forall e, e ∈ edits -> ed_Op e <> OpDelete -> DigestBytes (ed_NewContent e) = ed_AfterDigest e;
  ed_tree : forall q, t' !! q = edits_meaning newMode edits t q;
  ed_wf : wf_tree t'
}.

Section sets.
Context `{GoRuntime} (config : Config) (env : CandEnv).

Lemma apply_edits_result auth i t edits n res :
  wf_tree t -> apply_edits config env auth i t edits = (n, res) ->
  (i <= n <= i + length edits)%nat /\ res <> Err Escaped /\
  forall t', res = Ok t' -> n = (i + length edits)%nat /\ wf_tree t' /\ edits_made (ce_new_mode env) edits t t' /\
    (forall k e, edits !! k = Some e -> auth (i + k)%nat e = Ok tt).
Proof.
  revert i t. induction edits as [|e edits IH]; intros i t Hwf; cbn [apply_edits length].
  { intros [= <- <-]. split; [lia|]. split; [done|]. intros t' [= <-]. split; [lia|]. by split_and!. }
  destruct (ce_cancelled env i); [intros [= <- <-]; split; [lia|done]|].
  destruct (auth i e) as [[]|d] eqn:Ea; [|intros [= <- <-]; split; [lia|done]].
  destruct (applyOne_good config env i t e Hwf) as [Hne Hok]. destruct (applyOne config env i t e) as [t1|err]; [|intros [= <- <-]; split; [lia|split; [congruence|done]]].
  pose proof (Hok t1 eq_refl) as Hm. intros Hrec. destruct (IH (S i) t1 (em_wf _ _ _ _ Hm) Hrec) as (Hn & Hesc & Hres). split; [lia|]. split; [done|].
  intros t' ->. destruct (Hres t' eq_refl) as (-> & Hwf' & Hf & Hauth). split; [lia|]. split_and!; [done|by exists t1|].
  intros [|k] e'; cbn; [intros [= <-]; by rewrite Nat.add_0_r|]. intros Hk. rewrite Nat.add_succ_r. by apply Hauth.
Qed.

Lemma inventory_no_escape modeText x mf mt total l acc : inventory_from modeText x mf mt total l acc <> Err Escaped.
Proof.
  revert total acc. induction l as [|[p n] l IH]; intros total acc; cbn; [done|]. destruct (_ && _); [apply IH|]. destruct n; repeat case_match; try done; apply IH.
Qed.

Lemma seal_no_escape t : seal_postimage config env t <> Err Escaped.
Proof.
  unfold seal_postimage, PostImageDigest, inventory. repeat case_match; try done.
  pose proof (inventory_no_escape (ce_mode_text env) ".git" (cg_MaxFiles config) (cg_MaxTotalBytes config) 0 (walk_order t) []) as Hn.
  destruct (inventory_from _ _ _ _ _ _ _); cbn; [done|congruence].
Qed.

Lemma postimage_ok_spec n t e :
  postimage_ok config env n t e = true -> ed_Op e <> OpDelete ->
  exists c m, t !! segments (ed_Path e) = Some (NFile c m) /\ DigestBytes c = ed_AfterDigest e.
Proof.
  unfold postimage_ok, readCandidateFile. intros Hp Hne. rewrite (proj2 (String.eqb_neq _ _) Hne) in Hp. cbn [orb] in Hp.
  destruct (lstatNoSymlink _ t _) as [k|] eqn:E; [|done]. apply lstat_Ok in E as (El & _). destruct k as [|c m| |]; try done.
  destruct (_ || _); [done|]. apply bool_decide_eq_true in Hp. by exists c, m.
Qed.

Lemma applyAll_result t r n res :
  wf_tree t -> Validate (ar_Edits r) = Ok tt -> applyAll config env t r = (n, res) ->
  (n <= length (ar_Edits r))%nat /\ res <> Err Escaped /\
  forall t' digest oid, res = Ok (t', digest, oid) ->
    n = length (ar_Edits r) /\ edited (ce_new_mode env) (ar_Authorizer r) (ar_Edits r) t t' /\ PostImageDigest (ce_mode_text env) config t' = Ok digest.
Proof.
  intros Hwf (Hg & Hnd)%Validate_Ok. unfold applyAll. destruct (apply_edits config env (ar_Authorizer r) 0 t (ar_Edits r)) as [k res1] eqn:E.
  destruct (apply_edits_result _ _ _ _ _ _ Hwf E) as (Hk & Hne & Hok). intros [= <- <-]. split; [lia|].
  destruct res1 as [t1|err]; cbn [rbind]; [|split; [congruence|done]]. destruct (Hok t1 eq_refl) as (-> & Hwf1 & Hmade & Hauth).
  destruct (forallb _ _) eqn:Ep; cbn [negb]; [|done]. pose proof (seal_no_escape t1) as Hs.
  assert (forall e, e ∈ ar_Edits r -> writes e = true -> exists c m, t1 !! segments (ed_Path e) = Some (NFile c m)) as Hst.
  { intros e He Hw. rewrite forallb_elem in Ep. destruct (postimage_ok_spec _ _ _ (Ep e He)) as (c & m & Hf & _); [|by exists c, m].
    unfold writes in Hw. intros Hop. by rewrite Hop in Hw. }
  destruct (seal_postimage config env t1) as [[d o]|err] eqn:Es; cbn [rbind]; [|split; [congruence|done]]. split; [done|].
  intros t' digest oid [= <- <- <-]. split; [done|]. split.
  - split; [done| | | | |done].
    + intros e. by eapply consumed_at_start.
    + intros e. by eapply created_at_start.
    + intros e He. rewrite Forall_forall in Hg. apply good_edit_digest. by apply Hg.
    + intros q. by apply edits_made_meaning.
  - unfold seal_postimage in Es. repeat case_match; try done. cbn in Es. by destruct (PostImageDigest _ _ _); [injection Es as <- _|].
Qed.
End sets.

Lemma remove_dir_ne rm id id' dirs : id' <> id -> remove_dir rm id dirs !! id' = dirs !! id'.
Proof. intros Hne. unfold remove_dir. destruct rm, (dirs !! id); by rewrite ?lookup_delete_ne, ?lookup_insert_ne. Qed.

Lemma remove_dir_gone id dirs : remove_dir Removed id dirs !! id = None.
Proof. apply lookup_delete_eq. Qed.

(** ** Properties *)

(** C8. A first application is all or nothing and stays inside its candidate.
    It returns an applied outcome, and then every edit was authorised at its own
    turn, every file consumed had the digest its edit pins, and the candidate is
    at every path what the set of edits means there: written files with their
    bytes and modes, the directories above them, deleted and moved files gone,
    everything else as it was.  Or it returns an error and a rejected outcome
    with its rollback receipt, and the directory is gone when its removal
    succeeds (the code ignores a failing removal).  Or it refuses, for a
    malformed request or an invalid set on a candidate in flight, and changes
    nothing.  No system call goes through a link out of the directory, and no
    other candidate is touched. *)
Theorem candidate_all_or_nothing `{GoRuntime} config env rm c r t s :
  wf_tree t -> st_seen s !! replayKey r = None ->
  let '(s', (out, err)) := Apply config env rm c r t s in
  (forall id, id <> cd_ID c -> st_dirs s' !! id = st_dirs s !! id) /\
  match err, out with
  | None, None => False
  | None, Some o => oc_State o = StateApplied /\ oc_Rollback o = None /\ exists t', st_dirs s' !! cd_ID c = Some t' /\
      edited (ce_new_mode env) (ar_Authorizer r) (ar_Edits r) t t' /\ PostImageDigest (ce_mode_text env) config t' = Ok (oc_PostImageDigest o)
  | Some e, Some o => e <> Escaped /\ oc_State o = StateRejected /\ (rm = Removed -> st_dirs s' !! cd_ID c = None) /\
      exists rb, oc_Rollback o = Some rb /\ (Validate (ar_Edits r) = Ok tt ->
        0 <= rb_DiscardedEdits rb <= Z.of_nat (length (ar_Edits r)) /\ rb_FailedEditIndex rb = rb_DiscardedEdits rb)
  | Some e, None => s' = s /\ ((request_ok r = false /\ e = ErrInvalidInput) \/
      (Validate (ar_Edits r) <> Ok tt /\ candidateInFlight s (cd_ID c) = true /\ e = ErrConflict))
  end.
Proof.
  intros Hwf Hs. unfold Apply, apply_claim. destruct (request_ok r); cbn [negb]; [|split; [done|]; by split; [|left]].
  destruct (Validate (ar_Edits r)) as [[]|] eqn:Hv.
  2: { destruct (candidateInFlight s (cd_ID c)) eqn:Ef; [split; [done|]; split; [done|by right]|]. split; [intros id; apply remove_dir_ne|].
       split_and!; [done..|intros ->; apply remove_dir_gone|]. eexists. by split. }
  rewrite Hs. unfold apply_finish. cbv zeta.
  destruct (applyAll config env t r) as [n res] eqn:E. destruct (applyAll_result config env t r n res Hwf Hv E) as (Hn & Hne & Hok).
  destruct res as [[[t' d] oid]|e]; cbn.
  - split; [intros id Hid; by rewrite lookup_insert_ne|]. destruct (Hok t' d oid eq_refl) as (_ & He & Hd). split_and!; [done..|].
    exists t'. split_and!; [by rewrite lookup_insert_eq|done|done].
  - split; [intros id; apply remove_dir_ne|]. split_and!; [congruence|done|intros ->; apply remove_dir_gone|]. eexists. split; [done|]. cbn. lia.
Qed.

(** An exact replay executes nothing: it returns the recorded outcome,
    leaves the recorded candidate as it is and discards the fresh one; a request
    that differs under the same key is refused. *)
Theorem candidate_replay_is_recorded `{GoRuntime} config env rm c r t s recorded o :
  request_ok r = true -> Validate (ar_Edits r) = Ok tt -> st_seen s !! replayKey r = Some recorded -> ro_outcome recorded = Some o ->
  let '(s', (out, err)) := Apply config env rm c r t s in
  st_seen s' = st_seen s /\ (forall id, id = oc_CandidateID o \/ id <> cd_ID c -> st_dirs s' !! id = st_dirs s !! id) /\
  (out, err) = if bool_decide (ro_requestDigest recorded = digestApplyRequest (cd_BaseGitOID c) r) then (Some o, None) else (None, Some ErrConflict).
Proof.
  intros Hr Hv Hs Ho. unfold Apply, apply_claim. rewrite Hr, Hv, Hs, Ho. cbn [negb]. destruct (bool_decide _); cbn [negb]; (split; [done|]; split; [|done]);
    cbn; intros id Hid; (destruct (String.eqb_spec (cd_ID c) (oc_CandidateID o)) as [Ec|Ec]; cbn [negb andb]; [done|]);
    (destruct (negb (String.eqb (cd_ID c) (ro_inFlightCandidate recorded))); [|done]); apply remove_dir_ne; destruct Hid; congruence.
Qed.

(** A removal can reach a candidate another application is writing: while a
    candidate is in flight under one key, a replay of a different, finished key
    that carries the same candidate removes its directory. *)
Theorem replay_removes_in_flight_candidate `{GoRuntime} c r1 r2 s recorded o :
  request_ok r1 = true -> request_ok r2 = true -> Validate (ar_Edits r1) = Ok tt -> Validate (ar_Edits r2) = Ok tt ->
  st_seen s !! replayKey r1 = None -> st_seen s !! replayKey r2 = Some recorded -> ro_outcome recorded = Some o ->
  oc_CandidateID o <> cd_ID c -> ro_inFlightCandidate recorded = "" -> cd_ID c <> "" ->
  let s1 := fst (apply_claim Removed c r1 s) in
  let s2 := fst (apply_claim Removed c r2 s1) in
  candidateInFlight s2 (cd_ID c) = true /\ st_dirs s2 !! cd_ID c = None.
Proof.
  intros R1 R2 V1 V2 S1 S2 Ho Hc Hf Hid. cbv zeta. unfold apply_claim at 2 4. rewrite R1, V1, S1. cbn [negb fst].
  assert (replayKey r1 <> replayKey r2) as Hk by congruence.
  assert (forall dirs, candidateInFlight (MkStore (<[replayKey r1 := MkRecorded (digestApplyRequest (cd_BaseGitOID c) r1) None (cd_ID c)]> (st_seen s)) dirs) (cd_ID c) = true) as Hin.
  { intros dirs. unfold candidateInFlight. cbn [st_seen]. apply existsb_exists. eexists. split.
    - apply list_elem_of_In, list_elem_of_fmap. eexists (replayKey r1, _). split; [reflexivity|]. apply elem_of_map_to_list. by rewrite lookup_insert_eq.
    - cbn. apply String.eqb_refl. }
  unfold apply_claim. rewrite R2, V2. cbn [negb st_seen]. rewrite lookup_insert_ne, S2 by done. rewrite Ho, Hf.
  rewrite (proj2 (String.eqb_neq (cd_ID c) (oc_CandidateID o))), (proj2 (String.eqb_neq (cd_ID c) "")) by congruence.
  cbn [negb andb fst st_dirs remove_dir]. split; [|by rewrite lookup_delete_eq]. apply Hin.
Qed.
