(* ===== verification/BrokerRunner.v ===== *)
(** * broker: the sealed leaf runner

    Models [services/broker/internal/factory/runner/runner.go] and the
    composition of [services/broker/localauthority/factory.go]: one leaf runs
    against a fresh candidate through a sealed surface of three operations, each
    brokered, and its edits are applied or the candidate is discarded.

    A synthesizer is an interactive program over the surface, [leaf_program]: it
    sees only the answers of its requests and may do anything with them, so the
    theorems hold for every synthesizer, hostile ones included.  The [k]-th
    question to the broker is answered in the world [worlds k]. *)

From Stdlib Require Import Ascii String.
From S2P Require Import Prelude GoString GoPath Float64 Runtime FactoryTypes Contracts BrokerChangeSet BrokerEffects BrokerCandidate.
Open Scope string_scope.
Open Scope Z_scope.

Inductive runner_error := ErrInvalid | ErrCandidate (e : candidate_error).

(** [RunUnset] is the empty state of a zero [Result]. *)
Inductive RunState := RunUnset | RunCompleted | RunFailed.

Record LeafSpec := MkLeafSpec {
  ls_RunID : Identifier; ls_NodeID : string; ls_OwnedPaths : list string; ls_ForbiddenPaths : list string; ls_BaseGitOID : string;
  ls_Identity : MappedIdentityFact; ls_Grant : Grant; ls_ChangeSetID : string; ls_IdempotencyKey : string; ls_Now : Z
}.

Record DenialRecord := MkDenial { dr_Action : string; dr_Path : string; dr_ReasonCode : string }.

Record Result := MkResult { rs_State : RunState; rs_Outcome : option Outcome; rs_Rollback : option RollbackReceipt; rs_Denials : list DenialRecord }.

(** What a leaf sees of a failed request: a denial (its reason, when it has one)
    or another error. *)
Inductive leaf_error := LeafDenied (r : option Reason) | LeafFailed (text : string).

Definition leaf_reason (e : leaf_error) : string :=
  match e with LeafDenied (Some r) => reason_text r | LeafDenied None => "denied" | LeafFailed _ => "denied" end.
Definition is_denied (e : leaf_error) : bool := match e with LeafDenied _ => true | LeafFailed _ => false end.

Definition of_effect (e : effect_error) : leaf_error :=
  match e with Denied r => LeafDenied (Some r) | MutateFailed text => LeafFailed text end.

(** [type Synthesizer interface]: a program over the surface [Effects]. *)
Inductive leaf_program :=
| LDone (err : option leaf_error)
| LPropose (e : Edit) (k : option leaf_error -> leaf_program)
| LReadFile (path : string) (k : result leaf_error string -> leaf_program)
| LRequestEffect (action path : string) (k : option leaf_error -> leaf_program).

Definition validateSpec (spec : LeafSpec) : bool :=
  negb (negb (String.eqb (Namespace (ls_RunID spec)) "run") || String.eqb (Value (ls_RunID spec)) "" || String.eqb (ls_NodeID spec) ""
        || (64 <? len (ls_NodeID spec)) || String.eqb (ls_ChangeSetID spec) "" || String.eqb (ls_IdempotencyKey spec) "" || (ls_Now spec =? 0)
        || (length (ls_OwnedPaths spec) =? 0)%nat || (64 <? Z.of_nat (length (ls_OwnedPaths spec)))
        || (64 <? Z.of_nat (length (ls_ForbiddenPaths spec)))
        || (negb (len (ls_BaseGitOID spec) =? 40) && negb (len (ls_BaseGitOID spec) =? 64)))
  && forallb ValidatePath (ls_OwnedPaths spec) && forallb ValidatePath (ls_ForbiddenPaths spec)
  && match ValidateGrant (ls_Grant spec) (ls_Now spec) with Ok _ => true | Err _ => false end
  && String.eqb (lg_RepositoryGitOID (ls_Grant spec)) (ls_BaseGitOID spec).

Definition leaf_of (spec : LeafSpec) : Leaf :=
  MkLeaf (ls_Identity spec) (ls_Grant spec) (MkScope (ls_OwnedPaths spec) (ls_ForbiddenPaths spec) (ls_BaseGitOID spec)).

Definition first_resource (g : Grant) : Identifier := match lg_Resources g with r :: _ => r | [] => MkIdentifier "" "" end.

Definition failClosed (receipt : option RollbackReceipt) (denials : list DenialRecord) : Result := MkResult RunFailed None receipt denials.
Definition with_outcome (r : Result) (o : option Outcome) : Result := MkResult (rs_State r) o (rs_Rollback r) (rs_Denials r).

(** ** The sealed surface *)

Record sealedEffects := MkSealed { sf_staged : list Edit; sf_denials : list DenialRecord; sf_asked : nat }.

Section surface.
Context `{GoRuntime} (worlds : nat -> World) (config : Config) (fault : os_call -> bool) (leaf : Leaf) (t : tree).

Definition deny (s : sealedEffects) (asked : nat) (d : DenialRecord) : sealedEffects :=
  MkSealed (sf_staged s) (sf_denials s ++ [d])%list (sf_asked s + asked).

Definition Propose (edit : Edit) (s : sealedEffects) : sealedEffects * option leaf_error :=
  match ValidateEdit edit with
  | Err _ =>
      let reason := if negb (ValidatePath (ed_Path edit)) || (negb (ValidatePath (ed_OldPath edit)) && String.eqb (ed_Op edit) OpRename)
                    then ReasonEscapePathShape else ReasonInvalidEdit in
      (deny s 0 (MkDenial ActionFileWrite (ed_Path edit) (reason_text reason)), Some (LeafDenied None))
  | Ok _ =>
      match AuthorizeMutation (worlds (sf_asked s)) (worlds (S (sf_asked s))) leaf edit with
      | Err e => (deny s 2 (MkDenial ActionFileWrite (ed_Path edit) (ReasonCode_of e)), Some (of_effect e))
      | Ok _ => (MkSealed (sf_staged s ++ [edit])%list (sf_denials s) (sf_asked s + 2), None)
      end
  end.

Definition surface_request (action path : string) : Request := MkEffect action path (first_resource (lf_Grant leaf)) "" 0.

Definition ReadFile (path : string) (s : sealedEffects) : sealedEffects * result leaf_error string :=
  match Authorize (worlds (sf_asked s)) leaf (surface_request ActionFileRead path) with
  | Err e => (deny s 1 (MkDenial ActionFileRead path (ReasonCode_of e)), Err (of_effect e))
  | Ok _ =>
      (MkSealed (sf_staged s) (sf_denials s) (S (sf_asked s)),
       match Candidate_ReadFile config fault t path with Ok c => Ok c | Err _ => Err (LeafFailed "read") end)
  end.

Definition RequestEffect (action path : string) (s : sealedEffects) : sealedEffects * option leaf_error :=
  match Authorize (worlds (sf_asked s)) leaf (surface_request action path) with
  | Err e => (deny s 1 (MkDenial action path (ReasonCode_of e)), Some (of_effect e))
  | Ok _ => (MkSealed (sf_staged s) (sf_denials s) (S (sf_asked s)), None)
  end.

(** [Synthesize], for the synthesizer [p]. *)
Fixpoint synthesize (p : leaf_program) (s : sealedEffects) : sealedEffects * option leaf_error :=
  match p with
  | LDone err => (s, err)
  | LPropose e k => let '(s', r) := Propose e s in synthesize (k r) s'
  | LReadFile path k => let '(s', r) := ReadFile path s in synthesize (k r) s'
  | LRequestEffect action path k => let '(s', r) := RequestEffect action path s in synthesize (k r) s'
  end.

(** The mutation authoriser bound to the leaf, asked after [asked] questions. *)
Definition Bind (asked : nat) : Authorizer :=
  fun i edit => AuthorizeMutation (worlds (asked + 2 * i)) (worlds (asked + 2 * i + 1)) leaf edit.
End surface.

Section run.
Context `{GoRuntime} (worlds : nat -> World) (config : Config) (benv : BeginEnv) (env : CandEnv) (fault : os_call -> bool) (rm rmd : removal).

Definition stagedDigest (spec : LeafSpec) (s : sealedEffects) : Digest :=
  match sf_staged s with [] => zero_digest | _ => ChangeSetDigest (ls_BaseGitOID spec) (sf_staged s) end.

(** The denials after a failed synthesis, and whether one is an escape. *)
Definition synth_denials (s : sealedEffects) (err : option leaf_error) : list DenialRecord :=
  match err with
  | None => sf_denials s
  | Some e => (sf_denials s ++ [MkDenial "leaf.synthesize" "" (if is_denied e then leaf_reason e else reason_text ReasonPolicyDenied)])%list
  end.
Definition discard_reason (denials : list DenialRecord) : string :=
  if existsb (fun d => has_prefix "escape_" (dr_ReasonCode d)) denials then ReasonEscapeDenied else ReasonRejected.

Definition apply_request (spec : LeafSpec) (s : sealedEffects) : ApplyRequest :=
  MkApply (ls_ChangeSetID spec) (ls_IdempotencyKey spec) (Tenant (ls_Identity spec)) (Principal (ls_Identity spec)) (sf_staged s)
    (Bind worlds (leaf_of spec) (sf_asked s)).

(** What [RunLeaf] makes of the answer of [Apply]. *)
Definition conclude (spec : LeafSpec) (c : Candidate) (sf : sealedEffects) (applied : Store * (option Outcome * option candidate_error)) :
    Store * (Result * option runner_error) :=
  let '(s, (outcome, err)) := applied in
  match err with
  | Some e =>
      match outcome with
      | Some o =>
          match oc_Rollback o with
          | Some receipt =>
              let denials := match e with
                             | ErrDeniedBy d => (sf_denials sf ++ [MkDenial ActionFileWrite "" (ReasonCode_of d)])%list
                             | _ => sf_denials sf
                             end in
              (s, (with_outcome (failClosed (Some receipt) denials) (Some o), None))
          | None =>
              let '(s', (receipt, derr)) := Discard rmd ReasonRejected (stagedDigest spec sf) c s in
              (s', (with_outcome (failClosed (Some receipt) (sf_denials sf)) (Some o), Some (ErrCandidate (default e derr))))
          end
      | None =>
          let '(s', (receipt, derr)) := Discard rmd ReasonRejected (stagedDigest spec sf) c s in
          (s', (failClosed (Some receipt) (sf_denials sf), Some (ErrCandidate (default e derr))))
      end
  | None =>
      match outcome with
      | Some o =>
          match oc_State o with
          | StateApplied => (s, (MkResult RunCompleted (Some o) None (sf_denials sf), None))
          | StateRejected => (s, (with_outcome (failClosed (oc_Rollback o) (sf_denials sf)) (Some o), None))
          end
      | None => (s, (failClosed None (sf_denials sf), None))
      end
  end.

(** From the synthesizer's return on. *)
Definition finish_leaf (spec : LeafSpec) (c : Candidate) (t : tree) (sf : sealedEffects) (err : option leaf_error) (s : Store) :
    Store * (Result * option runner_error) :=
  if match err with Some _ => true | None => false end || negb (length (sf_denials sf) =? 0)%nat then
    let denials := synth_denials sf err in
    let '(s', (receipt, derr)) := Discard rmd (discard_reason denials) (stagedDigest spec sf) c s in
    (s', (failClosed (Some receipt) denials, ErrCandidate <$> derr))
  else if (length (sf_staged sf) =? 0)%nat then
    let '(s', (receipt, derr)) := Discard rmd ReasonRejected zero_digest c s in
    (s', (failClosed (Some receipt) (sf_denials sf), ErrCandidate <$> derr))
  else conclude spec c sf (Apply config env rm c (apply_request spec sf) t s).

Definition RunLeaf (spec : LeafSpec) (synthesizer : leaf_program) (s : Store) : Store * (Result * option runner_error) :=
  if negb (validateSpec spec) then (s, (MkResult RunUnset None None [], Some ErrInvalid))
  else
    let leaf := leaf_of spec in
    let path := match ls_OwnedPaths spec with p :: _ => p | [] => "" end in
    match Authorize (worlds 0) leaf (MkEffect ActionFileWrite path (first_resource (ls_Grant spec)) "" (ls_Now spec)) with
    | Err e => (s, (failClosed None [MkDenial ActionFileWrite path (ReasonCode_of e)], None))
    | Ok _ =>
        match Begin benv (ls_BaseGitOID spec) s with
        | (s1, Err e) =>
            let reason := match e with ErrBase => ReasonBaseMismatch | _ => ReasonPolicyDenied end in
            (s1, (failClosed None [MkDenial "candidate.begin" (ls_BaseGitOID spec) (reason_text reason)], None))
        | (s1, Ok c) =>
            let t := default ∅ (st_dirs s1 !! cd_ID c) in
            let '(sf, err) := synthesize worlds config fault leaf t synthesizer (MkSealed [] [] 1) in
            finish_leaf spec c t sf err s1
        end
    end.
End run.

(** ** Synthesizers *)

(** [type Step] and [ScriptedSynthesizer]. *)
Inductive Step := StepPropose (e : Edit) | StepEffect (action path : string) | StepRead (path : string).

(** Continue after a denial, stop at another error. *)
Definition after (err : option leaf_error) (k : leaf_program) : leaf_program :=
  match err with Some e => if is_denied e then k else LDone (Some e) | None => k end.

Fixpoint ScriptedSynthesizer (steps : list Step) : leaf_program :=
  match steps with
  | [] => LDone None
  | StepPropose e :: rest => LPropose e (fun r => after r (ScriptedSynthesizer rest))
  | StepEffect action path :: rest => LRequestEffect action path (fun r => after r (ScriptedSynthesizer rest))
  | StepRead path :: rest => LReadFile path (fun r => after (match r with Ok _ => None | Err e => Some e end) (ScriptedSynthesizer rest))
  end.

Definition FixtureSynthesizer (edits : list Edit) : leaf_program := ScriptedSynthesizer (StepPropose <$> edits).

(** The deterministic synthesizer of [localauthority/factory.go]. *)
Record FactoryEditDirective := MkDirective { di_Op : string; di_Path : string; di_OldPath : string }.

Definition newline_text : string := String (ascii_of_nat 10) "".

Definition factoryLanguageForPath (path : string) : string :=
  if has_suffix ".go" path then "go" else if has_suffix ".ts" path then "typescript" else if has_suffix ".py" path then "python"
  else if has_suffix ".rs" path then "rust" else if has_suffix ".java" path then "java" else "".

Definition factoryPackageClause (path : string) : string := if has_suffix ".go" path then "package main" ++ newline_text else "".

Definition marker (spec : LeafSpec) (path : string) : string :=
  (if has_suffix ".py" path then "#" else "//") ++ " ouroboros-factory run=" ++ Value (ls_RunID spec) ++ " node=" ++ ls_NodeID spec
  ++ " path=" ++ path ++ newline_text.

Definition deriveModify (spec : LeafSpec) (path base : string) : string := base ++ marker spec path.
Definition deriveAdd (spec : LeafSpec) (path : string) : string := marker spec path ++ factoryPackageClause path.

Definition directive_ok (d : FactoryEditDirective) : bool :=
  (if String.eqb (di_Op d) "add" || String.eqb (di_Op d) "delete" || String.eqb (di_Op d) "modify" then String.eqb (di_OldPath d) ""
   else if String.eqb (di_Op d) "rename" then negb (String.eqb (di_OldPath d) "" || String.eqb (di_OldPath d) (di_Path d))
   else false)
  && negb (String.eqb (factoryLanguageForPath (di_Path d)) "").

Definition factoryMaxScriptEdits : Z := 64.
Definition factoryMaxProbePaths : Z := 64.

Definition newFactoryDeterministicSynthesizer (edits : list FactoryEditDirective) (probes : list string) : bool :=
  negb ((length edits =? 0)%nat && (length probes =? 0)%nat)
  && negb ((factoryMaxScriptEdits <? Z.of_nat (length edits)) || (factoryMaxProbePaths <? Z.of_nat (length probes)))
  && forallb directive_ok edits.

Section deterministic.
Context `{GoRuntime} (spec : LeafSpec).

Definition probe_text : string := "ouroboros-factory-boundary-probe" ++ newline_text.
Definition probe_edit (path : string) : Edit := MkEdit path "" OpModify "go" (DigestBytes "") (DigestBytes probe_text) probe_text.

(** [buildEdit] and the proposal of its edit; the error of either ends the leaf. *)
Definition play_directive (d : FactoryEditDirective) (k : leaf_program) : leaf_program :=
  let lang := factoryLanguageForPath (di_Path d) in
  let propose e := LPropose e (fun r => match r with Some err => LDone (Some err) | None => k end) in
  let reading path f := LReadFile path (fun r => match r with Err err => LDone (Some err) | Ok base => propose (f base) end) in
  if String.eqb (di_Op d) "add" then
    let content := deriveAdd spec (di_Path d) in
    propose (MkEdit (di_Path d) "" OpAdd lang zero_digest (DigestBytes content) content)
  else if String.eqb (di_Op d) "delete" then
    reading (di_Path d) (fun base => MkEdit (di_Path d) "" OpDelete lang (DigestBytes base) zero_digest "")
  else if String.eqb (di_Op d) "modify" then
    reading (di_Path d) (fun base => let content := deriveModify spec (di_Path d) base in
      MkEdit (di_Path d) "" OpModify lang (DigestBytes base) (DigestBytes content) content)
  else if String.eqb (di_Op d) "rename" then
    reading (di_OldPath d) (fun base => let content := deriveModify spec (di_Path d) base in
      MkEdit (di_Path d) (di_OldPath d) OpRename lang (DigestBytes base) (DigestBytes content) content)
  else LDone (Some (LeafFailed "invalid configuration")).

Definition play_directives (edits : list FactoryEditDirective) : leaf_program := foldr play_directive (LDone None) edits.

Definition DeterministicSynthesizer (edits : list FactoryEditDirective) (probes : list string) : leaf_program :=
  foldr (fun p k => LPropose (probe_edit p) (fun r => after r k)) (play_directives edits) probes.
End deterministic.

(** [FactoryLeafSpec] and its attenuation to the runner's vocabulary. *)
Record FactoryLeafGrant := MkFactoryGrant {
  fg_GrantID : string; fg_Initiator : string; fg_Tenant : string; fg_TaskID : string; fg_RunID : string; fg_LeaseID : string;
  fg_LeaseHolder : string; fg_LeaseFence : Z; fg_LeaseExpiresAt : Z; fg_AllowedPaths : list string; fg_RepositoryGitOID : string;
  fg_Nonce : string; fg_RevocationEpoch : Z; fg_ExpiresAt : Z; fg_PolicyDigestHex : string; fg_CommandFence : Z
}.

Record FactoryLeafSpec := MkFactoryLeaf {
  fl_RunID : string; fl_NodeID : string; fl_OwnedPaths : list string; fl_ForbiddenPaths : list string; fl_BaseGitOID : string;
  fl_Identity : MappedIdentityFact; fl_Grant : FactoryLeafGrant; fl_ChangeSetID : string; fl_IdempotencyKey : string; fl_Now : Z
}.

Definition runnerSpec (spec : FactoryLeafSpec) : option LeafSpec :=
  if String.eqb (fl_RunID spec) "" || String.eqb (fl_NodeID spec) "" || (length (fl_OwnedPaths spec) =? 0)%nat
     || (factoryMaxScriptEdits <? Z.of_nat (length (fl_OwnedPaths spec))) || (factoryMaxProbePaths <? Z.of_nat (length (fl_ForbiddenPaths spec)))
     || String.eqb (fl_BaseGitOID spec) "" || String.eqb (fl_ChangeSetID spec) "" || String.eqb (fl_IdempotencyKey spec) "" || (fl_Now spec =? 0)
  then None
  else
    let g := fl_Grant spec in
    Some (MkLeafSpec (MkIdentifier "run" (fl_RunID spec)) (fl_NodeID spec) (fl_OwnedPaths spec) (fl_ForbiddenPaths spec) (fl_BaseGitOID spec)
      (fl_Identity spec)
      (MkLeafGrant (MkIdentifier "grant" (fg_GrantID g)) (MkIdentifier "principal" (fg_Initiator g)) (MkIdentifier "tenant" (fg_Tenant g))
         (MkIdentifier "factory-task" (fg_TaskID g)) (MkIdentifier "factory-run" (fg_RunID g))
         (MkLease (MkIdentifier "lease" (fg_LeaseID g)) (MkIdentifier "principal" (fg_LeaseHolder g)) (fg_LeaseFence g) (fg_LeaseExpiresAt g))
         [ActionFileRead; ActionFileWrite] [MkIdentifier "tenant" (fg_Tenant g)] (fg_RepositoryGitOID g) (fg_AllowedPaths g) (fg_Nonce g)
         (fg_RevocationEpoch g) (fg_ExpiresAt g) (MkDigest "sha256" (fg_PolicyDigestHex g)) (fg_CommandFence g))
      (fl_ChangeSetID spec) (fl_IdempotencyKey spec) (fl_Now spec)).

(** [ExecuteLeaf] with the deterministic synthesizer, for a valid specification
    and script; [None] is the refusal of either. *)
Definition ExecuteLeaf `{GoRuntime} (worlds : nat -> World) (config : Config) (benv : BeginEnv) (env : CandEnv) (fault : os_call -> bool) (rm rmd : removal)
    (spec : FactoryLeafSpec) (edits : list FactoryEditDirective) (probes : list string) (s : Store) : option (Store * (Result * option runner_error)) :=
  match runnerSpec spec with
  | None => None
  | Some inner =>
      if newFactoryDeterministicSynthesizer edits probes
      then Some (RunLeaf worlds config benv env fault rm rmd inner (DeterministicSynthesizer inner edits probes) s) else None
  end.

(** ** Lemmas *)

Section lemmas.
Context `{GoRuntime} (worlds : nat -> World) (config : Config) (fault : os_call -> bool) (leaf : Leaf) (t : tree).

(** A staged edit is well-formed and was authorised when proposed. *)
Definition staged_ok (e : Edit) : Prop := ValidateEdit e = Ok tt /\ exists w1 w2, AuthorizeMutation w1 w2 leaf e = Ok tt.

Record surface_step (s s' : sealedEffects) : Prop := {
  ss_staged : Forall staged_ok (sf_staged s) -> Forall staged_ok (sf_staged s');
  ss_denials : sf_denials s `prefix_of` sf_denials s'
}.

Lemma surface_step_trans a b c : surface_step a b -> surface_step b c -> surface_step a c.
Proof. intros [H1 H2] [H3 H4]. split; [auto|by etrans]. Qed.

Lemma deny_step s n d : surface_step s (deny s n d).
Proof. split; [done|]. by exists [d]. Qed.

Lemma Propose_step e s s' r : Propose worlds leaf e s = (s', r) -> surface_step s s'.
Proof.
  unfold Propose. destruct (ValidateEdit e) as [[]|] eqn:Ev; [|intros [= <- _]; apply deny_step].
  destruct (AuthorizeMutation _ _ leaf e) as [[]|] eqn:Ea; intros [= <- _]; [|apply deny_step]. split; cbn; [|done].
  intros Hs. apply Forall_app. split; [done|]. apply Forall_singleton. split; [done|]. by eexists _, _.
Qed.

Lemma ReadFile_step path s s' r : ReadFile worlds config fault leaf t path s = (s', r) -> surface_step s s'.
Proof. unfold ReadFile. destruct (Authorize _ _ _); intros [= <- _]; [by split|apply deny_step]. Qed.

Lemma RequestEffect_step action path s s' r : RequestEffect worlds leaf action path s = (s', r) -> surface_step s s'.
Proof. unfold RequestEffect. destruct (Authorize _ _ _); intros [= <- _]; [by split|apply deny_step]. Qed.

Lemma synthesize_step p s s' err : synthesize worlds config fault leaf t p s = (s', err) -> surface_step s s'.
Proof.
  revert s. induction p as [e|e k IH|path k IH|action path k IH]; intros s; cbn.
  - by intros [= <- _].
  - destruct (Propose worlds leaf e s) as [s1 r] eqn:E. intros Hs. eapply surface_step_trans; [by eapply Propose_step|by eapply IH].
  - destruct (ReadFile worlds config fault leaf t path s) as [s1 r] eqn:E. intros Hs. eapply surface_step_trans; [by eapply ReadFile_step|by eapply IH].
  - destruct (RequestEffect worlds leaf action path s) as [s1 r] eqn:E. intros Hs.
    eapply surface_step_trans; [by eapply RequestEffect_step|by eapply IH].
Qed.
End lemmas.


Section apply.
Context `{GoRuntime} (config : Config) (env : CandEnv) (rm : removal) (c : Candidate) (r : ApplyRequest) (t : tree).

(** The four ways an application of a fresh candidate ends. *)
Inductive applied (s : Store) : Store * (option Outcome * option candidate_error) -> Prop :=
| ap_refused s' e : (st_dirs s' = st_dirs s \/ st_dirs s' = remove_dir rm (cd_ID c) (st_dirs s)) -> applied s (s', (None, Some e))
| ap_rejected s' o rb e :
    oc_State o = StateRejected -> oc_Rollback o = Some rb -> st_dirs s' = remove_dir rm (cd_ID c) (st_dirs s) -> applied s (s', (Some o, Some e))
| ap_replayed s' o rec :
    st_seen s !! replayKey r = Some rec -> ro_outcome rec = Some o -> st_dirs s' = remove_dir rm (cd_ID c) (st_dirs s) -> applied s (s', (Some o, None))
| ap_applied s' o t' : oc_State o = StateApplied -> st_seen s !! replayKey r = None -> Validate (ar_Edits r) = Ok tt ->
    oc_CandidateID o = cd_ID c -> st_dirs s' = <[cd_ID c := t']> (st_dirs s) -> edited (ce_new_mode env) (ar_Authorizer r) (ar_Edits r) t t' ->
    applied s (s', (Some o, None)).

End apply.









(** A probe of a path the leaf declares forbidden is always denied. *)
Lemma forbidden_probe_denied `{GoRuntime} worlds leaf p s s' r :
  p ∈ sc_ForbiddenPaths (lf_Scope leaf) -> Propose worlds leaf (probe_edit p) s = (s', r) -> sf_denials s' <> [].
Proof.
  intros Hp. unfold Propose. destruct (ValidateEdit _) as [[]|]; [|intros [= <- _]; cbn; by destruct (sf_denials s)].
  destruct (AuthorizeMutation _ _ leaf (probe_edit p)) as [[]|e] eqn:Ea; intros [= <- _]; cbn; [|by destruct (sf_denials s)].
  apply mutation_confined in Ea as [(_ & _ & _ & _ & Hno) _]. exfalso. apply Hno. exists p. split; [done|]. cbn. done.
Qed.

Lemma denials_persist `{GoRuntime} worlds config fault leaf t p s s' err :
  synthesize worlds config fault leaf t p s = (s', err) -> sf_denials s <> [] -> sf_denials s' <> [].
Proof. intros [_ [l ->]]%synthesize_step Hne. by destruct (sf_denials s). Qed.

Lemma probes_denied `{GoRuntime} worlds config fault leaf t k probes p s s' err :
  p ∈ sc_ForbiddenPaths (lf_Scope leaf) -> p ∈ probes ->
  synthesize worlds config fault leaf t (foldr (fun p k => LPropose (probe_edit p) (fun r => after r k)) k probes) s = (s', err) ->
  sf_denials s' <> [] \/ is_Some err.
Proof.
  intros Hf. revert s. induction probes as [|q probes IH]; intros s Hp; [by apply not_elem_of_nil in Hp|]. cbn.
  destruct (Propose worlds leaf (probe_edit q) s) as [s1 r] eqn:E. apply elem_of_cons in Hp as [->|Hp].
  - intros Hs. left. eapply denials_persist; [exact Hs|]. by eapply forbidden_probe_denied.
  - unfold after. destruct r as [e|]; [|by apply IH]. destruct (is_denied e); [by apply IH|]. cbn. intros [= <- <-]. right. by eexists.
Qed.

(** ** Properties *)


(** The deterministic leaf of a specification with a declared forbidden path
    never completes: its probe of that path is denied, as it must be, and any
    recorded denial fails the run. *)
Theorem declared_forbidden_path_fails_run `{GoRuntime} worlds config benv env fault rm rmd spec edits probes p s :
  p ∈ ls_ForbiddenPaths spec -> p ∈ probes ->
  rs_State (fst (snd (RunLeaf worlds config benv env fault rm rmd spec (DeterministicSynthesizer spec edits probes) s))) <> RunCompleted.
Proof.
  intros Hf Hp. unfold RunLeaf. destruct (negb (validateSpec spec)); [done|]. cbv zeta. destruct (Authorize _ _ _) as [[]|e]; [|done].
  destruct (Begin _ _ _) as [s1 [c|e]]; [|done]. destruct (synthesize _ _ _ _ _ _ _) as [sf err] eqn:Es.
  apply (probes_denied _ _ _ _ _ _ _ p) in Es; [|done|done]. unfold finish_leaf.
  assert ((match err with Some _ => true | None => false end || negb (length (sf_denials sf) =? 0)%nat) = true) as ->; [|done].
  destruct Es as [Hd|[x ->]]; [|done]. destruct (sf_denials sf); [done|]. cbn. apply orb_true_r.
Qed.
