(* ===== verification/BrokerHandover.v ===== *)
(** * broker: task handover between realms

    Models [services/broker/internal/handover]: the checkpoint and its seal
    (types.go), the coordinator that owns the fence and the exactly-once
    completion (coordinator.go), and the two executors (executors.go).

    The coordinator's methods hold its lock, except that [ResumeTarget] drops it
    while the target executor runs and takes it twice more afterwards, and that
    [Cleanup] drops it while it waits and while it tears down.  [hstep]
    interleaves any number of callers at exactly those points.  Times are an
    input of each step. *)

From Stdlib Require Import Ascii String.
From S2P Require Import Prelude GoString Float64 Runtime Contracts.
Open Scope string_scope.
Open Scope Z_scope.

Inductive handover_error := ErrHandoverDenied | ErrRejected | ErrStaleFence | ErrDuplicate | ErrIncompatibleRealm | ErrRevoked.

Definition RealmKind := string.
Definition RealmLocal : RealmKind := "local".
Definition RealmModal : RealmKind := "modal".

Record Checkpoint := MkCheckpoint {
  cp_TaskID : string; cp_WorkflowVersion : string; cp_BundleDigest : string; cp_MailboxCursor : Z; cp_CompletedSteps : list string;
  cp_CapabilityReqs : list string; cp_CreatedUnderFence : Z; cp_CheckpointDigest : string; cp_CreatedAt : Z; cp_Metadata : gmap string string
}.

Definition hexUint (v : Z) : string :=
  hex_encode ((fun n => Z.land (Z.shiftr v n) 255) <$> [56; 48; 40; 32; 24; 16; 8; 0]).

Fixpoint concat_with (f : string -> string) (l : list string) : string :=
  match l with [] => "" | s :: l' => f s ++ concat_with f l' end.

Definition checkpoint_payload (c : Checkpoint) : string :=
  cp_TaskID c ++ "|" ++ cp_WorkflowVersion c ++ "|" ++ cp_BundleDigest c ++ "|" ++ hexUint (cp_MailboxCursor c) ++ "|"
  ++ hexUint (cp_CreatedUnderFence c)
  ++ concat_with (fun s => "|" ++ s) (cp_CompletedSteps c)
  ++ concat_with (fun s => "|cap:" ++ s) (cp_CapabilityReqs c)
  ++ concat_with (fun k => "|meta:" ++ k ++ "=" ++ default "" (cp_Metadata c !! k))
       (sort_strings (fst <$> map_to_list (cp_Metadata c))).

Definition with_digest (c : Checkpoint) (d : string) : Checkpoint :=
  MkCheckpoint (cp_TaskID c) (cp_WorkflowVersion c) (cp_BundleDigest c) (cp_MailboxCursor c) (cp_CompletedSteps c) (cp_CapabilityReqs c)
    (cp_CreatedUnderFence c) d (cp_CreatedAt c) (cp_Metadata c).

Definition SealCheckpoint `{GoRuntime} (c : Checkpoint) : Checkpoint := with_digest c (sha256_hex (checkpoint_payload c)).

Inductive HandoverState :=
| StateRunningSource | StateQuiescing | StatePrepared | StateFenceAdvanced | StateReplaying | StateRunningTarget | StateCompleted
| StatePaused | StateCancelled.

#[export] Instance HandoverState_eq_dec : EqDecision HandoverState.
Proof. solve_decision. Defined.

Record CompletionReceipt := MkCompletion {
  cr_TaskID : string; cr_Fence : Z; cr_Realm : RealmKind; cr_Attempt : Z; cr_ResultDigest : string; cr_CommittedAt : Z
}.

Record CleanupReceipt := MkCleanup {
  cl_WorkspacesRemoved : list string; cl_ModalAppsClosed : list string; cl_BundlesPurged : list string; cl_Complete : bool
}.

(** ** Executors *)

(** [type Executor interface]; [Run] returns its error text on the right. *)
Record Executor := MkExecutor {
  x_state : Type;
  x_Realm : RealmKind;
  x_Run : Checkpoint -> Z -> Z -> x_state -> x_state * (string + string);
  x_Cleanup : string -> x_state -> x_state * CleanupReceipt
}.

Record LocalState := MkLocal { ls_workspaces : gmap string string; ls_failNext : bool }.
Record ModalState := MkModal { ms_apps : gmap string string; ms_failNext : bool }.

Definition NewLocalExecutor : LocalState := MkLocal ∅ false.
Definition NewModalExecutor : ModalState := MkModal ∅ false.
Definition local_FailNext (st : LocalState) : LocalState := MkLocal (ls_workspaces st) true.
Definition modal_FailNext (st : ModalState) : ModalState := MkModal (ms_apps st) true.

Section executors.
Context `{GoRuntime}.

Definition local_Run (cp : Checkpoint) (fence attempt : Z) (st : LocalState) : LocalState * (string + string) :=
  if ls_failNext st then (MkLocal (ls_workspaces st) false, inr "local transient failure")
  else let ws := "local-ws-" ++ cp_TaskID cp ++ "-f" ++ dec fence ++ "-a" ++ dec attempt in
       (MkLocal (<[cp_TaskID cp := ws]> (ls_workspaces st)) (ls_failNext st), inl (sha256_hex (cp_BundleDigest cp ++ "|local|" ++ hexUint fence))).

Definition local_Cleanup (taskID : string) (st : LocalState) : LocalState * CleanupReceipt :=
  (MkLocal (delete taskID (ls_workspaces st)) (ls_failNext st),
   match ls_workspaces st !! taskID with None => MkCleanup [] [] [] true | Some ws => MkCleanup [ws] [] [] true end).

(** The mode the Modal executor also stores is never read. *)
Definition modal_Run (cp : Checkpoint) (fence attempt : Z) (st : ModalState) : ModalState * (string + string) :=
  if ms_failNext st then (MkModal (ms_apps st) false, inr "modal transient failure")
  else (MkModal (<[cp_TaskID cp := "ouroboros-stage13-handover-" ++ cp_TaskID cp]> (ms_apps st)) (ms_failNext st),
        inl (sha256_hex (cp_BundleDigest cp ++ "|modal|" ++ hexUint fence))).

Definition modal_Cleanup (taskID : string) (st : ModalState) : ModalState * CleanupReceipt :=
  (MkModal (delete taskID (ms_apps st)) (ms_failNext st),
   match ms_apps st !! taskID with None => MkCleanup [] [] [] true | Some app => MkCleanup [] [app] [] true end).

Definition LocalExecutor : Executor := MkExecutor LocalState RealmLocal local_Run local_Cleanup.
Definition ModalExecutor : Executor := MkExecutor ModalState RealmModal modal_Run modal_Cleanup.
End executors.

(** The law of an executor whose successful result depends only on the
    checkpoint and the fence, so that a retry yields what the first attempt
    would have. *)
Class PureExecutor (x : Executor) := {
  pure_result : Checkpoint -> Z -> string;
  pure_Run : forall cp fence attempt st st' res, x_Run x cp fence attempt st = (st', inl res) -> res = pure_result cp fence
}.

#[export] Instance LocalExecutor_pure `{GoRuntime} : PureExecutor LocalExecutor.
Proof.
  refine {| pure_result := fun cp fence => sha256_hex (cp_BundleDigest cp ++ "|local|" ++ hexUint fence) |}.
  intros cp fence attempt st st' res. cbn. unfold local_Run. destruct (ls_failNext st); intros E; [done|by injection E as _ <-].
Defined.

#[export] Instance ModalExecutor_pure `{GoRuntime} : PureExecutor ModalExecutor.
Proof.
  refine {| pure_result := fun cp fence => sha256_hex (cp_BundleDigest cp ++ "|modal|" ++ hexUint fence) |}.
  intros cp fence attempt st st' res. cbn. unfold modal_Run. destruct (ms_failNext st); intros E; [done|by injection E as _ <-].
Defined.

(** ** The coordinator *)

Record Coordinator := MkCoordinator {
  co_taskID : string; co_fence : Z; co_state : HandoverState; co_checkpoint : option Checkpoint; co_completion : option CompletionReceipt;
  co_revoked : bool; co_cleaning : bool; co_targetActive : bool; co_allowed : gmap string bool; co_attempts : Z;
  co_cleanups : list CleanupReceipt
}.

Definition NewCoordinator (taskID : string) : Coordinator :=
  MkCoordinator taskID 1 StateRunningSource None None false false false {[RealmLocal := true; RealmModal := true]} 0 [].

Definition set_state (c : Coordinator) (st : HandoverState) : Coordinator :=
  MkCoordinator (co_taskID c) (co_fence c) st (co_checkpoint c) (co_completion c) (co_revoked c) (co_cleaning c) (co_targetActive c)
    (co_allowed c) (co_attempts c) (co_cleanups c).
Definition set_active (c : Coordinator) (a : bool) : Coordinator :=
  MkCoordinator (co_taskID c) (co_fence c) (co_state c) (co_checkpoint c) (co_completion c) (co_revoked c) (co_cleaning c) a
    (co_allowed c) (co_attempts c) (co_cleanups c).

Definition CurrentFence (c : Coordinator) : Z := co_fence c.
Definition State (c : Coordinator) : HandoverState := co_state c.
Definition Completion (c : Coordinator) : option CompletionReceipt := co_completion c.

Section coordinator.
Context `{GoRuntime}.

Definition prepared_checkpoint (now : Z) (bundleDigest : string) (steps : list string) (c : Coordinator) : Checkpoint :=
  SealCheckpoint (MkCheckpoint (co_taskID c) "wf-1" bundleDigest 1 steps ["compute.pure"] (co_fence c) "" now ∅).

Definition Coordinator_Checkpoint (now : Z) (bundleDigest : string) (steps : list string) (c : Coordinator) :
    Coordinator * result handover_error Checkpoint :=
  if co_revoked c then (c, Err ErrRevoked)
  else if negb (bool_decide (co_state c = StateRunningSource)) && negb (bool_decide (co_state c = StateQuiescing)) then (c, Err ErrRejected)
  else
    let cp := prepared_checkpoint now bundleDigest steps c in
    (MkCoordinator (co_taskID c) (co_fence c) StatePrepared (Some cp) (co_completion c) (co_revoked c) (co_cleaning c) (co_targetActive c)
       (co_allowed c) (co_attempts c) (co_cleanups c), Ok cp).
End coordinator.

Definition Transfer (target : RealmKind) (c : Coordinator) : Coordinator * result handover_error unit :=
  if co_revoked c then (c, Err ErrRevoked)
  else if negb (bool_decide (co_state c = StatePrepared)) then (c, Err ErrRejected)
  else if negb (default false (co_allowed c !! target)) then (c, Err ErrIncompatibleRealm)
  else if negb (String.eqb target RealmModal) then (c, Err ErrIncompatibleRealm)
  else match co_checkpoint c with
  | None => (c, Err ErrRejected)
  | Some _ =>
      (MkCoordinator (co_taskID c) ((co_fence c + 1) mod 2 ^ 64) StateFenceAdvanced (co_checkpoint c) (co_completion c) (co_revoked c)
         (co_cleaning c) (co_targetActive c) (co_allowed c) (co_attempts c) (co_cleanups c), Ok tt)
  end.

(** What a call of [ResumeTarget] carries across its executor run. *)
Record run := MkRun { rn_cp : Checkpoint; rn_fence : Z; rn_attempt : Z }.

Definition resumable (st : HandoverState) : bool :=
  bool_decide (st = StateFenceAdvanced) || bool_decide (st = StateReplaying) || bool_decide (st = StateRunningTarget)
  || bool_decide (st = StatePaused).

(** [ResumeTarget] up to the executor run: refused (with the original receipt
    for a duplicate), or a run begins. *)
Definition resume_begin (c : Coordinator) : Coordinator * (option CompletionReceipt * handover_error + run) :=
  if co_revoked c then (c, inl (None, ErrRevoked))
  else if co_cleaning c then (c, inl (None, ErrRejected))
  else match co_completion c with
  | Some receipt => (c, inl (Some receipt, ErrDuplicate))
  | None =>
      if negb (resumable (co_state c)) then (c, inl (None, ErrRejected))
      else match co_checkpoint c with
      | None => (c, inl (None, ErrRejected))
      | Some cp =>
          let attempt := co_attempts c + 1 in
          (MkCoordinator (co_taskID c) (co_fence c) StateRunningTarget (co_checkpoint c) (co_completion c) (co_revoked c) (co_cleaning c) true
             (co_allowed c) attempt (co_cleanups c), inr (MkRun cp (co_fence c) attempt))
      end
  end.

(** [ResumeTarget] after the executor returned: its critical section. *)
Definition resume_end (failed : bool) (c : Coordinator) : Coordinator :=
  let c1 := set_active c false in
  if failed && negb (co_revoked c1) && negb (bool_decide (is_Some (co_completion c1))) && negb (bool_decide (co_state c1 = StateCompleted))
     && negb (bool_decide (co_state c1 = StateCancelled))
  then set_state c1 StatePaused else c1.

Definition commit (now fence : Z) (realm : RealmKind) (attempt : Z) (res : string) (c : Coordinator) :
    Coordinator * (CompletionReceipt + option CompletionReceipt * handover_error) :=
  if co_revoked c then (c, inr (None, ErrRevoked))
  else if negb (fence =? co_fence c) then (c, inr (None, ErrStaleFence))
  else match co_completion c with
  | Some receipt => (c, inr (Some receipt, ErrDuplicate))
  | None =>
      let receipt := MkCompletion (co_taskID c) fence realm attempt res now in
      (MkCoordinator (co_taskID c) (co_fence c) StateCompleted (co_checkpoint c) (Some receipt) (co_revoked c) (co_cleaning c)
         (co_targetActive c) (co_allowed c) (co_attempts c) (co_cleanups c), inl receipt)
  end.

Definition CommitUnderFence (now fence : Z) (realm : RealmKind) (res : string) (c : Coordinator) := commit now fence realm 0 res c.

Definition Revoke (c : Coordinator) : Coordinator :=
  MkCoordinator (co_taskID c) (co_fence c) StateCancelled (co_checkpoint c) (co_completion c) true (co_cleaning c) (co_targetActive c)
    (co_allowed c) (co_attempts c) (co_cleanups c).

(** [Cleanup]: blocks new runs; waits while a run is active; tears down; records. *)
Definition cleanup_begin (c : Coordinator) : Coordinator :=
  MkCoordinator (co_taskID c) (co_fence c) (co_state c) (co_checkpoint c) (co_completion c) (co_revoked c) true (co_targetActive c)
    (co_allowed c) (co_attempts c) (co_cleanups c).
Definition cleanup_ready (c : Coordinator) : bool := negb (co_targetActive c).
Definition cleanup_merge (s t : CleanupReceipt) : CleanupReceipt :=
  MkCleanup (cl_WorkspacesRemoved s ++ cl_WorkspacesRemoved t)%list (cl_ModalAppsClosed s ++ cl_ModalAppsClosed t)%list
    (cl_BundlesPurged s ++ cl_BundlesPurged t)%list (cl_Complete s && cl_Complete t).
Definition cleanup_record (merged : CleanupReceipt) (c : Coordinator) : Coordinator :=
  MkCoordinator (co_taskID c) (co_fence c) (co_state c) (co_checkpoint c) (co_completion c) (co_revoked c) (co_cleaning c)
    (co_targetActive c) (co_allowed c) (co_attempts c) (co_cleanups c ++ [merged])%list.

(** ** The coordinator's invariant and its phases *)

(** Before the transfer the fence is 1; after it, 2, with a checkpoint; a
    completion carries the current fence and closes the task; a revocation
    cancels it. *)
Definition live_state (c : Coordinator) : Prop :=
  (co_fence c = 1 /\ (co_state c = StateRunningSource \/ co_state c = StatePrepared)) \/
  (co_fence c = 2 /\ is_Some (co_checkpoint c) /\ (co_state c = StateFenceAdvanced \/ co_state c = StateRunningTarget \/ co_state c = StatePaused)).

Record co_inv (c : Coordinator) : Prop := {
  ci_fence : co_fence c = 1 \/ co_fence c = 2;
  ci_receipt : forall r, co_completion c = Some r -> cr_Fence r = co_fence c /\ cr_TaskID r = co_taskID c;
  ci_live : co_revoked c = false -> co_completion c = None -> live_state c;
  ci_done : co_revoked c = false -> is_Some (co_completion c) -> co_state c = StateCompleted;
  ci_revoked : co_revoked c = true -> co_state c = StateCancelled;
  ci_attempts : 0 <= co_attempts c
}.

Inductive phase := AtSource | AtTarget | Done | Cancelled.

Definition phase_of (c : Coordinator) : phase :=
  if co_revoked c then Cancelled
  else match co_completion c with Some _ => Done | None => if co_fence c =? 1 then AtSource else AtTarget end.

(** The abstract handover: the task moves once from the source to the target,
    completes once on either side, and may be cancelled at any time. *)
Inductive pstep : phase -> phase -> Prop :=
| p_transfer : pstep AtSource AtTarget
| p_complete_source : pstep AtSource Done
| p_complete_target : pstep AtTarget Done
| p_cancel p : pstep p Cancelled.

(** One coordinator operation: the invariant holds, the phase stutters or takes
    an abstract step, and the receipt only ever appears. *)
Record co_step (c c' : Coordinator) : Prop := {
  cs_inv : co_inv c';
  cs_phase : phase_of c' = phase_of c \/ pstep (phase_of c) (phase_of c');
  cs_receipt : forall r, co_completion c = Some r -> co_completion c' = Some r;
  cs_target : co_fence c = 2 -> co_fence c' = 2 /\ co_checkpoint c' = co_checkpoint c
}.

Lemma co_step_refl c : co_inv c -> co_step c c.
Proof. intros Hi. split; [done|by left|done|done]. Qed.

Lemma co_inv_init taskID : co_inv (NewCoordinator taskID).
Proof. split; cbn; [by left|done|intros _ _; left; by split; [|left]|by intros _ [? ?]|done|done]. Qed.

(** The fields the invariant and the phase read. *)
Lemma co_step_same c c' :
  co_inv c -> co_fence c' = co_fence c -> co_completion c' = co_completion c -> co_revoked c' = co_revoked c -> co_taskID c' = co_taskID c ->
  co_state c' = co_state c -> co_checkpoint c' = co_checkpoint c -> co_attempts c' = co_attempts c -> co_step c c'.
Proof.
  intros [H1 H2 H3 H4 H5 H6] E1 E2 E3 E4 E5 E6 E7. split.
  - split; unfold live_state in *; rewrite ?E1, ?E2, ?E3, ?E4, ?E5, ?E6, ?E7; done.
  - left. unfold phase_of. by rewrite E1, E2, E3.
  - by rewrite E2.
  - by rewrite E1.
Qed.

Lemma commit_step now fence realm attempt res c : co_inv c -> co_step c (fst (commit now fence realm attempt res c)).
Proof.
  intros Hi. unfold commit. destruct (co_revoked c) eqn:Er; [by apply co_step_refl|].
  destruct (Z.eqb_spec fence (co_fence c)) as [->|]; [|by apply co_step_refl].
  destruct (co_completion c) eqn:Ec; [by apply co_step_refl|]. pose proof Hi as [H1 H2 H3 H4 H5 H6]. split; cbn.
  - split; cbn; try done; try congruence. by intros r [= <-].
  - right. unfold phase_of. cbn. rewrite Er, Ec. destruct (co_fence c =? 1); constructor.
  - congruence.
  - done.
Qed.

Lemma Revoke_step c : co_inv c -> co_step c (Revoke c).
Proof. intros [H1 H2 H3 H4 H5 H6]. split; [by split|right; unfold phase_of; cbn; constructor|done|done]. Qed.

Lemma Checkpoint_step `{GoRuntime} now bundle steps c : co_inv c -> co_step c (fst (Coordinator_Checkpoint now bundle steps c)).
Proof.
  intros Hi. unfold Coordinator_Checkpoint. destruct (co_revoked c) eqn:Er; [by apply co_step_refl|].
  destruct (negb _ && negb _) eqn:Es; [by apply co_step_refl|]. pose proof Hi as [H1 H2 H3 H4 H5 H6]. specialize (H3 Er). specialize (H4 Er).
  apply andb_false_iff in Es. rewrite !negb_false_iff, !bool_decide_eq_true in Es.
  destruct (co_completion c) as [r|] eqn:Ec; [rewrite H4 in Es by done; by destruct Es|].
  destruct (H3 eq_refl) as [[Ef _]|(_ & _ & [Hst|[Hst|Hst]])]; [|intuition congruence..].
  split; cbn.
  - split; cbn; rewrite ?Ec; [done..|intros _ _; left; cbn; tauto|by intros _ [? ?]|congruence|lia].
  - left. unfold phase_of. cbn. by rewrite Er, Ec.
  - congruence.
  - lia.
Qed.

Lemma Transfer_step realm c : co_inv c -> co_step c (fst (Transfer realm c)).
Proof.
  intros Hi. unfold Transfer. destruct (co_revoked c) eqn:Er; [by apply co_step_refl|].
  destruct (bool_decide (co_state c = StatePrepared)) eqn:Es; cbn [negb]; [|by apply co_step_refl]. apply bool_decide_eq_true in Es.
  destruct (default false _); [|by apply co_step_refl]. destruct (String.eqb realm RealmModal); [|by apply co_step_refl]. cbn [negb].
  destruct (co_checkpoint c) as [cp|] eqn:Ecp; [|by apply co_step_refl]. pose proof Hi as [H1 H2 H3 H4 H5 H6]. specialize (H3 Er). specialize (H4 Er).
  destruct (co_completion c) as [r|] eqn:Ec; [rewrite Es in H4; by specialize (H4 ltac:(done))|].
  destruct (H3 eq_refl) as [[Ef _]|(_ & _ & [Hst|[Hst|Hst]])]; [|intuition congruence..]. rewrite Ef. change ((1 + 1) mod 2 ^ 64) with 2.
  split; cbn.
  - split; cbn; rewrite ?Ec; [by right|done|intros _ _; right; cbn; by split_and!; [|eexists|left]|by intros _ [? ?]|congruence|lia].
  - right. unfold phase_of. cbn. rewrite Er, Ec, Ef. constructor.
  - congruence.
  - lia.
Qed.

Lemma resume_begin_step c c' r :
  co_inv c -> resume_begin c = (c', inr r) ->
  co_step c c' /\ co_fence c' = 2 /\ rn_fence r = 2 /\ co_checkpoint c' = Some (rn_cp r) /\ co_cleaning c = false /\ co_cleaning c' = false /\ co_targetActive c' = true /\
  co_completion c' = co_completion c /\ 1 <= rn_attempt r.
Proof.
  intros Hi. unfold resume_begin. destruct (co_revoked c) eqn:Er; [done|]. destruct (co_cleaning c) eqn:Ecl; [done|].
  destruct (co_completion c) eqn:Ec; [done|]. destruct (negb (resumable (co_state c))) eqn:Es; [done|].
  destruct (co_checkpoint c) as [cp|] eqn:Ecp; [|done]. intros [= <- <-]. cbn. pose proof Hi as [H1 H2 H3 H4 H5 H6]. specialize (H3 Er Ec).
  apply negb_false_iff in Es. unfold resumable in Es.
  destruct H3 as [[Ef [Hst|Hst]]|(Ef & _ & _)]; [by rewrite Hst in Es..|]. split_and!; try done; try lia. split; cbn.
  - split; cbn; rewrite ?Ec; [done..|intros _ _; right; cbn; by split_and!; [|eexists|right; left]|by intros _ [? ?]|congruence|lia].
  - left. unfold phase_of. cbn. by rewrite Er, ?Ec.
  - congruence.
  - done.
Qed.

Lemma resume_end_step failed c : co_inv c -> (co_revoked c = false -> co_completion c = None -> co_fence c = 2) -> co_step c (resume_end failed c).
Proof.
  intros Hi Hf. unfold resume_end. cbv zeta.
  destruct (failed && _ && _ && _ && _) eqn:E; [|by apply co_step_same].
  rewrite !andb_true_iff, !negb_true_iff in E. destruct E as ((((_ & Er) & Ec) & _) & _). cbn in Er, Ec.
  assert (co_completion c = None) as Hn by (by destruct (co_completion c)). clear Ec. specialize (Hf Er Hn).
  pose proof Hi as [I1 I2 I3 I4 I5 I6]. destruct (I3 Er Hn) as [[Ef _]|(Ef & Hcp & _)]; [congruence|]. split; cbn.
  - split; cbn; rewrite ?Hn; [done..|intros _ _; right; cbn; tauto|by intros _ [? ?]|congruence|lia].
  - by left.
  - done.
  - done.
Qed.

(** The operations that leave the cleanup flags alone. *)
Definition same_flags (c c' : Coordinator) : Prop := co_targetActive c' = co_targetActive c /\ co_cleaning c' = co_cleaning c.

Lemma Checkpoint_flags `{GoRuntime} now bundle steps c : same_flags c (fst (Coordinator_Checkpoint now bundle steps c)).
Proof. unfold Coordinator_Checkpoint. by repeat case_match. Qed.
Lemma Transfer_flags realm c : same_flags c (fst (Transfer realm c)).
Proof. unfold Transfer. by repeat case_match. Qed.
Lemma commit_flags now fence realm attempt res c : same_flags c (fst (commit now fence realm attempt res c)).
Proof. unfold commit. by repeat case_match. Qed.
Lemma resume_end_flags failed c :
  co_targetActive (resume_end failed c) = false /\ co_cleaning (resume_end failed c) = co_cleaning c /\
  co_completion (resume_end failed c) = co_completion c.
Proof. unfold resume_end. by repeat case_match. Qed.
Lemma Checkpoint_completion `{GoRuntime} now bundle steps c :
  co_completion (fst (Coordinator_Checkpoint now bundle steps c)) = co_completion c.
Proof. unfold Coordinator_Checkpoint. by repeat case_match. Qed.
Lemma Transfer_completion realm c : co_completion (fst (Transfer realm c)) = co_completion c.
Proof. unfold Transfer. by repeat case_match. Qed.

Lemma commit_cases now fence realm attempt res c c' ret :
  commit now fence realm attempt res c = (c', ret) ->
  (c' = c /\ exists e, ret = inr e) \/
  (co_completion c = None /\ co_completion c' = Some (MkCompletion (co_taskID c) fence realm attempt res now) /\
   ret = inl (MkCompletion (co_taskID c) fence realm attempt res now) /\ fence = co_fence c /\ co_revoked c = false).
Proof.
  unfold commit. intros E. destruct (co_revoked c); [left; naive_solver|].
  destruct (Z.eqb_spec fence (co_fence c)) as [->|]; [|left; naive_solver].
  destruct (co_completion c); [left; naive_solver|]. right. injection E as <- <-. done.
Qed.

(** ** Interleaved callers *)

(** Where a call of [Cleanup] stands. *)
Inductive cleaner := Waiting | TearingDown | SourceDone (s : CleanupReceipt) | TargetDone (s t : CleanupReceipt).

Section system.
Context `{GoRuntime} (source target : Executor).

(** The coordinator and both executors; the runs begun and not yet executed;
    those whose executor returned but whose call has not retaken the lock; the
    successful ones about to commit; the calls of [Cleanup]; and the receipts
    that successful commits returned. *)
Record system := MkHandover {
  hs_co : Coordinator; hs_src : x_state source; hs_tgt : x_state target; hs_pending : list run; hs_ran : list (run * (string + string));
  hs_committing : list (run * string); hs_cleaners : list cleaner; hs_receipts : list CompletionReceipt
}.

Definition with_co (s : system) (c : Coordinator) : system :=
  MkHandover c (hs_src s) (hs_tgt s) (hs_pending s) (hs_ran s) (hs_committing s) (hs_cleaners s) (hs_receipts s).
Definition with_cleaners (s : system) (l : list cleaner) : system :=
  MkHandover (hs_co s) (hs_src s) (hs_tgt s) (hs_pending s) (hs_ran s) (hs_committing s) l (hs_receipts s).

Definition returned_receipt (r : CompletionReceipt + option CompletionReceipt * handover_error) : list CompletionReceipt :=
  match r with inl receipt => [receipt] | inr _ => [] end.

(** [overlap] says whether [ResumeTarget] may be entered while another of its
    calls is between its two critical sections; the code allows it. *)
Inductive hstep (overlap : bool) : system -> system -> Prop :=
| h_checkpoint s now bundle steps : hstep overlap s (with_co s (fst (Coordinator_Checkpoint now bundle steps (hs_co s))))
| h_transfer s realm : hstep overlap s (with_co s (fst (Transfer realm (hs_co s))))
| h_revoke s : hstep overlap s (with_co s (Revoke (hs_co s)))
| h_begin s c' r :
    (overlap = true \/ (hs_pending s = [] /\ hs_ran s = [])) -> resume_begin (hs_co s) = (c', inr r) ->
    hstep overlap s (MkHandover c' (hs_src s) (hs_tgt s) (hs_pending s ++ [r])%list (hs_ran s) (hs_committing s) (hs_cleaners s) (hs_receipts s))
| h_run s pre r post :
    hs_pending s = (pre ++ r :: post)%list ->
    hstep overlap s
      (let '(st, res) := x_Run target (rn_cp r) (rn_fence r) (rn_attempt r) (hs_tgt s) in
       MkHandover (hs_co s) (hs_src s) st (pre ++ post)%list (hs_ran s ++ [(r, res)])%list (hs_committing s) (hs_cleaners s) (hs_receipts s))
| h_end_failed s pre r err post :
    hs_ran s = (pre ++ (r, inr err) :: post)%list ->
    hstep overlap s (MkHandover (resume_end true (hs_co s)) (hs_src s) (hs_tgt s) (hs_pending s) (pre ++ post)%list (hs_committing s)
                       (hs_cleaners s) (hs_receipts s))
| h_end_ok s pre r res post :
    hs_ran s = (pre ++ (r, inl res) :: post)%list ->
    hstep overlap s (MkHandover (resume_end false (hs_co s)) (hs_src s) (hs_tgt s) (hs_pending s) (pre ++ post)%list
                       (hs_committing s ++ [(r, res)])%list (hs_cleaners s) (hs_receipts s))
| h_commit s now pre r res post :
    hs_committing s = (pre ++ (r, res) :: post)%list ->
    hstep overlap s
      (let '(c', ret) := commit now (rn_fence r) (x_Realm target) (rn_attempt r) res (hs_co s) in
       MkHandover c' (hs_src s) (hs_tgt s) (hs_pending s) (hs_ran s) (pre ++ post)%list (hs_cleaners s)
         (hs_receipts s ++ returned_receipt ret)%list)
| h_commit_under s now fence realm res :
    hstep overlap s
      (let '(c', ret) := CommitUnderFence now fence realm res (hs_co s) in
       MkHandover c' (hs_src s) (hs_tgt s) (hs_pending s) (hs_ran s) (hs_committing s) (hs_cleaners s) (hs_receipts s ++ returned_receipt ret)%list)
| h_clean_begin s :
    hstep overlap s (MkHandover (cleanup_begin (hs_co s)) (hs_src s) (hs_tgt s) (hs_pending s) (hs_ran s) (hs_committing s)
                       (hs_cleaners s ++ [Waiting])%list (hs_receipts s))
| h_clean_timeout s pre post :
    hs_cleaners s = (pre ++ Waiting :: post)%list -> hstep overlap s (with_cleaners s (pre ++ post)%list)
| h_clean_go s pre post :
    hs_cleaners s = (pre ++ Waiting :: post)%list -> cleanup_ready (hs_co s) = true ->
    hstep overlap s (with_cleaners s (pre ++ TearingDown :: post)%list)
| h_clean_source s pre post :
    hs_cleaners s = (pre ++ TearingDown :: post)%list ->
    hstep overlap s
      (let '(st, rc) := x_Cleanup source (co_taskID (hs_co s)) (hs_src s) in
       MkHandover (hs_co s) st (hs_tgt s) (hs_pending s) (hs_ran s) (hs_committing s) (pre ++ SourceDone rc :: post)%list (hs_receipts s))
| h_clean_target s pre src post :
    hs_cleaners s = (pre ++ SourceDone src :: post)%list ->
    hstep overlap s
      (let '(st, rc) := x_Cleanup target (co_taskID (hs_co s)) (hs_tgt s) in
       MkHandover (hs_co s) (hs_src s) st (hs_pending s) (hs_ran s) (hs_committing s) (pre ++ TargetDone src rc :: post)%list (hs_receipts s))
| h_clean_record s pre src tgt post :
    hs_cleaners s = (pre ++ TargetDone src tgt :: post)%list ->
    hstep overlap s (MkHandover (cleanup_record (cleanup_merge src tgt) (hs_co s)) (hs_src s) (hs_tgt s) (hs_pending s) (hs_ran s)
                       (hs_committing s) (pre ++ post)%list (hs_receipts s)).

Definition hs_init (taskID : string) (st1 : x_state source) (st2 : x_state target) : system :=
  MkHandover (NewCoordinator taskID) st1 st2 [] [] [] [] [].

(** *** The invariant of the interleaving *)

(** The runs that a call of [ResumeTarget] still holds. *)
Definition runs_of (s : system) : list run := (hs_pending s ++ (fst <$> hs_ran s) ++ (fst <$> hs_committing s))%list.

(** The runs between the two critical sections of [ResumeTarget]. *)
Definition in_flight (s : system) : list run := (hs_pending s ++ (fst <$> hs_ran s))%list.

Record h_inv (s : system) : Prop := {
  hi_co : co_inv (hs_co s);
  hi_receipts : hs_receipts s = option_list (co_completion (hs_co s));
  hi_runs : forall r, r ∈ runs_of s -> rn_fence r = 2 /\ 1 <= rn_attempt r /\ co_fence (hs_co s) = 2 /\ co_checkpoint (hs_co s) = Some (rn_cp r);
  hi_active : co_targetActive (hs_co s) = true -> in_flight s <> [];
  hi_cleaning : hs_cleaners s <> [] -> co_cleaning (hs_co s) = true
}.

Lemma h_inv_init taskID st1 st2 : h_inv (hs_init taskID st1 st2).
Proof. split; cbn; try done; [apply co_inv_init|]. intros r Hr. by apply not_elem_of_nil in Hr. Qed.

(** A coordinator operation under which no run appears. *)
Lemma h_inv_op s s' :
  h_inv s -> co_step (hs_co s) (hs_co s') -> hs_receipts s' = option_list (co_completion (hs_co s')) ->
  (forall r, r ∈ runs_of s' -> r ∈ runs_of s) ->
  (co_targetActive (hs_co s') = true -> in_flight s' <> []) -> (hs_cleaners s' <> [] -> co_cleaning (hs_co s') = true) -> h_inv s'.
Proof.
  intros [H1 H2 H3 H4 H5] [C1 C2 C3 C4] Hr Hruns Ha Hc. split; try done.
  intros r Hin. destruct (H3 r (Hruns r Hin)) as (E1 & Ea & E2 & E3). destruct (C4 E2) as [F1 F2]. by rewrite F1, F2.
Qed.

Lemma mid_not_nil {A} (pre post : list A) x : (pre ++ x :: post)%list <> [].
Proof. by destruct pre. Qed.

Lemma commit_receipts now fence realm attempt res c c' ret l :
  commit now fence realm attempt res c = (c', ret) -> l = option_list (co_completion c) ->
  (l ++ returned_receipt ret)%list = option_list (co_completion c').
Proof.
  intros [[-> [e ->]]|(E1 & E2 & -> & _)]%commit_cases Hl; subst l; cbn; [by rewrite app_nil_r|]. by rewrite E1, E2.
Qed.

(** A step of [Cleanup] after its first. *)
Ltac clean_case s H5 Hc :=
  apply (h_inv_op s); cbn; try done; [by apply co_step_same|intros _; apply H5; rewrite Hc; apply mid_not_nil].

Lemma elem_of_mid {A} (x y : A) pre post : x ∈ (pre ++ post)%list -> x ∈ (pre ++ y :: post)%list.
Proof. rewrite !elem_of_app, elem_of_cons. tauto. Qed.

Ltac runs_solver :=
  cbn in *; repeat first [rewrite elem_of_app in * | rewrite elem_of_cons in * | rewrite elem_of_nil in *]; tauto.

Lemma h_inv_step o s s' : h_inv s -> hstep o s s' -> h_inv s'.
Proof.
  intros Hi Hs. pose proof Hi as [H1 H2 H3 H4 H5].
  destruct Hs as [s now bundle steps|s realm|s|s c' r Ho Hb|s pre r post Hp|s pre r err post Hr|s pre r res post Hr
    |s now pre r res post Hc|s now fence realm res|s|s pre post Hc|s pre post Hc Hg|s pre post Hc|s pre src post Hc|s pre src tgt post Hc].
  - destruct (Checkpoint_flags now bundle steps (hs_co s)) as [Fa Fc]. apply (h_inv_op s); cbn; rewrite ?Fa, ?Fc, ?Checkpoint_completion; try done.
    by apply Checkpoint_step.
  - destruct (Transfer_flags realm (hs_co s)) as [Fa Fc]. apply (h_inv_op s); cbn; rewrite ?Fa, ?Fc, ?Transfer_completion; try done.
    by apply Transfer_step.
  - apply (h_inv_op s); cbn; try done. by apply Revoke_step.
  - destruct (resume_begin_step _ _ _ H1 Hb) as ([C1 C2 C3 C4] & Ef & Er & Ecp & Ecl & Ecl' & Eact & Ecomp & Eat). split; cbn; try done.
    + by rewrite Ecomp.
    + intros r' Hr'. assert (r' = r \/ r' ∈ runs_of s) as [->|Hin].
      { unfold runs_of in *. cbn in Hr'. rewrite !elem_of_app, list_elem_of_singleton in *. tauto. }
      * done.
      * destruct (H3 r' Hin) as (E1 & E2 & E3 & E4). destruct (C4 E3) as [F1 F2]. by rewrite F1, F2.
    + intros _. unfold in_flight. cbn. rewrite <- app_assoc. apply mid_not_nil.
    + intros Hne. rewrite H5 in Ecl by done. done.
  - destruct (x_Run target (rn_cp r) (rn_fence r) (rn_attempt r) (hs_tgt s)) as [st res]. split; cbn; try done.
    + intros r' Hr'. apply H3. unfold runs_of in *. cbn in Hr'. rewrite Hp, fmap_app in *. runs_solver.
    + intros Ha. unfold in_flight. cbn. rewrite fmap_app. cbn. by destruct (pre ++ post)%list, (fst <$> hs_ran s).
  - destruct (resume_end_flags true (hs_co s)) as (Fa & Fc & Fk). apply (h_inv_op s); cbn; rewrite ?Fa, ?Fc, ?Fk; try done.
    + apply resume_end_step; [done|]. intros _ _. apply (H3 r). unfold runs_of. rewrite Hr, fmap_app. runs_solver.
    + intros r' Hr'. unfold runs_of in *. cbn in Hr'. rewrite Hr, !fmap_app in *. runs_solver.
  - destruct (resume_end_flags false (hs_co s)) as (Fa & Fc & Fk). apply (h_inv_op s); cbn; rewrite ?Fa, ?Fc, ?Fk; try done.
    + apply (resume_end_step false (hs_co s)); [done|]. intros _ _. apply (H3 r). unfold runs_of. rewrite Hr, fmap_app. runs_solver.
    + intros r' Hr'. unfold runs_of in *. cbn in Hr'. rewrite Hr, !fmap_app in *. runs_solver.
  - destruct (commit now (rn_fence r) (x_Realm target) (rn_attempt r) res (hs_co s)) as [c' ret] eqn:Ec.
    pose proof (commit_flags now (rn_fence r) (x_Realm target) (rn_attempt r) res (hs_co s)) as [Fa Fc]. rewrite Ec in Fa, Fc. cbn in Fa, Fc.
    apply (h_inv_op s); cbn; rewrite ?Fa, ?Fc; try done.
    + pose proof (commit_step now (rn_fence r) (x_Realm target) (rn_attempt r) res (hs_co s) H1) as Hst. by rewrite Ec in Hst.
    + by eapply commit_receipts.
    + intros r' Hr'. unfold runs_of in *. cbn in Hr'. rewrite Hc, !fmap_app in *. runs_solver.
  - unfold CommitUnderFence. destruct (commit now fence realm 0 res (hs_co s)) as [c' ret] eqn:Ec.
    pose proof (commit_flags now fence realm 0 res (hs_co s)) as [Fa Fc]. rewrite Ec in Fa, Fc. cbn in Fa, Fc.
    apply (h_inv_op s); cbn; rewrite ?Fa, ?Fc; try done.
    + pose proof (commit_step now fence realm 0 res (hs_co s) H1) as Hst. by rewrite Ec in Hst.
    + by eapply commit_receipts.
  - apply (h_inv_op s); cbn; try done. by apply co_step_same.
  - clean_case s H5 Hc.
  - clean_case s H5 Hc.
  - destruct (x_Cleanup source _ _). clean_case s H5 Hc.
  - destruct (x_Cleanup target _ _). clean_case s H5 Hc.
  - clean_case s H5 Hc.
Qed.

Lemma h_inv_rtc o s s' : h_inv s -> rtc (hstep o) s s' -> h_inv s'.
Proof. intros Hi Hr. induction Hr as [|x y z Hs _ IH]; [done|]. apply IH. by eapply h_inv_step. Qed.

Lemma h_inv_reachable o taskID st1 st2 s : rtc (hstep o) (hs_init taskID st1 st2) s -> h_inv s.
Proof. apply h_inv_rtc, h_inv_init. Qed.

(** What a step does to the coordinator. *)
Lemma hstep_co o s s' : h_inv s -> hstep o s s' -> co_step (hs_co s) (hs_co s').
Proof.
  intros Hi Hs. pose proof Hi as [H1 _ H3 _ _].
  assert (forall r e pre post, hs_ran s = (pre ++ (r, e) :: post)%list -> co_fence (hs_co s) = 2) as Hran.
  { intros r e pre post E. apply (H3 r). unfold runs_of. rewrite E, fmap_app. cbn. rewrite !elem_of_app, elem_of_cons. tauto. }
  destruct Hs; cbn; try (by apply co_step_same).
  - by apply Checkpoint_step.
  - by apply Transfer_step.
  - by apply Revoke_step.
  - by eapply resume_begin_step.
  - destruct (x_Run _ _ _ _ _). by apply co_step_refl.
  - apply resume_end_step; [done|]. intros _ _. by eapply Hran.
  - pose proof (commit_step now (rn_fence r) (x_Realm target) (rn_attempt r) res (hs_co s) H1) as Hst. by destruct (commit _ _ _ _ _ _).
  - pose proof (commit_step now fence realm 0 res (hs_co s) H1) as Hst. unfold CommitUnderFence. by destruct (commit _ _ _ _ _ _).
  - destruct (x_Cleanup _ _ _). by apply co_step_refl.
  - destruct (x_Cleanup _ _ _). by apply co_step_refl.
Qed.

Lemma hstep_revoked o s s' :
  hstep o s s' -> co_revoked (hs_co s) = true -> co_revoked (hs_co s') = true /\ co_completion (hs_co s') = co_completion (hs_co s).
Proof.
  intros Hs Hr. destruct Hs; cbn; try done.
  - unfold Coordinator_Checkpoint. by rewrite Hr.
  - unfold Transfer. by rewrite Hr.
  - unfold resume_begin in *. rewrite Hr in *. done.
  - by destruct (x_Run _ _ _ _ _).
  - unfold resume_end. by case_match.
  - unfold commit. by rewrite Hr.
  - unfold CommitUnderFence, commit. by rewrite Hr.
  - by destruct (x_Cleanup _ _ _).
  - by destruct (x_Cleanup _ _ _).
Qed.

(** *** Cleanup *)

(** A call of [Cleanup] that has stopped waiting. *)
Definition tearing_down (k : cleaner) : Prop := k <> Waiting.

(** When calls of [ResumeTarget] do not overlap. *)
Record q_inv (s : system) : Prop := {
  qi_one : (length (in_flight s) <= 1)%nat;
  qi_idle : co_targetActive (hs_co s) = false -> in_flight s = [];
  qi_torn : Exists tearing_down (hs_cleaners s) -> in_flight s = []
}.

Lemma q_same s s' :
  q_inv s -> in_flight s' = in_flight s -> co_targetActive (hs_co s') = co_targetActive (hs_co s) ->
  (Exists tearing_down (hs_cleaners s') -> Exists tearing_down (hs_cleaners s)) -> q_inv s'.
Proof. intros [H1 H2 H3] E1 E2 E3. split; rewrite E1, ?E2; auto. Qed.

Lemma q_emptied s' : in_flight s' = [] -> q_inv s'.
Proof. intros E. by split; rewrite E; cbn; [lia|..]. Qed.

Lemma Exists_mid (P : cleaner -> Prop) pre k post : Exists P (pre ++ k :: post)%list <-> P k \/ Exists P (pre ++ post)%list.
Proof. rewrite !Exists_app, Exists_cons. tauto. Qed.

(** The last run in flight leaves. *)
Lemma in_flight_last s pre r e post :
  q_inv s -> hs_ran s = (pre ++ (r, e) :: post)%list -> (hs_pending s ++ (fst <$> (pre ++ post)))%list = [].
Proof.
  intros [H1 _ _] E. unfold in_flight in H1. rewrite E in H1. apply nil_length_inv.
  rewrite length_app, length_fmap, length_app in *. cbn in H1. lia.
Qed.

Lemma q_inv_step s s' : h_inv s -> q_inv s -> hstep false s s' -> q_inv s'.
Proof.
  intros [H1 _ _ _ H5] Hq Hs.
  destruct Hs as [s now bundle steps|s realm|s|s c' r Ho Hb|s pre r post Hp|s pre r err post Hr|s pre r res post Hr
    |s now pre r res post Hc|s now fence realm res|s|s pre post Hc|s pre post Hc Hg|s pre post Hc|s pre src post Hc|s pre src tgt post Hc].
  - apply (q_same s); try done. apply Checkpoint_flags.
  - apply (q_same s); try done. apply Transfer_flags.
  - by apply (q_same s).
  - destruct Ho as [|[E1 E2]]; [done|]. destruct (resume_begin_step _ _ _ H1 Hb) as (_ & _ & _ & _ & Ecl & _ & Ea & _).
    split; unfold in_flight; cbn; rewrite ?E1, ?E2, ?Ea; cbn; try done. intros He. rewrite H5 in Ecl; [done|]. intros E. rewrite E in He. by inv He.
  - destruct (x_Run target _ _ _ _) as [st res]. destruct Hq as [Q1 Q2 Q3].
    assert (in_flight s <> []) as Hne by (unfold in_flight; rewrite Hp, <- app_assoc; apply mid_not_nil).
    split; cbn; [|by intros E%Q2|by intros E%Q3]. unfold in_flight in *. cbn. rewrite Hp in Q1.
    rewrite fmap_app, !length_app in *. cbn in *. lia.
  - apply q_emptied. exact (in_flight_last s pre r _ post Hq Hr).
  - apply q_emptied. exact (in_flight_last s pre r _ post Hq Hr).
  - pose proof (commit_flags now (rn_fence r) (x_Realm target) (rn_attempt r) res (hs_co s)) as [Fa _].
    destruct (commit _ _ _ _ _ _). by apply (q_same s).
  - pose proof (commit_flags now fence realm 0 res (hs_co s)) as [Fa _]. unfold CommitUnderFence. destruct (commit _ _ _ _ _ _). by apply (q_same s).
  - apply (q_same s); try done. cbn. rewrite Exists_app, Exists_cons, Exists_nil. unfold tearing_down. tauto.
  - apply (q_same s); try done. cbn. rewrite Hc, Exists_mid. tauto.
  - destruct Hq as [Q1 Q2 Q3]. apply q_emptied. apply Q2. unfold cleanup_ready in Hg. by apply negb_true_iff in Hg.
  - destruct (x_Cleanup source _ _). apply (q_same s); try done. cbn. rewrite Hc, !Exists_mid. unfold tearing_down. naive_solver.
  - destruct (x_Cleanup target _ _). apply (q_same s); try done. cbn. rewrite Hc, !Exists_mid. unfold tearing_down. naive_solver.
  - apply (q_same s); try done. cbn. rewrite Hc, !Exists_mid. tauto.
Qed.

Lemma q_inv_reachable taskID st1 st2 s : rtc (hstep false) (hs_init taskID st1 st2) s -> q_inv s.
Proof.
  intros Hr. assert (h_inv (hs_init taskID st1 st2) /\ q_inv (hs_init taskID st1 st2)) as Hi.
  { split; [apply h_inv_init|]. by apply q_emptied. }
  clear -Hr Hi. induction Hr as [x|x y z Hs _ IH]; [tauto|]. apply IH. destruct Hi as [H1 H2]. split; [by eapply h_inv_step|by eapply q_inv_step].
Qed.


(** *** Results of a pure target *)

Context `{!PureExecutor target}.

Definition run_result (r : run) : string := pure_result (rn_cp r) (rn_fence r).

Record r_inv (s : system) : Prop := {
  ri_ran : forall r res, (r, inl res) ∈ hs_ran s -> res = run_result r;
  ri_committing : forall r res, (r, res) ∈ hs_committing s -> res = run_result r;
  ri_done : forall rc, co_completion (hs_co s) = Some rc -> cr_Attempt rc <> 0 ->
    co_fence (hs_co s) = 2 /\ exists cp, co_checkpoint (hs_co s) = Some cp /\ cr_ResultDigest rc = pure_result cp 2
}.

(** A step that neither returns from a run nor commits. *)
Lemma r_same s s' :
  r_inv s -> co_step (hs_co s) (hs_co s') -> co_completion (hs_co s') = co_completion (hs_co s) ->
  (forall x, x ∈ hs_ran s' -> x ∈ hs_ran s) -> (forall x, x ∈ hs_committing s' -> x ∈ hs_committing s) -> r_inv s'.
Proof.
  intros [H1 H2 H3] [_ _ _ C4] Ec Er Ek. split; [eauto..|]. rewrite Ec. intros rc Hrc Ha. destruct (H3 rc Hrc Ha) as (Ef & cp & Ecp & Ed).
  destruct (C4 Ef) as [-> ->]. split; [done|by exists cp].
Qed.

Lemma r_commit s now fence realm attempt res c' ret :
  h_inv s -> r_inv s -> commit now fence realm attempt res (hs_co s) = (c', ret) ->
  (attempt <> 0 -> exists r, r ∈ runs_of s /\ res = run_result r) ->
  forall rc, co_completion c' = Some rc -> cr_Attempt rc <> 0 ->
  co_fence c' = 2 /\ exists cp, co_checkpoint c' = Some cp /\ cr_ResultDigest rc = pure_result cp 2.
Proof.
  intros Hi [_ _ R3] Hc Hatt rc Hrc Ha. pose proof (commit_step now fence realm attempt res _ (hi_co s Hi)) as [_ _ _ C4]. rewrite Hc in C4. cbn in C4.
  apply commit_cases in Hc as [[-> _]|(_ & Ec & _ & _)]; [by apply R3|]. rewrite Ec in Hrc. injection Hrc as <-. cbn in Ha |- *.
  destruct (Hatt Ha) as (r & Hr & ->). destruct (hi_runs s Hi r Hr) as (Ef & _ & Ef2 & Ecp). destruct (C4 Ef2) as [-> ->]. split; [done|].
  exists (rn_cp r). unfold run_result. by rewrite Ef.
Qed.

Lemma r_inv_step o s s' : h_inv s -> r_inv s -> hstep o s s' -> r_inv s'.
Proof.
  intros Hi Hr Hs. pose proof (hstep_co o s s' Hi Hs) as Hco. pose proof Hr as [R1 R2 R3].
  destruct Hs as [s now bundle steps|s realm|s|s c' r Ho Hb|s pre r post Hp|s pre r err post E|s pre r res post E
    |s now pre r res post E|s now fence realm res|s|s pre post Hc|s pre post Hc Hg|s pre post Hc|s pre src post Hc|s pre src tgt post Hc].
  - apply (r_same s); try done. apply Checkpoint_completion.
  - apply (r_same s); try done. apply Transfer_completion.
  - by apply (r_same s).
  - apply (r_same s); try done. by eapply resume_begin_step in Hb as (_ & _ & _ & _ & _ & _ & _ & ? & _); [|apply Hi].
  - destruct (x_Run target _ _ _ _) as [st res'] eqn:Ex. split; cbn; try done.
    intros r' res [Hin|[= -> <-]%list_elem_of_singleton]%elem_of_app; [by apply R1|by eapply pure_Run].
  - apply (r_same s); try done; [apply resume_end_flags|]. cbn. intros x Hx. rewrite E. by apply elem_of_mid.
  - split; cbn.
    + intros r' res' Hin. apply R1. rewrite E. by apply elem_of_mid.
    + intros r' res' [Hin|[= -> ->]%list_elem_of_singleton]%elem_of_app; [by apply R2|]. apply R1. rewrite E, elem_of_app, elem_of_cons. tauto.
    + by apply R3.
  - assert (exists r0, r0 ∈ runs_of s /\ res = run_result r0) as Hres.
    { exists r. split; [|apply R2; rewrite E, elem_of_app, elem_of_cons; tauto].
      unfold runs_of. rewrite E, fmap_app. cbn. rewrite !elem_of_app, elem_of_cons. tauto. }
    destruct (commit now _ _ _ _ _) as [c' ret] eqn:Ec. split; cbn; [done| |by eapply r_commit].
    intros r' res' Hin. apply R2. rewrite E. by apply elem_of_mid.
  - unfold CommitUnderFence in *. destruct (commit now _ _ _ _ _) as [c' ret] eqn:Ec. split; cbn; [done..|]. by eapply r_commit.
  - by apply (r_same s).
  - by apply (r_same s).
  - by apply (r_same s).
  - destruct (x_Cleanup source _ _). by apply (r_same s).
  - destruct (x_Cleanup target _ _). by apply (r_same s).
  - by apply (r_same s).
Qed.

Lemma r_inv_reachable o taskID st1 st2 s : rtc (hstep o) (hs_init taskID st1 st2) s -> r_inv s.
Proof.
  intros Hr. assert (h_inv (hs_init taskID st1 st2) /\ r_inv (hs_init taskID st1 st2)) as Hi.
  { split; [apply h_inv_init|]. split; cbn; [intros r res Hx; by apply not_elem_of_nil in Hx..|done]. }
  clear -Hr Hi. induction Hr as [x|x y z Hs _ IH]; [tauto|]. apply IH. destruct Hi as [H1 H2]. split; [by eapply h_inv_step|by eapply r_inv_step].
Qed.
End system.

Arguments hs_co {source target} _.
Arguments hs_receipts {source target} _.
Arguments hs_committing {source target} _.
Arguments hs_cleaners {source target} _.
Arguments hs_pending {source target} _.
Arguments hs_ran {source target} _.
Arguments in_flight {source target} _.

(** ** Properties *)

(** However the callers interleave, the task is handed over as one abstract
    task: each step leaves its phase (at the source, at the target, done,
    cancelled) or takes one abstract step from it. *)
Theorem handover_refines_phases `{GoRuntime} source target o taskID st1 st2 s s' :
  rtc (hstep source target o) (hs_init source target taskID st1 st2) s -> hstep source target o s s' ->
  phase_of (hs_co s') = phase_of (hs_co s) \/ pstep (phase_of (hs_co s)) (phase_of (hs_co s')).
Proof. intros Hr Hs. by eapply hstep_co, cs_phase in Hs; [|eapply h_inv_reachable]. Qed.

(** C27. At most one commit ever succeeds, however many attempts run and retry
    concurrently: the receipts returned by successful commits are exactly the
    recorded completion, which is never replaced and carries the fence that is
    current from then on. *)
Theorem handover_completes_once `{GoRuntime} source target o taskID st1 st2 s s' :
  rtc (hstep source target o) (hs_init source target taskID st1 st2) s -> rtc (hstep source target o) s s' ->
  (length (hs_receipts s') <= 1)%nat /\ hs_receipts s' = option_list (Completion (hs_co s')) /\
  forall r, Completion (hs_co s) = Some r -> hs_receipts s' = [r] /\ cr_Fence r = CurrentFence (hs_co s').
Proof.
  intros Hr Hs. pose proof (h_inv_reachable _ _ o taskID st1 st2 s Hr) as Hi. pose proof (h_inv_rtc _ _ o s s' Hi Hs) as Hi'.
  pose proof (hi_receipts _ _ s' Hi') as E. unfold Completion, CurrentFence. split_and!; [rewrite E; by destruct (co_completion (hs_co s')); cbn; lia|done|].
  intros r Hc. assert (co_completion (hs_co s') = Some r) as Hc'.
  { clear E Hi' Hr. induction Hs as [|x y z Hxy _ IH]; [done|]. apply IH; [by eapply h_inv_step|]. by eapply hstep_co, cs_receipt in Hxy. }
  rewrite E, Hc'. split; [done|]. by apply (ci_receipt _ (hi_co _ _ s' Hi')).
Qed.

(** Once the task is transferred, the source has lost its right to commit
    for good: a commit under its fence is refused and changes nothing; and a
    run of the target is never refused as stale. *)
Theorem transfer_moves_commit_right `{GoRuntime} source target o taskID st1 st2 s :
  rtc (hstep source target o) (hs_init source target taskID st1 st2) s -> CurrentFence (hs_co s) <> 1 ->
  (forall now realm res, exists e, commit now 1 realm 0 res (hs_co s) = (hs_co s, inr (None, e)) /\ (e = ErrStaleFence \/ e = ErrRevoked)) /\
  (forall now realm r res, (r, res) ∈ hs_committing s ->
     snd (commit now (rn_fence r) realm (rn_attempt r) res (hs_co s)) <> inr (None, ErrStaleFence)).
Proof.
  intros Hr Hf. pose proof (h_inv_reachable _ _ o taskID st1 st2 s Hr) as Hi. unfold CurrentFence in Hf. unfold commit. split.
  - intros now realm res. destruct (co_revoked (hs_co s)); [eauto|]. rewrite (proj2 (Z.eqb_neq 1 (co_fence (hs_co s)))) by congruence. cbn. eauto.
  - intros now realm r res Hin. destruct (hi_runs _ _ s Hi r) as (Er & _ & Ef & _).
    { unfold runs_of. rewrite !elem_of_app, !list_elem_of_fmap. right. right. by exists (r, res). }
    rewrite Er, Ef. cbn. by destruct (co_revoked (hs_co s)), (co_completion (hs_co s)).
Qed.

(** Revocation is final: no later step completes the task or withdraws the
    revocation. *)
Theorem revocation_is_final `{GoRuntime} source target o s s' :
  rtc (hstep source target o) s s' -> co_revoked (hs_co s) = true ->
  co_revoked (hs_co s') = true /\ Completion (hs_co s') = Completion (hs_co s).
Proof.
  intros Hs Hr. unfold Completion. induction Hs as [|x y z Hxy _ IH]; [done|]. destruct (hstep_revoked _ _ o x y Hxy Hr) as [E1 <-]. by apply IH.
Qed.

(** At-least-once retry is safe: with a target whose result depends only on
    the checkpoint and the fence (both executors are such), the completion a
    run commits has the one result of the sealed checkpoint under the current
    fence, whichever attempt commits. *)
Theorem retries_agree `{GoRuntime} source target `{!PureExecutor target} o taskID st1 st2 s r :
  rtc (hstep source target o) (hs_init source target taskID st1 st2) s -> Completion (hs_co s) = Some r -> cr_Attempt r <> 0 ->
  exists cp, co_checkpoint (hs_co s) = Some cp /\ cr_ResultDigest r = pure_result cp (CurrentFence (hs_co s)).
Proof.
  intros Hr Hc Ha. unfold CurrentFence. destruct (ri_done _ _ s (r_inv_reachable _ _ o taskID st1 st2 s Hr) r Hc Ha) as (Ef & cp & Ecp & Ed).
  exists cp. by rewrite Ef.
Qed.

(** When calls of [ResumeTarget] do not overlap, a [Cleanup] that has
    started tearing down races with no run. *)
Theorem cleanup_waits_for_the_run `{GoRuntime} source target taskID st1 st2 s :
  rtc (hstep source target false) (hs_init source target taskID st1 st2) s -> Exists tearing_down (hs_cleaners s) ->
  in_flight s = [].
Proof. intros Hr. apply (qi_torn _ _ s). by eapply q_inv_reachable. Qed.

(** [Cleanup] never waits without a run in flight, so it ends once the runs do. *)
Lemma cleanup_waits_for_something `{GoRuntime} source target o taskID st1 st2 s :
  rtc (hstep source target o) (hs_init source target taskID st1 st2) s -> cleanup_ready (hs_co s) = false -> in_flight s <> [].
Proof. intros Hr Hg. apply (hi_active _ _ s); [by eapply h_inv_reachable|]. unfold cleanup_ready in Hg. by apply negb_false_iff. Qed.

(** *** A concrete interleaving of two runs and a cleanup *)

Module HandoverRace.
Section race.
Context `{GoRuntime}.

Definition cp : Checkpoint := prepared_checkpoint 0 "b" [] (NewCoordinator "t").
Definition allowed : gmap string bool := co_allowed (NewCoordinator "t").
Definition run_digest : string := sha256_hex ("b" ++ "|modal|" ++ hexUint 2).
Definition app_record : gmap string string := {["t" := "ouroboros-stage13-handover-t"]}.
Definition r1 : run := MkRun cp 2 1.
Definition r2 : run := MkRun cp 2 2.
Definition torn : CleanupReceipt := MkCleanup [] ["ouroboros-stage13-handover-t"] [] true.

Definition co (fence : Z) (st : HandoverState) (cleaning active : bool) (attempts : Z) (cleanups : list CleanupReceipt) : Coordinator :=
  MkCoordinator "t" fence st (Some cp) None false cleaning active allowed attempts cleanups.

Abbreviation sys := (MkHandover LocalExecutor ModalExecutor).
Abbreviation step := (hstep LocalExecutor ModalExecutor true).

Definition s0 := hs_init LocalExecutor ModalExecutor "t" NewLocalExecutor NewModalExecutor.
Definition s1 := sys (co 1 StatePrepared false false 0 []) NewLocalExecutor NewModalExecutor [] [] [] [] [].
Definition s2 := sys (co 2 StateFenceAdvanced false false 0 []) NewLocalExecutor NewModalExecutor [] [] [] [] [].
Definition s3 := sys (co 2 StateRunningTarget false true 1 []) NewLocalExecutor NewModalExecutor [r1] [] [] [] [].
Definition s4 := sys (co 2 StateRunningTarget false true 2 []) NewLocalExecutor NewModalExecutor [r1; r2] [] [] [] [].
Definition s5 := sys (co 2 StateRunningTarget false true 2 []) NewLocalExecutor (MkModal app_record false) [r2] [(r1, inl run_digest)] [] [] [].
Definition s6 := sys (co 2 StateRunningTarget false false 2 []) NewLocalExecutor (MkModal app_record false) [r2] [] [(r1, run_digest)] [] [].
Definition s7 := sys (co 2 StateRunningTarget true false 2 []) NewLocalExecutor (MkModal app_record false) [r2] [] [(r1, run_digest)] [Waiting] [].
Definition s8 := sys (co 2 StateRunningTarget true false 2 []) NewLocalExecutor (MkModal app_record false) [r2] [] [(r1, run_digest)] [TearingDown] [].
Definition s9 := sys (co 2 StateRunningTarget true false 2 []) NewLocalExecutor (MkModal app_record false) [r2] [] [(r1, run_digest)]
  [SourceDone (MkCleanup [] [] [] true)] [].
Definition s10 := sys (co 2 StateRunningTarget true false 2 []) NewLocalExecutor NewModalExecutor [r2] [] [(r1, run_digest)]
  [TargetDone (MkCleanup [] [] [] true) torn] [].
Definition s11 := sys (co 2 StateRunningTarget true false 2 [torn]) NewLocalExecutor NewModalExecutor [r2] [] [(r1, run_digest)] [] [].
Definition s12 := sys (co 2 StateRunningTarget true false 2 [torn]) NewLocalExecutor (MkModal app_record false) [] [(r2, inl run_digest)] [(r1, run_digest)] [] [].

Lemma step_to a b c : step a b -> b = c -> step a c.
Proof. by intros ? <-. Qed.

Lemma race_reachable : rtc step s0 s12.
Proof.
  apply rtc_l with s1; [eapply step_to; [exact (h_checkpoint _ _ true s0 0 "b" [])|reflexivity]|].
  apply rtc_l with s2; [eapply step_to; [exact (h_transfer _ _ true s1 RealmModal)|reflexivity]|].
  apply rtc_l with s3; [eapply step_to; [eapply (h_begin _ _ true s2); [by left|reflexivity]|reflexivity]|].
  apply rtc_l with s4; [eapply step_to; [eapply (h_begin _ _ true s3); [by left|reflexivity]|reflexivity]|].
  apply rtc_l with s5; [eapply step_to; [eapply (h_run _ _ true s4 [] r1 [r2]); reflexivity|reflexivity]|].
  apply rtc_l with s6; [eapply step_to; [eapply (h_end_ok _ _ true s5 [] r1 run_digest []); reflexivity|reflexivity]|].
  apply rtc_l with s7; [eapply step_to; [exact (h_clean_begin _ _ true s6)|reflexivity]|].
  apply rtc_l with s8; [eapply step_to; [eapply (h_clean_go _ _ true s7 [] []); reflexivity|reflexivity]|].
  apply rtc_l with s9; [eapply step_to; [eapply (h_clean_source _ _ true s8 [] []); reflexivity|reflexivity]|].
  apply rtc_l with s10; [eapply step_to; [eapply (h_clean_target _ _ true s9 [] _ []); reflexivity|reflexivity]|].
  apply rtc_l with s11; [eapply step_to; [eapply (h_clean_record _ _ true s10 [] _ _ []); reflexivity|reflexivity]|].
  apply rtc_l with s12; [eapply step_to; [eapply (h_run _ _ true s11 [] r2 []); reflexivity|reflexivity]|].
  apply rtc_refl.
Qed.
End race.
End HandoverRace.

(** When they do overlap, the wait of [Cleanup] does not cover the second
    run: a reachable interleaving ends with a cleanup recorded as complete and
    the target's app record of the task still present, created by a run that
    the cleanup did not wait for. *)
Theorem cleanup_overtakes_second_run `{GoRuntime} :
  exists s, rtc (hstep LocalExecutor ModalExecutor true) (hs_init LocalExecutor ModalExecutor "t" NewLocalExecutor NewModalExecutor) s /\
    (cl_Complete <$> co_cleanups (hs_co s)) = [true] /\ hs_cleaners s = [] /\ is_Some (ms_apps (hs_tgt _ _ s) !! "t").
Proof. exists HandoverRace.s12. split; [exact HandoverRace.race_reachable|]. split_and!; [done..|by eexists]. Qed.

Lemma concat_with_snoc f (l : list string) x : concat_with f (l ++ [x])%list = concat_with f l ++ f x.
Proof. induction l as [|y l IH]; cbn [concat_with app]; [by rewrite append_nil_r|]. by rewrite IH, append_assoc. Qed.

(** The seal does not bind the capability requirements: two checkpoints that
    require different capabilities have the same digest, whatever the hash,
    since a completed step may itself start with [cap:]. *)
Theorem seal_confuses_steps_and_capabilities `{GoRuntime} (c : Checkpoint) (step : string) (caps : list string) :
  let c1 := MkCheckpoint (cp_TaskID c) (cp_WorkflowVersion c) (cp_BundleDigest c) (cp_MailboxCursor c) (cp_CompletedSteps c ++ [("cap:" ++ step)%string])%list
              caps (cp_CreatedUnderFence c) (cp_CheckpointDigest c) (cp_CreatedAt c) (cp_Metadata c) in
  let c2 := MkCheckpoint (cp_TaskID c) (cp_WorkflowVersion c) (cp_BundleDigest c) (cp_MailboxCursor c) (cp_CompletedSteps c)
              (step :: caps) (cp_CreatedUnderFence c) (cp_CheckpointDigest c) (cp_CreatedAt c) (cp_Metadata c) in
  cp_CapabilityReqs c1 <> cp_CapabilityReqs c2 /\ cp_CheckpointDigest (SealCheckpoint c1) = cp_CheckpointDigest (SealCheckpoint c2).
Proof.
  cbv zeta. split; [cbn; intros E; apply (f_equal length) in E; cbn in E; lia|]. unfold SealCheckpoint, with_digest. cbn [cp_CheckpointDigest]. f_equal.
  unfold checkpoint_payload. cbn [cp_TaskID cp_WorkflowVersion cp_BundleDigest cp_MailboxCursor cp_CompletedSteps cp_CapabilityReqs
    cp_CreatedUnderFence cp_Metadata concat_with]. by rewrite concat_with_snoc, !append_assoc.
Qed.

(** ** Examples *)

Module HandoverRun.
Import HandoverRace.
#[local] Existing Instance demo_runtime.

Abbreviation start := (hs_init LocalExecutor ModalExecutor "t" NewLocalExecutor NewModalExecutor).

Lemma refl_step o (a b : system LocalExecutor ModalExecutor) : hstep _ _ o a b -> rtc (hstep _ _ o) a b.
Proof. apply rtc_once. Qed.

(** The first run commits, after the race. *)
Definition committed := fst (commit 5 2 RealmModal 1 run_digest (hs_co s12)).
Definition receipt : CompletionReceipt := MkCompletion "t" 2 RealmModal 1 run_digest 5.
Definition s13 := MkHandover LocalExecutor ModalExecutor committed NewLocalExecutor (MkModal app_record false) [] [(r2, inl run_digest)] [] [] [receipt].

Lemma s13_reachable : rtc (hstep LocalExecutor ModalExecutor true) start s13.
Proof.
  eapply rtc_r; [exact race_reachable|]. eapply step_to; [exact (h_commit _ _ true s12 5 [] r1 run_digest [] eq_refl)|reflexivity].
Qed.

Lemma handover_refines_phases_witness : pstep (phase_of (hs_co s12)) (phase_of (hs_co s13)).
Proof.
  destruct (handover_refines_phases LocalExecutor ModalExecutor true "t" NewLocalExecutor NewModalExecutor s12 s13 race_reachable) as [E|Hp].
  - eapply step_to; [exact (h_commit _ _ true s12 5 [] r1 run_digest [] eq_refl)|reflexivity].
  - discriminate E.
  - exact Hp.
Defined.

Lemma handover_completes_once_witness : hs_receipts s13 = [receipt] /\ cr_Fence receipt = CurrentFence (hs_co s13).
Proof.
  exact (proj2 (proj2 (handover_completes_once LocalExecutor ModalExecutor true "t" NewLocalExecutor NewModalExecutor s13 s13 s13_reachable
    (rtc_refl _ _))) receipt eq_refl).
Defined.

Lemma transfer_moves_commit_right_witness : exists e, commit 9 1 RealmLocal 0 "late" (hs_co s12) = (hs_co s12, inr (None, e)).
Proof.
  destruct (proj1 (transfer_moves_commit_right LocalExecutor ModalExecutor true "t" NewLocalExecutor NewModalExecutor s12 race_reachable
    ltac:(discriminate)) 9 RealmLocal "late") as (e & He & _).
  exists e. exact He.
Defined.

Lemma retries_agree_witness : exists cp, co_checkpoint (hs_co s13) = Some cp /\ cr_ResultDigest receipt = pure_result cp 2.
Proof.
  exact (retries_agree LocalExecutor ModalExecutor true "t" NewLocalExecutor NewModalExecutor s13 receipt s13_reachable eq_refl ltac:(discriminate)).
Defined.

Definition s13_revoked := with_co LocalExecutor ModalExecutor s13 (Revoke (hs_co s13)).

Lemma revocation_is_final_witness : Completion (hs_co (with_co LocalExecutor ModalExecutor s13_revoked (Revoke (hs_co s13_revoked)))) = Some receipt.
Proof.
  rewrite (proj2 (revocation_is_final LocalExecutor ModalExecutor true s13_revoked (with_co LocalExecutor ModalExecutor s13_revoked (Revoke (hs_co s13_revoked)))
    (refl_step true _ _ (h_revoke _ _ true s13_revoked)) eq_refl)).
  reflexivity.
Defined.

(** One run at a time, then a cleanup. *)
Definition t4 := MkHandover LocalExecutor ModalExecutor (co 2 StateRunningTarget false true 1 []) NewLocalExecutor (MkModal app_record false) [] [(r1, inl run_digest)] [] [] [].
Definition t5 := MkHandover LocalExecutor ModalExecutor (co 2 StateRunningTarget false false 1 []) NewLocalExecutor (MkModal app_record false) [] [] [(r1, run_digest)] [] [].
Definition t6 := MkHandover LocalExecutor ModalExecutor (co 2 StateRunningTarget true false 1 []) NewLocalExecutor (MkModal app_record false) [] [] [(r1, run_digest)] [Waiting] [].
Definition t7 := MkHandover LocalExecutor ModalExecutor (co 2 StateRunningTarget true false 1 []) NewLocalExecutor (MkModal app_record false) [] [] [(r1, run_digest)] [TearingDown] [].

Lemma step_to_seq a b c : hstep LocalExecutor ModalExecutor false a b -> b = c -> hstep LocalExecutor ModalExecutor false a c.
Proof. by intros ? <-. Qed.

Lemma t7_reachable : rtc (hstep LocalExecutor ModalExecutor false) start t7.
Proof.
  apply rtc_l with s1; [eapply step_to_seq; [exact (h_checkpoint _ _ false s0 0 "b" [])|reflexivity]|].
  apply rtc_l with s2; [eapply step_to_seq; [exact (h_transfer _ _ false s1 RealmModal)|reflexivity]|].
  apply rtc_l with s3; [eapply step_to_seq; [eapply (h_begin _ _ false s2); [by right|reflexivity]|reflexivity]|].
  apply rtc_l with t4; [eapply step_to_seq; [eapply (h_run _ _ false s3 [] r1 []); reflexivity|reflexivity]|].
  apply rtc_l with t5; [eapply step_to_seq; [eapply (h_end_ok _ _ false t4 [] r1 run_digest []); reflexivity|reflexivity]|].
  apply rtc_l with t6; [eapply step_to_seq; [exact (h_clean_begin _ _ false t5)|reflexivity]|].
  apply rtc_l with t7; [eapply step_to_seq; [eapply (h_clean_go _ _ false t6 [] []); reflexivity|reflexivity]|]. apply rtc_refl.
Qed.

Lemma cleanup_waits_for_the_run_witness : in_flight t7 = [].
Proof.
  exact (cleanup_waits_for_the_run LocalExecutor ModalExecutor "t" NewLocalExecutor NewModalExecutor t7 t7_reachable
    (Exists_cons_hd tearing_down TearingDown [] ltac:(discriminate))).
Defined.
End HandoverRun.
