(* ===== verification/BrokerAuthz.v ===== *)
(** * broker: relationship authorisation

    Models [services/broker/internal/authz]: the in-process relationship
    evaluator (evaluator.go) with its revocation epochs, and the OpenFGA client
    (client.go), which keeps a local mirror of the tuples and asks a remote
    server for the relation itself.  Both implement [RelationshipStore]
    (store.go).  The server is a parameter; [openfga_model] is what its checked-in
    model defines, and a theorem that depends on the server assumes it answers
    by that model over the tuples it was sent. *)

From Stdlib Require Import Ascii String.
From S2P Require Import Prelude GoString Contracts.
Open Scope string_scope.
Open Scope Z_scope.

Inductive authz_error := ErrMalformedTuple | ErrRemote.

Record Tuple := MkTuple { tu_Object : string; tu_Relation : string; tu_User : string }.

#[export] Instance Tuple_eq_dec : EqDecision Tuple.
Proof. solve_decision. Defined.

#[export] Instance Tuple_countable : Countable Tuple.
Proof.
  refine (inj_countable' (fun t => (tu_Object t, tu_Relation t, tu_User t)) (fun p => MkTuple (fst (fst p)) (snd (fst p)) (snd p)) _).
  by intros [].
Defined.

Record Evaluator := MkEvaluator { ev_tuples : gset Tuple; ev_epochs : gmap string Z }.
Definition NewEvaluator : Evaluator := MkEvaluator ∅ ∅.

(** ** Entities *)

(** [strings.Cut(value, ":")]: the parts around the first separator. *)
Fixpoint cut_char (c : ascii) (s : string) : option (string * string) :=
  match s with
  | EmptyString => None
  | String a s' => if Ascii.eqb a c then Some ("", s') else match cut_char c s' with Some (x, y) => Some (String a x, y) | None => None end
  end.

Definition splitEntity (value : string) : option (string * string) :=
  match cut_char ":" value with
  | Some (ty, id) => if negb (String.eqb ty "") && negb (String.eqb id "") then Some (ty, id) else None
  | None => None
  end.

Definition containsColon (value : string) : bool := match splitEntity value with Some _ => true | None => false end.

Definition validTuple (t : Tuple) : bool :=
  negb (String.eqb (tu_Object t) "") && negb (String.eqb (tu_Relation t) "") && negb (String.eqb (tu_User t) "")
  && containsColon (tu_Object t) && containsColon (tu_User t).

(** [strings.IndexByte]. *)
Fixpoint index_byte (c : ascii) (s : string) : Z :=
  match s with
  | EmptyString => -1
  | String a s' => if Ascii.eqb a c then 0 else let i := index_byte c s' in if i <? 0 then -1 else i + 1
  end.

Definition ParseTuple (value : string) : result authz_error Tuple :=
  let hash := index_byte "#" value in
  let at_ := index_byte "@" value in
  if (hash <=? 0) || (at_ <=? hash + 1) || (at_ =? len value - 1) then Err ErrMalformedTuple
  else
    let tuple := MkTuple (str_take (Z.to_nat hash) value)
                   (str_take (Z.to_nat (at_ - (hash + 1))) (str_drop (Z.to_nat (hash + 1)) value)) (str_drop (Z.to_nat (at_ + 1)) value) in
    if negb (validTuple tuple) then Err ErrMalformedTuple else Ok tuple.

(** ** The evaluator *)

Definition has (e : Evaluator) (object relation user : string) : bool := bool_decide (MkTuple object relation user ∈ ev_tuples e).

Definition relatedObjects (e : Evaluator) (object relation prefix : string) : list string :=
  sort_strings (tu_User <$> List.filter (fun t => String.eqb (tu_Object t) object && String.eqb (tu_Relation t) relation
    && (len prefix <? len (tu_User t)) && has_prefix prefix (tu_User t)) (elements (ev_tuples e))).

Definition epoch_of (e : Evaluator) (tenant : string) : Z := default 0 (ev_epochs e !! tenant).

(** The tenants that own the brains, without repetition. *)
Definition tenants_of (e : Evaluator) (brains : list string) : gset string :=
  list_to_set (brains ≫= fun brain => relatedObjects e brain "tenant" "tenant:" ≫= fun t =>
    match splitEntity t with Some (_, id) => [id] | None => [] end).

Definition owningTenant (e : Evaluator) (object : string) : option string :=
  match splitEntity object with
  | None => None
  | Some (ty, id) =>
      if String.eqb ty "tenant" then Some id
      else
        let unique brains := match elements (tenants_of e brains) with [t] => Some t | _ => None end in
        if String.eqb ty "evidence" then unique (relatedObjects e object "brain" "brain:")
        else if negb (String.eqb ty "brain") then None
        else unique [object]
  end.

Definition Write (t : Tuple) (e : Evaluator) : Evaluator * result authz_error unit :=
  if negb (validTuple t) then (e, Err ErrMalformedTuple) else (MkEvaluator ({[t]} ∪ ev_tuples e) (ev_epochs e), Ok tt).

Definition Delete (t : Tuple) (e : Evaluator) : Evaluator * result authz_error (string * Z) :=
  if negb (validTuple t) then (e, Err ErrMalformedTuple)
  else if negb (bool_decide (t ∈ ev_tuples e)) then (e, Err ErrMalformedTuple)
  else match owningTenant e (tu_Object t) with
  | None => (e, Err ErrMalformedTuple)
  | Some tenant =>
      let epoch := (epoch_of e tenant + 1) mod 2 ^ 64 in
      (MkEvaluator (ev_tuples e ∖ {[t]}) (<[tenant := epoch]> (ev_epochs e)), Ok (tenant, epoch))
  end.

Definition SetEpoch (tenant : string) (epoch : Z) (e : Evaluator) : Evaluator * result authz_error unit :=
  if String.eqb tenant "" then (e, Err ErrMalformedTuple)
  else if epoch <? epoch_of e tenant then (e, Err ErrMalformedTuple)
  else (MkEvaluator (ev_tuples e) (<[tenant := epoch]> (ev_epochs e)), Ok tt).

Definition Epoch (tenant : string) (e : Evaluator) : result authz_error Z :=
  if String.eqb tenant "" then Err ErrMalformedTuple else Ok (epoch_of e tenant).

Definition deniedReceipt : Receipt := MkReceipt (MkIdentifier "authorization" "current-check") "rejected" "not_found_or_denied" 0.
Definition allowedReceipt : Receipt := MkReceipt (MkIdentifier "authorization" "current-check") "completed" "allowed" 0.
Definition denied_at (epoch : Z) : PolicyDecision := MkPolicyDecision false deniedReceipt epoch.
Definition decided (allowed : bool) (epoch : Z) : PolicyDecision := if allowed then MkPolicyDecision true allowedReceipt epoch else denied_at epoch.

Definition id_in (ns : string) (i : Identifier) : bool := String.eqb (Namespace i) ns && negb (String.eqb (Value i) "").

Definition evidence_action (a : string) : bool :=
  String.eqb a "artifact.read" || String.eqb a "artifact.admit" || String.eqb a "artifact.delete".

Definition Check_ (e : Evaluator) (identity : MappedIdentityFact) (request : PolicyRequest) : PolicyDecision :=
  if negb (id_in "principal" (Principal identity)) || negb (id_in "tenant" (Tenant identity)) || negb (id_in "evidence" (pq_Resource request))
  then denied_at 0
  else
    let tenant := Value (Tenant identity) in
    let current := epoch_of e tenant in
    let user := "user:" ++ Value (Principal identity) in
    if negb (pq_RevocationEpoch request =? current) then denied_at current
    else if negb (evidence_action (pq_Action request)) then denied_at current
    else decided (existsb (fun brain =>
           has e brain "tenant" ("tenant:" ++ tenant) &&
           (if String.eqb (pq_Action request) "artifact.read" then has e brain "owner" user || has e brain "viewer" user
            else has e brain "owner" user))
         (relatedObjects e ("evidence:" ++ Value (pq_Resource request)) "brain" "brain:")) current.

Definition owner_action (a : string) : bool :=
  existsb (String.eqb a) ["source.add"; "source.reconcile"; "source.revoke"; "factory.admit"; "factory.cancel"; "file.read"; "file.write"].
Definition viewer_action (a : string) : bool := existsb (String.eqb a) ["source.status"; "source.search"; "query"; "hydrate"; "emit"].

Definition CheckSource (e : Evaluator) (identity : MappedIdentityFact) (action : string) (brain : Identifier) : PolicyDecision :=
  if negb (id_in "principal" (Principal identity)) || negb (id_in "tenant" (Tenant identity)) || negb (id_in "brain" brain)
  then denied_at 0
  else
    let current := epoch_of e (Value (Tenant identity)) in
    let brainObject := "brain:" ++ Value brain in
    let user := "user:" ++ Value (Principal identity) in
    if negb (has e brainObject "tenant" ("tenant:" ++ Value (Tenant identity))) then denied_at current
    else
      let owner := has e brainObject "owner" user in
      if owner_action action then decided owner current
      else if viewer_action action then decided (owner || has e brainObject "viewer" user) current
      else denied_at current.

Definition hasTuple (e : Evaluator) (t : Tuple) : bool := has e (tu_Object t) (tu_Relation t) (tu_User t).
Definition peekOwningTenant (e : Evaluator) (object : string) : option string := owningTenant e object.
Definition evidenceInTenant (e : Evaluator) (evidenceObject tenant : string) : bool :=
  negb (String.eqb tenant "") && existsb (fun brain => has e brain "tenant" ("tenant:" ++ tenant)) (relatedObjects e evidenceObject "brain" "brain:").
Definition brainInTenant (e : Evaluator) (brainObject tenant : string) : bool :=
  negb (String.eqb tenant "") && has e brainObject "tenant" ("tenant:" ++ tenant).

(** ** The OpenFGA client *)

(** The remote server: its state, a batch of writes and deletes (the error as a
    flag), and one check ([None] on a transport or server error). *)
Record Remote := MkRemote {
  rm_state : Type;
  rm_write : list Tuple -> list Tuple -> rm_state -> rm_state * bool;
  rm_check : string -> string -> string -> rm_state -> option bool
}.

Definition evidenceRelationForAction (a : string) : option string :=
  if String.eqb a "artifact.read" then Some "reader" else if String.eqb a "artifact.admit" then Some "admittor"
  else if String.eqb a "artifact.delete" then Some "deleter" else None.

Definition brainRelationForSourceAction (a : string) : option string :=
  if owner_action a then Some "writer" else if viewer_action a then Some "reader" else None.

Section client.
Context (R : Remote).

Record Client := MkClient { cl_remote : rm_state R; cl_local : Evaluator }.

Definition Client_Write (t : Tuple) (c : Client) : Client * result authz_error unit :=
  if negb (validTuple t) then (c, Err ErrMalformedTuple)
  else
    let '(st, failed) := rm_write R [t] [] (cl_remote c) in
    if failed then (MkClient st (cl_local c), Err ErrRemote)
    else let '(e, r) := Write t (cl_local c) in (MkClient st e, r).

Definition Client_Delete (t : Tuple) (c : Client) : Client * result authz_error (string * Z) :=
  if negb (validTuple t) then (c, Err ErrMalformedTuple)
  else if negb (hasTuple (cl_local c) t) then (c, Err ErrMalformedTuple)
  else match peekOwningTenant (cl_local c) (tu_Object t) with
  | None => (c, Err ErrMalformedTuple)
  | Some _ =>
      let '(st, failed) := rm_write R [] [t] (cl_remote c) in
      if failed then (MkClient st (cl_local c), Err ErrRemote)
      else let '(e, r) := Delete t (cl_local c) in (MkClient st e, r)
  end.

Definition Client_SetEpoch (tenant : string) (epoch : Z) (c : Client) : Client * result authz_error unit :=
  let '(e, r) := SetEpoch tenant epoch (cl_local c) in (MkClient (cl_remote c) e, r).

Definition Client_Epoch (tenant : string) (c : Client) : result authz_error Z := Epoch tenant (cl_local c).

(** The decision and the error a failed remote check adds to a denial. *)
Definition remote_decision (c : Client) (user relation object : string) (current : Z) : PolicyDecision * option authz_error :=
  match rm_check R user relation object (cl_remote c) with
  | None => (denied_at current, Some ErrRemote)
  | Some allowed => (decided allowed current, None)
  end.

Definition Client_Check (c : Client) (identity : MappedIdentityFact) (request : PolicyRequest) : PolicyDecision * option authz_error :=
  if negb (id_in "principal" (Principal identity)) || negb (id_in "tenant" (Tenant identity)) || negb (id_in "evidence" (pq_Resource request))
  then (denied_at 0, None)
  else
    let tenant := Value (Tenant identity) in
    let current := epoch_of (cl_local c) tenant in
    let evidence := "evidence:" ++ Value (pq_Resource request) in
    if negb (pq_RevocationEpoch request =? current) then (denied_at current, None)
    else match evidenceRelationForAction (pq_Action request) with
    | None => (denied_at current, None)
    | Some relation =>
        if negb (evidenceInTenant (cl_local c) evidence tenant) then (denied_at current, None)
        else remote_decision c ("user:" ++ Value (Principal identity)) relation evidence current
    end.

Definition Client_CheckSource (c : Client) (identity : MappedIdentityFact) (action : string) (brain : Identifier) :
    PolicyDecision * option authz_error :=
  if negb (id_in "principal" (Principal identity)) || negb (id_in "tenant" (Tenant identity)) || negb (id_in "brain" brain)
  then (denied_at 0, None)
  else
    let tenant := Value (Tenant identity) in
    let current := epoch_of (cl_local c) tenant in
    let brainObject := "brain:" ++ Value brain in
    if negb (brainInTenant (cl_local c) brainObject tenant) then (denied_at current, None)
    else match brainRelationForSourceAction action with
    | None => (denied_at current, None)
    | Some relation => remote_decision c ("user:" ++ Value (Principal identity)) relation brainObject current
    end.
End client.

(** *** The documented server *)

(** The authorisation model of the README: evidence inherits from its brains,
    an owner reads and writes a brain, a viewer reads it. *)
Definition openfga_model (tuples : gset Tuple) (user relation object : string) : bool :=
  let e := MkEvaluator tuples ∅ in
  let reads brain := has e brain "owner" user || has e brain "viewer" user in
  let writes brain := has e brain "owner" user in
  if has_prefix "evidence:" object then
    if String.eqb relation "reader" then existsb reads (relatedObjects e object "brain" "brain:")
    else if String.eqb relation "admittor" || String.eqb relation "deleter" then existsb writes (relatedObjects e object "brain" "brain:")
    else false
  else if has_prefix "brain:" object then
    if String.eqb relation "reader" then reads object else if String.eqb relation "writer" then writes object else false
  else false.

(** A server that keeps the tuples it was sent and answers by the model. *)
Class OpenFGA (R : Remote) := {
  stored : rm_state R -> gset Tuple;
  stored_write : forall ws ds st st', rm_write R ws ds st = (st', false) -> stored st' = list_to_set ws ∪ (stored st ∖ list_to_set ds);
  stored_check : forall u r o st b, rm_check R u r o st = Some b -> b = openfga_model (stored st) u r o
}.

Definition fake_server : Remote := {|
  rm_state := gset Tuple;
  rm_write := fun ws ds st => (list_to_set ws ∪ (st ∖ list_to_set ds), false);
  rm_check := fun u r o st => Some (openfga_model st u r o)
|}.

#[export] Instance fake_server_OpenFGA : OpenFGA fake_server.
Proof. refine {| stored := id : rm_state fake_server -> gset Tuple |}; [by intros ws ds st st' [= <-]|by intros u r o st b [= <-]]. Defined.

(** ** Lemmas *)

Lemma has_spec e o r u : has e o r u = true <-> MkTuple o r u ∈ ev_tuples e.
Proof. apply bool_decide_eq_true. Qed.

Lemma elem_of_relatedObjects e o r p u :
  u ∈ relatedObjects e o r p <-> MkTuple o r u ∈ ev_tuples e /\ len p < len u /\ has_prefix p u = true.
Proof.
  unfold relatedObjects, sort_strings. rewrite elem_of_sort_by, list_elem_of_fmap. split.
  - intros (t & -> & Ht). apply list_elem_of_In, filter_In in Ht as [Ht%list_elem_of_In Hf]. rewrite elem_of_elements in Ht.
    rewrite !andb_true_iff, !String.eqb_eq, Z.ltb_lt in Hf. destruct Hf as [[[<- <-] ?] ?]. by destruct t.
  - intros (Ht & Hl & Hp). exists (MkTuple o r u). split; [done|]. apply list_elem_of_In, filter_In. split.
    + by apply list_elem_of_In, elem_of_elements.
    + cbn [tu_Object tu_Relation tu_User]. by rewrite !String.eqb_refl, Hp, (proj2 (Z.ltb_lt _ _)).
Qed.

Lemma decided_allowed b epoch : pd_Allowed (decided b epoch) = b.
Proof. by destruct b. Qed.

Lemma id_in_spec ns i : id_in ns i = true <-> Namespace i = ns /\ Value i <> "".
Proof. unfold id_in. by rewrite andb_true_iff, negb_true_iff, String.eqb_eq, String.eqb_neq. Qed.

(** The caller is a principal of a tenant. *)
Definition caller_ok (identity : MappedIdentityFact) : Prop :=
  Namespace (Principal identity) = "principal" /\ Value (Principal identity) <> "" /\
  Namespace (Tenant identity) = "tenant" /\ Value (Tenant identity) <> "".

Lemma guards_iff identity ns i :
  (negb (id_in "principal" (Principal identity)) || negb (id_in "tenant" (Tenant identity)) || negb (id_in ns i)) = false <->
  caller_ok identity /\ Namespace i = ns /\ Value i <> "".
Proof. rewrite !orb_false_iff, !negb_false_iff, !id_in_spec. unfold caller_ok. tauto. Qed.

(** The relationship that authorises: owner, or viewer where a viewer suffices. *)
Definition related (e : Evaluator) (brain : string) (identity : MappedIdentityFact) (viewer_ok : Prop) : Prop :=
  let user := "user:" ++ Value (Principal identity) in
  MkTuple brain "tenant" ("tenant:" ++ Value (Tenant identity)) ∈ ev_tuples e /\
  (MkTuple brain "owner" user ∈ ev_tuples e \/ (viewer_ok /\ MkTuple brain "viewer" user ∈ ev_tuples e)).

(** *** Deletion *)

Lemma Delete_Ok t e e' tenant epoch :
  Delete t e = (e', Ok (tenant, epoch)) <->
  validTuple t = true /\ t ∈ ev_tuples e /\ owningTenant e (tu_Object t) = Some tenant /\ epoch = (epoch_of e tenant + 1) mod 2 ^ 64 /\
  e' = MkEvaluator (ev_tuples e ∖ {[t]}) (<[tenant := epoch]> (ev_epochs e)).
Proof.
  unfold Delete. split.
  - destruct (validTuple t); [|done]. cbn [negb]. destruct (bool_decide (t ∈ ev_tuples e)) eqn:Et; [|done]. apply bool_decide_eq_true in Et. cbn [negb].
    destruct (owningTenant e (tu_Object t)); [|done]. by intros [= <- -> <-].
  - intros (-> & Ht & -> & -> & ->). cbn [negb]. by rewrite (bool_decide_eq_true_2 _ Ht).
Qed.

Lemma epoch_bumped x : 0 <= x < 2 ^ 64 -> (x + 1) mod 2 ^ 64 <> x.
Proof. intros Hx E. destruct (decide (x = 2 ^ 64 - 1)) as [->|]; [done|]. rewrite Z.mod_small in E; lia. Qed.

Lemma Check_stale e identity request :
  pq_RevocationEpoch request <> epoch_of e (Value (Tenant identity)) -> pd_Allowed (Check_ e identity request) = false.
Proof. intros Hne. unfold Check_. destruct (_ || _); [done|]. by rewrite (proj2 (Z.eqb_neq _ _) Hne). Qed.

(** ** Properties *)

(** An evidence action is allowed exactly when the caller is a principal of
    a tenant, the request carries the tenant's current revocation epoch, and
    some brain the evidence belongs to is bound to that very tenant and owned by
    the caller (or, for a read, viewed by the caller). *)
Lemma Check_allowed_iff e identity request :
  pd_Allowed (Check_ e identity request) = true <->
  caller_ok identity /\ Namespace (pq_Resource request) = "evidence" /\ Value (pq_Resource request) <> "" /\
  pq_RevocationEpoch request = epoch_of e (Value (Tenant identity)) /\ evidence_action (pq_Action request) = true /\
  exists brain, MkTuple ("evidence:" ++ Value (pq_Resource request)) "brain" brain ∈ ev_tuples e /\ len "brain:" < len brain /\
    has_prefix "brain:" brain = true /\ related e brain identity (pq_Action request = "artifact.read").
Proof.
  unfold Check_. cbv zeta. destruct (_ || _) eqn:Eg.
  { cbn. split; [done|]. intros (Hc & Hn & Hv & _). assert (true = false); [|done]. rewrite <- Eg. apply guards_iff. tauto. }
  apply guards_iff in Eg as (Hc & Hn & Hv). destruct (Z.eqb_spec (pq_RevocationEpoch request) (epoch_of e (Value (Tenant identity)))) as [Ee|]; cbn [negb];
    [|cbn; split; [done|tauto]].
  destruct (evidence_action (pq_Action request)); cbn [negb]; [|cbn; split; [done|]; intros (_ & _ & _ & _ & ? & _); done].
  rewrite decided_allowed, existsb_elem. split.
  - intros (brain & Hb%elem_of_relatedObjects & Hr). split_and!; try done; [by destruct Hc as (? & ? & ? & ?)..|]. exists brain. split_and!; try apply Hb.
    unfold related. destruct (String.eqb_spec (pq_Action request) "artifact.read");
      rewrite andb_true_iff, ?orb_true_iff, !has_spec in Hr; destruct Hr as [Hr1 Hr2]; split; tauto.
  - intros (_ & _ & _ & _ & _ & brain & Hb1 & Hb2 & Hb3 & Ht & Ho). exists brain. split; [by apply elem_of_relatedObjects|].
    destruct (String.eqb_spec (pq_Action request) "artifact.read"); rewrite andb_true_iff, ?orb_true_iff, !has_spec; tauto.
Qed.

(** A source, query or factory action on a brain is allowed exactly when the
    brain is bound to the caller's tenant and the caller owns it, or views it and
    the action is a read. *)
Theorem source_allowed_iff e identity action brain :
  pd_Allowed (CheckSource e identity action brain) = true <->
  caller_ok identity /\ Namespace brain = "brain" /\ Value brain <> "" /\ (owner_action action || viewer_action action) = true /\
  related e ("brain:" ++ Value brain) identity (owner_action action = false).
Proof.
  unfold CheckSource, related. cbv zeta. rewrite <- !has_spec. destruct (negb _ || negb _ || negb _) eqn:Eg.
  { cbn. split; [done|]. intros (Hc & Hn & Hv & _). assert (true = false); [|done]. rewrite <- Eg. apply guards_iff. tauto. }
  apply guards_iff in Eg as (Hc & Hn & Hv).
  destruct (has e _ "tenant" _); cbn [negb]; [|cbn; split; [done|]; by intros (_ & _ & _ & _ & ? & _)].
  destruct (owner_action action); [rewrite decided_allowed; naive_solver|].
  destruct (viewer_action action); [rewrite decided_allowed, orb_true_iff; naive_solver|cbn; naive_solver].
Qed.

(** Deleting a relationship revokes: it is gone, the epoch of the tenant that
    owns its object has changed, and no evidence action under the epoch current
    before the deletion is allowed to a caller of that tenant any more. *)
Lemma Delete_revokes t e e' tenant epoch :
  Delete t e = (e', Ok (tenant, epoch)) -> 0 <= epoch_of e tenant < 2 ^ 64 ->
  t ∉ ev_tuples e' /\ epoch_of e' tenant = epoch /\ epoch <> epoch_of e tenant /\
  forall identity request, Value (Tenant identity) = tenant -> pq_RevocationEpoch request = epoch_of e tenant ->
    pd_Allowed (Check_ e' identity request) = false.
Proof.
  intros (_ & _ & _ & -> & ->)%Delete_Ok Hr. pose proof (epoch_bumped _ Hr) as Hb.
  assert (epoch_of (MkEvaluator (ev_tuples e ∖ {[t]}) (<[tenant:=(epoch_of e tenant + 1) mod 2 ^ 64]> (ev_epochs e))) tenant
          = (epoch_of e tenant + 1) mod 2 ^ 64) as Ee.
  { unfold epoch_of at 1. cbn [ev_epochs]. by rewrite lookup_insert_eq. }
  split_and!; [cbn; set_solver|done|done|]. intros identity request Ht Hq. apply Check_stale. rewrite Ht, Ee, Hq. congruence.
Qed.

(** The evaluator's mutations, for the statement that follows. *)
Inductive mutation := MWrite (t : Tuple) | MDelete (t : Tuple) | MSetEpoch (tenant : string) (epoch : Z).

Definition mutate (m : mutation) (e : Evaluator) : Evaluator :=
  match m with
  | MWrite t => fst (Write t e)
  | MDelete t => fst (Delete t e)
  | MSetEpoch tenant epoch => fst (SetEpoch tenant epoch e)
  end.

(** No mutation moves a tenant's epoch backward, except the deletion that
    wraps it around from its largest value. *)
Theorem epochs_never_regress m e tenant :
  0 <= epoch_of e tenant < 2 ^ 64 - 1 -> epoch_of e tenant <= epoch_of (mutate m e) tenant.
Proof.
  intros Hr. destruct m as [t|t|T epoch]; cbn [mutate].
  - unfold Write. by destruct (validTuple t).
  - destruct (Delete t e) as [e' [[T epoch]|]] eqn:E.
    + apply Delete_Ok in E as (_ & _ & _ & -> & ->). cbn [fst]. unfold epoch_of at 2. cbn [ev_epochs].
      destruct (decide (T = tenant)) as [->|Hne]; [rewrite lookup_insert_eq; cbn; rewrite Z.mod_small; lia|].
      by rewrite lookup_insert_ne.
    + unfold Delete in E. repeat case_match; try done; by injection E as <- _.
  - unfold SetEpoch. destruct (String.eqb T ""); [done|]. destruct (epoch <? epoch_of e T) eqn:El; [done|]. apply Z.ltb_ge in El.
    cbn [fst]. unfold epoch_of at 2. cbn [ev_epochs]. destruct (decide (T = tenant)) as [->|Hne]; [by rewrite lookup_insert_eq|].
    by rewrite lookup_insert_ne.
Qed.

(** *** The two stores *)

Section stores.
Context (R : Remote) `{!OpenFGA R}.

(** The server holds exactly the tuples of the client's local mirror. *)
Definition mirrored (c : Client R) : Prop := stored (cl_remote R c) = ev_tuples (cl_local R c).

Lemma mirrored_Write t c c' : mirrored c -> Client_Write R t c = (c', Ok tt) -> mirrored c'.
Proof.
  unfold mirrored, Client_Write, Write. intros Hm. destruct (validTuple t); [|done]. cbn [negb].
  destruct (rm_write R [t] [] (cl_remote R c)) as [st failed] eqn:E. destruct failed; [done|]. intros [= <-].
  apply stored_write in E. cbn. rewrite E, Hm. set_solver.
Qed.

Lemma mirrored_Delete t c c' r : mirrored c -> Client_Delete R t c = (c', Ok r) -> mirrored c'.
Proof.
  unfold mirrored, Client_Delete. intros Hm. destruct (validTuple t) eqn:Ev; [|done]. cbn [negb].
  destruct (hasTuple (cl_local R c) t); [|done]. cbn [negb]. destruct (peekOwningTenant _ _); [|done].
  destruct (rm_write R [] [t] (cl_remote R c)) as [st failed] eqn:E. destruct failed; [done|].
  destruct (Delete t (cl_local R c)) as [e' [[T epoch]|]] eqn:Ed; [|done]. intros [= <- _].
  apply stored_write in E. apply Delete_Ok in Ed as (_ & _ & _ & _ & ->). cbn. rewrite E, Hm. set_solver.
Qed.

Lemma model_has tuples epochs o r u : has (MkEvaluator tuples ∅) o r u = has (MkEvaluator tuples epochs) o r u.
Proof. done. Qed.

Lemma has_prefix_self p s : has_prefix p (p ++ s) = true.
Proof. unfold has_prefix. induction p as [|a p IH]; cbn; [by destruct s|]. destruct (ascii_dec a a); [done|congruence]. Qed.

Lemma remote_decision_model c user relation object current d :
  mirrored c -> remote_decision R c user relation object current = (d, None) ->
  d = decided (openfga_model (ev_tuples (cl_local R c)) user relation object) current.
Proof.
  unfold remote_decision, mirrored. intros Hm. destruct (rm_check R user relation object (cl_remote R c)) as [b|] eqn:E; [|done].
  intros [= <-]. apply stored_check in E. by rewrite E, Hm.
Qed.

(** For source, query and factory actions the remote store decides exactly as
    the in-process one, as long as the server mirrors the local tuples and
    answers. *)
Theorem stores_agree_on_sources c identity action brain d :
  mirrored c -> Client_CheckSource R c identity action brain = (d, None) -> d = CheckSource (cl_local R c) identity action brain.
Proof.
  intros Hm. unfold Client_CheckSource, CheckSource. cbv zeta. destruct (negb _ || negb _ || negb _) eqn:Eg; [by intros [= <-]|].
  apply guards_iff in Eg as ((_ & _ & _ & Ht) & _ & _). unfold brainInTenant. rewrite (proj2 (String.eqb_neq _ _) Ht). cbn [negb andb].
  destruct (has (cl_local R c) _ "tenant" _); cbn [negb]; [|by intros [= <-]].
  unfold brainRelationForSourceAction. destruct (owner_action action); [|destruct (viewer_action action); [|by intros [= <-]]];
    intros ->%remote_decision_model; try done; unfold openfga_model; cbv zeta;
    change (has_prefix "evidence:" ("brain:" ++ Value brain)) with false; by rewrite has_prefix_self.
Qed.

(** For evidence actions they agree when every brain of the evidence is bound
    to the caller's tenant. *)
Theorem stores_agree_on_tenant_evidence c identity request d :
  mirrored c -> Client_Check R c identity request = (d, None) ->
  (forall brain, brain ∈ relatedObjects (cl_local R c) ("evidence:" ++ Value (pq_Resource request)) "brain" "brain:" ->
     has (cl_local R c) brain "tenant" ("tenant:" ++ Value (Tenant identity)) = true) ->
  d = Check_ (cl_local R c) identity request.
Proof.
  intros Hm Hd Hall. revert Hd. unfold Client_Check, Check_. cbv zeta. destruct (negb _ || negb _ || negb _) eqn:Eg; [by intros [= <-]|].
  apply guards_iff in Eg as ((_ & _ & _ & Ht) & _ & _).
  destruct (negb (pq_RevocationEpoch request =? _)); [by intros [= <-]|].
  unfold evidenceInTenant. set (brains := relatedObjects _ _ _ _) in *. set (user := "user:" ++ _).
  assert (Hsame : forall f g, (forall b, b ∈ brains -> f b = g b) -> existsb f brains = existsb g brains).
  { intros f g. clear. induction brains as [|b l IH]; [done|]. intros Hfg. cbn. rewrite (Hfg b), IH by set_solver. done. }
  unfold evidenceRelationForAction, evidence_action. rewrite (proj2 (String.eqb_neq _ _) Ht). cbn [negb andb].
  destruct (existsb (fun brain => has (cl_local R c) brain "tenant" ("tenant:" ++ Value (Tenant identity))) brains) eqn:Ein; cbn [negb].
  - destruct (String.eqb_spec (pq_Action request) "artifact.read") as [Ea|Ea]; [|destruct (String.eqb (pq_Action request) "artifact.admit");
      [|destruct (String.eqb (pq_Action request) "artifact.delete"); [|by intros [= <-]]]];
      cbn [orb negb]; intros ->%remote_decision_model; try done; f_equal; unfold openfga_model; cbv zeta; rewrite has_prefix_self;
      cbn [String.eqb Ascii.eqb Bool.eqb orb]; symmetry; apply Hsame; intros b Hb; by rewrite (Hall b Hb).
  - assert (brains = []) as Hnil.
    { destruct brains as [|b l]; [done|]. cbn [existsb] in Ein. rewrite (Hall b) in Ein by set_solver. done. }
    rewrite Hnil. cbn [existsb]. intros Hd.
    assert (d = denied_at (epoch_of (cl_local R c) (Value (Tenant identity)))) as -> by (revert Hd; repeat case_match; congruence).
    by destruct (negb _).
Qed.
End stores.

(** *** Where they differ *)

Module TenantCrossing.

(** Evidence shared by a brain of the caller's tenant, which the caller has no
    relation to, and a brain of another tenant, which the caller views. *)
Definition tuples : list Tuple :=
  [MkTuple "evidence:x" "brain" "brain:a"; MkTuple "evidence:x" "brain" "brain:b"; MkTuple "brain:a" "tenant" "tenant:acme";
   MkTuple "brain:b" "tenant" "tenant:other"; MkTuple "brain:b" "viewer" "user:mallory"].

Definition write_all (c : Client fake_server) : Client fake_server := fold_left (fun c t => fst (Client_Write fake_server t c)) tuples c.
Definition client0 : Client fake_server := MkClient fake_server (∅ : gset Tuple) NewEvaluator.
Definition mallory : MappedIdentityFact := MkFact (MkIdentifier "principal" "mallory") (MkIdentifier "tenant" "acme") (MkIdentifier "session" "s").
Definition read_x : PolicyRequest := MkPolicyRequest "artifact.read" (MkIdentifier "evidence" "x") 0.

Lemma write_mirrored t c : validTuple t = true -> mirrored fake_server c -> mirrored fake_server (fst (Client_Write fake_server t c)).
Proof.
  intros Hv Hm. destruct (Client_Write fake_server t c) as [c' r] eqn:E. apply (mirrored_Write _ t c c' Hm).
  revert E. unfold Client_Write, Write. rewrite Hv. by intros [= <- <-].
Qed.
End TenantCrossing.

(** Otherwise the remote store may allow what the in-process store denies:
    its tenant guard and the relation the server checks can be satisfied by two
    different brains, so a caller reads evidence of its own tenant through a
    relation to a brain of another tenant. *)
Theorem remote_store_crosses_tenants :
  exists (c : Client fake_server) identity request, mirrored fake_server c /\
    pd_Allowed (fst (Client_Check fake_server c identity request)) = true /\
    pd_Allowed (Check_ (cl_local fake_server c) identity request) = false.
Proof.
  exists (TenantCrossing.write_all TenantCrossing.client0), TenantCrossing.mallory, TenantCrossing.read_x.
  split_and!; [|vm_compute; reflexivity..]. do 5 (apply TenantCrossing.write_mirrored; [done|]). done.
Qed.

(** ** Fixture syntax *)

Lemma index_byte_app c s t : contains_char c s = false -> index_byte c (s ++ String c t) = len s.
Proof.
  unfold len. induction s as [|a s IH]; cbn; [by rewrite Ascii.eqb_refl|]. destruct (Ascii.eqb a c); [done|]. cbn. intros Hs.
  rewrite (IH Hs). rewrite (proj2 (Z.ltb_ge _ _)) by lia. lia.
Qed.

(** A tuple printed as [object#relation@user] parses back to itself when its
    object and relation hold neither separator. *)
Theorem ParseTuple_roundtrip t :
  validTuple t = true -> contains_char "#" (tu_Object t) = false -> contains_char "@" (tu_Object t) = false ->
  contains_char "@" (tu_Relation t) = false ->
  ParseTuple (tu_Object t ++ "#" ++ tu_Relation t ++ "@" ++ tu_User t) = Ok t.
Proof.
  destruct t as [o r u]. cbn [tu_Object tu_Relation tu_User]. intros Hv Ho1 Ho2 Hr. unfold ParseTuple. cbv zeta.
  assert (index_byte "#" (o ++ "#" ++ r ++ "@" ++ u) = len o) as -> by (by apply (index_byte_app "#")).
  assert (index_byte "@" (o ++ "#" ++ r ++ "@" ++ u) = len o + 1 + len r) as ->.
  { replace (o ++ "#" ++ r ++ "@" ++ u) with ((o ++ "#" ++ r) ++ String "@" u) by (by rewrite !append_assoc).
    rewrite index_byte_app; [unfold len; rewrite !length_append; cbn; lia|]. by rewrite !contains_char_app, Ho2, Hr. }
  unfold validTuple in Hv. cbn [tu_Object tu_Relation tu_User] in Hv.
  assert (0 < len o /\ 0 < len r /\ 0 < len u) as (Lo & Lr & Lu).
  { rewrite !andb_true_iff, !negb_true_iff, !String.eqb_neq in Hv. destruct Hv as [[[[? ?] ?] _] _]. unfold len. destruct o, r, u; cbn; try done; lia. }
  assert (len (o ++ "#" ++ r ++ "@" ++ u) = len o + 1 + len r + 1 + len u) as -> by (unfold len; rewrite !length_append; cbn; lia).
  rewrite (proj2 (Z.leb_gt _ _)), (proj2 (Z.leb_gt _ _)), (proj2 (Z.eqb_neq _ _)) by lia. cbn [orb].
  assert (str_take (Z.to_nat (len o)) (o ++ "#" ++ r ++ "@" ++ u) = o) as ->.
  { unfold len. rewrite Nat2Z.id. apply str_take_app. }
  assert (str_drop (Z.to_nat (len o + 1)) (o ++ "#" ++ r ++ "@" ++ u) = r ++ "@" ++ u) as ->.
  { replace (o ++ "#" ++ r ++ "@" ++ u) with ((o ++ "#") ++ (r ++ "@" ++ u)) by (by rewrite append_assoc).
    replace (Z.to_nat (len o + 1)) with (String.length (o ++ "#")) by (unfold len; rewrite length_append; cbn; lia). apply str_drop_app. }
  assert (str_take (Z.to_nat (len o + 1 + len r - (len o + 1))) (r ++ "@" ++ u) = r) as ->.
  { replace (Z.to_nat (len o + 1 + len r - (len o + 1))) with (String.length r) by (unfold len; lia). apply str_take_app. }
  assert (str_drop (Z.to_nat (len o + 1 + len r + 1)) (o ++ "#" ++ r ++ "@" ++ u) = u) as ->.
  { replace (o ++ "#" ++ r ++ "@" ++ u) with ((o ++ "#" ++ r ++ "@") ++ u) by (by rewrite !append_assoc).
    replace (Z.to_nat (len o + 1 + len r + 1)) with (String.length (o ++ "#" ++ r ++ "@")) by (unfold len; rewrite !length_append; cbn; lia).
    apply str_drop_app. }
  unfold validTuple. cbn [tu_Object tu_Relation tu_User]. by rewrite Hv.
Qed.

(** ** Examples *)

Module AuthzRun.

Definition alice : MappedIdentityFact := MkFact (MkIdentifier "principal" "alice") (MkIdentifier "tenant" "acme") (MkIdentifier "session" "s").
Definition owns : list Tuple :=
  [MkTuple "evidence:x" "brain" "brain:a"; MkTuple "brain:a" "tenant" "tenant:acme"; MkTuple "brain:a" "owner" "user:alice"].
Definition client : Client fake_server :=
  fold_left (fun c t => fst (Client_Write fake_server t c)) owns (MkClient fake_server (∅ : gset Tuple) NewEvaluator).

Lemma client_mirrored : mirrored fake_server client.
Proof. do 3 (apply TenantCrossing.write_mirrored; [done|]). done. Qed.

Lemma stores_agree_on_sources_witness :
  fst (Client_CheckSource fake_server client alice "file.write" (MkIdentifier "brain" "a")) =
  CheckSource (cl_local fake_server client) alice "file.write" (MkIdentifier "brain" "a").
Proof. apply (stores_agree_on_sources fake_server client alice "file.write" (MkIdentifier "brain" "a") _ client_mirrored). vm_compute. reflexivity. Defined.

Definition read_x : PolicyRequest := MkPolicyRequest "artifact.read" (MkIdentifier "evidence" "x") 0.

Lemma client_brains : relatedObjects (cl_local fake_server client) "evidence:x" "brain" "brain:" = ["brain:a"].
Proof. vm_compute. reflexivity. Qed.

Lemma stores_agree_on_tenant_evidence_witness :
  fst (Client_Check fake_server client alice read_x) = Check_ (cl_local fake_server client) alice read_x.
Proof.
  apply (stores_agree_on_tenant_evidence fake_server client alice read_x _ client_mirrored); [vm_compute; reflexivity|].
  change ("evidence:" ++ Value (pq_Resource read_x)) with "evidence:x". rewrite client_brains. intros brain Hb.
  apply list_elem_of_singleton in Hb as ->. vm_compute. reflexivity.
Defined.

Lemma epochs_never_regress_witness : 0 <= epoch_of (mutate (MSetEpoch "acme" 4) (cl_local fake_server client)) "acme".
Proof. apply (epochs_never_regress (MSetEpoch "acme" 4) (cl_local fake_server client) "acme"). vm_compute. split; [discriminate|reflexivity]. Defined.

Lemma ParseTuple_roundtrip_witness : ParseTuple "brain:a#owner@user:alice" = Ok (MkTuple "brain:a" "owner" "user:alice").
Proof. exact (ParseTuple_roundtrip (MkTuple "brain:a" "owner" "user:alice") eq_refl eq_refl eq_refl eq_refl). Defined.
End AuthzRun.
