(* ===== verification/BrokerAuthority.v ===== *)
(** * broker: the local authority

    Models [services/broker/internal/identity/identity.go] (the mapping of peer
    credentials to an identity and its cross-checks),
    [authz/store.go] (the store interface and the in-process adapter) and
    [services/broker/localauthority/facade.go] (the broker that combines peer
    identity, issued grants and current policy).

    The broker is written against the interface [RelationshipStore]; the
    evaluator and the OpenFGA client of [BrokerAuthz] implement it.
    [reflect.DeepEqual] on grants is a parameter: it also tells nil from empty
    slices, which the model does not, so all that is used of it is that grants
    it calls equal are equal. *)

From Stdlib Require Import Ascii String.
From S2P Require Import Prelude GoString Contracts BrokerCapability BrokerAuthz.
Open Scope string_scope.
Open Scope Z_scope.

(** ** Peer identity *)

Inductive identity_error := IdentityDenied.

Record PeerCredentials := MkPeer { pc_PID : Z; pc_UID : Z; pc_GID : Z }.

Definition validID (i : Identifier) (ns : string) : bool := String.eqb (Namespace i) ns && negb (String.eqb (Value i) "").

Record Mapper := MkMapper { mp_uid : Z; mp_principal : Identifier; mp_tenant : Identifier }.

Definition NewMapper (uid : Z) (principal tenant : Identifier) : result identity_error Mapper :=
  if negb (validID principal "principal") || negb (validID tenant "tenant") then Err IdentityDenied else Ok (MkMapper uid principal tenant).

Definition Map (m : Mapper) (credentials : PeerCredentials) (session : Identifier) : result identity_error MappedIdentityFact :=
  if negb (pc_UID credentials =? mp_uid m) || (pc_PID credentials =? 0) || negb (validID session "session") then Err IdentityDenied
  else Ok (MkFact (mp_principal m) (mp_tenant m) session).

Definition CrossCheckCommand (authenticated : MappedIdentityFact) (bodyPrincipal bodyTenant bodySession : Identifier) : result identity_error unit :=
  if negb (validID (Principal authenticated) "principal") || negb (validID (Tenant authenticated) "tenant")
     || negb (validID (Session authenticated) "session") || negb (bool_decide (bodyPrincipal = Principal authenticated))
     || negb (bool_decide (bodyTenant = Tenant authenticated)) || negb (bool_decide (bodySession = Session authenticated))
  then Err IdentityDenied else Ok tt.

Definition CrossCheckStatus (authenticated : MappedIdentityFact) (requestedSession : Identifier) : result identity_error unit :=
  if negb (validID (Session authenticated) "session") || negb (bool_decide (requestedSession = Session authenticated))
  then Err IdentityDenied else Ok tt.

(** ** The store interface *)

Record RelationshipStore := MkStore {
  rs_state : Type;
  rs_Write : Tuple -> rs_state -> rs_state * result authz_error unit;
  rs_Delete : Tuple -> rs_state -> rs_state * result authz_error (string * Z);
  rs_SetEpoch : string -> Z -> rs_state -> rs_state * result authz_error unit;
  rs_Epoch : string -> rs_state -> result authz_error Z;
  rs_Check : rs_state -> MappedIdentityFact -> PolicyRequest -> PolicyDecision * option authz_error;
  rs_CheckSource : rs_state -> MappedIdentityFact -> string -> Identifier -> PolicyDecision * option authz_error
}.

Definition InProcessAdapter : RelationshipStore :=
  MkStore Evaluator Write Delete SetEpoch Epoch (fun e i r => (Check_ e i r, None)) (fun e i a b => (CheckSource e i a b, None)).

Definition ClientStore (R : Remote) : RelationshipStore :=
  MkStore (Client R) (Client_Write R) (Client_Delete R) (Client_SetEpoch R) (Client_Epoch R) (Client_Check R) (Client_CheckSource R).

(** ** The broker *)

Inductive authority_error := AuthorityDenied | ErrInvalidConfig.

Record Config := MkConfig { cf_UID : Z; cf_Principal : Identifier; cf_Tenant : Identifier; cf_Session : Identifier }.
Record Decision := MkDecision { dc_Allowed : bool; dc_ReasonCode : string; dc_RevocationEpoch : Z }.

Definition NewUse (action : string) (resource : Identifier) (fence epoch : Z) (nonce : string) (now : Z) : UseRequest :=
  MkUse action resource fence epoch nonce "" ∅ now.

Section broker.
Context (S : RelationshipStore) (deep_equal : Grant -> Grant -> bool).

Record Broker := MkBroker { br_mapper : Mapper; br_policy : rs_state S; br_session : Identifier; br_grants : gmap string Grant }.

Definition NewWithStore (config : Config) (store : rs_state S) : result authority_error Broker :=
  if negb (String.eqb (Namespace (cf_Session config)) "session") || String.eqb (Value (cf_Session config)) "" then Err ErrInvalidConfig
  else match NewMapper (cf_UID config) (cf_Principal config) (cf_Tenant config) with
  | Err _ => Err ErrInvalidConfig
  | Ok mapper => Ok (MkBroker mapper store (cf_Session config) ∅)
  end.

Definition RegisterGrant (grant : Grant) (now : Z) (b : Broker) : Broker * result authority_error unit :=
  match ValidateGrant grant now with
  | Err _ => (b, Err AuthorityDenied)
  | Ok _ =>
      let install := (MkBroker (br_mapper b) (br_policy b) (br_session b) (<[gr_ID grant := grant]> (br_grants b)), Ok tt) in
      match br_grants b !! gr_ID grant with
      | Some existing => if negb (deep_equal existing grant) then (b, Err AuthorityDenied) else install
      | None => install
      end
  end.

Definition MapPeer (b : Broker) (credentials : PeerCredentials) : result authority_error MappedIdentityFact :=
  match Map (br_mapper b) credentials (br_session b) with Ok m => Ok m | Err _ => Err AuthorityDenied end.

Definition with_policy (b : Broker) (st : rs_state S) : Broker := MkBroker (br_mapper b) st (br_session b) (br_grants b).

Definition AddRelationship (value : string) (b : Broker) : Broker * result authority_error unit :=
  match ParseTuple value with
  | Err _ => (b, Err AuthorityDenied)
  | Ok t => let '(st, r) := rs_Write S t (br_policy b) in (with_policy b st, match r with Ok _ => Ok tt | Err _ => Err AuthorityDenied end)
  end.

Definition RemoveRelationship (value : string) (b : Broker) : Broker * result authority_error Z :=
  match ParseTuple value with
  | Err _ => (b, Err AuthorityDenied)
  | Ok t =>
      let '(st, r) := rs_Delete S t (br_policy b) in
      (with_policy b st, match r with Ok (_, epoch) => Ok epoch | Err _ => Err AuthorityDenied end)
  end.

Definition SetRevocationEpoch (tenant : string) (epoch : Z) (b : Broker) : Broker * result authority_error unit :=
  let '(st, r) := rs_SetEpoch S tenant epoch (br_policy b) in
  (with_policy b st, match r with Ok _ => Ok tt | Err _ => Err AuthorityDenied end).

Definition RevocationEpoch (tenant : Identifier) (b : Broker) : result authority_error Z :=
  if negb (String.eqb (Namespace tenant) "tenant") || String.eqb (Value tenant) "" then Err AuthorityDenied
  else match rs_Epoch S (Value tenant) (br_policy b) with Ok e => Ok e | Err _ => Err AuthorityDenied end.

(** A denial comes with the epoch the policy reported. *)
Definition decide_policy (d : PolicyDecision * option authz_error) : Decision * option authority_error :=
  if match snd d with Some _ => true | None => false end || negb (pd_Allowed (fst d))
  then (MkDecision false "not_found_or_denied" (pd_RevocationEpoch (fst d)), Some AuthorityDenied)
  else (MkDecision true "allowed" (pd_RevocationEpoch (fst d)), None).

Definition AuthorizeSource (b : Broker) (mapped : MappedIdentityFact) (action : string) (brain : Identifier) : Decision * option authority_error :=
  decide_policy (rs_CheckSource S (br_policy b) mapped action brain).

Definition issuedGrant (b : Broker) (id : string) : option Grant := if String.eqb id "" then None else br_grants b !! id.

Definition Authorize (b : Broker) (mapped : MappedIdentityFact) (grant : Grant) (use : UseRequest) : Decision * option authority_error :=
  let denied := (MkDecision false "not_found_or_denied" (us_RevocationEpoch use), Some AuthorityDenied) in
  match issuedGrant b (gr_ID grant) with
  | None => denied
  | Some issued =>
      if (us_Now use =? 0) || negb (deep_equal issued grant) then denied
      else match AuthorizeUse issued mapped use with
      | Err _ => denied
      | Ok _ => decide_policy (rs_Check S (br_policy b) mapped (MkPolicyRequest (us_Action use) (us_Resource use) (us_RevocationEpoch use)))
      end
  end.
End broker.

(** ** Lemmas *)

Lemma AuthorizeUse_facts g identity u :
  AuthorizeUse g identity u = Ok tt ->
  Principal identity = gr_Principal g /\ Tenant identity = gr_Tenant g /\ us_Now u < gr_ExpiresAt g /\ us_Action u ∈ gr_Actions g /\
  us_Resource u ∈ gr_Resources g /\ us_Nonce u = gr_Nonce g /\ us_RevocationEpoch u = gr_RevocationEpoch g.
Proof.
  intros (Hv & Hp & Ht & _ & Ha & Hr & _ & _ & He & _ & Hn & _)%AuthorizeUse_Ok.
  split_and!; try done; [by eapply validate_unexpired|by apply contains_value_spec|by apply containsResource_spec].
Qed.

Section lemmas.
Context (S : RelationshipStore) (deep_equal : Grant -> Grant -> bool).
Context (deep_equal_sound : forall a b, deep_equal a b = true -> a = b).

Lemma Authorize_Ok b mapped grant use d :
  Authorize S deep_equal b mapped grant use = (d, None) ->
  br_grants S b !! gr_ID grant = Some grant /\ us_Now use <> 0 /\ AuthorizeUse grant mapped use = Ok tt /\
  exists p, rs_Check S (br_policy S b) mapped (MkPolicyRequest (us_Action use) (us_Resource use) (us_RevocationEpoch use)) = (p, None) /\
    pd_Allowed p = true /\ d = MkDecision true "allowed" (pd_RevocationEpoch p).
Proof.
  unfold Authorize, issuedGrant. cbv zeta. destruct (String.eqb (gr_ID grant) ""); [done|].
  destruct (br_grants S b !! gr_ID grant) as [issued|] eqn:Eg; [|done].
  destruct (Z.eqb_spec (us_Now use) 0) as [|Hnow]; [done|]. destruct (deep_equal issued grant) eqn:Ed; [|done]. cbn [orb negb].
  apply deep_equal_sound in Ed as ->. destruct (AuthorizeUse grant mapped use) as [[]|]; [|done].
  unfold decide_policy. destruct (rs_Check S _ _ _) as [p err]. destruct err; [done|]. cbn.
  destruct (pd_Allowed p) eqn:Ea; [|done]. cbn. intros [= <-]. split_and!; try done. by exists p.
Qed.

(** One trusted mutation of the broker. *)
Inductive bstep : Broker S -> Broker S -> Prop :=
| b_register b grant now : bstep b (fst (RegisterGrant S deep_equal grant now b))
| b_add b value : bstep b (fst (AddRelationship S value b))
| b_remove b value : bstep b (fst (RemoveRelationship S value b))
| b_epoch b tenant epoch : bstep b (fst (SetRevocationEpoch S tenant epoch b)).

Lemma bstep_grant b b' id g : bstep b b' -> br_grants S b !! id = Some g -> br_grants S b' !! id = Some g.
Proof.
  intros Hs Hg. destruct Hs as [b grant now|b value|b value|b tenant epoch].
  - unfold RegisterGrant. destruct (BrokerCapability.ValidateGrant grant now) as [[]|]; [|done]. cbv zeta.
    destruct (br_grants S b !! gr_ID grant) as [existing|] eqn:Ee.
    + destruct (deep_equal existing grant) eqn:Ed; [|done]. apply deep_equal_sound in Ed as ->. cbn [negb fst br_grants].
      destruct (decide (id = gr_ID grant)) as [->|Hne]; [rewrite lookup_insert_eq; congruence|by rewrite lookup_insert_ne].
    + cbn [fst br_grants]. rewrite lookup_insert_ne; [done|]. congruence.
  - unfold AddRelationship. destruct (ParseTuple value); [|done]. by destruct (rs_Write S _ _).
  - unfold RemoveRelationship. destruct (ParseTuple value); [|done]. by destruct (rs_Delete S _ _).
  - unfold SetRevocationEpoch. by destruct (rs_SetEpoch S _ _ _).
Qed.

(** ** Properties *)

(** An issued grant is immutable: whatever is registered, added, removed or
    revoked later, its identifier still names the same authority, for either
    store. *)
Theorem issued_grant_is_immutable b b' id g :
  rtc bstep b b' -> br_grants S b !! id = Some g -> br_grants S b' !! id = Some g.
Proof. intros Hr. induction Hr as [|x y z Hs _ IH]; [done|]. intros Hg. by eapply IH, bstep_grant. Qed.
End lemmas.

Section in_process.
Context (deep_equal : Grant -> Grant -> bool).
Context (deep_equal_sound : forall a b, deep_equal a b = true -> a = b).

(** What an authorisation means: the presented grant is the issued one; the
    caller is its principal in its tenant; the action, resource and nonce are
    the grant's, before its expiry; and, in the current policy at the grant's
    revocation epoch, the caller owns (or, to read, views) a brain of the
    resource that is bound to the caller's tenant.  The capability alone never
    suffices, and neither does the relationship alone. *)
Theorem authorization_needs_grant_and_policy (b : Broker InProcessAdapter) mapped grant use d :
  Authorize InProcessAdapter deep_equal b mapped grant use = (d, None) ->
  br_grants _ b !! gr_ID grant = Some grant /\ Principal mapped = gr_Principal grant /\ Tenant mapped = gr_Tenant grant /\
  us_Now use < gr_ExpiresAt grant /\ us_Action use ∈ gr_Actions grant /\ us_Resource use ∈ gr_Resources grant /\ us_Nonce use = gr_Nonce grant /\
  gr_RevocationEpoch grant = epoch_of (br_policy _ b) (Value (Tenant mapped)) /\
  exists brain, MkTuple ("evidence:" ++ Value (us_Resource use)) "brain" brain ∈ ev_tuples (br_policy _ b) /\
    related (br_policy _ b) brain mapped (us_Action use = "artifact.read").
Proof.
  intros Ha. apply Authorize_Ok in Ha as (Hg & _ & Hu & p & Hp & Hall & _); [|done]. cbn in Hp. injection Hp as <-.
  apply AuthorizeUse_facts in Hu as (Hpr & Ht & Hx & Hact & Hres & Hn & He). 
  apply Check_allowed_iff in Hall as (_ & _ & _ & Hep & _ & brain & Hb & _ & _ & Hr). cbn in Hep, Hb, Hr.
  split_and!; try done; [congruence|by exists brain].
Qed.

(** C30. Removing a relationship kills the issued grants: no use of a grant of the
    tenant that owns the relationship's object is authorised under the epoch
    current before the removal, whatever relationships remain. *)
Theorem removal_kills_issued_grants (b b' : Broker InProcessAdapter) value t tenant epoch grant mapped use :
  ParseTuple value = Ok t -> owningTenant (br_policy _ b) (tu_Object t) = Some tenant ->
  RemoveRelationship InProcessAdapter value b = (b', Ok epoch) -> 0 <= epoch_of (br_policy _ b) tenant < 2 ^ 64 ->
  Value (Tenant mapped) = tenant -> gr_RevocationEpoch grant = epoch_of (br_policy _ b) tenant ->
  snd (Authorize InProcessAdapter deep_equal b' mapped grant use) = Some AuthorityDenied.
Proof.
  intros Hp Ho Hrm Hr Ht Hep. destruct (Authorize InProcessAdapter deep_equal b' mapped grant use) as [d [[]|]] eqn:Ea; cbn; try done.
  - exfalso. unfold Authorize, decide_policy in Ea. cbv zeta in Ea. repeat case_match; congruence.
  - exfalso. apply Authorize_Ok in Ea as (_ & _ & Hu & p & Hc & Hall & _); [|done]. cbn in Hc. injection Hc as <-.
    apply AuthorizeUse_facts in Hu as (_ & _ & _ & _ & _ & _ & He).
    unfold RemoveRelationship in Hrm. rewrite Hp in Hrm. cbn in Hrm.
    destruct (Delete t (br_policy InProcessAdapter b)) as [st [[T e]|]] eqn:Ed; [|done]. injection Hrm as <- <-. cbn in Hall.
    pose proof Ed as (_ & _ & Ho' & _)%Delete_Ok. assert (T = tenant) as -> by congruence.
    destruct (Delete_revokes _ _ _ _ _ Ed Hr) as (_ & _ & _ & Hst). rewrite Hst in Hall; [done|done|cbn; congruence].
Qed.
End in_process.

(** ** Examples *)

Module AuthorityRun.

#[local] Instance Grant_eq_dec : EqDecision Grant.
Proof. solve_decision. Defined.

Definition same (a b : Grant) : bool := bool_decide (a = b).
Lemma same_sound a b : same a b = true -> a = b.
Proof. apply bool_decide_eq_true_1. Qed.

Definition grant : Grant :=
  MkGrant "g1" "grant" (MkIdentifier "principal" "alice") (MkIdentifier "tenant" "acme")
    (MkDigest "sha256" "0123456789abcdef0123456789abcdef0123456789abcdef0123456789abcdef") ["artifact.read"] [MkIdentifier "evidence" "x"] [] ∅ 3 0 500 "n1".
Definition use : UseRequest := NewUse "artifact.read" (MkIdentifier "evidence" "x") 3 0 "n1" 100.

Definition broker : Broker InProcessAdapter :=
  MkBroker InProcessAdapter (MkMapper 7 (MkIdentifier "principal" "alice") (MkIdentifier "tenant" "acme")) (cl_local fake_server AuthzRun.client)
    (MkIdentifier "session" "s") {["g1" := grant]}.

Lemma issued_grant_is_immutable_witness : br_grants _ (fst (AddRelationship InProcessAdapter "brain:a#viewer@user:bob" broker)) !! "g1" = Some grant.
Proof.
  apply (issued_grant_is_immutable InProcessAdapter same same_sound broker _ "g1" grant); [|reflexivity].
  apply rtc_once, (b_add InProcessAdapter same broker "brain:a#viewer@user:bob").
Defined.

Lemma authorization_needs_grant_and_policy_witness :
  snd (Authorize InProcessAdapter same broker AuthzRun.alice grant use) = None /\ us_Now use < gr_ExpiresAt grant.
Proof.
  assert (snd (Authorize InProcessAdapter same broker AuthzRun.alice grant use) = None) as E by (vm_compute; reflexivity). split; [exact E|].
  destruct (Authorize InProcessAdapter same broker AuthzRun.alice grant use) as [d err] eqn:Ea. cbn in E. subst err.
  exact (proj1 (proj2 (proj2 (proj2 (authorization_needs_grant_and_policy same same_sound broker AuthzRun.alice grant use d Ea))))).
Defined.

Definition removed : Broker InProcessAdapter := fst (RemoveRelationship InProcessAdapter "brain:a#owner@user:alice" broker).

Lemma removed_epoch : snd (RemoveRelationship InProcessAdapter "brain:a#owner@user:alice" broker) = Ok 1.
Proof. vm_compute. reflexivity. Qed.

Lemma removed_eq : RemoveRelationship InProcessAdapter "brain:a#owner@user:alice" broker = (removed, Ok 1).
Proof. rewrite <- removed_epoch. apply surjective_pairing. Qed.

Lemma broker_owner : owningTenant (br_policy InProcessAdapter broker) "brain:a" = Some "acme".
Proof. vm_compute. reflexivity. Qed.

Lemma broker_epoch : epoch_of (br_policy InProcessAdapter broker) "acme" = 0.
Proof. vm_compute. reflexivity. Qed.

Lemma removal_kills_issued_grants_witness : snd (Authorize InProcessAdapter same removed AuthzRun.alice grant use) = Some AuthorityDenied.
Proof.
  refine (removal_kills_issued_grants same same_sound broker removed "brain:a#owner@user:alice" (MkTuple "brain:a" "owner" "user:alice") "acme" 1
    grant AuthzRun.alice use eq_refl broker_owner removed_eq _ eq_refl _).
  - rewrite broker_epoch. lia.
  - by rewrite broker_epoch.
Defined.
End AuthorityRun.
