(* ===== verification/BrokerDemo.v ===== *)
(** * The broker on concrete inputs

    Evaluates the broker's definitions on a concrete tenant, grant, candidate
    and task, and applies its theorems there. *)

From Stdlib Require Import Ascii String.
From S2P Require Import Prelude GoString GoPath Float64 Runtime FactoryTypes FactoryDemo Contracts BrokerChangeSet BrokerEffects BrokerCandidate BrokerRunner.
Open Scope string_scope.
Open Scope Z_scope.

#[local] Existing Instance demo_digests.

Lemma all_hex_of n z : all_lower_hex (hex_of n z) = true.
Proof.
  revert z. induction n as [|n IH]; intros z; [done|]. cbn [hex_of all_lower_hex]. rewrite IH, andb_true_r.
  generalize (Z.to_nat (z mod 16)). intros k. by do 16 (destruct k as [|k]; [done|]); destruct k.
Qed.

Lemma demo_digests_ok s : validDigest (DigestBytes s) = true.
Proof.
  apply sha256_digest_ok_spec. unfold DigestBytes. cbn [Algorithm Hex sha256_hex demo_digests]. split_and!; [done| |apply all_hex_of].
  apply (hex_of_ok 64).
Qed.

(** ** Edit sets *)

Definition lexer_edit : Edit := MkEdit "src/lex.go" "" OpModify "go" (DigestBytes "old") (DigestBytes "new") "new".
Definition parser_edit : Edit := MkEdit "src/parse.go" "src/old.go" OpRename "go" (DigestBytes "p") (DigestBytes "q") "q".

Lemma demo_edits_valid : Validate [lexer_edit; parser_edit] = Ok tt.
Proof. vm_compute. reflexivity. Qed.

Lemma edit_set_accepted_iff_witness :
  1 <= Z.of_nat (length [lexer_edit; parser_edit]) <= MaxEdits /\ NoDup (ed_Path <$> [lexer_edit; parser_edit]).
Proof.
  destruct (proj1 (edit_set_accepted_iff [lexer_edit; parser_edit] demo_digests_ok) demo_edits_valid) as (H1 & _ & H2 & _). done.
Defined.

(** ** A leaf *)

Definition git_base : string := hex_of 40 11.

Definition demo_grant : Grant :=
  MkLeafGrant (MkIdentifier "grant" "g1") (MkIdentifier "principal" "alice") (MkIdentifier "tenant" "acme") (MkIdentifier "factory-task" "t1")
    (MkIdentifier "factory-run" "r1") (MkLease (MkIdentifier "lease" "l1") (MkIdentifier "principal" "alice") 3 2000)
    [ActionFileRead; ActionFileWrite] [MkIdentifier "tenant" "acme"] git_base ["src"] "nonce" 7 1500 (MkDigest "sha256" (hex_of 64 5)) 1.

Definition alice : MappedIdentityFact := MkFact (MkIdentifier "principal" "alice") (MkIdentifier "tenant" "acme") (MkIdentifier "session" "s").

(** The lease is live under fence 3 and the policy allows everything at epoch 7. *)
Definition demo_world : World :=
  MkWorld 1000 (fun _ => Some (3, 2000)) (fun _ q => Some (MkPolicyDecision true zero_receipt (pq_RevocationEpoch q))).

Definition demo_spec : LeafSpec :=
  MkLeafSpec (MkIdentifier "run" "r1") "leaf-a" ["src"] ["src/secret"] git_base alice demo_grant "cs-1" "key-1" 1000.

Definition demo_config : Config := MkConfig "/canonical" "/candidates" "/usr/bin/git" 1000 100 1000 10000.
Definition demo_tree : tree := {[ ["src"] := NDir; ["src"; "lex.go"] := NFile "old" 420; ["src"; "old.go"] := NFile "p" 420 ]}.
Definition demo_begin : BeginEnv := MkBeginEnv (Some git_base) (Some "/canonical/.git") (Some "01") true true true (Some demo_tree) (Some git_base) (Some "").
Definition demo_env : CandEnv := MkCandEnv (fun _ => false) (fun _ _ => false) true (Some (hex_of 40 9)) true (fun _ => "-rw-r--r--") 420.
Definition empty_store : Store := MkStore ∅ ∅.



(** The same leaf, after a request for a forbidden path, fails and leaves nothing. *)
Example escape_fails_run :
  let '(s, (res, _)) := RunLeaf (fun _ => demo_world) demo_config demo_begin demo_env (fun _ => false) Removed Removed demo_spec
    (ScriptedSynthesizer [StepRead "src/secret/key"; StepPropose lexer_edit]) empty_store in
  rs_State res = RunFailed /\ dr_ReasonCode <$> rs_Denials res = ["escape_forbidden_path"] /\ map_to_list (st_dirs s) = [].
Proof. vm_compute. done. Qed.

(** ** Witnesses: candidates and leaves *)

Lemma demo_tree_wf : wf_tree demo_tree.
Proof.
  intros p n Hp q Hq. unfold demo_tree in *.
  repeat (apply lookup_insert_Some in Hp as [[<- <-]|[_ Hp]]); [..|apply lookup_singleton_Some in Hp as [<- <-]];
    cbn in Hq; repeat (apply elem_of_cons in Hq as [->|Hq]; [vm_compute; reflexivity|]); by apply not_elem_of_nil in Hq.
Qed.



Definition demo_candidate : Candidate := MkCandidate "candidate-01" git_base.
Definition demo_request (key : string) (auth : Authorizer) : ApplyRequest :=
  MkApply "cs-1" key (MkIdentifier "tenant" "acme") (MkIdentifier "principal" "alice") [lexer_edit; parser_edit] auth.

(** The second edit is denied: the directory with the first one is removed. *)
Definition deny_second : Authorizer := fun i _ => if (i =? 1)%nat then Err (Denied ReasonStaleFence) else Ok tt.
Definition demo_store : Store := MkStore ∅ {["candidate-01" := demo_tree]}.

Lemma candidate_all_or_nothing_witness :
  st_dirs (fst (Apply demo_config demo_env Removed demo_candidate (demo_request "key-1" deny_second) demo_tree demo_store)) !! "candidate-01" = None.
Proof.
  pose proof (candidate_all_or_nothing demo_config demo_env Removed demo_candidate (demo_request "key-1" deny_second) demo_tree demo_store demo_tree_wf
    eq_refl) as Hc.
  assert (snd (snd (Apply demo_config demo_env Removed demo_candidate (demo_request "key-1" deny_second) demo_tree demo_store))
          = Some (ErrDeniedBy (Denied ReasonStaleFence))) as He by (vm_compute; reflexivity).
  destruct (Apply demo_config demo_env Removed demo_candidate (demo_request "key-1" deny_second) demo_tree demo_store) as [s' [out err]].
  cbn in He. subst err. destruct Hc as (_ & Hc). destruct out as [o|]; [|destruct Hc as (_ & [[_ He]|(_ & _ & He)]); discriminate].
  destruct Hc as (_ & _ & Hd & _). by apply Hd.
Defined.

(** A finished application of another candidate under another key. *)
Definition recorded_other : recordedOutcome :=
  MkRecorded zero_digest (Some (MkOutcome StateApplied "candidate-00" git_base zero_digest zero_digest "" None)) "".
Definition busy_store : Store :=
  MkStore {[replayKey (demo_request "key-2" deny_second) := recorded_other]} {["candidate-01" := demo_tree]}.

Lemma replay_removes_in_flight_candidate_witness :
  st_dirs (fst (apply_claim Removed demo_candidate (demo_request "key-2" deny_second)
    (fst (apply_claim Removed demo_candidate (demo_request "key-1" deny_second) busy_store)))) !! "candidate-01" = None.
Proof.
  refine (proj2 (replay_removes_in_flight_candidate demo_candidate (demo_request "key-1" deny_second) (demo_request "key-2" deny_second) busy_store
    _ _ _ _ demo_edits_valid demo_edits_valid _ _ _ _ _ _)); try (vm_compute; reflexivity); [discriminate..].
Defined.

Lemma declared_forbidden_path_fails_run_witness :
  rs_State (fst (snd (RunLeaf (fun _ => demo_world) demo_config demo_begin demo_env (fun _ => false) Removed Removed demo_spec
    (DeterministicSynthesizer demo_spec [MkDirective "modify" "src/lex.go" ""] ["src/secret"]) empty_store))) <> RunCompleted.
Proof. apply (declared_forbidden_path_fails_run _ _ _ _ _ _ _ _ _ _ "src/secret"); [by left|by left]. Defined.

(** ** Witnesses: effects *)

Definition demo_effect : Request := MkEffect ActionFileWrite "src/lex.go" (MkIdentifier "" "") "key-1" 0.
Definition demo_call : call := MkCall demo_world (leaf_of demo_spec) demo_effect.
Definition claimed : Broker := {[effect_namespace (leaf_of demo_spec) demo_effect := MkExecuted (effect_digest (leaf_of demo_spec) demo_effect) zero_receipt]}.
Definition sys_started1 : system := MkSystem claimed [demo_call] [demo_call] [].
Definition sys_done1 : system :=
  MkSystem (fst (execute_finish (leaf_of demo_spec) demo_effect None claimed)) [] [demo_call] [demo_call].

Lemma sys_done1_reachable : rtc estep sys_init sys_done1.
Proof.
  apply rtc_l with sys_started1; [apply (step_start sys_init demo_call); vm_compute; reflexivity|].
  apply rtc_l with sys_done1; [|apply rtc_refl]. by apply (step_succeeded sys_started1 [] demo_call [] _ (snd (execute_finish (leaf_of demo_spec) demo_effect None claimed))).
Qed.

Lemma effect_runs_at_most_once_witness : NoDup (c_namespace <$> sys_started sys_done1) /\ length (sys_succeeded sys_done1) = 1%nat.
Proof. split; [apply (effect_runs_at_most_once sys_done1 sys_done1_reachable)|reflexivity]. Defined.

Lemma effect_replay_returns_original_witness : authorizeLeaf demo_world (leaf_of demo_spec) demo_effect = Ok tt.
Proof.
  apply (effect_replay_returns_original sys_done1 demo_world (leaf_of demo_spec) demo_effect (sys_broker sys_done1) (completed demo_effect)
    sys_done1_reachable). vm_compute. reflexivity.
Defined.
