(* ===== verification/Composite.v ===== *)
(** * Length-prefixed composite texts

    [encodeComposite] and [decodeComposite] of
    [services/brain/internal/artifactvault/composite.go]: keys, receipts and
    authenticated data are framed with the decimal length of every part, so no
    part can imitate another.  Also lemmas on fields separated by a byte they do
    not contain, as the audit chain frames them.  Includes [strconv.Atoi] and [strconv.ParseUint]
    as the package uses them. *)

From Stdlib Require Import Ascii String.
From S2P Require Import Prelude GoString.
Open Scope string_scope.
Open Scope Z_scope.

(** ** Decimal numbers and separators *)

Fixpoint all_digits (s : string) : bool :=
  match s with EmptyString => true | String c s' => in_range 48 57 c && all_digits s' end.

Fixpoint digits_value (acc : Z) (s : string) : Z :=
  match s with EmptyString => acc | String c s' => digits_value (10 * acc + (byte_val c - 48)) s' end.

Lemma all_digits_app s t : all_digits (s ++ t) = all_digits s && all_digits t.
Proof. induction s as [|c s IH]; cbn; [done|]. by rewrite IH, andb_assoc. Qed.

Lemma digits_value_app acc s t : digits_value acc (s ++ t) = digits_value (digits_value acc s) t.
Proof. revert acc. induction s as [|c s IH]; intros acc; cbn; [done|]. apply IH. Qed.

Lemma byte_val_digit n : 0 <= n < 10 -> byte_val (digit n) = 48 + n.
Proof. intros Hn. unfold digit, byte_of_Z, byte_val. rewrite N_ascii_embedding; lia. Qed.

Lemma digit_ok n : 0 <= n < 10 -> in_range 48 57 (digit n) = true.
Proof. intros Hn. unfold in_range. rewrite byte_val_digit by done. apply andb_true_iff. split; apply Z.leb_le; lia. Qed.

Lemma dec_fuel_spec fuel n acc :
  (0 < fuel)%nat -> 0 <= n < 10 ^ Z.of_nat fuel ->
  exists p, dec_fuel fuel n acc = p ++ acc /\ all_digits p = true /\ p <> "" /\ digits_value 0 p = n.
Proof.
  revert n acc. induction fuel as [|fuel IH]; intros n acc Hf Hn; [lia|]. cbn [dec_fuel].
  pose proof (Z.mod_pos_bound n 10 ltac:(lia)) as Hm. destruct (n <? 10) eqn:E.
  - apply Z.ltb_lt in E. exists (String (digit (n mod 10)) ""). cbn. rewrite digit_ok, byte_val_digit by done.
    rewrite Z.mod_small in * by lia. split_and!; [done..|lia].
  - apply Z.ltb_ge in E. destruct fuel as [|fuel]; [cbn in Hn; lia|].
    assert (0 <= n / 10 < 10 ^ Z.of_nat (S fuel)) as Hd.
    { rewrite (Nat2Z.inj_succ (S fuel)), Z.pow_succ_r in Hn by lia. split; [apply Z.div_pos; lia|]. apply Z.div_lt_upper_bound; lia. }
    destruct (IH (n / 10) (String (digit (n mod 10)) acc) ltac:(lia) Hd) as (p & -> & Hp & Hne & Hv).
    exists (p ++ String (digit (n mod 10)) ""). rewrite append_assoc, all_digits_app, digits_value_app, Hp, Hv. cbn [append all_digits digits_value].
    rewrite digit_ok, byte_val_digit by done. split_and!; [done..|by destruct p|]. pose proof (Z.div_mod n 10). lia.
Qed.

Definition dec_range (n : Z) : Prop := 0 <= n < 10 ^ 20.

Lemma dec_spec n : dec_range n -> all_digits (dec n) = true /\ dec n <> "" /\ digits_value 0 (dec n) = n.
Proof.
  intros [H1 H2]. unfold dec. rewrite (proj2 (Z.ltb_ge n 0)) by done.
  destruct (dec_fuel_spec 20 n "" ltac:(lia) ltac:(split; [done|exact H2])) as (p & -> & Hp). by rewrite append_nil_r.
Qed.

Lemma dec_inj n m : dec_range n -> dec_range m -> dec n = dec m -> n = m.
Proof. intros (_ & _ & Hn)%dec_spec (_ & _ & Hm)%dec_spec E. by rewrite <- Hn, <- Hm, E. Qed.

Lemma digits_no_char c s : all_digits s = true -> in_range 48 57 c = false -> contains_char c s = false.
Proof.
  intros Hs Hc. induction s as [|d s IH]; [done|]. cbn [all_digits contains_char] in *. apply andb_true_iff in Hs as [Hd Hs].
  rewrite IH by done. destruct (Ascii.eqb_spec d c) as [->|]; [congruence|done].
Qed.

Lemma dec_no_char c n : dec_range n -> in_range 48 57 c = false -> contains_char c (dec n) = false.
Proof. intros (Hn & _)%dec_spec. by apply digits_no_char. Qed.

(** A field that does not contain the separator ends where the separator is. *)
Lemma separated_inj c a1 a2 r1 r2 :
  contains_char c a1 = false -> contains_char c a2 = false -> a1 ++ String c r1 = a2 ++ String c r2 -> a1 = a2 /\ r1 = r2.
Proof.
  revert a2. induction a1 as [|x a1 IH]; intros [|y a2] H1 H2 E; cbn in *.
  - by injection E as ->.
  - injection E as -> _. by rewrite Ascii.eqb_refl in H2.
  - injection E as -> _. by rewrite Ascii.eqb_refl in H1.
  - injection E as -> E. apply orb_false_iff in H1 as [_ H1], H2 as [_ H2].
    destruct (IH a2 H1 H2 E) as [-> ->]. done.
Qed.

Lemma append_same_length a1 a2 r1 r2 : String.length a1 = String.length a2 -> a1 ++ r1 = a2 ++ r2 -> a1 = a2 /\ r1 = r2.
Proof.
  revert a2. induction a1 as [|x a1 IH]; intros [|y a2] Hl E; cbn in *; try done.
  injection E as -> E. destruct (IH a2 ltac:(lia) E) as [-> ->]. done.
Qed.

Lemma length_dec_fuel fuel n acc : (String.length (dec_fuel fuel n acc) <= fuel + String.length acc)%nat.
Proof. revert n acc. induction fuel as [|fuel IH]; intros n acc; cbn [dec_fuel]; [lia|]. destruct (n <? 10); [cbn; lia|]. etrans; [apply IH|]. cbn. lia. Qed.

Lemma dec_length n : len (dec n) <= 21.
Proof.
  unfold dec, len. destruct (n <? 0); cbn [String.length append].
  - pose proof (length_dec_fuel 20 (- n) ""). cbn in *. lia.
  - pose proof (length_dec_fuel 20 n ""). cbn in *. lia.
Qed.

(** ** strconv *)

Definition digits_in (s : string) (bound : Z) : option Z :=
  if negb (String.eqb s "") && all_digits s && (digits_value 0 s <? bound) then Some (digits_value 0 s) else None.

(** [strconv.ParseUint(s, 10, 64)] *)
Definition parse_uint64 (s : string) : option Z := digits_in s (2 ^ 64).

(** [strconv.Atoi]: an optional sign and digits, within 64 bits. *)
Definition atoi (s : string) : option Z :=
  match s with
  | String "-" s' => Z.opp <$> digits_in s' (2 ^ 63 + 1)
  | String "+" s' => digits_in s' (2 ^ 63)
  | _ => digits_in s (2 ^ 63)
  end.

(** ** composite.go *)

Fixpoint encodeComposite (parts : list string) : string :=
  match parts with
  | [] => ""
  | part :: rest => dec (len part) ++ ":" ++ part ++ encodeComposite rest
  end.

(** The text before the first [c] and the text after it. *)
Fixpoint cut_at (c : ascii) (s : string) : option (string * string) :=
  match s with
  | EmptyString => None
  | String a s' => if Ascii.eqb a c then Some ("", s') else '(x, y) ← cut_at c s'; Some (String a x, y)
  end.

Fixpoint decode_loop (count : nat) (encoded : string) : option (list string * string) :=
  match count, encoded with
  | O, _ | _, EmptyString => Some ([], encoded)
  | S count', _ =>
      match cut_at ":" encoded with
      | Some (prefix, rest) =>
          if String.eqb prefix "" then None
          else match atoi prefix with
          | Some length =>
              if (length <? 0) || (len rest <? length) then None
              else '(parts, tail_) ← decode_loop count' (str_drop (Z.to_nat length) rest);
                   Some (str_take (Z.to_nat length) rest :: parts, tail_)
          | None => None
          end
      | None => None
      end
  end.

Definition decodeComposite (encoded : string) (count : nat) : option (list string) :=
  '(parts, tail_) ← decode_loop count encoded;
  if (length parts =? count)%nat && String.eqb tail_ "" && String.eqb (encodeComposite parts) encoded then Some parts else None.

(** ** Lemmas *)

(** A text in memory is shorter than the decimal lengths that can be written. *)
Definition fits (s : string) : Prop := len s < 2 ^ 63.

Lemma fits_range s : fits s -> dec_range (len s).
Proof. unfold fits, dec_range. pose proof (len_nonneg s). split; [done|]. apply (Z.lt_trans _ (2 ^ 63)); [done|reflexivity]. Qed.

Lemma cut_at_app c s t : contains_char c s = false -> cut_at c (s ++ String c t) = Some (s, t).
Proof.
  induction s as [|a s IH]; cbn; intros Hs; [by rewrite Ascii.eqb_refl|]. apply orb_false_iff in Hs as [Ha Hs]. by rewrite Ha, IH.
Qed.

Lemma atoi_dec n : 0 <= n < 2 ^ 63 -> atoi (dec n) = Some n.
Proof.
  intros Hn. assert (dec_range n) as Hr by (split; [lia|]; apply (Z.lt_trans _ (2 ^ 63)); [lia|reflexivity]).
  destruct (dec_spec n Hr) as (Hd & Hne & Hv).
  assert (digits_in (dec n) (2 ^ 63) = Some n) as Hin.
  { unfold digits_in. rewrite (proj2 (String.eqb_neq _ _) Hne), Hd, Hv, (proj2 (Z.ltb_lt _ _)) by lia. done. }
  destruct (dec n) as [|c s]; [done|]. cbn [all_digits] in Hd. apply andb_true_iff in Hd as [Hc _]. unfold atoi.
  destruct c as [[] [] [] [] [] [] [] []]; try exact Hin; discriminate Hc.
Qed.

Lemma parse_uint64_dec n : 0 <= n < 2 ^ 64 -> parse_uint64 (dec n) = Some n.
Proof.
  intros Hn. assert (dec_range n) as Hr by (split; [lia|]; apply (Z.lt_trans _ (2 ^ 64)); [lia|reflexivity]).
  destruct (dec_spec n Hr) as (Hd & Hne & Hv). unfold parse_uint64, digits_in. rewrite (proj2 (String.eqb_neq _ _) Hne), Hd, Hv, (proj2 (Z.ltb_lt _ _)) by lia. done.
Qed.

Lemma str_drop_len s t : str_drop (Z.to_nat (len s)) (s ++ t) = t.
Proof. unfold len. rewrite Nat2Z.id. apply str_drop_app. Qed.

Lemma str_take_len s t : str_take (Z.to_nat (len s)) (s ++ t) = s.
Proof. unfold len. rewrite Nat2Z.id. apply str_take_app. Qed.

Lemma decode_loop_encode parts rest : Forall fits parts -> decode_loop (length parts) (encodeComposite parts ++ rest) = Some (parts, rest).
Proof.
  induction 1 as [|part parts Hf _ IH]; [done|]. cbn [length encodeComposite decode_loop].
  pose proof (fits_range part Hf) as Hr. destruct (dec_spec (len part) Hr) as (_ & Hne & _). pose proof (len_nonneg part) as H0.
  rewrite !append_assoc. change (":" ++ part ++ encodeComposite parts ++ rest) with (String ":" (part ++ encodeComposite parts ++ rest)).
  pose proof (cut_at_app ":" (dec (len part)) (part ++ encodeComposite parts ++ rest) ltac:(by apply dec_no_char)) as Hcut.
  assert (dec (len part) ++ String ":" (part ++ encodeComposite parts ++ rest) <> "") as Hnil by (by destruct (dec (len part))).
  destruct (dec (len part) ++ String ":" (part ++ encodeComposite parts ++ rest)) as [|c t]; [done|]. rewrite Hcut.
  rewrite (proj2 (String.eqb_neq _ _) Hne), atoi_dec by (unfold fits in Hf; lia).
  rewrite (proj2 (Z.ltb_ge _ _) H0). assert (len (part ++ encodeComposite parts ++ rest) <? len part = false) as ->.
  { apply Z.ltb_ge. unfold len. rewrite length_append. lia. }
  cbn [orb]. rewrite str_drop_len, str_take_len, IH. done.
Qed.

Lemma composite_decodes parts : Forall fits parts -> decodeComposite (encodeComposite parts) (length parts) = Some parts.
Proof.
  intros Hf. unfold decodeComposite. pose proof (decode_loop_encode parts "" Hf) as Hd. rewrite append_nil_r in Hd. rewrite Hd. cbn.
  by rewrite Nat.eqb_refl, String.eqb_refl.
Qed.

Lemma decode_exact encoded n parts : decodeComposite encoded n = Some parts -> encodeComposite parts = encoded /\ length parts = n.
Proof.
  unfold decodeComposite. destruct (decode_loop n encoded) as [[ps tail_]|]; [|done]. cbn. case_match eqn:E; [|done]. intros [= <-].
  apply andb_true_iff in E as [[E1 _]%andb_true_iff E2]. split; [by apply String.eqb_eq|by apply Nat.eqb_eq].
Qed.

Lemma encodeComposite_inj ps qs : Forall fits ps -> Forall fits qs -> length ps = length qs -> encodeComposite ps = encodeComposite qs -> ps = qs.
Proof. intros Hp Hq Hl E. pose proof (composite_decodes ps Hp) as H1. rewrite E, Hl, (composite_decodes qs Hq) in H1. by injection H1. Qed.
