(* ===== verification/AuditChain.v ===== *)
(** * audit: the hash-linked chain

    Models [services/brain/internal/audit/chain.go]: the digest of one link and
    the verification of a tenant's chain.  The theorems say which chains verify,
    that the digest at the head binds the whole history, and for which texts the
    framing of a link is ambiguous. *)

From Stdlib Require Import Ascii String.
From S2P Require Import Prelude GoString Float64 Runtime Composite.
Open Scope string_scope.
Open Scope Z_scope.

Inductive audit_error := ErrCorrupt.

Record EventMetadata := MkMetadata {
  em_Sequence : Z; em_EventID : string; em_Tenant : string; em_AggregateType : string; em_AggregateID : string;
  em_AggregateVersion : Z; em_CommandID : string; em_PayloadDigest : string; em_OccurredAtMs : Z
}.

Record Entry := MkEntry { en_Metadata : EventMetadata; en_Previous : string; en_Digest : string }.

Definition validMetadata (m : EventMetadata) : bool :=
  (0 <? em_Sequence m) && negb (String.eqb (em_EventID m) "") && negb (String.eqb (em_Tenant m) "")
  && negb (String.eqb (em_AggregateType m) "") && negb (String.eqb (em_AggregateID m) "") && (0 <? em_AggregateVersion m)
  && negb (String.eqb (em_CommandID m) "") && negb (String.eqb (em_PayloadDigest m) "") && (0 <? em_OccurredAtMs m).

Definition NUL : ascii := "000"%char.

(** The text hashed for one link: the version and ten fields with a NUL byte between. *)
Definition material (m : EventMetadata) (previous : string) : string :=
  "v1" ++ String NUL (dec (em_Sequence m) ++ String NUL (em_EventID m ++ String NUL (em_Tenant m ++ String NUL
  (em_AggregateType m ++ String NUL (em_AggregateID m ++ String NUL (dec (em_AggregateVersion m) ++ String NUL
  (em_CommandID m ++ String NUL (em_PayloadDigest m ++ String NUL (dec (em_OccurredAtMs m) ++ String NUL previous))))))))).

Section audit.
Context `{GoRuntime}.

Definition Next (m : EventMetadata) (previous : string) : result audit_error string :=
  if negb (validMetadata m) then Err ErrCorrupt else Ok (sha256_hex (material m previous)).

(** One turn of the loop: [before] is the sequence of the previous entry. *)
Definition verify_entry (before : option Z) (previous : string) (e : Entry) : bool :=
  negb (match before with Some s => em_Sequence (en_Metadata e) <=? s | None => false end)
  && String.eqb (en_Previous e) previous
  && match Next (en_Metadata e) previous with Ok digest => String.eqb (en_Digest e) digest | Err _ => false end.

Fixpoint verify_from (before : option Z) (previous : string) (entries : list Entry) : result audit_error unit :=
  match entries with
  | [] => Ok tt
  | e :: rest =>
      if verify_entry before previous e then verify_from (Some (em_Sequence (en_Metadata e))) (en_Digest e) rest else Err ErrCorrupt
  end.

Definition Verify (entries : list Entry) : result audit_error unit := verify_from None "" entries.

(** ** Lemmas *)

Definition head_digest (entries : list Entry) : string := default "" (en_Digest <$> last entries).
Definition head_sequence (entries : list Entry) : option Z := (fun e => em_Sequence (en_Metadata e)) <$> last entries.

Lemma verify_from_snoc before previous es e :
  verify_from before previous (es ++ [e]) = Ok tt <->
  verify_from before previous es = Ok tt /\
  verify_entry (match last es with Some x => Some (em_Sequence (en_Metadata x)) | None => before end)
    (match last es with Some x => en_Digest x | None => previous end) e = true.
Proof.
  revert before previous. induction es as [|x es IH]; intros before previous; cbn -[last].
  - cbn. by destruct (verify_entry before previous e); split; try intros [? ?].
  - destruct (verify_entry before previous x); [|naive_solver]. rewrite IH, last_cons. by destruct (last es).
Qed.

Lemma verify_entry_spec before previous e :
  verify_entry before previous e = true <->
  match before with Some s => s < em_Sequence (en_Metadata e) | None => True end /\ en_Previous e = previous /\
  validMetadata (en_Metadata e) = true /\ en_Digest e = sha256_hex (material (en_Metadata e) previous).
Proof.
  unfold verify_entry, Next. rewrite !andb_true_iff, negb_true_iff, String.eqb_eq.
  destruct (validMetadata (en_Metadata e)); cbn; [rewrite String.eqb_eq|]; (destruct before as [s|]; [rewrite Z.leb_gt|]); naive_solver.
Qed.

Lemma Verify_snoc es e :
  Verify (es ++ [e]) = Ok tt <->
  Verify es = Ok tt /\ match head_sequence es with Some s => s < em_Sequence (en_Metadata e) | None => True end /\
  en_Previous e = head_digest es /\ validMetadata (en_Metadata e) = true /\
  en_Digest e = sha256_hex (material (en_Metadata e) (head_digest es)).
Proof.
  unfold Verify. rewrite verify_from_snoc, verify_entry_spec. unfold head_sequence, head_digest. by destruct (last es).
Qed.

Lemma Verify_valid es : Verify es = Ok tt -> Forall (fun e => validMetadata (en_Metadata e) = true) es.
Proof.
  induction es as [|e es IH] using rev_ind; intros Hv; [done|]. apply Verify_snoc in Hv as (Hv & _ & _ & Hm & _). apply Forall_app. by split; [apply IH|constructor].
Qed.
End audit.

(** The texts of a link that the framing tells apart. *)
Definition nul_free (m : EventMetadata) : bool :=
  forallb (fun s => negb (contains_char NUL s))
    [em_EventID m; em_Tenant m; em_AggregateType m; em_AggregateID m; em_CommandID m; em_PayloadDigest m].

Definition in_uint64 (m : EventMetadata) : Prop :=
  0 <= em_Sequence m < 2 ^ 64 /\ 0 <= em_AggregateVersion m < 2 ^ 64 /\ 0 <= em_OccurredAtMs m < 2 ^ 64.

Lemma uint64_dec_range z : 0 <= z < 2 ^ 64 -> dec_range z.
Proof. unfold dec_range. lia. Qed.

Lemma material_inj m1 m2 p1 p2 :
  nul_free m1 = true -> nul_free m2 = true -> in_uint64 m1 -> in_uint64 m2 -> material m1 p1 = material m2 p2 -> m1 = m2 /\ p1 = p2.
Proof.
  destruct m1, m2. unfold nul_free, in_uint64, material. cbn. intros N1 N2 (?%uint64_dec_range & ?%uint64_dec_range & ?%uint64_dec_range)
    (?%uint64_dec_range & ?%uint64_dec_range & ?%uint64_dec_range) E. bool_prop. injection E as E.
  repeat match goal with
  | E : _ ++ String NUL _ = _ ++ String NUL _ |- _ =>
      let X := fresh "X" in apply separated_inj in E as [X E]; [|first [done|apply dec_no_char; done]..]
  | X : dec _ = dec _ |- _ => apply dec_inj in X; [|done..]
  end; subst; done.
Qed.

(** ** Properties *)

(** C32. The digest at the head of a verified chain binds the whole history: two
    chains that verify and end in the same digest are the same chain, as long
    as their texts hold no NUL byte and no two of their links collide under
    SHA-256. *)
Theorem audit_head_binds_history `{GoRuntime} c1 c2 :
  (forall s, sha256_hex s <> "") ->
  Forall (fun e => nul_free (en_Metadata e) = true /\ in_uint64 (en_Metadata e)) (c1 ++ c2) ->
  (forall e1 e2, e1 ∈ c1 -> e2 ∈ c2 ->
     let l1 := material (en_Metadata e1) (en_Previous e1) in let l2 := material (en_Metadata e2) (en_Previous e2) in
     sha256_hex l1 = sha256_hex l2 -> l1 = l2) ->
  Verify c1 = Ok tt -> Verify c2 = Ok tt -> en_Digest <$> last c1 = en_Digest <$> last c2 -> c1 = c2.
Proof.
  intros Hne [Hc1 Hc2]%Forall_app. revert c2 Hc2. induction c1 as [|e1 c1 IH] using rev_ind; intros c2 Hc2 Hcol V1 V2 E;
    (destruct c2 as [|e2 c2 _] using rev_ind; rewrite ?last_snoc in E; [done|]); [done|]. cbn in E. injection E as E.
  apply Verify_snoc in V1 as (V1 & _ & P1 & _ & D1), V2 as (V2 & _ & P2 & _ & D2).
  apply Forall_app in Hc1 as [Hc1 [[N1 U1] _]%Forall_cons], Hc2 as [Hc2 [[N2 U2] _]%Forall_cons].
  assert (material (en_Metadata e1) (en_Previous e1) = material (en_Metadata e2) (en_Previous e2)) as Em.
  { apply (Hcol e1 e2); [set_solver..|]. by rewrite P1, P2, <- D1, <- D2. }
  destruct (material_inj _ _ _ _ N1 N2 U1 U2 Em) as [Em' Ep].
  assert (forall c x, Verify c = Ok tt -> last c = Some x -> en_Digest x <> "") as Hd.
  { intros c x Vc Hx. apply last_Some in Hx as [l ->]. apply Verify_snoc in Vc as (_ & _ & _ & _ & ->). apply Hne. }
  rewrite (IH Hc1 c2 Hc2); [|set_solver|done|done|].
  - destruct e1, e2; cbn in *. congruence.
  - rewrite P1, P2 in Ep. unfold head_digest in Ep. specialize (Hd c1) as Hd1. specialize (Hd c2) as Hd2.
    destruct (last c1) as [x|], (last c2) as [y|]; cbn in *; [congruence|by destruct (Hd1 x V1 eq_refl)|by destruct (Hd2 y V2 eq_refl)|done].
Qed.

(** A NUL byte inside a field defeats the binding: two different events, both
    accepted by [validMetadata], have the same link digest under any hash. *)
Theorem nul_makes_links_ambiguous `{GoRuntime} :
  exists m1 m2, validMetadata m1 = true /\ validMetadata m2 = true /\ em_EventID m1 <> em_EventID m2 /\ em_Tenant m1 <> em_Tenant m2 /\
  forall previous, Next m1 previous = Next m2 previous.
Proof.
  exists (MkMetadata 1 (String "a" (String NUL "b")) "c" "t" "i" 1 "cmd" "d" 1), (MkMetadata 1 "a" (String "b" (String NUL "c")) "t" "i" 1 "cmd" "d" 1).
  split_and!; try done. 
Qed.
