(* ===== verification/EventKernel.v ===== *)
(** * eventkernel: deterministic reactions

    Models [services/brain/internal/eventkernel/kernel.go]: the registry of
    versioned reactions and [React], which evaluates a batch of events under one
    bound on the commands emitted.  A reaction is a function of the event, as
    the package requires of it; the nil reaction is [None]. *)

From Stdlib Require Import Ascii String.
From stdpp Require Import gmap strings.
From S2P Require Import Prelude GoString Composite AuditChain.
Open Scope string_scope.
Open Scope Z_scope.

Record Event := MkEvent {
  ev_ID : string; ev_Type : string; ev_AggregateType : string; ev_AggregateID : string; ev_AggregateVersion : Z;
  ev_SchemaVersion : Z; ev_PayloadDigest : string
}.

Record Command := MkCommand { cm_Type : string; cm_AggregateType : string; cm_AggregateID : string; cm_PayloadDigest : string }.

#[export] Instance Command_eq_dec : EqDecision Command.
Proof. solve_decision. Defined.

Inductive kernel_error :=
| ErrInvalidEvent
| ErrReactionLimit
| ErrReaction (type : string) (version : Z) (text : string).

Definition Reaction := Event -> result string (list Command).

Definition Registry := gmap string (gmap Z Reaction).
Definition NewRegistry : Registry := ∅.

Definition lookup_reaction (r : Registry) (type : string) (version : Z) : option Reaction :=
  match r !! type with Some versions => versions !! version | None => None end.

Definition Register (r : Registry) (type : string) (version : Z) (reaction : option Reaction) : result kernel_error Registry :=
  match reaction with
  | None => Err ErrInvalidEvent
  | Some f =>
      if String.eqb type "" || negb (version =? 1) then Err ErrInvalidEvent
      else
        let versions := default ∅ (r !! type) in
        match versions !! version with
        | Some _ => Err ErrInvalidEvent
        | None => Ok (<[type := <[version := f]> versions]> r)
        end
  end.

Definition validateEvent (e : Event) : result kernel_error unit :=
  if String.eqb (ev_ID e) "" || String.eqb (ev_Type e) "" || negb (String.eqb (ev_Type e) (ev_AggregateType e))
     || String.eqb (ev_AggregateID e) "" || (ev_AggregateVersion e =? 0) || negb (ev_SchemaVersion e =? 1)
     || String.eqb (ev_PayloadDigest e) ""
  then Err ErrInvalidEvent else Ok tt.

Definition malformed (c : Command) : bool :=
  String.eqb (cm_Type c) "" || String.eqb (cm_AggregateType c) "" || String.eqb (cm_AggregateID c) "" || String.eqb (cm_PayloadDigest c) "".

Definition command_key (c : Command) : string :=
  cm_Type c ++ String NUL (cm_AggregateType c ++ String NUL (cm_AggregateID c ++ String NUL (cm_PayloadDigest c))).

Definition command_lt : Command -> Command -> bool := on_key command_key String.ltb.

Fixpoint react_loop (r : Registry) (maxCommands : Z) (commands : list Command) (events : list Event) : result kernel_error (list Command) :=
  match events with
  | [] => Ok commands
  | e :: rest =>
      do _ <- validateEvent e ;
      match lookup_reaction r (ev_Type e) (ev_SchemaVersion e) with
      | None => react_loop r maxCommands commands rest
      | Some reaction =>
          match reaction e with
          | Err text => Err (ErrReaction (ev_Type e) (ev_SchemaVersion e) text)
          | Ok emitted =>
              if maxCommands <? Z.of_nat (length commands) + Z.of_nat (length emitted) then Err ErrReactionLimit
              else if existsb malformed emitted then Err ErrInvalidEvent
              else react_loop r maxCommands (commands ++ sort_by command_lt emitted)%list rest
          end
      end
  end.

Definition React (r : Registry) (events : list Event) (maxCommands : Z) : result kernel_error (list Command) :=
  if maxCommands =? 0 then Err ErrReactionLimit else react_loop r maxCommands [] events.

(** ** Lemmas *)

(** What one event emits: nothing without a reaction. *)
Definition emits (r : Registry) (e : Event) (l : list Command) : Prop :=
  match lookup_reaction r (ev_Type e) (ev_SchemaVersion e) with None => l = [] | Some f => f e = Ok l end.

Definition well_emitted (r : Registry) (e : Event) (l : list Command) : Prop :=
  validateEvent e = Ok tt /\ emits r e l /\ Forall (fun c => malformed c = false) l.

Definition outcome (ls : list (list Command)) : list Command := concat (sort_by command_lt <$> ls).

Lemma react_loop_Ok r maxCommands commands events out :
  Z.of_nat (length commands) <= maxCommands ->
  react_loop r maxCommands commands events = Ok out <->
  exists ls, Forall2 (well_emitted r) events ls /\ out = (commands ++ outcome ls)%list /\ Z.of_nat (length out) <= maxCommands.
Proof.
  revert commands. induction events as [|e events IH]; intros commands Hc; cbn [react_loop].
  { split; [intros [= <-]|intros (ls & Hls%Forall2_nil_inv_l & -> & _)].
    - exists []. unfold outcome. cbn. rewrite app_nil_r. split_and!; [constructor|done|done].
    - subst ls. unfold outcome. cbn. by rewrite app_nil_r. }
  destruct (validateEvent e) as [[]|err] eqn:Ev; cbn [rbind].
  2:{ split; [done|]. intros (ls & Hls & _). inversion Hls as [|? ? ? ? (Hv & _)]; congruence. }
  destruct (lookup_reaction r (ev_Type e) (ev_SchemaVersion e)) as [f|] eqn:El.
  2:{ rewrite (IH commands Hc). split.
    - intros (ls & Hls & -> & Hl). exists ([] :: ls). split_and!; [|done|done]. constructor; [|done].
      split; [done|]. split; [|done]. unfold emits. by rewrite El.
    - intros (ls & Hls & -> & Hl). inversion Hls as [|? l ? ls' (_ & He & _) Hls']; subst. unfold emits in He. rewrite El in He. subst l.
      exists ls'. done. }
  destruct (f e) as [emitted|text] eqn:Ef.
  2:{ split; [done|]. intros (ls & Hls & _). inversion Hls as [|? ? ? ? (_ & He & _)]; subst. unfold emits in He. rewrite El in He. congruence. }
  split.
  - destruct (maxCommands <? _) eqn:Em; [done|]. apply Z.ltb_ge in Em. destruct (existsb malformed emitted) eqn:Eb; [done|].
    rewrite IH by (rewrite length_app, length_sort_by; lia). intros (ls & Hls & -> & Hl). exists (emitted :: ls). split_and!.
    + constructor; [|done]. split; [done|]. split; [unfold emits; by rewrite El|]. apply Forall_forall. by apply existsb_false_iff.
    + unfold outcome. cbn. by rewrite app_assoc.
    + done.
  - intros (ls & Hls & -> & Hl). inversion Hls as [|? l ? ls' (_ & He & Hf) Hls']; subst. unfold emits in He. rewrite El, Ef in He. injection He as ->.
    unfold outcome in Hl. cbn in Hl. rewrite !length_app, length_sort_by in Hl. rewrite (proj2 (Z.ltb_ge _ _)) by lia.
    rewrite (proj2 (existsb_false_iff _ _)) by (by apply Forall_forall). apply IH; [rewrite length_app, length_sort_by; lia|].
    exists ls'. unfold outcome. cbn. split_and!; [done|by rewrite app_assoc|]. rewrite !length_app, length_sort_by. unfold outcome in *. lia.
Qed.

Definition clean_command (c : Command) : bool :=
  forallb (fun s => negb (contains_char NUL s)) [cm_Type c; cm_AggregateType c; cm_AggregateID c].

Lemma command_key_inj c1 c2 : clean_command c1 = true -> clean_command c2 = true -> command_key c1 = command_key c2 -> c1 = c2.
Proof.
  destruct c1, c2. unfold clean_command, command_key. cbn. intros. bool_prop.
  repeat match goal with
  | E : _ ++ String NUL _ = _ ++ String NUL _ |- _ => let X := fresh "X" in apply separated_inj in E as [X E]; [|done..]
  end. by subst.
Qed.

Lemma sort_commands_perm l1 l2 :
  Forall (fun c => clean_command c = true) l1 -> l1 ≡ₚ l2 -> sort_by command_lt l1 = sort_by command_lt l2.
Proof.
  intros Hc Hp. apply sort_by_perm_eq; [apply _| |done]. rewrite Forall_forall in Hc. intros a b Ha Hb H1 H2.
  apply command_key_inj; [by apply Hc..|]. by apply (st_total (lt := String.ltb)).
Qed.

(** ** Properties *)

(** [React] returns a batch exactly when every event is valid, every reaction
    succeeds with well-formed commands, and the whole batch keeps the bound;
    the result then lists the commands of each event, sorted, in the order of
    the events.  Anything else is an error and no command. *)
Theorem React_exact r events maxCommands out :
  0 <= maxCommands ->
  React r events maxCommands = Ok out <->
  0 < maxCommands /\ exists ls, Forall2 (well_emitted r) events ls /\ out = outcome ls /\ Z.of_nat (length out) <= maxCommands.
Proof.
  intros H0. unfold React. destruct (maxCommands =? 0) eqn:E; [apply Z.eqb_eq in E|apply Z.eqb_neq in E].
  - split; [done|]. lia.
  - rewrite react_loop_Ok by (cbn; lia). cbn. split; [intros Hr|intros [_ Hr]]; [|done]. split; [lia|done].
Qed.

(** The order in which reactions list their commands does not matter: two
    registries whose reactions emit the same commands in another order give the
    same batch, as long as the compared fields hold no NUL byte. *)
Theorem React_ignores_emission_order r1 r2 events maxCommands out :
  (forall e l1, e ∈ events -> emits r1 e l1 ->
     Forall (fun c => clean_command c = true) l1 /\ exists l2, emits r2 e l2 /\ l1 ≡ₚ l2) ->
  0 <= maxCommands -> React r1 events maxCommands = Ok out -> React r2 events maxCommands = Ok out.
Proof.
  intros He H0 Hr. destruct (proj1 (React_exact r1 events maxCommands out H0) Hr) as (Hm & ls & Hls & -> & Hl).
  enough (exists ls2, Forall2 (well_emitted r2) events ls2 /\ outcome ls2 = outcome ls) as (ls2 & Hls2 & Eo).
  { apply React_exact; [done|]. split; [done|]. exists ls2. by rewrite Eo. }
  clear Hl Hr. induction Hls as [|e l events ls (Hv & Hem & Hf) Hls IH]; [by exists []|].
  destruct (IH ltac:(intros; apply He; [by right|done])) as (ls2 & Hls2 & Eo).
  destruct (He e l ltac:(left) Hem) as (Hc & l2 & Hem2 & Hp). exists (l2 :: ls2). split.
  - constructor; [|done]. split; [done|]. split; [done|]. by rewrite <- Hp.
  - unfold outcome in *. cbn. rewrite Eo. f_equal. symmetry. by apply sort_commands_perm.
Qed.
