(* ===== verification/AuthorityLedger.v ===== *)
(** * localstate: the authority ledger

    Models [services/brain/internal/localstate/store.go] and [ledger_write.go],
    the single-writer SQLite authority, with [internal/deletion/state.go], over
    the tables of [schema/migrations/001_stage02_authority.sql].

    A database is a record of tables: keyed tables are finite maps over their
    primary key, append-only tables are lists in insertion order.  An insert or
    update that violates a constraint of the schema is an error; columns nothing
    reads back (the times of receipts, links and checkpoints) are left out.  Any
    statement may fail as well: the environment [Env] says which, and gives the
    readings of the clock.  Every method holds the store's mutex for one
    transaction, so a method is one step; a transaction that returns an error is
    rolled back and leaves the database as it was.

    A sequence is SQLite's row id, one more than the largest; a table with
    2^63-1 rows, for which SQLite would choose differently, is taken as full. *)

From Stdlib Require Import Ascii String.
From stdpp Require Import gmap strings.
From S2P Require Import Prelude GoString Float64 Runtime SqlTable Contracts AuditChain EventKernel.
Open Scope string_scope.
Open Scope Z_scope.

(** ** Requests *)

Record CommandRecord := MkCommandRecord {
  cr_Command : Identifier; cr_Tenant : Identifier; cr_Principal : Identifier; cr_Session : Identifier;
  cr_CommandType : string; cr_IdempotencyKey : string; cr_AuthenticatedDigest : Digest; cr_Fence : Z
}.

#[export] Instance CommandRecord_eq_dec : EqDecision CommandRecord.
Proof. solve_decision. Defined.

Record EventRecord := MkEventRecord { er_Event : Identifier; er_Aggregate : Identifier; er_Version : Z; er_PayloadDigest : Digest }.
Record MutationEvent := MkMutationEvent { me_Type : string; me_SchemaVersion : Z; me_Record : EventRecord }.

(** [deletion.Request] *)
Record DeletionRequest := MkDeletion {
  de_TenantID : string; de_ArtifactID : string; de_Generation : Z; de_ReceiptID : string; de_TombstoneID : string; de_PurgeID : string;
  de_KeyEpoch : Z; de_ReasonCode : string; de_OccurredAtMs : Z
}.

Record Mutation := MkMutation {
  mu_Command : CommandRecord; mu_Events : list MutationEvent; mu_Receipt : Receipt; mu_Projection : string;
  mu_Deletion : option DeletionRequest; mu_PurgeNow : bool
}.

Record Execution := MkExecution { xe_Receipt : Receipt; xe_Replayed : bool }.
Record Reservation := MkReservation { re_Command : CommandRecord; re_Status : string; re_Receipt : Receipt; re_Replayed : bool }.

(** The receipt of a reservation is the zero value unless it is completed. *)
Definition zero_receipt : Receipt := MkReceipt (MkIdentifier "" "") "" "" 0.

(** An authenticated identity with its peer credentials. *)
Record PeerIdentity := MkPeer { pi_Fact : MappedIdentityFact; pi_UID : Z; pi_PID : Z }.

Inductive ledger_error :=
| ErrInvalidInput | ErrIdentityMismatch | ErrIdempotencyConflict | ErrReservationRequired | ErrAggregateConflict
| ErrInvalidTransition | ErrAudit (e : audit_error) | ErrDatabase.

(** ** Tables *)

Record SessionRow := MkSession { se_principal : string; se_tenant : string; se_uid : Z }.
Record CommandRow := MkCommandRow {
  co_tenant : string; co_principal : string; co_session : string; co_type : string; co_key : string; co_digest : string; co_fence : Z;
  co_status : string
}.
Record IdempotencyRow := MkIdempotency { ir_session : string; ir_digest : string; ir_fence : Z; ir_command : string }.
Record ReceiptRow := MkReceiptRow { rc_command : string; rc_tenant : string; rc_status : string; rc_reason : string; rc_watermark : Z }.
Record AuditRow := MkAudit { al_sequence : Z; al_tenant : string; al_digest : string; al_previous : option string }.
Record OutboxRow := MkOutbox { ob_id : string; ob_tenant : string; ob_sequence : Z; ob_payload : string }.
Record CheckpointRow := MkCheckpoint { cp_tenant : string; cp_sequence : Z; cp_digest : string }.
Record ManifestRow := MkManifest { ma_digest : string; ma_length : Z; ma_frames : Z; ma_epoch : Z; ma_status : string }.
Record TombstoneRow := MkTombstone { to_tenant : string; to_artifact : string; to_generation : Z; to_receipt : string; to_reason : string }.
Record PurgeRow := MkPurge {
  pu_tenant : string; pu_artifact : string; pu_generation : Z; pu_tombstone : string; pu_epoch : Z; pu_status : string; pu_completed : option Z
}.

(** The event trail; a row of [events] holds exactly the columns of [EventMetadata]. *)
Record Trail := MkTrail {
  t_versions : gmap (string * string * string) Z; t_events : list EventMetadata; t_outbox : list OutboxRow; t_audit : list AuditRow;
  t_checkpoints : gmap string CheckpointRow
}.

(** The deletion state of artifacts. *)
Record Artifacts := MkArtifacts {
  a_manifests : gmap (string * string * Z) ManifestRow; a_tombstones : gmap string TombstoneRow; a_purges : gmap string PurgeRow
}.

Record DB := MkDB {
  d_sessions : gmap string SessionRow; d_commands : gmap string CommandRow;
  d_idempotency : gmap (string * string * string * string) IdempotencyRow; d_receipts : gmap string ReceiptRow;
  d_watermarks : gmap (string * string) (Z * Z); d_trail : Trail; d_artifacts : Artifacts
}.

Definition empty_trail : Trail := MkTrail ∅ [] [] [] ∅.
Definition empty_db : DB := MkDB ∅ ∅ ∅ ∅ ∅ empty_trail (MkArtifacts ∅ ∅ ∅).

Definition set_commands c i d := MkDB (d_sessions d) c i (d_receipts d) (d_watermarks d) (d_trail d) (d_artifacts d).
Definition set_receipts r d := MkDB (d_sessions d) (d_commands d) (d_idempotency d) r (d_watermarks d) (d_trail d) (d_artifacts d).
Definition set_watermarks w d := MkDB (d_sessions d) (d_commands d) (d_idempotency d) (d_receipts d) w (d_trail d) (d_artifacts d).
Definition set_trail t d := MkDB (d_sessions d) (d_commands d) (d_idempotency d) (d_receipts d) (d_watermarks d) t (d_artifacts d).
Definition set_artifacts a d := MkDB (d_sessions d) (d_commands d) (d_idempotency d) (d_receipts d) (d_watermarks d) (d_trail d) a.

(** ** The environment of one call *)

(** The statements of a transaction; those of the event loop carry its turn. *)
Inductive stmt :=
| QCommand | QReservation | QReceipt | XCommand | XIdempotency
| QVersion (i : nat) | XVersion (i : nat) | XEvent (i : nat) | XOutbox (i : nat) | QAuditHead (i : nat) | XAudit (i : nat) | XCheckpoint (i : nat)
| XReceipt | XWatermark | XTombstoned | XTombstone | XPurgeJob | XPurged | XPurgeDone | XComplete | XBegin | XCommit | XSession | QSession.

Record Env := MkEnv { e_fault : stmt -> bool; e_now : nat -> Z }.

Definition sql {A} (env : Env) (q : stmt) (k : result ledger_error A) : result ledger_error A := fail_if (e_fault env q) ErrDatabase k.

(** The driver refuses an unsigned value with the high bit set. *)
Definition db_uint (z : Z) : bool := z <? 2 ^ 63.

(** ** Validation *)

Definition validID (i : Identifier) (namespace : string) : bool := String.eqb (Namespace i) namespace && negb (String.eqb (Value i) "").

Definition validCommand (c : CommandRecord) : bool :=
  validID (cr_Command c) "command" && validID (cr_Tenant c) "tenant" && validID (cr_Principal c) "principal"
  && validID (cr_Session c) "session" && negb (String.eqb (cr_CommandType c) "") && negb (String.eqb (cr_IdempotencyKey c) "")
  && String.eqb (Algorithm (cr_AuthenticatedDigest c)) "sha256" && negb (String.eqb (Hex (cr_AuthenticatedDigest c)) "") && (0 <? cr_Fence c).

Definition valid_event (e : MutationEvent) : bool :=
  let r := me_Record e in
  validID (er_Event r) "event" && negb (String.eqb (Namespace (er_Aggregate r)) "") && negb (String.eqb (Value (er_Aggregate r)) "")
  && negb (er_Version r =? 0) && String.eqb (me_Type e) (Namespace (er_Aggregate r)) && (me_SchemaVersion e =? 1)
  && String.eqb (Algorithm (er_PayloadDigest r)) "sha256" && negb (String.eqb (Hex (er_PayloadDigest r)) "").

Definition validMutation (m : Mutation) : bool :=
  validCommand (mu_Command m) && negb (String.eqb (Status (mu_Receipt m)) "") && negb (String.eqb (ReasonCode (mu_Receipt m)) "")
  && negb (length (mu_Events m) =? 0)%nat && forallb valid_event (mu_Events m).

Definition valid_deletion (r : DeletionRequest) : bool :=
  negb (String.eqb (de_TenantID r) "") && negb (String.eqb (de_ArtifactID r) "") && (0 <? de_Generation r)
  && negb (String.eqb (de_ReceiptID r) "") && negb (String.eqb (de_TombstoneID r) "") && negb (String.eqb (de_PurgeID r) "")
  && negb (String.eqb (de_ReasonCode r) "") && (0 <? de_OccurredAtMs r).

Definition receiptID (commandID : string) : string := "receipt:" ++ commandID.
Definition auditCheckpointID (tenant : string) : string := "audit-head:" ++ tenant.
Definition nullIfEmpty (value : string) : option string := if String.eqb value "" then None else Some value.

(** ** Commands *)

(** A row of [commands] read back as a record. *)
Definition canonicalCommandRecord (commandID : string) (r : CommandRow) : CommandRecord :=
  MkCommandRecord (MkIdentifier "command" commandID) (MkIdentifier "tenant" (co_tenant r)) (MkIdentifier "principal" (co_principal r))
    (MkIdentifier "session" (co_session r)) (co_type r) (co_key r) (MkDigest "sha256" (co_digest r)) (co_fence r).

Definition lookupCanonicalCommand (env : Env) (d : DB) (commandID : string) : result ledger_error (option CommandRecord) :=
  sql env QCommand (Ok (canonicalCommandRecord commandID <$> d_commands d !! commandID)).

Definition scope_of (c : CommandRecord) : string * string * string * string :=
  (Value (cr_Tenant c), Value (cr_Principal c), cr_CommandType c, cr_IdempotencyKey c).

Definition lookupReceipt (env : Env) (d : DB) (tenant commandID : string) : result ledger_error Receipt :=
  sql env QReceipt
    match List.find (fun kv => String.eqb (rc_tenant (snd kv)) tenant && String.eqb (rc_command (snd kv)) commandID) (map_to_list (d_receipts d)) with
    | None => Err ErrDatabase
    | Some (_, r) => Ok (MkReceipt (MkIdentifier "command" commandID) (rc_status r) (rc_reason r) (rc_watermark r))
    end.

(** The join of [command_idempotency] and [commands] on every shared column. *)
Definition joins (k : string * string * string * string) (i : IdempotencyRow) (c : CommandRow) : bool :=
  let '(tenant, principal, type, key) := k in
  String.eqb (co_tenant c) tenant && String.eqb (co_principal c) principal && String.eqb (co_session c) (ir_session i)
  && String.eqb (co_type c) type && String.eqb (co_key c) key && String.eqb (co_digest c) (ir_digest i) && (co_fence c =? ir_fence i).

Definition lookupReservation (env : Env) (d : DB) (incoming : CommandRecord) : result ledger_error (option Reservation) :=
  sql env QReservation
    match d_idempotency d !! scope_of incoming with
    | None => Ok None
    | Some i =>
        match d_commands d !! ir_command i with
        | None => Ok None
        | Some c =>
            if negb (joins (scope_of incoming) i c) then Ok None
            else
              let command := canonicalCommandRecord (ir_command i) c in
              if negb (String.eqb (Hex (cr_AuthenticatedDigest command)) (Hex (cr_AuthenticatedDigest incoming)))
                 || negb (cr_Fence command =? cr_Fence incoming) then Err ErrIdempotencyConflict
              else if String.eqb (co_status c) "completed" then
                do receipt <- lookupReceipt env d (co_tenant c) (ir_command i) ;
                Ok (Some (MkReservation command (co_status c) receipt false))
              else Ok (Some (MkReservation command (co_status c) zero_receipt false))
        end
    end.

(** The two inserts with the constraints of their tables: keys, the fence, the session. *)
Definition insertCommand (env : Env) (c : CommandRecord) (d : DB) : result ledger_error DB :=
  let id := Value (cr_Command c) in
  let row := MkCommandRow (Value (cr_Tenant c)) (Value (cr_Principal c)) (Value (cr_Session c)) (cr_CommandType c) (cr_IdempotencyKey c)
               (Hex (cr_AuthenticatedDigest c)) (cr_Fence c) "accepted" in
  let duplicate := existsb (fun kv => bool_decide ((co_tenant (snd kv), co_principal (snd kv), co_type (snd kv), co_key (snd kv)) = scope_of c))
                     (map_to_list (d_commands d)) in
  let session := match d_sessions d !! co_session row with
                 | Some s => String.eqb (se_tenant s) (co_tenant row) && String.eqb (se_principal s) (co_principal row) | None => false end in
  sql env XCommand
    (if bool_decide (is_Some (d_commands d !! id)) || duplicate || negb ((0 <? co_fence row) && db_uint (co_fence row)) || negb session
     then Err ErrDatabase
     else sql env XIdempotency
       (if bool_decide (is_Some (d_idempotency d !! scope_of c)) then Err ErrDatabase
        else Ok (set_commands (<[id := row]> (d_commands d))
                   (<[scope_of c := MkIdempotency (co_session row) (co_digest row) (co_fence row) id]> (d_idempotency d)) d))).

(** ** The event trail *)

Section trail.
Context `{GoRuntime} (env : Env).

Definition tenant_audit (tenant : string) (t : Trail) : list AuditRow := List.filter (fun r => String.eqb (al_tenant r) tenant) (t_audit t).
Definition tenant_events (tenant : string) (t : Trail) : list EventMetadata := List.filter (fun r => String.eqb (em_Tenant r) tenant) (t_events t).

Definition appendAudit (i : nat) (m : EventMetadata) (t : Trail) : result ledger_error Trail :=
  sql env (QAuditHead i)
    (let previous := match top_by al_sequence (tenant_audit (em_Tenant m) t) with Some r => al_digest r | None => "" end in
     match Next m previous with
     | Err e => Err (ErrAudit e)
     | Ok digest =>
         sql env (XAudit i)
           (if existsb (fun r => al_sequence r =? em_Sequence m) (t_audit t) then Err ErrDatabase
            else sql env (XCheckpoint i)
              (Ok (MkTrail (t_versions t) (t_events t) (t_outbox t)
                     (t_audit t ++ [MkAudit (em_Sequence m) (em_Tenant m) digest (nullIfEmpty previous)])
                     (<[auditCheckpointID (em_Tenant m) := MkCheckpoint (em_Tenant m) (em_Sequence m) digest]> (t_checkpoints t)))))
     end).

(** The insert into [events]: the next sequence, unless a constraint fails. *)
Definition insert_event (command_exists : bool) (m : Z -> EventMetadata) (t : Trail) : option EventMetadata :=
  let sequence := coalesce_max em_Sequence (t_events t) + 1 in
  let row := m sequence in
  if negb (db_uint sequence) || existsb (fun r => String.eqb (em_EventID r) (em_EventID row)) (t_events t)
     || existsb (fun r => bool_decide ((em_Tenant r, em_AggregateType r, em_AggregateID r, em_AggregateVersion r) =
                                       (em_Tenant row, em_AggregateType row, em_AggregateID row, em_AggregateVersion row))) (t_events t)
     || negb command_exists
  then None else Some row.

Definition append_event (command_exists : bool) (c : CommandRecord) (now : Z) (i : nat) (e : EventRecord) (t : Trail) : result ledger_error (Trail * Z) :=
  let tenant := Value (cr_Tenant c) in
  let key := (tenant, Namespace (er_Aggregate e), Value (er_Aggregate e)) in
  sql env (QVersion i)
    (let current := default 0 (t_versions t !! key) in
     if negb (er_Version e =? current + 1) then Err ErrAggregateConflict
     else sql env (XVersion i)
       (if negb (db_uint (er_Version e)) then Err ErrDatabase
        else
          let versions := <[key := er_Version e]> (t_versions t) in
          sql env (XEvent i)
            match insert_event command_exists
                    (fun s => MkMetadata s (Value (er_Event e)) tenant (Namespace (er_Aggregate e)) (Value (er_Aggregate e)) (er_Version e)
                                (Value (cr_Command c)) (Hex (er_PayloadDigest e)) now) t with
            | None => Err ErrDatabase
            | Some row =>
                sql env (XOutbox i)
                  (let oid := "outbox:" ++ em_EventID row in
                   if existsb (fun r => String.eqb (ob_id r) oid) (t_outbox t) then Err ErrDatabase
                   else
                     do t' <- appendAudit i row
                       (MkTrail versions (t_events t ++ [row]) (t_outbox t ++ [MkOutbox oid tenant (em_Sequence row) (em_PayloadDigest row)])
                          (t_audit t) (t_checkpoints t)) ;
                     Ok (t', em_Sequence row))
            end)).

Fixpoint append_events (command_exists : bool) (c : CommandRecord) (now : Z) (i : nat) (watermark : Z) (events : list MutationEvent) (t : Trail) :
    result ledger_error (Trail * Z) :=
  match events with
  | [] => Ok (t, watermark)
  | e :: rest =>
      do tw <- append_event command_exists c now i (me_Record e) t ;
      append_events command_exists c now (S i) (snd tw) rest (fst tw)
  end.
End trail.

(** ** Receipts, watermarks, deletion *)

Definition receipt_vocabulary : list string := ["accepted"; "rejected"; "deferred"; "completed"; "partial"].

Definition has_command (d : DB) (tenant commandID : string) : bool :=
  match d_commands d !! commandID with Some c => String.eqb (co_tenant c) tenant | None => false end.

Definition insertReceipt (env : Env) (tenant : string) (r : Receipt) (d : DB) : result ledger_error DB :=
  let id := receiptID (Value (OperationID r)) in
  sql env XReceipt
    (if bool_decide (is_Some (d_receipts d !! id)) || negb (one_of receipt_vocabulary (Status r)) || negb (db_uint (Watermark r))
        || negb (has_command d tenant (Value (OperationID r)))
     then Err ErrDatabase
     else Ok (set_receipts (<[id := MkReceiptRow (Value (OperationID r)) tenant (Status r) (ReasonCode r) (Watermark r)]> (d_receipts d)) d)).

Definition advanceWatermark (env : Env) (tenant projection : string) (watermark : Z) (d : DB) : result ledger_error DB :=
  sql env XWatermark
    (Ok match d_watermarks d !! (tenant, projection) with
        | None => set_watermarks (<[(tenant, projection) := (watermark, 1)]> (d_watermarks d)) d
        | Some (old, generation) =>
            if old <=? watermark then set_watermarks (<[(tenant, projection) := (watermark, generation + 1)]> (d_watermarks d)) d else d
        end).

Definition set_status (s : string) (m : ManifestRow) : ManifestRow := MkManifest (ma_digest m) (ma_length m) (ma_frames m) (ma_epoch m) s.

(** The trigger [artifact_manifest_status_forward_only]: which updates of a status it lets through. *)
Definition status_forward (old new : string) : bool :=
  String.eqb new old || (String.eqb old "staged" && one_of ["published"; "quarantined"] new)
  || (String.eqb old "published" && one_of ["tombstoned"; "quarantined"] new)
  || (String.eqb old "tombstoned" && one_of ["purged"; "quarantined"] new).

(** [UPDATE artifact_manifests SET status=next WHERE ... AND status=from], which must change one row. *)
Definition move_status (from next : string) (r : DeletionRequest) (a : Artifacts) : result ledger_error Artifacts :=
  let k := (de_TenantID r, de_ArtifactID r, de_Generation r) in
  if negb (db_uint (de_Generation r)) then Err ErrDatabase
  else match a_manifests a !! k with
  | Some m => if String.eqb (ma_status m) from
              then Ok (MkArtifacts (<[k := set_status next m]> (a_manifests a)) (a_tombstones a) (a_purges a))
              else Err ErrInvalidTransition
  | None => Err ErrInvalidTransition
  end.

Definition same_artifact {A} (tenant artifact : A -> string) (generation : A -> Z) (r : DeletionRequest) (x : A) : bool :=
  String.eqb (tenant x) (de_TenantID r) && String.eqb (artifact x) (de_ArtifactID r) && (generation x =? de_Generation r).

Definition has_receipt (d : DB) (tenant id : string) : bool :=
  match d_receipts d !! id with Some r => String.eqb (rc_tenant r) tenant | None => false end.

Definition Tombstone (env : Env) (r : DeletionRequest) (d : DB) : result ledger_error DB :=
  if negb (valid_deletion r) then Err ErrInvalidTransition
  else
    do a <- sql env XTombstoned (move_status "published" "tombstoned" r (d_artifacts d)) ;
    sql env XTombstone
      (if bool_decide (is_Some (a_tombstones a !! de_TombstoneID r))
          || existsb (fun kv => same_artifact to_tenant to_artifact to_generation r (snd kv)) (map_to_list (a_tombstones a))
          || negb (has_receipt d (de_TenantID r) (de_ReceiptID r))
       then Err ErrDatabase
       else sql env XPurgeJob
         (if bool_decide (is_Some (a_purges a !! de_PurgeID r))
             || existsb (fun kv => same_artifact pu_tenant pu_artifact pu_generation r (snd kv)) (map_to_list (a_purges a))
             || negb ((0 <=? de_KeyEpoch r) && db_uint (de_KeyEpoch r))
          then Err ErrDatabase
          else Ok (set_artifacts
                 (MkArtifacts (a_manifests a)
                    (<[de_TombstoneID r := MkTombstone (de_TenantID r) (de_ArtifactID r) (de_Generation r) (de_ReceiptID r) (de_ReasonCode r)]> (a_tombstones a))
                    (<[de_PurgeID r := MkPurge (de_TenantID r) (de_ArtifactID r) (de_Generation r) (de_TombstoneID r) (de_KeyEpoch r) "scheduled" None]>
                       (a_purges a))) d))).

Definition CompletePurge (env : Env) (r : DeletionRequest) (completedAtMs : Z) (d : DB) : result ledger_error DB :=
  if negb (valid_deletion r) || (completedAtMs <=? 0) then Err ErrInvalidTransition
  else
    do a <- sql env XPurged (move_status "tombstoned" "purged" r (d_artifacts d)) ;
    sql env XPurgeDone
      match a_purges a !! de_PurgeID r with
      | Some p =>
          if String.eqb (pu_tenant p) (de_TenantID r) && String.eqb (pu_status p) "scheduled" then
            Ok (set_artifacts (MkArtifacts (a_manifests a) (a_tombstones a)
                 (<[de_PurgeID r := MkPurge (pu_tenant p) (pu_artifact p) (pu_generation p) (pu_tombstone p) (pu_epoch p) "completed"
                                      (Some completedAtMs)]> (a_purges a))) d)
          else Err ErrInvalidTransition
      | None => Err ErrInvalidTransition
      end.

(** ** The methods *)

Definition complete_command (env : Env) (c : CommandRecord) (d : DB) : result ledger_error DB :=
  let id := Value (cr_Command c) in
  sql env XComplete
    match d_commands d !! id with
    | Some r =>
        if String.eqb (co_tenant r) (Value (cr_Tenant c)) && String.eqb (co_status r) "accepted" then
          Ok (set_commands (<[id := MkCommandRow (co_tenant r) (co_principal r) (co_session r) (co_type r) (co_key r) (co_digest r) (co_fence r) "completed"]>
                              (d_commands d)) (d_idempotency d) d)
        else Err ErrReservationRequired
    | None => Err ErrReservationRequired
    end.

Definition with_receipt_id (id : string) (r : DeletionRequest) : DeletionRequest :=
  MkDeletion (de_TenantID r) (de_ArtifactID r) (de_Generation r) id (de_TombstoneID r) (de_PurgeID r) (de_KeyEpoch r) (de_ReasonCode r) (de_OccurredAtMs r).

Definition apply_deletion (env : Env) (m : Mutation) (d : DB) : result ledger_error DB :=
  match mu_Deletion m with
  | None => Ok d
  | Some request =>
      let r := with_receipt_id (receiptID (Value (cr_Command (mu_Command m)))) request in
      do d' <- Tombstone env r d ;
      if mu_PurgeNow m then CompletePurge env r (e_now env 3) d' else Ok d'
  end.

Section methods.
Context `{GoRuntime}.

Definition completeMutation (env : Env) (m : Mutation) (d : DB) : result ledger_error (DB * Receipt) :=
  let c := mu_Command m in
  let tenant := Value (cr_Tenant c) in
  do tw <- append_events env (has_command d tenant (Value (cr_Command c))) c (e_now env 0) 0 0 (mu_Events m) (d_trail d) ;
  let receipt := MkReceipt (cr_Command c) (Status (mu_Receipt m)) (ReasonCode (mu_Receipt m)) (snd tw) in
  do d1 <- insertReceipt env tenant receipt (set_trail (fst tw) d) ;
  do d2 <- (if negb (String.eqb (mu_Projection m) "") && (0 <? snd tw) then advanceWatermark env tenant (mu_Projection m) (snd tw) d1 else Ok d1) ;
  do d3 <- apply_deletion env m d2 ;
  do d4 <- complete_command env c d3 ;
  Ok (d4, receipt).

(** A transaction: what it computed, if it did and the commit succeeds. *)
Definition commit_tx {A} (env : Env) (r : result ledger_error (DB * A)) : result ledger_error (DB * A) :=
  do da <- r ; sql env XCommit (Ok da).

Definition in_tx {A} (env : Env) (d : DB) (body : result ledger_error (DB * A)) : DB * result ledger_error A :=
  match sql env XBegin body with Ok (d', x) => (d', Ok x) | Err e => (d, Err e) end.

Definition conflicts (canonical : option CommandRecord) (c : CommandRecord) : bool :=
  match canonical with Some x => negb (bool_decide (x = c)) | None => false end.

Definition Reserve (env : Env) (c : CommandRecord) (d : DB) : DB * result ledger_error Reservation :=
  if negb (validCommand c) then (d, Err ErrInvalidInput)
  else in_tx env d
    (do canonical <- lookupCanonicalCommand env d (Value (cr_Command c)) ;
     if conflicts canonical c then Err ErrIdempotencyConflict
     else
       do found <- lookupReservation env d c ;
       match found with
       | Some r =>
           if bool_decide (is_Some canonical) && negb (bool_decide (re_Command r = c)) then Err ErrIdempotencyConflict
           else Ok (d, MkReservation (re_Command r) (re_Status r) (re_Receipt r) true)
       | None =>
           if bool_decide (is_Some canonical) then Err ErrIdempotencyConflict
           else commit_tx env (do d' <- insertCommand env c d ; Ok (d', MkReservation c "accepted" zero_receipt false))
       end).

Definition run_mutation (env : Env) (m : Mutation) (d : DB) : result ledger_error (DB * Execution) :=
  commit_tx env (do dr <- completeMutation env m d ; Ok (fst dr, MkExecution (snd dr) false)).

Definition Finalize (env : Env) (m : Mutation) (d : DB) : DB * result ledger_error Execution :=
  if negb (validMutation m) then (d, Err ErrInvalidInput)
  else
    let c := mu_Command m in
    in_tx env d
      (do canonical <- lookupCanonicalCommand env d (Value (cr_Command c)) ;
       if conflicts canonical c then Err ErrIdempotencyConflict
       else
         do found <- lookupReservation env d c ;
         match found with
         | None => Err ErrReservationRequired
         | Some r =>
             if String.eqb (re_Status r) "rejected" then Err ErrReservationRequired
             else if negb (bool_decide (re_Command r = c)) then Err ErrIdempotencyConflict
             else if String.eqb (re_Status r) "completed" then Ok (d, MkExecution (re_Receipt r) true)
             else run_mutation env m d
         end).

Definition Execute (env : Env) (m : Mutation) (d : DB) : DB * result ledger_error Execution :=
  if negb (validMutation m) then (d, Err ErrInvalidInput)
  else
    let c := mu_Command m in
    in_tx env d
      (do canonical <- lookupCanonicalCommand env d (Value (cr_Command c)) ;
       if conflicts canonical c then Err ErrIdempotencyConflict
       else
         do found <- lookupReservation env d c ;
         match found with
         | Some r =>
             if String.eqb (re_Status r) "completed" then Ok (d, MkExecution (re_Receipt r) true)
             else if negb (String.eqb (re_Status r) "accepted") || negb (bool_decide (re_Command r = c)) then Err ErrIdempotencyConflict
             else run_mutation env m d
         | None =>
             if bool_decide (is_Some canonical) then Err ErrIdempotencyConflict
             else do d' <- insertCommand env c d ; run_mutation env m d'
         end).

(** [OpenSession] runs its two statements outside a transaction. *)
Definition session_matches (p : PeerIdentity) (s : SessionRow) : bool :=
  String.eqb (se_principal s) (Value (Principal (pi_Fact p))) && String.eqb (se_tenant s) (Value (Tenant (pi_Fact p))) && (se_uid s =? pi_UID p).

Definition OpenSession (env : Env) (p : PeerIdentity) (d : DB) : DB * result ledger_error unit :=
  let f := pi_Fact p in
  if negb (validID (Principal f) "principal" && validID (Tenant f) "tenant" && validID (Session f) "session") || (pi_PID p =? 0)
  then (d, Err ErrInvalidInput)
  else if e_fault env XSession then (d, Err ErrDatabase)
  else
    let id := Value (Session f) in
    let sessions := match d_sessions d !! id with
                    | Some _ => d_sessions d
                    | None => <[id := MkSession (Value (Principal f)) (Value (Tenant f)) (pi_UID p)]> (d_sessions d) end in
    (MkDB sessions (d_commands d) (d_idempotency d) (d_receipts d) (d_watermarks d) (d_trail d) (d_artifacts d),
     sql env QSession
       match sessions !! id with
       | Some s => if session_matches p s then Ok tt else Err ErrIdentityMismatch
       | None => Err ErrDatabase
       end).

(** ** Reads *)

Definition SessionWatermark (p : PeerIdentity) (d : DB) : result ledger_error Z :=
  let f := pi_Fact p in
  if negb (validID (Principal f) "principal" && validID (Tenant f) "tenant" && validID (Session f) "session") then Err ErrInvalidInput
  else match d_sessions d !! Value (Session f) with
  | None => Err ErrIdentityMismatch
  | Some s => if session_matches p s then Ok (coalesce_max em_Sequence (tenant_events (Value (Tenant f)) (d_trail d))) else Err ErrIdentityMismatch
  end.

Definition by_sequence : EventMetadata -> EventMetadata -> bool := on_key em_Sequence Z.ltb.

Definition event_view (m : EventMetadata) : Event :=
  MkEvent (em_EventID m) (em_AggregateType m) (em_AggregateType m) (em_AggregateID m) (em_AggregateVersion m) 1 (em_PayloadDigest m).

Definition Replay (tenant : Identifier) (d : DB) : result ledger_error (list Event) :=
  if negb (validID tenant "tenant") then Err ErrInvalidInput
  else Ok (event_view <$> sort_by by_sequence (tenant_events (Value tenant) (d_trail d))).

Definition AggregateVersion (tenant aggregate : Identifier) (d : DB) : result ledger_error Z :=
  if negb (validID tenant "tenant") || String.eqb (Namespace aggregate) "" || String.eqb (Value aggregate) "" then Err ErrInvalidInput
  else Ok (default 0 (t_versions (d_trail d) !! (Value tenant, Namespace aggregate, Value aggregate))).

Definition ArtifactState (tenant artifact : Identifier) (generation : Z) (d : DB) : result ledger_error string :=
  if negb (validID tenant "tenant") || negb (validID artifact "artifact") || (generation =? 0) then Err ErrInvalidInput
  else match a_manifests (d_artifacts d) !! (Value tenant, Value artifact, generation) with
  | Some m => Ok (ma_status m)
  | None => Err ErrInvalidInput
  end.

(** The join of [audit_log] with [events], in the order of the log. *)
Definition audit_entries (tenant : string) (t : Trail) : list Entry :=
  let log := sort_by (on_key al_sequence Z.ltb) (tenant_audit tenant t) in
  concat ((fun a => (fun m => MkEntry m (default "" (al_previous a)) (al_digest a)) <$>
                    List.filter (fun m => String.eqb (em_Tenant m) (al_tenant a) && (em_Sequence m =? al_sequence a)) (t_events t)) <$> log).

(** [VerifyAudit] reads three times, without the mutex or a transaction: [d1],
    [d2] and [d3] are the databases its queries see. *)
Definition VerifyAudit (tenant : Identifier) (d1 d2 d3 : DB) : result ledger_error unit :=
  if negb (validID tenant "tenant") then Err ErrInvalidInput
  else
    let eventCount := length (tenant_events (Value tenant) (d_trail d1)) in
    let auditCount := length (tenant_audit (Value tenant) (d_trail d1)) in
    if negb (eventCount =? auditCount)%nat then Err (ErrAudit ErrCorrupt)
    else if (eventCount =? 0)%nat then Ok tt
    else
      let entries := audit_entries (Value tenant) (d_trail d2) in
      if negb (length entries =? eventCount)%nat then Err (ErrAudit ErrCorrupt)
      else match Verify entries with
      | Err e => Err (ErrAudit e)
      | Ok _ =>
          match t_checkpoints (d_trail d3) !! auditCheckpointID (Value tenant), last entries with
          | Some cp, Some head =>
              if String.eqb (cp_tenant cp) (Value tenant) && (cp_sequence cp =? em_Sequence (en_Metadata head)) && String.eqb (cp_digest cp) (en_Digest head)
              then Ok tt else Err (ErrAudit ErrCorrupt)
          | _, _ => Err (ErrAudit ErrCorrupt)
          end
      end.
End methods.
