(* ===== verification/AuthorityTrail.v ===== *)
(** * localstate: the event trail

    The invariant of the event trail of [AuthorityLedger]: sequences without
    gaps, an audit link for every event, a chain that verifies for every tenant,
    a checkpoint at its head, and dense aggregate versions.  Appending an event
    keeps it. *)

From Stdlib Require Import Ascii String.
From stdpp Require Import gmap strings.
From S2P Require Import Prelude GoString Float64 Runtime SqlTable Contracts AuditChain EventKernel AuthorityLedger.
Open Scope string_scope.
Open Scope Z_scope.

(** ** Lists *)

Lemma filter_snoc {A} (p : A -> bool) l x : List.filter p (l ++ [x]) = if p x then (List.filter p l ++ [x])%list else List.filter p l.
Proof. rewrite List.filter_app. cbn. destruct (p x); [done|]. by rewrite app_nil_r. Qed.

Lemma Forall2_filter2 {A B} (R : A -> B -> Prop) (p : A -> bool) (q : B -> bool) la lb :
  (forall a b, R a b -> p a = q b) -> Forall2 R la lb -> Forall2 R (List.filter p la) (List.filter q lb).
Proof.
  intros Hpq. induction 1 as [|a b la lb Hab _ IH]; cbn; [constructor|]. rewrite (Hpq a b Hab). destruct (q b); [|done]. by constructor.
Qed.

(** The one row with a given number. *)
Lemma filter_unique {A} (f : A -> Z) (p : A -> bool) l x :
  NoDup (f <$> l) -> x ∈ l -> (forall y, y ∈ l -> p y = true <-> f y = f x) -> List.filter p l = [x].
Proof.
  induction l as [|y l IH]; intros Hn Hx Hp; [set_solver|]. cbn in Hn. apply NoDup_cons in Hn as [Hy Hn]. cbn.
  assert (forall z, z ∈ l -> f z <> f y) as Hz by (intros z Hz E; apply Hy; rewrite <- E; by apply list_elem_of_fmap_2).
  destruct (p y) eqn:E.
  - apply Hp in E; [|left]. apply elem_of_cons in Hx as [->|Hx]; [|by destruct (Hz x Hx)].
    rewrite filter_none; [done|]. apply Forall_forall. intros z Hzl. apply not_true_iff_false. rewrite Hp by (by right). by apply Hz.
  - apply elem_of_cons in Hx as [->|Hx]; [by rewrite (proj2 (Hp y ltac:(left)) eq_refl) in E|]. apply IH; [done|done|].
    intros z Hzl. apply Hp. by right.
Qed.

Lemma numbered_NoDup {A} (f : A -> Z) rows : numbered f rows -> NoDup (f <$> rows).
Proof. unfold numbered. intros ->. apply NoDup_fmap_2; [intros ? ?; lia|]. apply NoDup_seq. Qed.

Lemma numbered_increasing {A} (f : A -> Z) rows : numbered f rows -> StronglySorted (fun a b => f a < f b) rows.
Proof.
  induction rows as [|r rows IH] using rev_ind; intros Hn; [constructor|]. apply numbered_snoc_inv in Hn as [Hn Hr].
  pose proof (numbered_bounds f rows Hn) as Hb. specialize (IH Hn). clear Hn. revert Hb Hr. generalize (Z.of_nat (length rows)).
  intros n Hb Hr. induction IH as [|x rows Hs IH Hx]; cbn; [repeat constructor|]. apply Forall_cons in Hb as [Hb1 Hb]. constructor; [by apply IH|].
  apply Forall_app. split; [done|]. constructor; [lia|done].
Qed.

Lemma increasing_filter {A} (R : A -> A -> Prop) (p : A -> bool) l : StronglySorted R l -> StronglySorted R (List.filter p l).
Proof.
  induction 1 as [|x l Hs IH Hx]; cbn; [constructor|]. destruct (p x); [|done]. constructor; [done|].
  apply Forall_forall. intros y [Hy _]%elem_of_filterb. by eapply Forall_forall in Hx.
Qed.

(** ** The invariant *)

Definition aggregate_of (m : EventMetadata) : string * string * string := (em_Tenant m, em_AggregateType m, em_AggregateID m).
Definition aggregate_events (k : string * string * string) (t : Trail) : list EventMetadata :=
  List.filter (fun m => bool_decide (aggregate_of m = k)) (t_events t).

Definition entry_of (a : AuditRow) (m : EventMetadata) : Entry := MkEntry m (default "" (al_previous a)) (al_digest a).
Definition entries_of (tenant : string) (t : Trail) : list Entry := zip_with entry_of (tenant_audit tenant t) (tenant_events tenant t).

Definition audit_head (tenant : string) (t : Trail) : string := default "" (al_digest <$> last (tenant_audit tenant t)).

Section invariant.
Context `{GoRuntime}.

Definition linked (a : AuditRow) (m : EventMetadata) : Prop := al_sequence a = em_Sequence m /\ al_tenant a = em_Tenant m.

Record trail_inv (t : Trail) : Prop := {
  ti_sequences : numbered em_Sequence (t_events t);
  ti_links : Forall2 linked (t_audit t) (t_events t);
  ti_chain : forall tenant, Verify (entries_of tenant t) = Ok tt;
  ti_head : forall tenant, t_checkpoints t !! auditCheckpointID tenant =
              (fun a => MkCheckpoint tenant (al_sequence a) (al_digest a)) <$> last (tenant_audit tenant t);
  ti_versions : forall k, numbered em_AggregateVersion (aggregate_events k t) /\
                  default 0 (t_versions t !! k) = Z.of_nat (length (aggregate_events k t));
  ti_outbox : (fun o => (ob_tenant o, ob_sequence o, ob_payload o)) <$> t_outbox t = (fun m => (em_Tenant m, em_Sequence m, em_PayloadDigest m)) <$> t_events t
}.

(** What appending the event [m] does to the trail. *)
Definition pushed (m : EventMetadata) (t : Trail) : Trail :=
  let digest := sha256_hex (material m (audit_head (em_Tenant m) t)) in
  MkTrail (<[aggregate_of m := em_AggregateVersion m]> (t_versions t)) (t_events t ++ [m])
    (t_outbox t ++ [MkOutbox ("outbox:" ++ em_EventID m) (em_Tenant m) (em_Sequence m) (em_PayloadDigest m)])
    (t_audit t ++ [MkAudit (em_Sequence m) (em_Tenant m) digest (nullIfEmpty (audit_head (em_Tenant m) t))])
    (<[auditCheckpointID (em_Tenant m) := MkCheckpoint (em_Tenant m) (em_Sequence m) digest]> (t_checkpoints t)).

Lemma default_nullIfEmpty s : default "" (nullIfEmpty s) = s.
Proof. unfold nullIfEmpty. by destruct (String.eqb_spec s "") as [->|]. Qed.

Lemma checkpoint_id_inj t1 t2 : auditCheckpointID t1 = auditCheckpointID t2 -> t1 = t2.
Proof. by intros [=]. Qed.

Lemma tenant_links tenant t : trail_inv t -> Forall2 linked (tenant_audit tenant t) (tenant_events tenant t).
Proof. intros Ht. apply Forall2_filter2; [|apply Ht]. by intros a m [_ ->]. Qed.

Lemma linked_increasing la lm :
  Forall2 linked la lm -> StronglySorted (fun a b => em_Sequence a < em_Sequence b) lm -> StronglySorted (fun a b => al_sequence a < al_sequence b) la.
Proof.
  induction 1 as [|a m la lm [Ha _] Hl IH]; intros Hi; [constructor|]. inversion Hi as [|? ? Hi' Hm]; subst. constructor; [by apply IH|].
  clear -Ha Hl Hm. induction Hl as [|b n la lm [Hb _] Hl IH]; [constructor|]. apply Forall_cons in Hm as [Hmn Hm]. constructor; [lia|by apply IH].
Qed.

Lemma tenant_audit_pushed tenant m t :
  tenant_audit tenant (pushed m t) =
  (tenant_audit tenant t ++ if String.eqb (em_Tenant m) tenant
     then [MkAudit (em_Sequence m) (em_Tenant m) (sha256_hex (material m (audit_head (em_Tenant m) t))) (nullIfEmpty (audit_head (em_Tenant m) t))] else [])%list.
Proof. unfold tenant_audit, pushed. cbn. rewrite filter_snoc. cbn. destruct (String.eqb _ _); [done|]. by rewrite app_nil_r. Qed.

Lemma tenant_events_pushed tenant m t :
  tenant_events tenant (pushed m t) = (tenant_events tenant t ++ if String.eqb (em_Tenant m) tenant then [m] else [])%list.
Proof. unfold tenant_events, pushed. cbn. rewrite filter_snoc. destruct (String.eqb _ _); [done|]. by rewrite app_nil_r. Qed.

Lemma entries_pushed tenant m t :
  trail_inv t ->
  entries_of tenant (pushed m t) =
  (entries_of tenant t ++ if String.eqb (em_Tenant m) tenant
     then [MkEntry m (audit_head (em_Tenant m) t) (sha256_hex (material m (audit_head (em_Tenant m) t)))] else [])%list.
Proof.
  intros Ht. unfold entries_of. rewrite tenant_audit_pushed, tenant_events_pushed.
  rewrite zip_with_app by (eapply Forall2_length, tenant_links, Ht). f_equal. destruct (String.eqb _ _); [|done].
  cbn. unfold entry_of. cbn. by rewrite default_nullIfEmpty.
Qed.

Lemma last_entry tenant t :
  trail_inv t ->
  last (entries_of tenant t) = (a ← last (tenant_audit tenant t); m ← last (tenant_events tenant t); Some (entry_of a m)).
Proof.
  intros Ht. pose proof (tenant_links tenant t Ht) as Hl. unfold entries_of. revert Hl.
  generalize (tenant_audit tenant t), (tenant_events tenant t). intros la lm. induction la as [|a la _] using rev_ind; intros Hl.
  - apply Forall2_nil_inv_l in Hl as ->. done.
  - apply Forall2_app_inv_l in Hl as (lm1 & lm2 & Hl1 & Hl2 & ->). apply Forall2_cons_inv_l in Hl2 as (m & lm3 & _ & Hn & ->).
    apply Forall2_nil_inv_l in Hn as ->. rewrite zip_with_app by (by eapply Forall2_length). cbn. by rewrite !last_snoc.
Qed.

Lemma event_valid m t : trail_inv t -> m ∈ t_events t -> validMetadata m = true.
Proof.
  intros Ht Hm. pose proof (Verify_valid _ (ti_chain t Ht (em_Tenant m))) as Hv. pose proof (tenant_links (em_Tenant m) t Ht) as Hl.
  assert (m ∈ tenant_events (em_Tenant m) t) as Hin by (apply elem_of_filterb; by rewrite String.eqb_refl).
  unfold entries_of in Hv. revert Hv Hin. clear -Hl. induction Hl as [|a x la lx _ _ IH]; intros Hv Hin; [set_solver|]. cbn in Hv.
  apply Forall_cons in Hv as [Hx Hv]. apply elem_of_cons in Hin as [->|Hin]; [done|by apply IH].
Qed.

Lemma head_entries tenant t : trail_inv t -> head_digest (entries_of tenant t) = audit_head tenant t.
Proof.
  intros Ht. unfold head_digest, audit_head. rewrite last_entry by done. pose proof (tenant_links tenant t Ht) as Hl.
  destruct (last (tenant_audit tenant t)) as [a|] eqn:Ea; [|done]. cbn. destruct (last (tenant_events tenant t)) as [m|] eqn:Em; [done|].
  apply last_None in Em. rewrite Em in Hl. apply Forall2_nil_inv_r in Hl. by rewrite Hl in Ea.
Qed.

Lemma head_below tenant t s : trail_inv t -> head_sequence (entries_of tenant t) = Some s -> s <= Z.of_nat (length (t_events t)).
Proof.
  intros Ht. unfold head_sequence. rewrite last_entry by done. destruct (last (tenant_audit tenant t)); [|done]. cbn.
  destruct (last (tenant_events tenant t)) as [m|] eqn:Em; [|done]. cbn. intros [= <-]. apply last_Some_elem_of in Em.
  apply elem_of_filterb in Em as [Hm _]. pose proof (numbered_bounds _ _ (ti_sequences t Ht)) as Hb. rewrite Forall_forall in Hb. by apply Hb.
Qed.

Lemma pushed_inv m t :
  trail_inv t -> em_Sequence m = Z.of_nat (length (t_events t)) + 1 -> em_AggregateVersion m = default 0 (t_versions t !! aggregate_of m) + 1 ->
  validMetadata m = true -> trail_inv (pushed m t).
Proof.
  intros Ht Hs Hv Hm. split.
  - by apply numbered_add; [apply Ht|].
  - apply Forall2_app; [apply Ht|]. by repeat constructor.
  - intros tenant. rewrite entries_pushed by done. destruct (String.eqb_spec (em_Tenant m) tenant) as [<-|]; [|rewrite app_nil_r; apply Ht].
    apply Verify_snoc. rewrite head_entries by done. cbn. split_and!; [apply Ht| |done|done|done].
    destruct (head_sequence _) eqn:E; [|done]. apply head_below in E; [lia|done].
  - intros tenant. rewrite tenant_audit_pushed. unfold pushed at 1. cbn [t_checkpoints].
    destruct (String.eqb_spec (em_Tenant m) tenant) as [<-|Hne]; [by rewrite lookup_insert_eq, last_snoc|].
    rewrite app_nil_r, lookup_insert_ne by (by intros E%checkpoint_id_inj). apply Ht.
  - intros k. unfold aggregate_events, pushed. cbn [t_events t_versions]. rewrite filter_snoc. destruct (ti_versions t Ht k) as [Hn Hd]. unfold aggregate_events in *.
    case_bool_decide as E; [subst k|].
    + rewrite lookup_insert_eq. cbn. split; [apply numbered_add; [done|lia]|rewrite length_app; cbn; lia].
    + by rewrite lookup_insert_ne.
  - unfold pushed. cbn [t_outbox t_events]. rewrite !fmap_app, (ti_outbox t Ht). done.
Qed.

Lemma empty_trail_inv : trail_inv empty_trail.
Proof. by split. Qed.

(** ** Appending *)

Lemma top_head tenant t :
  trail_inv t -> match top_by al_sequence (tenant_audit tenant t) with Some r => al_digest r | None => "" end = audit_head tenant t.
Proof.
  intros Ht. unfold audit_head. enough (top_by al_sequence (tenant_audit tenant t) = last (tenant_audit tenant t)) as -> by (by destruct (last _)).
  assert (StronglySorted (fun a b => al_sequence a < al_sequence b) (tenant_audit tenant t)) as Hs.
  { eapply linked_increasing; [by apply tenant_links|]. apply increasing_filter, numbered_increasing, Ht. }
  revert Hs. generalize (tenant_audit tenant t). intros l. destruct l as [|x l _] using rev_ind; [done|]. intros Hs. rewrite last_snoc.
  apply top_by_snoc. apply Forall_forall. intros y Hy. clear -Hs Hy. induction l as [|z l IH]; [set_solver|]. cbn in Hs.
  inversion Hs as [|? ? Hs' Hz]; subst. apply elem_of_cons in Hy as [->|Hy]; [|by apply IH]. rewrite Forall_forall in Hz. apply Hz. set_solver.
Qed.

Definition metadata_of (c : CommandRecord) (now : Z) (e : EventRecord) (t : Trail) : EventMetadata :=
  MkMetadata (coalesce_max em_Sequence (t_events t) + 1) (Value (er_Event e)) (Value (cr_Tenant c)) (Namespace (er_Aggregate e))
    (Value (er_Aggregate e)) (er_Version e) (Value (cr_Command c)) (Hex (er_PayloadDigest e)) now.

Lemma append_event_Ok env ce c now i e t t' w :
  trail_inv t -> append_event env ce c now i e t = Ok (t', w) ->
  let m := metadata_of c now e t in
  t' = pushed m t /\ w = em_Sequence m /\ ce = true /\ trail_inv t' /\ er_Version e = default 0 (t_versions t !! aggregate_of m) + 1 /\
  em_EventID m ∉ em_EventID <$> t_events t /\ validMetadata m = true.
Proof.
  intros Ht Ha. cbv zeta. unfold append_event, sql, insert_event in Ha. cbv zeta in Ha. fold (metadata_of c now e t) in Ha.
  apply fail_if_Ok in Ha as [_ Ha]. destruct (er_Version e =? _) eqn:Hv in Ha; [|done]. apply Z.eqb_eq in Hv. cbn [negb] in Ha.
  apply fail_if_Ok in Ha as [_ Ha]. destruct (db_uint (er_Version e)) in Ha; [|done]. cbn [negb] in Ha. apply fail_if_Ok in Ha as [_ Ha].
  destruct (_ || _) eqn:Hc in Ha; [done|]. apply orb_false_iff in Hc as [[[_ Hid]%orb_false_iff Hu]%orb_false_iff Hce]. apply negb_false_iff in Hce.
  apply fail_if_Ok in Ha as [_ Ha]. destruct (existsb _ (t_outbox t)) in Ha; [done|]. apply rbind_Ok in Ha as (t1 & Ha & [= <- <-]).
  unfold appendAudit, sql in Ha. apply fail_if_Ok in Ha as [_ Ha]. cbv zeta in Ha. change (tenant_audit ?x (MkTrail _ _ _ (t_audit t) _)) with (tenant_audit x t) in Ha.
  rewrite top_head in Ha by done. unfold Next in Ha. destruct (validMetadata _) eqn:Hm in Ha; [|done]. cbn [negb] in Ha.
  apply fail_if_Ok in Ha as [_ Ha]. cbn [t_audit] in Ha. destruct (existsb _ (t_audit t)) in Ha; [done|]. apply fail_if_Ok in Ha as [_ Ha]. injection Ha as <-.
  assert (em_Sequence (metadata_of c now e t) = Z.of_nat (length (t_events t)) + 1) as Hs by (cbn; by rewrite (coalesce_max_numbered _ _ (ti_sequences t Ht))).
  change (MkTrail _ _ _ _ _) with (pushed (metadata_of c now e t) t).
  split_and!; [done|done|done|by apply pushed_inv|done| |done].
  intros (x & Hx & Hin)%list_elem_of_fmap. eapply existsb_false_iff in Hid; [|exact Hin]. apply String.eqb_neq in Hid. done.
Qed.

(** The row an event record becomes, but for its sequence. *)
Definition records (c : CommandRecord) (now : Z) (e : MutationEvent) (m : EventMetadata) : Prop :=
  let r := me_Record e in
  em_EventID m = Value (er_Event r) /\ aggregate_of m = (Value (cr_Tenant c), Namespace (er_Aggregate r), Value (er_Aggregate r)) /\
  em_AggregateVersion m = er_Version r /\ em_CommandID m = Value (cr_Command c) /\ em_PayloadDigest m = Hex (er_PayloadDigest r) /\
  em_OccurredAtMs m = now /\ validMetadata m = true.

Lemma append_events_Ok env ce c now i w events t t' w' :
  trail_inv t -> append_events env ce c now i w events t = Ok (t', w') ->
  trail_inv t' /\ (events <> [] -> ce = true) /\
  exists ms, t_events t' = (t_events t ++ ms)%list /\ Forall2 (records c now) events ms /\ w' = default w (em_Sequence <$> last ms).
Proof.
  revert i w t. induction events as [|e events IH]; intros i w t Ht.
  { intros [= <- <-]. split_and!; [done|done|]. exists []. rewrite app_nil_r. by split_and!. }
  intros ([t1 w1] & Ha & Hr)%rbind_Ok. cbn [fst snd] in Hr. apply append_event_Ok in Ha as (-> & -> & -> & H1 & _ & _ & Hm); [|done].
  destruct (IH _ _ _ H1 Hr) as (H' & _ & ms & -> & Hms & ->). split_and!; [done|done|]. exists (metadata_of c now (me_Record e) t :: ms). split_and!.
  - cbn. by rewrite <- app_assoc.
  - by constructor.
  - rewrite last_cons. by destruct (last ms).
Qed.

(** The entries [VerifyAudit] reads are the links of the tenant, in order. *)
Lemma audit_entries_of tenant t : trail_inv t -> audit_entries tenant t = entries_of tenant t.
Proof.
  intros Ht. unfold audit_entries, entries_of. pose proof (tenant_links tenant t Ht) as Hl.
  assert (StronglySorted (fun a b => em_Sequence a < em_Sequence b) (tenant_events tenant t)) as Hi
    by apply increasing_filter, numbered_increasing, Ht.
  rewrite sort_by_id.
  - assert (forall m, m ∈ tenant_events tenant t -> m ∈ t_events t) as Hsub by (by intros m [Hm _]%elem_of_filterb).
    clear Hi. induction Hl as [|a m la lm [Hs Htn] Hl IH]; [done|]. cbn. rewrite IH by set_solver.
    rewrite (filter_unique em_Sequence _ _ m); [done|apply numbered_NoDup, Ht|apply Hsub; left|].
    intros y Hy. rewrite andb_true_iff, String.eqb_eq, Z.eqb_eq, Hs, Htn. split; [by intros [_ ?]|]. intros E. split; [|done].
    enough (y = m) as -> by done. pose proof (numbered_NoDup _ _ (ti_sequences t Ht)) as Hn.
    apply list_elem_of_lookup in Hy as [p Hp]. destruct (proj1 (list_elem_of_lookup _ _) (Hsub m ltac:(left))) as [q Hq].
    assert (p = q) as ->; [|congruence]. apply (NoDup_lookup _ p q (em_Sequence m) Hn); rewrite list_lookup_fmap, ?Hp, ?Hq; cbn; congruence.
  - eapply strongly_sorted_impl_in; [|by eapply linked_increasing]. intros x y _ _ Hxy. cbn in Hxy. apply Z.ltb_ge. lia.
Qed.
End invariant.
