(* ===== verification/AuthorityInvariant.v ===== *)
(** * localstate: the step relation and its invariant

    The calls of the authority ledger as steps, what each leaves behind, and the
    invariant of every reachable database. *)

From Stdlib Require Import Ascii String.
From stdpp Require Import gmap strings relations.
From S2P Require Import Prelude GoString Float64 Runtime SqlTable Contracts AuditChain EventKernel AuthorityLedger AuthorityTrail.
Open Scope string_scope.
Open Scope Z_scope.

(** ** Steps *)

(** The life of an artifact over several updates. *)
Definition status_path : string -> string -> Prop := rtc (fun old new => status_forward old new = true).

(** What the other writers of artifact metadata may do: stage, publish, deny
    and remove staged generations, under the same triggers. *)
Definition manifests_forward (old new : gmap (string * string * Z) ManifestRow) : Prop :=
  forall k m, old !! k = Some m -> (exists m', new !! k = Some m' /\ status_path (ma_status m) (ma_status m')) \/
                                   (new !! k = None /\ ma_status m = "staged").

Definition same_manifests_writer (old new : Artifacts) : Prop :=
  manifests_forward (a_manifests old) (a_manifests new) /\ a_tombstones new = a_tombstones old /\ a_purges new = a_purges old.

Inductive lstep `{GoRuntime} : DB -> DB -> Prop :=
| step_session env p d : lstep d (fst (OpenSession env p d))
| step_reserve env c d : lstep d (fst (Reserve env c d))
| step_finalize env m d : lstep d (fst (Finalize env m d))
| step_execute env m d : lstep d (fst (Execute env m d))
| step_metadata d a : same_manifests_writer (d_artifacts d) a -> lstep d (set_artifacts a d).

(** ** The invariant *)

Definition row_scope (c : CommandRow) : string * string * string * string := (co_tenant c, co_principal c, co_type c, co_key c).
Definition denied (s : string) : Prop := s = "tombstoned" \/ s = "purged" \/ s = "quarantined".

Record artifacts_inv (d : DB) (a : Artifacts) : Prop := {
  ai_tombstones : forall id r, a_tombstones a !! id = Some r ->
    (exists m, a_manifests a !! (to_tenant r, to_artifact r, to_generation r) = Some m /\ denied (ma_status m)) /\ has_receipt d (to_tenant r) (to_receipt r) = true;
  ai_purges : forall id p, a_purges a !! id = Some p ->
    exists r, a_tombstones a !! pu_tombstone p = Some r /\ (to_tenant r, to_artifact r, to_generation r) = (pu_tenant p, pu_artifact p, pu_generation p) /\
    (pu_status p = "completed" -> exists m, a_manifests a !! (pu_tenant p, pu_artifact p, pu_generation p) = Some m /\ ma_status m = "purged")
}.

Section invariant.
Context `{GoRuntime}.

Record ledger_inv (d : DB) : Prop := {
  li_trail : trail_inv (d_trail d);
  li_idempotency : forall k i, d_idempotency d !! k = Some i -> exists c, d_commands d !! ir_command i = Some c /\ joins k i c = true;
  li_commands : forall id c, d_commands d !! id = Some c ->
    (co_status c = "accepted" \/ co_status c = "completed") /\ ir_command <$> d_idempotency d !! row_scope c = Some id;
  li_receipts : forall rid r, d_receipts d !! rid = Some r ->
    rid = receiptID (rc_command r) /\ exists c, d_commands d !! rc_command r = Some c /\ co_tenant c = rc_tenant r /\ co_status c = "completed";
  li_completed : forall id c, d_commands d !! id = Some c -> co_status c = "completed" ->
    exists r, d_receipts d !! receiptID id = Some r /\ rc_command r = id /\ rc_tenant r = co_tenant c;
  li_events : forall m, m ∈ t_events (d_trail d) ->
    exists c, d_commands d !! em_CommandID m = Some c /\ co_tenant c = em_Tenant m /\ co_status c = "completed";
  li_watermarks : forall k w g, d_watermarks d !! k = Some (w, g) -> 0 < w <= Z.of_nat (length (t_events (d_trail d)));
  li_artifacts : artifacts_inv d (d_artifacts d)
}.

(** ** What each part of a transaction leaves behind *)

Lemma sql_Ok {A} env q (k : result ledger_error A) x : sql env q k = Ok x <-> e_fault env q = false /\ k = Ok x.
Proof. apply fail_if_Ok. Qed.

Lemma insertReceipt_Ok env tenant r d d' :
  insertReceipt env tenant r d = Ok d' ->
  d' = set_receipts (<[receiptID (Value (OperationID r)) := MkReceiptRow (Value (OperationID r)) tenant (Status r) (ReasonCode r) (Watermark r)]> (d_receipts d)) d /\
  d_receipts d !! receiptID (Value (OperationID r)) = None /\ has_command d tenant (Value (OperationID r)) = true.
Proof.
  unfold insertReceipt. intros [_ Hr]%sql_Ok. destruct (_ || _) eqn:E in Hr; [done|]. injection Hr as <-.
  apply orb_false_iff in E as [[[E1 _]%orb_false_iff _]%orb_false_iff E2]. apply bool_decide_eq_false, eq_None_not_Some in E1. bool_prop. done.
Qed.

Definition watermarks_forward (old new : gmap (string * string) (Z * Z)) : Prop :=
  forall k w g, old !! k = Some (w, g) -> exists w' g', new !! k = Some (w', g') /\ w <= w' /\ g <= g'.

Lemma watermarks_forward_refl w : watermarks_forward w w.
Proof. intros k x g E. exists x, g. split_and!; [done|lia..]. Qed.

Lemma advanceWatermark_Ok env tenant projection w d d' :
  advanceWatermark env tenant projection w d = Ok d' ->
  exists ws, d' = set_watermarks ws d /\ watermarks_forward (d_watermarks d) ws /\
  forall k x g, ws !! k = Some (x, g) -> x = w \/ exists g', d_watermarks d !! k = Some (x, g').
Proof.
  unfold advanceWatermark. intros [_ Hr]%sql_Ok. injection Hr as <-. destruct (d_watermarks d !! (tenant, projection)) as [[old g]|] eqn:E.
  - destruct (old <=? w) eqn:El; bool_prop.
    + eexists. split; [done|]. split.
      * intros k x g' Hk. destruct (decide (k = (tenant, projection))) as [->|Hne]; [|rewrite lookup_insert_ne by done; exists x, g'; split_and!; [done|lia..]].
        rewrite lookup_insert_eq. rewrite E in Hk. injection Hk as <- <-. exists w, (g + 1). split_and!; [done|apply Z.leb_le in El; lia|lia].
      * intros k x g' [[_ [= <- _]]|[_ Hk]]%lookup_insert_Some; [by left|right; eauto].
    + exists (d_watermarks d). split_and!; [by destruct d|apply watermarks_forward_refl|]. eauto.
  - eexists. split; [done|]. split.
    + intros k x g' Hk. destruct (decide (k = (tenant, projection))) as [->|Hne]; [congruence|]. rewrite lookup_insert_ne by done. exists x, g'. split_and!; [done|lia..].
    + intros k x g' [[_ [= <- _]]|[_ Hk]]%lookup_insert_Some; [by left|right; eauto].
Qed.

Lemma complete_command_Ok env c d d' :
  complete_command env c d = Ok d' ->
  exists r, d_commands d !! Value (cr_Command c) = Some r /\ co_status r = "accepted" /\ co_tenant r = Value (cr_Tenant c) /\
  d' = set_commands (<[Value (cr_Command c) := MkCommandRow (co_tenant r) (co_principal r) (co_session r) (co_type r) (co_key r) (co_digest r) (co_fence r) "completed"]>
                       (d_commands d)) (d_idempotency d) d.
Proof.
  unfold complete_command. intros [_ Hr]%sql_Ok. destruct (d_commands d !! _) as [r|]; [|done].
  destruct (_ && _) eqn:E in Hr; [|done]. injection Hr as <-. apply andb_true_iff in E as [E1%String.eqb_eq E2%String.eqb_eq]. by exists r.
Qed.

Lemma insertCommand_Ok env c d d' :
  insertCommand env c d = Ok d' ->
  d_commands d !! Value (cr_Command c) = None /\ d_idempotency d !! scope_of c = None /\
  (forall id r, d_commands d !! id = Some r -> row_scope r <> scope_of c) /\
  d' = set_commands
         (<[Value (cr_Command c) := MkCommandRow (Value (cr_Tenant c)) (Value (cr_Principal c)) (Value (cr_Session c)) (cr_CommandType c) (cr_IdempotencyKey c)
               (Hex (cr_AuthenticatedDigest c)) (cr_Fence c) "accepted"]> (d_commands d))
         (<[scope_of c := MkIdempotency (Value (cr_Session c)) (Hex (cr_AuthenticatedDigest c)) (cr_Fence c) (Value (cr_Command c))]> (d_idempotency d)) d.
Proof.
  unfold insertCommand. cbv zeta. intros [_ Hr]%sql_Ok. destruct (_ || _) eqn:E in Hr; [done|]. apply sql_Ok in Hr as [_ Hr].
  apply orb_false_iff in E as [[[E1 E2]%orb_false_iff _]%orb_false_iff _]. case_bool_decide as Ei; [done|]. injection Hr as <-.
  apply bool_decide_eq_false, eq_None_not_Some in E1. apply eq_None_not_Some in Ei. split_and!; [done|done| |done].
  intros id r Hr. eapply existsb_false_iff in E2; [|by apply elem_of_map_to_list in Hr]. by apply bool_decide_eq_false in E2.
Qed.

(** ** Deletion *)

Definition artifact_key (r : DeletionRequest) : string * string * Z := (de_TenantID r, de_ArtifactID r, de_Generation r).

Lemma move_status_Ok from next r a a' :
  move_status from next r a = Ok a' ->
  exists m, a_manifests a !! artifact_key r = Some m /\ ma_status m = from /\
  a' = MkArtifacts (<[artifact_key r := set_status next m]> (a_manifests a)) (a_tombstones a) (a_purges a).
Proof.
  unfold move_status. cbv zeta. fold (artifact_key r). destruct (negb _); [done|]. destruct (a_manifests a !! artifact_key r) as [m|]; [|done].
  destruct (String.eqb_spec (ma_status m) from) as [E|]; [|done]. intros [= <-]. eauto.
Qed.

(** The artifacts after a tombstone and after the purge that follows it. *)
Definition tombstoned (r : DeletionRequest) (m : ManifestRow) (a : Artifacts) : Artifacts :=
  MkArtifacts (<[artifact_key r := set_status "tombstoned" m]> (a_manifests a))
    (<[de_TombstoneID r := MkTombstone (de_TenantID r) (de_ArtifactID r) (de_Generation r) (de_ReceiptID r) (de_ReasonCode r)]> (a_tombstones a))
    (<[de_PurgeID r := MkPurge (de_TenantID r) (de_ArtifactID r) (de_Generation r) (de_TombstoneID r) (de_KeyEpoch r) "scheduled" None]> (a_purges a)).

Definition purged (r : DeletionRequest) (m : ManifestRow) (at_ : Z) (a : Artifacts) : Artifacts :=
  MkArtifacts (<[artifact_key r := set_status "purged" m]> (a_manifests a))
    (<[de_TombstoneID r := MkTombstone (de_TenantID r) (de_ArtifactID r) (de_Generation r) (de_ReceiptID r) (de_ReasonCode r)]> (a_tombstones a))
    (<[de_PurgeID r := MkPurge (de_TenantID r) (de_ArtifactID r) (de_Generation r) (de_TombstoneID r) (de_KeyEpoch r) "completed" (Some at_)]> (a_purges a)).

Lemma Tombstone_Ok env r d d' :
  Tombstone env r d = Ok d' ->
  exists m, a_manifests (d_artifacts d) !! artifact_key r = Some m /\ ma_status m = "published" /\ a_tombstones (d_artifacts d) !! de_TombstoneID r = None /\
  a_purges (d_artifacts d) !! de_PurgeID r = None /\ has_receipt d (de_TenantID r) (de_ReceiptID r) = true /\
  d' = set_artifacts (tombstoned r m (d_artifacts d)) d.
Proof.
  unfold Tombstone. destruct (negb _); [done|]. intros (a & [_ Ha]%sql_Ok & [_ Hr]%sql_Ok)%rbind_Ok.
  apply move_status_Ok in Ha as (m & Hm & Hs & ->). cbn [a_tombstones a_purges a_manifests] in Hr. exists m.
  destruct (_ || _) eqn:E1 in Hr; [done|]. apply sql_Ok in Hr as [_ Hr]. destruct (_ || _) eqn:E2 in Hr; [done|]. injection Hr as <-.
  apply orb_false_iff in E1 as [[E1 _]%orb_false_iff E3%negb_false_iff], E2 as [[E2 _]%orb_false_iff _].
  apply bool_decide_eq_false, eq_None_not_Some in E1, E2. done.
Qed.

Lemma CompletePurge_tombstoned env r at_ m d d' :
  CompletePurge env r at_ (set_artifacts (tombstoned r m (d_artifacts d)) d) = Ok d' -> d' = set_artifacts (purged r m at_ (d_artifacts d)) d.
Proof.
  unfold CompletePurge. destruct (_ || _); [done|]. intros (a & [_ Ha]%sql_Ok & [_ Hr]%sql_Ok)%rbind_Ok.
  apply move_status_Ok in Ha as (m' & Hm & _ & ->). unfold tombstoned in *. cbn in Hm, Hr. rewrite lookup_insert_eq in Hm. injection Hm as <-.
  rewrite lookup_insert_eq in Hr. cbn in Hr. rewrite String.eqb_refl in Hr. injection Hr as <-. unfold purged, set_artifacts. cbn.
  by rewrite !insert_insert_eq.
Qed.

Lemma denied_not_published s : denied s -> s <> "published".
Proof. by intros [-> | [-> | -> ]]. Qed.

Lemma artifacts_inv_mono d d' a :
  (forall t id, has_receipt d t id = true -> has_receipt d' t id = true) -> artifacts_inv d a -> artifacts_inv d' a.
Proof. intros Hm [Ht Hp]. split; [|done]. intros id r Hr. destruct (Ht id r Hr). eauto. Qed.

Lemma deleted_inv d r m st status done_ :
  artifacts_inv d (d_artifacts d) -> a_manifests (d_artifacts d) !! artifact_key r = Some m -> ma_status m = "published" ->
  a_tombstones (d_artifacts d) !! de_TombstoneID r = None -> has_receipt d (de_TenantID r) (de_ReceiptID r) = true ->
  denied st -> (status = "completed" -> st = "purged") ->
  artifacts_inv d (MkArtifacts (<[artifact_key r := set_status st m]> (a_manifests (d_artifacts d)))
    (<[de_TombstoneID r := MkTombstone (de_TenantID r) (de_ArtifactID r) (de_Generation r) (de_ReceiptID r) (de_ReasonCode r)]> (a_tombstones (d_artifacts d)))
    (<[de_PurgeID r := MkPurge (de_TenantID r) (de_ArtifactID r) (de_Generation r) (de_TombstoneID r) (de_KeyEpoch r) status done_]> (a_purges (d_artifacts d)))).
Proof.
  intros [Ht Hp] Hm Hs Hf Hr Hst Hc.
  assert (forall k x, a_manifests (d_artifacts d) !! k = Some x -> ma_status x <> "published" ->
            <[artifact_key r := set_status st m]> (a_manifests (d_artifacts d)) !! k = Some x) as Hkeep.
  { intros k x Hx Hne. rewrite lookup_insert_ne; [done|]. intros <-. congruence. }
  split; cbn.
  - intros id x [[<- <-]|[_ Hx]]%lookup_insert_Some; cbn.
    + split; [|done]. fold (artifact_key r). rewrite lookup_insert_eq. eauto.
    + destruct (Ht id x Hx) as ((mx & Hmx & Hd) & Hrx). split; [|done]. exists mx. split; [|done]. by apply Hkeep, denied_not_published.
  - intros id x [[<- <-]|[_ Hx]]%lookup_insert_Some; cbn.
    + rewrite lookup_insert_eq. eexists. split_and!; [done|done|]. intros E. fold (artifact_key r). rewrite lookup_insert_eq. eexists. split; [done|]. by apply Hc.
    + destruct (Hp id x Hx) as (tr & Htr & Hk & Hcx). exists tr. rewrite lookup_insert_ne by congruence. split_and!; [done|done|].
      intros E. destruct (Hcx E) as (mx & Hmx & Es). exists mx. split; [|done]. apply Hkeep; [done|]. by rewrite Es.
Qed.

(** A deletion changes the status of at most one published manifest, and nothing else of the table. *)
Definition deletes_one (old new : gmap (string * string * Z) ManifestRow) : Prop :=
  new = old \/ exists k mr st, old !! k = Some mr /\ ma_status mr = "published" /\ (st = "tombstoned" \/ st = "purged") /\ new = <[k := set_status st mr]> old.

Lemma apply_deletion_Ok env m d d' :
  artifacts_inv d (d_artifacts d) -> apply_deletion env m d = Ok d' ->
  exists a, d' = set_artifacts a d /\ artifacts_inv d a /\ manifests_forward (a_manifests (d_artifacts d)) (a_manifests a) /\
  deletes_one (a_manifests (d_artifacts d)) (a_manifests a) /\
  match mu_Deletion m with
  | None => a = d_artifacts d
  | Some r => has_receipt d (de_TenantID r) (receiptID (Value (cr_Command (mu_Command m)))) = true /\
      (forall k, k <> artifact_key r -> a_manifests a !! k = a_manifests (d_artifacts d) !! k) /\
      ma_status <$> a_manifests (d_artifacts d) !! artifact_key r = Some "published" /\
      ma_status <$> a_manifests a !! artifact_key r = Some (if mu_PurgeNow m then "purged" else "tombstoned")
  end.
Proof.
  intros Hi. unfold apply_deletion. destruct (mu_Deletion m) as [r0|].
  2:{ intros [= <-]. exists (d_artifacts d). split_and!; [by destruct d|done| |by left|done]. intros k x Hx. left. exists x. split; [done|]. apply rtc_refl. }
  set (r := with_receipt_id _ r0). change (artifact_key r0) with (artifact_key r). change (de_TenantID r0) with (de_TenantID r).
  intros (d1 & Ht & Hp)%rbind_Ok. apply Tombstone_Ok in Ht as (mr & Hm & Hs & Hf & _ & Hr & ->).
  assert (forall st, status_path "published" st -> st = "tombstoned" \/ st = "purged" ->
    let new := <[artifact_key r := set_status st mr]> (a_manifests (d_artifacts d)) in
    manifests_forward (a_manifests (d_artifacts d)) new /\ deletes_one (a_manifests (d_artifacts d)) new /\ has_receipt d (de_TenantID r) (receiptID (Value (cr_Command (mu_Command m)))) = true /\
    (forall k, k <> artifact_key r -> new !! k = a_manifests (d_artifacts d) !! k) /\
    ma_status <$> a_manifests (d_artifacts d) !! artifact_key r = Some "published" /\ ma_status <$> new !! artifact_key r = Some st) as Hnew.
  { intros st Hst Hone new. subst new. split_and!; [|right; by exists (artifact_key r), mr, st|done|intros; by rewrite lookup_insert_ne|by rewrite Hm, <- Hs|by rewrite lookup_insert_eq].
    intros k x Hx. left. destruct (decide (k = artifact_key r)) as [->|Hne]; [|rewrite lookup_insert_ne by done; eexists; split; [done|apply rtc_refl]].
    rewrite lookup_insert_eq. rewrite Hm in Hx. injection Hx as <-. eexists. split; [done|]. by rewrite Hs. }
  destruct (mu_PurgeNow m).
  - apply CompletePurge_tombstoned in Hp as ->. eexists. split; [done|]. split; [apply deleted_inv; try done; by right; left|].
    apply Hnew; [|by right]. apply (rtc_l _ _ "tombstoned"); [done|]. by apply rtc_once.
  - injection Hp as <-. eexists. split; [done|]. split; [apply deleted_inv; try done; by left|]. apply Hnew; [|by left]. by apply rtc_once.
Qed.

(** ** A completed mutation *)

Definition finished (r : CommandRow) : CommandRow :=
  MkCommandRow (co_tenant r) (co_principal r) (co_session r) (co_type r) (co_key r) (co_digest r) (co_fence r) "completed".

(** Everything one committed mutation does, in one place. *)
Record committed (env : Env) (m : Mutation) (d d' : DB) (receipt : Receipt) (cm_row : CommandRow) (cm_events : list EventMetadata) : Prop := {
  cm_accepted : d_commands d !! Value (cr_Command (mu_Command m)) = Some cm_row /\ co_status cm_row = "accepted" /\
                co_tenant cm_row = Value (cr_Tenant (mu_Command m));
  cm_commands : d_commands d' = <[Value (cr_Command (mu_Command m)) := finished cm_row]> (d_commands d);
  cm_same : d_sessions d' = d_sessions d /\ d_idempotency d' = d_idempotency d;
  cm_receipt : receipt = MkReceipt (cr_Command (mu_Command m)) (Status (mu_Receipt m)) (ReasonCode (mu_Receipt m))
                           (default 0 (em_Sequence <$> last cm_events));
  cm_receipts : d_receipts d !! receiptID (Value (cr_Command (mu_Command m))) = None /\
    d_receipts d' = <[receiptID (Value (cr_Command (mu_Command m))) :=
      MkReceiptRow (Value (cr_Command (mu_Command m))) (Value (cr_Tenant (mu_Command m))) (Status receipt) (ReasonCode receipt) (Watermark receipt)]> (d_receipts d);
  cm_trail : trail_inv (d_trail d') /\ t_events (d_trail d') = (t_events (d_trail d) ++ cm_events)%list /\
             Forall2 (records (mu_Command m) (e_now env 0)) (mu_Events m) cm_events;
  cm_watermarks : watermarks_forward (d_watermarks d) (d_watermarks d') /\
    (forall k w g, d_watermarks d' !! k = Some (w, g) -> (w = Watermark receipt /\ 0 < w) \/ exists g', d_watermarks d !! k = Some (w, g'));
  cm_artifacts : artifacts_inv d' (d_artifacts d') /\ manifests_forward (a_manifests (d_artifacts d)) (a_manifests (d_artifacts d'));
  cm_manifests : deletes_one (a_manifests (d_artifacts d)) (a_manifests (d_artifacts d'));
  cm_deletion : match mu_Deletion m with
    | None => d_artifacts d' = d_artifacts d
    | Some r => de_TenantID r = Value (cr_Tenant (mu_Command m)) /\
        (forall k, k <> artifact_key r -> a_manifests (d_artifacts d') !! k = a_manifests (d_artifacts d) !! k) /\
        ma_status <$> a_manifests (d_artifacts d) !! artifact_key r = Some "published" /\
        ma_status <$> a_manifests (d_artifacts d') !! artifact_key r = Some (if mu_PurgeNow m then "purged" else "tombstoned")
    end
}.

Lemma completeMutation_Ok env m d d' receipt :
  ledger_inv d -> mu_Events m <> [] -> completeMutation env m d = Ok (d', receipt) -> exists row ms, committed env m d d' receipt row ms.
Proof.
  intros Hi Hev. unfold completeMutation. cbv zeta. set (c := mu_Command m). set (id := Value (cr_Command c)). set (tenant := Value (cr_Tenant c)).
  intros ([t w] & Ha & (d1 & Hr & (d2 & Hw & (d3 & Hd & (d4 & Hc & Hok)%rbind_Ok)%rbind_Ok)%rbind_Ok)%rbind_Ok)%rbind_Ok.
  injection Hok as <- Erc. cbn [fst snd] in *. apply append_events_Ok in Ha as (Ht & _ & ms & Hms & Hrec & ->); [|apply Hi].
  apply insertReceipt_Ok in Hr as (-> & Hnone & _). cbn [OperationID Status ReasonCode Watermark d_receipts set_trail] in Hnone, Hw. fold id in Hnone, Hw.
  set (d1 := set_receipts _ _) in Hw.
  assert (exists ws, d2 = set_watermarks ws d1 /\ watermarks_forward (d_watermarks d) ws /\
    forall k x g, ws !! k = Some (x, g) -> (x = default 0 (em_Sequence <$> last ms) /\ 0 < x) \/ exists g', d_watermarks d !! k = Some (x, g')) as (ws & -> & Hwf & Hwk).
  { destruct (_ && _) eqn:E in Hw.
    - apply advanceWatermark_Ok in Hw as (ws & -> & Hf & Hk). exists ws. split_and!; [done|done|]. intros k x g Hx. destruct (Hk k x g Hx) as [->|]; [|by right].
      left. split; [done|]. apply andb_true_iff in E as [_ E%Z.ltb_lt]. done.
    - injection Hw as <-. exists (d_watermarks d). split_and!; [done|apply watermarks_forward_refl|]. eauto. }
  clear Hw. assert (forall tn rid, has_receipt d tn rid = true -> has_receipt (set_watermarks ws d1) tn rid = true) as Hmono.
  { intros tn rid. unfold has_receipt, d1. cbn. destruct (decide (rid = receiptID id)) as [->|Hne]; [by rewrite Hnone|]. by rewrite lookup_insert_ne. }
  apply apply_deletion_Ok in Hd as (a & -> & Hai & Haf & Hone & Hdel); [|eapply artifacts_inv_mono; [exact Hmono|apply Hi]].
  apply complete_command_Ok in Hc as (row & Hrow & Hst & Htn & ->). fold c id tenant in Hrow, Htn. cbn in Hrow.
  exists row, ms. rewrite <- Erc. split; cbn; fold c id tenant; try done.
  - split; [|done]. by destruct Hai as [Hai1 Hai2]; split.
  - destruct (mu_Deletion m) as [r|]; [|done]. destruct Hdel as (Hhr & Hrest). split; [|exact Hrest].
    unfold has_receipt, d1 in Hhr. cbn in Hhr. fold c id in Hhr. rewrite lookup_insert_eq in Hhr. cbn in Hhr. by apply String.eqb_eq in Hhr.
Qed.

(** ** Preservation *)

Lemma numbered_last_le {A} (f : A -> Z) l1 l2 : numbered f (l1 ++ l2) -> default 0 (f <$> last l2) <= Z.of_nat (length (l1 ++ l2)).
Proof.
  intros Hn. destruct (last l2) as [x|] eqn:E; cbn; [|lia]. apply last_Some_elem_of in E. pose proof (numbered_bounds f _ Hn) as Hb.
  rewrite Forall_forall in Hb. apply Hb. set_solver.
Qed.

Lemma committed_inv env m d d' receipt row ms : ledger_inv d -> committed env m d d' receipt row ms -> ledger_inv d'.
Proof.
  intros Hi Hc. destruct (cm_accepted _ _ _ _ _ _ _ Hc) as (Hrow & Hst & Htn). destruct (cm_same _ _ _ _ _ _ _ Hc) as [_ Hid].
  destruct (cm_receipts _ _ _ _ _ _ _ Hc) as [Hnone Hrc]. destruct (cm_trail _ _ _ _ _ _ _ Hc) as (Ht & Hev & Hrec).
  set (id := Value (cr_Command (mu_Command m))) in *. pose proof (cm_commands _ _ _ _ _ _ _ Hc) as Hcm. fold id in Hcm.
  assert (forall i c, d_commands d !! i = Some c -> exists c', d_commands d' !! i = Some c' /\ co_tenant c' = co_tenant c /\ row_scope c' = row_scope c /\
            (co_status c = "completed" -> co_status c' = "completed") /\ forall k x, joins k x c' = joins k x c) as Hold.
  { intros i c Hic. rewrite Hcm. destruct (decide (i = id)) as [->|Hne]; [|rewrite lookup_insert_ne by done; by exists c].
    rewrite lookup_insert_eq. rewrite Hrow in Hic. injection Hic as <-. exists (finished row). by split_and!. }
  split; [done|..].
  - intros k i. rewrite Hid. intros Hk. destruct (li_idempotency d Hi k i Hk) as (c & Hic & Hj). destruct (Hold _ _ Hic) as (c' & Hc' & _ & _ & _ & Hj').
    exists c'. by rewrite Hj'.
  - intros i c. rewrite Hcm, Hid. intros [[<- <-]|[_ Hic]]%lookup_insert_Some; [|by apply Hi]. split; [by right|]. by destruct (li_commands d Hi _ _ Hrow).
  - intros rid r. rewrite Hrc. intros [[<- <-]|[_ Hr]]%lookup_insert_Some; cbn.
    + split; [done|]. rewrite Hcm, lookup_insert_eq. by exists (finished row).
    + destruct (li_receipts d Hi rid r Hr) as (-> & c & Hic & Ht' & Hs'). split; [done|]. destruct (Hold _ _ Hic) as (c' & Hc' & E & _ & Hs & _).
      exists c'. split_and!; [done|congruence|by apply Hs].
  - intros i c. rewrite Hcm, Hrc. intros [[<- <-]|[Hne Hic]]%lookup_insert_Some Hs.
    + rewrite lookup_insert_eq. eexists. split_and!; done.
    + rewrite lookup_insert_ne by (intros [=]; congruence). by apply Hi.
  - intros e. rewrite Hev. intros [He|He]%elem_of_app.
    + destruct (li_events d Hi e He) as (c & Hic & Ht' & Hs'). destruct (Hold _ _ Hic) as (c' & Hc' & E & _ & Hs & _).
      exists c'. split_and!; [done|congruence|by apply Hs].
    + destruct (Forall2_elem_r _ _ _ _ Hrec He) as (x & _ & _ & Hk & _ & Hcid & _). injection Hk as Hk _ _.
      exists (finished row). rewrite Hcm, Hcid, lookup_insert_eq. split_and!; [done|by rewrite Hk|done].
  - intros k w g Hk. rewrite Hev. destruct (proj2 (cm_watermarks _ _ _ _ _ _ _ Hc) k w g Hk) as [[-> Hw]|(g' & Hg)].
    + split; [done|]. rewrite (cm_receipt _ _ _ _ _ _ _ Hc). cbn. apply numbered_last_le. rewrite <- Hev. apply Ht.
    + destruct (li_watermarks d Hi _ _ _ Hg). rewrite length_app. lia.
  - apply Hc.
Qed.

Lemma insertCommand_inv env c d d' : ledger_inv d -> insertCommand env c d = Ok d' -> ledger_inv d'.
Proof.
  intros Hi (Hn & Hk & Hu & ->)%insertCommand_Ok. set (row := MkCommandRow _ _ _ _ _ _ _ _). set (idem := MkIdempotency _ _ _ _).
  assert (forall i x, d_commands d !! i = Some x -> <[Value (cr_Command c) := row]> (d_commands d) !! i = Some x) as Hold
    by (intros i x Hx; rewrite lookup_insert_ne; [done|congruence]).
  split; cbn [d_trail d_commands d_idempotency d_receipts d_watermarks d_artifacts set_commands].
  - apply Hi.
  - intros k i [[<- <-]|[_ Hki]]%lookup_insert_Some.
    + exists row. subst row idem. cbn. rewrite lookup_insert_eq, !String.eqb_refl, Z.eqb_refl. done.
    + destruct (li_idempotency d Hi k i Hki) as (x & Hx & Hj). eauto.
  - intros i x [[<- <-]|[_ Hx]]%lookup_insert_Some.
    + split; [by left|]. change (row_scope row) with (scope_of c). by rewrite lookup_insert_eq.
    + destruct (li_commands d Hi i x Hx) as [Hs Hx']. split; [done|]. rewrite lookup_insert_ne; [done|]. intros E. by apply (Hu i x Hx).
  - intros rid r Hr. destruct (li_receipts d Hi rid r Hr) as (-> & x & Hx & Hrest). eauto.
  - intros i x [[<- <-]|[_ Hx]]%lookup_insert_Some; [done|]. by apply Hi.
  - intros m Hm. destruct (li_events d Hi m Hm) as (x & Hx & Hrest). eauto.
  - apply Hi.
  - by destruct (li_artifacts d Hi); split.
Qed.

(** ** The methods, by cases *)

Lemma in_tx_cases {A} env d (body : result ledger_error (DB * A)) d' r :
  in_tx env d body = (d', r) -> (exists e, r = Err e /\ d' = d) \/ (exists x, r = Ok x /\ e_fault env XBegin = false /\ body = Ok (d', x)).
Proof.
  unfold in_tx, sql, fail_if. destruct (e_fault env XBegin) eqn:E; [intros [= <- <-]; left; eauto|].
  destruct body as [[d1 x]|e]; intros [= <- <-]; [right|left]; eauto.
Qed.

Lemma commit_tx_Ok {A} env (r : result ledger_error (DB * A)) x : commit_tx env r = Ok x -> r = Ok x.
Proof. unfold commit_tx. intros (y & Hr & [_ Hy]%sql_Ok)%rbind_Ok. congruence. Qed.

Lemma validMutation_events m : validMutation m = true -> mu_Events m <> [] /\ forallb valid_event (mu_Events m) = true /\ validCommand (mu_Command m) = true.
Proof. unfold validMutation. intros Hv. bool_prop. split_and!; try done. intros E. by rewrite E in *. Qed.

Lemma run_mutation_Ok env m d d' x :
  ledger_inv d -> validMutation m = true -> run_mutation env m d = Ok (d', x) ->
  exists receipt row ms, x = MkExecution receipt false /\ committed env m d d' receipt row ms.
Proof.
  intros Hi Hv ([d1 r] & Hc & [= <- <-])%commit_tx_Ok%rbind_Ok. apply completeMutation_Ok in Hc as (row & ms & Hc); [eauto|done|by apply validMutation_events].
Qed.

Lemma canonical_row c row :
  validCommand c = true -> row = MkCommandRow (Value (cr_Tenant c)) (Value (cr_Principal c)) (Value (cr_Session c)) (cr_CommandType c) (cr_IdempotencyKey c)
    (Hex (cr_AuthenticatedDigest c)) (cr_Fence c) (co_status row) -> canonicalCommandRecord (Value (cr_Command c)) row = c.
Proof.
  destruct c as [[n1 v1] [n2 v2] [n3 v3] [n4 v4] ty key [al hx] fe]. unfold validCommand, validID. cbn. intros Hv ->. bool_prop.
  repeat match goal with E : String.eqb _ _ = true |- _ => apply String.eqb_eq in E end. subst. done.
Qed.

(** A found reservation names a command row. *)
Lemma lookupReservation_Some env d c r :
  lookupReservation env d c = Ok (Some r) ->
  exists id row, d_commands d !! id = Some row /\ re_Command r = canonicalCommandRecord id row /\ re_Status r = co_status row.
Proof.
  unfold lookupReservation. intros [_ Hr]%sql_Ok. destruct (d_idempotency d !! _) as [i|]; [|done]. destruct (d_commands d !! _) as [row|] eqn:Er; [|done].
  destruct (negb _) in Hr; [done|]. cbv zeta in Hr. destruct (_ || _) in Hr; [done|]. exists (ir_command i), row.
  destruct (String.eqb (co_status row) "completed"); [apply rbind_Ok in Hr as (rc & _ & Hr)|]; injection Hr as <-; done.
Qed.

Lemma reserved_row env m d d' receipt row ms r :
  lookupReservation env d (mu_Command m) = Ok (Some r) -> re_Command r = mu_Command m -> committed env m d d' receipt row ms ->
  canonicalCommandRecord (Value (cr_Command (mu_Command m))) row = mu_Command m.
Proof.
  intros (id & row' & Hrow & Hrc & _)%lookupReservation_Some E Hc. rewrite Hrc in E. destruct (cm_accepted _ _ _ _ _ _ _ Hc) as (Hrow' & _).
  rewrite <- E in Hrow'. cbn in Hrow'. rewrite Hrow in Hrow'. injection Hrow' as <-. by rewrite <- E at 1.
Qed.

(** A fresh commit of [m] from [d]: the command is there, accepted, or it is inserted first. *)
Definition fresh_commit (env : Env) (m : Mutation) (d d' : DB) (receipt : Receipt) : Prop :=
  exists d0 row ms, (d0 = d \/ insertCommand env (mu_Command m) d = Ok d0) /\ ledger_inv d0 /\ committed env m d0 d' receipt row ms /\
  canonicalCommandRecord (Value (cr_Command (mu_Command m))) row = mu_Command m /\ validMutation m = true.

Definition replayed (env : Env) (c : CommandRecord) (d : DB) (receipt : Receipt) : Prop :=
  exists r, lookupReservation env d c = Ok (Some r) /\ re_Status r = "completed" /\ re_Receipt r = receipt.

Lemma Execute_cases env m d d' r :
  ledger_inv d -> Execute env m d = (d', r) ->
  (exists e, r = Err e /\ d' = d) \/ (exists receipt, r = Ok (MkExecution receipt true) /\ d' = d /\ replayed env (mu_Command m) d receipt) \/
  (exists receipt, r = Ok (MkExecution receipt false) /\ fresh_commit env m d d' receipt).
Proof.
  intros Hi. unfold Execute. destruct (validMutation m) eqn:Hv; cbn [negb]; [|intros [= <- <-]; left; eauto]. cbv zeta.
  intros [He|(x & -> & _ & Hb)]%in_tx_cases; [by left|right]. apply rbind_Ok in Hb as (canonical & _ & Hb). destruct (conflicts canonical _); [done|].
  apply rbind_Ok in Hb as (found & Hf & Hb). destruct found as [rv|].
  - destruct (String.eqb_spec (re_Status rv) "completed") as [Es|_].
    + injection Hb as <- <-. left. eexists. split_and!; [done..|]. by exists rv.
    + destruct (_ || _) eqn:Eo in Hb; [done|]. apply orb_false_iff in Eo as [_ Eo%negb_false_iff%bool_decide_eq_true].
      apply run_mutation_Ok in Hb as (receipt & row & ms & -> & Hc); [|done..]. right. eexists. split; [done|].
      exists d, row, ms. split_and!; [by left|done|done|by eapply reserved_row|done].
  - destruct (bool_decide _); [done|]. apply rbind_Ok in Hb as (d0 & Hins & Hb). pose proof (insertCommand_inv _ _ _ _ Hi Hins) as H0.
    apply run_mutation_Ok in Hb as (receipt & row & ms & -> & Hc); [|done..]. right. eexists. split; [done|]. exists d0, row, ms.
    split_and!; [by right|done|done| |done]. destruct (cm_accepted _ _ _ _ _ _ _ Hc) as (Hrow & _). apply insertCommand_Ok in Hins as (_ & _ & _ & ->).
    cbn in Hrow. rewrite lookup_insert_eq in Hrow. injection Hrow as <-. apply canonical_row; [by apply validMutation_events|done].
Qed.

Lemma Finalize_cases env m d d' r :
  ledger_inv d -> Finalize env m d = (d', r) ->
  (exists e, r = Err e /\ d' = d) \/ (exists receipt, r = Ok (MkExecution receipt true) /\ d' = d /\ replayed env (mu_Command m) d receipt) \/
  (exists receipt, r = Ok (MkExecution receipt false) /\ fresh_commit env m d d' receipt).
Proof.
  intros Hi. unfold Finalize. destruct (validMutation m) eqn:Hv; cbn [negb]; [|intros [= <- <-]; left; eauto]. cbv zeta.
  intros [He|(x & -> & _ & Hb)]%in_tx_cases; [by left|right]. apply rbind_Ok in Hb as (canonical & _ & Hb). destruct (conflicts canonical _); [done|].
  apply rbind_Ok in Hb as (found & Hf & Hb). destruct found as [rv|]; [|done]. destruct (String.eqb (re_Status rv) "rejected"); [done|].
  destruct (negb _) eqn:Eo in Hb; [done|]. apply negb_false_iff, bool_decide_eq_true in Eo. destruct (String.eqb_spec (re_Status rv) "completed") as [Es|_].
  - injection Hb as <- <-. left. eexists. split_and!; [done..|]. by exists rv.
  - apply run_mutation_Ok in Hb as (receipt & row & ms & -> & Hc); [|done..]. right. eexists. split; [done|]. exists d, row, ms.
    split_and!; [by left|done|done|by eapply reserved_row|done].
Qed.

Lemma Reserve_cases env c d d' r :
  Reserve env c d = (d', r) -> d' = d \/ insertCommand env c d = Ok d' /\ r = Ok (MkReservation c "accepted" zero_receipt false).
Proof.
  unfold Reserve. destruct (validCommand c); cbn [negb]; [|intros [= <- <-]; by left].
  intros [(e & -> & ->)|(x & -> & _ & Hb)]%in_tx_cases; [by left|]. apply rbind_Ok in Hb as (canonical & _ & Hb). destruct (conflicts canonical _); [done|].
  apply rbind_Ok in Hb as (found & Hf & Hb). destruct found as [rv|]; [destruct (_ && _) in Hb; [done|]; injection Hb as <- <-; by left|].
  destruct (bool_decide _); [done|]. apply commit_tx_Ok, rbind_Ok in Hb as (d0 & Hins & [= <- <-]). by right.
Qed.

Lemma fresh_commit_inv env m d d' receipt : fresh_commit env m d d' receipt -> ledger_inv d'.
Proof. intros (d0 & row & ms & _ & Hi & Hc & _). by eapply committed_inv. Qed.

Lemma path_denied s s' : status_path s s' -> denied s -> denied s'.
Proof.
  induction 1 as [|s s1 s' Hf _ IH]; intros Hd; [done|]. apply IH. unfold status_forward in Hf.
  destruct Hd as [-> | [-> | -> ]]; cbn in Hf; repeat (apply orb_true_iff in Hf as [Hf|Hf]); try discriminate;
    try (apply String.eqb_eq in Hf as ->); unfold denied; auto.
Qed.

Lemma path_purged s : status_path "purged" s -> s = "purged".
Proof.
  intros Hp. remember "purged" as p eqn:E. induction Hp as [|p s1 s Hf _ IH]; [done|]. subst p. unfold status_forward in Hf.
  cbn in Hf. rewrite !orb_false_r in Hf. apply String.eqb_eq in Hf. subst s1. by apply IH.
Qed.

Lemma metadata_inv d a : ledger_inv d -> same_manifests_writer (d_artifacts d) a -> ledger_inv (set_artifacts a d).
Proof.
  intros [H1 H2 H3 H4 H5 H6 H7 [Ht Hp]] (Hf & Et & Ep). split; try done. split; cbn; rewrite ?Et, ?Ep.
  - intros id r Hr. destruct (Ht id r Hr) as ((m & Hm & Hd) & Hrc). split; [|done]. destruct (Hf _ _ Hm) as [(m' & Hm' & Hs)|[_ Hs]].
    + exists m'. split; [done|]. by eapply path_denied.
    + by destruct Hd as [E | [E | E]]; rewrite Hs in E.
  - intros id p Hpu. destruct (Hp id p Hpu) as (r & Hr & Hk & Hc). exists r. split_and!; [done|done|]. intros E. destruct (Hc E) as (m & Hm & Hs).
    destruct (Hf _ _ Hm) as [(m' & Hm' & Hs')|[_ Hs']]; [|congruence]. rewrite Hs in Hs'. exists m'. split; [done|]. by apply path_purged.
Qed.

Lemma ledger_step_inv d d' : ledger_inv d -> lstep d d' -> ledger_inv d'.
Proof.
  intros Hi Hs. inversion Hs as [env p ?|env c ?|env m ?|env m ?|? a Hw]; subst.
  - unfold OpenSession. destruct (_ || _); [done|]. destruct (e_fault env XSession); [done|].
    destruct Hi as [H1 H2 H3 H4 H5 H6 H7 [Ht Hp]]. by split.
  - destruct (Reserve env c d) as [d' r] eqn:E. apply Reserve_cases in E as [->|[E _]]; [done|]. by eapply insertCommand_inv.
  - destruct (Finalize env m d) as [d' r] eqn:E. apply Finalize_cases in E as [(e & _ & ->)|[(rc & _ & -> & _)|(rc & _ & Hc)]]; [done|done|by eapply fresh_commit_inv|done].
  - destruct (Execute env m d) as [d' r] eqn:E. apply Execute_cases in E as [(e & _ & ->)|[(rc & _ & -> & _)|(rc & _ & Hc)]]; [done|done|by eapply fresh_commit_inv|done].
  - by apply metadata_inv.
Qed.

(** A call of the ledger itself. *)
Inductive lcall : DB -> DB -> Prop :=
| call_session env p d : lcall d (fst (OpenSession env p d))
| call_reserve env c d : lcall d (fst (Reserve env c d))
| call_finalize env m d : lcall d (fst (Finalize env m d))
| call_execute env m d : lcall d (fst (Execute env m d)).

Lemma lcall_step d d' : lcall d d' -> lstep d d'.
Proof. intros []; constructor. Qed.

(** It changes the table of manifests only by a deletion. *)
Lemma ledger_call_manifests d d' : ledger_inv d -> lcall d d' -> deletes_one (a_manifests (d_artifacts d)) (a_manifests (d_artifacts d')).
Proof.
  assert (forall env m d' receipt, fresh_commit env m d d' receipt -> deletes_one (a_manifests (d_artifacts d)) (a_manifests (d_artifacts d'))) as Hfresh.
  { intros env m d1 receipt (d0 & row & ms & [-> |(_ & _ & _ & ->)%insertCommand_Ok] & _ & Hc & _); apply (cm_manifests _ _ _ _ _ _ _ Hc). }
  intros Hi Hs. inversion Hs as [env p ?|env c ?|env m ?|env m ?]; subst.
  - left. unfold OpenSession. destruct (_ || _); [done|]. by destruct (e_fault env XSession).
  - left. destruct (Reserve env c d) as [d' r] eqn:E. apply Reserve_cases in E as [-> |[(_ & _ & _ & ->)%insertCommand_Ok _]]; done.
  - destruct (Finalize env m d) as [d' r] eqn:E. apply Finalize_cases in E as [(e & _ & ->)|[(rc & _ & -> & _)|(rc & _ & Hc)]]; [by left|by left|by eapply Hfresh|done].
  - destruct (Execute env m d) as [d' r] eqn:E. apply Execute_cases in E as [(e & _ & ->)|[(rc & _ & -> & _)|(rc & _ & Hc)]]; [by left|by left|by eapply Hfresh|done].
Qed.

Lemma empty_inv : ledger_inv empty_db.
Proof. split; try done; cbn; set_solver. Qed.

Lemma ledger_reachable_inv d : rtc lstep empty_db d -> ledger_inv d.
Proof. intros Hr. eapply rtc_ind_r with (P := ledger_inv); [apply empty_inv| |exact Hr]. intros; by eapply ledger_step_inv. Qed.
End invariant.
