(* ===== verification/AuthoritySafety.v ===== *)
(** * localstate: what the authority ledger guarantees

    Theorems about every database the calls of [AuthorityLedger] can reach. *)

From Stdlib Require Import Ascii String.
From stdpp Require Import gmap strings relations.
From S2P Require Import Prelude GoString Float64 Runtime SqlTable Contracts AuditChain EventKernel AuthorityLedger AuthorityTrail AuthorityInvariant.
Open Scope string_scope.
Open Scope Z_scope.

Section growth.
Context `{GoRuntime}.

(** What no call undoes. *)
Record grows (d d' : DB) : Prop := {
  gr_events : t_events (d_trail d) `prefix_of` t_events (d_trail d');
  gr_receipts : d_receipts d ⊆ d_receipts d';
  gr_commands : forall id c, d_commands d !! id = Some c ->
    exists c', d_commands d' !! id = Some c' /\ (c' = c \/ co_status c = "accepted" /\ c' = finished c);
  gr_idempotency : d_idempotency d ⊆ d_idempotency d';
  gr_watermarks : watermarks_forward (d_watermarks d) (d_watermarks d');
  gr_manifests : forall k m, a_manifests (d_artifacts d) !! k = Some m -> ma_status m <> "staged" ->
    exists m', a_manifests (d_artifacts d') !! k = Some m' /\ status_path (ma_status m) (ma_status m')
}.

Lemma grows_refl d : grows d d.
Proof. split; [done|done|eauto|done|apply watermarks_forward_refl|].
  intros k m Hm _. exists m. split; [done|apply rtc_refl]. Qed.

Lemma status_path_staged s : status_path s "staged" -> s = "staged".
Proof.
  intros Hp. apply rtc_ind_r with (P := fun x => x = "staged" -> s = "staged") in Hp; [by apply Hp|done|].
  intros x y _ Hf IH ->. apply IH. unfold status_forward in Hf. repeat (apply orb_true_iff in Hf as [Hf|Hf]); [by apply String.eqb_eq in Hf|..];
    apply andb_true_iff in Hf as [_ Hf]; done.
Qed.

Lemma grows_trans d1 d2 d3 : grows d1 d2 -> grows d2 d3 -> grows d1 d3.
Proof.
  intros [e1 r1 c1 i1 w1 m1] [e2 r2 c2 i2 w2 m2]. split.
  - by etrans.
  - by etrans.
  - intros id c Hc. destruct (c1 id c Hc) as (c' & Hc' & Hs). destruct (c2 id c' Hc') as (c'' & Hc'' & Hs'). exists c''. split; [done|].
    destruct Hs as [->|[Hs ->]]; [done|]. destruct Hs' as [->|[Hs' _]]; [by right|done].
  - by etrans.
  - intros k w g Hk. destruct (w1 k w g Hk) as (w' & g' & Hk' & ? & ?). destruct (w2 k w' g' Hk') as (w'' & g'' & Hk'' & ? & ?).
    exists w'', g''. split_and!; [done|lia..].
  - intros k m Hm Hne. destruct (m1 k m Hm Hne) as (m' & Hm' & Hs). destruct (m2 k m' Hm') as (m'' & Hm'' & Hs').
    + intros E. rewrite E in Hs. by apply Hne, status_path_staged.
    + exists m''. split; [done|by etrans].
Qed.

Lemma insertCommand_grows env c d d' : insertCommand env c d = Ok d' -> grows d d'.
Proof.
  intros (Hn & Hk & _ & ->)%insertCommand_Ok. split; cbn; [done|done| |by apply insert_subseteq|apply watermarks_forward_refl|].
  - intros id x Hx. exists x. split; [|by left]. rewrite lookup_insert_ne; [done|congruence].
  - intros k m Hm _. exists m. split; [done|apply rtc_refl].
Qed.

Lemma committed_grows env m d d' receipt row ms : committed env m d d' receipt row ms -> grows d d'.
Proof.
  intros Hc. destruct (cm_accepted _ _ _ _ _ _ _ Hc) as (Hrow & Hst & _). destruct (cm_same _ _ _ _ _ _ _ Hc) as [_ Hid].
  destruct (cm_receipts _ _ _ _ _ _ _ Hc) as [Hn Hr]. destruct (cm_trail _ _ _ _ _ _ _ Hc) as (_ & Hev & _). split.
  - rewrite Hev. by apply prefix_app_r.
  - rewrite Hr. by apply insert_subseteq.
  - intros id x Hx. rewrite (cm_commands _ _ _ _ _ _ _ Hc). destruct (decide (id = Value (cr_Command (mu_Command m)))) as [->|Hne].
    + rewrite lookup_insert_eq. rewrite Hrow in Hx. injection Hx as <-. exists (finished row). by split; [|right].
    + rewrite lookup_insert_ne by done. exists x. by split; [|left].
  - by rewrite Hid.
  - apply Hc.
  - intros k x Hx Hne. destruct (proj2 (cm_artifacts _ _ _ _ _ _ _ Hc) k x Hx) as [|[_ ?]]; [done|done].
Qed.

Lemma fresh_commit_grows env m d d' receipt : fresh_commit env m d d' receipt -> grows d d'.
Proof.
  intros (d0 & row & ms & [->|Hins] & _ & Hc & _); [by eapply committed_grows|]. eapply grows_trans; [by eapply insertCommand_grows|by eapply committed_grows].
Qed.

Lemma step_grows d d' : ledger_inv d -> lstep d d' -> grows d d'.
Proof.
  intros Hi Hs. inversion Hs as [env p ?|env c ?|env m ?|env m ?|? a (Hf & _)]; subst.
  - unfold OpenSession. destruct (_ || _); [apply grows_refl|]. destruct (e_fault env XSession); [apply grows_refl|]. by destruct (grows_refl d); split.
  - destruct (Reserve env c d) as [d' r] eqn:E. apply Reserve_cases in E as [->|[E _]]; [apply grows_refl|]. by eapply insertCommand_grows.
  - destruct (Finalize env m d) as [d' r] eqn:E. apply Finalize_cases in E as [(e & _ & ->)|[(rc & _ & -> & _)|(rc & _ & Hc)]];
      [apply grows_refl|apply grows_refl|by eapply fresh_commit_grows|done].
  - destruct (Execute env m d) as [d' r] eqn:E. apply Execute_cases in E as [(e & _ & ->)|[(rc & _ & -> & _)|(rc & _ & Hc)]];
      [apply grows_refl|apply grows_refl|by eapply fresh_commit_grows|done].
  - destruct (grows_refl d). split; try done. cbn. intros k m Hm Hne. destruct (Hf k m Hm) as [|[_ ?]]; [done|done].
Qed.

Lemma steps_grow d d' : ledger_inv d -> rtc lstep d d' -> ledger_inv d' /\ grows d d'.
Proof.
  intros Hi Hr. apply rtc_ind_r with (P := fun x => ledger_inv x /\ grows d x) in Hr; [done|by split; [|apply grows_refl]|].
  intros x y _ Hs [Hx Hg]. split; [by eapply ledger_step_inv|]. eapply grows_trans; [done|by apply step_grows].
Qed.
End growth.

(** ** Properties *)

Section lookups.
Context `{GoRuntime}.

Definition quiet (env : Env) : Prop := forall q, e_fault env q = false.

Lemma sql_quiet {A} env q (k : result ledger_error A) : quiet env -> sql env q k = k.
Proof. intros Hq. unfold sql, fail_if. by rewrite Hq. Qed.

Definition receipt_of (id : string) (r : ReceiptRow) : Receipt := MkReceipt (MkIdentifier "command" id) (rc_status r) (rc_reason r) (rc_watermark r).

Lemma lookupReceipt_inv env d id c r :
  ledger_inv d -> quiet env -> d_commands d !! id = Some c -> d_receipts d !! receiptID id = Some r ->
  lookupReceipt env d (co_tenant c) id = Ok (receipt_of id r).
Proof.
  intros Hi Hq Hc Hr. unfold lookupReceipt. rewrite sql_quiet by done.
  assert (exists x, List.find (fun kv => String.eqb (rc_tenant (snd kv)) (co_tenant c) && String.eqb (rc_command (snd kv)) id) (map_to_list (d_receipts d)) = Some (receiptID id, x) /\
            d_receipts d !! receiptID id = Some x) as (x & -> & Hx); [|rewrite Hr in Hx; by injection Hx as <-].
  destruct (List.find _ _) as [[rid x]|] eqn:E.
  - apply List.find_some in E as [Hin Hm]. cbn in Hm. apply andb_true_iff in Hm as [_ Hm%String.eqb_eq].
    apply list_elem_of_In, elem_of_map_to_list in Hin. destruct (li_receipts d Hi rid x Hin) as [-> _]. rewrite Hm in *. eauto.
  - exfalso. destruct (li_receipts d Hi _ _ Hr) as [Eid (c' & Hc' & Ht & _)]. injection Eid as Eid. rewrite <- Eid, Hc in Hc'. injection Hc' as <-.
    apply (List.find_none _ _) with (x := (receiptID id, r)) in E; [|by apply list_elem_of_In, elem_of_map_to_list]. cbn in E.
    by rewrite Ht, <- Eid, !String.eqb_refl in E.
Qed.

(** A completed command, looked up under its scope. *)
Lemma lookupReservation_completed env d c id row r :
  ledger_inv d -> quiet env -> d_commands d !! id = Some row -> co_status row = "completed" -> row_scope row = scope_of c ->
  d_receipts d !! receiptID id = Some r ->
  lookupReservation env d c =
  if String.eqb (co_digest row) (Hex (cr_AuthenticatedDigest c)) && (co_fence row =? cr_Fence c)
  then Ok (Some (MkReservation (canonicalCommandRecord id row) "completed" (receipt_of id r) false)) else Err ErrIdempotencyConflict.
Proof.
  intros Hi Hq Hc Hs Hk Hr. unfold lookupReservation. rewrite sql_quiet by done. destruct (li_commands d Hi id row Hc) as [_ Hidem]. rewrite <- Hk.
  destruct (d_idempotency d !! row_scope row) as [i|] eqn:Ei; [|done]. injection Hidem as Hidem. destruct (li_idempotency d Hi _ _ Ei) as (row' & Hrow' & Hj).
  rewrite Hidem in *. rewrite Hc in Hrow'. injection Hrow' as <-. rewrite Hc, Hj. cbn [negb]. cbv zeta. cbn [canonicalCommandRecord cr_AuthenticatedDigest Hex cr_Fence].
  destruct (String.eqb (co_digest row) _), (co_fence row =? _); cbn [negb orb andb]; try done.
  rewrite Hs, String.eqb_refl. by rewrite (lookupReceipt_inv env d id row r).
Qed.
End lookups.

(** C7. The audit trail of every tenant verifies, in every database the calls can
    reach: links for all events, in order, recomputed digests, the checkpoint at
    the head. *)
Theorem audit_trail_verifies `{GoRuntime} d tenant :
  rtc lstep empty_db d -> validID tenant "tenant" = true -> VerifyAudit tenant d d d = Ok tt.
Proof.
  intros Hi%ledger_reachable_inv Hv. unfold VerifyAudit. rewrite Hv. cbn [negb]. pose proof (li_trail d Hi) as Ht. pose proof (tenant_links (Value tenant) _ Ht) as Hl.
  pose proof (Forall2_length _ _ _ Hl) as Hlen. rewrite Hlen, Nat.eqb_refl. cbn [negb]. destruct (_ =? 0)%nat eqn:E0; [done|]. cbv zeta.
  rewrite audit_entries_of by done. unfold entries_of at 1. rewrite length_zip_with, Hlen, Nat.min_id, Nat.eqb_refl. cbn [negb].
  rewrite (ti_chain _ Ht), (ti_head _ Ht), last_entry by done. apply Nat.eqb_neq in E0.
  destruct (last (tenant_audit _ _)) as [a|] eqn:Ea; [|apply last_None in Ea; rewrite Ea in Hlen; cbn in Hlen; lia].
  destruct (last (tenant_events _ _)) as [m|] eqn:Em; [|apply last_None in Em; by rewrite Em in E0]. cbn.
  assert (al_sequence a = em_Sequence m) as ->.
  { apply last_Some in Ea as [la Ea], Em as [lm Em]. rewrite Ea, Em in Hl. apply Forall2_app_inv in Hl as [_ Hl]; [|rewrite Ea, Em, !length_app in Hlen; cbn in Hlen; lia].
    inversion Hl as [|? ? ? ? [Hs _]]; by subst. }
  by rewrite String.eqb_refl, Z.eqb_refl, String.eqb_refl.
Qed.

(** [VerifyAudit] takes neither the mutex nor a transaction: a command of the
    tenant that commits between its first and its second read makes it report a
    corrupt chain, although the chain verifies before and after. *)
Theorem verification_races_with_commits `{GoRuntime} d1 d2 d3 env m receipt tenant :
  rtc lstep empty_db d1 -> validID tenant "tenant" = true -> tenant_events (Value tenant) (d_trail d1) <> [] ->
  cr_Tenant (mu_Command m) = tenant -> Execute env m d1 = (d2, Ok (MkExecution receipt false)) ->
  VerifyAudit tenant d1 d2 d3 = Err (ErrAudit ErrCorrupt).
Proof.
  intros Hi%ledger_reachable_inv Hv Hne Ht He. apply Execute_cases in He as [(e & [=] & _)|[(rc & [=] & _)|(rc & [= <-] & Hc)]]; [|done].
  pose proof (fresh_commit_inv _ _ _ _ _ Hc) as Hi2. destruct Hc as (d0 & row & ms & Hd0 & Hi0 & Hc & _ & [Hme _]%validMutation_events).
  destruct (cm_trail _ _ _ _ _ _ _ Hc) as (_ & Hev & Hrec).
  assert (d_trail d0 = d_trail d1) as Et by (destruct Hd0 as [->|(_ & _ & _ & ->)%insertCommand_Ok]; done).
  assert (tenant_events (Value tenant) (d_trail d2) = (tenant_events (Value tenant) (d_trail d1) ++ ms)%list) as Hte.
  { unfold tenant_events. rewrite Hev, Et, List.filter_app. f_equal. clear -Hrec Ht. induction Hrec as [|x y l l' Hx _ IH]; [done|]. cbn.
    destruct Hx as (_ & [= -> _ _] & _). rewrite Ht, String.eqb_refl. by rewrite IH. }
  assert (0 < length ms)%nat as Hms by (rewrite <- (Forall2_length _ _ _ Hrec); destruct (mu_Events m); [done|cbn; lia]).
  unfold VerifyAudit. rewrite Hv. cbn [negb]. rewrite <- (Forall2_length _ _ _ (tenant_links (Value tenant) _ (li_trail _ Hi))), Nat.eqb_refl. cbn [negb].
  pose proof (Forall2_length _ _ _ (tenant_links (Value tenant) _ (li_trail _ Hi))) as Hl1. pose proof (Forall2_length _ _ _ (tenant_links (Value tenant) _ (li_trail _ Hi2))) as Hl2.
  rewrite audit_entries_of by apply Hi2. unfold entries_of. rewrite length_zip_with, Hl2, Nat.min_id, Hte, length_app, Hl1.
  destruct (tenant_events (Value tenant) (d_trail d1)) as [|x l]; [done|]. cbn [length Nat.eqb]. 
  by rewrite (proj2 (Nat.eqb_neq _ _)) by lia.
Qed.

(** C3. A command takes effect once.  After it has committed, whatever happens in
    between, executing or finalising it again returns the stored receipt and
    changes nothing, and another request under the same tenant, principal, type
    and key that differs in digest or fence is refused without a change. *)
Theorem command_takes_effect_once `{GoRuntime} d d1 d2 env m receipt env' m' :
  rtc lstep empty_db d -> Execute env m d = (d1, Ok (MkExecution receipt false)) -> rtc lstep d1 d2 ->
  quiet env' -> validMutation m' = true -> scope_of (mu_Command m') = scope_of (mu_Command m) ->
  (mu_Command m' = mu_Command m -> Execute env' m' d2 = (d2, Ok (MkExecution receipt true)) /\ Finalize env' m' d2 = (d2, Ok (MkExecution receipt true))) /\
  (Hex (cr_AuthenticatedDigest (mu_Command m')) <> Hex (cr_AuthenticatedDigest (mu_Command m)) \/ cr_Fence (mu_Command m') <> cr_Fence (mu_Command m) ->
   Execute env' m' d2 = (d2, Err ErrIdempotencyConflict) /\ Finalize env' m' d2 = (d2, Err ErrIdempotencyConflict)).
Proof.
  intros Hi%ledger_reachable_inv He Hr Hq Hv' Hsc. apply Execute_cases in He as [(e & [=] & _)|[(rc & [=] & _)|(rc & [= <-] & Hc)]]; [|done].
  pose proof (fresh_commit_inv _ _ _ _ _ Hc) as Hi1. destruct (steps_grow _ _ Hi1 Hr) as [Hi2 Hg]. destruct Hc as (d0 & row & ms & _ & _ & Hc & Hcan & _).
  set (c := mu_Command m) in *. set (id := Value (cr_Command c)) in *.
  assert (d_commands d2 !! id = Some (finished row)) as Hrow.
  { destruct (gr_commands _ _ Hg id (finished row)) as (c' & Hc' & [->|[[=] _]]); [|done]. rewrite (cm_commands _ _ _ _ _ _ _ Hc). apply lookup_insert_eq. }
  assert (exists r, d_receipts d2 !! receiptID id = Some r /\ receipt_of id r = receipt) as (r & Hrc & Er).
  { eexists. split; [eapply lookup_weaken; [|apply (gr_receipts _ _ Hg)]; rewrite (proj2 (cm_receipts _ _ _ _ _ _ _ Hc)); apply lookup_insert_eq|].
    rewrite (cm_receipt _ _ _ _ _ _ _ Hc). fold c id. cbn. unfold receipt_of. cbn. f_equal. by rewrite <- Hcan. }
  assert (row_scope (finished row) = scope_of (mu_Command m')) as Hk by (rewrite Hsc; fold c; by rewrite <- Hcan).
  pose proof (lookupReservation_completed env' d2 (mu_Command m') id (finished row) r Hi2 Hq Hrow eq_refl Hk Hrc) as Hl.
  assert (canonicalCommandRecord id (finished row) = c) as Hcan' by exact Hcan. rewrite Hcan', Er in Hl.
  assert (co_digest (finished row) = Hex (cr_AuthenticatedDigest c) /\ co_fence (finished row) = cr_Fence c) as [Ed Ef] by (by rewrite <- Hcan').
  rewrite Ed, Ef in Hl. unfold Execute, Finalize, in_tx, lookupCanonicalCommand. rewrite Hv'. cbn [negb]. rewrite !sql_quiet by done. cbn [rbind]. split.
  - intros Em. rewrite Em in Hl |- *. fold c in Hl |- *. fold id. rewrite Hrow. cbn [fmap option_fmap option_map]. rewrite Hcan'. unfold conflicts.
    rewrite bool_decide_eq_true_2 by done. cbn [negb]. rewrite Hl, String.eqb_refl, Z.eqb_refl. cbn. by rewrite bool_decide_eq_true_2.
  - intros Hd. assert (lookupReservation env' d2 (mu_Command m') = Err ErrIdempotencyConflict) as ->.
    { rewrite Hl. destruct Hd as [Hd|Hd]; [rewrite (proj2 (String.eqb_neq _ _)) by congruence|rewrite (proj2 (Z.eqb_neq _ _)), andb_false_r by congruence]; done. }
    cbn [rbind]. by destruct (conflicts _ _).
Qed.

(** C10. A mutation lands whole or not at all.  An error and a replay leave the
    database as it was; a fresh execution appends exactly the events asked for,
    with consecutive sequences, an outbox entry and an audit link each, stores
    the receipt that carries the last sequence, and completes the command. *)
Theorem mutation_lands_whole `{GoRuntime} d d' env m r :
  rtc lstep empty_db d -> Execute env m d = (d', r) ->
  match r with
  | Err _ => d' = d
  | Ok x => if xe_Replayed x then d' = d
      else exists ms, t_events (d_trail d') = (t_events (d_trail d) ++ ms)%list /\ Forall2 (records (mu_Command m) (e_now env 0)) (mu_Events m) ms /\
        em_Sequence <$> ms = Z.of_nat <$> seq (S (length (t_events (d_trail d)))) (length ms) /\
        length (t_outbox (d_trail d')) = length (t_events (d_trail d')) /\ length (t_audit (d_trail d')) = length (t_events (d_trail d')) /\
        (exists rc, d_receipts d' !! receiptID (Value (cr_Command (mu_Command m))) = Some rc /\
           receipt_of (Value (cr_Command (mu_Command m))) rc = xe_Receipt x) /\
        em_Sequence <$> last ms = Some (Watermark (xe_Receipt x)) /\
        co_status <$> d_commands d' !! Value (cr_Command (mu_Command m)) = Some "completed"
  end.
Proof.
  intros Hi%ledger_reachable_inv He. apply Execute_cases in He as [(e & -> & ->)|[(rc & -> & -> & _)|(rc & -> & Hc)]]; [done|done| |done]. cbn.
  destruct Hc as (d0 & row & ms & Hd0 & Hi0 & Hc & Hcan & [Hme _]%validMutation_events). exists ms.
  assert (d_trail d0 = d_trail d) as Et by (destruct Hd0 as [->|(_ & _ & _ & ->)%insertCommand_Ok]; done).
  destruct (cm_trail _ _ _ _ _ _ _ Hc) as (Ht & Hev & Hrec). rewrite Et in Hev.
  assert (ms <> []) as Hms by (intros ->; by apply Forall2_nil_inv_r in Hrec).
  split_and!; [done|done| | | | | |].
  - pose proof (ti_sequences _ Ht) as Hn. unfold numbered in Hn. rewrite Hev, fmap_app, length_app, seq_app, fmap_app in Hn.
    apply app_inj_1 in Hn as [_ Hn]; [exact Hn|]. by rewrite !length_fmap, length_seq.
  - pose proof (f_equal length (ti_outbox _ Ht)) as Ho. by rewrite !length_fmap in Ho.
  - by eapply Forall2_length, ti_links.
  - rewrite (proj2 (cm_receipts _ _ _ _ _ _ _ Hc)), lookup_insert_eq. eexists. split; [done|]. rewrite (cm_receipt _ _ _ _ _ _ _ Hc).
    unfold receipt_of. cbn. f_equal. by rewrite <- Hcan.
  - rewrite (cm_receipt _ _ _ _ _ _ _ Hc). cbn. destruct (last ms) eqn:El; [done|]. by apply last_None in El.
  - by rewrite (cm_commands _ _ _ _ _ _ _ Hc), lookup_insert_eq.
Qed.

Definition of_aggregate (aggregate : Identifier) (e : Event) : bool :=
  String.eqb (ev_AggregateType e) (Namespace aggregate) && String.eqb (ev_AggregateID e) (Value aggregate).

(** What a projector replays is sound: every event is one the event kernel
    accepts, and the events of an aggregate carry the versions from 1 to the
    version the ledger reports, each once and in order. *)
Theorem replayed_history_is_dense `{GoRuntime} d tenant aggregate es n :
  rtc lstep empty_db d -> Replay tenant d = Ok es -> AggregateVersion tenant aggregate d = Ok n ->
  Forall (fun e => validateEvent e = Ok tt) es /\
  ev_AggregateVersion <$> List.filter (of_aggregate aggregate) es = Z.of_nat <$> seq 1 (Z.to_nat n).
Proof.
  intros Hi%ledger_reachable_inv. unfold Replay, AggregateVersion. destruct (validID tenant "tenant"); [|done]. cbn [negb orb]. intros [= <-].
  destruct (_ || _); [done|]. intros [= <-]. pose proof (li_trail d Hi) as Ht.
  assert (sort_by by_sequence (tenant_events (Value tenant) (d_trail d)) = tenant_events (Value tenant) (d_trail d)) as ->.
  { apply sort_by_id. eapply strongly_sorted_impl_in; [|apply increasing_filter, numbered_increasing, Ht]. intros x y _ _ Hxy. cbn in Hxy. apply Z.ltb_ge. lia. }
  split.
  - apply Forall_fmap, Forall_forall. intros x [Hx _]%elem_of_filterb. pose proof (event_valid x _ Ht Hx) as Hm. unfold validMetadata in Hm.
    unfold validateEvent, event_view. cbn. rewrite String.eqb_refl. bool_prop. repeat match goal with E : _ = false |- _ => rewrite E end.
    by rewrite (proj2 (Z.eqb_neq _ _)) by lia.
  - set (k := (Value tenant, Namespace aggregate, Value aggregate)). destruct (ti_versions _ Ht k) as [Hn Hd]. rewrite Hd, Nat2Z.id. rewrite <- Hn.
    unfold aggregate_events, tenant_events. induction (t_events (d_trail d)) as [|x l IH]; [done|]. subst k. clear -IH. cbn.
    change (aggregate_of x) with (em_Tenant x, em_AggregateType x, em_AggregateID x).
    destruct (String.eqb_spec (em_Tenant x) (Value tenant)) as [E1|E1]; [cbn; unfold of_aggregate at 1; cbn|rewrite bool_decide_eq_false_2 by congruence; exact IH].
    destruct (String.eqb_spec (em_AggregateType x) (Namespace aggregate)) as [E2|E2]; [cbn|rewrite bool_decide_eq_false_2 by congruence; exact IH].
    destruct (String.eqb_spec (em_AggregateID x) (Value aggregate)) as [E3|E3]; [|rewrite bool_decide_eq_false_2 by congruence; exact IH].
    rewrite bool_decide_eq_true_2 by (by rewrite E1, E2, E3). cbn. by rewrite IH.
Qed.

(** C25. A deletion stays in the tenant of its command and is final: the artifact was
    published and belongs to that tenant (the schema ties the tombstone to a
    receipt of the tenant), no other artifact is touched, and from then on it is
    never readable again; one purged with the command stays purged. *)
Theorem deletion_is_confined_and_final `{GoRuntime} d d1 d2 env m receipt r :
  rtc lstep empty_db d -> Execute env m d = (d1, Ok (MkExecution receipt false)) -> mu_Deletion m = Some r -> rtc lstep d1 d2 ->
  de_TenantID r = Value (cr_Tenant (mu_Command m)) /\
  ma_status <$> a_manifests (d_artifacts d) !! artifact_key r = Some "published" /\
  (forall k, k <> artifact_key r -> a_manifests (d_artifacts d1) !! k = a_manifests (d_artifacts d) !! k) /\
  exists x, a_manifests (d_artifacts d2) !! artifact_key r = Some x /\ denied (ma_status x) /\ (mu_PurgeNow m = true -> ma_status x = "purged").
Proof.
  intros Hi%ledger_reachable_inv He Hdel Hr. apply Execute_cases in He as [(e & [=] & _)|[(rc & [=] & _)|(rc & [= <-] & Hc)]]; [|done].
  pose proof (fresh_commit_inv _ _ _ _ _ Hc) as Hi1. destruct (steps_grow _ _ Hi1 Hr) as [_ Hg]. destruct Hc as (d0 & row & ms & Hd0 & _ & Hc & _).
  assert (d_artifacts d0 = d_artifacts d) as Ea by (destruct Hd0 as [->|(_ & _ & _ & ->)%insertCommand_Ok]; done).
  pose proof (cm_deletion _ _ _ _ _ _ _ Hc) as Hd. rewrite Hdel, Ea in Hd. destruct Hd as (Ht & Hother & Hpub & Hnow). split_and!; [done|done|done|].
  destruct (a_manifests (d_artifacts d1) !! artifact_key r) as [x|] eqn:Ex; [|done]. injection Hnow as Hs.
  assert (denied (ma_status x)) as Hden by (rewrite Hs; destruct (mu_PurgeNow m); [by right; left|by left]).
  destruct (gr_manifests _ _ Hg _ _ Ex) as (y & Hy & Hp); [by destruct Hden as [-> | [-> | -> ]]|]. exists y. split_and!; [done|by eapply path_denied|].
  intros E. rewrite E in Hs. rewrite Hs in Hp. by apply path_purged.
Qed.

(** The ledger only grows: events keep their place, receipts and idempotency
    records stay, and no projection watermark moves back or past the events. *)
Theorem authority_only_grows `{GoRuntime} d d' :
  rtc lstep empty_db d -> rtc lstep d d' ->
  t_events (d_trail d) `prefix_of` t_events (d_trail d') /\ d_receipts d ⊆ d_receipts d' /\ d_idempotency d ⊆ d_idempotency d' /\
  forall k w g, d_watermarks d !! k = Some (w, g) ->
    exists w' g', d_watermarks d' !! k = Some (w', g') /\ w <= w' <= Z.of_nat (length (t_events (d_trail d'))) /\ g <= g'.
Proof.
  intros Hi%ledger_reachable_inv Hr. destruct (steps_grow _ _ Hi Hr) as [Hi' Hg]. split_and!; [apply Hg..|].
  intros k w g Hk. destruct (gr_watermarks _ _ Hg k w g Hk) as (w' & g' & Hk' & Hw & Hgen). exists w', g'.
  destruct (li_watermarks _ Hi' _ _ _ Hk'). split_and!; [done|lia..].
Qed.
