(* ===== verification/AuthorityDemo.v ===== *)
(** * The authority ledger on concrete inputs

    A session, a published artifact and two commands, the second of which
    deletes the artifact; the theorems of [AuthoritySafety] are applied there. *)

From Stdlib Require Import Ascii String.
From stdpp Require Import gmap strings relations.
From S2P Require Import Prelude GoString Float64 Runtime SqlTable Composite Contracts AuditChain EventKernel AuthorityLedger AuthorityTrail AuthorityInvariant AuthoritySafety.
Open Scope string_scope.
Open Scope Z_scope.

#[local] Existing Instance demo_runtime.

Definition calm : Env := MkEnv (fun _ => false) (fun _ => 1000).
Definition tenant_t : Identifier := MkIdentifier "tenant" "t".
Definition peer : PeerIdentity := MkPeer (MkFact (MkIdentifier "principal" "p") tenant_t (MkIdentifier "session" "s")) 501 77.

Definition command (id key : string) : CommandRecord :=
  MkCommandRecord (MkIdentifier "command" id) tenant_t (MkIdentifier "principal" "p") (MkIdentifier "session" "s") "ingest" key (MkDigest "sha256" "aa") 3.
Definition event (id : string) (version : Z) : MutationEvent :=
  MkMutationEvent "source" 1 (MkEventRecord (MkIdentifier "event" id) (MkIdentifier "source" "x") version (MkDigest "sha256" "bb")).
Definition done_receipt : Receipt := MkReceipt (MkIdentifier "" "") "completed" "ok" 0.

Definition ingest : Mutation := MkMutation (command "c1" "k1") [event "e1" 1; event "e2" 2] done_receipt "sources" None false.
Definition forget : Mutation :=
  MkMutation (command "c2" "k2") [event "e3" 3] done_receipt "sources" (Some (MkDeletion "t" "a" 1 "" "tomb" "purge" 1 "requested" 900)) true.

Definition published : Artifacts := MkArtifacts (<[("t", "a", 1) := MkManifest "dd" 10 1 1 "published"]> ∅) ∅ ∅.

Definition db1 : DB := fst (OpenSession calm peer empty_db).
Definition db2 : DB := set_artifacts published db1.
Definition db3 : DB := fst (Execute calm ingest db2).
Definition db4 : DB := fst (Execute calm forget db3).

Lemma db2_reachable : rtc lstep empty_db db2.
Proof.
  apply (rtc_l _ _ db1); [exact (step_session calm peer empty_db)|]. apply rtc_once. apply (step_metadata db1 published).
  split; [|done]. intros k m Hk. discriminate Hk.
Qed.

Lemma db3_reachable : rtc lstep empty_db db3.
Proof. apply (rtc_r _ db2); [apply db2_reachable|]. exact (step_execute calm ingest db2). Qed.

Lemma db4_from_db3 : rtc lstep db3 db4.
Proof. apply rtc_once. exact (step_execute calm forget db3). Qed.

Lemma db4_reachable : rtc lstep empty_db db4.
Proof. transitivity db3; [apply db3_reachable|apply db4_from_db3]. Qed.

Lemma calm_quiet : quiet calm.
Proof. done. Qed.

Definition ingest_receipt : Receipt := MkReceipt (MkIdentifier "command" "c1") "completed" "ok" 2.
Definition forget_receipt : Receipt := MkReceipt (MkIdentifier "command" "c2") "completed" "ok" 3.

Lemma ingest_executes : Execute calm ingest db2 = (db3, Ok (MkExecution ingest_receipt false)).
Proof. rewrite (surjective_pairing (Execute calm ingest db2)). fold db3. apply f_equal2; [reflexivity|vm_compute; reflexivity]. Qed.

Lemma forget_executes : Execute calm forget db3 = (db4, Ok (MkExecution forget_receipt false)).
Proof. rewrite (surjective_pairing (Execute calm forget db3)). fold db4. apply f_equal2; [reflexivity|vm_compute; reflexivity]. Qed.

Lemma audit_trail_verifies_witness : VerifyAudit tenant_t db4 db4 db4 = Ok tt /\ length (tenant_audit "t" (d_trail db4)) = 3%nat.
Proof. split; [|vm_compute; reflexivity]. apply (audit_trail_verifies db4 tenant_t); [exact db4_reachable|reflexivity]. Defined.

Lemma verification_races_with_commits_witness : VerifyAudit tenant_t db3 db4 db4 = Err (ErrAudit ErrCorrupt).
Proof.
  apply (verification_races_with_commits db3 db4 db4 calm forget forget_receipt tenant_t); [exact db3_reachable|reflexivity| |reflexivity|exact forget_executes].
  vm_compute. discriminate.
Defined.

Lemma command_takes_effect_once_witness : Execute calm ingest db4 = (db4, Ok (MkExecution ingest_receipt true)).
Proof.
  apply (proj1 (command_takes_effect_once db2 db3 db4 calm ingest ingest_receipt calm ingest db2_reachable ingest_executes db4_from_db3 calm_quiet
    ltac:(reflexivity) ltac:(reflexivity))). reflexivity.
Defined.

Lemma mutation_lands_whole_witness : exists ms, t_events (d_trail db3) = (t_events (d_trail db2) ++ ms)%list /\ length ms = 2%nat.
Proof.
  destruct (mutation_lands_whole db2 db3 calm ingest _ db2_reachable ingest_executes) as (ms & H1 & H2 & _). exists ms. split; [exact H1|].
  symmetry. exact (Forall2_length _ _ _ H2).
Defined.

Lemma replayed_history_is_dense_witness : exists es, Replay tenant_t db4 = Ok es /\ ev_AggregateVersion <$> List.filter (of_aggregate (MkIdentifier "source" "x")) es = [1; 2; 3].
Proof.
  eexists. split; [vm_compute; reflexivity|].
  exact (proj2 (replayed_history_is_dense db4 tenant_t (MkIdentifier "source" "x") _ 3 db4_reachable ltac:(vm_compute; reflexivity) ltac:(vm_compute; reflexivity))).
Defined.

Lemma deletion_is_confined_and_final_witness : exists x, a_manifests (d_artifacts db4) !! ("t", "a", 1) = Some x /\ ma_status x = "purged".
Proof.
  destruct (deletion_is_confined_and_final db3 db4 db4 calm forget forget_receipt _ db3_reachable forget_executes eq_refl (rtc_refl _ _)) as (_ & _ & _ & x & Hx & _ & Hp).
  exists x. split; [exact Hx|exact (Hp eq_refl)].
Defined.

Lemma authority_only_grows_witness : t_events (d_trail db3) `prefix_of` t_events (d_trail db4).
Proof. exact (proj1 (authority_only_grows db3 db4 db3_reachable db4_from_db3)). Defined.

(** The audit chain itself: two chains that differ in a payload end in different digests. *)
Definition link (payload : string) (previous : string) (sequence : Z) : Entry :=
  let m := MkMetadata sequence (dec sequence) "t" "source" "x" sequence "c" payload 1000 in
  MkEntry m previous (sha256_hex (material m previous)).
Definition chain (payload : string) : list Entry := let e := link payload "" 1 in [e; link "bb" (en_Digest e) 2].

Lemma demo_digest_nonempty s : sha256_hex s <> "".
Proof.
  change (dec (checksum s 7) <> ""). apply dec_spec. unfold dec_range.
  assert (forall s acc, 0 <= acc < 2 ^ 61 -> 0 <= checksum s acc < 2 ^ 61) as Hc; [|specialize (Hc s 7); lia].
  clear s. induction s as [|c s IH]; intros acc Ha; [done|]. cbn. apply IH. apply Z.mod_pos_bound. lia.
Qed.

Lemma audit_head_binds_history_witness : en_Digest <$> last (chain "aa") <> en_Digest <$> last (chain "cc").
Proof.
  intros E. enough (chain "aa" = chain "cc") as Hc by discriminate Hc.
  apply (audit_head_binds_history (chain "aa") (chain "cc")); [exact demo_digest_nonempty| | |vm_compute; reflexivity|vm_compute; reflexivity|exact E].
  - repeat constructor; vm_compute; congruence.
  - intros e1 e2 H1 H2. apply elem_of_cons in H1 as [->|H1%list_elem_of_singleton]; apply elem_of_cons in H2 as [->|H2%list_elem_of_singleton]; subst; vm_compute; congruence.
Defined.

Definition notify (e : Event) : result string (list Command) := Ok [MkCommand "b" "source" (ev_AggregateID e) "d"; MkCommand "a" "source" (ev_AggregateID e) "d"].
Definition notify' (e : Event) : result string (list Command) := Ok [MkCommand "a" "source" (ev_AggregateID e) "d"; MkCommand "b" "source" (ev_AggregateID e) "d"].
Definition registry_of (f : Reaction) : Registry := {["source" := {[1 := f]}]}.
Definition one_event : list Event := [MkEvent "e1" "source" "source" "x" 1 1 "bb"].

Lemma React_ignores_emission_order_witness :
  React (registry_of notify') one_event 4 = Ok [MkCommand "a" "source" "x" "d"; MkCommand "b" "source" "x" "d"].
Proof.
  apply (React_ignores_emission_order (registry_of notify) (registry_of notify') one_event 4); [|discriminate|vm_compute; reflexivity].
  intros e l1 ->%list_elem_of_singleton He. unfold emits in He. vm_compute in He. injection He as <-. split; [repeat constructor|].
  eexists. split; [reflexivity|]. apply perm_swap.
Defined.
