(* ===== verification/Chunking.v ===== *)
(** * chunking: versioned text chunking

    Models [services/brain/internal/chunking]: tokens (tokens.go), policies
    (policy.go) and the chunkers (chunk.go).  Offsets are byte offsets, natural
    numbers; the sizes of a policy are integers and become naturals after
    [Validate] has bounded them.  A loop over an index takes the number of
    elements as fuel: every turn moves the index forward. *)

From Stdlib Require Import Ascii String.
From S2P Require Import Prelude GoString Float64 Runtime.
Open Scope string_scope.
Open Scope Z_scope.

(** ** tokens.go *)

Definition TokenizerID : string := "ouroboros-ws-1".

Record Token := MkToken { tk_Text : string; tk_Start : nat; tk_End : nat }.

(** [s[a:b]] *)
Definition slice (s : string) (a b : nat) : string := str_take (b - a) (str_drop a s).

Definition width (p : piece) : nat := String.length (p_raw p).

(** The loop of [Tokenize] at offset [i]; [start] is the open token. *)
Fixpoint tokenize_loop (s : string) (start : option nat) (i : nat) (ps : list piece) : list Token :=
  match ps with
  | [] => match start with Some st => [MkToken (slice s st (String.length s)) st (String.length s)] | None => [] end
  | p :: rest =>
      if spacep p then
        match start with
        | Some st => MkToken (slice s st i) st i :: tokenize_loop s None (i + width p) rest
        | None => tokenize_loop s None (i + width p) rest
        end
      else tokenize_loop s (Some (default i start)) (i + width p) rest
  end.

Definition Tokenize (s : string) : list Token := tokenize_loop s None 0 (pieces s).

Definition CountTokens (s : string) : nat := length (fields s).

(** ** policy.go *)

Definition PolicyID : string := "ouroboros-chunk".
Definition BaselineVersion : Z := 1.
Definition BaselineTargetTokens : Z := 500.
Definition BaselineOverlapTokens : Z := 50.

Definition StrategyWholeDoc : string := "whole_doc".
Definition StrategyFixed : string := "fixed".
Definition StrategyStructure : string := "structure".
Definition StrategyParentChild : string := "parent_child".

Definition KindProse : string := "prose".
Definition KindCode : string := "code".
Definition KindTable : string := "table".
Definition KindSlides : string := "slides".
Definition KindChat : string := "chat".

Record Policy := MkPolicy {
  po_ID : string; po_Version : Z; po_TokenizerID : string; po_Strategy : string; po_TargetTokens : Z; po_OverlapTokens : Z;
  po_ParentTargetTokens : Z; po_ParentOverlapTokens : Z; po_ChildTargetTokens : Z; po_ChildOverlapTokens : Z
}.

Inductive policy_error :=
| NoID | BadVersion | NoTokenizer | SmallTarget (role : string) | BadOverlap (role : string) | ChildNotSmaller | UnknownStrategy.

Definition validateWindow (target overlap : Z) (role : string) : result policy_error unit :=
  if target <? 16 then Err (SmallTarget role)
  else if (overlap <? 0) || (target <=? overlap) then Err (BadOverlap role)
  else Ok tt.

Definition Policy_Validate (p : Policy) : result policy_error unit :=
  if String.eqb (po_ID p) "" then Err NoID
  else if po_Version p <? 1 then Err BadVersion
  else if String.eqb (po_TokenizerID p) "" then Err NoTokenizer
  else if String.eqb (po_Strategy p) StrategyWholeDoc then Ok tt
  else if String.eqb (po_Strategy p) StrategyFixed || String.eqb (po_Strategy p) StrategyStructure then
    validateWindow (po_TargetTokens p) (po_OverlapTokens p) "chunk"
  else if String.eqb (po_Strategy p) StrategyParentChild then
    do _ <- validateWindow (po_ParentTargetTokens p) (po_ParentOverlapTokens p) "parent" ;
    do _ <- validateWindow (po_ChildTargetTokens p) (po_ChildOverlapTokens p) "child" ;
    if po_ParentTargetTokens p <=? po_ChildTargetTokens p then Err ChildNotSmaller else Ok tt
  else Err UnknownStrategy.

Definition MeetsBaseline (p : Policy) : bool :=
  if String.eqb (po_Strategy p) StrategyFixed || String.eqb (po_Strategy p) StrategyStructure then
    (po_TargetTokens p =? BaselineTargetTokens) && (BaselineOverlapTokens <=? po_OverlapTokens p)
  else if String.eqb (po_Strategy p) StrategyParentChild then
    (0 <? po_ChildTargetTokens p) && (Z.quot BaselineOverlapTokens 2 <=? po_ChildOverlapTokens p) && (BaselineTargetTokens <=? po_ParentTargetTokens p)
  else false.

Definition BaselinePolicy : Policy :=
  MkPolicy PolicyID BaselineVersion TokenizerID StrategyFixed BaselineTargetTokens BaselineOverlapTokens 0 0 0 0.
Definition NaivePolicy : Policy := MkPolicy PolicyID BaselineVersion TokenizerID StrategyWholeDoc 0 0 0 0 0 0.
Definition StructurePolicy : Policy :=
  MkPolicy PolicyID BaselineVersion TokenizerID StrategyStructure BaselineTargetTokens BaselineOverlapTokens 0 0 0 0.
Definition ParentChildPolicy : Policy := MkPolicy PolicyID BaselineVersion TokenizerID StrategyParentChild 0 0 1000 100 125 25.
Definition EvalStrategies : list Policy := [NaivePolicy; BaselinePolicy; StructurePolicy; ParentChildPolicy].

(** ** chunk.go: spans *)

Record span := MkSpan { sp_start : nat; sp_end : nat }.

(** The window loop: at most [target] tokens, the next window [overlap] tokens before the end. *)
Fixpoint windows (fuel : nat) (toks : list Token) (target overlap i : nat) : list span :=
  match fuel with
  | O => []
  | S fuel' =>
      let n := length toks in
      let j := Nat.min (i + target) n in
      match toks !! i, toks !! (j - 1)%nat with
      | Some a, Some b =>
          MkSpan (tk_Start a) (tk_End b) ::
          (if (j =? n)%nat then []
           else let next := (j - overlap)%nat in
                windows fuel' toks target overlap (if (next <=? i)%nat then S i else next))
      | _, _ => []
      end
  end.

Definition fixedSpans (src : string) (target overlap : nat) : list span :=
  let toks := Tokenize src in
  let overlap := if (target <=? overlap)%nat then (target - 1)%nat else overlap in
  if (length toks =? 0)%nat then [] else windows (length toks) toks target overlap 0.

Definition shiftSpans (spans : list span) (by_ : nat) : list span := (fun sp => MkSpan (sp_start sp + by_) (sp_end sp + by_)) <$> spans.

(** Lines without their newline; no empty line after a final newline. *)
Fixpoint line_loop (start i : nat) (s : string) : list span :=
  match s with
  | EmptyString => if (start <? i)%nat then [MkSpan start i] else []
  | String c s' => if Ascii.eqb c "010" then MkSpan start i :: line_loop (S i) (S i) s' else line_loop start (S i) s'
  end.

Definition lineSpans (src : string) : list span := line_loop 0 0 src.

Definition text_of (src : string) (sp : span) : string := slice src (sp_start sp) (sp_end sp).

Definition nonEmptyLineSpans (src : string) (b : span) : list span :=
  let lines := lineSpans (text_of src b) in
  shiftSpans (List.filter (fun ln => negb (CountTokens (text_of (text_of src b) ln) =? 0)%nat) lines) (sp_start b).

Fixpoint dedupe_from (previous : option span) (spans : list span) : list span :=
  match spans with
  | [] => []
  | sp :: rest =>
      if (sp_end sp <=? sp_start sp)%nat then dedupe_from previous rest
      else if match previous with Some p => (sp_start p <=? sp_start sp)%nat && (sp_end sp <=? sp_end p)%nat | None => false end
      then dedupe_from previous rest
      else sp :: dedupe_from (Some sp) rest
  end.

Definition dedupeSpans (spans : list span) : list span := dedupe_from None spans.

(** ** chunk.go: packing blocks *)

Record blockRef := MkRef { br_sp : span; br_toks : nat }.

Definition block_refs (src : string) (blocks : list span) : list blockRef :=
  List.filter (fun r => negb (br_toks r =? 0)%nat) ((fun b => MkRef b (CountTokens (text_of src b))) <$> blocks).

(** How many of the blocks that follow fit: all that keep the sum within [target]; the first always does. *)
Fixpoint fit (target tok : nat) (first : bool) (refs : list blockRef) : nat :=
  match refs with
  | [] => 0
  | r :: rest =>
      if (target <? br_toks r)%nat then 0
      else if (target <? tok + br_toks r)%nat && negb first then 0
      else S (fit target (tok + br_toks r) false rest)
  end.

(** How many trailing blocks of a chunk are carried over: [trailing] lists them from the last. *)
Fixpoint carried (target overlap count carry : nat) (trailing : list blockRef) : nat :=
  match trailing with
  | [] => count
  | r :: rest =>
      if (overlap <=? carry)%nat then count
      else if (Nat.div2 target <? carry + br_toks r)%nat then 0
      else carried target overlap (S count) (carry + br_toks r) rest
  end.

Section pack.
Context (target overlap : nat) (oversized : span -> list span).

(** One turn of the packing loop: the spans it emits and the number of blocks it moves past. *)
Fixpoint pack_loop (fuel : nat) (refs : list blockRef) : list span :=
  match fuel, refs with
  | S fuel', r :: rest =>
      if (target <? br_toks r)%nat then (oversized (br_sp r) ++ pack_loop fuel' rest)%list
      else
        let j := fit target 0 true refs in
        let chunk := take j refs in
        let emitted := MkSpan (sp_start (br_sp r)) (sp_end (br_sp (default r (last chunk)))) in
        if (j =? length refs)%nat then [emitted]
        else emitted :: pack_loop fuel' (drop (j - carried target overlap 0 0 (reverse (drop 1 chunk))) refs)
  | _, _ => []
  end.
End pack.

Definition packBlocks (src : string) (blocks : list span) (target overlap : nat) (oversized : span -> list span) : list span :=
  let refs := block_refs src blocks in
  dedupeSpans (pack_loop target overlap oversized (length refs) refs).

Definition token_split (src : string) (target overlap : nat) (b : span) : list span :=
  shiftSpans (fixedSpans (text_of src b) target overlap) (sp_start b).

Definition oversizedSplitter (src kind : string) (target overlap : nat) (b : span) : list span :=
  if String.eqb kind KindTable then packBlocks src (nonEmptyLineSpans src b) target overlap (token_split src target overlap)
  else token_split src target overlap b.

(** ** chunk.go: block boundaries *)

(** The state of the boundary loops: finished blocks, the lines of the open one, and the flag of the kind. *)
Record block_state := MkBlocks { bs_blocks : list span; bs_cur : list span; bs_flag : bool }.

Definition flush (st : block_state) : block_state :=
  match bs_cur st, last (bs_cur st) with
  | a :: _, Some b => MkBlocks (bs_blocks st ++ [MkSpan (sp_start a) (sp_end b)]) [] (bs_flag st)
  | _, _ => MkBlocks (bs_blocks st) [] (bs_flag st)
  end.

Definition add_line (ln : span) (st : block_state) : block_state := MkBlocks (bs_blocks st) (bs_cur st ++ [ln]) (bs_flag st).
Definition set_flag (b : bool) (st : block_state) : block_state := MkBlocks (bs_blocks st) (bs_cur st) b.

Definition run_blocks (step : block_state -> span -> block_state) (lines : list span) : list span :=
  bs_blocks (flush (fold_left step lines (MkBlocks [] [] false))).

Definition trimmed (src : string) (ln : span) : string := trim_space (text_of src ln).

Definition prose_step (src : string) (st : block_state) (ln : span) : block_state :=
  let t := trimmed src ln in
  if String.eqb t "" then flush st
  else add_line ln (if has_prefix "#" t && negb (length (bs_cur st) =? 0)%nat then flush st else st).

Definition code_step (src : string) (st : block_state) (ln : span) : block_state :=
  let t := trimmed src ln in
  if has_prefix "```" t then
    if bs_flag st then set_flag false (flush (add_line ln st)) else add_line ln (set_flag true (flush st))
  else if bs_flag st then add_line ln st
  else if String.eqb t "" then flush st
  else add_line ln st.

Definition table_step (src : string) (st : block_state) (ln : span) : block_state :=
  let t := trimmed src ln in
  let row := has_prefix "|" t in
  let st' := if Bool.eqb row (bs_flag st) then st else set_flag row (flush st) in
  if negb (bs_flag st') && String.eqb t "" then flush st' else add_line ln st'.

(** [^-{3,}$] *)
Definition slideSeparator (t : string) : bool := (3 <=? String.length t)%nat && negb (existsb (fun c => negb (Ascii.eqb c "-")) (list_ascii_of_string t)).

Definition slide_step (src : string) (st : block_state) (ln : span) : block_state :=
  let t := trimmed src ln in
  if slideSeparator t then flush st else if String.eqb t "" then st else add_line ln st.

(** [[\p{L}\p{N}_ .'\-]{0,31}:( |$)] at the current rune: a colon is in neither class, so there is one way to match. *)
Fixpoint speaker_rest `{RuneTables} (n : nat) (ps : list piece) : bool :=
  match ps with
  | [] => false
  | p :: rest =>
      if p_rune p =? 58 then match rest with [] => true | q :: _ => p_rune q =? 32 end
      else match n with
      | O => false
      | S n' => (letter_or_number (p_rune p) || existsb (Z.eqb (p_rune p)) [95; 32; 46; 39; 45]) && speaker_rest n' rest
      end
  end.

Definition chatTurn `{RuneTables} (t : string) : bool :=
  match pieces t with
  | p :: rest => (letter_or_number (p_rune p) || (p_rune p =? 95)) && speaker_rest 31 rest
  | [] => false
  end.

Definition chat_step `{RuneTables} (src : string) (st : block_state) (ln : span) : block_state :=
  let t := trimmed src ln in
  if String.eqb t "" then flush st else add_line ln (if chatTurn t then flush st else st).

Definition block_step `{RuneTables} (src kind : string) : block_state -> span -> block_state :=
  if String.eqb kind KindCode then code_step src
  else if String.eqb kind KindTable then table_step src
  else if String.eqb kind KindSlides then slide_step src
  else if String.eqb kind KindChat then chat_step src
  else prose_step src.

Definition splitBlocks `{RuneTables} (src kind : string) : list span := run_blocks (block_step src kind) (lineSpans src).

Definition structureSpans `{RuneTables} (src kind : string) (target overlap : nat) : list span :=
  packBlocks src (splitBlocks src kind) target overlap (oversizedSplitter src kind target overlap).

(** ** chunk.go: receipts *)

Definition RoleChunk : string := "chunk".
Definition RoleParent : string := "parent".

Record SourceDocument := MkDocument { sd_ID : string; sd_Title : string; sd_Body : string; sd_SourceURI : string; sd_Kind : string }.

Definition newlines : string := String "010" (String "010" "").

Definition Source_of (d : SourceDocument) : string :=
  let title := trim_space (sd_Title d) in
  let body := trim_space (sd_Body d) in
  if String.eqb title "" then body else if String.eqb body "" then title else title ++ newlines ++ body.

Record Receipt := MkReceipt {
  cr_ChunkID : string; cr_DocumentID : string; cr_ParentID : string; cr_Role : string; cr_Kind : string; cr_Strategy : string; cr_PolicyID : string;
  cr_PolicyVersion : Z; cr_TokenizerID : string; cr_Seq : nat; cr_Start : nat; cr_End : nat; cr_Tokens : nat; cr_SHA256 : string; cr_Text : string
}.

Section receipts.
Context `{GoRuntime} `{RuneTables}.

Definition id_prefix (p : Policy) (role : string) : string :=
  if String.eqb role RoleParent then "p" else if String.eqb (po_Strategy p) StrategyParentChild then "c" else "".

Definition chunk_id (docID : string) (p : Policy) (role : string) (seq : nat) : string :=
  docID ++ "#" ++ po_Strategy p ++ ".v" ++ dec (po_Version p) ++ "." ++ id_prefix p role ++ dec (Z.of_nat seq).

Definition make_receipt (docID kind src : string) (p : Policy) (role : string) (seq : nat) (sp : span) (toks : list Token) (first last_ : Token) : Receipt :=
  let start := (sp_start sp + tk_Start first)%nat in
  let end_ := (sp_start sp + tk_End last_)%nat in
  let text := slice src start end_ in
  MkReceipt (chunk_id docID p role seq) docID "" role kind (po_Strategy p) (po_ID p) (po_Version p) (po_TokenizerID p) seq start end_ (length toks)
    (sha256_hex text) text.

Fixpoint receipts_loop (docID kind src : string) (p : Policy) (role : string) (seq : nat) (spans : list span) : list Receipt :=
  match spans with
  | [] => []
  | sp :: rest =>
      let toks := Tokenize (text_of src sp) in
      match head toks, last toks with
      | Some first, Some last_ => make_receipt docID kind src p role seq sp toks first last_ :: receipts_loop docID kind src p role (S seq) rest
      | _, _ => receipts_loop docID kind src p role seq rest
      end
  end.

Definition receiptsFor (docID kind src : string) (spans : list span) (p : Policy) (role : string) : list Receipt :=
  receipts_loop docID kind src p role 0 spans.

Definition overlap_of (child parent : Receipt) : Z :=
  Z.of_nat (Nat.min (cr_End child) (cr_End parent)) - Z.of_nat (Nat.max (cr_Start child) (cr_Start parent)).

(** The parent with the largest positive overlap, the first among equals. *)
Fixpoint best_parent (child : Receipt) (best : option Receipt) (bestOverlap : Z) (parents : list Receipt) : option Receipt :=
  match parents with
  | [] => best
  | q :: rest => if bestOverlap <? overlap_of child q then best_parent child (Some q) (overlap_of child q) rest else best_parent child best bestOverlap rest
  end.

Definition set_parent (c : Receipt) (parent : string) : Receipt :=
  MkReceipt (cr_ChunkID c) (cr_DocumentID c) parent (cr_Role c) (cr_Kind c) (cr_Strategy c) (cr_PolicyID c) (cr_PolicyVersion c) (cr_TokenizerID c)
    (cr_Seq c) (cr_Start c) (cr_End c) (cr_Tokens c) (cr_SHA256 c) (cr_Text c).

Definition assignParents (parents children : list Receipt) : list Receipt :=
  (fun c => match best_parent c None 0 parents with Some q => set_parent c (cr_ChunkID q) | None => c end) <$> children.

Definition chunk_document (p : Policy) (d : SourceDocument) : list Receipt :=
  let id := trim_space (sd_ID d) in
  let src := Source_of d in
  if String.eqb id "" || String.eqb (trim_space src) "" then []
  else
    let kind := if String.eqb (sd_Kind d) "" then KindProse else sd_Kind d in
    let target := Z.to_nat (po_TargetTokens p) in
    let overlap := Z.to_nat (po_OverlapTokens p) in
    if String.eqb (po_Strategy p) StrategyWholeDoc then receiptsFor id kind src [MkSpan 0 (String.length src)] p RoleChunk
    else if String.eqb (po_Strategy p) StrategyFixed then receiptsFor id kind src (fixedSpans src target overlap) p RoleChunk
    else if String.eqb (po_Strategy p) StrategyStructure then receiptsFor id kind src (structureSpans src kind target overlap) p RoleChunk
    else if String.eqb (po_Strategy p) StrategyParentChild then
      let parents := receiptsFor id kind src (fixedSpans src (Z.to_nat (po_ParentTargetTokens p)) (Z.to_nat (po_ParentOverlapTokens p))) p RoleParent in
      let children := receiptsFor id kind src (fixedSpans src (Z.to_nat (po_ChildTargetTokens p)) (Z.to_nat (po_ChildOverlapTokens p))) p RoleChunk in
      (parents ++ assignParents parents children)%list
    else [].

Definition Chunk (docs : list SourceDocument) (p : Policy) : result policy_error (list Receipt) :=
  do _ <- Policy_Validate p ; Ok (concat (chunk_document p <$> docs)).
End receipts.
