(* ===== verification/ChunkingTokens.v ===== *)
(** * chunking: tokens and slices

    The tokens of a text as the maximal runs of non-space pieces, and how they
    behave when the text is cut at piece boundaries. *)

From Stdlib Require Import Ascii String.
From S2P Require Import Prelude GoString Float64 Runtime TextBound Chunking.
Open Scope string_scope.
Open Scope nat_scope.

(** ** Pieces *)

Definition plen (ps : list piece) : nat := String.length (raw ps).
#[global] Arguments plen : simpl never.

Lemma raw_app a b : raw (a ++ b) = (raw a ++ raw b)%string.
Proof. induction a as [|p a IH]; cbn; [done|]. by rewrite IH, append_assoc. Qed.

Lemma plen_app a b : plen (a ++ b) = plen a + plen b.
Proof. unfold plen. by rewrite raw_app, length_append. Qed.

Lemma plen_cons p a : plen (p :: a) = width p + plen a.
Proof. unfold plen. cbn. by rewrite length_append. Qed.

Lemma plen_nil : plen [] = 0.
Proof. done. Qed.

Lemma plen_pieces s : plen (pieces s) = String.length s.
Proof. unfold plen. by rewrite raw_pieces. Qed.

Lemma pieces_wide s : Forall (fun p => 0 < width p) (pieces s).
Proof.
  induction s as [|s Hs IH] using pieces_ind; [constructor|]. rewrite pieces_nonempty by done. constructor; [|done].
  unfold width. rewrite next_piece_raw by done. rewrite length_str_take. pose proof (step_size_pos s). destruct s; [done|]. cbn. lia.
Qed.

Lemma pieces_drop n s : pieces (str_drop (plen (take n (pieces s))) s) = drop n (pieces s).
Proof.
  revert n. induction s as [|s Hs IH] using pieces_ind; intros n; [by destruct n|]. destruct n as [|n]; [done|].
  rewrite (pieces_nonempty s Hs). cbn [take drop]. rewrite plen_cons. unfold width. rewrite next_piece_raw, length_str_take by done.
  destruct (Nat.le_gt_cases (step_size s) (String.length s)) as [Hle|Hgt].
  - rewrite Nat.min_l by done. rewrite str_drop_add. apply IH.
  - rewrite Nat.min_r by lia. rewrite str_drop_add.
    assert (forall k t, String.length t <= k -> str_drop k t = "") as Hd by (induction k; intros [|c t] Hk; cbn in *; try done; [lia|apply IHk; lia]).
    rewrite (Hd (String.length s) s) by lia. rewrite (Hd (step_size s) s) by lia. by destruct n, (plen (take _ _)).
Qed.

Lemma raw_take k s : raw (take k (pieces s)) = str_take (plen (take k (pieces s))) s.
Proof.
  rewrite <- (raw_pieces s) at 3. rewrite <- (take_drop k (pieces s)) at 3. rewrite raw_app. symmetry. apply str_take_app.
Qed.

(** ** Cutting at boundaries *)

Definition bnd (s : string) (x : nat) : Prop := exists A B, pieces s = (A ++ B)%list /\ plen A = x.

Lemma bnd_0 s : bnd s 0.
Proof. exists [], (pieces s). done. Qed.

Lemma bnd_end s : bnd s (String.length s).
Proof. exists (pieces s), []. by rewrite app_nil_r, plen_pieces. Qed.

Lemma app_split {A} (l1 r1 l2 r2 : list A) : (l1 ++ r1 = l2 ++ r2)%list -> length l1 <= length l2 -> exists m, l2 = (l1 ++ m)%list /\ r1 = (m ++ r2)%list.
Proof.
  revert l2. induction l1 as [|x l1 IH]; intros [|y l2] E Hl; cbn in *; [by exists []|by exists (y :: l2)|lia|].
  injection E as -> E. destruct (IH l2 E ltac:(lia)) as (m & -> & ->). by exists m.
Qed.

(** Pieces are not empty, so a byte offset cuts them in one way. *)
Lemma cut_unique A X A' X' : (A ++ X = A' ++ X')%list -> plen A = plen A' -> Forall (fun p => 0 < width p) (A ++ X) -> A = A' /\ X = X'.
Proof.
  revert A'. induction A as [|p A IH]; intros [|q A'] E Hp Hw; cbn in E; [done| | |].
  - subst X. apply Forall_cons in Hw as [Hq _]. rewrite plen_cons, plen_nil in Hp. lia.
  - subst X'. apply Forall_cons in Hw as [Hq _]. rewrite plen_cons, plen_nil in Hp. lia.
  - injection E as -> E. apply Forall_cons in Hw as [_ Hw]. rewrite !plen_cons in Hp. destruct (IH A' E ltac:(lia) Hw) as [-> ->]. done.
Qed.

(** A slice between two boundaries is decoded like the text around it. *)
Lemma slice_pieces s a b :
  bnd s a -> bnd s b -> a <= b -> exists A M B, pieces s = (A ++ M ++ B)%list /\ plen A = a /\ plen A + plen M = b /\ pieces (slice s a b) = M.
Proof.
  intros (A & X & E1 & Ha) (Y & B & E2 & Hb) Hab.
  assert (exists M, Y = (A ++ M)%list /\ X = (M ++ B)%list) as (M & EY & EX).
  { destruct (Nat.le_gt_cases (length A) (length Y)) as [Hl|Hl]; [eapply app_split; [congruence|done]|].
    destruct (app_split Y B A X ltac:(congruence) ltac:(lia)) as (M & HA & HB). rewrite HA, plen_app in Ha.
    assert (M = []) as ->; [|rewrite app_nil_r in HA; cbn in HB; exists []; rewrite app_nil_r; by subst].
    pose proof (pieces_wide s) as Hw. rewrite E1, HA, !Forall_app in Hw. destruct Hw as [[_ Hw] _]. destruct M as [|p M]; [done|].
    apply Forall_cons in Hw as [Hp _]. rewrite plen_cons in Ha. lia. }
  exists A, M, B. rewrite EX in E1. rewrite EY, plen_app in Hb. split_and!; [done|done|done|].
  assert (pieces (str_drop a s) = (M ++ B)%list) as Hd.
  { pose proof (pieces_drop (length A) s) as Hp. rewrite E1, take_app_length, drop_app_length in Hp. by rewrite <- Ha. }
  unfold slice. replace (b - a) with (plen M) by lia. pose proof (pieces_raw_take (length M) (str_drop a s)) as Hp. pose proof (raw_take (length M) (str_drop a s)) as Hr.
  rewrite Hd, take_app_length in Hp, Hr. by rewrite <- Hr.
Qed.

Lemma bnd_le s x : bnd s x -> x <= String.length s.
Proof. intros (A & B & E & <-). rewrite <- plen_pieces, E, plen_app. lia. Qed.

Lemma length_slice s a b : b <= String.length s -> String.length (slice s a b) = b - a.
Proof. intros Hb. unfold slice. rewrite length_str_take, length_str_drop. lia. Qed.

Lemma bnd_slice s a b x : bnd s a -> bnd s b -> a <= b -> bnd (slice s a b) x -> bnd s (a + x).
Proof.
  intros Ha Hb Hab (P & Q & E & <-). destruct (slice_pieces s a b Ha Hb Hab) as (A & M & B & Es & <- & _ & Em). rewrite Em in E.
  exists (A ++ P)%list, (Q ++ B)%list. rewrite Es, E, plen_app. split; [by rewrite <- !app_assoc|done].
Qed.

(** ** Solid positions: the bytes of non-space runes *)

Definition solid_in (off : nat) (ps : list piece) (x : nat) : Prop :=
  exists A p B, ps = (A ++ p :: B)%list /\ spacep p = false /\ off + plen A <= x < off + plen A + width p.

Definition solid (s : string) (x : nat) : Prop := solid_in 0 (pieces s) x.

Lemma solid_in_shift off k ps x : solid_in (off + k) ps (x + k) <-> solid_in off ps x.
Proof. unfold solid_in. by split; intros (A & p & B & H1 & H2 & H3); exists A, p, B; (split_and!; [done|done|lia|lia]). Qed.

Lemma solid_in_app off a b x : solid_in off (a ++ b) x <-> solid_in off a x \/ solid_in (off + plen a) b x.
Proof.
  split.
  - intros (A & p & B & E & Hs & Hx). destruct (Nat.le_gt_cases (length a) (length A)) as [Hl|Hl].
    + destruct (app_split _ _ _ _ E Hl) as (m & -> & ->). right. exists m, p, B. rewrite plen_app in Hx. split_and!; [done|done|lia|lia].
    + symmetry in E. destruct (app_split _ _ _ _ E ltac:(lia)) as (m & -> & Em). rewrite length_app in Hl. destruct m as [|q m]; [cbn in Hl; lia|].
      cbn in Em. injection Em as -> ->. left. exists A, q, m. split_and!; [done|done|lia|lia].
  - intros [(A & p & B & -> & Hs & Hx)|(A & p & B & -> & Hs & Hx)].
    + exists A, p, (B ++ b)%list. rewrite <- app_assoc. split_and!; [done|done|lia|lia].
    + exists (a ++ A)%list, p, B. rewrite plen_app, <- app_assoc. split_and!; [done|done|lia|lia].
Qed.

Lemma solid_lt s x : solid s x -> x < String.length s.
Proof. intros (A & p & B & E & _ & Hx). rewrite <- plen_pieces, E, plen_app, plen_cons. lia. Qed.

Lemma solid_slice s a b x : bnd s a -> bnd s b -> a <= x < b -> solid s x -> solid (slice s a b) (x - a).
Proof.
  intros Ha Hb Hx Hs. destruct (slice_pieces s a b Ha Hb ltac:(lia)) as (A & M & B & Es & HA & HM & Em). unfold solid in *. rewrite Em. rewrite Es in Hs.
  apply solid_in_app in Hs as [(A' & p & B' & -> & _ & Hp)|[Hs|(A' & p & B' & -> & _ & Hp)]%solid_in_app].
  - rewrite plen_app, plen_cons in HA. lia.
  - apply (solid_in_shift 0 a). cbn. rewrite <- HA in *. by rewrite Nat.sub_add by lia.
  - lia.
Qed.

(** ** Tokens *)

Definition spaces (ps : list piece) : Prop := Forall (fun p => spacep p = true) ps.
Definition word (ps : list piece) : Prop := ps <> [] /\ Forall (fun p => spacep p = false) ps.
Definition word_ends (rest : list piece) : Prop := match rest with [] => True | p :: _ => spacep p = true end.

(** [ts] are the maximal non-space runs of [ps], as intervals from [off]. *)
Inductive tokens_at : nat -> list piece -> list (nat * nat) -> Prop :=
| tokens_end off sp : spaces sp -> tokens_at off sp []
| tokens_word off sp w rest ts :
    spaces sp -> word w -> word_ends rest -> tokens_at (off + plen sp + plen w) rest ts ->
    tokens_at off (sp ++ w ++ rest) ((off + plen sp, off + plen sp + plen w) :: ts).

(** The same by recursion, as [tokenize_loop] computes it. *)
Fixpoint scan (start : option nat) (i : nat) (ps : list piece) : list (nat * nat) :=
  match ps with
  | [] => match start with Some st => [(st, i)] | None => [] end
  | p :: rest =>
      if spacep p then match start with Some st => (st, i) :: scan None (i + width p) rest | None => scan None (i + width p) rest end
      else scan (Some (default i start)) (i + width p) rest
  end.

Definition tok (s : string) (t : nat * nat) : Token := MkToken (slice s t.1 t.2) t.1 t.2.

Lemma tokenize_scan s start i ps : i + plen ps = String.length s -> tokenize_loop s start i ps = tok s <$> scan start i ps.
Proof.
  revert start i. induction ps as [|p ps IH]; intros start i Hl; cbn [tokenize_loop scan].
  - rewrite plen_nil in Hl. destruct start as [st|]; [|done]. cbn. unfold tok. cbn. by replace i with (String.length s) by lia.
  - rewrite plen_cons in Hl. destruct (spacep p); [destruct start as [st|]|]; rewrite IH by lia; done.
Qed.

Lemma scan_spaces off sp rest : spaces sp -> scan None off (sp ++ rest) = scan None (off + plen sp) rest.
Proof.
  intros Hs. revert off. induction Hs as [|p sp Hp _ IH]; intros off; cbn; [by rewrite plen_nil, Nat.add_0_r|].
  rewrite Hp, IH, plen_cons. by rewrite Nat.add_assoc.
Qed.

Lemma scan_open st off w rest :
  Forall (fun p => spacep p = false) w -> word_ends rest -> scan (Some st) off (w ++ rest) = (st, off + plen w) :: scan None (off + plen w) rest.
Proof.
  intros Hw Hr. revert off. induction Hw as [|p w Hp _ IH]; intros off; cbn [app].
  - rewrite plen_nil, Nat.add_0_r. destruct rest as [|q rest]; [done|]. cbn in Hr |- *. by rewrite Hr.
  - cbn [scan default]. rewrite Hp, IH, plen_cons. by rewrite Nat.add_assoc.
Qed.

Lemma tokens_at_scan off ps ts : tokens_at off ps ts -> scan None off ps = ts.
Proof.
  induction 1 as [off sp Hs|off sp w rest ts Hs [Hne Hw] Hr _ IH].
  - rewrite <- (app_nil_r sp). by rewrite scan_spaces.
  - rewrite scan_spaces by done. destruct w as [|p w]; [done|]. apply Forall_cons in Hw as [Hp Hw]. cbn [app scan default]. rewrite Hp.
    rewrite scan_open by done. rewrite <- IH, plen_cons. by rewrite !Nat.add_assoc.
Qed.

Lemma tokens_space off p ps ts : spacep p = true -> tokens_at (off + width p) ps ts -> tokens_at off (p :: ps) ts.
Proof.
  intros Hp Ht. inversion Ht as [? ? Hs|? sp w rest ts' Hs Hw Hr Ht']; subst; [by constructor; constructor|].
  change (p :: sp ++ w ++ rest)%list with ((p :: sp) ++ w ++ rest)%list.
  assert (off + width p + plen sp = off + plen (p :: sp)) as E by (rewrite plen_cons; lia). rewrite E in *. by constructor; [constructor|..].
Qed.

Lemma scan_tokens start off ps :
  match start with
  | None => tokens_at off ps (scan None off ps)
  | Some st => exists w rest, ps = (w ++ rest)%list /\ Forall (fun p => spacep p = false) w /\ word_ends rest /\
      scan (Some st) off ps = (st, off + plen w) :: scan None (off + plen w) rest /\ tokens_at (off + plen w) rest (scan None (off + plen w) rest)
  end.
Proof.
  revert start off. induction ps as [|p ps IH]; intros start off.
  - destruct start as [st|]; [|by constructor; constructor]. exists [], []. rewrite plen_nil, Nat.add_0_r. split_and!; try done. by constructor; constructor.
  - destruct start as [st|].
    + destruct (spacep p) eqn:Hp.
      * exists [], (p :: ps). rewrite plen_nil, Nat.add_0_r. split_and!; try done; [cbn; by rewrite Hp|]. apply tokens_space; [done|]. cbn. rewrite Hp. apply (IH None).
      * destruct (IH (Some st) (off + width p)) as (w & rest & -> & Hw & Hr & E & Ht). exists (p :: w), rest. rewrite plen_cons, Nat.add_assoc.
        split_and!; try done; [by constructor|]. cbn [scan]. rewrite Hp. exact E.
    + destruct (spacep p) eqn:Hp; [apply tokens_space; [done|]; cbn; rewrite Hp; apply (IH None)|].
      destruct (IH (Some off) (off + width p)) as (w & rest & -> & Hw & Hr & E & Ht). cbn [scan default]. rewrite Hp, E.
      replace (off + width p + plen w) with (off + plen [] + plen (p :: w)) in * by (rewrite plen_nil, plen_cons; lia).
      replace off with (off + plen []) at 2 by (rewrite plen_nil; lia). change (p :: w ++ rest)%list with ([] ++ (p :: w) ++ rest)%list.
      constructor; try done; [constructor|]. split; [done|by constructor].
Qed.

Definition intervals (s : string) : list (nat * nat) := scan None 0 (pieces s).

Lemma Tokenize_intervals s : Tokenize s = tok s <$> intervals s.
Proof. unfold Tokenize. apply tokenize_scan. cbn. apply plen_pieces. Qed.

Lemma intervals_tokens s : tokens_at 0 (pieces s) (intervals s).
Proof. apply (scan_tokens None). Qed.

Lemma tokens_shift k off ps ts : tokens_at off ps ts -> tokens_at (off + k) ps ((fun t => (t.1 + k, t.2 + k)) <$> ts).
Proof.
  induction 1 as [off sp Hs|off sp w rest ts Hs Hw Hr _ IH]; [by constructor|]. cbn.
  replace (off + plen sp + plen w + k) with (off + k + plen sp + plen w) in * by lia. replace (off + plen sp + k) with (off + k + plen sp) by lia. by constructor.
Qed.

Definition covers (ts : list (nat * nat)) (x : nat) : Prop := exists t, t ∈ ts /\ t.1 <= x < t.2.

(** The tokens cover exactly the solid positions. *)
Lemma tokens_cover off ps ts x : tokens_at off ps ts -> solid_in off ps x -> covers ts x.
Proof.
  induction 1 as [off sp Hs|off sp w rest ts Hs [_ Hw] Hr _ IH].
  - intros (A & p & B & -> & Hp & _). apply Forall_app in Hs as [_ [Hp' _]%Forall_cons]. congruence.
  - intros [(A & p & B & -> & Hp & _)|[(A & p & B & -> & _ & Hx)|Hs']%solid_in_app]%solid_in_app.
    + apply Forall_app in Hs as [_ [Hp' _]%Forall_cons]. congruence.
    + eexists. split; [left|]. cbn. rewrite plen_app, plen_cons. lia.
    + destruct (IH Hs') as (t & Ht & Hx). exists t. split; [by right|done].
Qed.

(** A cut between tokens: on one side there is nothing or a space. *)
Definition cut (A B : list piece) : Prop := A = [] \/ word_ends B \/ exists p, last A = Some p /\ spacep p = true.

Definition clean (s : string) (x : nat) : Prop := exists A B, pieces s = (A ++ B)%list /\ plen A = x /\ cut A B.

Lemma clean_bnd s x : clean s x -> bnd s x.
Proof. intros (A & B & E & HA & _). by exists A, B. Qed.

Lemma clean_0 s : clean s 0.
Proof. exists [], (pieces s). split_and!; [done..|by left]. Qed.

Lemma clean_end s : clean s (String.length s).
Proof. exists (pieces s), []. rewrite app_nil_r, plen_pieces. split_and!; [done..|right; by left]. Qed.

Lemma spaces_cut sp B : spaces sp -> cut sp B.
Proof.
  intros Hs. destruct (last sp) as [p|] eqn:E; [|apply last_None in E; by left]. right; right. exists p. split; [done|].
  apply last_Some_elem_of in E. unfold spaces in Hs. rewrite Forall_forall in Hs. by apply Hs.
Qed.

Lemma cut_prefix X A B : cut A B -> (A = [] -> cut X B) -> cut (X ++ A) B.
Proof.
  intros Hc HX. destruct (last A) as [q|] eqn:E; [|apply last_None in E; subst; rewrite app_nil_r; by apply HX].
  destruct Hc as [-> |[Hc|(p & Hp & Hs)]]; [done|right; by left|right; right]. exists p. split; [|done]. rewrite last_app, Hp. done.
Qed.

Lemma tokens_bounds off ps ts :
  Forall (fun p => 0 < width p) ps -> tokens_at off ps ts ->
  Forall (fun t => (exists A B, ps = (A ++ B)%list /\ t.1 = off + plen A /\ cut A B) /\ (exists A B, ps = (A ++ B)%list /\ t.2 = off + plen A /\ cut A B) /\ t.1 < t.2) ts /\
  StronglySorted (fun t u => t.2 <= u.1) ts.
Proof.
  intros Hw Ht. induction Ht as [off sp Hs|off sp w rest ts Hs [Hne Hsw] Hr Ht IH]; [by split; constructor|].
  apply Forall_app in Hw as [_ [Hww Hwr]%Forall_app]. destruct (IH Hwr) as [Hb Hsort]. split; constructor.
  - cbn. split_and!.
    + exists sp, (w ++ rest)%list. split_and!; [done..|by apply spaces_cut].
    + exists (sp ++ w)%list, rest. rewrite <- app_assoc, plen_app. split_and!; [done|lia|right; by left].
    + destruct w as [|p w]; [done|]. apply Forall_cons in Hww as [Hp _]. rewrite plen_cons. lia.
  - assert (forall A B, rest = (A ++ B)%list -> cut A B -> cut ((sp ++ w) ++ A) B) as Hcut.
    { intros A B -> Hc. apply cut_prefix; [done|]. intros ->. right; by left. }
    eapply Forall_impl; [exact Hb|]. intros t ((A & B & E1 & E2 & E3) & (A' & B' & E4 & E5 & E6) & Hlt). cbn. split_and!; [| |done].
    + exists ((sp ++ w) ++ A)%list, B. split_and!; [by rewrite E1, <- !app_assoc|rewrite !plen_app; lia|by apply Hcut].
    + exists ((sp ++ w) ++ A')%list, B'. split_and!; [by rewrite E4, <- !app_assoc|rewrite !plen_app; lia|by apply Hcut].
  - done.
  - eapply Forall_impl; [exact Hb|]. intros t ((A & B & E1 & E2 & _) & _). cbn. lia.
Qed.

Lemma interval_bounds s t : t ∈ intervals s -> clean s t.1 /\ clean s t.2 /\ t.1 < t.2.
Proof.
  intros Ht. destruct (tokens_bounds 0 _ _ (pieces_wide s) (intervals_tokens s)) as [Hb _]. rewrite Forall_forall in Hb.
  destruct (Hb t Ht) as ((A & B & E1 & E2 & E3) & (A' & B' & E4 & E5 & E6) & Hlt). split_and!; [by exists A, B|by exists A', B'|done].
Qed.

Lemma clean_slice s a b x : clean s a -> clean s b -> a <= b -> clean (slice s a b) x -> clean s (a + x).
Proof.
  intros Ha Hb Hab (P & Q & E & HP & Hc). destruct P as [|p P]; [rewrite <- HP, plen_nil, Nat.add_0_r; done|]. destruct Q as [|q Q].
  - rewrite app_nil_r in E. rewrite <- HP, <- E, plen_pieces, length_slice by (by apply bnd_le, clean_bnd). by replace (a + (b - a)) with b by lia.
  - destruct (slice_pieces s a b) as (A & M & B & Es & <- & _ & Em); [by apply clean_bnd..|done|]. rewrite Em in E. subst M x.
    exists (A ++ p :: P)%list, (q :: Q ++ B)%list. rewrite Es, plen_app, <- app_assoc. split_and!; [by rewrite <- app_assoc|done|].
    apply cut_prefix; [|done]. destruct Hc as [|[Hq|Hp]]; [done|right; by left|right; by right].
Qed.

(** Tokens on either side of a clean cut do not touch. *)
Lemma scan_app start off A B :
  (A = [] -> start = None \/ word_ends B) -> cut A B -> scan start off (A ++ B) = (scan start off A ++ scan None (off + plen A) B)%list.
Proof.
  revert start off. induction A as [|p A IH]; intros start off Hst Hc; cbn [app].
  - rewrite plen_nil, Nat.add_0_r. destruct (Hst eq_refl) as [-> |Hw]; [done|]. destruct start as [st|]; [|done]. destruct B as [|q B]; [done|]. cbn in Hw |- *. by rewrite Hw.
  - cbn [scan]. rewrite plen_cons, Nat.add_assoc.
    assert (spacep p = true \/ (A = [] -> word_ends B)) as Hp.
    { destruct A as [|q A]; [|by right]. destruct Hc as [|[Hw|(q & [= ->] & Hq)]]; [done|by right|by left]. }
    assert (cut A B) as Hc'.
    { destruct A as [|q A]; [by left|]. destruct Hc as [|[Hw|(r & Hr & Hq)]]; [done|right; by left|right; right; exists r; split; [by rewrite last_cons_cons in Hr|done]]. }
    destruct (spacep p) eqn:Es; [destruct start|]; rewrite IH; try done; intros EA; first [by left|right; destruct Hp as [|Hp]; [done|by apply Hp]].
Qed.

Lemma length_scan_shift k off ps : length (scan None (off + k) ps) = length (scan None off ps).
Proof. rewrite (tokens_at_scan (off + k) ps _ (tokens_shift k _ _ _ (scan_tokens None off ps))). by rewrite length_fmap. Qed.

(** ** Cutting a window of tokens out of a text *)

Lemma tokens_suffix off ps T1 t T2 :
  tokens_at off ps (T1 ++ t :: T2) -> exists A B, ps = (A ++ B)%list /\ t.1 = off + plen A /\ tokens_at (off + plen A) B (t :: T2).
Proof.
  revert off ps. induction T1 as [|u T1 IH]; intros off ps Ht; inversion Ht as [|? sp w rest ts Hs Hw Hr Ht']; subst.
  - exists sp, (w ++ rest)%list. split_and!; [done|done|]. pose proof (tokens_word (off + plen sp) [] w rest T2 (Forall_nil_2 _) Hw Hr) as Hn.
    rewrite plen_nil, Nat.add_0_r in Hn. by apply Hn.
  - destruct (IH _ _ Ht') as (A & B & -> & E & Hab). exists (sp ++ w ++ A)%list, B. rewrite <- !app_assoc, !plen_app. split_and!; [done|lia|].
    by replace (off + (plen sp + (plen w + plen A))) with (off + plen sp + plen w + plen A) by lia.
Qed.

Lemma tokens_prefix off ps M T2 :
  M <> [] -> tokens_at off ps (M ++ T2) -> exists B C, ps = (B ++ C)%list /\ Some (off + plen B) = snd <$> last M /\ tokens_at off B M.
Proof.
  revert off ps. induction M as [|t M IH]; intros off ps Hne Ht; [done|]. inversion Ht as [|? sp w rest ts Hs Hw Hr Ht']; subst.
  destruct M as [|u M].
  - exists (sp ++ w)%list, rest. rewrite <- app_assoc, plen_app, Nat.add_assoc. split_and!; [done|done|].
    rewrite <- (app_nil_r w) at 1. constructor; [done..|]. by constructor; constructor.
  - destruct (IH _ _ ltac:(done) Ht') as (B & C & -> & E & Hb). exists (sp ++ w ++ B)%list, C. rewrite <- !app_assoc, !plen_app. split_and!; [done| |].
    + rewrite last_cons_cons, <- E. f_equal. lia.
    + constructor; [done|done| |done]. destruct B as [|p B]; [|exact Hr]. inversion Hb as [|? sp' w' ? ? ? [Hw' _]]; subst. by destruct sp', w'.
Qed.

(** The text from the start of one token to the end of another has exactly the tokens between. *)
Lemma window_tokens s T1 M T2 a b :
  intervals s = (T1 ++ M ++ T2)%list -> fst <$> head M = Some a -> snd <$> last M = Some b ->
  clean s a /\ clean s b /\ a < b /\ (fun t => (t.1 + a, t.2 + a)) <$> intervals (slice s a b) = M.
Proof.
  intros E Ha Hb. pose proof (intervals_tokens s) as Ht. rewrite E in Ht. destruct M as [|t M]; [done|]. cbn in Ha. injection Ha as Ha.
  destruct (tokens_suffix _ _ _ _ _ Ht) as (A & X & Es & Et & Hx). rewrite Ha in Et. cbn [plus] in Et, Hx.
  destruct (tokens_prefix _ _ (t :: M) T2 ltac:(done) Hx) as (B & C & -> & El & Hb'). rewrite Hb in El. injection El as El.
  assert (bnd s a) as H1 by (by exists A, (B ++ C)%list).
  assert (bnd s b) as H2 by (exists (A ++ B)%list, C; rewrite <- app_assoc, plen_app; by split).
  assert (a < b) as Hab.
  { destruct (tokens_bounds _ _ _ (pieces_wide s) (intervals_tokens s)) as [Hbd Hso]. rewrite E in Hbd, Hso. rewrite Forall_forall in Hbd.
    destruct (last (t :: M)) as [u|] eqn:Eu; [|done]. injection Hb as <-. apply last_Some_elem_of in Eu.
    destruct (Hbd u) as (_ & _ & Hlt); [set_solver|]. destruct (Hbd t) as (_ & _ & Hlt'); [set_solver|].
    apply elem_of_cons in Eu as [->|Eu]; [lia|]. apply StronglySorted_app_1_r in Hso. cbn in Hso. inversion Hso as [|? ? _ Hf]; subst.
    rewrite Forall_forall in Hf. specialize (Hf u ltac:(set_solver)). lia. }
  assert (clean s a /\ clean s b) as [Hca Hcb].
  { destruct (last (t :: M)) as [u|] eqn:Eu; [|done]. injection Hb as <-. subst a. apply last_Some_elem_of in Eu.
    split; [apply (interval_bounds s t)|apply (interval_bounds s u)]; rewrite E; set_solver. }
  split_and!; [done..|]. destruct (slice_pieces s a b H1 H2 ltac:(lia)) as (A' & M' & B' & Es' & HA' & HM' & Em).
  assert (M' = B) as ->.
  { destruct (cut_unique A' (M' ++ B') A (B ++ C)) as [-> E2]; [congruence|lia|rewrite <- Es'; apply pieces_wide|].
    destruct (cut_unique M' B' B C) as [-> _]; [done|lia| |done]. pose proof (pieces_wide s) as Hw. rewrite Es' in Hw. by apply Forall_app in Hw as [_ Hw]. }
  unfold intervals. rewrite Em. etrans; [|exact (tokens_at_scan _ _ _ Hb')]. symmetry. apply tokens_at_scan. rewrite <- Et.
  apply (tokens_shift a 0). apply (scan_tokens None).
Qed.

(** [CountTokens] counts the tokens of [Tokenize]. *)
Lemma fields_scan cur ps i st :
  Forall (fun p => 0 < width p) ps -> length (fields_by spacep cur ps) = length (scan (if String.eqb cur "" then None else Some st) i ps).
Proof.
  revert cur i st. induction ps as [|p ps IH]; intros cur i st Hw; cbn [fields_by scan]; [by destruct (String.eqb cur "")|].
  apply Forall_cons in Hw as [Hp Hw]. destruct (spacep p).
  - destruct (String.eqb cur ""); cbn; [|f_equal]; by apply (IH "" _ 0).
  - rewrite (IH _ (i + width p) (default i (if String.eqb cur "" then None else Some st)) Hw).
    rewrite (proj2 (String.eqb_neq _ _)); [done|]. unfold width in Hp. by destruct cur, (p_raw p); cbn in *; try lia.
Qed.

Lemma CountTokens_spec s : CountTokens s = length (intervals s).
Proof. unfold CountTokens, intervals. apply (fields_scan "" (pieces s) 0 0 (pieces_wide s)). Qed.

(** Counting tokens adds up over clean cuts. *)
Lemma CountTokens_split s a b c :
  clean s a -> clean s b -> clean s c -> a <= b <= c -> CountTokens (slice s a c) = CountTokens (slice s a b) + CountTokens (slice s b c).
Proof.
  intros Ha Hb Hc Habc. rewrite !CountTokens_spec. unfold intervals.
  destruct (slice_pieces s a b) as (A & M & B & Es & HA & HM & ->); [by apply clean_bnd..|lia|].
  destruct (slice_pieces s b c) as (A' & M' & B' & Es' & HA' & HM' & ->); [by apply clean_bnd..|lia|].
  destruct (slice_pieces s a c) as (A2 & M2 & B2 & Es2 & HA2 & HM2 & ->); [by apply clean_bnd..|lia|].
  destruct Hb as (P & Q & Ep & HP & Hcut). pose proof (pieces_wide s) as Hw.
  destruct (cut_unique (A ++ M) B P Q) as [<- <-]; [rewrite <- app_assoc; congruence|rewrite plen_app; lia|by rewrite <- app_assoc, <- Es|].
  destruct (cut_unique A' (M' ++ B') (A ++ M) B) as [-> <-]; [rewrite <- app_assoc; congruence|lia|by rewrite <- Es'|].
  destruct (cut_unique A2 (M2 ++ B2) A (M ++ M' ++ B')) as [-> E2]; [congruence|lia|by rewrite <- Es2|].
  destruct (cut_unique M2 B2 (M ++ M') B') as [-> _]; [by rewrite <- app_assoc|rewrite !plen_app in *; lia|rewrite Es2 in Hw; by apply Forall_app in Hw as [_ Hw]|].
  rewrite scan_app; [rewrite length_app; f_equal; apply (length_scan_shift (plen M) 0)|by left|].
  destruct M as [|m M]; [by left|]. destruct Hcut as [|[Hq|(p & Hp & Hq)]]; [by destruct A|right; left; by destruct M'|right; right].
  exists p. split; [|done]. rewrite last_app in Hp. destruct (last (m :: M)) eqn:El; [done|]. by apply last_None in El.
Qed.

Lemma interval_solid s t : t ∈ intervals s -> solid s t.1.
Proof.
  assert (forall off ps ts, tokens_at off ps ts -> Forall (fun p => 0 < width p) ps -> t ∈ ts -> solid_in off ps t.1) as Hgen; [|by apply Hgen; [apply intervals_tokens|apply pieces_wide]].
  intros off ps ts Ht Hw.
  induction Ht as [off sp Hs|off sp w rest ts Hs [Hne Hsw] Hr Ht IH]; [set_solver|]. apply Forall_app in Hw as [_ [Hww Hwr]%Forall_app]. rewrite !solid_in_app.
  intros [-> |Hin]%elem_of_cons; [|right; right; by apply IH]. right; left. destruct w as [|p w]; [done|]. exists [], p, w. rewrite plen_nil. cbn.
  apply Forall_cons in Hww as [Hp _], Hsw as [Hsp _]. split_and!; [done..|lia|lia].
Qed.

Lemma CountTokens_zero s : (forall x, ~ solid s x) -> CountTokens s = 0.
Proof. intros Hn. rewrite CountTokens_spec. destruct (intervals s) as [|t ts] eqn:E; [done|]. exfalso. apply (Hn t.1), interval_solid. rewrite E. left. Qed.

Lemma slice_solid s a b x : bnd s a -> bnd s b -> a <= b -> solid (slice s a b) x -> solid s (a + x) /\ x < b - a.
Proof.
  intros Ha Hb Hab Hx. pose proof (solid_lt _ _ Hx) as Hlt. rewrite length_slice in Hlt by (by apply bnd_le). split; [|done].
  destruct (slice_pieces s a b Ha Hb Hab) as (A & M & B & Es & HA & HM & Em). unfold solid in *. rewrite Em in Hx. rewrite Es, !solid_in_app. right; left.
  rewrite <- HA. cbn. rewrite Nat.add_comm. by apply (solid_in_shift 0 (plen A)).
Qed.

(** ** Newlines *)

Definition NL : ascii := "010"%char.

Lemma piece_stops_before_newline a pre post : step_size (String a pre ++ String NL post) <= S (String.length pre).
Proof.
  assert (cont NL = false) as H0 by reflexivity. assert (forall x, second3 x NL = false) as H3 by (intros x; unfold second3; by repeat case_match).
  assert (forall x, second4 x NL = false) as H4 by (intros x; unfold second4; by repeat case_match).
  unfold step_size, utf8_size. destruct pre as [|b [|c [|d pre]]]; cbn [append String.length]; repeat case_match; try lia;
    rewrite ?H0, ?H3, ?H4 in *; try rewrite andb_false_r in *; discriminate.
Qed.

Lemma str_drop_app_le n t u : n <= String.length t -> str_drop n (t ++ u) = (str_drop n t ++ u)%string.
Proof. revert t. induction n as [|n IH]; intros t Hn; [done|]. destruct t; cbn in *; [lia|]. apply IH. lia. Qed.

(** A newline is a piece of its own, so a text may be cut on either side of it. *)
Lemma newline_cuts pre post :
  exists A p, pieces (pre ++ String NL post) = (A ++ p :: pieces post)%list /\ plen A = String.length pre /\ spacep p = true /\ width p = 1.
Proof.
  remember (pre ++ String NL post)%string as s eqn:Es. revert pre Es. induction s as [|s Hs IH] using pieces_ind; intros pre Es; [by destruct pre|].
  rewrite pieces_nonempty by done. destruct pre as [|a pre].
  - subst s. cbn [append]. exists [], (next_piece (String NL post)). split_and!; try done.
  - pose proof (piece_stops_before_newline a pre post) as Hst. rewrite <- Es in Hst.
    destruct (IH (str_drop (step_size s) (String a pre))) as (A & p & E & HA & Hp); [rewrite Es at 2; by apply str_drop_app_le|].
    exists (next_piece s :: A), p. rewrite E, plen_cons. split_and!; [done| |apply Hp..]. unfold width. rewrite next_piece_raw, length_str_take by done.
    rewrite HA, length_str_drop. rewrite Es at 2. cbn [append String.length]. rewrite length_append. cbn [String.length]. lia.
Qed.
