(* ===== verification/ChunkingCover.v ===== *)
(** * chunking: spans, receipts and what they cover

    Spans cut the source at piece boundaries; the window loop holds every
    passage of up to [overlap + 1] tokens whole; packing keeps what its blocks
    hold; a receipt is the part of its span between the first and the last
    token. *)

From Stdlib Require Import Ascii String.
From S2P Require Import Prelude GoString Float64 Runtime TextBound Chunking ChunkingTokens.
Open Scope string_scope.
Open Scope nat_scope.

(** ** Spans *)

Definition good (src : string) (sp : span) : Prop := clean src (sp_start sp) /\ clean src (sp_end sp) /\ sp_start sp <= sp_end sp.

Lemma solid_text src sp x : good src sp -> sp_start sp <= x < sp_end sp -> solid src x -> solid (text_of src sp) (x - sp_start sp).
Proof. intros (Ha & Hb & _). by apply solid_slice; apply clean_bnd. Qed.

Definition within (sp : span) (u v : nat) : Prop := sp_start sp <= u /\ v <= sp_end sp.

(** Some span of the list holds the bytes from [u] to [v]. *)
Definition holds (spans : list span) (u v : nat) : Prop := exists sp, sp ∈ spans /\ within sp u v.

Lemma holds_app l1 l2 u v : holds (l1 ++ l2) u v <-> holds l1 u v \/ holds l2 u v.
Proof. unfold holds. setoid_rewrite elem_of_app. naive_solver. Qed.

Lemma holds_cons sp l u v : holds (sp :: l) u v <-> within sp u v \/ holds l u v.
Proof. unfold holds. setoid_rewrite elem_of_cons. naive_solver. Qed.

Lemma holds_shift l k u v : holds l u v -> holds (shiftSpans l k) (u + k) (v + k).
Proof.
  intros (sp & Hsp & Hw). exists (MkSpan (sp_start sp + k) (sp_end sp + k)). split; [|unfold within in *; cbn; lia].
  apply list_elem_of_fmap. by exists sp.
Qed.

Lemma slice_slice s a b c d : d <= b - a -> slice (slice s a b) c d = slice s (a + c) (a + d).
Proof.
  intros Hd. unfold slice. rewrite str_drop_add. replace (a + d - (a + c)) with (d - c) by lia. generalize (str_drop a s). intros t.
  assert (forall n m t, n <= m -> str_take n (str_take m t) = str_take n t) as Htt.
  { induction n as [|n IH]; intros m u Hm; [done|]. destruct m as [|m]; [lia|]. destruct u; cbn; [done|]. by rewrite IH by lia. }
  assert (forall n m t, str_drop n (str_take m t) = str_take (m - n) (str_drop n t)) as Hdt.
  { induction n as [|n IH]; intros m u; [by rewrite Nat.sub_0_r|]. destruct m as [|m], u; cbn; [done..| |apply IH]. by destruct (m - n). }
  rewrite Hdt. apply Htt. lia.
Qed.

Lemma good_shift src b l : good src b -> Forall (good (text_of src b)) l -> Forall (good src) (shiftSpans l (sp_start b)).
Proof.
  intros (Ha & Hb & Hab) Hl. apply Forall_fmap. eapply Forall_impl; [exact Hl|]. intros sp (H1 & H2 & H3). cbn.
  unfold good. cbn. rewrite !(Nat.add_comm _ (sp_start b)). split_and!; [by eapply clean_slice..|lia].
Qed.

(** ** The first and the last token of a text *)

Lemma intervals_sorted s : StronglySorted (fun t u => t.2 <= u.1) (intervals s).
Proof. apply (tokens_bounds 0 _ _ (pieces_wide s) (intervals_tokens s)). Qed.

Lemma intervals_ends s t first last_ :
  head (intervals s) = Some first -> last (intervals s) = Some last_ -> t ∈ intervals s -> first.1 <= t.1 /\ t.2 <= last_.2.
Proof.
  intros Hf Hl Ht. pose proof (intervals_sorted s) as Hs. pose proof (interval_bounds s) as Hb. destruct (intervals s) as [|f l] eqn:E; [done|]. injection Hf as <-. split.
  - apply elem_of_cons in Ht as [->|Ht]; [done|]. inversion Hs as [|? ? _ Hall]; subst. rewrite Forall_forall in Hall. specialize (Hall t Ht).
    destruct (Hb f ltac:(left)). lia.
  - apply last_Some in Hl as [l' El]. rewrite El in Ht, Hs. apply elem_of_app in Ht as [Ht|Ht%list_elem_of_singleton]; [|by subst].
    destruct (Hb last_) as (_ & _ & Hlt); [rewrite El; set_solver|]. apply StronglySorted_app in Hs as (Hall & _). specialize (Hall t last_ Ht ltac:(left)). lia.
Qed.

Lemma solid_interval s x : solid s x -> exists t, t ∈ intervals s /\ t.1 <= x < t.2.
Proof. intros Hx. exact (tokens_cover 0 _ _ x (intervals_tokens s) Hx). Qed.

Lemma no_tokens_no_solid s x : CountTokens s = 0 -> ~ solid s x.
Proof. rewrite CountTokens_spec. intros E (t & Ht & _)%solid_interval. destruct (intervals s); [set_solver|done]. Qed.

Lemma solid_has_token src sp x : good src sp -> sp_start sp <= x < sp_end sp -> solid src x -> 0 < CountTokens (text_of src sp).
Proof.
  intros Hg Hx Hs. destruct (CountTokens _) eqn:E; [|lia]. exfalso. by apply (no_tokens_no_solid _ (x - sp_start sp) E), solid_text.
Qed.

(** ** Receipts *)

Section receipts.
Context `{GoRuntime}.

(** What every receipt of a source says of it: its text lies at its offsets, cut at runes, trimmed, counted and hashed. *)
Definition faithful (src : string) (r : Receipt) : Prop :=
  good src (MkSpan (cr_Start r) (cr_End r)) /\ cr_Start r < cr_End r /\ cr_Text r = slice src (cr_Start r) (cr_End r) /\
  cr_Tokens r = CountTokens (cr_Text r) /\ cr_SHA256 r = sha256_hex (cr_Text r).

Lemma make_receipt_faithful docID kind src p role seq sp first last_ :
  good src sp -> let toks := Tokenize (text_of src sp) in head toks = Some first -> last toks = Some last_ ->
  let r := make_receipt docID kind src p role seq sp toks first last_ in
  faithful src r /\ cr_Tokens r = CountTokens (text_of src sp) /\
  (forall u v, within sp u v -> u < v -> solid src u -> solid src (v - 1) -> cr_Start r <= u /\ v <= cr_End r).
Proof.
  intros Hgood toks Hf Hl r. pose proof Hgood as (Ha & Hb & Hab). unfold toks in *. rewrite Tokenize_intervals in *. rewrite head_lookup, list_lookup_fmap, <- head_lookup in Hf. rewrite fmap_last in Hl.
  destruct (head (intervals _)) as [f|] eqn:Ef; [|done]. destruct (last (intervals _)) as [l|] eqn:El; [|done]. cbn in Hf, Hl. injection Hf as <-. injection Hl as <-.
  set (t := text_of src sp) in *. destruct (window_tokens t [] (intervals t) [] f.1 l.2) as (Hbf & Hbl & Hlt & Hw);
    [by rewrite app_nil_r|by rewrite Ef|by rewrite El|].
  assert (l.2 <= sp_end sp - sp_start sp) as Hle.
  { apply clean_bnd, bnd_le in Hbl. unfold t, text_of in Hbl. rewrite length_slice in Hbl; [done|by apply bnd_le, clean_bnd]. }
  assert (cr_Tokens r = CountTokens t) as Ht by (unfold r; cbn; by rewrite Tokenize_intervals, length_fmap, CountTokens_spec).
  split_and!; [|done|].
  - unfold faithful, r. cbn. unfold good. cbn. split_and!; [by eapply clean_slice|by eapply clean_slice|lia|lia|done| |done].
    rewrite Tokenize_intervals, length_fmap, CountTokens_spec, <- (slice_slice src _ (sp_end sp)) by done. fold t. by rewrite <- Hw at 1; rewrite length_fmap.
  - intros u v [Hu Hv] Huv Hsu Hsv. unfold r. cbn.
    destruct (solid_interval t (u - sp_start sp)) as (i1 & Hi1 & Hx1); [apply solid_text; (done || lia)|].
    destruct (solid_interval t (v - 1 - sp_start sp)) as (i2 & Hi2 & Hx2); [apply solid_text; (done || lia)|].
    destruct (intervals_ends t i1 f l Ef El Hi1), (intervals_ends t i2 f l Ef El Hi2). lia.
Qed.

(** A property of a receipt that [make_receipt] establishes for every span. *)
Lemma receipts_loop_all (P : Receipt -> Prop) docID kind src p role seq spans :
  Forall (good src) spans ->
  (forall n sp first last_, let toks := Tokenize (text_of src sp) in
     sp ∈ spans -> seq <= n -> head toks = Some first -> last toks = Some last_ -> P (make_receipt docID kind src p role n sp toks first last_)) ->
  Forall P (receipts_loop docID kind src p role seq spans).
Proof.
  intros Hg. revert seq. induction Hg as [|sp spans Hsp _ IH]; intros seq HP; cbn; [constructor|].
  assert (forall k, seq <= k -> Forall P (receipts_loop docID kind src p role k spans)) as Hrest.
  { intros k Hk. apply IH. intros n sp' f l toks Hin Hn Hf Hl. apply HP; [by right|lia|done..]. }
  destruct (head _) eqn:Ef; [|by apply Hrest]. destruct (last _) eqn:El; [|by apply Hrest].
  constructor; [apply HP; (done || left)|apply Hrest; lia].
Qed.

Lemma receipts_faithful docID kind src p role spans :
  Forall (good src) spans ->
  Forall (fun r => faithful src r /\ cr_DocumentID r = docID /\ cr_Role r = role /\ (exists sp, sp ∈ spans /\ cr_Tokens r = CountTokens (text_of src sp)))
    (receiptsFor docID kind src spans p role).
Proof.
  intros Hg. apply receipts_loop_all; [done|]. intros n sp f l toks Hin _ Hf Hl.
  destruct (make_receipt_faithful docID kind src p role n sp f l) as (H1 & H2 & _); [rewrite Forall_forall in Hg; by apply Hg|done..|].
  split_and!; [done..|]. by exists sp.
Qed.

(** The receipt of a span with a token has all its solid bytes. *)
Lemma receipts_hold docID kind src p role spans sp :
  Forall (good src) spans -> sp ∈ spans -> 0 < CountTokens (text_of src sp) ->
  exists r, r ∈ receiptsFor docID kind src spans p role /\ forall x, sp_start sp <= x < sp_end sp -> solid src x -> cr_Start r <= x < cr_End r.
Proof.
  intros Hg Hsp Ht. unfold receiptsFor. generalize 0 as seq. revert Hsp. induction Hg as [|sp' spans Hsp' _ IH]; intros Hsp seq; [set_solver|].
  cbn [receipts_loop]. apply elem_of_cons in Hsp as [<-|Hsp].
  - rewrite CountTokens_spec, <- (length_fmap (tok (text_of src sp))), <- Tokenize_intervals in Ht. destruct (head _) as [f|] eqn:Ef; [destruct (last _) as [l|] eqn:El|].
    + eexists. split; [left|]. intros x Hx Hs. destruct (make_receipt_faithful docID kind src p role seq sp f l Hsp' Ef El) as (_ & _ & Hm).
      destruct (Hm x (S x)); [split; lia|lia|done|by rewrite Nat.sub_succ, Nat.sub_0_r|lia].
    + apply last_None in El. by rewrite El in Ef.
    + apply head_None in Ef. rewrite Ef in Ht. cbn in Ht. lia.
  - destruct (head _); [destruct (last _)|]; try apply (IH Hsp). destruct (IH Hsp (S seq)) as (r & Hr & Hx). exists r. split; [by right|done].
Qed.
End receipts.

(** ** The token window *)

(** The spans of [windows] as windows of token indices. *)
Definition window_of (toks : list Token) (i j : nat) (sp : span) : Prop :=
  exists a b, toks !! i = Some a /\ toks !! (j - 1) = Some b /\ sp = MkSpan (tk_Start a) (tk_End b) /\ i < j.

Lemma windows_hold fuel toks target overlap i a m :
  overlap < target -> i < length toks -> length toks - i <= fuel -> i <= a -> a + m <= length toks -> 0 < m <= S overlap ->
  exists i' j' sp, sp ∈ windows fuel toks target overlap i /\ window_of toks i' j' sp /\ i' <= a /\ a + m <= j'.
Proof.
  revert i. induction fuel as [|fuel IH]; intros i Ho Hi Hf Hia Ham Hm; [lia|]. cbn [windows]. set (n := length toks) in *. set (j := Nat.min (i + target) n).
  destruct (lookup_lt_is_Some_2 toks i) as [x Ex]; [lia|]. destruct (lookup_lt_is_Some_2 toks (j - 1)) as [y Ey]; [lia|]. rewrite Ex, Ey.
  destruct (Nat.le_gt_cases (a + m) j) as [Hj|Hj].
  - exists i, j, (MkSpan (tk_Start x) (tk_End y)). split_and!; [left|exists x, y; split_and!; (done || lia)|lia|lia].
  - rewrite (proj2 (Nat.eqb_neq j n)) by lia. rewrite (proj2 (Nat.leb_gt (j - overlap) i)) by lia.
    destruct (IH (j - overlap)) as (i' & j' & sp & Hsp & Hw); [lia..|]. exists i', j', sp. split; [by right|done].
Qed.

Lemma windows_shape fuel toks target overlap i sp :
  0 < target -> i < length toks -> sp ∈ windows fuel toks target overlap i -> exists i' j', window_of toks i' j' sp /\ j' <= i' + target.
Proof.
  intros Ht. revert i. induction fuel as [|fuel IH]; intros i Hi Hsp; [set_solver|]. cbn [windows] in Hsp. set (n := length toks) in *. set (j := Nat.min (i + target) n) in *.
  destruct (lookup_lt_is_Some_2 toks i) as [x Ex]; [lia|]. destruct (lookup_lt_is_Some_2 toks (j - 1)) as [y Ey]; [lia|]. rewrite Ex, Ey in Hsp.
  apply elem_of_cons in Hsp as [->|Hsp].
  - exists i, j. split; [exists x, y; split_and!; (done || lia)|lia].
  - destruct (j =? n) eqn:E; [set_solver|]. apply Nat.eqb_neq in E. apply IH in Hsp; [done|]. destruct (j - overlap <=? i); lia.
Qed.

(** Consecutive windows: the next one starts [overlap] tokens before the end of a full one, the last one ends at the last token. *)
Lemma windows_step fuel toks target overlap i :
  overlap < target -> i < length toks -> 0 < fuel ->
  exists a b, toks !! i = Some a /\ toks !! (Nat.min (i + target) (length toks) - 1) = Some b /\
    windows fuel toks target overlap i = MkSpan (tk_Start a) (tk_End b) ::
      (if i + target <? length toks then windows (fuel - 1) toks target overlap (i + target - overlap) else []).
Proof.
  intros Ho Hi Hf. destruct fuel as [|fuel]; [lia|]. cbn [windows Nat.sub]. rewrite Nat.sub_0_r. set (n := length toks) in *.
  destruct (lookup_lt_is_Some_2 toks i) as [x Ex]; [lia|]. destruct (lookup_lt_is_Some_2 toks (Nat.min (i + target) n - 1)) as [y Ey]; [lia|]. rewrite Ex, Ey.
  exists x, y. split_and!; [done..|]. f_equal. destruct (Nat.ltb_spec (i + target) n).
  - rewrite Nat.min_l by lia. rewrite (proj2 (Nat.eqb_neq _ _)) by lia. by rewrite (proj2 (Nat.leb_gt _ _)) by lia.
  - rewrite Nat.min_r by lia. by rewrite Nat.eqb_refl.
Qed.

(** A window cuts its tokens out of the text. *)
Lemma window_span s i j sp :
  window_of (Tokenize s) i j sp -> good s sp /\ sp_start sp < sp_end sp /\ CountTokens (text_of s sp) = j - i.
Proof.
  intros (a & b & Ha & Hb & -> & Hij). rewrite Tokenize_intervals in Ha, Hb. rewrite list_lookup_fmap in Ha, Hb.
  destruct (intervals s !! i) as [f|] eqn:Ef; [|done]. destruct (intervals s !! (j - 1)) as [l|] eqn:El; [|done]. injection Ha as <-. injection Hb as <-.
  pose proof (lookup_lt_Some _ _ _ El) as Hlt. set (M := take (j - i) (drop i (intervals s))).
  assert (length M = j - i) as HM by (unfold M; rewrite length_take, length_drop; lia).
  destruct (window_tokens s (take i (intervals s)) M (drop (j - i) (drop i (intervals s))) f.1 l.2) as (H1 & H2 & H3 & H4).
  - unfold M. by rewrite (take_drop (j - i)), take_drop.
  - rewrite head_lookup. unfold M. rewrite lookup_take_lt, lookup_drop, Nat.add_0_r, Ef by lia. done.
  - rewrite last_lookup, HM. unfold M. rewrite lookup_take_lt, lookup_drop by lia. replace (i + pred (j - i)) with (j - 1) by lia. by rewrite El.
  - split_and!; [split_and!; [done|done|cbn; lia]|done|]. rewrite CountTokens_spec. unfold text_of. cbn.
    rewrite <- HM, <- H4, length_fmap. done.
Qed.

(** The token at index [k] of a text. *)
Definition passage (s : string) (a m u v : nat) : Prop :=
  0 < m /\ tk_Start <$> Tokenize s !! a = Some u /\ tk_End <$> Tokenize s !! (a + m - 1) = Some v.

Lemma token_order s i j x y : Tokenize s !! i = Some x -> Tokenize s !! j = Some y -> i <= j -> tk_Start x <= tk_Start y /\ tk_End x <= tk_End y.
Proof.
  rewrite Tokenize_intervals, !list_lookup_fmap. intros Hx Hy Hij. destruct (intervals s !! i) as [f|] eqn:Ef; [|done].
  destruct (intervals s !! j) as [l|] eqn:El; [|done]. injection Hx as <-. injection Hy as <-. cbn.
  destruct (decide (i = j)) as [->|]; [rewrite Ef in El; injection El as ->; lia|].
  destruct (interval_bounds s f) as (_ & _ & H1); [by eapply list_elem_of_lookup_2|]. destruct (interval_bounds s l) as (_ & _ & H2); [by eapply list_elem_of_lookup_2|].
  pose proof (intervals_sorted s) as Hs. rewrite <- (take_drop (S i) (intervals s)) in Hs.
  assert (f.2 <= l.1); [|lia]. apply (StronglySorted_app_1_elem_of _ _ _ f l Hs).
  - apply (list_elem_of_lookup_2 _ i). by rewrite lookup_take_lt by lia.
  - apply (list_elem_of_lookup_2 _ (j - S i)). rewrite lookup_drop. by replace (S i + (j - S i)) with j by lia.
Qed.

Lemma fixedSpans_hold s target overlap a m u v :
  overlap < target -> passage s a m u v -> m <= S overlap -> holds (fixedSpans s target overlap) u v.
Proof.
  intros Ho (Hm & Hu & Hv) Hmo. unfold fixedSpans. rewrite (proj2 (Nat.leb_gt _ _)) by lia.
  destruct (Tokenize s !! a) as [x|] eqn:Ex; [|done]. destruct (Tokenize s !! (a + m - 1)) as [y|] eqn:Ey; [|done]. injection Hu as <-. injection Hv as <-.
  pose proof (lookup_lt_Some _ _ _ Ey) as Hlt. rewrite (proj2 (Nat.eqb_neq _ _)) by lia.
  destruct (windows_hold (length (Tokenize s)) (Tokenize s) target overlap 0 a m) as (i & j & sp & Hsp & (f & l & Hf & Hl & -> & Hij) & Hi & Hj); [lia..|].
  exists (MkSpan (tk_Start f) (tk_End l)). split; [done|]. split; cbn.
  - by eapply (token_order s i a).
  - eapply (token_order s (a + m - 1) (j - 1)); [done..|lia].
Qed.

Lemma fixedSpans_shape s target overlap sp :
  0 < target -> sp ∈ fixedSpans s target overlap -> good s sp /\ sp_start sp < sp_end sp /\ 0 < CountTokens (text_of s sp) <= target.
Proof.
  intros Ht. unfold fixedSpans. destruct (Nat.eqb_spec (length (Tokenize s)) 0); [set_solver|]. intros Hsp.
  apply windows_shape in Hsp as (i & j & Hw & Hj); [|lia..]. pose proof Hw as (_ & _ & _ & _ & _ & Hij). destruct (window_span s i j sp Hw) as (H1 & H2 & H3).
  split_and!; [done..|lia|lia].
Qed.

Lemma solid_passage s x : solid s x -> exists a u v, passage s a 1 u v /\ u <= x < v.
Proof.
  intros (t & [a Ha]%list_elem_of_lookup_1 & Hx)%solid_interval. exists a, t.1, t.2. split; [|done]. unfold passage.
  rewrite Nat.add_sub, Tokenize_intervals, !list_lookup_fmap, Ha. split_and!; [lia|done|done].
Qed.

Lemma fixedSpans_cover s target overlap x : overlap < target -> solid s x -> holds (fixedSpans s target overlap) x (S x).
Proof.
  intros Ho (a & u & v & Hp & Hx)%solid_passage. destruct (fixedSpans_hold s target overlap a 1 u v Ho Hp ltac:(lia)) as (sp & Hsp & Hw).
  exists sp. split; [done|]. unfold within in *. lia.
Qed.

Lemma word_solid s t x : t ∈ intervals s -> t.1 <= x < t.2 -> solid s x.
Proof.
  assert (forall off ps ts, tokens_at off ps ts -> t ∈ ts -> t.1 <= x < t.2 -> solid_in off ps x) as Hgen; [|apply Hgen, intervals_tokens].
  intros off ps ts Ht. induction Ht as [off sp Hs|off sp w rest ts Hs [Hne Hsw] Hr Ht IH]; [set_solver|]. rewrite !solid_in_app.
  intros [-> |Hin]%elem_of_cons Hx; [|right; right; by apply IH]. cbn in Hx. right; left. clear - Hsw Hx. revert Hx. generalize (off + plen sp) as o.
  induction Hsw as [|p w Hp _ IH]; intros o Hx; [rewrite plen_nil in Hx; lia|]. rewrite plen_cons in Hx. destruct (Nat.lt_ge_cases x (o + width p)) as [Hlt|Hge].
  - exists [], p, w. rewrite plen_nil. split_and!; [done..|lia|lia].
  - destruct (IH (o + width p) ltac:(lia)) as (A & q & B & -> & Hq & HA). exists (p :: A), q, B. rewrite plen_cons. split_and!; [done..|lia|lia].
Qed.

Lemma passage_ends s a m u v : passage s a m u v -> u < v /\ solid s u /\ solid s (v - 1).
Proof.
  intros (Hm & Hu & Hv). destruct (Tokenize s !! a) as [x|] eqn:Ex; [|done]. destruct (Tokenize s !! (a + m - 1)) as [y|] eqn:Ey; [|done]. injection Hu as <-. injection Hv as <-.
  destruct (token_order s a (a + m - 1) x y Ex Ey ltac:(lia)) as [H1 H2]. rewrite Tokenize_intervals, list_lookup_fmap in Ex, Ey.
  destruct (intervals s !! a) as [f|] eqn:Ef; [|done]. destruct (intervals s !! (a + m - 1)) as [l|] eqn:El; [|done]. injection Ex as <-. injection Ey as <-. cbn in *.
  apply list_elem_of_lookup_2 in Ef, El. destruct (interval_bounds s f Ef) as (_ & _ & H3), (interval_bounds s l El) as (_ & _ & H4).
  split_and!; [lia|apply (word_solid s f); [done|lia]|apply (word_solid s l); [done|lia]].
Qed.
