(* ===== verification/ChunkingBlocks.v ===== *)
(** * chunking: lines, blocks and packing

    Lines and blocks are cut at newlines and hold every line that is not blank
    (nor, for slides, a separator); packing keeps a block of at most [target]
    tokens whole and leaves no solid byte of a block out. *)

From Stdlib Require Import Ascii String.
From S2P Require Import Prelude GoString Float64 Runtime TextBound Chunking ChunkingTokens ChunkingCover.
Open Scope string_scope.
Open Scope nat_scope.

(** ** Lines *)

Definition before (a b : span) : Prop := sp_end a <= sp_start b.

Lemma clean_newline pre post : let s := (pre ++ String NL post)%string in clean s (String.length pre) /\ clean s (S (String.length pre)) /\ ~ solid s (String.length pre).
Proof.
  intros s. destruct (newline_cuts pre post) as (A & p & E & HA & Hp & Hw). fold s in E. split_and!.
  - exists A, (p :: pieces post). split_and!; [done..|right; by left].
  - exists (A ++ [p])%list, (pieces post). rewrite E, <- app_assoc, plen_app, plen_cons, plen_nil. split_and!; [done|lia|right; right].
    exists p. by rewrite last_snoc.
  - unfold solid. rewrite E. change (p :: pieces post) with ([p] ++ pieces post)%list. intros [Hs|[Hs|Hs]%solid_in_app]%solid_in_app.
    + destruct Hs as (B & q & C & -> & _ & Hx). rewrite plen_app, plen_cons in HA. lia.
    + destruct Hs as (B & q & C & EB & Hq & _). destruct B as [|? [|]]; [|done..]. injection EB as <- _. congruence.
    + destruct Hs as (B & q & C & _ & _ & Hx). rewrite plen_cons, plen_nil in Hx. lia.
Qed.

Lemma line_loop_spec pre s start :
  let src := (pre ++ s)%string in
  clean src start -> start <= String.length pre ->
  Forall (good src) (line_loop start (String.length pre) s) /\ StronglySorted before (line_loop start (String.length pre) s) /\
  Forall (fun sp => start <= sp_start sp) (line_loop start (String.length pre) s) /\
  (forall x, start <= x -> solid src x -> holds (line_loop start (String.length pre) s) x (S x)).
Proof.
  cbn. revert pre start. induction s as [|c s IH]; intros pre start Hb Hle; cbn [line_loop].
  - rewrite append_nil_r in *. destruct (Nat.ltb_spec start (String.length pre)).
    + split_and!; [repeat constructor; (done || apply clean_end)|repeat constructor|repeat constructor|].
      intros x Hx Hs%solid_lt. exists (MkSpan start (String.length pre)). split; [left|split; cbn; lia].
    + split_and!; [constructor..|]. intros x Hx Hs%solid_lt. lia.
  - assert (pre ++ String c s = (pre ++ String c "") ++ s)%string as Es by (by rewrite append_assoc).
    assert (String.length (pre ++ String c "") = S (String.length pre)) as El by (rewrite length_append; cbn; lia).
    destruct (Ascii.eqb_spec c "010") as [->|Hc].
    + destruct (clean_newline pre s) as (H1 & H2 & H3). unfold NL in H1, H2, H3. destruct (IH (pre ++ String "010" "")%string (S (String.length pre))) as (I1 & I2 & I3 & I4).
      { by rewrite <- Es. } { by rewrite El. } rewrite El, <- Es in *. split_and!.
      * constructor; [split_and!; done|done].
      * constructor; [done|]. eapply Forall_impl; [exact I3|]. intros sp Hsp. unfold before. cbn in *. lia.
      * constructor; [done|]. eapply Forall_impl; [exact I3|]. cbn. lia.
      * intros x Hx Hs. apply holds_cons. destruct (Nat.lt_trichotomy x (String.length pre)) as [Hlt|[-> |Hgt]]; [left; split; cbn; lia|done|right; by apply I4].
    + destruct (IH (pre ++ String c "")%string start) as (I1 & I2 & I3 & I4); [by rewrite <- Es|lia|]. rewrite El, <- Es in *. done.
Qed.

Lemma lineSpans_spec src :
  Forall (good src) (lineSpans src) /\ StronglySorted before (lineSpans src) /\ (forall x, solid src x -> holds (lineSpans src) x (S x)).
Proof.
  destruct (line_loop_spec "" src 0 (clean_0 src) ltac:(done)) as (H1 & H2 & _ & H3). cbn in *. split_and!; [done..|]. intros x. apply H3. lia.
Qed.

(** ** Blank texts *)

Lemma raw_nil ps : Forall (fun p => 0 < width p) ps -> raw ps = "" -> ps = [].
Proof. destruct 1 as [|p ps Hp _]; [done|]. cbn. unfold width in Hp. by destruct (p_raw p); cbn in *; try lia. Qed.

Lemma drop_while_suffix {A} (f : A -> bool) l : exists pre, l = (pre ++ drop_while f l)%list /\ Forall (fun x => f x = true) pre.
Proof.
  induction l as [|x l (pre & E & Hp)]; [by exists []|]. cbn. destruct (f x) eqn:Ef; [|by exists []]. exists (x :: pre). rewrite E at 1. split; [done|by constructor].
Qed.

Lemma trim_space_blank s x : trim_space s = "" -> ~ solid s x.
Proof.
  unfold trim_space. set (f := fun p => is_space (p_rune p)). intros E (A & p & B & Ep & Hp & _).
  destruct (drop_while_suffix f (pieces s)) as (l1 & E1 & H1). destruct (drop_while_suffix f (reverse (drop_while f (pieces s)))) as (l2 & E2 & H2).
  set (m := drop_while f (reverse (drop_while f (pieces s)))) in *.
  assert (m = []) as Em.
  { pose proof (pieces_wide s) as Hw. rewrite E1 in Hw. apply Forall_app in Hw as [_ Hw]. rewrite <- Forall_reverse, E2 in Hw. apply Forall_app in Hw as [_ Hw].
    apply Forall_reverse, raw_nil in Hw; [|exact E]. apply (f_equal reverse) in Hw. by rewrite reverse_involutive in Hw. }
  rewrite Em, app_nil_r in E2. rewrite <- E2, Forall_reverse in H2. assert (Forall (fun q => f q = true) (pieces s)) as Hall by (rewrite E1; by apply Forall_app).
  rewrite Ep in Hall. apply Forall_app in Hall as [_ [Hs _]%Forall_cons]. unfold spacep in Hp. unfold f in Hs. congruence.
Qed.

Lemma solid_line_not_blank src ln x : good src ln -> within ln x (S x) -> solid src x -> trimmed src ln <> "".
Proof.
  intros Hg [Hx1 Hx2] Hs E. apply (trim_space_blank _ (x - sp_start ln) E). apply solid_text; (done || lia).
Qed.

(** ** Blocks *)

(** The blocks and the open lines hold the kept lines [done]; all end by [pos]. *)
Record blocks_inv (src : string) (pos : nat) (kept : list span) (st : block_state) : Prop := {
  bi_good : Forall (good src) (bs_blocks st) /\ Forall (good src) (bs_cur st);
  bi_cur : StronglySorted before (bs_cur st) /\ Forall (fun c => sp_end c <= pos) (bs_cur st);
  bi_blocks : StronglySorted before (bs_blocks st) /\ Forall (fun b => sp_end b <= pos /\ Forall (before b) (bs_cur st)) (bs_blocks st);
  bi_kept : forall ln, ln ∈ kept -> ln ∈ bs_cur st \/ holds (bs_blocks st) (sp_start ln) (sp_end ln);
}.

Lemma sorted_snoc {A} (R : A -> A -> Prop) l x : StronglySorted R l -> Forall (fun y => R y x) l -> StronglySorted R (l ++ [x]).
Proof.
  intros Hs Hl. apply StronglySorted_app_2; [|done|repeat constructor]. intros y z Hy ->%list_elem_of_singleton. rewrite Forall_forall in Hl. by apply Hl.
Qed.

(** From the first to the last of sorted spans. *)
Lemma sorted_ends src l a b sp :
  Forall (good src) l -> StronglySorted before l -> head l = Some a -> last l = Some b -> sp ∈ l -> within (MkSpan (sp_start a) (sp_end b)) (sp_start sp) (sp_end sp).
Proof.
  intros Hg Hs Ha Hb Hsp. rewrite Forall_forall in Hg. split; cbn.
  - destruct l as [|a' l]; [done|]. injection Ha as ->. apply elem_of_cons in Hsp as [->|Hsp]; [done|]. inversion Hs as [|? ? _ Hall]; subst.
    rewrite Forall_forall in Hall. specialize (Hall sp Hsp). unfold before in Hall. destruct (Hg a ltac:(left)) as (_ & _ & ?). lia.
  - apply last_Some in Hb as [l' ->]. apply elem_of_app in Hsp as [Hsp| ->%list_elem_of_singleton]; [|done].
    pose proof (StronglySorted_app_1_elem_of _ _ _ sp b Hs Hsp ltac:(left)) as Hbf. unfold before in Hbf. destruct (Hg b ltac:(set_solver)) as (_ & _ & ?). lia.
Qed.

Lemma flush_inv src pos kept st : blocks_inv src pos kept st -> blocks_inv src pos kept (flush st) /\ bs_cur (flush st) = [].
Proof.
  intros [[G1 G2] [C1 C2] [B1 B2] K]. unfold flush. destruct (bs_cur st) as [|a cur] eqn:Ec.
  - split; [|done]. constructor; cbn; [done| |split; [done|]|]; [by split; constructor| |].
    + eapply Forall_impl; [exact B2|]. intros b [Hb _]. by split; [|constructor].
    + intros ln Hln. destruct (K ln Hln) as [Hc|Hc]; [set_solver|by right].
  - destruct (last (a :: cur)) as [b|] eqn:El; [|by apply last_None in El]. split; [|done].
    assert (b ∈ a :: cur) as Hb by (by apply last_Some_elem_of). pose proof (fun sp => sorted_ends src (a :: cur) a b sp G2 C1 eq_refl El) as Hw.
    assert (good src (MkSpan (sp_start a) (sp_end b))) as Hg.
    { pose proof G2 as G2'. rewrite Forall_forall in G2'. destruct (G2' a ltac:(left)) as (? & ? & ?), (G2' b Hb) as (? & ? & ?), (Hw a ltac:(left)). cbn in *. split_and!; cbn; (done || lia). }
    constructor; cbn; [split; [apply Forall_app; split; [done|by apply Forall_singleton]|constructor]|by split; constructor| |].
    + split.
      * apply sorted_snoc; [done|]. eapply Forall_impl; [exact B2|]. intros y [_ [Hy _]%Forall_cons]. exact Hy.
      * apply Forall_app. split; [eapply Forall_impl; [exact B2|]; intros y [Hy _]; by split; [|constructor]|].
        repeat constructor. cbn. rewrite Forall_forall in C2. by apply C2.
    + intros ln Hln. right. apply holds_app. destruct (K ln Hln) as [Hc|Hc]; [right|by left].
      exists (MkSpan (sp_start a) (sp_end b)). split; [left|]. by apply Hw.
Qed.

Lemma set_flag_inv src pos kept st b : blocks_inv src pos kept st -> blocks_inv src pos kept (set_flag b st).
Proof. intros []. by constructor. Qed.

Lemma blocks_inv_weaken src pos pos' kept kept' st : blocks_inv src pos kept st -> pos <= pos' -> kept' ⊆ kept -> blocks_inv src pos' kept' st.
Proof.
  intros [G [C1 C2] [B1 B2] K] Hp Hk. constructor; [done| | |set_solver].
  - split; [done|]. eapply Forall_impl; [exact C2|]. cbn. lia.
  - split; [done|]. eapply Forall_impl; [exact B2|]. cbn. intros b [? ?]. split; [lia|done].
Qed.

Lemma add_line_inv src pos kept st ln :
  blocks_inv src pos kept st -> good src ln -> pos <= sp_start ln -> blocks_inv src (sp_end ln) (ln :: kept) (add_line ln st).
Proof.
  intros [[G1 G2] [C1 C2] [B1 B2] K] Hg Hp. pose proof Hg as (_ & _ & Hle). constructor; cbn.
  - split; [done|]. apply Forall_app. split; [done|by apply Forall_singleton].
  - split; [apply sorted_snoc; [done|]|apply Forall_app; split; [|by repeat constructor]].
    + eapply Forall_impl; [exact C2|]. unfold before. cbn. lia.
    + eapply Forall_impl; [exact C2|]. cbn. lia.
  - split; [done|]. eapply Forall_impl; [exact B2|]. cbn. intros b [? ?]. split; [lia|]. apply Forall_app. split; [done|]. repeat constructor. unfold before. lia.
  - intros l [-> |Hl]%elem_of_cons; [left; set_solver|]. destruct (K l Hl); [left; set_solver|by right].
Qed.

Section split.
Context `{RuneTables}.

(** The lines that the boundary rules keep. *)
Definition keeps (kind t : string) : bool := negb (String.eqb t "") && negb (String.eqb kind KindSlides && slideSeparator t).

Ltac run_inv :=
  repeat first
    [ eassumption
    | lazymatch goal with |- blocks_inv _ (sp_end ?ln) (?ln :: _) (add_line ?ln _) => eapply add_line_inv; [|done|done] end
    | apply set_flag_inv | apply flush_inv ].

Lemma block_step_inv src kind pos kept st ln :
  blocks_inv src pos kept st -> good src ln -> pos <= sp_start ln ->
  blocks_inv src (sp_end ln) (if keeps kind (trimmed src ln) then ln :: kept else kept) (block_step src kind st ln).
Proof.
  intros Hi Hg Hp. pose proof Hg as (_ & _ & Hle).
  assert (blocks_inv src (sp_end ln) kept st) as Hskip by (eapply blocks_inv_weaken; [done|lia|set_solver]).
  assert (blocks_inv src (sp_end ln) (ln :: kept) (block_step src kind st ln) \/
          (blocks_inv src (sp_end ln) kept (block_step src kind st ln) /\ keeps kind (trimmed src ln) = false)) as [Hk|[Hk ->]].
  { unfold keeps, block_step. destruct (String.eqb_spec kind KindCode) as [->|]; [|destruct (String.eqb_spec kind KindTable) as [->|]; [|destruct (String.eqb_spec kind KindSlides)]].
    - unfold code_step. destruct (has_prefix "```" (trimmed src ln)); [left; destruct (bs_flag st); run_inv|].
      destruct (bs_flag st); [left; run_inv|]. destruct (String.eqb (trimmed src ln) ""); [right|left]; [split; [run_inv|done]|run_inv].
    - unfold table_step. destruct (Bool.eqb _ _).
      + destruct (negb (bs_flag st)), (String.eqb (trimmed src ln) ""); cbn; first [left; solve [run_inv]|right; split; [solve [run_inv]|done]].
      + destruct (negb (bs_flag _)), (String.eqb (trimmed src ln) ""); cbn; first [left; solve [run_inv]|right; split; [solve [run_inv]|done]].
    - unfold slide_step. destruct (slideSeparator _); [right; split; [run_inv|apply andb_false_r]|].
      destruct (String.eqb (trimmed src ln) ""); [right; split; [run_inv|done]|left; run_inv].
    - destruct (String.eqb kind KindChat).
      + unfold chat_step. destruct (String.eqb (trimmed src ln) ""); [right; split; [run_inv|done]|left]. destruct (chatTurn _); run_inv.
      + unfold prose_step. destruct (String.eqb (trimmed src ln) ""); [right; split; [run_inv|done]|left]. destruct (_ && _); run_inv. }
  - eapply blocks_inv_weaken; [exact Hk|done|]. destruct (keeps _ _); set_solver.
  - done.
Qed.

Lemma run_blocks_inv src kind lines pos kept st :
  blocks_inv src pos kept st -> Forall (good src) lines -> StronglySorted before lines -> Forall (fun ln => pos <= sp_start ln) lines ->
  exists pos', blocks_inv src pos' (List.filter (fun ln => keeps kind (trimmed src ln)) lines ++ kept) (fold_left (block_step src kind) lines st).
Proof.
  revert pos kept st. induction lines as [|ln lines IH]; intros pos kept st Hi Hg Hs Hp; [by exists pos|]. cbn [fold_left List.filter].
  apply Forall_cons in Hg as [Hgl Hg], Hp as [Hpl Hp]. inversion Hs as [|? ? Hs' Hall]; subst.
  pose proof (block_step_inv src kind pos kept st ln Hi Hgl Hpl) as Hst. destruct (IH _ _ _ Hst Hg Hs' Hall) as [pos' Hpos]. exists pos'.
  eapply blocks_inv_weaken; [exact Hpos|done|]. destruct (keeps _ _); set_solver.
Qed.

(** Blocks are cut at lines, sorted, and hold every line that is kept. *)
Lemma splitBlocks_spec src kind :
  Forall (good src) (splitBlocks src kind) /\ StronglySorted before (splitBlocks src kind) /\
  (forall ln, ln ∈ lineSpans src -> keeps kind (trimmed src ln) = true -> holds (splitBlocks src kind) (sp_start ln) (sp_end ln)).
Proof.
  destruct (lineSpans_spec src) as (H1 & H2 & _).
  destruct (run_blocks_inv src kind (lineSpans src) 0 [] (MkBlocks [] [] false)) as [pos Hi]; [|done|done| |].
  - constructor; cbn; [by repeat constructor..|set_solver].
  - apply Forall_forall. intros. lia.
  - rewrite app_nil_r in Hi. apply flush_inv in Hi as [[[G _] _ [B _] K] Ec]. split_and!; [done..|].
    intros ln Hln Hk. destruct (K ln) as [Hc|Hc]; [|by rewrite Ec in Hc; set_solver|done].
    apply list_elem_of_In, filter_In. split; [by apply list_elem_of_In|done].
Qed.

(** The separator lines of a slide deck, the only solid bytes no block holds. *)
Definition on_separator (src kind : string) (x : nat) : Prop :=
  kind = KindSlides /\ exists ln, ln ∈ lineSpans src /\ within ln x (S x) /\ slideSeparator (trimmed src ln) = true.

Lemma splitBlocks_cover src kind x : solid src x -> ~ on_separator src kind x -> holds (splitBlocks src kind) x (S x).
Proof.
  intros Hs Hn. destruct (lineSpans_spec src) as (H1 & _ & H3). destruct (H3 x Hs) as (ln & Hln & Hw). rewrite Forall_forall in H1.
  destruct (splitBlocks_spec src kind) as (_ & _ & Hk). destruct (Hk ln Hln) as (b & Hb & Hbw).
  - unfold keeps. rewrite (proj2 (String.eqb_neq _ _)) by (by eapply solid_line_not_blank; [apply H1|..]). cbn.
    destruct (String.eqb_spec kind KindSlides) as [->|]; [|done]. destruct (slideSeparator _) eqn:E; [|done]. exfalso. apply Hn. split; [done|]. by exists ln.
  - exists b. split; [done|]. unfold within in *. lia.
Qed.
End split.

(** ** Packing *)

Lemma block_refs_elem src blocks r : r ∈ block_refs src blocks <-> br_sp r ∈ blocks /\ br_toks r = CountTokens (text_of src (br_sp r)) /\ 0 < br_toks r.
Proof.
  unfold block_refs. rewrite list_elem_of_In, filter_In, <- list_elem_of_In, list_elem_of_fmap, negb_true_iff, Nat.eqb_neq. split.
  - intros [(b & -> & Hb) Hr]. cbn in *. split_and!; [done..|lia].
  - intros (Hb & Ht & Hr). split; [|lia]. exists (br_sp r). split; [|done]. destruct r. cbn in *. by subst.
Qed.

Lemma sublist_Forall {A} (P : A -> Prop) l1 l2 : l1 `sublist_of` l2 -> Forall P l2 -> Forall P l1.
Proof. rewrite !Forall_forall. intros Hsub Hl x Hx. apply Hl. by eapply elem_of_sublist. Qed.

Lemma sublist_sorted {A} (R : A -> A -> Prop) l1 l2 : l1 `sublist_of` l2 -> StronglySorted R l2 -> StronglySorted R l1.
Proof.
  induction 1 as [|x l1 l2 Hsub IH|x l1 l2 _ IH]; intros Hs; [done| |]; inversion Hs as [|? ? Hs' Hall]; subst; [|by apply IH].
  constructor; [by apply IH|]. by eapply sublist_Forall.
Qed.

Lemma block_refs_sublist src blocks : br_sp <$> block_refs src blocks `sublist_of` blocks.
Proof.
  unfold block_refs. induction blocks as [|b blocks IH]; cbn; [done|]. destruct (CountTokens _ =? 0); cbn; by constructor.
Qed.

Lemma fit_le target tok first refs : fit target tok first refs <= length refs.
Proof. revert tok first. induction refs as [|r refs IH]; intros tok first; cbn [fit length]; [done|]. destruct (_ <? _); [lia|]. destruct (_ && _); [lia|]. apply le_n_S, IH. Qed.

Lemma fit_first target r refs : br_toks r <= target -> 1 <= fit target 0 true (r :: refs).
Proof. intros Hr. cbn [fit]. rewrite (proj2 (Nat.ltb_ge _ _)) by done. rewrite andb_false_r. lia. Qed.

Lemma carried_le target overlap count carry l : carried target overlap count carry l <= count + length l.
Proof. revert count carry. induction l as [|r l IH]; intros count carry; cbn [carried length]; [lia|]. destruct (_ <=? _); [lia|]. destruct (_ <? _); [lia|]. etrans; [apply IH|]. cbn. lia. Qed.

Lemma dedupe_holds prev spans u v :
  u < v -> holds spans u v -> holds (dedupe_from prev spans) u v \/ (exists p, prev = Some p /\ within p u v).
Proof.
  intros Huv. revert prev. induction spans as [|sp spans IH]; intros prev; [intros (? & ? & _); set_solver|]. rewrite holds_cons. cbn [dedupe_from].
  assert (holds spans u v -> forall q, holds (sp :: dedupe_from (Some sp) spans) u v \/ (exists p, q = Some p /\ within p u v)) as Hkeep.
  { intros Hh q. left. apply holds_cons. destruct (IH (Some sp) Hh) as [Hd|(p & [= <-] & Hw)]; [by right|by left]. }
  destruct (Nat.leb_spec (sp_end sp) (sp_start sp)).
  { intros [Hw|Hh]; [unfold within in Hw; lia|by apply IH]. }
  destruct prev as [p|]; [destruct (Nat.leb_spec (sp_start p) (sp_start sp)), (Nat.leb_spec (sp_end sp) (sp_end p)); cbn|];
    (intros [Hw|Hh]; [|by (apply IH || apply Hkeep)]).
  1: right; exists p; unfold within in *; split; [done|lia].
  all: left; apply holds_cons; by left.
Qed.

Lemma dedupe_sublist prev spans : dedupe_from prev spans `sublist_of` spans.
Proof. revert prev. induction spans as [|sp spans IH]; intros prev; cbn; [done|]. repeat case_match; by constructor. Qed.

Section pack.
Context (src : string) (target overlap : nat) (oversized : span -> list span).
Let pack := pack_loop target overlap oversized.

(** One turn of the loop on blocks that fit. *)
Lemma pack_turn fuel r rest :
  br_toks r <= target ->
  exists j k chunk, 1 <= j <= S (length rest) /\ 1 <= k <= j /\ chunk = take j (r :: rest) /\ j = fit target 0 true (r :: rest) /\
    pack (S fuel) (r :: rest) =
      MkSpan (sp_start (br_sp r)) (sp_end (br_sp (default r (last chunk)))) :: (if j =? S (length rest) then [] else pack fuel (drop k (r :: rest))).
Proof.
  intros Hr. set (j := fit target 0 true (r :: rest)). set (chunk := take j (r :: rest)).
  exists j, (j - carried target overlap 0 0 (reverse (drop 1 chunk))), chunk.
  pose proof (fit_first target r rest Hr) as H1. pose proof (fit_le target 0 true (r :: rest)) as H2. fold j in H1, H2. cbn [length] in H2.
  pose proof (carried_le target overlap 0 0 (reverse (drop 1 chunk))) as H3. rewrite length_reverse, length_drop in H3. unfold chunk at 2 in H3. rewrite length_take in H3.
  cbn [length] in H3. split_and!; [done|done|lia|lia|done|done|]. unfold pack. cbn [pack_loop]. rewrite (proj2 (Nat.ltb_ge _ _)) by done. cbv zeta. fold j. fold chunk.
  cbn [length]. by destruct (j =? S (length rest)).
Qed.

Definition sorted_refs (refs : list blockRef) : Prop := Forall (good src) (br_sp <$> refs) /\ StronglySorted before (br_sp <$> refs).

Lemma sorted_refs_drop k refs : sorted_refs refs -> sorted_refs (drop k refs).
Proof.
  intros [Hg Hs]. split.
  - rewrite fmap_drop. by apply Forall_drop.
  - rewrite fmap_drop. eapply sublist_sorted; [apply sublist_drop|done].
Qed.

Lemma sorted_refs_take k refs : sorted_refs refs -> sorted_refs (take k refs).
Proof.
  intros [Hg Hs]. split.
  - rewrite fmap_take. by apply Forall_take.
  - rewrite fmap_take. eapply sublist_sorted; [apply sublist_take|done].
Qed.

Lemma chunk_hull r l : sorted_refs (r :: l) -> forall x, x ∈ r :: l ->
  within (MkSpan (sp_start (br_sp r)) (sp_end (br_sp (default r (last (r :: l)))))) (sp_start (br_sp x)) (sp_end (br_sp x)).
Proof.
  intros [Hg Hs] x Hx. destruct (last (r :: l)) as [b|] eqn:El; [|by apply last_None in El]. cbn [default].
  apply (sorted_ends src (br_sp <$> r :: l) (br_sp r) (br_sp b)); [done..| |by apply list_elem_of_fmap_2]. rewrite fmap_last, El. done.
Qed.

(** What a block holds is held by some span, if the block fits or its splitter holds it. *)
Lemma pack_holds fuel refs r u v :
  sorted_refs refs -> length refs <= fuel -> r ∈ refs -> within (br_sp r) u v ->
  (target < br_toks r -> holds (oversized (br_sp r)) u v) -> holds (pack fuel refs) u v.
Proof.
  revert refs. induction fuel as [|fuel IH]; intros refs Hs Hf Hr Hw Ho; [destruct refs; [set_solver|cbn in Hf; lia]|].
  destruct refs as [|r0 rest]; [set_solver|]. destruct (Nat.lt_ge_cases target (br_toks r0)) as [Hlt|Hge].
  - unfold pack. cbn [pack_loop]. rewrite (proj2 (Nat.ltb_lt _ _)) by done. apply holds_app. apply elem_of_cons in Hr as [->|Hr]; [left; by apply Ho|right].
    apply IH; [by apply (sorted_refs_drop 1) in Hs|cbn in Hf; lia|done..].
  - destruct (pack_turn fuel r0 rest Hge) as (j & k & chunk & Hj & Hk & Ec & _ & ->). rewrite holds_cons.
    rewrite <- (take_drop j (r0 :: rest)) in Hr. apply elem_of_app in Hr as [Hr|Hr].
    + left. destruct j as [|j]; [lia|]. cbn [take] in Hr, Ec. pose proof (chunk_hull r0 (take j rest) (sorted_refs_take (S j) _ Hs) r Hr) as Hh. subst chunk.
      unfold within in *. cbn [sp_start sp_end] in *. lia.
    + right. destruct (Nat.eqb_spec j (S (length rest))) as [->|]; [rewrite drop_ge in Hr by done; set_solver|].
      apply IH; [by apply sorted_refs_drop|rewrite length_drop; cbn [length] in *; lia| |done..].
      eapply elem_of_sublist; [exact Hr|]. replace j with (k + (j - k)) by lia. rewrite <- drop_drop. apply sublist_drop.
Qed.

Lemma pack_good fuel refs : sorted_refs refs -> (forall b, good src b -> Forall (good src) (oversized b)) -> Forall (good src) (pack fuel refs).
Proof.
  intros Hs Ho. revert refs Hs. induction fuel as [|fuel IH]; intros refs Hs; [constructor|]. destruct refs as [|r rest]; [constructor|].
  destruct (Nat.lt_ge_cases target (br_toks r)) as [Hlt|Hge].
  - unfold pack. cbn [pack_loop]. rewrite (proj2 (Nat.ltb_lt _ _)) by done. apply Forall_app. pose proof Hs as [[Hg _]%Forall_cons _].
    split; [by apply Ho|]. apply IH. by apply (sorted_refs_drop 1) in Hs.
  - destruct (pack_turn fuel r rest Hge) as (j & k & chunk & Hj & Hk & Ec & _ & ->). constructor; [|destruct (_ =? _); [constructor|by apply IH, sorted_refs_drop]].
    destruct j as [|j]; [lia|]. cbn [take] in Ec. pose proof (sorted_refs_take (S j) _ Hs) as Ht. cbn [take] in Ht. subst chunk.
    destruct (last (r :: take j rest)) as [b|] eqn:El; [|by apply last_None in El]. pose proof (chunk_hull r (take j rest) Ht r ltac:(left)) as [_ Hh].
    rewrite El in Hh. cbn [default sp_start sp_end] in *. destruct Ht as [Hg _]. rewrite Forall_fmap, Forall_forall in Hg.
    destruct (Hg r ltac:(left)) as (? & ? & ?). destruct (Hg b) as (? & ? & ?); [by apply last_Some_elem_of|]. cbn [id] in Hh. split_and!; cbn; [done|done|lia].
Qed.
End pack.

Lemma sorted_block_refs src blocks : Forall (good src) blocks -> StronglySorted before blocks -> sorted_refs src (block_refs src blocks).
Proof.
  intros Hg Hs. split; [|by eapply sublist_sorted; [apply block_refs_sublist|]]. eapply sublist_Forall; [apply block_refs_sublist|done].
Qed.

(** [packBlocks]: what lies in a block with a token is kept, if the block fits or its splitter keeps it. *)
Lemma packBlocks_holds src blocks target overlap oversized b u v :
  Forall (good src) blocks -> StronglySorted before blocks -> u < v -> b ∈ blocks -> within b u v -> 0 < CountTokens (text_of src b) ->
  (target < CountTokens (text_of src b) -> holds (oversized b) u v) -> holds (packBlocks src blocks target overlap oversized) u v.
Proof.
  intros Hg Hs Huv Hb Hw Hsol Ho. unfold packBlocks, dedupeSpans.
  destruct (dedupe_holds None (pack_loop target overlap oversized (length (block_refs src blocks)) (block_refs src blocks)) u v Huv) as [Hd|(p & [=] & _)]; [|done].
  apply (pack_holds src _ _ _ _ _ (MkRef b (CountTokens (text_of src b)))); [by apply sorted_block_refs|done| |done|done].
  apply block_refs_elem. cbn. by split_and!.
Qed.

Lemma packBlocks_good src blocks target overlap oversized :
  Forall (good src) blocks -> StronglySorted before blocks -> (forall b, good src b -> Forall (good src) (oversized b)) ->
  Forall (good src) (packBlocks src blocks target overlap oversized).
Proof.
  intros Hg Hs Ho. eapply sublist_Forall; [apply dedupe_sublist|]. apply pack_good; [by apply sorted_block_refs|done].
Qed.
