(* ===== verification/ChunkingDocs.v ===== *)
(** * chunking: sizes, splitters and the receipts of a document

    Counting the tokens of packed blocks; what the splitters of oversized
    blocks owe and keep; the receipts of a document by role, their parents and
    their names. *)

From Stdlib Require Import Ascii String.
From S2P Require Import Prelude GoString Float64 Runtime TextBound Composite Chunking ChunkingTokens ChunkingCover ChunkingBlocks.
Open Scope string_scope.
Open Scope nat_scope.

(** ** Sizes of packed blocks *)

(** Between the spans of the list there is nothing but space. *)
Definition dense (src : string) (l : list span) : Prop :=
  forall a b x, a ∈ l -> b ∈ l -> sp_start a <= x < sp_end b -> solid src x -> holds l x (S x).

Lemma dense_mid src l1 l2 l3 :
  Forall (good src) (l1 ++ l2 ++ l3) -> StronglySorted before (l1 ++ l2 ++ l3) -> dense src (l1 ++ l2 ++ l3) -> dense src l2.
Proof.
  intros Hg Hs Hd a b x Ha Hb Hx Hsol. destruct (Hd a b x) as (sp & Hsp & Hw); [set_solver..|done|done|]. exists sp. split; [|done]. unfold within in Hw.
  apply elem_of_app in Hsp as [Hsp|[Hsp|Hsp]%elem_of_app]; [|done|].
  - pose proof (StronglySorted_app_1_elem_of _ _ _ sp a Hs Hsp ltac:(set_solver)) as Hb'. unfold before in Hb'. lia.
  - apply StronglySorted_app_1_r in Hs. pose proof (StronglySorted_app_1_elem_of _ _ _ b sp Hs Hb Hsp) as Hb'. unfold before in Hb'. lia.
Qed.

Definition toks_of (src : string) (l : list span) : nat := list_sum ((fun sp => CountTokens (text_of src sp)) <$> l).

Lemma hull_tokens src a l b :
  Forall (good src) (a :: l) -> StronglySorted before (a :: l) -> dense src (a :: l) -> last (a :: l) = Some b ->
  CountTokens (slice src (sp_start a) (sp_end b)) = toks_of src (a :: l).
Proof.
  revert a. induction l as [|c l IH]; intros a Hg Hs Hd Hb.
  - injection Hb as <-. unfold toks_of. cbn. unfold text_of. lia.
  - pose proof Hg as [(Ha1 & Ha2 & Ha3) [(Hc1 & Hc2 & Hc3) _]%Forall_cons]%Forall_cons. rewrite last_cons_cons in Hb.
    inversion Hs as [|? ? Hs' Hall]; subst. pose proof Hall as [Hac _]%Forall_cons. unfold before in Hac.
    assert (good src b) as (Hb1 & Hb2 & Hb3) by (apply Forall_cons in Hg as [_ Hg]; rewrite Forall_forall in Hg; by apply Hg, last_Some_elem_of).
    pose proof (sorted_ends src (c :: l) c b c ltac:(by apply Forall_cons in Hg as [_ Hg]) Hs' eq_refl Hb ltac:(left)) as [_ Hcb]. cbn in Hcb.
    rewrite (CountTokens_split src (sp_start a) (sp_end a) (sp_end b)), (CountTokens_split src (sp_end a) (sp_start c) (sp_end b)) by (done || lia).
    rewrite (IH c), (CountTokens_zero (slice src (sp_end a) (sp_start c))); [unfold toks_of; cbn; unfold text_of; lia| |by apply Forall_cons in Hg as [_ Hg]|done| |done].
    + intros x Hx. destruct (slice_solid src (sp_end a) (sp_start c) x) as [Hsx Hlt]; [by apply clean_bnd..|done|done|].
      destruct (Hd a c (sp_end a + x)) as (sp & Hsp & Hw); [set_solver..|lia|done|]. unfold within in Hw. apply elem_of_cons in Hsp as [->|Hsp]; [lia|].
      apply elem_of_cons in Hsp as [->|Hsp]; [lia|]. inversion Hs' as [|? ? _ Hall']; subst. rewrite Forall_forall in Hall'. specialize (Hall' sp Hsp). unfold before in Hall'. lia.
    + apply (dense_mid src [a] (c :: l) []); by rewrite ?app_nil_r.
Qed.

Lemma list_sum_cons x l : list_sum (x :: l) = x + list_sum l.
Proof. done. Qed.

Lemma fit_sum target tok first refs :
  (first = true -> tok = 0) -> tok <= target -> tok + list_sum (br_toks <$> take (fit target tok first refs) refs) <= target.
Proof.
  revert tok first. induction refs as [|r refs IH]; intros tok first Hf Ht; cbn [fit]; [cbn; lia|].
  destruct (Nat.ltb_spec target (br_toks r)); [cbn; lia|]. destruct (Nat.ltb_spec target (tok + br_toks r)), first; cbn [andb negb take]; [specialize (Hf eq_refl); lia|cbn; lia| |];
    specialize (IH (tok + br_toks r) false ltac:(done) ltac:(lia)); rewrite fmap_cons, list_sum_cons; lia.
Qed.

(** Packed blocks hold at most [target] tokens when nothing lies between the blocks. *)
Lemma pack_bound src target overlap oversized fuel refs :
  sorted_refs src refs -> dense src (br_sp <$> refs) -> Forall (fun r => br_toks r = CountTokens (text_of src (br_sp r))) refs ->
  (forall r sp, r ∈ refs -> sp ∈ oversized (br_sp r) -> CountTokens (text_of src sp) <= target) ->
  Forall (fun sp => CountTokens (text_of src sp) <= target) (pack_loop target overlap oversized fuel refs).
Proof.
  revert refs. induction fuel as [|fuel IH]; intros refs Hs Hd Ht Ho; [constructor|]. destruct refs as [|r rest]; [constructor|].
  assert (forall k, Forall (fun sp => CountTokens (text_of src sp) <= target) (pack_loop target overlap oversized fuel (drop k (r :: rest)))) as Hrest.
  { intros k. apply IH; [by apply sorted_refs_drop| |by apply Forall_drop|intros r' sp Hr'; apply Ho; eapply elem_of_sublist; [done|apply sublist_drop]].
    destruct Hs. rewrite fmap_drop. apply (dense_mid src (take k (br_sp <$> r :: rest)) _ []); by rewrite app_nil_r, take_drop. }
  destruct (Nat.lt_ge_cases target (br_toks r)) as [Hlt|Hge].
  - cbn [pack_loop]. rewrite (proj2 (Nat.ltb_lt _ _)) by done. apply Forall_app. split; [|apply (Hrest 1)]. apply Forall_forall. intros sp. apply (Ho r). left.
  - destruct (pack_turn target overlap oversized fuel r rest Hge) as (j & k & chunk & Hj & _ & Ec & Ej & ->). constructor; [|destruct (_ =? _); [constructor|apply Hrest]].
    destruct j as [|j]; [lia|]. cbn [take] in Ec. destruct (last chunk) as [b|] eqn:El; [|apply last_None in El; by subst]. cbn [default id]. unfold text_of. cbn [sp_start sp_end].
    pose proof (sorted_refs_take src (S j) _ Hs) as [Hg' Hs']. cbn [take] in Hg', Hs'. rewrite (hull_tokens src (br_sp r) (br_sp <$> take j rest) (br_sp b)); [|done|done| |].
    + pose proof (fit_sum target 0 true (r :: rest) ltac:(done) ltac:(lia)) as Hf. rewrite <- Ej in Hf. cbn [take] in Hf. etrans; [|exact Hf].
      unfold toks_of. apply Nat.eq_le_incl. change (br_sp r :: (br_sp <$> take j rest)) with (br_sp <$> (r :: take j rest)). rewrite <- list_fmap_compose. cbn [Nat.add]. f_equal.
      apply list_fmap_ext. intros i x Hx. cbn. symmetry. pose proof (Forall_take _ (S j) _ Ht) as Ht'. cbn [take] in Ht'. rewrite Forall_lookup in Ht'. by eapply Ht'.
    + destruct Hs as [Hg0 Hs0]. change (dense src (br_sp <$> take (S j) (r :: rest))).
      apply (dense_mid src [] (br_sp <$> take (S j) (r :: rest)) (br_sp <$> drop (S j) (r :: rest))); cbn [app]; by rewrite <- fmap_app, take_drop.
    + change (br_sp r :: (br_sp <$> take j rest)) with (br_sp <$> (r :: take j rest)). rewrite fmap_last. subst chunk. by rewrite El.
Qed.

Lemma packBlocks_bound src blocks target overlap oversized :
  Forall (good src) blocks -> StronglySorted before blocks -> dense src blocks ->
  (forall b sp, b ∈ blocks -> sp ∈ oversized b -> CountTokens (text_of src sp) <= target) ->
  Forall (fun sp => CountTokens (text_of src sp) <= target) (packBlocks src blocks target overlap oversized).
Proof.
  intros Hg Hs Hd Ho. eapply sublist_Forall; [apply dedupe_sublist|]. apply pack_bound.
  - by apply sorted_block_refs.
  - intros a b x Ha Hb Hx Hsol. destruct (Hd a b x) as (sp & Hsp & Hw); [by eapply elem_of_sublist; [|apply block_refs_sublist]..|done|done|].
    exists sp. split; [|done]. apply list_elem_of_fmap. exists (MkRef sp (CountTokens (text_of src sp))). split; [done|]. apply block_refs_elem. cbn. split_and!; [done..|].
    unfold within in Hw. rewrite Forall_forall in Hg. apply (solid_has_token src sp x); [by apply Hg|lia|done].
  - apply Forall_forall. intros r Hr. by apply block_refs_elem in Hr as (_ & -> & _).
  - intros r sp Hr. apply Ho. by apply block_refs_elem in Hr as [].
Qed.

(** ** The splitters *)

Lemma text_of_shift src b sp :
  good src b -> sp_end sp <= sp_end b - sp_start b -> text_of src (MkSpan (sp_start sp + sp_start b) (sp_end sp + sp_start b)) = text_of (text_of src b) sp.
Proof. intros _ Hle. unfold text_of. cbn [sp_start sp_end]. rewrite slice_slice by done. by rewrite !(Nat.add_comm (sp_start b)). Qed.

Lemma good_end src b sp : good src b -> good (text_of src b) sp -> sp_end sp <= sp_end b - sp_start b.
Proof.
  intros (_ & Hb & _) (_ & He & _). apply clean_bnd, bnd_le in He. unfold text_of in He. rewrite length_slice in He; [done|by apply bnd_le, clean_bnd].
Qed.

Lemma token_solid src sp : good src sp -> 0 < CountTokens (text_of src sp) -> exists x, sp_start sp <= x < sp_end sp /\ solid src x.
Proof.
  intros (G1 & G2 & G3) Ht. rewrite CountTokens_spec in Ht. destruct (intervals (text_of src sp)) as [|t l] eqn:E; [cbn in Ht; lia|].
  destruct (slice_solid src (sp_start sp) (sp_end sp) t.1) as [Hsol Hb]; [by apply clean_bnd..|done|apply interval_solid; unfold text_of in E; rewrite E; left|].
  exists (sp_start sp + t.1). split; [lia|done].
Qed.

(** What a splitter of oversized blocks owes: spans of the block, no larger than the target, with all its solid bytes. *)
Record splits (src : string) (target : nat) (split : span -> list span) : Prop := {
  sl_good : forall b, good src b -> Forall (good src) (split b);
  sl_bound : forall b sp, good src b -> sp ∈ split b -> CountTokens (text_of src sp) <= target;
  sl_cover : forall b x, good src b -> sp_start b <= x < sp_end b -> solid src x -> holds (split b) x (S x);
}.

Lemma token_split_splits src target overlap : overlap < target -> splits src target (token_split src target overlap).
Proof.
  intros Ho. constructor.
  - intros b Hb. apply good_shift; [done|]. apply Forall_forall. intros sp Hsp. eapply fixedSpans_shape; [|exact Hsp]. lia.
  - intros b sp Hb (sp' & -> & Hsp)%list_elem_of_fmap. apply fixedSpans_shape in Hsp as (Hg & _ & Hc); [|lia].
    rewrite text_of_shift by (done || by eapply good_end). lia.
  - intros b x Hb Hx Hs. pose proof (fixedSpans_cover (text_of src b) target overlap (x - sp_start b) Ho (solid_text src b x Hb Hx Hs)) as Hh.
    apply (holds_shift _ (sp_start b)) in Hh. replace (x - sp_start b + sp_start b) with x in Hh by lia. by replace (S (x - sp_start b) + sp_start b) with (S x) in Hh by lia.
Qed.

Lemma nonEmptyLineSpans_spec src b :
  good src b ->
  Forall (good src) (nonEmptyLineSpans src b) /\ StronglySorted before (nonEmptyLineSpans src b) /\
  Forall (fun sp => sp_start b <= sp_start sp /\ sp_end sp <= sp_end b /\ 0 < CountTokens (text_of src sp)) (nonEmptyLineSpans src b) /\
  (forall x, sp_start b <= x < sp_end b -> solid src x -> holds (nonEmptyLineSpans src b) x (S x)).
Proof.
  intros Hb. destruct (lineSpans_spec (text_of src b)) as (H1 & H2 & H3). unfold nonEmptyLineSpans. cbv zeta. set (f := fun ln => negb _).
  assert (List.filter f (lineSpans (text_of src b)) `sublist_of` lineSpans (text_of src b)) as Hsub.
  { generalize (lineSpans (text_of src b)). intros l. induction l as [|y l IH]; cbn; [done|]. destruct (f y); by constructor. }
  pose proof (sublist_Forall _ _ _ Hsub H1) as Hg. split_and!.
  - by apply good_shift.
  - pose proof (sublist_sorted _ _ _ Hsub H2) as Hs. revert Hs. generalize (List.filter f (lineSpans (text_of src b))). intros l Hs. induction Hs as [|y l Hs IH Hall]; cbn; constructor; [done|].
    apply Forall_fmap. eapply Forall_impl; [exact Hall|]. unfold before. cbn. lia.
  - apply Forall_fmap, Forall_forall. intros sp Hsp. unfold compose. rewrite text_of_shift; [|done|rewrite Forall_forall in Hg; eapply good_end; [done|by apply Hg]].
    rewrite Forall_forall in Hg. pose proof (good_end src b sp Hb (Hg sp Hsp)) as He. destruct (Hg sp Hsp) as (_ & _ & ?), Hb as (_ & _ & ?). cbn [sp_start sp_end].
    split_and!; [lia|lia|]. apply list_elem_of_In, filter_In in Hsp as [_ Hf]. unfold f in Hf. apply negb_true_iff, Nat.eqb_neq in Hf. lia.
  - intros x Hx Hs. pose proof (solid_text src b x Hb Hx Hs) as Hs'. destruct (H3 _ Hs') as (ln & Hln & Hw).
    assert (holds (List.filter f (lineSpans (text_of src b))) (x - sp_start b) (S (x - sp_start b))) as Hh.
    { exists ln. split; [|done]. apply list_elem_of_In, filter_In. split; [by apply list_elem_of_In|]. unfold f. apply negb_true_iff, Nat.eqb_neq.
      rewrite Forall_forall in H1. unfold within in Hw. pose proof (solid_has_token _ ln (x - sp_start b) (H1 ln Hln) ltac:(lia) Hs'). lia. }
    apply (holds_shift _ (sp_start b)) in Hh. replace (x - sp_start b + sp_start b) with x in Hh by lia. by replace (S (x - sp_start b) + sp_start b) with (S x) in Hh by lia.
Qed.

Lemma oversizedSplitter_splits src kind target overlap : overlap < target -> splits src target (oversizedSplitter src kind target overlap).
Proof.
  intros Ho. pose proof (token_split_splits src target overlap Ho) as Ht. unfold oversizedSplitter. destruct (String.eqb kind KindTable); [|by destruct Ht].
  constructor.
  - intros b (Hg & Hs & _)%nonEmptyLineSpans_spec. apply packBlocks_good; [done..|]. apply (sl_good _ _ _ Ht).
  - intros b sp Hb Hsp. pose proof Hb as (Hg & Hs & Hin & Hc)%nonEmptyLineSpans_spec.
    assert (Forall (fun sp => CountTokens (text_of src sp) <= target) (packBlocks src (nonEmptyLineSpans src b) target overlap (token_split src target overlap))) as Hall.
    { rewrite Forall_forall in Hin. apply packBlocks_bound; [done..| |].
      - intros r1 r2 x H1 H2 Hx Hsol. apply Hc; [|done]. destruct (Hin r1 H1) as (? & ? & ?), (Hin r2 H2) as (? & ? & ?). lia.
      - intros r sp' Hr. apply (sl_bound _ _ _ Ht). rewrite Forall_forall in Hg. by apply Hg. }
    rewrite Forall_forall in Hall. by apply Hall.
  - intros b x Hb Hx Hsol. pose proof Hb as (Hg & Hs & Hin & Hc)%nonEmptyLineSpans_spec. destruct (Hc x Hx Hsol) as (r & Hr & Hw). rewrite Forall_forall in Hin.
    apply (packBlocks_holds src _ _ _ _ r); [done|done|lia|done|done|by apply Hin|]. intros _. unfold within in Hw. rewrite Forall_forall in Hg. apply (sl_cover _ _ _ Ht); [by apply Hg|lia|done].
Qed.

Section structure.
Context `{RuneTables}.

Lemma structureSpans_good src kind target overlap : overlap < target -> Forall (good src) (structureSpans src kind target overlap).
Proof.
  intros Ho. destruct (splitBlocks_spec src kind) as (Hg & Hs & _). apply packBlocks_good; [done..|]. apply (sl_good _ _ _ (oversizedSplitter_splits src kind target overlap Ho)).
Qed.

Lemma structureSpans_cover src kind target overlap x :
  overlap < target -> solid src x -> ~ on_separator src kind x -> holds (structureSpans src kind target overlap) x (S x).
Proof.
  intros Ho Hsol Hn. destruct (splitBlocks_spec src kind) as (Hg & Hs & _). destruct (splitBlocks_cover src kind x Hsol Hn) as (b & Hb & Hw).
  pose proof Hg as Hg'. rewrite Forall_forall in Hg'. specialize (Hg' b Hb). unfold within in Hw.
  apply (packBlocks_holds src _ _ _ _ b); [done|done|lia|done|done|by apply (solid_has_token src b x); [|lia|]|].
  intros _. apply (sl_cover _ _ _ (oversizedSplitter_splits src kind target overlap Ho)); [done|lia|done].
Qed.

Lemma structureSpans_bound src kind target overlap sp :
  overlap < target -> kind <> KindSlides -> sp ∈ structureSpans src kind target overlap -> CountTokens (text_of src sp) <= target.
Proof.
  intros Ho Hk. destruct (splitBlocks_spec src kind) as (Hg & Hs & _). revert sp. apply Forall_forall. apply packBlocks_bound; [done..| |].
  - intros a b x _ _ _ Hsol. apply splitBlocks_cover; [done|]. by intros [? _].
  - intros b sp Hb. apply (sl_bound _ _ _ (oversizedSplitter_splits src kind target overlap Ho)). rewrite Forall_forall in Hg. by apply Hg.
Qed.

(** A block that fits is kept whole; so is a row that fits of a table that does not. *)
Lemma structureSpans_blocks src kind target overlap b :
  b ∈ splitBlocks src kind -> 0 < CountTokens (text_of src b) <= target -> sp_start b < sp_end b ->
  holds (structureSpans src kind target overlap) (sp_start b) (sp_end b).
Proof.
  intros Hb Ht Hlt. destruct (splitBlocks_spec src kind) as (Hg & Hs & _). apply (packBlocks_holds src _ _ _ _ b); [done|done|done|done|done|lia|lia].
Qed.

Lemma structureSpans_rows src target overlap b row :
  b ∈ splitBlocks src KindTable -> row ∈ nonEmptyLineSpans src b -> CountTokens (text_of src row) <= target ->
  holds (structureSpans src KindTable target overlap) (sp_start row) (sp_end row).
Proof.
  intros Hb Hr Ht. destruct (splitBlocks_spec src KindTable) as (Hg & Hs & _). pose proof Hg as Hg'. rewrite Forall_forall in Hg'. specialize (Hg' b Hb).
  pose proof Hg' as (Hg1 & Hs1 & Hin & _)%nonEmptyLineSpans_spec. rewrite Forall_forall in Hin. destruct (Hin row Hr) as (H1 & H2 & H3).
  assert (sp_start row < sp_end row) as Hlt by (rewrite Forall_forall in Hg1; destruct (token_solid src row (Hg1 row Hr) H3); lia).
  apply (packBlocks_holds src _ _ _ _ b); [done|done|done|done|done| |].
  - rewrite Forall_forall in Hg1. destruct (token_solid src row (Hg1 row Hr) H3) as (x & Hx & Hsol). apply (solid_has_token src b x); (done || lia).
  - intros _. unfold oversizedSplitter. cbn. apply (packBlocks_holds src _ _ _ _ row); [done..|lia].
Qed.
End structure.

(** ** Chunks of a document *)

Section chunk.
Context `{GoRuntime} `{RuneTables}.

Definition kind_of (d : SourceDocument) : string := if String.eqb (sd_Kind d) "" then KindProse else sd_Kind d.
Definition id_of (d : SourceDocument) : string := trim_space (sd_ID d).

Definition is_strategy (p : Policy) (s : string) : bool := String.eqb (po_Strategy p) s.

(** The spans that the receipts of a role are made from. *)
Definition role_spans (p : Policy) (kind src role : string) : list span :=
  let fixed target overlap := fixedSpans src (Z.to_nat target) (Z.to_nat overlap) in
  if is_strategy p StrategyWholeDoc then [MkSpan 0 (String.length src)]
  else if is_strategy p StrategyFixed then fixed (po_TargetTokens p) (po_OverlapTokens p)
  else if is_strategy p StrategyStructure then structureSpans src kind (Z.to_nat (po_TargetTokens p)) (Z.to_nat (po_OverlapTokens p))
  else if String.eqb role RoleParent then fixed (po_ParentTargetTokens p) (po_ParentOverlapTokens p)
  else fixed (po_ChildTargetTokens p) (po_ChildOverlapTokens p).

(** The largest number of tokens a receipt of a role may hold. *)
Definition limit (p : Policy) (kind role : string) : option Z :=
  if is_strategy p StrategyWholeDoc then None
  else if is_strategy p StrategyFixed then Some (po_TargetTokens p)
  else if is_strategy p StrategyStructure then (if String.eqb kind KindSlides then None else Some (po_TargetTokens p))
  else Some (if String.eqb role RoleParent then po_ParentTargetTokens p else po_ChildTargetTokens p).

Definition role_receipts (p : Policy) (d : SourceDocument) (role : string) : list Receipt :=
  receiptsFor (id_of d) (kind_of d) (Source_of d) (role_spans p (kind_of d) (Source_of d) role) p role.

Lemma validate_window target overlap role :
  validateWindow target overlap role = Ok tt -> (16 <= target /\ 0 <= overlap < target)%Z /\ (Z.to_nat overlap < Z.to_nat target).
Proof.
  unfold validateWindow. destruct (Z.ltb_spec target 16); [done|]. destruct (Z.ltb_spec overlap 0); [done|]. destruct (Z.leb_spec target overlap); [done|]. lia.
Qed.

Inductive valid_policy (p : Policy) : Prop :=
| valid_whole : po_Strategy p = StrategyWholeDoc -> valid_policy p
| valid_flat s : po_Strategy p = s -> s = StrategyFixed \/ s = StrategyStructure -> validateWindow (po_TargetTokens p) (po_OverlapTokens p) "chunk" = Ok tt -> valid_policy p
| valid_pc : po_Strategy p = StrategyParentChild -> validateWindow (po_ParentTargetTokens p) (po_ParentOverlapTokens p) "parent" = Ok tt ->
    validateWindow (po_ChildTargetTokens p) (po_ChildOverlapTokens p) "child" = Ok tt -> valid_policy p.

Lemma Policy_Validate_valid p u : Policy_Validate p = Ok u -> valid_policy p /\ (1 <= po_Version p)%Z.
Proof.
  unfold Policy_Validate. destruct (String.eqb (po_ID p) ""); [done|]. destruct (Z.ltb_spec (po_Version p) 1); [done|]. destruct (String.eqb (po_TokenizerID p) ""); [done|].
  destruct (String.eqb_spec (po_Strategy p) StrategyWholeDoc); [split; [by apply valid_whole|done]|].
  destruct (String.eqb_spec (po_Strategy p) StrategyFixed) as [E|]; cbn [orb]; [intros; destruct u; split; [by eapply valid_flat; eauto|done]|].
  destruct (String.eqb_spec (po_Strategy p) StrategyStructure) as [E|]; [intros; destruct u; split; [by eapply valid_flat; eauto|done]|].
  destruct (String.eqb_spec (po_Strategy p) StrategyParentChild); [|done]. intros ([] & Hw1 & ([] & Hw2 & _)%rbind_Ok)%rbind_Ok. split; [by apply valid_pc|done].
Qed.

(** The chunks of a document are the receipts of its roles, children with their parent filled in. *)
Lemma chunk_document_spec p d :
  valid_policy p -> id_of d <> "" -> trim_space (Source_of d) <> "" ->
  chunk_document p d =
    if is_strategy p StrategyParentChild
    then (role_receipts p d RoleParent ++ assignParents (role_receipts p d RoleParent) (role_receipts p d RoleChunk))%list
    else role_receipts p d RoleChunk.
Proof.
  intros Hv Hid Hsrc. unfold chunk_document. cbv zeta. fold (id_of d). fold (kind_of d). rewrite (proj2 (String.eqb_neq _ _) Hid), (proj2 (String.eqb_neq _ _) Hsrc). cbn [orb].
  unfold role_receipts, role_spans, is_strategy. destruct Hv as [E|s E [-> | ->]|E]; rewrite E; reflexivity.
Qed.

Lemma chunk_document_blank p d : id_of d = "" \/ trim_space (Source_of d) = "" -> chunk_document p d = [].
Proof.
  unfold chunk_document. cbv zeta. fold (id_of d). intros [-> | ->]; [done|]. by rewrite orb_true_r.
Qed.

Definition same_chunk (r0 r : Receipt) : Prop := r = set_parent r0 (cr_ParentID r).

Lemma same_chunk_refl r : same_chunk r r.
Proof. by destruct r. Qed.

Lemma assigned_elem parents children r : r ∈ assignParents parents children -> exists r0, r0 ∈ children /\ same_chunk r0 r.
Proof. intros (r0 & -> & Hr)%list_elem_of_fmap. exists r0. split; [done|]. unfold same_chunk. destruct (best_parent r0 None 0 parents); by destruct r0. Qed.

Lemma assigned_rev parents children r0 : r0 ∈ children -> exists r, r ∈ assignParents parents children /\ same_chunk r0 r.
Proof.
  intros Hr. eexists. split; [by apply list_elem_of_fmap_2|]. unfold same_chunk. destruct (best_parent r0 None 0 parents); by destruct r0.
Qed.

Lemma chunk_elem p d r :
  valid_policy p -> r ∈ chunk_document p d -> id_of d <> "" /\ exists role r0, r0 ∈ role_receipts p d role /\ same_chunk r0 r /\ (role = RoleChunk \/ role = RoleParent /\ po_Strategy p = StrategyParentChild).
Proof.
  intros Hv Hr. destruct (decide (id_of d = "")) as [E|Hid]; [rewrite chunk_document_blank in Hr by (by left); set_solver|].
  destruct (decide (trim_space (Source_of d) = "")) as [E|Hsrc]; [rewrite chunk_document_blank in Hr by (by right); set_solver|]. split; [done|].
  rewrite chunk_document_spec in Hr by done. unfold is_strategy in Hr. destruct (String.eqb_spec (po_Strategy p) StrategyParentChild) as [E|E].
  - apply elem_of_app in Hr as [Hr|(r0 & Hr0 & Hs)%assigned_elem]; [exists RoleParent, r; split_and!; [done|apply same_chunk_refl|by right]|exists RoleChunk, r0; auto].
  - exists RoleChunk, r. split_and!; [done|apply same_chunk_refl|by left].
Qed.

Lemma chunk_rev p d r0 :
  valid_policy p -> id_of d <> "" -> trim_space (Source_of d) <> "" -> r0 ∈ role_receipts p d RoleChunk -> exists r, r ∈ chunk_document p d /\ same_chunk r0 r.
Proof.
  intros Hv Hid Hsrc Hr. rewrite chunk_document_spec by done. destruct (is_strategy p StrategyParentChild); [|exists r0; split; [done|apply same_chunk_refl]].
  destruct (assigned_rev (role_receipts p d RoleParent) _ r0 Hr) as (r & Hr' & Hs). exists r. split; [|done]. apply elem_of_app. by right.
Qed.

Lemma whole_good src : good src (MkSpan 0 (String.length src)).
Proof. split_and!; [apply clean_0|apply clean_end|cbn; lia]. Qed.

Lemma role_spans_good p kind src role : valid_policy p -> Forall (good src) (role_spans p kind src role).
Proof.
  assert (forall t o role, validateWindow t o role = Ok tt -> Forall (good src) (fixedSpans src (Z.to_nat t) (Z.to_nat o))) as Hf.
  { intros t o r Hw%validate_window. apply Forall_forall. intros sp Hsp. eapply fixedSpans_shape; [|exact Hsp]. lia. }
  unfold role_spans, is_strategy. intros [E|s E Hs Hw|E Hp Hc].
  - rewrite E. apply Forall_singleton, whole_good.
  - destruct Hs as [-> | ->]; rewrite E; cbn -[structureSpans fixedSpans]; [by eapply Hf|]. apply structureSpans_good. by apply validate_window in Hw as [_ Hw].
  - rewrite E. cbn -[fixedSpans]. destruct (String.eqb role RoleParent); by eapply Hf.
Qed.

Lemma role_spans_cover p kind src role x :
  valid_policy p -> solid src x -> ~ (po_Strategy p = StrategyStructure /\ on_separator src kind x) -> holds (role_spans p kind src role) x (S x).
Proof.
  intros Hv Hs Hn. unfold role_spans, is_strategy. destruct Hv as [E|s E Hst Hw|E Hp Hc].
  - rewrite E. apply holds_cons. left. apply solid_lt in Hs. split; cbn; lia.
  - apply validate_window in Hw as [_ Hw]. destruct Hst as [-> | ->]; rewrite E; cbn -[structureSpans fixedSpans]; [by apply fixedSpans_cover|].
    apply structureSpans_cover; [done|done|]. intros Ho. by apply Hn.
  - apply validate_window in Hp as [_ Hp], Hc as [_ Hc]. rewrite E. cbn -[fixedSpans]. destruct (String.eqb role RoleParent); by apply fixedSpans_cover.
Qed.

Lemma role_spans_bound p kind src role sp n :
  valid_policy p -> limit p kind role = Some n -> sp ∈ role_spans p kind src role -> (Z.of_nat (CountTokens (text_of src sp)) <= n)%Z.
Proof.
  assert (forall t o role, validateWindow t o role = Ok tt -> sp ∈ fixedSpans src (Z.to_nat t) (Z.to_nat o) -> (Z.of_nat (CountTokens (text_of src sp)) <= t)%Z) as Hf.
  { intros t o r [Hw1 Hw2]%validate_window (_ & _ & Hb)%fixedSpans_shape; lia. }
  unfold limit, role_spans, is_strategy. intros [E|s E Hs Hw|E Hp Hc] Hl Hsp.
  - by rewrite E in Hl.
  - destruct Hs as [-> | ->]; rewrite E in Hl, Hsp; cbn -[structureSpans fixedSpans] in Hl, Hsp; [injection Hl as <-; by eapply Hf|].
    destruct (String.eqb_spec kind KindSlides); [done|]. injection Hl as <-. apply validate_window in Hw as [Hw1 Hw2]. apply structureSpans_bound in Hsp; [lia|done|done].
  - rewrite E in Hl, Hsp. cbn -[fixedSpans] in Hl, Hsp. destruct (String.eqb role RoleParent); injection Hl as <-; by eapply Hf.
Qed.

Lemma faithful_same src r0 r : same_chunk r0 r -> faithful src r0 -> faithful src r.
Proof. intros ->. by destruct r0. Qed.

Lemma chunk_in docs p rs r : Chunk docs p = Ok rs -> valid_policy p /\ (1 <= po_Version p)%Z /\ (r ∈ rs <-> exists d, d ∈ docs /\ r ∈ chunk_document p d).
Proof.
  unfold Chunk. intros (u & [Hv Hver]%Policy_Validate_valid & [= <-])%rbind_Ok. split_and!; [done..|].
  rewrite list_elem_of_In, in_concat. setoid_rewrite <- list_elem_of_In. setoid_rewrite list_elem_of_fmap. naive_solver.
Qed.

(** ** Parents *)

Lemma best_parent_spec c b o ps :
  (best_parent c b o ps = b /\ forall q, q ∈ ps -> (overlap_of c q <= o)%Z) \/
  (exists q, q ∈ ps /\ best_parent c b o ps = Some q /\ (o < overlap_of c q)%Z /\ forall q', q' ∈ ps -> (overlap_of c q' <= overlap_of c q)%Z).
Proof.
  revert b o. induction ps as [|q ps IH]; intros b o; cbn [best_parent]; [left; split; [done|set_solver]|]. destruct (Z.ltb_spec o (overlap_of c q)) as [Hlt|Hge].
  - right. destruct (IH (Some q) (overlap_of c q)) as [[-> Hall]|(q' & Hq' & -> & Hlt' & Hall)].
    + exists q. split_and!; [left|done|done|]. intros q' [-> |Hq]%elem_of_cons; [lia|by apply Hall].
    + exists q'. split_and!; [by right|done|lia|]. intros q'' [-> |Hq]%elem_of_cons; [lia|by apply Hall].
  - destruct (IH b o) as [[-> Hall]|(q' & Hq' & -> & Hlt' & Hall)].
    + left. split; [done|]. intros q' [-> |Hq]%elem_of_cons; [lia|by apply Hall].
    + right. exists q'. split_and!; [by right|done|done|]. intros q'' [-> |Hq]%elem_of_cons; [lia|by apply Hall].
Qed.

Lemma role_receipts_faithful p d role r :
  valid_policy p -> r ∈ role_receipts p d role ->
  faithful (Source_of d) r /\ cr_DocumentID r = id_of d /\ cr_Role r = role /\
  (exists sp, sp ∈ role_spans p (kind_of d) (Source_of d) role /\ cr_Tokens r = CountTokens (text_of (Source_of d) sp)).
Proof. intros Hv Hr. pose proof (receipts_faithful (id_of d) (kind_of d) (Source_of d) p role _ (role_spans_good p (kind_of d) (Source_of d) role Hv)) as Hf. rewrite Forall_forall in Hf. by apply Hf. Qed.

Lemma role_receipts_tokens p d role r : valid_policy p -> r ∈ role_receipts p d role -> 0 < cr_Tokens r.
Proof.
  intros Hv. revert r. apply Forall_forall, receipts_loop_all; [by apply role_spans_good|]. intros n sp f l toks _ _ Hf _. cbn. fold toks. destruct toks; [done|cbn; lia].
Qed.

Lemma faithful_solid src r : faithful src r -> 0 < cr_Tokens r -> exists x, cr_Start r <= x < cr_End r /\ solid src x.
Proof.
  intros (Hg & _ & Ht & Hn & _) Hpos. rewrite Hn, Ht in Hpos. exact (token_solid src _ Hg Hpos).
Qed.

Lemma role_receipts_cover p d role x :
  valid_policy p -> solid (Source_of d) x -> ~ (po_Strategy p = StrategyStructure /\ on_separator (Source_of d) (kind_of d) x) ->
  exists r, r ∈ role_receipts p d role /\ cr_Start r <= x < cr_End r.
Proof.
  intros Hv Hs Hn. pose proof (role_spans_good p (kind_of d) (Source_of d) role Hv) as Hg. destruct (role_spans_cover p (kind_of d) (Source_of d) role x Hv Hs Hn) as (sp & Hsp & Hw).
  unfold within in Hw. pose proof Hg as Hg'. rewrite Forall_forall in Hg'.
  destruct (receipts_hold (id_of d) (kind_of d) (Source_of d) p role _ sp Hg Hsp) as (r & Hr & Hx); [apply (solid_has_token _ sp x); [by apply Hg'|lia|done]|].
  exists r. split; [done|]. apply Hx; [lia|done].
Qed.

(** ** Names *)

Lemma length_concat_elem {A} (l : list A) ls : l ∈ ls -> length l <= length (concat ls).
Proof. induction 1 as [|l l' ls _ IH]; cbn; rewrite length_app; lia. Qed.

Lemma last_separator_inj c a1 a2 r1 r2 :
  contains_char c r1 = false -> contains_char c r2 = false -> (a1 ++ String c r1)%string = (a2 ++ String c r2)%string -> a1 = a2 /\ r1 = r2.
Proof.
  intros H1' H2'. revert a2. induction a1 as [|x a1 IH]; intros [|y a2] E; cbn in E.
  - by injection E as ->.
  - injection E as -> ->. rewrite contains_char_app in H1'. cbn in H1'. rewrite Ascii.eqb_refl, orb_true_r in H1'. done.
  - injection E as -> <-. rewrite contains_char_app in H2'. cbn in H2'. rewrite Ascii.eqb_refl, orb_true_r in H2'. done.
  - injection E as -> E. destruct (IH a2 E) as [-> ->]. done.
Qed.

Lemma append_cancel s t u : (s ++ t)%string = (s ++ u)%string -> t = u.
Proof. induction s as [|c s IH]; cbn; [done|]. intros [= E]. by apply IH. Qed.

Definition HASH : ascii := "#"%char.

Lemma chunk_id_inj p d1 d2 role1 role2 s1 s2 :
  valid_policy p -> dec_range (po_Version p) -> dec_range (Z.of_nat s1) -> dec_range (Z.of_nat s2) ->
  (role1 = role2 \/ po_Strategy p = StrategyParentChild) -> role1 = RoleChunk \/ role1 = RoleParent -> role2 = RoleChunk \/ role2 = RoleParent ->
  chunk_id d1 p role1 s1 = chunk_id d2 p role2 s2 -> d1 = d2 /\ role1 = role2 /\ s1 = s2.
Proof.
  intros Hv Hver Hs1 Hs2 Hr Hr1 Hr2 E. unfold chunk_id in E.
  assert (forall role s, dec_range (Z.of_nat s) -> contains_char HASH (po_Strategy p ++ ".v" ++ dec (po_Version p) ++ "." ++ id_prefix p role ++ dec (Z.of_nat s)) = false) as Hno.
  { intros role s Hs. assert (contains_char HASH (po_Strategy p) = false) as Hst by (destruct Hv as [-> |? -> [-> | ->]| -> ]; done).
    rewrite !contains_char_app, Hst, !dec_no_char by done. unfold id_prefix. by repeat case_match. }
  apply (last_separator_inj HASH) in E as [-> E]; [|by apply Hno..]. split; [done|]. apply append_cancel in E. cbn in E. injection E as E. apply append_cancel in E. cbn in E. injection E as E.
  destruct (decide (role1 = role2)) as [-> |Hne].
  - split; [done|]. apply append_cancel, dec_inj in E; [lia|done|done].
  - destruct Hr as [|Hpc]; [done|]. unfold id_prefix in E. rewrite Hpc in E. destruct Hr1 as [-> | ->], Hr2 as [-> | ->]; done.
Qed.

Lemma receipts_loop_ids docID kind src p role n spans :
  let rs := receipts_loop docID kind src p role n spans in
  cr_ChunkID <$> rs = chunk_id docID p role <$> seq n (length rs).
Proof.
  cbn. revert n. induction spans as [|sp spans IH]; intros n; cbn [receipts_loop]; [done|]. destruct (head _); [destruct (last _)|]; try apply IH.
  cbn [length seq]. rewrite !fmap_cons, IH. done.
Qed.

Lemma assigned_ids parents children : cr_ChunkID <$> assignParents parents children = cr_ChunkID <$> children.
Proof. unfold assignParents. rewrite <- list_fmap_compose. apply list_fmap_ext. intros i r _. cbn. by destruct (best_parent r None 0 parents). Qed.
End chunk.
