(* ===== verification/ChunkingSafety.v ===== *)
(** * chunking: what the chunks of a document promise

    Chunks leave no solid byte of a document out, tear no passage shorter than
    the overlap and no block or table row that fits, stay within the target
    size, are named apart, and children have the parent they overlap most.  The
    one place where packing exceeds the target, a deck of slides, is shown by
    an example. *)

From Stdlib Require Import Ascii String.
From S2P Require Import Prelude GoString Float64 Runtime TextBound Composite Chunking ChunkingTokens ChunkingCover ChunkingBlocks ChunkingDocs.
Open Scope string_scope.
Open Scope nat_scope.

Section theorems.
Context `{GoRuntime} `{RuneTables}.

(** C26. Every byte of a non-space rune of a document that is chunked lies in a
    retrievable chunk whose text is the source at its offsets; the separator
    lines of a slide deck are the one exception of the structure strategy. *)
Theorem chunks_cover_document docs p rs d x :
  Chunk docs p = Ok rs -> d ∈ docs -> id_of d <> "" -> solid (Source_of d) x ->
  ~ (po_Strategy p = StrategyStructure /\ on_separator (Source_of d) (kind_of d) x) ->
  exists r, r ∈ rs /\ cr_DocumentID r = id_of d /\ cr_Role r = RoleChunk /\ faithful (Source_of d) r /\ cr_Start r <= x < cr_End r.
Proof.
  intros Hc Hd Hid Hs Hn. destruct (chunk_in docs p rs (MkReceipt "" "" "" "" "" "" "" 0 "" 0 0 0 0 "" "") Hc) as (Hv & _ & _).
  destruct (role_receipts_cover p d RoleChunk x Hv Hs Hn) as (r0 & Hr0 & Hx). destruct (role_receipts_faithful p d RoleChunk r0 Hv Hr0) as (Hf & Hdoc & Hrole & _).
  destruct (chunk_rev p d r0 Hv Hid) as (r & Hr & Hsame); [intros E; by apply (trim_space_blank _ x E)|done|].
  exists r. split; [apply (chunk_in docs p rs r Hc); by exists d|]. pose proof (faithful_same _ _ _ Hsame Hf). rewrite Hsame. by destruct r0.
Qed.

(** C29. Every receipt is cut from a document of the input at rune and token
    boundaries, is never empty, and counts and hashes its own text.  Under token
    windows it holds at most the target tokens, under the structure strategy too
    unless the document is a slide deck, and in a family at most the target of
    its role.  (Whole documents have no limit; a chunk of slides spans the
    separators between them and can exceed the target, [slides_exceed_target].) *)
Theorem chunks_are_bounded_slices docs p rs r :
  Chunk docs p = Ok rs -> r ∈ rs ->
  exists d, d ∈ docs /\ cr_DocumentID r = id_of d /\ faithful (Source_of d) r /\ 0 < cr_Tokens r /\
    (po_Strategy p = StrategyFixed -> (Z.of_nat (cr_Tokens r) <= po_TargetTokens p)%Z) /\
    (po_Strategy p = StrategyStructure -> kind_of d <> KindSlides -> (Z.of_nat (cr_Tokens r) <= po_TargetTokens p)%Z) /\
    (po_Strategy p = StrategyParentChild -> (Z.of_nat (cr_Tokens r) <= if String.eqb (cr_Role r) RoleParent then po_ParentTargetTokens p else po_ChildTargetTokens p)%Z).
Proof.
  intros Hc Hr. destruct (chunk_in docs p rs r Hc) as (Hv & _ & Hin). apply Hin in Hr as (d & Hd & Hr). exists d. split; [done|].
  destruct (chunk_elem p d r Hv Hr) as (_ & role & r0 & Hr0 & Hs & _). pose proof (role_receipts_tokens p d role r0 Hv Hr0) as Hpos.
  destruct (role_receipts_faithful p d role r0 Hv Hr0) as (Hf & Hdoc & Hrole & sp & Hsp & Ht). pose proof (faithful_same _ _ _ Hs Hf) as Hf'.
  assert (cr_DocumentID r = cr_DocumentID r0 /\ cr_Tokens r = cr_Tokens r0 /\ cr_Role r = cr_Role r0) as (-> & -> & ->) by (rewrite Hs; by destruct r0).
  assert (forall n, limit p (kind_of d) role = Some n -> (Z.of_nat (cr_Tokens r0) <= n)%Z) as Hl by (intros n Hn; rewrite Ht; by eapply role_spans_bound).
  unfold limit, is_strategy in Hl. rewrite Hrole. split_and!; [done..| | |].
  - intros E. apply Hl. by rewrite E.
  - intros E Hk. apply Hl. rewrite E. cbn. by rewrite (proj2 (String.eqb_neq _ _) Hk).
  - intros E. apply Hl. by rewrite E.
Qed.

(** With token windows, a passage of up to [overlap + 1] tokens is never
    torn: some retrievable chunk holds it whole. *)
Theorem passages_are_not_torn docs p rs d a m u v :
  Chunk docs p = Ok rs -> d ∈ docs -> id_of d <> "" -> passage (Source_of d) a m u v ->
  (po_Strategy p = StrategyFixed /\ (Z.of_nat m <= po_OverlapTokens p + 1)%Z \/
   po_Strategy p = StrategyParentChild /\ (Z.of_nat m <= po_ChildOverlapTokens p + 1)%Z) ->
  exists r, r ∈ rs /\ cr_DocumentID r = id_of d /\ cr_Role r = RoleChunk /\ cr_Start r <= u /\ v <= cr_End r.
Proof.
  intros Hc Hd Hid Hp Hm. destruct (chunk_in docs p rs (MkReceipt "" "" "" "" "" "" "" 0 "" 0 0 0 0 "" "") Hc) as (Hv & _ & _).
  assert (holds (role_spans p (kind_of d) (Source_of d) RoleChunk) u v) as (sp & Hsp & Hw).
  { unfold role_spans, is_strategy. destruct Hv as [E|s E Hs Hwin|E Hwp Hwin]; destruct Hm as [[E' Hm]|[E' Hm]];
      rewrite E in E'; try discriminate; try (destruct Hs; subst; discriminate); apply validate_window in Hwin as [Hz Hn].
    - rewrite E, E'. cbn -[fixedSpans]. eapply fixedSpans_hold; [done|done|lia].
    - rewrite E. cbn -[fixedSpans]. eapply fixedSpans_hold; [done|done|lia]. }
  pose proof (role_spans_good p (kind_of d) (Source_of d) RoleChunk Hv) as Hg. destruct (passage_ends _ _ _ _ _ Hp) as (Huv & Hu & Hv').
  unfold within in Hw. destruct (receipts_hold (id_of d) (kind_of d) (Source_of d) p RoleChunk _ sp Hg Hsp) as (r0 & Hr0 & Hx).
  { rewrite Forall_forall in Hg. apply (solid_has_token _ sp u); [by apply Hg|lia|done]. }
  fold (role_receipts p d RoleChunk) in Hr0. destruct (role_receipts_faithful p d RoleChunk r0 Hv Hr0) as (_ & Hdoc & Hrole & _).
  destruct (chunk_rev p d r0 Hv Hid) as (r & Hr & Hsame); [intros E; by apply (trim_space_blank _ u E)|done|].
  exists r. split; [apply (chunk_in docs p rs r Hc); by exists d|]. pose proof (Hx u ltac:(lia) Hu). pose proof (Hx (v - 1) ltac:(lia) Hv').
  rewrite Hsame. destruct r0; cbn in *. split_and!; [done|done|lia|lia].
Qed.

(** With the structure strategy a block that fits (a paragraph, a fenced
    region, a table, a slide, a turn) and a row that fits of a table that does
    not are never torn: one retrievable chunk has all their solid bytes. *)
Theorem blocks_are_not_torn docs p rs d b unit_ :
  Chunk docs p = Ok rs -> d ∈ docs -> id_of d <> "" -> po_Strategy p = StrategyStructure ->
  b ∈ splitBlocks (Source_of d) (kind_of d) ->
  (unit_ = b \/ kind_of d = KindTable /\ unit_ ∈ nonEmptyLineSpans (Source_of d) b) ->
  (0 < Z.of_nat (CountTokens (text_of (Source_of d) unit_)) <= po_TargetTokens p)%Z ->
  exists r, r ∈ rs /\ cr_DocumentID r = id_of d /\ cr_Role r = RoleChunk /\
    forall x, sp_start unit_ <= x < sp_end unit_ -> solid (Source_of d) x -> cr_Start r <= x < cr_End r.
Proof.
  intros Hc Hd Hid Hst Hb Hu Ht. destruct (chunk_in docs p rs (MkReceipt "" "" "" "" "" "" "" 0 "" 0 0 0 0 "" "") Hc) as (Hv & _ & _).
  set (src := Source_of d) in *. pose proof (role_spans_good p (kind_of d) src RoleChunk Hv) as Hg.
  assert (role_spans p (kind_of d) src RoleChunk = structureSpans src (kind_of d) (Z.to_nat (po_TargetTokens p)) (Z.to_nat (po_OverlapTokens p))) as Hsp
    by (unfold role_spans, is_strategy; rewrite Hst; reflexivity).
  assert (good src unit_) as Hgu.
  { destruct (splitBlocks_spec src (kind_of d)) as (Hgb & _ & _). rewrite Forall_forall in Hgb. destruct Hu as [-> |[_ Hu]]; [by apply Hgb|].
    destruct (nonEmptyLineSpans_spec src b (Hgb b Hb)) as (Hgl & _). rewrite Forall_forall in Hgl. by apply Hgl. }
  destruct (token_solid src unit_ Hgu ltac:(lia)) as (x0 & Hx0 & Hs0).
  assert (holds (role_spans p (kind_of d) src RoleChunk) (sp_start unit_) (sp_end unit_)) as (sp & Hin & Hw).
  { rewrite Hsp. destruct Hu as [-> |[Hk Hu]]; [apply structureSpans_blocks; [done|lia|lia]|]. rewrite Hk in *. eapply structureSpans_rows; [done|done|lia]. }
  unfold within in Hw. destruct (receipts_hold (id_of d) (kind_of d) src p RoleChunk _ sp Hg Hin) as (r0 & Hr0 & Hx).
  { rewrite Forall_forall in Hg. apply (solid_has_token _ sp x0); [by apply Hg|lia|done]. }
  change (r0 ∈ role_receipts p d RoleChunk) in Hr0. destruct (role_receipts_faithful p d RoleChunk r0 Hv Hr0) as (_ & Hdoc & Hrole & _).
  destruct (chunk_rev p d r0 Hv Hid) as (r & Hr & Hsame); [intros E; by apply (trim_space_blank _ x0 E)|done|].
  exists r. split; [apply (chunk_in docs p rs r Hc); by exists d|]. rewrite Hsame. destruct r0. cbn in *. split_and!; [done|done|]. intros x Hxx. apply Hx. lia.
Qed.

(** No child chunk is an orphan: its parent is a parent receipt of the same
    document that overlaps it, and none overlaps it more. *)
Theorem children_have_best_parent docs p rs r :
  Chunk docs p = Ok rs -> po_Strategy p = StrategyParentChild -> r ∈ rs -> cr_Role r = RoleChunk ->
  exists d q, d ∈ docs /\ q ∈ rs /\ cr_DocumentID r = id_of d /\ cr_DocumentID q = id_of d /\ cr_Role q = RoleParent /\ cr_ParentID r = cr_ChunkID q /\
    (0 < overlap_of r q)%Z /\ (forall q', q' ∈ chunk_document p d -> cr_Role q' = RoleParent -> (overlap_of r q' <= overlap_of r q)%Z).
Proof.
  intros Hc Hst Hr Hrole. destruct (chunk_in docs p rs r Hc) as (Hv & _ & Hin). apply Hin in Hr as (d & Hd & Hr).
  destruct (chunk_elem p d r Hv Hr) as (Hid & _).
  assert (trim_space (Source_of d) <> "") as Hsrc by (intros E; rewrite chunk_document_blank in Hr by (by right); set_solver).
  pose proof (chunk_document_spec p d Hv Hid Hsrc) as Hdoc. unfold is_strategy in Hdoc. rewrite Hst in Hdoc. cbn [String.eqb] in Hdoc.
  change (chunk_document p d = (role_receipts p d RoleParent ++ assignParents (role_receipts p d RoleParent) (role_receipts p d RoleChunk))%list) in Hdoc.
  rewrite Hdoc in Hr. apply elem_of_app in Hr as [Hr|(r0 & -> & Hr0)%list_elem_of_fmap].
  { destruct (role_receipts_faithful p d _ r Hv Hr) as (_ & _ & Hp & _). by rewrite Hp in Hrole. }
  destruct (role_receipts_faithful p d _ r0 Hv Hr0) as (Hf & Hdoc0 & _). pose proof (role_receipts_tokens p d _ r0 Hv Hr0) as Hpos.
  destruct (faithful_solid _ _ Hf Hpos) as (x & Hx & Hs).
  destruct (role_receipts_cover p d RoleParent x Hv Hs) as (q0 & Hq0 & Hxq); [intros [E _]; by rewrite E in Hst|].
  destruct (best_parent_spec r0 None 0 (role_receipts p d RoleParent)) as [[_ Hall]|(q & Hq & -> & Hov & Hall)].
  { specialize (Hall q0 Hq0). unfold overlap_of in Hall. lia. }
  destruct (role_receipts_faithful p d _ q Hv Hq) as (_ & Hqd & Hqr & _).
  exists d, q. split_and!; [done| |by destruct r0|done|done|by destruct r0|by destruct r0|].
  - apply (chunk_in docs p rs q Hc). exists d. split; [done|]. rewrite Hdoc. apply elem_of_app. by left.
  - intros q' Hq' Hr'. rewrite Hdoc in Hq'. apply elem_of_app in Hq' as [Hq'|(q1 & Hq1 & Hsame)%assigned_elem].
    + specialize (Hall q' Hq'). by destruct r0.
    + destruct (role_receipts_faithful p d _ q1 Hv Hq1) as (_ & _ & Hq1r & _). rewrite Hsame in Hr'. destruct q1. cbn in *. by subst.
Qed.

Lemma role_receipts_ids p d role : cr_ChunkID <$> role_receipts p d role = chunk_id (id_of d) p role <$> seq 0 (length (role_receipts p d role)).
Proof. apply receipts_loop_ids. Qed.

(** The ids of one document, with the key that each is made from. *)
Lemma document_ids p d :
  valid_policy p -> exists keys : list (string * nat),
    cr_ChunkID <$> chunk_document p d = (fun k => chunk_id (id_of d) p k.1 k.2) <$> keys /\ NoDup keys /\ length keys = length (chunk_document p d) /\
    forall k, k ∈ keys -> k.2 < length (chunk_document p d) /\ (k.1 = RoleChunk \/ k.1 = RoleParent /\ po_Strategy p = StrategyParentChild).
Proof.
  intros Hv. destruct (decide (id_of d = "" \/ trim_space (Source_of d) = "")) as [Hb|Hb].
  { exists []. rewrite chunk_document_blank by done. split_and!; [done|constructor|done|set_solver]. }
  assert (forall (role : string) n, NoDup ((pair role) <$> seq 0 n)) as Hnd by (intros role n; apply NoDup_fmap_2; [intros a b [=]; done|apply NoDup_seq]).
  rewrite chunk_document_spec by tauto. unfold is_strategy. destruct (String.eqb_spec (po_Strategy p) StrategyParentChild) as [Hst|Hst].
  - set (ps := role_receipts p d RoleParent). set (cs := role_receipts p d RoleChunk).
    exists ((pair RoleParent <$> seq 0 (length ps)) ++ (pair RoleChunk <$> seq 0 (length cs)))%list. rewrite !fmap_app, assigned_ids. unfold ps at 1, cs at 1.
    rewrite !role_receipts_ids, <- !list_fmap_compose. split_and!; [done| | |].
    + apply NoDup_app. split_and!; [apply Hnd| |apply Hnd]. intros k (a & -> & _)%list_elem_of_fmap (b & [=] & _)%list_elem_of_fmap.
    + unfold assignParents. by rewrite !length_app, !length_fmap, !length_seq.
    + unfold assignParents. rewrite length_app, length_fmap. intros k [(a & -> & Ha)%list_elem_of_fmap|(a & -> & Ha)%list_elem_of_fmap]%elem_of_app;
        apply elem_of_seq in Ha; cbn; split; [lia|by right|lia|by left].
  - exists (pair RoleChunk <$> seq 0 (length (role_receipts p d RoleChunk))). rewrite role_receipts_ids, <- list_fmap_compose. split_and!; [done|apply Hnd|by rewrite length_fmap, length_seq|].
    intros k (a & -> & Ha)%list_elem_of_fmap. apply elem_of_seq in Ha. cbn. split; [lia|by left].
Qed.

Lemma small_range n m : (Z.of_nat m < 2 ^ 63)%Z -> n < m -> dec_range (Z.of_nat n).
Proof. intros Hm Hn. split; [lia|]. apply (Z.lt_trans _ (2 ^ 63)); [lia|done]. Qed.

(** The chunks of documents with different names have different names. *)
Theorem chunk_names_are_unique docs p rs :
  Chunk docs p = Ok rs -> NoDup (id_of <$> docs) -> (po_Version p < 2 ^ 63)%Z -> (Z.of_nat (length rs) < 2 ^ 63)%Z -> NoDup (cr_ChunkID <$> rs).
Proof.
  intros Hc Hnd Hver Hlen. destruct (chunk_in docs p rs (MkReceipt "" "" "" "" "" "" "" 0 "" 0 0 0 0 "" "") Hc) as (Hv & Hver' & _).
  assert (rs = concat (chunk_document p <$> docs)) as -> by (unfold Chunk in Hc; apply rbind_Ok in Hc as (? & _ & [= <-]); done). clear Hc.
  assert (dec_range (po_Version p)) as Hd by (split; [lia|]; apply (Z.lt_trans _ (2 ^ 63)); done).
  induction docs as [|d docs IH]; cbn [fmap list_fmap concat]; [constructor|]. inversion Hnd as [|? ? Hnew Hnd']; subst.
  change (concat (chunk_document p <$> d :: docs)) with (chunk_document p d ++ concat (chunk_document p <$> docs))%list in Hlen. rewrite length_app in Hlen.
  rewrite fmap_app. apply NoDup_app. destruct (document_ids p d Hv) as (keys & -> & Hk & Hl & Hin). split_and!; [| |apply IH; [done|lia]].
  - apply NoDup_fmap_2_strong; [|done]. intros [r1 s1] [r2 s2] H1 H2 E. apply Hin in H1 as [H1 R1], H2 as [H2 R2]. cbn in *.
    apply chunk_id_inj in E as (_ & -> & ->); [done|done|done|by eapply (small_range _ (length (chunk_document p d))); [lia|]..|naive_solver|naive_solver|naive_solver].
  - intros i ([r1 s1] & -> & H1)%list_elem_of_fmap (r & Hr & Hrs)%list_elem_of_fmap. apply Hin in H1 as [H1 R1]. cbn in *.
    apply list_elem_of_In, in_concat in Hrs as (l & (d' & Hd' & Hd'')%list_elem_of_In%list_elem_of_fmap & Hrl). subst l. apply list_elem_of_In in Hrl.
    assert (length (chunk_document p d') <= length (concat (chunk_document p <$> docs))) as Hle by (by apply length_concat_elem, list_elem_of_fmap_2).
    destruct (document_ids p d' Hv) as (keys' & Ek & _ & _ & Hin'). pose proof (list_elem_of_fmap_2 cr_ChunkID _ _ Hrl) as Hid. rewrite Ek in Hid.
    apply list_elem_of_fmap in Hid as ([r2 s2] & Eid & [H2 R2]%Hin'). cbn in *. rewrite <- Hr in Eid. apply chunk_id_inj in Eid as (Ed & _);
      [|done|done|by eapply (small_range _ (length (chunk_document p d))); [lia|]|by eapply (small_range _ (length (chunk_document p d'))); [lia|]|naive_solver..].
    apply Hnew. rewrite Ed. by apply list_elem_of_fmap_2.
Qed.
End theorems.

(** ** Examples *)

(** ** A deck of slides that exceeds the target *)

Definition deck : SourceDocument :=
  MkDocument "deck" "" ("a b c d e f g h" ++ String NL "---" ++ String NL "i j k l m n o p")%string "" KindSlides.

Definition sixteen (strategy : string) : Policy := MkPolicy PolicyID 1 TokenizerID strategy 16 4 0 0 0 0.

(** Two slides of eight tokens are packed into a chunk of at most sixteen, but
    the chunk spans the separator between them and holds seventeen tokens. *)
Theorem slides_exceed_target `{GoRuntime} `{RuneTables} :
  Policy_Validate (sixteen StrategyStructure) = Ok tt /\
  exists r, Chunk [deck] (sixteen StrategyStructure) = Ok [r] /\ cr_Tokens r = 17 /\ cr_Start r = 0 /\ cr_End r = String.length (Source_of deck) /\
    (po_TargetTokens (sixteen StrategyStructure) < Z.of_nat (cr_Tokens r))%Z.
Proof.
  split; [reflexivity|]. eexists. split; [vm_compute; reflexivity|]. split_and!; reflexivity.
Qed.

(** ** Applications *)

#[local] Instance chunk_runtime : GoRuntime := {|
  sha256_hex := fun s => "h" ++ s; rfc3339nano_ok := fun _ => true; quote := fun s => s; to_lower := fun s => s;
  equal_fold := String.eqb; int_out_of_range := fun _ => 0%Z |}.

#[local] Instance ascii_tables : RuneTables := {| letter_or_number := fun r => ((48 <=? r) && (r <=? 57) || (65 <=? r) && (r <=? 90) || (97 <=? r) && (r <=? 122))%Z |}.

Definition letters : string := "a b c d e f g h i j k l m n o p q r s t u v w x y z".
Definition note : SourceDocument := MkDocument "note" "Title" letters "" "".
Definition table_row (c : string) : string := "|" ++ c ++ " 1 2 3 4 5 6 7 8 9|".
Definition sheet : SourceDocument :=
  MkDocument "sheet" "" (join (String NL "") [table_row "a"; table_row "b"; table_row "c"]) "" KindTable.
Definition family : Policy := MkPolicy PolicyID 1 TokenizerID StrategyParentChild 0 0 20 2 16 4.

Definition chunks_of (docs : list SourceDocument) (p : Policy) : list Receipt := match Chunk docs p with Ok rs => rs | Err _ => [] end.

Lemma chunks_cover_document_witness :
  exists r, r ∈ chunks_of [note; sheet] (sixteen StrategyFixed) /\ cr_DocumentID r = "note" /\ cr_Role r = RoleChunk /\ faithful (Source_of note) r /\ cr_Start r <= 7 < cr_End r.
Proof.
  apply (chunks_cover_document [note; sheet] (sixteen StrategyFixed) (chunks_of [note; sheet] (sixteen StrategyFixed)) note 7).
  - vm_compute; reflexivity.
  - apply list_elem_of_here.
  - intros E. vm_compute in E. discriminate E.
  - apply (word_solid _ (7, 8)); [|cbn; lia]. apply (list_elem_of_lookup_2 _ 1). vm_compute. reflexivity.
  - intros [E _]. discriminate E.
Defined.

Definition blank_chunk : Receipt := MkReceipt "" "" "" "" "" "" "" 0 "" 0 0 0 0 "" "".
Definition chunk_at (n : nat) (docs : list SourceDocument) (p : Policy) : Receipt := nth n (chunks_of docs p) blank_chunk.

Lemma chunk_at_in n docs p : n < length (chunks_of docs p) -> chunk_at n docs p ∈ chunks_of docs p.
Proof. intros Hn. by apply list_elem_of_In, nth_In. Qed.

Lemma chunks_are_bounded_slices_witness :
  exists d, d ∈ [note; sheet] /\ id_of d = "note" /\ faithful (Source_of d) (chunk_at 0 [note; sheet] (sixteen StrategyFixed)) /\
    (Z.of_nat (cr_Tokens (chunk_at 0 [note; sheet] (sixteen StrategyFixed))) <= 16)%Z.
Proof.
  destruct (chunks_are_bounded_slices [note; sheet] (sixteen StrategyFixed) (chunks_of [note; sheet] (sixteen StrategyFixed))
    (chunk_at 0 [note; sheet] (sixteen StrategyFixed))) as (d & Hd & Hid & Hf & _ & Hlim & _).
  - vm_compute; reflexivity.
  - apply chunk_at_in. vm_compute. lia.
  - exists d. split; [exact Hd|]. split; [rewrite <- Hid; vm_compute; reflexivity|]. split; [exact Hf|]. apply Hlim. reflexivity.
Defined.

Lemma passages_are_not_torn_witness :
  exists r, r ∈ chunks_of [note] (sixteen StrategyFixed) /\ cr_DocumentID r = "note" /\ cr_Role r = RoleChunk /\ cr_Start r <= 35 /\ 44 <= cr_End r.
Proof.
  apply (passages_are_not_torn [note] (sixteen StrategyFixed) (chunks_of [note] (sixteen StrategyFixed)) note 15 5 35 44).
  - vm_compute; reflexivity.
  - apply list_elem_of_here.
  - intros E. vm_compute in E. discriminate E.
  - split; [lia|]. split; vm_compute; reflexivity.
  - left. split; [reflexivity|vm_compute; discriminate].
Defined.

Definition row_b : span := nth 1 (nonEmptyLineSpans (Source_of sheet) (nth 0 (splitBlocks (Source_of sheet) KindTable) (MkSpan 0 0))) (MkSpan 0 0).

Lemma blocks_are_not_torn_witness :
  exists r, r ∈ chunks_of [sheet] (sixteen StrategyStructure) /\ cr_DocumentID r = "sheet" /\ cr_Role r = RoleChunk /\
    forall x, sp_start row_b <= x < sp_end row_b -> solid (Source_of sheet) x -> cr_Start r <= x < cr_End r.
Proof.
  apply (blocks_are_not_torn [sheet] (sixteen StrategyStructure) (chunks_of [sheet] (sixteen StrategyStructure)) sheet
    (nth 0 (splitBlocks (Source_of sheet) KindTable) (MkSpan 0 0)) row_b).
  - vm_compute; reflexivity.
  - apply list_elem_of_here.
  - intros E. vm_compute in E. discriminate E.
  - reflexivity.
  - apply list_elem_of_In, nth_In. vm_compute. lia.
  - right. split; [vm_compute; reflexivity|]. apply list_elem_of_In, nth_In. vm_compute. lia.
  - vm_compute. split; [reflexivity|discriminate].
Defined.

Lemma children_have_best_parent_witness :
  exists q, q ∈ chunks_of [note] family /\ cr_ParentID (chunk_at 2 [note] family) = cr_ChunkID q /\ (0 < overlap_of (chunk_at 2 [note] family) q)%Z.
Proof.
  destruct (children_have_best_parent [note] family (chunks_of [note] family) (chunk_at 2 [note] family)) as (d & q & _ & Hq & _ & _ & _ & Hid & Hov & _).
  - vm_compute; reflexivity.
  - reflexivity.
  - apply chunk_at_in. vm_compute. lia.
  - vm_compute. reflexivity.
  - exists q. exact (conj Hq (conj Hid Hov)).
Defined.

Lemma chunk_names_are_unique_witness : NoDup (cr_ChunkID <$> chunks_of [note; sheet] family).
Proof.
  apply (chunk_names_are_unique [note; sheet] family).
  - vm_compute; reflexivity.
  - apply NoDup_cons. split; [|apply NoDup_singleton]. intros E%list_elem_of_singleton. vm_compute in E. discriminate E.
  - reflexivity.
  - vm_compute. reflexivity.
Defined.

(** The example policies are valid and the examples are cut as expected. *)
Example note_chunks : cr_ChunkID <$> chunks_of [note] family = ["note#parent_child.v1.p0"; "note#parent_child.v1.p1"; "note#parent_child.v1.c0"; "note#parent_child.v1.c1"].
Proof. vm_compute. reflexivity. Qed.

Example sheet_rows : cr_Tokens <$> chunks_of [sheet] (sixteen StrategyStructure) = [10; 10; 10].
Proof. vm_compute. reflexivity. Qed.
