(* ===== verification/Vault.v ===== *)
(** * artifactvault: encrypted artifact storage

    Models [services/brain/internal/artifactvault]: the limits and records of
    types.go, the frame envelopes of crypto.go, the object store of
    localstore.go, the repository interface with the in-memory repository of
    metadata.go, and the vault of vault.go.

    Byte strings are [string]s.  AES-GCM is the parameter [AEAD]; key material
    comes from [Resolver]; randomness is a stream that is read from the front.
    Every system call of the object store and every check of a context may fail:
    [Faults] says which of them do. *)

From Stdlib Require Import Ascii String.
From S2P Require Import Prelude GoString Float64 Runtime Contracts Composite.
From stdpp Require Import gmap strings.
Open Scope string_scope.
Open Scope Z_scope.

(** ** types.go *)

Definition defaultFrameBytes : Z := 64 * 1024.
Definition defaultMaxRead : Z := 16 * 1024 * 1024.
Definition maxArtifactBytes : Z := 2 ^ 40.
Definition maxFrameBytes : Z := 16 * 1024 * 1024.
Definition maxReadBytes : Z := 64 * 1024 * 1024.
Definition maxFrameCount : Z := 1048576.
Definition frameHeaderBytes : Z := 8 + 8 + 4 + 12 + 48 + 12.
Definition maxObjectBytes : Z := maxFrameBytes + frameHeaderBytes + 16.

(** [ErrIO] stands for the errors of the operating system and of a cancelled context; [ErrAlso] for [errors.Join]. *)
Inductive vault_error :=
| ErrInvalid | ErrNotFound | ErrConflict | ErrStaleGeneration | ErrIncomplete | ErrCorrupt | ErrQuarantined | ErrTombstoned
| ErrIO (what : string) | ErrAlso (err cleanup : vault_error).

Definition join_errors (err : vault_error) (cleanup : list vault_error) : vault_error := fold_left ErrAlso cleanup err.

Inductive VaultStatus := StatusStaged | StatusPublished | StatusTombstoned | StatusPurged | StatusQuarantined.

#[export] Instance VaultStatus_eq_dec : EqDecision VaultStatus.
Proof. solve_decision. Defined.

Record ArtifactManifest := MkArtifactManifest {
  am_Artifact : Identifier; am_Tenant : Identifier; am_Digest : Digest; am_Generation : Z; am_KeyEpoch : Z; am_Length : Z; am_FrameCount : Z
}.

#[export] Instance ArtifactManifest_eq_dec : EqDecision ArtifactManifest.
Proof. solve_decision. Defined.

Record FrameRecord := MkFrame { fr_Index : Z; fr_Offset : Z; fr_Length : Z; fr_ObjectDigest : Digest }.

Record GenerationRecord := MkGeneration {
  gr_Manifest : ArtifactManifest; gr_Locator : string; gr_Frames : list FrameRecord; gr_Status : VaultStatus; gr_Fence : Z
}.

Definition set_status (s : VaultStatus) (r : GenerationRecord) : GenerationRecord := MkGeneration (gr_Manifest r) (gr_Locator r) (gr_Frames r) s (gr_Fence r).
Definition set_frames (fs : list FrameRecord) (r : GenerationRecord) : GenerationRecord := MkGeneration (gr_Manifest r) (gr_Locator r) fs (gr_Status r) (gr_Fence r).

(** contracts.go: the requests of the vault *)
Record ArtifactStageRequest := MkStage { sr_Manifest : ArtifactManifest; sr_ExpectedGeneration : Z }.
Record ArtifactPublishRequest := MkPublish { pr_Manifest : ArtifactManifest; pr_ExpectedGeneration : Z }.
Record ArtifactReadRequest := MkRead { rr_Artifact : Identifier; rr_Tenant : Identifier; rr_Generation : Z; rr_Offset : Z; rr_Length : Z }.
Record ArtifactReconcileRequest := MkReconcile { rq_Artifact : Identifier; rq_Tenant : Identifier; rq_ObservedGeneration : Z }.
Record TombstoneRequest := MkTombstoneRequest { tr_Artifact : Identifier; tr_Tenant : Identifier; tr_ExpectedGeneration : Z; tr_ReasonCode : string }.
Record PurgeRequest := MkPurgeRequest { pu_Artifact : Identifier; pu_Tenant : Identifier; pu_TombstoneReceipt : Receipt; pu_KeyEpoch : Z }.

Definition uintString (value : Z) : string := dec value.

(** ** crypto.go *)

(** [cipher.NewGCM]: sealing and opening with a key, a nonce and additional data. *)
Class AEAD := {
  aead_seal : string -> string -> string -> string -> string;
  aead_open : string -> string -> string -> string -> option string
}.

Definition RootKeyBytes : Z := 32.
Definition frameMagic : string := "OUROFRM1".

Definition aes_key (key : string) : bool := (len key =? 16) || (len key =? 24) || (len key =? 32).

(** [copy] into a fresh field of [n] bytes. *)
Definition field (n : nat) (s : string) : string := str_take n s ++ str_of_bytes (replicate (n - String.length s) 0).

(** [s[a:b]] *)
Definition sub (s : string) (a b : nat) : string := str_take (b - a) (str_drop a s).

(** [binary.BigEndian]: the low [n] bytes of [z], the highest first. *)
Fixpoint be_bytes (n : nat) (z : Z) : string :=
  match n with O => "" | S n' => String (byte_of_Z (z / 256 ^ Z.of_nat n' mod 256)) (be_bytes n' z) end.

Fixpoint be_value (acc : Z) (s : string) : Z :=
  match s with EmptyString => acc | String c s' => be_value (256 * acc + byte_val c) s' end.

(** [io.ReadFull]: a short stream is used up and fails. *)
Definition read_full (n : nat) (stream : string) : string * option string :=
  if (n <=? String.length stream)%nat then (str_drop n stream, Some (str_take n stream)) else ("", None).

(** ** The repository interface of types.go *)

Class Repository (R : Type) := {
  BeginStage : ArtifactStageRequest -> string -> R -> R * result vault_error (GenerationRecord * bool);
  CompleteStage : GenerationRecord -> R -> R * result vault_error unit;
  AbortStage : GenerationRecord -> R -> R * result vault_error unit;
  GetGeneration : Identifier -> Identifier -> Z -> R -> result vault_error GenerationRecord;
  PublishGeneration : ArtifactPublishRequest -> R -> R * result vault_error GenerationRecord;
  QuarantineGeneration : Identifier -> Identifier -> Z -> R -> R * result vault_error unit;
  TombstoneGeneration : TombstoneRequest -> R -> R * result vault_error GenerationRecord;
  PreparePurge : PurgeRequest -> Z -> R -> result vault_error GenerationRecord;
  CompletePurge : GenerationRecord -> R -> R * result vault_error unit
}.

(** ** metadata.go *)

Record MemoryRepository := MkMemory { mr_records : gmap string GenerationRecord; mr_current : gmap string Z; mr_next : Z }.

Definition NewMemoryRepository : MemoryRepository := MkMemory ∅ ∅ 0.

Definition artifactKey (tenant artifact : Identifier) : string := encodeComposite [Value tenant; Value artifact].
Definition generationKey (tenant artifact : Identifier) (generation : Z) : string := encodeComposite [Value tenant; Value artifact; uintString generation].

Definition manifest_key (m : ArtifactManifest) : string := generationKey (am_Tenant m) (am_Artifact m) (am_Generation m).

Definition complete (r : GenerationRecord) : bool := Z.of_nat (length (gr_Frames r)) =? am_FrameCount (gr_Manifest r).

Module Memory.
Definition current (r : MemoryRepository) (tenant artifact : Identifier) : Z := default 0 (mr_current r !! artifactKey tenant artifact).
Definition put (key : string) (g : GenerationRecord) (r : MemoryRepository) : MemoryRepository := MkMemory (<[key := g]> (mr_records r)) (mr_current r) (mr_next r).

Definition BeginStage (q : ArtifactStageRequest) (locator : string) (r : MemoryRepository) : MemoryRepository * result vault_error (GenerationRecord * bool) :=
  let m := sr_Manifest q in
  let cur := current r (am_Tenant m) (am_Artifact m) in
  if negb (cur =? sr_ExpectedGeneration q) || negb (am_Generation m =? wrapU64 (cur + 1)) then (r, Err ErrStaleGeneration)
  else match mr_records r !! manifest_key m with
  | Some existing =>
      if negb (bool_decide (gr_Manifest existing = m)) then (r, Err ErrConflict)
      else if complete existing then (r, Ok (existing, true)) else (r, Err ErrConflict)
  | None =>
      let g := MkGeneration m locator [] StatusStaged (wrapU64 (mr_next r + 1)) in
      (MkMemory (<[manifest_key m := g]> (mr_records r)) (mr_current r) (wrapU64 (mr_next r + 1)), Ok (g, false))
  end.

Definition CompleteStage (g : GenerationRecord) (r : MemoryRepository) : MemoryRepository * result vault_error unit :=
  match mr_records r !! manifest_key (gr_Manifest g) with
  | None => (r, Err ErrConflict)
  | Some existing =>
      if negb (gr_Fence existing =? gr_Fence g) || negb (bool_decide (gr_Status existing = StatusStaged)) then (r, Err ErrConflict)
      else if negb (complete g) then (r, Err ErrIncomplete)
      else (put (manifest_key (gr_Manifest g)) (set_frames (gr_Frames g) existing) r, Ok tt)
  end.

Definition AbortStage (g : GenerationRecord) (r : MemoryRepository) : MemoryRepository * result vault_error unit :=
  match mr_records r !! manifest_key (gr_Manifest g) with
  | None => (r, Ok tt)
  | Some existing =>
      if negb (gr_Fence existing =? gr_Fence g) || negb (length (gr_Frames existing) =? 0)%nat || negb (bool_decide (gr_Status existing = StatusStaged))
      then (r, Err ErrConflict)
      else (MkMemory (delete (manifest_key (gr_Manifest g)) (mr_records r)) (mr_current r) (mr_next r), Ok tt)
  end.

Definition Get (tenant artifact : Identifier) (generation : Z) (r : MemoryRepository) : result vault_error GenerationRecord :=
  match mr_records r !! generationKey tenant artifact generation with Some g => Ok g | None => Err ErrNotFound end.

Definition Publish (q : ArtifactPublishRequest) (r : MemoryRepository) : MemoryRepository * result vault_error GenerationRecord :=
  let m := pr_Manifest q in
  let cur := current r (am_Tenant m) (am_Artifact m) in
  let advance :=
    if negb (cur =? pr_ExpectedGeneration q) || negb (am_Generation m =? wrapU64 (pr_ExpectedGeneration q + 1)) then (r, Err ErrStaleGeneration)
    else match mr_records r !! manifest_key m with
    | None => (r, Err ErrIncomplete)
    | Some g =>
        if negb (complete g) then (r, Err ErrIncomplete)
        else if negb (bool_decide (gr_Manifest g = m)) then (r, Err ErrConflict)
        else if negb (bool_decide (gr_Status g = StatusStaged)) then (r, Err ErrConflict)
        else
          let g' := set_status StatusPublished g in
          (MkMemory (<[manifest_key m := g']> (mr_records r)) (<[artifactKey (am_Tenant m) (am_Artifact m) := am_Generation (gr_Manifest g)]> (mr_current r)) (mr_next r),
           Ok g')
    end in
  match mr_records r !! manifest_key m with
  | Some g =>
      if bool_decide (gr_Status g = StatusPublished) && (cur =? am_Generation (gr_Manifest g)) then
        if negb (pr_ExpectedGeneration q =? wrapU64 (am_Generation (gr_Manifest g) - 1)) || negb (bool_decide (gr_Manifest g = m)) then (r, Err ErrConflict) else (r, Ok g)
      else advance
  | None => advance
  end.

Definition Quarantine (tenant artifact : Identifier) (generation : Z) (r : MemoryRepository) : MemoryRepository * result vault_error unit :=
  match mr_records r !! generationKey tenant artifact generation with
  | None => (r, Err ErrNotFound)
  | Some g =>
      if bool_decide (gr_Status g = StatusPurged) then (r, Err ErrConflict)
      else (put (generationKey tenant artifact generation) (set_status StatusQuarantined g) r, Ok tt)
  end.

Definition Tombstone (q : TombstoneRequest) (r : MemoryRepository) : MemoryRepository * result vault_error GenerationRecord :=
  if (tr_ExpectedGeneration q =? 0) || negb (current r (tr_Tenant q) (tr_Artifact q) =? tr_ExpectedGeneration q) then (r, Err ErrStaleGeneration)
  else match mr_records r !! generationKey (tr_Tenant q) (tr_Artifact q) (tr_ExpectedGeneration q) with
  | None => (r, Err ErrNotFound)
  | Some g =>
      if bool_decide (gr_Status g = StatusTombstoned) then (r, Ok g)
      else if negb (bool_decide (gr_Status g = StatusPublished)) then (r, Err ErrConflict)
      else (put (generationKey (tr_Tenant q) (tr_Artifact q) (tr_ExpectedGeneration q)) (set_status StatusTombstoned g) r, Ok (set_status StatusTombstoned g))
  end.

Definition PreparePurge (q : PurgeRequest) (generation : Z) (r : MemoryRepository) : result vault_error GenerationRecord :=
  match mr_records r !! generationKey (pu_Tenant q) (pu_Artifact q) generation with
  | None => Err ErrTombstoned
  | Some g =>
      if negb (am_KeyEpoch (gr_Manifest g) =? pu_KeyEpoch q)
         || (negb (bool_decide (gr_Status g = StatusTombstoned)) && negb (bool_decide (gr_Status g = StatusPurged))) then Err ErrTombstoned
      else Ok g
  end.

Definition CompletePurge (g : GenerationRecord) (r : MemoryRepository) : MemoryRepository * result vault_error unit :=
  match mr_records r !! manifest_key (gr_Manifest g) with
  | None => (r, Err ErrConflict)
  | Some existing =>
      if negb (gr_Fence existing =? gr_Fence g) then (r, Err ErrConflict)
      else if bool_decide (gr_Status existing = StatusPurged) then (r, Ok tt)
      else if negb (bool_decide (gr_Status existing = StatusTombstoned)) then (r, Err ErrConflict)
      else (put (manifest_key (gr_Manifest g)) (set_status StatusPurged existing) r, Ok tt)
  end.
End Memory.

#[export] Instance Memory_repository : Repository MemoryRepository := {|
  BeginStage := Memory.BeginStage; CompleteStage := Memory.CompleteStage; AbortStage := Memory.AbortStage; GetGeneration := Memory.Get;
  PublishGeneration := Memory.Publish; QuarantineGeneration := Memory.Quarantine; TombstoneGeneration := Memory.Tombstone;
  PreparePurge := Memory.PreparePurge; CompletePurge := Memory.CompletePurge |}.

Abbreviation Objects := (gmap string string).

Section vault.
Context `{GoRuntime} `{AEAD}.

Definition frameAAD (record : GenerationRecord) (index : Z) : string :=
  let m := gr_Manifest record in
  encodeComposite ["tenant"; Value (am_Tenant m); "kind"; "artifact-frame"; "locator"; gr_Locator record; "artifact"; Value (am_Artifact m);
    "generation"; uintString (am_Generation m); "frame"; uintString index].

Definition envelope_of (epoch : Z) (plain wrapNonce wrapped dataNonce ciphertext : string) : string :=
  frameMagic ++ be_bytes 8 epoch ++ be_bytes 4 (len plain) ++ field 12 wrapNonce ++ field 48 wrapped ++ field 12 dataNonce ++ ciphertext.

Definition encryptFrame (root : string) (record : GenerationRecord) (index : Z) (plaintext random : string) : string * result vault_error string :=
  if negb (len root =? RootKeyBytes) || String.eqb plaintext "" then (random, Err ErrInvalid)
  else match read_full 32 random with
  | (random, None) => (random, Err (ErrIO "generate data key"))
  | (random, Some dek) =>
      match read_full 12 random with
      | (random, None) => (random, Err (ErrIO "generate wrap nonce"))
      | (random, Some wrapNonce) =>
          match read_full 12 random with
          | (random, None) => (random, Err (ErrIO "generate frame nonce"))
          | (random, Some dataNonce) =>
              let aad := frameAAD record index in
              (random, Ok (envelope_of (am_KeyEpoch (gr_Manifest record)) plaintext wrapNonce (aead_seal root wrapNonce dek aad) dataNonce
                             (aead_seal dek dataNonce plaintext aad)))
          end
      end
  end.

Definition decryptFrame (root : string) (record : GenerationRecord) (frame : FrameRecord) (envelope : string) : result vault_error string :=
  if negb (len root =? RootKeyBytes) || (len envelope <? frameHeaderBytes) || negb (String.eqb (sub envelope 0 8) frameMagic) then Err ErrCorrupt
  else if negb (be_value 0 (sub envelope 8 16) =? am_KeyEpoch (gr_Manifest record)) || negb (be_value 0 (sub envelope 16 20) =? fr_Length frame) then Err ErrCorrupt
  else
    let aad := frameAAD record (fr_Index frame) in
    match aead_open root (sub envelope 20 32) (sub envelope 32 80) aad with
    | None => Err ErrCorrupt
    | Some dek =>
        if negb (aes_key dek) then Err (ErrIO "initialize AES")
        else match aead_open dek (sub envelope 80 92) (str_drop 92 envelope) aad with
        | Some plaintext => if len plaintext =? fr_Length frame then Ok plaintext else Err ErrCorrupt
        | None => Err ErrCorrupt
        end
    end.

Definition digestBytes (data : string) : Digest := MkDigest "sha256" (sha256_hex data).

Definition verifyDigest (expected : Digest) (data : string) : bool :=
  String.eqb (Algorithm expected) "sha256" && (len (Hex expected) =? 64) && String.eqb (sha256_hex data) (Hex expected).

(** ** localstore.go *)

(** Which calls of one [putIfAbsent], [read] or [delete] fail.  Partial files have names that are no object names
    and are not part of the state. *)
Record PutFaults := MkPutFaults {
  pf_ctx : bool; pf_shard : bool; pf_partial : bool; pf_write : bool; pf_link : bool; pf_compare : bool; pf_cleanup : bool; pf_unlink : bool; pf_commit : bool; pf_undo : bool
}.
Record ReadFaults := MkReadFaults { rf_ctx : bool; rf_shard : bool; rf_read : bool }.
Record DeleteFaults := MkDeleteFaults { df_ctx : bool; df_shard : bool; df_remove : bool; df_sync : bool }.

Definition objectName (key : string) : bool :=
  match hex_decode key with Some l => (Z.of_nat (length l) =? 32) && String.eqb (hex_encode l) key | None => false end.

Definition objectKey (record : GenerationRecord) (frame : Z) : string :=
  let m := gr_Manifest record in
  sha256_hex (encodeComposite [Value (am_Tenant m); Value (am_Artifact m); uintString (am_Generation m); gr_Locator record; uintString frame]).

(** [readBoundedObject] on a file that exists. *)
Definition bounded (data : string) : bool := (0 <? len data) && (len data <=? maxObjectBytes).

Definition putIfAbsent (f : PutFaults) (key data : string) (objects : Objects) : Objects * result vault_error bool :=
  if pf_ctx f then (objects, Err (ErrIO "context"))
  else if (len data =? 0) || (maxObjectBytes <? len data) then (objects, Err ErrInvalid)
  else if negb (objectName key) then (objects, Err ErrInvalid)
  else if pf_shard f then (objects, Err (ErrIO "open object shard"))
  else if pf_partial f then (objects, Err (ErrIO "create partial object"))
  else if pf_write f then (objects, Err (ErrIO "write partial object"))
  else match objects !! key with
  | Some existing =>
      if pf_compare f || negb (bounded existing) then (objects, Err (ErrIO "compare immutable object"))
      else if negb (String.eqb existing data) then (objects, Err ErrConflict)
      else if pf_cleanup f then (objects, Err (ErrIO "remove partial object")) else (objects, Ok false)
  | None =>
      if pf_link f then (objects, Err (ErrIO "publish immutable object"))
      else
        let linked := <[key := data]> objects in
        let undone := if pf_undo f then linked else objects in
        if pf_unlink f then (undone, Err (ErrIO "remove partial object"))
        else if pf_commit f then (undone, Err (ErrIO "sync object directory"))
        else (linked, Ok true)
  end.

Definition read_object (f : ReadFaults) (key : string) (objects : Objects) : result vault_error string :=
  if rf_ctx f then Err (ErrIO "context")
  else if negb (objectName key) then Err ErrInvalid
  else if rf_shard f then Err (ErrIO "open object shard")
  else match objects !! key with
  | None => Err ErrIncomplete
  | Some data => if rf_read f then Err (ErrIO "read immutable object") else if bounded data then Ok data else Err ErrCorrupt
  end.

Definition delete_object (f : DeleteFaults) (key : string) (objects : Objects) : Objects * result vault_error unit :=
  if df_ctx f then (objects, Err (ErrIO "context"))
  else if negb (objectName key) then (objects, Err ErrInvalid)
  else if df_shard f then (objects, Err (ErrIO "open object shard"))
  else match objects !! key with
  | Some _ =>
      if df_remove f then (objects, Err (ErrIO "delete immutable object"))
      else (delete key objects, if df_sync f then Err (ErrIO "sync object directory") else Ok tt)
  | None => (objects, if df_sync f then Err (ErrIO "sync object directory") else Ok tt)
  end.

(** ** vault.go *)

(** keyring.go: [Material] with the fields of its reference that the vault reads. *)
Record Material := MkMaterial { mt_Epoch : Z; mt_Legacy : bool; mt_RootKey : string }.

(** What one call meets: the resolver's answers, and the faults of the object store by object key. *)
Record VaultEnv := MkVaultEnv {
  ve_Current : Identifier -> option Material; ve_Resolve : Identifier -> Z -> option Material;
  ve_put : string -> PutFaults; ve_read : string -> ReadFaults; ve_delete : string -> DeleteFaults; ve_cleanup : string -> DeleteFaults
}.

Record Vault := MkVault { v_frameSize : Z; v_maxRead : Z }.

(** The reader of [StageContent]: its bytes, and whether it ends in an error other than [io.EOF]. *)
Record Reader := MkReader { rd_bytes : string; rd_fails : bool }.

Record HydratedRange := MkHydrated { hr_Manifest : ArtifactManifest; hr_FrameDigests : list Digest; hr_NextOffset : Z; hr_Bytes : string }.

Definition New (frameBytes maxRead : Z) : result vault_error Vault :=
  let frameBytes := if frameBytes =? 0 then defaultFrameBytes else frameBytes in
  let maxRead := if maxRead =? 0 then defaultMaxRead else maxRead in
  if (maxFrameBytes <? frameBytes) || (maxReadBytes <? maxRead) then Err ErrInvalid else Ok (MkVault frameBytes maxRead).

Definition validateID (identifier : Identifier) (namespace : string) : bool :=
  String.eqb (Namespace identifier) namespace && negb (String.eqb (Value identifier) "") && (len (Value identifier) <=? 512).

Definition validateManifest (m : ArtifactManifest) (frameSize : Z) : bool :=
  validateID (am_Tenant m) "tenant" && validateID (am_Artifact m) "artifact" && negb (am_Generation m =? 0) && negb (am_KeyEpoch m =? 0)
  && negb (am_Length m =? 0) && (am_Length m <=? maxArtifactBytes)
  && String.eqb (Algorithm (am_Digest m)) "sha256" && (len (Hex (am_Digest m)) =? 64)
  && (let expectedFrames := (am_Length m + frameSize - 1) / frameSize in
      negb (expectedFrames =? 0) && (expectedFrames <=? maxFrameCount) && (am_FrameCount m =? expectedFrames)).

Definition validateStage (q : ArtifactStageRequest) (frameSize : Z) : bool :=
  negb (sr_ExpectedGeneration q =? 2 ^ 64 - 1) && (am_Generation (sr_Manifest q) =? wrapU64 (sr_ExpectedGeneration q + 1)) && validateManifest (sr_Manifest q) frameSize.

Definition validateRead (q : ArtifactReadRequest) (maxRead : Z) : bool :=
  validateID (rr_Tenant q) "tenant" && validateID (rr_Artifact q) "artifact" && negb (rr_Generation q =? 0) && negb (rr_Length q =? 0)
  && (rr_Length q <=? maxRead) && (rr_Offset q <=? 2 ^ 64 - 1 - rr_Length q).

Definition readable (status : VaultStatus) : result vault_error unit :=
  match status with
  | StatusPublished => Ok tt
  | StatusStaged => Err ErrIncomplete
  | StatusTombstoned | StatusPurged => Err ErrTombstoned
  | StatusQuarantined => Err ErrQuarantined
  end.

Definition receipt (record : GenerationRecord) (status reason : string) : Receipt :=
  MkReceipt (MkIdentifier "artifact-operation" (encodeComposite [Value (am_Artifact (gr_Manifest record)); uintString (am_Generation (gr_Manifest record))]))
    status reason (am_Generation (gr_Manifest record)).

Definition byte_of_ascii (c : ascii) : Z := byte_val c.
Definition hex_of_bytes (s : string) : string := hex_encode (byte_of_ascii <$> list_ascii_of_string s).

Definition newLocator (random : string) : string * result vault_error string :=
  match read_full 16 random with
  | (random, Some value) => (random, Ok (hex_of_bytes value))
  | (random, None) => (random, Err (ErrIO "generate locator"))
  end.

Definition readFrame (env : VaultEnv) (root : string) (record : GenerationRecord) (frame : FrameRecord) (objects : Objects) : result vault_error string :=
  let key := objectKey record (fr_Index frame) in
  do envelope <- read_object (ve_read env key) key objects ;
  if verifyDigest (fr_ObjectDigest frame) envelope then decryptFrame root record frame envelope else Err ErrCorrupt.

(** The state of the loop of [StageContent]. *)
Record Staging := MkStaging {
  sg_objects : Objects; sg_random : string; sg_created : list string; sg_reader : string; sg_hashed : string; sg_frames : list FrameRecord; sg_remaining : Z
}.

Fixpoint stage_loop (v : Vault) (env : VaultEnv) (root : string) (record : GenerationRecord) (count : nat) (index : Z) (sg : Staging)
  : Staging * result vault_error unit :=
  match count with
  | O => (sg, Ok tt)
  | S count' =>
      let length := Z.min (v_frameSize v) (sg_remaining sg) in
      match read_full (Z.to_nat length) (sg_reader sg) with
      | (reader, None) => (MkStaging (sg_objects sg) (sg_random sg) (sg_created sg) reader (sg_hashed sg) (sg_frames sg) (sg_remaining sg), Err ErrIncomplete)
      | (reader, Some plaintext) =>
          let hashed := sg_hashed sg ++ plaintext in
          match encryptFrame root record index plaintext (sg_random sg) with
          | (random, Err e) => (MkStaging (sg_objects sg) random (sg_created sg) reader hashed (sg_frames sg) (sg_remaining sg), Err e)
          | (random, Ok envelope) =>
              let key := objectKey record index in
              match putIfAbsent (ve_put env key) key envelope (sg_objects sg) with
              | (objects, Err e) => (MkStaging objects random (sg_created sg) reader hashed (sg_frames sg) (sg_remaining sg), Err e)
              | (objects, Ok wasCreated) =>
                  let created := if wasCreated then (sg_created sg ++ [key])%list else sg_created sg in
                  let frame := MkFrame index (am_Length (gr_Manifest record) - sg_remaining sg) length (digestBytes envelope) in
                  stage_loop v env root record count' (index + 1)
                    (MkStaging objects random created reader hashed (sg_frames sg ++ [frame])%list (sg_remaining sg - length))
              end
          end
      end
  end.

(** The deletions of [abort]: errors are collected, not returned. *)
Fixpoint delete_created (env : VaultEnv) (keys : list string) (objects : Objects) : Objects * list vault_error :=
  match keys with
  | [] => (objects, [])
  | key :: rest =>
      let '(objects, res) := delete_object (ve_cleanup env key) key objects in
      let '(objects, errs) := delete_created env rest objects in
      (objects, match res with Err e => e :: errs | Ok _ => errs end)
  end.

Section repository.
Context {R : Type} `{Repository R}.

Record VaultState := MkState { vs_objects : Objects; vs_meta : R; vs_random : string }.

Definition abort (env : VaultEnv) (record : GenerationRecord) (created : list string) (stageErr : vault_error) (st : VaultState) : VaultState * result vault_error Receipt :=
  let '(objects, errs) := delete_created env created (vs_objects st) in
  let '(meta, res) := AbortStage record (vs_meta st) in
  (MkState objects meta (vs_random st), Err (join_errors stageErr (errs ++ match res with Err e => [e] | Ok _ => [] end))).

Definition StageContent (v : Vault) (env : VaultEnv) (q : ArtifactStageRequest) (reader : Reader) (st : VaultState) : VaultState * result vault_error Receipt :=
  let m := sr_Manifest q in
  if negb (validateStage q (v_frameSize v)) then (st, Err ErrInvalid)
  else match ve_Current env (am_Tenant m) with
  | None => (st, Err ErrQuarantined)
  | Some material =>
      if mt_Legacy material || negb (mt_Epoch material =? am_KeyEpoch m) then (st, Err ErrQuarantined)
      else match newLocator (vs_random st) with
      | (random, Err e) => (MkState (vs_objects st) (vs_meta st) random, Err e)
      | (random, Ok locator) =>
          match BeginStage q locator (vs_meta st) with
          | (meta, Err e) => (MkState (vs_objects st) meta random, Err e)
          | (meta, Ok (record, true)) => (MkState (vs_objects st) meta random, Ok (receipt record "staged" "OURO-ARTIFACT-DUPLICATE"))
          | (meta, Ok (record, false)) =>
              let '(sg, res) := stage_loop v env (mt_RootKey material) record (Z.to_nat (am_FrameCount m)) 0
                                  (MkStaging (vs_objects st) random [] (rd_bytes reader) "" [] (am_Length m)) in
              let st' := MkState (sg_objects sg) meta (sg_random sg) in
              let record := set_frames (sg_frames sg) record in
              match res with
              | Err e => abort env record (sg_created sg) e st'
              | Ok _ =>
                  if negb (String.eqb (sg_reader sg) "") || rd_fails reader || negb (sg_remaining sg =? 0) then abort env record (sg_created sg) ErrIncomplete st'
                  else if negb (String.eqb (Algorithm (am_Digest m)) "sha256") || negb (String.eqb (sha256_hex (sg_hashed sg)) (Hex (am_Digest m)))
                  then abort env record (sg_created sg) ErrCorrupt st'
                  else match CompleteStage record (vs_meta st') with
                  | (meta', Err e) => abort env record (sg_created sg) e (MkState (vs_objects st') meta' (vs_random st'))
                  | (meta', Ok _) => (MkState (vs_objects st') meta' (vs_random st'), Ok (receipt record "staged" "OURO-ARTIFACT-STAGED"))
                  end
              end
          end
      end
  end.

Definition Stage (v : Vault) (q : ArtifactStageRequest) (st : VaultState) : result vault_error Receipt :=
  let m := sr_Manifest q in
  if negb (validateStage q (v_frameSize v)) then Err ErrInvalid
  else
    do record <- GetGeneration (am_Tenant m) (am_Artifact m) (am_Generation m) (vs_meta st) ;
    if negb (bool_decide (gr_Manifest record = m)) || negb (complete record) || negb (bool_decide (gr_Status record = StatusStaged)) then Err ErrIncomplete
    else Ok (receipt record "staged" "OURO-ARTIFACT-STAGED").

Definition quarantine (m : ArtifactManifest) (st : VaultState) : VaultState :=
  MkState (vs_objects st) (fst (QuarantineGeneration (am_Tenant m) (am_Artifact m) (am_Generation m) (vs_meta st))) (vs_random st).

Definition resolveForRead (env : VaultEnv) (record : GenerationRecord) (st : VaultState) : VaultState * result vault_error Material :=
  let m := gr_Manifest record in
  match ve_Resolve env (am_Tenant m) (am_KeyEpoch m) with
  | Some material => (st, Ok material)
  | None => (quarantine m st, Err ErrQuarantined)
  end.

(** The loop of [verifyGeneration]: the second component says that the failure quarantines. *)
Fixpoint verify_loop (env : VaultEnv) (root : string) (record : GenerationRecord) (frames : list FrameRecord) (index expectedOffset : Z) (hashed : string) (objects : Objects)
  : result (vault_error * bool) (Z * string) :=
  match frames with
  | [] => Ok (expectedOffset, hashed)
  | frame :: rest =>
      if negb (fr_Index frame =? index) || negb (fr_Offset frame =? expectedOffset) || (fr_Length frame =? 0) then Err (ErrIncomplete, false)
      else match readFrame env root record frame objects with
      | Err e => Err (e, true)
      | Ok plaintext => verify_loop env root record rest (index + 1) (wrapU64 (expectedOffset + fr_Length frame)) (hashed ++ plaintext) objects
      end
  end.

Definition verifyGeneration (env : VaultEnv) (record : GenerationRecord) (st : VaultState) : VaultState * result vault_error unit :=
  let m := gr_Manifest record in
  if negb (complete record) then (st, Err ErrIncomplete)
  else match resolveForRead env record st with
  | (st, Err e) => (st, Err e)
  | (st, Ok material) =>
      match verify_loop env (mt_RootKey material) record (gr_Frames record) 0 0 "" (vs_objects st) with
      | Err (e, quarantines) => (if quarantines then quarantine m st else st, Err e)
      | Ok (expectedOffset, hashed) =>
          if negb (expectedOffset =? am_Length m) || negb (String.eqb (sha256_hex hashed) (Hex (am_Digest m))) then (quarantine m st, Err ErrCorrupt) else (st, Ok tt)
      end
  end.

Definition Publish (v : Vault) (env : VaultEnv) (q : ArtifactPublishRequest) (st : VaultState) : VaultState * result vault_error Receipt :=
  let m := pr_Manifest q in
  if negb (validateManifest m (v_frameSize v)) || negb (am_Generation m =? wrapU64 (pr_ExpectedGeneration q + 1)) then (st, Err ErrInvalid)
  else match GetGeneration (am_Tenant m) (am_Artifact m) (am_Generation m) (vs_meta st) with
  | Err e => (st, Err e)
  | Ok record =>
      if negb (bool_decide (gr_Manifest record = m)) then (st, Err ErrConflict)
      else if negb (bool_decide (gr_Status record = StatusStaged)) && negb (bool_decide (gr_Status record = StatusPublished)) then (st, Err ErrIncomplete)
      else match verifyGeneration env record st with
      | (st, Err e) => (st, Err e)
      | (st, Ok _) =>
          match PublishGeneration q (vs_meta st) with
          | (meta, Err e) => (MkState (vs_objects st) meta (vs_random st), Err e)
          | (meta, Ok published) => (MkState (vs_objects st) meta (vs_random st), Ok (receipt published "published" "OURO-ARTIFACT-PUBLISHED"))
          end
      end
  end.

(** The loop of [HydrateRange]: the bytes and the digests of the frames that meet the range. *)
Fixpoint hydrate_loop (env : VaultEnv) (root : string) (record : GenerationRecord) (offset end_ : Z) (frames : list FrameRecord) (objects : Objects)
  : result vault_error (string * list Digest) :=
  match frames with
  | [] => Ok ("", [])
  | frame :: rest =>
      let frameEnd := wrapU64 (fr_Offset frame + fr_Length frame) in
      if (frameEnd <=? offset) || (end_ <=? fr_Offset frame) then hydrate_loop env root record offset end_ rest objects
      else
        do plaintext <- readFrame env root record frame objects ;
        let startInFrame := Z.max offset (fr_Offset frame) - fr_Offset frame in
        let endInFrame := Z.min end_ frameEnd - fr_Offset frame in
        do tl <- hydrate_loop env root record offset end_ rest objects ;
        Ok (sub plaintext (Z.to_nat startInFrame) (Z.to_nat endInFrame) ++ fst tl, fr_ObjectDigest frame :: snd tl)
  end.

Definition HydrateRange (v : Vault) (env : VaultEnv) (q : ArtifactReadRequest) (st : VaultState) : VaultState * result vault_error HydratedRange :=
  if negb (validateRead q (v_maxRead v)) then (st, Err ErrInvalid)
  else match GetGeneration (rr_Tenant q) (rr_Artifact q) (rr_Generation q) (vs_meta st) with
  | Err e => (st, Err e)
  | Ok record =>
      let m := gr_Manifest record in
      match readable (gr_Status record) with
      | Err e => (st, Err e)
      | Ok _ =>
          if (am_Length m <? rr_Offset q) || (am_Length m - rr_Offset q <? rr_Length q) then (st, Err ErrInvalid)
          else match resolveForRead env record st with
          | (st, Err e) => (st, Err e)
          | (st, Ok material) =>
              let end_ := rr_Offset q + rr_Length q in
              match hydrate_loop env (mt_RootKey material) record (rr_Offset q) end_ (gr_Frames record) (vs_objects st) with
              | Err e => (quarantine m st, Err e)
              | Ok (bytes, digests) => if negb (len bytes =? rr_Length q) then (st, Err ErrIncomplete) else (st, Ok (MkHydrated m digests end_ bytes))
              end
          end
      end
  end.

Definition ReadRange (v : Vault) (env : VaultEnv) (q : ArtifactReadRequest) (st : VaultState) : VaultState * result vault_error (ArtifactManifest * list Digest * Z) :=
  let '(st, res) := HydrateRange v env q st in
  (st, match res with Ok h => Ok (hr_Manifest h, hr_FrameDigests h, hr_NextOffset h) | Err e => Err e end).

Definition Reconcile (env : VaultEnv) (q : ArtifactReconcileRequest) (st : VaultState) : VaultState * result vault_error Receipt :=
  if negb (validateID (rq_Tenant q) "tenant") || negb (validateID (rq_Artifact q) "artifact") || (rq_ObservedGeneration q =? 0) then (st, Err ErrInvalid)
  else match GetGeneration (rq_Tenant q) (rq_Artifact q) (rq_ObservedGeneration q) (vs_meta st) with
  | Err e => (st, Err e)
  | Ok record =>
      match readable (gr_Status record) with
      | Err ErrIncomplete | Ok _ =>
          match verifyGeneration env record st with
          | (st, Err e) => (st, Err e)
          | (st, Ok _) => (st, Ok (receipt record "verified" "OURO-ARTIFACT-RECONCILED"))
          end
      | Err e => (st, Err e)
      end
  end.

Definition Tombstone (q : TombstoneRequest) (st : VaultState) : VaultState * result vault_error Receipt :=
  if negb (validateID (tr_Tenant q) "tenant") || negb (validateID (tr_Artifact q) "artifact") || (tr_ExpectedGeneration q =? 0) || String.eqb (tr_ReasonCode q) ""
  then (st, Err ErrInvalid)
  else match TombstoneGeneration q (vs_meta st) with
  | (meta, Err e) => (MkState (vs_objects st) meta (vs_random st), Err e)
  | (meta, Ok record) => (MkState (vs_objects st) meta (vs_random st), Ok (receipt record "tombstoned" "OURO-ARTIFACT-TOMBSTONED"))
  end.

(** The deletions of [Purge]: the first error stops it. *)
Fixpoint purge_loop (env : VaultEnv) (record : GenerationRecord) (frames : list FrameRecord) (objects : Objects) : Objects * result vault_error unit :=
  match frames with
  | [] => (objects, Ok tt)
  | frame :: rest =>
      let key := objectKey record (fr_Index frame) in
      match delete_object (ve_delete env key) key objects with
      | (objects, Err e) => (objects, Err e)
      | (objects, Ok _) => purge_loop env record rest objects
      end
  end.

Definition purge_generation (q : PurgeRequest) : option Z :=
  let r := pu_TombstoneReceipt q in
  if negb (validateID (pu_Tenant q) "tenant") || negb (validateID (pu_Artifact q) "artifact") || (pu_KeyEpoch q =? 0) || negb (String.eqb (Status r) "tombstoned")
     || negb (String.eqb (Namespace (OperationID r)) "artifact-operation") then None
  else match decodeComposite (Value (OperationID r)) 2 with
  | Some [artifact; generation] =>
      if negb (String.eqb artifact (Value (pu_Artifact q))) then None
      else match parse_uint64 generation with Some g => if g =? 0 then None else Some g | None => None end
  | _ => None
  end.

Definition Purge (env : VaultEnv) (q : PurgeRequest) (st : VaultState) : VaultState * result vault_error Receipt :=
  match purge_generation q with
  | None => (st, Err ErrInvalid)
  | Some generation =>
      match PreparePurge q generation (vs_meta st) with
      | Err e => (st, Err e)
      | Ok record =>
          if bool_decide (gr_Status record = StatusPurged) then (st, Ok (receipt record "purged" "OURO-ARTIFACT-PURGED"))
          else match purge_loop env record (gr_Frames record) (vs_objects st) with
          | (objects, Err e) => (MkState objects (vs_meta st) (vs_random st), Err e)
          | (objects, Ok _) =>
              match CompletePurge record (vs_meta st) with
              | (meta, Err e) => (MkState objects meta (vs_random st), Err e)
              | (meta, Ok _) => (MkState objects meta (vs_random st), Ok (receipt record "purged" "OURO-ARTIFACT-PURGED"))
              end
          end
      end
  end.

Definition MigrateLegacy (v : Vault) (env : VaultEnv) (q : ArtifactStageRequest) (plaintext : Reader) (st : VaultState) : VaultState * result vault_error Receipt :=
  StageContent v env q plaintext st.
End repository.
End vault.
Arguments VaultState R : clear implicits.
