(* ===== verification/StorageRules.v ===== *)
(** * localstorage: what durable metadata must satisfy

    Models the artifact rules of
    [services/brain/internal/localstorage/validation.go]: identifiers, locators,
    digests, manifests and frame lists.  The durable repository refuses what
    breaks them; the progress laws of a repository assume them. *)

From Stdlib Require Import Ascii String.
From S2P Require Import Prelude GoString Float64 Runtime Contracts Composite Vault.
From stdpp Require Import gmap strings.
Open Scope string_scope.
Open Scope Z_scope.

Definition maxIdentifierBytes : Z := 512.
Definition maxLocatorBytes : Z := 1024.

Definition validID (id : Identifier) (namespace : string) : bool :=
  String.eqb (Namespace id) namespace && negb (String.eqb (Value id) "") && (len (Value id) <=? maxIdentifierBytes)
  && negb (contains_char "000" (Value id)).

Definition validLocator (locator : string) : bool :=
  negb (String.eqb locator "") && (len locator <=? maxLocatorBytes) && negb (contains_char "000" locator).

Definition validDigest (d : Digest) : bool := sha256_digest_ok d.

Definition validManifest (m : ArtifactManifest) : bool :=
  validID (am_Tenant m) "tenant" && validID (am_Artifact m) "artifact" && validDigest (am_Digest m) && (0 <? am_Generation m) && (0 <? am_KeyEpoch m)
  && (0 <? am_Length m) && (am_Length m <=? maxArtifactBytes) && (0 <? am_FrameCount m) && (am_FrameCount m <=? maxFrameCount).

(** The loop of [validFrames]: the offset it ends with, if no frame is refused.
    A length is unsigned, so it is zero when it is not positive. *)
Fixpoint frames_from (index offset : Z) (frames : list FrameRecord) : option Z :=
  match frames with
  | [] => Some offset
  | f :: rest =>
      if negb (fr_Index f =? index) || negb (fr_Offset f =? offset) || (fr_Length f <=? 0) || (maxFrameBytes <? fr_Length f)
         || negb (validDigest (fr_ObjectDigest f)) then None
      else frames_from (index + 1) (wrapU64 (offset + fr_Length f)) rest
  end.

Definition validFrames (m : ArtifactManifest) (frames : list FrameRecord) : bool :=
  if negb (Z.of_nat (length frames) =? am_FrameCount m) then false
  else match frames_from 0 0 frames with Some offset => offset =? am_Length m | None => false end.

(** ** Lemmas *)

(** What SQLite can bind: an unsigned value without the high bit. *)
Definition bindable (m : ArtifactManifest) : Prop := am_Generation m < 2 ^ 63 /\ am_KeyEpoch m < 2 ^ 63.

Lemma validID_spec id ns : validID id ns = true -> Namespace id = ns /\ Value id <> "" /\ len (Value id) <= 512 /\ fits (Value id).
Proof.
  unfold validID, maxIdentifierBytes. intros Hv. bool_prop. apply String.eqb_eq in H. apply String.eqb_neq in H2. split_and!; [done|done|done|].
  unfold fits. apply (Z.le_lt_trans _ 512); [done|reflexivity].
Qed.

Lemma validID_eta id ns : validID id ns = true -> MkIdentifier ns (Value id) = id.
Proof. intros (<- & _)%validID_spec. by destruct id. Qed.

Lemma validDigest_eta d : validDigest d = true -> MkDigest "sha256" (Hex d) = d.
Proof. intros (<- & _)%sha256_digest_ok_spec. by destruct d. Qed.

Lemma validManifest_spec m :
  validManifest m = true ->
  validID (am_Tenant m) "tenant" = true /\ validID (am_Artifact m) "artifact" = true /\ validDigest (am_Digest m) = true /\ 0 < am_Generation m /\
  0 < am_KeyEpoch m /\ 0 < am_Length m <= maxArtifactBytes /\ 0 < am_FrameCount m <= maxFrameCount.
Proof. unfold validManifest. intros Hv. bool_prop. split_and!; done. Qed.

Lemma validFrames_complete m frames : validFrames m frames = true -> Z.of_nat (length frames) = am_FrameCount m.
Proof. unfold validFrames. destruct (_ =? _) eqn:E; [|done]. intros _. by bool_prop. Qed.
