(* ===== verification/VaultRepository.v ===== *)
(** * artifactvault: what a repository promises

    [RepositoryLaws] states the contract of the [Repository] interface as its
    effect on the records by key and on the current generations; the vault is
    verified against it.  [Memory_laws] shows that the in-memory repository
    keeps it. *)

From Stdlib Require Import Ascii String.
From S2P Require Import Prelude GoString Float64 Runtime Contracts Composite Vault StorageRules.
From stdpp Require Import gmap strings.
Open Scope string_scope.
Open Scope Z_scope.

#[global] Arguments artifactKey : simpl never.
#[global] Arguments generationKey : simpl never.
#[global] Arguments manifest_key : simpl never.

(** What can be observed of a repository: the record of a generation key, the current generation of an artifact key. *)
Class RepositoryView (R : Type) := {
  lookup_record : R -> string -> option GenerationRecord;
  current_generation : R -> string -> Z
}.

Section laws.
Context {R : Type} `{Repository R} `{RepositoryView R}.

Definition same_view (r r' : R) : Prop :=
  (forall k, lookup_record r' k = lookup_record r k) /\ (forall a, current_generation r' a = current_generation r a).

(** [r'] is [r] with the record of [k] replaced. *)
Definition record_set (k : string) (g : option GenerationRecord) (r r' : R) : Prop :=
  (forall k', lookup_record r' k' = if decide (k' = k) then g else lookup_record r k') /\ (forall a, current_generation r' a = current_generation r a).

Definition manifest_artifact (m : ArtifactManifest) : string := artifactKey (am_Tenant m) (am_Artifact m).

#[global] Arguments manifest_artifact : simpl never.

Class RepositoryLaws : Prop := {
  begin_effect q locator r : let m := sr_Manifest q in
    match BeginStage q locator r with
    | (r', Ok (g, false)) => lookup_record r (manifest_key m) = None /\ current_generation r (manifest_artifact m) = sr_ExpectedGeneration q /\
        (exists fence, g = MkGeneration m locator [] StatusStaged fence) /\ record_set (manifest_key m) (Some g) r r'
    | (r', Ok (g, true)) => same_view r r' /\ lookup_record r (manifest_key m) = Some g /\ gr_Manifest g = m /\ complete g = true
    | (r', Err _) => same_view r r'
    end;
  complete_effect g r :
    match CompleteStage g r with
    | (r', Ok _) => complete g = true /\ exists existing, lookup_record r (manifest_key (gr_Manifest g)) = Some existing /\ gr_Fence existing = gr_Fence g /\
        gr_Status existing = StatusStaged /\ record_set (manifest_key (gr_Manifest g)) (Some (set_frames (gr_Frames g) existing)) r r'
    | (r', Err _) => same_view r r'
    end;
  abort_effect g r :
    match AbortStage g r with
    | (r', Ok _) => same_view r r' /\ lookup_record r (manifest_key (gr_Manifest g)) = None \/
        exists existing, lookup_record r (manifest_key (gr_Manifest g)) = Some existing /\ gr_Fence existing = gr_Fence g /\ gr_Frames existing = [] /\
          gr_Status existing = StatusStaged /\ record_set (manifest_key (gr_Manifest g)) None r r'
    | (r', Err _) => same_view r r'
    end;
  get_effect tenant artifact generation r g :
    GetGeneration tenant artifact generation r = Ok g -> lookup_record r (generationKey tenant artifact generation) = Some g;
  publish_effect q r : let m := pr_Manifest q in
    match PublishGeneration q r with
    | (r', Ok g) => gr_Manifest g = m /\ gr_Status g = StatusPublished /\
        (same_view r r' /\ lookup_record r (manifest_key m) = Some g /\ current_generation r (manifest_artifact m) = am_Generation m \/
         exists staged, lookup_record r (manifest_key m) = Some staged /\ gr_Status staged = StatusStaged /\ complete staged = true /\ g = set_status StatusPublished staged /\
           current_generation r (manifest_artifact m) = pr_ExpectedGeneration q /\
           (forall k, lookup_record r' k = if decide (k = manifest_key m) then Some g else lookup_record r k) /\
           (forall a, current_generation r' a = if decide (a = manifest_artifact m) then am_Generation m else current_generation r a))
    | (r', Err _) => same_view r r'
    end;
  quarantine_effect tenant artifact generation r : let k := generationKey tenant artifact generation in
    match QuarantineGeneration tenant artifact generation r with
    | (r', Ok _) => exists g, lookup_record r k = Some g /\ gr_Status g <> StatusPurged /\ record_set k (Some (set_status StatusQuarantined g)) r r'
    | (r', Err _) => same_view r r'
    end;
  tombstone_effect q r : let k := generationKey (tr_Tenant q) (tr_Artifact q) (tr_ExpectedGeneration q) in
    match TombstoneGeneration q r with
    | (r', Ok g) => gr_Status g = StatusTombstoned /\
        (same_view r r' /\ lookup_record r k = Some g \/
         exists published, lookup_record r k = Some published /\ gr_Status published = StatusPublished /\ g = set_status StatusTombstoned published /\ record_set k (Some g) r r')
    | (r', Err _) => same_view r r'
    end;
  prepare_effect q generation r g :
    PreparePurge q generation r = Ok g ->
    lookup_record r (generationKey (pu_Tenant q) (pu_Artifact q) generation) = Some g /\ (gr_Status g = StatusTombstoned \/ gr_Status g = StatusPurged);
  complete_purge_effect g r :
    match CompletePurge g r with
    | (r', Ok _) => exists existing, lookup_record r (manifest_key (gr_Manifest g)) = Some existing /\ gr_Fence existing = gr_Fence g /\
        (gr_Status existing = StatusPurged /\ same_view r r' \/
         gr_Status existing = StatusTombstoned /\ record_set (manifest_key (gr_Manifest g)) (Some (set_status StatusPurged existing)) r r')
    | (r', Err _) => same_view r r'
    end
}.

(** An identifier and a generation a caller of the vault may name. *)
Definition named (tenant artifact : Identifier) (generation : Z) : Prop :=
  validateID tenant "tenant" = true /\ validateID artifact "artifact" = true /\ 0 < generation < 2 ^ 64.

(** When a repository serves, a call that is in order succeeds; a new
    reservation also needs it to be [ready]. *)
Class RepositoryProgress := {
  serves : R -> Prop;
  ready : R -> Prop;
  serves_begin q locator r : serves r -> serves (fst (BeginStage q locator r));
  serves_complete g r : serves r -> serves (fst (CompleteStage g r));
  begin_progress q locator r : let m := sr_Manifest q in
    serves r -> ready r -> validManifest m = true -> bindable m -> validLocator locator = true ->
    lookup_record r (manifest_key m) = None -> current_generation r (manifest_artifact m) = sr_ExpectedGeneration q ->
    am_Generation m = wrapU64 (sr_ExpectedGeneration q + 1) -> exists r' g, BeginStage q locator r = (r', Ok (g, false));
  complete_progress g frames r :
    serves r -> lookup_record r (manifest_key (gr_Manifest g)) = Some g -> gr_Frames g = [] -> gr_Status g = StatusStaged ->
    validFrames (gr_Manifest g) frames = true -> exists r', CompleteStage (set_frames frames g) r = (r', Ok tt);
  abort_progress g r existing :
    serves r -> lookup_record r (manifest_key (gr_Manifest g)) = Some existing -> gr_Manifest existing = gr_Manifest g -> gr_Fence existing = gr_Fence g ->
    gr_Frames existing = [] -> gr_Status existing = StatusStaged -> exists r', AbortStage g r = (r', Ok tt);
  get_progress tenant artifact generation r g :
    serves r -> named tenant artifact generation -> lookup_record r (generationKey tenant artifact generation) = Some g ->
    GetGeneration tenant artifact generation r = Ok g;
  publish_progress q r g : let m := pr_Manifest q in
    serves r -> lookup_record r (manifest_key m) = Some g -> gr_Manifest g = m -> gr_Status g = StatusStaged -> complete g = true ->
    current_generation r (manifest_artifact m) = pr_ExpectedGeneration q -> am_Generation m = wrapU64 (pr_ExpectedGeneration q + 1) ->
    exists r' g', PublishGeneration q r = (r', Ok g');
  quarantine_progress tenant artifact generation r g :
    serves r -> named tenant artifact generation -> lookup_record r (generationKey tenant artifact generation) = Some g -> gr_Status g <> StatusPurged ->
    exists r', QuarantineGeneration tenant artifact generation r = (r', Ok tt);
  complete_purge_progress g r :
    serves r -> lookup_record r (manifest_key (gr_Manifest g)) = Some g -> gr_Status g = StatusTombstoned -> exists r', CompletePurge g r = (r', Ok tt)
}.

Lemma same_view_refl r : same_view r r.
Proof. by split. Qed.
End laws.

(** ** The in-memory repository *)

#[export] Instance Memory_view : RepositoryView MemoryRepository := {|
  lookup_record := fun r k => mr_records r !! k;
  current_generation := fun r a => default 0 (mr_current r !! a) |}.

Lemma put_set k g r : record_set k (Some g) r (Memory.put k g r).
Proof.
  split; [|done]. intros k'. cbn. destruct (decide (k' = k)) as [->|]; [by rewrite lookup_insert_eq|by rewrite lookup_insert_ne].
Qed.

Ltac dif E := match goal with |- context [if ?b then _ else _] => destruct b eqn:E end.

#[export] Instance Memory_laws : RepositoryLaws (R := MemoryRepository).
Proof.
  constructor; cbn.
  - intros q locator r. unfold Memory.BeginStage. cbv zeta. dif E; [apply same_view_refl|]. bool_prop. destruct (mr_records r !! _) as [?g|] eqn:Em.
    + dif E1; [apply same_view_refl|]. apply negb_false_iff, bool_decide_eq_true in E1. dif E2; [|apply same_view_refl]. by split_and!; [apply same_view_refl|..].
    + split_and!; [done|unfold Memory.current, manifest_artifact in *; congruence|by eexists|].
      split; [|done]. intros k'. cbn. destruct (decide (k' = _)) as [->|]; [by rewrite lookup_insert_eq|by rewrite lookup_insert_ne].
  - intros g r. unfold Memory.CompleteStage. destruct (mr_records r !! _) as [?g|] eqn:Em; [|apply same_view_refl]. dif E1; [apply same_view_refl|]. dif E2; [apply same_view_refl|].
    bool_prop. split; [done|]. eexists. split_and!; [done|lia|done|apply put_set].
  - intros g r. unfold Memory.AbortStage. destruct (mr_records r !! _) as [?g|] eqn:Em; [|by left; split; [apply same_view_refl|]]. dif E1; [apply same_view_refl|]. bool_prop.
    right. eexists. split_and!; [done|lia|apply nil_length_inv; apply Nat.eqb_eq; done|done|]. split; [|done]. intros k'. cbn.
    destruct (decide (k' = _)) as [->|]; [by rewrite lookup_delete_eq|by rewrite lookup_delete_ne].
  - intros t a n r g. unfold Memory.Get. destruct (mr_records r !! _); naive_solver.
  - intros q r. unfold Memory.Publish. cbv zeta. set (m := pr_Manifest q). unfold Memory.current. fold (manifest_artifact m). destruct (mr_records r !! manifest_key m) as [g|] eqn:Em.
    + destruct (bool_decide (gr_Status g = StatusPublished)) eqn:E1; [destruct (_ =? am_Generation (gr_Manifest g)) eqn:E2|]; cbn [andb].
      * dif E3; [apply same_view_refl|]. bool_prop. subst m. split_and!; [done|done|]. left. split_and!; [apply same_view_refl|done|]. congruence.
      * dif E3; [apply same_view_refl|]. dif E4; [apply same_view_refl|]. dif E5; [apply same_view_refl|]. dif E6; [apply same_view_refl|]. bool_prop. congruence.
      * dif E3; [apply same_view_refl|]. dif E4; [apply same_view_refl|]. dif E5; [apply same_view_refl|]. dif E6; [apply same_view_refl|].
        bool_prop. cbn. split_and!; [done|done|]. right. exists g. split_and!; [done|done|done|done|lia| |].
        -- intros k. destruct (decide (k = _)) as [->|]; [by rewrite lookup_insert_eq|by rewrite lookup_insert_ne].
        -- intros a. destruct (decide (a = _)) as [->|]; [rewrite lookup_insert_eq; cbn; congruence|by rewrite lookup_insert_ne].
    + destruct (_ || _); apply same_view_refl.
  - intros t a n r. unfold Memory.Quarantine. destruct (mr_records r !! _) as [?g|] eqn:Em; [|apply same_view_refl]. dif E1; [apply same_view_refl|]. apply bool_decide_eq_false in E1.
    eexists. split_and!; [done|done|apply put_set].
  - intros q r. unfold Memory.Tombstone. dif E1; [apply same_view_refl|]. destruct (mr_records r !! _) as [?g|] eqn:Em; [|apply same_view_refl]. dif E2.
    + apply bool_decide_eq_true in E2. split; [done|]. left. by split; [apply same_view_refl|].
    + dif E3; [apply same_view_refl|]. bool_prop. split; [done|]. right. eexists. split_and!; [done|done|done|apply put_set].
  - intros q n r g. unfold Memory.PreparePurge. destruct (mr_records r !! _) as [?g|] eqn:Em; [|done]. dif E1; [done|]. intros [= ->]. split; [done|].
    apply orb_false_iff in E1 as [_ E1]. apply andb_false_iff in E1 as [E1|E1]; apply negb_false_iff, bool_decide_eq_true in E1; auto.
  - intros g r. unfold Memory.CompletePurge. destruct (mr_records r !! _) as [?g|] eqn:Em; [|apply same_view_refl]. dif E1; [apply same_view_refl|]. bool_prop. dif E2.
    + apply bool_decide_eq_true in E2. eexists. split_and!; [done|lia|]. left. by split; [|apply same_view_refl].
    + dif E3; [apply same_view_refl|]. bool_prop. eexists. split_and!; [done|lia|]. right. by split; [|apply put_set].
Qed.

(** It serves always. *)
#[export] Instance Memory_progress : RepositoryProgress (R := MemoryRepository).
Proof.
  refine (Build_RepositoryProgress (R := MemoryRepository) (fun _ => True) (fun _ => True) _ _ _ _ _ _ _ _ _); cbn.
  - done.
  - done.
  - intros q locator r _ _ _ _ _ E1 E2 E3. unfold Memory.BeginStage, Memory.current. unfold manifest_artifact in E2. rewrite E2, Z.eqb_refl, E3, Z.eqb_refl, E1. cbn. eauto.
  - intros g fs r _ E1 E2 E3 E4%validFrames_complete. unfold Memory.CompleteStage, complete. cbn. rewrite E1, Z.eqb_refl, E4, Z.eqb_refl, bool_decide_eq_true_2 by done. cbn. eauto.
  - intros g r ex _ E1 _ E2 E3 E4. unfold Memory.AbortStage. rewrite E1, E2, E3, Z.eqb_refl, bool_decide_eq_true_2 by done. cbn. eauto.
  - intros t a n r g _ _ E1. unfold Memory.Get. by rewrite E1.
  - intros q r g _ E1 E2 E3 E4 E5 E6. unfold Memory.Publish. cbv zeta. rewrite E1. rewrite (bool_decide_eq_false_2 (gr_Status g = StatusPublished)) by congruence. cbn [andb].
    unfold Memory.current. unfold manifest_artifact in E5. rewrite E5, Z.eqb_refl, E6, Z.eqb_refl, E4. rewrite !bool_decide_eq_true_2 by done. cbn. eauto.
  - intros t a n r g _ _ E1 E2. unfold Memory.Quarantine. rewrite E1, bool_decide_eq_false_2 by done. eauto.
  - intros g r _ E1 E2. unfold Memory.CompletePurge. rewrite E1, Z.eqb_refl, (bool_decide_eq_false_2 (gr_Status g = StatusPurged)), bool_decide_eq_true_2 by congruence. cbn. eauto.
Defined.
