(* ===== verification/VaultFrames.v ===== *)
(** * artifactvault: frames and objects

    An encrypted frame decrypts to its plaintext; objects are created once and
    never replaced. *)

From Stdlib Require Import Ascii String.
From S2P Require Import Prelude GoString Float64 Runtime Contracts Composite Vault.
From stdpp Require Import gmap strings.
Open Scope string_scope.
Open Scope Z_scope.

(** ** What the parameters promise *)

(** AES-GCM opens what it sealed and adds a tag of 16 bytes. *)
Class AEADLaws `{AEAD} : Prop := {
  open_seal key nonce plain aad : aes_key key = true -> len nonce = 12 -> aead_open key nonce (aead_seal key nonce plain aad) aad = Some plain;
  seal_length key nonce plain aad : aes_key key = true -> len nonce = 12 -> len (aead_seal key nonce plain aad) = len plain + 16
}.

(** A hex digest of SHA-256 has 64 lower-case digits. *)
Class DigestLaws `{GoRuntime} : Prop := { sha256_shape s : sha256_digest_ok (MkDigest "sha256" (sha256_hex s)) = true }.

(** ** Fields of an envelope *)

Lemma sub_here a s n : String.length a = n -> sub (a ++ s) 0 n = a.
Proof. intros <-. unfold sub. rewrite Nat.sub_0_r. apply str_take_app. Qed.

Lemma sub_skip a s n x y : String.length a = n -> sub (a ++ s) (n + x) (n + y) = sub s x y.
Proof.
  intros <-. unfold sub. rewrite str_drop_add, str_drop_app. by replace (String.length a + y - (String.length a + x))%nat with (y - x)%nat by lia.
Qed.

Lemma drop_skip a s n x : String.length a = n -> str_drop (n + x) (a ++ s) = str_drop x s.
Proof. intros <-. by rewrite str_drop_add, str_drop_app. Qed.

Lemma length_be_bytes n z : String.length (be_bytes n z) = n.
Proof. induction n as [|n IH]; cbn; [done|]. by rewrite IH. Qed.

Lemma field_id n s : String.length s = n -> field n s = s.
Proof. intros <-. unfold field. rewrite Nat.sub_diag. cbn. rewrite append_nil_r. by apply str_take_ge. Qed.

Lemma be_value_bytes n z acc : 0 <= z < 256 ^ Z.of_nat n -> be_value acc (be_bytes n z) = acc * 256 ^ Z.of_nat n + z.
Proof.
  revert acc z. induction n as [|n IH]; intros acc z Hz; [cbn in *; lia|]. cbn [be_bytes be_value]. rewrite Nat2Z.inj_succ, Z.pow_succ_r in * by lia.
  set (P := 256 ^ Z.of_nat n) in *. assert (0 < P) as HP by (unfold P; apply Z.pow_pos_nonneg; lia).
  pose proof (Z.div_mod z P ltac:(lia)) as Hdm. pose proof (Z.mod_pos_bound z P HP) as Hm.
  assert (0 <= z / P < 256) as Hq by (split; [apply Z.div_pos; lia|apply Z.div_lt_upper_bound; lia]).
  assert (byte_val (byte_of_Z (z / P mod 256)) = z / P) as ->.
  { rewrite Z.mod_small by done. unfold byte_val, byte_of_Z. rewrite N_ascii_embedding; lia. }
  assert (be_bytes n z = be_bytes n (z mod P)) as ->.
  { unfold P. clear. assert (forall k, (k <= n)%nat -> be_bytes k z = be_bytes k (z mod 256 ^ Z.of_nat n)) as Hk; [|by apply Hk].
    induction k as [|k IH]; intros Hk; [done|]. cbn [be_bytes]. rewrite IH by lia. do 2 f_equal.
    set (a := Z.of_nat k). replace (Z.of_nat n) with (a + 1 + (Z.of_nat n - a - 1)) by lia. rewrite Z.pow_add_r, Z.pow_add_r by lia. set (A := 256 ^ a). set (B := 256 ^ (Z.of_nat n - a - 1)).
    assert (0 < A) by (apply Z.pow_pos_nonneg; lia). assert (0 < B) by (apply Z.pow_pos_nonneg; lia). change (256 ^ 1) with 256.
    rewrite <- Z.mul_assoc, Z.rem_mul_r by lia. rewrite (Z.mul_comm A), Z.div_add by lia. rewrite (Z.div_small (z mod A)) by (apply Z.mod_pos_bound; lia). cbn [Z.add].
    symmetry. apply Z.mod_mod_divide. by exists B; rewrite Z.mul_comm. }
  rewrite IH by done. lia.
Qed.

Section frames.
Context `{GoRuntime} `{AEAD} `{!AEADLaws} `{!DigestLaws}.

Lemma read_full_Some n s s' x : read_full n s = (s', Some x) -> String.length x = n /\ s = x ++ s'.
Proof.
  unfold read_full. destruct (Nat.leb_spec n (String.length s)); [|done]. intros [= <- <-]. split; [rewrite length_str_take; lia|by rewrite str_take_drop].
Qed.

Lemma encryptFrame_Ok root g index plain random random' envelope :
  encryptFrame root g index plain random = (random', Ok envelope) ->
  len root = 32 /\ plain <> "" /\ exists dek wrapNonce dataNonce, String.length dek = 32%nat /\ String.length wrapNonce = 12%nat /\ String.length dataNonce = 12%nat /\
    envelope = envelope_of (am_KeyEpoch (gr_Manifest g)) plain wrapNonce (aead_seal root wrapNonce dek (frameAAD g index)) dataNonce (aead_seal dek dataNonce plain (frameAAD g index)).
Proof.
  unfold encryptFrame. destruct (_ || _) eqn:Ec; [done|]. apply orb_false_iff in Ec as [Er Ep]. bool_prop. apply String.eqb_neq in Ep. unfold RootKeyBytes in *. destruct (read_full 32 random) as [r1 [dek|]] eqn:E1; [|done].
  destruct (read_full 12 r1) as [r2 [wn|]] eqn:E2; [|done]. destruct (read_full 12 r2) as [r3 [dn|]] eqn:E3; [|done]. intros [= <- <-].
  apply read_full_Some in E1 as [L1 _], E2 as [L2 _], E3 as [L3 _]. split_and!; [lia|done|]. by exists dek, wn, dn.
Qed.

(** An encrypted frame decrypts to its plaintext under the same key, record and index. *)
Lemma encrypt_decrypt root g index plain random random' envelope offset dg :
  encryptFrame root g index plain random = (random', Ok envelope) ->
  0 <= am_KeyEpoch (gr_Manifest g) < 2 ^ 64 -> len plain < 2 ^ 32 ->
  decryptFrame root g (MkFrame index offset (len plain) dg) envelope = Ok plain /\ len envelope = frameHeaderBytes + len plain + 16.
Proof.
  intros (Hroot & Hne & dek & wn & dn & L1 & L2 & L3 & ->)%encryptFrame_Ok Hep Hlen. set (aad := frameAAD g index).
  assert (aes_key root = true) as Kr by (unfold aes_key; rewrite Hroot; reflexivity). assert (aes_key dek = true) as Kd by (unfold aes_key, len; rewrite L1; reflexivity).
  assert (len wn = 12) as Nw by (unfold len; lia). assert (len dn = 12) as Nd by (unfold len; lia).
  pose proof (seal_length root wn dek aad Kr Nw) as S1. pose proof (seal_length dek dn plain aad Kd Nd) as S2.
  set (w := aead_seal root wn dek aad) in *. set (c := aead_seal dek dn plain aad) in *.
  assert (String.length w = 48%nat) as Lw by (unfold len in *; lia). unfold envelope_of. rewrite !field_id by done.
  set (b8 := be_bytes 8 _). set (b4 := be_bytes 4 _). assert (String.length b8 = 8%nat) as L8 by apply length_be_bytes. assert (String.length b4 = 4%nat) as L4 by apply length_be_bytes.
  set (e := frameMagic ++ b8 ++ b4 ++ wn ++ w ++ dn ++ c). assert (len e = frameHeaderBytes + len plain + 16) as Le.
  { unfold e. rewrite !len_app, S2. unfold len at 1 2 3 4 5 6. rewrite L8, L4, L2, Lw, L3. change (Z.of_nat (String.length frameMagic)) with 8. unfold frameHeaderBytes. lia. }
  split; [|done]. unfold decryptFrame. rewrite Hroot, Le. pose proof (len_nonneg plain) as H0'.
  assert (sub e 0 8 = frameMagic) as -> by (by apply sub_here).
  assert (sub e 8 16 = b8) as -> by (unfold e; rewrite (sub_skip frameMagic _ 8 0 8) by done; by apply sub_here).
  assert (sub e 16 20 = b4) as -> by (unfold e; rewrite (sub_skip frameMagic _ 8 8 12) by done; rewrite (sub_skip b8 _ 8 0 4) by done; by apply sub_here).
  assert (sub e 20 32 = wn) as ->.
  { unfold e. rewrite (sub_skip frameMagic _ 8 12 24) by done. rewrite (sub_skip b8 _ 8 4 16) by done. rewrite (sub_skip b4 _ 4 0 12) by done. by apply sub_here. }
  assert (sub e 32 80 = w) as ->.
  { unfold e. rewrite (sub_skip frameMagic _ 8 24 72) by done. rewrite (sub_skip b8 _ 8 16 64) by done. rewrite (sub_skip b4 _ 4 12 60) by done. rewrite (sub_skip wn _ 12 0 48) by done. by apply sub_here. }
  assert (sub e 80 92 = dn) as ->.
  { unfold e. rewrite (sub_skip frameMagic _ 8 72 84) by done. rewrite (sub_skip b8 _ 8 64 76) by done. rewrite (sub_skip b4 _ 4 60 72) by done. rewrite (sub_skip wn _ 12 48 60) by done.
    rewrite (sub_skip w _ 48 0 12) by done. by apply sub_here. }
  assert (str_drop 92 e = c) as ->.
  { unfold e. rewrite (drop_skip frameMagic _ 8 84) by done. rewrite (drop_skip b8 _ 8 76) by done. rewrite (drop_skip b4 _ 4 72) by done. rewrite (drop_skip wn _ 12 60) by done.
    rewrite (drop_skip w _ 48 12) by done. by rewrite (drop_skip dn _ 12 0). }
  unfold b8, b4. rewrite !be_value_bytes by (change (256 ^ Z.of_nat 8) with (2 ^ 64); change (256 ^ Z.of_nat 4) with (2 ^ 32); lia).
  rewrite !Z.mul_0_l, !Z.add_0_l. cbn [fr_Length fr_Index]. rewrite !Z.eqb_refl. rewrite String.eqb_refl. cbn [negb orb]. rewrite (proj2 (Z.ltb_ge _ _)) by lia. cbn [orb].
  cbv zeta. fold aad. unfold w. rewrite (open_seal root wn dek aad Kr Nw), Kd. cbn [negb]. unfold c. rewrite (open_seal dek dn plain aad Kd Nd), Z.eqb_refl. done.
Qed.

(** ** Objects *)

Lemma objectName_digest s : objectName (sha256_hex s) = true.
Proof.
  pose proof (sha256_shape s) as Hs. apply sha256_digest_ok_spec in Hs as (_ & Hl & Hall). cbn in Hl, Hall. unfold objectName.
  assert (String.length (sha256_hex s) = 2 * 32)%nat as Hn by (unfold len in Hl; lia). destruct (proj2 (hex_roundtrip 32 _ Hn) Hall) as (l & Hd & He). rewrite Hd, He, String.eqb_refl, andb_true_r.
  apply Z.eqb_eq. assert (forall m, String.length (hex_encode m) = 2 * length m)%nat as Hlen by (induction m as [|x m IH]; [done|cbn; lia]).
  specialize (Hlen l). rewrite He in Hlen. lia.
Qed.

Lemma verifyDigest_digest data : verifyDigest (digestBytes data) data = true.
Proof.
  pose proof (sha256_shape data) as Hs. apply sha256_digest_ok_spec in Hs as (_ & Hl & _). unfold verifyDigest, digestBytes. cbn in *. by rewrite Hl, String.eqb_refl.
Qed.

(** A put never changes an object that is there; it says [true] exactly when it made one. *)
Lemma putIfAbsent_effect f key data objects objects' res :
  putIfAbsent f key data objects = (objects', res) ->
  match res with
  | Ok true => objects !! key = None /\ objects' = <[key := data]> objects /\ bounded data = true
  | Ok false => objects' = objects /\ objects !! key = Some data /\ bounded data = true
  | Err _ => objects' = objects \/ objects !! key = None /\ objects' = <[key := data]> objects /\ pf_undo f = true
  end.
Proof.
  unfold putIfAbsent. destruct (pf_ctx f); [intros [= <- <-]; by left|]. destruct (_ || _) eqn:E1; [intros [= <- <-]; by left|]. bool_prop.
  assert (bounded data = true) as Hb by (unfold bounded; pose proof (len_nonneg data); apply andb_true_iff; split; [apply Z.ltb_lt; lia|by apply Z.leb_le]).
  destruct (negb _); [intros [= <- <-]; by left|]. destruct (pf_shard f); [intros [= <- <-]; by left|]. destruct (pf_partial f); [intros [= <- <-]; by left|].
  destruct (pf_write f); [intros [= <- <-]; by left|]. destruct (objects !! key) as [existing|] eqn:Ek.
  - destruct (_ || _); [intros [= <- <-]; by left|]. destruct (String.eqb_spec existing data) as [->|]; cbn [negb]; [|intros [= <- <-]; by left].
    destruct (pf_cleanup f); intros [= <- <-]; [by left|done].
  - destruct (pf_link f); [intros [= <- <-]; by left|]. cbv zeta. destruct (pf_unlink f); [|destruct (pf_commit f)].
    1,2: destruct (pf_undo f); intros [= <- <-]; [by right|by left]. intros [= <- <-]. done.
Qed.

Lemma delete_object_effect f key objects objects' res :
  delete_object f key objects = (objects', res) -> (objects' = objects /\ (res = Ok tt -> objects !! key = None)) \/ objects' = delete key objects.
Proof.
  unfold delete_object. destruct (df_ctx f); [intros [= <- <-]; by left|]. destruct (negb _); [intros [= <- <-]; by left|]. destruct (df_shard f); [intros [= <- <-]; by left|].
  destruct (objects !! key) as [x|] eqn:E.
  - destruct (df_remove f); [intros [= <- <-]; by left|]. destruct (df_sync f); intros [= <- <-]; by right.
  - destruct (df_sync f); intros [= <- <-]; by left.
Qed.

Lemma delete_object_gone f key objects objects' : delete_object f key objects = (objects', Ok tt) -> objects' = delete key objects /\ objects' !! key = None.
Proof.
  intros E. destruct (delete_object_effect _ _ _ _ _ E) as [[-> Hn]| ->].
  - specialize (Hn eq_refl). split; [symmetry; by apply delete_id|done].
  - split; [done|apply lookup_delete_eq].
Qed.
End frames.
