(* ===== verification/VaultStaging.v ===== *)
(** * artifactvault: staging and reading frames

    [laid] says that the frames of a record lie one after the other and that
    every object decrypts to its part of the content.  The loop of
    [StageContent] lays the content it reads, never touches an object that was
    there, and succeeds when nothing fails.  The loops of [verifyGeneration] and
    [HydrateRange] read frames that are laid: verification the whole content,
    hydration the requested part of it, and neither accepts an object other than
    the one recorded. *)

From Stdlib Require Import Ascii String.
From S2P Require Import Prelude GoString Float64 Runtime Contracts Composite Vault StorageRules VaultRepository VaultFrames.
From stdpp Require Import gmap strings.
Open Scope string_scope.
Open Scope Z_scope.

Definition join_all (parts : list string) : string := foldr append "" parts.

Lemma join_all_cons p ps : join_all (p :: ps) = p ++ join_all ps.
Proof. done. Qed.

Lemma nonempty_len s : s <> "" -> 0 < len s.
Proof. destruct s; [done|]. unfold len. cbn. lia. Qed.

Section staging.
Context `{GoRuntime} `{AEAD} `{!AEADLaws} `{!DigestLaws}.

(** The object of a frame is there, has the recorded digest and decrypts to [plain]. *)
Definition frame_ok (objects : Objects) (root : string) (g : GenerationRecord) (frame : FrameRecord) (plain : string) : Prop :=
  exists envelope, objects !! objectKey g (fr_Index frame) = Some envelope /\ bounded envelope = true /\
    verifyDigest (fr_ObjectDigest frame) envelope = true /\ decryptFrame root g frame envelope = Ok plain.

Fixpoint laid (objects : Objects) (root : string) (g : GenerationRecord) (index offset : Z) (frames : list FrameRecord) (plains : list string) : Prop :=
  match frames, plains with
  | [], [] => True
  | f :: fs, p :: ps =>
      fr_Index f = index /\ fr_Offset f = offset /\ fr_Length f = len p /\ 0 < len p /\ frame_ok objects root g f p /\ laid objects root g (index + 1) (offset + len p) fs ps
  | _, _ => False
  end.

(** The objects of a generation are the content. *)
Definition holds_content (objects : Objects) (root : string) (g : GenerationRecord) (content : string) : Prop :=
  exists plains, laid objects root g 0 0 (gr_Frames g) plains /\ join_all plains = content.

Lemma laid_mono o1 o2 root g index offset frames plains : o1 ⊆ o2 -> laid o1 root g index offset frames plains -> laid o2 root g index offset frames plains.
Proof.
  intros Hs. revert index offset plains. induction frames as [|f fs IH]; intros index offset [|p ps]; cbn; try done.
  intros (E1 & E2 & E3 & E4 & (e & Ho & Hrest) & Hl). split_and!; [done..| |by apply IH]. exists e. split; [by eapply lookup_weaken|done].
Qed.

(** Only the manifest and the locator of a record matter. *)
Lemma laid_same objects root g g' index offset frames plains :
  gr_Manifest g' = gr_Manifest g -> gr_Locator g' = gr_Locator g -> laid objects root g index offset frames plains -> laid objects root g' index offset frames plains.
Proof.
  intros Em El. assert (forall i, objectKey g' i = objectKey g i) as Ek by (intros i; unfold objectKey; by rewrite Em, El).
  assert (forall f e, decryptFrame root g' f e = decryptFrame root g f e) as Ed by (intros f e; unfold decryptFrame, frameAAD; by rewrite Em, El).
  revert index offset plains. induction frames as [|f fs IH]; intros index offset [|p ps]; cbn; try done.
  intros (E1 & E2 & E3 & E4 & (e & Ho & Hb & Hv & Hd) & Hl). split_and!; [done..| |by apply IH]. exists e. rewrite Ek, Ed. by split_and!.
Qed.

Lemma holds_content_mono o1 o2 root g content : o1 ⊆ o2 -> holds_content o1 root g content -> holds_content o2 root g content.
Proof. intros Hs (ps & Hl & Hj). exists ps. split; [by eapply laid_mono|done]. Qed.

Lemma holds_content_status objects root g content s : holds_content objects root g content -> holds_content objects root (set_status s g) content.
Proof. intros (ps & Hl & Hj). exists ps. split; [by eapply laid_same; [..|exact Hl]|done]. Qed.

Lemma laid_app objects root g index offset fs1 fs2 ps1 ps2 :
  laid objects root g index offset fs1 ps1 -> laid objects root g (index + Z.of_nat (length fs1)) (offset + len (join_all ps1)) fs2 ps2 ->
  laid objects root g index offset (fs1 ++ fs2) (ps1 ++ ps2).
Proof.
  revert index offset ps1. induction fs1 as [|f fs IH]; intros index offset [|p ps] H1' H2'; cbn in H1'; try done.
  - cbn in *. by rewrite !Z.add_0_r in H2'.
  - destruct H1' as (E1 & E2 & E3 & E4 & Hf & Hl). cbn [app laid]. split_and!; [done..|]. apply IH; [done|]. rewrite join_all_cons, len_app in H2'. cbn [length] in H2'.
    by replace (index + 1 + Z.of_nat (length fs)) with (index + Z.of_nat (S (length fs))) by lia; rewrite <- Z.add_assoc.
Qed.

(** ** The loop *)

Definition set_objects (o : Objects) (sg : Staging) : Staging := MkStaging o (sg_random sg) (sg_created sg) (sg_reader sg) (sg_hashed sg) (sg_frames sg) (sg_remaining sg).

(** What it does to the objects, whatever its result. *)
Lemma stage_loop_objects v env root g count index sg sg' res :
  stage_loop v env root g count index sg = (sg', res) ->
  sg_objects sg ⊆ sg_objects sg' /\ exists new, sg_created sg' = (sg_created sg ++ new)%list /\ (forall k, k ∈ new -> sg_objects sg !! k = None /\ objectName k = true) /\
    ((forall k, pf_undo (ve_put env k) = false) -> forall k, k ∉ new -> sg_objects sg' !! k = sg_objects sg !! k).
Proof.
  revert index sg. induction count as [|count IH]; intros index sg; cbn [stage_loop]; [intros [= <- _]; split; [done|]; exists []; rewrite app_nil_r; split_and!; [done|set_solver|done]|].
  destruct (read_full _ _) as [reader [plain|]]; [|intros [= <- _]; split; [done|]; exists []; cbn; rewrite app_nil_r; split_and!; [done|set_solver|done]].
  destruct (encryptFrame _ _ _ _ _) as [random [envelope|e]]; [|intros [= <- _]; split; [done|]; exists []; cbn; rewrite app_nil_r; split_and!; [done|set_solver|done]].
  set (key := objectKey g index). destruct (putIfAbsent _ key envelope (sg_objects sg)) as [objects [created|e]] eqn:Ep; apply putIfAbsent_effect in Ep.
  - intros (Hsub & new & Hc & Hnew & Hold)%IH. cbn in *. destruct created.
    + destruct Ep as (Hk & -> & _). split; [etrans; [by apply insert_subseteq|done]|]. exists (key :: new). rewrite Hc, <- app_assoc. split_and!; [done| |].
      * intros k [-> |Hk']%elem_of_cons; [split; [done|apply objectName_digest]|]. destruct (Hnew k Hk') as [Hn ?]. by apply lookup_insert_None in Hn as [? _].
      * intros Hu k [Hne Hk']%not_elem_of_cons. rewrite Hold by done. by rewrite lookup_insert_ne.
    + destruct Ep as (-> & _ & _). split; [done|]. by exists new.
  - intros [= <- _]. cbn. destruct Ep as [-> |(Hk & -> & Hu)].
    + split; [done|]. exists []. rewrite app_nil_r. split_and!; [done|set_solver|done].
    + split; [by apply insert_subseteq|]. exists []. rewrite app_nil_r. split_and!; [done|set_solver|]. intros Hn. by rewrite Hn in Hu.
Qed.

(** When it succeeds, the frames it adds are the content it read. *)
Lemma stage_loop_laid v env root g count index sg sg' :
  stage_loop v env root g count index sg = (sg', Ok tt) -> v_frameSize v <= maxFrameBytes -> 0 <= am_KeyEpoch (gr_Manifest g) < 2 ^ 64 ->
  exists frames plains, sg_frames sg' = (sg_frames sg ++ frames)%list /\ length frames = count /\
    laid (sg_objects sg') root g index (am_Length (gr_Manifest g) - sg_remaining sg) frames plains /\
    sg_reader sg = join_all plains ++ sg_reader sg' /\ sg_hashed sg' = sg_hashed sg ++ join_all plains /\ sg_remaining sg' = sg_remaining sg - len (join_all plains).
Proof.
  intros Hloop Hfs Hep. revert index sg Hloop. induction count as [|count IH]; intros index sg; cbn [stage_loop].
  { intros [= <-]. exists [], []. rewrite app_nil_r. cbn. rewrite append_nil_r. split_and!; try done. unfold len. cbn. lia. }
  set (length_ := Z.min _ _). destruct (read_full _ _) as [reader [plain|]] eqn:Er; [|done].
  destruct (encryptFrame _ _ _ _ _) as [random [envelope|e]] eqn:Ee; [|done]. destruct (putIfAbsent _ _ _ _) as [objects [created|e]] eqn:Ep; [|done]. intros Hloop.
  apply read_full_Some in Er as [Lp Er]. pose proof (encryptFrame_Ok _ _ _ _ _ _ _ Ee) as (_ & Hne & _). apply nonempty_len in Hne.
  assert (len plain = length_) as Hl by (unfold len in *; lia). assert (length_ <= maxFrameBytes) as Hmax by (unfold length_; lia).
  destruct (encrypt_decrypt root g index plain _ _ _ (am_Length (gr_Manifest g) - sg_remaining sg) (digestBytes envelope) Ee Hep) as [Hd _]; [unfold maxFrameBytes in Hmax; lia|].
  destruct (IH _ _ Hloop) as (frames & plains & F1 & F2 & F3 & F4 & F5 & F6). cbn in F1, F3, F4, F5, F6.
  destruct (stage_loop_objects _ _ _ _ _ _ _ _ _ Hloop) as [Hsub _]. cbn in Hsub.
  exists (MkFrame index (am_Length (gr_Manifest g) - sg_remaining sg) length_ (digestBytes envelope) :: frames), (plain :: plains).
  rewrite F1, <- app_assoc, join_all_cons, len_app. split_and!; [done|cbn; lia| |rewrite Er, F4; by rewrite append_assoc|rewrite F5; by rewrite append_assoc|lia].
  cbn [laid fr_Index fr_Offset fr_Length]. split_and!; [done|done|done|done| |].
  - exists envelope. cbn. rewrite <- Hl. apply putIfAbsent_effect in Ep. assert (objects !! objectKey g index = Some envelope /\ bounded envelope = true) as [Ho Hb].
    { destruct created; [destruct Ep as (_ & -> & ?); by rewrite lookup_insert_eq|by destruct Ep as (-> & ? & ?)]. }
    split_and!; [by eapply lookup_weaken|done|apply verifyDigest_digest|done].
  - rewrite Hl. by replace (am_Length (gr_Manifest g) - sg_remaining sg + length_) with (am_Length (gr_Manifest g) - (sg_remaining sg - length_)) by lia.
Qed.

Definition calm_put : PutFaults := MkPutFaults false false false false false false false false false false.

Lemma hex_char_nonzero n : 0 <= n < 16 -> Ascii.eqb (hex_char n) "000" = false.
Proof.
  intros Hn. assert (forallb (fun n => negb (Ascii.eqb (hex_char (Z.of_nat n)) "000")) (seq 0 16) = true) as Hall by reflexivity.
  rewrite forallb_forall in Hall. specialize (Hall (Z.to_nat n)). rewrite Z2Nat.id in Hall by lia. apply negb_true_iff, Hall, in_seq. lia.
Qed.

Lemma hex_of_bytes_plain s : contains_char "000" (hex_of_bytes s) = false /\ String.length (hex_of_bytes s) = (2 * String.length s)%nat.
Proof.
  unfold hex_of_bytes. induction s as [|c s [IH1 IH2]]; [done|]. cbn [list_ascii_of_string fmap list_fmap hex_encode contains_char String.length].
  pose proof (byte_val_range c : 0 <= byte_of_ascii c < 256) as Hc. change (list_fmap _ _ byte_of_ascii (list_ascii_of_string s)) with (byte_of_ascii <$> list_ascii_of_string s).
  rewrite !hex_char_nonzero by first [apply Z.mod_pos_bound; lia | split; [apply Z.div_pos; lia|apply Z.div_lt_upper_bound; lia]].
  cbn [orb]. split; [exact IH1|]. rewrite IH2. lia.
Qed.

(** A locator of a stage can be stored. *)
Lemma locator_valid random : (16 <= String.length random)%nat -> validLocator (hex_of_bytes (str_take 16 random)) = true.
Proof.
  intros Hr. destruct (hex_of_bytes_plain (str_take 16 random)) as [Hc Hl]. rewrite length_str_take, Nat.min_l in Hl by lia.
  unfold validLocator, len, maxLocatorBytes. rewrite Hc, Hl. destruct (hex_of_bytes _); [done|]. done.
Qed.

(** The frames a stage records satisfy the rules of durable metadata. *)
Definition storable (limit : Z) (f : FrameRecord) : Prop := fr_Length f <= limit /\ validDigest (fr_ObjectDigest f) = true.

Lemma stage_loop_storable v env root g count index sg sg' :
  stage_loop v env root g count index sg = (sg', Ok tt) -> Forall (storable (v_frameSize v)) (sg_frames sg) -> Forall (storable (v_frameSize v)) (sg_frames sg').
Proof.
  revert index sg. induction count as [|count IH]; intros index sg; cbn [stage_loop]; [by intros [= <-]|].
  destruct (read_full _ _) as [reader [plain|]]; [|done]. destruct (encryptFrame _ _ _ _ _) as [random [envelope|e]]; [|done].
  destruct (putIfAbsent _ _ _ _) as [objects [created|e]]; [|done]. intros Hloop Hf. apply (IH _ _ Hloop). cbn. apply Forall_app. split; [done|].
  constructor; [|done]. split; [cbn; lia|]. apply sha256_shape.
Qed.

Lemma laid_frames_from objects root g index offset frames plains :
  laid objects root g index offset frames plains -> Forall (storable maxFrameBytes) frames -> 0 <= offset -> offset + len (join_all plains) < 2 ^ 64 ->
  frames_from index offset frames = Some (offset + len (join_all plains)).
Proof.
  revert index offset plains. induction frames as [|f fs IH]; intros index offset [|p ps]; cbn [laid frames_from]; try done.
  - intros _ _ _ _. cbn. f_equal. unfold len. cbn. lia.
  - intros (E1 & E2 & E3 & E4 & _ & Hl) [[Hs Hd] Hfs]%Forall_cons Ho Hb. rewrite join_all_cons, len_app in Hb |- *. pose proof (len_nonneg (join_all ps)).
    rewrite E1, E2, E3, Hd, !Z.eqb_refl. rewrite (proj2 (Z.leb_gt _ _)), (proj2 (Z.ltb_ge _ _)) by lia. cbn [negb orb].
    unfold wrapU64. rewrite Z.mod_small by lia. rewrite (IH _ _ ps) by (done || lia). f_equal. lia.
Qed.

(** When nothing fails, there are enough bytes and enough randomness, and the object keys are free, it succeeds. *)
Lemma stage_loop_progress v env root g count index sg :
  len root = 32 -> 0 < v_frameSize v <= maxFrameBytes -> (forall k, ve_put env k = calm_put) -> 0 <= am_KeyEpoch (gr_Manifest g) < 2 ^ 64 ->
  (forall i, index <= i < index + Z.of_nat count -> sg_objects sg !! objectKey g i = None) ->
  (forall i j, index <= i < j -> j < index + Z.of_nat count -> objectKey g i <> objectKey g j) ->
  56 * Z.of_nat count <= len (sg_random sg) -> 0 <= sg_remaining sg <= len (sg_reader sg) -> v_frameSize v * (Z.of_nat count - 1) < sg_remaining sg ->
  exists sg', stage_loop v env root g count index sg = (sg', Ok tt) /\ sg_remaining sg' = Z.max 0 (sg_remaining sg - v_frameSize v * Z.of_nat count).
Proof.
  intros Hroot Hfs Hput Hep. revert index sg. induction count as [|count IH]; intros index sg Hfree Hdist Hrnd Hrd Hrem; cbn [stage_loop].
  { exists sg. split; [done|]. lia. }
  set (length_ := Z.min _ _). assert (0 < length_ <= sg_remaining sg) as Hl by (unfold length_; nia).
  unfold read_full at 1. rewrite (proj2 (Nat.leb_le _ _)) by (unfold len in Hrd; lia). set (plain := str_take _ _).
  assert (len plain = length_) as Hp by (unfold plain, len; rewrite length_str_take; unfold len in Hrd; lia).
  assert (exists random envelope, encryptFrame root g index plain (sg_random sg) = (random, Ok envelope) /\ len (sg_random sg) - 56 = len random) as (random & envelope & Ee & Hr).
  { unfold encryptFrame. rewrite Hroot. assert (String.eqb plain "" = false) as -> by (apply String.eqb_neq; intros E; rewrite E in Hp; unfold len in Hp; cbn in Hp; lia). cbn [orb negb Z.eqb RootKeyBytes Pos.eqb].
    unfold len in Hrnd. unfold read_full. rewrite (proj2 (Nat.leb_le _ _)) by lia. rewrite length_str_drop, (proj2 (Nat.leb_le _ _)) by lia. rewrite length_str_drop, length_str_drop, (proj2 (Nat.leb_le _ _)) by lia.
    eexists _, _. split; [done|]. unfold len. rewrite !length_str_drop. lia. }
  rewrite Ee. destruct (encrypt_decrypt root g index plain _ _ _ 0 (digestBytes envelope) Ee Hep) as [_ Hlen]; [unfold maxFrameBytes in *; lia|].
  unfold putIfAbsent. rewrite Hput, Hfree by lia. cbn [calm_put pf_ctx pf_shard pf_partial pf_write pf_link pf_unlink pf_commit pf_undo].
  rewrite (proj2 (Z.eqb_neq (len envelope) 0)), (proj2 (Z.ltb_ge maxObjectBytes (len envelope))) by (unfold maxObjectBytes, frameHeaderBytes in *; lia). cbn [orb].
  unfold objectKey at 1. rewrite objectName_digest. cbn [negb]. set (sg1 := MkStaging _ _ _ _ _ _ _). destruct (IH (index + 1) sg1) as (sg' & Hs & Hrem').
  - intros i Hi. unfold sg1. cbn. rewrite lookup_insert_ne by (apply Hdist; lia). apply Hfree. lia.
  - intros i j Hi Hj. apply Hdist; lia.
  - unfold sg1. cbn. lia.
  - unfold sg1. cbn [sg_reader sg_remaining]. unfold len in *. rewrite length_str_drop. lia.
  - unfold sg1. cbn [sg_remaining]. unfold length_. nia.
  - exists sg'. split; [exact Hs|]. rewrite Hrem'. unfold sg1. cbn [sg_remaining]. unfold length_. nia.
Qed.
End staging.

(** ** Reading frames *)

(** The bytes from [a] to [b] of a content that starts at [base]. *)
Definition range_part (base : Z) (content : string) (a b : Z) : string := str_take (Z.to_nat (b - Z.max a base)) (str_drop (Z.to_nat (a - base)) content).

Lemma str_drop_append n s t : str_drop n (s ++ t) = str_drop n s ++ str_drop (n - String.length s) t.
Proof. revert n. induction s as [|c s IH]; intros [|n]; [done..|]. apply IH. Qed.

Lemma str_take_append n s t : str_take n (s ++ t) = str_take n s ++ str_take (n - String.length s) t.
Proof. revert n. induction s as [|c s IH]; intros [|n]; cbn; try done. by rewrite IH. Qed.

Lemma range_part_app base p content a b : range_part base (p ++ content) a b = range_part base p a b ++ range_part (base + len p) content a b.
Proof.
  unfold range_part. rewrite str_drop_append, str_take_append, length_str_drop. f_equal. unfold len. f_equal; [lia|]. f_equal. lia.
Qed.

Lemma range_part_before base p a b : b <= base -> range_part base p a b = "".
Proof. intros Hb. unfold range_part. by replace (Z.to_nat (b - Z.max a base)) with 0%nat by lia. Qed.

Lemma range_part_after base p a b : base + len p <= a -> range_part base p a b = "".
Proof.
  intros Ha. unfold range_part. assert (str_drop (Z.to_nat (a - base)) p = "") as ->; [|by destruct (Z.to_nat _)].
  unfold len in Ha. assert (String.length p <= Z.to_nat (a - base))%nat as Hl by lia. revert Hl. generalize (Z.to_nat (a - base)). clear. intros n. revert n.
  induction p as [|c p IH]; intros [|n] Hn; cbn in *; try done; [lia|]. apply IH. lia.
Qed.

Lemma range_part_frame base p a b :
  0 <= base -> a < base + len p -> base < b -> a <= b ->
  sub p (Z.to_nat (Z.max a base - base)) (Z.to_nat (Z.min b (base + len p) - base)) = range_part base p a b.
Proof.
  intros Hb Ha1 Hb1 Hab. unfold sub, range_part. replace (Z.to_nat (Z.max a base - base)) with (Z.to_nat (a - base)) by lia. set (d := str_drop _ p).
  assert (String.length d = String.length p - Z.to_nat (a - base))%nat as Ld by (unfold d; apply length_str_drop). unfold len in *.
  assert (forall n m (s : string), (Nat.min n (String.length s) = Nat.min m (String.length s))%nat -> str_take n s = str_take m s) as Htk.
  { clear. intros n m s. revert n m. induction s as [|c s IH]; intros [|n] [|m] E; cbn in *; try done; try lia. f_equal. apply IH. lia. }
  apply Htk. rewrite Ld. lia.
Qed.

Lemma sub_range content off end_ : 0 <= off <= end_ -> range_part 0 content off end_ = sub content (Z.to_nat off) (Z.to_nat end_).
Proof.
  intros Ho. unfold range_part, sub. rewrite Z.sub_0_r, Z.max_l by lia. by replace (Z.to_nat (end_ - off)) with (Z.to_nat end_ - Z.to_nat off)%nat by lia.
Qed.

Lemma len_sub content a b : 0 <= a <= b -> b <= len content -> len (sub content (Z.to_nat a) (Z.to_nat b)) = b - a.
Proof. intros Ha Hb. unfold sub, len in *. rewrite length_str_take, length_str_drop. lia. Qed.

Section reads.
Context `{GoRuntime} `{AEAD} `{!AEADLaws} `{!DigestLaws}.

Definition calm_read : ReadFaults := MkReadFaults false false false.

Lemma be_value_bound acc s : 0 <= acc -> be_value acc s < (acc + 1) * 256 ^ len s.
Proof.
  revert acc. induction s as [|c s IH]; intros acc Ha; cbn [be_value]; [unfold len; cbn; lia|]. pose proof (byte_val_range c) as Hc.
  specialize (IH (256 * acc + byte_val c) ltac:(lia)). eapply Z.lt_le_trans; [exact IH|]. unfold len. cbn [String.length]. rewrite Nat2Z.inj_succ, Z.pow_succ_r by lia.
  rewrite Z.mul_assoc. apply Z.mul_le_mono_nonneg_r; [apply Z.pow_nonneg; lia|lia].
Qed.

Lemma decryptFrame_Ok root g frame envelope plain : decryptFrame root g frame envelope = Ok plain -> len plain = fr_Length frame /\ fr_Length frame < 2 ^ 32.
Proof.
  unfold decryptFrame. destruct (_ || _); [done|]. destruct (negb _ || negb (be_value 0 (sub envelope 16 20) =? fr_Length frame)) eqn:E; [done|]. bool_prop. cbv zeta.
  destruct (aead_open _ _ _ _); [|done]. destruct (negb _); [done|]. destruct (aead_open _ _ _ _); [|done]. destruct (_ =? _) eqn:El; [|done]. intros [= <-]. bool_prop.
  split; [done|]. pose proof (be_value_bound 0 (sub envelope 16 20) ltac:(lia)) as Hb. assert (len (sub envelope 16 20) <= 4) as Hl by (unfold sub, len; rewrite length_str_take; lia).
  assert (256 ^ len (sub envelope 16 20) <= 256 ^ 4) by (apply Z.pow_le_mono_r; lia). change (256 ^ 4) with (2 ^ 32) in *. lia.
Qed.

Lemma readFrame_ok env root g frame plain objects :
  (forall k, ve_read env k = calm_read) -> frame_ok objects root g frame plain -> readFrame env root g frame objects = Ok plain.
Proof.
  intros Hc (e & Ho & Hb & Hv & Hd). unfold readFrame, read_object. rewrite Hc. cbn. unfold objectKey at 1. rewrite objectName_digest. cbn [negb]. fold (objectKey g (fr_Index frame)).
  rewrite Ho, Hb. cbn. by rewrite Hv.
Qed.

Lemma readFrame_Ok env root g frame plain objects : readFrame env root g frame objects = Ok plain -> frame_ok objects root g frame plain.
Proof.
  unfold readFrame, read_object. intros (e & Hr & Hd)%rbind_Ok. destruct (rf_ctx _); [done|]. destruct (negb _); [done|]. destruct (rf_shard _); [done|].
  destruct (objects !! _) as [x|] eqn:Ho; [|done]. destruct (rf_read _); [done|]. destruct (bounded x) eqn:Hb; [|done]. injection Hr as <-.
  destruct (verifyDigest _ _) eqn:Hv; [|done]. by exists x.
Qed.

Lemma laid_bound objects root g index offset frames plains :
  laid objects root g index offset frames plains -> 0 <= len (join_all plains) <= 2 ^ 32 * Z.of_nat (length frames).
Proof.
  revert index offset plains. induction frames as [|f fs IH]; intros index offset [|p ps]; cbn [laid]; try done.
  intros (_ & _ & E3 & E4 & (e & _ & _ & _ & Hd) & Hl%IH). apply decryptFrame_Ok in Hd as [_ Hd]. rewrite join_all_cons, len_app. cbn [length]. lia.
Qed.

Lemma verify_loop_laid env root g frames plains index offset hashed objects :
  (forall k, ve_read env k = calm_read) -> laid objects root g index offset frames plains -> 0 <= offset -> offset + len (join_all plains) < 2 ^ 64 ->
  verify_loop env root g frames index offset hashed objects = Ok (offset + len (join_all plains), hashed ++ join_all plains).
Proof.
  intros Hc. revert plains index offset hashed. induction frames as [|f fs IH]; intros [|p ps] index offset hashed; cbn [laid verify_loop]; try done.
  - intros _ _ _. cbn. rewrite append_nil_r. unfold len. cbn. by rewrite Z.add_0_r.
  - intros (E1 & E2 & E3 & E4 & Hf & Hl) Ho Hb. rewrite join_all_cons, len_app in Hb |- *. pose proof (len_nonneg (join_all ps)) as Hn.
    rewrite E1, E2, !Z.eqb_refl. rewrite (proj2 (Z.eqb_neq (fr_Length f) 0)) by lia. cbn [negb orb]. rewrite (readFrame_ok env root g f p objects Hc Hf).
    unfold wrapU64. rewrite E3, Z.mod_small by lia. rewrite (IH ps) by (done || lia). by rewrite append_assoc, Z.add_assoc.
Qed.

Lemma verify_loop_Ok env root g frames index offset hashed objects res :
  verify_loop env root g frames index offset hashed objects = Ok res -> 0 <= offset -> offset + 2 ^ 32 * Z.of_nat (length frames) < 2 ^ 64 ->
  exists plains, laid objects root g index offset frames plains /\ res = (offset + len (join_all plains), hashed ++ join_all plains).
Proof.
  revert index offset hashed. induction frames as [|f fs IH]; intros index offset hashed; cbn [verify_loop].
  - intros [= <-] _ _. exists []. cbn. rewrite append_nil_r. unfold len. cbn. by rewrite Z.add_0_r.
  - destruct (_ || _) eqn:E; [done|]. apply orb_false_iff in E as [[E1 E2]%orb_false_iff E3]. bool_prop. destruct (readFrame _ _ _ _ _) as [p|] eqn:Er; [|done].
    apply readFrame_Ok in Er. pose proof Er as (e & _ & _ & _ & [Hd1 Hd2]%decryptFrame_Ok). intros Hv Ho Hb. cbn [length] in Hb. rewrite Nat2Z.inj_succ in Hb. pose proof (len_nonneg p) as Hp.
    unfold wrapU64 in Hv. rewrite Z.mod_small in Hv by lia. destruct (IH _ _ _ Hv) as (ps & Hl & ->); [lia|lia|]. exists (p :: ps). rewrite join_all_cons, len_app. split.
    + cbn [laid]. split_and!; [done|done|done|lia|done|]. by rewrite Hd1.
    + by rewrite append_assoc, <- Hd1, Z.add_assoc.
Qed.

Lemma hydrate_loop_laid env root g frames plains index offset a b objects :
  (forall k, ve_read env k = calm_read) -> laid objects root g index offset frames plains -> 0 <= offset -> offset + len (join_all plains) < 2 ^ 64 -> a <= b ->
  exists digests, hydrate_loop env root g a b frames objects = Ok (range_part offset (join_all plains) a b, digests).
Proof.
  intros Hc. revert plains index offset. induction frames as [|f fs IH]; intros [|p ps] index offset; cbn [laid hydrate_loop]; try done.
  - intros _ _ _ _. exists []. unfold range_part. cbn. do 2 f_equal. destruct (Z.to_nat (a - offset)), (Z.to_nat (b - Z.max a offset)); done.
  - intros (E1 & E2 & E3 & E4 & Hf & Hl) Ho Hb Hab. rewrite join_all_cons, len_app in Hb. rewrite join_all_cons, range_part_app. pose proof (len_nonneg (join_all ps)) as Hn.
    destruct (IH ps (index + 1) (offset + len p)) as (ds & Hh); [done|lia|lia|done|]. unfold wrapU64. rewrite E2, E3, Z.mod_small by lia. cbv zeta. rewrite Hh.
    destruct ((offset + len p <=? a) || (b <=? offset)) eqn:E.
    + exists ds. apply orb_true_iff in E as [E|E]; bool_prop; [rewrite (range_part_after offset p) by lia|rewrite (range_part_before offset p) by lia]; done.
    + bool_prop. rewrite (readFrame_ok env root g f p objects Hc Hf). cbn [rbind fst snd]. eexists. rewrite range_part_frame by lia. done.
Qed.

(** No other object has the digest of a recorded one. *)
Definition no_collision (objects objects' : Objects) (g : GenerationRecord) (frames : list FrameRecord) : Prop :=
  forall f e e', f ∈ frames -> objects !! objectKey g (fr_Index f) = Some e -> objects' !! objectKey g (fr_Index f) = Some e' -> sha256_hex e = sha256_hex e' -> e = e'.

Lemma frame_ok_same objects objects' root g f plain plain' :
  no_collision objects objects' g [f] -> frame_ok objects root g f plain -> frame_ok objects' root g f plain' -> plain = plain'.
Proof.
  intros Hn (e & Ho & _ & Hv & Hd) (e' & Ho' & _ & Hv' & Hd'). unfold verifyDigest in Hv, Hv'. bool_prop.
  repeat match goal with E : String.eqb _ _ = true |- _ => apply String.eqb_eq in E end.
  assert (e = e') as -> by (apply (Hn f e e'); [left|done|done|congruence]). congruence.
Qed.

Lemma hydrate_loop_Ok env root g frames plains index offset a b objects objects0 bytes digests :
  hydrate_loop env root g a b frames objects = Ok (bytes, digests) -> laid objects0 root g index offset frames plains -> no_collision objects objects0 g frames ->
  0 <= offset -> offset + len (join_all plains) < 2 ^ 64 -> a <= b -> bytes = range_part offset (join_all plains) a b.
Proof.
  revert plains index offset bytes digests. induction frames as [|f fs IH]; intros [|p ps] index offset bytes digests; cbn [laid hydrate_loop]; try done.
  - intros [= <- <-] _ _ _ _ _. unfold range_part. cbn. destruct (Z.to_nat (a - offset)), (Z.to_nat (b - Z.max a offset)); done.
  - intros Hh (E1 & E2 & E3 & E4 & Hf & Hl) Hn Ho Hb Hab. rewrite join_all_cons, len_app in Hb. rewrite join_all_cons, range_part_app. pose proof (len_nonneg (join_all ps)) as Hn0.
    unfold wrapU64 in Hh. rewrite E2, E3, Z.mod_small in Hh by lia. cbv zeta in Hh.
    assert (no_collision objects objects0 g fs) as Hn' by (intros f' e e' Hf'; apply Hn; by right).
    destruct ((offset + len p <=? a) || (b <=? offset)) eqn:E.
    + rewrite (IH ps (index + 1) (offset + len p) bytes digests) by (done || lia).
      apply orb_true_iff in E as [E|E]; bool_prop; [rewrite (range_part_after offset p) by lia|rewrite (range_part_before offset p) by lia]; done.
    + bool_prop. apply rbind_Ok in Hh as (plain & Hr & ([tb td] & Ht & [= <- <-])%rbind_Ok). cbn [fst snd]. apply readFrame_Ok in Hr.
      assert (plain = p) as -> by (eapply (frame_ok_same objects objects0); [|exact Hr|exact Hf]; intros f' e e' ->%list_elem_of_singleton; apply Hn; left).
      rewrite range_part_frame by lia. f_equal. eapply IH; [exact Ht|exact Hl|done|lia|lia|done].
Qed.
End reads.
