(* ===== verification/VaultSafety.v ===== *)
(** * artifactvault: what the vault promises

    Proved against [RepositoryLaws], whatever repository is composed: what
    staging stores, that reads return it exactly or fail, that publication
    verifies, that the lifecycle only moves forward and records never change,
    that a failed stage leaves no trace and a purge leaves no object, and what
    a cancelled read does to an intact generation.  The last part cuts the calls
    at their repository calls and interleaves them ([interleaved]). *)

From Stdlib Require Import Ascii String.
From S2P Require Import Prelude GoString Float64 Runtime Contracts Composite Vault VaultRepository VaultFrames VaultStaging.
From stdpp Require Import gmap strings.
Open Scope string_scope.
Open Scope Z_scope.

Section safety.
Context `{GoRuntime} `{AEAD} `{!AEADLaws} `{!DigestLaws} {R : Type} `{Repository R} `{RepositoryView R} `{!RepositoryLaws}.

Abbreviation record_of st k := (lookup_record (vs_meta st) k).

Definition calm_delete : DeleteFaults := MkDeleteFaults false false false false.

(** ** Staging *)

Lemma delete_created_effect env keys objects objects' errs :
  delete_created env keys objects = (objects', errs) ->
  (forall k, k ∉ keys -> objects' !! k = objects !! k) /\
  ((forall k, ve_cleanup env k = calm_delete) -> (forall k, k ∈ keys -> objectName k = true) -> errs = [] /\ forall k, k ∈ keys -> objects' !! k = None).
Proof.
  revert objects errs. induction keys as [|key keys IH]; intros objects errs; cbn [delete_created]; [intros [= <- <-]; set_solver|].
  destruct (delete_object _ _ _) as [o1 res] eqn:E1. destruct (delete_created env keys o1) as [o2 errs'] eqn:E2. intros [= <- <-]. destruct (IH _ _ E2) as [Hold Hgone]. split.
  - intros k [Hne Hk]%not_elem_of_cons. rewrite Hold by done. destruct (delete_object_effect _ _ _ _ _ E1) as [[-> _]| ->]; [done|by rewrite lookup_delete_ne].
  - intros Hc Hn. destruct Hgone as [-> Hgone]; [done|intros k Hk; apply Hn; by right|].
    unfold delete_object in E1. rewrite Hc, (Hn key) in E1 by left. cbn in E1. assert (res = Ok tt /\ o1 !! key = None) as [-> Hkey].
    { destruct (objects !! key) eqn:Ek; injection E1 as <- <-; [|done]. split; [done|apply lookup_delete_eq]. }
    split; [done|]. intros k [-> |Hk]%elem_of_cons; [|by apply Hgone]. destruct (decide (key ∈ keys)); [by apply Hgone|by rewrite Hold].
Qed.

Lemma record_set_same r r1 r2 k g : lookup_record r k = None -> record_set k (Some g) r r1 -> record_set k None r1 r2 -> same_view r r2.
Proof.
  intros Hn [L1 C1] [L2 C2]. split; [|intros a; by rewrite C2, C1]. intros k'. rewrite L2. destruct (decide (k' = k)) as [->|]; [done|]. rewrite L1. by rewrite decide_False.
Qed.

Lemma record_set_view k g (r r' r'' : R) : record_set k g r r' -> same_view r' r'' -> record_set k g r r''.
Proof. intros [L C] [L' C']. split; [intros k'; by rewrite L', L|intros a; by rewrite C', C]. Qed.

Lemma record_set_lookup k g (r r' : R) : record_set k g r r' -> lookup_record r' k = g.
Proof. intros [L _]. rewrite L. by rewrite decide_True. Qed.

(** States of a repository that stay able to abort a reservation. *)
Definition able_to_abort (able : R -> Prop) : Prop :=
  (forall q locator r, able r -> able (fst (BeginStage q locator r))) /\ (forall g r, able r -> able (fst (CompleteStage g r))) /\
  (forall g r existing, able r -> lookup_record r (manifest_key (gr_Manifest g)) = Some existing -> gr_Manifest existing = gr_Manifest g ->
     gr_Fence existing = gr_Fence g -> gr_Frames existing = [] -> gr_Status existing = StatusStaged -> exists r', AbortStage g r = (r', Ok tt)).

Lemma never_able : able_to_abort (fun _ => False).
Proof. by split_and!. Qed.

Lemma serving_able `{!RepositoryProgress} : able_to_abort serves.
Proof. split_and!; [exact serves_begin|exact serves_complete|]. intros g r ex. apply abort_progress. Qed.

(** Giving up a stage that has just begun: the reservation is gone, or it stays
    as it was reserved if it could not be aborted; only objects it made are deleted. *)
Lemma abort_begun able env g g0 created e st r st' res :
  able_to_abort able ->
  lookup_record r (manifest_key (gr_Manifest g0)) = None -> record_set (manifest_key (gr_Manifest g0)) (Some g0) r (vs_meta st) ->
  gr_Manifest g = gr_Manifest g0 -> gr_Fence g = gr_Fence g0 -> gr_Frames g0 = [] -> gr_Status g0 = StatusStaged ->
  abort env g created e st = (st', res) ->
  (exists err, res = Err err) /\ (same_view r (vs_meta st') \/ record_set (manifest_key (gr_Manifest g0)) (Some g0) r (vs_meta st')) /\
  (able (vs_meta st) -> same_view r (vs_meta st')) /\ (forall k, k ∉ created -> vs_objects st' !! k = vs_objects st !! k) /\
  ((forall k, ve_cleanup env k = calm_delete) -> (forall k, k ∈ created -> objectName k = true) -> forall k, k ∈ created -> vs_objects st' !! k = None).
Proof.
  intros (_ & _ & Hable) Hn Hset Em Ef Hfr Hst. unfold abort. destruct (delete_created _ _ _) as [objects errs] eqn:Ed. destruct (delete_created_effect _ _ _ _ _ Ed) as [Hold Hgone].
  pose proof (record_set_lookup _ _ _ _ Hset) as Hl. rewrite <- Em in Hl. specialize (Hable g (vs_meta st) g0). pose proof (abort_effect g (vs_meta st)) as Hab.
  destruct (AbortStage g (vs_meta st)) as [r' [[]|err]]; cbn in Hab |- *; intros [= <- <-]; cbn.
  - assert (same_view r r') as Hsv by (destruct Hab as [[_ Hab]|(ex & _ & _ & _ & _ & Hset')]; [congruence|rewrite Em in Hset'; by eapply record_set_same]).
    split_and!; [by eexists|by left|done|done|]. intros Hc Hname. by apply Hgone.
  - split_and!; [by eexists|right; by eapply record_set_view|intros Ha; destruct (Hable Ha) as [? [=]]; congruence|done|]. intros Hc Hname. by apply Hgone.
Qed.

(** Everything [StageContent] can do. *)
Lemma StageContent_effect able v env q rd st st' res :
  able_to_abort able -> StageContent v env q rd st = (st', res) -> 0 < v_frameSize v <= maxFrameBytes -> 0 <= am_KeyEpoch (sr_Manifest q) < 2 ^ 64 ->
  let m := sr_Manifest q in
  vs_objects st ⊆ vs_objects st' /\
  match res with
  | Ok _ =>
      (same_view (vs_meta st) (vs_meta st') /\ exists g, record_of st (manifest_key m) = Some g /\ gr_Manifest g = m /\ complete g = true) \/
      (exists g material, record_of st (manifest_key m) = None /\ record_set (manifest_key m) (Some g) (vs_meta st) (vs_meta st') /\ gr_Manifest g = m /\
         gr_Status g = StatusStaged /\ complete g = true /\ ve_Current env (am_Tenant m) = Some material /\
         holds_content (vs_objects st') (mt_RootKey material) g (rd_bytes rd) /\ sha256_hex (rd_bytes rd) = Hex (am_Digest m) /\ len (rd_bytes rd) = am_Length m)
  | Err _ =>
      (same_view (vs_meta st) (vs_meta st') \/
       exists g, record_of st (manifest_key m) = None /\ record_set (manifest_key m) (Some g) (vs_meta st) (vs_meta st') /\ gr_Manifest g = m /\ gr_Frames g = [] /\ gr_Status g = StatusStaged) /\
      (able (vs_meta st) -> same_view (vs_meta st) (vs_meta st')) /\
      ((forall k, ve_cleanup env k = calm_delete) -> (forall k, pf_undo (ve_put env k) = false) -> vs_objects st' = vs_objects st)
  end.
Proof.
  intros Hable Hs Hfs Hep m. assert (same_view (vs_meta st) (vs_meta st)) as Hsame by apply same_view_refl.
  unfold StageContent in Hs. fold m in Hs. destruct (validateStage q (v_frameSize v)) eqn:Hv; cbn [negb] in Hs; [|by simplify_eq; split_and!; auto].
  destruct (ve_Current env (am_Tenant m)) as [material|] eqn:Hcur; [|by simplify_eq; split_and!; auto].
  destruct (_ || _); [by simplify_eq; split_and!; auto|].
  destruct (newLocator _) as [random [locator|e]]; [|by simplify_eq; split_and!; auto].
  pose proof (begin_effect q locator (vs_meta st)) as Hb. fold m in Hb. cbv zeta in Hb.
  pose proof (proj1 Hable q locator (vs_meta st)) as Hable1. destruct (BeginStage q locator (vs_meta st)) as [meta [[g dup]|e]]; [|by simplify_eq; split_and!; auto].
  destruct dup; [simplify_eq; split; [done|]; left; destruct Hb as (Hv1 & Hg1 & Hg2 & Hg3); split; [done|]; by exists g|].
  destruct Hb as (Hnone & Hcurr & (fence & Hg) & Hset).
  destruct (stage_loop _ _ _ _ _ _ _) as [sg lres] eqn:El. destruct (stage_loop_objects _ _ _ _ _ _ _ _ _ El) as (Hsub & new & Hcre & Hnew & Hold). cbn in Hsub, Hcre, Hnew, Hold, Hable1.
  set (g' := set_frames (sg_frames sg) g) in *. assert (gr_Manifest g = m) as Hgm by (by rewrite Hg).
  assert (forall e s, abort env g' (sg_created sg) e s = (st', res) -> vs_objects s = sg_objects sg -> record_set (manifest_key m) (Some g) (vs_meta st) (vs_meta s) ->
    (able (vs_meta st) -> able (vs_meta s)) ->
    vs_objects st ⊆ vs_objects st' /\ match res with Ok _ => False | Err _ => (same_view (vs_meta st) (vs_meta st') \/
       exists g, record_of st (manifest_key m) = None /\ record_set (manifest_key m) (Some g) (vs_meta st) (vs_meta st') /\ gr_Manifest g = m /\ gr_Frames g = [] /\ gr_Status g = StatusStaged) /\
    (able (vs_meta st) -> same_view (vs_meta st) (vs_meta st')) /\
    ((forall k, ve_cleanup env k = calm_delete) -> (forall k, pf_undo (ve_put env k) = false) -> vs_objects st' = vs_objects st) end) as Hab.
  { intros e s Ha Hso Hsm Hs1. pose proof Hnone as Hnone'. rewrite <- Hgm in Hnone, Hsm.
    destruct (abort_begun able env g' g (sg_created sg) e s (vs_meta st) st' res) as ((err & ->) & Hsv & Hserve & Hk & Hgone); [done|done|done|by subst g g'..|done|].
    rewrite Hgm in Hsv. rewrite Hcre in Hk, Hgone. rewrite Hso in Hk. split_and!; [| |auto|].
    - apply map_subseteq_spec. intros k x Hx. rewrite Hk; [by eapply lookup_weaken|]. intros [Hx' _]%Hnew. congruence.
    - destruct Hsv as [Hsv|Hsv]; [by left|right; exists g; by rewrite Hg in Hsv |- *].
    - intros Hc Hu. apply map_eq. intros k. destruct (decide (k ∈ new)) as [Hin|Hin]; [|rewrite Hk, Hold by done; done].
      rewrite Hgone; [by destruct (Hnew k Hin)|done|intros k' Hk'; by apply Hnew|done]. }
  destruct lres as [[]|e]; [|destruct (Hab _ _ Hs eq_refl Hset Hable1) as [? Hres]; by destruct res].
  destruct (negb (String.eqb (sg_reader sg) "") || rd_fails rd || negb (sg_remaining sg =? 0)) eqn:Eend; [destruct (Hab _ _ Hs eq_refl Hset Hable1) as [? Hres]; by destruct res|].
  destruct (negb (String.eqb (Algorithm (am_Digest m)) "sha256") || negb (String.eqb (sha256_hex (sg_hashed sg)) (Hex (am_Digest m)))) eqn:Edig; [destruct (Hab _ _ Hs eq_refl Hset Hable1) as [? Hres]; by destruct res|].
  pose proof (complete_effect g' meta) as Hce. pose proof (proj1 (proj2 Hable) g' meta) as Hable2. cbn [vs_meta] in Hs. destruct (CompleteStage g' meta) as [meta' [[]|e]]; cbn in Hable2.
  2: { destruct (Hab _ _ Hs eq_refl (record_set_view _ _ _ _ _ Hset Hce)) as [? Hres]; [by auto|by destruct res]. }
  injection Hs as <- <-. cbn. split; [done|]. right. apply orb_false_iff in Eend as [[Erd _]%orb_false_iff Erem], Edig as [_ Ehex].
  apply negb_false_iff, String.eqb_eq in Erd, Ehex. apply negb_false_iff, Z.eqb_eq in Erem.
  destruct (stage_loop_laid _ _ _ _ _ _ _ _ El) as (frames & plains & F1 & F2 & F3 & F4 & F5 & F6); [lia|by rewrite Hgm|]. cbn in F1, F3, F4, F5, F6. rewrite Erd, append_nil_r in F4.
  destruct Hce as (Hcomp & ex & Hex & _ & Hexs & Hset'). change (gr_Manifest g') with (gr_Manifest g) in Hex, Hset'. rewrite Hgm in Hex, Hset'. rewrite (record_set_lookup _ _ _ _ Hset) in Hex. injection Hex as <-.
  exists g', material. split_and!; [done| |by subst g g'|by subst g g'|done|done| |by rewrite F4, <- F5|rewrite F4; lia].
  - destruct Hset as [L C], Hset' as [L' C']. split; [|intros a; by rewrite C', C]. intros k. rewrite L'. destruct (decide (k = manifest_key m)); [done|]. rewrite L. by rewrite decide_False.
  - exists plains. rewrite F4. split; [|done]. cbn [gr_Frames g' set_frames]. rewrite F1. rewrite Hgm, Z.sub_diag in F3. by eapply laid_same; [..|exact F3].
Qed.

(** ** The lifecycle *)

Inductive moves : VaultStatus -> VaultStatus -> Prop :=
| move_publish : moves StatusStaged StatusPublished
| move_tombstone : moves StatusPublished StatusTombstoned
| move_purge : moves StatusTombstoned StatusPurged
| move_quarantine s : s <> StatusPurged -> moves s StatusQuarantined.

(** Every record is kept, and only its status moves, forward. *)
Definition advances (r r' : R) : Prop :=
  forall k g, lookup_record r k = Some g -> exists s, lookup_record r' k = Some (set_status s g) /\ rtc moves (gr_Status g) s.

Lemma set_status_id g : set_status (gr_Status g) g = g.
Proof. by destruct g. Qed.

Lemma advances_same r r' : same_view r r' -> advances r r'.
Proof. intros [L _] k g Hg. exists (gr_Status g). by rewrite L, set_status_id. Qed.

Lemma advances_trans r1 r2 r3 : advances r1 r2 -> advances r2 r3 -> advances r1 r3.
Proof.
  intros H12 H23 k g Hg. destruct (H12 k g Hg) as (s & Hs & Hm). destruct (H23 k _ Hs) as (s' & Hs' & Hm'). exists s'. split; [by rewrite Hs'; destruct g|by etrans].
Qed.

Lemma advances_set r r' k g s : lookup_record r k = Some g -> moves (gr_Status g) s -> record_set k (Some (set_status s g)) r r' -> advances r r'.
Proof.
  intros Hg Hm [L _] k' g' Hg'. rewrite L. destruct (decide (k' = k)) as [->|].
  - rewrite Hg in Hg'. injection Hg' as <-. exists s. split; [done|by apply rtc_once].
  - exists (gr_Status g'). by rewrite set_status_id.
Qed.

Lemma advances_new r r' k g : lookup_record r k = None -> record_set k (Some g) r r' -> advances r r'.
Proof. intros Hn [L _] k' g' Hg'. rewrite L. rewrite decide_False by congruence. exists (gr_Status g'). by rewrite set_status_id. Qed.

Lemma quarantine_advances m st : advances (vs_meta st) (vs_meta (quarantine m st)) /\ vs_objects (quarantine m st) = vs_objects st.
Proof.
  split; [|done]. unfold quarantine. cbn. pose proof (quarantine_effect (am_Tenant m) (am_Artifact m) (am_Generation m) (vs_meta st)) as Hq. cbv zeta in Hq.
  destruct (QuarantineGeneration _ _ _ _) as [r' [[]|e]]; cbn; [|by apply advances_same]. destruct Hq as (g & Hg & Hp & Hset). eapply advances_set; [done|by constructor|done].
Qed.

Lemma resolve_advances env g st st' res : resolveForRead env g st = (st', res) -> advances (vs_meta st) (vs_meta st') /\ vs_objects st' = vs_objects st.
Proof. unfold resolveForRead. destruct (ve_Resolve _ _ _); intros [= <- _]; [split; [apply advances_same, same_view_refl|done]|apply quarantine_advances]. Qed.

Lemma verify_advances env g st st' res : verifyGeneration env g st = (st', res) -> advances (vs_meta st) (vs_meta st') /\ vs_objects st' = vs_objects st /\ (res = Ok tt -> st' = st).
Proof.
  unfold verifyGeneration. destruct (negb _); [intros [= <- <-]; split_and!; [apply advances_same, same_view_refl|done..]|].
  unfold resolveForRead. destruct (ve_Resolve _ _ _) as [material|]; [|intros [= <- <-]; destruct (quarantine_advances (gr_Manifest g) st); by split_and!].
  destruct (verify_loop _ _ _ _ _ _ _ _) as [[off hashed]|[e b]].
  - destruct (_ || _); intros [= <- <-]; [destruct (quarantine_advances (gr_Manifest g) st); by split_and!|split_and!; [apply advances_same, same_view_refl|done..]].
  - destruct b; intros [= <- <-]; [destruct (quarantine_advances (gr_Manifest g) st); by split_and!|split_and!; [apply advances_same, same_view_refl|done..]].
Qed.

Lemma Publish_advances v env q st : let st' := fst (Publish v env q st) in advances (vs_meta st) (vs_meta st') /\ vs_objects st' = vs_objects st.
Proof.
  assert (advances (vs_meta st) (vs_meta st) /\ vs_objects st = vs_objects st) as Hrefl by (split; [apply advances_same, same_view_refl|done]).
  unfold Publish. cbv zeta. destruct (_ || _); [done|]. destruct (GetGeneration _ _ _ _) as [g|e]; [|done]. destruct (negb _); [done|]. destruct (_ && _); [done|].
  destruct (verifyGeneration env g st) as [st1 res] eqn:Ev. destruct (verify_advances _ _ _ _ _ Ev) as (Ha & Ho & _). destruct res as [[]|e]; [|done].
  pose proof (publish_effect q (vs_meta st1)) as Hp. cbv zeta in Hp. destruct (PublishGeneration q (vs_meta st1)) as [r' [g'|e]]; cbn.
  - split; [|done]. eapply advances_trans; [exact Ha|]. destruct Hp as (_ & _ & [[Hs _]|(staged & Hst & Hss & _ & -> & _ & L & _)]); [by apply advances_same|].
    intros k g0 Hg0. rewrite L. destruct (decide (k = manifest_key (pr_Manifest q))) as [->|]; [|exists (gr_Status g0); by rewrite set_status_id].
    rewrite Hst in Hg0. injection Hg0 as <-. exists StatusPublished. split; [done|]. rewrite Hss. apply rtc_once. constructor.
  - split; [|done]. eapply advances_trans; [exact Ha|by apply advances_same].
Qed.

Lemma Hydrate_advances v env q st : let st' := fst (HydrateRange v env q st) in advances (vs_meta st) (vs_meta st') /\ vs_objects st' = vs_objects st.
Proof.
  assert (advances (vs_meta st) (vs_meta st) /\ vs_objects st = vs_objects st) as Hrefl by (split; [apply advances_same, same_view_refl|done]).
  unfold HydrateRange. cbv zeta. destruct (negb _); [done|]. destruct (GetGeneration _ _ _ _) as [g|e]; [|done]. destruct (readable _) as [[]|e]; [|done]. destruct (_ || _); [done|].
  destruct (resolveForRead env g st) as [st1 res] eqn:Er. destruct (resolve_advances _ _ _ _ _ Er) as [Ha Ho]. destruct res as [material|e]; [|done].
  destruct (hydrate_loop _ _ _ _ _ _ _) as [[bytes ds]|e]; [by destruct (negb _)|]. destruct (quarantine_advances (gr_Manifest g) st1) as [Hq Hqo]. cbn.
  split; [by eapply advances_trans|done].
Qed.

Lemma Reconcile_advances env q st : let st' := fst (Reconcile env q st) in advances (vs_meta st) (vs_meta st') /\ vs_objects st' = vs_objects st.
Proof.
  assert (advances (vs_meta st) (vs_meta st) /\ vs_objects st = vs_objects st) as Hrefl by (split; [apply advances_same, same_view_refl|done]).
  unfold Reconcile. cbv zeta. destruct (_ || _); [done|]. destruct (GetGeneration _ _ _ _) as [g|e]; [|done].
  destruct (readable _) as [[]|[]]; try done; destruct (verifyGeneration env g st) as [st1 res] eqn:Ev; destruct (verify_advances _ _ _ _ _ Ev) as (Ha & Ho & _); by destruct res as [[]|].
Qed.

Lemma Tombstone_advances q st : let st' := fst (Tombstone q st) in advances (vs_meta st) (vs_meta st') /\ vs_objects st' = vs_objects st.
Proof.
  unfold Tombstone. cbv zeta. destruct (_ || _); [split; [apply advances_same, same_view_refl|done]|]. pose proof (tombstone_effect q (vs_meta st)) as Ht. cbv zeta in Ht.
  destruct (TombstoneGeneration q (vs_meta st)) as [r' [g|e]]; cbn; (split; [|done]); [|by apply advances_same].
  destruct Ht as (_ & [[Hs _]|(pub & Hp & Hps & -> & Hset)]); [by apply advances_same|]. eapply advances_set; [exact Hp|rewrite Hps; constructor|done].
Qed.

Lemma Purge_advances env q st : advances (vs_meta st) (vs_meta (fst (Purge env q st))).
Proof.
  assert (advances (vs_meta st) (vs_meta st)) as Hrefl by (apply advances_same, same_view_refl).
  unfold Purge. destruct (purge_generation q) as [n|]; [|done]. destruct (PreparePurge q n (vs_meta st)) as [g|e]; [|done]. destruct (bool_decide _); [done|].
  destruct (purge_loop _ _ _ _) as [objects [[]|e]]; [|done]. pose proof (complete_purge_effect g (vs_meta st)) as Hc. destruct (CompletePurge g (vs_meta st)) as [r' [[]|e]]; cbn; [|by apply advances_same].
  destruct Hc as (ex & Hex & _ & [[_ Hs]|[Hs Hset]]); [by apply advances_same|]. eapply advances_set; [exact Hex|rewrite Hs; constructor|done].
Qed.

(** ** Interleaved calls

    The vault holds no lock: only each repository method runs under the
    repository's own mutex or transaction.  A call of [StageContent] is cut at its
    repository calls; the calls that stage are [Flight]s between them.  The
    loop of object writes neither reads nor changes a record and is one step. *)

Record StageCall := MkStageCall { sc_Manifest : ArtifactManifest; sc_record : GenerationRecord; sc_root : string }.

(** To its [BeginStage]: what it returns, or the reservation it holds. *)
Definition stage_begin (v : Vault) (env : VaultEnv) (q : ArtifactStageRequest) (st : VaultState R) : VaultState R * (result vault_error Receipt + StageCall) :=
  let m := sr_Manifest q in
  if negb (validateStage q (v_frameSize v)) then (st, inl (Err ErrInvalid))
  else match ve_Current env (am_Tenant m) with
  | None => (st, inl (Err ErrQuarantined))
  | Some material =>
      if mt_Legacy material || negb (mt_Epoch material =? am_KeyEpoch m) then (st, inl (Err ErrQuarantined))
      else match newLocator (vs_random st) with
      | (random, Err e) => (MkState (vs_objects st) (vs_meta st) random, inl (Err e))
      | (random, Ok locator) =>
          match BeginStage q locator (vs_meta st) with
          | (meta, Err e) => (MkState (vs_objects st) meta random, inl (Err e))
          | (meta, Ok (record, true)) => (MkState (vs_objects st) meta random, inl (Ok (receipt record "staged" "OURO-ARTIFACT-DUPLICATE")))
          | (meta, Ok (record, false)) => (MkState (vs_objects st) meta random, inr (MkStageCall m record (mt_RootKey material)))
          end
      end
  end.

(** The frames and the checks before [CompleteStage]: the record to complete, the objects made, the error if any. *)
Definition stage_write (v : Vault) (env : VaultEnv) (reader : Reader) (c : StageCall) (st : VaultState R) : VaultState R * GenerationRecord * list string * option vault_error :=
  let m := sc_Manifest c in
  let '(sg, res) := stage_loop v env (sc_root c) (sc_record c) (Z.to_nat (am_FrameCount m)) 0
                      (MkStaging (vs_objects st) (vs_random st) [] (rd_bytes reader) "" [] (am_Length m)) in
  (MkState (sg_objects sg) (vs_meta st) (sg_random sg), set_frames (sg_frames sg) (sc_record c), sg_created sg,
   match res with
   | Err e => Some e
   | Ok _ =>
       if negb (String.eqb (sg_reader sg) "") || rd_fails reader || negb (sg_remaining sg =? 0) then Some ErrIncomplete
       else if negb (String.eqb (Algorithm (am_Digest m)) "sha256") || negb (String.eqb (sha256_hex (sg_hashed sg)) (Hex (am_Digest m))) then Some ErrCorrupt
       else None
   end).

Definition with_meta (meta : R) (st : VaultState R) : VaultState R := MkState (vs_objects st) meta (vs_random st).

(** [StageContent] is its parts one after the other. *)
Lemma StageContent_parts v env q reader st :
  StageContent v env q reader st =
  match stage_begin v env q st with
  | (st1, inl res) => (st1, res)
  | (st1, inr c) =>
      let '(st2, record, created, err) := stage_write v env reader c st1 in
      match err with
      | Some e => abort env record created e st2
      | None => match CompleteStage record (vs_meta st2) with
                | (meta, Err e) => abort env record created e (with_meta meta st2)
                | (meta, Ok _) => (with_meta meta st2, Ok (receipt record "staged" "OURO-ARTIFACT-STAGED"))
                end
      end
  end.
Proof.
  unfold StageContent, stage_begin, stage_write, with_meta. destruct (negb _); [done|]. destruct (ve_Current _ _) as [material|]; [|done].
  destruct (_ || _); [done|]. destruct (newLocator _) as [random [locator|e]]; [|done]. destruct (BeginStage _ _ _) as [meta [[record []]|e]]; [done| |done].
  cbn. destruct (stage_loop _ _ _ _ _ _ _) as [sg [[]|e]]; [|done]. destruct (_ || _); [done|]. by destruct (_ || _).
Qed.

Inductive Flight :=
| Reserved (c : StageCall)
| Written (record : GenerationRecord) (created : list string)
| Failing (record : GenerationRecord) (created : list string) (err : vault_error).

Definition written (record : GenerationRecord) (created : list string) (err : option vault_error) : Flight :=
  match err with None => Written record created | Some e => Failing record created e end.

(** The reservation a call holds. *)
Definition reservation (f : Flight) : GenerationRecord :=
  set_frames [] match f with Reserved c => sc_record c | Written record _ | Failing record _ _ => record end.
Definition flight_key (f : Flight) : string := manifest_key (gr_Manifest (reservation f)).

Record Concurrent := MkConcurrent { co_state : VaultState R; co_flights : list Flight }.

(** One step of the calls in progress.  The other calls change records by one
    repository call each, with whatever arguments their earlier reads led to; a
    call may also stop where it is. *)
Inductive interleaved (v : Vault) : Concurrent -> Concurrent -> Prop :=
| il_refused env q st st' res fs : stage_begin v env q st = (st', inl res) -> interleaved v (MkConcurrent st fs) (MkConcurrent st' fs)
| il_reserve env q st st' c fs : stage_begin v env q st = (st', inr c) -> interleaved v (MkConcurrent st fs) (MkConcurrent st' (Reserved c :: fs))
| il_write env reader c st st' record created err fs1 fs2 : stage_write v env reader c st = (st', record, created, err) ->
    interleaved v (MkConcurrent st (fs1 ++ Reserved c :: fs2)%list) (MkConcurrent st' (fs1 ++ written record created err :: fs2)%list)
| il_complete record created st meta fs1 fs2 : CompleteStage record (vs_meta st) = (meta, Ok tt) ->
    interleaved v (MkConcurrent st (fs1 ++ Written record created :: fs2)) (MkConcurrent (with_meta meta st) (fs1 ++ fs2))
| il_incomplete record created st meta e fs1 fs2 : CompleteStage record (vs_meta st) = (meta, Err e) ->
    interleaved v (MkConcurrent st (fs1 ++ Written record created :: fs2)) (MkConcurrent (with_meta meta st) (fs1 ++ Failing record created e :: fs2))
| il_abort env record created e st fs1 fs2 :
    interleaved v (MkConcurrent st (fs1 ++ Failing record created e :: fs2)) (MkConcurrent (fst (abort env record created e st)) (fs1 ++ fs2))
| il_stop f st fs1 fs2 : interleaved v (MkConcurrent st (fs1 ++ f :: fs2)) (MkConcurrent st (fs1 ++ fs2))
| il_publish q st fs : interleaved v (MkConcurrent st fs) (MkConcurrent (with_meta (fst (PublishGeneration q (vs_meta st))) st) fs)
| il_quarantine m st fs : interleaved v (MkConcurrent st fs) (MkConcurrent (quarantine m st) fs)
| il_tombstone q st fs : interleaved v (MkConcurrent st fs) (MkConcurrent (with_meta (fst (TombstoneGeneration q (vs_meta st))) st) fs)
| il_delete env g frames st fs : interleaved v (MkConcurrent st fs)
    (MkConcurrent (MkState (fst (purge_loop env g frames (vs_objects st))) (vs_meta st) (vs_random st)) fs)
| il_purged g st fs : interleaved v (MkConcurrent st fs) (MkConcurrent (with_meta (fst (CompletePurge g (vs_meta st))) st) fs)
| il_unseen meta st fs : same_view (vs_meta st) meta -> interleaved v (MkConcurrent st fs) (MkConcurrent (with_meta meta st) fs).

(** *** What a step does to the records *)

(** Of the records [r] with the reservations [h] held. *)
Inductive meta_effect (r : R) (h : list GenerationRecord) : R -> list GenerationRecord -> Prop :=
| me_same r' h' : same_view r r' -> sublist h' h -> meta_effect r h r' h'
| me_advance r' k g s : lookup_record r k = Some g -> moves (gr_Status g) s -> (s = StatusQuarantined \/ gr_Status g <> StatusStaged \/ complete g = true) ->
    (forall k', lookup_record r' k' = if decide (k' = k) then Some (set_status s g) else lookup_record r k') -> meta_effect r h r' h
| me_reserve r' g : lookup_record r (manifest_key (gr_Manifest g)) = None -> gr_Frames g = [] -> gr_Status g = StatusStaged -> am_FrameCount (gr_Manifest g) <> 0 ->
    record_set (manifest_key (gr_Manifest g)) (Some g) r r' -> meta_effect r h r' (g :: h)
| me_complete r' g h1 h2 ex fs : h = (h1 ++ g :: h2)%list -> lookup_record r (manifest_key (gr_Manifest g)) = Some ex -> gr_Status ex = StatusStaged ->
    complete (set_frames fs g) = true -> record_set (manifest_key (gr_Manifest g)) (Some (set_frames fs ex)) r r' -> meta_effect r h r' (h1 ++ h2)
| me_abort r' g h1 h2 : h = (h1 ++ g :: h2)%list -> record_set (manifest_key (gr_Manifest g)) None r r' -> meta_effect r h r' (h1 ++ h2).

Lemma stage_begin_Call v env q st st' c : stage_begin v env q st = (st', inr c) ->
  let g := set_frames [] (sc_record c) in
  record_of st (manifest_key (gr_Manifest g)) = None /\ gr_Status g = StatusStaged /\ am_FrameCount (gr_Manifest g) <> 0 /\
  record_set (manifest_key (gr_Manifest g)) (Some g) (vs_meta st) (vs_meta st').
Proof.
  unfold stage_begin. destruct (validateStage q (v_frameSize v)) eqn:Hv; [|done]. cbn [negb]. destruct (ve_Current _ _) as [material|]; [|done].
  destruct (_ || _); [done|]. destruct (newLocator _) as [random [locator|e]]; [|done]. pose proof (begin_effect q locator (vs_meta st)) as Hb. cbv zeta in Hb.
  destruct (BeginStage q locator (vs_meta st)) as [meta [[record []]|e]]; [done| |done]. intros [= <- <-]. cbn. destruct Hb as (Hn & _ & (fence & ->) & Hset). split_and!; [done|done| |done].
  cbn. unfold validateStage, validateManifest in Hv. bool_prop. congruence.
Qed.

Lemma stage_begin_Done v env q st st' res : stage_begin v env q st = (st', inl res) -> same_view (vs_meta st) (vs_meta st').
Proof.
  unfold stage_begin. destruct (negb _); [intros [= <- _]; apply same_view_refl|]. destruct (ve_Current _ _) as [material|]; [|intros [= <- _]; apply same_view_refl].
  destruct (_ || _); [intros [= <- _]; apply same_view_refl|]. destruct (newLocator _) as [random [locator|e]]; [|intros [= <- _]; apply same_view_refl].
  pose proof (begin_effect q locator (vs_meta st)) as Hb. cbv zeta in Hb. destruct (BeginStage q locator (vs_meta st)) as [meta [[record []]|e]]; [|done|]; intros [= <- _]; [apply Hb|done].
Qed.

Lemma stage_write_keeps v env reader c st st' record created err :
  stage_write v env reader c st = (st', record, created, err) -> vs_meta st' = vs_meta st /\ set_frames [] record = set_frames [] (sc_record c).
Proof. unfold stage_write. destruct (stage_loop _ _ _ _ _ _ _) as [sg res]. by intros [= <- <- _ _]. Qed.

Lemma reservation_written record created err : reservation (written record created err) = set_frames [] record.
Proof. by destruct err. Qed.

Lemma sublist_middle {A} (l1 l2 : list A) x : sublist (l1 ++ l2)%list (l1 ++ x :: l2)%list.
Proof. apply sublist_app; [done|]. by apply sublist_cons. Qed.

(** Every step is one of these. *)
Lemma interleaved_effect v s s' : interleaved v s s' ->
  meta_effect (vs_meta (co_state s)) (reservation <$> co_flights s) (vs_meta (co_state s')) (reservation <$> co_flights s').
Proof.
  intros [env q st st' res fs Hb|env q st st' c fs Hb|env rd c st st' record created err fs1 fs2 Hw|record created st meta fs1 fs2 Hc|record created st meta e fs1 fs2 Hc|
    env record created e st fs1 fs2|f st fs1 fs2|q st fs|m st fs|q st fs|env g frames st fs|g st fs|meta st fs Hs]; cbn [co_state co_flights with_meta vs_meta]; rewrite ?fmap_app, ?fmap_cons.
  - apply me_same; [by eapply stage_begin_Done|done].
  - apply stage_begin_Call in Hb as (Hn & Hst & Hfc & Hset). by apply me_reserve.
  - destruct (stage_write_keeps _ _ _ _ _ _ _ _ _ Hw) as [-> Hr]. rewrite reservation_written, Hr. apply me_same; [apply same_view_refl|done].
  - pose proof (complete_effect record (vs_meta st)) as He. rewrite Hc in He. destruct He as (Hcomp & ex & Hex & _ & Hst & Hset).
    eapply (me_complete _ _ _ (reservation (Written record created))); [done|exact Hex|done| |exact Hset]. done.
  - pose proof (complete_effect record (vs_meta st)) as He. rewrite Hc in He. by apply me_same.
  - unfold abort. destruct (delete_created _ _ _) as [objects errs]. pose proof (abort_effect record (vs_meta st)) as He.
    destruct (AbortStage record (vs_meta st)) as [meta [[]|err]]; cbn; [|apply me_same; [done|apply sublist_middle]].
    destruct He as [[He _]|(ex & _ & _ & _ & _ & Hset)]; [apply me_same; [done|apply sublist_middle]|]. eapply (me_abort _ _ _ (reservation (Failing record created e))); [done|exact Hset].
  - apply me_same; [apply same_view_refl|apply sublist_middle].
  - pose proof (publish_effect q (vs_meta st)) as He. cbv zeta in He. destruct (PublishGeneration q (vs_meta st)) as [meta [g|e]]; cbn; [|by apply me_same].
    destruct He as (_ & _ & [[He _]|(staged & Hst & Hss & Hcomp & -> & _ & L & _)]); [by apply me_same|]. eapply me_advance; [exact Hst|rewrite Hss; constructor|by right; right|exact L].
  - unfold quarantine. cbn. pose proof (quarantine_effect (am_Tenant m) (am_Artifact m) (am_Generation m) (vs_meta st)) as He. cbv zeta in He.
    destruct (QuarantineGeneration _ _ _ _) as [meta [[]|e]]; cbn; [|by apply me_same]. destruct He as (g & Hg & Hp & [L _]). eapply me_advance; [exact Hg|by constructor|by left|exact L].
  - pose proof (tombstone_effect q (vs_meta st)) as He. cbv zeta in He. destruct (TombstoneGeneration q (vs_meta st)) as [meta [g|e]]; cbn; [|by apply me_same].
    destruct He as (_ & [[He _]|(pub & Hp & Hps & -> & [L _])]); [by apply me_same|]. eapply me_advance; [exact Hp|rewrite Hps; constructor|right; left; congruence|exact L].
  - apply me_same; [apply same_view_refl|done].
  - pose proof (complete_purge_effect g (vs_meta st)) as He. destruct (CompletePurge g (vs_meta st)) as [meta [[]|e]]; cbn; [|by apply me_same].
    destruct He as (ex & Hex & _ & [[_ He]|[Hs [L _]]]); [by apply me_same|]. eapply me_advance; [exact Hex|rewrite Hs; constructor|right; left; congruence|exact L].
  - by apply me_same.
Qed.

(** *** The reservations held *)

(** Each is recorded, without frames, staged or quarantined, and cannot be complete; no two are of one key. *)
Record held_ok (r : R) (h : list GenerationRecord) : Prop := {
  ho_distinct : NoDup ((fun g => manifest_key (gr_Manifest g)) <$> h);
  ho_recorded : forall g, g ∈ h -> gr_Frames g = [] /\ am_FrameCount (gr_Manifest g) <> 0 /\
    exists s, (s = StatusStaged \/ s = StatusQuarantined) /\ lookup_record r (manifest_key (gr_Manifest g)) = Some (set_status s g)
}.

Definition settled (h : list GenerationRecord) (k : string) : Prop := forall g, g ∈ h -> manifest_key (gr_Manifest g) <> k.

Lemma incomplete_reservation g s : gr_Frames g = [] -> am_FrameCount (gr_Manifest g) <> 0 -> complete (set_status s g) = false.
Proof. intros Hf Hc. unfold complete. cbn. rewrite Hf. apply Z.eqb_neq. cbn. lia. Qed.

Lemma held_sublist r r' h h' : same_view r r' -> sublist h' h -> held_ok r h -> held_ok r' h'.
Proof.
  intros [L _] Hs [Hd Hr]. split; [eapply sublist_NoDup; [exact Hd|by apply fmap_sublist]|]. intros g Hg. rewrite L. apply Hr. by eapply elem_of_sublist.
Qed.

(** Giving up one reservation leaves the others as they are. *)
Lemma held_drop r r' h1 g h2 x : held_ok r (h1 ++ g :: h2) -> record_set (manifest_key (gr_Manifest g)) x r r' ->
  held_ok r' (h1 ++ h2) /\ settled (h1 ++ h2) (manifest_key (gr_Manifest g)).
Proof.
  intros [Hd Hr] [L _]. assert (settled (h1 ++ h2) (manifest_key (gr_Manifest g))) as Hset.
  { intros g' Hg' E. rewrite fmap_app, fmap_cons, NoDup_app, NoDup_cons in Hd. destruct Hd as (_ & Hd & Hn & _).
    apply elem_of_app in Hg' as [Hg'|Hg']; [apply (Hd (manifest_key (gr_Manifest g'))); [by apply (list_elem_of_fmap_2 (fun g => manifest_key (gr_Manifest g)))|rewrite E; left]|].
    apply Hn. rewrite <- E. by apply (list_elem_of_fmap_2 (fun g => manifest_key (gr_Manifest g))). }
  split; [split|done].
  - eapply sublist_NoDup; [exact Hd|]. apply fmap_sublist, sublist_middle.
  - intros g' Hg'. rewrite L, decide_False by (by apply Hset). apply Hr. rewrite elem_of_app, elem_of_cons in *. tauto.
Qed.

Lemma held_effect r h r' h' : held_ok r h -> meta_effect r h r' h' -> held_ok r' h'.
Proof.
  intros Hh [r1 h1 Hs Hsub|r1 k g s Hg Hm Hc L|r1 g Hn Hf Hst Hfc Hset|r1 g h1 h2 ex fs -> Hex Hst Hc Hset|r1 g h1 h2 -> Hset].
  - by eapply held_sublist.
  - destruct Hh as [Hd Hr]. split; [done|]. intros g' Hg'. destruct (Hr g' Hg') as (Hf & Hfc & s' & Hs' & Hl). split_and!; [done..|]. rewrite L.
    destruct (decide _) as [E|]; [|by exists s']. rewrite E, Hg in Hl. injection Hl as ->. cbn in Hc, Hm. exists s. split; [|done].
    destruct Hc as [->|[Hns|Hcomp]]; [by right|destruct Hs' as [->| ->]; [done|inversion Hm; subst; by right]|]. by rewrite incomplete_reservation in Hcomp.
  - pose proof Hset as [L _]. destruct Hh as [Hd Hr]. split.
    + apply NoDup_cons. split; [|done]. intros (g' & E & Hg')%list_elem_of_fmap. destruct (Hr g' Hg') as (_ & _ & s' & _ & Hl). congruence.
    + intros g' [->|Hg']%elem_of_cons; [split_and!; [done..|]; exists StatusStaged; split; [by left|]; rewrite <- Hst, set_status_id; by eapply record_set_lookup|].
      destruct (Hr g' Hg') as (H1' & H2' & s' & Hs' & Hl). split_and!; [done..|]. exists s'. rewrite L, decide_False by congruence. done.
  - by eapply held_drop.
  - by eapply held_drop.
Qed.

(** A record nobody is staging only advances. *)
Lemma settled_effect r h r' h' k g : held_ok r h -> meta_effect r h r' h' -> settled h k -> lookup_record r k = Some g ->
  settled h' k /\ exists s, lookup_record r' k = Some (set_status s g) /\ rtc moves (gr_Status g) s.
Proof.
  intros Hh He Hs Hg. destruct He as [r1 h1 [L _] Hsub|r1 k1 g1 s Hg1 Hm _ L|r1 g1 Hn Hf Hst Hfc [L _]|r1 g1 h1 h2 ex fs -> Hex Hst Hc [L _]|r1 g1 h1 h2 -> [L _]].
  - split; [intros g' Hg'; apply Hs; by eapply elem_of_sublist|]. exists (gr_Status g). by rewrite L, set_status_id.
  - split; [done|]. rewrite L. destruct (decide (k = k1)) as [->|]; [|exists (gr_Status g); by rewrite set_status_id]. rewrite Hg in Hg1. injection Hg1 as <-. exists s. split; [done|by apply rtc_once].
  - split; [intros g' [->|Hg']%elem_of_cons; [congruence|by apply Hs]|]. rewrite L, decide_False by congruence. exists (gr_Status g). by rewrite set_status_id.
  - split; [intros g' Hg'; apply Hs; rewrite elem_of_app, elem_of_cons in *; tauto|]. rewrite L, decide_False; [exists (gr_Status g); by rewrite set_status_id|].
    intros E. apply (Hs g1); [|done]. apply elem_of_app. right. left.
  - split; [intros g' Hg'; apply Hs; rewrite elem_of_app, elem_of_cons in *; tauto|]. rewrite L, decide_False; [exists (gr_Status g); by rewrite set_status_id|].
    intros E. apply (Hs g1); [|done]. apply elem_of_app. right. left.
Qed.

(** A reservation that is held advances, gets all its frames, or is given up by the call that holds it. *)
Lemma reserved_effect r h r' h' p g : held_ok r h -> meta_effect r h r' h' -> p ∈ h -> lookup_record r (manifest_key (gr_Manifest p)) = Some g ->
  (exists s, lookup_record r' (manifest_key (gr_Manifest p)) = Some (set_status s g) /\ rtc moves (gr_Status g) s) \/
  (settled h' (manifest_key (gr_Manifest p)) /\ exists fs, lookup_record r' (manifest_key (gr_Manifest p)) = Some (set_frames fs g) /\ complete (set_frames fs g) = true) \/
  (settled h' (manifest_key (gr_Manifest p)) /\ lookup_record r' (manifest_key (gr_Manifest p)) = None).
Proof.
  intros Hh He Hp Hg. set (k := manifest_key (gr_Manifest p)) in *.
  assert (forall r1, lookup_record r1 k = lookup_record r k -> exists s, lookup_record r1 k = Some (set_status s g) /\ rtc moves (gr_Status g) s) as Hkeep.
  { intros r1 E. exists (gr_Status g). by rewrite E, set_status_id. }
  destruct He as [r1 h1 [L _] Hsub|r1 k1 g1 s Hg1 Hm _ L|r1 g1 Hn Hf Hst Hfc [L _]|r1 g1 h1 h2 ex fs -> Hex Hst Hc Hset|r1 g1 h1 h2 -> Hset].
  - left. by apply Hkeep.
  - left. destruct (decide (k = k1)) as [<-|Hne]; [|apply Hkeep; by rewrite L, decide_False]. rewrite Hg in Hg1. injection Hg1 as <-. exists s. rewrite L, decide_True by done.
    split; [done|by apply rtc_once].
  - left. apply Hkeep. rewrite L, decide_False by congruence. done.
  - destruct (decide (k = manifest_key (gr_Manifest g1))) as [E|Hne]; [|left; apply Hkeep; destruct Hset as [L _]; by rewrite L, decide_False]. right. left. rewrite E in *.
    split; [by eapply held_drop|]. rewrite Hg in Hex. injection Hex as <-. exists fs. split; [by eapply record_set_lookup|].
    destruct (ho_recorded _ _ Hh g1) as (_ & _ & s & _ & Hl); [apply elem_of_app; right; left|]. rewrite Hg in Hl. injection Hl as ->. done.
  - destruct (decide (k = manifest_key (gr_Manifest g1))) as [E|Hne]; [|left; apply Hkeep; destruct Hset as [L _]; by rewrite L, decide_False]. right. right. rewrite E in *.
    split; [by eapply held_drop|]. by eapply record_set_lookup.
Qed.
End safety.
