(* ===== verification/VaultTheorems.v ===== *)
(** * artifactvault: theorems

    The properties of the vault, against any lawful repository: round trip,
    tamper evidence, verified publication, forward-only lifecycle, traceless
    failure, complete purge; and that a cancelled read makes an intact
    generation unreadable and undeletable. *)

From Stdlib Require Import Ascii String.
From S2P Require Import Prelude GoString Float64 Runtime Contracts Composite Vault StorageRules VaultRepository VaultFrames VaultStaging VaultSafety.
From stdpp Require Import gmap strings.
Open Scope string_scope.
Open Scope Z_scope.

Section theorems.
Context `{GoRuntime} `{AEAD} `{!AEADLaws} `{!DigestLaws} {R : Type} `{Repository R} `{RepositoryView R} `{!RepositoryLaws}.
Context {repository_progress : RepositoryProgress (R := R)}.

Abbreviation record_of st k := (lookup_record (vs_meta st) k).

Definition sound_vault (v : Vault) : Prop := 0 < v_frameSize v <= maxFrameBytes.
Definition u64 (z : Z) : Prop := 0 <= z < 2 ^ 64.

Lemma New_sound frameBytes maxRead v : 0 <= frameBytes -> New frameBytes maxRead = Ok v -> sound_vault v.
Proof.
  intros Hf. unfold New. cbv zeta. destruct (_ || _) eqn:E; [done|]. bool_prop. intros [= <-]. unfold sound_vault. cbn. destruct (frameBytes =? 0) eqn:E0; bool_prop; [split; done|lia].
Qed.

(** One call of the vault, with any faults; [quiet] calls are all but [Purge].
    Between calls a repository may change in what its interface does not show,
    such as which statements are going to fail. *)
Inductive quiet_step (v : Vault) (st : VaultState R) : VaultState R -> Prop :=
| quiet_stage env q rd : u64 (am_KeyEpoch (sr_Manifest q)) -> quiet_step v st (fst (StageContent v env q rd st))
| quiet_publish env q : quiet_step v st (fst (Publish v env q st))
| quiet_hydrate env q : quiet_step v st (fst (HydrateRange v env q st))
| quiet_reconcile env q : quiet_step v st (fst (Reconcile env q st))
| quiet_tombstone q : quiet_step v st (fst (Tombstone q st))
| quiet_repository meta : same_view (vs_meta st) meta -> quiet_step v st (MkState (vs_objects st) meta (vs_random st)).

Inductive vault_step (v : Vault) (st : VaultState R) : VaultState R -> Prop :=
| step_quiet st' : quiet_step v st st' -> vault_step v st st'
| step_purge env q : vault_step v st (fst (Purge env q st)).

Lemma quiet_keeps v st st' : sound_vault v -> quiet_step v st st' -> advances (vs_meta st) (vs_meta st') /\ vs_objects st ⊆ vs_objects st'.
Proof.
  intros Hv [env q rd Hep|env q|env q|env q|q|meta Hsv].
  - destruct (StageContent v env q rd st) as [st1 res] eqn:Es. destruct (StageContent_effect _ v env q rd st st1 res never_able Es Hv Hep) as [Hsub Hres]. split; [|done]. cbn.
    destruct res as [rc|e]; [|destruct Hres as [[?|(g & ? & ? & _)] _]; [by apply advances_same|by eapply advances_new]]. destruct Hres as [[Hs _]|(g & mat & Hn & Hset & _)]; [by apply advances_same|by eapply advances_new].
  - destruct (Publish_advances v env q st) as [? ->]. done.
  - destruct (Hydrate_advances v env q st) as [? ->]. done.
  - destruct (Reconcile_advances env q st) as [? ->]. done.
  - destruct (Tombstone_advances q st) as [? ->]. done.
  - split; [by apply advances_same|done].
Qed.

Lemma quiet_run v st st' : sound_vault v -> rtc (quiet_step v) st st' -> advances (vs_meta st) (vs_meta st') /\ vs_objects st ⊆ vs_objects st'.
Proof.
  intros Hv. induction 1 as [st|st1 st2 st3 Hs _ [IH1 IH2]]; [split; [apply advances_same, same_view_refl|done]|].
  destruct (quiet_keeps v st1 st2 Hv Hs). split; [by eapply advances_trans|by etrans].
Qed.

Lemma run_advances v st st' : sound_vault v -> rtc (vault_step v) st st' -> advances (vs_meta st) (vs_meta st').
Proof.
  intros Hv. induction 1 as [st|st1 st2 st3 Hs _ IH]; [apply advances_same, same_view_refl|]. eapply advances_trans; [|exact IH].
  destruct Hs as [st2' Hq|env q]; [by apply (quiet_keeps v)|apply Purge_advances].
Qed.

Lemma moves_final s s' : rtc moves s s' -> (s = StatusPurged -> s' = StatusPurged) /\ (s = StatusQuarantined -> s' = StatusQuarantined).
Proof.
  induction 1 as [s|s1 s2 s3 Hm _ [IH1 IH2]]; [done|]. split; intros ->.
  - inversion Hm; subst. done.
  - inversion Hm; subst. by apply IH2.
Qed.

(** *** Whole calls and interleaved ones *)

Section calls.
Context (v : Vault) (fs : list Flight).

Abbreviation runs st st' := (rtc (interleaved v) (MkConcurrent st fs) (MkConcurrent st' fs)).

Lemma StageContent_runs env q rd st : runs st (fst (StageContent v env q rd st)).
Proof.
  rewrite StageContent_parts. destruct (stage_begin v env q st) as [st1 [res|c]] eqn:Eb; [by eapply rtc_once, il_refused|].
  eapply rtc_l; [by eapply il_reserve|]. destruct (stage_write v env rd c st1) as [[[st2 record] created] err] eqn:Ew.
  eapply rtc_l; [by apply (il_write _ _ _ _ _ _ _ _ _ [] fs Ew)|]. cbn [app]. destruct err as [e|]; cbn [written]; [apply rtc_once, (il_abort _ _ _ _ _ _ [] fs)|].
  destruct (CompleteStage record (vs_meta st2)) as [meta [[]|e]] eqn:Ec; [by apply rtc_once, (il_complete _ _ _ _ _ [] fs)|].
  eapply rtc_l; [by apply (il_incomplete _ _ _ _ _ _ [] fs Ec)|]. apply rtc_once, (il_abort _ _ _ _ _ _ [] fs).
Qed.

Lemma quarantine_runs m st : runs st (quarantine m st).
Proof. apply rtc_once, il_quarantine. Qed.

Lemma verify_runs env g st st' res : verifyGeneration env g st = (st', res) -> runs st st'.
Proof.
  unfold verifyGeneration, resolveForRead. destruct (negb _); [by intros [= <- _]|]. destruct (ve_Resolve _ _ _); [|intros [= <- _]; apply quarantine_runs].
  destruct (verify_loop _ _ _ _ _ _ _ _) as [[off hashed]|[e []]]; [destruct (_ || _)|..]; intros [= <- _]; try apply quarantine_runs; done.
Qed.

Lemma Publish_runs env q st : runs st (fst (Publish v env q st)).
Proof.
  unfold Publish. cbv zeta. destruct (_ || _); [done|]. destruct (GetGeneration _ _ _ _) as [g|e]; [|done]. destruct (negb _); [done|]. destruct (_ && _); [done|].
  destruct (verifyGeneration env g st) as [st1 res] eqn:Ev. apply verify_runs in Ev. destruct res as [[]|e]; [|done]. etrans; [exact Ev|].
  pose proof (il_publish v q st1 fs) as Hp. unfold with_meta in Hp. destruct (PublishGeneration q (vs_meta st1)) as [meta [g'|e]]; by apply rtc_once.
Qed.

Lemma Hydrate_runs env q st : runs st (fst (HydrateRange v env q st)).
Proof.
  unfold HydrateRange. cbv zeta. destruct (negb _); [done|]. destruct (GetGeneration _ _ _ _) as [g|e]; [|done]. destruct (readable _) as [[]|e]; [|done]. destruct (_ || _); [done|].
  unfold resolveForRead. destruct (ve_Resolve _ _ _); [|apply quarantine_runs]. destruct (hydrate_loop _ _ _ _ _ _ _) as [[bytes ds]|e]; [by destruct (negb _)|apply quarantine_runs].
Qed.

Lemma Reconcile_runs env q st : runs st (fst (Reconcile env q st)).
Proof.
  unfold Reconcile. cbv zeta. destruct (_ || _); [done|]. destruct (GetGeneration _ _ _ _) as [g|e]; [|done].
  destruct (readable _) as [[]|[]]; try done; destruct (verifyGeneration env g st) as [st1 res] eqn:Ev; apply verify_runs in Ev; by destruct res as [[]|].
Qed.

Lemma Tombstone_runs q st : runs st (fst (Tombstone q st)).
Proof.
  unfold Tombstone. destruct (_ || _); [done|]. pose proof (il_tombstone v q st fs) as Ht. unfold with_meta in Ht.
  destruct (TombstoneGeneration q (vs_meta st)) as [meta [g|e]]; by apply rtc_once.
Qed.

Lemma Purge_runs env q st : runs st (fst (Purge env q st)).
Proof.
  unfold Purge. destruct (purge_generation q) as [n|]; [|done]. destruct (PreparePurge q n (vs_meta st)) as [g|e]; [|done]. destruct (bool_decide _); [done|].
  pose proof (il_delete v env g (gr_Frames g) st fs) as Hd. destruct (purge_loop _ _ _ _) as [objects [[]|e]]; [|by apply rtc_once].
  eapply rtc_l; [exact Hd|]. pose proof (il_purged v g (MkState objects (vs_meta st) (vs_random st)) fs) as Hp. unfold with_meta in Hp. cbn in Hp |- *.
  destruct (CompletePurge g (vs_meta st)) as [meta [[]|e]]; by apply rtc_once.
Qed.

(** A call on its own is a run of the interleaved machine that leaves no call in progress. *)
Lemma calls_interleave st st' : rtc (vault_step v) st st' -> runs st st'.
Proof.
  induction 1 as [st|st1 st2 st3 Hs _ IH]; [done|]. etrans; [|exact IH]. destruct Hs as [st' [env q rd _|env q|env q|env q|q|meta Hm]|env q].
  - apply StageContent_runs.
  - apply Publish_runs.
  - apply Hydrate_runs.
  - apply Reconcile_runs.
  - apply Tombstone_runs.
  - by apply rtc_once, il_unseen.
  - apply Purge_runs.
Qed.
End calls.

(** *** Records under interleaving *)

Abbreviation holds_reservations s := (held_ok (vs_meta (co_state s)) (reservation <$> co_flights s)).

Lemma interleaved_held v s s' : holds_reservations s -> rtc (interleaved v) s s' -> holds_reservations s'.
Proof. intros Hh. induction 1 as [s|s1 s2 s3 Hs _ IH]; [done|]. apply IH. by eapply held_effect, interleaved_effect. Qed.

Lemma no_flights_held (s : Concurrent) : co_flights s = [] -> holds_reservations s.
Proof. intros ->. split; [apply NoDup_nil_2|by intros g Hg%elem_of_nil]. Qed.

Lemma settled_flights (fs : list Flight) k : settled (reservation <$> fs) k <-> forall f, f ∈ fs -> flight_key f <> k.
Proof.
  unfold settled, flight_key. split; [intros Hs f Hf; apply Hs; by apply list_elem_of_fmap_2|]. intros Hf g (f & -> & Hin)%list_elem_of_fmap. by apply Hf.
Qed.

Lemma settled_run v s s' k g : holds_reservations s -> rtc (interleaved v) s s' -> settled (reservation <$> co_flights s) k -> record_of (co_state s) k = Some g ->
  exists x, record_of (co_state s') k = Some (set_status x g) /\ rtc moves (gr_Status g) x.
Proof.
  intros Hh Hrun. revert g Hh. induction Hrun as [s|s1 s2 s3 Hs _ IH]; intros g Hh Hset Hg; [exists (gr_Status g); by rewrite set_status_id|].
  apply interleaved_effect in Hs. destruct (settled_effect _ _ _ _ k g Hh Hs Hset Hg) as (Hset2 & x & Hx & Hm).
  destruct (IH (set_status x g)) as (y & Hy & Hm2); [by eapply held_effect|done|done|]. exists y. split; [by rewrite Hy; destruct g|by etrans].
Qed.

(** C14. However calls of the vault interleave between their repository calls, a
    generation recorded that no call is still staging stays recorded for good
    with the same manifest, locator, frames and fence; its status only moves
    forward, and purged and quarantined are final.  While a call is staging it,
    the record has no frames and is staged or quarantined, and the next step
    leaves it so, or ends the call: with all its frames recorded, or given up.
    Whole calls, one after the other, are runs of this machine. *)
Theorem generations_only_move_forward v s0 s1 s2 k g :
  co_flights s0 = [] -> rtc (interleaved v) s0 s1 -> rtc (interleaved v) s1 s2 -> record_of (co_state s1) k = Some g ->
  ((forall f, f ∈ co_flights s1 -> flight_key f <> k) ->
     exists s, record_of (co_state s2) k = Some (set_status s g) /\ rtc moves (gr_Status g) s /\
       (gr_Status g = StatusPurged -> s = StatusPurged) /\ (gr_Status g = StatusQuarantined -> s = StatusQuarantined)) /\
  (forall f, f ∈ co_flights s1 -> flight_key f = k ->
     gr_Frames g = [] /\ (gr_Status g = StatusStaged \/ gr_Status g = StatusQuarantined) /\
     forall s', interleaved v s1 s' ->
       (exists s, record_of (co_state s') k = Some (set_status s g) /\ rtc moves (gr_Status g) s) \/
       ((forall f', f' ∈ co_flights s' -> flight_key f' <> k) /\
        (record_of (co_state s') k = None \/ exists fs, record_of (co_state s') k = Some (set_frames fs g) /\ complete (set_frames fs g) = true))) /\
  (forall st st' fs, rtc (vault_step v) st st' -> rtc (interleaved v) (MkConcurrent st fs) (MkConcurrent st' fs)).
Proof.
  intros Hempty Hrun1 Hrun2 Hg. pose proof (interleaved_held v s0 s1 (no_flights_held _ Hempty) Hrun1) as Hh. split_and!; [| |intros st st' fs; apply calls_interleave].
  - intros Hs%settled_flights. destruct (settled_run v s1 s2 k g Hh Hrun2 Hs Hg) as (x & Hx & Hm). destruct (moves_final _ _ Hm). by exists x.
  - intros f Hf <-. assert (reservation f ∈ reservation <$> co_flights s1) as Hin by (by apply list_elem_of_fmap_2).
    destruct (ho_recorded _ _ Hh _ Hin) as (Hfr & _ & x & Hx & Hl). unfold flight_key in *. rewrite Hg in Hl. injection Hl as ->. split_and!; [done|done|].
    intros s' Hs%interleaved_effect. destruct (reserved_effect _ _ _ _ _ _ Hh Hs Hin Hg) as [He|[[Hset (fs & Hl & Hc)]|[Hset Hl]]]; [by left|right..];
      (split; [by apply settled_flights|]); [right; by exists fs|by left].
Qed.

(** ** Round trip *)

Lemma validateManifest_spec m frameSize :
  0 < frameSize -> validateManifest m frameSize = true ->
  0 <= am_Length m -> 0 < am_Length m <= maxArtifactBytes /\ 0 < am_FrameCount m <= maxFrameCount /\ frameSize * (am_FrameCount m - 1) < am_Length m <= frameSize * am_FrameCount m.
Proof.
  intros Hf Hm H0'. unfold validateManifest in Hm. cbv zeta in Hm. bool_prop. set (n := (am_Length m + frameSize - 1) / frameSize) in *.
  assert (frameSize * n <= am_Length m + frameSize - 1 < frameSize * n + frameSize) as Hn.
  { pose proof (Z.div_mod (am_Length m + frameSize - 1) frameSize ltac:(lia)) as Hdm. pose proof (Z.mod_pos_bound (am_Length m + frameSize - 1) frameSize Hf). fold n in Hdm. lia. }
  assert (0 <= n) by (apply Z.div_pos; lia). nia.
Qed.

(** What a read of a published generation needs: no fault, and the key that staged it. *)
Definition calm_reads (env : VaultEnv) : Prop := forall k, ve_read env k = calm_read.

Definition asks (q : ArtifactReadRequest) (m : ArtifactManifest) : Prop := rr_Tenant q = am_Tenant m /\ rr_Artifact q = am_Artifact m /\ rr_Generation q = am_Generation m.

Lemma read_named q limit : validateRead q limit = true -> 0 < rr_Generation q < 2 ^ 64 -> named (rr_Tenant q) (rr_Artifact q) (rr_Generation q).
Proof. unfold validateRead, named. intros Hv Hg. bool_prop. split_and!; done || lia. Qed.

Lemma hydrate_published v env q st g root content material :
  serves (vs_meta st) -> 0 < rr_Generation q < 2 ^ 64 -> record_of st (generationKey (rr_Tenant q) (rr_Artifact q) (rr_Generation q)) = Some g -> gr_Status g = StatusPublished -> holds_content (vs_objects st) root g content ->
  len content = am_Length (gr_Manifest g) -> len content < 2 ^ 64 -> calm_reads env -> ve_Resolve env (am_Tenant (gr_Manifest g)) (am_KeyEpoch (gr_Manifest g)) = Some material -> mt_RootKey material = root ->
  validateRead q (v_maxRead v) = true -> 0 <= rr_Offset q -> 0 <= rr_Length q -> rr_Offset q + rr_Length q <= len content ->
  exists digests, HydrateRange v env q st =
    (st, Ok (MkHydrated (gr_Manifest g) digests (rr_Offset q + rr_Length q) (sub content (Z.to_nat (rr_Offset q)) (Z.to_nat (rr_Offset q + rr_Length q))))).
Proof.
  intros Hsv Hgen Hg Hst (plains & Hl & Hj) Hlen Hb Hc Hres Hroot Hv Ho Hn He. unfold HydrateRange. rewrite Hv. cbn [negb].
  rewrite (get_progress _ _ _ _ _ Hsv (read_named _ _ Hv Hgen) Hg), Hst. cbn [readable].
  rewrite (proj2 (Z.ltb_ge _ _)), (proj2 (Z.ltb_ge _ _)) by lia. cbn [orb]. unfold resolveForRead. rewrite Hres, Hroot.
  destruct (hydrate_loop_laid env root g (gr_Frames g) plains 0 0 (rr_Offset q) (rr_Offset q + rr_Length q) (vs_objects st) Hc Hl) as (ds & Hh); [lia|rewrite Hj; lia|lia|].
  rewrite Hh, Hj, sub_range by lia. rewrite len_sub by lia. replace (rr_Offset q + rr_Length q - rr_Offset q) with (rr_Length q) by lia. rewrite Z.eqb_refl. cbn [negb]. by exists ds.
Qed.

Lemma staged_generation v env q rd st st' rc : StageContent v env q rd st = (st', Ok rc) -> 0 < am_Generation (sr_Manifest q) < 2 ^ 64.
Proof.
  unfold StageContent. destruct (validateStage q (v_frameSize v)) eqn:Hv; [|done]. intros _. unfold validateStage, validateManifest in Hv. bool_prop.
  match goal with E : am_Generation _ = wrapU64 _ |- _ => unfold wrapU64 in E; pose proof (Z.mod_pos_bound (sr_ExpectedGeneration q + 1) (2 ^ 64) eq_refl); rewrite <- E in * end. lia.
Qed.

(** C2. What was staged is read back: after a successful stage and any calls but
    a purge, if the generation is published, a read without faults returns exactly
    the requested bytes of the content. *)
Theorem staged_content_is_read_back v env q rd st st1 rc st2 g2 material env' read :
  let m := sr_Manifest q in
  sound_vault v -> u64 (am_KeyEpoch m) -> StageContent v env q rd st = (st1, Ok rc) -> record_of st (manifest_key m) = None ->
  rtc (quiet_step v) st1 st2 -> record_of st2 (manifest_key m) = Some g2 -> gr_Status g2 = StatusPublished ->
  serves (vs_meta st2) -> calm_reads env' -> ve_Current env (am_Tenant m) = Some material -> ve_Resolve env' (am_Tenant m) (am_KeyEpoch m) = Some material ->
  asks read m -> validateRead read (v_maxRead v) = true -> 0 <= rr_Offset read -> 0 <= rr_Length read -> rr_Offset read + rr_Length read <= am_Length m -> am_Length m <= maxArtifactBytes ->
  exists digests, HydrateRange v env' read st2 =
    (st2, Ok (MkHydrated m digests (rr_Offset read + rr_Length read) (sub (rd_bytes rd) (Z.to_nat (rr_Offset read)) (Z.to_nat (rr_Offset read + rr_Length read))))).
Proof.
  cbv zeta. set (m := sr_Manifest q). intros Hv Hep Hs Hnew Hrun Hg2 Hst Hserve Hc Hcur Hres (A1 & A2 & A3) Hval Ho Hn He Hmax.
  destruct (StageContent_effect _ v env q rd st st1 _ never_able Hs Hv Hep) as [_ [[_ (g & Hg & _)]|(g & mat & _ & Hset & Hgm & _ & _ & Hcur' & Hh & _ & Hlen)]]; [unfold m in Hnew; congruence|]. fold m in Hset, Hgm, Hcur', Hlen.
  rewrite Hcur in Hcur'. injection Hcur' as <-. destruct (quiet_run v st1 st2 Hv Hrun) as [Ha Hsub]. destruct (Ha (manifest_key m) g (record_set_lookup _ _ _ _ Hset)) as (s & Hs2 & _).
  rewrite Hg2 in Hs2. injection Hs2 as ->.
  destruct (hydrate_published v env' read st2 (set_status s g) (mt_RootKey material) (rd_bytes rd) material) as (ds & ->);
    [done|rewrite A3; by eapply staged_generation|by rewrite A1, A2, A3|done| |by cbn; rewrite Hgm|unfold maxArtifactBytes in Hmax; lia|done|by cbn; rewrite Hgm|done|done|done|done|lia|exists ds; cbn; by rewrite Hgm].
  eapply holds_content_mono; [exact Hsub|]. by apply holds_content_status.
Qed.

(** ** Tamper evidence *)

(** C9. Whatever has become of the objects and whichever calls fail, a read that
    returns returns exactly the recorded content, as many bytes as were asked for
    and no more than the limit, and changes nothing; otherwise it is an error. *)
Theorem reads_are_exact_or_fail v env q st st' h g root content objects material :
  HydrateRange v env q st = (st', Ok h) ->
  record_of st (generationKey (rr_Tenant q) (rr_Artifact q) (rr_Generation q)) = Some g ->
  holds_content objects root g content -> len content < 2 ^ 64 -> no_collision (vs_objects st) objects g (gr_Frames g) ->
  ve_Resolve env (am_Tenant (gr_Manifest g)) (am_KeyEpoch (gr_Manifest g)) = Some material -> mt_RootKey material = root -> 0 <= rr_Offset q -> 0 <= rr_Length q ->
  st' = st /\ gr_Status g = StatusPublished /\ hr_Manifest h = gr_Manifest g /\ len (hr_Bytes h) = rr_Length q /\ len (hr_Bytes h) <= v_maxRead v /\
  hr_Bytes h = sub content (Z.to_nat (rr_Offset q)) (Z.to_nat (rr_Offset q + rr_Length q)).
Proof.
  intros Hh Hg (plains & Hl & Hj) Hb Hn Hres Hroot Ho Hlen. unfold HydrateRange in Hh. destruct (validateRead q (v_maxRead v)) eqn:Hv; [cbn [negb] in Hh|done].
  destruct (GetGeneration _ _ _ _) as [g'|e] eqn:Eg; [|done]. apply get_effect in Eg. rewrite Hg in Eg. injection Eg as <-. destruct (gr_Status g) eqn:Hst; cbn [readable] in Hh; try done. destruct (_ || _); [done|]. unfold resolveForRead in Hh. rewrite Hres, Hroot in Hh.
  destruct (hydrate_loop _ _ _ _ _ _ _) as [[bytes ds]|e] eqn:El; [|done]. destruct (len bytes =? rr_Length q) eqn:E; cbn [negb] in Hh; [|done]. injection Hh as <- <-. bool_prop.
  unfold validateRead in Hv. bool_prop. cbn. split_and!; [done|done|done|done|lia|].
  rewrite (hydrate_loop_Ok env root g (gr_Frames g) plains 0 0 _ _ (vs_objects st) objects bytes ds El Hl Hn) by (rewrite ?Hj; lia). rewrite Hj. apply sub_range. lia.
Qed.

(** ** Publication *)

Lemma verifyGeneration_Ok env g st st' :
  verifyGeneration env g st = (st', Ok tt) -> am_FrameCount (gr_Manifest g) <= maxFrameCount ->
  st' = st /\ exists material content, ve_Resolve env (am_Tenant (gr_Manifest g)) (am_KeyEpoch (gr_Manifest g)) = Some material /\
    holds_content (vs_objects st) (mt_RootKey material) g content /\ sha256_hex content = Hex (am_Digest (gr_Manifest g)) /\ len content = am_Length (gr_Manifest g).
Proof.
  intros Hv Hmax. destruct (verify_advances _ _ _ _ _ Hv) as (_ & _ & Hsame). specialize (Hsame eq_refl). split; [done|]. unfold verifyGeneration in Hv.
  destruct (complete g) eqn:Hc; cbn [negb] in Hv; [|done]. unfold resolveForRead in Hv. destruct (ve_Resolve _ _ _) as [material|]; [|done].
  destruct (verify_loop _ _ _ _ _ _ _ _) as [[off hashed]|[e b]] eqn:El; [|done]. destruct (_ || _) eqn:E; [done|]. apply orb_false_iff in E as [E1 E2].
  apply negb_false_iff, Z.eqb_eq in E1. apply negb_false_iff, String.eqb_eq in E2. unfold complete in Hc. bool_prop.
  apply verify_loop_Ok in El as (plains & Hl & [= -> ->]); [|lia|rewrite Hc; unfold maxFrameCount in Hmax; lia].
  exists material, (join_all plains). split_and!; [done|by exists plains|done|lia].
Qed.

(** Only verified content is published: when [Publish] succeeds, every frame
    of the generation decrypts under the key of its epoch, the frames together have
    the length and the digest of the manifest, and the generation is current; it was
    staged at the expected generation, or is published already. *)
Theorem publication_is_verified v env q st st' rc :
  let m := pr_Manifest q in
  sound_vault v -> 0 <= am_Length m -> Publish v env q st = (st', Ok rc) ->
  exists g material content, record_of st' (manifest_key m) = Some g /\ gr_Manifest g = m /\ gr_Status g = StatusPublished /\
    current_generation (vs_meta st') (manifest_artifact m) = am_Generation m /\
    (record_of st (manifest_key m) = Some g \/ record_of st (manifest_key m) = Some (set_status StatusStaged g) /\ current_generation (vs_meta st) (manifest_artifact m) = pr_ExpectedGeneration q) /\
    ve_Resolve env (am_Tenant m) (am_KeyEpoch m) = Some material /\ holds_content (vs_objects st') (mt_RootKey material) g content /\
    sha256_hex content = Hex (am_Digest m) /\ len content = am_Length m.
Proof.
  intros m [Hv _] Hlen. unfold Publish. cbv zeta. fold m. destruct (negb (validateManifest m (v_frameSize v)) || _) eqn:Eval; [done|]. apply orb_false_iff in Eval as [Eval _]. apply negb_false_iff in Eval.
  destruct (validateManifest_spec m _ Hv Eval Hlen) as (_ & Hfc & _).
  destruct (GetGeneration _ _ _ _) as [g|e] eqn:Eg; [|done]. apply get_effect in Eg. change (generationKey (am_Tenant m) (am_Artifact m) (am_Generation m)) with (manifest_key m) in Eg.
  destruct (bool_decide (gr_Manifest g = m)) eqn:Em; cbn [negb]; [|done]. apply bool_decide_eq_true in Em. destruct (_ && _); [done|].
  destruct (verifyGeneration env g st) as [st1 [[]|e]] eqn:Ev; [|done]. apply verifyGeneration_Ok in Ev as [-> (material & content & Hres & Hh & Hsha & Hcl)]; [|rewrite Em; lia].
  rewrite Em in *. pose proof (publish_effect q (vs_meta st)) as Hp. cbv zeta in Hp. fold m in Hp. destruct (PublishGeneration q (vs_meta st)) as [r' [g'|e]]; [|done]. intros [= <- <-]. cbn [vs_meta vs_objects].
  destruct Hp as (Hm' & Hs' & [[[L C] [Hl Hcu]]|(staged & Hl & Hss & _ & -> & Hcu & L & C)]); rewrite Eg in Hl; injection Hl as <-.
  - exists g, material, content. rewrite L, C. split_and!; auto.
  - exists (set_status StatusPublished g), material, content. rewrite L, C, !decide_True by done. split_and!; try done.
    + right. split; [|done]. rewrite Eg. destruct g. cbn in *. by subst.
    + by apply holds_content_status.
Qed.

(** ** Success *)

Definition calm_puts (env : VaultEnv) : Prop := forall k, ve_put env k = calm_put.

(** The record that a stage with this randomness begins. *)
Definition next_record (q : ArtifactStageRequest) (random : string) : GenerationRecord :=
  MkGeneration (sr_Manifest q) (hex_of_bytes (str_take 16 random)) [] StatusStaged 0.

Lemma objectKey_same g g' i : gr_Manifest g' = gr_Manifest g -> gr_Locator g' = gr_Locator g -> objectKey g' i = objectKey g i.
Proof. intros Em El. unfold objectKey. by rewrite Em, El. Qed.

Lemma StageContent_serves v env q rd st st' rc : serves (vs_meta st) -> StageContent v env q rd st = (st', Ok rc) -> serves (vs_meta st').
Proof.
  intros Hs. unfold StageContent. destruct (negb _); [done|]. destruct (ve_Current _ _); [|done]. destruct (_ || _); [done|]. destruct (newLocator _) as [random [locator|e]]; [|done].
  pose proof (serves_begin q locator (vs_meta st) Hs) as Hb. destruct (BeginStage q locator (vs_meta st)) as [meta [[g []]|e]]; [by intros [= <- _]| |done].
  destruct (stage_loop _ _ _ _ _ _ _) as [sg [[]|e]]; [|by unfold abort; destruct (delete_created _ _ _), (AbortStage _ _) as [? []]].
  assert (forall e s, abort env (set_frames (sg_frames sg) g) (sg_created sg) e s = (st', Ok rc) -> serves (vs_meta st')) as Hab
    by (intros e s; by unfold abort; destruct (delete_created _ _ _), (AbortStage _ _) as [? []]).
  destruct (_ || _); [by apply Hab|]. destruct (_ || _); [by apply Hab|]. pose proof (serves_complete (set_frames (sg_frames sg) g) meta Hb) as Hc. cbn [vs_meta].
  destruct (CompleteStage _ _) as [meta' [[]|e]]; [|by apply Hab]. by intros [= <- _].
Qed.

(** When nothing fails, staging content that fits its manifest succeeds and
    so does publishing it: the manifest is valid for the next generation, the
    current key has its epoch, there is randomness for every frame, and no two
    objects share a name. *)
Theorem staging_and_publishing_succeed v env q rd st material :
  let m := sr_Manifest q in
  sound_vault v -> 0 <= am_Length m -> serves (vs_meta st) -> ready (vs_meta st) -> validManifest m = true -> bindable m ->
  validateStage q (v_frameSize v) = true -> ve_Current env (am_Tenant m) = Some material -> ve_Resolve env (am_Tenant m) (am_KeyEpoch m) = Some material ->
  mt_Legacy material = false -> mt_Epoch material = am_KeyEpoch m -> len (mt_RootKey material) = 32 -> calm_puts env -> calm_reads env ->
  record_of st (manifest_key m) = None -> current_generation (vs_meta st) (manifest_artifact m) = sr_ExpectedGeneration q ->
  16 + 56 * am_FrameCount m <= len (vs_random st) -> len (rd_bytes rd) = am_Length m -> rd_fails rd = false -> sha256_hex (rd_bytes rd) = Hex (am_Digest m) ->
  (forall i, 0 <= i < am_FrameCount m -> vs_objects st !! objectKey (next_record q (vs_random st)) i = None) ->
  (forall i j, 0 <= i < j -> j < am_FrameCount m -> objectKey (next_record q (vs_random st)) i <> objectKey (next_record q (vs_random st)) j) ->
  exists st1 rc1 st2 rc2, StageContent v env q rd st = (st1, Ok rc1) /\ Publish v env (MkPublish m (sr_ExpectedGeneration q)) st1 = (st2, Ok rc2).
Proof.
  cbv zeta. set (m := sr_Manifest q). intros Hv Hlen Hserve Hready Hvalid Hbind Hval Hcur Hres Hleg Hepo Hroot Hput Hread Hnone Hgen Hrnd Hrd Hrf Hsha Hfree Hdist.
  pose proof Hval as Hval'. unfold validateStage in Hval'. fold m in Hval'. bool_prop.
  match goal with E : validateManifest m _ = true |- _ => pose proof E as Hvm; apply validateManifest_spec in E as (Hl & Hfc & Hfs); [|apply Hv|done] end.
  match goal with E : am_Generation m = _ |- _ => rename E into Hnext end.
  assert (u64 (am_KeyEpoch m)) as Hep by (apply validManifest_spec in Hvalid as (_ & _ & _ & _ & ? & _); destruct Hbind; unfold u64; lia).
  assert (exists st1 rc1, StageContent v env q rd st = (st1, Ok rc1)) as (st1 & rc1 & Hstage).
  { unfold StageContent. fold m. rewrite Hval, Hcur, Hleg, Hepo, Z.eqb_refl. cbn [negb orb]. unfold newLocator, read_full at 1. rewrite (proj2 (Nat.leb_le _ _)) by (unfold len in Hrnd; lia).
    destruct (begin_progress q (hex_of_bytes (str_take 16 (vs_random st))) (vs_meta st)) as (meta & g & Hb); [done|done|done|done|apply locator_valid; unfold len in Hrnd; lia|done|done|done|].
    pose proof (serves_begin q (hex_of_bytes (str_take 16 (vs_random st))) (vs_meta st) Hserve) as Hserve1.
    pose proof (begin_effect q (hex_of_bytes (str_take 16 (vs_random st))) (vs_meta st)) as Hbe. cbv zeta in Hbe. fold m in Hbe. rewrite Hb in Hbe, Hserve1 |- *. cbn [fst] in Hserve1. destruct Hbe as (_ & _ & (fence & Hg) & Hset).
    set (sg0 := MkStaging _ _ _ _ _ _ _). assert (forall i, objectKey g i = objectKey (next_record q (vs_random st)) i) as Hok by (intros i; apply objectKey_same; by subst g).
    destruct (stage_loop_progress v env (mt_RootKey material) g (Z.to_nat (am_FrameCount m)) 0 sg0) as (sg' & Hloop & Hrem);
      [done|apply Hv|done|by subst g|intros i Hi; rewrite Hok; apply Hfree; lia|intros i j Hi Hj; rewrite !Hok; apply Hdist; lia| |unfold sg0; cbn; lia|unfold sg0; cbn; lia|].
    { unfold sg0. cbn [sg_random]. unfold len in *. rewrite length_str_drop. lia. }
    rewrite Hloop. destruct (stage_loop_laid _ _ _ _ _ _ _ _ Hloop) as (frames & plains & F1 & F2 & F3 & F4 & F5 & F6); [apply Hv|by subst g|]. cbn in F1, F4, F5, F6.
    assert (sg_remaining sg' = 0) as Hz by (rewrite Hrem; unfold sg0; cbn; nia).
    assert (sg_reader sg' = "") as Hrd'.
    { apply (f_equal len) in F4. rewrite len_app in F4. destruct (sg_reader sg'); [done|]. unfold len at 3 in F4. cbn [String.length] in F4. lia. }
    rewrite Hrd', append_nil_r in F4. cbn [negb orb]. rewrite Hrd', Hrf, Hz, F5, <- F4, Hsha. rewrite !String.eqb_refl, Z.eqb_refl. cbn [negb orb].
    assert (String.eqb (Algorithm (am_Digest m)) "sha256" = true) as -> by (unfold validateManifest in Hvm; bool_prop; done). cbn [negb orb vs_meta].
    assert (gr_Manifest g = m) as Hgm by (by subst g). pose proof (stage_loop_storable _ _ _ _ _ _ _ _ Hloop ltac:(constructor)) as Hstore. rewrite F1 in Hstore.
    rewrite Hgm in F3. cbn [sg_remaining sg0] in F3. rewrite Z.sub_diag in F3.
    destruct (complete_progress g (sg_frames sg') meta) as (meta' & Hcs); [done|rewrite Hgm; exact (record_set_lookup _ _ _ _ Hset)|by subst g|by subst g| |by rewrite Hcs; eauto].
    unfold validFrames. rewrite Hgm, F1, F2, Z2Nat.id, Z.eqb_refl by lia. cbn [negb].
    rewrite (laid_frames_from _ _ _ _ _ _ _ F3); [rewrite Z.add_0_l, <- F4, Hrd; apply Z.eqb_refl| |lia|rewrite <- F4, Hrd; unfold maxArtifactBytes in Hl; lia].
    eapply Forall_impl; [exact Hstore|]. intros f [? ?]. split; [destruct Hv; lia|done]. }
  pose proof (StageContent_serves v env q rd st st1 _ Hserve Hstage) as Hserve1.
  destruct (StageContent_effect _ v env q rd st st1 _ never_able Hstage Hv) as [_ [[_ (g & Hg & _)]|(g & mat & _ & Hset & Hgm & Hst & Hcomp & Hcur' & (plains & Hlaid & Hj) & _ & Hln)]]; [done|unfold m in Hnone; congruence|].
  fold m in Hset, Hgm, Hcur', Hln. rewrite Hcur in Hcur'. injection Hcur' as <-. pose proof (record_set_lookup _ _ _ _ Hset) as Hg.
  assert (verifyGeneration env g st1 = (st1, Ok tt)) as Hver.
  { unfold verifyGeneration. rewrite Hcomp. cbn [negb]. unfold resolveForRead. rewrite Hgm, Hres. rewrite (verify_loop_laid env _ g (gr_Frames g) plains 0 0 "" (vs_objects st1) Hread Hlaid) by (rewrite ?Hj; unfold maxArtifactBytes in *; lia).
    rewrite Hj, Hrd, Z.add_0_l, Z.eqb_refl. cbn [append]. by rewrite Hsha, String.eqb_refl. }
  destruct (publish_progress (MkPublish m (sr_ExpectedGeneration q)) (vs_meta st1) g) as (r' & g' & Hpub); [done|done|done|done|done|cbn; destruct Hset as [_ C]; by rewrite C|done|].
  exists st1, rc1. unfold Publish. cbv zeta. cbn [pr_Manifest pr_ExpectedGeneration]. rewrite Hvm, <- Hnext, Z.eqb_refl. cbn [negb orb].
  assert (GetGeneration (am_Tenant m) (am_Artifact m) (am_Generation m) (vs_meta st1) = Ok g) as ->.
  { apply get_progress; [done| |done]. split_and!; [unfold validateManifest in Hvm; by bool_prop..| |]; apply (staged_generation _ _ _ _ _ _ _ Hstage). }
  rewrite Hgm, Hst, !bool_decide_eq_true_2 by done. cbn [negb andb]. rewrite Hver, Hpub. eauto.
Qed.

(** ** Failure and deletion *)

(** A stage that fails leaves no trace: if the cleanup itself does not fail,
    every object and every record is as before. *)
Theorem failed_stage_leaves_no_trace v env q rd st st' e :
  sound_vault v -> u64 (am_KeyEpoch (sr_Manifest q)) -> StageContent v env q rd st = (st', Err e) ->
  serves (vs_meta st) -> (forall k, ve_cleanup env k = calm_delete) -> (forall k, pf_undo (ve_put env k) = false) ->
  vs_objects st' = vs_objects st /\ same_view (vs_meta st) (vs_meta st').
Proof.
  intros Hv Hep Hs Hserve Hc Hu. destruct (StageContent_effect _ v env q rd st st' _ serving_able Hs Hv Hep) as [_ (_ & Hsv & Ho)]. split; [by apply Ho|by apply Hsv].
Qed.

Lemma purge_loop_effect env g frames objects objects' res :
  purge_loop env g frames objects = (objects', res) ->
  (forall k, (forall f, f ∈ frames -> k <> objectKey g (fr_Index f)) -> objects' !! k = objects !! k) /\ objects' ⊆ objects /\
  (res = Ok tt -> forall f, f ∈ frames -> objects' !! objectKey g (fr_Index f) = None) /\
  ((forall k, ve_delete env k = calm_delete) -> res = Ok tt).
Proof.
  revert objects. induction frames as [|f fs IH]; intros objects; cbn [purge_loop]; [intros [= <- <-]; set_solver|].
  destruct (delete_object _ _ _) as [o1 res1] eqn:Ed. pose proof (delete_object_effect _ _ _ _ _ Ed) as He.
  assert (o1 ⊆ objects) as Hsub1 by (destruct He as [[-> _]| ->]; [done|apply delete_subseteq]).
  assert (forall k, k <> objectKey g (fr_Index f) -> o1 !! k = objects !! k) as Hold1 by (intros k Hk; destruct He as [[-> _]| ->]; [done|by rewrite lookup_delete_ne]).
  destruct res1 as [[]|e].
  - intros (Hold & Hsub & Hgone & Hcalm)%IH. split_and!; [|by etrans| |done].
    + intros k Hk. rewrite Hold by (intros f' Hf'; apply Hk; by right). apply Hold1, Hk. left.
    + intros Hr f' [-> |Hf']%elem_of_cons; [|by apply Hgone]. apply delete_object_gone in Ed as [_ Hd]. eapply lookup_weaken_None; [exact Hd|done].
  - intros [= <- <-]. split_and!; [|done|done|].
    + intros k Hk. apply Hold1, Hk. left.
    + intros Hc. unfold delete_object in Ed. rewrite Hc in Ed. unfold objectKey in Ed. rewrite objectName_digest in Ed. cbn in Ed. destruct (objects !! _); discriminate Ed.
Qed.

(** A purge of a tombstoned generation that succeeds has deleted the object of
    every frame and nothing else, and the generation is purged; without faults it
    succeeds, also after purges that failed on the way. *)
Theorem purge_deletes_every_object env q st g n :
  purge_generation q = Some n -> PreparePurge q n (vs_meta st) = Ok g -> gr_Status g = StatusTombstoned ->
  manifest_key (gr_Manifest g) = generationKey (pu_Tenant q) (pu_Artifact q) n ->
  let st' := fst (Purge env q st) in
  vs_objects st' ⊆ vs_objects st /\
  (forall k, (forall f, f ∈ gr_Frames g -> k <> objectKey g (fr_Index f)) -> vs_objects st' !! k = vs_objects st !! k) /\
  ((exists rc, snd (Purge env q st) = Ok rc) ->
    record_of st' (manifest_key (gr_Manifest g)) = Some (set_status StatusPurged g) /\ forall f, f ∈ gr_Frames g -> vs_objects st' !! objectKey g (fr_Index f) = None) /\
  (serves (vs_meta st) -> (forall k, ve_delete env k = calm_delete) -> exists rc, snd (Purge env q st) = Ok rc).
Proof.
  intros Hn Hp Hst Hk. cbv zeta. destruct (prepare_effect _ _ _ _ Hp) as [Hg _]. rewrite <- Hk in Hg.
  unfold Purge. rewrite Hn, Hp, Hst. rewrite bool_decide_eq_false_2 by done. destruct (purge_loop _ _ _ _) as [objects res] eqn:El. destruct (purge_loop_effect _ _ _ _ _ _ El) as (Hold & Hsub & Hgone & Hcalm).
  pose proof (complete_purge_effect g (vs_meta st)) as Hce. pose proof (fun H => complete_purge_progress g (vs_meta st) H Hg Hst) as Hcp.
  destruct res as [[]|e]; cbn; [|split_and!; [done|done|by intros [rc [=]]|]; intros _ Hc; specialize (Hcalm Hc); discriminate Hcalm].
  destruct (CompletePurge g (vs_meta st)) as [r' [[]|e]]; cbn.
  - split_and!; [done|done| |intros _ _; eauto]. intros _. split; [|by apply Hgone]. destruct Hce as (ex & Hex & _ & [[Hs _]|[_ Hset]]); rewrite Hg in Hex; injection Hex as <-; [congruence|].
    exact (record_set_lookup _ _ _ _ Hset).
  - split_and!; [done|done|by intros [rc [=]]|]. intros Hs _. by destruct (Hcp Hs) as [? [=]].
Qed.

(** ** Receipts *)

Lemma validateID_fits id ns : validateID id ns = true -> fits (Value id).
Proof. unfold validateID, fits. intros Hv. bool_prop. apply (Z.le_lt_trans _ 512); [done|reflexivity]. Qed.

(** The receipt of a tombstone names the generation it tombstoned: a purge
    request that carries it asks for exactly that generation, and a request is
    understood only if its receipt spells the artifact and a number in the one way
    [receipt] writes them. *)
Theorem tombstone_receipt_names_generation g tenant epoch reason q n :
  let m := gr_Manifest g in
  validateID (am_Artifact m) "artifact" = true -> validateID tenant "tenant" = true -> epoch <> 0 -> 0 < am_Generation m < 2 ^ 64 ->
  purge_generation q = Some n ->
  purge_generation (MkPurgeRequest (am_Artifact m) tenant (receipt g "tombstoned" reason) epoch) = Some (am_Generation m) /\
  n <> 0 /\ exists text, parse_uint64 text = Some n /\ Value (OperationID (pu_TombstoneReceipt q)) = encodeComposite [Value (pu_Artifact q); text].
Proof.
  cbv zeta. set (m := gr_Manifest g). intros Ha Ht He Hg Hq. split.
  - unfold purge_generation. cbn [pu_TombstoneReceipt pu_Tenant pu_Artifact pu_KeyEpoch receipt Contracts.Status OperationID Namespace Value]. rewrite Ha, Ht, (proj2 (Z.eqb_neq _ _) He). cbn [negb orb String.eqb Ascii.eqb Bool.eqb].
    fold m. change 2%nat with (length [Value (am_Artifact m); uintString (am_Generation m)]). rewrite composite_decodes.
    + rewrite String.eqb_refl. cbn [negb]. unfold uintString. rewrite parse_uint64_dec by lia. by rewrite (proj2 (Z.eqb_neq _ _)) by lia.
    + repeat constructor; [by eapply validateID_fits|]. unfold fits, uintString. pose proof (dec_length (am_Generation m)) as Hd. apply (Z.le_lt_trans _ 21); [done|reflexivity].
  - unfold purge_generation in Hq. destruct (_ || _); [done|]. destruct (decodeComposite _ 2) as [[|a [|t [|]]]|] eqn:Ed; try done.
    destruct (String.eqb_spec a (Value (pu_Artifact q))) as [->|]; [cbn [negb] in Hq|done]. destruct (parse_uint64 t) as [n'|] eqn:Ep; [|done]. destruct (Z.eqb_spec n' 0); [done|]. injection Hq as <-.
    split; [done|]. exists t. split; [done|]. by apply decode_exact in Ed as [-> _].
Qed.

(** ** A cancelled read *)

Definition cancelled_reads (env : VaultEnv) : Prop := forall k, rf_ctx (ve_read env k) = true.

Lemma hydrate_loop_cancelled env root g frames plains index offset a b objects :
  cancelled_reads env -> laid objects root g index offset frames plains -> 0 <= offset -> offset + len (join_all plains) < 2 ^ 64 ->
  hydrate_loop env root g a b frames objects = Err (ErrIO "context") \/ range_part offset (join_all plains) a b = "".
Proof.
  intros Hc. revert plains index offset. induction frames as [|f fs IH]; intros [|p ps] index offset; cbn [laid hydrate_loop]; try done.
  - intros _ _ _. right. unfold range_part. cbn. by destruct (Z.to_nat (a - offset)), (Z.to_nat (b - Z.max a offset)).
  - intros (E1 & E2 & E3 & E4 & Hf & Hl) Ho Hb. rewrite join_all_cons, len_app in Hb. rewrite join_all_cons, range_part_app. pose proof (len_nonneg (join_all ps)) as Hn.
    unfold wrapU64. rewrite E2, E3, Z.mod_small by lia. cbv zeta. destruct (_ || _) eqn:E.
    + destruct (IH ps (index + 1) (offset + len p) Hl ltac:(lia) ltac:(lia)) as [He|He]; [by left|right]. rewrite He, append_nil_r.
      apply orb_true_iff in E as [E|E]; bool_prop; [by apply range_part_after|by apply range_part_before].
    + left. unfold readFrame, read_object. by rewrite Hc.
Qed.

(** C33. A read that is cancelled while it fetches an object quarantines the
    generation although every object of it is intact; from then on, in every state
    the vault can reach, it can be neither read nor tombstoned nor purged. *)
Theorem cancelled_read_is_fatal v env q st g root content material :
  let k := generationKey (rr_Tenant q) (rr_Artifact q) (rr_Generation q) in
  let st1 := fst (HydrateRange v env q st) in
  sound_vault v -> serves (vs_meta st) -> 0 < rr_Generation q < 2 ^ 64 -> record_of st k = Some g -> asks q (gr_Manifest g) -> gr_Status g = StatusPublished ->
  holds_content (vs_objects st) root g content -> len content = am_Length (gr_Manifest g) -> len content < 2 ^ 64 ->
  ve_Resolve env (am_Tenant (gr_Manifest g)) (am_KeyEpoch (gr_Manifest g)) = Some material -> mt_RootKey material = root -> cancelled_reads env ->
  validateRead q (v_maxRead v) = true -> 0 <= rr_Offset q -> 0 <= rr_Length q -> rr_Offset q + rr_Length q <= len content ->
  snd (HydrateRange v env q st) = Err (ErrIO "context") /\ holds_content (vs_objects st1) root g content /\ record_of st1 k = Some (set_status StatusQuarantined g) /\
  forall st2, rtc (vault_step v) st1 st2 ->
    record_of st2 k = Some (set_status StatusQuarantined g) /\
    (forall v' env' q', generationKey (rr_Tenant q') (rr_Artifact q') (rr_Generation q') = k -> exists e, snd (HydrateRange v' env' q' st2) = Err e) /\
    (forall t, generationKey (tr_Tenant t) (tr_Artifact t) (tr_ExpectedGeneration t) = k -> exists e, snd (Tombstone t st2) = Err e) /\
    (forall env' p n, purge_generation p = Some n -> generationKey (pu_Tenant p) (pu_Artifact p) n = k -> exists e, snd (Purge env' p st2) = Err e).
Proof.
  cbv zeta. set (k := generationKey _ _ _). intros Hsv Hserve Hgen Hg (A1 & A2 & A3) Hst (plains & Hl & Hj) Hlen Hb Hres Hroot Hc Hv Ho Hn He.
  pose proof (read_named _ _ Hv Hgen) as Hnamed.
  assert (0 < rr_Length q) as Hpos by (unfold validateRead in Hv; bool_prop; lia).
  assert (hydrate_loop env root g (rr_Offset q) (rr_Offset q + rr_Length q) (gr_Frames g) (vs_objects st) = Err (ErrIO "context")) as Hloop.
  { destruct (hydrate_loop_cancelled env root g (gr_Frames g) plains 0 0 (rr_Offset q) (rr_Offset q + rr_Length q) (vs_objects st) Hc Hl ltac:(lia)) as [?|E]; [rewrite Hj; lia|done|].
    rewrite Hj, sub_range in E by lia. apply (f_equal len) in E. rewrite len_sub in E by lia. unfold len in E. cbn in E. lia. }
  assert (HydrateRange v env q st = (quarantine (gr_Manifest g) st, Err (ErrIO "context"))) as Hh.
  { unfold HydrateRange. rewrite Hv. cbn [negb]. rewrite (get_progress _ _ _ _ _ Hserve Hnamed Hg), Hst. cbn [readable]. rewrite (proj2 (Z.ltb_ge _ _)), (proj2 (Z.ltb_ge _ _)) by lia. cbn [orb].
    unfold resolveForRead. rewrite Hres, Hroot, Hloop. done. }
  rewrite Hh. cbn [fst snd].
  assert (record_of (quarantine (gr_Manifest g) st) k = Some (set_status StatusQuarantined g)) as Hq.
  { unfold quarantine. cbn. rewrite <- A1, <- A2, <- A3. pose proof (quarantine_effect (rr_Tenant q) (rr_Artifact q) (rr_Generation q) (vs_meta st)) as Hqe. cbv zeta in Hqe. fold k in Hqe.
    destruct (quarantine_progress (rr_Tenant q) (rr_Artifact q) (rr_Generation q) (vs_meta st) g) as [r' Hr']; [done|done|done|congruence|].
    rewrite Hr' in Hqe |- *. cbn. destruct Hqe as (g' & Hg' & _ & Hset). rewrite Hg in Hg'. injection Hg' as <-. exact (record_set_lookup _ _ _ _ Hset). }
  split_and!; [done|by exists plains|done|]. intros st2 Hrun. destruct (run_advances v _ st2 Hsv Hrun k _ Hq) as (s & Hs & Hm).
  apply moves_final in Hm as [_ Hm]. specialize (Hm eq_refl). subst s. change (set_status StatusQuarantined (set_status StatusQuarantined g)) with (set_status StatusQuarantined g) in Hs.
  split_and!; [done| | |].
  - intros v' env' q' Hk'. rewrite <- Hk' in Hs. unfold HydrateRange. destruct (negb _); [by eexists|].
    destruct (GetGeneration _ _ _ _) as [g'|e] eqn:Eg; [|by eexists]. apply get_effect in Eg. rewrite Hs in Eg. injection Eg as <-. by eexists.
  - intros t Hk'. unfold Tombstone. destruct (_ || _); [by eexists|]. pose proof (tombstone_effect t (vs_meta st2)) as Ht. cbv zeta in Ht. rewrite Hk', Hs in Ht.
    destruct (TombstoneGeneration t (vs_meta st2)) as [r' [g'|e]]; [|by eexists]. destruct Ht as (Hst' & [[_ [= <-]]|(pub & [= <-] & Hps & _)]); discriminate.
  - intros env' p n Hp Hk'. unfold Purge. rewrite Hp. destruct (PreparePurge p n (vs_meta st2)) as [g'|e] eqn:Epp; [|by eexists].
    apply prepare_effect in Epp as [Hl' Hst']. rewrite Hk', Hs in Hl'. injection Hl' as <-. cbn in Hst'. by destruct Hst'.
Qed.
End theorems.
