(* ===== verification/VaultDemo.v ===== *)
(** * artifactvault: a vault on concrete content

    A sealing function with the laws of an AEAD, digests of 64 hex digits, and
    one artifact staged, published, read, tombstoned and purged in the in-memory
    repository; the theorems of [VaultTheorems] applied to these states. *)

From Stdlib Require Import Ascii String.
From S2P Require Import Prelude GoString Float64 Runtime FactoryDemo BrokerDemo Contracts Composite Vault StorageRules VaultRepository VaultFrames VaultStaging VaultSafety VaultTheorems.
From stdpp Require Import gmap strings.
Open Scope string_scope.
Open Scope Z_scope.

(** ** Digests of 64 hex digits *)

Fixpoint sum_bytes (s : string) : Z := match s with EmptyString => 0 | String c s' => byte_val c + sum_bytes s' end.

#[local] Instance vault_digests : GoRuntime := {|
  sha256_hex := fun s => hex_of 64 (sum_bytes s); rfc3339nano_ok := fun _ => true; quote := fun s => s; to_lower := fun s => s;
  equal_fold := String.eqb; int_out_of_range := fun _ => 0 |}.

Lemma vault_digests_ok s : sha256_digest_ok (digestBytes s) = true.
Proof.
  apply sha256_digest_ok_spec. unfold digestBytes. cbn [Algorithm Hex sha256_hex vault_digests]. split_and!; [done| |apply all_hex_of]. apply (hex_of_ok 64).
Qed.

#[local] Instance vault_digest_laws : DigestLaws.
Proof. constructor. intros s. exact (vault_digests_ok s). Qed.

(** ** A sealing function: the tag depends on the key, the nonce and the additional data *)

Definition tag (key nonce aad : string) : string := str_take 16 (sha256_hex (key ++ nonce ++ aad)).

#[local] Instance demo_aead : AEAD := {|
  aead_seal := fun key nonce plain aad => plain ++ tag key nonce aad;
  aead_open := fun key nonce sealed aad =>
    let n := (String.length sealed - 16)%nat in
    if String.eqb (str_drop n sealed) (tag key nonce aad) then Some (str_take n sealed) else None |}.

Lemma length_tag key nonce aad : String.length (tag key nonce aad) = 16%nat.
Proof.
  unfold tag. rewrite length_str_take. pose proof (vault_digests_ok (key ++ nonce ++ aad)) as Hd. apply sha256_digest_ok_spec in Hd as (_ & Hl & _). unfold len in Hl. cbn in *. lia.
Qed.

#[local] Instance demo_aead_laws : AEADLaws.
Proof.
  constructor; intros key nonce plain aad _ _; cbn [aead_open aead_seal demo_aead].
  - rewrite length_append, length_tag, Nat.add_sub, str_drop_app, str_take_app. by rewrite String.eqb_refl.
  - rewrite len_app. unfold len at 2. by rewrite length_tag.
Qed.

(** ** The scene *)

Definition vault4 : Vault := MkVault 4 64.
Definition content : string := "hello".
Definition root_key : string := "0123456789abcdef0123456789abcdef".
Definition key7 : Material := MkMaterial 7 false root_key.
Definition tenant_t : Identifier := MkIdentifier "tenant" "t".
Definition artifact_a : Identifier := MkIdentifier "artifact" "a".
Definition manifest1 : ArtifactManifest := MkArtifactManifest artifact_a tenant_t (digestBytes content) 1 7 5 2.
Definition stage1 : ArtifactStageRequest := MkStage manifest1 0.

Definition env_with (r : ReadFaults) : VaultEnv :=
  MkVaultEnv (fun _ => Some key7) (fun _ _ => Some key7) (fun _ => calm_put) (fun _ => r) (fun _ => calm_delete) (fun _ => calm_delete).
Definition calm_env : VaultEnv := env_with calm_read.
Definition cancelled_env : VaultEnv := env_with (MkReadFaults true false false).

Fixpoint noise (n : nat) : string := match n with O => "" | S n' => String "r" (noise n') end.

Definition st0 : VaultState MemoryRepository := MkState ∅ NewMemoryRepository (noise 130).
Definition st1 : VaultState MemoryRepository := fst (StageContent vault4 calm_env stage1 (MkReader content false) st0).
Definition st2 : VaultState MemoryRepository := fst (Publish vault4 calm_env (MkPublish manifest1 0) st1).
Definition read_middle : ArtifactReadRequest := MkRead artifact_a tenant_t 1 2 3.

Example middle_read : (hr_Bytes <$> match snd (HydrateRange vault4 calm_env read_middle st2) with Ok h => Some h | Err _ => None end) = Some "llo".
Proof. vm_compute. reflexivity. Qed.

Lemma demo_sound : sound_vault vault4.
Proof. split; [reflexivity|discriminate]. Qed.

Definition receipt_of {E} (x : VaultState MemoryRepository * result E Receipt) : Receipt :=
  match snd x with Ok r => r | Err _ => MkReceipt (MkIdentifier "" "") "" "" 0 end.

Definition tombstone1 : TombstoneRequest := MkTombstoneRequest artifact_a tenant_t 1 "retention".
Definition st3 : VaultState MemoryRepository := fst (Tombstone tombstone1 st2).
Definition purge1 : PurgeRequest := MkPurgeRequest artifact_a tenant_t (receipt_of (Tombstone tombstone1 st2)) 7.
Definition st4 : VaultState MemoryRepository := fst (Purge calm_env purge1 st3).
Definition key1 : string := manifest_key manifest1.
Definition blank_record : GenerationRecord := MkGeneration manifest1 "" [] StatusStaged 0.
Definition record_in (st : VaultState MemoryRepository) : GenerationRecord := default blank_record (lookup_record (vs_meta st) key1).

(** A call that has reserved the generation and has not yet written it. *)
Definition begun : VaultState MemoryRepository * (result vault_error Receipt + StageCall) := stage_begin vault4 calm_env stage1 st0.
Definition begun_call : StageCall := match snd begun with inr c => c | inl _ => MkStageCall manifest1 blank_record "" end.

(** A published generation is tombstoned and purged with its frames as they were; a reserved one has none. *)
Lemma generations_only_move_forward_witness :
  (exists s, lookup_record (vs_meta st4) key1 = Some (set_status s (record_in st2)) /\ rtc moves (gr_Status (record_in st2)) s) /\
  gr_Frames (record_in (fst begun)) = [].
Proof.
  split.
  - destruct (generations_only_move_forward vault4 (MkConcurrent st2 []) (MkConcurrent st2 []) (MkConcurrent st4 []) key1 (record_in st2)) as (Hs & _).
    + reflexivity.
    + apply rtc_refl.
    + apply calls_interleave. apply (rtc_l _ _ st3); [|apply rtc_once; apply step_purge]. apply step_quiet, quiet_tombstone.
    + vm_compute. reflexivity.
    + destruct Hs as (s & Hs & Hm & _); [by intros f Hf%elem_of_nil|]. exists s. split; [exact Hs|exact Hm].
  - destruct (generations_only_move_forward vault4 (MkConcurrent st0 []) (MkConcurrent (fst begun) [Reserved begun_call]) (MkConcurrent (fst begun) [Reserved begun_call]) key1
      (record_in (fst begun))) as (_ & Hf & _).
    + reflexivity.
    + apply rtc_once. apply (il_reserve _ calm_env stage1). vm_compute. reflexivity.
    + apply rtc_refl.
    + vm_compute. reflexivity.
    + apply (Hf (Reserved begun_call)); [left|vm_compute; reflexivity].
Defined.

Lemma staged_content_is_read_back_witness :
  exists digests, HydrateRange vault4 calm_env read_middle st2 = (st2, Ok (MkHydrated manifest1 digests 5 (sub content 2 5))).
Proof.
  apply (staged_content_is_read_back vault4 calm_env stage1 (MkReader content false) st0 st1
    (receipt_of (StageContent vault4 calm_env stage1 (MkReader content false) st0)) st2 (record_in st2) key7 calm_env read_middle).
  - split; [reflexivity|discriminate].
  - split; [discriminate|reflexivity].
  - vm_compute. reflexivity.
  - vm_compute. reflexivity.
  - apply rtc_once. apply quiet_publish.
  - vm_compute. reflexivity.
  - vm_compute. reflexivity.
  - exact I.
  - intros k. reflexivity.
  - reflexivity.
  - reflexivity.
  - split; [reflexivity|split; reflexivity].
  - vm_compute. reflexivity.
  - discriminate.
  - discriminate.
  - vm_compute. discriminate.
  - vm_compute. discriminate.
Defined.

Lemma demo_holds : holds_content (vs_objects st2) root_key (record_in st2) content.
Proof.
  destruct (StageContent_effect (fun _ => False) vault4 calm_env stage1 (MkReader content false) st0 st1 (Ok (receipt_of (StageContent vault4 calm_env stage1 (MkReader content false) st0))))
    as [_ [[_ (g & Hg & _)]|(g & m & _ & Hset & _ & _ & _ & [= <-] & Hh & _)]].
  - exact never_able.
  - vm_compute. reflexivity.
  - exact demo_sound.
  - split; [discriminate|reflexivity].
  - vm_compute in Hg. discriminate Hg.
  - assert (record_in st1 = g) as Eg by (unfold record_in; change key1 with (manifest_key (sr_Manifest stage1)); rewrite (record_set_lookup _ _ _ _ Hset); reflexivity).
    replace (record_in st2) with (set_status StatusPublished (record_in st1)) by (vm_compute; reflexivity).
    destruct (Publish_advances vault4 calm_env (MkPublish manifest1 0) st1) as [_ Ho]. unfold st2. rewrite Ho, Eg. apply holds_content_status. exact Hh.
Qed.

Lemma reads_are_exact_or_fail_witness :
  exists h, snd (HydrateRange vault4 calm_env read_middle st2) = Ok h /\ hr_Bytes h = sub content 2 5.
Proof.
  pose (h := match snd (HydrateRange vault4 calm_env read_middle st2) with Ok h => h | Err _ => MkHydrated manifest1 [] 0 "" end).
  destruct (reads_are_exact_or_fail vault4 calm_env read_middle st2 st2 h (record_in st2) root_key content (vs_objects st2) key7) as (_ & _ & _ & _ & _ & Hb).
  - vm_compute. reflexivity.
  - vm_compute. reflexivity.
  - apply demo_holds.
  - reflexivity.
  - intros f e e' _ H1 H2 _. rewrite H1 in H2. injection H2 as H2. exact H2.
  - reflexivity.
  - reflexivity.
  - discriminate.
  - discriminate.
  - exists h. split; [vm_compute; reflexivity|exact Hb].
Defined.

Lemma publication_is_verified_witness :
  exists g content', lookup_record (vs_meta st2) key1 = Some g /\ sha256_hex content' = Hex (am_Digest manifest1) /\ len content' = 5.
Proof.
  destruct (publication_is_verified vault4 calm_env (MkPublish manifest1 0) st1 st2 (receipt_of (Publish vault4 calm_env (MkPublish manifest1 0) st1)))
    as (g & m & c & Hg & _ & _ & _ & _ & _ & _ & Hs & Hl).
  - split; [reflexivity|discriminate].
  - discriminate.
  - vm_compute. reflexivity.
  - exists g, c. exact (conj Hg (conj Hs Hl)).
Defined.

Definition short_reader : Reader := MkReader "hell" false.

Lemma failed_stage_leaves_no_trace_witness :
  vs_objects (fst (StageContent vault4 calm_env stage1 short_reader st0)) = vs_objects st0 /\
  same_view (vs_meta st0) (vs_meta (fst (StageContent vault4 calm_env stage1 short_reader st0))).
Proof.
  apply (failed_stage_leaves_no_trace vault4 calm_env stage1 short_reader st0 _ ErrIncomplete).
  - split; [reflexivity|discriminate].
  - split; [discriminate|reflexivity].
  - vm_compute. reflexivity.
  - exact I.
  - intros k. reflexivity.
  - intros k. reflexivity.
Defined.

Lemma purge_deletes_every_object_witness :
  lookup_record (vs_meta (fst (Purge calm_env purge1 st3))) (manifest_key (gr_Manifest (record_in st3))) = Some (set_status StatusPurged (record_in st3)) /\
  forall f, f ∈ gr_Frames (record_in st3) -> vs_objects (fst (Purge calm_env purge1 st3)) !! objectKey (record_in st3) (fr_Index f) = None.
Proof.
  destruct (purge_deletes_every_object calm_env purge1 st3 (record_in st3) 1) as (_ & _ & Hp & _).
  - vm_compute. reflexivity.
  - vm_compute. reflexivity.
  - vm_compute. reflexivity.
  - vm_compute. reflexivity.
  - apply Hp. exists (receipt_of (Purge calm_env purge1 st3)). vm_compute. reflexivity.
Defined.

Lemma tombstone_receipt_names_generation_witness :
  purge_generation (MkPurgeRequest (am_Artifact (gr_Manifest (record_in st3))) tenant_t (receipt (record_in st3) "tombstoned" "OURO-ARTIFACT-TOMBSTONED") 7)
  = Some (am_Generation (gr_Manifest (record_in st3))).
Proof.
  destruct (tombstone_receipt_names_generation (record_in st3) tenant_t 7 "OURO-ARTIFACT-TOMBSTONED" purge1 1) as [Hp _].
  - vm_compute. reflexivity.
  - vm_compute. reflexivity.
  - discriminate.
  - vm_compute. split; reflexivity.
  - vm_compute. reflexivity.
  - exact Hp.
Defined.

Lemma cancelled_read_is_fatal_witness :
  snd (HydrateRange vault4 cancelled_env read_middle st2) = Err (ErrIO "context") /\
  forall t, generationKey (tr_Tenant t) (tr_Artifact t) (tr_ExpectedGeneration t) = key1 -> exists e, snd (Tombstone t (fst (HydrateRange vault4 cancelled_env read_middle st2))) = Err e.
Proof.
  destruct (cancelled_read_is_fatal vault4 cancelled_env read_middle st2 (record_in st2) root_key content key7) as (Herr & _ & _ & Hafter).
  - split; [reflexivity|discriminate].
  - exact I.
  - split; reflexivity.
  - vm_compute. reflexivity.
  - vm_compute. split; [|split]; reflexivity.
  - vm_compute. reflexivity.
  - apply demo_holds.
  - vm_compute. reflexivity.
  - reflexivity.
  - reflexivity.
  - reflexivity.
  - intros k. reflexivity.
  - vm_compute. reflexivity.
  - discriminate.
  - discriminate.
  - vm_compute. discriminate.
  - split; [exact Herr|]. destruct (Hafter _ (rtc_refl _ _)) as (_ & _ & Ht & _). exact Ht.
Defined.
