(* ===== verification/Storage.v ===== *)
(** * localstorage: the durable artifact repository

    Models [ArtifactRepository] of
    [services/brain/internal/localstorage/artifact.go] and
    [artifact_queries.go] with [executor.go] and
    [localstate/storage_executor.go], over the artifact tables of migrations 001
    and 002.

    The tables that share the key (tenant, artifact, generation), each with a
    foreign key to [artifact_manifests], are one map: a row of it holds the
    manifest, the reservation, the frames and the tombstone.  Every statement
    may fail, as [StorageEnv] says; a transaction that fails leaves the tables
    as they were. *)

From Stdlib Require Import Ascii String.
From S2P Require Import Prelude GoString Float64 Runtime Contracts SqlTable AuthorityLedger Composite Vault StorageRules.
From stdpp Require Import gmap strings.
Open Scope string_scope.
Open Scope Z_scope.

(** ** Tables *)

#[export] Instance FrameRecord_eq_dec : EqDecision FrameRecord.
Proof. solve_decision. Defined.

Record FrameRow := MkFrameRow { fw_index : Z; fw_offset : Z; fw_length : Z; fw_digest : string }.
Record StorageTombstone := MkStorageTombstone { sx_reason : string; sx_receipt : Receipt }.

Record ArtifactRow := MkArtifactRow {
  aw_manifest : ManifestRow; aw_reservation : option (string * Z); aw_frames : list FrameRow; aw_tombstone : option StorageTombstone
}.

Record ArtifactTables := MkArtifactTables {
  at_rows : gmap (string * string * Z) ArtifactRow; at_current : gmap (string * string) Z; at_fences : Z
}.

Definition empty_tables : ArtifactTables := MkArtifactTables ∅ ∅ 0.

Definition put_row (k : string * string * Z) (row : ArtifactRow) (t : ArtifactTables) : ArtifactTables :=
  MkArtifactTables (<[k := row]> (at_rows t)) (at_current t) (at_fences t).

Definition with_status (s : string) (row : ArtifactRow) : ArtifactRow :=
  MkArtifactRow (AuthorityLedger.set_status s (aw_manifest row)) (aw_reservation row) (aw_frames row) (aw_tombstone row).

Definition with_frames (fs : list FrameRow) (row : ArtifactRow) : ArtifactRow :=
  MkArtifactRow (aw_manifest row) (aw_reservation row) fs (aw_tombstone row).

Definition with_tombstone (x : StorageTombstone) (row : ArtifactRow) : ArtifactRow :=
  MkArtifactRow (aw_manifest row) (aw_reservation row) (aw_frames row) (Some x).

(** ** The environment of one call *)

Inductive storage_stmt :=
| SBegin | SCommit | SManifest | SFrames | SCurrent | SFence | XManifest | XReservation | XFrame (i : nat) | XDelete | XStatus | XPointer | STombstone | XStorageTombstone.

(** [sv_fault q]: the statement fails. *)
Record StorageEnv := MkStorageEnv { sv_fault : storage_stmt -> bool }.

Definition unavailable (what : string) : vault_error := ErrIO ("localstorage: " ++ what).

(** A statement whose failure the code answers with [err]. *)
Definition attempt {A} (env : StorageEnv) (q : storage_stmt) (err : vault_error) (k : result vault_error A) : result vault_error A :=
  fail_if (sv_fault env q) err k.

(** [WriteMetadata]: the callback in a transaction of its own. *)
Definition in_write {A} (env : StorageEnv) (t : ArtifactTables) (body : result vault_error (ArtifactTables * A)) : ArtifactTables * result vault_error A :=
  if sv_fault env SBegin then (t, Err (ErrIO "localstate: begin metadata transaction"))
  else match body with
  | Err e => (t, Err e)
  | Ok (t', a) => if sv_fault env SCommit then (t, Err (ErrIO "localstate: commit metadata transaction")) else (t', Ok a)
  end.

(** ** artifact_queries.go *)

Definition status_text (s : VaultStatus) : string :=
  match s with
  | StatusStaged => "staged" | StatusPublished => "published" | StatusTombstoned => "tombstoned" | StatusPurged => "purged"
  | StatusQuarantined => "quarantined"
  end.

Definition status_of_text (s : string) : option VaultStatus :=
  List.find (fun st => String.eqb (status_text st) s) [StatusStaged; StatusPublished; StatusTombstoned; StatusPurged; StatusQuarantined].

Definition by_index : FrameRow -> FrameRow -> bool := on_key fw_index Z.ltb.

(** The loop over the rows of [artifact_frames], in the order of the query.  Its
    [LIMIT] is beyond the row at which the loop gives up. *)
Fixpoint scan_frames (room : nat) (rows : list FrameRow) : result vault_error (list FrameRecord) :=
  match rows with
  | [] => Ok []
  | r :: rest =>
      if (fw_index r <? 0) || (fw_offset r <? 0) || (fw_length r <=? 0) || (2 ^ 32 - 1 <? fw_index r) || (2 ^ 32 - 1 <? fw_length r)
      then Err (unavailable "scan artifact frame")
      else match room with
      | O => Err ErrCorrupt
      | S room' =>
          do fs <- scan_frames room' rest ;
          Ok (MkFrame (fw_index r) (fw_offset r) (fw_length r) (MkDigest "sha256" (fw_digest r)) :: fs)
      end
  end.

Definition loadArtifact (env : StorageEnv) (tenant artifact : string) (generation : Z) (t : ArtifactTables) : result vault_error GenerationRecord :=
  attempt env SManifest (unavailable "read artifact manifest")
    (if negb (db_uint generation) then Err (unavailable "read artifact manifest")
     else match at_rows t !! (tenant, artifact, generation) with
     | None => Err ErrNotFound
     | Some row =>
         match aw_reservation row with
         | None => Err ErrNotFound
         | Some (locator, fence) =>
             let m := aw_manifest row in
             if (ma_length m <=? 0) || (ma_frames m <=? 0) || (maxFrameCount <? ma_frames m) || (ma_epoch m <=? 0) || (fence <=? 0) || negb (validLocator locator)
             then Err (unavailable "read artifact manifest")
             else
               let manifest := MkArtifactManifest (MkIdentifier "artifact" artifact) (MkIdentifier "tenant" tenant) (MkDigest "sha256" (ma_digest m)) generation
                                 (ma_epoch m) (ma_length m) (ma_frames m) in
               match status_of_text (ma_status m) with
               | None => Err ErrCorrupt
               | Some status =>
                   if negb (validManifest manifest) then Err ErrCorrupt
                   else attempt env SFrames (unavailable "read artifact frames")
                     (do frames <- scan_frames (Z.to_nat (ma_frames m)) (sort_by by_index (aw_frames row)) ;
                      if negb (length frames =? 0)%nat && negb (validFrames manifest frames) then Err ErrCorrupt
                      else Ok (MkGeneration manifest locator frames status fence))
               end
         end
     end).

Definition currentGeneration (env : StorageEnv) (tenant artifact : string) (t : ArtifactTables) : result vault_error Z :=
  attempt env SCurrent (unavailable "read current generation")
    match at_current t !! (tenant, artifact) with
    | None => Ok 0
    | Some n => if n <=? 0 then Err (unavailable "read current generation") else Ok n
    end.

(** ** Statements *)

(** The [CHECK]s of [artifact_manifests] and the values the driver can bind. *)
Definition manifest_row_ok (m : ArtifactManifest) : bool :=
  (0 <? am_Generation m) && db_uint (am_Generation m) && (0 <? am_Length m) && (am_Length m <=? 1099511627776) && (0 <? am_FrameCount m)
  && (am_FrameCount m <=? 1048576) && (0 <=? am_KeyEpoch m) && db_uint (am_KeyEpoch m).

Definition row_key (m : ArtifactManifest) : string * string * Z := (Value (am_Tenant m), Value (am_Artifact m), am_Generation m).

Definition insert_manifest (m : ArtifactManifest) (t : ArtifactTables) : result vault_error ArtifactTables :=
  if negb (manifest_row_ok m) || bool_decide (is_Some (at_rows t !! row_key m)) then Err ErrConflict
  else Ok (put_row (row_key m) (MkArtifactRow (MkManifest (Hex (am_Digest m)) (am_Length m) (am_FrameCount m) (am_KeyEpoch m) "staged") None [] None) t).

(** A fence is UNIQUE over all reservations. *)
Definition fence_taken (fence : Z) (t : ArtifactTables) : bool :=
  existsb (fun kv => match aw_reservation (snd kv) with Some (_, f) => f =? fence | None => false end) (map_to_list (at_rows t)).

Definition insert_reservation (m : ArtifactManifest) (locator : string) (fence : Z) (t : ArtifactTables) : result vault_error ArtifactTables :=
  match at_rows t !! row_key m with
  | None => Err ErrConflict
  | Some row =>
      if bool_decide (is_Some (aw_reservation row)) || fence_taken fence t || (fence <=? 0) || (at_fences t <? fence) then Err ErrConflict
      else Ok (put_row (row_key m) (MkArtifactRow (aw_manifest row) (Some (locator, fence)) (aw_frames row) (aw_tombstone row)) t)
  end.

(** [INSERT INTO artifact_frames], with its checks, its key and its trigger. *)
Definition insert_frame (k : string * string * Z) (f : FrameRecord) (t : ArtifactTables) : result vault_error ArtifactTables :=
  match at_rows t !! k with
  | None => Err ErrConflict
  | Some row =>
      if (fr_Index f <? 0) || (fr_Offset f <? 0) || negb (db_uint (fr_Offset f)) || (fr_Length f <=? 0) || (16777216 <? fr_Length f)
         || existsb (fun r => fw_index r =? fr_Index f) (aw_frames row)
         || one_of ["published"; "tombstoned"; "quarantined"] (ma_status (aw_manifest row)) then Err ErrConflict
      else Ok (put_row k (with_frames (aw_frames row ++ [MkFrameRow (fr_Index f) (fr_Offset f) (fr_Length f) (Hex (fr_ObjectDigest f))])%list row) t)
  end.

Fixpoint insert_frames (env : StorageEnv) (k : string * string * Z) (i : nat) (fs : list FrameRecord) (t : ArtifactTables) : result vault_error ArtifactTables :=
  match fs with
  | [] => Ok t
  | f :: rest => attempt env (XFrame i) ErrConflict (do t' <- insert_frame k f t ; insert_frames env k (S i) rest t')
  end.

(** [UPDATE artifact_manifests SET status=next WHERE key AND status=from] (any
    status when [from] is [None]), under the forward-only trigger. *)
Definition update_status (k : string * string * Z) (from : option string) (next : string) (t : ArtifactTables) : result vault_error ArtifactTables :=
  match at_rows t !! k with
  | None => Ok t
  | Some row =>
      let old := ma_status (aw_manifest row) in
      if match from with Some s => negb (String.eqb old s) | None => false end then Ok t
      else if negb (status_forward old next) then Err ErrConflict
      else Ok (put_row k (with_status next row) t)
  end.

(** The triggers [artifact_generations_insert_complete] and [..._update_complete]. *)
Definition prior (rows : list FrameRow) (r : FrameRow) : list FrameRow := List.filter (fun p => fw_index p <? fw_index r) rows.

Definition generation_complete (row : ArtifactRow) : bool :=
  let rows := aw_frames row in
  String.eqb (ma_status (aw_manifest row)) "published" && (Z.of_nat (length rows) =? ma_frames (aw_manifest row))
  && (sumZ fw_length rows =? ma_length (aw_manifest row))
  && forallb (fun r => (fw_index r =? Z.of_nat (length (prior rows r))) && (fw_offset r =? sumZ fw_length (prior rows r))) rows.

Definition pointer_ok (k : string * string * Z) (t : ArtifactTables) : bool :=
  match at_rows t !! k with Some row => generation_complete row | None => false end.

Definition set_pointer (a : string * string) (n : Z) (t : ArtifactTables) : ArtifactTables := MkArtifactTables (at_rows t) (<[a := n]> (at_current t)) (at_fences t).

(** Moving the pointer of an artifact to a generation, from [expected]. *)
Definition move_pointer (expected : Z) (m : ArtifactManifest) (t : ArtifactTables) : result vault_error ArtifactTables :=
  let a := (Value (am_Tenant m), Value (am_Artifact m)) in
  if expected =? 0 then
    if bool_decide (is_Some (at_current t !! a)) || negb (pointer_ok (row_key m) t) then Err ErrConflict else Ok (set_pointer a (am_Generation m) t)
  else if negb (db_uint expected) then Err ErrConflict
  else if bool_decide (at_current t !! a = Some expected) then
    if negb (pointer_ok (row_key m) t) then Err ErrConflict else Ok (set_pointer a (am_Generation m) t)
  else Ok t.

(** ** artifact.go *)

Module Durable.
Section operations.
Context (env : StorageEnv).

Definition begin_new (q : ArtifactStageRequest) (locator : string) (t : ArtifactTables) : result vault_error (ArtifactTables * (GenerationRecord * bool)) :=
  let m := sr_Manifest q in
  attempt env SFence (unavailable "reserve artifact fence")
    (if 2 ^ 63 - 1 <=? at_fences t then Err (unavailable "reserve artifact fence")
     else
       let fence := at_fences t + 1 in
       let t := MkArtifactTables (at_rows t) (at_current t) fence in
       attempt env XManifest ErrConflict
         (do t <- insert_manifest m t ;
          attempt env XReservation ErrConflict
            (do t <- insert_reservation m locator fence t ; Ok (t, (MkGeneration m locator [] StatusStaged fence, false))))).

Definition BeginStage (q : ArtifactStageRequest) (locator : string) (t : ArtifactTables) : ArtifactTables * result vault_error (GenerationRecord * bool) :=
  let m := sr_Manifest q in
  if negb (validManifest m) || (sr_ExpectedGeneration q =? 2 ^ 64 - 1) || negb (am_Generation m =? wrapU64 (sr_ExpectedGeneration q + 1)) || negb (validLocator locator)
  then (t, Err ErrInvalid)
  else in_write env t
    (do current <- currentGeneration env (Value (am_Tenant m)) (Value (am_Artifact m)) t ;
     if negb (current =? sr_ExpectedGeneration q) then Err ErrStaleGeneration
     else match loadArtifact env (Value (am_Tenant m)) (Value (am_Artifact m)) (am_Generation m) t with
     | Ok existing =>
         if negb (bool_decide (gr_Manifest existing = m)) then Err ErrConflict
         else if complete existing then Ok (t, (existing, true)) else Err ErrConflict
     | Err ErrNotFound => begin_new q locator t
     | Err e => Err e
     end).

Definition CompleteStage (g : GenerationRecord) (t : ArtifactTables) : ArtifactTables * result vault_error unit :=
  let m := gr_Manifest g in
  if negb (validManifest m) then (t, Err ErrInvalid)
  else if negb (validFrames m (gr_Frames g)) then (t, Err ErrIncomplete)
  else in_write env t
    match loadArtifact env (Value (am_Tenant m)) (Value (am_Artifact m)) (am_Generation m) t with
    | Err _ => Err ErrConflict
    | Ok existing =>
        if negb (gr_Fence existing =? gr_Fence g) || negb (String.eqb (gr_Locator existing) (gr_Locator g))
           || negb (bool_decide (gr_Status existing = StatusStaged)) || negb (bool_decide (gr_Manifest existing = m)) then Err ErrConflict
        else if negb (length (gr_Frames existing) =? 0)%nat then
          if bool_decide (gr_Frames existing = gr_Frames g) then Ok (t, tt) else Err ErrConflict
        else do t <- insert_frames env (row_key m) 0 (gr_Frames g) t ; Ok (t, tt)
    end.

(** The [DELETE] of a manifest: refused while a frame, a tombstone or the current pointer refers to it. *)
Definition delete_manifest (m : ArtifactManifest) (t : ArtifactTables) : result vault_error ArtifactTables :=
  match at_rows t !! row_key m with
  | None => Ok t
  | Some row =>
      if negb (length (aw_frames row) =? 0)%nat || bool_decide (is_Some (aw_tombstone row))
         || bool_decide (at_current t !! (Value (am_Tenant m), Value (am_Artifact m)) = Some (am_Generation m)) then Err (unavailable "abort artifact stage")
      else Ok (MkArtifactTables (delete (row_key m) (at_rows t)) (at_current t) (at_fences t))
  end.

Definition AbortStage (g : GenerationRecord) (t : ArtifactTables) : ArtifactTables * result vault_error unit :=
  let m := gr_Manifest g in
  if negb (validManifest m) || (gr_Fence g =? 0) then (t, Err ErrInvalid)
  else in_write env t
    match loadArtifact env (Value (am_Tenant m)) (Value (am_Artifact m)) (am_Generation m) t with
    | Err ErrNotFound => Ok (t, tt)
    | Err e => Err e
    | Ok existing =>
        if negb (gr_Fence existing =? gr_Fence g) || negb (bool_decide (gr_Status existing = StatusStaged)) || negb (length (gr_Frames existing) =? 0)%nat
        then Err ErrConflict
        else attempt env XDelete (unavailable "abort artifact stage") (do t <- delete_manifest m t ; Ok (t, tt))
    end.

Definition Get (tenant artifact : Identifier) (generation : Z) (t : ArtifactTables) : result vault_error GenerationRecord :=
  if negb (validID tenant "tenant") || negb (validID artifact "artifact") || negb (0 <? generation) then Err ErrInvalid
  else loadArtifact env (Value tenant) (Value artifact) generation t.

Definition Publish (q : ArtifactPublishRequest) (t : ArtifactTables) : ArtifactTables * result vault_error GenerationRecord :=
  let m := pr_Manifest q in
  if negb (validManifest m) || (pr_ExpectedGeneration q =? 2 ^ 64 - 1) || negb (am_Generation m =? wrapU64 (pr_ExpectedGeneration q + 1)) then (t, Err ErrInvalid)
  else in_write env t
    (do current <- currentGeneration env (Value (am_Tenant m)) (Value (am_Artifact m)) t ;
     let loaded := loadArtifact env (Value (am_Tenant m)) (Value (am_Artifact m)) (am_Generation m) t in
     let advance :=
       if negb (current =? pr_ExpectedGeneration q) then Err ErrStaleGeneration
       else match loaded with
       | Err _ => Err ErrIncomplete
       | Ok record =>
           if negb (validFrames (gr_Manifest record) (gr_Frames record)) then Err ErrIncomplete
           else if negb (bool_decide (gr_Manifest record = m)) || negb (bool_decide (gr_Status record = StatusStaged)) then Err ErrConflict
           else attempt env XStatus ErrConflict
             (do t <- update_status (row_key m) (Some "staged") "published" t ;
              attempt env XPointer ErrConflict (do t <- move_pointer (pr_ExpectedGeneration q) m t ; Ok (t, Vault.set_status StatusPublished record)))
       end in
     match loaded with
     | Ok record =>
         if bool_decide (gr_Status record = StatusPublished) && (current =? am_Generation m) then
           if (pr_ExpectedGeneration q =? wrapU64 (am_Generation (gr_Manifest record) - 1)) && bool_decide (gr_Manifest record = m) then Ok (t, record) else Err ErrConflict
         else advance
     | Err _ => advance
     end).

Definition transition (tenant artifact : Identifier) (generation : Z) (allowed : list VaultStatus) (target : VaultStatus) (t : ArtifactTables)
  : ArtifactTables * result vault_error unit :=
  in_write env t
    (do record <- loadArtifact env (Value tenant) (Value artifact) generation t ;
     if negb (existsb (fun s => bool_decide (s = gr_Status record)) allowed) then Err ErrConflict
     else if bool_decide (gr_Status record = target) then Ok (t, tt)
     else attempt env XStatus ErrConflict
       (do t <- update_status (Value tenant, Value artifact, generation) None (status_text target) t ; Ok (t, tt))).

Definition Quarantine (tenant artifact : Identifier) (generation : Z) (reason : string) (t : ArtifactTables) : ArtifactTables * result vault_error unit :=
  if negb (validID tenant "tenant") || negb (validID artifact "artifact") || negb (0 <? generation) || String.eqb reason "" || (128 <? len reason) then (t, Err ErrInvalid)
  else transition tenant artifact generation [StatusStaged; StatusPublished; StatusTombstoned; StatusQuarantined] StatusQuarantined t.

Definition canonicalTombstoneReceipt (record : GenerationRecord) : Receipt :=
  MkReceipt (MkIdentifier "artifact-operation" (encodeComposite [Value (am_Artifact (gr_Manifest record)); dec (am_Generation (gr_Manifest record))]))
    "tombstoned" "OURO-ARTIFACT-TOMBSTONED" (am_Generation (gr_Manifest record)).

Definition loadTombstone (tenant artifact : string) (generation : Z) (t : ArtifactTables) : result vault_error (string * Receipt) :=
  attempt env STombstone (unavailable "read artifact tombstone")
    (if negb (db_uint generation) then Err (unavailable "read artifact tombstone")
     else match at_rows t !! (tenant, artifact, generation) with
     | None => Err ErrNotFound
     | Some row => match aw_tombstone row with None => Err ErrNotFound | Some x => Ok (sx_reason x, sx_receipt x) end
     end).

(** [INSERT INTO artifact_storage_tombstones]. *)
Definition insert_tombstone (k : string * string * Z) (reason : string) (receipt : Receipt) (t : ArtifactTables) : result vault_error ArtifactTables :=
  match at_rows t !! k with
  | None => Err ErrConflict
  | Some row => if bool_decide (is_Some (aw_tombstone row)) then Err ErrConflict else Ok (put_row k (with_tombstone (MkStorageTombstone reason receipt) row) t)
  end.

Definition Tombstone (q : TombstoneRequest) (t : ArtifactTables) : ArtifactTables * result vault_error GenerationRecord :=
  let k := (Value (tr_Tenant q), Value (tr_Artifact q), tr_ExpectedGeneration q) in
  if negb (validID (tr_Tenant q) "tenant") || negb (validID (tr_Artifact q) "artifact") || negb (0 <? tr_ExpectedGeneration q)
     || String.eqb (tr_ReasonCode q) "" || (128 <? len (tr_ReasonCode q)) then (t, Err ErrInvalid)
  else in_write env t
    (do current <- currentGeneration env (Value (tr_Tenant q)) (Value (tr_Artifact q)) t ;
     if negb (current =? tr_ExpectedGeneration q) then Err ErrStaleGeneration
     else
       do record <- loadArtifact env (Value (tr_Tenant q)) (Value (tr_Artifact q)) (tr_ExpectedGeneration q) t ;
       let receipt := canonicalTombstoneReceipt record in
       if bool_decide (gr_Status record = StatusTombstoned) then
         match loadTombstone (Value (tr_Tenant q)) (Value (tr_Artifact q)) (tr_ExpectedGeneration q) t with
         | Ok (reason, persisted) => if String.eqb reason (tr_ReasonCode q) && bool_decide (persisted = receipt) then Ok (t, record) else Err ErrConflict
         | Err _ => Err ErrConflict
         end
       else if negb (bool_decide (gr_Status record = StatusPublished)) then Err ErrConflict
       else attempt env XStatus ErrConflict
         (do t <- update_status k (Some "published") "tombstoned" t ;
          attempt env XStorageTombstone ErrConflict
            (do t <- insert_tombstone k (tr_ReasonCode q) receipt t ; Ok (t, Vault.set_status StatusTombstoned record)))).

Definition PreparePurge (q : PurgeRequest) (generation : Z) (t : ArtifactTables) : result vault_error GenerationRecord :=
  if negb (validID (pu_Tenant q) "tenant") || negb (validID (pu_Artifact q) "artifact") || negb (0 <? generation) || negb (0 <? pu_KeyEpoch q) then Err ErrInvalid
  else match loadArtifact env (Value (pu_Tenant q)) (Value (pu_Artifact q)) generation t with
  | Err _ => Err ErrTombstoned
  | Ok record =>
      if negb (am_KeyEpoch (gr_Manifest record) =? pu_KeyEpoch q)
         || (negb (bool_decide (gr_Status record = StatusTombstoned)) && negb (bool_decide (gr_Status record = StatusPurged))) then Err ErrTombstoned
      else match loadTombstone (Value (pu_Tenant q)) (Value (pu_Artifact q)) generation t with
      | Err _ => Err ErrTombstoned
      | Ok (_, receipt) =>
          if bool_decide (receipt = pu_TombstoneReceipt q) && bool_decide (receipt = canonicalTombstoneReceipt record) then Ok record else Err ErrTombstoned
      end
  end.

Definition CompletePurge (g : GenerationRecord) (t : ArtifactTables) : ArtifactTables * result vault_error unit :=
  let m := gr_Manifest g in
  if negb (validManifest m) || (gr_Fence g =? 0) then (t, Err ErrInvalid)
  else in_write env t
    match loadArtifact env (Value (am_Tenant m)) (Value (am_Artifact m)) (am_Generation m) t with
    | Err _ => Err ErrConflict
    | Ok existing =>
        if negb (gr_Fence existing =? gr_Fence g) then Err ErrConflict
        else if bool_decide (gr_Status existing = StatusPurged) then Ok (t, tt)
        else if negb (bool_decide (gr_Status existing = StatusTombstoned)) then Err ErrConflict
        else attempt env XStatus ErrConflict (do t <- update_status (row_key m) (Some "tombstoned") "purged" t ; Ok (t, tt))
    end.
End operations.
End Durable.
