(* ===== verification/StorageEffects.v ===== *)
(** * localstorage: the effect of each operation of the durable repository

    What a row reads as ([holds]: what [loadArtifact] answers when no statement
    fails) and how each statement changes it.  An operation that fails leaves the tables as they were; one that succeeds
    makes at most one [change].  [sound] is the invariant of the tables: every
    row can be read, the pointers and fences are in order. *)

From Stdlib Require Import Ascii String.
From S2P Require Import Prelude GoString Float64 Runtime Contracts SqlTable AuthorityLedger Composite Vault StorageRules Storage.
From stdpp Require Import gmap strings.
Open Scope string_scope.
Open Scope Z_scope.

(** ** Rows and the records they hold *)

#[global] Arguments loadArtifact : simpl never.
#[global] Arguments currentGeneration : simpl never.

Definition calm : StorageEnv := MkStorageEnv (fun _ => false).

Definition row_manifest (tenant artifact : string) (generation : Z) (row : ArtifactRow) : ArtifactManifest :=
  MkArtifactManifest (MkIdentifier "artifact" artifact) (MkIdentifier "tenant" tenant) (MkDigest "sha256" (ma_digest (aw_manifest row))) generation
    (ma_epoch (aw_manifest row)) (ma_length (aw_manifest row)) (ma_frames (aw_manifest row)).

(** The tables hold [g] under a key. *)
Record holds (k : string * string * Z) (row : ArtifactRow) (g : GenerationRecord) : Prop := {
  hold_manifest : gr_Manifest g = row_manifest (fst (fst k)) (snd (fst k)) (snd k) row;
  hold_bound : db_uint (snd k) = true;
  hold_valid : validManifest (gr_Manifest g) = true;
  hold_locator : validLocator (gr_Locator g) = true;
  hold_fence : 0 < gr_Fence g;
  hold_reservation : aw_reservation row = Some (gr_Locator g, gr_Fence g);
  hold_status : ma_status (aw_manifest row) = status_text (gr_Status g);
  hold_frames : scan_frames (Z.to_nat (ma_frames (aw_manifest row))) (sort_by by_index (aw_frames row)) = Ok (gr_Frames g);
  hold_valid_frames : gr_Frames g = [] \/ validFrames (gr_Manifest g) (gr_Frames g) = true
}.

Lemma status_of_status s : status_of_text (status_text s) = Some s.
Proof. by destruct s. Qed.

Lemma status_of_text_Some x s : status_of_text x = Some s -> x = status_text s.
Proof. unfold status_of_text. intros Hf. by apply find_some in Hf as [_ <-%String.eqb_eq]. Qed.

Lemma attempt_Ok {A} env q e (k : result vault_error A) a : attempt env q e k = Ok a -> k = Ok a.
Proof. unfold attempt, fail_if. by destruct (sv_fault env q). Qed.

(** What a load that succeeds has found. *)
Lemma load_Ok env te ar n t g :
  loadArtifact env te ar n t = Ok g -> exists row, at_rows t !! (te, ar, n) = Some row /\ holds (te, ar, n) row g.
Proof.
  unfold loadArtifact. intros Hl%attempt_Ok. destruct (db_uint n) eqn:Hn; cbn [negb] in Hl; [|done]. destruct (at_rows t !! (te, ar, n)) as [row|]; [|done]. exists row. split; [done|].
  destruct (aw_reservation row) as [[locator fence]|] eqn:Er; [|done]. destruct (_ || negb (validLocator locator)) eqn:Ec; [done|]. bool_prop.
  fold (row_manifest te ar n row) in Hl. destruct (status_of_text _) as [status|] eqn:Es; [|done]. apply status_of_text_Some in Es.
  destruct (validManifest (row_manifest te ar n row)) eqn:Hv; cbn [negb] in Hl; [|done]. apply attempt_Ok in Hl.
  destruct (scan_frames _ _) as [frames|] eqn:Ef; cbn [rbind] in Hl; [|done]. destruct (_ && _) eqn:Efr; [done|]. injection Hl as <-.
  constructor; cbn; try done. apply andb_false_iff in Efr as [E|E]; apply negb_false_iff in E; [left|by right]. by apply nil_length_inv, Nat.eqb_eq.
Qed.

(** What is held can be loaded, unless a statement fails. *)
Lemma load_holds env te ar n t row g :
  sv_fault env SManifest = false -> sv_fault env SFrames = false -> at_rows t !! (te, ar, n) = Some row -> holds (te, ar, n) row g -> loadArtifact env te ar n t = Ok g.
Proof.
  intros F1 F2 Hr [Hm Hb Hv Hl Hf Hres Hs Hfr Hvf]. cbn in Hm, Hb. unfold loadArtifact, attempt, fail_if. rewrite F1, Hb, Hr, Hres. cbn [negb].
  fold (row_manifest te ar n row). rewrite Hs, status_of_status, F2, <- Hm, Hv, Hl, Hfr. pose proof Hv as Hv'. rewrite Hm in Hv'. apply validManifest_spec in Hv' as (_ & _ & _ & _ & He & Hlen & Hfc).
  cbn in He, Hlen, Hfc. rewrite !(proj2 (Z.leb_gt _ _)), (proj2 (Z.ltb_ge _ _)) by lia. cbn [negb orb rbind].
  destruct g as [m l fs s f]. cbn in *. destruct Hvf as [-> |Hvf]; [done|]. rewrite Hvf. by rewrite andb_false_r.
Qed.

Lemma load_calm_iff te ar n t g : loadArtifact calm te ar n t = Ok g <-> exists row, at_rows t !! (te, ar, n) = Some row /\ holds (te, ar, n) row g.
Proof. split; [apply load_Ok|]. intros (row & Hr & Hh). by eapply load_holds. Qed.

(** Nothing is held where a load does not find anything. *)
Lemma load_NotFound env te ar n t : 
  loadArtifact env te ar n t = Err ErrNotFound ->
  db_uint n = true /\ (at_rows t !! (te, ar, n) = None \/ exists row, at_rows t !! (te, ar, n) = Some row /\ aw_reservation row = None).
Proof.
  unfold loadArtifact, attempt, fail_if. destruct (sv_fault env SManifest); [done|]. destruct (db_uint n); cbn [negb]; [|done]. intros Hl. split; [done|]. revert Hl. destruct (at_rows t !! (te, ar, n)) as [row|]; [|by left].
  destruct (aw_reservation row) as [[locator fence]|] eqn:Er; [|right; by exists row]. destruct (_ || negb (validLocator locator)); [done|].
  destruct (status_of_text _); [|done]. destruct (negb _); [done|]. destruct (sv_fault env SFrames); [done|].
  assert (forall room rows, scan_frames room rows <> Err ErrNotFound) as Hscan.
  { induction room as [|room IH]; intros [|r rows]; cbn; try done; destruct (_ || _); try done. specialize (IH rows). destruct (scan_frames room rows); [done|]. cbn. congruence. }
  specialize (Hscan (Z.to_nat (ma_frames (aw_manifest row))) (sort_by by_index (aw_frames row))). destruct (scan_frames _ _) as [fs|e]; cbn; [by destruct (_ && _)|congruence].
Qed.

Lemma holds_unique k row g g' : holds k row g -> holds k row g' -> g = g'.
Proof.
  intros [Hm Hb Hv Hl Hf Hr Hs Hfr Hvf] [Hm' Hb' Hv' Hl' Hf' Hr' Hs' Hfr' Hvf']. destruct g as [m l fs s f], g' as [m' l' fs' s' f']. cbn in *.
  rewrite Hr in Hr'. injection Hr' as <- <-. rewrite Hfr in Hfr'. injection Hfr' as <-. assert (s = s') as <-; [|congruence].
  rewrite Hs in Hs'. apply (f_equal status_of_text) in Hs'. rewrite !status_of_status in Hs'. congruence.
Qed.

(** ** Changes of a row *)

Lemma holds_with_status k row g s : holds k row g -> holds k (with_status (status_text s) row) (Vault.set_status s g).
Proof. intros []. by constructor. Qed.

Lemma holds_with_tombstone k row g x : holds k row g -> holds k (with_tombstone x row) g.
Proof. intros []. by constructor. Qed.

Definition frame_row (f : FrameRecord) : FrameRow := MkFrameRow (fr_Index f) (fr_Offset f) (fr_Length f) (Hex (fr_ObjectDigest f)).

Lemma put_put_row k row row' t : put_row k row' (put_row k row t) = put_row k row' t.
Proof. unfold put_row. cbn. by rewrite insert_insert_eq. Qed.

Lemma put_row_id k row t : at_rows t !! k = Some row -> put_row k row t = t.
Proof. intros Hr. unfold put_row. rewrite insert_id by done. by destruct t. Qed.

Lemma insert_frames_rows env k i fs t t' row :
  at_rows t !! k = Some row -> insert_frames env k i fs t = Ok t' -> t' = put_row k (with_frames (aw_frames row ++ (frame_row <$> fs)) row) t.
Proof.
  revert i t row. induction fs as [|f fs IH]; intros i t row Hr; cbn [insert_frames].
  - intros [= <-]. cbn. rewrite app_nil_r. symmetry. apply put_row_id. destruct row. done.
  - intros Ha%attempt_Ok. unfold insert_frame in Ha. rewrite Hr in Ha. destruct (_ || _); cbn [rbind] in Ha; [done|].
    apply (IH _ _ (with_frames (aw_frames row ++ [frame_row f]) row)) in Ha; [|cbn; by rewrite lookup_insert_eq].
    subst t'. unfold frame_row at 1. rewrite put_put_row. cbn. by rewrite <- app_assoc.
Qed.

(** The frames of a valid list: numbered from [index], laid end to end, within the limits. *)
Lemma frames_from_exact index offset fs last_ :
  0 <= offset -> offset + Z.of_nat (length fs) * maxFrameBytes < 2 ^ 63 -> frames_from index offset fs = Some last_ ->
  last_ = offset + sumZ fr_Length fs /\
  forall i f, fs !! i = Some f -> fr_Index f = index + Z.of_nat i /\ fr_Offset f = offset + sumZ fr_Length (take i fs) /\ 0 < fr_Length f <= maxFrameBytes /\
    validDigest (fr_ObjectDigest f) = true.
Proof.
  revert index offset. induction fs as [|f0 fs IH]; intros index offset Ho Hb; cbn [frames_from]; [intros [= <-]; cbn; split; [lia|done]|].
  destruct (_ || _) eqn:E; [done|]. bool_prop. cbn [length] in Hb. unfold maxFrameBytes in *. unfold wrapU64. rewrite Z.mod_small by lia. intros Hf.
  apply IH in Hf as [-> Hi]; [|lia|lia]. cbn [sumZ]. split; [lia|]. intros [|i] f; cbn; [intros [= <-]; split_and!; lia || done|]. intros (A & B & C & D)%Hi. split_and!; lia || done.
Qed.

Lemma scan_frames_rows room fs :
  (length fs <= room)%nat -> (forall f, f ∈ fs -> 0 <= fr_Index f < 2 ^ 32 /\ 0 <= fr_Offset f /\ 0 < fr_Length f < 2 ^ 32 /\ validDigest (fr_ObjectDigest f) = true) ->
  scan_frames room (frame_row <$> fs) = Ok fs.
Proof.
  revert room. induction fs as [|f fs IH]; intros room Hl Hf; [by destruct room|]. destruct (Hf f) as (A & B & C & D); [by left|]. destruct room as [|room]; cbn in Hl; [lia|].
  cbn [fmap list_fmap scan_frames]. cbn [frame_row fw_index fw_offset fw_length fw_digest].
  rewrite !(proj2 (Z.ltb_ge _ _)), (proj2 (Z.leb_gt _ _)) by lia. cbn [orb]. change (list_fmap _ _ frame_row fs) with (frame_row <$> fs).
  rewrite IH by (lia || (intros f' Hf'; apply Hf; by right)). cbn [rbind]. rewrite validDigest_eta by done. by destruct f.
Qed.

Lemma rows_sorted fs index :
  (forall i f, fs !! i = Some f -> fr_Index f = index + Z.of_nat i) -> StronglySorted (not_after by_index) (frame_row <$> fs).
Proof.
  revert index. induction fs as [|f fs IH]; intros index Hi; [constructor|]. cbn. constructor.
  - apply (IH (index + 1)). intros i f' Hf'. rewrite (Hi (S i) f') by done. lia.
  - apply Forall_fmap, Forall_forall. intros f' (i & Hf')%list_elem_of_lookup_1. unfold not_after, by_index, on_key. cbn. apply Z.ltb_ge.
    pose proof (Hi 0%nat f eq_refl). pose proof (Hi (S i) f' Hf'). lia.
Qed.

(** The rules on frames in one place. *)
Lemma validFrames_spec m fs :
  validManifest m = true -> validFrames m fs = true ->
  length fs = Z.to_nat (am_FrameCount m) /\ sumZ fr_Length fs = am_Length m /\
  (forall i f, fs !! i = Some f -> fr_Index f = Z.of_nat i /\ fr_Offset f = sumZ fr_Length (take i fs)) /\
  (forall f, f ∈ fs -> 0 <= fr_Index f < 2 ^ 32 /\ 0 <= fr_Offset f < 2 ^ 63 /\ 0 < fr_Length f <= 16777216 /\ validDigest (fr_ObjectDigest f) = true).
Proof.
  intros (_ & _ & _ & _ & _ & Hl & Hc)%validManifest_spec Hf. pose proof (validFrames_complete _ _ Hf) as Hn. unfold validFrames in Hf. destruct (negb _); [done|].
  destruct (frames_from 0 0 fs) as [last_|] eqn:E; [|done]. bool_prop. unfold maxFrameCount in Hc.
  apply frames_from_exact in E as [-> Hi]; [|lia|unfold maxFrameBytes; lia]. rewrite Z.add_0_l in *. split_and!; [lia|done| |].
  - intros i f (A & B & _)%Hi. split; lia.
  - intros f (i & Hif)%list_elem_of_lookup_1. destruct (Hi i f Hif) as (A & B & C & D). pose proof (lookup_lt_Some _ _ _ Hif).
    assert (sumZ fr_Length fs = sumZ fr_Length (take i fs) + sumZ fr_Length (drop i fs)) as Hs by (by rewrite <- sumZ_app, take_drop).
    assert (forall l, (forall f, f ∈ l -> f ∈ fs) -> 0 <= sumZ fr_Length l) as Hpos.
    { intros l Hsub. apply sumZ_nonneg. intros f' (j & Hj)%Hsub%list_elem_of_lookup_1. destruct (Hi j f' Hj) as (_ & _ & ? & _). lia. }
    pose proof (Hpos (take i fs) (fun f' => subseteq_take i fs f')). pose proof (Hpos (drop i fs) (fun f' => subseteq_drop i fs f')).
    unfold maxFrameBytes, maxArtifactBytes in *. split_and!; lia || done.
Qed.

Lemma holds_no_frames k row g : holds k row g -> gr_Frames g = [] -> aw_frames row = [].
Proof.
  intros Hh E. pose proof (hold_frames _ _ _ Hh) as Hs. rewrite E in Hs. assert (sort_by by_index (aw_frames row) = []) as Hn.
  { destruct (sort_by by_index (aw_frames row)) as [|r rows]; [done|]. destruct (Z.to_nat _); cbn [scan_frames] in Hs; destruct (_ || _); try done. by destruct (scan_frames n rows). }
  apply nil_length_inv. by rewrite <- (length_sort_by by_index), Hn.
Qed.

Lemma frames_read_back m fs : validManifest m = true -> validFrames m fs = true -> scan_frames (Z.to_nat (am_FrameCount m)) (sort_by by_index (frame_row <$> fs)) = Ok fs.
Proof.
  intros Hv Hf. destruct (validFrames_spec _ _ Hv Hf) as (Hl & _ & Hi & Hb). rewrite sort_by_id.
  - apply scan_frames_rows; [lia|]. intros f Hin. destruct (Hb f Hin) as (A & B & C & D). split_and!; lia || done.
  - apply (rows_sorted fs 0). intros i f Hif. destruct (Hi i f Hif). lia.
Qed.

Lemma holds_with_frames k row g fs :
  holds k row g -> validFrames (gr_Manifest g) fs = true -> holds k (with_frames (frame_row <$> fs) row) (set_frames fs g).
Proof.
  intros [Hm Hb Hv Hl Hf Hr Hs Hfr Hvf] Hfs. constructor; try done; cbn; [|by right]. pose proof (frames_read_back _ _ Hv Hfs) as Hsc. rewrite Hm in Hsc at 1. exact Hsc.
Qed.

Lemma scanned_rows room rows fs : scan_frames room rows = Ok fs -> rows = frame_row <$> fs.
Proof.
  revert rows fs. induction room as [|room IH]; intros [|r rows] fs; cbn [scan_frames]; try (by intros [= <-]); destruct (_ || _); try done.
  destruct (scan_frames room rows) as [fs'|] eqn:E; [|done]. intros [= <-]. cbn. rewrite (IH rows fs' E). by destruct r.
Qed.

(** A staged row takes the frames of a valid list. *)
Lemma insert_frames_ok env k row fs m t :
  (forall i, sv_fault env (XFrame i) = false) -> at_rows t !! k = Some row -> ma_status (aw_manifest row) = "staged" -> aw_frames row = [] ->
  validManifest m = true -> validFrames m fs = true -> exists t', insert_frames env k 0 fs t = Ok t'.
Proof.
  intros Hq Hr Hs Hn Hv Hf. destruct (validFrames_spec _ _ Hv Hf) as (_ & _ & Hi & Hb).
  assert (forall (done_ fs' : list FrameRecord) i t row, (done_ ++ fs')%list = fs -> aw_frames row = frame_row <$> done_ -> ma_status (aw_manifest row) = "staged" -> at_rows t !! k = Some row ->
    exists t', insert_frames env k i fs' t = Ok t') as Hloop; [|by apply (Hloop [] fs 0%nat t row)].
  clear t row Hr Hs Hn. intros done_ fs'. revert done_. induction fs' as [|f fs' IH]; intros done_ i t row Happ Hrow Hs Hr; cbn [insert_frames]; [eauto|].
  unfold attempt, fail_if. rewrite Hq. unfold insert_frame. rewrite Hr, Hs. destruct (Hb f) as (A & B & C & D); [subst fs; set_solver|].
  assert (existsb (fun r => fw_index r =? fr_Index f) (aw_frames row) = false) as ->.
  { apply existsb_false_iff. intros r. rewrite Hrow. intros (f' & -> & (j & Hj)%list_elem_of_lookup_1)%list_elem_of_fmap. cbn. apply Z.eqb_neq.
    pose proof (lookup_lt_Some _ _ _ Hj). destruct (Hi j f') as [-> _]; [subst fs; by apply lookup_app_l_Some|].
    destruct (Hi (length done_) f) as [-> _]; [subst fs; by apply list_lookup_middle|]. lia. }
  rewrite !(proj2 (Z.ltb_ge _ _)), (proj2 (Z.leb_gt _ _)) by lia. unfold db_uint. rewrite (proj2 (Z.ltb_lt _ _)) by lia. cbn [negb orb one_of existsb String.eqb Ascii.eqb Bool.eqb rbind].
  eapply (IH (done_ ++ [f])%list _ _ (with_frames (aw_frames row ++ [frame_row f])%list row)); [by rewrite <- app_assoc| |exact Hs|cbn; by rewrite lookup_insert_eq].
  cbn. rewrite Hrow, fmap_app. done.
Qed.

(** A published row with a valid list of frames satisfies the trigger on the current pointer. *)
Lemma sumZ_fmap_rows fs : sumZ fw_length (frame_row <$> fs) = sumZ fr_Length fs.
Proof. induction fs as [|f fs IH]; [done|]. cbn in *. by rewrite IH. Qed.

Lemma prior_rows fs i f :
  (forall j f, fs !! j = Some f -> fr_Index f = Z.of_nat j) -> fs !! i = Some f -> prior (frame_row <$> fs) (frame_row f) = frame_row <$> take i fs.
Proof.
  intros Hi Hf. unfold prior. rewrite <- (take_drop i fs) at 1. rewrite fmap_app, List.filter_app. cbn [frame_row fw_index]. rewrite (Hi i f Hf).
  rewrite (filter_none _ (frame_row <$> drop i fs)).
  - rewrite app_nil_r. assert (forall l : list FrameRow, Forall (fun r => (fw_index r <? Z.of_nat i) = true) l -> List.filter (fun r => fw_index r <? Z.of_nat i) l = l) as Hall.
    { induction 1 as [|r l Hr _ IH]; [done|]. cbn. by rewrite Hr, IH. }
    apply Hall, Forall_fmap, Forall_forall. intros f' (j & Hj & Hlt)%elem_of_take. cbn. rewrite (Hi j f' Hj). apply Z.ltb_lt. lia.
  - apply Forall_fmap, Forall_forall. intros f' (j & Hj)%list_elem_of_lookup_1. rewrite lookup_drop in Hj. cbn. rewrite (Hi _ f' Hj). apply Z.ltb_ge. lia.
Qed.

Lemma holds_complete k row g :
  holds k row g -> aw_frames row = frame_row <$> gr_Frames g -> gr_Status g = StatusPublished -> validFrames (gr_Manifest g) (gr_Frames g) = true -> generation_complete row = true.
Proof.
  intros [Hm Hb Hv Hl Hf Hr Hs Hfr Hvf] Hrows Hst Hvalid. destruct (validFrames_spec _ _ Hv Hvalid) as (Hlen & Hsum & Hi & Hbnd). rewrite Hm in Hlen, Hsum. cbn in Hlen, Hsum.
  apply validManifest_spec in Hv as (_ & _ & _ & _ & _ & _ & Hc). rewrite Hm in Hc. cbn in Hc.
  unfold generation_complete. rewrite Hs, Hst, Hrows, length_fmap, sumZ_fmap_rows, Hsum, Hlen, Z2Nat.id, !Z.eqb_refl by lia. cbn [status_text String.eqb Ascii.eqb Bool.eqb andb].
  apply forallb_forall. intros r Hin%list_elem_of_In. apply list_elem_of_fmap in Hin as (f & -> & (i & Hif)%list_elem_of_lookup_1).
  pose proof (lookup_lt_Some _ _ _ Hif). rewrite (prior_rows _ i) by (done || (intros j f' Hj; by apply Hi)). rewrite length_fmap, sumZ_fmap_rows, length_take, Nat.min_l by lia.
  destruct (Hi i f Hif) as [E1 E2]. cbn. by rewrite E1, E2, !Z.eqb_refl.
Qed.

Abbreviation row_of t k := (at_rows t !! k).

(** The record under a key, when the tables have one. *)
Definition stored (t : ArtifactTables) (k : string * string * Z) (g : GenerationRecord) : Prop := exists row, row_of t k = Some row /\ holds k row g.

Lemma load_stored env te ar n t g : loadArtifact env te ar n t = Ok g -> stored t (te, ar, n) g.
Proof. apply load_Ok. Qed.

Lemma stored_unique t k g g' : stored t k g -> stored t k g' -> g = g'.
Proof. intros (row & Hr & Hh) (row' & Hr' & Hh'). rewrite Hr in Hr'. injection Hr' as <-. by eapply holds_unique. Qed.

Lemma stored_key t k g : stored t k g -> k = row_key (gr_Manifest g).
Proof. intros (row & _ & Hh). destruct k as [[te ar] n]. by rewrite (hold_manifest _ _ _ Hh). Qed.

(** ** Changes *)

Definition pointer (t : ArtifactTables) (a : string * string) : Z := default 0 (at_current t !! a).
Definition artifact_key (m : ArtifactManifest) : string * string := (Value (am_Tenant m), Value (am_Artifact m)).

(** How a record is denied; a deletion of the authority ledger may tombstone and purge at once. *)
Definition denies (s s' : VaultStatus) : Prop :=
  s' = StatusQuarantined /\ s <> StatusPurged \/ s' = StatusPurged /\ s = StatusTombstoned \/ (s' = StatusTombstoned \/ s' = StatusPurged) /\ s = StatusPublished.

Inductive change (t : ArtifactTables) : ArtifactTables -> Prop :=
| change_none : change t t
| change_begin g row :
    row_of t (row_key (gr_Manifest g)) = None -> holds (row_key (gr_Manifest g)) row g -> aw_frames row = [] -> aw_tombstone row = None -> gr_Status g = StatusStaged ->
    am_Generation (gr_Manifest g) = wrapU64 (pointer t (artifact_key (gr_Manifest g)) + 1) -> gr_Fence g = at_fences t + 1 ->
    change t (put_row (row_key (gr_Manifest g)) row (MkArtifactTables (at_rows t) (at_current t) (at_fences t + 1)))
| change_frames k row g fs :
    row_of t k = Some row -> holds k row g -> gr_Frames g = [] -> gr_Status g = StatusStaged -> validFrames (gr_Manifest g) fs = true ->
    change t (put_row k (with_frames (frame_row <$> fs) row) t)
| change_delete k row g :
    row_of t k = Some row -> holds k row g -> gr_Status g = StatusStaged -> gr_Frames g = [] -> at_current t !! artifact_key (gr_Manifest g) <> Some (am_Generation (gr_Manifest g)) ->
    change t (MkArtifactTables (delete k (at_rows t)) (at_current t) (at_fences t))
| change_publish k row g :
    row_of t k = Some row -> holds k row g -> gr_Status g = StatusStaged -> validFrames (gr_Manifest g) (gr_Frames g) = true ->
    am_Generation (gr_Manifest g) = wrapU64 (pointer t (artifact_key (gr_Manifest g)) + 1) ->
    change t (set_pointer (artifact_key (gr_Manifest g)) (am_Generation (gr_Manifest g)) (put_row k (with_status "published" row) t))
| change_deny k row g s :
    row_of t k = Some row -> holds k row g -> denies (gr_Status g) s ->
    change t (put_row k (with_status (status_text s) row) t)
| change_tombstone k row g x :
    row_of t k = Some row -> holds k row g -> gr_Status g = StatusPublished -> change t (put_row k (with_tombstone x (with_status "tombstoned" row)) t).

(** ** What each operation does *)

Lemma in_write_spec {A} env t (body : result vault_error (ArtifactTables * A)) t' res :
  in_write env t body = (t', res) -> match res with Ok a => body = Ok (t', a) | Err _ => t' = t end.
Proof.
  unfold in_write. destruct (sv_fault env SBegin); [by intros [= <- <-]|]. destruct body as [[t1 a]|e]; [|by intros [= <- <-]].
  destruct (sv_fault env SCommit); by intros [= <- <-].
Qed.

Lemma current_Ok env te ar t n : currentGeneration env te ar t = Ok n -> pointer t (te, ar) = n.
Proof. unfold currentGeneration, pointer. intros Hc%attempt_Ok. destruct (at_current t !! (te, ar)) as [p|]; [destruct (p <=? 0); [done|]|]; injection Hc as <-; done. Qed.

Lemma load_none env te ar n t : loadArtifact env te ar n t = Err ErrNotFound -> forall g, ~ stored t (te, ar, n) g.
Proof.
  intros [_ [Hn|(row & Hr & Hn)]]%load_NotFound g (row' & Hr' & Hh); [congruence|]. rewrite Hr in Hr'. injection Hr' as <-. rewrite (hold_reservation _ _ _ Hh) in Hn. done.
Qed.

Ltac bindo H x E := match type of H with context [rbind _ ?c] => destruct c as [x|] eqn:E; cbn [rbind] in H; [|done] end.

Lemma begin_spec env q locator t t' res :
  Durable.BeginStage env q locator t = (t', res) -> let m := sr_Manifest q in
  match res with
  | Err _ => t' = t
  | Ok (g, true) => t' = t /\ stored t (row_key m) g /\ gr_Manifest g = m /\ complete g = true /\ pointer t (artifact_key m) = sr_ExpectedGeneration q /\ am_Generation m = wrapU64 (sr_ExpectedGeneration q + 1)
  | Ok (g, false) => validManifest m = true /\ g = MkGeneration m locator [] StatusStaged (at_fences t + 1) /\ (forall g', ~ stored t (row_key m) g') /\
      pointer t (artifact_key m) = sr_ExpectedGeneration q /\ am_Generation m = wrapU64 (sr_ExpectedGeneration q + 1) /\ sr_ExpectedGeneration q <> 2 ^ 64 - 1 /\
      exists row, holds (row_key m) row g /\ aw_frames row = [] /\ aw_tombstone row = None /\ row_of t (row_key m) = None /\
        t' = put_row (row_key m) row (MkArtifactTables (at_rows t) (at_current t) (at_fences t + 1))
  end.
Proof.
  intros Hb. cbv zeta. set (m := sr_Manifest q). unfold Durable.BeginStage in Hb. fold m in Hb. destruct (_ || _) eqn:Ev; [by injection Hb as <- <-|]. bool_prop.
  apply in_write_spec in Hb. destruct res as [[g dup]|e]; [|done]. bindo Hb cur Ecur. apply current_Ok in Ecur. destruct (cur =? sr_ExpectedGeneration q) eqn:Ec; cbn [negb] in Hb; [|done]. bool_prop.
  destruct (loadArtifact _ _ _ _ _) as [ex|e] eqn:El.
  - destruct (bool_decide _) eqn:Em; cbn [negb] in Hb; [|done]. bool_prop. destruct (complete ex) eqn:Ecm; [|done]. injection Hb as <- <- <-. apply load_stored in El. split_and!; [done|done|done|done|unfold artifact_key; congruence|done].
  - destruct e; try done. unfold Durable.begin_new in Hb. fold m in Hb. apply attempt_Ok in Hb. destruct (2 ^ 63 - 1 <=? at_fences t) eqn:Ef; [done|]. apply attempt_Ok in Hb.
    unfold insert_manifest in Hb. destruct (_ || _) eqn:Eins; cbn [rbind] in Hb; [done|]. apply orb_false_iff in Eins as [Eok Enone]. apply attempt_Ok in Hb. apply bool_decide_eq_false in Enone. cbn [at_rows] in Enone.
    unfold insert_reservation in Hb. cbn [put_row at_rows] in Hb. rewrite lookup_insert_eq in Hb. destruct (_ || _) eqn:Eres; cbn [rbind] in Hb; [done|]. injection Hb as <- <- <-.
    apply orb_false_iff in Eres as [[_ Efp]%orb_false_iff _]. bool_prop. assert (row_of t (row_key m) = None) as Hrow by (by apply eq_None_not_Some).
    split_and!; [done|done|by apply (load_none _ _ _ _ _ El)|unfold artifact_key; congruence|done|done|].
    exists (MkArtifactRow (MkManifest (Hex (am_Digest m)) (am_Length m) (am_FrameCount m) (am_KeyEpoch m) "staged") (Some (locator, at_fences t + 1)) [] None).
    split_and!; [|done|done|done|unfold put_row; cbn; by rewrite insert_insert_eq].
    unfold manifest_row_ok in Eok. bool_prop. match goal with E : validManifest m = true |- _ => pose proof E as Hv; apply validManifest_spec in E as (Ht & Ha & Hd & _) end.
    constructor; cbn; try done; [|by destruct (Z.to_nat _)|by left]. unfold row_manifest. cbn. rewrite validID_eta, validID_eta, validDigest_eta by done. by destruct m.
Qed.

Lemma complete_spec env g t t' res :
  Durable.CompleteStage env g t = (t', res) ->
  match res with
  | Err _ => t' = t
  | Ok _ => validManifest (gr_Manifest g) = true /\ validFrames (gr_Manifest g) (gr_Frames g) = true /\
      exists ex row, row_of t (row_key (gr_Manifest g)) = Some row /\ holds (row_key (gr_Manifest g)) row ex /\ gr_Manifest ex = gr_Manifest g /\ gr_Fence ex = gr_Fence g /\ gr_Status ex = StatusStaged /\
        (t' = t /\ gr_Frames ex = gr_Frames g \/ gr_Frames ex = [] /\ t' = put_row (row_key (gr_Manifest g)) (with_frames (frame_row <$> gr_Frames g) row) t)
  end.
Proof.
  intros Hc. unfold Durable.CompleteStage in Hc. destruct (validManifest _) eqn:Hv; cbn [negb] in Hc; [|by injection Hc as <- <-].
  destruct (validFrames _ _) eqn:Hf; cbn [negb] in Hc; [|by injection Hc as <- <-]. apply in_write_spec in Hc. destruct res as [[]|e]; [|done]. split_and!; [done|done|].
  destruct (loadArtifact _ _ _ _ _) as [ex|e] eqn:El; [|done]. destruct (_ || _) eqn:Eq; [done|]. bool_prop. apply load_Ok in El as (row & Hr & Hh).
  exists ex, row. split_and!; [done|done|done|done|done|]. destruct (length (gr_Frames ex) =? 0)%nat eqn:En; cbn [negb] in Hc.
  - right. apply Nat.eqb_eq, nil_length_inv in En. split; [done|]. bindo Hc t1 Ei. injection Hc as <-. apply (insert_frames_rows _ _ _ _ _ _ row) in Ei; [|done].
    by rewrite (holds_no_frames _ _ _ Hh En) in Ei.
  - left. destruct (bool_decide _) eqn:Ed; [|done]. bool_prop. by injection Hc as <-.
Qed.

Lemma abort_spec env g t t' res :
  Durable.AbortStage env g t = (t', res) ->
  match res with
  | Err _ => t' = t
  | Ok _ => validManifest (gr_Manifest g) = true /\ am_Generation (gr_Manifest g) < 2 ^ 63 /\
     (t' = t /\ (forall g', ~ stored t (row_key (gr_Manifest g)) g') \/
      exists ex row, row_of t (row_key (gr_Manifest g)) = Some row /\ holds (row_key (gr_Manifest g)) row ex /\ gr_Fence ex = gr_Fence g /\ gr_Status ex = StatusStaged /\ gr_Frames ex = [] /\
        at_current t !! artifact_key (gr_Manifest g) <> Some (am_Generation (gr_Manifest g)) /\ t' = MkArtifactTables (delete (row_key (gr_Manifest g)) (at_rows t)) (at_current t) (at_fences t))
  end.
Proof.
  intros Hc. unfold Durable.AbortStage in Hc. destruct (_ || _) eqn:Ev; [by injection Hc as <- <-|]. bool_prop. apply in_write_spec in Hc. destruct res as [[]|e]; [|done].
  destruct (loadArtifact _ _ _ _ _) as [ex|[]] eqn:El; try done.
  2: { pose proof (load_none _ _ _ _ _ El) as Hn. apply load_NotFound in El as [Hb _]. unfold db_uint in Hb. bool_prop. split_and!; [done|done|]. left. by injection Hc as <-. }
  destruct (_ || _) eqn:Eq; [done|]. apply orb_false_iff in Eq as [Eq En]. bool_prop. apply Nat.eqb_eq, nil_length_inv in En. apply load_Ok in El as (row & Hr & Hh). pose proof (hold_bound _ _ _ Hh) as Hb. unfold db_uint in Hb. cbn in Hb. bool_prop. split_and!; [done|done|]. right.
  apply attempt_Ok in Hc. unfold Durable.delete_manifest, row_key in Hc. rewrite Hr in Hc. destruct (_ || _) eqn:Ed; cbn [rbind] in Hc; [done|]. apply orb_false_iff in Ed as [_ Ed]. bool_prop. injection Hc as <-.
  by exists ex, row.
Qed.

(** An update of the status of a stored record. *)
Lemma update_status_Ok k from next t t' row :
  row_of t k = Some row -> match from with Some s => ma_status (aw_manifest row) = s | None => True end -> update_status k from next t = Ok t' ->
  status_forward (ma_status (aw_manifest row)) next = true /\ t' = put_row k (with_status next row) t.
Proof.
  intros Hr Hf. unfold update_status. rewrite Hr. assert (match from with Some s => negb (String.eqb (ma_status (aw_manifest row)) s) | None => false end = false) as ->.
  { destruct from; [subst; by rewrite String.eqb_refl|done]. }
  destruct (status_forward _ _); [|done]. by intros [= <-].
Qed.

Lemma publish_spec env q t t' res :
  Durable.Publish env q t = (t', res) -> let m := pr_Manifest q in
  match res with
  | Err _ => t' = t
  | Ok g => validManifest m = true /\ gr_Manifest g = m /\ gr_Status g = StatusPublished /\
      (t' = t /\ stored t (row_key m) g /\ pointer t (artifact_key m) = am_Generation m \/
       exists ex row, row_of t (row_key m) = Some row /\ holds (row_key m) row ex /\ gr_Status ex = StatusStaged /\ validFrames m (gr_Frames ex) = true /\ g = Vault.set_status StatusPublished ex /\
         pointer t (artifact_key m) = pr_ExpectedGeneration q /\ am_Generation m = wrapU64 (pr_ExpectedGeneration q + 1) /\ t' = set_pointer (artifact_key m) (am_Generation m) (put_row (row_key m) (with_status "published" row) t))
  end.
Proof.
  intros Hp. cbv zeta. set (m := pr_Manifest q). unfold Durable.Publish in Hp. fold m in Hp. destruct (_ || _) eqn:Ev; [by injection Hp as <- <-|]. bool_prop.
  apply in_write_spec in Hp. destruct res as [g|e]; [|done]. bindo Hp cur Ecur. apply current_Ok in Ecur. cbv zeta in Hp. fold (artifact_key m) in Ecur.
  destruct (loadArtifact _ _ _ _ _) as [ex|e] eqn:El; [|by destruct (negb _) in Hp]. apply load_Ok in El as (row & Hr & Hh).
  assert (forall g t', (if negb (cur =? pr_ExpectedGeneration q) then Err ErrStaleGeneration else
    if negb (validFrames (gr_Manifest ex) (gr_Frames ex)) then Err ErrIncomplete
    else if negb (bool_decide (gr_Manifest ex = m)) || negb (bool_decide (gr_Status ex = StatusStaged)) then Err ErrConflict
    else attempt env XStatus ErrConflict (do t <- update_status (row_key m) (Some "staged") "published" t ;
           attempt env XPointer ErrConflict (do t <- move_pointer (pr_ExpectedGeneration q) m t ; Ok (t, Vault.set_status StatusPublished ex)))) = Ok (t', g) ->
    gr_Manifest g = m /\ gr_Status g = StatusPublished /\ gr_Status ex = StatusStaged /\ validFrames m (gr_Frames ex) = true /\ g = Vault.set_status StatusPublished ex /\
    pointer t (artifact_key m) = pr_ExpectedGeneration q /\ am_Generation m = wrapU64 (pr_ExpectedGeneration q + 1) /\ t' = set_pointer (artifact_key m) (am_Generation m) (put_row (row_key m) (with_status "published" row) t)) as Hadv.
  { clear Hp g t'. intros g t' Ha. destruct (cur =? _) eqn:Ec; cbn [negb] in Ha; [|done]. destruct (validFrames _ _) eqn:Hvf; cbn [negb] in Ha; [|done]. destruct (_ || _) eqn:Eq; [done|]. bool_prop.
    apply attempt_Ok in Ha. bindo Ha t1 Eu. apply attempt_Ok in Ha. bindo Ha t2 Em. injection Ha as <- <-.
    apply (update_status_Ok _ _ _ _ _ row) in Eu as [_ ->]; [|done|rewrite (hold_status _ _ _ Hh); by match goal with E : gr_Status ex = _ |- _ => rewrite E end].
    match goal with E : gr_Manifest ex = m |- _ => rewrite E in Hvf; split_and!; [exact E|..] end; [done|done|done|done|congruence|done|].
    unfold move_pointer in Em. cbn [put_row at_current] in Em. fold (artifact_key m) in Em. unfold pointer in Ecur. destruct (pr_ExpectedGeneration q =? 0) eqn:E0.
    - destruct (_ || _); [done|]. by injection Em as <-.
    - destruct (negb _); [done|]. destruct (bool_decide _) eqn:Eb; [destruct (negb _); [done|]; by injection Em as <-|]. bool_prop. exfalso. apply Eb.
      destruct (at_current t !! artifact_key m) as [p|]; cbn in Ecur; [congruence|lia]. }
  split; [done|]. destruct (_ && _) eqn:Eb.
  - destruct (_ && _) eqn:Eb2 in Hp; [|done]. injection Hp as <- <-. bool_prop. split_and!; [done|done|]. left. split_and!; [done|by exists row|congruence].
  - apply Hadv in Hp as (? & ? & ? & ? & ? & ? & ? & ?). split_and!; [done|done|]. right. by exists ex, row.
Qed.

Lemma quarantine_spec env tenant artifact n reason t t' res :
  Durable.Quarantine env tenant artifact n reason t = (t', res) -> let k := (Value tenant, Value artifact, n) in
  match res with
  | Err _ => t' = t
  | Ok _ => validID tenant "tenant" = true /\ validID artifact "artifact" = true /\ 0 < n < 2 ^ 63 /\
      exists ex row, row_of t k = Some row /\ holds k row ex /\ gr_Status ex <> StatusPurged /\
        (t' = t /\ gr_Status ex = StatusQuarantined \/ t' = put_row k (with_status "quarantined" row) t)
  end.
Proof.
  intros Hq. cbv zeta. unfold Durable.Quarantine in Hq. destruct (_ || _) eqn:Ev; [by injection Hq as <- <-|]. bool_prop. unfold Durable.transition in Hq.
  apply in_write_spec in Hq. destruct res as [[]|e]; [|done]. bindo Hq rcd El. apply load_Ok in El as (row & Hr & Hh). pose proof (hold_bound _ _ _ Hh) as Hb. unfold db_uint in Hb. cbn in Hb. bool_prop.
  destruct (existsb _ _) eqn:Ea; cbn [negb] in Hq; [|done]. assert (gr_Status rcd <> StatusPurged) as Hs by (intros E; by rewrite E in Ea).
  split_and!; [done|done|lia|lia|]. exists rcd, row. split_and!; [done|done|done|]. destruct (bool_decide _) eqn:Eb; [left; injection Hq as <-; by bool_prop|right].
  apply attempt_Ok in Hq. bindo Hq t1 Eu. injection Hq as <-. by apply (update_status_Ok _ None _ _ _ row) in Eu as [_ ->].
Qed.

Lemma load_tombstone_Ok env te ar n t reason rc :
  Durable.loadTombstone env te ar n t = Ok (reason, rc) -> exists row, row_of t (te, ar, n) = Some row /\ aw_tombstone row = Some (MkStorageTombstone reason rc).
Proof.
  unfold Durable.loadTombstone. intros Hl%attempt_Ok. destruct (negb _); [done|]. destruct (row_of t (te, ar, n)) as [row|]; [|done]. exists row. split; [done|].
  destruct (aw_tombstone row) as [[r x]|]; [|done]. injection Hl as <- <-. done.
Qed.

Lemma tombstone_spec env q t t' res :
  Durable.Tombstone env q t = (t', res) -> let k := (Value (tr_Tenant q), Value (tr_Artifact q), tr_ExpectedGeneration q) in
  match res with
  | Err _ => t' = t
  | Ok g => validID (tr_Tenant q) "tenant" = true /\ validID (tr_Artifact q) "artifact" = true /\ 0 < tr_ExpectedGeneration q < 2 ^ 63 /\ gr_Status g = StatusTombstoned /\
      pointer t (Value (tr_Tenant q), Value (tr_Artifact q)) = tr_ExpectedGeneration q /\
      (t' = t /\ stored t k g \/
       exists ex row, row_of t k = Some row /\ holds k row ex /\ gr_Status ex = StatusPublished /\ g = Vault.set_status StatusTombstoned ex /\
         t' = put_row k (with_tombstone (MkStorageTombstone (tr_ReasonCode q) (Durable.canonicalTombstoneReceipt ex)) (with_status "tombstoned" row)) t)
  end.
Proof.
  intros Hq. cbv zeta. unfold Durable.Tombstone in Hq. destruct (_ || _) eqn:Ev; [by injection Hq as <- <-|]. bool_prop. apply in_write_spec in Hq. destruct res as [g|e]; [|done].
  bindo Hq cur Ecur. apply current_Ok in Ecur. destruct (cur =? _) eqn:Ec; cbn [negb] in Hq; [|done]. bool_prop. bindo Hq rcd El. apply load_Ok in El as (row & Hr & Hh).
  pose proof (hold_bound _ _ _ Hh) as Hb. unfold db_uint in Hb. cbn in Hb. bool_prop. destruct (bool_decide (gr_Status rcd = StatusTombstoned)) eqn:Eb.
  - destruct (Durable.loadTombstone _ _ _ _ _) as [[reason rc]|]; [|done]. destruct (_ && _); [|done]. injection Hq as <- <-. bool_prop.
    split_and!; [done|done|done|done|done|congruence|]. left. split; [done|]. by exists row.
  - destruct (bool_decide (gr_Status rcd = StatusPublished)) eqn:Ep; cbn [negb] in Hq; [|done]. bool_prop. apply attempt_Ok in Hq. bindo Hq t1 Eu. apply attempt_Ok in Hq. bindo Hq t2 Et. injection Hq as <- <-.
    apply (update_status_Ok _ _ _ _ _ row) in Eu as [_ ->]; [|done|by rewrite (hold_status _ _ _ Hh), Ep].
    unfold Durable.insert_tombstone in Et. cbn [put_row at_rows] in Et. rewrite lookup_insert_eq in Et. destruct (bool_decide _); [done|]. injection Et as <-.
    split_and!; [done|done|done|done|done|congruence|]. right. exists rcd, row. split_and!; [done|done|done|done|]. fold (put_row (Value (tr_Tenant q), Value (tr_Artifact q), tr_ExpectedGeneration q) (with_status "tombstoned" row) t).
    by rewrite put_put_row.
Qed.

Lemma prepare_spec env q n t g :
  Durable.PreparePurge env q n t = Ok g ->
  validID (pu_Tenant q) "tenant" = true /\ validID (pu_Artifact q) "artifact" = true /\ 0 < n < 2 ^ 63 /\ stored t (Value (pu_Tenant q), Value (pu_Artifact q), n) g /\
  (gr_Status g = StatusTombstoned \/ gr_Status g = StatusPurged) /\ pu_TombstoneReceipt q = Durable.canonicalTombstoneReceipt g.
Proof.
  unfold Durable.PreparePurge. destruct (_ || _) eqn:Ev; [done|]. bool_prop. destruct (loadArtifact _ _ _ _ _) as [ex|e] eqn:El; [|done]. apply load_stored in El as Hst.
  destruct (_ || _) eqn:Eq; [done|]. destruct (Durable.loadTombstone _ _ _ _ _) as [[r rc]|]; [|done].
  destruct (bool_decide (rc = _) && _) eqn:Er; [|done]. intros [= <-]. bool_prop.
  destruct Hst as (row & Hr & Hh). pose proof (hold_bound _ _ _ Hh) as Hb. unfold db_uint in Hb. cbn in Hb. bool_prop.
  split_and!; [done|done|lia|lia|by exists row| |congruence]. match goal with E : _ && _ = false |- _ => apply andb_false_iff in E as [E|E]; bool_prop; auto end.
Qed.

Lemma complete_purge_spec env g t t' res :
  Durable.CompletePurge env g t = (t', res) -> let k := row_key (gr_Manifest g) in
  match res with
  | Err _ => t' = t
  | Ok _ => validManifest (gr_Manifest g) = true /\ exists ex row, row_of t k = Some row /\ holds k row ex /\ gr_Fence ex = gr_Fence g /\
      (t' = t /\ gr_Status ex = StatusPurged \/ gr_Status ex = StatusTombstoned /\ t' = put_row k (with_status "purged" row) t)
  end.
Proof.
  intros Hq. cbv zeta. unfold Durable.CompletePurge in Hq. destruct (_ || _) eqn:Ev; [by injection Hq as <- <-|]. bool_prop. apply in_write_spec in Hq. destruct res as [[]|e]; [|done].
  destruct (loadArtifact _ _ _ _ _) as [ex|e] eqn:El; [|done]. apply load_Ok in El as (row & Hr & Hh). destruct (gr_Fence ex =? gr_Fence g) eqn:Ef; cbn [negb] in Hq; [|done].
  split; [done|]. exists ex, row. bool_prop. split_and!; [done|done|done|]. destruct (bool_decide (gr_Status ex = StatusPurged)) eqn:Ep; [left; injection Hq as <-; by bool_prop|].
  destruct (bool_decide (gr_Status ex = StatusTombstoned)) eqn:Et; cbn [negb] in Hq; [|done]. bool_prop. right. split; [done|]. apply attempt_Ok in Hq. bindo Hq t1 Eu. injection Hq as <-.
  by apply (update_status_Ok _ _ _ _ _ row) in Eu as [_ ->]; [|done|by rewrite (hold_status _ _ _ Hh), Et].
Qed.

Lemma get_spec env tenant artifact n t g :
  Durable.Get env tenant artifact n t = Ok g -> validID tenant "tenant" = true /\ validID artifact "artifact" = true /\ 0 < n < 2 ^ 63 /\ stored t (Value tenant, Value artifact, n) g.
Proof.
  unfold Durable.Get. destruct (_ || _) eqn:Ev; [done|]. bool_prop. intros (row & Hr & Hh)%load_Ok. pose proof (hold_bound _ _ _ Hh) as Hb. unfold db_uint in Hb. cbn in Hb. bool_prop.
  split_and!; [done|done|lia|lia|by exists row].
Qed.

(** ** The invariant *)

Definition row_sound (t : ArtifactTables) (k : string * string * Z) (row : ArtifactRow) : Prop :=
  exists g, holds k row g /\ sort_by by_index (aw_frames row) = aw_frames row /\ gr_Fence g <= at_fences t /\
    (gr_Status g = StatusStaged -> aw_tombstone row = None /\ at_current t !! fst k <> Some (snd k)).

Record sound (t : ArtifactTables) : Prop := {
  sound_rows : forall k row, row_of t k = Some row -> row_sound t k row;
  sound_pointers : forall a n, at_current t !! a = Some n -> 0 < n < 2 ^ 63 /\ is_Some (row_of t (a, n));
  sound_fences : 0 <= at_fences t
}.

Lemma sound_empty : sound empty_tables.
Proof. split; [intros k row; cbn; by rewrite lookup_empty|intros a n; cbn; by rewrite lookup_empty|done]. Qed.

(** A row is replaced by one that is still in order; all else stays. *)
Lemma sound_put t k row row' :
  sound t -> row_of t k = Some row -> row_sound t k row' -> sound (put_row k row' t).
Proof.
  intros [Hr Hp Hf] Hk Hs. split; cbn; [|intros a n Hn|done].
  - intros k' row0. destruct (decide (k = k')) as [<-|Hne]; [rewrite lookup_insert_eq; by intros [= <-]|rewrite lookup_insert_ne by done; apply Hr].
  - destruct (Hp a n Hn) as [Hb He]. split; [done|]. apply lookup_insert_is_Some. destruct (decide (k = (a, n))); auto.
Qed.

Lemma holds_range k row g : holds k row g -> k = row_key (gr_Manifest g) /\ fst k = artifact_key (gr_Manifest g) /\ snd k = am_Generation (gr_Manifest g) /\ 0 < snd k < 2 ^ 63.
Proof.
  intros Hh. destruct k as [[te ar] n]. pose proof (hold_bound _ _ _ Hh) as Hb. pose proof (hold_valid _ _ _ Hh) as (_ & _ & _ & Hg & _)%validManifest_spec.
  rewrite (hold_manifest _ _ _ Hh) in *. unfold db_uint in Hb. cbn in *. bool_prop. split_and!; done || lia.
Qed.

Lemma wrap_succ z : wrapU64 (z + 1) <> z.
Proof.
  unfold wrapU64. intros E. pose proof (Z.mod_pos_bound (z + 1) (2 ^ 64) ltac:(lia)) as Hb. pose proof (Z.div_mod (z + 1) (2 ^ 64) ltac:(lia)) as Hd. rewrite E in Hb, Hd.
  destruct (Z.eq_dec ((z + 1) / 2 ^ 64) 0); lia.
Qed.

Lemma change_sound t t' : sound t -> change t t' -> sound t'.
Proof.
  intros Hs Hc. pose proof Hs as [Hr Hp Hf]. destruct Hc as [|g row Hn Hh Hfr Ht Hst Hpt Hfe|k row g fs Hk Hh Hn Hst Hv|k row g Hk Hh Hst Hn Hcur|k row g Hk Hh Hst Hv Hg|k row g s Hk Hh Hm|k row g x Hk Hh Hst].
  - done.
  - split; cbn; [|intros a n Hn'|lia].
    + intros k' row0. destruct (decide (row_key (gr_Manifest g) = k')) as [<-|Hne].
      * rewrite lookup_insert_eq. intros [= <-]. exists g. split_and!; [done|by rewrite Hfr|cbn; lia|]. intros _. split; [done|]. intros E. apply (wrap_succ (pointer t (artifact_key (gr_Manifest g)))). rewrite <- Hpt. unfold pointer, artifact_key. cbn in E. by rewrite E.
      * rewrite lookup_insert_ne by done. intros (g0 & A & B & C & D)%Hr. exists g0. split_and!; [done|done|cbn; lia|exact D].
    + destruct (Hp a n Hn') as [Hb He]. split; [done|]. apply lookup_insert_is_Some. destruct (decide (row_key (gr_Manifest g) = (a, n))); auto.
  - eapply sound_put; [done|done|]. destruct (Hr k row Hk) as (g0 & A & B & C & D). rewrite (holds_unique _ _ _ _ Hh A) in *. exists (set_frames fs g0). split_and!; [by apply holds_with_frames| |done|done].
    cbn. apply sort_by_id. apply (rows_sorted fs 0). destruct (validFrames_spec _ _ (hold_valid _ _ _ A) Hv) as (_ & _ & Hi & _). intros i f Hif. destruct (Hi i f Hif). lia.
  - split; cbn; [intros k' row0 [_ Hk']%lookup_delete_Some; exact (Hr k' row0 Hk')| |done]. intros a n Ha. destruct (Hp a n Ha) as [Hb He]. split; [done|].
    rewrite lookup_delete_ne; [done|]. intros ->. destruct (holds_range _ _ _ Hh) as (_ & E1 & E2 & _). cbn in E1, E2. by rewrite E1, E2 in Ha.
  - destruct (holds_range _ _ _ Hh) as (_ & E1 & E2 & Hb). rewrite <- E1, <- E2. split; cbn; [| |done].
    + intros k' row0. destruct (decide (k = k')) as [<-|Hne].
      * rewrite lookup_insert_eq. intros [= <-]. destruct (Hr k row Hk) as (g0 & A & B & C & D). exists (Vault.set_status StatusPublished g0). split_and!; [by apply (holds_with_status _ _ _ StatusPublished)|done|done|done].
      * rewrite lookup_insert_ne by done. intros (g0 & A & B & C & D)%Hr. exists g0. split_and!; [done|done|done|]. intros E. destruct (D E) as [D1 D2]. split; [done|]. cbn.
        destruct (decide (fst k = fst k')) as [E3|]; [rewrite E3, lookup_insert_eq|by rewrite lookup_insert_ne]. intros [= E4]. apply Hne. destruct k, k'. by cbn in *; subst.
    + intros a n. destruct (decide (fst k = a)) as [<-|Hne]; [rewrite lookup_insert_eq; intros [= <-]|rewrite lookup_insert_ne by done].
      * split; [done|]. rewrite <- surjective_pairing, lookup_insert_eq. by eexists.
      * intros [Hb' He]%Hp. split; [done|]. apply lookup_insert_is_Some. destruct (decide (k = (a, n))); auto.
  - eapply sound_put; [done|done|]. destruct (Hr k row Hk) as (g0 & A & B & C & D). exists (Vault.set_status s g0). split_and!; [by apply holds_with_status|done|done|].
    cbn. intros ->. by destruct Hm as [[[=] _]|[[[=] _]|[[[=]|[=]] _]]].
  - eapply sound_put; [done|done|]. destruct (Hr k row Hk) as (g0 & A & B & C & D). exists (Vault.set_status StatusTombstoned g0).
    split_and!; [by apply holds_with_tombstone, (holds_with_status _ _ _ StatusTombstoned)|done|done|done].
Qed.

(** ** Every operation makes at most one change *)

Lemma begin_change env q locator t : change t (fst (Durable.BeginStage env q locator t)).
Proof.
  destruct (Durable.BeginStage env q locator t) as [t' res] eqn:E. apply begin_spec in E. cbv zeta in E. cbn. destruct res as [[g []]|e]; [destruct E as [-> _]; constructor| |subst; constructor].
  destruct E as (Hv & Hg & _ & Hp & Hgen & _ & row & Hh & Hf & Ht & Hn & ->). assert (gr_Manifest g = sr_Manifest q /\ gr_Status g = StatusStaged /\ gr_Fence g = at_fences t + 1) as (Em & Es & Ef) by (by rewrite Hg).
  clear Hg. rewrite <- Em in *. apply change_begin; try done. by rewrite Hp.
Qed.

Lemma complete_change env g t : change t (fst (Durable.CompleteStage env g t)).
Proof.
  destruct (Durable.CompleteStage env g t) as [t' res] eqn:E. apply complete_spec in E. cbn. destruct res as [[]|e]; [|subst; constructor].
  destruct E as (Hv & Hvf & rcd & row & Hr & Hh & Hm & Hf & Hst & [[-> _]|[Hn ->]]); [constructor|]. eapply change_frames; [done|done|done|done|by rewrite Hm].
Qed.

Lemma abort_change env g t : change t (fst (Durable.AbortStage env g t)).
Proof.
  destruct (Durable.AbortStage env g t) as [t' res] eqn:E. apply abort_spec in E. cbn. destruct res as [[]|e]; [|subst; constructor].
  destruct E as (_ & _ & [[-> _]|(rcd & row & Hr & Hh & Hf & Hst & Hn & Hcur & ->)]); [constructor|]. eapply change_delete; [done|done|done|done|].
  destruct (holds_range _ _ _ Hh) as (_ & E1 & E2 & _). by rewrite <- E1, <- E2.
Qed.

Lemma publish_change env q t : change t (fst (Durable.Publish env q t)).
Proof.
  destruct (Durable.Publish env q t) as [t' res] eqn:E. apply publish_spec in E. cbv zeta in E. cbn. destruct res as [g|e]; [|subst; constructor].
  destruct E as (_ & Hm & _ & [[-> _]|(rcd & row & Hr & Hh & Hst & Hvf & -> & Hp & Hg & ->)]); [constructor|]. cbn in Hm. rewrite <- Hm in *. rewrite <- Hp in Hg. by apply (change_publish _ _ row).
Qed.

Lemma quarantine_change env tenant artifact n reason t : change t (fst (Durable.Quarantine env tenant artifact n reason t)).
Proof.
  destruct (Durable.Quarantine env tenant artifact n reason t) as [t' res] eqn:E. apply quarantine_spec in E. cbv zeta in E. cbn. destruct res as [[]|e]; [|subst; constructor].
  destruct E as (_ & _ & _ & rcd & row & Hr & Hh & Hst & [[-> _]| ->]); [constructor|]. eapply (change_deny _ _ _ _ StatusQuarantined); [done|done|by left].
Qed.

Lemma tombstone_change env q t : change t (fst (Durable.Tombstone env q t)).
Proof.
  destruct (Durable.Tombstone env q t) as [t' res] eqn:E. apply tombstone_spec in E. cbv zeta in E. cbn. destruct res as [g|e]; [|subst; constructor].
  destruct E as (_ & _ & _ & _ & _ & [[-> _]|(rcd & row & Hr & Hh & Hst & _ & ->)]); [constructor|]. by eapply change_tombstone.
Qed.

Lemma complete_purge_change env g t : change t (fst (Durable.CompletePurge env g t)).
Proof.
  destruct (Durable.CompletePurge env g t) as [t' res] eqn:E. apply complete_purge_spec in E. cbv zeta in E. cbn. destruct res as [[]|e]; [|subst; constructor].
  destruct E as (_ & rcd & row & Hr & Hh & _ & [[-> _]|[Hst ->]]); [constructor|]. eapply (change_deny _ _ _ _ StatusPurged); [done|done|by right; left].
Qed.
