(* ===== verification/StorageLaws.v ===== *)
(** * localstorage: the durable repository keeps the contract of the vault

    [DurableRepository] is the SQL repository as the vault composes it: the
    tables and which statements are going to fail.  It has the laws of
    [RepositoryLaws] whatever fails, and those of [RepositoryProgress] when no
    statement fails and the tables are sound; so every theorem about the vault
    holds over it. *)

From Stdlib Require Import Ascii String.
From S2P Require Import Prelude GoString Float64 Runtime Contracts Composite SqlTable AuthorityLedger Vault StorageRules VaultRepository Storage StorageEffects.
From stdpp Require Import gmap strings.
Open Scope string_scope.
Open Scope Z_scope.

Record DurableRepository := MkDurable { dr_tables : ArtifactTables; dr_env : StorageEnv }.

Definition on_tables {A} (op : StorageEnv -> ArtifactTables -> ArtifactTables * result vault_error A) (r : DurableRepository) : DurableRepository * result vault_error A :=
  let '(t, res) := op (dr_env r) (dr_tables r) in (MkDurable t (dr_env r), res).

#[export] Instance Durable_repository : Repository DurableRepository := {|
  BeginStage := fun q locator => on_tables (fun env => Durable.BeginStage env q locator);
  CompleteStage := fun g => on_tables (fun env => Durable.CompleteStage env g);
  AbortStage := fun g => on_tables (fun env => Durable.AbortStage env g);
  GetGeneration := fun tenant artifact n r => Durable.Get (dr_env r) tenant artifact n (dr_tables r);
  PublishGeneration := fun q => on_tables (fun env => Durable.Publish env q);
  QuarantineGeneration := fun tenant artifact n => on_tables (fun env => Durable.Quarantine env tenant artifact n "integrity");
  TombstoneGeneration := fun q => on_tables (fun env => Durable.Tombstone env q);
  PreparePurge := fun q n r => Durable.PreparePurge (dr_env r) q n (dr_tables r);
  CompletePurge := fun g => on_tables (fun env => Durable.CompletePurge env g) |}.

(** ** The view of a key *)

Definition key_of (s : string) : option (string * string * Z) :=
  match decodeComposite s 3 with
  | Some [te; ar; n] => match parse_uint64 n with Some g => if String.eqb (dec g) n then Some (te, ar, g) else None | None => None end
  | _ => None
  end.

Definition artifact_of (s : string) : option (string * string) :=
  match decodeComposite s 2 with Some [te; ar] => Some (te, ar) | _ => None end.

#[export] Instance Durable_view : RepositoryView DurableRepository := {|
  lookup_record := fun r s => match key_of s with
    | Some (te, ar, n) => match loadArtifact calm te ar n (dr_tables r) with Ok g => Some g | Err _ => None end
    | None => None end;
  current_generation := fun r s => match artifact_of s with Some a => pointer (dr_tables r) a | None => 0 end |}.

Lemma dec_fits n : fits (dec n).
Proof. unfold fits. pose proof (dec_length n). apply (Z.le_lt_trans _ 21); [done|reflexivity]. Qed.

Lemma key_of_generation tenant artifact n :
  fits (Value tenant) -> fits (Value artifact) -> 0 <= n < 2 ^ 64 -> key_of (generationKey tenant artifact n) = Some (Value tenant, Value artifact, n).
Proof.
  intros Ht Ha Hn. unfold key_of, generationKey. change 3%nat with (length [Value tenant; Value artifact; uintString n]).
  rewrite composite_decodes by (repeat constructor; done || apply dec_fits). unfold uintString. rewrite parse_uint64_dec by done. by rewrite String.eqb_refl.
Qed.

Lemma key_of_spelling s te ar n : key_of s = Some (te, ar, n) -> s = encodeComposite [te; ar; dec n].
Proof.
  unfold key_of. destruct (decodeComposite s 3) as [[|x [|y [|z [|]]]]|] eqn:E; try done. apply decode_exact in E as [<- _].
  destruct (parse_uint64 z) as [g|]; [|done]. destruct (String.eqb_spec (dec g) z) as [<-|]; [|done]. by intros [= -> -> ->].
Qed.

Lemma artifact_of_key tenant artifact : fits (Value tenant) -> fits (Value artifact) -> artifact_of (artifactKey tenant artifact) = Some (Value tenant, Value artifact).
Proof.
  intros Ht Ha. unfold artifact_of, artifactKey. change 2%nat with (length [Value tenant; Value artifact]). by rewrite composite_decodes by (repeat constructor; done).
Qed.

Lemma artifact_of_spelling s te ar : artifact_of s = Some (te, ar) -> s = encodeComposite [te; ar].
Proof. unfold artifact_of. destruct (decodeComposite s 2) as [[|x [|y [|]]]|] eqn:E; try done. apply decode_exact in E as [<- _]. by intros [= -> ->]. Qed.

(** Only the keys of the row that changed see a change. *)
Lemma key_of_iff tenant artifact n s :
  fits (Value tenant) -> fits (Value artifact) -> 0 <= n < 2 ^ 64 -> key_of s = Some (Value tenant, Value artifact, n) <-> s = generationKey tenant artifact n.
Proof. intros Ht Ha Hn. split; [by intros ->%key_of_spelling|intros ->; by apply key_of_generation]. Qed.

Lemma lookup_stored r s k g : key_of s = Some k -> lookup_record r s = Some g <-> stored (dr_tables r) k g.
Proof.
  intros Hk. cbn. rewrite Hk. destruct k as [[te ar] n]. unfold stored. rewrite <- (load_calm_iff te ar n (dr_tables r) g). destruct (loadArtifact _ _ _ _ _); split; intros E; congruence.
Qed.

Lemma lookup_none r s k : key_of s = Some k -> (forall g, ~ stored (dr_tables r) k g) -> lookup_record r s = None.
Proof. intros Hk Hn. destruct (lookup_record r s) as [g|] eqn:E; [|done]. apply (lookup_stored _ _ _ _ Hk) in E. by destruct (Hn g). Qed.

Lemma valid_fits id ns : validID id ns = true -> fits (Value id).
Proof. by intros (_ & _ & _ & ?)%validID_spec. Qed.

Lemma manifest_key_of m : validManifest m = true -> am_Generation m < 2 ^ 64 -> key_of (manifest_key m) = Some (row_key m).
Proof. intros (Ht & Ha & _ & Hg & _)%validManifest_spec Hb. apply key_of_generation; [by eapply valid_fits|by eapply valid_fits|lia]. Qed.

Lemma manifest_artifact_of m : validManifest m = true -> artifact_of (manifest_artifact m) = Some (artifact_key m).
Proof. intros (Ht & Ha & _)%validManifest_spec. apply artifact_of_key; by eapply valid_fits. Qed.

(** Replacing, adding or removing the row of one key. *)
Lemma row_change_view t rows' fences env s k g :
  key_of s = Some k -> (forall k', k' <> k -> rows' !! k' = at_rows t !! k') ->
  (forall g', stored (MkArtifactTables rows' (at_current t) fences) k g' <-> g = Some g') ->
  record_set s g (MkDurable t env) (MkDurable (MkArtifactTables rows' (at_current t) fences) env).
Proof.
  intros Hk Hrows Hg. split; [|done]. intros s'. destruct (decide (s' = s)) as [->|Hne].
  - destruct g as [g|]; [apply (lookup_stored _ _ _ _ Hk), Hg; done|]. apply (lookup_none _ _ _ Hk). intros g' Hs. by apply Hg in Hs.
  - cbn. destruct (key_of s') as [[[te ar] n]|] eqn:Ek; [|done]. assert ((te, ar, n) <> k) as Hne'.
    { intros <-. apply Hne. apply key_of_spelling in Hk, Ek. congruence. }
    unfold loadArtifact. cbn [at_rows]. by rewrite Hrows.
Qed.

Lemma put_row_view t env s k row g :
  key_of s = Some k -> holds k row g -> record_set s (Some g) (MkDurable t env) (MkDurable (put_row k row t) env).
Proof.
  intros Hk Hh. apply (row_change_view t _ _ _ _ k); [done|intros k' Hne; by rewrite lookup_insert_ne|].
  intros g'. unfold stored. cbn. rewrite lookup_insert_eq. split; [intros (? & [= <-] & Hh'); f_equal; by eapply holds_unique|intros [= <-]; by exists row].
Qed.

Lemma record_set_same_record r s g : lookup_record r s = Some g -> record_set s (Some g) r r.
Proof. intros Hg. split; [|done]. intros k'. by destruct (decide (k' = s)) as [->|]. Qed.

(** ** The laws *)

Lemma wrap_range z : 0 <= wrapU64 z < 2 ^ 64.
Proof. by apply Z.mod_pos_bound. Qed.

Lemma stored_range t k g : stored t k g -> validManifest (gr_Manifest g) = true /\ k = row_key (gr_Manifest g) /\ 0 < am_Generation (gr_Manifest g) < 2 ^ 63.
Proof. intros (row & _ & Hh). destruct (holds_range _ _ _ Hh) as (E & _ & E2 & Hb). rewrite E2 in Hb. split_and!; [exact (hold_valid _ _ _ Hh)|done|lia|lia]. Qed.

Ltac expose := cbn [BeginStage CompleteStage AbortStage GetGeneration PublishGeneration QuarantineGeneration TombstoneGeneration PreparePurge CompletePurge Durable_repository]; unfold on_tables; cbn [dr_env dr_tables].

#[export] Instance Durable_laws : RepositoryLaws (R := DurableRepository).
Proof.
  constructor.
  - intros q locator [t env]. expose. destruct (Durable.BeginStage env q locator t) as [t' res] eqn:E. apply begin_spec in E. cbv zeta in E |- *. destruct res as [[g []]|e]; [| |subst; apply same_view_refl].
    + destruct E as (-> & Hs & Hm & Hc & _). split_and!; [apply same_view_refl| |done|done]. destruct (stored_range _ _ _ Hs) as (Hv & _ & Hb). rewrite Hm in Hv, Hb.
      eapply lookup_stored; [apply manifest_key_of; [done|lia]|done].
    + destruct E as (Hv & Hg & Hn & Hp & Hgen & _ & row & Hh & _ & _ & Hr & ->). pose proof (wrap_range (sr_ExpectedGeneration q + 1)) as Hw. rewrite <- Hgen in Hw.
      assert (key_of (manifest_key (sr_Manifest q)) = Some (row_key (sr_Manifest q))) as Hk by (apply manifest_key_of; [done|lia]).
      split_and!; [by eapply lookup_none|cbn; by rewrite (manifest_artifact_of _ Hv)|by eexists|].
      apply (row_change_view t _ _ _ _ (row_key (sr_Manifest q))); [done|intros k' Hne; cbn; by rewrite lookup_insert_ne|].
      intros g'. unfold stored. cbn. rewrite lookup_insert_eq. split; [intros (? & [= <-] & Hh'); f_equal; by eapply holds_unique|intros [= <-]; by exists row].
  - intros g [t env]. expose. destruct (Durable.CompleteStage env g t) as [t' res] eqn:E. apply complete_spec in E. destruct res as [[]|e]; [|subst; apply same_view_refl].
    destruct E as (Hv & Hvf & rcd & row & Hr & Hh & Hm & Hf & Hst & Hcase). split; [unfold complete; by rewrite (validFrames_complete _ _ Hvf), Z.eqb_refl|].
    assert (stored t (row_key (gr_Manifest g)) rcd) as Hs by (by exists row). destruct (stored_range _ _ _ Hs) as (_ & _ & Hb). rewrite Hm in Hb.
    assert (key_of (manifest_key (gr_Manifest g)) = Some (row_key (gr_Manifest g))) as Hk by (apply manifest_key_of; [done|lia]).
    exists rcd. split_and!; [by eapply lookup_stored|done|done|]. destruct Hcase as [[-> E]|[_ ->]].
    + apply record_set_same_record. rewrite <- E. destruct rcd. by eapply lookup_stored.
    + apply put_row_view; [done|]. apply holds_with_frames; [done|by rewrite Hm].
  - intros g [t env]. expose. destruct (Durable.AbortStage env g t) as [t' res] eqn:E. apply abort_spec in E. destruct res as [[]|e]; [|subst; apply same_view_refl].
    destruct E as (Hv & Hb & E). assert (key_of (manifest_key (gr_Manifest g)) = Some (row_key (gr_Manifest g))) as Hk by (apply manifest_key_of; [done|lia]).
    destruct E as [[-> Hn]|(rcd & row & Hr & Hh & Hf & Hst & Hfr & _ & ->)]; [left; split; [apply same_view_refl|by eapply lookup_none]|right].
    exists rcd. split_and!; [eapply lookup_stored; [done|by exists row]|done|done|done|].
    apply (row_change_view t _ _ _ _ (row_key (gr_Manifest g))); [done|intros k' Hne; by rewrite lookup_delete_ne|]. intros g'. unfold stored. cbn. rewrite lookup_delete_eq. split; [by intros (? & [=] & _)|done].
  - intros tenant artifact n [t env] g. expose. intros (Ht & Ha & Hn & Hs)%get_spec. eapply lookup_stored; [apply key_of_generation; [by eapply valid_fits|by eapply valid_fits|lia]|done].
  - intros q [t env]. expose. destruct (Durable.Publish env q t) as [t' res] eqn:E. apply publish_spec in E. cbv zeta in E |- *. set (m := pr_Manifest q) in *. destruct res as [g|e]; [|subst; apply same_view_refl].
    destruct E as (Hv & Hm & Hst & Hcase). split_and!; [done|done|]. destruct Hcase as [(-> & Hs & Hp)|(rcd & row & Hr & Hh & Hss & Hvf & -> & Hp & _ & ->)].
    + left. destruct (stored_range _ _ _ Hs) as (_ & _ & Hb). rewrite Hm in Hb. split_and!; [apply same_view_refl|eapply lookup_stored; [apply manifest_key_of; [done|lia]|done]|cbn; by rewrite (manifest_artifact_of _ Hv)].
    + right. assert (stored t (row_key m) rcd) as Hs by (by exists row). destruct (stored_range _ _ _ Hs) as (_ & _ & Hb). change (gr_Manifest (Vault.set_status StatusPublished rcd)) with (gr_Manifest rcd) in Hm. rewrite Hm in Hb.
      assert (key_of (manifest_key m) = Some (row_key m)) as Hk by (apply manifest_key_of; [done|lia]).
      destruct (put_row_view t env (manifest_key m) (row_key m) _ _ Hk (holds_with_status _ _ _ StatusPublished Hh)) as [Hl _].
      exists rcd. split_and!; [by eapply lookup_stored|done|unfold complete; rewrite Hm; by rewrite (validFrames_complete _ _ Hvf), Z.eqb_refl|done|cbn; by rewrite (manifest_artifact_of _ Hv)|exact Hl|].
      intros a. cbn. destruct (decide (a = manifest_artifact m)) as [->|Hne]; [rewrite (manifest_artifact_of _ Hv); unfold pointer; cbn; by rewrite lookup_insert_eq|].
      destruct (artifact_of a) as [[te ar]|] eqn:Ea; [|done]. unfold pointer. cbn. rewrite lookup_insert_ne; [done|]. intros E. apply Hne.
      apply artifact_of_spelling in Ea. pose proof (artifact_of_spelling _ _ _ (manifest_artifact_of _ Hv)) as Ea'. unfold artifact_key in E. congruence.
  - intros tenant artifact n [t env]. expose. destruct (Durable.Quarantine env tenant artifact n "integrity" t) as [t' res] eqn:E. apply quarantine_spec in E. cbv zeta in E |- *. destruct res as [[]|e]; [|subst; apply same_view_refl].
    destruct E as (Ht & Ha & Hn & rcd & row & Hr & Hh & Hst & Hcase).
    assert (key_of (generationKey tenant artifact n) = Some (Value tenant, Value artifact, n)) as Hk by (apply key_of_generation; [by eapply valid_fits|by eapply valid_fits|lia]).
    exists rcd. split_and!; [eapply lookup_stored; [done|by exists row]|done|]. destruct Hcase as [[-> E]| ->]; [|apply put_row_view; [done|by apply (holds_with_status _ _ _ StatusQuarantined)]].
    apply record_set_same_record. rewrite <- E. destruct rcd. eapply lookup_stored; [done|by exists row].
  - intros q [t env]. expose. destruct (Durable.Tombstone env q t) as [t' res] eqn:E. apply tombstone_spec in E. cbv zeta in E |- *. destruct res as [g|e]; [|subst; apply same_view_refl].
    destruct E as (Ht & Ha & Hn & Hst & _ & Hcase). split; [done|].
    assert (key_of (generationKey (tr_Tenant q) (tr_Artifact q) (tr_ExpectedGeneration q)) = Some (Value (tr_Tenant q), Value (tr_Artifact q), tr_ExpectedGeneration q)) as Hk
      by (apply key_of_generation; [by eapply valid_fits|by eapply valid_fits|lia]).
    destruct Hcase as [[-> Hs]|(rcd & row & Hr & Hh & Hss & -> & ->)]; [left; split; [apply same_view_refl|by eapply lookup_stored]|right].
    exists rcd. split_and!; [eapply lookup_stored; [done|by exists row]|done|done|]. apply put_row_view; [done|]. by apply holds_with_tombstone, (holds_with_status _ _ _ StatusTombstoned).
  - intros q n [t env] g. expose. intros (Ht & Ha & Hn & Hs & Hst & _)%prepare_spec. split; [|done]. eapply lookup_stored; [apply key_of_generation; [by eapply valid_fits|by eapply valid_fits|lia]|done].
  - intros g [t env]. expose. destruct (Durable.CompletePurge env g t) as [t' res] eqn:E. apply complete_purge_spec in E. cbv zeta in E. destruct res as [[]|e]; [|subst; apply same_view_refl].
    destruct E as (Hv & rcd & row & Hr & Hh & Hf & Hcase). destruct (holds_range _ _ _ Hh) as (_ & _ & _ & Hb). cbn in Hb.
    assert (key_of (manifest_key (gr_Manifest g)) = Some (row_key (gr_Manifest g))) as Hk by (apply manifest_key_of; [done|lia]).
    exists rcd. split_and!; [eapply lookup_stored; [done|by exists row]|done|]. destruct Hcase as [[-> E]|[E ->]]; [left; split; [done|apply same_view_refl]|right; split; [done|]].
    apply put_row_view; [done|by apply (holds_with_status _ _ _ StatusPurged)].
Qed.

(** ** Progress *)

Definition no_faults (env : StorageEnv) : Prop := forall q, sv_fault env q = false.

Section progress.
Context (env : StorageEnv) (calm_env : no_faults env).

Lemma attempt_calm {A} q e (k : result vault_error A) : attempt env q e k = k.
Proof. unfold attempt, fail_if. by rewrite calm_env. Qed.

Lemma in_write_calm {A} t (body : result vault_error (ArtifactTables * A)) t' a : body = Ok (t', a) -> in_write env t body = (t', Ok a).
Proof. intros ->. unfold in_write. by rewrite !calm_env. Qed.

Lemma current_calm t te ar : sound t -> currentGeneration env te ar t = Ok (pointer t (te, ar)).
Proof.
  intros Hs. unfold currentGeneration, pointer. rewrite attempt_calm. destruct (at_current t !! (te, ar)) as [n|] eqn:E; [|done]. destruct (sound_pointers t Hs _ _ E) as [Hn _].
  by rewrite (proj2 (Z.leb_gt _ _)) by lia.
Qed.

Lemma load_calm te ar n t g : stored t (te, ar, n) g -> loadArtifact env te ar n t = Ok g.
Proof. intros (row & Hr & Hh). by eapply load_holds. Qed.

Lemma update_calm t k row from next :
  at_rows t !! k = Some row -> match from with Some s => ma_status (aw_manifest row) = s | None => True end -> status_forward (ma_status (aw_manifest row)) next = true ->
  update_status k from next t = Ok (put_row k (with_status next row) t).
Proof.
  intros Hr Hf Hn. unfold update_status. rewrite Hr, Hn. assert (match from with Some s => negb (String.eqb (ma_status (aw_manifest row)) s) | None => false end = false) as ->; [|done].
  destruct from; [subst; by rewrite String.eqb_refl|done].
Qed.

Lemma begin_calm q locator t : let m := sr_Manifest q in
  sound t -> at_fences t < 2 ^ 63 - 1 -> validManifest m = true -> bindable m -> validLocator locator = true -> at_rows t !! row_key m = None ->
  pointer t (artifact_key m) = sr_ExpectedGeneration q -> am_Generation m = wrapU64 (sr_ExpectedGeneration q + 1) ->
  exists t' g, Durable.BeginStage env q locator t = (t', Ok (g, false)).
Proof.
  cbv zeta. set (m := sr_Manifest q). intros Hs Hf Hv [Hb1 Hb2] Hl Hr Hp Hg. pose proof (validManifest_spec _ Hv) as (_ & _ & _ & Hgen & Hep & Hlen & Hfc).
  unfold Durable.BeginStage. fold m. rewrite Hv, Hl, <- Hg, Z.eqb_refl. assert (sr_ExpectedGeneration q =? 2 ^ 64 - 1 = false) as ->.
  { apply Z.eqb_neq. intros E. rewrite E in Hg. change (wrapU64 (2 ^ 64 - 1 + 1)) with 0 in Hg. lia. }
  cbn [negb orb]. eexists _, _. apply in_write_calm. rewrite current_calm by done. cbn [rbind]. change (Value (am_Tenant m), Value (am_Artifact m)) with (artifact_key m). rewrite Hp, Z.eqb_refl. cbn [negb].
  assert (loadArtifact env (Value (am_Tenant m)) (Value (am_Artifact m)) (am_Generation m) t = Err ErrNotFound) as ->.
  { unfold loadArtifact. rewrite attempt_calm. unfold db_uint. rewrite (proj2 (Z.ltb_lt _ _)) by lia. cbn [negb]. by change (Value (am_Tenant m), Value (am_Artifact m), am_Generation m) with (row_key m); rewrite Hr. }
  unfold Durable.begin_new. fold m. rewrite !attempt_calm. rewrite (proj2 (Z.leb_gt _ _)) by lia. unfold insert_manifest, manifest_row_ok, db_uint. unfold maxArtifactBytes, maxFrameCount in *. change (2 ^ 40) with 1099511627776 in Hlen.
  rewrite !(proj2 (Z.ltb_lt _ _)), !(proj2 (Z.leb_le _ _)) by lia. cbn [at_rows]. rewrite (bool_decide_eq_false_2 (is_Some (at_rows t !! row_key m))) by (rewrite Hr; by intros [? [=]]). cbn [negb orb andb rbind].
  rewrite attempt_calm. unfold insert_reservation. cbn [put_row at_rows at_fences]. rewrite lookup_insert_eq.
  rewrite (bool_decide_eq_false_2 (is_Some (aw_reservation _))) by (cbn; by intros [? [=]]). pose proof (sound_fences t Hs) as Hf0. rewrite (proj2 (Z.leb_gt _ _)), (proj2 (Z.ltb_ge _ _)) by lia.
  assert (forall x, fence_taken (at_fences t + 1) (put_row (row_key m) (MkArtifactRow x None [] None) (MkArtifactTables (at_rows t) (at_current t) (at_fences t + 1))) = false) as Hfree.
  { intros x. unfold fence_taken. apply existsb_false_iff. intros [k row] Hin%elem_of_map_to_list. cbn in Hin |- *. destruct (decide (row_key m = k)) as [<-|Hne].
    - rewrite lookup_insert_eq in Hin. injection Hin as <-. done.
    - rewrite lookup_insert_ne in Hin by done. destruct (sound_rows t Hs _ _ Hin) as (g & Hh & _ & Hle & _). rewrite (hold_reservation _ _ _ Hh). apply Z.eqb_neq. lia. }
  rewrite Hfree. cbn [orb rbind]. reflexivity.
Qed.

Lemma publish_calm q t g : let m := pr_Manifest q in
  sound t -> stored t (row_key m) g -> gr_Manifest g = m -> gr_Status g = StatusStaged -> complete g = true -> pointer t (artifact_key m) = pr_ExpectedGeneration q ->
  am_Generation m = wrapU64 (pr_ExpectedGeneration q + 1) -> exists t' g', Durable.Publish env q t = (t', Ok g').
Proof.
  cbv zeta. set (m := pr_Manifest q). intros Hs Hst Hm Hss Hc Hp Hg. pose proof Hst as (row & Hr & Hh). pose proof (hold_valid _ _ _ Hh) as Hv. rewrite Hm in Hv.
  pose proof (validManifest_spec _ Hv) as (_ & _ & _ & Hgen & _ & _ & Hfc). unfold Durable.Publish. fold m. rewrite Hv, <- Hg, Z.eqb_refl. assert (pr_ExpectedGeneration q =? 2 ^ 64 - 1 = false) as ->.
  { apply Z.eqb_neq. intros E. rewrite E in Hg. change (wrapU64 (2 ^ 64 - 1 + 1)) with 0 in Hg. lia. }
  assert (validFrames m (gr_Frames g) = true) as Hvf.
  { destruct (hold_valid_frames _ _ _ Hh) as [E|E]; [|by rewrite Hm in E]. unfold complete in Hc. rewrite E, Hm in Hc. cbn in Hc. bool_prop. lia. }
  cbn [negb orb]. eexists _, _. apply in_write_calm. rewrite current_calm by done. cbn [rbind]. change (Value (am_Tenant m), Value (am_Artifact m)) with (artifact_key m). rewrite (load_calm _ _ _ _ _ Hst).
  rewrite Hm, Hss, Hp, Z.eqb_refl, Hvf, (bool_decide_eq_false_2 (StatusStaged = StatusPublished)), !bool_decide_eq_true_2 by done. cbn [negb orb andb]. rewrite attempt_calm.
  rewrite (update_calm _ _ row) by (done || by rewrite (hold_status _ _ _ Hh), Hss). cbn [rbind]. rewrite attempt_calm.
  assert (pointer_ok (row_key m) (put_row (row_key m) (with_status "published" row) t) = true) as Hok.
  { unfold pointer_ok. cbn. rewrite lookup_insert_eq. destruct (sound_rows t Hs _ _ Hr) as (g0 & Hh0 & Hsort & _). eapply (holds_complete _ _ _ (holds_with_status _ _ _ StatusPublished Hh)); [|done|by cbn; rewrite Hm].
    cbn. pose proof (hold_frames _ _ _ Hh) as Hf. rewrite Hsort in Hf. by apply scanned_rows in Hf. }
  unfold move_pointer. rewrite Hok. cbn [put_row at_current]. unfold artifact_key in Hp. unfold pointer in Hp. destruct (at_current t !! _) as [n|] eqn:Ec; cbn in Hp.
  - destruct (sound_pointers t Hs _ _ Ec) as [Hn _]. subst n. rewrite (proj2 (Z.eqb_neq _ _)) by lia. unfold db_uint. rewrite (proj2 (Z.ltb_lt _ _)), bool_decide_eq_true_2 by (done || lia). cbn [negb rbind]. reflexivity.
  - rewrite <- Hp. cbn [Z.eqb]. rewrite bool_decide_eq_false_2 by (by intros [? [=]]). cbn [orb negb rbind]. reflexivity.
Qed.
End progress.

Lemma lookup_inv r s g : lookup_record r s = Some g -> exists k, key_of s = Some k /\ stored (dr_tables r) k g.
Proof. intros Hl. destruct (key_of s) as [k|] eqn:Hk; [|cbn in Hl; by rewrite Hk in Hl]. exists k. split; [done|]. by apply (lookup_stored r s k). Qed.

(** A record found under its own key. *)
Lemma lookup_own r g : lookup_record r (manifest_key (gr_Manifest g)) = Some g -> stored (dr_tables r) (row_key (gr_Manifest g)) g.
Proof. intros (k & _ & Hs)%lookup_inv. by destruct (stored_range _ _ _ Hs) as (_ & <- & _). Qed.

(** A record found under a name the vault accepts. *)
Lemma lookup_named r tenant artifact n g :
  named tenant artifact n -> lookup_record r (generationKey tenant artifact n) = Some g ->
  stored (dr_tables r) (Value tenant, Value artifact, n) g /\ validID tenant "tenant" = true /\ validID artifact "artifact" = true.
Proof.
  intros (Ht & Ha & Hn) (k & Hk & Hs)%lookup_inv. assert (forall id ns, validateID id ns = true -> fits (Value id) /\ Namespace id = ns) as Hfit.
  { intros id ns Hv. unfold validateID in Hv. bool_prop. split; [unfold fits; apply (Z.le_lt_trans _ 512); [done|reflexivity]|by apply String.eqb_eq]. }
  rewrite key_of_generation in Hk; [|by apply (Hfit _ "tenant")|by apply (Hfit _ "artifact")|lia]. injection Hk as <-. split; [done|].
  destruct Hs as (row & _ & Hh). pose proof (hold_valid _ _ _ Hh) as Hv. rewrite (hold_manifest _ _ _ Hh) in Hv. apply validManifest_spec in Hv as (Hvt & Hva & _). cbn in Hvt, Hva.
  destruct (Hfit _ _ Ht) as [_ Et], (Hfit _ _ Ha) as [_ Ea]. destruct tenant as [x tv], artifact as [y av]. cbn in Et, Ea. subst x y. done.
Qed.

Definition serving (r : DurableRepository) : Prop := no_faults (dr_env r) /\ sound (dr_tables r).

Lemma serving_change {A} (op : StorageEnv -> ArtifactTables -> ArtifactTables * result vault_error A) r :
  (forall env t, change t (fst (op env t))) -> serving r -> serving (fst (on_tables op r)).
Proof.
  intros Hop [Hf Hs]. unfold on_tables. pose proof (Hop (dr_env r) (dr_tables r)) as Hc. destruct (op _ _) as [t res]. split; [done|]. by eapply change_sound.
Qed.

#[export] Instance Durable_progress : RepositoryProgress (R := DurableRepository).
Proof.
  refine (Build_RepositoryProgress (R := DurableRepository) serving (fun r => at_fences (dr_tables r) < 2 ^ 63 - 1) _ _ _ _ _ _ _ _ _).
  - intros q locator r. apply serving_change. intros env t. apply begin_change.
  - intros g r. apply serving_change. intros env t. apply complete_change.
  - intros q locator [t env] m [Hf Hs] Hready Hv Hb Hl Hn Hp Hg. cbn [dr_env dr_tables] in *. expose.
    assert (at_rows t !! row_key m = None) as Hr.
    { destruct (at_rows t !! row_key m) as [row|] eqn:E; [|done]. destruct (sound_rows t Hs _ _ E) as (g & Hh & _). destruct Hb as [Hb _].
      assert (lookup_record (MkDurable t env) (manifest_key m) = Some g) as Hg'; [|congruence]. eapply lookup_stored; [apply manifest_key_of; [done|lia]|by exists row]. }
    cbn in Hp. rewrite (manifest_artifact_of _ Hv) in Hp. destruct (begin_calm env Hf q locator t) as (t' & g & ->); [done..|]. eauto.
  - intros g frames [t env] [Hf Hs] Hg%lookup_own Hn Hst Hvf. cbn [dr_env dr_tables] in *. expose. pose proof Hg as (row & Hr & Hh). pose proof (hold_valid _ _ _ Hh) as Hv.
    destruct (insert_frames_ok env (row_key (gr_Manifest g)) row frames (gr_Manifest g) t) as [t' Hi]; [done|done|by rewrite (hold_status _ _ _ Hh), Hst|by eapply holds_no_frames|done|done|].
    exists (MkDurable t' env). unfold Durable.CompleteStage. cbn [set_frames gr_Manifest gr_Frames gr_Fence gr_Locator]. rewrite Hv, Hvf. cbn [negb].
    rewrite (in_write_calm env Hf t _ t' tt); [done|]. rewrite (load_calm env Hf _ _ _ _ _ Hg), Hst, Hn, Z.eqb_refl, String.eqb_refl, !bool_decide_eq_true_2 by done. cbn [negb orb length Nat.eqb]. by rewrite Hi.
  - intros g [t env] rcd [Hf Hs] Hl Hm Hfe Hn Hst. rewrite <- Hm in Hl. apply lookup_own in Hl. cbn [dr_env dr_tables] in *. expose. pose proof Hl as (row & Hr & Hh). pose proof (hold_valid _ _ _ Hh) as Hv. pose proof (hold_fence _ _ _ Hh) as Hfp.
    destruct (sound_rows t Hs _ _ Hr) as (g0 & Hh0 & _ & _ & Hfree). rewrite <- (holds_unique _ _ _ _ Hh Hh0) in Hfree. destruct (Hfree Hst) as [Ht Hcur]. cbn in Hcur.
    unfold Durable.AbortStage. rewrite <- Hm, Hv, <- Hfe, (proj2 (Z.eqb_neq _ _)) by lia. cbn [negb orb].
    rewrite (in_write_calm env Hf t _ (MkArtifactTables (delete (row_key (gr_Manifest rcd)) (at_rows t)) (at_current t) (at_fences t)) tt); [eauto|].
    rewrite (load_calm env Hf _ _ _ _ _ Hl), Hst, Hn, Z.eqb_refl, bool_decide_eq_true_2 by done. cbn [negb orb length Nat.eqb]. rewrite attempt_calm by done. unfold Durable.delete_manifest.
    rewrite Hr, (holds_no_frames _ _ _ Hh Hn), Ht, bool_decide_eq_false_2, bool_decide_eq_false_2 by (done || by intros [? [=]]). done.
  - intros tenant artifact n [t env] g [Hf Hs] Hnm Hl. destruct (lookup_named _ _ _ _ _ Hnm Hl) as (Hg & Ht & Ha). destruct Hnm as (_ & _ & Hn). cbn [dr_env dr_tables] in *. expose.
    unfold Durable.Get. rewrite Ht, Ha, (proj2 (Z.ltb_lt _ _)) by lia. cbn [negb orb]. by apply load_calm.
  - intros q [t env] g m [Hf Hs] Hl Hm Hst Hc Hp Hg. rewrite <- Hm in Hl. apply lookup_own in Hl. rewrite Hm in Hl. cbn [dr_env dr_tables] in *. expose.
    pose proof Hl as (row & Hr & Hh). pose proof (hold_valid _ _ _ Hh) as Hv. rewrite Hm in Hv. cbn in Hp. rewrite (manifest_artifact_of _ Hv) in Hp.
    destruct (publish_calm env Hf q t g) as (t' & g' & ->); [done..|]. eauto.
  - intros tenant artifact n [t env] g [Hf Hs] Hnm Hl Hst. destruct (lookup_named _ _ _ _ _ Hnm Hl) as (Hg & Ht & Ha). destruct Hnm as (_ & _ & Hn). cbn [dr_env dr_tables] in *. expose.
    pose proof Hg as (row & Hr & Hh). unfold Durable.Quarantine. rewrite Ht, Ha, (proj2 (Z.ltb_lt _ _)) by lia. cbn [negb orb String.eqb Ascii.eqb Bool.eqb]. change (128 <? len "integrity") with false. cbn [orb]. unfold Durable.transition.
    assert (exists t', rbind (fun record => if negb (existsb (fun s => bool_decide (s = gr_Status record)) [StatusStaged; StatusPublished; StatusTombstoned; StatusQuarantined]) then Err ErrConflict
      else if bool_decide (gr_Status record = StatusQuarantined) then Ok (t, tt) else attempt env XStatus ErrConflict (do t <- update_status (Value tenant, Value artifact, n) None (status_text StatusQuarantined) t ; Ok (t, tt)))
      (loadArtifact env (Value tenant) (Value artifact) n t) = Ok (t', tt)) as [t' Hb].
    { rewrite (load_calm env Hf _ _ _ _ _ Hg). cbn [rbind]. rewrite attempt_calm by done. assert (status_forward (ma_status (aw_manifest row)) "quarantined" = true) as Hfw by (rewrite (hold_status _ _ _ Hh); by destruct (gr_Status g)).
      rewrite (update_calm _ _ row) by done. cbn [rbind]. destruct (gr_Status g); cbn; eauto; congruence. }
    rewrite (in_write_calm env Hf t _ t' tt Hb). eauto.
  - intros g [t env] [Hf Hs] Hg%lookup_own Hst. cbn [dr_env dr_tables] in *. expose. pose proof Hg as (row & Hr & Hh). pose proof (hold_valid _ _ _ Hh) as Hv. pose proof (hold_fence _ _ _ Hh) as Hfp.
    unfold Durable.CompletePurge. rewrite Hv, (proj2 (Z.eqb_neq _ _)) by lia. cbn [negb orb].
    rewrite (in_write_calm env Hf t _ (put_row (row_key (gr_Manifest g)) (with_status "purged" row) t) tt); [eauto|].
    rewrite (load_calm env Hf _ _ _ _ _ Hg), Hst, Z.eqb_refl, (bool_decide_eq_false_2 (StatusTombstoned = StatusPurged)), bool_decide_eq_true_2 by done. cbn [negb]. rewrite attempt_calm by done.
    rewrite (update_calm _ _ row) by (done || by rewrite (hold_status _ _ _ Hh), Hst). done.
Defined.
