(* ===== verification/StorageSafety.v ===== *)
(** * localstorage: what holds of every reachable state of the artifact tables

    [dstep] is one call of the durable repository, whatever fails in it.
    [history] is the shape of the generations of an artifact that every run
    keeps.  [shared_step] interleaves these calls with those of the authority
    ledger, which writes the same table of manifests. *)

From Stdlib Require Import Ascii String.
From stdpp Require Import gmap strings relations.
From S2P Require Import Prelude GoString Float64 Runtime FactoryDemo BrokerDemo Contracts Composite SqlTable AuditChain EventKernel AuthorityLedger AuthorityTrail AuthorityInvariant AuthorityDemo Vault StorageRules VaultRepository VaultFrames VaultStaging VaultSafety VaultTheorems VaultDemo Storage StorageEffects StorageLaws.
Open Scope string_scope.
Open Scope Z_scope.

(** ** Steps *)

Inductive dstep : ArtifactTables -> ArtifactTables -> Prop :=
| dstep_begin env q locator t : dstep t (fst (Durable.BeginStage env q locator t))
| dstep_complete env g t : dstep t (fst (Durable.CompleteStage env g t))
| dstep_abort env g t : dstep t (fst (Durable.AbortStage env g t))
| dstep_publish env q t : dstep t (fst (Durable.Publish env q t))
| dstep_quarantine env tenant artifact n reason t : dstep t (fst (Durable.Quarantine env tenant artifact n reason t))
| dstep_tombstone env q t : dstep t (fst (Durable.Tombstone env q t))
| dstep_purge env g t : dstep t (fst (Durable.CompletePurge env g t)).

Create HintDb storage.
#[export] Hint Resolve begin_change complete_change abort_change publish_change quarantine_change tombstone_change complete_purge_change : storage.

Lemma dstep_change t t' : dstep t t' -> change t t'.
Proof. intros []; auto with storage. Qed.

(** ** The history of an artifact *)

(** A generation that was current once: all its frames are there, and it is past staging. *)
Definition settled (t : ArtifactTables) (k : string * string * Z) : Prop :=
  exists g, stored t k g /\ validFrames (gr_Manifest g) (gr_Frames g) = true /\ gr_Status g <> StatusStaged.

Record history (t : ArtifactTables) : Prop := {
  history_settled : forall a n, 0 < n <= pointer t a -> settled t (a, n);
  history_frontier : forall a n, is_Some (row_of t (a, n)) -> n <= pointer t a + 1;
  history_fences : forall k k' g g', stored t k g -> stored t k' g' -> gr_Fence g = gr_Fence g' -> k = k'
}.

Lemma history_empty : history empty_tables.
Proof.
  split; unfold pointer; cbn.
  - intros a n. rewrite lookup_empty. cbn. lia.
  - intros a n [? H]. by rewrite lookup_empty in H.
  - intros k k' g g' (row & H & _). cbn in H. by rewrite lookup_empty in H.
Qed.

(** What is stored after a row was written. *)
Lemma stored_put t k row cur fences k' g' :
  stored (MkArtifactTables (<[k := row]> (at_rows t)) cur fences) k' g' <-> if decide (k' = k) then holds k row g' else stored t k' g'.
Proof.
  unfold stored. cbn. destruct (decide (k' = k)) as [-> |Hne].
  - rewrite lookup_insert_eq. split; [by intros (? & [= <-] & H)|eauto].
  - by rewrite lookup_insert_ne.
Qed.

(** A record replaced by another with the same fence, no less settled. *)
Lemma history_put t k row row' g g' :
  history t -> row_of t k = Some row -> holds k row g -> holds k row' g' -> gr_Fence g' = gr_Fence g ->
  (settled t k -> validFrames (gr_Manifest g') (gr_Frames g') = true /\ gr_Status g' <> StatusStaged) -> history (put_row k row' t).
Proof.
  intros [Hs Hf Hu] Hr Hh Hh' Hfe Hset. assert (stored t k g) as Hg by (by exists row).
  assert (forall k1 g1, stored (put_row k row' t) k1 g1 -> exists g0, stored t k1 g0 /\ gr_Fence g0 = gr_Fence g1) as Hback.
  { intros k1 g1 H1%stored_put. destruct (decide (k1 = k)) as [-> |]; [|eauto]. exists g. split; [done|]. by rewrite (holds_unique _ _ _ _ H1 Hh'). }
  split.
  - intros a n Hn. specialize (Hs a n Hn). destruct (decide ((a, n) = k)) as [E|Hne].
    + exists g'. rewrite E in *. split; [apply stored_put; by rewrite decide_True|by apply Hset].
    + destruct Hs as (g1 & H1 & H2). exists g1. split; [|done]. apply stored_put. by rewrite decide_False.
  - intros a n Hn. apply Hf. destruct (decide (k = (a, n))) as [<-|Hne]; [by eexists|]. cbn in Hn; by rewrite lookup_insert_ne in Hn.
  - intros k1 k2 g1 g2 (h1 & A1 & <-)%Hback (h2 & A2 & <-)%Hback. by apply Hu.
Qed.

Lemma settled_facts t k row g : row_of t k = Some row -> holds k row g -> settled t k -> validFrames (gr_Manifest g) (gr_Frames g) = true /\ gr_Status g <> StatusStaged.
Proof. intros Hr Hh (g' & Hg & Hv). by rewrite (stored_unique t k g g') by (done || by exists row). Qed.

(** The generation a reservation or a publication names. *)
Lemma next_generation t m : sound t -> 0 < am_Generation m -> am_Generation m = wrapU64 (pointer t (artifact_key m) + 1) -> am_Generation m = pointer t (artifact_key m) + 1.
Proof.
  intros Hs Hg ->. unfold wrapU64. apply Z.mod_small. unfold pointer. destruct (at_current t !! artifact_key m) as [n|] eqn:E; cbn; [|lia].
  destruct (sound_pointers t Hs _ _ E). lia.
Qed.

Lemma pointer_nonneg t a : sound t -> 0 <= pointer t a.
Proof. intros Hs. unfold pointer. destruct (at_current t !! a) as [n|] eqn:E; cbn; [|lia]. destruct (sound_pointers t Hs _ _ E). lia. Qed.

Lemma history_begin t g row :
  sound t -> history t -> row_of t (row_key (gr_Manifest g)) = None -> holds (row_key (gr_Manifest g)) row g ->
  am_Generation (gr_Manifest g) = pointer t (artifact_key (gr_Manifest g)) + 1 -> gr_Fence g = at_fences t + 1 ->
  history (put_row (row_key (gr_Manifest g)) row (MkArtifactTables (at_rows t) (at_current t) (at_fences t + 1))).
Proof.
  intros Hs [Hset Hfr Hu] Hn Hh Hg Hf. set (k := row_key (gr_Manifest g)) in *. set (t1 := MkArtifactTables _ _ _).
  assert (forall k1 g1, stored t k1 g1 -> k1 <> k /\ gr_Fence g1 <= at_fences t) as Hold.
  { intros k1 g1 (row1 & Hr1 & Hh1). split; [congruence|]. destruct (sound_rows t Hs _ _ Hr1) as (g0 & H0 & _ & Hle & _). by rewrite (holds_unique _ _ _ _ Hh1 H0). }
  assert (forall k1 g1, stored (put_row k row t1) k1 g1 -> k1 = k /\ gr_Fence g1 = at_fences t + 1 \/ stored t k1 g1) as Hcase.
  { intros k1 g1 H1%stored_put. destruct (decide (k1 = k)) as [-> |]; [left|by right]. split; [done|]. by rewrite (holds_unique _ _ _ _ H1 Hh). }
  split.
  - intros a n H0. destruct (Hset a n H0) as (g1 & H1 & H2). exists g1. split; [|done]. apply stored_put. rewrite decide_False; [done|]. by apply Hold in H1 as [? _].
  - intros a n H0. change (pointer (put_row k row t1) a) with (pointer t a). destruct (decide (k = (a, n))) as [E|Hne].
    + injection E as <- <-. unfold artifact_key in Hg. lia.
    + apply Hfr. cbn in H0. by rewrite lookup_insert_ne in H0.
  - intros k1 k2 g1 g2 [[-> E1]|H1]%Hcase [[-> E2]|H2]%Hcase E; [done| | |by eapply Hu].
    + apply Hold in H2 as [_ ?]. lia.
    + apply Hold in H1 as [_ ?]. lia.
Qed.

Lemma history_delete t k row g :
  history t -> row_of t k = Some row -> holds k row g -> gr_Status g = StatusStaged ->
  history (MkArtifactTables (delete k (at_rows t)) (at_current t) (at_fences t)).
Proof.
  intros [Hset Hfr Hu] Hr Hh Hst. set (t1 := MkArtifactTables _ _ _).
  assert (forall k1 g1, stored t1 k1 g1 -> stored t k1 g1) as Hback.
  { intros k1 g1 (row1 & Hr1 & Hh1). cbn in Hr1. apply lookup_delete_Some in Hr1 as [_ Hr1]. by exists row1. }
  split.
  - intros a n H0. specialize (Hset a n H0). destruct (decide ((a, n) = k)) as [E|Hne].
    + rewrite E in Hset. by destruct (settled_facts _ _ _ _ Hr Hh Hset).
    + destruct Hset as (g1 & (row1 & Hr1 & Hh1) & H2). exists g1. split; [|done]. exists row1. split; [|done]. cbn. by rewrite lookup_delete_ne.
  - intros a n [row1 H1]. apply Hfr. cbn in H1. apply lookup_delete_Some in H1 as [_ H1]. by exists row1.
  - intros k1 k2 g1 g2 H1%Hback H2%Hback. by apply Hu.
Qed.

Lemma history_publish t k row g :
  history t -> row_of t k = Some row -> holds k row g -> gr_Status g = StatusStaged -> validFrames (gr_Manifest g) (gr_Frames g) = true ->
  am_Generation (gr_Manifest g) = pointer t (artifact_key (gr_Manifest g)) + 1 ->
  history (set_pointer (artifact_key (gr_Manifest g)) (am_Generation (gr_Manifest g)) (put_row k (with_status "published" row) t)).
Proof.
  intros Hi Hr Hh Hst Hv Hg. pose proof (holds_with_status _ _ _ StatusPublished Hh) as Hh'.
  destruct (history_put t k row (with_status "published" row) g _ Hi Hr Hh Hh') as [Hset Hfr Hu]; [done|done|].
  destruct (holds_range _ _ _ Hh) as (Ek & E1 & E2 & _). set (a0 := artifact_key (gr_Manifest g)) in *. set (n0 := am_Generation (gr_Manifest g)) in *. set (t1 := put_row _ _ _) in *.
  assert (k = (a0, n0)) as -> by (by rewrite (surjective_pairing k), E1, E2).
  assert (forall a, pointer (set_pointer a0 n0 t1) a = if decide (a = a0) then n0 else pointer t a) as Hp.
  { intros a. unfold pointer, set_pointer. cbn. destruct (decide (a = a0)) as [-> |Hne]; [by rewrite lookup_insert_eq|by rewrite lookup_insert_ne]. }
  split; [intros a n|intros a n|exact Hu]; rewrite Hp; destruct (decide (a = a0)) as [-> |Hne].
  - intros Hn. destruct (decide (n = n0)) as [-> |]; [|apply Hset; change (pointer t1 a0) with (pointer t a0); lia].
    exists (Vault.set_status StatusPublished g). split; [|done]. apply stored_put. by rewrite decide_True.
  - apply Hset.
  - intros H0%Hfr. change (pointer t1 a0) with (pointer t a0) in H0. lia.
  - apply Hfr.
Qed.

Lemma change_history t t' : sound t -> history t -> change t t' -> history t'.
Proof.
  intros Hs Hi Hc. destruct Hc as [|g row Hn Hh Hfr Ht Hst Hpt Hfe|k row g fs Hk Hh Hn Hst Hv|k row g Hk Hh Hst Hn Hcur|k row g Hk Hh Hst Hv Hg|k row g s Hk Hh Hm|k row g x Hk Hh Hst].
  - done.
  - apply history_begin; try done. apply (next_generation _ _ Hs); [|done]. by destruct (holds_range _ _ _ Hh) as (_ & _ & _ & ? & _).
  - eapply history_put; [done|done|done|by apply holds_with_frames|done|]. intros [_ ?]%(settled_facts _ _ _ _ Hk Hh). done.
  - by eapply history_delete.
  - apply history_publish; try done. apply (next_generation _ _ Hs); [|done]. destruct (holds_range _ _ _ Hh) as (_ & _ & <- & ? & _). done.
  - eapply history_put; [done|done|done|by apply holds_with_status|done|]. intros [Hv _]%(settled_facts _ _ _ _ Hk Hh). split; [done|]. cbn. intros ->.
    by destruct Hm as [[[=] _]|[[[=] _]|[[[=]|[=]] _]]].
  - eapply history_put; [done|done|done|exact (holds_with_tombstone _ _ _ _ (holds_with_status _ _ _ StatusTombstoned Hh))|done|]. by intros [Hv _]%(settled_facts _ _ _ _ Hk Hh).
Qed.

Definition tables_inv (t : ArtifactTables) : Prop := sound t /\ history t.

Lemma tables_empty : tables_inv empty_tables.
Proof. split; [apply sound_empty|apply history_empty]. Qed.

Lemma tables_change t t' : tables_inv t -> change t t' -> tables_inv t'.
Proof. intros [Hs Hi] Hc. split; [by eapply change_sound|by eapply change_history]. Qed.

Lemma tables_reachable t : rtc dstep empty_tables t -> tables_inv t.
Proof. intros Hr. eapply rtc_ind_r with (P := tables_inv); [apply tables_empty| |exact Hr]. intros x y _ Hc%dstep_change Hx. by eapply tables_change. Qed.

(** C16. The history of an artifact has no gaps: whatever calls were made and
    whatever failed, every generation up to the current one can be read, is
    complete and past staging; the only other one there may be is the next, and
    it can be read too; a fence belongs to one generation. *)
Theorem durable_history_is_contiguous t tenant artifact :
  rtc dstep empty_tables t ->
  (forall n, 0 < n <= pointer t (tenant, artifact) ->
     exists g, loadArtifact calm tenant artifact n t = Ok g /\ validFrames (gr_Manifest g) (gr_Frames g) = true /\ gr_Status g <> StatusStaged) /\
  (forall n, is_Some (row_of t (tenant, artifact, n)) ->
     0 < n <= pointer t (tenant, artifact) + 1 /\ exists g, loadArtifact calm tenant artifact n t = Ok g) /\
  (forall n tenant' artifact' n' g g', loadArtifact calm tenant artifact n t = Ok g -> loadArtifact calm tenant' artifact' n' t = Ok g' ->
     gr_Fence g = gr_Fence g' -> (tenant, artifact, n) = (tenant', artifact', n')).
Proof.
  intros [Hs [Hset Hfr Hu]]%tables_reachable. split_and!.
  - intros n (g & Hg & Hv)%Hset. exists g. split; [by apply load_calm_iff|done].
  - intros n Hn. pose proof (Hfr _ _ Hn) as Hle. destruct Hn as [row Hr]. destruct (sound_rows t Hs _ _ Hr) as (g & Hh & _). destruct (holds_range _ _ _ Hh) as (_ & _ & _ & Hb). cbn in Hb.
    split; [lia|]. exists g. apply load_calm_iff. by exists row.
  - intros n te ar n' g g' Hg%load_stored Hg'%load_stored. by apply Hu.
Qed.

(** ** The table of manifests is shared with the authority ledger *)

Record Shared := MkShared { sh_db : DB; sh_tables : ArtifactTables }.

Definition set_manifests (ms : gmap (string * string * Z) ManifestRow) (a : Artifacts) : Artifacts := MkArtifacts ms (a_tombstones a) (a_purges a).
Definition manifests_of (t : ArtifactTables) : gmap (string * string * Z) ManifestRow := aw_manifest <$> at_rows t.

(** The tables after another writer changed the manifests. *)
Definition adopt_row (m : option ManifestRow) (row : ArtifactRow) : ArtifactRow :=
  match m with Some m => MkArtifactRow m (aw_reservation row) (aw_frames row) (aw_tombstone row) | None => row end.
Definition adopt (ms : gmap (string * string * Z) ManifestRow) (t : ArtifactTables) : ArtifactTables :=
  MkArtifactTables (map_imap (fun k row => Some (adopt_row (ms !! k) row)) (at_rows t)) (at_current t) (at_fences t).

Section shared.
Context `{GoRuntime}.

Inductive shared_step : Shared -> Shared -> Prop :=
| shared_storage s t : dstep (sh_tables s) t -> shared_step s (MkShared (set_artifacts (set_manifests (manifests_of t) (d_artifacts (sh_db s))) (sh_db s)) t)
| shared_ledger s d : lcall (sh_db s) d -> shared_step s (MkShared d (adopt (a_manifests (d_artifacts d)) (sh_tables s))).

Record shared_inv (s : Shared) : Prop := {
  shared_ledger_inv : ledger_inv (sh_db s);
  shared_tables_inv : tables_inv (sh_tables s);
  shared_manifests : a_manifests (d_artifacts (sh_db s)) = manifests_of (sh_tables s)
}.

(** What the repository does to the manifests is what the triggers allow. *)
Lemma denies_path s s' : denies s s' -> status_path (status_text s) (status_text s').
Proof.
  intros [[-> Hs]|[[-> ->]|[[-> | ->] ->]]].
  - destruct s; [by apply rtc_once..|done|apply rtc_refl].
  - by apply rtc_once.
  - by apply rtc_once.
  - apply (rtc_l _ _ "tombstoned"); [done|by apply rtc_once].
Qed.

Lemma forward_put t k row row' cur fences :
  row_of t k = Some row -> status_path (ma_status (aw_manifest row)) (ma_status (aw_manifest row')) ->
  manifests_forward (manifests_of t) (manifests_of (MkArtifactTables (<[k := row']> (at_rows t)) cur fences)).
Proof.
  intros Hr Hp k1 m Hm. left. unfold manifests_of in *. cbn. rewrite fmap_insert. destruct (decide (k1 = k)) as [-> |Hne].
  - rewrite lookup_insert_eq. rewrite lookup_fmap, Hr in Hm. injection Hm as <-. eauto.
  - rewrite lookup_insert_ne by done. exists m. split; [done|apply rtc_refl].
Qed.

Lemma change_forward t t' : change t t' -> manifests_forward (manifests_of t) (manifests_of t').
Proof.
  intros Hc. destruct Hc as [|g row Hn Hh Hfr Ht Hst Hpt Hfe|k row g fs Hk Hh Hn Hst Hv|k row g Hk Hh Hst Hn Hcur|k row g Hk Hh Hst Hv Hg|k row g s Hk Hh Hm|k row g x Hk Hh Hst].
  - intros k m Hm. left. exists m. split; [done|apply rtc_refl].
  - intros k m Hm. left. exists m. split; [|apply rtc_refl]. unfold manifests_of in *. cbn. rewrite fmap_insert, lookup_insert_ne; [done|]. intros <-. by rewrite lookup_fmap, Hn in Hm.
  - apply (forward_put _ _ row); [done|apply rtc_refl].
  - intros k' m Hm. unfold manifests_of in *. cbn. rewrite fmap_delete. destruct (decide (k = k')) as [<-|Hne].
    + right. rewrite lookup_delete_eq. rewrite lookup_fmap, Hk in Hm. injection Hm as <-. split; [done|]. by rewrite (hold_status _ _ _ Hh), Hst.
    + left. rewrite lookup_delete_ne by done. exists m. split; [done|apply rtc_refl].
  - apply (forward_put _ _ row); [done|]. rewrite (hold_status _ _ _ Hh), Hst. by apply rtc_once.
  - apply (forward_put _ _ row); [done|]. rewrite (hold_status _ _ _ Hh). by apply denies_path.
  - apply (forward_put _ _ row); [done|]. rewrite (hold_status _ _ _ Hh), Hst. by apply rtc_once.
Qed.

(** What the ledger does to the manifests is a change of the tables. *)
Lemma adopt_lookup ms t k : row_of (adopt ms t) k = adopt_row (ms !! k) <$> row_of t k.
Proof. unfold adopt. cbn. rewrite map_lookup_imap. by destruct (row_of t k). Qed.

Lemma adopt_same t : adopt (manifests_of t) t = t.
Proof.
  destruct t as [rows cur f]. unfold adopt. cbn. f_equal. apply map_eq. intros k. rewrite map_lookup_imap. unfold manifests_of. cbn. destruct (rows !! k) as [row|] eqn:E; [|done].
  cbn. rewrite lookup_fmap, E. by destruct row.
Qed.

Lemma adopt_one t k row st :
  row_of t k = Some row -> adopt (<[k := AuthorityLedger.set_status st (aw_manifest row)]> (manifests_of t)) t = put_row k (with_status st row) t.
Proof.
  intros Hr. unfold adopt, put_row. f_equal. apply map_eq. intros k'. rewrite map_lookup_imap. destruct (decide (k' = k)) as [-> |Hne].
  - by rewrite Hr, !lookup_insert_eq.
  - rewrite !lookup_insert_ne by done. unfold manifests_of. rewrite lookup_fmap. destruct (row_of t k') as [[]|]; done.
Qed.

Lemma manifests_adopt ms t : dom ms = dom (at_rows t) -> manifests_of (adopt ms t) = ms.
Proof.
  intros Hd. apply map_eq. intros k. unfold manifests_of. rewrite lookup_fmap, adopt_lookup. destruct (row_of t k) as [row|] eqn:E; cbn.
  - assert (is_Some (ms !! k)) as [m Hm] by (apply elem_of_dom; rewrite Hd; by apply elem_of_dom; eexists). by rewrite Hm.
  - symmetry. apply not_elem_of_dom. rewrite Hd. by apply not_elem_of_dom.
Qed.

Lemma deletes_change t ms : sound t -> deletes_one (manifests_of t) ms -> change t (adopt ms t) /\ manifests_of (adopt ms t) = ms.
Proof.
  intros Hs [-> |(k & m & st & Hm & Hp & Hst & ->)].
  - rewrite adopt_same. split; [constructor|done].
  - unfold manifests_of in Hm. rewrite lookup_fmap in Hm. destruct (row_of t k) as [row|] eqn:Hr; [|done]. injection Hm as <-. split.
    + rewrite adopt_one by done. destruct (sound_rows t Hs _ _ Hr) as (g & Hh & _). assert (gr_Status g = StatusPublished) as Hg.
      { rewrite (hold_status _ _ _ Hh) in Hp. by destruct (gr_Status g). }
      destruct Hst as [-> | ->]; [apply (change_deny _ _ _ g StatusTombstoned)|apply (change_deny _ _ _ g StatusPurged)]; try done; right; right; auto.
    + apply manifests_adopt. unfold manifests_of. rewrite dom_insert_L, dom_fmap_L. apply elem_of_dom_2 in Hr. set_solver.
Qed.

Lemma shared_step_inv s s' : shared_inv s -> shared_step s s' -> shared_inv s'.
Proof.
  intros [Hl Ht Hm] Hs. destruct Hs as [s t Hc%dstep_change|s d Hc].
  - split; cbn; [|by eapply tables_change|done]. apply metadata_inv; [done|]. split_and!; [|done|done]. cbn. rewrite Hm. by apply change_forward.
  - pose proof (ledger_call_manifests _ _ Hl Hc) as Hd. rewrite Hm in Hd. destruct (deletes_change _ _ (proj1 Ht) Hd) as [Ha He].
    split; cbn; [by eapply ledger_step_inv, lcall_step|by eapply tables_change|done].
Qed.

Lemma shared_reachable s : rtc shared_step (MkShared empty_db empty_tables) s -> shared_inv s.
Proof.
  intros Hr. eapply rtc_ind_r with (P := shared_inv); [|intros x y _ Hs Hx; by eapply shared_step_inv|exact Hr].
  split; [apply empty_inv|apply tables_empty|]. unfold manifests_of. cbn. by rewrite fmap_empty.
Qed.

(** A row whose manifest is denied reads as a denied record. *)
Lemma denied_record s k m :
  shared_inv s -> a_manifests (d_artifacts (sh_db s)) !! k = Some m -> exists g, stored (sh_tables s) k g /\ ma_status m = status_text (gr_Status g).
Proof.
  intros [_ [Hs _] Hm] Hk. rewrite Hm in Hk. unfold manifests_of in Hk. rewrite lookup_fmap in Hk. destruct (row_of (sh_tables s) k) as [row|] eqn:Hr; [|done]. injection Hk as <-.
  destruct (sound_rows _ Hs _ _ Hr) as (g & Hh & _). exists g. split; [by exists row|]. by rewrite (hold_status _ _ _ Hh).
Qed.

(** C15. The two writers of the table of manifests agree on deletions: in whatever
    order the calls of the authority ledger and of the durable repository come,
    a generation the ledger has tombstoned reads as denied from the repository
    and can not be published again, one whose purge the ledger has completed
    reads as purged, and the history of every artifact stays without gaps. *)
Theorem ledger_deletions_reach_the_tables s :
  rtc shared_step (MkShared empty_db empty_tables) s ->
  (forall id r, a_tombstones (d_artifacts (sh_db s)) !! id = Some r ->
     has_receipt (sh_db s) (to_tenant r) (to_receipt r) = true /\
     (exists g, loadArtifact calm (to_tenant r) (to_artifact r) (to_generation r) (sh_tables s) = Ok g /\ gr_Status g <> StatusStaged /\ gr_Status g <> StatusPublished) /\
     (forall env q, row_key (pr_Manifest q) = (to_tenant r, to_artifact r, to_generation r) -> exists e, snd (Durable.Publish env q (sh_tables s)) = Err e)) /\
  (forall id p, a_purges (d_artifacts (sh_db s)) !! id = Some p -> pu_status p = "completed" ->
     exists g, loadArtifact calm (pu_tenant p) (pu_artifact p) (pu_generation p) (sh_tables s) = Ok g /\ gr_Status g = StatusPurged) /\
  (forall tenant artifact n, 0 < n <= pointer (sh_tables s) (tenant, artifact) ->
     exists g, loadArtifact calm tenant artifact n (sh_tables s) = Ok g /\ validFrames (gr_Manifest g) (gr_Frames g) = true /\ gr_Status g <> StatusStaged).
Proof.
  intros Hi%shared_reachable. pose proof Hi as [Hl [Hs [Hset _ _]] _]. destruct (li_artifacts _ Hl) as [Htomb Hpurge]. split_and!.
  - intros id r Hr. destruct (Htomb id r Hr) as ((m & Hm & Hd) & Hrc). destruct (denied_record _ _ _ Hi Hm) as (g & Hg & Es).
    assert (gr_Status g <> StatusStaged /\ gr_Status g <> StatusPublished) as [E1 E2] by (rewrite Es in Hd; destruct (gr_Status g), Hd as [Hd|[Hd|Hd]]; done).
    split_and!; [done|exists g; split; [by apply load_calm_iff|done]|]. intros env q Hk. destruct (Durable.Publish env q (sh_tables s)) as [t' [g'|e]] eqn:E; [|by exists e]. exfalso.
    apply publish_spec in E. cbv zeta in E. rewrite Hk in E. destruct E as (_ & _ & Hp & [(_ & Hst & _)|(g0 & row & Hr0 & Hh0 & Hst & _)]).
    + by rewrite (stored_unique _ _ _ _ Hst Hg) in Hp.
    + apply E1. by rewrite <- (stored_unique _ _ g0 g) by (done || by exists row).
  - intros id p Hp Hc. destruct (Hpurge id p Hp) as (r & _ & _ & Hdone). destruct (Hdone Hc) as (m & Hm & Es). destruct (denied_record _ _ _ Hi Hm) as (g & Hg & Eg).
    exists g. split; [by apply load_calm_iff|]. rewrite Es in Eg. by destruct (gr_Status g).
  - intros te ar n (g & Hg & Hv)%Hset. exists g. split; [by apply load_calm_iff|done].
Qed.
End shared.

(** ** A reservation nobody completes *)

(** The calls that do not carry a given fence. *)
Inductive foreign_step (fence : Z) : ArtifactTables -> ArtifactTables -> Prop :=
| foreign_begin env q locator t : foreign_step fence t (fst (Durable.BeginStage env q locator t))
| foreign_complete env g t : gr_Fence g <> fence -> foreign_step fence t (fst (Durable.CompleteStage env g t))
| foreign_abort env g t : gr_Fence g <> fence -> foreign_step fence t (fst (Durable.AbortStage env g t))
| foreign_publish env q t : foreign_step fence t (fst (Durable.Publish env q t))
| foreign_quarantine env tenant artifact n reason t : foreign_step fence t (fst (Durable.Quarantine env tenant artifact n reason t))
| foreign_tombstone env q t : foreign_step fence t (fst (Durable.Tombstone env q t))
| foreign_purge env g t : foreign_step fence t (fst (Durable.CompletePurge env g t)).

Lemma foreign_dstep fence t t' : foreign_step fence t t' -> dstep t t'.
Proof. intros []; constructor. Qed.

(** The next generation of an artifact is reserved and has no frames. *)
Definition stranded (k : string * string * Z) (fence : Z) (t : ArtifactTables) : Prop :=
  exists g, stored t k g /\ gr_Frames g = [] /\ gr_Fence g = fence /\ (gr_Status g = StatusStaged \/ gr_Status g = StatusQuarantined).

Lemma no_valid_frames m : validManifest m = true -> validFrames m [] = false.
Proof. intros (_ & _ & _ & _ & _ & _ & Hc)%validManifest_spec. unfold validFrames. cbn [length]. by rewrite (proj2 (Z.eqb_neq _ _)) by lia. Qed.

Lemma stranded_put k fence t k' row cur fences :
  k' <> k -> stranded k fence t -> stranded k fence (MkArtifactTables (<[k' := row]> (at_rows t)) cur fences).
Proof. intros Hne (g & Hg & Hrest). exists g. split; [|done]. apply stored_put. by rewrite decide_False. Qed.

(** Its record is not one that another call finds. *)
Lemma stranded_other k fence t k' row g :
  stranded k fence t -> row_of t k' = Some row -> holds k' row g ->
  gr_Fence g <> fence \/ validFrames (gr_Manifest g) (gr_Frames g) = true \/ gr_Status g = StatusPublished \/ gr_Status g = StatusTombstoned -> k' <> k.
Proof.
  intros (g0 & Hg0 & Hf & Hfe & Hst) Hr Hh Hcase ->. rewrite (stored_unique t k g0 g) in * by (done || by exists row).
  destruct Hcase as [E|[E|[E|E]]]; [done|rewrite Hf, (no_valid_frames _ (hold_valid _ _ _ Hh)) in E; done|destruct Hst; congruence..].
Qed.

(** It is the one the artifact would need next. *)
Lemma stranded_frontier k fence t : tables_inv t -> stranded k fence t -> snd k = pointer t (fst k) + 1.
Proof.
  intros [Hs [Hset Hfr _]] (g & Hg & Hf & _ & _). pose proof Hg as (row & Hr & Hh). destruct (holds_range _ _ _ Hh) as (_ & _ & _ & Hb).
  pose proof (Hfr (fst k) (snd k)) as Hle. rewrite <- surjective_pairing in Hle. specialize (Hle (mk_is_Some _ _ Hr)).
  destruct (decide (snd k <= pointer t (fst k))) as [Hc|]; [|lia]. specialize (Hset (fst k) (snd k) ltac:(lia)). rewrite <- surjective_pairing in Hset.
  apply (settled_facts _ _ _ _ Hr Hh) in Hset as [Hv _]. by rewrite Hf, (no_valid_frames _ (hold_valid _ _ _ Hh)) in Hv.
Qed.

Lemma stranded_next k fence t m :
  tables_inv t -> stranded k fence t -> validManifest m = true -> artifact_key m = fst k -> am_Generation m = wrapU64 (pointer t (artifact_key m) + 1) -> row_key m = k.
Proof.
  intros Hi Hst (_ & _ & _ & Hpos & _)%validManifest_spec Ha Hg%next_generation; [|apply Hi|done]. rewrite Ha, <- (stranded_frontier _ _ _ Hi Hst) in Hg. destruct k as [a n]. cbn in *.
  unfold row_key. fold (artifact_key m). by rewrite Ha, Hg.
Qed.

Lemma stranded_step k fence t t' : tables_inv t -> stranded k fence t -> foreign_step fence t t' -> stranded k fence t' /\ pointer t' (fst k) = pointer t (fst k).
Proof.
  intros Hi Hst Hf. destruct Hf as [env q locator t|env g t Hne|env g t Hne|env q t|env te ar n reason t|env q t|env g t].
  - destruct (Durable.BeginStage _ _ _ _) as [t' [[g []]|e]] eqn:E; apply begin_spec in E; cbv zeta in E; cbn; [by destruct E as [-> _]| |by subst].
    destruct E as (_ & _ & Hno & _ & _ & _ & row & _ & _ & _ & _ & ->). split; [|done]. apply stranded_put; [|done]. intros Ek. rewrite Ek in Hno. destruct Hst as (g0 & Hg0 & _). by destruct (Hno g0).
  - destruct (Durable.CompleteStage _ _ _) as [t' [[]|e]] eqn:E; apply complete_spec in E; cbn; [|by subst].
    destruct E as (_ & _ & ex & row & Hr & Hh & _ & Hfe & _ & [[-> _]|[_ ->]]); [done|]. split; [|done]. apply stranded_put; [|done]. eapply stranded_other; [done..|]. left. congruence.
  - destruct (Durable.AbortStage _ _ _) as [t' [[]|e]] eqn:E; apply abort_spec in E; cbn; [|by subst].
    destruct E as (_ & _ & [[-> _]|(ex & row & Hr & Hh & Hfe & _ & _ & _ & ->)]); [done|]. split; [|done]. assert (row_key (gr_Manifest g) <> k) as Hk by (eapply stranded_other; [done..|]; left; congruence).
    destruct Hst as (g0 & (row0 & Hr0 & Hh0) & Hrest). exists g0. split; [|done]. exists row0. split; [|done]. cbn. by rewrite lookup_delete_ne.
  - destruct (Durable.Publish _ _ _) as [t' [g|e]] eqn:E; apply publish_spec in E; cbv zeta in E; cbn; [|by subst].
    destruct E as (Hv & Hm & _ & [[-> _]|(ex & row & Hr & Hh & _ & Hvf & -> & Hp & Hgen & ->)]); [done|]. cbn in Hm. rewrite <- Hm in *.
    assert (row_key (gr_Manifest ex) <> k) as Hk by (eapply stranded_other; [done..|]; by right; left). split; [by apply stranded_put|].
    unfold pointer, set_pointer. cbn. rewrite lookup_insert_ne; [done|]. intros Ea. apply Hk. eapply stranded_next; [done..|by rewrite Hp].
  - destruct (Durable.Quarantine _ _ _ _ _ _) as [t' [[]|e]] eqn:E; apply quarantine_spec in E; cbv zeta in E; cbn; [|by subst].
    destruct E as (_ & _ & _ & ex & row & Hr & Hh & _ & [[-> _]| ->]); [done|]. split; [|done]. destruct (decide ((Value te, Value ar, n) = k)) as [E|Hne]; [|by apply stranded_put].
    rewrite E in *. destruct Hst as (g0 & Hg0 & Hf & Hfe & _). rewrite (stored_unique _ _ g0 ex) in * by (done || by exists row). exists (Vault.set_status StatusQuarantined ex).
    split_and!; [|done|done|by right]. apply stored_put. rewrite decide_True by done. by apply (holds_with_status _ _ _ StatusQuarantined).
  - destruct (Durable.Tombstone _ _ _) as [t' [g|e]] eqn:E; apply tombstone_spec in E; cbv zeta in E; cbn; [|by subst].
    destruct E as (_ & _ & _ & _ & _ & [[-> _]|(ex & row & Hr & Hh & Hp & _ & ->)]); [done|]. split; [|done]. apply stranded_put; [|done]. eapply stranded_other; [done..|]. auto.
  - destruct (Durable.CompletePurge _ _ _) as [t' [[]|e]] eqn:E; apply complete_purge_spec in E; cbv zeta in E; cbn; [|by subst].
    destruct E as (_ & ex & row & Hr & Hh & _ & [[-> _]|[Hp ->]]); [done|]. split; [|done]. apply stranded_put; [|done]. eapply stranded_other; [done..|]. auto.
Qed.

Lemma stranded_run k fence t t' :
  tables_inv t -> stranded k fence t -> rtc (foreign_step fence) t t' -> tables_inv t' /\ stranded k fence t' /\ pointer t' (fst k) = pointer t (fst k).
Proof.
  intros Hi Hst Hr. induction Hr as [t|t1 t2 t3 Hf _ IH]; [done|]. destruct (stranded_step _ _ _ _ Hi Hst Hf) as [Hst2 Hp].
  destruct IH as (A & B & C); [by eapply tables_change, dstep_change, foreign_dstep|done|]. split_and!; [done|done|congruence].
Qed.

(** C17. A reservation whose holder neither completes nor aborts it blocks its
    artifact for good: as long as no call carries its fence, the current
    generation stays where it is, every new reservation of the artifact is
    refused, and so is every publication of a generation it does not have yet. *)
Theorem stranded_reservation_blocks_the_artifact t t' tenant artifact n g :
  rtc dstep empty_tables t -> loadArtifact calm tenant artifact n t = Ok g -> gr_Status g = StatusStaged -> gr_Frames g = [] ->
  rtc (foreign_step (gr_Fence g)) t t' ->
  pointer t' (tenant, artifact) = n - 1 /\
  (forall env q locator, artifact_key (sr_Manifest q) = (tenant, artifact) -> exists e, Durable.BeginStage env q locator t' = (t', Err e)) /\
  (forall env q, artifact_key (pr_Manifest q) = (tenant, artifact) -> n <= am_Generation (pr_Manifest q) -> exists e, Durable.Publish env q t' = (t', Err e)).
Proof.
  intros Hi%tables_reachable Hg%load_stored Hst Hf Hr. destruct (stranded_run (tenant, artifact, n) (gr_Fence g) t t') as (Hi' & Hs' & Hp); [done|exists g; auto|done|].
  pose proof (stranded_frontier _ _ _ Hi' Hs') as Hn. cbn in Hn, Hp. split_and!; [lia| |].
  - intros env q locator Ha. destruct (Durable.BeginStage env q locator t') as [t2 [[g2 []]|e]] eqn:E; apply begin_spec in E as E'; cbv zeta in E'; [| |subst; eauto]; exfalso.
    + destruct E' as (_ & Hg2 & Hm & Hc & Hpt & Hgen). pose proof Hg2 as (row2 & Hr2 & Hh2). destruct (hold_valid_frames _ _ _ Hh2) as [E0|E0].
      * pose proof (validManifest_spec _ (hold_valid _ _ _ Hh2)) as (_ & _ & _ & _ & _ & _ & Hfc). unfold complete in Hc. rewrite E0 in Hc. cbn in Hc. bool_prop. lia.
      * eapply stranded_other; [exact Hs'|exact Hr2|exact Hh2|by right; left|]. eapply stranded_next; [done..| |done|by rewrite Hpt]. by rewrite <- Hm; eapply hold_valid.
    + destruct E' as (Hv & _ & Hno & Hpt & Hgen & _). rewrite (stranded_next _ (gr_Fence g) t' (sr_Manifest q) Hi' Hs') in Hno by (done || by rewrite Hpt).
      destruct Hs' as (g0 & Hg0 & _). by destruct (Hno g0).
  - intros env q Ha Hle. destruct (Durable.Publish env q t') as [t2 [g2|e]] eqn:E; apply publish_spec in E; cbv zeta in E; [|subst; eauto]. exfalso.
    destruct E as (Hv & Hm & _ & [(_ & _ & Hpt)|(ex & row & Hrow & Hh & _ & Hvf & -> & Hpt & Hgen & _)]); [rewrite Ha in Hpt; lia|]. cbn in Hm. rewrite <- Hm in *.
    eapply stranded_other; [exact Hs'|exact Hrow|exact Hh|by right; left|]. eapply stranded_next; [done..|by rewrite Hpt].
Qed.

(** ** Examples *)

(** One artifact staged and published in the tables, deleted by the authority
    ledger; another reserved and left behind; and the vault run over the tables. *)

Definition quiet_tables : StorageEnv := StorageEffects.calm.
Definition digest_of (n : Z) : Digest := MkDigest "sha256" (hex_of 64 n).
Definition file_a : Identifier := MkIdentifier "artifact" "a".
Definition tenant_x : Identifier := MkIdentifier "tenant" "t".
Definition manifest_a (n : Z) : ArtifactManifest := MkArtifactManifest file_a tenant_x (digest_of n) n 1 10 2.
Definition frames_a : list FrameRecord := [MkFrame 0 0 8 (digest_of 11); MkFrame 1 8 2 (digest_of 12)].

Definition t1 : ArtifactTables := fst (Durable.BeginStage quiet_tables (MkStage (manifest_a 1) 0) "loc" empty_tables).
Definition reserved_a : GenerationRecord := MkGeneration (manifest_a 1) "loc" [] StatusStaged 1.
Definition t2 : ArtifactTables := fst (Durable.CompleteStage quiet_tables (set_frames frames_a reserved_a) t1).
Definition t3 : ArtifactTables := fst (Durable.Publish quiet_tables (MkPublish (manifest_a 1) 0) t2).
Definition t4 : ArtifactTables := fst (Durable.BeginStage quiet_tables (MkStage (manifest_a 2) 1) "loc2" t3).
Definition record_t (n : Z) (t : ArtifactTables) : GenerationRecord :=
  match loadArtifact quiet_tables "t" "a" n t with Ok g => g | Err _ => reserved_a end.

Example t4_holds : (gr_Status (record_t 1 t4), gr_Status (record_t 2 t4), gr_Fence (record_t 2 t4), pointer t4 ("t", "a")) = (StatusPublished, StatusStaged, 2, 1).
Proof. vm_compute. reflexivity. Qed.

Lemma t3_reachable : rtc dstep empty_tables t3.
Proof.
  apply (rtc_l _ _ t1); [exact (dstep_begin _ _ _ _)|]. apply (rtc_l _ _ t2); [exact (dstep_complete _ _ _)|]. apply rtc_once. exact (dstep_publish _ _ _).
Qed.

Lemma t4_reachable : rtc dstep empty_tables t4.
Proof. apply (rtc_r _ t3); [exact t3_reachable|]. exact (dstep_begin _ _ _ _). Qed.

Lemma durable_history_is_contiguous_witness :
  (exists g, loadArtifact quiet_tables "t" "a" 1 t4 = Ok g /\ validFrames (gr_Manifest g) (gr_Frames g) = true /\ gr_Status g <> StatusStaged) /\ row_of t4 ("t", "a", 3) = None.
Proof.
  destruct (durable_history_is_contiguous t4 "t" "a" t4_reachable) as (H1 & H2 & _). split.
  - apply H1. vm_compute. split; [reflexivity|discriminate].
  - destruct (row_of t4 ("t", "a", 3)) eqn:E; [|reflexivity]. destruct (H2 3) as [[_ Hle] _]; [rewrite E; by eexists|]. vm_compute in Hle. by destruct Hle.
Defined.

(** The process that reserved the second generation is gone; others retry. *)
Definition t5 : ArtifactTables := fst (Durable.BeginStage quiet_tables (MkStage (manifest_a 2) 1) "loc3" t4).

Lemma stranded_reservation_blocks_the_artifact_witness : exists e, Durable.BeginStage quiet_tables (MkStage (manifest_a 2) 1) "loc4" t5 = (t5, Err e).
Proof.
  destruct (stranded_reservation_blocks_the_artifact t4 t5 "t" "a" 2 (record_t 2 t4)) as (_ & Hb & _).
  - exact t4_reachable.
  - vm_compute. reflexivity.
  - vm_compute. reflexivity.
  - vm_compute. reflexivity.
  - apply rtc_once. exact (foreign_begin _ _ _ _ _).
  - apply Hb. reflexivity.
Defined.

(** ** With the ledger *)

#[local] Existing Instance demo_runtime.

Definition with_tables (t : ArtifactTables) (s : Shared) : Shared := MkShared (set_artifacts (set_manifests (manifests_of t) (d_artifacts (sh_db s))) (sh_db s)) t.
Definition with_db (d : DB) (s : Shared) : Shared := MkShared d (adopt (a_manifests (d_artifacts d)) (sh_tables s)).

Definition sh1 : Shared := with_db (fst (OpenSession AuthorityDemo.calm peer empty_db)) (MkShared empty_db empty_tables).
Definition sh2 : Shared := with_tables (fst (Durable.BeginStage quiet_tables (MkStage (manifest_a 1) 0) "loc" (sh_tables sh1))) sh1.
Definition sh3 : Shared := with_tables (fst (Durable.CompleteStage quiet_tables (set_frames frames_a reserved_a) (sh_tables sh2))) sh2.
Definition sh4 : Shared := with_tables (fst (Durable.Publish quiet_tables (MkPublish (manifest_a 1) 0) (sh_tables sh3))) sh3.
Definition sh5 : Shared := with_db (fst (Execute AuthorityDemo.calm ingest (sh_db sh4))) sh4.
Definition sh6 : Shared := with_db (fst (Execute AuthorityDemo.calm forget (sh_db sh5))) sh5.

Lemma sh6_reachable : rtc shared_step (MkShared empty_db empty_tables) sh6.
Proof.
  apply (rtc_l _ _ sh1); [apply shared_ledger; exact (call_session _ _ _)|]. apply (rtc_l _ _ sh2); [apply (shared_storage sh1); exact (dstep_begin _ _ _ _)|].
  apply (rtc_l _ _ sh3); [apply (shared_storage sh2); exact (dstep_complete _ _ _)|]. apply (rtc_l _ _ sh4); [apply (shared_storage sh3); exact (dstep_publish _ _ _)|].
  apply (rtc_l _ _ sh5); [apply (shared_ledger sh4); exact (call_execute _ _ _)|]. apply rtc_once. apply (shared_ledger sh5). exact (call_execute _ _ _).
Qed.

Lemma ledger_deletions_reach_the_tables_witness :
  (exists g, loadArtifact quiet_tables "t" "a" 1 (sh_tables sh6) = Ok g /\ gr_Status g = StatusPurged) /\
  (exists e, snd (Durable.Publish quiet_tables (MkPublish (manifest_a 1) 0) (sh_tables sh6)) = Err e).
Proof.
  destruct (ledger_deletions_reach_the_tables sh6 sh6_reachable) as (Ht & Hp & _). split.
  - refine (Hp "purge" (MkPurge "t" "a" 1 "tomb" 1 "completed" (Some 1000)) _ _); [vm_compute; reflexivity|reflexivity].
  - destruct (a_tombstones (d_artifacts (sh_db sh6)) !! "tomb") as [r|] eqn:E; [|vm_compute in E; discriminate E].
    destruct (Ht "tomb" r E) as (_ & _ & Hpub). apply Hpub. vm_compute in E. injection E as <-. reflexivity.
Defined.

(** ** The vault over the tables *)

#[local] Existing Instance vault_digests.
#[local] Existing Instance vault_digest_laws.
#[local] Existing Instance demo_aead.
#[local] Existing Instance demo_aead_laws.

Definition durable0 : VaultState DurableRepository := MkState ∅ (MkDurable empty_tables quiet_tables) (noise 130).

Lemma staging_and_publishing_succeed_witness :
  exists a rc1 b rc2, StageContent vault4 calm_env stage1 (MkReader content false) durable0 = (a, Ok rc1) /\ Publish vault4 calm_env (MkPublish manifest1 0) a = (b, Ok rc2).
Proof.
  apply (staging_and_publishing_succeed vault4 calm_env stage1 (MkReader content false) durable0 key7).
  - split; [reflexivity|discriminate].
  - discriminate.
  - split; [by intros q|exact sound_empty].
  - reflexivity.
  - vm_compute. reflexivity.
  - split; reflexivity.
  - vm_compute. reflexivity.
  - reflexivity.
  - reflexivity.
  - reflexivity.
  - reflexivity.
  - reflexivity.
  - intros k. reflexivity.
  - intros k. reflexivity.
  - reflexivity.
  - reflexivity.
  - vm_compute. discriminate.
  - reflexivity.
  - reflexivity.
  - reflexivity.
  - intros i _. reflexivity.
  - intros i j Hi Hj. cbn in Hj. assert (i = 0 /\ j = 1) as [-> ->] by lia. vm_compute. discriminate.
Defined.
