(* ===== verification/EvidenceLedger.v ===== *)
(** * evidenceledger: immutable evidence and its lineage

    Models [services/brain/internal/evidenceledger/ledger.go], its in-memory
    repository, and the durable one of
    [services/brain/internal/localstorage/evidence.go] over the tables
    [evidence_records] and [evidence_lineage] of migration 002.  [EvidenceLaws]
    is what the ledger relies on; both repositories keep it, and the theorems of
    the ledger are proved against it. *)

From Stdlib Require Import Ascii String.
From S2P Require Import Prelude GoString Float64 Runtime Contracts SqlTable AuthorityLedger Composite Vault StorageRules Storage.
From stdpp Require Import gmap strings relations.
Open Scope string_scope.
Open Scope Z_scope.

(** ** ledger.go *)

Inductive evidence_error := EvidenceInvalid | EvidenceNotFound | EvidenceConflict | EvidenceUnavailable.

Record EvidenceRecord := MkEvidence {
  er_Tenant : Identifier; er_Brain : Identifier; er_Evidence : Identifier; er_Artifact : Identifier; er_Generation : Z; er_Anchor : string; er_Digest : Digest
}.
Record Lineage := MkLineage { li_Tenant : Identifier; li_Brain : Identifier; li_Parent : Identifier; li_Child : Identifier; li_Relation : string }.

#[export] Instance EvidenceRecord_eq_dec : EqDecision EvidenceRecord.
Proof. solve_decision. Defined.
#[export] Instance Lineage_eq_dec : EqDecision Lineage.
Proof. solve_decision. Defined.

Definition validateID (id : Identifier) (namespace : string) : bool := String.eqb (Namespace id) namespace && negb (String.eqb (Value id) "") && (len (Value id) <=? 512).

Definition validateRecord (r : EvidenceRecord) : bool :=
  sha256_digest_ok (er_Digest r) && validateID (er_Tenant r) "tenant" && validateID (er_Brain r) "brain" && validateID (er_Evidence r) "evidence"
  && validateID (er_Artifact r) "artifact" && negb (er_Generation r =? 0) && negb (String.eqb (er_Anchor r) "") && (len (er_Anchor r) <=? 4096).

Definition valid_edge (l : Lineage) : bool :=
  validateID (li_Tenant l) "tenant" && validateID (li_Brain l) "brain" && validateID (li_Parent l) "evidence" && validateID (li_Child l) "evidence"
  && negb (String.eqb (li_Relation l) "") && (len (li_Relation l) <=? 128) && bool_decide (li_Parent l <> li_Child l).

(** A scope and an evidence identifier. *)
Definition valid_scope (tenant brain evidence : Identifier) : bool := validateID tenant "tenant" && validateID brain "brain" && validateID evidence "evidence".

(** The metadata repository; a call reads the answers of an environment. *)
Class EvidenceRepository (S : Type) := {
  ev_env : Type;
  Put : ev_env -> EvidenceRecord -> S -> S * result evidence_error bool;
  GetEvidence : ev_env -> Identifier -> Identifier -> Identifier -> S -> result evidence_error EvidenceRecord;
  PutLineage : ev_env -> Lineage -> S -> S * result evidence_error bool;
  LineageOf : ev_env -> Identifier -> Identifier -> Identifier -> S -> result evidence_error (list Lineage);
  TombstoneEvidence : ev_env -> Identifier -> Identifier -> Identifier -> S -> S * result evidence_error unit
}.

Section ledger.
Context {S : Type} `{EvidenceRepository S}.

Definition Admit_ (env : ev_env) (r : EvidenceRecord) (s : S) : S * result evidence_error bool :=
  if negb (validateRecord r) then (s, Err EvidenceInvalid) else Put env r s.

Definition ReadEvidence (env : ev_env) (tenant brain evidence : Identifier) (s : S) : result evidence_error EvidenceRecord :=
  if negb (valid_scope tenant brain evidence) then Err EvidenceInvalid else GetEvidence env tenant brain evidence s.

Definition Link (env : ev_env) (l : Lineage) (s : S) : S * result evidence_error bool :=
  if negb (valid_edge l) then (s, Err EvidenceInvalid) else PutLineage env l s.

(** Two calls of the repository, each with its own answers. *)
Definition Related (env env' : ev_env) (tenant brain evidence : Identifier) (s : S) : result evidence_error (list Lineage) :=
  do _ <- ReadEvidence env tenant brain evidence s ; LineageOf env' tenant brain evidence s.

Definition Tombstone_ (env : ev_env) (tenant brain evidence : Identifier) (s : S) : S * result evidence_error unit :=
  if negb (valid_scope tenant brain evidence) then (s, Err EvidenceInvalid) else TombstoneEvidence env tenant brain evidence s.
End ledger.

(** The edge touches an evidence record of the scope. *)
Definition touches (tenant brain evidence : Identifier) (l : Lineage) : bool :=
  bool_decide (li_Tenant l = tenant /\ li_Brain l = brain /\ (li_Parent l = evidence \/ li_Child l = evidence)).

(** ** The in-memory repository *)

Record memoryRecord := MkMemoryRecord { mr_record : EvidenceRecord; mr_tombstoned : bool }.
Record MemoryEvidence := MkMemoryEvidence { me_records : gmap string memoryRecord; me_edges : gmap string Lineage }.
Definition NewMemoryEvidence : MemoryEvidence := MkMemoryEvidence ∅ ∅.

Definition recordKey (tenant brain evidence : Identifier) : string := encodeComposite [Value tenant; Value brain; Value evidence].
Definition edgeKey (l : Lineage) : string := encodeComposite [Value (li_Tenant l); Value (li_Brain l); Value (li_Parent l); Value (li_Child l); li_Relation l].

Module MemoryEv.
Definition Put (r : EvidenceRecord) (m : MemoryEvidence) : MemoryEvidence * result evidence_error bool :=
  let key := recordKey (er_Tenant r) (er_Brain r) (er_Evidence r) in
  match me_records m !! key with
  | Some existing => (m, if bool_decide (mr_record existing = r) then Ok false else Err EvidenceConflict)
  | None => (MkMemoryEvidence (<[key := MkMemoryRecord r false]> (me_records m)) (me_edges m), Ok true)
  end.

Definition readable (tenant brain evidence : Identifier) (m : MemoryEvidence) : option EvidenceRecord :=
  match me_records m !! recordKey tenant brain evidence with Some x => if mr_tombstoned x then None else Some (mr_record x) | None => None end.

Definition Get (tenant brain evidence : Identifier) (m : MemoryEvidence) : result evidence_error EvidenceRecord :=
  match readable tenant brain evidence m with Some r => Ok r | None => Err EvidenceNotFound end.

Definition PutLineageIfEndpointsReadable (l : Lineage) (m : MemoryEvidence) : MemoryEvidence * result evidence_error bool :=
  match readable (li_Tenant l) (li_Brain l) (li_Parent l) m, readable (li_Tenant l) (li_Brain l) (li_Child l) m with
  | Some _, Some _ =>
      match me_edges m !! edgeKey l with
      | Some existing => (m, if bool_decide (existing = l) then Ok false else Err EvidenceConflict)
      | None => (MkMemoryEvidence (me_records m) (<[edgeKey l := l]> (me_edges m)), Ok true)
      end
  | _, _ => (m, Err EvidenceNotFound)
  end.

(** In the order of a range over a map, which is arbitrary. *)
Definition Lineage_ (tenant brain evidence : Identifier) (m : MemoryEvidence) : list Lineage :=
  List.filter (touches tenant brain evidence) (snd <$> map_to_list (me_edges m)).

Definition Tombstone (tenant brain evidence : Identifier) (m : MemoryEvidence) : MemoryEvidence * result evidence_error unit :=
  let key := recordKey tenant brain evidence in
  match me_records m !! key with
  | None => (m, Err EvidenceNotFound)
  | Some x =>
      (MkMemoryEvidence (<[key := MkMemoryRecord (mr_record x) true]> (me_records m)) (filter (fun kv => touches tenant brain evidence (snd kv) = false) (me_edges m)), Ok tt)
  end.
End MemoryEv.

#[export] Instance MemoryEvidence_repository : EvidenceRepository MemoryEvidence := {|
  ev_env := unit;
  Put := fun _ => MemoryEv.Put;
  GetEvidence := fun _ => MemoryEv.Get;
  PutLineage := fun _ => MemoryEv.PutLineageIfEndpointsReadable;
  LineageOf := fun _ t b e m => Ok (MemoryEv.Lineage_ t b e m);
  TombstoneEvidence := fun _ => MemoryEv.Tombstone
|}.

(** ** The durable repository *)

Record EvidenceRow := MkEvidenceRow { ew_artifact : string; ew_generation : Z; ew_anchor : string; ew_algorithm : string; ew_digest : string; ew_tombstoned : bool }.

(** The rows by their primary keys, beside the artifact tables. *)
Record EvidenceTables := MkEvidenceTables {
  et_artifacts : ArtifactTables; et_records : gmap (string * string * string) EvidenceRow; et_lineage : list (string * string * string * string * string)
}.

Definition validEvidence (r : EvidenceRecord) : bool :=
  validID (er_Tenant r) "tenant" && validID (er_Brain r) "brain" && validID (er_Evidence r) "evidence" && validID (er_Artifact r) "artifact" && (0 <? er_Generation r)
  && negb (String.eqb (er_Anchor r) "") && (len (er_Anchor r) <=? 4096) && negb (contains_char "000" (er_Anchor r)) && validDigest (er_Digest r).

Definition validLineage (l : Lineage) : bool :=
  validID (li_Tenant l) "tenant" && validID (li_Brain l) "brain" && validID (li_Parent l) "evidence" && validID (li_Child l) "evidence"
  && bool_decide (li_Parent l <> li_Child l) && negb (String.eqb (li_Relation l) "") && (len (li_Relation l) <=? 128) && negb (contains_char "000" (li_Relation l)).

Definition valid_ids (tenant brain evidence : Identifier) : bool := validID tenant "tenant" && validID brain "brain" && validID evidence "evidence".

Inductive evidence_stmt := EBegin | ECommit | EManifest | ERecord (n : nat) | XRecord | XLineage | EAffected | ELineage | XTombstone | XUnlink.

(** A statement that fails. *)
Definition EvidenceEnv : Type := evidence_stmt -> bool.

Module DurableEv.
Definition in_tx {A} (env : EvidenceEnv) (t : EvidenceTables) (body : result evidence_error (EvidenceTables * A)) : EvidenceTables * result evidence_error A :=
  if env EBegin then (t, Err EvidenceUnavailable)
  else match body with
  | Err e => (t, Err e)
  | Ok (t', a) => if env ECommit then (t, Err EvidenceUnavailable) else (t', Ok a)
  end.

Definition record_of (tenant brain evidence : string) (w : EvidenceRow) : EvidenceRecord :=
  MkEvidence (MkIdentifier "tenant" tenant) (MkIdentifier "brain" brain) (MkIdentifier "evidence" evidence) (MkIdentifier "artifact" (ew_artifact w))
    (ew_generation w) (ew_anchor w) (MkDigest (ew_algorithm w) (ew_digest w)).

(** [n]: which of the calls in the transaction. *)
Definition loadEvidence (env : EvidenceEnv) (n : nat) (tenant brain evidence : string) (t : EvidenceTables) : result evidence_error (EvidenceRecord * bool) :=
  if env (ERecord n) then Err EvidenceUnavailable
  else match et_records t !! (tenant, brain, evidence) with
  | None => Err EvidenceNotFound
  | Some w =>
      let r := record_of tenant brain evidence w in
      if negb (validEvidence r) then Err EvidenceUnavailable else Ok (r, ew_tombstoned w)
  end.

(** The artifact the record names, when it is published with its digest. *)
Definition published_artifact (env : EvidenceEnv) (r : EvidenceRecord) (t : EvidenceTables) : result evidence_error unit :=
  if env EManifest || negb (db_uint (er_Generation r)) then Err EvidenceUnavailable
  else match at_rows (et_artifacts t) !! (Value (er_Tenant r), Value (er_Artifact r), er_Generation r) with
  | None => Err EvidenceNotFound
  | Some row =>
      if negb (String.eqb (ma_status (aw_manifest row)) "published") then Err EvidenceNotFound
      else if negb (String.eqb (ma_digest (aw_manifest row)) (Hex (er_Digest r))) then Err EvidenceConflict
      else Ok tt
  end.

Definition key_of (r : EvidenceRecord) : string * string * string := (Value (er_Tenant r), Value (er_Brain r), Value (er_Evidence r)).

Definition row_of_record (r : EvidenceRecord) : EvidenceRow :=
  MkEvidenceRow (Value (er_Artifact r)) (er_Generation r) (er_Anchor r) (Algorithm (er_Digest r)) (Hex (er_Digest r)) false.

(** The [CHECK]s follow from [validEvidence]. *)
Definition Put (env : EvidenceEnv) (r : EvidenceRecord) (t : EvidenceTables) : EvidenceTables * result evidence_error bool :=
  if negb (validEvidence r) then (t, Err EvidenceInvalid)
  else in_tx env t
    (do _ <- published_artifact env r t ;
     match loadEvidence env 0 (Value (er_Tenant r)) (Value (er_Brain r)) (Value (er_Evidence r)) t with
     | Ok (existing, _) => if bool_decide (existing = r) then Ok (t, false) else Err EvidenceConflict
     | Err EvidenceNotFound =>
         if env XRecord then Err EvidenceConflict
         else Ok (MkEvidenceTables (et_artifacts t) (<[key_of r := row_of_record r]> (et_records t)) (et_lineage t), true)
     | Err e => Err e
     end).

Definition Get (env : EvidenceEnv) (tenant brain evidence : Identifier) (t : EvidenceTables) : result evidence_error EvidenceRecord :=
  if negb (valid_ids tenant brain evidence) then Err EvidenceInvalid
  else match loadEvidence env 0 (Value tenant) (Value brain) (Value evidence) t with
  | Err e => Err e
  | Ok (r, tombstoned) => if tombstoned then Err EvidenceNotFound else Ok r
  end.

Definition endpoint_readable (env : EvidenceEnv) (n : nat) (l : Lineage) (endpoint : Identifier) (t : EvidenceTables) : bool :=
  match loadEvidence env n (Value (li_Tenant l)) (Value (li_Brain l)) (Value endpoint) t with Ok (_, tombstoned) => negb tombstoned | Err _ => false end.

Definition edge_row (l : Lineage) : string * string * string * string * string :=
  (Value (li_Tenant l), Value (li_Brain l), Value (li_Parent l), Value (li_Child l), li_Relation l).

Definition edge_of_row (w : string * string * string * string * string) : Lineage :=
  let '(tenant, brain, parent, child, relation) := w in
  MkLineage (MkIdentifier "tenant" tenant) (MkIdentifier "brain" brain) (MkIdentifier "evidence" parent) (MkIdentifier "evidence" child) relation.

Definition PutLineageIfEndpointsReadable (env : EvidenceEnv) (l : Lineage) (t : EvidenceTables) : EvidenceTables * result evidence_error bool :=
  if negb (validLineage l) then (t, Err EvidenceInvalid)
  else in_tx env t
    (if negb (endpoint_readable env 0 l (li_Parent l) t) || negb (endpoint_readable env 1 l (li_Child l) t) then Err EvidenceNotFound
     else if env XLineage || env EAffected then Err EvidenceUnavailable
     else if bool_decide (edge_row l ∈ et_lineage t) then Ok (t, false)
     else Ok (MkEvidenceTables (et_artifacts t) (et_records t) (et_lineage t ++ [edge_row l])%list, true)).

(** The edges that touch a record, as the queries select them. *)
Definition row_touches (tenant brain evidence : Identifier) (w : string * string * string * string * string) : bool :=
  let '(t, b, parent, child, _) := w in
  String.eqb t (Value tenant) && String.eqb b (Value brain) && (String.eqb parent (Value evidence) || String.eqb child (Value evidence)).

(** [ORDER BY parent_evidence_id, child_evidence_id, relation] *)
Definition edge_before (x y : string * string * string * string * string) : bool :=
  let '(_, _, p1, c1, r1) := x in
  let '(_, _, p2, c2, r2) := y in
  if negb (String.eqb p1 p2) then String.ltb p1 p2 else if negb (String.eqb c1 c2) then String.ltb c1 c2 else String.ltb r1 r2.

Definition Lineage_ (env : EvidenceEnv) (tenant brain evidence : Identifier) (t : EvidenceTables) : result evidence_error (list Lineage) :=
  if negb (valid_ids tenant brain evidence) then Err EvidenceInvalid
  else if env ELineage then Err EvidenceUnavailable
  else
    let rows := take 4097 (sort_by edge_before (List.filter (row_touches tenant brain evidence) (et_lineage t))) in
    if (4096 <? length rows)%nat then Err EvidenceUnavailable else Ok (edge_of_row <$> rows).

Definition Tombstone (env : EvidenceEnv) (tenant brain evidence : Identifier) (t : EvidenceTables) : EvidenceTables * result evidence_error unit :=
  if negb (valid_ids tenant brain evidence) then (t, Err EvidenceInvalid)
  else in_tx env t
    (do _ <- loadEvidence env 0 (Value tenant) (Value brain) (Value evidence) t ;
     if env XTombstone || env XUnlink then Err EvidenceUnavailable
     else Ok (MkEvidenceTables (et_artifacts t)
                (alter (fun w => MkEvidenceRow (ew_artifact w) (ew_generation w) (ew_anchor w) (ew_algorithm w) (ew_digest w) true)
                   (Value tenant, Value brain, Value evidence) (et_records t))
                (List.filter (fun w => negb (row_touches tenant brain evidence w)) (et_lineage t)), tt)).
End DurableEv.

#[export] Instance EvidenceTables_repository : EvidenceRepository EvidenceTables := {|
  ev_env := EvidenceEnv;
  Put := DurableEv.Put;
  GetEvidence := DurableEv.Get;
  PutLineage := DurableEv.PutLineageIfEndpointsReadable;
  LineageOf := DurableEv.Lineage_;
  TombstoneEvidence := DurableEv.Tombstone
|}.

(** ** What a repository promises *)

Definition scope : Type := Identifier * Identifier * Identifier.
Definition scope_of (r : EvidenceRecord) : scope := (er_Tenant r, er_Brain r, er_Evidence r).
Definition scope_ok (k : scope) : bool := let '(t, b, e) := k in valid_scope t b e.
Definition edge_touches (k : scope) (l : Lineage) : bool := let '(t, b, e) := k in touches t b e l.
Definition parent_of (l : Lineage) : scope := (li_Tenant l, li_Brain l, li_Parent l).
Definition child_of (l : Lineage) : scope := (li_Tenant l, li_Brain l, li_Child l).

(** What can be observed: the record of a scope with its tombstone, and the edges. *)
Class EvidenceView (S : Type) := { record_at : S -> scope -> option (EvidenceRecord * bool); has_edge : S -> Lineage -> Prop; evidence_inv : S -> Prop }.

Section laws.
Context {S : Type} `{EvidenceRepository S} `{EvidenceView S}.

Definition same_records (s s' : S) : Prop := forall k, record_at s' k = record_at s k.
Definition same_edges (s s' : S) : Prop := forall x, has_edge s' x <-> has_edge s x.
Definition live (s : S) (k : scope) : Prop := exists r, record_at s k = Some (r, false).

Class EvidenceLaws : Prop := {
  put_effect env r s : evidence_inv s -> validateRecord r = true -> let '(s', res) := Put env r s in
    evidence_inv s' /\ same_edges s s' /\
    match res with
    | Ok true => record_at s (scope_of r) = None /\ forall k, record_at s' k = if decide (k = scope_of r) then Some (r, false) else record_at s k
    | Ok false => same_records s s' /\ exists b, record_at s (scope_of r) = Some (r, b)
    | Err _ => same_records s s'
    end;
  get_effect env t b e s r : valid_scope t b e = true -> GetEvidence env t b e s = Ok r -> record_at s (t, b, e) = Some (r, false);
  link_effect env l s : evidence_inv s -> valid_edge l = true -> let '(s', res) := PutLineage env l s in
    evidence_inv s' /\ same_records s s' /\
    match res with
    | Ok _ => live s (parent_of l) /\ live s (child_of l) /\ forall x, has_edge s' x <-> has_edge s x \/ x = l
    | Err _ => same_edges s s'
    end;
  lineage_effect env t b e s ls : evidence_inv s -> valid_scope t b e = true -> LineageOf env t b e s = Ok ls ->
    forall x, x ∈ ls <-> has_edge s x /\ touches t b e x = true;
  tombstone_effect env t b e s : evidence_inv s -> valid_scope t b e = true -> let '(s', res) := TombstoneEvidence env t b e s in
    evidence_inv s' /\
    match res with
    | Ok _ => (exists r dead, record_at s (t, b, e) = Some (r, dead) /\ forall k, record_at s' k = if decide (k = (t, b, e)) then Some (r, true) else record_at s k) /\
        forall x, has_edge s' x <-> has_edge s x /\ touches t b e x = false
    | Err _ => same_records s s' /\ same_edges s s'
    end
}.
End laws.

(** *** The in-memory repository keeps the laws *)

Lemma validateID_spec id ns : validateID id ns = true -> exists v, id = MkIdentifier ns v /\ fits v.
Proof.
  unfold validateID. intros Hv. bool_prop. destruct id as [n v]. cbn in *. apply String.eqb_eq in H as ->. exists v. split; [done|]. unfold fits. apply (Z.le_lt_trans _ 512); [done|reflexivity].
Qed.

Lemma valid_scope_spec t b e : valid_scope t b e = true -> validateID t "tenant" = true /\ validateID b "brain" = true /\ validateID e "evidence" = true.
Proof. unfold valid_scope. intros Hv. by bool_prop. Qed.

Lemma valid_record_scope r : validateRecord r = true -> scope_ok (scope_of r) = true.
Proof. unfold validateRecord. intros Hv. bool_prop. cbn. unfold valid_scope. by rewrite !andb_true_iff. Qed.

Lemma valid_edge_scopes l : valid_edge l = true -> scope_ok (parent_of l) = true /\ scope_ok (child_of l) = true /\ fits (li_Relation l).
Proof.
  unfold valid_edge. intros Hv. bool_prop. cbn. unfold valid_scope. rewrite !andb_true_iff. split_and!; try done. unfold fits. apply (Z.le_lt_trans _ 128); [done|reflexivity].
Qed.

(** The values of valid identifiers determine them. *)
Lemma scope_values_inj t b e t' b' e' : valid_scope t b e = true -> valid_scope t' b' e' = true -> Value t = Value t' -> Value b = Value b' -> Value e = Value e' -> (t, b, e) = (t', b', e').
Proof.
  intros (Ht & Hb & He)%valid_scope_spec (Ht' & Hb' & He')%valid_scope_spec E1 E2 E3. apply validateID_spec in Ht as (? & -> & _), Hb as (? & -> & _), He as (? & -> & _), Ht' as (? & -> & _), Hb' as (? & -> & _), He' as (? & -> & _).
  cbn in E1, E2, E3. by subst.
Qed.

Lemma recordKey_inj t b e t' b' e' : valid_scope t b e = true -> valid_scope t' b' e' = true -> recordKey t b e = recordKey t' b' e' -> (t, b, e) = (t', b', e').
Proof.
  intros Hv Hv' E. apply encodeComposite_inj in E as [= E1 E2 E3]; [by apply scope_values_inj| | |done]; [apply valid_scope_spec in Hv as (Ht & Hb & He)|apply valid_scope_spec in Hv' as (Ht & Hb & He)];
    apply validateID_spec in Ht as (? & -> & ?), Hb as (? & -> & ?), He as (? & -> & ?); by repeat constructor.
Qed.

Lemma edgeKey_inj l l' : valid_edge l = true -> valid_edge l' = true -> edgeKey l = edgeKey l' -> l = l'.
Proof.
  intros (P & C & F)%valid_edge_scopes (P' & C' & F')%valid_edge_scopes E.
  assert (forall x, scope_ok (parent_of x) = true -> scope_ok (child_of x) = true -> fits (li_Relation x) ->
    Forall fits [Value (li_Tenant x); Value (li_Brain x); Value (li_Parent x); Value (li_Child x); li_Relation x]) as Hf.
  { intros x (T & B & E1)%valid_scope_spec (_ & _ & E2)%valid_scope_spec Fx. apply validateID_spec in T as (? & -> & ?), B as (? & -> & ?), E1 as (? & -> & ?), E2 as (? & -> & ?). by repeat constructor. }
  apply encodeComposite_inj in E as [= E1 E2 E3 E4 E5]; [|by apply Hf..|done]. pose proof (scope_values_inj _ _ _ _ _ _ P P' E1 E2 E3) as [= F1 F2 F3].
  pose proof (scope_values_inj _ _ _ _ _ _ C C' E1 E2 E4) as [= _ _ F4]. destruct l, l'. cbn in *. by subst.
Qed.

#[export] Instance MemoryEvidence_view : EvidenceView MemoryEvidence := {|
  record_at m k := let '(t, b, e) := k in if valid_scope t b e then (fun x => (mr_record x, mr_tombstoned x)) <$> me_records m !! recordKey t b e else None;
  has_edge m l := valid_edge l = true /\ me_edges m !! edgeKey l = Some l;
  evidence_inv m := forall key l, me_edges m !! key = Some l -> valid_edge l = true /\ key = edgeKey l
|}.

(** A record put under the key of a scope. *)
Lemma memory_record_put m t b e x edges k : valid_scope t b e = true ->
  record_at (MkMemoryEvidence (<[recordKey t b e := x]> (me_records m)) edges) k = if decide (k = (t, b, e)) then Some (mr_record x, mr_tombstoned x) else record_at m k.
Proof.
  intros Hv. destruct k as [[t' b'] e']. cbn [record_at MemoryEvidence_view me_records]. destruct (decide _) as [[= -> -> ->]|Hne]; [by rewrite Hv, lookup_insert_eq|].
  destruct (valid_scope t' b' e') eqn:Hv'; [|done]. rewrite lookup_insert_ne; [done|]. intros E. apply Hne. symmetry. by apply recordKey_inj.
Qed.

Lemma memory_readable m t b e r : valid_scope t b e = true -> MemoryEv.readable t b e m = Some r -> record_at m (t, b, e) = Some (r, false).
Proof. intros Hv. unfold MemoryEv.readable. cbn. rewrite Hv. destruct (me_records m !! _) as [[x []]|]; cbn; [done| |done]. by intros [= <-]. Qed.

#[export] Instance MemoryEvidence_laws : EvidenceLaws (S := MemoryEvidence).
Proof.
  constructor.
  - intros [] r m Hi Hv. pose proof (valid_record_scope r Hv) as Hs. cbn in Hs. cbn [Put MemoryEvidence_repository]. unfold MemoryEv.Put. destruct (me_records m !! _) as [x|] eqn:E.
    + case_bool_decide as Ex; split_and!; try done. exists (mr_tombstoned x). cbn [record_at MemoryEvidence_view scope_of]. rewrite Hs, E. cbn. by rewrite Ex.
    + split_and!; [done|done| |]; [cbn [record_at MemoryEvidence_view scope_of]; by rewrite Hs, E|]. intros k. by apply memory_record_put.
  - intros [] t b e m r Hv. cbn [GetEvidence MemoryEvidence_repository]. unfold MemoryEv.Get. destruct (MemoryEv.readable _ _ _ _) eqn:E; [|done]. intros [= <-]. by apply memory_readable.
  - intros [] l m Hi Hv. destruct (valid_edge_scopes l Hv) as (Hp & Hc & _). cbn [PutLineage MemoryEvidence_repository]. unfold MemoryEv.PutLineageIfEndpointsReadable.
    destruct (MemoryEv.readable _ _ (li_Parent l) _) as [p|] eqn:Ep; [|by split_and!]. destruct (MemoryEv.readable _ _ (li_Child l) _) as [c|] eqn:Ec; [|by split_and!].
    assert (live m (parent_of l) /\ live m (child_of l)) as [Lp Lc] by (split; eexists; by apply memory_readable).
    destruct (me_edges m !! edgeKey l) as [x|] eqn:E.
    + case_bool_decide as Ex; split_and!; try done. intros y. split; [by left|]. intros [Hy| ->]; [done|]. split; [done|]. by rewrite E, Ex.
    + split_and!; try done.
      * intros key y. cbn [me_edges]. intros [[<- <-]|[_ Hy]]%lookup_insert_Some; [done|by apply Hi].
      * intros y. cbn [has_edge MemoryEvidence_view me_edges]. rewrite lookup_insert_Some. split; [intros [Hy [[_ <-]|[_ Hl]]]; [by right|by left]|].
        intros [[Hy Hl]| ->]; (split; [done|]); [right|by left]. split; [|done]. intros Ek. rewrite <- Ek, E in Hl. done.
  - intros [] t b e m ls Hi Hv. cbn [LineageOf MemoryEvidence_repository]. intros [= <-] x. unfold MemoryEv.Lineage_. rewrite elem_of_filterb, list_elem_of_fmap. cbn [has_edge MemoryEvidence_view].
    split; intros [Hx Ht]; (split; [|done]).
    + destruct Hx as ([key y] & -> & Hy%elem_of_map_to_list). destruct (Hi _ _ Hy) as [Hvy ->]. done.
    + exists (edgeKey x, x). split; [done|]. apply elem_of_map_to_list, Hx.
  - intros [] t b e m Hi Hv. cbn [TombstoneEvidence MemoryEvidence_repository]. unfold MemoryEv.Tombstone. destruct (me_records m !! _) as [x|] eqn:E; [|by split_and!]. split_and!.
    + intros key l. cbn [me_edges]. intros [Hl _]%map_lookup_filter_Some. by apply Hi.
    + exists (mr_record x), (mr_tombstoned x). split; [cbn [record_at MemoryEvidence_view]; by rewrite Hv, E|]. intros k. by rewrite memory_record_put.
    + intros l. cbn [has_edge MemoryEvidence_view me_edges]. rewrite map_lookup_filter_Some. cbn. tauto.
Qed.

(** *** The durable repository keeps the laws *)

#[export] Instance EvidenceTables_view : EvidenceView EvidenceTables := {|
  record_at d k := let '(t, b, e) := k in
    if valid_scope t b e then (fun w => (DurableEv.record_of (Value t) (Value b) (Value e) w, ew_tombstoned w)) <$> et_records d !! (Value t, Value b, Value e) else None;
  has_edge d l := valid_edge l = true /\ DurableEv.edge_row l ∈ et_lineage d;
  evidence_inv d := forall w, w ∈ et_lineage d -> valid_edge (DurableEv.edge_of_row w) = true
|}.

Lemma edge_row_of w : DurableEv.edge_row (DurableEv.edge_of_row w) = w.
Proof. by destruct w as [[[[]]]]. Qed.

Lemma edge_of_row_of l : valid_edge l = true -> DurableEv.edge_of_row (DurableEv.edge_row l) = l.
Proof.
  intros (P & C & _)%valid_edge_scopes. destruct (valid_scope_spec _ _ _ P) as (T & B & E), (valid_scope_spec _ _ _ C) as (_ & _ & E').
  apply validateID_spec in T as (t & T & _), B as (b & B & _), E as (x & E & _), E' as (y & E' & _). destruct l. cbn in *. by subst.
Qed.

Lemma row_of_record_of r : validateRecord r = true -> DurableEv.record_of (Value (er_Tenant r)) (Value (er_Brain r)) (Value (er_Evidence r)) (DurableEv.row_of_record r) = r.
Proof.
  unfold validateRecord. intros Hv. bool_prop. apply validateID_spec in H6 as (? & T & _), H5 as (? & B & _), H4 as (? & E & _), H3 as (? & A & _). destruct r as [? ? ? ? ? ? []]. cbn in *. by subst.
Qed.

Lemma row_touches_edge t b e l : valid_scope t b e = true -> valid_edge l = true -> DurableEv.row_touches t b e (DurableEv.edge_row l) = touches t b e l.
Proof.
  intros Hv (P & C & _)%valid_edge_scopes. destruct (valid_scope_spec _ _ _ P) as (T & B & E), (valid_scope_spec _ _ _ C) as (_ & _ & E'), (valid_scope_spec _ _ _ Hv) as (T0 & B0 & E0).
  apply validateID_spec in T as (t1 & T & _), B as (b1 & B & _), E as (x1 & E & _), E' as (y1 & E' & _), T0 as (t0 & -> & _), B0 as (b0 & -> & _), E0 as (e0 & -> & _).
  unfold touches. cbn. rewrite T, B, E, E'. cbn. apply eq_true_iff_eq. rewrite !andb_true_iff, orb_true_iff, !String.eqb_eq, bool_decide_eq_true. naive_solver.
Qed.

(** A row put under the key of a scope. *)
Lemma tables_record_put d d' t b e w k : valid_scope t b e = true -> et_records d' = <[(Value t, Value b, Value e) := w]> (et_records d) ->
  record_at d' k = if decide (k = (t, b, e)) then Some (DurableEv.record_of (Value t) (Value b) (Value e) w, ew_tombstoned w) else record_at d k.
Proof.
  intros Hv Hr. destruct k as [[t' b'] e']. cbn [record_at EvidenceTables_view]. rewrite Hr. destruct (decide _) as [[= -> -> ->]|Hne]; [by rewrite Hv, lookup_insert_eq|].
  destruct (valid_scope t' b' e') eqn:Hv'; [|done]. rewrite lookup_insert_ne; [done|]. intros [= E1 E2 E3]. apply Hne. symmetry. by apply scope_values_inj.
Qed.

Lemma load_record env n t b e d r dead : valid_scope t b e = true -> DurableEv.loadEvidence env n (Value t) (Value b) (Value e) d = Ok (r, dead) -> record_at d (t, b, e) = Some (r, dead).
Proof. intros Hv. unfold DurableEv.loadEvidence. cbn [record_at EvidenceTables_view]. rewrite Hv. destruct (env _); [done|]. destruct (et_records d !! _) as [w|]; [|done]. cbn. destruct (negb _); [done|]. by intros [= <- <-]. Qed.

Lemma load_evidence_none env n t b e d : DurableEv.loadEvidence env n t b e d = Err EvidenceNotFound -> et_records d !! (t, b, e) = None.
Proof. unfold DurableEv.loadEvidence. destruct (env _); [done|]. destruct (et_records d !! _) as [w|]; [|done]. by destruct (negb _). Qed.

(** A transaction either keeps the tables or runs its body. *)
Lemma evidence_tx_cases {A} env d (body : result evidence_error (EvidenceTables * A)) :
  (exists e, DurableEv.in_tx env d body = (d, Err e)) \/ exists d' a, body = Ok (d', a) /\ DurableEv.in_tx env d body = (d', Ok a).
Proof.
  unfold DurableEv.in_tx. destruct (env EBegin); [by left; eexists|]. destruct body as [[d' a]|e]; [|by left; eexists]. destruct (env ECommit); [by left; eexists|]. right. by exists d', a.
Qed.

Lemma durable_put_effect env r d : evidence_inv d -> validateRecord r = true -> let '(d', res) := DurableEv.Put env r d in
  evidence_inv d' /\ same_edges d d' /\
  match res with
  | Ok true => record_at d (scope_of r) = None /\ forall k, record_at d' k = if decide (k = scope_of r) then Some (r, false) else record_at d k
  | Ok false => same_records d d' /\ exists b, record_at d (scope_of r) = Some (r, b)
  | Err _ => same_records d d'
  end.
Proof.
  intros Hi Hv. pose proof (valid_record_scope r Hv) as Hs. cbn in Hs. unfold DurableEv.Put. destruct (negb _); [by split_and!|].
  match goal with |- context [DurableEv.in_tx env d ?body] => destruct (evidence_tx_cases env d body) as [[e ->]|(d' & a & Hb & ->)]; [by split_and!|] end.
  destruct (DurableEv.published_artifact _ _ _) as [[]|]; [|done]. cbn [rbind] in Hb. destruct (DurableEv.loadEvidence _ _ _ _ _ _) as [[x dead]|[]] eqn:El; try done.
  - case_bool_decide as Ex; [|done]. injection Hb as <- <-. subst x. split_and!; try done. exists dead. by apply (load_record _ _ _ _ _ _ _ _ Hs El).
  - destruct (env XRecord); [done|]. injection Hb as <- <-. apply load_evidence_none in El. split_and!; try done; [cbn [record_at EvidenceTables_view scope_of]; by rewrite Hs, El|].
    intros k. rewrite (tables_record_put d _ (er_Tenant r) (er_Brain r) (er_Evidence r) (DurableEv.row_of_record r) k Hs) by done. by rewrite row_of_record_of.
Qed.

Lemma endpoint_live env n l x d : scope_ok (li_Tenant l, li_Brain l, x) = true -> DurableEv.endpoint_readable env n l x d = true -> live d (li_Tenant l, li_Brain l, x).
Proof.
  intros Hv. unfold DurableEv.endpoint_readable. destruct (DurableEv.loadEvidence _ _ _ _ _ _) as [[r []]|] eqn:El; try done. intros _. exists r. by eapply load_record.
Qed.

Lemma durable_link_effect env l d : evidence_inv d -> valid_edge l = true -> let '(d', res) := DurableEv.PutLineageIfEndpointsReadable env l d in
  evidence_inv d' /\ same_records d d' /\
  match res with
  | Ok _ => live d (parent_of l) /\ live d (child_of l) /\ forall x, has_edge d' x <-> has_edge d x \/ x = l
  | Err _ => same_edges d d'
  end.
Proof.
  intros Hi Hv. destruct (valid_edge_scopes l Hv) as (Hp & Hc & _). unfold DurableEv.PutLineageIfEndpointsReadable. destruct (negb _); [by split_and!|].
  match goal with |- context [DurableEv.in_tx env d ?body] => destruct (evidence_tx_cases env d body) as [[e ->]|(d' & a & Hb & ->)]; [by split_and!|] end.
  destruct (_ || _) eqn:El in Hb; [done|]. bool_prop. destruct (_ || _) in Hb; [done|].
  assert (live d (parent_of l) /\ live d (child_of l)) as [Lp Lc] by (split; by eapply endpoint_live).
  case_bool_decide as Hin; injection Hb as <- <-; split_and!; try done.
  - intros x. split; [by left|]. intros [Hx| ->]; [done|]. by split.
  - intros w. cbn [et_lineage]. rewrite elem_of_app, list_elem_of_singleton. intros [Hw| ->]; [by apply Hi|]. by rewrite edge_of_row_of.
  - intros x. cbn [has_edge EvidenceTables_view et_lineage]. rewrite elem_of_app, list_elem_of_singleton. split.
    + intros [Hx [Hr|Hr]]; [by left|right]. by rewrite <- (edge_of_row_of x Hx), Hr, edge_of_row_of.
    + intros [[Hx Hr]| ->]; (split; [done|]); [by left|by right].
Qed.

Lemma durable_lineage_effect env t b e d ls : evidence_inv d -> valid_scope t b e = true -> DurableEv.Lineage_ env t b e d = Ok ls ->
  forall x, x ∈ ls <-> has_edge d x /\ touches t b e x = true.
Proof.
  intros Hi Hv. unfold DurableEv.Lineage_. destruct (negb _); [done|]. destruct (env _); [done|]. cbv zeta. set (rows := sort_by _ _). destruct (4096 <? _)%nat eqn:E; [done|]. intros [= <-] x.
  apply Nat.ltb_ge in E. rewrite length_take in E. rewrite take_ge by lia. rewrite list_elem_of_fmap. unfold rows. setoid_rewrite elem_of_sort_by. setoid_rewrite elem_of_filterb. split.
  - intros (w & -> & Hw & Ht). pose proof (Hi _ Hw) as Hvw. split; [split; [done|by rewrite edge_row_of]|]. by rewrite <- row_touches_edge, edge_row_of.
  - intros [[Hvx Hr] Ht]. exists (DurableEv.edge_row x). rewrite edge_of_row_of, row_touches_edge by done. done.
Qed.

Lemma durable_tombstone_effect env t b e d : evidence_inv d -> valid_scope t b e = true -> let '(d', res) := DurableEv.Tombstone env t b e d in
  evidence_inv d' /\
  match res with
  | Ok _ => (exists r dead, record_at d (t, b, e) = Some (r, dead) /\ forall k, record_at d' k = if decide (k = (t, b, e)) then Some (r, true) else record_at d k) /\
      forall x, has_edge d' x <-> has_edge d x /\ touches t b e x = false
  | Err _ => same_records d d' /\ same_edges d d'
  end.
Proof.
  intros Hi Hv. unfold DurableEv.Tombstone. destruct (negb _); [by split_and!|].
  match goal with |- context [DurableEv.in_tx env d ?body] => destruct (evidence_tx_cases env d body) as [[x ->]|(d' & a & Hb & ->)]; [by split_and!|] end.
  destruct (DurableEv.loadEvidence _ _ _ _ _ _) as [[r dead]|] eqn:El; [|done]. cbn [rbind] in Hb. destruct (_ || _) in Hb; [done|]. injection Hb as <- <-. pose proof (load_record _ _ _ _ _ _ _ _ Hv El) as Hr.
  split_and!.
  - intros w. cbn [et_lineage]. intros [Hw _]%elem_of_filterb. by apply Hi.
  - exists r, dead. split; [done|]. intros k. cbn [record_at EvidenceTables_view] in Hr. rewrite Hv in Hr. destruct (et_records d !! (Value t, Value b, Value e)) as [w|] eqn:Ew; [|done]. injection Hr as <- <-.
    rewrite (tables_record_put d _ t b e (MkEvidenceRow (ew_artifact w) (ew_generation w) (ew_anchor w) (ew_algorithm w) (ew_digest w) true) k Hv); [done|]. apply map_eq. intros i. cbn [et_records].
    destruct (decide (i = (Value t, Value b, Value e))) as [->|]; [by rewrite lookup_alter_eq, Ew, lookup_insert_eq|by rewrite lookup_alter_ne, lookup_insert_ne].
  - intros x. cbn [has_edge EvidenceTables_view et_lineage]. rewrite elem_of_filterb, negb_true_iff. split.
    + intros (Hx & Hw & Ht). by rewrite row_touches_edge in Ht.
    + intros [[Hx Hw] Ht]. by rewrite row_touches_edge.
Qed.

#[export] Instance EvidenceTables_laws : EvidenceLaws (S := EvidenceTables).
Proof.
  constructor; [exact durable_put_effect| |exact durable_link_effect|exact durable_lineage_effect|exact durable_tombstone_effect].
  intros env t b e d r Hv. cbn [GetEvidence EvidenceTables_repository]. unfold DurableEv.Get. destruct (negb _); [done|]. destruct (DurableEv.loadEvidence _ _ _ _ _ _) as [[x []]|] eqn:El; try done.
  intros [= <-]. by eapply load_record.
Qed.

(** ** What the ledger promises *)

Section promises.
Context {S : Type} `{EvidenceLaws S}.

(** The calls of the ledger, and what others do to the store without touching the evidence. *)
Inductive ev_step : S -> S -> Prop :=
| ev_admit env r s : ev_step s (fst (Admit_ env r s))
| ev_link env l s : ev_step s (fst (Link env l s))
| ev_tombstone env t b e s : ev_step s (fst (Tombstone_ env t b e s))
| ev_other s s' : same_records s s' -> same_edges s s' -> (evidence_inv s -> evidence_inv s') -> ev_step s s'.

(** An edge joins two records that can be read. *)
Definition linked (s : S) : Prop := evidence_inv s /\ forall l, has_edge s l -> live s (parent_of l) /\ live s (child_of l).

(** Records keep their content and their tombstones. *)
Lemma step_forward s s' k r dead : evidence_inv s -> ev_step s s' -> record_at s k = Some (r, dead) -> exists dead', record_at s' k = Some (r, dead') /\ (dead = true -> dead' = true).
Proof.
  intros Hi Hst Hk. assert (same_records s s' -> exists dead', record_at s' k = Some (r, dead') /\ (dead = true -> dead' = true)) as Hsame by (intros E; exists dead; by rewrite E).
  destruct Hst as [env r' s|env l s|env t b e s|s s' Hr _ _]; [| | |by apply Hsame].
  - revert Hsame. unfold Admit_. destruct (validateRecord r') eqn:Hv; cbn [negb]; [|intros Hsame; by apply Hsame]. pose proof (put_effect env r' s Hi Hv) as Hp. destruct (Put env r' s) as [s' [[]|]]; cbn [fst]; [|naive_solver..].
    destruct Hp as (_ & _ & Hn & Hp). intros _. rewrite Hp. destruct (decide _) as [->|]; [by rewrite Hn in Hk|by exists dead].
  - revert Hsame. unfold Link. destruct (valid_edge l) eqn:Hv; cbn [negb]; [|intros Hsame; by apply Hsame]. pose proof (link_effect env l s Hi Hv) as Hp. destruct (PutLineage env l s) as [s' res]. cbn [fst]. naive_solver.
  - revert Hsame. unfold Tombstone_. destruct (valid_scope t b e) eqn:Hv; cbn [negb]; [|intros Hsame; by apply Hsame]. pose proof (tombstone_effect env t b e s Hi Hv) as Hp.
    destruct (TombstoneEvidence env t b e s) as [s' [[]|]]; cbn [fst]; [|naive_solver]. destruct Hp as (_ & (x & d0 & Hx & Hp) & _). intros _. rewrite Hp. destruct (decide _) as [->|]; [|by exists dead].
    exists true. rewrite Hx in Hk. by injection Hk as -> ->.
Qed.

Lemma live_same s s' k : same_records s s' -> live s k -> live s' k.
Proof. intros E [r Hr]. exists r. by rewrite E. Qed.

Lemma step_linked s s' : linked s -> ev_step s s' -> linked s'.
Proof.
  intros [Hi Hl] Hst. assert (forall s'', evidence_inv s'' -> same_records s s'' -> same_edges s s'' -> linked s'') as Hsame.
  { intros s'' Hi' Hr He. split; [done|]. intros l [Hp Hc]%He%Hl. split; by eapply live_same. }
  destruct Hst as [env r s|env l s|env t b e s|s s' Hr He Hinv]; [| | |by apply Hsame; auto].
  - unfold Admit_. destruct (validateRecord r) eqn:Hv; cbn [negb fst]; [|by apply Hsame]. pose proof (put_effect env r s Hi Hv) as Hp. destruct (Put env r s) as [s' [[]|]]; cbn [fst]; [|apply Hsame; naive_solver..].
    destruct Hp as (Hi' & He & Hn & Hp). split; [done|]. intros l Hel%He. destruct (Hl l Hel) as [[x Hx] [y Hy]].
    split; [exists x|exists y]; rewrite Hp; destruct (decide _) as [E|]; try done; [rewrite E, Hn in Hx|rewrite E, Hn in Hy]; done.
  - unfold Link. destruct (valid_edge l) eqn:Hv; cbn [negb fst]; [|by apply Hsame]. pose proof (link_effect env l s Hi Hv) as Hp. destruct (PutLineage env l s) as [s' [b|]]; cbn [fst]; [|apply Hsame; naive_solver].
    destruct Hp as (Hi' & Hr & Lp & Lc & He). split; [done|]. intros x [Hx| ->]%He; [destruct (Hl x Hx)|]; split; by eapply live_same.
  - unfold Tombstone_. destruct (valid_scope t b e) eqn:Hv; cbn [negb fst]; [|by apply Hsame]. pose proof (tombstone_effect env t b e s Hi Hv) as Hp.
    destruct (TombstoneEvidence env t b e s) as [s' [[]|]]; cbn [fst]; [|apply Hsame; naive_solver]. destruct Hp as (Hi' & (r & dead & Hk & Hp) & He). split; [done|]. intros l [Hel Ht]%He.
    destruct (Hl l Hel) as [[x Hx] [y Hy]]. unfold touches in Ht. apply bool_decide_eq_false in Ht.
    split; [exists x|exists y]; rewrite Hp; (destruct (decide _) as [[= E1 E2 E3]|]; [destruct Ht; auto|done]).
Qed.

Lemma steps_linked s s' : linked s -> rtc ev_step s s' -> linked s'.
Proof. intros Hl. induction 1 as [|s x s' Hst _ IH]; [done|]. apply IH. by eapply step_linked. Qed.

Lemma steps_forward s s' k r dead : linked s -> rtc ev_step s s' -> record_at s k = Some (r, dead) -> exists dead', record_at s' k = Some (r, dead') /\ (dead = true -> dead' = true).
Proof.
  intros Hl Hst. revert dead Hl. induction Hst as [s|s x s' Hst _ IH]; intros dead Hl Hk; [by exists dead|]. destruct (step_forward _ _ _ _ _ (proj1 Hl) Hst Hk) as (d1 & Hk1 & Hd1).
  destruct (IH d1 (step_linked _ _ Hl Hst) Hk1) as (d2 & Hk2 & Hd2). exists d2. auto.
Qed.

Lemma admit_records env r s s' b : evidence_inv s -> Admit_ env r s = (s', Ok b) -> scope_ok (scope_of r) = true /\ exists dead, record_at s' (scope_of r) = Some (r, dead) /\ if b then dead = false /\ record_at s (scope_of r) = None else record_at s (scope_of r) = Some (r, dead).
Proof.
  intros Hi. unfold Admit_. destruct (validateRecord r) eqn:Hv; [|done]. cbn [negb]. intros E. split; [by apply valid_record_scope|]. pose proof (put_effect env r s Hi Hv) as Hp. rewrite E in Hp.
  destruct b; [destruct Hp as (_ & _ & Hn & Hp); exists false; rewrite Hp, decide_True by done; done|]. destruct Hp as (_ & _ & Hp & dead & Hd). exists dead. by rewrite Hp.
Qed.

Lemma read_record env t b e s r : ReadEvidence env t b e s = Ok r -> record_at s (t, b, e) = Some (r, false).
Proof. unfold ReadEvidence. destruct (valid_scope t b e) eqn:Hv; [|done]. by apply get_effect. Qed.

(** C22. Evidence is immutable: after a record was admitted, every later read of its
    scope returns that record or nothing, another record is never admitted under
    the scope and the same one only as a retry, and after a tombstone the scope is never
    read again, whatever other calls are made and fail. *)
Theorem evidence_is_immutable env r s0 s1 s2 b :
  linked s0 -> Admit_ env r s0 = (s1, Ok b) -> rtc ev_step s1 s2 ->
  let '(t, br, e) := scope_of r in
  (forall env' r', ReadEvidence env' t br e s2 = Ok r' -> r' = r) /\
  (forall env' r' s3 b', scope_of r' = scope_of r -> Admit_ env' r' s2 = (s3, Ok b') -> r' = r /\ b' = false) /\
  (forall env' s3 s4 env'' r', Tombstone_ env' t br e s2 = (s3, Ok tt) -> rtc ev_step s3 s4 -> ReadEvidence env'' t br e s4 <> Ok r').
Proof.
  intros Hl Ha Hst. destruct (admit_records _ _ _ _ _ (proj1 Hl) Ha) as (Hv & dead & Hr1 & _). assert (linked s1) as Hl1 by (eapply step_linked; [exact Hl|]; pose proof (ev_admit env r s0) as E; by rewrite Ha in E).
  destruct (steps_forward _ _ _ _ _ Hl1 Hst Hr1) as (d2 & Hr2 & _). pose proof (steps_linked _ _ Hl1 Hst) as Hl2. unfold scope_of in Hr2 |- *. split_and!.
  - intros env' r' Hread%read_record. rewrite Hr2 in Hread. by injection Hread as <- _.
  - intros env' r' s3 b' Hs Ha'. fold (scope_of r') in Hs. fold (scope_of r) in Hs. destruct (admit_records _ _ _ _ _ (proj1 Hl2) Ha') as (_ & d & _ & Hb). rewrite Hs in Hb. unfold scope_of in Hb. rewrite Hr2 in Hb. destruct b'; [by destruct Hb|]. by injection Hb as <- _.
  - intros env' s3 s4 env'' r' Ht Hst' Hread%read_record. assert (linked s3) as Hl3 by (eapply step_linked; [exact Hl2|]; pose proof (ev_tombstone env' (er_Tenant r) (er_Brain r) (er_Evidence r) s2) as E; by rewrite Ht in E).
    unfold Tombstone_ in Ht. destruct (negb _) eqn:Hn in Ht; [done|]. pose proof (tombstone_effect env' _ _ _ s2 (proj1 Hl2) Hv) as Hp. rewrite Ht in Hp.
    destruct Hp as (_ & (x & d & _ & Hp) & _). specialize (Hp (er_Tenant r, er_Brain r, er_Evidence r)). rewrite decide_True in Hp by done.
    destruct (steps_forward _ _ _ _ _ Hl3 Hst' Hp) as (d4 & Hr4 & Hd4). rewrite Hr4, Hd4 in Hread by done. done.
Qed.

(** C23. Lineage stays among readable evidence: an edge that is returned was asked
    for the record it touches and joins two records of one scope that can be
    read, and a link that succeeded is returned for both of its ends. *)
Theorem lineage_joins_readable_evidence s0 s env env' t b e ls :
  linked s0 -> rtc ev_step s0 s -> Related env env' t b e s = Ok ls ->
  (forall l, l ∈ ls -> touches t b e l = true /\ live s (parent_of l) /\ live s (child_of l)) /\
  (forall l s1 env1 c, Link env1 l s1 = (s, Ok c) -> linked s1 -> touches t b e l = true -> l ∈ ls).
Proof.
  intros Hl Hst Hr. destruct (steps_linked _ _ Hl Hst) as [Hi He]. unfold Related in Hr. destruct (ReadEvidence env t b e s) eqn:Ere; [|done]. cbn in Hr. unfold ReadEvidence in Ere. destruct (valid_scope t b e) eqn:Hv; [|done].
  pose proof (lineage_effect env' t b e s ls Hi Hv Hr) as Hin. split.
  - intros l [Hel Ht]%Hin. destruct (He l Hel). done.
  - intros l s1 env1 c Hlk [Hi1 _] Ht. apply Hin. split; [|done]. unfold Link in Hlk. destruct (valid_edge l) eqn:Hvl; [|done]. cbn in Hlk. pose proof (link_effect env1 l s1 Hi1 Hvl) as Hp. rewrite Hlk in Hp.
    destruct Hp as (_ & _ & _ & _ & Hp). apply Hp. by right.
Qed.
End promises.

(** ** Examples *)

Module EvidenceRun.
Definition id_ (ns v : string) : Identifier := MkIdentifier ns v.
Definition hex64 : string := "0123456789abcdef0123456789abcdef0123456789abcdef0123456789abcdef".
Definition note (evidence anchor : string) : EvidenceRecord :=
  MkEvidence (id_ "tenant" "t") (id_ "brain" "b") (id_ "evidence" evidence) (id_ "artifact" "a") 1 anchor (MkDigest "sha256" hex64).
Definition cites_ : Lineage := MkLineage (id_ "tenant" "t") (id_ "brain" "b") (id_ "evidence" "e1") (id_ "evidence" "e2") "cites".

Definition artifact (status : string) : ArtifactTables :=
  MkArtifactTables {[ ("t", "a", 1) := MkArtifactRow (MkManifest hex64 10 1 1 status) None [] None ]} ∅ 0.
Definition d0 : EvidenceTables := MkEvidenceTables (artifact "published") ∅ [].
Definition calm_ : EvidenceEnv := fun _ => false.
Definition d1 : EvidenceTables := fst (Admit_ (S := EvidenceTables) calm_ (note "e1" "line 1") d0).
(** The vault deletes the artifact. *)
Definition d2 : EvidenceTables := MkEvidenceTables (artifact "tombstoned") (et_records d1) (et_lineage d1).

Lemma d0_linked : linked d0.
Proof. split; [intros w Hw; by apply elem_of_nil in Hw|]. intros l [_ Hl]. by apply elem_of_nil in Hl. Qed.

Lemma evidence_is_immutable_witness : ReadEvidence (S := EvidenceTables) calm_ (id_ "tenant" "t") (id_ "brain" "b") (id_ "evidence" "e1") d2 = Ok (note "e1" "line 1").
Proof.
  destruct (@evidence_is_immutable EvidenceTables EvidenceTables_repository EvidenceTables_view EvidenceTables_laws calm_ (note "e1" "line 1") d0 d1 d2 true) as (Hr & _ & _).
  - exact d0_linked.
  - vm_compute. reflexivity.
  - apply rtc_once. apply ev_other; [intros [[t b] e]; reflexivity|intros x; reflexivity|exact (fun H => H)].
  - match goal with |- ?x = _ => destruct x as [r|] eqn:E end; [by rewrite (Hr _ _ E)|]. vm_compute in E. discriminate E.
Defined.

(** An exact retry is refused once the artifact is deleted. *)
Example retry_after_deletion_is_refused :
  (snd (Admit_ (S := EvidenceTables) calm_ (note "e1" "line 1") d1), snd (Admit_ (S := EvidenceTables) calm_ (note "e1" "line 1") d2)) = (Ok false, Err EvidenceNotFound).
Proof. vm_compute. reflexivity. Qed.

Definition m1 : MemoryEvidence := fst (Admit_ (S := MemoryEvidence) tt (note "e1" "line 1") NewMemoryEvidence).
Definition m2 : MemoryEvidence := fst (Admit_ (S := MemoryEvidence) tt (note "e2" "line 2") m1).
Definition m3 : MemoryEvidence := fst (Link (S := MemoryEvidence) tt cites_ m2).

Lemma empty_linked : linked NewMemoryEvidence.
Proof.
  assert (forall key l, me_edges NewMemoryEvidence !! key <> Some l) as Hn by (intros key l; unfold NewMemoryEvidence; cbn [me_edges]; by rewrite lookup_empty).
  split; [intros key l Hl; by apply Hn in Hl|]. intros l [_ Hl]. by apply Hn in Hl.
Qed.

Lemma lineage_joins_readable_evidence_witness :
  Related (S := MemoryEvidence) tt tt (id_ "tenant" "t") (id_ "brain" "b") (id_ "evidence" "e2") m3 = Ok [cites_] /\ live m3 (parent_of cites_) /\ live m3 (child_of cites_).
Proof.
  split; [vm_compute; reflexivity|]. destruct (@lineage_joins_readable_evidence MemoryEvidence MemoryEvidence_repository MemoryEvidence_view MemoryEvidence_laws NewMemoryEvidence m3 tt tt (id_ "tenant" "t") (id_ "brain" "b") (id_ "evidence" "e2") [cites_]) as [Hall _].
  - exact empty_linked.
  - apply (rtc_l _ _ m1); [exact (ev_admit (S := MemoryEvidence) tt _ _)|]. apply (rtc_l _ _ m2); [exact (ev_admit (S := MemoryEvidence) tt _ _)|]. apply rtc_once. exact (ev_link (S := MemoryEvidence) tt _ _).
  - vm_compute. reflexivity.
  - destruct (Hall cites_) as (_ & Hp & Hc); [left|]. split; [exact Hp|exact Hc].
Defined.
End EvidenceRun.
