(* ===== verification/DeletionPurge.v ===== *)
(** * deletion: purging documents from every substrate

    Models [services/brain/internal/deletion/purge.go].  The substrates are
    interfaces that other packages implement; here they act on a world of their
    own, and may fail after they changed it. *)

From Stdlib Require Import Ascii String.
From S2P Require Import Prelude GoString.
From stdpp Require Import gmap strings.
Open Scope string_scope.
Open Scope Z_scope.

Definition PurgeCoverage : string := "product_content_projections_v1".

Inductive purge_error := ErrInvalidTransition | ErrNoSubstrates | PurgeCortex | PurgeHistory.

(** The substrate [PurgeCoverage] names. *)
Definition purgeSubstrates : list string := ["corpus"; "vectors"; "cortex"; "history"].

Definition normalizeIDs (docIDs : list string) : list string :=
  sort_strings (dedup_key id [] (List.filter (fun s => negb (String.eqb s "")) (trim_space <$> docIDs))).

Section purge.
Context {W : Type}.

Record CorpusPurger := MkCorpusPurger { DeleteDocuments : string -> list string -> W -> W * Z; DocumentIDs : string -> W -> list string }.
Record VectorPurger := MkVectorPurger { DeleteDocumentVectors : list string -> W -> W * Z; HasDocumentVectors : list string -> W -> list string }.
(** [None]: the purger returns an error. *)
Record CortexPurger := MkCortexPurger { PurgeDocuments : list string -> W -> W * option Z; ResidualDocuments : list string -> W -> list string }.
Record HistoryPurger := MkHistoryPurger { PurgeHistory_ : list string -> W -> W * option Z; ResidualHistory : list string -> W -> list string }.

Record Substrates := MkSubstrates {
  su_BrainID : string; su_Corpus : option CorpusPurger; su_Vectors : option VectorPurger; su_Cortex : option CortexPurger; su_History : option HistoryPurger
}.

Record PurgeReceipt := MkPurgeReceipt {
  rc_Coverage : string; rc_DocumentIDs : list string; rc_Purged : gmap string Z; rc_Leaks : gmap string (list string); rc_Skipped : list string; rc_VerifiedComplete : bool
}.
Definition no_receipt : PurgeReceipt := MkPurgeReceipt "" [] ∅ ∅ [] false.

Definition wired (s : Substrates) (name : string) : bool :=
  if String.eqb name "corpus" then bool_decide (is_Some (su_Corpus s)) else if String.eqb name "vectors" then bool_decide (is_Some (su_Vectors s))
  else if String.eqb name "cortex" then bool_decide (is_Some (su_Cortex s)) else bool_decide (is_Some (su_History s)).

Definition skipped (s : Substrates) : list string := List.filter (fun name => negb (wired s name)) purgeSubstrates.

Definition record_leak (name : string) (residual : list string) (leaks : gmap string (list string)) : gmap string (list string) :=
  if (length residual =? 0)%nat then leaks else <[name := sort_strings residual]> leaks.

(** What a substrate that is wired still finds; nothing for one that is not. *)
Definition residual_of (s : Substrates) (ids : list string) (name : string) (w : W) : list string :=
  if String.eqb name "corpus" then match su_Corpus s with Some p => List.filter (fun d => bool_decide (d ∈ ids)) (DocumentIDs p (su_BrainID s) w) | None => [] end
  else if String.eqb name "vectors" then match su_Vectors s with Some p => HasDocumentVectors p ids w | None => [] end
  else if String.eqb name "cortex" then match su_Cortex s with Some p => ResidualDocuments p ids w | None => [] end
  else match su_History s with Some p => ResidualHistory p ids w | None => [] end.

Definition verifyPurge (s : Substrates) (ids : list string) (w : W) : gmap string (list string) :=
  fold_left (fun leaks name => record_leak name (residual_of s ids name w) leaks) purgeSubstrates ∅.

(** The deletions, in order, up to the first error: the world and what was counted. *)
Definition delete_all (s : Substrates) (ids : list string) (w : W) : W * gmap string Z * option purge_error :=
  let '(w, purged) := match su_Corpus s with Some p => let '(w', n) := DeleteDocuments p (su_BrainID s) ids w in (w', {[ "corpus" := n ]}) | None => (w, ∅) end in
  let '(w, purged) := match su_Vectors s with Some p => let '(w', n) := DeleteDocumentVectors p ids w in (w', <[ "vectors" := n ]> purged) | None => (w, purged) end in
  let '(w, purged, err) := match su_Cortex s with
                           | Some p => match PurgeDocuments p ids w with (w', Some n) => (w', <[ "cortex" := n ]> purged, None) | (w', None) => (w', purged, Some PurgeCortex) end
                           | None => (w, purged, None)
                           end in
  match err with
  | Some e => (w, purged, Some e)
  | None => match su_History s with
            | Some p => match PurgeHistory_ p ids w with (w', Some n) => (w', <[ "history" := n ]> purged, None) | (w', None) => (w', purged, Some PurgeHistory) end
            | None => (w, purged, None)
            end
  end.

Definition Purge (s : Substrates) (docIDs : list string) (w : W) : W * (PurgeReceipt * option purge_error) :=
  let ids := normalizeIDs docIDs in
  if (length ids =? 0)%nat then (w, (no_receipt, Some ErrInvalidTransition))
  else
    let '(w', purged, err) := delete_all s ids w in
    match err with
    | Some e => (w', (MkPurgeReceipt PurgeCoverage ids purged ∅ [] false, Some e))
    | None =>
        let skip := skipped s in
        if (length skip =? length purgeSubstrates)%nat then (w', (MkPurgeReceipt PurgeCoverage ids purged ∅ skip false, Some ErrNoSubstrates))
        else
          let leaks := verifyPurge s ids w' in
          (w', (MkPurgeReceipt PurgeCoverage ids purged leaks skip (bool_decide (leaks = ∅) && (length skip =? 0)%nat), None))
    end.

(** ** Theorems *)

Lemma filter_none_in {A} (p : A -> bool) l : (forall x, x ∈ l -> p x = false) -> List.filter p l = [].
Proof. induction l as [|x l IH]; intros Hall; [done|]. cbn. rewrite Hall by left. apply IH. intros y Hy. apply Hall. by right. Qed.

Lemma elem_of_normalizeIDs docIDs x : x ∈ normalizeIDs docIDs <-> x <> "" /\ exists d, d ∈ docIDs /\ trim_space d = x.
Proof.
  unfold normalizeIDs, sort_strings. rewrite elem_of_sort_by, elem_of_dedup, elem_of_filterb, list_elem_of_fmap, negb_true_iff, String.eqb_neq. naive_solver.
Qed.

(** The receipt depends on the set of documents asked for only. *)
Lemma normalizeIDs_ext ids1 ids2 : (forall x, x <> "" -> (exists d, d ∈ ids1 /\ trim_space d = x) <-> (exists d, d ∈ ids2 /\ trim_space d = x)) -> normalizeIDs ids1 = normalizeIDs ids2.
Proof.
  intros Hsame. assert (forall ids, NoDup (normalizeIDs ids)) as Hnd by (intros ids; apply sort_by_NoDup, NoDup_dedup).
  assert (forall ids, sort_by String.ltb (normalizeIDs ids) = normalizeIDs ids) as Hfix by (intros ids; apply sort_by_idem; apply _).
  rewrite <- (Hfix ids1), <- (Hfix ids2). apply sort_by_total_perm; [apply _|]. apply NoDup_Permutation; [done|done|]. intros x. rewrite !elem_of_normalizeIDs. naive_solver.
Qed.

Lemma record_leak_ne n k r m : n <> k -> record_leak n r m !! k = m !! k.
Proof. intros Hn. unfold record_leak. destruct (_ =? 0)%nat; [done|]. by rewrite lookup_insert_ne. Qed.

Lemma record_leak_eq n r m : m !! n = None -> record_leak n r m !! n = if (length r =? 0)%nat then None else Some (sort_strings r).
Proof. intros Hn. unfold record_leak. destruct (_ =? 0)%nat; [done|]. by rewrite lookup_insert_eq. Qed.

Lemma verifyPurge_lookup s ids w name : name ∈ purgeSubstrates ->
  verifyPurge s ids w !! name = if (length (residual_of s ids name w) =? 0)%nat then None else Some (sort_strings (residual_of s ids name w)).
Proof.
  intros Hn. unfold verifyPurge, purgeSubstrates in *. cbn [fold_left]. generalize (fun n => residual_of s ids n w). intros f.
  repeat (apply elem_of_cons in Hn as [->|Hn]); try by apply elem_of_nil in Hn.
  all: rewrite ?record_leak_ne by done; apply record_leak_eq; by rewrite ?record_leak_ne by done.
Qed.

Lemma verifyPurge_empty s ids w : verifyPurge s ids w = ∅ <-> forall name, name ∈ purgeSubstrates -> residual_of s ids name w = [].
Proof.
  split.
  - intros E name Hn. pose proof (verifyPurge_lookup s ids w name Hn) as Hl. rewrite E, lookup_empty in Hl. by destruct (residual_of s ids name w).
  - intros Hall. unfold verifyPurge, purgeSubstrates in *. cbn [fold_left]. by rewrite !Hall by set_solver.
Qed.

(** *** What a purge reports, port by port *)

(** A port ran from [w] to [w']: one that is not wired does nothing, a wired one
    does what its deletion does; [count] is its count, absent when it failed. *)
Definition port_ran (port : option (W -> W * option Z)) (w w' : W) (count : option Z) (failed : bool) : Prop :=
  match port with
  | None => w' = w /\ count = None /\ failed = false
  | Some f => f w = (w', count) /\ (failed = true <-> count = None)
  end.

(** The corpus and the vector store cannot fail. *)
Definition counted {A B} (f : A -> B * Z) : A -> B * option Z := fun a => (fst (f a), Some (snd (f a))).

Record purge_report (s : Substrates) (docIDs : list string) (w w' : W) (receipt : PurgeReceipt) (err : option purge_error) : Prop := {
  pr_nothing_asked : normalizeIDs docIDs = [] -> w' = w /\ receipt = no_receipt /\ err = Some ErrInvalidTransition;
  (* the deletions of the wired ports, each on the world the previous one left; the first failure is the error *)
  pr_ran : normalizeIDs docIDs <> [] -> let ids := normalizeIDs docIDs in
    rc_DocumentIDs receipt = ids /\ exists w1 w2 w3 failed3 failed4,
      port_ran ((fun p => counted (DeleteDocuments p (su_BrainID s) ids)) <$> su_Corpus s) w w1 (rc_Purged receipt !! "corpus") false /\
      port_ran ((fun p => counted (DeleteDocumentVectors p ids)) <$> su_Vectors s) w1 w2 (rc_Purged receipt !! "vectors") false /\
      port_ran ((fun p => PurgeDocuments p ids) <$> su_Cortex s) w2 w3 (rc_Purged receipt !! "cortex") failed3 /\
      if failed3 then w' = w3 /\ err = Some PurgeCortex
      else port_ran ((fun p => PurgeHistory_ p ids) <$> su_History s) w3 w' (rc_Purged receipt !! "history") failed4 /\
        err = if failed4 then Some PurgeHistory
              else match su_Corpus s, su_Vectors s, su_Cortex s, su_History s with None, None, None, None => Some ErrNoSubstrates | _, _, _, _ => None end;
  (* complete: all four ports are there and none finds a document that was asked for *)
  pr_complete : rc_VerifiedComplete receipt = true <-> err = None /\ exists corpus vectors cortex history,
    su_Corpus s = Some corpus /\ su_Vectors s = Some vectors /\ su_Cortex s = Some cortex /\ su_History s = Some history /\
    (forall d, d ∈ docIDs -> trim_space d <> "" -> trim_space d ∉ DocumentIDs corpus (su_BrainID s) w') /\
    HasDocumentVectors vectors (normalizeIDs docIDs) w' = [] /\
    ResidualDocuments cortex (normalizeIDs docIDs) w' = [] /\ ResidualHistory history (normalizeIDs docIDs) w' = [];
  (* otherwise the leaks are what each port still finds, and the skipped are the ports that are not there *)
  pr_corpus_leak : err = None -> forall p d, su_Corpus s = Some p ->
    d ∈ default [] (rc_Leaks receipt !! "corpus") <-> d ∈ DocumentIDs p (su_BrainID s) w' /\ d ∈ normalizeIDs docIDs;
  pr_vector_leak : err = None -> forall p, su_Vectors s = Some p ->
    default [] (rc_Leaks receipt !! "vectors") = sort_strings (HasDocumentVectors p (normalizeIDs docIDs) w');
  pr_cortex_leak : err = None -> forall p, su_Cortex s = Some p ->
    default [] (rc_Leaks receipt !! "cortex") = sort_strings (ResidualDocuments p (normalizeIDs docIDs) w');
  pr_history_leak : err = None -> forall p, su_History s = Some p ->
    default [] (rc_Leaks receipt !! "history") = sort_strings (ResidualHistory p (normalizeIDs docIDs) w');
  pr_skipped : err = None -> forall name, name ∈ rc_Skipped receipt <->
    (name = "corpus" /\ su_Corpus s = None) \/ (name = "vectors" /\ su_Vectors s = None) \/
    (name = "cortex" /\ su_Cortex s = None) \/ (name = "history" /\ su_History s = None)
}.

Lemma skipped_all s : (length (skipped s) =? length purgeSubstrates)%nat =
  match su_Corpus s, su_Vectors s, su_Cortex s, su_History s with None, None, None, None => true | _, _, _, _ => false end.
Proof. unfold skipped, wired, purgeSubstrates. by destruct (su_Corpus s), (su_Vectors s), (su_Cortex s), (su_History s). Qed.

Lemma elem_of_skipped s name : name ∈ skipped s <->
  (name = "corpus" /\ su_Corpus s = None) \/ (name = "vectors" /\ su_Vectors s = None) \/
  (name = "cortex" /\ su_Cortex s = None) \/ (name = "history" /\ su_History s = None).
Proof.
  unfold skipped, wired, purgeSubstrates. destruct (su_Corpus s), (su_Vectors s), (su_Cortex s), (su_History s); cbn; rewrite ?elem_of_cons, elem_of_nil; naive_solver.
Qed.

Lemma skipped_none s : (length (skipped s) =? 0)%nat = true <->
  is_Some (su_Corpus s) /\ is_Some (su_Vectors s) /\ is_Some (su_Cortex s) /\ is_Some (su_History s).
Proof.
  unfold skipped, wired, purgeSubstrates. destruct (su_Corpus s), (su_Vectors s), (su_Cortex s), (su_History s); cbn; (split; [intros Hx|intros (H1 & H2 & H3 & H4)]);
    try done; try (by split_and!; eexists); by repeat match goal with H : is_Some None |- _ => destruct H end.
Qed.

(** A leak list, whether or not it is recorded. *)
Lemma leaks_found s ids w name : name ∈ purgeSubstrates ->
  default [] (verifyPurge s ids w !! name) = sort_strings (residual_of s ids name w).
Proof. intros Hn. rewrite verifyPurge_lookup by done. by destruct (residual_of s ids name w). Qed.

Lemma delete_all_ran s ids w w' purged err : delete_all s ids w = (w', purged, err) ->
  exists w1 w2 w3 failed3 failed4,
    port_ran ((fun p => counted (DeleteDocuments p (su_BrainID s) ids)) <$> su_Corpus s) w w1 (purged !! "corpus") false /\
    port_ran ((fun p => counted (DeleteDocumentVectors p ids)) <$> su_Vectors s) w1 w2 (purged !! "vectors") false /\
    port_ran ((fun p => PurgeDocuments p ids) <$> su_Cortex s) w2 w3 (purged !! "cortex") failed3 /\
    if failed3 then w' = w3 /\ err = Some PurgeCortex
    else port_ran ((fun p => PurgeHistory_ p ids) <$> su_History s) w3 w' (purged !! "history") failed4 /\ err = if failed4 then Some PurgeHistory else None.
Proof.
  unfold delete_all, counted. intros E.
  destruct (su_Corpus s) as [p1|]; [destruct (DeleteDocuments p1 (su_BrainID s) ids w) as [w1 n1] eqn:E1; exists w1|exists w];
  (destruct (su_Vectors s) as [p2|]; [destruct (DeleteDocumentVectors p2 ids _) as [w2 n2] eqn:E2; exists w2|eexists]);
  (destruct (su_Cortex s) as [p3|]; [destruct (PurgeDocuments p3 ids _) as [w3 [n3|]] eqn:E3; exists w3; [exists false|exists true]|eexists; exists false]);
  try (injection E as <- <- <-; exists false; cbn; rewrite ?E1, ?E2, ?E3; cbn; rewrite ?lookup_insert; cbn; by split_and!);
  (destruct (su_History s) as [p4|]; [destruct (PurgeHistory_ p4 ids _) as [w4 [n4|]] eqn:E4; [exists false|exists true]|exists false]);
  injection E as <- <- <-; cbn; rewrite ?E1, ?E2, ?E3, ?E4; cbn; by split_and!.
Qed.

Lemma purge_complete s docIDs w' : let ids := normalizeIDs docIDs in
  bool_decide (verifyPurge s ids w' = ∅) && (length (skipped s) =? 0)%nat = true <-> exists corpus vectors cortex history,
    su_Corpus s = Some corpus /\ su_Vectors s = Some vectors /\ su_Cortex s = Some cortex /\ su_History s = Some history /\
    (forall d, d ∈ docIDs -> trim_space d <> "" -> trim_space d ∉ DocumentIDs corpus (su_BrainID s) w') /\
    HasDocumentVectors vectors ids w' = [] /\ ResidualDocuments cortex ids w' = [] /\ ResidualHistory history ids w' = [].
Proof.
  intros ids. rewrite andb_true_iff, bool_decide_eq_true, verifyPurge_empty, skipped_none. unfold residual_of. split.
  - intros (Hr & (p1 & E1) & (p2 & E2) & (p3 & E3) & (p4 & E4)). exists p1, p2, p3, p4. rewrite E1, E2, E3, E4 in Hr.
    pose proof (Hr "corpus" ltac:(left)) as H1. pose proof (Hr "vectors" ltac:(set_solver)) as H2.
    pose proof (Hr "cortex" ltac:(set_solver)) as H3. pose proof (Hr "history" ltac:(set_solver)) as H4. split_and!; try done.
    intros d Hd Hne Hin. cbn in H1. assert (trim_space d ∈ List.filter (fun x => bool_decide (x ∈ ids)) (DocumentIDs p1 (su_BrainID s) w')) as Hf; [|rewrite H1 in Hf; by apply elem_of_nil in Hf].
    apply elem_of_filterb. split; [done|]. apply bool_decide_eq_true. unfold ids. rewrite elem_of_normalizeIDs. eauto.
  - intros (p1 & p2 & p3 & p4 & -> & -> & -> & -> & H1 & H2 & H3 & H4). split; [|by split_and!; eexists]. intros name Hn.
    destruct (String.eqb name "corpus"); [|by repeat destruct (String.eqb _ _)]. apply filter_none_in. intros d Hd. apply bool_decide_eq_false.
    unfold ids. rewrite elem_of_normalizeIDs. intros (Hne & d' & Hd' & <-). by apply (H1 d').
Qed.

(** C24. A purge is honest, port by port.  The wired ports delete in order, each
    on the world the one before it left, and the first that fails is the error
    returned; nothing asked for and nothing wired are errors.  The receipt says
    complete exactly when the purge succeeded, the corpus, the vector store, the
    cortex and the history are all wired, and in the final world the corpus
    lists no document asked for and none of the other three finds one; the leaks
    it names are what each wired port still finds there, the skipped ones the
    ports that are not wired.  All of it depends on the set of documents asked
    for only. *)
Theorem verified_purge_leaves_nothing s docIDs w :
  (let '(w', (receipt, err)) := Purge s docIDs w in purge_report s docIDs w w' receipt err) /\
  (forall docIDs', (forall x, x <> "" -> (exists d, d ∈ docIDs /\ trim_space d = x) <-> (exists d, d ∈ docIDs' /\ trim_space d = x)) -> Purge s docIDs' w = Purge s docIDs w).
Proof.
  split; [|intros docIDs' Hsame; unfold Purge; by rewrite (normalizeIDs_ext docIDs docIDs' Hsame)].
  destruct (Purge s docIDs w) as [w' [receipt err]] eqn:E. unfold Purge in E.
  destruct (length (normalizeIDs docIDs) =? 0)%nat eqn:En.
  { injection E as <- <- <-. apply Nat.eqb_eq, nil_length_inv in En. split; try done. split; [done|by intros [? _]]. }
  assert (normalizeIDs docIDs <> []) as Hids by (intros Hn; by rewrite Hn in En).
  destruct (delete_all s (normalizeIDs docIDs) w) as [[w1 purged] e] eqn:Ed. apply delete_all_ran in Ed as (v1 & v2 & v3 & f3 & f4 & H1 & H2 & H3 & H4).
  destruct e as [e|].
  { injection E as <- <- <-. split; try done; [|split; [done|by intros [? _]]]. intros _. split; [done|]. exists v1, v2, v3, f3, f4. split_and!; [done..|].
    destruct f3; [done|]. destruct f4; [done|by destruct H4]. }
  destruct f3; [by destruct H4|]. destruct H4 as [H4 Herr]. destruct f4; [done|]. rewrite skipped_all in E.
  set (none := match su_Corpus s, su_Vectors s, su_Cortex s, su_History s with None, None, None, None => true | _, _, _, _ => false end) in *.
  assert (err = match su_Corpus s, su_Vectors s, su_Cortex s, su_History s with None, None, None, None => Some ErrNoSubstrates | _, _, _, _ => None end) as Hnone.
  { revert E. unfold none. by destruct (su_Corpus s), (su_Vectors s), (su_Cortex s), (su_History s); intros [= _ _ <-]. }
  destruct none; injection E as <- <- <-.
  - split; try done; [|split; [done|by intros [? _]]]. intros _. split; [done|]. exists v1, v2, v3, false, false. by split_and!.
  - split; try done.
    + intros _. split; [done|]. exists v1, v2, v3, false, false. by split_and!.
    + cbn [rc_VerifiedComplete]. rewrite purge_complete. naive_solver.
    + intros _ p d Hp. cbn [rc_Leaks]. rewrite leaks_found by set_solver. unfold residual_of. cbn. rewrite Hp. unfold sort_strings.
      by rewrite elem_of_sort_by, elem_of_filterb, bool_decide_eq_true.
    + intros _ p Hp. cbn [rc_Leaks]. rewrite leaks_found by set_solver. unfold residual_of. cbn. by rewrite Hp.
    + intros _ p Hp. cbn [rc_Leaks]. rewrite leaks_found by set_solver. unfold residual_of. cbn. by rewrite Hp.
    + intros _ p Hp. cbn [rc_Leaks]. rewrite leaks_found by set_solver. unfold residual_of. cbn. by rewrite Hp.
    + intros _ name. apply elem_of_skipped.
Qed.
End purge.
