(* ===== verification/FactualConsistency.v ===== *)
(** * factualconsistency: scoring an answer against its citations

    Models [services/brain/internal/factualconsistency]: the bounded call of a
    scorer ([factualconsistency.go]) and the lexical scorer with its calibration
    ([lexical.go], [calibration.go]).  Times are in milliseconds. *)

From Stdlib Require Import Ascii String.
From S2P Require Import Prelude GoString Float64 Runtime Contracts.
From stdpp Require Import gmap strings.
Open Scope string_scope.
Open Scope Z_scope.

(** ** factualconsistency.go *)

Inductive ScoreStatus := StatusScored | StatusScoreAbstained | StatusUnknown.
Inductive ScoreReason := NoScoreReason | ReasonAnswerAbstained | ReasonScorerUnavailable | ReasonScorerFailed | ReasonInvalidResult | ReasonBudgetExceeded.

#[export] Instance ScoreStatus_eq_dec : EqDecision ScoreStatus.
Proof. solve_decision. Defined.
#[export] Instance ScoreReason_eq_dec : EqDecision ScoreReason.
Proof. solve_decision. Defined.

Record ScoreProvenance := MkScoreProvenance { sp_ScorerID : string; sp_ScorerVersion : string; sp_CalibrationID : string; sp_CalibrationDigest : string }.

Record ScoreResult := MkScoreResult {
  sc_Status : ScoreStatus; sc_ScorePerMille : Z; sc_Reason : ScoreReason; sc_Provenance : option ScoreProvenance; sc_EvaluatedClaimCount : Z; sc_TotalClaimCount : Z
}.

Record ScoreClaim := MkScoreClaim { cl_Statement : string; cl_Supports : list string }.

Record ScoreLimits := MkScoreLimits {
  sl_MaxClaims : Z; sl_MaxSupportsPerClaim : Z; sl_MaxStatementBytes : Z; sl_MaxSupportBytes : Z; sl_MaxTotalBytes : Z; sl_Timeout : Z
}.

Definition DefaultScoreLimits : ScoreLimits := MkScoreLimits 64 16 4096 4096 (64 * 1024) 50.

Definition Abstained : ScoreResult := MkScoreResult StatusScoreAbstained 0 ReasonAnswerAbstained None 0 0.

Definition Unknown (reason : ScoreReason) (total : Z) : ScoreResult :=
  let reason := match reason with NoScoreReason | ReasonAnswerAbstained => ReasonInvalidResult | r => r end in
  MkScoreResult StatusUnknown 0 reason None 0 (if (total <? 0) || (64 <? total) then 0 else total).

Definition in_limit (v top : Z) : bool := (0 <? v) && (v <=? top).

Definition validLimits (l : ScoreLimits) : bool :=
  let h := DefaultScoreLimits in
  in_limit (sl_MaxClaims l) (sl_MaxClaims h) && in_limit (sl_MaxSupportsPerClaim l) (sl_MaxSupportsPerClaim h)
  && in_limit (sl_MaxStatementBytes l) (sl_MaxStatementBytes h) && in_limit (sl_MaxSupportBytes l) (sl_MaxSupportBytes h)
  && in_limit (sl_MaxTotalBytes l) (sl_MaxTotalBytes h) && in_limit (sl_Timeout l) (sl_Timeout h).

Fixpoint count_supports (l : ScoreLimits) (total : Z) (supports : list string) : option Z :=
  match supports with
  | [] => Some total
  | s :: rest =>
      if (len s =? 0) || (sl_MaxSupportBytes l <? len s) || (sl_MaxTotalBytes l <? total + len s) then None
      else count_supports l (total + len s) rest
  end.

Fixpoint count_claims (l : ScoreLimits) (total : Z) (claims : list ScoreClaim) : bool :=
  match claims with
  | [] => true
  | c :: rest =>
      let supports := Z.of_nat (length (cl_Supports c)) in
      if (len (cl_Statement c) =? 0) || (sl_MaxStatementBytes l <? len (cl_Statement c)) || (supports =? 0) || (sl_MaxSupportsPerClaim l <? supports) then false
      else match count_supports l (total + len (cl_Statement c)) (cl_Supports c) with
      | None => false
      | Some total' => count_claims l total' rest
      end
  end.

Definition withinBudget (claims : list ScoreClaim) (l : ScoreLimits) : bool :=
  let n := Z.of_nat (length claims) in
  if (n =? 0) || (sl_MaxClaims l <? n) then false else count_claims l 0 claims.

Definition validProvenance (p : ScoreProvenance) : bool :=
  negb (String.eqb (sp_ScorerID p) "") && (len (sp_ScorerID p) <=? 128) && negb (String.eqb (sp_ScorerVersion p) "") && (len (sp_ScorerVersion p) <=? 64)
  && negb (String.eqb (sp_CalibrationID p) "") && (len (sp_CalibrationID p) <=? 128) && sha256_digest_ok (MkDigest "sha256" (sp_CalibrationDigest p)).

Definition validScoredResult (r : ScoreResult) (total : Z) : bool :=
  bool_decide (sc_Status r = StatusScored) && (sc_ScorePerMille r <=? 1000) && bool_decide (sc_Reason r = NoScoreReason)
  && match sc_Provenance r with Some p => (sc_EvaluatedClaimCount r =? total) && (sc_TotalClaimCount r =? total) && validProvenance p | None => false end.

(** How the call of a scorer goes: the caller's context before and after it,
    the deadline, and what the scorer answers ([None] for an error or a panic). *)
Record ScoreCall := MkScoreCall { sk_cancelled : bool; sk_cancelled_after : bool; sk_late : bool; sk_answer : list ScoreClaim -> option ScoreResult }.

(** [Err tt]: the error of the caller's context. *)
Definition Evaluate (call : ScoreCall) (has_scorer : bool) (claims : list ScoreClaim) (limits : ScoreLimits) : result unit ScoreResult :=
  let total := Z.of_nat (length claims) in
  if sk_cancelled call then Err tt
  else if negb (validLimits limits) || negb (withinBudget claims limits) then Ok (Unknown ReasonBudgetExceeded total)
  else if total =? 0 then Ok (Unknown ReasonInvalidResult 0)
  else if negb has_scorer then Ok (Unknown ReasonScorerUnavailable total)
  else
    let answer := sk_answer call claims in
    if sk_cancelled_after call then Err tt
    else match answer with
    | None => Ok (Unknown ReasonScorerFailed total)
    | Some r =>
        if sk_late call then Ok (Unknown ReasonScorerFailed total)
        else if negb (validScoredResult r total) then Ok (Unknown ReasonInvalidResult total)
        else Ok r
    end.

(** ** lexical.go *)

Record CalibrationBin := MkBin { MaxRawPerMille : Z; ScorePerMille : Z }.
Record LexicalCalibration := MkCalibration { ca_ID : string; ca_DatasetDigest : string; ca_DecisionPerMille : Z; ca_Digest : string; ca_Bins : list CalibrationBin }.

Section lexical.
Context `{GoRuntime} `{RuneTables}.

Definition by_raw : CalibrationBin -> CalibrationBin -> bool := on_key MaxRawPerMille Z.ltb.

Definition NUL_text : string := String "000" EmptyString.

Definition CalibrationArtifactDigest (id dataset : string) (decision : Z) (bins : list CalibrationBin) : string :=
  let head := "ouroboros.factual-consistency.lexical-calibration.v2" ++ NUL_text ++ id ++ NUL_text ++ dataset ++ NUL_text ++ dec decision in
  sha256_hex (fold_left (fun s b => s ++ NUL_text ++ dec (MaxRawPerMille b) ++ ":" ++ dec (ScorePerMille b)) (sort_by by_raw bins) head).

(** The loop over the bins; [prev] is the previous one. *)
Fixpoint bins_ok (prev : option CalibrationBin) (bins : list CalibrationBin) : bool :=
  match bins with
  | [] => true
  | b :: rest =>
      (MaxRawPerMille b <=? 1000) && (ScorePerMille b <=? 1000)
      && match prev with Some p => (MaxRawPerMille p <? MaxRawPerMille b) && (ScorePerMille p <=? ScorePerMille b) | None => true end
      && bins_ok (Some b) rest
  end.

(** [None]: the calibration is refused. *)
Definition NewLexicalScorer (c : LexicalCalibration) : option LexicalCalibration :=
  if String.eqb (ca_ID c) "" || (128 <? len (ca_ID c)) || negb (len (ca_DatasetDigest c) =? 64) || (1000 <? ca_DecisionPerMille c) then None
  else match last (ca_Bins c) with
  | None => None
  | Some top =>
      if negb (bins_ok None (ca_Bins c)) then None
      else if negb (MaxRawPerMille top =? 1000)
              || negb (String.eqb (ca_Digest c) (CalibrationArtifactDigest (ca_ID c) (ca_DatasetDigest c) (ca_DecisionPerMille c) (ca_Bins c))) then None
      else Some c
  end.

(** The distinct runs of letters and numbers of the lowered text. *)
Definition tokens (value : string) : gset string :=
  list_to_set (fields_by (fun p => negb (letter_or_number (p_rune p))) "" (pieces (to_lower value))).

Definition raw_claim (c : ScoreClaim) : Z :=
  let claimTokens := tokens (cl_Statement c) in
  let supportTokens := ⋃ (tokens <$> cl_Supports c) in
  if (0 <? Z.of_nat (size claimTokens)) then Z.of_nat (size (claimTokens ∩ supportTokens)) * 1000 / Z.of_nat (size claimTokens) else 0.

Definition RawPerMille (claims : list ScoreClaim) : Z :=
  if (length claims =? 0)%nat then 0 else sumZ raw_claim claims / Z.of_nat (length claims).

Definition bin_score (bins : list CalibrationBin) (raw : Z) : Z :=
  match List.find (fun b => raw <=? MaxRawPerMille b) bins with
  | Some b => ScorePerMille b
  | None => match last bins with Some b => ScorePerMille b | None => 0 end
  end.

Definition Score (c : LexicalCalibration) (claims : list ScoreClaim) : ScoreResult :=
  let count := Z.of_nat (length claims) in
  MkScoreResult StatusScored (bin_score (ca_Bins c) (RawPerMille claims)) NoScoreReason
    (Some (MkScoreProvenance "bounded_lexical_support" "v2" (ca_ID c) (ca_Digest c))) count count.

(** ** calibration.go *)

Definition DefaultCalibrationID : string := "fc-synthetic-nonofficial-v1".
Definition DefaultDatasetDigest : string := "cf31569fb15ac958c8ca931b114440fdc2d98b5f3989a9a835090730dd906e09".
Definition DefaultDecisionPerMille : Z := 778.
Definition defaultCalibrationBins : list CalibrationBin := [MkBin 399 143; MkBin 599 375; MkBin 799 778; MkBin 1000 857].

Definition DefaultCalibration : LexicalCalibration :=
  MkCalibration DefaultCalibrationID DefaultDatasetDigest DefaultDecisionPerMille
    (CalibrationArtifactDigest DefaultCalibrationID DefaultDatasetDigest DefaultDecisionPerMille defaultCalibrationBins) defaultCalibrationBins.

Definition NewDefaultScorer : option LexicalCalibration := NewLexicalScorer DefaultCalibration.
End lexical.

Definition MeetsDefaultThreshold (r : ScoreResult) : bool := bool_decide (sc_Status r = StatusScored) && (DefaultDecisionPerMille <=? sc_ScorePerMille r).
