(* ===== verification/QueryTypes.v ===== *)
(** * query: the vocabulary of the grounded-query engine

    Models [services/brain/internal/query/types.go], [ports.go], [freshness.go]
    and the records of [codeindex/types.go] and [ingestion/types.go] they use. *)

From Stdlib Require Import Ascii String.
From S2P Require Import Prelude GoString Float64 Runtime FactualConsistency.
From stdpp Require Import gmap strings.
Open Scope string_scope.
Open Scope Z_scope.

(** ** types.go *)

Inductive query_error := ErrInvalidInput (what : string) | ErrUnknownScope | ErrContext.

Inductive AnswerStatus := StatusAnswered | StatusPartial | StatusAbstained.

Inductive Reason :=
| ReasonAbsentSupport | ReasonStaleSupport | ReasonPartialCoverage | ReasonLaneDegraded | ReasonRetrievalUnavailable
| ReasonCitationVerificationFailed | ReasonSynthesisUnavailable.

Definition reasonOrder : list Reason :=
  [ReasonAbsentSupport; ReasonStaleSupport; ReasonPartialCoverage; ReasonLaneDegraded; ReasonRetrievalUnavailable;
   ReasonCitationVerificationFailed; ReasonSynthesisUnavailable].

#[export] Instance AnswerStatus_eq_dec : EqDecision AnswerStatus.
Proof. solve_decision. Defined.
#[export] Instance Reason_eq_dec : EqDecision Reason.
Proof. solve_decision. Defined.

Definition FreshnessBestEffort : string := "best_effort".
Definition FreshnessCompleteGeneration : string := "complete_generation".
Definition FreshnessAbstainIfStale : string := "abstain_if_stale".

Definition freshness_valid (f : string) : bool :=
  existsb (String.eqb f) [FreshnessBestEffort; FreshnessCompleteGeneration; FreshnessAbstainIfStale].

Inductive FreshnessState := FreshnessCurrent | FreshnessStaleDisclosed | FreshnessDegraded.
Inductive ProjectionState := ProjectionReady | ProjectionRebuilding | ProjectionAbsent.
Inductive GenerationState := GenerationReady | GenerationDegraded.

#[export] Instance ProjectionState_eq_dec : EqDecision ProjectionState.
Proof. solve_decision. Defined.
#[export] Instance GenerationState_eq_dec : EqDecision GenerationState.
Proof. solve_decision. Defined.

Record Principal := MkPrincipal { pn_Tenant : string; pn_Principal : string; pn_Session : string }.

Record Query := MkQuery {
  qu_QueryID : string; qu_Principal : Principal; qu_SourceID : string; qu_GenerationID : string; qu_Text : string; qu_Freshness : string; qu_IdempotencyKey : string
}.

Record SynthesisLimits := MkSynthesisLimits { MaxClaims : Z; MaxCitationsPerClaim : Z; MaxStatementBytes : Z; MaxProseBytes : Z }.

Record QueryLimits := MkQueryLimits {
  MaxQueryLength : Z; MaxIdentifierLength : Z; MaxCandidates : Z; MaxBlockLines : Z; MaxEvidenceEntries : Z; MaxEvidenceEntryBytes : Z; MaxEvidencePackBytes : Z;
  MaxReasons : Z; LimitsSynthesis : SynthesisLimits; LimitsFactualConsistency : ScoreLimits
}.

Definition DefaultQueryLimits : QueryLimits :=
  MkQueryLimits 8192 512 64 64 16 4096 (64 * 1024) 8 (MkSynthesisLimits 64 16 4096 16384) DefaultScoreLimits.

(** The bounded values of [Limits.validate], with their names and ceilings. *)
Definition limit_values (l : QueryLimits) : list (string * Z) :=
  let s := LimitsSynthesis l in
  let f := LimitsFactualConsistency l in
  [("query length", MaxQueryLength l); ("identifier length", MaxIdentifierLength l); ("candidates", MaxCandidates l); ("block lines", MaxBlockLines l);
   ("evidence entries", MaxEvidenceEntries l); ("evidence entry bytes", MaxEvidenceEntryBytes l); ("evidence pack bytes", MaxEvidencePackBytes l);
   ("reasons", MaxReasons l); ("claims", MaxClaims s); ("citations per claim", MaxCitationsPerClaim s); ("statement bytes", MaxStatementBytes s);
   ("prose bytes", MaxProseBytes s); ("factual consistency claims", sl_MaxClaims f); ("factual consistency supports", sl_MaxSupportsPerClaim f);
   ("factual consistency statement bytes", sl_MaxStatementBytes f); ("factual consistency support bytes", sl_MaxSupportBytes f);
   ("factual consistency total bytes", sl_MaxTotalBytes f)].

Fixpoint check_limits (got hard : list (string * Z)) : result query_error unit :=
  match got, hard with
  | (name, v) :: got', (_, top) :: hard' =>
      if (v <=? 0) || (top <? v) then Err (ErrInvalidInput (name ++ " limit")) else check_limits got' hard'
  | _, _ => Ok tt
  end.

Definition limits_validate (l : QueryLimits) : result query_error unit :=
  do _ <- check_limits (limit_values l) (limit_values DefaultQueryLimits) ;
  if MaxCandidates l <? MaxEvidenceEntries l then Err (ErrInvalidInput "candidates below evidence entries limit")
  else if (sl_Timeout (LimitsFactualConsistency l) <=? 0) || (sl_Timeout DefaultScoreLimits <? sl_Timeout (LimitsFactualConsistency l))
  then Err (ErrInvalidInput "factual consistency timeout")
  else Ok tt.

(** An identifier: not empty, within the limit. *)
Definition bad_id (limit : Z) (s : string) : bool := String.eqb s "" || (limit <? len s).

Definition query_validate (q : Query) (limits : QueryLimits) : result query_error unit :=
  let bad := bad_id (MaxIdentifierLength limits) in
  if bad (qu_QueryID q) || bad (qu_SourceID q) || bad (qu_GenerationID q) then Err (ErrInvalidInput "identity fields")
  else if bad (pn_Tenant (qu_Principal q)) || bad (pn_Principal (qu_Principal q)) || bad (pn_Session (qu_Principal q)) then Err (ErrInvalidInput "principal")
  else if (rune_count (qu_Text q) =? 0) || (MaxQueryLength limits <? rune_count (qu_Text q)) || blank (qu_Text q) then Err (ErrInvalidInput "query text")
  else if negb (freshness_valid (qu_Freshness q)) then Err (ErrInvalidInput "freshness")
  else if bad (qu_IdempotencyKey q) || negb (String.eqb (trim_space (qu_IdempotencyKey q)) (qu_IdempotencyKey q)) then Err (ErrInvalidInput "idempotency key")
  else if existsb (fun p => (p_rune p <? 32) || (p_rune p =? 127)) (pieces (qu_IdempotencyKey q)) then Err (ErrInvalidInput "idempotency key characters")
  else Ok tt.

Record Citation := MkCitation {
  ci_EvidenceID : string; ci_SourceRevisionID : string; ci_GitOID : string; ci_Path : string; ci_StartLine : Z; ci_StartColumn : Z; ci_EndLine : Z; ci_EndColumn : Z;
  ci_SupportingTextDigest : string
}.

Record AnswerClaim := MkAnswerClaim { ac_ClaimID : string; ac_Statement : string; ac_Citations : list Citation; ac_ConfidencePerMille : Z }.

Record QueryAnswer := MkQueryAnswer {
  an_QueryID : string; an_Status : AnswerStatus; an_Prose : string; an_Claims : list AnswerClaim; an_DegradedReasons : list Reason; an_TokenUsage : Z;
  an_FactualConsistency : ScoreResult
}.

Record Freshness := MkFreshness {
  fn_GenerationID : string; fn_Sequence : Z; fn_CommitOID : string; fn_TreeOID : string; fn_GenerationState : GenerationState; fn_State : FreshnessState;
  fn_ACLEpoch : Z; fn_ObservedAt : Z
}.

Record Coverage := MkCoverage { CanonicalRevisionCount : Z; IndexedRevisionCount : Z }.

Record QueryResult := MkQueryResult { qr_Answer : QueryAnswer; qr_Freshness : Freshness; qr_Coverage : Coverage; qr_Projection : ProjectionState }.

Record SourceStatus := MkSourceStatus { ss_SourceID : string; ss_Freshness : Freshness; ss_Coverage : Coverage; ss_Projection : ProjectionState }.

(** ** codeindex and ingestion: the records a snapshot holds *)

Definition KindDefinition : string := "definition".
Definition CoverageLexicalDegraded : string := "COVERAGE_STATE_LEXICAL_DEGRADED".

Record Occurrence := MkOccurrence { oc_Kind : string; oc_Text : string; oc_StartLine : Z }.
Record FileProjection := MkFileProjection { fp_Path : string; fp_Language : string; fp_ContentDigest : string; fp_Coverage : string; fp_Occurrences : list Occurrence }.
Definition no_file : FileProjection := MkFileProjection "" "" "" "" [].

Record FileRevision := MkFileRevision { re_Path : string; re_BlobOID : string; re_ContentDigest : string; re_RevisionID : string }.

(** ** ports.go *)

Record ProjectionView := MkProjectionView { pv_State : ProjectionState; pv_Index : option (list FileProjection); pv_Files : gmap string string }.

Record QuerySnapshot := MkSnapshot {
  sn_GenerationID : string; sn_Sequence : Z; sn_CommitOID : string; sn_TreeOID : string; sn_State : GenerationState; sn_Revisions : list FileRevision;
  sn_Projection : ProjectionView
}.

Record GenerationPin := MkPin { gp_SourceID : string; gp_GenerationID : string }.

Inductive Action := ActionQuery | ActionHydrate | ActionEmit.
Record PortDecision := MkPortDecision { pd_Allowed : bool; pd_Epoch : Z }.
Record EvidenceAdmissionRequest := MkAdmission { ea_SourceID : string; ea_GenerationID : string; ea_ACLEpoch : Z; ea_At : Z }.

(** The index of a projection that is ready. *)
Definition ready_index (s : QuerySnapshot) : option (list FileProjection) :=
  match pv_State (sn_Projection s) with ProjectionReady => pv_Index (sn_Projection s) | _ => None end.

(** ** freshness.go *)

Record FreshnessEvaluation := MkEvaluation { fe_State : FreshnessState; fe_Stale : bool; fe_AbstainStale : bool }.

Definition evaluateFreshness (requirement : string) (s : QuerySnapshot) (current : string) : FreshnessEvaluation :=
  if negb (String.eqb (sn_GenerationID s) current) then MkEvaluation FreshnessStaleDisclosed true (String.eqb requirement FreshnessAbstainIfStale)
  else if bool_decide (sn_State s = GenerationDegraded) then MkEvaluation FreshnessDegraded false false
  else MkEvaluation FreshnessCurrent false false.

Definition computeCoverage (s : QuerySnapshot) : Coverage :=
  let canonical := Z.of_nat (length (sn_Revisions s)) in
  match ready_index s with
  | None => MkCoverage canonical 0
  | Some files =>
      MkCoverage canonical (Z.of_nat (length (List.filter (fun r => existsb (fun f => String.eqb (fp_Path f) (re_Path r)) files) (sn_Revisions s))))
  end.
