(* ===== verification/QueryRetrieval.v ===== *)
(** * query: from a question to candidate files

    Models [services/brain/internal/query/retrieval.go], [multi_query.go],
    [rrf.go], [graph_hop.go], [hybrid_expand.go] and [lexical_rerank.go] with
    [rerank/lexical.go].  A Go map from paths is a function of the path, the last
    entry of a path winning. *)

From Stdlib Require Import Ascii String.
From S2P Require Import Prelude GoString Float64 Runtime FactualConsistency QueryTypes.
From stdpp Require Import gmap strings.
Open Scope string_scope.
Open Scope Z_scope.

(** ** Tokens *)

Definition tokenCutset : list ascii :=
  ["034"; "'"; "`"; "("; ")"; "["; "]"; "{"; "}"; "<"; ">"; "."; ","; ";"; ":"; "!"; "?"]%char.

Fixpoint trim_left (cut : list ascii) (s : string) : string :=
  match s with
  | EmptyString => EmptyString
  | String c s' => if bool_decide (c ∈ cut) then trim_left cut s' else s
  end.

(** [strings.Trim] for a set of ASCII characters. *)
Fixpoint trim_right (cut : list ascii) (s : string) : string :=
  match s with
  | EmptyString => EmptyString
  | String c s' =>
      let r := trim_right cut s' in
      if String.eqb r "" && bool_decide (c ∈ cut) then "" else String c r
  end.
Definition trim_set (cut : list ascii) (s : string) : string := trim_right cut (trim_left cut s).

Definition tokenizeQuery (text : string) : list string :=
  dedup_key id [] (List.filter (fun t => negb (String.eqb t "")) (trim_set tokenCutset <$> fields text)).

(** ** rrf.go *)

Definition defaultRRFK : Z := 60.

Record Scored := MkScored { sd_id : string; sd_score : f64; sd_seen : Z }.

Fixpoint bump (id : string) (v : f64) (seen : Z) (items : list Scored) : list Scored :=
  match items with
  | [] => [MkScored id (f_add f_zero v) seen]
  | x :: rest => if String.eqb (sd_id x) id then MkScored id (f_add (sd_score x) v) (sd_seen x) :: rest else x :: bump id v (seen + 1) rest
  end.

Fixpoint rrf_list (k rank : Z) (list_ : list string) (items : list Scored) : list Scored :=
  match list_ with
  | [] => items
  | id :: rest => rrf_list k (rank + 1) rest (if String.eqb id "" then items else bump id (f_div f_one (f_of_Z (k + rank + 1))) 0 items)
  end.

Definition rrf_scores (k : Z) (lists : list (list string)) : list Scored := fold_left (fun items l => rrf_list k 0 l items) lists [].

(** Higher scores first, then first seen; no two items were first seen at the same time. *)
Definition scored_before (a b : Scored) : bool :=
  if negb (f_eqb (sd_score a) (sd_score b)) then f_ltb (sd_score b) (sd_score a) else sd_seen a <? sd_seen b.

Definition rrfFuse (lists : list (list string)) (k topN : Z) : list string :=
  let items := sort_by scored_before (rrf_scores (if k <=? 0 then defaultRRFK else k) lists) in
  let n := Z.of_nat (length items) in
  sd_id <$> take (Z.to_nat (if (topN <=? 0) || (n <? topN) then n else topN)) items.

(** ** multi_query.go *)

Definition multiQueryMaxVariants : Z := 4.
Definition contentWordMinLen : Z := 4.

Definition multiQueryStop : list string :=
  ["what"; "when"; "where"; "which"; "who"; "whom"; "whose"; "why"; "how"; "does"; "did"; "the"; "and"; "for"; "from"; "with"; "into"; "about"; "that"; "this";
   "these"; "those"; "are"; "was"; "were"; "been"; "have"; "has"; "had"; "will"; "would"; "should"; "could"; "can"; "may"; "might"; "must"; "not"; "new"; "recent";
   "current"; "default"; "exact"; "specific"; "using"; "during"; "after"; "before"; "between"; "through"; "their"; "there"; "they"; "them"].
Definition stop_word (s : string) : bool := existsb (String.eqb s) multiQueryStop.

(** [\w], and [\b] between two characters. *)
Definition upper (c : ascii) : bool := in_range 65 90 c.
Definition ascii_letter (c : ascii) : bool := upper c || in_range 97 122 c.
Definition ascii_digit (c : ascii) : bool := in_range 48 57 c.
Definition word_char (c : ascii) : bool := ascii_letter c || ascii_digit c || Ascii.eqb c "_".
Definition word_at (c : option ascii) : bool := match c with Some c => word_char c | None => false end.
Definition boundary (prev next : option ascii) : bool := negb (Bool.eqb (word_at prev) (word_at next)).

(** The longest prefix of characters of a class. *)
Fixpoint run (f : ascii -> bool) (s : string) : nat :=
  match s with String c s' => if f c then S (run f s') else O | EmptyString => O end.

(** A pattern at the current place: the length it matches there, given the character before. *)
Definition matcher : Type := option ascii -> string -> option nat.

(** [\b([A-Z][A-Z0-9]+-\d+)\b] *)
Definition identTicket : matcher := fun prev s =>
  match s with
  | String c rest =>
      let n := run (fun c => upper c || ascii_digit c) rest in
      let tail := str_drop n rest in
      let d := run ascii_digit (str_drop 1 tail) in
      if boundary prev (Some c) && upper c && (1 <=? n)%nat && bool_decide (String.get 0 tail = Some "-"%char) && (1 <=? d)%nat
         && negb (word_at (String.get d (str_drop 1 tail))) then Some (1 + n + 1 + d)%nat else None
  | EmptyString => None
  end.

(** The longest of the first [n] ends of [s], not the empty one, that is a word boundary. *)
Fixpoint last_boundary (n : nat) (s : string) : option nat :=
  match n with
  | O => None
  | S n' => if boundary (String.get n' s) (String.get n s) then Some n else last_boundary n' s
  end.

(** [\b([A-Za-z][\w]*\.[A-Za-z][\w\.]{1,60})\b] *)
Definition identDotted : matcher := fun prev s =>
  match s with
  | String c rest =>
      let n := run word_char rest in
      let tail := str_drop n rest in
      let body := str_drop 2 tail in
      let head_ok := match String.get 1 tail with Some l => ascii_letter l | None => false end in
      if boundary prev (Some c) && ascii_letter c && bool_decide (String.get 0 tail = Some "."%char) && head_ok
      then match last_boundary (Nat.min 60 (run (fun c => word_char c || Ascii.eqb c ".") body)) body with Some e => Some (1 + n + 2 + e)%nat | None => None end
      else None
  | EmptyString => None
  end.

(** Two capitals or more, then capitals, digits and underscores, between word boundaries. *)
Definition identAllCaps : matcher := fun prev s =>
  let n := run (fun c => upper c || ascii_digit c || Ascii.eqb c "_") s in
  if boundary prev (String.get 0 s) && (2 <=? run upper s)%nat && negb (word_at (String.get n s)) then Some n else None.

(** [FindAllStringSubmatchIndex]: the matches from the left, none overlapping; [skip] characters belong to the last one. *)
Fixpoint find_all (m : matcher) (skip : nat) (prev : option ascii) (pos : nat) (s : string) : list (string * nat) :=
  match s with
  | EmptyString => []
  | String c s' =>
      match skip with
      | S k => find_all m k (Some c) (S pos) s'
      | O => match m prev s with
             | Some n => (str_take n s, pos) :: find_all m (n - 1) (Some c) (S pos) s'
             | None => find_all m O (Some c) (S pos) s'
             end
      end
  end.

(** The exchange sort of [extractQueryIdentifiers]: longest first, then by position. *)
Definition hit_before (a b : string * nat) : bool := (len (fst b) <? len (fst a)) || ((len (fst a) =? len (fst b)) && (snd a <? snd b)%nat).

Fixpoint exchange_pass (x : string * nat) (l : list (string * nat)) : (string * nat) * list (string * nat) :=
  match l with
  | [] => (x, [])
  | y :: rest =>
      if hit_before y x then let '(top, rest') := exchange_pass y rest in (top, x :: rest')
      else let '(top, rest') := exchange_pass x rest in (top, y :: rest')
  end.

Fixpoint exchange_sort (fuel : nat) (l : list (string * nat)) : list (string * nat) :=
  match fuel, l with
  | S fuel', x :: rest => let '(top, rest') := exchange_pass x rest in top :: exchange_sort fuel' rest'
  | _, _ => l
  end.

(** [unicode.IsLetter]. *)
Class LetterTable := { is_letter : Z -> bool }.

Section multi_query.
Context `{GoRuntime} `{LetterTable}.

Definition isAlphaToken (token : string) : bool := forallb (fun p => is_letter (p_rune p)) (pieces token) && negb (String.eqb token "").

Definition content_word (token : string) : bool := isAlphaToken token && (contentWordMinLen <=? len token) && negb (stop_word (to_lower token)).

Definition contentWordShortForm (question : string) : string :=
  GoString.join " " (take 10 (List.filter (fun t => negb (String.eqb t "") && content_word t) (trim_set tokenCutset <$> fields question))).

Fixpoint add_matches (seen : list string) (hits : list (string * nat)) : list (string * nat) :=
  match hits with
  | [] => []
  | (raw, pos) :: rest =>
      let raw := trim_space raw in
      let key := to_lower raw in
      if (len raw <? 2) || bool_decide (key ∈ seen) || stop_word key then add_matches seen rest
      else (raw, pos) :: add_matches (key :: seen) rest
  end.

Definition extractQueryIdentifiers (question : string) : list string :=
  let hits := add_matches [] (concat ((fun m => find_all m 0 None 0 question) <$> [identTicket; identDotted; identAllCaps])) in
  take 6 (fst <$> exchange_sort (length hits) hits).

Definition add_variant (v : string) (acc : list string * list string) : list string * list string :=
  let '(variants, seen) := acc in
  let v := trim_space v in
  if String.eqb v "" || bool_decide (to_lower v ∈ seen) || (multiQueryMaxVariants <=? Z.of_nat (length variants)) then acc
  else ((variants ++ [v])%list, to_lower v :: seen).

Definition multiQueryVariants (question : string) : list string :=
  let question := trim_space question in
  if String.eqb question "" then []
  else
    let short := contentWordShortForm question in
    let ids := extractQueryIdentifiers question in
    let acc := ([question], [to_lower question]) in
    let acc := if String.eqb short "" then acc else add_variant short acc in
    let acc := if (length ids =? 0)%nat then acc else add_variant (GoString.join " " ids) acc in
    fst acc.

(** ** retrieval.go *)

Record candidate := MkCandidate { cd_path : string; cd_definitions : list string; cd_degraded : bool }.

(** A map from paths built in listing order. *)
Definition file_at (files : list FileProjection) (path : string) : option FileProjection :=
  List.find (fun f => String.eqb (fp_Path f) path) (rev files).

Definition is_definition (o : Occurrence) : bool := String.eqb (oc_Kind o) KindDefinition.
Definition named_by (terms : list string) (o : Occurrence) : bool := is_definition o && existsb (String.eqb (to_lower (oc_Text o))) (to_lower <$> terms).
Definition matchesDefinition (f : FileProjection) (terms : list string) : bool := existsb (named_by terms) (fp_Occurrences f).
Definition definitionTexts (f : FileProjection) : list string := oc_Text <$> List.filter is_definition (fp_Occurrences f).
Definition degraded_file (f : FileProjection) : bool := String.eqb (fp_Coverage f) CoverageLexicalDegraded.

Definition mentionedPaths (files : list FileProjection) (terms : list string) : list string :=
  sort_strings (List.filter (fun t => bool_decide (is_Some (file_at files t))) terms).

Definition as_candidate (f : FileProjection) : candidate := MkCandidate (fp_Path f) (definitionTexts f) (degraded_file f).

Definition selectCandidates (s : QuerySnapshot) (terms : list string) (maxCandidates : Z) : list candidate :=
  match ready_index s with
  | None => []
  | Some files =>
      let mentioned := mentionedPaths files terms in
      let selected :=
        if negb (length mentioned =? 0)%nat then (fun p => default no_file (file_at files p)) <$> mentioned
        else List.filter (fun f => negb (degraded_file f) && matchesDefinition f terms) files in
      as_candidate <$> take (Z.to_nat maxCandidates) selected
  end.

Definition hasPathMention (s : QuerySnapshot) (terms : list string) : bool :=
  match pv_Index (sn_Projection s) with None => false | Some files => negb (length (mentionedPaths files terms) =? 0)%nat end.

(** The candidate lists of the variants that have any. *)
Definition variant_lists (s : QuerySnapshot) (variants : list string) (maxCandidates : Z) : list (list candidate) :=
  List.filter (fun l => negb (length l =? 0)%nat) ((fun v => selectCandidates s (tokenizeQuery v) maxCandidates) <$> variants).

Definition first_candidate (path : string) (cs : list candidate) : option candidate := List.find (fun c => String.eqb (cd_path c) path) cs.

Definition selectCandidatesMulti (s : QuerySnapshot) (question : string) (maxCandidates : Z) : list candidate :=
  match ready_index s, multiQueryVariants question with
  | None, _ | _, [] => []
  | Some _, original :: _ =>
      let origTerms := tokenizeQuery original in
      if hasPathMention s origTerms then selectCandidates s origTerms maxCandidates
      else
        let lists := variant_lists s (multiQueryVariants question) maxCandidates in
        if (length lists =? 0)%nat then []
        else omap (M := list) (fun p => first_candidate p (concat lists)) (rrfFuse (List.map (List.map cd_path) lists) defaultRRFK maxCandidates)
  end.

Definition unindexedMentions (s : QuerySnapshot) (terms : list string) : list string :=
  let indexed path := match ready_index s with Some files => bool_decide (is_Some (file_at files path)) | None => false end in
  sort_strings (List.filter (fun p => negb (indexed p) && existsb (String.eqb p) terms) (re_Path <$> sn_Revisions s)).

Definition selectDefinition (f : FileProjection) (terms : list string) : option Occurrence :=
  match List.find (named_by terms) (fp_Occurrences f) with
  | Some o => Some o
  | None => List.find is_definition (fp_Occurrences f)
  end.

(** The loop of [blockLines] from the definition's line on. *)
Fixpoint block_from (first : bool) (room : nat) (lines : list string) : list string :=
  match room, lines with
  | S room', l :: rest => if negb first && blank l then [] else l :: block_from false room' rest
  | _, _ => []
  end.

Definition blockLines (content : string) (definitionLine maxBlockLines : Z) : list string :=
  let lines := split_char "010" content in
  if (definitionLine =? 0) || (Z.of_nat (length lines) <? definitionLine) then []
  else block_from true (Z.to_nat maxBlockLines) (drop (Z.to_nat definitionLine - 1) lines).

(** ** graph_hop.go *)

Fixpoint graph_extras (room : nat) (have : list string) (paths : list string) : list candidate :=
  match room, paths with
  | O, _ | _, [] => []
  | S room', p :: rest =>
      if String.eqb p "" || existsb (String.eqb p) have then graph_extras room have rest
      else MkCandidate p [] false :: graph_extras room' (p :: have) rest
  end.

Definition expandWithGraph (cs : list candidate) (paths : list string) (maxExtra : Z) : list candidate :=
  if maxExtra <=? 0 then cs else (cs ++ graph_extras (Z.to_nat maxExtra) (cd_path <$> cs) paths)%list.

(** ** hybrid_expand.go *)

Definition candidatePaths (cs : list candidate) : list string := List.filter (fun p => negb (String.eqb p "")) (cd_path <$> cs).

Definition rebuildCandidatesFromPaths (existing : list candidate) (paths : list string) : list candidate :=
  (fun p => default (MkCandidate p [] false) (first_candidate p existing))
    <$> dedup_key id [] (List.filter (fun p => negb (String.eqb p "")) paths).

Definition snapshotBodies (s : QuerySnapshot) : gmap string string := delete "" (pv_Files (sn_Projection s)).

Definition capCandidates (cs : list candidate) (max : Z) : list candidate :=
  if (max <=? 0) || (Z.of_nat (length cs) <=? max) then cs else take (Z.to_nat max) cs.

(** ** lexical_rerank.go and rerank/lexical.go *)

Section rerank.
Context `{RuneTables}.

Definition overlapScore (q d : gset string) : f64 :=
  if (size q =? 0)%nat then f_zero else f_div (f_of_Z (Z.of_nat (size (q ∩ d)))) (f_of_Z (Z.of_nat (size q))).

Record Ranked := MkRanked { rk_Index : Z; rk_Score : f64 }.

Definition ranked_before (a b : Ranked) : bool :=
  if negb (f_eqb (rk_Score a) (rk_Score b)) then f_ltb (rk_Score b) (rk_Score a) else rk_Index a <? rk_Index b.

Definition Rerank (query : string) (docs : list string) (topN : Z) : list Ranked :=
  let q := tokens query in
  if (size q =? 0)%nat || (length docs =? 0)%nat then []
  else
    let ranked := sort_by ranked_before (imap (fun i d => MkRanked (Z.of_nat i) (overlapScore q (tokens d))) docs) in
    let n := Z.of_nat (length ranked) in
    take (Z.to_nat (if (topN <=? 0) || (n <? topN) then n else topN)) ranked.

Definition LexicalCandidateRerank (query : string) (paths : list string) (bodies : gmap string string) (topN : Z) : list string :=
  let ranked := Rerank query ((fun p => default "" (bodies !! p)) <$> paths) topN in
  dedup_key id [] (List.filter (fun p => negb (String.eqb p "")) (omap (M := list) (fun r => if rk_Index r <? 0 then None else paths !! Z.to_nat (rk_Index r)) ranked)).
End rerank.
End multi_query.
