(* ===== verification/QueryEvidence.v ===== *)
(** * query: hydrating, packing, synthesising and verifying evidence

    Models [services/brain/internal/query/hydrate.go], [pack.go],
    [synthesis.go], [synthesis_deterministic.go], [synthesis_provider.go] and
    [compose.go].  SHA-1 is a parameter; line and column numbers are 32-bit. *)

From Stdlib Require Import Ascii String.
From S2P Require Import Prelude GoString Float64 Runtime FactualConsistency QueryTypes QueryRetrieval.
From stdpp Require Import gmap strings.
Open Scope string_scope.
Open Scope Z_scope.

Definition wrapU32 (z : Z) : Z := z mod 2 ^ 32.

(** [hex.EncodeToString] of [sha1.Sum]. *)
Class GitHash := { sha1_hex : string -> string }.

(** ** synthesis.go *)

Record EvidenceEntry := MkEntry {
  ev_Path : string; ev_Language : string; ev_RevisionID : string; ev_BlobOID : string; ev_ContentDigest : string; ev_BlockStartLine : Z; ev_Lines : list string;
  ev_DefinitionText : string
}.

Record ProposedCitation := MkProposed { pc_EvidenceIndex : Z; pc_StartLine : Z; pc_StartColumn : Z; pc_EndLine : Z; pc_EndColumn : Z }.
Record ProposedClaim := MkProposedClaim { po_Statement : string; po_Citations : list ProposedCitation; po_ConfidencePerMille : Z }.
Record Synthesis := MkSynthesis { sy_Prose : string; sy_Claims : list ProposedClaim; sy_TokenUsage : Z }.
Record SynthesisRequest := MkSynthesisRequest { sq_Query : string; sq_Evidence : list EvidenceEntry; sq_Limits : SynthesisLimits }.

(** ** pack.go *)

Definition PackOrderRetrieval : string := "retrieval".
Definition PackOrderOriginal : string := "original".
Definition PackOrderTailFirst : string := "tail_first".
Definition PackOrderHeadTail : string := "head_tail".

Record PackPolicy := MkPackPolicy { pp_Order : string; pp_TargetEntries : Z; pp_TargetBytes : Z }.

Definition policy_validate (p : PackPolicy) (limits : QueryLimits) : result query_error unit :=
  if negb (existsb (String.eqb (pp_Order p)) [""; PackOrderRetrieval; PackOrderOriginal; PackOrderHeadTail; PackOrderTailFirst]) then Err (ErrInvalidInput "unknown pack order")
  else if (pp_TargetEntries p <? 0) || (MaxEvidenceEntries limits <? pp_TargetEntries p) then Err (ErrInvalidInput "pack target entries out of bounds")
  else if (pp_TargetBytes p <? 0) || (MaxEvidencePackBytes limits <? pp_TargetBytes p) then Err (ErrInvalidInput "pack target bytes out of bounds")
  else Ok tt.

Definition narrow (target ceiling : Z) : Z := if (0 <? target) && (target <? ceiling) then target else ceiling.

Definition policy_bounds (p : PackPolicy) (limits : QueryLimits) : Z * Z :=
  (narrow (pp_TargetEntries p) (MaxEvidenceEntries limits), narrow (pp_TargetBytes p) (MaxEvidencePackBytes limits)).

Definition entryBytes (e : EvidenceEntry) : Z := sumZ (fun l => len l + 1) (ev_Lines e).

Definition document_before (a b : nat * EvidenceEntry) : bool :=
  if negb (String.eqb (ev_Path (snd a)) (ev_Path (snd b))) then String.ltb (ev_Path (snd a)) (ev_Path (snd b)) else ev_BlockStartLine (snd a) <? ev_BlockStartLine (snd b).

(** The loop that fills the pack from both ends: [lo] and [hi] are the two filled parts. *)
Fixpoint head_tail {A} (rank : nat) (lo hi : list A) (l : list A) : list A :=
  match l with
  | [] => (lo ++ hi)%list
  | x :: rest => if Nat.even rank then head_tail (S rank) (lo ++ [x])%list hi rest else head_tail (S rank) lo (x :: hi) rest
  end.

(** The indices of the entries in packing order, with the entries. *)
Definition orderEvidence (entries : list EvidenceEntry) (order : string) : list (nat * EvidenceEntry) :=
  let indexed := imap pair entries in
  if String.eqb order PackOrderOriginal then sort_by document_before indexed
  else if String.eqb order PackOrderTailFirst then rev indexed
  else if String.eqb order PackOrderHeadTail then head_tail 0 [] [] indexed
  else indexed.

(** The packing loop: the chosen entries, in order. *)
Fixpoint pack_from (entryCap byteCap entryLimit : Z) (count total : Z) (l : list (nat * EvidenceEntry)) : list (nat * EvidenceEntry) :=
  match l with
  | [] => []
  | x :: rest =>
      let size := entryBytes (snd x) in
      if (entryCap <=? count) || (entryLimit <? size) || (byteCap <? total + size) then pack_from entryCap byteCap entryLimit count total rest
      else x :: pack_from entryCap byteCap entryLimit (count + 1) (total + size) rest
  end.

Definition packEvidenceWithPolicy (entries : list EvidenceEntry) (policy : PackPolicy) (limits : QueryLimits) : list EvidenceEntry * list EvidenceEntry :=
  let '(entryCap, byteCap) := policy_bounds policy limits in
  let chosen := pack_from entryCap byteCap (MaxEvidenceEntryBytes limits) 0 0 (orderEvidence entries (pp_Order policy)) in
  (snd <$> chosen, snd <$> List.filter (fun x => negb (existsb (fun y => Nat.eqb (fst y) (fst x)) chosen)) (imap pair entries)).

Definition packEvidence (entries : list EvidenceEntry) (limits : QueryLimits) : list EvidenceEntry * list EvidenceEntry :=
  packEvidenceWithPolicy entries (MkPackPolicy "" 0 0) limits.

Section evidence.
Context `{GoRuntime} `{GitHash}.

(** ** hydrate.go *)

Definition gitBlobOID (content : string) : string := sha1_hex ("blob " ++ dec (len content) ++ NUL_text ++ content).

(** [None]: the bytes, the manifest and the projection disagree. *)
Definition hydrateEntry (s : QuerySnapshot) (f : FileProjection) (o : Occurrence) (maxBlockLines : Z) : option EvidenceEntry :=
  match List.find (fun r => String.eqb (re_Path r) (fp_Path f)) (sn_Revisions s), pv_Files (sn_Projection s) !! fp_Path f with
  | Some revision, Some content =>
      let contentDigest := sha256_hex content in
      if negb (String.eqb contentDigest (re_ContentDigest revision)) then None
      else if negb (String.eqb (gitBlobOID content) (re_BlobOID revision)) then None
      else if negb (String.eqb (fp_ContentDigest f) ("sha256:" ++ contentDigest)) then None
      else match blockLines content (oc_StartLine o) maxBlockLines with
      | [] => None
      | block => Some (MkEntry (fp_Path f) (fp_Language f) (re_RevisionID revision) (re_BlobOID revision) contentDigest (oc_StartLine o) block (oc_Text o))
      end
  | _, _ => None
  end.

(** [s[a-1 : b-1]] and [s[a-1:]] for one-based columns. *)
Definition columns (s : string) (a b : Z) : string := str_take (Z.to_nat (b - a)) (str_drop (Z.to_nat (a - 1)) s).
Definition columns_from (s : string) (a : Z) : string := str_drop (Z.to_nat (a - 1)) s.

Definition line_of (e : EvidenceEntry) (n : Z) : string := default "" (ev_Lines e !! Z.to_nat (wrapU32 (n - ev_BlockStartLine e))).

(** The lines strictly between the first and the last of a range. *)
Fixpoint middle_lines (e : EvidenceEntry) (n : Z) (count : nat) : string :=
  match count with
  | O => ""
  | S count' => String "010" (line_of e n) ++ middle_lines e (n + 1) count'
  end.

Definition resolveSupportingText (e : EvidenceEntry) (p : ProposedCitation) : option (string * string) :=
  if (pc_StartLine p =? 0) || (pc_StartColumn p =? 0) || (pc_EndLine p =? 0) || (pc_EndColumn p =? 0) || (pc_EndLine p <? pc_StartLine p)
     || ((pc_StartLine p =? pc_EndLine p) && (pc_EndColumn p <=? pc_StartColumn p)) then None
  else
    let blockEnd := wrapU64 (ev_BlockStartLine e + Z.of_nat (length (ev_Lines e)) - 1) in
    if (length (ev_Lines e) =? 0)%nat || (pc_StartLine p <? ev_BlockStartLine e) || (blockEnd <? pc_EndLine p) then None
    else
      let first := line_of e (pc_StartLine p) in
      let last := line_of e (pc_EndLine p) in
      if (len first + 1 <? pc_StartColumn p) || (len last + 1 <? pc_EndColumn p) then None
      else
        let selected :=
          if pc_StartLine p =? pc_EndLine p then columns first (pc_StartColumn p) (pc_EndColumn p)
          else columns_from first (pc_StartColumn p) ++ middle_lines e (pc_StartLine p + 1) (Z.to_nat (pc_EndLine p - pc_StartLine p - 1))
               ++ String "010" (columns last 1 (pc_EndColumn p)) in
        Some (selected, sha256_hex selected).

Definition evidenceID (e : EvidenceEntry) (p : ProposedCitation) : string :=
  sha256_hex ("ouroboros.stage04.evidence.v1" ++ NUL_text ++ ev_RevisionID e ++ NUL_text ++ ev_Path e ++ NUL_text ++ dec (pc_StartLine p) ++ NUL_text
    ++ dec (pc_StartColumn p) ++ NUL_text ++ dec (pc_EndLine p) ++ NUL_text ++ dec (pc_EndColumn p)).

(** ** compose.go *)

Definition verifyCitation (p : ProposedCitation) (entries : list EvidenceEntry) (s : QuerySnapshot) : option (Citation * string) :=
  if pc_EvidenceIndex p <? 0 then None
  else match entries !! Z.to_nat (pc_EvidenceIndex p) with
  | None => None
  | Some e =>
      match resolveSupportingText e p with
      | None => None
      | Some (support, digest) =>
          Some (MkCitation (evidenceID e p) (ev_RevisionID e) (sn_CommitOID s) (ev_Path e) (pc_StartLine p) (pc_StartColumn p) (pc_EndLine p) (pc_EndColumn p) digest, support)
      end
  end.

(** The citations of one claim, or [None] when one of them fails. *)
Fixpoint verify_citations (ps : list ProposedCitation) (entries : list EvidenceEntry) (s : QuerySnapshot) : option (list (Citation * string)) :=
  match ps with
  | [] => Some []
  | p :: rest => match verifyCitation p entries s with None => None | Some c => (fun l => c :: l) <$> verify_citations rest entries s end
  end.

Definition claim_malformed (limits : SynthesisLimits) (c : ProposedClaim) : bool :=
  String.eqb (po_Statement c) "" || (MaxStatementBytes limits <? len (po_Statement c)) || (length (po_Citations c) =? 0)%nat
  || (MaxCitationsPerClaim limits <? Z.of_nat (length (po_Citations c))) || (1000 <? po_ConfidencePerMille c).

(** The loop over the claims: the verified ones with their supports, and whether one was removed; [None] for a structural fault. *)
Fixpoint verify_claims (cs : list ProposedClaim) (entries : list EvidenceEntry) (s : QuerySnapshot) (limits : SynthesisLimits)
  : option (list (ProposedClaim * list (Citation * string)) * bool) :=
  match cs with
  | [] => Some ([], false)
  | c :: rest =>
      if claim_malformed limits c then None
      else match verify_claims rest entries s limits with
      | None => None
      | Some (good, fault) =>
          match verify_citations (po_Citations c) entries s with
          | None => Some (good, true)
          | Some cited => Some ((c, cited) :: good, fault)
          end
      end
  end.

(** [%04d] *)
Definition pad4 (n : Z) : string := let d := dec n in str_take (4 - String.length d) "0000" ++ d.

Record synthesisVerdict := MkVerdict { ve_claims : list AnswerClaim; ve_citationFault : bool; ve_structureFault : bool; ve_scoreClaims : list ScoreClaim }.

Definition as_claim (i : nat) (x : ProposedClaim * list (Citation * string)) : AnswerClaim :=
  MkAnswerClaim ("claim-" ++ pad4 (Z.of_nat i + 1)) (po_Statement (fst x)) (fst <$> snd x) (po_ConfidencePerMille (fst x)).

Definition verifySynthesis (y : Synthesis) (entries : list EvidenceEntry) (s : QuerySnapshot) (limits : SynthesisLimits) : synthesisVerdict :=
  if (length (sy_Claims y) =? 0)%nat then MkVerdict [] false false []
  else if String.eqb (sy_Prose y) "" || (MaxProseBytes limits <? len (sy_Prose y)) || (MaxClaims limits <? Z.of_nat (length (sy_Claims y)))
  then MkVerdict [] false true []
  else match verify_claims (sy_Claims y) entries s limits with
  | None => MkVerdict [] false true []
  | Some (good, fault) => MkVerdict (imap as_claim good) fault false ((fun x => MkScoreClaim (po_Statement (fst x)) (snd <$> snd x)) <$> good)
  end.

(** [None]: the prose is over its bound. *)
Definition regenerateProse (claims : list AnswerClaim) (maxProseBytes : Z) : option string :=
  let prose := GoString.join " " (ac_Statement <$> claims) in
  if maxProseBytes <? len prose then None else Some prose.

Definition canonicalReasons (reasons : list Reason) (maxReasons : Z) : list Reason :=
  take (Z.to_nat maxReasons) (List.filter (fun r => bool_decide (r ∈ reasons)) reasonOrder).

Definition composeAnswer (queryID : string) (claims : list AnswerClaim) (prose : string) (tokenUsage : Z) (reasons : list Reason) (consistency : ScoreResult) (maxReasons : Z)
  : QueryAnswer :=
  let reasons := canonicalReasons reasons maxReasons in
  if (length claims =? 0)%nat then MkQueryAnswer queryID StatusAbstained "" [] reasons tokenUsage consistency
  else MkQueryAnswer queryID (if (length reasons =? 0)%nat then StatusAnswered else StatusPartial) prose claims reasons tokenUsage consistency.

(** ** synthesis_deterministic.go *)

Definition DeterministicConfidencePerMille : Z := 900.

Fixpoint index_of (sub s : string) : option nat :=
  if String.prefix sub s then Some O
  else match s with EmptyString => None | String _ s' => S <$> index_of sub s' end.

Definition isIdentifierByte (c : ascii) : bool := word_char c.

(** The search for a standalone keyword from an offset on; every round moves past an occurrence. *)
Fixpoint keyword_from (fuel offset : nat) (text keyword : string) : bool :=
  match fuel with
  | O => false
  | S fuel' =>
      match index_of keyword (str_drop offset text) with
      | None => false
      | Some i =>
          let index := (i + offset)%nat in
          let stop := (index + String.length keyword)%nat in
          let free c := match c with Some c => negb (isIdentifierByte c) | None => true end in
          if (Nat.eqb index 0 || free (String.get (index - 1) text)) && (Nat.eqb stop (String.length text) || free (String.get stop text)) then true
          else keyword_from fuel' stop text keyword
      end
  end.

Definition containsKeyword (text keyword : string) : bool := keyword_from (S (String.length text)) 0 text keyword.

Fixpoint value_line (index : Z) (lines : list string) : option (Z * string) :=
  match lines with
  | [] => None
  | l :: rest => if containsKeyword l "return" then Some (index, l) else value_line (index + 1) rest
  end.

(** An entry has a line; without one the code would panic. *)
Definition selectValueLine (e : EvidenceEntry) : Z * string :=
  match value_line 0 (ev_Lines e) with
  | Some (i, l) => (wrapU32 (ev_BlockStartLine e + i), l)
  | None => (ev_BlockStartLine e, default "" (head (ev_Lines e)))
  end.

Definition DQ : string := String "034" EmptyString.

Definition renderStatement (e : EvidenceEntry) (line : string) : string :=
  let trimmed := trim_space line in
  let plain := ev_Path e ++ ": " ++ trimmed ++ "." in
  match index_of DQ trimmed with
  | None => plain
  | Some start =>
      match index_of DQ (str_drop (start + 1) trimmed) with
      | None => plain
      | Some stop => ev_Path e ++ " returns " ++ str_take (stop + 2) (str_drop start trimmed) ++ "."
      end
  end.

Definition cited_line (index : Z) (e : EvidenceEntry) : ProposedClaim :=
  let '(line, selected) := selectValueLine e in
  MkProposedClaim (renderStatement e selected)
    [MkProposed index line (wrapU32 (len selected - len (trim_left [" "; "009"]%char selected) + 1)) line (wrapU32 (len selected + 1))] DeterministicConfidencePerMille.

(** The loop over the evidence: the claims, and the bytes of the entries it looked at. *)
Fixpoint deterministic_claims (limits : SynthesisLimits) (index : Z) (claims : list ProposedClaim) (bytes : Z) (l : list EvidenceEntry) : list ProposedClaim * Z :=
  match l with
  | [] => (claims, bytes)
  | e :: rest =>
      if MaxClaims limits <=? Z.of_nat (length claims) then (claims, bytes)
      else
        let c := cited_line index e in
        deterministic_claims limits (index + 1) (if MaxStatementBytes limits <? len (po_Statement c) then claims else (claims ++ [c])%list) (bytes + entryBytes e) rest
  end.

(** [None]: the prose is over its bound. *)
Definition DeterministicSynthesize (q : SynthesisRequest) : option Synthesis :=
  if (length (sq_Evidence q) =? 0)%nat then Some (MkSynthesis "" [] 0)
  else
    let '(claims, bytes) := deterministic_claims (sq_Limits q) 0 [] 0 (sq_Evidence q) in
    let prose := GoString.join " " (po_Statement <$> claims) in
    if MaxProseBytes (sq_Limits q) <? len prose then None
    else Some (MkSynthesis prose claims ((len (sq_Query q) + bytes + len prose) / 4)).

(** ** synthesis_provider.go *)

(** The provider's response, [None] for an error, a missing or a late one. *)
Definition ProviderSynthesize (complete : SynthesisRequest -> option Synthesis) (q : SynthesisRequest) : option Synthesis :=
  match complete q with
  | None => None
  | Some r =>
      if MaxProseBytes (sq_Limits q) <? len (sy_Prose r) then None
      else if MaxClaims (sq_Limits q) <? Z.of_nat (length (sy_Claims r)) then None
      else Some (MkSynthesis (if (length (sy_Claims r) =? 0)%nat then "" else sy_Prose r) (sy_Claims r) (sy_TokenUsage r))
  end.
End evidence.
