(* ===== verification/QueryEngine.v ===== *)
(** * query: the grounded-query engine

    Models [services/brain/internal/query/engine.go] and [expandHybridDense] of
    [hybrid_expand.go].  The ports of the engine and the caller's context are an
    environment that may answer differently at each point of a call. *)

From Stdlib Require Import Ascii String.
From S2P Require Import Prelude GoString Float64 Runtime FactualConsistency QueryTypes QueryRetrieval QueryEvidence.
From stdpp Require Import gmap strings.
Open Scope string_scope.
Open Scope Z_scope.

(** Where the engine asks whether the caller's context is done. *)
Inductive checkpoint :=
| AtStart | AfterQueryDecision | SnapshotFailed | CurrentFailed | LatestFailed | DenseStart | RerankStart | AfterHydrateDecision | SynthesisFailed | AdmitRecheck | AdmitFailed.

(** [None] is an error of the port, which [qe_authorize] returns beside its decision; [qe_current], [qe_now] and [qe_admit] are numbered by call. *)
Record QueryEnv := MkQueryEnv {
  qe_cancelled : checkpoint -> bool;
  qe_authorize : Principal -> Action -> string -> PortDecision * bool;
  qe_snapshot : string -> string -> option QuerySnapshot;
  qe_current : nat -> string -> option GenerationPin;
  qe_now : nat -> Z;
  qe_graph : option (string -> list string -> Z -> list string);
  qe_dense : option (string -> string -> Z -> list string);
  qe_rerank : option (string -> list string -> gmap string string -> Z -> list string);
  qe_synthesize : SynthesisRequest -> option Synthesis;
  qe_admit : option (nat -> EvidenceAdmissionRequest -> bool);
  qe_scorer : bool;
  qe_score : ScoreCall
}.

Record Engine := MkEngine { eg_limits : QueryLimits; eg_packing : PackPolicy }.

Definition NewEngine (env : QueryEnv) (allowLegacy : bool) (limits : QueryLimits) (packing : PackPolicy) : result query_error Engine :=
  if negb allowLegacy && match qe_admit env with None => true | Some _ => false end then Err (ErrInvalidInput "engine requires evidence admission")
  else do _ <- limits_validate limits ; do _ <- policy_validate packing limits ; Ok (MkEngine limits packing).

(** A port that must allow: the decision, when it does. *)
Definition allowed (d : PortDecision * bool) : option PortDecision := if snd d || negb (pd_Allowed (fst d)) then None else Some (fst d).

Definition pinResult (s : QuerySnapshot) (e : FreshnessEvaluation) (aclEpoch observedAt : Z) (a : QueryAnswer) : QueryResult :=
  MkQueryResult a (MkFreshness (sn_GenerationID s) (sn_Sequence s) (sn_CommitOID s) (sn_TreeOID s) (sn_State s) (fe_State e) aclEpoch observedAt)
    (computeCoverage s) (pv_State (sn_Projection s)).

Definition filesByPath (s : QuerySnapshot) (path : string) : FileProjection :=
  match ready_index s with Some files => default no_file (file_at files path) | None => no_file end.

Section engine.
Context `{GoRuntime} `{GitHash} `{LetterTable} (env : QueryEnv) (e : Engine).

Definition expandHybridDense (s : QuerySnapshot) (question : string) (cs : list candidate) : list candidate :=
  let max := MaxCandidates (eg_limits e) in
  let rerank out :=
    match qe_rerank env with
    | Some f =>
        let bodies := snapshotBodies s in
        if bool_decide (bodies = ∅) || (length out =? 0)%nat then capCandidates out max
        else if qe_cancelled env RerankStart then capCandidates out max
        else
          let reranked := f question (candidatePaths out) bodies max in
          capCandidates (if (length reranked =? 0)%nat then out else rebuildCandidatesFromPaths out reranked) max
    | None => capCandidates out max
    end in
  match qe_dense env with
  | Some search =>
      if qe_cancelled env DenseStart then capCandidates cs max
      else
        let densePaths := search (sn_GenerationID s) question max in
        rerank (if (length densePaths =? 0)%nat then cs else rebuildCandidatesFromPaths cs (rrfFuse [candidatePaths cs; densePaths] defaultRRFK max))
  | None => rerank cs
  end.

Definition candidates_of (s : QuerySnapshot) (question : string) : list candidate :=
  let cs := selectCandidatesMulti s question (MaxCandidates (eg_limits e)) in
  let cs := match qe_graph env with
            | Some expand => if (length cs =? 0)%nat then cs else expandWithGraph cs (expand (sn_GenerationID s) (cd_path <$> cs) 16) 12
            | None => cs
            end in
  expandHybridDense s question cs.

(** The definitions the candidates answer from; a degraded one has none. *)
Definition selections_of (s : QuerySnapshot) (terms : list string) (cs : list candidate) : list (FileProjection * Occurrence) :=
  omap (M := list) (fun c => if cd_degraded c then None else (fun o => (filesByPath s (cd_path c), o)) <$> selectDefinition (filesByPath s (cd_path c)) terms) cs.

(** Two admissions around a recheck of the current generation. *)
Definition admitEvidenceAtEmitBoundary (admitter : nat -> EvidenceAdmissionRequest -> bool) (sourceID generationID : string) (aclEpoch : Z) : bool :=
  if negb (admitter 0%nat (MkAdmission sourceID generationID aclEpoch (qe_now env 1))) then false
  else if qe_cancelled env AdmitRecheck then false
  else match qe_current env 1 sourceID with
  | None => false
  | Some current =>
      if negb (String.eqb (gp_SourceID current) sourceID) || negb (String.eqb (gp_GenerationID current) generationID) then false
      else admitter 1%nat (MkAdmission sourceID generationID aclEpoch (qe_now env 2))
  end.

Definition admitted (q : Query) (s : QuerySnapshot) (epoch : Z) : bool :=
  match qe_admit env with None => true | Some admitter => admitEvidenceAtEmitBoundary admitter (qu_SourceID q) (sn_GenerationID s) epoch end.

Definition abstention (q : Query) (reasons : list Reason) : QueryAnswer := composeAnswer (qu_QueryID q) [] "" 0 reasons Abstained (MaxReasons (eg_limits e)).

(** From the verified claims to the answer. *)
Definition emit_answer (q : Query) (s : QuerySnapshot) (y : Synthesis) (v : synthesisVerdict) (reasons : list Reason) : result query_error QueryAnswer :=
  let prose := if ve_citationFault v then regenerateProse (ve_claims v) (MaxProseBytes (LimitsSynthesis (eg_limits e))) else Some (sy_Prose y) in
  match prose with
  | None => Ok (abstention q (reasons ++ [ReasonSynthesisUnavailable]))
  | Some prose =>
      match Evaluate (qe_score env) (qe_scorer env) (ve_scoreClaims v) (LimitsFactualConsistency (eg_limits e)) with
      | Err _ => Err ErrContext
      | Ok consistency =>
          match allowed (qe_authorize env (qu_Principal q) ActionEmit (qu_SourceID q)) with
          | None => Ok (abstention q (reasons ++ [ReasonAbsentSupport]))
          | Some d =>
              if negb (admitted q s (pd_Epoch d)) then
                if qe_cancelled env AdmitFailed then Err ErrContext else Ok (abstention q (reasons ++ [ReasonAbsentSupport]))
              else Ok (composeAnswer (qu_QueryID q) (ve_claims v) prose (sy_TokenUsage y) reasons consistency (MaxReasons (eg_limits e)))
          end
      end
  end.

(** From the evidence pack to the answer. *)
Definition synthesize_answer (q : Query) (s : QuerySnapshot) (packed : list EvidenceEntry) (reasons : list Reason) : result query_error QueryAnswer :=
  match qe_synthesize env (MkSynthesisRequest (qu_Text q) packed (LimitsSynthesis (eg_limits e))) with
  | None => if qe_cancelled env SynthesisFailed then Err ErrContext else Ok (abstention q (reasons ++ [ReasonSynthesisUnavailable]))
  | Some y =>
      let v := verifySynthesis y packed s (LimitsSynthesis (eg_limits e)) in
      if ve_structureFault v then Ok (abstention q (reasons ++ [ReasonSynthesisUnavailable]))
      else
        let reasons := if ve_citationFault v then (reasons ++ [ReasonCitationVerificationFailed])%list else reasons in
        if (length (ve_claims v) =? 0)%nat then Ok (abstention q (if ve_citationFault v then reasons else reasons ++ [ReasonAbsentSupport]))
        else emit_answer q s y v reasons
  end.

(** The evidence entries of the selections, and a reason for each that failed. *)
Fixpoint hydrate_all (s : QuerySnapshot) (sel : list (FileProjection * Occurrence)) : list EvidenceEntry * list Reason :=
  match sel with
  | [] => ([], [])
  | (f, o) :: rest =>
      let '(entries, faults) := hydrate_all s rest in
      match hydrateEntry s f o (MaxBlockLines (eg_limits e)) with
      | Some entry => (entry :: entries, faults)
      | None => (entries, ReasonCitationVerificationFailed :: faults)
      end
  end.

Definition is_nil {A} (l : list A) : bool := (length l =? 0)%nat.

(** From the candidates to the answer, and the authorization epoch it discloses. *)
Definition ground (q : Query) (s : QuerySnapshot) (epoch : Z) (reasons : list Reason) : result query_error (Z * QueryAnswer) :=
  let terms := tokenizeQuery (qu_Text q) in
  let cs := candidates_of s (qu_Text q) in
  let unindexed := unindexedMentions s terms in
  let laneDegraded := existsb cd_degraded cs in
  let sel := selections_of s terms cs in
  let decision := if is_nil sel then None else Some (allowed (qe_authorize env (qu_Principal q) ActionHydrate (qu_SourceID q))) in
  let denied := match decision with Some None => true | _ => false end in
  let epoch := match decision with Some (Some d) => pd_Epoch d | _ => epoch end in
  let sel := if denied then [] else sel in
  if qe_cancelled env AfterHydrateDecision then Err ErrContext
  else
    let '(entries, faults) := hydrate_all s sel in
    let reasons := (reasons ++ faults)%list in
    let '(packed, dropped) := packEvidenceWithPolicy entries (eg_packing e) (eg_limits e) in
    let reasons := if negb (is_nil dropped) || negb (is_nil unindexed) then (reasons ++ [ReasonPartialCoverage])%list else reasons in
    let reasons := if laneDegraded then (reasons ++ [ReasonLaneDegraded])%list else reasons in
    if is_nil packed then
      let reasons :=
        if negb (is_nil faults) then reasons
        else if denied then (reasons ++ [ReasonAbsentSupport])%list
        else
          let c := computeCoverage s in
          (reasons ++ [ReasonAbsentSupport] ++ if IndexedRevisionCount c <? CanonicalRevisionCount c then [ReasonPartialCoverage] else [])%list in
      Ok (epoch, abstention q reasons)
    else do a <- synthesize_answer q s packed reasons ; Ok (epoch, a).

Definition Answer (q : Query) : result query_error QueryResult :=
  if qe_cancelled env AtStart then Err ErrContext
  else
    do _ <- query_validate q (eg_limits e) ;
    let observedAt := qe_now env 0 in
    let decision := qe_authorize env (qu_Principal q) ActionQuery (qu_SourceID q) in
    let epoch := pd_Epoch (fst decision) in
    if qe_cancelled env AfterQueryDecision then Err ErrContext
    else match qe_snapshot env (qu_SourceID q) (qu_GenerationID q) with
    | None => Err (if qe_cancelled env SnapshotFailed then ErrContext else ErrUnknownScope)
    | Some s =>
        match qe_current env 0 (qu_SourceID q) with
        | None => Err (if qe_cancelled env CurrentFailed then ErrContext else ErrUnknownScope)
        | Some current =>
            let evaluation := evaluateFreshness (qu_Freshness q) s (gp_GenerationID current) in
            match allowed decision with
            | None => Ok (pinResult s evaluation epoch observedAt (abstention q [ReasonAbsentSupport]))
            | Some _ =>
                let reasons := if fe_Stale evaluation then [ReasonStaleSupport] else [] in
                if fe_AbstainStale evaluation then Ok (pinResult s evaluation epoch observedAt (abstention q reasons))
                else match ready_index s with
                | None => Ok (pinResult s evaluation epoch observedAt (abstention q (reasons ++ [ReasonRetrievalUnavailable])))
                | Some _ =>
                    do x <- ground q s epoch reasons ;
                    Ok (pinResult s evaluation (fst x) observedAt (snd x))
                end
            end
        end
    end.

Definition Status (principal : Principal) (sourceID : string) : result query_error SourceStatus :=
  let bad := bad_id (MaxIdentifierLength (eg_limits e)) in
  if qe_cancelled env AtStart then Err ErrContext
  else if bad sourceID || bad (pn_Tenant principal) || bad (pn_Principal principal) || bad (pn_Session principal) then Err (ErrInvalidInput "")
  else match allowed (qe_authorize env principal ActionQuery sourceID) with
  | None => Err ErrUnknownScope
  | Some decision =>
      match qe_current env 0 sourceID with
      | None => Err (if qe_cancelled env CurrentFailed then ErrContext else ErrUnknownScope)
      | Some current =>
          match qe_snapshot env sourceID (gp_GenerationID current) with
          | None => Err (if qe_cancelled env SnapshotFailed then ErrContext else ErrUnknownScope)
          | Some s =>
              match qe_current env 1 sourceID with
              | None => Err (if qe_cancelled env LatestFailed then ErrContext else ErrUnknownScope)
              | Some latest =>
                  match allowed (qe_authorize env principal ActionEmit sourceID) with
                  | None => Err ErrUnknownScope
                  | Some _ =>
                      let evaluation := evaluateFreshness FreshnessBestEffort s (gp_GenerationID latest) in
                      Ok (MkSourceStatus sourceID
                            (MkFreshness (sn_GenerationID s) (sn_Sequence s) (sn_CommitOID s) (sn_TreeOID s) (sn_State s) (fe_State evaluation) (pd_Epoch decision) (qe_now env 0))
                            (computeCoverage s) (pv_State (sn_Projection s)))
                  end
              end
          end
      end
  end.
End engine.
