(* ===== verification/QuerySafety.v ===== *)
(** * query: what an answer promises

    [spans] says what a one-based, half-open line and column range of a text
    selects.  An answer that makes claims went through three authorizations, and its
    citations name bytes of the pinned snapshot; a denial keeps the files, the
    synthesizer and the scorer out of the result. *)

From Stdlib Require Import Ascii String.
From S2P Require Import Prelude GoString Float64 Runtime FactualConsistency QueryTypes QueryRetrieval QueryEvidence QueryEngine.
From stdpp Require Import gmap strings.
Open Scope string_scope.
Open Scope Z_scope.

(** ** What a range of lines and columns selects *)

Definition NL : string := String "010" EmptyString.
Definition lines_of (content : string) : list string := split_char "010" content.

(** The byte offset of a one-based position. *)
Definition position (content : string) (line column : Z) : Z := sumZ (fun l => len l + 1) (take (Z.to_nat (line - 1)) (lines_of content)) + (column - 1).

(** [text] is what lies between two positions of [content]. *)
Definition spans (content : string) (startLine startColumn endLine endColumn : Z) (text : string) : Prop :=
  exists before after, content = before ++ text ++ after /\ len before = position content startLine startColumn /\ len (before ++ text) = position content endLine endColumn.

(** ** Lines and bytes *)

Fixpoint lines_text (l : list string) : string := match l with [] => "" | x :: rest => x ++ NL ++ lines_text rest end.

Lemma len_lines_text l : len (lines_text l) = sumZ (fun x => len x + 1) l.
Proof. induction l as [|x l IH]; [done|]. cbn [lines_text sumZ]. rewrite !len_app, IH. change (len NL) with 1. lia. Qed.

Lemma join_lines l x rest : GoString.join NL (l ++ x :: rest)%list = lines_text l ++ GoString.join NL (x :: rest).
Proof.
  induction l as [|y l IH]; [done|]. cbn [lines_text]. rewrite !append_assoc, <- IH. cbn [GoString.join app]. by destruct (l ++ x :: rest)%list eqn:E; [destruct l|].
Qed.

Lemma join_head x rest : exists after, GoString.join NL (x :: rest) = x ++ after.
Proof. destruct rest as [|y rest]; [exists ""; cbn; by rewrite append_nil_r|]. by eexists. Qed.

Lemma content_lines content A x B : lines_of content = (A ++ x :: B)%list -> exists after, content = lines_text A ++ x ++ after.
Proof.
  intros E. destruct (join_head x B) as [after Ha]. exists after. rewrite <- Ha, <- join_lines, <- E. unfold lines_of, NL. symmetry. apply (join_split "010").
Qed.

Lemma content_split_lines content A x M y B :
  lines_of content = (A ++ x :: M ++ y :: B)%list -> exists after, content = lines_text A ++ x ++ NL ++ lines_text M ++ y ++ after.
Proof.
  intros E. destruct (join_head y B) as [after Ha]. exists after. rewrite <- Ha, <- join_lines. assert (GoString.join NL (lines_of content) = content) as <-.
  { unfold lines_of, NL. apply (join_split "010"). }
  rewrite E, join_lines. f_equal. cbn [GoString.join]. by destruct (M ++ y :: B)%list eqn:Em; [destruct M|].
Qed.

(** ** Columns *)

Lemma take_drop_str n m s : (n <= m)%nat -> str_take n s ++ str_take (m - n) (str_drop n s) ++ str_drop m s = s.
Proof. intros Hn. replace m with (n + (m - n))%nat at 2 by lia. rewrite str_drop_add, str_take_drop. apply str_take_drop. Qed.

Lemma len_str_take n s : (n <= String.length s)%nat -> len (str_take n s) = Z.of_nat n.
Proof. intros Hn. unfold len. rewrite length_str_take. lia. Qed.

Lemma columns_split s a b :
  1 <= a <= b -> b <= len s + 1 -> exists x y, s = x ++ columns s a b ++ y /\ len x = a - 1 /\ len (columns s a b) = b - a.
Proof.
  intros Ha Hb. unfold len in Hb. exists (str_take (Z.to_nat (a - 1)) s), (str_drop (Z.to_nat (b - 1)) s). unfold columns. replace (Z.to_nat (b - a)) with (Z.to_nat (b - 1) - Z.to_nat (a - 1))%nat by lia.
  split_and!; [symmetry; apply take_drop_str; lia|rewrite len_str_take by lia; lia|]. rewrite len_str_take by (rewrite length_str_drop; lia). lia.
Qed.

Lemma columns_from_split s a : 1 <= a <= len s + 1 -> exists x, s = x ++ columns_from s a /\ len x = a - 1.
Proof.
  intros Ha. unfold len in Ha. exists (str_take (Z.to_nat (a - 1)) s). unfold columns_from. split; [symmetry; apply str_take_drop|]. rewrite len_str_take by lia. lia.
Qed.

(** ** Blocks *)

Lemma block_from_prefix first room lines : block_from first room lines `prefix_of` lines.
Proof.
  revert first room. induction lines as [|l lines IH]; intros first [|room]; cbn; try apply prefix_nil. destruct (_ && _); [apply prefix_nil|]. by apply prefix_cons.
Qed.

Lemma block_from_length first room lines : (length (block_from first room lines) <= room)%nat.
Proof. revert first room. induction lines as [|l lines IH]; intros first [|room]; cbn; try lia. destruct (_ && _); cbn; [lia|]. specialize (IH false room). lia. Qed.

(** An entry holds consecutive lines of the content, from its start line on. *)
Definition block_of (content : string) (e : EvidenceEntry) : Prop :=
  1 <= ev_BlockStartLine e < 2 ^ 32 /\ Z.of_nat (length (ev_Lines e)) < 2 ^ 31 /\ ev_Lines e `prefix_of` drop (Z.to_nat (ev_BlockStartLine e) - 1) (lines_of content).

Lemma blockLines_spec content n room : 0 <= n -> blockLines content n room <> [] ->
  1 <= n /\ (length (blockLines content n room) <= Z.to_nat room)%nat /\ blockLines content n room `prefix_of` drop (Z.to_nat n - 1) (lines_of content).
Proof.
  intros Hn. unfold blockLines. destruct (_ || _) eqn:E; [done|]. bool_prop. intros _. split_and!; [lia|apply block_from_length|apply block_from_prefix].
Qed.

(** A line of the block is that line of the content. *)
Lemma block_line content e n l :
  block_of content e -> ev_BlockStartLine e <= n -> ev_Lines e !! Z.to_nat (n - ev_BlockStartLine e) = Some l -> lines_of content !! Z.to_nat (n - 1) = Some l.
Proof.
  intros (Hs & _ & Hp) Hn Hl. pose proof (prefix_lookup_Some _ _ _ _ Hl Hp) as Hd. rewrite lookup_drop in Hd. rewrite <- Hd. f_equal. lia.
Qed.

Lemma line_of_lookup content e n :
  block_of content e -> ev_BlockStartLine e <= n < ev_BlockStartLine e + Z.of_nat (length (ev_Lines e)) ->
  ev_Lines e !! Z.to_nat (n - ev_BlockStartLine e) = Some (line_of e n).
Proof.
  intros (Hs & Hlen & _) Hn. unfold line_of, wrapU32. rewrite Z.mod_small by lia.
  destruct (lookup_lt_is_Some_2 (ev_Lines e) (Z.to_nat (n - ev_BlockStartLine e))) as [l Hl]; [lia|]. by rewrite Hl.
Qed.

Lemma line_in_content content e n :
  block_of content e -> ev_BlockStartLine e <= n < ev_BlockStartLine e + Z.of_nat (length (ev_Lines e)) -> lines_of content !! Z.to_nat (n - 1) = Some (line_of e n).
Proof. intros Hb Hn. apply (block_line _ e); [done|lia|]. by eapply line_of_lookup. Qed.

(** The lines between two lines of the content, as the loop writes them. *)
Lemma middle_text content e n count :
  block_of content e -> ev_BlockStartLine e <= n -> n + Z.of_nat count <= ev_BlockStartLine e + Z.of_nat (length (ev_Lines e)) ->
  middle_lines e n count ++ NL = NL ++ lines_text (take count (drop (Z.to_nat (n - 1)) (lines_of content))).
Proof.
  intros Hb. revert n. induction count as [|count IH]; intros n Hn Hle; [done|]. cbn [middle_lines]. rewrite append_assoc, IH by lia.
  pose proof (line_in_content content e n Hb ltac:(lia)) as Hl. rewrite (drop_S _ _ _ Hl). cbn [take lines_text]. replace (S (Z.to_nat (n - 1))) with (Z.to_nat (n + 1 - 1)) by (destruct Hb; lia).
  by rewrite <- !append_assoc.
Qed.

(** ** The resolved text *)

(** A citation as its 32-bit fields allow it. *)
Definition citation_typed (p : ProposedCitation) : Prop := 0 <= pc_StartLine p /\ 0 <= pc_StartColumn p /\ 0 <= pc_EndLine p /\ 0 <= pc_EndColumn p.

Section resolve.
Context `{GoRuntime}.

(** One line. *)
Lemma spans_line content n l a b : lines_of content !! Z.to_nat (n - 1) = Some l -> 1 <= a < b -> b <= len l + 1 -> spans content n a n b (columns l a b) /\ columns l a b <> "".
Proof.
  intros Hl Ha Hb. destruct (columns_split l a b) as (x & y & E & Hx & Hlen); [lia|lia|]. split; [|intros E0; rewrite E0 in Hlen; change (len "") with 0 in Hlen; lia].
  pose proof (take_drop_middle _ _ _ Hl) as Hm. symmetry in Hm. destruct (content_lines _ _ _ _ Hm) as [after Hc].
  exists (lines_text (take (Z.to_nat (n - 1)) (lines_of content)) ++ x), (y ++ after). unfold position. rewrite !len_app, len_lines_text, Hx, Hlen. split_and!; [|lia|lia].
  rewrite Hc at 1. rewrite E at 1. by rewrite !append_assoc.
Qed.

(** Two lines of a list, the second after the first. *)
Lemma two_lines (l : list string) i j x y :
  (i < j)%nat -> l !! i = Some x -> l !! j = Some y -> l = (take i l ++ x :: take (j - i - 1) (drop (S i) l) ++ y :: drop (S j) l)%list /\
  sumZ (fun s => len s + 1) (take j l) = sumZ (fun s => len s + 1) (take i l) + len x + 1 + sumZ (fun s => len s + 1) (take (j - i - 1) (drop (S i) l)).
Proof.
  intros Hij Hx Hy. pose proof (take_drop_middle l i x Hx) as E1. assert (drop (S i) l !! (j - i - 1)%nat = Some y) as Hy' by (rewrite lookup_drop; rewrite <- Hy; f_equal; lia).
  pose proof (take_drop_middle _ _ _ Hy') as E2. rewrite drop_drop in E2. replace (S i + S (j - i - 1))%nat with (S j) in E2 by lia. split; [by rewrite E2|].
  assert (length (take i l) = i) as Hlen by (apply length_take_le; apply lookup_lt_Some in Hx; lia).
  rewrite <- E1 at 1. rewrite take_app, (take_ge (take i l)), Hlen by lia. assert (j - i = S (j - i - 1))%nat as -> by lia.
  cbn [take]. rewrite sumZ_app. cbn [sumZ]. replace (S (j - i - 1) - 1)%nat with (j - i - 1)%nat by lia. lia.
Qed.

(** Several lines. *)
Lemma spans_lines content i j x y a b middle :
  (i < j)%nat -> lines_of content !! i = Some x -> lines_of content !! j = Some y -> 1 <= a <= len x + 1 -> 1 <= b <= len y + 1 ->
  middle ++ NL = NL ++ lines_text (take (j - i - 1) (drop (S i) (lines_of content))) ->
  spans content (Z.of_nat i + 1) a (Z.of_nat j + 1) b (columns_from x a ++ middle ++ NL ++ columns y 1 b).
Proof.
  intros Hij Hx Hy Ha Hb Hm. destruct (two_lines _ _ _ _ _ Hij Hx Hy) as [Hl Hsum]. destruct (content_split_lines _ _ _ _ _ _ Hl) as [after Hc].
  destruct (columns_from_split x a Ha) as (x1 & Ex & Hx1). destruct (columns_split y 1 b) as (y0 & y1 & Ey & Hy0 & Hyl); [lia|lia|].
  assert (y0 = "") as -> by (destruct y0; [done|unfold len in Hy0; cbn in Hy0; lia]). cbn in Ey.
  set (M := lines_text (take (j - i - 1) (drop (S i) (lines_of content)))) in *.
  assert (columns_from x a ++ middle ++ NL ++ columns y 1 b = columns_from x a ++ NL ++ M ++ columns y 1 b) as ->.
  { f_equal. rewrite <- append_assoc, Hm. by rewrite append_assoc. }
  exists (lines_text (take i (lines_of content)) ++ x1), (y1 ++ after). unfold position. replace (Z.to_nat (Z.of_nat i + 1 - 1)) with i by lia. replace (Z.to_nat (Z.of_nat j + 1 - 1)) with j by lia.
  assert (len (columns_from x a) = len x - (a - 1)) as Hcf by (rewrite Ex at 2; rewrite len_app; lia).
  rewrite Hsum, !len_app, len_lines_text, Hx1, Hyl, Hcf. unfold M. rewrite len_lines_text. change (len NL) with 1. split_and!; [|lia|lia].
  rewrite Hc at 1. rewrite Ex at 1. rewrite Ey at 1. by rewrite !append_assoc.
Qed.

Lemma resolve_spans content e p text digest :
  block_of content e -> citation_typed p -> resolveSupportingText e p = Some (text, digest) ->
  digest = sha256_hex text /\ text <> "" /\ spans content (pc_StartLine p) (pc_StartColumn p) (pc_EndLine p) (pc_EndColumn p) text.
Proof.
  intros Hb Ht. pose proof Hb as (Hs & Hlen & _). destruct Ht as (T1 & T2 & T3 & T4). unfold resolveSupportingText. destruct (_ || _) eqn:E1; [done|]. cbv zeta.
  destruct ((_ =? 0)%nat || _ || _) eqn:E2; [done|]. destruct ((len _ + 1 <? _) || _) eqn:E3; [done|]. bool_prop. unfold wrapU64 in *. rewrite Z.mod_small in * by lia.
  destruct (pc_StartLine p =? pc_EndLine p) eqn:E4; cbn [andb] in *; bool_prop; intros [= <- <-]; (split; [done|]).
  - rewrite <- E4. pose proof (line_in_content content e (pc_StartLine p) Hb ltac:(lia)) as Hl. destruct (spans_line _ _ _ (pc_StartColumn p) (pc_EndColumn p) Hl) as [A B]; [lia|rewrite E4; lia|done].
  - pose proof (line_in_content content e (pc_StartLine p) Hb ltac:(lia)) as Hl1. pose proof (line_in_content content e (pc_EndLine p) Hb ltac:(lia)) as Hl2.
    pose proof (middle_text content e (pc_StartLine p + 1) (Z.to_nat (pc_EndLine p - pc_StartLine p - 1)) Hb ltac:(lia) ltac:(lia)) as Hm.
    set (i := Z.to_nat (pc_StartLine p - 1)) in *. set (j := Z.to_nat (pc_EndLine p - 1)) in *. split.
    + intros E0. apply (f_equal len) in E0. rewrite !len_app in E0. unfold len in E0. cbn [String.length] in E0. lia.
    + replace (Z.to_nat (pc_EndLine p - pc_StartLine p - 1)) with (j - i - 1)%nat in * by lia. replace (Z.to_nat (pc_StartLine p + 1 - 1)) with (S i) in Hm by lia.
      pose proof (spans_lines content i j _ _ (pc_StartColumn p) (pc_EndColumn p) _ ltac:(lia) Hl1 Hl2 ltac:(lia) ltac:(lia) Hm) as Hsp.
      replace (Z.of_nat i + 1) with (pc_StartLine p) in Hsp by lia. replace (Z.of_nat j + 1) with (pc_EndLine p) in Hsp by lia. exact Hsp.
Qed.
End resolve.

(** ** Limits *)

(** Every limit is positive and at most its ceiling. *)
Lemma check_limits_bounds got hard : check_limits got hard = Ok tt -> Forall2 (fun g h => 0 < snd g <= snd h) (take (length hard) got) (take (length got) hard).
Proof.
  revert hard. induction got as [|[n v] got IH]; intros [|[m top] hard]; cbn; try constructor; cbn.
  - destruct (_ || _) eqn:E; [done|]. bool_prop. lia.
  - destruct (_ || _) eqn:E; [done|]. auto.
Qed.

Lemma limits_positive l : limits_validate l = Ok tt ->
  0 < MaxBlockLines l <= 64 /\ 0 < MaxReasons l <= 8 /\ 0 < MaxClaims (LimitsSynthesis l) /\ 0 < MaxProseBytes (LimitsSynthesis l) /\ 0 < MaxEvidenceEntries l /\ 0 < MaxEvidencePackBytes l.
Proof.
  unfold limits_validate. destruct (check_limits _ _) as [[]|] eqn:E; [|done]. intros _. apply check_limits_bounds in E. cbn in E.
  repeat match goal with H : Forall2 _ (_ :: _) _ |- _ => inversion_clear H end. cbn in *. lia.
Qed.

Lemma NewEngine_limits env legacy limits packing e : NewEngine env legacy limits packing = Ok e -> eg_limits e = limits /\ limits_validate limits = Ok tt.
Proof. unfold NewEngine. destruct (_ && _); [done|]. intros E. res_inv. by destruct a. Qed.

(** ** Reasons *)

Lemma all_reasons r : r ∈ reasonOrder.
Proof. destruct r; unfold reasonOrder; set_solver. Qed.

Lemma canonicalReasons_NoDup reasons n : NoDup (canonicalReasons reasons n).
Proof.
  unfold canonicalReasons. eapply sublist_NoDup; [|apply sublist_take]. apply NoDup_ListNoDup, List.NoDup_filter, NoDup_ListNoDup.
  unfold reasonOrder. repeat constructor; set_solver.
Qed.

Lemma canonicalReasons_length reasons n : 0 <= n -> Z.of_nat (length (canonicalReasons reasons n)) <= n.
Proof. intros Hn. unfold canonicalReasons. rewrite length_take. lia. Qed.

Lemma canonicalReasons_sub reasons n r : r ∈ canonicalReasons reasons n -> r ∈ reasons.
Proof. unfold canonicalReasons. intros Hr%elem_of_take. destruct Hr as (i & Hr & _). apply list_elem_of_lookup_2, elem_of_filterb in Hr as [_ Hr]. by bool_prop. Qed.

Lemma canonicalReasons_cons reasons n : reasons <> [] -> 0 < n -> canonicalReasons reasons n <> [].
Proof.
  intros Hr Hn. destruct reasons as [|r reasons]; [done|]. unfold canonicalReasons.
  assert (r ∈ List.filter (fun x => bool_decide (x ∈ r :: reasons)) reasonOrder) as Hin by (apply elem_of_filterb; split; [apply all_reasons|apply bool_decide_eq_true_2; left]).
  destruct (List.filter _ _); [set_solver|]. by replace (Z.to_nat n) with (S (Z.to_nat n - 1)) by lia.
Qed.

(** [ReasonStaleSupport] is never cut when two reasons fit. *)
Lemma canonicalReasons_stale reasons n : ReasonStaleSupport ∈ reasons -> 2 <= n -> ReasonStaleSupport ∈ canonicalReasons reasons n.
Proof.
  intros Hr Hn. unfold canonicalReasons, reasonOrder. cbn [List.filter]. rewrite (bool_decide_eq_true_2 (ReasonStaleSupport ∈ reasons)) by done.
  replace (Z.to_nat n) with (S (S (Z.to_nat n - 2))) by lia. destruct (bool_decide _); cbn [take]; set_solver.
Qed.

Lemma canonicalReasons_absent n : 1 <= n -> canonicalReasons [ReasonAbsentSupport] n = [ReasonAbsentSupport].
Proof. intros Hn. unfold canonicalReasons. change (List.filter _ _) with [ReasonAbsentSupport]. rewrite take_ge; [done|cbn; lia]. Qed.

(** ** Verified claims *)

Section verified.
Context `{GoRuntime} `{GitHash}.

(** A claim within the limits. *)
Definition claim_in_limits (l : SynthesisLimits) (c : AnswerClaim) : Prop :=
  ac_Statement c <> "" /\ len (ac_Statement c) <= MaxStatementBytes l /\ ac_Citations c <> [] /\ Z.of_nat (length (ac_Citations c)) <= MaxCitationsPerClaim l
  /\ ac_ConfidencePerMille c <= 1000.

(** A citation that a proposed one of the synthesis resolves to. *)
Definition cites (y : Synthesis) (entries : list EvidenceEntry) (s : QuerySnapshot) (c : Citation) : Prop :=
  exists p claim text, claim ∈ sy_Claims y /\ p ∈ po_Citations claim /\ verifyCitation p entries s = Some (c, text).

Lemma verify_citations_spec ps entries s l : verify_citations ps entries s = Some l -> Forall2 (fun p c => verifyCitation p entries s = Some c) ps l.
Proof.
  revert l. induction ps as [|p ps IH]; intros l; cbn; [intros [= <-]; constructor|]. destruct (verifyCitation p entries s) eqn:E; [|done].
  destruct (verify_citations ps entries s); [|done]. intros [= <-]. constructor; [done|]. by apply IH.
Qed.

Definition verified (entries : list EvidenceEntry) (s : QuerySnapshot) (limits : SynthesisLimits) (x : ProposedClaim * list (Citation * string)) : Prop :=
  claim_malformed limits (fst x) = false /\ verify_citations (po_Citations (fst x)) entries s = Some (snd x).

Lemma verify_claims_spec cs entries s limits good fault :
  verify_claims cs entries s limits = Some (good, fault) -> good.*1 `sublist_of` cs /\ Forall (verified entries s limits) good.
Proof.
  revert good fault. induction cs as [|c cs IH]; intros good fault; cbn; [intros [= <- <-]; by split|]. destruct (claim_malformed _ _) eqn:Em; [done|].
  destruct (verify_claims cs entries s limits) as [[g f]|] eqn:E; [|done]. destruct (IH _ _ eq_refl) as [Hs Hf].
  destruct (verify_citations _ _ _) eqn:Ec; intros [= <- <-]; split; [by apply sublist_skip|by constructor|by apply sublist_cons|done].
Qed.

Lemma as_claim_limits limits entries s i x : verified entries s limits x -> claim_in_limits limits (as_claim i x).
Proof.
  intros [Hm Hc]. apply verify_citations_spec, Forall2_length in Hc. unfold claim_malformed in Hm. bool_prop. unfold claim_in_limits, as_claim. cbn. rewrite length_fmap, <- Hc.
  split_and!; try done. - by apply String.eqb_neq. - intros E. apply fmap_nil_inv in E. rewrite E in Hc. by rewrite Hc in *.
Qed.

Lemma as_claim_cites y limits entries s i x c :
  fst x ∈ sy_Claims y -> verified entries s limits x -> c ∈ ac_Citations (as_claim i x) -> cites y entries s c.
Proof.
  intros Hx [_ Hc] ([c' text] & -> & Hin)%list_elem_of_fmap. apply verify_citations_spec in Hc. destruct (Forall2_elem_r _ _ _ _ Hc Hin) as (p & Hp & Hv). by exists p, (fst x), text.
Qed.

(** What survives the verification of a synthesis. *)
Lemma verifySynthesis_spec y entries s limits : let v := verifySynthesis y entries s limits in
  ve_claims v <> [] ->
  sy_Prose y <> "" /\ len (sy_Prose y) <= MaxProseBytes limits /\ Z.of_nat (length (ve_claims v)) <= MaxClaims limits /\ Forall (claim_in_limits limits) (ve_claims v) /\
  Forall (fun a => Forall (cites y entries s) (ac_Citations a)) (ve_claims v).
Proof.
  cbv zeta. unfold verifySynthesis. destruct (length (sy_Claims y) =? 0)%nat; [done|]. destruct (_ || _) eqn:E; [done|]. bool_prop.
  destruct (verify_claims _ _ _ _) as [[good fault]|] eqn:Ev; [|done]. cbn. intros _. destruct (verify_claims_spec _ _ _ _ _ _ Ev) as [Hs Hf].
  pose proof (sublist_length _ _ Hs) as Hl. rewrite length_fmap in Hl. rewrite length_imap.
  assert (forall i x, good !! i = Some x -> verified entries s limits x /\ fst x ∈ sy_Claims y) as Hall.
  { intros i x Hx. split; [by eapply Forall_lookup_1|]. eapply elem_of_sublist; [|exact Hs]. apply list_elem_of_fmap. exists x. split; [done|]. by eapply list_elem_of_lookup_2. }
  split_and!; [by apply String.eqb_neq|lia|lia| |]; apply Forall_lookup; intros i a; rewrite list_lookup_imap; destruct (good !! i) eqn:Hx; try done; intros [= <-]; destruct (Hall _ _ Hx).
  - by eapply as_claim_limits.
  - apply Forall_forall. intros c. by eapply as_claim_cites.
Qed.
End verified.

(** ** Packed evidence *)

Lemma head_tail_perm {A} rank (lo hi l : list A) : head_tail rank lo hi l ≡ₚ (lo ++ hi ++ l)%list.
Proof.
  revert rank lo hi. induction l as [|x l IH]; intros rank lo hi; cbn; [by rewrite app_nil_r|]. destruct (Nat.even rank); rewrite IH.
  - rewrite <- !app_assoc. cbn. f_equiv. apply Permutation_middle.
  - cbn. f_equiv. apply Permutation_middle.
Qed.

(** Every order is an order of all the entries. *)
Lemma orderEvidence_perm entries order : orderEvidence entries order ≡ₚ imap pair entries.
Proof.
  unfold orderEvidence. cbv zeta. destruct (String.eqb _ _); [apply sort_by_perm|]. destruct (String.eqb _ _); [symmetry; apply Permutation_rev|].
  destruct (String.eqb _ _); [|done]. by rewrite head_tail_perm.
Qed.

Lemma pack_from_sublist a b c n t l : pack_from a b c n t l `sublist_of` l.
Proof. revert n t. induction l as [|x l IH]; intros n t; cbn; [done|]. destruct (_ || _); [by apply sublist_cons|by apply sublist_skip]. Qed.

Lemma packed_from_entries entries policy limits x : x ∈ fst (packEvidenceWithPolicy entries policy limits) -> x ∈ entries.
Proof.
  unfold packEvidenceWithPolicy. destruct (policy_bounds _ _) as [a b]. cbn. intros ([i y] & -> & Hy)%list_elem_of_fmap. eapply elem_of_sublist in Hy; [|apply pack_from_sublist].
  rewrite orderEvidence_perm in Hy. apply elem_of_lookup_imap in Hy as (j & z & [= -> ->] & Hz). by eapply list_elem_of_lookup_2.
Qed.

Lemma pack_from_bounds a b c n t l : 0 <= n <= a -> 0 <= t <= b ->
  n + Z.of_nat (length (pack_from a b c n t l)) <= a /\ t + sumZ entryBytes (pack_from a b c n t l).*2 <= b /\ Forall (fun x => entryBytes (snd x) <= c) (pack_from a b c n t l).
Proof.
  revert n t. induction l as [|x l IH]; intros n t Hn Ht; cbn [pack_from]; [cbn; split_and!; [lia|lia|constructor]|]. destruct (_ || _) eqn:E; [by apply IH|]. bool_prop.
  assert (0 <= entryBytes (snd x)) as Hpos by (apply sumZ_nonneg; intros s _; unfold len; lia). destruct (IH (n + 1) (t + entryBytes (snd x))) as (B1 & B2 & B3); [lia|lia|].
  cbn [length fmap list_fmap sumZ] in *. split_and!; [lia|lia|]. by constructor.
Qed.

Lemma imap_pair_fst {A} (l : list A) : (imap pair l).*1 = seq 0 (length l).
Proof.
  change (imap pair l) with (imap (fun i => pair (0 + i)%nat) l). generalize 0%nat. induction l as [|x l IH]; intros n; [done|]. rewrite imap_cons. cbn. rewrite Nat.add_0_r. f_equal.
  rewrite <- (IH (S n)). f_equal. apply imap_ext. intros i y _. cbn. by rewrite Nat.add_succ_r.
Qed.

(** Sublists of a keyed list and what they leave. *)
Lemma leave_out {A} (l c : list (nat * A)) : NoDup l.*1 -> c ⊆+ l -> (c ++ List.filter (fun x => negb (existsb (fun y => Nat.eqb (fst y) (fst x)) c)) l)%list ≡ₚ l.
Proof.
  intros Hnd Hsub. assert (NoDup l) as Hl by (by eapply NoDup_fmap_1). assert (NoDup c) as Hc by (destruct (submseteq_Permutation _ _ Hsub) as [k Hk]; rewrite Hk in Hl; by apply NoDup_app in Hl as [? _]). assert (c ⊆ l) as Hin by (intros x Hx; by eapply elem_of_submseteq).
  assert (forall x, x ∈ l -> existsb (fun y => Nat.eqb (fst y) (fst x)) c = true <-> x ∈ c) as Hex.
  { intros x Hx. rewrite List.existsb_exists. setoid_rewrite <- list_elem_of_In. split; [|intros Hxc; exists x; by rewrite Nat.eqb_refl].
    intros (y & Hy & Hk%Nat.eqb_eq). apply Hin in Hy as Hyl. apply list_elem_of_lookup in Hx as [i Hi], Hyl as [j Hj].
    assert (i = j) as -> by (eapply NoDup_lookup; [exact Hnd|rewrite list_lookup_fmap, Hi; reflexivity|rewrite list_lookup_fmap, Hj; cbn; by rewrite Hk]). congruence. }
  apply NoDup_Permutation; [apply NoDup_app; split_and!; [done| |]|done|].
  - intros x Hx [Hxl Hn]%elem_of_filterb. apply Hex in Hx; [|done]. by rewrite Hx in Hn.
  - by apply NoDup_ListNoDup, List.NoDup_filter, NoDup_ListNoDup.
  - intros x. rewrite elem_of_app, elem_of_filterb. split; [intros [Hx|[Hx _]]; [by apply Hin|done]|]. intros Hx. destruct (existsb (fun y => Nat.eqb (fst y) (fst x)) c) eqn:E; [left|right]; [by apply Hex|done].
Qed.

(** C20. Packing splits the evidence in two, and what it takes is within the limits
    of the engine and the targets of its policy. *)
Theorem packing_is_bounded_and_complete entries policy limits packed dropped :
  packEvidenceWithPolicy entries policy limits = (packed, dropped) -> limits_validate limits = Ok tt ->
  (packed ++ dropped)%list ≡ₚ entries /\ Z.of_nat (length packed) <= fst (policy_bounds policy limits) <= MaxEvidenceEntries limits /\
  sumZ entryBytes packed <= snd (policy_bounds policy limits) <= MaxEvidencePackBytes limits /\ Forall (fun x => entryBytes x <= MaxEvidenceEntryBytes limits) packed.
Proof.
  intros Hp Hl. pose proof (limits_positive _ Hl) as Hpos. unfold packEvidenceWithPolicy in Hp. destruct (policy_bounds policy limits) as [a b] eqn:Eb. injection Hp as <- <-.
  assert (0 <= a <= MaxEvidenceEntries limits /\ 0 <= b <= MaxEvidencePackBytes limits) as [Ha Hb].
  { injection Eb as <- <-. unfold narrow. split; (destruct (_ && _) eqn:E; [bool_prop|]); lia. }
  destruct (pack_from_bounds a b (MaxEvidenceEntryBytes limits) 0 0 (orderEvidence entries (pp_Order policy))) as (H1 & H2 & H3); [lia|lia|]. cbn [fst snd]. rewrite length_fmap. split_and!; try lia.
  - rewrite <- fmap_app, leave_out; [|rewrite imap_pair_fst; apply NoDup_seq|].
    + replace (imap pair entries).*2 with entries; [done|]. apply list_eq. intros i. rewrite list_lookup_fmap, list_lookup_imap. by destruct (entries !! i).
    + rewrite <- (orderEvidence_perm entries (pp_Order policy)). apply sublist_submseteq, pack_from_sublist.
  - by apply Forall_fmap.
Qed.

Lemma packEvidence_nil policy limits : packEvidenceWithPolicy [] policy limits = ([], []).
Proof. unfold packEvidenceWithPolicy, orderEvidence. destruct (policy_bounds _ _). cbn. by repeat destruct (String.eqb _ _). Qed.

(** ** Grounded citations *)

(** What the snapshot's 32-bit line numbers allow. *)
Definition snapshot_typed (s : QuerySnapshot) : Prop :=
  forall files f o, pv_Index (sn_Projection s) = Some files -> f ∈ files -> o ∈ fp_Occurrences f -> 0 <= oc_StartLine o < 2 ^ 32.

Definition synthesis_typed (y : Synthesis) : Prop := forall c p, c ∈ sy_Claims y -> p ∈ po_Citations c -> citation_typed p.

Definition request_typed (x : SynthesisRequest) : Prop := Forall (fun e => 0 <= ev_BlockStartLine e) (sq_Evidence x).

Section grounded.
Context `{GoRuntime} `{GitHash}.

(** A citation names a file of the snapshot whose bytes hash to the manifest's
    digest and blob, and a range of them whose text hashes to its own digest. *)
Definition grounded (s : QuerySnapshot) (c : Citation) : Prop :=
  exists revision content text,
    revision ∈ sn_Revisions s /\ re_Path revision = ci_Path c /\ re_RevisionID revision = ci_SourceRevisionID c /\ sn_CommitOID s = ci_GitOID c /\
    pv_Files (sn_Projection s) !! ci_Path c = Some content /\ sha256_hex content = re_ContentDigest revision /\ gitBlobOID content = re_BlobOID revision /\
    text <> "" /\ spans content (ci_StartLine c) (ci_StartColumn c) (ci_EndLine c) (ci_EndColumn c) text /\ ci_SupportingTextDigest c = sha256_hex text.

(** An entry the hydration made from a definition of the index. *)
Definition hydrated (s : QuerySnapshot) (room : Z) (x : EvidenceEntry) : Prop :=
  exists path o, o ∈ fp_Occurrences (filesByPath s path) /\ hydrateEntry s (filesByPath s path) o room = Some x.

Lemma selectDefinition_elem f terms o : selectDefinition f terms = Some o -> o ∈ fp_Occurrences f.
Proof.
  unfold selectDefinition. destruct (List.find (named_by terms) _) eqn:E; [intros [= <-]|intros E2; clear E; rename E2 into E]; apply List.find_some in E as [E _]; by apply list_elem_of_In.
Qed.

Lemma filesByPath_typed s path o : snapshot_typed s -> o ∈ fp_Occurrences (filesByPath s path) -> 0 <= oc_StartLine o < 2 ^ 32.
Proof.
  intros Hs. unfold filesByPath, ready_index. destruct (pv_State _); try set_solver. destruct (pv_Index _) as [files|] eqn:E; [|set_solver].
  unfold file_at. destruct (List.find _ _) as [f|] eqn:Ef; [|set_solver]. cbn. apply List.find_some in Ef as [Ef _]. apply list_elem_of_In in Ef. eapply Hs; [done|].
  rewrite <- (rev_involutive files). apply list_elem_of_In. rewrite <- List.in_rev. by apply list_elem_of_In.
Qed.

(** The entry's block is the block of the file its revision names. *)
Lemma hydrated_block s room x : snapshot_typed s -> room <= 64 -> hydrated s room x ->
  exists revision content, revision ∈ sn_Revisions s /\ re_Path revision = ev_Path x /\ re_RevisionID revision = ev_RevisionID x /\
    pv_Files (sn_Projection s) !! ev_Path x = Some content /\ sha256_hex content = re_ContentDigest revision /\ gitBlobOID content = re_BlobOID revision /\ block_of content x.
Proof.
  intros Hs Hroom (path & o & Ho & Hh). pose proof (filesByPath_typed _ _ _ Hs Ho) as Hl. unfold hydrateEntry in Hh. destruct (List.find _ _) as [revision|] eqn:Er; [|done].
  destruct (pv_Files _ !! _) as [content|] eqn:Ec; [|done]. cbv zeta in Hh. destruct (String.eqb (sha256_hex content) _) eqn:E1; [|done]. destruct (String.eqb (gitBlobOID content) _) eqn:E2; [|done]. destruct (String.eqb (fp_ContentDigest _) _); [|done]. cbn [negb] in Hh.
  destruct (blockLines _ _ _) as [|b block] eqn:Eb; [done|]. injection Hh as <-. apply List.find_some in Er as [Er Ep]. bool_prop. rewrite String.eqb_eq in *.
  exists revision, content. rewrite list_elem_of_In. split_and!; try done. destruct (blockLines_spec content (oc_StartLine o) room ltac:(lia)) as (A & B & C); [by rewrite Eb|].
  rewrite Eb in B, C. unfold block_of. cbn [ev_Lines ev_BlockStartLine]. split_and!; [lia|lia|lia|done].
Qed.

Lemma hydrated_typed s room entries text l : snapshot_typed s -> room <= 64 -> Forall (hydrated s room) entries -> request_typed (MkSynthesisRequest text entries l).
Proof.
  intros Hs Hroom He. eapply Forall_impl; [exact He|]. intros x Hx. destruct (hydrated_block _ _ _ Hs Hroom Hx) as (_ & _ & _ & _ & _ & _ & _ & _ & [Hb _] & _). lia.
Qed.

(** The deterministic synthesizer writes 32-bit numbers. *)
Lemma deterministic_typed x y : request_typed x -> DeterministicSynthesize x = Some y -> synthesis_typed y.
Proof.
  intros Hx. unfold DeterministicSynthesize. destruct (_ =? 0)%nat; [intros [= <-] c p Hc; cbn in Hc; set_solver|].
  assert (forall e i, 0 <= ev_BlockStartLine e -> Forall citation_typed (po_Citations (cited_line i e))) as Hcite.
  { intros e i He. unfold cited_line, selectValueLine. assert (forall z, 0 <= wrapU32 z) as Hw by (intros z; apply Z.mod_pos_bound; lia).
    destruct (value_line 0 (ev_Lines e)) as [[j l]|]; (constructor; [|constructor]); unfold citation_typed; cbn [pc_StartLine pc_StartColumn pc_EndLine pc_EndColumn]; auto. }
  assert (forall l i cs n, Forall (fun e => 0 <= ev_BlockStartLine e) l -> Forall (fun c => Forall citation_typed (po_Citations c)) cs ->
    Forall (fun c => Forall citation_typed (po_Citations c)) (fst (deterministic_claims (sq_Limits x) i cs n l))) as Hloop.
  { induction l as [|e l IH]; intros i cs n Hl Hcs; cbn [deterministic_claims]; [done|]. destruct (_ <=? _); [done|]. inversion_clear Hl. apply IH; [done|]. destruct (_ <? _); [done|].
    apply Forall_app. split; [done|]. constructor; [|constructor]. by apply Hcite. }
  specialize (Hloop (sq_Evidence x) 0 [] 0 Hx ltac:(constructor)). destruct (deterministic_claims _ _ _ _ _) as [claims bytes]. cbv zeta. destruct (_ <? _); [done|]. intros [= <-] c p Hc Hp.
  cbn [fst sy_Claims] in *. rewrite Forall_forall in Hloop. specialize (Hloop _ Hc). by rewrite Forall_forall in Hloop; apply Hloop.
Qed.

Lemma cites_grounded s room y entries c :
  snapshot_typed s -> room <= 64 -> synthesis_typed y -> Forall (hydrated s room) entries -> cites y entries s c -> grounded s c.
Proof.
  intros Hs Hroom Hy He (p & claim & text & Hc & Hp & Hv). unfold verifyCitation in Hv. destruct (_ <? 0); [done|]. destruct (entries !! _) as [x|] eqn:Ex; [|done].
  destruct (resolveSupportingText x p) as [[support digest]|] eqn:Er; [|done]. injection Hv as <- <-. pose proof (Forall_lookup_1 _ _ _ _ He Ex) as Hx.
  destruct (hydrated_block _ _ _ Hs Hroom Hx) as (revision & content & H1 & H2 & H3 & H4 & H5 & H6 & Hb). destruct (resolve_spans _ _ _ _ _ Hb (Hy _ _ Hc Hp) Er) as (Hd & Ht & Hsp).
  by exists revision, content, support.
Qed.
End grounded.

(** ** Outcomes of a query *)

Lemma sub_app {A} (l l1 l2 : list A) : (forall x, x ∈ l -> x ∈ l1) -> forall x, x ∈ l -> x ∈ (l1 ++ l2)%list.
Proof. set_solver. Qed.

Section outcomes.
Context `{GoRuntime} `{GitHash} `{LetterTable} (env : QueryEnv) (e : Engine) (q : Query).

Let authorized (a : Action) : option PortDecision := allowed (qe_authorize env (qu_Principal q) a (qu_SourceID q)).

(** Nothing is claimed, for the reasons given and at least one. *)
Definition refused (reasons : list Reason) (a : QueryAnswer) : Prop := exists rs, rs <> [] /\ (forall r, r ∈ reasons -> r ∈ rs) /\ a = abstention e q rs.

(** The verified claims of a synthesis, after the authorization and the admission to emit. *)
Definition emitted (s : QuerySnapshot) (packed : list EvidenceEntry) (reasons : list Reason) (a : QueryAnswer) : Prop :=
  exists y prose consistency d rs,
    qe_synthesize env (MkSynthesisRequest (qu_Text q) packed (LimitsSynthesis (eg_limits e))) = Some y /\
    let v := verifySynthesis y packed s (LimitsSynthesis (eg_limits e)) in
    ve_claims v <> [] /\ (prose = sy_Prose y \/ regenerateProse (ve_claims v) (MaxProseBytes (LimitsSynthesis (eg_limits e))) = Some prose) /\
    allowed (qe_authorize env (qu_Principal q) ActionEmit (qu_SourceID q)) = Some d /\ admitted env q s (pd_Epoch d) = true /\ (forall r, r ∈ reasons -> r ∈ rs) /\
    a = composeAnswer (qu_QueryID q) (ve_claims v) prose (sy_TokenUsage y) rs consistency (MaxReasons (eg_limits e)).

Lemma refused_abstention reasons rs : (forall r, r ∈ reasons -> r ∈ rs) -> rs <> [] -> refused reasons (abstention e q rs).
Proof. intros Hr Hn. by exists rs. Qed.

Lemma refused_app reasons rs r : (forall r, r ∈ reasons -> r ∈ rs) -> refused reasons (abstention e q (rs ++ [r])).
Proof. intros Hr. apply refused_abstention; [by apply sub_app|]. by destruct rs. Qed.

Lemma synthesize_outcome s packed reasons a : synthesize_answer env e q s packed reasons = Ok a -> refused reasons a \/ emitted s packed reasons a.
Proof.
  unfold synthesize_answer. destruct (qe_synthesize _ _) as [y|] eqn:Ey; [|destruct (qe_cancelled _ _); [done|]; intros [= <-]; left; by apply refused_app].
  cbv zeta. destruct (ve_structureFault _); [intros [= <-]; left; by apply refused_app|]. set (v := verifySynthesis _ _ _ _) in *.
  set (rs := if ve_citationFault v then _ else reasons). assert (forall r, r ∈ reasons -> r ∈ rs) as Hrs by (unfold rs; destruct (ve_citationFault v); set_solver).
  destruct (_ =? 0)%nat eqn:En.
  - intros [= <-]. left. unfold rs. destruct (ve_citationFault v); by apply refused_app.
  - clearbody rs. unfold emit_answer. destruct (if ve_citationFault v then _ else _) as [prose|] eqn:Ep; [|intros [= <-]; left; by apply refused_app].
    destruct (Evaluate _ _ _ _) as [c|]; [|done]. destruct (allowed _) as [d|] eqn:Ed; [|intros [= <-]; left; by apply refused_app].
    destruct (admitted _ _ _ _) eqn:Ea; [|destruct (qe_cancelled _ _); [done|]; intros [= <-]; left; by apply refused_app].
    intros [= <-]. right. exists y, prose, c, d, rs. split; [done|]. cbv zeta. fold v. split_and!; try done; [by destruct (ve_claims v)|]. destruct (ve_citationFault v); [by right|]. injection Ep as <-. by left.
Qed.

Lemma hydrate_all_spec s sel : Forall (fun fo => exists path, fst fo = filesByPath s path /\ snd fo ∈ fp_Occurrences (filesByPath s path)) sel ->
  Forall (hydrated s (MaxBlockLines (eg_limits e))) (fst (hydrate_all e s sel)).
Proof.
  induction 1 as [|[f o] sel (path & Hf & Ho) _ IH]; cbn; [constructor|]. cbn in Hf, Ho. subst f. destruct (hydrate_all e s sel) as [entries faults]. destruct (hydrateEntry _ _ _ _) eqn:E; [|done].
  constructor; [|done]. by exists path, o.
Qed.

Lemma selections_files s terms cs :
  Forall (fun fo => exists path, fst fo = filesByPath s path /\ snd fo ∈ fp_Occurrences (filesByPath s path)) (selections_of s terms cs).
Proof.
  apply Forall_forall. intros fo (c & _ & Hc)%list_elem_of_omap. destruct (cd_degraded c); [done|]. destruct (selectDefinition _ _) as [o|] eqn:Eo; [|done]. injection Hc as <-.
  exists (cd_path c). split; [done|]. by eapply selectDefinition_elem.
Qed.

(** The reasons of an abstention without evidence. *)
Lemma refused_unpacked reasons rs (faults : list Reason) (denied : bool) more : (forall r, r ∈ reasons -> r ∈ rs) -> (forall r, r ∈ faults -> r ∈ rs) ->
  refused reasons (abstention e q (if negb (is_nil faults) then rs else if denied then (rs ++ [ReasonAbsentSupport])%list else (rs ++ [ReasonAbsentSupport] ++ more)%list)).
Proof.
  intros Hr Hf. destruct faults as [|f faults]; cbn.
  - destruct denied; apply refused_abstention; try by apply sub_app. all: by destruct rs.
  - apply refused_abstention; [done|]. intros ->. specialize (Hf f). set_solver.
Qed.

Lemma ground_outcome s epoch reasons epoch' a : ground env e q s epoch reasons = Ok (epoch', a) ->
  refused reasons a \/ exists dh packed reasons', authorized ActionHydrate = Some dh /\ epoch' = pd_Epoch dh /\ Forall (hydrated s (MaxBlockLines (eg_limits e))) packed /\
    (forall r, r ∈ reasons -> r ∈ reasons') /\ emitted s packed reasons' a.
Proof.
  unfold ground. cbv zeta. set (cs := candidates_of _ _ _ _). pose proof (selections_files s (tokenizeQuery (qu_Text q)) cs) as Hsel. revert Hsel.
  generalize (selections_of s (tokenizeQuery (qu_Text q)) cs). intros sel Hsel. destruct (qe_cancelled _ _); [done|].
  set (decision := if is_nil sel then None else _). set (sel' := if match decision with Some None => true | _ => false end then [] else sel).
  assert (Forall (hydrated s (MaxBlockLines (eg_limits e))) (fst (hydrate_all e s sel'))) as Hh by (apply hydrate_all_spec; unfold sel'; by destruct decision as [[?|]|]).
  destruct (hydrate_all e s sel') as [entries faults] eqn:Eh. cbn [fst] in Hh. pose proof (packed_from_entries entries (eg_packing e) (eg_limits e)) as Hp.
  destruct (packEvidenceWithPolicy _ _ _) as [packed dropped]. cbn [fst] in Hp. set (rs1 := if negb (is_nil dropped) || _ then _ else _). set (rs := if existsb _ _ then _ else rs1).
  assert (forall r, r ∈ reasons \/ r ∈ faults -> r ∈ rs) as Hrs by (intros r Hr; unfold rs, rs1; destruct (existsb _ _), (_ || _); set_solver).
  destruct packed as [|x packed]; cbn [is_nil length Nat.eqb].
  - intros [= <- <-]. left. apply refused_unpacked; auto.
  - destruct (synthesize_answer _ _ _ _ _ _) as [a'|] eqn:Es; [|done]. intros [= <- <-]. destruct (synthesize_outcome _ _ _ _ Es) as [(rs' & Hn & Hsub & ->)|Hem]; [left; apply refused_abstention; auto|right].
    assert (exists dh, decision = Some (Some dh) /\ authorized ActionHydrate = Some dh) as (dh & -> & Hdh); [|exists dh, (x :: packed), rs; split_and!; auto].
    + assert (x ∈ entries) as Hx by (apply Hp; left). unfold sel', decision in *. unfold authorized. destruct (is_nil sel) eqn:En.
      * destruct sel; [|done]. cbn in Eh. injection Eh as <- <-. set_solver.
      * destruct (allowed _) as [dh|] eqn:Ed; [by exists dh|]. cbn in Eh. injection Eh as <- <-. set_solver.
    + apply Forall_forall. intros y Hy. by eapply Forall_forall in Hh; [|apply Hp].
Qed.

(** A result: the pinned snapshot with the disclosure of its freshness, and an
    answer that is refused or emitted. *)
Lemma Answer_outcome r : Answer env e q = Ok r ->
  exists s current epoch observedAt,
    qe_snapshot env (qu_SourceID q) (qu_GenerationID q) = Some s /\ qe_current env 0 (qu_SourceID q) = Some current /\
    let evaluation := evaluateFreshness (qu_Freshness q) s (gp_GenerationID current) in
    let reasons := if fe_Stale evaluation then [ReasonStaleSupport] else [] in
    r = pinResult s evaluation epoch observedAt (qr_Answer r) /\
    match authorized ActionQuery with
    | None => qr_Answer r = abstention e q [ReasonAbsentSupport]
    | Some _ => refused reasons (qr_Answer r) \/ exists dh packed reasons', authorized ActionHydrate = Some dh /\ epoch = pd_Epoch dh /\
        Forall (hydrated s (MaxBlockLines (eg_limits e))) packed /\ (forall x, x ∈ reasons -> x ∈ reasons') /\ emitted s packed reasons' (qr_Answer r)
    end.
Proof.
  unfold Answer. cbv zeta. destruct (qe_cancelled _ _); [done|]. destruct (query_validate _ _) as [[]|]; [|done]. cbn [rbind]. destruct (qe_cancelled _ _); [done|].
  destruct (qe_snapshot _ _ _) as [s|]; [|done]. destruct (qe_current _ _ _) as [current|]; [|done]. set (ev := evaluateFreshness _ _ _).
  set (epoch := pd_Epoch (fst _)). unfold authorized. intros Ha. destruct (allowed _) as [d|]; [|injection Ha as <-; by exists s, current, epoch, (qe_now env 0)].
  destruct (fe_AbstainStale ev) eqn:Eabs; [|destruct (ready_index s); [destruct (ground _ _ _ _ _ _) as [[epoch' a]|] eqn:Eg; [|done]|]]; injection Ha as <-.
  - exists s, current, epoch, (qe_now env 0). split_and!; try done. left. apply refused_abstention; [done|]. unfold ev, evaluateFreshness in *. destruct (negb _); [done|]. by destruct (bool_decide _).
  - exists s, current, epoch', (qe_now env 0). split_and!; try done. exact (ground_outcome _ _ _ _ _ Eg).
  - exists s, current, epoch, (qe_now env 0). split_and!; try done. left. by apply refused_app.
Qed.

(** Nothing is emitted without claims, and nothing is claimed by a refusal. *)
Lemma refused_claims reasons a : refused reasons a -> an_Claims a = [].
Proof. by intros (rs & _ & _ & ->). Qed.

Lemma emitted_claims s packed reasons a : emitted s packed reasons a -> exists y d,
  qe_synthesize env (MkSynthesisRequest (qu_Text q) packed (LimitsSynthesis (eg_limits e))) = Some y /\
  an_Claims a = ve_claims (verifySynthesis y packed s (LimitsSynthesis (eg_limits e))) /\ an_Claims a <> [] /\ authorized ActionEmit = Some d /\ admitted env q s (pd_Epoch d) = true.
Proof.
  intros (y & prose & c & d & rs & Hy & Hc & _ & Hd & Ha & _ & ->). exists y, d. unfold composeAnswer. cbv zeta in Hc. destruct (ve_claims _) eqn:Ec; [done|]. by cbn.
Qed.

(** The outcome of an answer that makes a claim. *)
Lemma Answer_claims r : Answer env e q = Ok r -> an_Claims (qr_Answer r) <> [] ->
  exists s dq dh de y packed,
    qe_snapshot env (qu_SourceID q) (qu_GenerationID q) = Some s /\ authorized ActionQuery = Some dq /\ authorized ActionHydrate = Some dh /\ authorized ActionEmit = Some de /\
    admitted env q s (pd_Epoch de) = true /\ fn_ACLEpoch (qr_Freshness r) = pd_Epoch dh /\ Forall (hydrated s (MaxBlockLines (eg_limits e))) packed /\
    qe_synthesize env (MkSynthesisRequest (qu_Text q) packed (LimitsSynthesis (eg_limits e))) = Some y /\
    an_Claims (qr_Answer r) = ve_claims (verifySynthesis y packed s (LimitsSynthesis (eg_limits e))).
Proof.
  intros Ha Hc. destruct (Answer_outcome _ Ha) as (s & current & epoch & at_ & Hs & _ & Hr & Hcase). destruct (authorized ActionQuery) as [dq|]; [|by rewrite Hcase in Hc].
  destruct Hcase as [Href|(dh & packed & rs & Hdh & -> & Hh & _ & Hem)]; [by apply refused_claims in Href|]. destruct (emitted_claims _ _ _ _ Hem) as (y & de & Hy & Hcl & _ & Hde & Had).
  exists s, dq, dh, de, y, packed. split_and!; try done. by rewrite Hr.
Qed.
End outcomes.

(** ** Denials *)

(** The snapshot with other bytes for its files. *)
Definition with_bytes (g : gmap string string -> gmap string string) (s : QuerySnapshot) : QuerySnapshot :=
  MkSnapshot (sn_GenerationID s) (sn_Sequence s) (sn_CommitOID s) (sn_TreeOID s) (sn_State s) (sn_Revisions s)
    (MkProjectionView (pv_State (sn_Projection s)) (pv_Index (sn_Projection s)) (g (pv_Files (sn_Projection s)))).

(** The environment with other bytes, another synthesizer, scorer and admitter. *)
Definition with_content (env : QueryEnv) g synthesize admitter scorer score : QueryEnv :=
  MkQueryEnv (qe_cancelled env) (qe_authorize env) (fun src gen => with_bytes g <$> qe_snapshot env src gen) (qe_current env) (qe_now env) (qe_graph env) (qe_dense env)
    (qe_rerank env) synthesize admitter scorer score.

Section denials.
Context `{GoRuntime} `{GitHash} `{LetterTable} (env : QueryEnv) (e : Engine) (q : Query).
Context (g : gmap string string -> gmap string string) (synthesize : SynthesisRequest -> option Synthesis)
  (admitter : option (nat -> EvidenceAdmissionRequest -> bool)) (scorer : bool) (score : ScoreCall).

Let env' : QueryEnv := with_content env g synthesize admitter scorer score.

(** Without a reranker the candidates come from the index alone. *)
Lemma candidates_without_bytes s text : qe_rerank env = None -> candidates_of env' e (with_bytes g s) text = candidates_of env e s text.
Proof.
  intros Hr. unfold candidates_of, expandHybridDense. cbn [env' with_content qe_graph qe_dense qe_rerank qe_cancelled]. rewrite Hr. by destruct s as [? ? ? ? ? ? []].
Qed.

(** With the hydration denied, nothing after it is reached. *)
Lemma ground_denied s epoch reasons :
  qe_rerank env = None -> allowed (qe_authorize env (qu_Principal q) ActionHydrate (qu_SourceID q)) = None -> ground env' e q (with_bytes g s) epoch reasons = ground env e q s epoch reasons.
Proof.
  intros Hr Hd. unfold ground. rewrite (candidates_without_bytes s (qu_Text q) Hr). cbn [env' with_content qe_authorize qe_cancelled]. rewrite Hd.
  change (selections_of (with_bytes g s)) with (selections_of s). change (unindexedMentions (with_bytes g s)) with (unindexedMentions s).
  change (computeCoverage (with_bytes g s)) with (computeCoverage s). set (sel := selections_of _ _ _).
  assert ((if match (if is_nil sel then None else Some (@None PortDecision)) with Some None => true | _ => false end then [] else sel) = []) as E by by destruct sel.
  cbv zeta. by rewrite E; cbn [hydrate_all]; rewrite packEvidence_nil.
Qed.

(** C18. A denied principal learns nothing from the content: when the query, or
    the hydration of an engine without a reranker, is denied, the result is the
    same whatever the files hold and whatever the synthesizer, the admitter and
    the scorer would do. *)
Theorem denial_hides_content :
  allowed (qe_authorize env (qu_Principal q) ActionQuery (qu_SourceID q)) = None
  \/ qe_rerank env = None /\ allowed (qe_authorize env (qu_Principal q) ActionHydrate (qu_SourceID q)) = None ->
  Answer (with_content env g synthesize admitter scorer score) e q = Answer env e q.
Proof.
  intros Hd. fold env'. unfold Answer. cbn [env' with_content qe_cancelled qe_authorize qe_snapshot qe_current qe_now]. fold env'.
  destruct (qe_cancelled env AtStart); [done|]. destruct (query_validate _ _) as [[]|]; [|done]. cbn [rbind]. destruct (qe_cancelled env AfterQueryDecision); [done|].
  destruct (qe_snapshot _ _ _) as [s|]; [|done]. cbn. destruct (qe_current _ _ _) as [current|]; [|done].
  change (evaluateFreshness (qu_Freshness q) (with_bytes g s)) with (evaluateFreshness (qu_Freshness q) s). change (pinResult (with_bytes g s)) with (pinResult s). change (ready_index (with_bytes g s)) with (ready_index s).
  destruct Hd as [->|[Hr Hd]]; [done|]. by rewrite ground_denied.
Qed.
End denials.

(** ** Shapes *)

(** The status follows from the claims and the reasons, and everything is within its limit. *)
Definition well_formed (l : QueryLimits) (a : QueryAnswer) : Prop :=
  match an_Status a with
  | StatusAbstained => an_Claims a = [] /\ an_Prose a = "" /\ an_DegradedReasons a <> []
  | StatusPartial => an_Claims a <> [] /\ an_Prose a <> "" /\ an_DegradedReasons a <> []
  | StatusAnswered => an_Claims a <> [] /\ an_Prose a <> "" /\ an_DegradedReasons a = []
  end
  /\ Z.of_nat (length (an_Claims a)) <= MaxClaims (LimitsSynthesis l) /\ len (an_Prose a) <= MaxProseBytes (LimitsSynthesis l)
  /\ Z.of_nat (length (an_DegradedReasons a)) <= MaxReasons l /\ NoDup (an_DegradedReasons a) /\ Forall (claim_in_limits (LimitsSynthesis l)) (an_Claims a).

Lemma compose_shape l id claims prose tokens reasons c : limits_validate l = Ok tt ->
  (claims = [] -> reasons <> []) -> (claims <> [] -> prose <> "" /\ len prose <= MaxProseBytes (LimitsSynthesis l)) ->
  Z.of_nat (length claims) <= MaxClaims (LimitsSynthesis l) -> Forall (claim_in_limits (LimitsSynthesis l)) claims ->
  well_formed l (composeAnswer id claims prose tokens reasons c (MaxReasons l)).
Proof.
  intros Hl%limits_positive Hr Hp Hn Hf. unfold composeAnswer. pose proof (canonicalReasons_NoDup reasons (MaxReasons l)) as Hd. pose proof (canonicalReasons_length reasons (MaxReasons l) ltac:(lia)) as Hlen.
  unfold well_formed. destruct claims as [|x claims]; cbn [length Nat.eqb an_Status an_Claims an_Prose an_DegradedReasons].
  - split_and!; try done; try lia; [|unfold len; cbn; lia]. apply canonicalReasons_cons; [auto|lia].
  - destruct (Hp ltac:(done)). destruct (canonicalReasons reasons (MaxReasons l)); cbn [length Nat.eqb] in *; by split_and!.
Qed.

Lemma join_nonempty (x : string) rest : x <> "" -> GoString.join " " (x :: rest) <> "".
Proof. intros Hx. destruct rest; cbn; [done|]. by destruct x. Qed.

Lemma regenerated_prose l claims prose max : claims <> [] -> Forall (claim_in_limits l) claims -> regenerateProse claims max = Some prose -> prose <> "" /\ len prose <= max.
Proof.
  intros Hc Hf. unfold regenerateProse. destruct (_ <? _) eqn:E; [done|]. intros [= <-]. bool_prop. split; [|lia]. destruct claims as [|c claims]; [done|]. apply join_nonempty. by inversion_clear Hf as [|? ? (? & _)].
Qed.

(** ** Promises *)

Section promises.
Context `{GoRuntime} `{GitHash} `{LetterTable}.

(** C4. Every claim of an answer is grounded: it has a citation, and each of its
    citations names a file of the pinned snapshot whose bytes hash to the digest
    and the blob of the manifest, and a non-empty range of these bytes whose
    text hashes to the digest of the citation, whatever the synthesizer
    proposed. *)
Theorem answers_are_grounded env legacy limits packing e q r :
  NewEngine env legacy limits packing = Ok e ->
  (forall src gen s, qe_snapshot env src gen = Some s -> snapshot_typed s) -> (forall x y, request_typed x -> qe_synthesize env x = Some y -> synthesis_typed y) ->
  Answer env e q = Ok r ->
  exists s, qe_snapshot env (qu_SourceID q) (qu_GenerationID q) = Some s /\
    Forall (fun c => ac_Citations c <> [] /\ Forall (grounded s) (ac_Citations c)) (an_Claims (qr_Answer r)).
Proof.
  intros [El Hl%limits_positive]%NewEngine_limits Hs Hy Ha. destruct (decide (an_Claims (qr_Answer r) = [])) as [->|Hc].
  { destruct (Answer_outcome _ _ _ _ Ha) as (s & _ & _ & _ & Hsn & _). exists s. by split. }
  destruct (Answer_claims _ _ _ _ Ha Hc) as (s & _ & _ & _ & y & packed & Hsn & _ & _ & _ & _ & _ & Hh & Hsy & Hcl). exists s. split; [done|].
  rewrite Hcl in Hc |- *. destruct (verifySynthesis_spec _ _ _ _ Hc) as (_ & _ & _ & Hin & Hci). rewrite Forall_forall in Hin, Hci |- *. intros c Hcin. split; [by apply Hin|].
  apply Forall_forall. intros x Hx. specialize (Hci _ Hcin). rewrite Forall_forall in Hci. rewrite El in Hh. assert (MaxBlockLines limits <= 64) as Hroom by lia.
  eapply cites_grounded; [by eapply Hs|exact Hroom|eapply Hy; [by eapply hydrated_typed; [eapply Hs|..]|done]|exact Hh|by apply Hci].
Qed.

(** C5. Claims are emitted only after the three authorizations, and, in an engine
    that admits evidence, only if the evidence was admitted before and after a
    recheck that found the pinned generation current; the disclosed epoch is
    that of the hydration. *)
Theorem emission_is_authorized env e q r :
  Answer env e q = Ok r -> an_Claims (qr_Answer r) <> [] ->
  exists s dq dh de,
    qe_snapshot env (qu_SourceID q) (qu_GenerationID q) = Some s /\
    qe_authorize env (qu_Principal q) ActionQuery (qu_SourceID q) = (dq, false) /\ pd_Allowed dq = true /\
    qe_authorize env (qu_Principal q) ActionHydrate (qu_SourceID q) = (dh, false) /\ pd_Allowed dh = true /\ fn_ACLEpoch (qr_Freshness r) = pd_Epoch dh /\
    qe_authorize env (qu_Principal q) ActionEmit (qu_SourceID q) = (de, false) /\ pd_Allowed de = true /\
    forall admitter, qe_admit env = Some admitter ->
      admitter 0%nat (MkAdmission (qu_SourceID q) (sn_GenerationID s) (pd_Epoch de) (qe_now env 1)) = true /\
      qe_current env 1 (qu_SourceID q) = Some (MkPin (qu_SourceID q) (sn_GenerationID s)) /\
      admitter 1%nat (MkAdmission (qu_SourceID q) (sn_GenerationID s) (pd_Epoch de) (qe_now env 2)) = true.
Proof.
  intros Ha Hc. destruct (Answer_claims _ _ _ _ Ha Hc) as (s & dq & dh & de & _ & _ & Hsn & Hq & Hh & He & Had & Hep & _).
  assert (forall d x, allowed d = Some x -> d = (x, false) /\ pd_Allowed x = true) as Hall.
  { intros [x []] y; cbn; [done|]. unfold allowed. cbn. destruct (pd_Allowed x) eqn:E; [|done]. by intros [= <-]. }
  apply Hall in Hq as [Hq1 Hq2], Hh as [Hh1 Hh2], He as [He1 He2]. exists s, dq, dh, de. split_and!; try done. intros admitter Hadm. unfold admitted in Had. rewrite Hadm in Had.
  unfold admitEvidenceAtEmitBoundary in Had. destruct (admitter 0%nat _) eqn:E0; [|done]. cbn in Had. destruct (qe_cancelled _ _); [done|]. destruct (qe_current env 1 _) as [[a b]|]; [|done].
  cbn in Had. destruct (String.eqb a _) eqn:Ea; [|done]. destruct (String.eqb b _) eqn:Eb; [|done]. cbn in Had. by rewrite String.eqb_eq in Ea, Eb; subst.
Qed.

(** C19. An answer is well formed: it abstains exactly when it makes no claim, and
    then without prose and with a reason; it is partial exactly when it makes
    claims and gives reasons; its claims, their statements and citations, its
    prose and its reasons are within the limits of the engine. *)
Theorem answers_are_well_formed env legacy limits packing e q r :
  NewEngine env legacy limits packing = Ok e -> Answer env e q = Ok r -> well_formed limits (qr_Answer r).
Proof.
  intros [El Hl]%NewEngine_limits Ha. pose proof (limits_positive _ Hl) as Hpos. destruct (Answer_outcome _ _ _ _ Ha) as (s & current & epoch & at_ & Hs & _ & _ & Hcase).
  assert (forall rs, rs <> [] -> well_formed limits (abstention e q rs)) as Habs by (intros rs Hrs; unfold abstention; rewrite El; apply compose_shape; try done; cbn; lia).
  destruct (allowed _) as [dq|]; [|rewrite Hcase; by apply Habs].
  destruct Hcase as [(rs & Hrs & _ & ->)|(dh & packed & rs & _ & _ & _ & _ & y & prose & c & d & rs' & Hy & Hem)]; [by apply Habs|].
  cbv zeta in Hem. rewrite El in Hem. destruct Hem as (Hc & Hp & _ & _ & _ & ->). destruct (verifySynthesis_spec _ _ _ _ Hc) as (Hn & Hlen & Hcount & Hin & _).
  apply compose_shape; try done. intros _. destruct Hp as [->|Hp]; [by split|]. by eapply regenerated_prose.
Qed.

(** C21. A superseded pin tells a denial from an absence: a denied principal gets
    absent support alone, and an allowed one always a disclosure of staleness. *)
Theorem denial_shows_on_superseded_pins env e q r s current :
  2 <= MaxReasons (eg_limits e) -> Answer env e q = Ok r -> qe_snapshot env (qu_SourceID q) (qu_GenerationID q) = Some s ->
  qe_current env 0 (qu_SourceID q) = Some current -> gp_GenerationID current <> sn_GenerationID s ->
  if allowed (qe_authorize env (qu_Principal q) ActionQuery (qu_SourceID q)) is Some _ then ReasonStaleSupport ∈ an_DegradedReasons (qr_Answer r)
  else an_DegradedReasons (qr_Answer r) = [ReasonAbsentSupport].
Proof.
  intros Hmax Ha Hs Hcur Hne. destruct (Answer_outcome _ _ _ _ Ha) as (s' & current' & epoch & at_ & Hs' & Hc' & _ & Hcase). rewrite Hs in Hs'. rewrite Hcur in Hc'. injection Hs' as <-. injection Hc' as <-.
  assert (fe_Stale (evaluateFreshness (qu_Freshness q) s (gp_GenerationID current)) = true) as Hst by (unfold evaluateFreshness; destruct (String.eqb_spec (sn_GenerationID s) (gp_GenerationID current)); [congruence|done]).
  rewrite Hst in Hcase. destruct (allowed _) as [dq|].
  - destruct Hcase as [(rs & Hrs & Hsub & ->)|(dh & packed & rs & _ & _ & _ & Hsub & y & prose & c & d & rs' & _ & Hc & _ & _ & _ & Hsub' & ->)]; [|unfold composeAnswer; destruct (_ =? 0)%nat];
      apply canonicalReasons_stale; set_solver.
  - rewrite Hcase. apply (canonicalReasons_absent (MaxReasons (eg_limits e))). lia.
Qed.
End promises.
