(* ===== verification/QueryDemo.v ===== *)
(** * query: the engine on concrete inputs

    One indexed file, a question about its definition, and the deterministic
    synthesizer.  The theorems of [QuerySafety] applied to these queries. *)

From Stdlib Require Import Ascii String.
From S2P Require Import Prelude GoString Float64 Runtime FactualConsistency QueryTypes QueryRetrieval QueryEvidence QueryEngine QuerySafety.
From stdpp Require Import gmap strings.
Open Scope string_scope.
Open Scope Z_scope.

#[local] Existing Instance demo_runtime.
#[local] Instance demo_git : GitHash := {| sha1_hex := fun s => "1" ++ dec (checksum s 5) |}.
#[local] Instance demo_letters : LetterTable := {| is_letter := fun c => (65 <=? c) && (c <=? 90) || (97 <=? c) && (c <=? 122) |}.

Definition port_go : string := "package net" ++ NL ++ "func Port() int {" ++ NL ++ "  return 8080" ++ NL ++ "}".
Definition port_file : FileProjection := MkFileProjection "port.go" "go" ("sha256:" ++ sha256_hex port_go) "full" [MkOccurrence KindDefinition "Port" 2].
Definition old_file : FileProjection := MkFileProjection "old.go" "go" "" CoverageLexicalDegraded [].

Definition port_snapshot : QuerySnapshot :=
  MkSnapshot "g7" 7 "commit7" "tree7" GenerationReady [MkFileRevision "port.go" (gitBlobOID port_go) (sha256_hex port_go) "rev1"; MkFileRevision "old.go" "" "" "rev2"]
    (MkProjectionView ProjectionReady (Some [port_file; old_file]) {[ "port.go" := port_go ]}).

(** Who is denied what, which generation is current, and the reranker. *)
Definition demo_env (denied : list Action) (current : string) (rerank : option (string -> list string -> gmap string string -> Z -> list string)) : QueryEnv :=
  MkQueryEnv (fun _ => false)
    (fun _ a _ => (MkPortDecision (negb (existsb (fun d => match d, a with ActionQuery, ActionQuery | ActionHydrate, ActionHydrate | ActionEmit, ActionEmit => true | _, _ => false end) denied)) 3, false))
    (fun _ _ => Some port_snapshot) (fun _ src => Some (MkPin src current)) (fun n => Z.of_nat n) None None rerank DeterministicSynthesize (Some (fun _ _ => true)) false
    (MkScoreCall false false false (fun _ => None)).

Definition demo_engine : Engine := MkEngine DefaultQueryLimits (MkPackPolicy "" 0 0).
Definition ask (text : string) : Query := MkQuery "q1" (MkPrincipal "t" "p" "s") "src" "g7" text FreshnessBestEffort "key".
Definition open_env : QueryEnv := demo_env [] "g7" None.

Definition answer_of (env : QueryEnv) (text : string) : option QueryAnswer := match Answer env demo_engine (ask text) with Ok r => Some (qr_Answer r) | Err _ => None end.

Example port_answered :
  option_map (fun a => (an_Status a, an_Prose a, (fun c => (ci_Path c, ci_StartLine c, ci_StartColumn c, ci_EndColumn c)) <$> concat (ac_Citations <$> an_Claims a))) (answer_of open_env "what is Port?")
  = Some (StatusAnswered, "port.go: return 8080.", [("port.go", 3, 3, 14)]).
Proof. vm_compute. reflexivity. Qed.

Definition result_of (env : QueryEnv) (text : string) : QueryResult :=
  match Answer env demo_engine (ask text) with Ok r => r | Err _ => pinResult port_snapshot (MkEvaluation FreshnessCurrent false false) 0 0 (abstention demo_engine (ask text) []) end.

Lemma port_snapshot_typed : snapshot_typed port_snapshot.
Proof.
  intros files f o [= <-] Hf Ho. apply elem_of_cons in Hf as [->|Hf]; [|apply list_elem_of_singleton in Hf as ->; set_solver].
  apply list_elem_of_singleton in Ho as ->. cbn. lia.
Qed.

Lemma answers_are_grounded_witness : exists c, concat (ac_Citations <$> an_Claims (qr_Answer (result_of open_env "what is Port?"))) = [c] /\ ci_Path c = "port.go" /\ grounded port_snapshot c.
Proof.
  destruct (answers_are_grounded open_env false DefaultQueryLimits (MkPackPolicy "" 0 0) demo_engine (ask "what is Port?") (result_of open_env "what is Port?")) as (s & [= <-] & Hall).
  - vm_compute. reflexivity.
  - intros src gen s [= <-]. exact port_snapshot_typed.
  - intros x y Hx Hy. by eapply deterministic_typed.
  - vm_compute. reflexivity.
  - remember (qr_Answer (result_of open_env "what is Port?")) as a eqn:Ea. vm_compute in Ea. subst a. cbn in *. inversion_clear Hall as [|? ? [_ Hc] _]. inversion_clear Hc as [|? ? Hg _].
    eexists. split; [reflexivity|]. split; [reflexivity|exact Hg].
Defined.

Lemma emission_is_authorized_witness : exists de, qe_authorize open_env (MkPrincipal "t" "p" "s") ActionEmit "src" = (de, false) /\ pd_Allowed de = true.
Proof.
  destruct (emission_is_authorized open_env demo_engine (ask "what is Port?") (result_of open_env "what is Port?")) as (s & dq & dh & de & _ & _ & _ & _ & _ & _ & He & Ha & _).
  - vm_compute. reflexivity.
  - vm_compute. discriminate.
  - exists de. split; [exact He|exact Ha].
Defined.

(** Denied at the hydration, the answer is the same over an empty corpus. *)
Lemma denial_hides_content_witness :
  Answer (with_content (demo_env [ActionHydrate] "g7" None) (fun _ => ∅) (fun _ => None) None false (MkScoreCall true true true (fun _ => None))) demo_engine (ask "what is Port?")
  = Answer (demo_env [ActionHydrate] "g7" None) demo_engine (ask "what is Port?").
Proof. apply denial_hides_content. right. split; vm_compute; reflexivity. Defined.

(** A reranker reads the files before the hydration is authorized: denied there,
    the answer still depends on what they hold. *)
Definition keyword_rerank (question : string) (paths : list string) (bodies : gmap string string) (max : Z) : list string :=
  if bool_decide (bodies !! "port.go" = Some port_go) then ["port.go"] else paths.
Definition other_bytes (env : QueryEnv) : QueryEnv := with_content env (fun _ => {[ "port.go" := "secret" ]}) (qe_synthesize env) (qe_admit env) false (qe_score env).

Example reranked_denial_depends_on_content :
  let env := demo_env [ActionHydrate] "g7" (Some keyword_rerank) in
  (an_DegradedReasons <$> answer_of env "see port.go and old.go", an_DegradedReasons <$> answer_of (other_bytes env) "see port.go and old.go")
  = (Some [ReasonAbsentSupport], Some [ReasonAbsentSupport; ReasonLaneDegraded]).
Proof. vm_compute. reflexivity. Qed.

Lemma answers_are_well_formed_witness : well_formed DefaultQueryLimits (qr_Answer (result_of open_env "see old.go and port.go")) /\ an_Status (qr_Answer (result_of open_env "see old.go and port.go")) = StatusPartial.
Proof.
  split; [|vm_compute; reflexivity].
  apply (answers_are_well_formed open_env false DefaultQueryLimits (MkPackPolicy "" 0 0) demo_engine (ask "see old.go and port.go")); vm_compute; reflexivity.
Defined.

(** A superseded pin, asked for best effort: the recheck before the emission refuses it. *)
Example superseded_pin_abstains :
  option_map (fun a => (an_Status a, an_DegradedReasons a)) (answer_of (demo_env [] "g8" None) "what is Port?") = Some (StatusAbstained, [ReasonAbsentSupport; ReasonStaleSupport]).
Proof. vm_compute. reflexivity. Qed.

Lemma denial_shows_on_superseded_pins_witness :
  an_DegradedReasons (qr_Answer (result_of (demo_env [ActionQuery] "g8" None) "what is Nothing?")) = [ReasonAbsentSupport] /\
  ReasonStaleSupport ∈ an_DegradedReasons (qr_Answer (result_of (demo_env [] "g8" None) "what is Nothing?")).
Proof.
  split.
  - apply (denial_shows_on_superseded_pins (demo_env [ActionQuery] "g8" None) demo_engine (ask "what is Nothing?") _ port_snapshot (MkPin "src" "g8")); vm_compute; first [reflexivity|discriminate].
  - apply (denial_shows_on_superseded_pins (demo_env [] "g8" None) demo_engine (ask "what is Nothing?") _ port_snapshot (MkPin "src" "g8")); vm_compute; first [reflexivity|discriminate].
Defined.

(** Three entries packed head and tail, two of them at most. *)
Definition entry_of (path : string) : EvidenceEntry := MkEntry path "go" "rev" "" "" 1 ["line"] "".

Lemma packing_is_bounded_and_complete_witness :
  Forall (fun x => entryBytes x <= 4096) [entry_of "a"; entry_of "c"] /\ [entry_of "a"; entry_of "c"; entry_of "b"] ≡ₚ [entry_of "a"; entry_of "b"; entry_of "c"].
Proof.
  destruct (packing_is_bounded_and_complete [entry_of "a"; entry_of "b"; entry_of "c"] (MkPackPolicy PackOrderHeadTail 2 0) DefaultQueryLimits [entry_of "a"; entry_of "c"] [entry_of "b"])
    as (Hp & _ & _ & Hf); [vm_compute; reflexivity|vm_compute; reflexivity|].
  split; [exact Hf|exact Hp].
Defined.
